(* ===== verification/_CoqProject ===== *)
-Q . S2P
Prelude.v
Bytes.v
Platform.v
Bavl.v
CAvl.v
LinkedLists.v
CHash.v
Pending.v
Reactor.v
Text.v
NetProto.v
Addr.v
CString.v
Numbers.v
Ipaddr6.v
Networks.v
PacketProto.v
ChunkBuffer.v
Flow.v
Channel.v
Connection.v
Tap.v
Sockets.v
SocksClient.v
Options.v
UdpGw.v
UdpGwServer.v
UdpGwOptions.v
SocksUdpGw.v
TcpClient.v
StringMap.v
Trees.v
Device.v
FairQueue.v
QueueTrees.v
Program.v
