(* ===== verification/Prelude.v ===== *)
(** * A verification library for tun2socks

    ** The program

    The native part of this plugin (src/android/jni) is BadVPN's [tun2socks], as
    changed by Psiphon: it reads IP packets from a TUN device and sends what they
    carry through a SOCKS server.

    - tun2socks/tun2socks.c reads packets from the device.  UDP packets are taken
      out: DNS requests are relayed to a DNS server over a UDP socket with a
      SOCKS UDP header, other datagrams go to a UDP gateway.  Everything else is
      given to lwIP, which terminates the TCP connections; each accepted
      connection becomes a client that is relayed over a SOCKS connection.
    - socksclient/BSocksClient.c makes one SOCKS5 connection.
    - udpgw_client/UdpGwClient.c multiplexes datagrams over one stream, and
      tun2socks/SocksUdpGwClient.c keeps that stream up over SOCKS.
    - flow/ holds the packet plumbing between them: framing on a stream
      (the PacketProto files), buffers, connectors, and the fair queue in which the
      connections of the gateway client share its stream.
    - base/BPending.c and system/BReactor_badvpn.c are the event loop that runs
      all of it: jobs, timers and file descriptors.
    - structure/, stringmap/, system/BAddr.h and misc/ hold the data structures,
      addresses, protocol headers and integers they use.

    Everything is event driven and single threaded: a component is an object
    whose handlers run to completion, call into other objects, and ask for jobs
    to run later.

    ** The library

    Each file models the sources its own header names; definitions keep the
    names of the C functions, and the state of an object is a record of the
    fields of its C structure.

    - Prelude (this file): builds, the handler monad [M] with its weakest
      preconditions [wp], memory as lists of bytes, shared lemmas and tactics.
    - Bytes: byte order, [bsize_t], alignment (misc/).
    - Platform: integers in memory (misc/read_write_int.h), the sizes of allocations
      (misc/balloc.h) and the clock (system/BTime.h).
    - Bavl: the AVL trees of structure/BAVL.h at the level of their pointers.
    - CAvl: those of structure/CAvl_impl.h and SAvl_impl.h, with the proofs of Bavl
      for what they share.
    - LinkedLists: the doubly linked lists of structure/LinkedList1.h.
    - CHash: the hash tables of structure/CHash_impl.h.
    - Pending: the job queue of base/BPending.c with its linked list.
    - Reactor: the event loop of system/BReactor_badvpn.c.
    - Text: number formatting and parsing of the C library.
    - NetProto: IPv4, IPv6, UDP, DNS and SOCKS headers, parsers and checksums.
    - Addr: addresses (system/BAddr.h).
    - CString, Numbers: strings in pieces (misc/cstring.h), and numbers in text
      (misc/parse_number.h), read from buffers or from such strings.
    - Ipaddr6, Networks: IPv6 addresses in text (misc/ipaddr6.h); IPv4 addresses in
      text, masks, prefixes and networks of both (misc/ipaddr.h, ipaddr6.h).
    - PacketProto: the encoder and the decoder of framed packets.
    - ChunkBuffer, Flow: the circular buffer of structure/ChunkBuffer2.h, and the
      buffers, senders, connectors and the interface of flow/ built on it.
    - Channel: the receiving interface, flow/PacketProtoFlow.c, which composes
      writer, encoder and buffer over it, and
      flowextra/PacketPassInactivityMonitor.c.
    - Connection: the two stream interfaces of flow/ and
      system/BConnection_unix.c: listener, connector and connection.
    - Tap: tuntap/BTap.c, with the buffer and the interface it is read through.
    - Sockets: devices opened by name, and Unix sockets.
    - SocksClient: the SOCKS5 client.
    - Options: the options of tun2socks.c, the parser of the command line and the
      processing of the arguments.
    - UdpGw, SocksUdpGw: the gateway client, and the client that reconnects it.
      The latter is proved against the class [GwClient], which the former
      discharges.
    - UdpGwServer: the gateway at the other end of that stream (udpgw/udpgw.c).
    - UdpGwOptions: its command line and its [main].
    - TcpClient: the [client_*] functions of tun2socks.c, over lwIP as the class
      [Lwip] with the laws [LwipOk].
    - StringMap: stringmap/BStringMap.c with its allocations.
    - Trees: the lists that UdpGw and StringMap use for their trees are what the
      AVL trees of Bavl hold.
    - Device: the packet functions of tun2socks.c and the DNS relay.
    - FairQueue: flow/PacketPassFairQueue.c.
    - QueueTrees: the ordered lists that Reactor and FairQueue use for the timers and
      the queued flows are what the AVL trees of CAvl hold.
    - Program: [run] of tun2socks.c from start to end with its failure labels,
      the handlers of the event loop, the accepted clients of TcpClient in their
      list, and the functions Java calls.

    ** How code is modelled

    A handler is a function of [M S E A]: it takes the state [S] of its object
    and gives a result, the new state, and the calls it makes into other objects,
    in order, as events of [E].  [None] is the end of the program by a failed
    assertion, an access outside an object or through a pointer that is null or
    freed, or by running out of fuel; theorems that a handler returns [Some]
    exclude all of them.  What the environment decides (the result of an
    allocation or a system call, the bytes received, which handler runs next) is
    an argument of the handler or of a step; the invariants are proved for every
    sequence of steps the contracts of the objects allow.

    Integers are [Z] with their width written out ([u8], [u16], [u32], [u64])
    wherever the code may wrap.  The target is the one Android.mk builds: Linux,
    little endian, 32-bit [size_t], with the PSIPHON changes.  The class [Build]
    says whether assertions are compiled in; theorems hold for both builds unless
    they name one.

    Loops that are not structural take fuel: the bytes left for the loops that
    send or copy, the number of connections for the search of a free conid, the
    number of nodes in memory plus one for the paths in a tree, the length of a
    list for the loops that empty it, the length of a file for the loop that reads
    it, four for the carries of a checksum.  In each case a theorem shows that the
    fuel given by the definitions is enough, because none of them allows [None].

    ** What is proved

    - TCP clients: no handler touches a freed client or fails an assertion, and
      the client is deallocated once, exactly when both sides are closed
      (tcp_client_safe); the bytes given to SOCKS, and those given to lwIP, are a
      prefix of those received from the other side, in order, and the rest is
      still held (tcp_to_socks_stream, socks_to_tcp_stream).
    - SOCKS: the dialogue is safe for every server (socks_safe), when it is up
      exactly the right messages were exchanged (socks_up_dialog), and with a server
      that accepts it the client gets up, in whatever pieces the server answers
      (socks_completes).
    - UDP gateway: the tables stay consistent and within their bounds
      (udpgw_invariant), submitting a packet is the least-recently-used table it
      is meant to be (udpgw_submit), received packets reach the connection they
      name (udpgw_receive), a free conid is found (udpgw_conid_search), the trees
      are sound (udpgw_trees_bavl); the stream is reconnected (socks_udpgw_reconnects).
      The gateway itself is safe for all clients, packets and answers of the system
      and loses nothing (udpgw_server_safe), its connections never share a conid or a
      local port to one remote address (udpgw_server_ports), and a datagram comes
      through client and gateway, where there is room for it, and its answer back
      (udpgw_roundtrip).  Its [main]
      takes down what it has set up on every path and serves only with a well-formed
      configuration (udpgw_main), read by the grammar of its command line
      (udpgw_arguments_grammar).
    - Framing: any way of cutting the stream into pieces gives the packets back
      (decoder_reassembles), and bad input is an error, never a
      read outside the buffer (decoder_any_input).
    - Flow: the buffers are FIFO queues (chunkbuffer_queue, packetbuffer_fifo),
      the interface keeps its protocol (ppi_protocol), a sender sends everything
      (stream_sender_sends_all), the connector loses nothing
      (connector_keeps_packets).  Composed, whatever the order of the jobs, the
      bytes that leave a PacketProtoFlow are the frames of the packets written
      to it, and all of them leave (packetprotoflow_frames); sent over a stream cut
      in any way they are decoded to the same packets (channel_delivers).  The
      inactivity monitor calls its handler exactly after an interval without
      sending (monitor_detects_inactivity).  The fair queue is safe (fairqueue_safe), fair
      to within one packet of the largest size (fairqueue_fair) and its 64-bit
      times behave like exact ones (fairqueue_time_overflow); fairqueue_idle_debt says what the code
      does where a comment says otherwise.
    - Device: handling a packet reads nothing outside the buffer, and after the
      packet only what two reads of short packets can touch, and each packet goes to
      the one part it is for (device_read_safe, parsers_stay_inside,
      short_packet_overread), what is delivered to the device parses as what was
      received (delivered_packet_parses), a DNS reply goes to the one who asked
      (dns_relay_roundtrip); dns_reply_needs_udpgw and
      udp_checksum_zero_not_replaced show two defects.
    - Program: the command line is parsed by its grammar
      (parse_arguments_grammar) and the arguments are processed into the
      addresses they name (arguments_processed); in the event loop no handler
      fails and every client is one of TcpClient (program_loop_safe); [run]
      releases everything it acquired on every path but one (run_releases), so
      that Java can start it again, each session ended only by a request made
      during it (java_session_restarts);
      assertions_fail_at_exit shows what goes wrong with assertions.
    - System objects: a connection is safe for every order of calls, jobs and
      events (connection_safe), no byte is lost or repeated in either direction
      (connection_streams), both unless the system reports an error alone and then
      lets a write succeed (connection_error_event), a connected descriptor is closed once
      (connector_closes_once), addresses survive the conversion to the system's
      (addr_sys_roundtrip); the packets of the device are handled whole, in
      order, and reading never stops (device_packets_in_order); opening a device and
      Unix sockets leave nothing behind (tap_open_balanced, unix_sockets_balanced);
      connection_error_event, device_error_ignored and device_end_of_file show what the code
      does with errors it does not expect.
    - Event loop: the job queue is a stack without duplicates (bpending_stack);
      no use of the reactor within its contract fails, and its lists and the
      kernel's are always consistent (reactor_safe); handlers are called in the
      promised order, timers the earliest first and never early, descriptors only
      while watched (reactor_round); timers are set and removed from any state
      (reactor_timers).
    - Data: the AVL tree is an ordered list of logarithmic depth
      (bavl_refines_list, bavl_logarithmic), and so is the one the reactor and the
      fair queue use (cavl_refines_list), whose calls do what their lists say
      (timers_tree_cavl, queued_tree_savl); the linked list is a list
      (linkedlist1_refines) and the hash table a map from keys to lists of entries
      (chash_is_map); the string map is a finite map
      (stringmap_is_map, stringmap_tree_bavl); checksums are those of RFC 1071 and
      RFC 768 (ipv4_checksum_rfc1071, udp_checksum_rfc768).
    - Platform: integers are read back from memory as they were written
      (integers_in_memory), no allocation is smaller than what was meant
      (allocation_never_wraps, sizes_checked), and the clock does not go back
      (clock_is_monotonic).
    - Text: an interface address is parsed back from the text printed for it
      (interface_addresses_roundtrip, ipaddr6_roundtrip), masks and networks are
      those of the first bits (networks_by_prefix); the number parsers accept exactly
      what fits in 64 bits (numbers_parsed) and read back what is written
      (decimal_roundtrip); the operations on strings in pieces do not depend on the
      pieces (cstring_operations), which also shows where a position wraps around.

    ** Pointers that are values here

    [first_data] of a connection of the gateway client points to the packet the
    caller passed; here it is the data.  The job that reads it is set while the
    packet is handled, after the job that lets the next packet be read, so that it
    runs first (bpending_stack).  A SOCKS client has a pointer to the global
    [socks_auth_info]; here it has the entries as they were when it was made.  The
    code writes the username there for each new client with --append-source-to-username,
    so a client that has not yet sent its password would send the username of a
    later one: a defect that the model does not show.  [long] has 32 bits, as for the ABI
    Application.mk names.

    ** Not modelled

    lwIP is third-party code: TcpClient states what it relies on as laws of a
    class and gives an instance.  System calls (sockets, the TUN device, signals,
    time), logging and the JNI glue have no definitions; their results are
    arguments.  The other programs of the BadVPN repository in the same tree (the
    VPN client and server, NCD, the test programs) are not part of the library
    Android.mk builds; the udpgw server is not either, but it is the peer of UdpGw
    and modelled.  The components are not linked to the event
    loop in one model: each takes its handlers in any order the contracts of the
    others allow, which includes the orders the reactor makes; Program
    composes the TCP clients, the options and the life of the process.  The
    function [main] of tun2socks.c is not compiled into the library.  Of the trees of
    structure/CAvl_impl.h the features that both users switch off (subtree counts,
    associated sums, indices as keys) are left out; the lists of clients and
    connections in UdpGw, UdpGwServer and Program are lists, which LinkedLists
    justifies for the operations they use.  The other lists of structure/ and the
    objects of flow/ that only those other programs use are left out. *)
From Stdlib Require Export ZArith Lia.
From stdpp Require Export base list option numbers strings gmap.

#[global] Open Scope Z_scope.

(** ** Builds

    The sources are compiled either with or without [NDEBUG]
    (misc/debug.h).  Without it a false [ASSERT] ends the program; with it
    the check is not compiled in. *)

Class Build := NDEBUG : bool.

(** ** The handler monad

    A handler of the C program reads and writes the state [S] of its object
    and calls into other objects.  Those calls are recorded, in order, as
    events of type [E].  [None] is the end of the program: a failed
    assertion, or an access outside an object. *)

Definition M (S E A : Type) : Type := S → option (A * S * list E).

#[global] Instance M_ret {S E} : MRet (M S E) := λ A a s, Some (a, s, []).

#[global] Instance M_bind {S E} : MBind (M S E) := λ A B f m s,
  match m s with
  | None => None
  | Some (a, s1, e1) =>
      match f a s1 with
      | None => None
      | Some (b, s2, e2) => Some (b, s2, e1 ++ e2)
      end
  end.

Definition mget {S E} : M S E S := λ s, Some (s, s, []).
Definition mput {S E} (s' : S) : M S E unit := λ _, Some (tt, s', []).
Definition mmodify {S E} (f : S → S) : M S E unit := λ s, Some (tt, f s, []).
Definition gets {S E A} (f : S → A) : M S E A := λ s, Some (f s, s, []).
Definition emit {S E} (e : E) : M S E unit := λ s, Some (tt, s, [e]).
Definition mabort {S E A} : M S E A := λ _, None.
Definition mlift {S E A} (o : option A) : M S E A := λ s,
  match o with Some a => Some (a, s, []) | None => None end.
Definition when {S E} (b : bool) (m : M S E unit) : M S E unit :=
  if b then m else mret tt.

(** [ASSERT] of misc/debug.h. *)
Definition ASSERT `{Build} {S E} (b : bool) : M S E unit := λ s,
  if NDEBUG || b then Some (tt, s, []) else None.

(** The same for code that only computes a state. *)
Definition assert `{Build} (b : bool) : option unit :=
  if NDEBUG || b then Some tt else None.

Lemma assert_true `{Build} (b : bool) : b = true → assert b = Some tt.
Proof. intros ->. unfold assert. by rewrite orb_true_r. Qed.

Lemma assert_bind `{Build} {A} b (k : option A) a : (assert b;; k) = Some a → k = Some a.
Proof. by destruct (assert b). Qed.

(** Parsers of the C program return 0 on bad input; [Fault] is a read outside
    the buffer. *)
Inductive result (A : Type) : Type :=
| Ret (a : A)
| Rej
| Fault.
Arguments Ret {A} a.
Arguments Rej {A}.
Arguments Fault {A}.

#[global] Instance result_ret : MRet result := λ A a, Ret a.
#[global] Instance result_bind : MBind result := λ A B f m,
  match m with Ret a => f a | Rej => Rej | Fault => Fault end.

(** [if (b) return 0;] *)
Definition reject_if (b : bool) : result unit := if b then Rej else Ret tt.

(** ** Pointers into buffers

    A [uint8_t *] is the part of its buffer from the address it points at to
    the end of the buffer: advancing it drops bytes, and reading past the end
    is a fault. *)

Abbreviation zlen l := (Z.of_nat (length l)).

Definition ztake {A} (n : Z) (l : list A) : list A := take (Z.to_nat n) l.
Definition zdrop {A} (n : Z) (l : list A) : list A := drop (Z.to_nat n) l.

(** [memcpy(&x, p, n)] *)
Definition rd (n : Z) (p : list Z) : result (list Z) :=
  if n <=? zlen p then Ret (ztake n p) else Fault.

(** [memcpy(buf + pos, src, |src|)] into a buffer. *)
Definition zwrite {A} (pos : Z) (src buf : list A) : list A :=
  ztake pos buf ++ src ++ zdrop (pos + zlen src) buf.

(** ** Weakest preconditions

    [wp m s Q]: run in state [s], [m] does not end the program, and its
    result, final state and events satisfy [Q]. *)

Definition wp {S E A} (m : M S E A) (s : S) (Q : A → S → list E → Prop) : Prop :=
  match m s with
  | Some (a, s', es) => Q a s' es
  | None => False
  end.

Lemma wp_run {S E A} (m : M S E A) s Q :
  wp m s Q ↔ ∃ a s' es, m s = Some (a, s', es) ∧ Q a s' es.
Proof.
  unfold wp. destruct (m s) as [[[a s'] es]|]; split; intros HQ.
  - by exists a, s', es.
  - by destruct HQ as (?&?&?&[= <- <- <-]&HQ).
  - done.
  - by destruct HQ as (?&?&?&?&?).
Qed.

(** A step that is known to succeed. *)
Lemma bind_at {S E A B} (m : M S E A) (k : A → M S E B) a s s' : m s = Some (a, s', []) → (x ← m; k x) s = k a s'.
Proof. intros Hm. unfold mbind, M_bind. rewrite Hm. by destruct (k a s') as [[[? ?] ?]|]. Qed.

Lemma wp_mono {S E A} (m : M S E A) s (Q Q' : A → S → list E → Prop) :
  wp m s Q → (∀ a s' es, Q a s' es → Q' a s' es) → wp m s Q'.
Proof. unfold wp. destruct (m s) as [[[a0 s0] es0]|]; naive_solver. Qed.

Lemma wp_bind {S E A B} (m : M S E A) (f : A → M S E B) s Q :
  wp m s (λ a s1 e1, wp (f a) s1 (λ b s2 e2, Q b s2 (e1 ++ e2))) →
  wp (m ≫= f) s Q.
Proof.
  unfold wp, mbind, M_bind. destruct (m s) as [[[a s1] e1]|]; [|done].
  destruct (f a s1) as [[[b s2] e2]|]; done.
Qed.

Lemma wp_ret {S E A} (a : A) (s : S) (Q : A → S → list E → Prop) :
  Q a s [] → wp (mret a) s Q.
Proof. done. Qed.

Lemma wp_get {S E} (s : S) (Q : S → S → list E → Prop) : Q s s [] → wp mget s Q.
Proof. done. Qed.

Lemma wp_put {S E} (s s' : S) (Q : unit → S → list E → Prop) :
  Q tt s' [] → wp (mput s') s Q.
Proof. done. Qed.

Lemma wp_modify {S E} f (s : S) (Q : unit → S → list E → Prop) :
  Q tt (f s) [] → wp (mmodify f) s Q.
Proof. done. Qed.

Lemma wp_gets {S E A} (f : S → A) (s : S) (Q : A → S → list E → Prop) :
  Q (f s) s [] → wp (gets f) s Q.
Proof. done. Qed.

Lemma wp_emit {S E} (e : E) (s : S) (Q : unit → S → list E → Prop) :
  Q tt s [e] → wp (emit e) s Q.
Proof. done. Qed.

Lemma wp_when {S E} (b : bool) (m : M S E unit) (s : S) Q :
  (b = true → wp m s Q) → (b = false → Q tt s []) → wp (when b m) s Q.
Proof. destruct b; intros H1 H2; [by apply H1|by apply H2]. Qed.

Lemma wp_if {S E A} (b : bool) (m1 m2 : M S E A) (s : S) Q :
  (b = true → wp m1 s Q) → (b = false → wp m2 s Q) → wp (if b then m1 else m2) s Q.
Proof. destruct b; auto. Qed.

Lemma wp_assert `{Build} {S E} (b : bool) (s : S) (Q : unit → S → list E → Prop) :
  b = true → Q tt s [] → wp (ASSERT b) s Q.
Proof. intros -> HQ. unfold wp, ASSERT. by rewrite orb_true_r. Qed.

Lemma wp_and {S E A} (m : M S E A) s (P Q : A → S → list E → Prop) :
  wp m s P → wp m s Q → wp m s (λ a s' es, P a s' es ∧ Q a s' es).
Proof. unfold wp. by destruct (m s) as [[[a s'] es]|]. Qed.

(** A run that exists is determined by its weakest precondition. *)
Lemma wp_elim {S E A} (m : M S E A) s Q a s' es :
  wp m s Q → m s = Some (a, s', es) → Q a s' es.
Proof. unfold wp. intros HQ Hm. by rewrite Hm in HQ. Qed.

(** One step of symbolic execution.  [wp_steps] runs a handler to its end,
    leaving the assertions it meets and the branches it takes as goals. *)
Ltac wp_step :=
  lazymatch goal with
  | |- wp (mbind _ _) _ _ => apply wp_bind
  | |- wp (mret _) _ _ => apply wp_ret
  | |- wp mget _ _ => apply wp_get
  | |- wp (mput _) _ _ => apply wp_put
  | |- wp (mmodify _) _ _ => apply wp_modify
  | |- wp (gets _) _ _ => apply wp_gets
  | |- wp (emit _) _ _ => apply wp_emit
  | |- wp (ASSERT _) _ _ => apply wp_assert
  | |- wp (when _ _) _ _ => apply wp_when; intros ?
  | |- wp (if _ then _ else _) _ _ => apply wp_if; intros ?
  end; cbn beta iota.

Ltac wp_steps := repeat (wp_step; try (cbn; done)).

(** ** Runs against an environment

    The events of a handler are replayed on a model [V] of what surrounds it;
    [step] gives [None] where the handler breaks the contract of the call.
    [wpe] is [wp] with that environment threaded through. *)

Section environment.
Context {V E : Type} (step : V → E → option V).

Fixpoint replay (v : V) (es : list E) : option V :=
    match es with
    | [] => Some v
    | e :: es => v' ← step v e; replay v' es
    end.

Lemma replay_app v es1 es2 :
    replay v (es1 ++ es2) = (v' ← replay v es1; replay v' es2).
Proof.
    revert v. induction es1 as [|e es1 IH]; intros v; [done|].
    cbn. destruct (step v e); cbn; [apply IH|done].
Qed.

Definition wpe {S A} (m : M S E A) (s : S) (v : V) (Q : A → S → V → Prop) : Prop :=
    wp m s (λ a s' es, ∃ v', replay v es = Some v' ∧ Q a s' v').

Lemma wpe_mono {S A} (m : M S E A) s v (Q Q' : A → S → V → Prop) :
    wpe m s v Q → (∀ a s' v', Q a s' v' → Q' a s' v') → wpe m s v Q'.
Proof. intros Hm HQ. eapply wp_mono; [exact Hm|]. naive_solver. Qed.

Lemma wpe_bind {S A B} (m : M S E A) (f : A → M S E B) s v Q :
    wpe m s v (λ a s1 v1, wpe (f a) s1 v1 Q) → wpe (m ≫= f) s v Q.
Proof.
    intros Hm. apply wp_bind. eapply wp_mono; [exact Hm|]. cbn.
    intros a s1 e1 (v1 & H1 & Hf). eapply wp_mono; [exact Hf|]. cbn.
    intros b s2 e2 (v2 & H2 & HQ). exists v2. rewrite replay_app, H1. done.
Qed.

Lemma wpe_ret {S A} (a : A) (s : S) v (Q : A → S → V → Prop) : Q a s v → wpe (mret a) s v Q.
Proof. intros HQ. apply wp_ret. by exists v. Qed.

Lemma wpe_get {S} (s : S) v (Q : S → S → V → Prop) : Q s s v → wpe mget s v Q.
Proof. intros HQ. apply wp_get. by exists v. Qed.

Lemma wpe_put {S} (s s' : S) v (Q : unit → S → V → Prop) : Q tt s' v → wpe (mput s') s v Q.
Proof. intros HQ. apply wp_put. by exists v. Qed.

Lemma wpe_modify {S} f (s : S) v (Q : unit → S → V → Prop) : Q tt (f s) v → wpe (mmodify f) s v Q.
Proof. intros HQ. apply wp_modify. by exists v. Qed.

(** A part of a handler that makes no calls. *)
Lemma wpe_pure {S A} (m : M S E A) s v (Q : A → S → V → Prop) :
    wp m s (λ a s' es, es = [] ∧ Q a s' v) → wpe m s v Q.
Proof. intros Hm. eapply wp_mono; [exact Hm|]. intros a s' es [-> HQ]. by exists v. Qed.

Lemma wpe_emit {S} e (s : S) v v' (Q : unit → S → V → Prop) :
    step v e = Some v' → Q tt s v' → wpe (emit e) s v Q.
Proof. intros He HQ. apply wp_emit. exists v'. cbn. by rewrite He. Qed.

Lemma wpe_assert `{Build} {S} b (s : S) v (Q : unit → S → V → Prop) :
    b = true → Q tt s v → wpe (ASSERT b) s v Q.
Proof. intros Hb HQ. apply wp_assert; [done|]. by exists v. Qed.

Lemma wpe_when {S} (b : bool) (m : M S E unit) (s : S) v Q :
    (b = true → wpe m s v Q) → (b = false → Q tt s v) → wpe (when b m) s v Q.
Proof. destruct b; intros H1 H2; [by apply H1|]. apply wpe_ret, H2. done. Qed.

Lemma wpe_if {S A} (b : bool) (m1 m2 : M S E A) (s : S) v Q :
    (b = true → wpe m1 s v Q) → (b = false → wpe m2 s v Q) → wpe (if b then m1 else m2) s v Q.
Proof. destruct b; auto. Qed.

Lemma wpe_run {S A} (m : M S E A) s v Q :
    wpe m s v Q ↔ ∃ a s' es v', m s = Some (a, s', es) ∧ replay v es = Some v' ∧ Q a s' v'.
Proof. unfold wpe. rewrite wp_run. naive_solver. Qed.
End environment.
#[global] Arguments wpe : simpl never.

Ltac wpe_step :=
  lazymatch goal with
  | |- wpe _ (mbind _ _) _ _ _ => apply wpe_bind
  | |- wpe _ (mret _) _ _ _ => apply wpe_ret
  | |- wpe _ mget _ _ _ => apply wpe_get
  | |- wpe _ (mput _) _ _ _ => apply wpe_put
  | |- wpe _ (mmodify _) _ _ _ => apply wpe_modify
  | |- wpe _ (emit _) _ _ _ => eapply wpe_emit; [try reflexivity|]
  | |- wpe _ (ASSERT _) _ _ _ => apply wpe_assert
  | |- wpe _ (when _ _) _ _ _ => apply wpe_when; intros ?
  | |- wpe _ (if _ then _ else _) _ _ _ => apply wpe_if; intros ?
  end; cbn beta iota.

(** Boolean tests of the code to propositions. *)
Ltac bool_props :=
  repeat match goal with
  | H : (_ && _)%bool = true |- _ => apply andb_true_iff in H as [? ?]
  | H : (_ || _)%bool = false |- _ => apply orb_false_iff in H as [? ?]
  | H : (_ && _)%bool = false |- _ => apply andb_false_iff in H
  | H : (_ || _)%bool = true |- _ => apply orb_true_iff in H
  | H : negb _ = true |- _ => apply negb_true_iff in H
  | H : negb _ = false |- _ => apply negb_false_iff in H
  | H : (_ <=? _) = true |- _ => apply Z.leb_le in H
  | H : (_ <=? _) = false |- _ => apply Z.leb_gt in H
  | H : (_ <? _) = true |- _ => apply Z.ltb_lt in H
  | H : (_ <? _) = false |- _ => apply Z.ltb_ge in H
  | H : (_ =? _) = true |- _ => apply Z.eqb_eq in H
  | H : (_ =? _) = false |- _ => apply Z.eqb_neq in H
  end.

(** ** Shared lemmas *)

Section zlist.
Context {A : Type}.
  Implicit Types (l : list A) (n : Z).

Lemma zlen_nonneg l : 0 ≤ zlen l.
Proof. lia. Qed.

Lemma zlen_app l1 l2 : zlen (l1 ++ l2) = zlen l1 + zlen l2.
Proof. rewrite length_app. lia. Qed.

Lemma zlen_ztake n l : 0 ≤ n ≤ zlen l → zlen (ztake n l) = n.
Proof. intros. unfold ztake. rewrite length_take. lia. Qed.

Lemma zlen_zdrop n l : 0 ≤ n ≤ zlen l → zlen (zdrop n l) = zlen l - n.
Proof. intros. unfold zdrop. rewrite length_drop. lia. Qed.

Lemma zlen_zwrite pos (src buf : list A) :
    0 ≤ pos → pos + zlen src ≤ zlen buf → zlen (zwrite pos src buf) = zlen buf.
Proof.
    intros. unfold zwrite, ztake, zdrop.
    rewrite !length_app, length_take, length_drop. lia.
Qed.

Lemma ztake_app_exact n l1 l2 : n = zlen l1 → ztake n (l1 ++ l2) = l1.
Proof. intros ->. unfold ztake. rewrite Nat2Z.id. apply take_app_length. Qed.

Lemma zdrop_app_exact n l1 l2 : n = zlen l1 → zdrop n (l1 ++ l2) = l2.
Proof. intros ->. unfold zdrop. rewrite Nat2Z.id. apply drop_app_length. Qed.

Lemma ztake_all n l : zlen l ≤ n → ztake n l = l.
Proof. intros. unfold ztake. apply take_ge. lia. Qed.

Lemma ztake_nonpos n l : n ≤ 0 → ztake n l = [].
Proof. intros. unfold ztake. by rewrite Z2Nat.nonpos. Qed.

Lemma ztake_zdrop n l : ztake n l ++ zdrop n l = l.
Proof. apply take_drop. Qed.

Lemma zdrop_zdrop n m l : 0 ≤ n → 0 ≤ m → zdrop n (zdrop m l) = zdrop (m + n) l.
Proof. intros. unfold zdrop. rewrite drop_drop. f_equal. lia. Qed.

Lemma zdrop_0 l : zdrop 0 l = l.
Proof. done. Qed.

Lemma zdrop_past n l : zlen l ≤ n → zdrop n l = [].
Proof. intros. unfold zdrop. apply drop_ge. lia. Qed.

(** A write behind a prefix, and over one. *)
Lemma zwrite_app pos src l1 l2 :
    zlen l1 = pos → zwrite pos src (l1 ++ l2) = l1 ++ src ++ zdrop (zlen src) l2.
Proof.
    intros <-. unfold zwrite. rewrite ztake_app_exact by done. do 2 f_equal. unfold zdrop.
    replace (Z.to_nat (zlen l1 + zlen src)) with (length l1 + length src)%nat by lia.
    rewrite <- drop_drop, drop_app_length. f_equal. lia.
Qed.

Lemma zwrite_prefix src l1 l2 : zlen l1 = zlen src → zwrite 0 src (l1 ++ l2) = src ++ l2.
Proof.
    intros Hl. unfold zwrite. change (ztake 0 (l1 ++ l2)) with (@nil A). cbn [app]. f_equal.
    apply zdrop_app_exact. lia.
Qed.

(** A write leaves what lies outside it. *)
Lemma slice_zwrite_before pos src l off n :
    0 ≤ off → 0 ≤ n → off + n ≤ pos → pos + zlen src ≤ zlen l →
    ztake n (zdrop off (zwrite pos src l)) = ztake n (zdrop off l).
Proof.
    intros. unfold zwrite, ztake, zdrop.
    rewrite drop_app_le by (rewrite length_take; lia).
    rewrite take_app_le by (rewrite length_drop, length_take; lia).
    rewrite skipn_firstn_comm, take_take. f_equal. lia.
Qed.

Lemma slice_zwrite_after pos src l off n :
    0 ≤ pos → pos + zlen src ≤ off → pos + zlen src ≤ zlen l →
    ztake n (zdrop off (zwrite pos src l)) = ztake n (zdrop off l).
Proof.
    intros. unfold zwrite, ztake, zdrop. f_equal.
    rewrite app_assoc, drop_app_ge by (rewrite length_app, length_take; lia).
    rewrite length_app, length_take, drop_drop. f_equal. lia.
Qed.

Lemma slice_zwrite_same pos src l :
    0 ≤ pos → pos + zlen src ≤ zlen l →
    ztake (zlen src) (zdrop pos (zwrite pos src l)) = src.
Proof.
    intros. unfold zwrite. rewrite zdrop_app_exact by (rewrite zlen_ztake; lia).
    by apply ztake_app_exact.
Qed.

Lemma Forall_ztake P n l : Forall P l → Forall P (ztake n l).
Proof. apply Forall_take. Qed.

Lemma Forall_zdrop P n l : Forall P l → Forall P (zdrop n l).
Proof. apply Forall_drop. Qed.
End zlist.

Lemma length_omap_le {A B} (f : A → option B) l : (length (omap f l) ≤ length l)%nat.
Proof. induction l as [|x l IH]; cbn; [done|]. destruct (f x); cbn; lia. Qed.

(** ** Parser results *)

Lemma rd_ret n p x : rd n p = Ret x → x = ztake n p ∧ n ≤ zlen p.
Proof. unfold rd. destruct (Z.leb_spec n (zlen p)); naive_solver. Qed.

Lemma rd_ok n p : n ≤ zlen p → rd n p = Ret (ztake n p).
Proof. intros. unfold rd. by rewrite (proj2 (Z.leb_le _ _)). Qed.

Lemma bind_Ret {A B} (m : result A) (f : A → result B) b :
  m ≫= f = Ret b ↔ ∃ a, m = Ret a ∧ f a = Ret b.
Proof. unfold mbind, result_bind. destruct m; naive_solver. Qed.

Lemma bind_Fault {A B} (m : result A) (f : A → result B) :
  m ≫= f = Fault ↔ m = Fault ∨ ∃ a, m = Ret a ∧ f a = Fault.
Proof. unfold mbind, result_bind. destruct m; naive_solver. Qed.

Lemma reject_if_Ret b x : reject_if b = Ret x ↔ b = false.
Proof. unfold reject_if. destruct b, x; naive_solver. Qed.

Lemma reject_if_Fault b : reject_if b ≠ Fault.
Proof. by destruct b. Qed.

(** Takes a successful (or faulting) parse apart into the tests it passed. *)
Ltac parse_inv :=
  repeat match goal with
  | H : reject_if _ = Fault |- _ => by apply reject_if_Fault in H
  | H : _ ≫= _ = Ret _ |- _ => apply bind_Ret in H as (? & ? & H)
  | H : _ ≫= _ = Fault |- _ => apply bind_Fault in H as [H|(? & ? & H)]
  | H : reject_if _ = Ret _ |- _ => apply reject_if_Ret in H
  | H : rd _ _ = Ret _ |- _ => apply rd_ret in H as [-> ?]
  | H : mret _ = Ret _ |- _ => injection H as H
  | H : Ret _ = Ret _ |- _ => injection H as H
  | H : mret _ = Fault |- _ => discriminate H
  end; bool_props; simplify_eq.

(** The length of a buffer after writes inside it. *)
Ltac zw_len := repeat (rewrite zlen_zwrite by (zw_len; cbn [length]; lia)).

Create HintDb zlist.
Create Rewrite HintDb zlist.
#[export] Hint Resolve Forall_ztake Forall_zdrop : zlist.
#[export] Hint Rewrite @zlen_app : zlist.
