(* ===== verification/Bytes.v ===== *)
(** * Bytes: fixed-width integers and their memory images

    Models misc/byteorder.h, misc/read_write_int.h, misc/bsize.h,
    misc/minmax.h and misc/balign.h.  A [w]-bit unsigned integer is a [Z]
    in [0, 2^w); the host is little-endian (Android.mk defines
    BADVPN_LITTLE_ENDIAN), so the bytes of an integer in memory are its
    little-endian digits. *)
From S2P Require Import Prelude.

(** ** Widths *)

Definition u8 (x : Z) : Z := x mod 2 ^ 8.
Definition u16 (x : Z) : Z := x mod 2 ^ 16.
Definition u32 (x : Z) : Z := x mod 2 ^ 32.
Definition u64 (x : Z) : Z := x mod 2 ^ 64.

(** The conversion to [int]. *)
Definition s32 (x : Z) : Z := let y := x mod 2 ^ 32 in if y <? 2 ^ 31 then y else y - 2 ^ 32.

Definition UINT16_MAX : Z := 65535.
Definition UINT64_MAX : Z := 18446744073709551615.
Definition INT_MAX : Z := 2147483647.
(** [size_t] of the 32-bit target (armeabi-v7a). *)
Definition SIZE_MAX : Z := 4294967295.

Definition is_byte (b : Z) : Prop := 0 ≤ b < 256.
Abbreviation bytes := (Forall is_byte).

(** The bytes of an [n]-byte integer in memory. *)
Fixpoint le_bytes (n : nat) (x : Z) : list Z :=
  match n with
  | O => []
  | S n => x mod 256 :: le_bytes n (x / 256)
  end.

Fixpoint le_val (bs : list Z) : Z :=
  match bs with
  | [] => 0
  | b :: bs => b + 256 * le_val bs
  end.

(** ** misc/byteorder.h *)

Definition badvpn_reverse16 (x : Z) : Z :=
  match le_bytes 2 x with
  | [b0; b1] => le_val [b1; b0]
  | _ => 0
  end.

Definition badvpn_reverse32 (x : Z) : Z :=
  match le_bytes 4 x with
  | [b0; b1; b2; b3] => le_val [b3; b2; b1; b0]
  | _ => 0
  end.

Definition hton8 (x : Z) : Z := x.
Definition hton16 (x : Z) : Z := badvpn_reverse16 x.
Definition hton32 (x : Z) : Z := badvpn_reverse32 x.
Definition htol8 (x : Z) : Z := x.
Definition htol16 (x : Z) : Z := x.
Definition ntoh8 (x : Z) : Z := hton8 x.
Definition ntoh16 (x : Z) : Z := hton16 x.
Definition ntoh32 (x : Z) : Z := hton32 x.
Definition ltoh8 (x : Z) : Z := htol8 x.
Definition ltoh16 (x : Z) : Z := htol16 x.

(** ** misc/read_write_int.h *)

Definition badvpn_read_be16 (p : list Z) : Z :=
  Z.lor (Z.shiftl (nth 0 p 0) 8) (Z.shiftl (nth 1 p 0) 0).

(** ** misc/bsize.h *)

Record bsize_t := mk_bsize { is_overflow : bool; bvalue : Z }.

Definition bsize_fromsize (v : Z) : bsize_t := mk_bsize false v.
Definition bsize_fromint (v : Z) : bsize_t :=
  mk_bsize ((v <? 0) || (SIZE_MAX <? v)) (u32 v).
Definition bsize_add (s1 s2 : bsize_t) : bsize_t :=
  mk_bsize (is_overflow s1 || is_overflow s2 || (SIZE_MAX - bvalue s1 <? bvalue s2))
           (u32 (bvalue s1 + bvalue s2)).
Definition bsize_max (s1 s2 : bsize_t) : bsize_t :=
  mk_bsize (is_overflow s1 || is_overflow s2)
           (u32 ((if bvalue s2 <? bvalue s1 then 1 else 0) * bvalue s1 +
                 (if bvalue s1 <=? bvalue s2 then 1 else 0) * bvalue s2)).
Definition bsize_mul (s1 s2 : bsize_t) : bsize_t :=
  mk_bsize (is_overflow s1 || is_overflow s2 ||
            (negb (bvalue s1 =? 0) && (SIZE_MAX / bvalue s1 <? bvalue s2)))
           (u32 (bvalue s1 * bvalue s2)).
Definition bsize_toint (s : bsize_t) : option Z :=
  if is_overflow s || (INT_MAX <? bvalue s) then None else Some (bvalue s).

(** ** misc/minmax.h, misc/balign.h *)

Definition bmin_int (a b : Z) : Z := if a <? b then a else b.
Definition bmax_uint64 (a b : Z) : Z := if b <? a then a else b.
Definition bdivide_up (a b : Z) : Z :=
  let r := a mod b in if 0 <? r then a / b + 1 else a / b.

(** misc/compare.h: [B_COMPARE] *)
Definition B_COMPARE (a b : Z) : Z :=
  (if b <? a then 1 else 0) - (if a <? b then 1 else 0).

(** ** Lemmas *)

Lemma B_COMPARE_spec a b :
  a < b ∧ B_COMPARE a b = -1 ∨ a = b ∧ B_COMPARE a b = 0 ∨ b < a ∧ B_COMPARE a b = 1.
Proof. unfold B_COMPARE. destruct (Z.ltb_spec b a), (Z.ltb_spec a b); lia. Qed.

Lemma is_byte_mod x : is_byte (x mod 256).
Proof. unfold is_byte. pose proof (Z.mod_pos_bound x 256). lia. Qed.

Lemma le_bytes_bytes n x : bytes (le_bytes n x).
Proof. revert x. induction n; intros; constructor; auto using is_byte_mod. Qed.

Lemma length_le_bytes n x : length (le_bytes n x) = n.
Proof. revert x. induction n; intros; cbn; auto. Qed.

Lemma le_val_bound bs : bytes bs → 0 ≤ le_val bs < 256 ^ zlen bs.
Proof.
  induction 1 as [|b bs Hb _ IH]; cbn [le_val length]; [by cbn|].
  rewrite Nat2Z.inj_succ, Z.pow_succ_r by lia. unfold is_byte in Hb. nia.
Qed.

Lemma le_val_le_bytes n x : 0 ≤ x < 256 ^ Z.of_nat n → le_val (le_bytes n x) = x.
Proof.
  revert x. induction n as [|n IH]; intros x Hx; cbn [le_bytes le_val].
  - cbn in Hx. lia.
  - rewrite Nat2Z.inj_succ, Z.pow_succ_r in Hx by lia.
    rewrite IH by (split; [apply Z.div_pos; lia | apply Z.div_lt_upper_bound; lia]).
    pose proof (Z.div_mod x 256). lia.
Qed.

Lemma le_bytes_le_val bs : bytes bs → le_bytes (length bs) (le_val bs) = bs.
Proof.
  induction 1 as [|b bs Hb _ IH]; [done|]. cbn [length le_bytes le_val].
  unfold is_byte in Hb.
  replace ((b + 256 * le_val bs) mod 256) with b
    by (rewrite (Z.mul_comm 256), Z.mod_add, Z.mod_small; lia).
  replace ((b + 256 * le_val bs) / 256) with (le_val bs)
    by (rewrite (Z.mul_comm 256), Z.div_add, Z.div_small; lia).
  by rewrite IH.
Qed.

Lemma le_bytes_inj n x y :
  0 ≤ x < 256 ^ Z.of_nat n → 0 ≤ y < 256 ^ Z.of_nat n →
  le_bytes n x = le_bytes n y → x = y.
Proof.
  intros Hx Hy H. rewrite <- (le_val_le_bytes n x), <- (le_val_le_bytes n y) by done.
  by rewrite H.
Qed.

Lemma hton16_bound x : 0 ≤ hton16 x < 65536.
Proof.
  unfold hton16, badvpn_reverse16. cbn [le_bytes le_val].
  pose proof (is_byte_mod x). pose proof (is_byte_mod (x / 256)).
  unfold is_byte in *. lia.
Qed.

(** Byte order conversion of a 16-bit value in arithmetic form. *)
Lemma hton16_eq x : 0 ≤ x < 65536 → hton16 x = x / 256 + 256 * (x mod 256).
Proof.
  intros. unfold hton16, badvpn_reverse16. cbn [le_bytes le_val].
  rewrite (Z.mod_small (x / 256)) by (split; [apply Z.div_pos|apply Z.div_lt_upper_bound]; lia).
  lia.
Qed.

Lemma ntoh16_hton16 x : 0 ≤ x < 65536 → ntoh16 (hton16 x) = x.
Proof.
  intros Hx. unfold ntoh16. pose proof (hton16_bound x) as Hb.
  rewrite (hton16_eq (hton16 x)), (hton16_eq x) by done.
  Z.div_mod_to_equations. lia.
Qed.

Lemma hton16_inj x y : 0 ≤ x < 65536 → 0 ≤ y < 65536 → hton16 x = hton16 y → x = y.
Proof.
  intros Hx Hy H. rewrite <- (ntoh16_hton16 x), <- (ntoh16_hton16 y) by done. by rewrite H.
Qed.

Lemma hton32_bound x : 0 ≤ hton32 x < 2 ^ 32.
Proof.
  change (hton32 x) with (le_val (rev (le_bytes 4 x))).
  apply (le_val_bound (rev (le_bytes 4 x))). apply Forall_rev, le_bytes_bytes.
Qed.

Lemma le_bytes_hton32 x : le_bytes 4 (hton32 x) = rev (le_bytes 4 x).
Proof.
  change (hton32 x) with (le_val (rev (le_bytes 4 x))).
  apply (le_bytes_le_val (rev (le_bytes 4 x))). apply Forall_rev, le_bytes_bytes.
Qed.

Lemma ntoh32_hton32 x : 0 ≤ x < 2 ^ 32 → ntoh32 (hton32 x) = x.
Proof.
  intros. unfold ntoh32. change (hton32 (hton32 x)) with (le_val (rev (le_bytes 4 (hton32 x)))).
  rewrite le_bytes_hton32, rev_involutive. by apply le_val_le_bytes.
Qed.

(** Reading a big-endian word from the image of a converted value. *)
Lemma be16_eq b0 b1 (p : list Z) :
  is_byte b0 → is_byte b1 → badvpn_read_be16 (b0 :: b1 :: p) = b0 * 256 + b1.
Proof.
  unfold is_byte, badvpn_read_be16. intros. cbn [nth].
  rewrite Z.shiftl_0_r, Z.shiftl_mul_pow2 by lia.
  pose proof (Z.add_lor_land (b0 * 2 ^ 8) b1).
  enough (Z.land (b0 * 2 ^ 8) b1 = 0) by lia.
  apply Z.bits_inj'. intros n Hn. rewrite Z.land_spec, Z.bits_0.
  destruct (decide (n < 8)).
  - rewrite Z.mul_pow2_bits_low by done. done.
  - rewrite (Z.bits_above_log2 b1), andb_false_r; [done|lia|].
    destruct (decide (b1 = 0)) as [->|]; [cbn; lia|].
    pose proof (Z.log2_lt_pow2 b1 8). lia.
Qed.

Lemma be16_le_bytes x (p : list Z) :
  0 ≤ x < 65536 → badvpn_read_be16 (le_bytes 2 x ++ p) = ntoh16 x.
Proof.
  intros. cbn [le_bytes app].
  rewrite be16_eq by apply is_byte_mod.
  unfold ntoh16. rewrite hton16_eq by done.
  rewrite (Z.mod_small (x / 256)) by (split; [apply Z.div_pos|apply Z.div_lt_upper_bound]; lia).
  lia.
Qed.

Lemma u32_small x : 0 ≤ x < 2 ^ 32 → u32 x = x.
Proof. apply Z.mod_small. Qed.
Lemma u16_small x : 0 ≤ x < 2 ^ 16 → u16 x = x.
Proof. apply Z.mod_small. Qed.

Lemma s32_small x : 0 ≤ x ≤ INT_MAX → s32 x = x.
Proof.
  unfold s32, INT_MAX. intros. rewrite Z.mod_small by lia. by rewrite (proj2 (Z.ltb_lt _ _)) by lia.
Qed.

(** Removes 32-bit wrap-arounds that do not happen, innermost first. *)
Ltac u32_norm :=
  repeat match goal with
  | |- context [u32 ?x] =>
      lazymatch x with context [u32 _] => fail | _ => rewrite (u32_small x) by lia end
  end.

Lemma bdivide_up_spec a b : 0 ≤ a → 0 < b → a ≤ b * bdivide_up a b < a + b.
Proof.
  intros. unfold bdivide_up. destruct (Z.ltb_spec 0 (a mod b)); Z.div_mod_to_equations; nia.
Qed.

Lemma bdivide_up_nonneg a b : 0 ≤ a → 0 < b → 0 ≤ bdivide_up a b.
Proof. intros. pose proof (bdivide_up_spec a b). nia. Qed.

Lemma bdivide_up_le a c b : 0 ≤ a ≤ c → 0 < b → bdivide_up a b ≤ bdivide_up c b.
Proof.
  intros. pose proof (bdivide_up_spec a b). pose proof (bdivide_up_spec c b). nia.
Qed.

#[export] Hint Resolve is_byte_mod le_bytes_bytes : zlist.
