(* ===== verification/Platform.v ===== *)
(** * Platform: integers in memory, allocation sizes and the clock

    Models misc/read_write_int.h and the rest of misc/byteorder.h, misc/bsize.h,
    misc/balign.h and misc/compare.h (see Bytes.v), misc/balloc.h, and the reading of the clock in system/BTime.h.
    Memory is a list of bytes; a store outside it is [None].  [size_t] has 32 bits. *)
From S2P Require Import Prelude Bytes.

(** ** misc/byteorder.h *)

Definition badvpn_reverse64 (x : Z) : Z :=
  match le_bytes 8 x with
  | [b0; b1; b2; b3; b4; b5; b6; b7] => le_val [b7; b6; b5; b4; b3; b2; b1; b0]
  | _ => 0
  end.

Definition hton64 (x : Z) : Z := badvpn_reverse64 x.
Definition htol32 (x : Z) : Z := x.
Definition htol64 (x : Z) : Z := x.
Definition ntoh64 (x : Z) : Z := hton64 x.
Definition ltoh32 (x : Z) : Z := htol32 x.
Definition ltoh64 (x : Z) : Z := htol64 x.

(** ** misc/read_write_int.h *)

(** [ptr[i]] *)
Abbreviation byte p i := (nth i p 0).

Definition badvpn_read_le8 (p : list Z) : Z := Z.shiftl (byte p 0) 0.
Definition badvpn_read_le16 (p : list Z) : Z := Z.lor (Z.shiftl (byte p 1) 8) (Z.shiftl (byte p 0) 0).
Definition badvpn_read_le32 (p : list Z) : Z :=
  Z.lor (Z.lor (Z.lor (Z.shiftl (byte p 3) 24) (Z.shiftl (byte p 2) 16)) (Z.shiftl (byte p 1) 8)) (Z.shiftl (byte p 0) 0).
Definition badvpn_read_le64 (p : list Z) : Z :=
  Z.lor (Z.lor (Z.lor (Z.lor (Z.lor (Z.lor (Z.lor (Z.shiftl (byte p 7) 56) (Z.shiftl (byte p 6) 48)) (Z.shiftl (byte p 5) 40)) (Z.shiftl (byte p 4) 32))
    (Z.shiftl (byte p 3) 24)) (Z.shiftl (byte p 2) 16)) (Z.shiftl (byte p 1) 8)) (Z.shiftl (byte p 0) 0).

Definition badvpn_read_be8 (p : list Z) : Z := Z.shiftl (byte p 0) 0.
Definition badvpn_read_be32 (p : list Z) : Z :=
  Z.lor (Z.lor (Z.lor (Z.shiftl (byte p 0) 24) (Z.shiftl (byte p 1) 16)) (Z.shiftl (byte p 2) 8)) (Z.shiftl (byte p 3) 0).
Definition badvpn_read_be64 (p : list Z) : Z :=
  Z.lor (Z.lor (Z.lor (Z.lor (Z.lor (Z.lor (Z.lor (Z.shiftl (byte p 0) 56) (Z.shiftl (byte p 1) 48)) (Z.shiftl (byte p 2) 40)) (Z.shiftl (byte p 3) 32))
    (Z.shiftl (byte p 4) 24)) (Z.shiftl (byte p 5) 16)) (Z.shiftl (byte p 6) 8)) (Z.shiftl (byte p 7) 0).

(** [ptr[i] = x >> s;] *)
Definition put (i : nat) (x s : Z) (p : list Z) : option (list Z) :=
  if (i <? length p)%nat then Some (<[i := u8 (Z.shiftr x s)]> p) else None.

Definition badvpn_write_le8 (x : Z) (p : list Z) : option (list Z) := put 0 x 0 p.
Definition badvpn_write_le16 (x : Z) (p : list Z) : option (list Z) := p ← put 1 x 8 p; put 0 x 0 p.
Definition badvpn_write_le32 (x : Z) (p : list Z) : option (list Z) :=
  p ← put 3 x 24 p; p ← put 2 x 16 p; p ← put 1 x 8 p; put 0 x 0 p.
Definition badvpn_write_le64 (x : Z) (p : list Z) : option (list Z) :=
  p ← put 7 x 56 p; p ← put 6 x 48 p; p ← put 5 x 40 p; p ← put 4 x 32 p;
  p ← put 3 x 24 p; p ← put 2 x 16 p; p ← put 1 x 8 p; put 0 x 0 p.

Definition badvpn_write_be8 (x : Z) (p : list Z) : option (list Z) := put 0 x 0 p.
Definition badvpn_write_be16 (x : Z) (p : list Z) : option (list Z) := p ← put 0 x 8 p; put 1 x 0 p.
Definition badvpn_write_be32 (x : Z) (p : list Z) : option (list Z) :=
  p ← put 0 x 24 p; p ← put 1 x 16 p; p ← put 2 x 8 p; put 3 x 0 p.
Definition badvpn_write_be64 (x : Z) (p : list Z) : option (list Z) :=
  p ← put 0 x 56 p; p ← put 1 x 48 p; p ← put 2 x 40 p; p ← put 3 x 32 p;
  p ← put 4 x 24 p; p ← put 5 x 16 p; p ← put 6 x 8 p; put 7 x 0 p.

(** ** misc/bsize.h *)

Definition bsize_overflow : bsize_t := mk_bsize true 0.
Definition bsize_tosize (s : bsize_t) : option Z := if is_overflow s then None else Some (bvalue s).

(** ** misc/balign.h, with [n] not 0, and misc/compare.h *)

Definition balign_up_overflows (x n : Z) : bool := let r := x mod n in negb (r =? 0) && (SIZE_MAX - (n - r) <? x).
Definition balign_up (x n : Z) : Z := let r := x mod n in if negb (r =? 0) then u32 (x + (n - r)) else x.
Definition balign_down (x n : Z) : Z := x - x mod n.

Definition B_COMPARE_COMBINE (cmp1 cmp2 : Z) : Z := if negb (cmp1 =? 0) then cmp1 else cmp2.
Definition B_COMPARE2 (a b c d : Z) : Z := B_COMPARE_COMBINE (B_COMPARE a b) (B_COMPARE c d).

(** ** misc/balloc.h *)

Section balloc.
(** [malloc], which gives memory or not, and [realloc] of some memory. *)
Context {A : Type} (malloc : Z → option A) (realloc : A → Z → option A).

Definition BAlloc (bytes : Z) : option A := if bytes =? 0 then malloc 1 else malloc bytes.

Definition BRealloc (m : A) (bytes : Z) : option A := if bytes =? 0 then realloc m 1 else realloc m bytes.

Definition BAllocSize (bytes : bsize_t) : option A := if is_overflow bytes then None else BAlloc (bvalue bytes).

Definition BAllocArray (count bytes : Z) : option A :=
  if (count =? 0) || (bytes =? 0) then malloc 1
  else if SIZE_MAX / bytes <? count then None
  else BAlloc (u32 (count * bytes)).

Definition BReallocArray (mem : A) (count bytes : Z) : option A :=
  if (count =? 0) || (bytes =? 0) then realloc mem 1
  else if SIZE_MAX / bytes <? count then None
  else realloc mem (u32 (count * bytes)).

Definition BAllocArray2 (count2 count1 bytes : Z) : option A :=
  if (count2 =? 0) || (count1 =? 0) || (bytes =? 0) then malloc 1
  else if SIZE_MAX / bytes <? count1 then None
  else if SIZE_MAX / u32 (count1 * bytes) <? count2 then None
  else BAlloc (u32 (count2 * u32 (count1 * bytes))).
End balloc.

(** The new size, or [None] where the function returns 0; [BSizeAlign] divides by
    [align]. *)
Definition BSizeAdd (s add : Z) : option Z := if SIZE_MAX - s <? add then None else Some (u32 (s + add)).

Definition BSizeAlign `{Build} (s align : Z) : option (option Z) :=
  assert (0 <? align);;
  if align =? 0 then None else
  let md := s mod align in
  Some (if 0 <? md then if SIZE_MAX - s <? align - md then None else Some (u32 (s + (align - md))) else Some s).

(** ** system/BTime.h *)

(** [initialized] is only compiled in with assertions. *)
Record btime_global_t := mk_btime { time_initialized : bool; start_time : Z; use_gettimeofday : bool }.

(** [(int64_t)tv_sec * 1000 + ...] in milliseconds, of seconds and of a fraction of
    [unit] parts of a millisecond. *)
Definition to_ms (unit sec frac : Z) : Z := sec * 1000 + Z.quot frac unit.

(** [monotonic]: what [clock_gettime] gives, or [None] when it fails; [wall]: what
    [gettimeofday] gives. *)
Definition BTime_Init `{Build} (monotonic : option (Z * Z)) (wall : Z * Z) (g : btime_global_t) : option btime_global_t :=
  assert (negb (time_initialized g));;
  Some (match monotonic with
        | None => mk_btime true (to_ms 1000 wall.1 wall.2) true
        | Some (sec, nsec) => mk_btime true (to_ms 1000000 sec nsec) false
        end).

Definition btime_gettime `{Build} (monotonic : option (Z * Z)) (wall : Z * Z) (g : btime_global_t) : option Z :=
  assert (time_initialized g);;
  if use_gettimeofday g then Some (to_ms 1000 wall.1 wall.2)
  else '(sec, nsec) ← monotonic; Some (to_ms 1000000 sec nsec - start_time g).

Definition btime_getpast : Z := - 2 ^ 63.

(** ** Lemmas *)

(** A comparison by two keys is by the second where the first agree. *)
Lemma B_COMPARE2_spec a b c d :
  (a < b ∨ a = b ∧ c < d) ∧ B_COMPARE2 a b c d = -1 ∨ (a = b ∧ c = d) ∧ B_COMPARE2 a b c d = 0 ∨
  (b < a ∨ a = b ∧ d < c) ∧ B_COMPARE2 a b c d = 1.
Proof.
  unfold B_COMPARE2, B_COMPARE_COMBINE. destruct (B_COMPARE_spec a b) as [[? ->]|[[-> ->]|[? ->]]]; cbn [Z.eqb negb]; [lia| |lia].
  destruct (B_COMPARE_spec c d) as [[? ->]|[[-> ->]|[? ->]]]; lia.
Qed.

(** ** Reading and writing *)

(** The low byte below a number shifted up. *)
Lemma lor_low x b : is_byte b → Z.lor (Z.shiftl x 8) b = b + 256 * x.
Proof.
  intros Hb. unfold is_byte in Hb. rewrite Z.shiftl_mul_pow2 by lia. pose proof (Z.add_lor_land (x * 2 ^ 8) b).
  enough (Z.land (x * 2 ^ 8) b = 0) by lia. apply Z.bits_inj'. intros k Hk. rewrite Z.land_spec, Z.bits_0. destruct (decide (k < 8)).
  - by rewrite Z.mul_pow2_bits_low by done.
  - rewrite (Z.bits_above_log2 b), andb_false_r; [done|lia|]. destruct (decide (b = 0)) as [->|]; [cbn; lia|]. pose proof (Z.log2_lt_pow2 b 8). lia.
Qed.

Lemma le_val_lor b bs : is_byte b → le_val (b :: bs) = Z.lor (Z.shiftl (le_val bs) 8) b.
Proof. intros. by rewrite lor_low. Qed.

(** Take a list of bytes apart, and write its value with shifts. *)
Ltac by_shifts :=
  repeat match goal with H : Forall is_byte (_ :: _) |- _ => apply Forall_cons in H as [? ?] end;
  cbn [nth]; match goal with |- context [le_val ?l] => let l' := eval cbv in l in change l with l' end; rewrite !le_val_lor by done; change (le_val []) with 0;
  rewrite ?Z.shiftl_0_l, ?Z.shiftl_0_r, ?Z.lor_0_l, ?Z.shiftl_lor; rewrite ?Z.shiftl_shiftl by lia; reflexivity.

Lemma read_le_val p : Forall is_byte p →
  ((1 ≤ length p)%nat → badvpn_read_le8 p = le_val (take 1 p)) ∧
  ((2 ≤ length p)%nat → badvpn_read_le16 p = le_val (take 2 p)) ∧
  ((4 ≤ length p)%nat → badvpn_read_le32 p = le_val (take 4 p)) ∧
  ((8 ≤ length p)%nat → badvpn_read_le64 p = le_val (take 8 p)).
Proof.
  intros Hp. split_and!; intros Hl.
  - destruct p as [|b0 p]; [cbn in Hl; lia|]. unfold badvpn_read_le8. by_shifts.
  - destruct p as [|b0 [|b1 p]]; try (cbn in Hl; lia). unfold badvpn_read_le16. by_shifts.
  - destruct p as [|b0 [|b1 [|b2 [|b3 p]]]]; try (cbn in Hl; lia). unfold badvpn_read_le32. by_shifts.
  - destruct p as [|b0 [|b1 [|b2 [|b3 [|b4 [|b5 [|b6 [|b7 p]]]]]]]]; try (cbn in Hl; lia). unfold badvpn_read_le64. by_shifts.
Qed.

Lemma read_be_val p : Forall is_byte p →
  ((1 ≤ length p)%nat → badvpn_read_be8 p = le_val (rev (take 1 p))) ∧
  ((2 ≤ length p)%nat → badvpn_read_be16 p = le_val (rev (take 2 p))) ∧
  ((4 ≤ length p)%nat → badvpn_read_be32 p = le_val (rev (take 4 p))) ∧
  ((8 ≤ length p)%nat → badvpn_read_be64 p = le_val (rev (take 8 p))).
Proof.
  intros Hp. split_and!; intros Hl.
  - destruct p as [|b0 p]; [cbn in Hl; lia|]. unfold badvpn_read_be8. by_shifts.
  - destruct p as [|b0 [|b1 p]]; try (cbn in Hl; lia). unfold badvpn_read_be16. by_shifts.
  - destruct p as [|b0 [|b1 [|b2 [|b3 p]]]]; try (cbn in Hl; lia). unfold badvpn_read_be32. by_shifts.
  - destruct p as [|b0 [|b1 [|b2 [|b3 [|b4 [|b5 [|b6 [|b7 p]]]]]]]]; try (cbn in Hl; lia). unfold badvpn_read_be64. by_shifts.
Qed.

Lemma le_bytes_shifts n x : le_bytes n x = map (λ i, u8 (Z.shiftr x (8 * Z.of_nat i))) (seq 0 n).
Proof.
  revert x. induction n as [|n IH]; intros x; [done|]. cbn [le_bytes seq map]. f_equal.
  rewrite IH, <- seq_shift, map_map. apply map_ext. intros i. change (x / 256) with (x / 2 ^ 8). rewrite <- Z.shiftr_div_pow2, Z.shiftr_shiftr by lia.
  do 2 f_equal. lia.
Qed.

Ltac by_puts p :=
  match goal with Hl : (_ ≤ length p)%nat |- _ =>
    rewrite le_bytes_shifts; do 8 (destruct p as [|? p]; [try (cbn in Hl; lia); try reflexivity|]); reflexivity
  end.

Lemma write_le_bytes x p :
  ((1 ≤ length p)%nat → badvpn_write_le8 x p = Some (le_bytes 1 x ++ drop 1 p)) ∧
  ((2 ≤ length p)%nat → badvpn_write_le16 x p = Some (le_bytes 2 x ++ drop 2 p)) ∧
  ((4 ≤ length p)%nat → badvpn_write_le32 x p = Some (le_bytes 4 x ++ drop 4 p)) ∧
  ((8 ≤ length p)%nat → badvpn_write_le64 x p = Some (le_bytes 8 x ++ drop 8 p)).
Proof. split_and!; intros Hl; by_puts p. Qed.

Lemma write_be_bytes x p :
  ((1 ≤ length p)%nat → badvpn_write_be8 x p = Some (rev (le_bytes 1 x) ++ drop 1 p)) ∧
  ((2 ≤ length p)%nat → badvpn_write_be16 x p = Some (rev (le_bytes 2 x) ++ drop 2 p)) ∧
  ((4 ≤ length p)%nat → badvpn_write_be32 x p = Some (rev (le_bytes 4 x) ++ drop 4 p)) ∧
  ((8 ≤ length p)%nat → badvpn_write_be64 x p = Some (rev (le_bytes 8 x) ++ drop 8 p)).
Proof. split_and!; intros Hl; by_puts p. Qed.

(** The reads and the writes, with their widths, in either byte order. *)
Definition le_accesses : list (nat * (list Z → Z) * (Z → list Z → option (list Z))) :=
  [(1%nat, badvpn_read_le8, badvpn_write_le8); (2%nat, badvpn_read_le16, badvpn_write_le16);
   (4%nat, badvpn_read_le32, badvpn_write_le32); (8%nat, badvpn_read_le64, badvpn_write_le64)].

Definition be_accesses : list (nat * (list Z → Z) * (Z → list Z → option (list Z))) :=
  [(1%nat, badvpn_read_be8, badvpn_write_be8); (2%nat, badvpn_read_be16, badvpn_write_be16);
   (4%nat, badvpn_read_be32, badvpn_write_be32); (8%nat, badvpn_read_be64, badvpn_write_be64)].

(** What an access of [n] bytes promises, where [ord] is the order of the bytes. *)
Definition access_ok (ord : list Z → list Z) (n : nat) (rd : list Z → Z) (wr : Z → list Z → option (list Z)) : Prop :=
  (∀ x p, (n ≤ length p)%nat → wr x p = Some (ord (le_bytes n x) ++ drop n p)) ∧
  (∀ p, bytes p → (n ≤ length p)%nat → rd p = le_val (ord (take n p))).

Lemma le_accesses_ok : Forall (λ '(n, rd, wr), access_ok id n rd wr) le_accesses.
Proof.
  repeat apply Forall_cons_2; [| | | |by apply Forall_nil]; (split; [intros x p Hn | intros p Hp Hn]).
  - destruct (write_le_bytes x p) as [H _]. exact (H Hn).
  - destruct (read_le_val p Hp) as [H _]. exact (H Hn).
  - destruct (write_le_bytes x p) as (_ & H & _). exact (H Hn).
  - destruct (read_le_val p Hp) as (_ & H & _). exact (H Hn).
  - destruct (write_le_bytes x p) as (_ & _ & H & _). exact (H Hn).
  - destruct (read_le_val p Hp) as (_ & _ & H & _). exact (H Hn).
  - destruct (write_le_bytes x p) as (_ & _ & _ & H). exact (H Hn).
  - destruct (read_le_val p Hp) as (_ & _ & _ & H). exact (H Hn).
Qed.

Lemma be_accesses_ok : Forall (λ '(n, rd, wr), access_ok (@rev Z) n rd wr) be_accesses.
Proof.
  repeat apply Forall_cons_2; [| | | |by apply Forall_nil]; (split; [intros x p Hn | intros p Hp Hn]).
  - destruct (write_be_bytes x p) as [H _]. exact (H Hn).
  - destruct (read_be_val p Hp) as [H _]. exact (H Hn).
  - destruct (write_be_bytes x p) as (_ & H & _). exact (H Hn).
  - destruct (read_be_val p Hp) as (_ & H & _). exact (H Hn).
  - destruct (write_be_bytes x p) as (_ & _ & H & _). exact (H Hn).
  - destruct (read_be_val p Hp) as (_ & _ & H & _). exact (H Hn).
  - destruct (write_be_bytes x p) as (_ & _ & _ & H). exact (H Hn).
  - destruct (read_be_val p Hp) as (_ & _ & _ & H). exact (H Hn).
Qed.

(** An order of bytes: a permutation that undoes itself. *)
Lemma access_roundtrip ord n rd wr x p :
  (∀ l, ord (ord l) = l) → (∀ l, length (ord l) = length l) → (∀ l, bytes l → bytes (ord l)) →
  access_ok ord n rd wr → bytes p → (n ≤ length p)%nat → 0 ≤ x < 256 ^ Z.of_nat n →
  ∃ p', wr x p = Some p' ∧ rd p' = x ∧ drop n p' = drop n p ∧ length p' = length p ∧ bytes p'.
Proof.
  intros Hinv Hlen Hby [Hw Hr] Hp Hn Hx. eexists. rewrite Hw by done.
  assert (length (ord (le_bytes n x)) = n) as Hl by by rewrite Hlen, length_le_bytes.
  assert (bytes (ord (le_bytes n x) ++ drop n p)) as Hb by (apply Forall_app; split; [apply Hby, le_bytes_bytes | by apply Forall_drop]).
  split_and!; [done| | | |done].
  - rewrite Hr by (rewrite ?length_app, ?Hl; done || lia). rewrite take_app_le, take_ge by lia.
    by rewrite Hinv, le_val_le_bytes.
  - by rewrite drop_app_le, drop_ge by lia.
  - rewrite length_app, Hl, length_drop. lia.
Qed.

Lemma hton64_le_bytes x : le_bytes 8 (hton64 x) = rev (le_bytes 8 x).
Proof.
  unfold hton64, badvpn_reverse64. pose proof (le_bytes_bytes 8 x) as Hb. pose proof (length_le_bytes 8 x) as Hl.
  destruct (le_bytes 8 x) as [|b0 [|b1 [|b2 [|b3 [|b4 [|b5 [|b6 [|b7 [|]]]]]]]]]; try done.
  apply (le_bytes_le_val [b7; b6; b5; b4; b3; b2; b1; b0]).
  rewrite !Forall_cons in Hb. rewrite !Forall_cons. tauto.
Qed.

Lemma hton64_bound x : 0 ≤ hton64 x < 2 ^ 64.
Proof.
  unfold hton64, badvpn_reverse64. pose proof (le_bytes_bytes 8 x) as Hb.
  destruct (le_bytes 8 x) as [|b0 [|b1 [|b2 [|b3 [|b4 [|b5 [|b6 [|b7 [|]]]]]]]]]; try lia.
  apply (le_val_bound [b7; b6; b5; b4; b3; b2; b1; b0]). rewrite !Forall_cons in Hb. rewrite !Forall_cons. tauto.
Qed.

(** The accessors of misc/read_write_int.h, of 1, 2, 4 and 8 bytes in either byte
    order: a write of a number of that width into enough memory succeeds, changes only
    the bytes of the number, and the read of the same width and order gives the number
    back; and the 8 bytes of [hton64] of a number are what [badvpn_write_be64] stores,
    so that [ntoh64] undoes [hton64]. *)
Theorem integers_in_memory n rd wr x p :
  (n, rd, wr) ∈ le_accesses ++ be_accesses → bytes p → (n ≤ length p)%nat → 0 ≤ x < 256 ^ Z.of_nat n →
  (∃ p', wr x p = Some p' ∧ rd p' = x ∧ drop n p' = drop n p ∧ length p' = length p ∧ bytes p') ∧
  (n = 8%nat → ntoh64 (hton64 x) = x ∧ badvpn_write_be64 x p = Some (le_bytes 8 (hton64 x) ++ drop 8 p)).
Proof.
  intros Hin Hp Hn Hx. split.
  - apply elem_of_app in Hin as [Hin|Hin].
    + pose proof (proj1 (Forall_forall _ _) le_accesses_ok _ Hin) as Hok. by apply (access_roundtrip id).
    + pose proof (proj1 (Forall_forall _ _) be_accesses_ok _ Hin) as Hok.
      apply (access_roundtrip (@rev Z)); auto using rev_involutive, length_rev, Forall_rev.
  - intros ->. split.
    + apply (le_bytes_inj 8); [apply hton64_bound|done|]. unfold ntoh64. by rewrite !hton64_le_bytes, rev_involutive.
    + rewrite hton64_le_bytes. by apply write_be_bytes.
Qed.

Lemma integers_in_memory_witness :
  (∃ p', badvpn_write_be32 305419896 [0; 0; 0; 0; 7] = Some p' ∧ badvpn_read_be32 p' = 305419896 ∧
         drop 4 p' = [7] ∧ length p' = 5%nat ∧ bytes p') ∧
  (4%nat = 8%nat → ntoh64 (hton64 305419896) = 305419896 ∧
     badvpn_write_be64 305419896 [0; 0; 0; 0; 7] = Some (le_bytes 8 (hton64 305419896) ++ [])).
Proof.
  apply (integers_in_memory 4 badvpn_read_be32 badvpn_write_be32 305419896 [0; 0; 0; 0; 7]).
  - unfold le_accesses, be_accesses. do 6 apply list_elem_of_further. apply list_elem_of_here.
  - repeat constructor; done.
  - cbn. lia.
  - cbn. lia.
Defined.

(** ** Sizes *)

Definition is_size (x : Z) : Prop := 0 ≤ x ≤ SIZE_MAX.

(** The guard of a multiplication of sizes. *)
Lemma mul_guard a b : is_size a → 0 < b → (SIZE_MAX / b <? a) = negb (a * b <=? SIZE_MAX).
Proof.
  intros Ha Hb. unfold is_size in Ha. pose proof (Z.div_mod SIZE_MAX b). pose proof (Z.mod_pos_bound SIZE_MAX b).
  destruct (Z.ltb_spec (SIZE_MAX / b) a), (Z.leb_spec (a * b) SIZE_MAX); cbn; try done; nia.
Qed.

Lemma u32_size x : is_size x → u32 x = x.
Proof. unfold is_size, SIZE_MAX. intros. apply u32_small. lia. Qed.

Section alloc.
Context {A : Type} (malloc : Z → option A) (realloc : A → Z → option A).

Lemma BAlloc_max n : 0 ≤ n → BAlloc malloc n = malloc (Z.max 1 n).
Proof. intros. unfold BAlloc. destruct (Z.eqb_spec n 0) as [->|]; [done|]. f_equal. lia. Qed.

Lemma BAllocArray_mul count b : is_size count → is_size b →
  BAllocArray malloc count b = if count * b <=? SIZE_MAX then malloc (Z.max 1 (count * b)) else None.
Proof.
  intros Hc Hb. unfold BAllocArray. destruct (Z.eqb_spec count 0) as [->|], (Z.eqb_spec b 0) as [->|]; cbn [orb]; rewrite ?Z.mul_0_r; try done.
  unfold is_size in *. rewrite mul_guard by (unfold is_size in *; lia). destruct (Z.leb_spec (count * b) SIZE_MAX); cbn [negb]; [|done].
  assert (0 < count * b) by nia. rewrite u32_size by (unfold is_size; lia). apply BAlloc_max. lia.
Qed.

Lemma BReallocArray_mul m count b : is_size count → is_size b →
  BReallocArray realloc m count b = if count * b <=? SIZE_MAX then realloc m (Z.max 1 (count * b)) else None.
Proof.
  intros Hc Hb. unfold BReallocArray. destruct (Z.eqb_spec count 0) as [->|], (Z.eqb_spec b 0) as [->|]; cbn [orb]; rewrite ?Z.mul_0_r; try done.
  unfold is_size in *. rewrite mul_guard by (unfold is_size in *; lia). destruct (Z.leb_spec (count * b) SIZE_MAX); cbn [negb]; [|done].
  assert (0 < count * b) by nia. rewrite u32_size by (unfold is_size; lia). f_equal. lia.
Qed.

Lemma BAllocArray2_mul c2 c1 b : is_size c2 → is_size c1 → is_size b →
  BAllocArray2 malloc c2 c1 b = if c2 * c1 * b <=? SIZE_MAX then malloc (Z.max 1 (c2 * c1 * b)) else None.
Proof.
  intros H2 H1 Hb. unfold BAllocArray2.
  destruct (Z.eqb_spec c2 0) as [->|]; [done|]. destruct (Z.eqb_spec c1 0) as [->|]; [by rewrite !Z.mul_0_r|].
  destruct (Z.eqb_spec b 0) as [->|]; [by rewrite !Z.mul_0_r|]. cbn [orb].
  unfold is_size in *. rewrite mul_guard by (unfold is_size in *; lia).
  assert (0 < c1 * b) by nia. assert (c1 * b ≤ c2 * c1 * b) by nia.
  destruct (Z.leb_spec (c1 * b) SIZE_MAX); cbn [negb].
  - rewrite (u32_size (c1 * b)), mul_guard by (unfold is_size; lia). rewrite (Z.mul_assoc c2 c1 b).
    destruct (Z.leb_spec (c2 * c1 * b) SIZE_MAX); cbn [negb]; [|done].
    rewrite u32_size by (unfold is_size; lia). apply BAlloc_max. lia.
  - destruct (Z.leb_spec (c2 * c1 * b) SIZE_MAX); [lia|done].
Qed.

(** The sum and the product of sizes given as [bsize_t] that do not overflow. *)
Lemma BAllocSize_mul a b : is_size a → is_size b →
  BAllocSize malloc (bsize_mul (bsize_fromsize a) (bsize_fromsize b)) = BAllocArray malloc a b.
Proof.
  intros Ha Hb. rewrite BAllocArray_mul by done. unfold BAllocSize, bsize_mul. cbn [is_overflow bvalue bsize_fromsize orb].
  unfold is_size in *. destruct (Z.eqb_spec a 0) as [->|]; cbn [negb andb]; [rewrite Z.mul_0_l; by apply BAlloc_max|].
  rewrite mul_guard by (unfold is_size; lia). rewrite (Z.mul_comm b a). destruct (Z.leb_spec (a * b) SIZE_MAX); cbn [negb]; [|done].
  rewrite u32_size by (unfold is_size; nia). apply BAlloc_max. nia.
Qed.
End alloc.

(** Allocation of misc/balloc.h never asks [malloc] or [realloc] for less than was
    meant because a product wrapped: [BAllocArray], [BReallocArray], [BAllocArray2] and
    [BAllocSize] of a [bsize_mul] ask for the product of their arguments (or for 1 byte
    when it is 0) when that product is a [size_t], and fail otherwise without asking. *)
Theorem allocation_never_wraps {A} (malloc : Z → option A) (realloc : A → Z → option A) m c2 c1 b :
  is_size c2 → is_size c1 → is_size b →
  BAllocArray malloc c1 b = (if c1 * b <=? SIZE_MAX then malloc (Z.max 1 (c1 * b)) else None) ∧
  BReallocArray realloc m c1 b = (if c1 * b <=? SIZE_MAX then realloc m (Z.max 1 (c1 * b)) else None) ∧
  BAllocArray2 malloc c2 c1 b = (if c2 * c1 * b <=? SIZE_MAX then malloc (Z.max 1 (c2 * c1 * b)) else None) ∧
  BAllocSize malloc (bsize_mul (bsize_fromsize c1) (bsize_fromsize b)) = BAllocArray malloc c1 b.
Proof. intros. split_and!; auto using BAllocArray_mul, BReallocArray_mul, BAllocArray2_mul, BAllocSize_mul. Qed.

(** A [malloc] that gives as many bytes as it is asked for, and a [realloc] likewise. *)
Definition all_memory (n : Z) : option Z := Some n.

Lemma allocation_never_wraps_witness :
  is_size 65536 ∧ BAllocArray all_memory 65536 65536 = None ∧
  BReallocArray (λ _ n, Some n) 0 65536 65536 = None ∧ BAllocArray2 all_memory 2 65536 65536 = None ∧
  BAllocSize all_memory (bsize_mul (bsize_fromsize 65536) (bsize_fromsize 65536)) = BAllocArray all_memory 65536 65536.
Proof.
  assert (is_size 65536) as H by (unfold is_size, SIZE_MAX; lia). assert (is_size 2) as H2 by (unfold is_size, SIZE_MAX; lia).
  split; [done|]. exact (allocation_never_wraps all_memory (λ _ n, Some n) 0 2 65536 65536 H2 H H).
Defined.

Lemma BSizeAlign_balign `{Build} s a : is_size s → is_size a → 0 < a →
  BSizeAlign s a = Some (if balign_up_overflows s a then None else Some (balign_up s a)).
Proof.
  intros Hs Ha Hpos. unfold BSizeAlign, balign_up_overflows, balign_up. rewrite assert_true by (apply Z.ltb_lt; lia).
  cbn [mbind option_bind]. destruct (Z.eqb_spec a 0); [lia|]. pose proof (Z.mod_pos_bound s a Hpos). cbn zeta.
  destruct (Z.ltb_spec 0 (s mod a)), (Z.eqb_spec (s mod a) 0); try lia; cbn [negb andb]; [|done].
  destruct (Z.ltb_spec (SIZE_MAX - s) (a - s mod a)), (Z.ltb_spec (SIZE_MAX - (a - s mod a)) s); try lia; done.
Qed.

Lemma balign_down_spec s a : 0 < a → s - a < balign_down s a ≤ s ∧ (a | balign_down s a).
Proof.
  intros Hpos. unfold balign_down. pose proof (Z.mod_pos_bound s a Hpos). pose proof (Z.div_mod s a).
  split; [lia|]. exists (s / a). lia.
Qed.

(** [BSizeAdd] and [BSizeAlign] of misc/balloc.h give the sum and the least
    multiple of [align] that is at least the size, when that is a [size_t], and report
    failure exactly when it is not; [balign_up] of misc/balign.h, guarded by
    [balign_up_overflows], gives the same, and [balign_down] the greatest multiple that
    is at most the size. *)
Theorem sizes_checked `{Build} s a :
  is_size s → is_size a → 0 < a →
  BSizeAdd s a = (if s + a <=? SIZE_MAX then Some (s + a) else None) ∧
  (∃ r, s ≤ r < s + a ∧ (a | r) ∧ BSizeAlign s a = Some (if r <=? SIZE_MAX then Some r else None)) ∧
  BSizeAlign s a = Some (if balign_up_overflows s a then None else Some (balign_up s a)) ∧
  s - a < balign_down s a ≤ s ∧ (a | balign_down s a).
Proof.
  intros Hs Ha Hpos. split_and!; [| |by apply BSizeAlign_balign| | |]; try by apply balign_down_spec.
  all: unfold is_size in *.
  - unfold BSizeAdd. destruct (Z.ltb_spec (SIZE_MAX - s) a), (Z.leb_spec (s + a) SIZE_MAX); try lia; [done|].
    rewrite u32_size by (unfold is_size; lia). done.
  - unfold BSizeAlign. rewrite assert_true by (apply Z.ltb_lt; lia). cbn [mbind option_bind].
    destruct (Z.eqb_spec a 0); [lia|]. pose proof (Z.mod_pos_bound s a Hpos). pose proof (Z.div_mod s a). cbn zeta.
    destruct (Z.ltb_spec 0 (s mod a)).
    + exists (s + (a - s mod a)). split_and!; [lia|lia|exists (s / a + 1); lia|].
      destruct (Z.ltb_spec (SIZE_MAX - s) (a - s mod a)), (Z.leb_spec (s + (a - s mod a)) SIZE_MAX); try lia; [done|].
      rewrite u32_size by (unfold is_size; lia). done.
    + exists s. split_and!; [lia|lia|exists (s / a); lia|]. destruct (Z.leb_spec s SIZE_MAX); [done|lia].
Qed.

Lemma sizes_checked_witness :
  BSizeAdd 13 8 = Some 21 ∧
  (∃ r, 13 ≤ r < 13 + 8 ∧ (8 | r) ∧ BSizeAlign (H := false) 13 8 = Some (if r <=? SIZE_MAX then Some r else None)) ∧
  BSizeAlign (H := false) 13 8 = Some (Some 16) ∧ 13 - 8 < 8 ≤ 13 ∧ (8 | 8).
Proof. apply (sizes_checked (H := false) 13 8); unfold is_size, SIZE_MAX; lia. Defined.

(** ** The clock *)

Lemma to_ms_mono unit s1 f1 s2 f2 :
  0 < unit → 0 ≤ f1 < 1000 * unit → 0 ≤ f2 < 1000 * unit → s1 < s2 ∨ s1 = s2 ∧ f1 ≤ f2 → to_ms unit s1 f1 ≤ to_ms unit s2 f2.
Proof.
  intros Hu H1 H2 H. unfold to_ms. rewrite !Z.quot_div_nonneg by lia.
  assert (0 ≤ f1 / unit < 1000) by (split; [apply Z.div_pos; lia|apply Z.div_lt_upper_bound; lia]).
  assert (0 ≤ f2 / unit) by (apply Z.div_pos; lia).
  destruct H as [|[-> Hf]]; [lia|]. pose proof (Z.div_le_mono f1 f2 unit Hu Hf). lia.
Qed.

(** A time of [clock_gettime]: seconds and nanoseconds. *)
Definition is_timespec (t : Z * Z) : Prop := 0 ≤ t.2 < 10 ^ 9.
Definition timespec_le (t u : Z * Z) : Prop := t.1 < u.1 ∨ t.1 = u.1 ∧ t.2 ≤ u.2.

(** The clock of system/BTime.h.  After [BTime_Init] with the monotonic clock, the
    times read are not negative and never go back as long as that clock does not; with
    assertions compiled in, the clock is set up once: a second [BTime_Init] fails, and
    so does a reading before the first. *)
Theorem clock_is_monotonic `{Build} g t0 t1 t2 w0 w1 w2 :
  time_initialized g = false → is_timespec t0 → is_timespec t1 → is_timespec t2 → timespec_le t0 t1 → timespec_le t1 t2 →
  ∃ g' m1 m2, BTime_Init (Some t0) w0 g = Some g' ∧
    btime_gettime (Some t1) w1 g' = Some m1 ∧ btime_gettime (Some t2) w2 g' = Some m2 ∧ 0 ≤ m1 ≤ m2 ∧
    (NDEBUG = false → BTime_Init (Some t1) w1 g' = None ∧ btime_gettime (Some t1) w1 g = None).
Proof.
  intros Hg H0 H1 H2 H01 H12. destruct t0 as [s0 f0], t1 as [s1 f1], t2 as [s2 f2].
  unfold is_timespec, timespec_le in *. cbn [fst snd] in *.
  pose proof (to_ms_mono 1000000 s0 f0 s1 f1) as M1. pose proof (to_ms_mono 1000000 s1 f1 s2 f2) as M2.
  eexists _, _, _. unfold BTime_Init. rewrite Hg, assert_true by done. cbn [mbind option_bind].
  split_and!; [reflexivity| | | | |].
  - unfold btime_gettime. rewrite assert_true by done. reflexivity.
  - unfold btime_gettime. rewrite assert_true by done. reflexivity.
  - cbn [start_time]. lia.
  - cbn [start_time]. lia.
  - intros Hd. unfold btime_gettime, assert. rewrite Hd, Hg. done.
Qed.

Lemma clock_is_monotonic_witness :
  ∃ g' m1 m2, BTime_Init (H := false) (Some (5, 0)) (0, 0) (mk_btime false 0 false) = Some g' ∧
    btime_gettime (H := false) (Some (5, 2000000)) (0, 0) g' = Some m1 ∧ btime_gettime (H := false) (Some (6, 0)) (0, 0) g' = Some m2 ∧ 0 ≤ m1 ≤ m2 ∧
    (false = false → BTime_Init (H := false) (Some (5, 2000000)) (0, 0) g' = None ∧
       btime_gettime (H := false) (Some (5, 2000000)) (0, 0) (mk_btime false 0 false) = None).
Proof.
  apply (clock_is_monotonic (H := false) (mk_btime false 0 false) (5, 0) (5, 2000000) (6, 0) (0, 0) (0, 0) (0, 0));
    unfold is_timespec, timespec_le; cbn; (reflexivity || lia).
Defined.
