(* ===== verification/Bavl.v ===== *)
(** * Bavl: AVL trees with parent pointers

    Models structure/BAVL.h, the search tree under the string map and the
    connection tables.  Nodes live in a memory from addresses to their links and
    balance factors; the operations follow and change the pointers as the code
    does.  [None] is an access through a null or dangling pointer, a failed
    assertion, or a loop that runs out of fuel; the theorems show that none
    happens.  (Node counts, [BAVL_COUNT], are not compiled in.) *)
From stdpp Require Import sorting.
From S2P Require Import Prelude Bytes.

(** The caller's comparator: a total order on values. *)
Class Comparator (V : Type) := comparator : V → V → Z.

Class ComparatorOk (V : Type) `{Comparator V} : Prop := {
  cmp_range v w : comparator v w = -1 ∨ comparator v w = 0 ∨ comparator v w = 1;
  cmp_flip v w : comparator w v = - comparator v w;
  cmp_lt_trans u v w : comparator u v = -1 → comparator v w = -1 → comparator u w = -1;
  cmp_eq u v w : comparator u v = 0 → comparator u w = comparator v w
}.

Module BAVL.
Section bavl.
Context `{Build} {V : Type} `{Comparator V}.
(** [_BAVL_node_value]: the value of a node lies in the object around it. *)
Context (node_value : Z → V).

Record BAVLNode := mk_node { parent : option Z; link0 : option Z; link1 : option Z; balance : Z }.

Record t := mk { root : option Z; mem : gmap Z BAVLNode }.

Abbreviation IO := (M t False).

(** [link[side]] *)
Definition link (side : bool) (n : BAVLNode) : option Z := if side then link1 n else link0 n.

Definition set_parent (p : option Z) (n : BAVLNode) : BAVLNode := mk_node p (link0 n) (link1 n) (balance n).
Definition set_link (side : bool) (c : option Z) (n : BAVLNode) : BAVLNode :=
  if side then mk_node (parent n) (link0 n) c (balance n) else mk_node (parent n) c (link1 n) (balance n).
Definition set_balance (b : Z) (n : BAVLNode) : BAVLNode := mk_node (parent n) (link0 n) (link1 n) b.

Definition set_root (r : option Z) : IO unit := mmodify (λ o, mk r (mem o)).
Definition get (p : Z) : IO BAVLNode := o ← mget; mlift (mem o !! p).
Definition update (p : Z) (f : BAVLNode → BAVLNode) : IO unit :=
  _ ← get p; mmodify (λ o, mk (root o) (alter f p (mem o))).
(** An update through a pointer that may be null. *)
Definition update_if (p : option Z) (f : BAVLNode → BAVLNode) : IO unit :=
  match p with Some p => update p f | None => mret tt end.

(** [p == q->link[1]], as an index *)
Definition is_right (p : Z) (q : BAVLNode) : bool := bool_decide (link1 q = Some p).

(** [if (par) par->link[p == par->link[1]] = c; else tree->root = c;] *)
Definition replace_child (par : option Z) (p : Z) (c : option Z) : IO unit :=
  match par with
  | Some q => y ← get q; update q (set_link (is_right p y) c)
  | None => set_root c
  end.

Definition compare_values (v1 v2 : V) : IO Z :=
  let res := comparator v1 v2 in
  ASSERT ((res =? -1) || (res =? 0) || (res =? 1));;
  mret res.

Definition compare_nodes (n1 n2 : Z) : IO Z := compare_values (node_value n1) (node_value n2).

(** ** Restructuring *)

Definition rotate (r : Z) (dir : bool) : IO unit :=
  x ← get r;
  nr ← mlift (link (negb dir) x);
  y ← get nr;
  update r (set_link (negb dir) (link dir y));;
  update_if (link dir y) (set_parent (Some r));;
  update nr (set_link dir (Some r));;
  update nr (set_parent (parent x));;
  replace_child (parent x) r (Some nr);;
  update r (set_parent (Some nr)).

(** [while (n->link[side]) n = n->link[side];] *)
Fixpoint descend (fuel : nat) (side : bool) (n : Z) : IO Z :=
  match fuel with
  | O => mabort
  | S fuel =>
      x ← get n;
      match link side x with
      | Some c => descend fuel side c
      | None => mret n
      end
  end.

Definition subtree_max (fuel : nat) (n : Z) : IO Z := descend fuel true n.

Definition replace_subtree (dest : Z) (n : option Z) : IO unit :=
  x ← get dest;
  replace_child (parent x) dest n;;
  update_if n (set_parent (parent x)).

(** The first case of [_BAVL_swap_nodes]: [n1] is the parent of [n2]. *)
Definition swap_adjacent (n1 n2 : Z) : IO unit :=
  x ← get n1;
  y ← get n2;
  let side := is_right n2 x in
  let c := link (negb side) x in
  update n1 (set_link false (link0 y));;
  update_if (link0 y) (set_parent (Some n1));;
  update n1 (set_link true (link1 y));;
  update_if (link1 y) (set_parent (Some n1));;
  update n2 (set_parent (parent x));;
  replace_child (parent x) n1 (Some n2);;
  update n2 (set_link side (Some n1));;
  update n1 (set_parent (Some n2));;
  update n2 (set_link (negb side) c);;
  update_if c (set_parent (Some n2)).

(** One side of the children exchanged. *)
Definition swap_children (side : bool) (n1 n2 : Z) : IO unit :=
  x ← get n1;
  y ← get n2;
  update n1 (set_link side (link side y));;
  update_if (link side y) (set_parent (Some n1));;
  update n2 (set_link side (link side x));;
  update_if (link side x) (set_parent (Some n2)).

Definition swap_distant (n1 n2 : Z) : IO unit :=
  x ← get n1;
  y ← get n2;
  (* swap parents *)
  update n1 (set_parent (parent y));;
  replace_child (parent y) n2 (Some n1);;
  update n2 (set_parent (parent x));;
  replace_child (parent x) n1 (Some n2);;
  (* swap left children, swap right children *)
  swap_children false n1 n2;;
  swap_children true n1 n2.

Definition swap_nodes (n1 n2 : Z) : IO unit :=
  x ← get n1;
  y ← get n2;
  (if bool_decide (parent x = Some n2) then swap_adjacent n2 n1
   else if bool_decide (parent y = Some n1) then swap_adjacent n1 n2
   else swap_distant n1 n2);;
  (* swap balance factors *)
  update n1 (set_balance (balance y));;
  update n2 (set_balance (balance x)).

Definition BAVL_MAX (a b : Z) : Z := if b <? a then a else b.
Definition BAVL_OPTNEG (a : Z) (neg : bool) : Z := if neg then - a else a.

(** The transformations of [_BAVL_rebalance] for a balance factor of 2 or -2:
    the node that is now at the top, and the change of [delta]. *)
Definition restore (node : Z) (bside : bool) : IO (Z * Z) :=
  let bsidef := if bside then 1 else -1 in
  x ← get node;
  child ← mlift (link bside x);
  y ← get child;
  if balance y * bsidef =? 1 then
    rotate node (negb bside);;
    update node (set_balance 0);;
    update child (set_balance 0);;
    mret (child, -1)
  else if balance y * bsidef =? 0 then
    rotate node (negb bside);;
    update node (set_balance (1 * bsidef));;
    update child (set_balance (-1 * bsidef));;
    mret (child, 0)
  else if balance y * bsidef =? -1 then
    gchild ← mlift (link (negb bside) y);
    rotate child bside;;
    rotate node (negb bside);;
    z ← get gchild;
    update node (set_balance (- BAVL_MAX 0 (balance z * bsidef) * bsidef));;
    update child (set_balance (BAVL_MAX 0 (- balance z * bsidef) * bsidef));;
    update gchild (set_balance 0);;
    mret (gchild, -1)
  else ASSERT false;; mret (node, 0).

Fixpoint rebalance (fuel : nat) (node : Z) (side : bool) (deltac : Z) : IO unit :=
  match fuel with
  | O => mabort
  | S fuel =>
      x ← get node;
      ASSERT ((-1 <=? deltac) && (deltac <=? 1));;
      ASSERT ((-1 <=? balance x) && (balance x <=? 1));;
      (* if no subtree changed its height, no more rebalancing is needed *)
      if deltac =? 0 then mret tt
      else
        (* calculate how much our height changed *)
        let delta := BAVL_MAX deltac (BAVL_OPTNEG (balance x) side) - BAVL_MAX 0 (BAVL_OPTNEG (balance x) side) in
        ASSERT ((-1 <=? delta) && (delta <=? 1));;
        (* update our balance factor *)
        let b := balance x - BAVL_OPTNEG deltac side in
        update node (set_balance b);;
        (* perform transformations if the balance factor is wrong *)
        r ← (if b =? 2 then restore node true
             else if b =? -2 then restore node false
             else mret (node, 0));
        let '(node, d) := r in
        let delta := delta + d in
        ASSERT ((-1 <=? delta) && (delta <=? 1));;
        x ← get node;
        match parent x with
        | Some p => y ← get p; rebalance fuel p (is_right node y) delta
        | None => mret tt
        end
  end.

(** ** Operations *)

Definition Init : t := mk None ∅.

(** Enough for any path in the tree. *)
Definition path_fuel (o : t) : nat := S (size (mem o)).

(** The search of [BAVL_Insert]: an equal node, or the node to insert below and
    the side. *)
Fixpoint insert_search (fuel : nat) (node c : Z) : IO (Z * option bool) :=
  match fuel with
  | O => mabort
  | S fuel =>
      comp ← compare_nodes node c;
      if comp =? 0 then mret (c, None)
      else
        let side := comp =? 1 in
        x ← get c;
        match link side x with
        | None => mret (c, Some side)
        | Some c' => insert_search fuel node c'
        end
  end.

(** The result and [*ref]. *)
Definition Insert (node : Z) : IO (bool * option Z) :=
  o ← mget;
  match root o with
  | None =>
      (* insert to root *)
      mput (mk (Some node) (<[node := mk_node None None None 0]> (mem o)));;
      mret (true, None)
  | Some r =>
      (* find node to insert to *)
      found ← insert_search (path_fuel o) node r;
      match found with
      | (c, None) => mret (false, Some c)
      | (c, Some side) =>
          (* insert *)
          update c (set_link side (Some node));;
          mmodify (λ o, mk (root o) (<[node := mk_node (Some c) None None 0]> (mem o)));;
          o ← mget;
          (* rebalance *)
          rebalance (path_fuel o) c side 1;;
          mret (true, Some c)
      end
  end.

(** The end of [BAVL_Remove], with at most one child left. *)
Definition unlink (fuel : nat) (node : Z) : IO unit :=
  x ← get node;
  ASSERT (negb (bool_decide (is_Some (link0 x)) && bool_decide (is_Some (link1 x))));;
  let child := match link0 x with Some c => Some c | None => link1 x end in
  match parent x with
  | Some p =>
      (* remember on which side node is, replace node with child, rebalance *)
      y ← get p;
      let side := is_right node y in
      replace_subtree node child;;
      rebalance fuel p side (-1)
  | None => replace_subtree node child
  end.

Definition Remove (node : Z) : IO unit :=
  o ← mget;
  x ← get node;
  (* if we have both subtrees, swap the node and the largest node in the left subtree *)
  (match link0 x, link1 x with
   | Some l, Some _ => max ← subtree_max (path_fuel o) l; swap_nodes node max
   | _, _ => mret tt
   end);;
  unlink (path_fuel o) node.

Definition IsEmpty (o : t) : bool := negb (bool_decide (is_Some (root o))).

Fixpoint lookup_loop (fuel : nat) (val : V) (c : Z) : IO (Z * bool) :=
  match fuel with
  | O => mabort
  | S fuel =>
      comp ← compare_values val (node_value c);
      if comp =? 0 then mret (c, true)
      else
        x ← get c;
        match link (comp =? 1) x with
        | None => mret (c, false)
        | Some c' => lookup_loop fuel val c'
        end
  end.

Definition Lookup (val : V) : IO (option Z) :=
  o ← mget;
  match root o with
  | None => mret None
  | Some r => found ← lookup_loop (path_fuel o) val r; mret (Some found.1)
  end.

Definition LookupExact (val : V) : IO (option Z) :=
  o ← mget;
  match root o with
  | None => mret None
  | Some r => found ← lookup_loop (path_fuel o) val r; mret (if found.2 : bool then Some found.1 else None)
  end.

(** [while (n->parent && n == n->parent->link[side]) n = n->parent;], then [n->parent] *)
Fixpoint ascend (fuel : nat) (side : bool) (n : Z) : IO (option Z) :=
  match fuel with
  | O => mabort
  | S fuel =>
      x ← get n;
      match parent x with
      | None => mret None
      | Some p =>
          y ← get p;
          if bool_decide (link side y = Some n) then ascend fuel side p else mret (Some p)
      end
  end.

(** [BAVL_GetFirst] and [BAVL_GetLast] *)
Definition GetEnd (side : bool) : IO (option Z) :=
  o ← mget;
  match root o with
  | None => mret None
  | Some r => n ← descend (path_fuel o) side r; mret (Some n)
  end.
Definition GetFirst : IO (option Z) := GetEnd false.
Definition GetLast : IO (option Z) := GetEnd true.

(** [BAVL_GetNext] ([side] 1) and [BAVL_GetPrev] ([side] 0) *)
Definition GetNeighbour (side : bool) (n : Z) : IO (option Z) :=
  o ← mget;
  x ← get n;
  match link side x with
  | Some c => r ← descend (path_fuel o) (negb side) c; mret (Some r)
  | None => ascend (path_fuel o) side n
  end.
Definition GetNext (n : Z) : IO (option Z) := GetNeighbour true n.
Definition GetPrev (n : Z) : IO (option Z) := GetNeighbour false n.

(** [_BAVL_assert_recurser]: the height of the tree below [n], if its pointers,
    order and balance factors are right. *)
Fixpoint assert_recurser (fuel : nat) (o : t) (n : Z) : option Z :=
  match fuel with
  | O => None
  | S fuel =>
      x ← mem o !! n;
      let child side want :=
        match link side x with
        | None => Some 0
        | Some c =>
            y ← mem o !! c;
            if bool_decide (parent y = Some n) && (comparator (node_value c) (node_value n) =? want)
            then assert_recurser fuel o c else None
        end in
      height_left ← child false (-1);
      height_right ← child true 1;
      if (-1 <=? balance x) && (balance x <=? 1) && (balance x =? height_right - height_left)
      then Some (BAVL_MAX height_left height_right + 1) else None
  end.

Definition Verify (o : t) : bool :=
  match root o with
  | None => true
  | Some r => bool_decide (is_Some (assert_recurser (path_fuel o) o r)) && bool_decide (parent <$> mem o !! r = Some None)
  end.

(** ** The tree behind the pointers *)

Inductive tree := Leaf | Node (l : tree) (p b : Z) (r : tree).

(** The node with [a] on side [s] and [c] on the other. *)
Definition nd (s : bool) (a : tree) (p b : Z) (c : tree) : tree :=
  if s then Node c p b a else Node a p b c.

Definition root_of (T : tree) : option Z := match T with Leaf => None | Node _ p _ _ => Some p end.

Fixpoint elements (T : tree) : list Z :=
  match T with Leaf => [] | Node l p _ r => elements l ++ p :: elements r end.

Fixpoint height (T : tree) : Z :=
  match T with Leaf => 0 | Node l _ _ r => 1 + Z.max (height l) (height r) end.

Fixpoint avl (T : tree) : Prop :=
  match T with
  | Leaf => True
  | Node l _ b r => b = height r - height l ∧ -1 ≤ b ≤ 1 ∧ avl l ∧ avl r
  end.

(** [T] lies in the memory [h] below [par]. *)
Fixpoint rep (h : gmap Z BAVLNode) (par : option Z) (T : tree) : Prop :=
  match T with
  | Leaf => True
  | Node l p b r =>
      h !! p = Some (mk_node par (root_of l) (root_of r) b) ∧ rep h (Some p) l ∧ rep h (Some p) r
  end.

Definition valid (o : t) (T : tree) : Prop :=
  root o = root_of T ∧ rep (mem o) None T ∧ NoDup (elements T).

(** The way from a subtree up to the root: side, node, balance factor, sibling. *)
Definition ctx := list (bool * Z * Z * tree).

Fixpoint plug (c : ctx) (T : tree) : tree :=
  match c with [] => T | (s, p, b, sib) :: c => plug c (nd s T p b sib) end.

Definition par_of (par : option Z) (c : ctx) : option Z :=
  match c with [] => par | (_, p, _, _) :: _ => Some p end.

Definition mkn (s : bool) (par a c : option Z) (b : Z) : BAVLNode :=
  if s then mk_node par c a b else mk_node par a c b.

Fixpoint repc (h : gmap Z BAVLNode) (par : option Z) (c : ctx) (hole : option Z) : Prop :=
  match c with
  | [] => True
  | (s, p, b, sib) :: c =>
      h !! p = Some (mkn s (par_of par c) hole (root_of sib) b) ∧ rep h (Some p) sib ∧ repc h par c (Some p)
  end.

Fixpoint cnodes (c : ctx) : list Z :=
  match c with [] => [] | (_, p, _, sib) :: c => p :: elements sib ++ cnodes c end.

(** What lies to the left and to the right of the hole, in order. *)
Fixpoint lefts (c : ctx) : list Z :=
  match c with
  | [] => []
  | (s, p, _, sib) :: c => if s : bool then lefts c ++ elements sib ++ [p] else lefts c
  end.
Fixpoint rights (c : ctx) : list Z :=
  match c with
  | [] => []
  | (s, p, _, sib) :: c => if s : bool then rights c else p :: elements sib ++ rights c
  end.

(** Heights and balance factors on the way up, for a hole of height [k]. *)
Definition bal (s : bool) (k h : Z) : Z := if s then k - h else h - k.
Fixpoint avlc (c : ctx) (k : Z) : Prop :=
  match c with
  | [] => True
  | (s, p, b, sib) :: c =>
      b = bal s k (height sib) ∧ -1 ≤ b ≤ 1 ∧ avl sib ∧ avlc c (1 + Z.max k (height sib))
  end.

(** *** Both sides alike *)

Lemma nd_flip s a p b c : nd (negb s) a p b c = nd s c p b a.
Proof. by destruct s. Qed.

Lemma root_of_nd s a p b c : root_of (nd s a p b c) = Some p.
Proof. by destruct s. Qed.

Lemma height_nonneg T : 0 ≤ height T.
Proof. induction T; cbn; lia. Qed.

Lemma height_nd s a p b c : height (nd s a p b c) = 1 + Z.max (height a) (height c).
Proof. destruct s; cbn; lia. Qed.

Lemma avl_nd s a p b c :
  avl (nd s a p b c) ↔ b = bal s (height a) (height c) ∧ -1 ≤ b ≤ 1 ∧ avl a ∧ avl c.
Proof. destruct s; cbn; naive_solver. Qed.

Lemma rep_nd h par s a p b c :
  rep h par (nd s a p b c) ↔
  h !! p = Some (mkn s par (root_of a) (root_of c) b) ∧ rep h (Some p) a ∧ rep h (Some p) c.
Proof. destruct s; cbn; naive_solver. Qed.

Lemma elements_nd s a p b c :
  elements (nd s a p b c) = if s then elements c ++ p :: elements a else elements a ++ p :: elements c.
Proof. by destruct s. Qed.

Lemma elements_nd_perm s a p b c : elements (nd s a p b c) ≡ₚ p :: elements a ++ elements c.
Proof.
  rewrite elements_nd. destruct s; rewrite <- Permutation_middle; [|done].
  constructor. apply Permutation_app_comm.
Qed.

Lemma link_mkn s par a c b : link s (mkn s par a c b) = a.
Proof. by destruct s. Qed.
Lemma link_mkn_other s par a c b : link (negb s) (mkn s par a c b) = c.
Proof. by destruct s. Qed.
Lemma parent_mkn s par a c b : parent (mkn s par a c b) = par.
Proof. by destruct s. Qed.
Lemma balance_mkn s par a c b : balance (mkn s par a c b) = b.
Proof. by destruct s. Qed.
Lemma set_link_mkn s par a c b x : set_link s x (mkn s par a c b) = mkn s par x c b.
Proof. by destruct s. Qed.
Lemma set_link_mkn_other s par a c b x : set_link (negb s) x (mkn s par a c b) = mkn s par a x b.
Proof. by destruct s. Qed.
Lemma set_parent_mkn s par a c b x : set_parent x (mkn s par a c b) = mkn s x a c b.
Proof. by destruct s. Qed.
Lemma set_balance_mkn s par a c b x : set_balance x (mkn s par a c b) = mkn s par a c x.
Proof. by destruct s. Qed.
Lemma mkn_flip s par a c b : mkn (negb s) par a c b = mkn s par c a b.
Proof. by destruct s. Qed.

(** *** Zippers *)

Lemma elements_plug c T : elements (plug c T) = lefts c ++ elements T ++ rights c.
Proof.
  revert T. induction c as [|[[[s p] b] sib] c IH]; intros T; cbn; [by rewrite app_nil_r|].
  rewrite IH, elements_nd. destruct s; rewrite <- !app_assoc; cbn; by rewrite <- ?app_assoc.
Qed.

Lemma cnodes_perm c : lefts c ++ rights c ≡ₚ cnodes c.
Proof.
  induction c as [|[[[s p] b] sib] c IH]; cbn; [done|]. rewrite <- IH.
  destruct s; rewrite <- ?app_assoc; cbn; solve_Permutation.
Qed.

Lemma plug_nodes c T : elements (plug c T) ≡ₚ elements T ++ cnodes c.
Proof. rewrite elements_plug, <- cnodes_perm. solve_Permutation. Qed.

Lemma rep_plug h par c T : rep h par (plug c T) ↔ rep h (par_of par c) T ∧ repc h par c (root_of T).
Proof.
  revert T. induction c as [|[[[s p] b] sib] c IH]; intros T; cbn; [naive_solver|].
  rewrite IH, rep_nd, root_of_nd. naive_solver.
Qed.

Lemma plug_app c1 c2 T : plug (c1 ++ c2) T = plug c2 (plug c1 T).
Proof. revert T. induction c1 as [|[[[s p] b] sib] c1 IH]; intros T; cbn; [done|apply IH]. Qed.

Lemma avl_plug c T : avl (plug c T) ↔ avl T ∧ avlc c (height T).
Proof.
  revert T. induction c as [|[[[s p] b] sib] c IH]; intros T; cbn; [naive_solver|].
  rewrite IH, avl_nd, height_nd. naive_solver.
Qed.

Lemma root_of_plug c T : par_of None c = None → root_of (plug c T) = root_of T.
Proof. destruct c as [|[[[s p] b] sib] c]; [done|done]. Qed.

Lemma plug_root_hole c T T' : c ≠ [] → root_of (plug c T) = root_of (plug c T').
Proof.
  revert T T'. induction c as [|[[[s p] b] sib] c IH]; intros T T' Hc; [done|]. cbn [plug].
  destruct c as [|f c]; [cbn [plug]; by rewrite !root_of_nd|]. by apply IH.
Qed.

Lemma root_in T p : root_of T = Some p → p ∈ elements T.
Proof. destruct T; cbn; [done|]. intros [= ->]. set_solver. Qed.

Lemma rep_in h par T p : rep h par T → p ∈ elements T → is_Some (h !! p).
Proof.
  revert par. induction T as [|l IHl q b r IHr]; intros par; cbn; [set_solver|].
  intros (Hq & Hl & Hr) [?|[->|?]%elem_of_cons]%elem_of_app; [by eapply IHl|by eexists|by eapply IHr].
Qed.

Lemma repc_in h par c hole p : repc h par c hole → p ∈ cnodes c → is_Some (h !! p).
Proof.
  revert hole. induction c as [|[[[s q] b] sib] c IH]; intros hole; cbn; [set_solver|].
  intros (Hq & Hs & Hc) [->|[?|?]%elem_of_app]%elem_of_cons; [by eexists|by eapply rep_in|by eapply IH].
Qed.

(** *** Frames *)

Lemma rep_frame h h' par T : rep h par T → (∀ q, q ∈ elements T → h' !! q = h !! q) → rep h' par T.
Proof.
  revert par. induction T as [|l IHl p b r IHr]; intros par; cbn; [done|].
  intros (Hp & Hl & Hr) Hf. rewrite Hf by set_solver. split_and!; [done| |].
  - apply IHl; [done|]. set_solver.
  - apply IHr; [done|]. set_solver.
Qed.

Lemma repc_frame h h' par c hole :
  repc h par c hole → (∀ q, q ∈ cnodes c → h' !! q = h !! q) → repc h' par c hole.
Proof.
  revert hole. induction c as [|[[[s p] b] sib] c IH]; intros hole; cbn; [done|].
  intros (Hp & Hs & Hc) Hf. rewrite Hf by set_solver. split_and!; [done| |].
  - eapply rep_frame; [done|]. set_solver.
  - apply IH; [done|]. set_solver.
Qed.

(** A subtree is given a new parent. *)
Lemma rep_reparent h h' par par' T :
  rep h par T → NoDup (elements T) →
  (∀ q, q ∈ elements T → h' !! q = (if bool_decide (root_of T = Some q) then set_parent par' else id) <$> h !! q) →
  rep h' par' T.
Proof.
  destruct T as [|l p b r]; cbn; [done|]. intros (Hp & Hl & Hr) Hnd Hf.
  rewrite NoDup_app, NoDup_cons in Hnd. destruct Hnd as (_ & Hd & Hpr & _).
  rewrite Hf, Hp, bool_decide_true by set_solver. split_and!; [done| |].
  - eapply rep_frame; [done|]. intros q Hq. rewrite Hf by set_solver.
    rewrite bool_decide_false by (intros [= ->]; set_solver). by destruct (h !! q).
  - eapply rep_frame; [done|]. intros q Hq. rewrite Hf by set_solver.
    rewrite bool_decide_false by (intros [= ->]; set_solver). by destruct (h !! q).
Qed.

(** The hole of a context is given a new root. *)
Lemma repc_hole h h' par c hole hole' :
  repc h par c hole → NoDup (cnodes c) →
  (∀ q, q ∈ cnodes c → h' !! q =
     match c with
     | (s, p, _, _) :: _ => (if bool_decide (q = p) then set_link s hole' else id) <$> h !! q
     | [] => h !! q
     end) →
  repc h' par c hole'.
Proof.
  destruct c as [|[[[s p] b] sib] c]; cbn; [done|]. intros (Hp & Hs & Hc) Hnd Hf.
  apply NoDup_cons in Hnd as [Hnp Hnd].
  rewrite Hf, Hp, bool_decide_true by set_solver. cbn. rewrite set_link_mkn. split_and!; [done| |].
  - eapply rep_frame; [done|]. intros q Hq. rewrite Hf by set_solver.
    rewrite bool_decide_false by (intros ->; set_solver). by destruct (h !! q).
  - eapply repc_frame; [done|]. intros q Hq. rewrite Hf by set_solver.
    rewrite bool_decide_false by (intros ->; set_solver). by destruct (h !! q).
Qed.

(** ** Running the pointer code *)

Definition alter_if (f : BAVLNode → BAVLNode) (p : option Z) (h : gmap Z BAVLNode) : gmap Z BAVLNode :=
  match p with Some p => alter f p h | None => h end.

Definition redirect (p : Z) (c : option Z) (y : BAVLNode) : BAVLNode := set_link (is_right p y) c y.

Lemma wp_get_node p x o (Q : BAVLNode → t → list False → Prop) :
  mem o !! p = Some x → Q x o [] → wp (get p) o Q.
Proof. intros Hp HQ. unfold get. wp_step. wp_step. unfold wp, mlift. by rewrite Hp. Qed.

Lemma wp_link c p o (Q : Z → t → list False → Prop) : c = Some p → Q p o [] → wp (mlift c) o Q.
Proof. by intros ->. Qed.

Lemma wp_update_node p f o (Q : unit → t → list False → Prop) :
  is_Some (mem o !! p) → Q tt (mk (root o) (alter f p (mem o))) [] → wp (update p f) o Q.
Proof. intros [x Hp] HQ. unfold update. wp_step. eapply wp_get_node; [done|]. wp_step. done. Qed.

Lemma wp_update_if p f o (Q : unit → t → list False → Prop) :
  (∀ q, p = Some q → is_Some (mem o !! q)) → Q tt (mk (root o) (alter_if f p (mem o))) [] → wp (update_if p f) o Q.
Proof.
  intros Hp HQ. destruct p as [p|]; cbn; [|by destruct o].
  apply wp_update_node; [by apply Hp|done].
Qed.

Lemma alter_lookup_ext f g p (h : gmap Z BAVLNode) :
  (∀ x, h !! p = Some x → f x = g x) → alter f p h = alter g p h.
Proof.
  intros Hx. apply map_eq. intros q. destruct (decide (q = p)) as [->|Hq].
  - rewrite !lookup_alter_eq. destruct (h !! p) as [x|] eqn:Hp; [|done]. cbn. by rewrite Hx.
  - by rewrite !lookup_alter_ne.
Qed.

Lemma wp_replace_child par p c o (Q : unit → t → list False → Prop) :
  (∀ q, par = Some q → is_Some (mem o !! q)) →
  Q tt (mk (match par with Some _ => root o | None => c end) (alter_if (redirect p c) par (mem o))) [] →
  wp (replace_child par p c) o Q.
Proof.
  intros Hp HQ. unfold replace_child. destruct par as [q|]; [|unfold set_root; by wp_step]. destruct (Hp q eq_refl) as [y Hy].
  wp_step. eapply wp_get_node; [exact Hy|]. apply wp_update_node; [by eexists|]. cbn [app].
  cbn in HQ. erewrite alter_lookup_ext; [exact HQ|]. intros x Hx. rewrite Hy in Hx. by injection Hx as <-.
Qed.

Lemma lookup_alter_if_eq f p q (h : gmap Z BAVLNode) : p = Some q → alter_if f p h !! q = f <$> h !! q.
Proof. intros ->. apply lookup_alter_eq. Qed.

Lemma lookup_alter_if_ne f p q (h : gmap Z BAVLNode) : p ≠ Some q → alter_if f p h !! q = h !! q.
Proof. intros Hp. destruct p as [p|]; [|done]. apply lookup_alter_ne. congruence. Qed.

Lemma lookup_alter_if f p q (h : gmap Z BAVLNode) :
  alter_if f p h !! q = (if bool_decide (p = Some q) then f else id) <$> h !! q.
Proof.
  case_bool_decide; [by apply lookup_alter_if_eq|]. rewrite lookup_alter_if_ne by done. by destruct (h !! q).
Qed.

Lemma is_Some_alter f p q (h : gmap Z BAVLNode) : is_Some (h !! q) → is_Some (alter f p h !! q).
Proof. rewrite <- !elem_of_dom. by rewrite dom_alter_L. Qed.

Lemma is_Some_alter_if f p q (h : gmap Z BAVLNode) : is_Some (h !! q) → is_Some (alter_if f p h !! q).
Proof. destruct p; [apply is_Some_alter|done]. Qed.

Lemma redirect_mkn s par p c b x : c ≠ Some p → redirect p x (mkn s par (Some p) c b) = mkn s par x c b.
Proof. intros Hc. unfold redirect, is_right. destruct s; cbn; [by rewrite bool_decide_true|by rewrite bool_decide_false]. Qed.

Lemma valid_plug o c T :
  valid o (plug c T) ↔
  root o = root_of (plug c T) ∧ rep (mem o) (par_of None c) T ∧ repc (mem o) None c (root_of T) ∧
  NoDup (elements T ++ cnodes c).
Proof. unfold valid. rewrite rep_plug, plug_nodes. naive_solver. Qed.

(** The parent of a subtree [p] is made to point to [c]; nothing else on the way
    up changes. *)
Lemma repc_redirect h h' par c p x :
  repc h par c (Some p) → NoDup (cnodes c) → p ∉ cnodes c →
  (∀ q, q ∈ cnodes c → h' !! q = (if bool_decide (par_of par c = Some q) then redirect p x else id) <$> h !! q) →
  repc h' par c x.
Proof.
  intros Hc Hnd Hp Hf. destruct c as [|[[[s q] b] sib] c]; [done|].
  eapply repc_hole; [exact Hc|exact Hnd|]. intros k Hk. rewrite Hf by done. cbn.
  destruct (decide (k = q)) as [->|Hkq].
  - rewrite !bool_decide_true by done. cbn in Hc. destruct Hc as (-> & _ & _). cbn.
    rewrite redirect_mkn, set_link_mkn; [done|]. intros Hs. apply root_in in Hs. cbn in Hp. set_solver.
  - by rewrite !bool_decide_false by congruence.
Qed.

Lemma par_in c q : par_of None c = Some q → q ∈ cnodes c.
Proof. destruct c as [|[[[s p] b] sib] c]; [done|]. intros [= ->]. cbn. set_solver. Qed.

(** Distinct nodes and disjoint sets of nodes, told apart by numbers. *)
Fixpoint owned (ow : Z → nat) (i : nat) (Ls : list (list Z)) : Prop :=
  match Ls with [] => True | L :: Ls => (∀ q, q ∈ L → ow q = i) ∧ owned ow (S i) Ls end.
Fixpoint owned1 (ow : Z → nat) (i : nat) (ps : list Z) : Prop :=
  match ps with [] => True | p :: ps => ow p = i ∧ owned1 ow (S i) ps end.

Lemma owners_lists (Ls : list (list Z)) i : NoDup (concat Ls) → ∃ ow, owned ow i Ls ∧ ∀ q, (i ≤ ow q)%nat.
Proof.
  revert i. induction Ls as [|L Ls IH]; intros i Hnd; cbn in *; [by exists (λ _, i)|].
  apply NoDup_app in Hnd as (_ & Hd & Hnd). destruct (IH (S i) Hnd) as (ow & How & Hge).
  exists (λ q, if bool_decide (q ∈ L) then i else ow q). split; [split|].
  - intros q Hq. by rewrite bool_decide_true.
  - clear IH Hnd Hge. assert (∀ q, q ∈ concat Ls → q ∉ L) as Hd' by (intros q Hq HL; by apply (Hd q)).
    clear Hd. revert How Hd'. generalize (S i). induction Ls as [|L' Ls IH]; intros k; cbn; [done|].
    intros [HL How] Hd'. split; [|apply IH; [done|]; set_solver].
    intros q Hq. rewrite bool_decide_false by (apply Hd'; set_solver). by apply HL.
  - intros q. case_bool_decide; [done|]. specialize (Hge q). lia.
Qed.

Lemma owners (ps : list Z) (Ls : list (list Z)) :
  NoDup (ps ++ concat Ls) → ∃ ow, owned1 ow 0 ps ∧ owned ow (length ps) Ls.
Proof.
  intros Hnd. destruct (owners_lists (((λ p, [p]) <$> ps) ++ Ls) 0) as (ow & How & _).
  { replace (concat (((λ p, [p]) <$> ps) ++ Ls)) with (ps ++ concat Ls); [done|].
    rewrite concat_app. f_equal. induction ps as [|p ps IH]; [done|]. cbn. f_equal.
    apply IH. by apply NoDup_cons in Hnd as [_ ?]. }
  exists ow. clear Hnd. revert How. change (length ps) with (0 + length ps)%nat. generalize 0%nat.
  induction ps as [|p ps IH]; intros i; cbn; [by rewrite Nat.add_0_r|].
  intros [Hp How]. destruct (IH (S i) How) as [H1 H2]. split; [split; [apply Hp; set_solver|done]|].
  by rewrite Nat.add_succ_r.
Qed.

(** [tell Hnd ps Ls]: the nodes [ps] and the sets [Ls] are told apart. *)
Ltac tell Hnd ps Ls :=
  let ow := fresh "ow" in let Ho := fresh "Ho" in let Ho' := fresh "Ho" in
  destruct (owners ps Ls) as (ow & Ho & Ho');
  [ revert Hnd; apply NoDup_Permutation_proper; cbn; rewrite ?elements_nd_perm; cbn; solve_Permutation
  | cbn in Ho, Ho'; destruct_and? Ho; destruct_and? Ho' ].

Ltac nodes :=
  repeat match goal with
  | Ho : ∀ q, q ∈ ?L → _ = _, Hq : _ ∈ ?L |- _ => apply Ho in Hq
  end; first [done | congruence | lia].

Lemma root_after c T T' : (c = [] → root_of T' = root_of T) →
  root_of (plug c T') = root_of (plug c T).
Proof. destruct c as [|f c]; [cbn; auto|]. intros _. by apply plug_root_hole. Qed.

(** Distinctness of a node from another, from a parent or from a subtree's root. *)
Ltac ne :=
  lazymatch goal with
  | |- par_of _ _ ≠ Some _ => let Hq := fresh in intros Hq; apply par_in in Hq; nodes
  | |- root_of _ ≠ Some _ => let Hq := fresh in intros Hq; apply root_in in Hq; nodes
  | |- _ ≠ _ => let Hq := fresh in first [done | intros Hq; subst; nodes]
  end.

(** Reads through updates of other nodes. *)
Ltac lk :=
  repeat first
    [ rewrite lookup_alter_ne by ne
    | rewrite lookup_alter_if_ne by ne
    | rewrite lookup_alter_eq ].

Ltac is_some :=
  cbn [mem root]; try (intros ? ?);
  repeat first [apply is_Some_alter | apply is_Some_alter_if];
  first
    [ by eexists
    | match goal with
      | Ht : rep _ _ ?T, Hq : root_of ?T = Some _ |- _ => exact (rep_in _ _ _ _ Ht (root_in _ _ Hq))
      | Hc : repc _ None ?c _, Hq : par_of None ?c = Some _ |- _ => exact (repc_in _ _ _ _ _ Hc (par_in _ _ Hq))
      end ].

Lemma rotate_ok o c dir A r br B nr bn C (Q : unit → t → list False → Prop) :
  valid o (plug c (nd dir A r br (nd dir B nr bn C))) →
  (∀ o', valid o' (plug c (nd dir (nd dir A r br B) nr bn C)) → Q tt o' []) →
  wp (rotate r dir) o Q.
Proof.
  intros Hv HQ. pose proof Hv as (Hroot & Hrep & Hc & Hnd)%valid_plug.
  rewrite rep_nd, !root_of_nd in *. destruct Hrep as (Hr & HA & Hrep).
  rewrite rep_nd in Hrep. destruct Hrep as (Hnr & HB & HC).
  tell Hnd [r; nr] [elements A; elements B; elements C; cnodes c].
  unfold rotate. wp_step. eapply wp_get_node; [exact Hr|].
  wp_step. eapply wp_link; [apply link_mkn_other|]. wp_step. eapply wp_get_node; [exact Hnr|].
  rewrite link_mkn, parent_mkn.
  wp_step. apply wp_update_node; [is_some|]. cbn [app root mem].
  wp_step. apply wp_update_if; [is_some|]. cbn [app root mem].
  wp_step. apply wp_update_node; [is_some|]. cbn [app root mem].
  wp_step. apply wp_update_node; [is_some|]. cbn [app root mem].
  wp_step. apply wp_replace_child; [is_some|]. cbn [app root mem].
  apply wp_update_node; [is_some|]. cbn [app root mem].
  apply HQ. apply valid_plug. cbn [root mem]. rewrite !rep_nd, !root_of_nd.
  split_and!.
  - destruct c as [|[[[s p] b] sib] c]; [cbn; by rewrite root_of_nd|]. cbn [par_of]. rewrite Hroot. by apply plug_root_hole.
  - lk. rewrite Hnr. cbn. by rewrite set_link_mkn, set_parent_mkn.
  - lk. rewrite Hr. cbn. by rewrite set_link_mkn_other, set_parent_mkn.
  - eapply rep_frame; [exact HA|]. intros q Hq. by lk.
  - eapply rep_reparent; [exact HB|by rewrite !elements_nd_perm in Hnd; repeat rewrite ?NoDup_cons, ?NoDup_app in Hnd; naive_solver|]. intros q Hq. lk. rewrite lookup_alter_if. by lk.
  - eapply rep_frame; [exact HC|]. intros q Hq. by lk.
  - eapply repc_redirect; [exact Hc|by apply NoDup_app in Hnd as (_ & _ & ?)|intros Hq; nodes|]. intros q Hq. lk. rewrite lookup_alter_if. by lk.
  - destruct Hv as (_ & _ & Hnd'). rewrite plug_nodes in Hnd'. rewrite !elements_nd_perm in *.
    revert Hnd'. apply NoDup_Permutation_proper. solve_Permutation.
Qed.

Lemma update_balance o c s A p b B b' (Q : unit → t → list False → Prop) :
  valid o (plug c (nd s A p b B)) →
  (∀ o', valid o' (plug c (nd s A p b' B)) → Q tt o' []) →
  wp (update p (set_balance b')) o Q.
Proof.
  intros Hv HQ. pose proof Hv as (Hroot & Hrep & Hc & Hnd)%valid_plug.
  rewrite rep_nd, !root_of_nd in *. destruct Hrep as (Hp & HA & HB).
  tell Hnd [p] [elements A; elements B; cnodes c].
  apply wp_update_node; [by eexists|]. apply HQ. apply valid_plug. cbn [root mem]. rewrite rep_nd, root_of_nd.
  split_and!.
  - rewrite Hroot. apply root_after. intros ->. by rewrite !root_of_nd.
  - lk. rewrite Hp. cbn. by rewrite set_balance_mkn.
  - eapply rep_frame; [exact HA|]. intros q Hq. by lk.
  - eapply rep_frame; [exact HB|]. intros q Hq. by lk.
  - eapply repc_frame; [exact Hc|]. intros q Hq. by lk.
  - by rewrite elements_nd_perm in *.
Qed.

Lemma valid_get o c s A p b B :
  valid o (plug c (nd s A p b B)) → mem o !! p = Some (mkn s (par_of None c) (root_of A) (root_of B) b).
Proof. intros (_ & Hrep & _)%valid_plug. rewrite rep_nd in Hrep. naive_solver. Qed.

Definition sgn (s : bool) : Z := if s then 1 else -1.

Lemma bal_sgn s k h : bal s k h * sgn s = k - h.
Proof. destruct s; cbn; lia. Qed.

Lemma tree_inv s T : 0 < height T → ∃ A p b B, T = nd s A p b B.
Proof. destruct T as [|l p b r]; cbn; [lia|]. intros _. destruct s; [by exists r, p, b, l|by exists l, p, b, r]. Qed.

(** What the transformations achieve. *)
Definition restored (c : ctx) (T : tree) (top : Z) (n d : Z) (o' : t) : Prop :=
  ∃ T', valid o' (plug c T') ∧ avl T' ∧ root_of T' = Some n ∧ elements T' = elements T ∧
    height T' = top + 1 + d ∧ (d = 0 ∨ d = -1).

Lemma restore_ok o c bs X node b Y :
  valid o (plug c (nd bs X node b Y)) → avl X → avl Y → height X = height Y + 2 →
  wp (restore node bs) o (λ r o' _, restored c (nd bs X node b Y) (height X) r.1 r.2 o').
Proof.
  intros Hv HX HY Hh. pose proof (height_nonneg Y).
  destruct (tree_inv bs X) as (X1 & child & bc & X2 & ->); [lia|].
  rewrite height_nd in Hh. apply avl_nd in HX as (Hbc & Hbr & HX1 & HX2).
  pose proof (bal_sgn bs (height X1) (height X2)) as Hsg. rewrite <- Hbc in Hsg. fold (sgn bs) in *.
  pose proof (valid_get _ _ _ _ _ _ _ Hv) as Hg. rewrite root_of_nd in Hg.
  pose proof (valid_get _ ((bs, node, b, Y) :: c) _ _ _ _ _ Hv) as Hgc.
  unfold restore. fold (sgn bs). wp_step. eapply wp_get_node; [exact Hg|].
  wp_step. eapply wp_link; [apply link_mkn|]. wp_step. eapply wp_get_node; [exact Hgc|].
  rewrite balance_mkn, Hsg.
  assert (valid o (plug c (nd (negb bs) Y node b (nd (negb bs) X2 child bc X1)))) as Hv'.
  { by rewrite !nd_flip. }
  wp_step; bool_props; [|wp_step; bool_props; [|wp_step; bool_props; [|]]].
  - wp_step. eapply rotate_ok; [exact Hv'|]. intros o1 Hv1.
    wp_step. eapply (update_balance _ ((negb bs, child, bc, X1) :: c)); [exact Hv1|]. intros o2 Hv2.
    wp_step. eapply update_balance; [exact Hv2|]. intros o3 Hv3. wp_step. cbn [fst snd].
    exists (nd (negb bs) (nd (negb bs) Y node 0 X2) child 0 X1). split_and!; [done| | | | |by right].
    + rewrite !avl_nd, !height_nd. destruct bs; cbn; split_and!; try done; lia.
    + by rewrite root_of_nd.
    + rewrite !elements_nd. destruct bs; cbn; by rewrite <- ?app_assoc.
    + rewrite !height_nd. lia.
  - wp_step. eapply rotate_ok; [exact Hv'|]. intros o1 Hv1.
    wp_step. eapply (update_balance _ ((negb bs, child, bc, X1) :: c)); [exact Hv1|]. intros o2 Hv2.
    wp_step. eapply update_balance; [exact Hv2|]. intros o3 Hv3. wp_step. cbn [fst snd].
    exists (nd (negb bs) (nd (negb bs) Y node (1 * sgn bs) X2) child (-1 * sgn bs) X1).
    split_and!; [done| | | | |by left].
    + rewrite !avl_nd, !height_nd. destruct bs; cbn; split_and!; try done; lia.
    + by rewrite root_of_nd.
    + rewrite !elements_nd. destruct bs; cbn; by rewrite <- ?app_assoc.
    + rewrite !height_nd. lia.
  - pose proof (height_nonneg X1).
    destruct (tree_inv bs X2) as (G1 & gchild & bg & G2 & ->); [lia|].
    rewrite height_nd in *. apply avl_nd in HX2 as (Hbg & Hbgr & HG1 & HG2).
    rewrite root_of_nd. wp_step. eapply wp_link; [apply link_mkn_other|].
    wp_step. eapply (rotate_ok _ ((bs, node, b, Y) :: c)); [exact Hv|]. intros o1 Hv1.
    wp_step. eapply rotate_ok.
    { rewrite !nd_flip. exact Hv1. }
    intros o2 Hv2. pose proof (valid_get _ _ _ _ _ _ _ Hv2) as Hgg.
    wp_step. eapply wp_get_node; [exact Hgg|]. rewrite balance_mkn.
    replace (- bg * sgn bs) with (- (bg * sgn bs)) by lia. rewrite Hbg, bal_sgn.
    wp_step. eapply (update_balance _ ((negb bs, gchild, bg, nd bs X1 child bc G1) :: c)); [exact Hv2|].
    intros o3 Hv3. cbn [plug] in Hv3. rewrite (nd_flip bs _ gchild) in Hv3.
    wp_step. eapply (update_balance _ ((bs, gchild, bg, _) :: c)); [exact Hv3|].
    intros o4 Hv4. wp_step. eapply update_balance; [exact Hv4|]. intros o5 Hv5. wp_step. cbn [fst snd].
    eexists. split; [exact Hv5|].
    rewrite !avl_nd, !root_of_nd, !elements_nd, !height_nd. cbn [app].
    destruct bs; cbn [bal sgn negb] in *; unfold BAVL_MAX in *; split_and!; try done;
      repeat case_match; bool_props; try lia; try (by rewrite <- ?app_assoc; cbn; rewrite <- ?app_assoc); by right.
  - exfalso. destruct bs; cbn in *; lia.
Qed.

Lemma root_inv T n : root_of T = Some n → ∃ l b r, T = nd false l n b r.
Proof. destruct T as [|l p b r]; cbn; [done|]. intros [= ->]. by exists l, b, r. Qed.

Lemma is_right_frame o c s T n p b sib :
  valid o (plug ((s, p, b, sib) :: c) T) → root_of T = Some n →
  ∃ y, mem o !! p = Some y ∧ is_right n y = s ∧ y = mkn s (par_of None c) (Some n) (root_of sib) b.
Proof.
  intros Hv Hn. cbn [plug] in Hv. pose proof (valid_get _ _ _ _ _ _ _ Hv) as Hp. rewrite Hn in Hp.
  eexists. split; [exact Hp|]. split; [|done]. unfold is_right. destruct s; cbn; [by apply bool_decide_true|].
  apply bool_decide_false. intros Hs. destruct Hv as (_ & _ & Hnd). rewrite plug_nodes, elements_nd_perm in Hnd.
  tell Hnd [p] [elements T; elements sib; cnodes c]. apply root_in in Hs, Hn. nodes.
Qed.

(** The bottom of one round of [_BAVL_rebalance]. *)
Lemma rebalance_up fuel o c T n k delta (Q : unit → t → list False → Prop) :
  valid o (plug c T) → avl T → root_of T = Some n → avlc c k → height T = k + delta →
  (c = [] → Q tt o []) →
  (∀ s p b sib c', c = (s, p, b, sib) :: c' → wp (rebalance fuel p s delta) o Q) →
  wp (x ← get n;
      match parent x with
      | Some p => y ← get p; rebalance fuel p (is_right n y) delta
      | None => mret tt
      end) o Q.
Proof.
  intros Hv HT Hn Hc Hk Hnil Hcons. pose proof (root_inv T n Hn) as (l & b & r & ->).
  pose proof (valid_get _ _ _ _ _ _ _ Hv) as Hg.
  wp_step. eapply wp_get_node; [exact Hg|]. rewrite parent_mkn.
  destruct c as [|[[[s p] b'] sib] c]; cbn [par_of]; [wp_step; by apply Hnil|].
  destruct (is_right_frame _ _ _ _ _ _ _ _ Hv Hn) as (y & Hy & Hr & _).
  wp_step. eapply wp_get_node; [exact Hy|]. rewrite Hr. eapply wp_mono; [by eapply Hcons|]. done.
Qed.

Lemma rebalance_step o c s T p b sib (deltac : Z) :
  valid o (plug c (nd s T p b sib)) → avl T → avl sib →
  b = bal s (height T) (height sib) → -1 ≤ bal s (height T - deltac) (height sib) ≤ 1 →
  deltac = 1 ∨ deltac = -1 →
  wp (if b =? 2 then restore p true else if b =? -2 then restore p false else mret (p, 0)) o (λ r o' _,
    ∃ T', valid o' (plug c T') ∧ avl T' ∧ root_of T' = Some r.1 ∧ elements T' = elements (nd s T p b sib) ∧
      height T' = 1 + Z.max (height T) (height sib) + r.2 ∧
      -1 ≤ Z.max (height T) (height sib) - Z.max (height T - deltac) (height sib) + r.2 ≤ 1).
Proof.
  intros Hv HT Hs Hb Hold Hd. wp_step; bool_props; [|wp_step; bool_props].
  - destruct s; cbn in *.
    + eapply wp_mono; [apply (restore_ok o c true T p b sib); try done; lia|].
      cbn beta. intros [n d] o' _ (T' & Hv' & HT' & Hn & He & Hh & Hd'). cbn [fst snd] in *.
      exists T'. split_and!; try done; lia.
    + eapply wp_mono; [apply (restore_ok o c true sib p b T); try done; lia|].
      cbn beta. intros [n d] o' _ (T' & Hv' & HT' & Hn & He & Hh & Hd'). cbn [fst snd] in *.
      exists T'. split_and!; try done; lia.
  - destruct s; cbn in *.
    + eapply wp_mono; [apply (restore_ok o c false sib p b T); try done; lia|].
      cbn beta. intros [n d] o' _ (T' & Hv' & HT' & Hn & He & Hh & Hd'). cbn [fst snd] in *.
      exists T'. split_and!; try done; lia.
    + eapply wp_mono; [apply (restore_ok o c false T p b sib); try done; lia|].
      cbn beta. intros [n d] o' _ (T' & Hv' & HT' & Hn & He & Hh & Hd'). cbn [fst snd] in *.
      exists T'. split_and!; try done; lia.
  - wp_step. cbn [fst snd]. exists (nd s T p b sib). rewrite avl_nd, root_of_nd, height_nd.
    split_and!; try done; try lia; destruct s; cbn in *; lia.
Qed.

Lemma rebalance_ok fuel o c s T p b sib (deltac : Z) :
  valid o (plug c (nd s T p b sib)) → avl T → avl sib →
  b = bal s (height T - deltac) (height sib) → -1 ≤ b ≤ 1 → -1 ≤ deltac ≤ 1 →
  avlc c (1 + Z.max (height T - deltac) (height sib)) → (length c < fuel)%nat →
  wp (rebalance fuel p s deltac) o (λ _ o' _,
    ∃ T', valid o' T' ∧ avl T' ∧ elements T' = elements (plug c (nd s T p b sib))).
Proof.
  revert o c s T p b sib deltac. induction fuel as [|fuel IH]; intros o c s T p b sib deltac Hv HT Hs Hb Hbr Hd Hc Hf; [lia|].
  cbn [rebalance]. wp_step. eapply wp_get_node; [exact (valid_get _ _ _ _ _ _ _ Hv)|]. rewrite balance_mkn.
  wp_step. wp_step; [apply andb_true_iff; lia|]. wp_step. wp_step; [apply andb_true_iff; lia|].
  wp_step; bool_props.
  { subst deltac. wp_step. exists (plug c (nd s T p b sib)). rewrite Z.sub_0_r in *.
    split_and!; [done| |done]. apply avl_plug. rewrite avl_nd, height_nd. done. }
  set (hs := height sib) in *. set (k := height T - deltac) in *.
  assert (BAVL_OPTNEG b s = hs - k) as Hneg.
  { rewrite Hb. destruct s; cbn; lia. }
  rewrite Hneg.
  assert (BAVL_MAX deltac (hs - k) - BAVL_MAX 0 (hs - k) = Z.max (height T) hs - Z.max k hs) as ->.
  { unfold BAVL_MAX. destruct (Z.ltb_spec (hs - k) deltac), (Z.ltb_spec (hs - k) 0); lia. }
  assert (b - BAVL_OPTNEG deltac s = bal s (height T) hs) as ->.
  { rewrite Hb. destruct s; cbn; lia. }
  wp_step. wp_step; [apply andb_true_iff; lia|].
  wp_step. eapply update_balance; [exact Hv|]. intros o1 Hv1.
  wp_step. eapply wp_mono.
  { eapply (rebalance_step o1 c s T p _ sib deltac); try done; [change (-1 ≤ bal s k hs ≤ 1); by rewrite <- Hb|lia]. }
  cbn beta. intros [n d] o2 _ (T' & Hv2 & HT' & Hn & He & Hh & Hdd). cbn [fst snd] in *.
  wp_step. wp_step; [apply andb_true_iff; lia|].
  assert (elements (plug c T') = elements (plug c (nd s T p b sib))) as Hel.
  { rewrite !elements_plug, He, !elements_nd. done. }
  eapply (rebalance_up fuel o2 c T' n (1 + Z.max k hs)); try done; [lia| |].
  - intros ->. exists T'. split_and!; try done. 
  - intros s' p' b' sib' c' ->. cbn in Hc. destruct Hc as (Hb' & Hbr' & Hs' & Hc').
    eapply wp_mono.
    { apply (IH o2 c' s' T' p' b' sib'); try done; try lia.
      - rewrite Hb'. f_equal. lia.
      - replace (height T' - _) with (1 + Z.max k hs) by lia. done.
      - cbn in Hf. lia. }
    cbn beta. intros _ o3 _ (T'' & Hv3 & HT'' & He''). exists T''. split_and!; try done.
    rewrite He''. exact Hel.
Qed.

(** ** Order *)

Definition node_lt (n m : Z) : Prop := comparator (node_value n) (node_value m) = -1.
Definition sorted (T : tree) : Prop := StronglySorted node_lt (elements T).

(** The value [v] belongs into the hole. *)
Definition fits (v : V) (c : ctx) : Prop :=
  Forall (λ e, comparator v (node_value e) = 1) (lefts c) ∧
  Forall (λ e, comparator v (node_value e) = -1) (rights c).

Lemma height_elements T : height T ≤ zlen (elements T).
Proof. induction T as [|l IHl p b r IHr]; cbn; [done|]. rewrite length_app. cbn. lia. Qed.

Lemma elements_size o T : valid o T → (length (elements T) ≤ size (mem o))%nat.
Proof.
  intros (_ & Hr & Hnd). rewrite <- size_dom.
  rewrite <- (size_list_to_set (C := gset Z) _ Hnd). apply subseteq_size. intros p Hp.
  apply elem_of_dom, (rep_in _ _ _ _ Hr). by apply elem_of_list_to_set in Hp.
Qed.

Lemma cnodes_length c : (length c ≤ length (cnodes c))%nat.
Proof. induction c as [|[[[s p] b] sib] c IH]; cbn; [done|]. rewrite length_app. lia. Qed.

Lemma path_enough o c T : valid o (plug c T) →
  (length c < path_fuel o)%nat ∧ (Z.to_nat (height T) < path_fuel o)%nat.
Proof.
  intros Hv. pose proof (elements_size o _ Hv) as Hs. rewrite plug_nodes, length_app in Hs.
  pose proof (cnodes_length c). pose proof (height_elements T). unfold path_fuel. lia.
Qed.

Section search.
Context `{!ComparatorOk V}.

Lemma sorted_mid l1 l n r l2 :
  StronglySorted node_lt (l1 ++ (l ++ n :: r) ++ l2) →
  Forall (λ e, node_lt e n) l ∧ Forall (node_lt n) r.
Proof.
  intros Hs. apply StronglySorted_app in Hs as (_ & _ & Hs). apply StronglySorted_app in Hs as (_ & Hs & _).
  apply StronglySorted_app in Hs as (Hlr & _ & Hs). apply StronglySorted_inv in Hs as [_ Hs].
  split; [|done]. apply Forall_forall. intros e He. apply Hlr; set_solver.
Qed.

Lemma gt_lt v w : comparator v w = 1 ↔ comparator w v = -1.
Proof. rewrite (cmp_flip v w). lia. Qed.

Lemma fits_right v c l n b r :
  comparator v (node_value n) = 1 → sorted (plug c (Node l n b r)) → fits v c → fits v ((true, n, b, l) :: c).
Proof.
  intros Hv Hs [Hl Hr]. unfold sorted in Hs. rewrite elements_plug in Hs. apply sorted_mid in Hs as [Hln _].
  split; cbn; [|done]. rewrite !Forall_app, Forall_singleton. split_and!; [done| |done].
  eapply Forall_impl; [exact Hln|]. intros e He. apply gt_lt. apply gt_lt in Hv. exact (cmp_lt_trans _ _ _ He Hv).
Qed.

Lemma fits_left v c l n b r :
  comparator v (node_value n) = -1 → sorted (plug c (Node l n b r)) → fits v c → fits v ((false, n, b, r) :: c).
Proof.
  intros Hv Hs [Hl Hr]. unfold sorted in Hs. rewrite elements_plug in Hs. apply sorted_mid in Hs as [_ Hrn].
  split; cbn; [done|]. rewrite Forall_cons, Forall_app. split_and!; [done| |done].
  eapply Forall_impl; [exact Hrn|]. intros e He. exact (cmp_lt_trans _ _ _ Hv He).
Qed.

Lemma fits_step v c T n s :
  root_of T = Some n → sorted (plug c T) → fits v c → comparator v (node_value n) = (if s : bool then 1 else -1) →
  ∃ b sib A, T = nd s A n b sib ∧ fits v ((s, n, b, sib) :: c).
Proof.
  intros Hn Hs Hf Hc. destruct T as [|l p b r]; [done|]. injection Hn as ->. destruct s.
  - exists b, l, r. split; [done|]. by eapply fits_right.
  - exists b, r, l. split; [done|]. by eapply fits_left.
Qed.

Lemma wp_compare v w o (Q : Z → t → list False → Prop) : Q (comparator v w) o [] → wp (compare_values v w) o Q.
Proof.
  intros HQ. unfold compare_values. wp_step. wp_step; [|by wp_step].
  destruct (cmp_range v w) as [-> | [-> | ->]]; done.
Qed.

(** Where a search for [v] ends: an equal node, or the place for [v]. *)
Definition found (o : t) (v : V) (T : tree) (n : Z) (side : option bool) : Prop :=
  match side with
  | None => n ∈ elements T ∧ comparator v (node_value n) = 0
  | Some s => ∃ c b sib, T = plug ((s, n, b, sib) :: c) Leaf ∧ fits v ((s, n, b, sib) :: c)
  end.

Lemma insert_search_ok fuel o c T node n :
  valid o (plug c T) → sorted (plug c T) → fits (node_value node) c → root_of T = Some n →
  height T ≤ Z.of_nat fuel →
  wp (insert_search fuel node n) o (λ r o' _, o' = o ∧ found o (node_value node) (plug c T) r.1 r.2).
Proof.
  revert c T n. induction fuel as [|fuel IH]; intros c T n Hv Hs Hf Hn Hh.
  { destruct T; [done|]. cbn in Hh. pose proof (height_nonneg T1). lia. }
  cbn [insert_search]. unfold compare_nodes. wp_step. apply wp_compare.
  destruct (cmp_range (node_value node) (node_value n)) as [Hc | [Hc | Hc]]; rewrite Hc; cbn [Z.eqb Pos.eqb].
  2: { wp_step. split; [done|]. split; [|done]. rewrite elements_plug. apply root_in in Hn. set_solver. }
  - destruct (fits_step _ c T n false Hn Hs Hf Hc) as (b & sib & A & -> & Hf').
    wp_step. eapply wp_get_node; [exact (valid_get _ _ _ _ _ _ _ Hv)|]. rewrite link_mkn.
    destruct A as [|l m b' r] eqn:HA; cbn [root_of].
    + wp_step. split; [done|]. by exists c, b, sib.
    + rewrite <- HA in *. eapply wp_mono; [apply (IH ((false, n, b, sib) :: c) A m); try done; [by rewrite HA|]|done].
      rewrite height_nd in Hh. lia.
  - destruct (fits_step _ c T n true Hn Hs Hf Hc) as (b & sib & A & -> & Hf').
    wp_step. eapply wp_get_node; [exact (valid_get _ _ _ _ _ _ _ Hv)|]. rewrite link_mkn.
    destruct A as [|l m b' r] eqn:HA; cbn [root_of].
    + wp_step. split; [done|]. by exists c, b, sib.
    + rewrite <- HA in *. eapply wp_mono; [apply (IH ((true, n, b, sib) :: c) A m); try done; [by rewrite HA|]|done].
      rewrite height_nd in Hh. lia.
Qed.

(** ** Insertion *)

Lemma insert_leaf_ok o c s p b sib node :
  valid o (plug ((s, p, b, sib) :: c) Leaf) → node ∉ elements (plug ((s, p, b, sib) :: c) Leaf) →
  valid (mk (root o) (<[node := mk_node (Some p) None None 0]> (alter (set_link s (Some node)) p (mem o))))
    (plug c (nd s (Node Leaf node 0 Leaf) p b sib)).
Proof.
  intros Hv Hn. cbn [plug] in *. pose proof Hv as (Hroot & Hrep & Hc & Hnd)%valid_plug.
  rewrite plug_nodes in Hn. rewrite rep_nd, root_of_nd in *. destruct Hrep as (Hp & _ & Hs).
  assert (NoDup (node :: elements (nd s Leaf p b sib) ++ cnodes c)) as Hnd' by (by constructor).
  tell Hnd' [node; p] [elements sib; cnodes c].
  apply valid_plug. cbn [root mem]. rewrite rep_nd, root_of_nd. split_and!.
  - rewrite Hroot. apply root_after. intros ->. by rewrite !root_of_nd.
  - rewrite lookup_insert_ne by ne. lk. rewrite Hp. cbn. by rewrite set_link_mkn.
  - cbn. by rewrite lookup_insert_eq.
  - eapply rep_frame; [exact Hs|]. intros q Hq. rewrite lookup_insert_ne by ne. by lk.
  - eapply repc_frame; [exact Hc|]. intros q Hq. rewrite lookup_insert_ne by ne. by lk.
  - revert Hnd'. apply NoDup_Permutation_proper. rewrite !elements_nd_perm. cbn. solve_Permutation.
Qed.

Lemma fits_sorted node c T :
  T = plug c Leaf → sorted T → fits (node_value node) c →
  elements T = lefts c ++ rights c ∧ StronglySorted node_lt (lefts c ++ node :: rights c).
Proof.
  intros -> Hs [Hl Hr]. unfold sorted in Hs. rewrite elements_plug in *. cbn [elements app] in *.
  split; [done|]. apply StronglySorted_app in Hs as (Hlr & Hsl & Hsr). rewrite Forall_forall in *.
  apply StronglySorted_app. split_and!; [|done|].
  - intros x y Hx [->|Hy]%elem_of_cons; [|by apply Hlr]. apply gt_lt. by apply Hl.
  - constructor; [done|]. apply Forall_forall. intros y Hy. by apply Hr.
Qed.

Definition neighbour (c : ctx) (n : Z) : Prop := last (lefts c) = Some n ∨ head (rights c) = Some n.

Lemma frame_neighbour s n b sib c : neighbour ((s, n, b, sib) :: c) n.
Proof. unfold neighbour. destruct s; cbn; [left|right; done]. by rewrite app_assoc, last_snoc. Qed.

Definition inserted (o : t) (T : tree) (node : Z) (r : bool * option Z) (o' : t) : Prop :=
  (∃ e, e ∈ elements T ∧ comparator (node_value node) (node_value e) = 0 ∧ r = (false, Some e) ∧ o' = o) ∨
  (∃ T' l1 l2, r.1 = true ∧ valid o' T' ∧ avl T' ∧ sorted T' ∧ elements T = l1 ++ l2 ∧ elements T' = l1 ++ node :: l2 ∧
     (elements T = [] ∧ r.2 = None ∨ ∃ n, r.2 = Some n ∧ (last l1 = Some n ∨ head l2 = Some n))).

Lemma Insert_ok o T node :
  valid o T → avl T → sorted T → node ∉ elements T → wp (Insert node) o (λ r o' _, inserted o T node r o').
Proof.
  intros Hv Ha Hs Hn. pose proof Hv as (Hroot & _). unfold Insert. wp_step. wp_step. rewrite Hroot.
  destruct T as [|l p b r] eqn:HT; cbn [root_of].
  { wp_step. wp_step. wp_step. right. exists (Node Leaf node 0 Leaf), [], []. cbn.
    split_and!; try done; [|repeat constructor|by left].
    split; [done|]. cbn. rewrite lookup_insert_eq. split; [done|]. apply NoDup_singleton. }
  rewrite <- HT in *. wp_step. eapply wp_mono.
  { apply (insert_search_ok (path_fuel o) o [] T node p); try done; [by subst T|].
    destruct (path_enough o [] T Hv) as [_ ?]. pose proof (height_nonneg T). lia. }
  cbn beta. intros [n [s|]] ? _ [-> Hf]; cbn [fst snd] in *.
  2: { wp_step. left. destruct Hf as [Hin Hc]. by exists n. }
  destruct Hf as (c & b' & sib & Hplug & Hf). cbn [plug] in Hplug.
  destruct (fits_sorted node ((s, n, b', sib) :: c) T Hplug Hs Hf) as [He Hs'].
  rewrite Hplug in Hv, Ha, Hn. rename n into q.
  pose proof (valid_get _ _ _ _ _ _ _ Hv) as Hg.
  wp_step. apply wp_update_node; [by eexists|]. wp_step. wp_step. cbn [app root mem].
  pose proof (insert_leaf_ok o c s q b' sib node Hv Hn) as Hv1.
  set (o1 := mk _ _) in *. wp_step. wp_step.
  apply avl_plug in Ha as [Ha Hc]. rewrite avl_nd, height_nd in *. destruct Ha as (Hb & Hbr & _ & Hsib).
  wp_step. eapply wp_mono.
  { eapply (rebalance_ok _ o1 c s _ q b' sib 1); try done; try lia.
    by destruct (path_enough o1 c _ Hv1). }
  cbn beta. intros _ o2 _ (T' & Hv2 & HT' & He'). wp_step. right.
  exists T', (lefts ((s, q, b', sib) :: c)), (rights ((s, q, b', sib) :: c)).
  assert (elements T' = lefts ((s, q, b', sib) :: c) ++ node :: rights ((s, q, b', sib) :: c)) as Hel.
  { rewrite He'. change (nd s (Node Leaf node 0 Leaf) q b' sib) with (plug [(s, q, b', sib)] (Node Leaf node 0 Leaf)).
    rewrite <- plug_app, elements_plug. done. }
  split_and!; try done.
  - unfold sorted. by rewrite Hel.
  - right. exists q. split; [done|]. apply frame_neighbour.
Qed.

(** ** Lookup *)

Lemma lookup_loop_ok fuel o c T v n :
  valid o (plug c T) → sorted (plug c T) → fits v c → root_of T = Some n → height T ≤ Z.of_nat fuel →
  wp (lookup_loop fuel v n) o (λ r o' _, o' = o ∧
    ∃ side, found o v (plug c T) r.1 side ∧ r.2 = bool_decide (side = None)).
Proof.
  revert c T n. induction fuel as [|fuel IH]; intros c T n Hv Hs Hf Hn Hh.
  { destruct T; [done|]. cbn in Hh. pose proof (height_nonneg T1). lia. }
  cbn [lookup_loop]. wp_step. apply wp_compare.
  destruct (cmp_range v (node_value n)) as [Hc | [Hc | Hc]]; rewrite Hc; cbn [Z.eqb Pos.eqb].
  2: { wp_step. split; [done|]. exists None. split; [|done]. split; [|done]. rewrite elements_plug.
       apply root_in in Hn. set_solver. }
  - destruct (fits_step _ c T n false Hn Hs Hf Hc) as (b & sib & A & -> & Hf').
    wp_step. eapply wp_get_node; [exact (valid_get _ _ _ _ _ _ _ Hv)|]. rewrite link_mkn.
    destruct A as [|l m b' r] eqn:HA; cbn [root_of].
    + wp_step. split; [done|]. exists (Some false). split; [|done]. by exists c, b, sib.
    + rewrite <- HA in *. eapply wp_mono; [apply (IH ((false, n, b, sib) :: c) A m); try done; [by rewrite HA|]|done].
      rewrite height_nd in Hh. lia.
  - destruct (fits_step _ c T n true Hn Hs Hf Hc) as (b & sib & A & -> & Hf').
    wp_step. eapply wp_get_node; [exact (valid_get _ _ _ _ _ _ _ Hv)|]. rewrite link_mkn.
    destruct A as [|l m b' r] eqn:HA; cbn [root_of].
    + wp_step. split; [done|]. exists (Some true). split; [|done]. by exists c, b, sib.
    + rewrite <- HA in *. eapply wp_mono; [apply (IH ((true, n, b, sib) :: c) A m); try done; [by rewrite HA|]|done].
      rewrite height_nd in Hh. lia.
Qed.

Lemma LookupExact_ok o T v :
  valid o T → sorted T →
  wp (LookupExact v) o (λ r o' _, o' = o ∧
    match r with
    | Some n => n ∈ elements T ∧ comparator v (node_value n) = 0
    | None => ∀ e, e ∈ elements T → comparator v (node_value e) ≠ 0
    end).
Proof.
  intros Hv Hs. pose proof Hv as (Hroot & _). unfold LookupExact. wp_step. wp_step. rewrite Hroot.
  destruct T as [|l p b r] eqn:HT; cbn [root_of]; [wp_step; split; [done|]; set_solver|].
  rewrite <- HT in *. wp_step. eapply wp_mono.
  { apply (lookup_loop_ok (path_fuel o) o [] T v p); try done; [by subst T|].
    destruct (path_enough o [] T Hv) as [_ ?]. pose proof (height_nonneg T). lia. }
  cbn beta. intros [n b'] ? _ (-> & side & Hf & Hb); cbn [fst snd] in *. wp_step. split; [done|].
  destruct side as [s|]; cbn in Hb; subst b'; [|done].
  destruct Hf as (c & bx & sib & Hplug & [Hl Hr]). intros e He. cbn [plug] in Hplug.
  rewrite Hplug in He. change (nd s Leaf n bx sib) with (plug [(s, n, bx, sib)] Leaf) in He.
  rewrite <- plug_app, elements_plug in He. cbn [elements app] in He. rewrite Forall_forall in *.
  apply elem_of_app in He as [He|He]; [specialize (Hl e He)|specialize (Hr e He)]; lia.
Qed.

Lemma Lookup_ok o T v :
  valid o T → sorted T →
  wp (Lookup v) o (λ r o' _, o' = o ∧
    match r with
    | None => elements T = []
    | Some n => n ∈ elements T ∧ (comparator v (node_value n) = 0 ∨
        ∃ l1 l2, elements T = l1 ++ l2 ∧ (last l1 = Some n ∨ head l2 = Some n) ∧
          Forall (λ e, comparator v (node_value e) = 1) l1 ∧ Forall (λ e, comparator v (node_value e) = -1) l2)
    end).
Proof.
  intros Hv Hs. pose proof Hv as (Hroot & _). unfold Lookup. wp_step. wp_step. rewrite Hroot.
  destruct T as [|l p b r] eqn:HT; cbn [root_of]; [by wp_step|].
  rewrite <- HT in *. wp_step. eapply wp_mono.
  { apply (lookup_loop_ok (path_fuel o) o [] T v p); try done; [by subst T|].
    destruct (path_enough o [] T Hv) as [_ ?]. pose proof (height_nonneg T). lia. }
  cbn beta. intros [n b'] ? _ (-> & side & Hf & Hb); cbn [fst snd] in *. wp_step. split; [done|].
  destruct side as [s|]; [|destruct Hf; by split; [|left]].
  destruct Hf as (c & bx & sib & Hplug & Hfit). cbn [plug] in Hplug.
  assert (elements T = lefts ((s, n, bx, sib) :: c) ++ rights ((s, n, bx, sib) :: c)) as He.
  { rewrite Hplug. change (nd s Leaf n bx sib) with (plug [(s, n, bx, sib)] Leaf).
    rewrite <- plug_app, elements_plug. done. }
  split.
  - rewrite Hplug, elements_plug, elements_nd. destruct s; set_solver.
  - right. destruct Hfit. eexists _, _. split_and!; try done. apply frame_neighbour.
Qed.

(** ** Exchanging two nodes *)

(** What the pointers of a tree say of each other. *)
Record linked (h : gmap Z BAVLNode) (rt : option Z) (ns : list Z) : Prop := {
  child_parent p x s q : p ∈ ns → h !! p = Some x → link s x = Some q →
    q ∈ ns ∧ q ≠ p ∧ link (negb s) x ≠ Some q ∧ ∃ y, h !! q = Some y ∧ parent y = Some p;
  parent_child p x q : p ∈ ns → h !! p = Some x → parent x = Some q →
    q ∈ ns ∧ q ≠ p ∧ ∃ y s, h !! q = Some y ∧ link s y = Some p;
  parent_root p x : p ∈ ns → h !! p = Some x → parent x = None ↔ rt = Some p;
  node_known p : p ∈ ns → is_Some (h !! p)
}.

Lemma rep_zip h par T p : rep h par T → p ∈ elements T → ∃ c s A b B, T = plug c (nd s A p b B).
Proof.
  revert par. induction T as [|l IHl q b r IHr]; intros par; cbn; [set_solver|].
  intros (_ & Hl & Hr) [Hp|[->|Hp]%elem_of_cons]%elem_of_app.
  - destruct (IHl _ Hl Hp) as (c & s & A & b' & B & ->). exists (c ++ [(false, q, b, r)]), s, A, b', B.
    by rewrite plug_app.
  - by exists [], false, l, b, r.
  - destruct (IHr _ Hr Hp) as (c & s & A & b' & B & ->). exists (c ++ [(true, q, b, l)]), s, A, b', B.
    by rewrite plug_app.
Qed.

Lemma valid_zip o T p : valid o T → p ∈ elements T → ∃ c s A b B, T = plug c (nd s A p b B).
Proof. intros (_ & Hr & _). by eapply rep_zip. Qed.

Lemma nd_side s s' A p b B : nd s A p b B = if eqb s s' then nd s' A p b B else nd s' B p b A.
Proof. by destruct s, s'. Qed.

Lemma zip_side o T p s : valid o T → p ∈ elements T → ∃ c A b B, T = plug c (nd s A p b B).
Proof.
  intros Hv Hp. destruct (valid_zip o T p Hv Hp) as (c & s' & A & b & B & ->).
  rewrite (nd_side s' s). destruct (eqb s' s); eauto.
Qed.

Lemma valid_linked o T : valid o T → linked (mem o) (root o) (elements T).
Proof.
  intros Hv. split.
  - intros p x s q Hp Hx Hq. destruct (zip_side o T p s Hv Hp) as (c & A & b & B & ->).
    rewrite (valid_get _ _ _ _ _ _ _ Hv) in Hx. injection Hx as <-. rewrite link_mkn in Hq.
    rewrite link_mkn_other. pose proof Hv as (_ & _ & Hnd). rewrite plug_nodes, elements_nd_perm in Hnd.
    tell Hnd [p] [elements A; elements B; cnodes c].
    pose proof (root_inv A q Hq) as (l & bA & r & HA).
    split_and!.
    + rewrite plug_nodes, elements_nd_perm. apply root_in in Hq. set_solver.
    + apply root_in in Hq. ne.
    + intros Hq'. apply root_in in Hq, Hq'. nodes.
    + rewrite HA in Hv. change (plug c (nd s (nd false l q bA r) p b B))
        with (plug ((s, p, b, B) :: c) (nd false l q bA r)) in Hv.
      eexists. split; [exact (valid_get _ _ _ _ _ _ _ Hv)|]. by rewrite parent_mkn.
  - intros p x q Hp Hx Hq. destruct (zip_side o T p false Hv Hp) as (c & A & b & B & ->).
    rewrite (valid_get _ _ _ _ _ _ _ Hv) in Hx. injection Hx as <-. cbn in Hq.
    destruct c as [|[[[s q'] bq] sib] c]; [done|]. injection Hq as ->. cbn [plug] in *.
    pose proof Hv as (_ & _ & Hnd). rewrite plug_nodes, !elements_nd_perm in Hnd.
    tell Hnd [q; p] [elements A; elements B; elements sib; cnodes c]. split_and!.
    + rewrite plug_nodes, elements_nd_perm. set_solver.
    + ne.
    + eexists _, s. split; [exact (valid_get _ _ _ _ _ _ _ Hv)|]. by rewrite link_mkn, root_of_nd.
  - intros p x Hp Hx. destruct (zip_side o T p false Hv Hp) as (c & A & b & B & ->).
    rewrite (valid_get _ _ _ _ _ _ _ Hv) in Hx. injection Hx as <-. cbn [parent mkn].
    pose proof Hv as (Hroot & _ & Hnd). rewrite Hroot.
    destruct c as [|[[[s q'] bq] sib] c]; cbn [par_of plug]; [by rewrite root_of_nd|].
    split; [done|]. intros Hr. exfalso. rewrite plug_nodes, elements_nd_perm in Hnd.
    change (plug c (nd s (nd false A p b B) q' bq sib)) with (plug ((s, q', bq, sib) :: c) (nd false A p b B)) in Hr.
    tell Hnd [p; q'] [elements A; elements B; elements sib; cnodes c].
    rewrite (plug_root_hole _ _ Leaf) in Hr by done. apply root_in in Hr. rewrite plug_nodes in Hr.
    cbn in Hr. apply elem_of_cons in Hr as [->|[Hr|Hr]%elem_of_app]; nodes.
  - intros p Hp. destruct Hv as (_ & Hr & _). by eapply rep_in.
Qed.

Definition swap (n m q : Z) : Z := if q =? n then m else if q =? m then n else q.

Definition map_node (f : Z → Z) (x : BAVLNode) : BAVLNode :=
  mk_node (f <$> parent x) (f <$> link0 x) (f <$> link1 x) (balance x).

Fixpoint map_tree (f : Z → Z) (T : tree) : tree :=
  match T with Leaf => Leaf | Node l p b r => Node (map_tree f l) (f p) b (map_tree f r) end.

Lemma root_of_map f T : root_of (map_tree f T) = f <$> root_of T.
Proof. by destruct T. Qed.

Lemma rep_map f h h' par T :
  rep h par T → (∀ q, q ∈ elements T → h' !! f q = map_node f <$> h !! q) → rep h' (f <$> par) (map_tree f T).
Proof.
  revert par. induction T as [|l IHl p b r IHr]; intros par; cbn; [done|].
  intros (Hp & Hl & Hr) Hf. rewrite Hf, Hp by set_solver. cbn. rewrite !root_of_map. split_and!; [done| |].
  - apply (IHl (Some p)); [done|]. set_solver.
  - apply (IHr (Some p)); [done|]. set_solver.
Qed.

Lemma elements_map f T : elements (map_tree f T) = f <$> elements T.
Proof. induction T as [|l IHl p b r IHr]; cbn; [done|]. by rewrite fmap_app, IHl, IHr. Qed.

Lemma height_map f T : height (map_tree f T) = height T.
Proof. induction T as [|l IHl p b r IHr]; cbn; [done|]. by rewrite IHl, IHr. Qed.

Lemma avl_map f T : avl (map_tree f T) ↔ avl T.
Proof. induction T as [|l IHl p b r IHr]; cbn; [done|]. by rewrite !height_map, IHl, IHr. Qed.

Lemma swap_involutive n m q : swap n m (swap n m q) = q.
Proof. unfold swap. repeat case_match; bool_props; lia. Qed.

#[local] Instance swap_inj n m : Inj (=) (=) (swap n m).
Proof. intros a b Hab. by rewrite <- (swap_involutive n m a), Hab, swap_involutive. Qed.

Lemma linked_child h rt ns p x q z :
  linked h rt ns → p ∈ ns → q ∈ ns → h !! p = Some x → h !! q = Some z →
  parent z = Some p ↔ link0 x = Some q ∨ link1 x = Some q.
Proof.
  intros HL Hp Hq Hx Hz. split.
  - intros Hpar. destruct (parent_child _ _ _ HL q z p Hq Hz Hpar) as (_ & _ & x' & s & Hx' & Hs).
    rewrite Hx in Hx'. injection Hx' as <-. destruct s; auto.
  - intros Hs. assert (∃ s, link s x = Some q) as [s Hs'] by (destruct Hs; [by exists false|by exists true]).
    destruct (child_parent _ _ _ HL p x s q Hp Hx Hs') as (_ & _ & _ & z' & Hz' & Hpar). congruence.
Qed.

Lemma linked_one h rt ns p x q : linked h rt ns → p ∈ ns → h !! p = Some x → ¬ (link0 x = Some q ∧ link1 x = Some q).
Proof. intros HL Hp Hx [H0' H1']. by destruct (child_parent _ _ _ HL p x false q Hp Hx H0') as (_ & _ & ? & _). Qed.

Lemma linked_self h rt ns p x : linked h rt ns → p ∈ ns → h !! p = Some x →
  parent x ≠ Some p ∧ link0 x ≠ Some p ∧ link1 x ≠ Some p.
Proof.
  intros HL Hp Hx. split_and!; intros Hs.
  - by destruct (parent_child _ _ _ HL p x p Hp Hx Hs) as (_ & ? & _).
  - by destruct (child_parent _ _ _ HL p x false p Hp Hx Hs) as (_ & ? & _).
  - by destruct (child_parent _ _ _ HL p x true p Hp Hx Hs) as (_ & ? & _).
Qed.

(** Updates of a record under a condition. *)
Abbreviation upd_if P f := (if bool_decide P then f else id).

Lemma lookup_alter_b f p q (h : gmap Z BAVLNode) : alter f p h !! q = upd_if (p = q) f <$> h !! q.
Proof.
  case_bool_decide; [subst; apply lookup_alter_eq|]. rewrite lookup_alter_ne by done. by destruct (h !! q).
Qed.

Lemma swap_l n m : swap n m n = m.
Proof. unfold swap. by rewrite Z.eqb_refl. Qed.
Lemma swap_r n m : swap n m m = n.
Proof. unfold swap. destruct (Z.eqb_spec m n); [done|]. by rewrite Z.eqb_refl. Qed.
Lemma swap_ne n m q : q ≠ n → q ≠ m → swap n m q = q.
Proof. intros ? ?. unfold swap. by rewrite !(proj2 (Z.eqb_neq _ _)). Qed.

Lemma swap_option n m (p : option Z) :
  swap n m <$> p = if bool_decide (p = Some n) then Some m else if bool_decide (p = Some m) then Some n else p.
Proof.
  destruct p as [p|]; [|done]. cbn. unfold swap.
  destruct (Z.eqb_spec p n) as [->|?]; [by rewrite bool_decide_true|]. rewrite bool_decide_false by congruence.
  destruct (Z.eqb_spec p m) as [->|?]; [by rewrite bool_decide_true|]. by rewrite bool_decide_false by congruence.
Qed.

(** What a node other than the two becomes, when neither is the other's parent. *)
Lemma swap_record n m x y z q :
  n ≠ m →
  (parent z = Some n ↔ link0 x = Some q ∨ link1 x = Some q) →
  (parent z = Some m ↔ link0 y = Some q ∨ link1 y = Some q) →
  (parent x = Some q ↔ link0 z = Some n ∨ link1 z = Some n) →
  (parent y = Some q ↔ link0 z = Some m ∨ link1 z = Some m) →
  ¬ (link0 z = Some n ∧ link1 z = Some n) → ¬ (link0 z = Some m ∧ link1 z = Some m) → parent x ≠ parent y →
  upd_if (link1 x = Some q) (set_parent (Some m)) (upd_if (link1 y = Some q) (set_parent (Some n))
    (upd_if (link0 x = Some q) (set_parent (Some m)) (upd_if (link0 y = Some q) (set_parent (Some n))
       (upd_if (parent x = Some q) (redirect n (Some m)) (upd_if (parent y = Some q) (redirect m (Some n)) z)))))
  = map_node (swap n m) z.
Proof.
  intros Hnm Hzn Hzm Hx Hy Hn1 Hm1 Hxy. unfold map_node. rewrite !swap_option.
  set (z1 := upd_if (parent x = Some q) (redirect n (Some m)) (upd_if (parent y = Some q) (redirect m (Some n)) z)).
  assert (z1 = mk_node (parent z)
    (if bool_decide (link0 z = Some n) then Some m else if bool_decide (link0 z = Some m) then Some n else link0 z)
    (if bool_decide (link1 z = Some n) then Some m else if bool_decide (link1 z = Some m) then Some n else link1 z)
    (balance z)) as ->.
  { subst z1. destruct z as [zp z0 z1 zb]. cbn in *.
    destruct (decide (parent x = Some q)) as [Hxq|Hxq], (decide (parent y = Some q)) as [Hyq|Hyq].
    - congruence.
    - rewrite (bool_decide_true (parent x = Some q)), (bool_decide_false (parent y = Some q)) by done.
      unfold redirect, is_right; cbn. apply Hx in Hxq as [-> | ->].
      + rewrite (bool_decide_true (Some n = Some n)) by done.
        rewrite bool_decide_false by naive_solver. cbn. f_equal. by rewrite !bool_decide_false by naive_solver.
      + rewrite !bool_decide_true by done. cbn. f_equal. by rewrite !bool_decide_false by naive_solver.
    - rewrite (bool_decide_false (parent x = Some q)), (bool_decide_true (parent y = Some q)) by done.
      unfold redirect, is_right; cbn. apply Hy in Hyq as [-> | ->].
      + rewrite (bool_decide_false (Some m = Some n)), (bool_decide_true (Some m = Some m)) by congruence.
        rewrite bool_decide_false by naive_solver. cbn. f_equal. by rewrite !bool_decide_false by naive_solver.
      + rewrite (bool_decide_false (Some m = Some n)), !(bool_decide_true (Some m = Some m)) by congruence.
        cbn. f_equal. by rewrite !bool_decide_false by naive_solver.
    - by rewrite !bool_decide_false by naive_solver. }
  destruct z as [zp z0 z1' zb]. cbn in *.
  destruct (decide (zp = Some n)) as [Hp|Hp]; [|destruct (decide (zp = Some m)) as [Hp'|Hp']].
  - rewrite (bool_decide_true (zp = Some n)) by done. rewrite Hp in Hzm.
    assert (link0 y ≠ Some q ∧ link1 y ≠ Some q) as [? ?] by (split; intros ?; assert (Some n = Some m) by (apply Hzm; auto); congruence).
    rewrite (bool_decide_false (link1 y = Some q)), (bool_decide_false (link0 y = Some q)) by done.
    apply Hzn in Hp as [-> | ->]; rewrite (bool_decide_true (Some q = Some q)) by done; case_bool_decide; done.
  - rewrite (bool_decide_false (zp = Some n)), (bool_decide_true (zp = Some m)) by done.
    rewrite (bool_decide_false (link1 x = Some q)), (bool_decide_false (link0 x = Some q)) by naive_solver.
    apply Hzm in Hp' as [-> | ->]; rewrite (bool_decide_true (Some q = Some q)) by done; case_bool_decide; done.
  - assert (link0 x ≠ Some q ∧ link1 x ≠ Some q) as [? ?] by (split; intros ?; apply Hp, Hzn; auto).
    assert (link0 y ≠ Some q ∧ link1 y ≠ Some q) as [? ?] by (split; intros ?; apply Hp', Hzm; auto).
    rewrite (bool_decide_false (zp = Some n)), (bool_decide_false (zp = Some m)) by done.
    rewrite (bool_decide_false (link0 x = Some q)), (bool_decide_false (link1 x = Some q)) by done.
    by rewrite (bool_decide_false (link0 y = Some q)), (bool_decide_false (link1 y = Some q)) by done.
Qed.

Ltac lkd := repeat first
  [ rewrite lookup_alter_ne by congruence
  | rewrite lookup_alter_if_ne by congruence
  | rewrite lookup_alter_eq ].

Lemma swap_children_ok s n m x y o (Q : unit → t → list False → Prop) :
  mem o !! n = Some x → mem o !! m = Some y →
  (∀ q, link s x = Some q → is_Some (mem o !! q)) → (∀ q, link s y = Some q → is_Some (mem o !! q)) →
  Q tt (mk (root o) (alter_if (set_parent (Some m)) (link s x) (alter (set_link s (link s x)) m
    (alter_if (set_parent (Some n)) (link s y) (alter (set_link s (link s y)) n (mem o)))))) [] →
  wp (swap_children s n m) o Q.
Proof.
  intros Hx Hy Hcx Hcy HQ. unfold swap_children.
  wp_step. eapply wp_get_node; [exact Hx|]. wp_step. eapply wp_get_node; [exact Hy|].
  wp_step. apply wp_update_node; [by eexists|].
  wp_step. apply wp_update_if; [intros q Hq; apply is_Some_alter, Hcy, Hq|].
  wp_step. apply wp_update_node; [apply is_Some_alter_if, is_Some_alter; by eexists|].
  apply wp_update_if; [intros q Hq; apply is_Some_alter, is_Some_alter_if, is_Some_alter, Hcx, Hq|]. exact HQ.
Qed.

(** The links exchanged, the balance factors not yet. *)
Definition relinked (o o' : t) (ns : list Z) (n m : Z) : Prop :=
  root o' = swap n m <$> root o ∧
  ∀ q z z', q ∈ ns → mem o !! q = Some z → mem o !! swap n m q = Some z' →
    mem o' !! swap n m q = Some (set_balance (balance z') (map_node (swap n m) z)).

Lemma map_node_fix f x :
  (∀ k, parent x = Some k → f k = k) → (∀ k, link0 x = Some k → f k = k) → (∀ k, link1 x = Some k → f k = k) →
  map_node f x = x.
Proof.
  destruct x as [xp x0 x1 xb]. unfold map_node. cbn. intros Hp Hl Hr.
  f_equal; [destruct xp|destruct x0|destruct x1]; cbn; f_equal; auto.
Qed.

Lemma set_balance_id b w : balance w = b → set_balance b w = w.
Proof. intros <-. by destruct w. Qed.

Lemma balance_redirect p c w : balance (redirect p c w) = balance w.
Proof. unfold redirect. by destruct (is_right p w). Qed.

Lemma swap_distant_ok o T n m x y :
  valid o T → n ∈ elements T → m ∈ elements T → n ≠ m → mem o !! n = Some x → mem o !! m = Some y →
  parent x ≠ parent y → parent x ≠ Some m → parent y ≠ Some n →
  wp (swap_distant n m) o (λ _ o' _, relinked o o' (elements T) n m).
Proof.
  intros Hv Hn Hm Hnm Hx Hy Hpar Hxm Hyn. pose proof (valid_linked o T Hv) as HL.
  pose proof (linked_self _ _ _ _ _ HL Hn Hx) as (Hxn & Hx0n & Hx1n).
  pose proof (linked_self _ _ _ _ _ HL Hm Hy) as (Hym & Hy0m & Hy1m).
  pose proof (linked_child _ _ _ _ _ _ _ HL Hn Hm Hx Hy) as Hchild.
  pose proof (linked_child _ _ _ _ _ _ _ HL Hm Hn Hy Hx) as Hchild'.
  assert (link0 x ≠ Some m ∧ link1 x ≠ Some m) as [Hx0m Hx1m] by (split; intros ?; apply Hyn, Hchild; auto).
  assert (link0 y ≠ Some n ∧ link1 y ≠ Some n) as [Hy0n Hy1n] by (split; intros ?; apply Hxm, Hchild'; auto).
  assert (∀ s q, link s x = Some q → is_Some (mem o !! q)) as Hcx.
  { intros s q Hq. destruct (child_parent _ _ _ HL n x s q Hn Hx Hq) as (_ & _ & _ & z & -> & _). by eexists. }
  assert (∀ s q, link s y = Some q → is_Some (mem o !! q)) as Hcy.
  { intros s q Hq. destruct (child_parent _ _ _ HL m y s q Hm Hy Hq) as (_ & _ & _ & z & -> & _). by eexists. }
  unfold swap_distant. wp_step. eapply wp_get_node; [exact Hx|]. wp_step. eapply wp_get_node; [exact Hy|].
  wp_step. apply wp_update_node; [by eexists|]. cbn [root mem].
  wp_step. apply wp_replace_child.
  { intros q Hq. apply is_Some_alter. apply (node_known _ _ _ HL). by destruct (parent_child _ _ _ HL m y q Hm Hy Hq). }
  cbn [root mem]. wp_step. apply wp_update_node; [apply is_Some_alter_if, is_Some_alter; by eexists|]. cbn [root mem].
  wp_step. apply wp_replace_child.
  { intros q Hq. apply is_Some_alter, is_Some_alter_if, is_Some_alter.
    apply (node_known _ _ _ HL). by destruct (parent_child _ _ _ HL n x q Hn Hx Hq). }
  cbn [root mem]. set (h4 := alter_if _ (parent x) _). set (rt := match parent x with Some _ => _ | None => _ end).
  assert (h4 !! n = Some (set_parent (parent y) x)) as Hn4 by (subst h4; lkd; by rewrite Hx).
  assert (h4 !! m = Some (set_parent (parent x) y)) as Hm4 by (subst h4; lkd; by rewrite Hy).
  assert (∀ q, is_Some (mem o !! q) → is_Some (h4 !! q)) as Hs4.
  { intros q Hq. by apply is_Some_alter_if, is_Some_alter, is_Some_alter_if, is_Some_alter. }
  wp_step. eapply swap_children_ok; [exact Hn4|exact Hm4|intros q Hq; apply Hs4, (Hcx false q Hq)|
    intros q Hq; apply Hs4, (Hcy false q Hq)|].
  cbn [root mem link link0 set_parent]. set (h8 := alter_if _ (link0 x) _).
  assert (h8 !! n = Some (set_link false (link0 y) (set_parent (parent y) x))) as Hn8 by (subst h8; lkd; by rewrite Hn4).
  assert (h8 !! m = Some (set_link false (link0 x) (set_parent (parent x) y))) as Hm8 by (subst h8; lkd; by rewrite Hm4).
  assert (∀ q, is_Some (mem o !! q) → is_Some (h8 !! q)) as Hs8.
  { intros q Hq. apply is_Some_alter_if, is_Some_alter, is_Some_alter_if, is_Some_alter, Hs4, Hq. }
  eapply swap_children_ok; [exact Hn8|exact Hm8|intros q Hq; apply Hs8, (Hcx true q Hq)|
    intros q Hq; apply Hs8, (Hcy true q Hq)|].
  cbn [root mem link link1 set_parent set_link]. split; cbn [root mem].
  - subst rt. rewrite swap_option.
    pose proof (parent_root _ _ _ HL n x Hn Hx) as Hrn. pose proof (parent_root _ _ _ HL m y Hm Hy) as Hrm.
    destruct (parent x) as [px|], (parent y) as [py|]; try congruence.
    + rewrite !bool_decide_false; [done| |]; intros Hr; [by apply Hrm in Hr|by apply Hrn in Hr].
    + rewrite bool_decide_false, bool_decide_true; [done| |]; [by apply Hrm|intros Hr; by apply Hrn in Hr].
    + by rewrite bool_decide_true by (by apply Hrn).
  - intros q z z' Hq Hz Hz'. destruct (decide (q = n)) as [->|Hqn]; [|destruct (decide (q = m)) as [->|Hqm]].
    + rewrite swap_l in *. assert (z' = y) as -> by congruence. assert (z = x) as -> by congruence.
      lkd. rewrite Hm8. cbn. rewrite map_node_fix; [by destruct x, y| | |]; intros k Hk; apply swap_ne; congruence.
    + rewrite swap_r in *. assert (z' = x) as -> by congruence. assert (z = y) as -> by congruence.
      lkd. rewrite Hn8. cbn. rewrite map_node_fix; [by destruct x, y| | |]; intros k Hk; apply swap_ne; congruence.
    + rewrite swap_ne in * by done. assert (z' = z) as -> by congruence.
      rewrite <- (swap_record n m x y z q); try done.
      * rewrite lookup_alter_if, lookup_alter_ne, lookup_alter_if, lookup_alter_ne by done. subst h8.
        rewrite lookup_alter_if, lookup_alter_ne, lookup_alter_if, lookup_alter_ne by done. subst h4.
        rewrite lookup_alter_if, lookup_alter_ne, lookup_alter_if, lookup_alter_ne by done. rewrite Hz. cbn [fmap option_fmap option_map].
        rewrite set_balance_id; [done|]. repeat case_bool_decide; cbn; by rewrite ?balance_redirect.
      * exact (linked_child _ _ _ _ _ _ _ HL Hn Hq Hx Hz).
      * exact (linked_child _ _ _ _ _ _ _ HL Hm Hq Hy Hz).
      * exact (linked_child _ _ _ _ _ _ _ HL Hq Hn Hz Hx).
      * exact (linked_child _ _ _ _ _ _ _ HL Hq Hm Hz Hy).
      * exact (linked_one _ _ _ _ _ _ HL Hq Hz).
      * exact (linked_one _ _ _ _ _ _ HL Hq Hz).
Qed.

(** The same when the first is the other's parent; [c] is its other child. *)
Lemma swap_record_adjacent n m x y z q c :
  n ≠ m →
  (parent z = Some n ↔ c = Some q) →
  (parent z = Some m ↔ link0 y = Some q ∨ link1 y = Some q) →
  (parent x = Some q ↔ link0 z = Some n ∨ link1 z = Some n) →
  ¬ (link0 z = Some n ∧ link1 z = Some n) → link0 z ≠ Some m → link1 z ≠ Some m →
  upd_if (c = Some q) (set_parent (Some m)) (upd_if (parent x = Some q) (redirect n (Some m))
    (upd_if (link1 y = Some q) (set_parent (Some n)) (upd_if (link0 y = Some q) (set_parent (Some n)) z)))
  = map_node (swap n m) z.
Proof.
  intros Hnm Hzn Hzm Hx Hn1 Hm0 Hm1. unfold map_node. rewrite !swap_option.
  rewrite (bool_decide_false (link0 z = Some m)), (bool_decide_false (link1 z = Some m)) by done.
  destruct z as [zp z0 z1 zb]. cbn in *.
  set (zp' := if bool_decide (zp = Some m) then Some n else zp).
  assert (upd_if (link1 y = Some q) (set_parent (Some n)) (upd_if (link0 y = Some q) (set_parent (Some n)) (mk_node zp z0 z1 zb))
    = mk_node zp' z0 z1 zb) as ->.
  { subst zp'. destruct (decide (zp = Some m)) as [Hp|Hp].
    - rewrite (bool_decide_true (zp = Some m)) by done.
      apply Hzm in Hp as [-> | ->]; rewrite (bool_decide_true (Some q = Some q)) by done; case_bool_decide; done.
    - assert (link0 y ≠ Some q ∧ link1 y ≠ Some q) as [? ?] by (split; intros ?; apply Hp, Hzm; auto).
      by rewrite !bool_decide_false by done. }
  assert (upd_if (parent x = Some q) (redirect n (Some m)) (mk_node zp' z0 z1 zb)
    = mk_node zp' (if bool_decide (z0 = Some n) then Some m else z0) (if bool_decide (z1 = Some n) then Some m else z1) zb) as ->.
  { clear -Hx Hn1 Hnm. destruct (decide (parent x = Some q)) as [Hq|Hq].
    - rewrite (bool_decide_true (parent x = Some q)) by done. unfold redirect, is_right; cbn.
      apply Hx in Hq as [-> | ->].
      + rewrite (bool_decide_false (z1 = Some n)), bool_decide_true by naive_solver. done.
      + rewrite (bool_decide_false (z0 = Some n)), !bool_decide_true by naive_solver. done.
    - assert (z0 ≠ Some n ∧ z1 ≠ Some n) as [? ?] by (split; intros ?; apply Hq, Hx; auto).
      rewrite (bool_decide_false (parent x = Some q)) by done. by rewrite !bool_decide_false by done. }
  destruct (decide (c = Some q)) as [Hc|Hc].
  - rewrite (bool_decide_true (c = Some q)), (bool_decide_true (zp = Some n)) by (done || by apply Hzn). done.
  - rewrite (bool_decide_false (c = Some q)), (bool_decide_false (zp = Some n)) by (done || by rewrite Hzn). done.
Qed.

Lemma swap_adjacent_ok o T n m x y :
  valid o T → n ∈ elements T → m ∈ elements T → n ≠ m → mem o !! n = Some x → mem o !! m = Some y →
  parent x ≠ Some m → parent y = Some n →
  wp (swap_adjacent n m) o (λ _ o' _, relinked o o' (elements T) n m).
Proof.
  intros Hv Hn Hm Hnm Hx Hy Hxm Hyn. pose proof (valid_linked o T Hv) as HL.
  pose proof (linked_self _ _ _ _ _ HL Hn Hx) as (Hxn & Hx0n & Hx1n).
  pose proof (linked_self _ _ _ _ _ HL Hm Hy) as (Hym & Hy0m & Hy1m).
  pose proof (linked_child _ _ _ _ _ _ _ HL Hn Hm Hx Hy) as Hchild.
  pose proof (linked_child _ _ _ _ _ _ _ HL Hm Hn Hy Hx) as Hchild'.
  assert (link0 y ≠ Some n ∧ link1 y ≠ Some n) as [Hy0n Hy1n] by (split; intros ?; apply Hxm, Hchild'; auto).
  assert (∃ s c, x = mkn s (parent x) (Some m) c (balance x) ∧ is_right m x = s ∧ c ≠ Some m ∧ c ≠ Some n) as (s & c & Hxe & Hs & Hcm & Hcn).
  { pose proof (linked_one _ _ _ n x m HL Hn Hx) as Hone. destruct x as [xp x0 x1 xb]. cbn in *. unfold is_right; cbn.
    apply Hchild in Hyn as [-> | ->].
    - exists false, x1. rewrite bool_decide_false by naive_solver. naive_solver.
    - exists true, x0. rewrite bool_decide_true by done. naive_solver. }
  assert (link (negb s) x = c) as Hlc by (rewrite Hxe; apply link_mkn_other).
  assert (∀ q, c = Some q → is_Some (mem o !! q)) as Hcc.
  { intros q Hq. rewrite <- Hlc in Hq. destruct (child_parent _ _ _ HL n x (negb s) q Hn Hx Hq) as (_ & _ & _ & z & -> & _). by eexists. }
  assert (∀ s q, link s y = Some q → is_Some (mem o !! q)) as Hcy.
  { intros s' q Hq. destruct (child_parent _ _ _ HL m y s' q Hm Hy Hq) as (_ & _ & _ & z & -> & _). by eexists. }
  unfold swap_adjacent. wp_step. eapply wp_get_node; [exact Hx|]. wp_step. eapply wp_get_node; [exact Hy|].
  rewrite Hs, Hlc.
  wp_step. apply wp_update_node; [by eexists|]. cbn [root mem].
  wp_step. apply wp_update_if; [intros q Hq; apply is_Some_alter, (Hcy false q Hq)|]. cbn [root mem].
  wp_step. apply wp_update_node; [apply is_Some_alter_if, is_Some_alter; by eexists|]. cbn [root mem].
  wp_step. apply wp_update_if; [intros q Hq; apply is_Some_alter, is_Some_alter_if, is_Some_alter, (Hcy true q Hq)|]. cbn [root mem].
  set (h4 := alter_if _ (link1 y) _).
  assert (∀ q, is_Some (mem o !! q) → is_Some (h4 !! q)) as Hs4.
  { intros q Hq. by apply is_Some_alter_if, is_Some_alter, is_Some_alter_if, is_Some_alter. }
  wp_step. apply wp_update_node; [apply Hs4; by eexists|]. cbn [root mem].
  wp_step. apply wp_replace_child.
  { intros q Hq. apply is_Some_alter, Hs4, (node_known _ _ _ HL). by destruct (parent_child _ _ _ HL n x q Hn Hx Hq). }
  cbn [root mem]. wp_step. apply wp_update_node; [apply is_Some_alter_if, is_Some_alter, Hs4; by eexists|]. cbn [root mem].
  wp_step. apply wp_update_node; [apply is_Some_alter, is_Some_alter_if, is_Some_alter, Hs4; by eexists|]. cbn [root mem].
  wp_step. apply wp_update_node; [do 2 apply is_Some_alter; apply is_Some_alter_if, is_Some_alter, Hs4; by eexists|].
  cbn [root mem]. apply wp_update_if.
  { intros q Hq. do 3 apply is_Some_alter. apply is_Some_alter_if, is_Some_alter, Hs4, Hcc, Hq. }
  cbn [root mem]. split; cbn [root mem].
  - rewrite swap_option. pose proof (parent_root _ _ _ HL n x Hn Hx) as Hrn. pose proof (parent_root _ _ _ HL m y Hm Hy) as Hrm.
    destruct (parent x) as [px|] eqn:Hpx.
    + rewrite !bool_decide_false; [done| |]; intros Hr; [apply Hrm in Hr; congruence|by apply Hrn in Hr].
    + by rewrite bool_decide_true by (by apply Hrn).
  - intros q z z' Hq Hz Hz'. destruct (decide (q = n)) as [->|Hqn]; [|destruct (decide (q = m)) as [->|Hqm]].
    + rewrite swap_l in *. assert (z' = y) as -> by congruence. assert (z = x) as -> by congruence.
      lkd. subst h4. lkd. rewrite Hy. cbn. rewrite Hxe. f_equal. unfold map_node.
      rewrite !swap_option. destruct s, y; cbn; rewrite ?(bool_decide_false (parent x = Some n)), ?(bool_decide_false (parent x = Some m)),
        ?(bool_decide_false (c = Some n)), ?(bool_decide_false (c = Some m)), ?(bool_decide_false (Some m = Some n)),
        ?(bool_decide_true (Some m = Some m)) by congruence; done.
    + rewrite swap_r in *. assert (z' = x) as -> by congruence. assert (z = y) as -> by congruence.
      lkd. subst h4. lkd. rewrite Hx. cbn. f_equal. unfold map_node. rewrite !swap_option.
      destruct x as [xp x0 x1 xb], y as [yp y0 y1 yb]; cbn in *. rewrite (bool_decide_true (yp = Some n)) by done.
      by rewrite !bool_decide_false by done.
    + rewrite swap_ne in * by done. assert (z' = z) as -> by congruence.
      rewrite <- (swap_record_adjacent n m x y z q c); try done.
      * rewrite lookup_alter_if, !lookup_alter_ne, lookup_alter_if, lookup_alter_ne by done. subst h4.
        rewrite lookup_alter_if, lookup_alter_ne, lookup_alter_if, lookup_alter_ne by done. rewrite Hz.
        cbn [fmap option_fmap option_map].
        rewrite set_balance_id; [done|]. repeat case_bool_decide; cbn; by rewrite ?balance_redirect.
      * rewrite (linked_child _ _ _ _ _ _ _ HL Hn Hq Hx Hz). rewrite Hxe. destruct s; cbn; naive_solver.
      * exact (linked_child _ _ _ _ _ _ _ HL Hm Hq Hy Hz).
      * exact (linked_child _ _ _ _ _ _ _ HL Hq Hn Hz Hx).
      * exact (linked_one _ _ _ _ _ _ HL Hq Hz).
      * intros Hl. pose proof (linked_child _ _ _ _ _ _ _ HL Hq Hm Hz Hy) as [_ Hl']. rewrite Hl' in Hyn by auto. congruence.
      * intros Hl. pose proof (linked_child _ _ _ _ _ _ _ HL Hq Hm Hz Hy) as [_ Hl']. rewrite Hl' in Hyn by auto. congruence.
Qed.

(** [_BAVL_swap_nodes] exchanges two nodes, unless they are siblings. *)
Lemma swap_nodes_ok o T n m x y :
  valid o T → n ∈ elements T → m ∈ elements T → n ≠ m → mem o !! n = Some x → mem o !! m = Some y →
  parent x ≠ parent y → parent x ≠ Some m →
  wp (swap_nodes n m) o (λ _ o' _, valid o' (map_tree (swap n m) T)).
Proof.
  intros Hv Hn Hm Hnm Hx Hy Hpar Hxm.
  assert (wp (if bool_decide (parent x = Some m) then swap_adjacent m n
    else if bool_decide (parent y = Some n) then swap_adjacent n m else swap_distant n m) o
    (λ _ o' _, relinked o o' (elements T) n m)) as Hw.
  { rewrite bool_decide_false by done. case_bool_decide; [by eapply swap_adjacent_ok|by eapply swap_distant_ok]. }
  unfold swap_nodes. wp_step. eapply wp_get_node; [exact Hx|]. wp_step. eapply wp_get_node; [exact Hy|].
  wp_step. eapply wp_mono; [exact Hw|]. cbn beta. intros _ o1 _ [Hroot Hre].
  pose proof (Hre n x y Hn Hx) as Hn'. rewrite swap_l in Hn'. specialize (Hn' Hy).
  pose proof (Hre m y x Hm Hy) as Hm'. rewrite swap_r in Hm'. specialize (Hm' Hx).
  wp_step. apply wp_update_node; [by eexists|]. apply wp_update_node; [apply is_Some_alter; by eexists|]. cbn [root mem].
  destruct Hv as (Hr & Hrep & Hnd). split_and!; cbn [root mem].
  - by rewrite Hroot, Hr, root_of_map.
  - apply (rep_map (swap n m) (mem o) _ None); [done|]. intros q Hq. destruct (rep_in _ _ _ _ Hrep Hq) as [z Hz].
    destruct (decide (q = n)) as [->|Hqn]; [|destruct (decide (q = m)) as [->|Hqm]].
    + rewrite swap_l. lkd. rewrite Hn', Hz. assert (z = x) as -> by congruence. by destruct x.
    + rewrite swap_r. lkd. rewrite Hm', Hz. assert (z = y) as -> by congruence. by destruct y.
    + rewrite (swap_ne n m q) by done. lkd. pose proof (Hre q z z Hq Hz) as Hq'. rewrite (swap_ne n m q) in Hq' by done.
      rewrite Hq', Hz by done. by destruct z.
  - rewrite elements_map. apply NoDup_fmap_2; [apply _|done].
Qed.

(** ** Removal *)

Lemma descend_ok fuel o c s T n :
  valid o (plug c T) → root_of T = Some n → height T ≤ Z.of_nat fuel →
  wp (descend fuel s n) o (λ r o' _, o' = o ∧
    ∃ c2 b A, T = plug c2 (nd s Leaf r b A) ∧ Forall (λ f, f.1.1.1 = s) c2).
Proof.
  revert c T n. induction fuel as [|fuel IH]; intros c T n Hv Hn Hh.
  { destruct T; [done|]. cbn in Hh. pose proof (height_nonneg T1). lia. }
  destruct (tree_inv s T) as (A & p & b & B & ->).
  { destruct T; [done|]. cbn. pose proof (height_nonneg T1). lia. }
  rewrite root_of_nd in Hn. injection Hn as ->. cbn [descend].
  wp_step. eapply wp_get_node; [exact (valid_get _ _ _ _ _ _ _ Hv)|]. rewrite link_mkn.
  destruct A as [|l q b' r] eqn:HA; cbn [root_of].
  - wp_step. split; [done|]. by exists [], b, B.
  - rewrite <- HA in *. eapply wp_mono.
    { apply (IH ((s, n, b, B) :: c) A q); [done|by rewrite HA|]. rewrite height_nd in Hh. lia. }
    cbn beta. intros m o' _ (-> & c2 & bm & A' & HA' & Hc2). split; [done|].
    exists (c2 ++ [(s, n, b, B)]), bm, A'. rewrite plug_app, <- HA'. split; [done|].
    apply Forall_app. split; [done|]. by apply Forall_singleton.
Qed.

Definition map_ctx (f : Z → Z) (c : ctx) : ctx := (λ '(s, p, b, sib), (s, f p, b, map_tree f sib)) <$> c.

Lemma map_tree_nd f s A p b B : map_tree f (nd s A p b B) = nd s (map_tree f A) (f p) b (map_tree f B).
Proof. by destruct s. Qed.

Lemma map_tree_plug f c T : map_tree f (plug c T) = plug (map_ctx f c) (map_tree f T).
Proof.
  revert T. induction c as [|[[[s p] b] sib] c IH]; intros T; [done|]. cbn [plug map_ctx].
  rewrite IH, map_tree_nd. done.
Qed.

Lemma map_tree_id f T : (∀ q, q ∈ elements T → f q = q) → map_tree f T = T.
Proof.
  induction T as [|l IHl p b r IHr]; cbn; intros Hf; [done|].
  rewrite IHl, IHr, Hf; set_solver.
Qed.

Lemma map_ctx_id f c : (∀ q, q ∈ cnodes c → f q = q) → map_ctx f c = c.
Proof.
  induction c as [|[[[s p] b] sib] c IH]; cbn; intros Hf; [done|].
  rewrite Hf by set_solver. rewrite map_tree_id by set_solver. f_equal. apply IH. set_solver.
Qed.

Lemma replace_subtree_ok o c s A node b (Q : unit → t → list False → Prop) :
  valid o (plug c (nd s A node b Leaf)) → (∀ o', valid o' (plug c A) → Q tt o' []) →
  wp (replace_subtree node (root_of A)) o Q.
Proof.
  intros Hv HQ. pose proof Hv as (Hroot & Hrep & Hc & Hnd)%valid_plug. rewrite rep_nd, root_of_nd in *.
  destruct Hrep as (Hp & HA & _). tell Hnd [node] [elements A; cnodes c].
  unfold replace_subtree. wp_step. eapply wp_get_node; [exact Hp|]. rewrite parent_mkn.
  wp_step. apply wp_replace_child; [is_some|]. cbn [root mem].
  apply wp_update_if; [is_some|]. cbn [root mem]. apply HQ. apply valid_plug. cbn [root mem]. split_and!.
  - destruct c as [|[[[s' p] b'] sib] c]; [done|]. cbn [par_of]. rewrite Hroot. by apply plug_root_hole.
  - eapply rep_reparent; [exact HA| |].
    + rewrite elements_nd_perm in Hnd. cbn in Hnd. rewrite app_nil_r in Hnd. apply NoDup_cons in Hnd as [_ Hnd].
      by apply NoDup_app in Hnd as (? & _ & _).
    + intros q Hq. rewrite lookup_alter_if. f_equal. by lk.
  - eapply repc_redirect; [exact Hc|by apply NoDup_app in Hnd as (_ & _ & ?)|intros Hq; nodes|].
    intros q Hq. rewrite lookup_alter_if_ne by ne. by rewrite lookup_alter_if.
  - rewrite elements_nd_perm in Hnd. cbn in Hnd. rewrite app_nil_r in Hnd. by apply NoDup_cons in Hnd as [_ Hnd].
Qed.

Lemma unlink_ok fuel o c s A node b :
  valid o (plug c (nd s A node b Leaf)) → avl (plug c (nd s A node b Leaf)) → (length c < fuel)%nat →
  wp (unlink fuel node) o (λ _ o' _, ∃ T', valid o' T' ∧ avl T' ∧ elements T' = lefts c ++ elements A ++ rights c).
Proof.
  intros Hv Ha Hf. apply avl_plug in Ha as [Ha Hc]. rewrite avl_nd, height_nd in *. destruct Ha as (Hb & Hbr & HA & _).
  pose proof (height_nonneg A). cbn [height] in *.
  unfold unlink. wp_step. eapply wp_get_node; [exact (valid_get _ _ _ _ _ _ _ Hv)|]. cbn [root_of].
  wp_step. wp_step.
  { destruct s; cbn; [done|]. apply negb_true_iff, andb_false_iff. right. done. }
  replace (match link0 (mkn s (par_of None c) (root_of A) None b) with Some c0 => Some c0
    | None => link1 (mkn s (par_of None c) (root_of A) None b) end) with (root_of A)
    by (destruct s; cbn; [done|]; by destruct (root_of A)).
  rewrite parent_mkn. destruct c as [|[[[s' p] b'] sib] c]; cbn [par_of].
  - eapply replace_subtree_ok; [exact Hv|]. intros o' Hv'. exists A. cbn [lefts rights app]. rewrite app_nil_r. done.
  - destruct (is_right_frame _ _ _ _ node _ _ _ Hv (root_of_nd _ _ _ _ _)) as (y & Hy & Hr & _).
    wp_step. eapply wp_get_node; [exact Hy|]. rewrite Hr.
    wp_step. eapply replace_subtree_ok; [exact Hv|]. intros o' Hv'. cbn [plug] in Hv'.
    cbn in Hc. destruct Hc as (Hb' & Hbr' & Hsib & Hc).
    replace (Z.max (height A) 0) with (height A) in * by lia.
    eapply wp_mono.
    { eapply (rebalance_ok _ o' c s' A p b' sib (-1)); try done; try lia.
      - rewrite Hb'. f_equal. lia.
      - replace (height A - -1) with (1 + height A) by lia. done.
      - cbn in Hf. lia. }
    cbn beta. intros _ o2 _ (T' & Hv2 & HT' & He). exists T'. split_and!; [done|done|]. rewrite He.
    change (plug c (nd s' A p b' sib)) with (plug ((s', p, b', sib) :: c) A). by rewrite elements_plug.
Qed.

(** The exchange in [BAVL_Remove]: the node goes down to where the largest node
    of its left subtree was. *)
Lemma swap_down_ok o c L node b R m c2 bm A :
  valid o (plug c (Node L node b R)) → L = plug c2 (nd true Leaf m bm A) →
  wp (swap_nodes node m) o (λ _ o' _,
    valid o' (plug (c2 ++ (false, m, b, R) :: c) (nd true Leaf node bm A)) ∧
    height (plug (c2 ++ (false, m, b, R) :: c) (nd true Leaf node bm A)) = height (plug c (Node L node b R)) ∧
    (avl (plug c (Node L node b R)) → avl (plug (c2 ++ (false, m, b, R) :: c) (nd true Leaf node bm A)))).
Proof.
  intros Hv HL. change (Node L node b R) with (nd false L node b R) in *.
  pose proof (valid_get _ _ _ _ _ _ _ Hv) as Hx.
  assert (valid o (plug (c2 ++ (false, node, b, R) :: c) (nd true Leaf m bm A))) as Hv2.
  { rewrite plug_app, <- HL. done. }
  pose proof (valid_get _ _ _ _ _ _ _ Hv2) as Hy.
  pose proof Hv as (_ & _ & Hnd). rewrite plug_nodes, elements_nd_perm, HL, plug_nodes, elements_nd_perm in Hnd.
  tell Hnd [node; m] [elements A; cnodes c2; elements R; cnodes c].
  assert (map_tree (swap node m) (plug c (nd false L node b R)) =
    plug (c2 ++ (false, m, b, R) :: c) (nd true Leaf node bm A)) as Hmap.
  { assert (∀ q, q ∈ elements A ++ cnodes c2 ++ elements R ++ cnodes c → swap node m q = q) as Hid.
    { intros q Hq. rewrite !elem_of_app in Hq. apply swap_ne; intros ->; destruct_or! Hq; nodes. }
    rewrite plug_app, map_tree_plug, map_tree_nd, HL, map_tree_plug, map_tree_nd, swap_l, swap_r.
    rewrite (map_tree_id _ A), (map_tree_id _ R), !map_ctx_id by (intros q Hq; apply Hid; rewrite !elem_of_app; tauto).
    done. }
  eapply wp_mono.
  { eapply (swap_nodes_ok o _ node m); [exact Hv| | |nodes|exact Hx|exact Hy| |].
    - rewrite plug_nodes, elements_nd_perm. set_solver.
    - rewrite plug_nodes, elements_nd_perm, HL, plug_nodes, elements_nd_perm. set_solver.
    - rewrite !parent_mkn. destruct c2 as [|[[[s' p'] b'] sib'] c2]; cbn [par_of app].
      + ne.
      + intros Hq. apply par_in in Hq. assert (p' ∈ cnodes ((s', p', b', sib') :: c2)) as Hp' by (cbn; set_solver). nodes.
    - rewrite parent_mkn. ne. }
  cbn beta. intros _ o' _ Hv'. rewrite Hmap in Hv'. split; [done|]. rewrite <- Hmap, height_map, avl_map. done.
Qed.

Lemma lefts_app c1 c2 : lefts (c1 ++ c2) = lefts c2 ++ lefts c1.
Proof.
  induction c1 as [|[[[s p] b] sib] c1 IH]; cbn; [by rewrite app_nil_r|]. rewrite IH. destruct s; by rewrite <- ?app_assoc.
Qed.
Lemma rights_app c1 c2 : rights (c1 ++ c2) = rights c1 ++ rights c2.
Proof.
  induction c1 as [|[[[s p] b] sib] c1 IH]; cbn; [done|]. rewrite IH. destruct s; cbn; by rewrite <- ?app_assoc.
Qed.

Lemma rights_right c : Forall (λ f : bool * Z * Z * tree, f.1.1.1 = true) c → rights c = [].
Proof. induction 1 as [|[[[s p] b] sib] c Hs _ IH]; cbn in *; [done|]. by rewrite Hs. Qed.

Definition removed (T : tree) (node : Z) (o' : t) : Prop :=
  ∃ T' l1 l2, valid o' T' ∧ avl T' ∧ elements T = l1 ++ node :: l2 ∧ elements T' = l1 ++ l2.

Lemma Remove_ok o T node :
  valid o T → avl T → node ∈ elements T → wp (Remove node) o (λ _ o' _, removed T node o').
Proof.
  intros Hv Ha Hn. destruct (zip_side o T node false Hv Hn) as (c & L & b & R & ->).
  destruct (path_enough o c _ Hv) as [Hlen Hhei]. rewrite height_nd in Hhei.
  pose proof (height_nonneg L). pose proof (height_nonneg R).
  pose proof (valid_get _ _ _ _ _ _ _ Hv) as Hg.
  unfold Remove. wp_step. wp_step. wp_step. eapply wp_get_node; [exact Hg|]. cbn [link0 link1 mkn].
  assert (∀ s A, nd false L node b R = nd s A node b Leaf → elements A = elements L ++ elements R →
    wp (unlink (path_fuel o) node) o (λ _ o' _, removed (plug c (nd false L node b R)) node o')) as Hone.
  { intros s A He Hel. rewrite He in Hv, Ha. eapply wp_mono; [by eapply unlink_ok|].
    cbn beta. intros _ o' _ (T' & Hv' & HT' & He'). exists T', (lefts c ++ elements L), (elements R ++ rights c).
    split_and!; [done|done| |].
    - rewrite elements_plug, elements_nd. by rewrite <- !app_assoc.
    - rewrite He', Hel. by rewrite <- !app_assoc. }
  destruct L as [|l1 lp lb l2] eqn:HL; cbn [root_of].
  { wp_step. wp_step. apply (Hone true R); [done|done]. }
  destruct R as [|r1 rp rb r2] eqn:HR; cbn [root_of].
  { wp_step. wp_step. apply (Hone false (Node l1 lp lb l2)); [done|by rewrite app_nil_r]. }
  rewrite <- HL, <- HR in *. clear Hone. wp_step. wp_step. eapply wp_mono.
  { apply (descend_ok (path_fuel o) o ((false, node, b, R) :: c) true L lp); [done|by rewrite HL|]. lia. }
  cbn beta. intros m ? _ (-> & c2 & bm & A & HLp & Hc2).
  eapply wp_mono; [by apply (swap_down_ok o c L node b R m c2 bm A)|].
  cbn beta. intros _ o1 _ (Hv1 & _ & Ha1). eapply wp_mono.
  { eapply (unlink_ok (path_fuel o) o1 _ false A node bm); [exact Hv1|exact (Ha1 Ha)|].
    pose proof (elements_size o _ Hv) as Hs. rewrite plug_nodes, elements_nd_perm, HLp, plug_nodes, elements_nd_perm in Hs.
    pose proof (cnodes_length c2). pose proof (cnodes_length c). unfold path_fuel.
    cbn in Hs. rewrite !length_app in Hs. rewrite length_app. cbn. rewrite ?length_app in Hs. lia. }
  cbn beta. intros _ o' _ (T' & Hv' & HT' & He'). exists T', (lefts c ++ elements L), (elements R ++ rights c).
  split_and!; [done|done| |].
  - rewrite elements_plug, elements_nd. by rewrite <- !app_assoc.
  - rewrite He', lefts_app, rights_app, HLp, elements_plug, elements_nd, (rights_right c2 Hc2). cbn.
    by rewrite <- !app_assoc.
Qed.

(** ** Traversal *)

Definition towards (s : bool) (c : ctx) : option Z := if s then head (rights c) else last (lefts c).

Lemma ascend_ok fuel o c s T n :
  valid o (plug c T) → root_of T = Some n → (length c < fuel)%nat →
  wp (ascend fuel s n) o (λ r o' _, o' = o ∧ r = towards s c).
Proof.
  revert fuel T n. induction c as [|[[[s' p] b] sib] c IH]; intros [|fuel] T n Hv Hn Hf; cbn in Hf; try lia; cbn [ascend].
  - destruct (root_inv T n Hn) as (l & b & r & ->).
    wp_step. eapply wp_get_node; [exact (valid_get _ _ _ _ _ _ _ Hv)|]. rewrite parent_mkn. cbn [par_of].
    wp_step. split; [done|]. by destruct s.
  - destruct (root_inv T n Hn) as (l & b' & r & HT). rewrite HT in Hv.
    wp_step. eapply wp_get_node; [exact (valid_get _ _ _ _ _ _ _ Hv)|]. rewrite parent_mkn. cbn [par_of].
    rewrite <- HT in Hv. destruct (is_right_frame _ _ _ _ _ _ _ _ Hv Hn) as (y & Hy & _ & ->).
    wp_step. eapply wp_get_node; [exact Hy|]. cbn [plug] in Hv.
    destruct (decide (s' = s)) as [->|Hs].
    + rewrite link_mkn, bool_decide_true by done.
      eapply wp_mono; [apply (IH fuel _ p Hv (root_of_nd _ _ _ _ _)); lia|].
      cbn beta. intros r' o' _ [-> ->]. split; [done|]. by destruct s.
    + assert (s = negb s') as -> by (by destruct s, s'). rewrite link_mkn_other.
      rewrite bool_decide_false.
      2: { intros Hq. pose proof Hv as (_ & _ & Hnd). rewrite plug_nodes, elements_nd_perm in Hnd.
           tell Hnd [p] [elements T; elements sib; cnodes c]. apply root_in in Hq, Hn. nodes. }
      wp_step. split; [done|]. destruct s'; cbn; [|done].
      by rewrite app_assoc, last_snoc.
Qed.

Lemma descend_end s r b A c2 c :
  Forall (λ f : bool * Z * Z * tree, f.1.1.1 = s) c2 →
  (if s then last (lefts c ++ elements (plug c2 (nd s Leaf r b A)))
   else head (elements (plug c2 (nd s Leaf r b A)) ++ rights c)) = Some r.
Proof.
  intros Hc. rewrite elements_plug, elements_nd. destruct s.
  - rewrite (rights_right c2 Hc), app_nil_r, !app_assoc. apply last_snoc.
  - cbn. replace (lefts c2) with (@nil Z); [done|]. clear -Hc.
    induction Hc as [|[[[s p] b] sib] c Hs _ IH]; cbn in *; [done|]. by rewrite Hs.
Qed.

Lemma GetEnd_ok o T s :
  valid o T → wp (GetEnd s) o (λ r o' _, o' = o ∧ r = if s then last (elements T) else head (elements T)).
Proof.
  intros Hv. pose proof Hv as (Hroot & _). unfold GetEnd. wp_step. wp_step. rewrite Hroot.
  destruct T as [|l p b r] eqn:HT; cbn [root_of]; [wp_step; split; [done|]; by destruct s|].
  rewrite <- HT in *. wp_step. eapply wp_mono.
  { apply (descend_ok (path_fuel o) o [] s T p Hv); [by subst T|].
    destruct (path_enough o [] T Hv) as [_ ?]. pose proof (height_nonneg T). lia. }
  cbn beta. intros m ? _ (-> & c2 & bm & A & HTp & Hc2). wp_step. split; [done|].
  pose proof (descend_end s m bm A c2 [] Hc2) as He. rewrite <- HTp in He. cbn [lefts rights app] in He.
  rewrite app_nil_r in He. by destruct s.
Qed.

Lemma app_at (n : Z) l1 l2 l1' l2' : NoDup (l1 ++ n :: l2) → l1 ++ n :: l2 = l1' ++ n :: l2' → l1 = l1' ∧ l2 = l2'.
Proof.
  intros Hnd He. revert l1' He. induction l1 as [|x l1 IH]; intros [|y l1'] He; cbn in *.
  - by simplify_eq.
  - injection He as -> ->. apply NoDup_cons in Hnd as [Hn _]. set_solver.
  - injection He as -> <-. apply NoDup_cons in Hnd as [Hn _]. set_solver.
  - injection He as -> He. apply NoDup_cons in Hnd as [_ Hnd]. by destruct (IH Hnd _ He) as [-> ->].
Qed.

Lemma GetNeighbour_ok o T s n l1 l2 :
  valid o T → elements T = l1 ++ n :: l2 →
  wp (GetNeighbour s n) o (λ r o' _, o' = o ∧ r = if s then head l2 else last l1).
Proof.
  intros Hv He. destruct (zip_side o T n s Hv) as (c & A & b & B & ->); [rewrite He; set_solver|].
  destruct (path_enough o c _ Hv) as [Hlen Hhei]. rewrite height_nd in Hhei.
  pose proof (height_nonneg A). pose proof (height_nonneg B).
  assert ((if s then elements A ++ rights c else l2) = l2 ∧ (if s then l1 else lefts c ++ elements A) = l1) as [Hl2 Hl1].
  { pose proof Hv as (_ & _ & Hnd). rewrite elements_plug, elements_nd in He, Hnd. destruct s.
    - rewrite <- app_assoc in He, Hnd. cbn in He, Hnd. rewrite (app_assoc (lefts c)) in He, Hnd.
      by destruct (app_at _ _ _ _ _ Hnd He) as [<- <-].
    - rewrite <- app_assoc in He, Hnd. cbn in He, Hnd. rewrite (app_assoc (lefts c)) in He, Hnd.
      by destruct (app_at _ _ _ _ _ Hnd He) as [<- <-]. }
  unfold GetNeighbour. wp_step. wp_step. wp_step. eapply wp_get_node; [exact (valid_get _ _ _ _ _ _ _ Hv)|].
  rewrite link_mkn. destruct (root_of A) as [q|] eqn:HA.
  - wp_step. eapply wp_mono.
    { apply (descend_ok (path_fuel o) o ((s, n, b, B) :: c) (negb s) A q); [done|done|]. lia. }
    cbn beta. intros m ? _ (-> & c2 & bm & A' & HAp & Hc2). wp_step. split; [done|].
    pose proof (descend_end (negb s) m bm A' c2 c Hc2) as Hend. rewrite <- HAp in Hend.
    destruct s; cbn in Hend; [by rewrite <- Hl2|by rewrite <- Hl1].
  - eapply wp_mono; [apply (ascend_ok (path_fuel o) o c s _ n Hv (root_of_nd _ _ _ _ _)); lia|].
    cbn beta. intros r ? _ [-> ->]. split; [done|]. destruct A; [|done].
    destruct s; cbn in *; [by rewrite <- Hl2|by rewrite <- Hl1, app_nil_r].
Qed.

(** ** Depth *)

Lemma avl_height T : avl T → 2 ^ (height T / 2) ≤ zlen (elements T) + 1.
Proof.
  induction T as [|l IHl p b r IHr]; intros Ha; [done|]. cbn [avl] in Ha. destruct Ha as (Hb & Hbr & Hl & Hr).
  specialize (IHl Hl). specialize (IHr Hr). pose proof (height_nonneg l). pose proof (height_nonneg r).
  cbn [elements height]. rewrite length_app. cbn [length].
  set (h := Z.max (height l) (height r)) in *.
  assert (2 ^ ((h - 1) / 2) ≤ 2 ^ (height l / 2) ∧ 2 ^ ((h - 1) / 2) ≤ 2 ^ (height r / 2)) as [? ?].
  { split; apply Z.pow_le_mono_r; try lia; apply Z.div_le_mono; lia. }
  destruct (Z.eq_dec h 0) as [Hz|Hh]; [rewrite Hz; change (2 ^ ((1 + 0) / 2)) with 1; lia|].
  replace ((1 + h) / 2) with ((h - 1) / 2 + 1).
  2: { replace (1 + h) with ((h - 1) + 1 * 2) by lia. rewrite Z.div_add by lia. done. }
  rewrite Z.pow_add_r by (try lia; apply Z.div_pos; lia). lia.
Qed.

Lemma avl_log T : avl T → height T ≤ 2 * Z.log2 (zlen (elements T) + 1) + 1.
Proof.
  intros Ha. pose proof (avl_height T Ha) as Hp. pose proof (height_nonneg T).
  apply Z.log2_le_mono in Hp. rewrite Z.log2_pow2 in Hp by (apply Z.div_pos; lia).
  pose proof (Z.div_mod (height T) 2 ltac:(lia)). pose proof (Z.mod_pos_bound (height T) 2 ltac:(lia)). lia.
Qed.

(** ** [BAVL_Verify] *)

Lemma assert_recurser_ok fuel o par T n :
  rep (mem o) par T → avl T → sorted T → root_of T = Some n → height T ≤ Z.of_nat fuel →
  assert_recurser fuel o n = Some (height T).
Proof.
  revert par T n. induction fuel as [|fuel IH]; intros par T n Hrep Ha Hs Hn Hh.
  { destruct T; [done|]. cbn in Hh. pose proof (height_nonneg T1). lia. }
  destruct T as [|l p b r]; [done|]. injection Hn as ->. cbn in Hrep, Ha, Hh. destruct Hrep as (Hp & Hl & Hr), Ha as (Hb & Hbr & Hal & Har).
  unfold sorted in Hs. cbn in Hs. apply StronglySorted_app in Hs as (Hlr & Hsl & Hsr). apply StronglySorted_inv in Hsr as [Hsr Hnr].
  cbn [assert_recurser]. rewrite Hp. cbn [mbind option_bind link link0 link1].
  assert (match root_of l with
    | None => Some 0
    | Some c => y ← mem o !! c; if bool_decide (parent y = Some n) && (comparator (node_value c) (node_value n) =? -1)
        then assert_recurser fuel o c else None end = Some (height l)) as ->.
  { destruct l as [|l1 q b' l2] eqn:Hl'; [done|]. rewrite <- Hl' in *. pose proof Hl as Hl''. rewrite Hl' in Hl''. cbn in Hl''.
    destruct Hl'' as (Hq & _ & _). cbn [root_of]. replace (root_of l) with (Some q) by (by rewrite Hl').
    rewrite Hq. cbn [mbind option_bind parent]. rewrite bool_decide_true by done.
    rewrite (Hlr q n) by (rewrite ?Hl'; cbn; set_solver). cbn. apply (IH (Some n)); try done; [by rewrite Hl'|lia]. }
  cbn [mbind option_bind].
  assert (match root_of r with
    | None => Some 0
    | Some c => y ← mem o !! c; if bool_decide (parent y = Some n) && (comparator (node_value c) (node_value n) =? 1)
        then assert_recurser fuel o c else None end = Some (height r)) as ->.
  { destruct r as [|r1 q b' r2] eqn:Hr'; [done|]. rewrite <- Hr' in *. pose proof Hr as Hr''. rewrite Hr' in Hr''. cbn in Hr''.
    destruct Hr'' as (Hq & _ & _). replace (root_of r) with (Some q) by (by rewrite Hr').
    rewrite Hq. cbn [mbind option_bind parent]. rewrite bool_decide_true by done. rewrite Forall_forall in Hnr.
    rewrite (proj2 (gt_lt _ _)) by (apply Hnr; rewrite Hr'; cbn; set_solver). cbn.
    apply (IH (Some n)); try done; [by rewrite Hr'|lia]. }
  cbn [mbind option_bind balance]. rewrite !(proj2 (Z.leb_le _ _)) by lia. rewrite (proj2 (Z.eqb_eq _ _)) by lia. cbn.
  f_equal. unfold BAVL_MAX. destruct (Z.ltb_spec (height r) (height l)); lia.
Qed.

Lemma Verify_ok o T : valid o T → avl T → sorted T → Verify o = true.
Proof.
  intros Hv Ha Hs. pose proof Hv as (Hroot & Hrep & _). unfold Verify. rewrite Hroot.
  destruct T as [|l p b r] eqn:HT; [done|]. cbn [root_of]. rewrite <- HT in *.
  rewrite (assert_recurser_ok (path_fuel o) o None T p); try done; [| |].
  - rewrite HT in Hrep. cbn in Hrep. destruct Hrep as (-> & _). done.
  - by rewrite HT.
  - destruct (path_enough o [] T Hv) as [_ ?]. pose proof (height_nonneg T). lia.
Qed.

(** ** The tree as an ordered list *)

Definition represents (o : t) (l : list Z) : Prop := ∃ T, valid o T ∧ avl T ∧ sorted T ∧ elements T = l.

(** An equal node, or the list with the node in its place. *)
Fixpoint list_insert (node : Z) (l : list Z) : Z + list Z :=
  match l with
  | [] => inr [node]
  | e :: l' =>
      let c := comparator (node_value node) (node_value e) in
      if c =? 0 then inl e
      else if c <? 0 then inr (node :: l)
      else match list_insert node l' with inl x => inl x | inr l'' => inr (e :: l'') end
  end.

Definition list_lookup_exact (v : V) (l : list Z) : option Z :=
  List.find (λ e, comparator v (node_value e) =? 0) l.

Lemma list_insert_equal node l e :
  StronglySorted node_lt l → e ∈ l → comparator (node_value node) (node_value e) = 0 → list_insert node l = inl e.
Proof.
  induction 1 as [|x l Hs IH Hx]; intros He Hc; [set_solver|]. cbn.
  apply elem_of_cons in He as [->|He]; [by rewrite Hc|]. rewrite Forall_forall in Hx.
  assert (comparator (node_value node) (node_value x) = 1) as ->.
  { rewrite (cmp_eq _ _ _ Hc). apply gt_lt. by apply Hx. }
  cbn. by rewrite IH.
Qed.

Lemma list_insert_new node l1 l2 :
  StronglySorted node_lt (l1 ++ node :: l2) → list_insert node (l1 ++ l2) = inr (l1 ++ node :: l2).
Proof.
  induction l1 as [|x l1 IH]; cbn; intros Hs; apply StronglySorted_inv in Hs as [Hs Hx]; rewrite Forall_forall in Hx.
  - destruct l2 as [|y l2]; [done|]. cbn. rewrite (Hx y) by set_solver. done.
  - assert (comparator (node_value node) (node_value x) = 1) as ->.
    { apply gt_lt. apply Hx. set_solver. }
    cbn. by rewrite IH.
Qed.

Lemma list_lookup_exact_ok v l (r : option Z) :
  StronglySorted node_lt l →
  match r with
  | Some n => n ∈ l ∧ comparator v (node_value n) = 0
  | None => ∀ e, e ∈ l → comparator v (node_value e) ≠ 0
  end → r = list_lookup_exact v l.
Proof.
  unfold list_lookup_exact. induction 1 as [|x l Hs IH Hx]; intros Hr; cbn.
  - destruct r as [n|]; [|done]. set_solver.
  - destruct r as [n|].
    + destruct Hr as [Hn Hc]. apply elem_of_cons in Hn as [->|Hn]; [by rewrite Hc|]. rewrite Forall_forall in Hx.
      assert (comparator v (node_value x) = 1) as ->.
      { rewrite (cmp_eq _ _ _ Hc). apply gt_lt. by apply Hx. }
      cbn. by apply IH.
    + rewrite (proj2 (Z.eqb_neq _ _)) by (apply Hr; set_solver). apply IH. intros e He. apply Hr. set_solver.
Qed.

Lemma sorted_remove (l1 l2 : list Z) n : StronglySorted node_lt (l1 ++ n :: l2) → StronglySorted node_lt (l1 ++ l2).
Proof.
  intros (H12 & Hs1 & Hs2)%StronglySorted_app. apply StronglySorted_inv in Hs2 as [Hs2 _].
  apply StronglySorted_app. split_and!; [|done|done]. intros x y Hx Hy. apply H12; [done|]. set_solver.
Qed.

Lemma filter_at (l1 l2 : list Z) n : NoDup (l1 ++ n :: l2) →
  List.filter (λ q, negb (q =? n)) (l1 ++ n :: l2) = l1 ++ l2.
Proof.
  intros (_ & Hd & Hnd)%NoDup_app. apply NoDup_cons in Hnd as [Hn _].
  assert (∀ l, n ∉ l → List.filter (λ q, negb (q =? n)) l = l) as Hid.
  { induction l as [|x l IH]; intros Hl; cbn; [done|].
    rewrite (proj2 (Z.eqb_neq x n)) by (intros ->; set_solver). cbn. rewrite IH; [done|set_solver]. }
  rewrite List.filter_app. cbn. rewrite Z.eqb_refl. cbn. rewrite !Hid; [done|done|].
  intros Hl. apply (Hd n Hl). set_solver.
Qed.

Lemma run_ret {A} (m : IO A) o (Q : A → t → Prop) :
  wp m o (λ a o' _, Q a o') → ∃ a o', m o = Some (a, o', []) ∧ Q a o'.
Proof. intros Hm. apply wp_run in Hm as (a & o' & [|[] es] & Hm & HQ). eauto. Qed.

(** ** The operations on the list *)

Lemma represents_Insert o l node :
  represents o l → node ∉ l → ∃ r o', Insert node o = Some (r, o', []) ∧
    match list_insert node l with
    | inl e => r = (false, Some e) ∧ o' = o
    | inr l' => r.1 = true ∧ represents o' l' ∧
        (l = [] ∧ r.2 = None ∨
         ∃ n l1 l2, r.2 = Some n ∧ l = l1 ++ l2 ∧ l' = l1 ++ node :: l2 ∧ (last l1 = Some n ∨ head l2 = Some n))
    end.
Proof.
  intros (T & Hv & Ha & Hs & <-) Hn. destruct (run_ret _ _ _ (Insert_ok o T node Hv Ha Hs Hn)) as (r & o' & Hrun & Hi).
  exists r, o'. split; [done|]. destruct Hi as [(e & He & Hc & -> & ->)|(T' & l1 & l2 & Hr & Hv' & Ha' & Hs' & He & He' & Href)].
  - by rewrite (list_insert_equal node _ e).
  - rewrite He. unfold sorted in Hs'. rewrite He' in Hs'. rewrite (list_insert_new node l1 l2) by done. split; [done|].
    split; [exists T'; unfold sorted; by rewrite He'|]. rewrite <- He.
    destruct Href as [[-> ->]|(n & -> & Hn')]; [by left|right]. by exists n, l1, l2.
Qed.

Lemma represents_Remove o l node :
  represents o l → node ∈ l →
  ∃ o', Remove node o = Some (tt, o', []) ∧ represents o' (List.filter (λ q, negb (q =? node)) l).
Proof.
  intros (T & Hv & Ha & Hs & <-) Hn.
  destruct (run_ret _ _ _ (Remove_ok o T node Hv Ha Hn)) as ([] & o' & Hrun & T' & l1 & l2 & Hv' & Ha' & He & He').
  exists o'. split; [done|]. exists T'. unfold sorted in *. rewrite He in *. destruct Hv as (_ & _ & Hnd). rewrite He in Hnd.
  rewrite filter_at, He' by done. split_and!; try done. by eapply sorted_remove.
Qed.

Lemma represents_LookupExact o l v :
  represents o l → LookupExact v o = Some (list_lookup_exact v l, o, []).
Proof.
  intros (T & Hv & Ha & Hs & <-).
  destruct (run_ret _ _ _ (LookupExact_ok o T v Hv Hs)) as (r & o' & Hrun & -> & Hr). rewrite Hrun.
  by rewrite <- (list_lookup_exact_ok v _ r Hs Hr).
Qed.

Lemma represents_ends o l :
  represents o l → GetFirst o = Some (head l, o, []) ∧ GetLast o = Some (last l, o, []).
Proof.
  intros (T & Hv & _ & _ & <-). split.
  - by destruct (run_ret _ _ _ (GetEnd_ok o T false Hv)) as (r & o' & Hrun & -> & ->).
  - by destruct (run_ret _ _ _ (GetEnd_ok o T true Hv)) as (r & o' & Hrun & -> & ->).
Qed.

Lemma represents_neighbours o l n l1 l2 :
  represents o l → l = l1 ++ n :: l2 →
  GetNext n o = Some (head l2, o, []) ∧ GetPrev n o = Some (last l1, o, []).
Proof.
  intros (T & Hv & _ & _ & <-) He. split.
  - by destruct (run_ret _ _ _ (GetNeighbour_ok o T true n l1 l2 Hv He)) as (r & o' & Hrun & -> & ->).
  - by destruct (run_ret _ _ _ (GetNeighbour_ok o T false n l1 l2 Hv He)) as (r & o' & Hrun & -> & ->).
Qed.

Lemma represents_IsEmpty o l : represents o l → IsEmpty o = bool_decide (l = []).
Proof.
  intros (T & (Hroot & _) & _ & _ & <-). unfold IsEmpty. rewrite Hroot. destruct T as [|tl p b tr]; [done|].
  cbn. rewrite bool_decide_false; [done|]. by destruct (elements tl).
Qed.

Lemma represents_NoDup o l : represents o l → NoDup l.
Proof. by intros (T & (_ & _ & Hnd) & _ & _ & <-). Qed.

Lemma represents_sorted o l : represents o l → StronglySorted node_lt l.
Proof. by intros (T & _ & _ & Hs & <-). Qed.

(** ** The theorems *)

(** C13: the AVL tree is an ordered list of its nodes: with any total order,
    insertion puts the new node in its place and reports a neighbour of it, or
    finds an equal node, changes nothing and reports that one (where the comment on
    [BAVL_Insert] promises a lesser or greater node in both cases), removal takes exactly the node out, lookup finds the equal node or
    (inexact) a neighbour of the place the value belongs, and the ends and
    neighbours are those of the list.  No operation follows a
    null or dangling pointer, fails an assertion or loops, and the result always
    passes [BAVL_Verify]. *)
Theorem bavl_refines_list o l :
  represents o l →
  (∀ node, node ∉ l → ∃ r o', Insert node o = Some (r, o', []) ∧
     match list_insert node l with
     | inl e => r = (false, Some e) ∧ o' = o
     | inr l' => r.1 = true ∧ represents o' l' ∧
         (l = [] ∧ r.2 = None ∨
          ∃ n l1 l2, r.2 = Some n ∧ l = l1 ++ l2 ∧ l' = l1 ++ node :: l2 ∧ (last l1 = Some n ∨ head l2 = Some n))
     end) ∧
  (∀ node, node ∈ l → ∃ o', Remove node o = Some (tt, o', []) ∧
     represents o' (List.filter (λ q, negb (q =? node)) l)) ∧
  (∀ v, LookupExact v o = Some (list_lookup_exact v l, o, [])) ∧
  (∀ v, ∃ r, Lookup v o = Some (r, o, []) ∧
     match r with
     | None => l = []
     | Some n => n ∈ l ∧ (comparator v (node_value n) = 0 ∨
         ∃ l1 l2, l = l1 ++ l2 ∧ (last l1 = Some n ∨ head l2 = Some n) ∧
           Forall (λ e, comparator v (node_value e) = 1) l1 ∧ Forall (λ e, comparator v (node_value e) = -1) l2)
     end) ∧
  GetFirst o = Some (head l, o, []) ∧ GetLast o = Some (last l, o, []) ∧
  (∀ n l1 l2, l = l1 ++ n :: l2 →
     GetNext n o = Some (head l2, o, []) ∧ GetPrev n o = Some (last l1, o, [])) ∧
  IsEmpty o = bool_decide (l = []) ∧ Verify o = true.
Proof.
  intros Hr. split_and!.
  - intros. by apply represents_Insert.
  - intros. by apply represents_Remove.
  - intros. by apply represents_LookupExact.
  - intros v. destruct Hr as (T & Hv & _ & Hs & <-).
    destruct (run_ret _ _ _ (Lookup_ok o T v Hv Hs)) as (r & o' & Hrun & -> & Hr). by exists r.
  - by apply represents_ends.
  - by apply represents_ends.
  - intros. by apply (represents_neighbours o l).
  - by apply represents_IsEmpty.
  - destruct Hr as (T & ? & ? & ? & _). by eapply Verify_ok.
Qed.

Lemma represents_Init : represents Init [].
Proof. exists Leaf. split_and!; try done; [|constructor]. split_and!; try done. constructor. Qed.

(** The depth of the tree is logarithmic: a lookup among [n] nodes makes at
    most [2 log2 (n + 1) + 1] comparisons. *)
Theorem bavl_logarithmic o l v r :
  represents o l → root o = Some r →
  ∃ res, lookup_loop (Z.to_nat (2 * Z.log2 (zlen l + 1) + 1)) v r o = Some (res, o, []).
Proof.
  intros (T & Hv & Ha & Hs & <-) Hr. destruct Hv as (Hroot & Hrest). rewrite Hr in Hroot.
  pose proof (avl_log T Ha) as Hh. pose proof (height_nonneg T).
  assert (wp (lookup_loop (Z.to_nat (2 * Z.log2 (zlen (elements T) + 1) + 1)) v r) o (λ a o' _, o' = o)) as Hw.
  { eapply wp_mono; [apply (lookup_loop_ok _ o [] T v r); try done; [by split; [rewrite Hr|]|lia]|].
    cbn beta. by intros a o' _ [-> _]. }
  destruct (run_ret _ _ _ Hw) as (res & o' & Hrun & ->). eauto.
Qed.

End search.
End bavl.
End BAVL.

(** ** Examples *)

Section bavl_examples.
Import BAVL.
#[local] Instance bavl_debug : Build := false.
#[local] Instance Z_comparator : Comparator Z := B_COMPARE.

#[local] Instance Z_comparator_ok : ComparatorOk Z.
Proof.
  split; unfold comparator, Z_comparator; intros; repeat match goal with
  | |- context [B_COMPARE ?a ?b] => pose proof (B_COMPARE_spec a b); generalize dependent (B_COMPARE a b); intros
  | _ : context [B_COMPARE ?a ?b] |- _ => pose proof (B_COMPARE_spec a b); generalize dependent (B_COMPARE a b); intros
  end; lia.
Qed.

(** Nodes inserted one by one; a node's value is its address. *)
Fixpoint insert_all (l : list Z) (o : t) : option t :=
  match l with
  | [] => Some o
  | n :: l => '(_, o, _) ← Insert id n o; insert_all l o
  end.

Lemma insert_all_represents l o l0 o' :
  represents id o l0 → NoDup (l ++ l0) → insert_all l o = Some o' → ∃ l', represents id o' l' ∧ l' ≡ₚ l ++ l0.
Proof.
  revert o l0. induction l as [|n l IH]; intros o l0 Hr Hnd Hi; cbn in *; [simplify_eq; by exists l0|].
  apply NoDup_cons in Hnd as [Hn Hnd]. destruct Hr as (T & Hv & Ha & Hs & <-).
  destruct (run_ret _ _ _ (Insert_ok id o T n Hv Ha Hs ltac:(set_solver))) as (r & o1 & Hrun & Hins).
  rewrite Hrun in Hi. cbn in Hi.
  destruct Hins as [(e & He & Hc & _)|(T' & l1 & l2 & _ & Hv' & Ha' & Hs' & He & He' & _)].
  - exfalso. unfold comparator, Z_comparator in Hc. pose proof (B_COMPARE_spec n e). cbn in Hc. assert (e = n) as -> by lia. set_solver.
  - destruct (IH o1 (elements T')) as (l' & Hl' & Hp); [by exists T'| |done|].
    + rewrite He', <- Permutation_middle. rewrite He in *. rewrite <- Permutation_middle. by constructor.
    + exists l'. split; [done|]. rewrite Hp, He', He. solve_Permutation.
Qed.

Definition example_nodes : list Z := [4; 2; 6; 1; 3; 5; 7; 8; 9; 10].

Lemma example_represents o :
  insert_all example_nodes Init = Some o → ∃ l, represents id o l ∧ l ≡ₚ example_nodes.
Proof.
  assert (NoDup (example_nodes ++ [])) as Hnd by (apply (bool_decide_unpack _); vm_compute; exact I).
  intros Ho. destruct (insert_all_represents example_nodes Init [] o (represents_Init id) Hnd Ho) as (l & Hl & Hp).
  exists l. split; [exact Hl|]. rewrite Hp, app_nil_r. reflexivity.
Qed.

Lemma bavl_refines_list_witness :
  ∃ o o', insert_all example_nodes Init = Some o ∧
    Remove 4 o = Some (tt, o', []) ∧ Verify id o' = true.
Proof.
  destruct (insert_all example_nodes Init) as [o|] eqn:Ho; [|vm_compute in Ho; discriminate Ho].
  destruct (example_represents o Ho) as (l & Hl & Hp).
  destruct (bavl_refines_list id o l Hl) as (_ & Hrem & _).
  destruct (Hrem 4) as (o' & Hrun & Hr'); [rewrite Hp; cbn; set_solver|].
  exists o, o'. split_and!; [done|exact Hrun|].
  by destruct (bavl_refines_list id o' _ Hr') as (_ & _ & _ & _ & _ & _ & _ & _ & Hver).
Defined.

Lemma bavl_logarithmic_witness :
  ∃ o res, insert_all example_nodes Init = Some o ∧ root o = Some 4 ∧
    lookup_loop id (Z.to_nat (2 * Z.log2 11 + 1)) 9 4 o = Some (res, o, []).
Proof.
  destruct (insert_all example_nodes Init) as [o|] eqn:Ho; [|vm_compute in Ho; discriminate Ho].
  assert (root o = Some 4) as Hr.
  { assert (root <$> insert_all example_nodes Init = Some (Some 4)) as Hx by (vm_compute; reflexivity).
    rewrite Ho in Hx. by injection Hx. }
  destruct (example_represents o Ho) as (l & Hl & Hp).
  destruct (bavl_logarithmic id o l 9 4 Hl Hr) as (res & Hres).
  assert (zlen l = 10) as Hlen by (rewrite Hp; reflexivity). rewrite Hlen in Hres.
  exists o, res. split_and!; [done|done|exact Hres].
Defined.

(** [_BAVL_swap_nodes] does not exchange a left child with its right sibling:
    the second test of the parent's link sees the first change. *)
Lemma swap_siblings_lost :
  ∃ o o', insert_all [2; 1; 3] Init = Some o ∧ swap_nodes 1 3 o = Some (tt, o', []) ∧
    option_map (λ x, (link0 x, link1 x)) (mem o' !! 2) = Some (Some 1, Some 3).
Proof. eexists _, _. split_and!; vm_compute; reflexivity. Qed.
End bavl_examples.
