(* ===== verification/CAvl.v ===== *)
(** * CAvl: the generic AVL tree

    Models structure/CAvl_impl.h, the tree that the reactor (its running timers)
    and the fair queue (through structure/SAvl_impl.h) instantiate, for links
    that are pointers: [CAvlDeref] is then the identity, a [CAvlRef] is an
    optional address, and the nodes live in the memory of Bavl.v.  The two
    comparison functions are parameters of the tree, as they are macro arguments
    in the code.  Counts and associative sums ([CAVL_PARAM_FEATURE_COUNTS],
    [_KEYS_ARE_INDICES], [_ASSOC]) are not compiled into the instances.

    The code hands the parents of nodes from call to call and asserts that they
    are right ([CAvl_check_parent]); on a valid tree every routine is shown to be
    the corresponding routine of Bavl.v, so that the tree refines the ordered list
    of its nodes. *)
From stdpp Require Import sorting.
From S2P Require Import Prelude Bytes Bavl.

(** The two comparisons are one total order on what the nodes hold. *)
Class EntryOrder {V : Type} `{Comparator V} (node_value : Z → V)
    (cmp_entries : Z → Z → Z) (cmp_key_entry : V → Z → Z) : Prop := {
  cmp_entries_value n m : cmp_entries n m = comparator (node_value n) (node_value m);
  cmp_key_value k n : cmp_key_entry k n = comparator k (node_value n)
}.

Lemma list_insert_perm {V : Type} `{Comparator V} (node_value : Z → V) node (l : list Z) :
  match BAVL.list_insert node_value node l with
  | inl e => e ∈ l ∧ comparator (node_value node) (node_value e) = 0
  | inr l' => l' ≡ₚ node :: l
  end.
Proof.
  induction l as [|e l IH]; cbn; [done|].
  destruct (Z.eqb_spec (comparator (node_value node) (node_value e)) 0); [set_solver|]. destruct (_ <? 0); [done|].
  destruct (BAVL.list_insert node_value node l) as [x|l''].
  - destruct IH. split; [set_solver|done].
  - rewrite IH. apply Permutation_swap.
Qed.

Module CAvl.
Section cavl.
Context `{Build} {V : Type}.
(** [CAVL_PARAM_FUN_COMPARE_ENTRIES] and [CAVL_PARAM_FUN_COMPARE_KEY_ENTRY] *)
Context (COMPARE_ENTRIES : Z → Z → Z) (COMPARE_KEY_ENTRY : V → Z → Z).

Import BAVL.
Abbreviation IO := (M BAVL.t False).

Definition compare_entries (node1 node2 : Z) : IO Z :=
  let res := COMPARE_ENTRIES node1 node2 in
  ASSERT (-1 <=? res);;
  ASSERT (res <=? 1);;
  mret res.

Definition compare_key_entry (key1 : V) (node2 : Z) : IO Z :=
  let res := COMPARE_KEY_ENTRY key1 node2 in
  ASSERT (-1 <=? res);;
  ASSERT (res <=? 1);;
  mret res.

Definition check_parent (p : option Z) (c : Z) : IO bool :=
  x ← get c;
  if bool_decide (p = parent x) then
    match p with
    | None => mret true
    | Some q => y ← get q; mret (bool_decide (link0 y = Some c) || bool_decide (link1 y = Some c))
    end
  else mret false.

Definition CAvl_MAX (a b : Z) : Z := if b <? a then a else b.
Definition CAvl_OPTNEG (a : Z) (neg : bool) : Z := if neg then - a else a.

(** [CAvl_verify_recurser]: the height of the tree below [n]; [None] when a check
    fails. *)
Fixpoint verify_recurser (fuel : nat) (o : BAVL.t) (n : Z) : option Z :=
  match fuel with
  | O => None
  | S fuel =>
      x ← mem o !! n;
      if (-1 <=? balance x) && (balance x <=? 1) then
        (* check a subtree: the parent link, the order, then its height *)
        let child side want :=
          match link side x with
          | None => Some 0
          | Some c =>
              y ← mem o !! c;
              if bool_decide (parent y = Some n) && (COMPARE_ENTRIES c n =? want)
              then verify_recurser fuel o c else None
          end in
        height_left ← child false (-1);
        height_right ← child true 1;
        (* check balance factor *)
        if balance x =? height_right - height_left
        then Some (CAvl_MAX height_left height_right + 1) else None
      else None
  end.

(** ** Restructuring *)

Definition rotate (r : Z) (dir : bool) (r_parent : option Z) : IO unit :=
  ok ← check_parent r_parent r;
  ASSERT ok;;
  x ← get r;
  nr ← mlift (link (negb dir) x);
  y ← get nr;
  update r (set_link (negb dir) (link dir y));;
  update_if (link dir y) (set_parent (Some r));;
  update nr (set_link dir (Some r));;
  update nr (set_parent r_parent);;
  replace_child r_parent r (Some nr);;
  update r (set_parent (Some nr)).

Definition subtree_min (fuel : nat) (n : Z) : IO Z := descend fuel false n.
Definition subtree_max (fuel : nat) (n : Z) : IO Z := descend fuel true n.

Definition replace_subtree_fix_assoc (dest : Z) (n dest_parent : option Z) : IO unit :=
  ok ← check_parent dest_parent dest;
  ASSERT ok;;
  replace_child dest_parent dest n;;
  x ← get dest;
  update_if n (set_parent (parent x)).

(** The directly connected nodes of [CAvl_swap_for_remove]. *)
Definition swap_connected (node enode : Z) (node_parent : option Z) : IO unit :=
  x ← get node;
  y ← get enode;
  let side := is_right enode x in
  let c := link (negb side) x in
  update node (set_link false (link0 y));;
  update_if (link0 y) (set_parent (Some node));;
  update node (set_link true (link1 y));;
  update_if (link1 y) (set_parent (Some node));;
  update enode (set_parent (parent x));;
  replace_child node_parent node (Some enode);;
  update enode (set_link side (Some node));;
  update node (set_parent (Some enode));;
  update enode (set_link (negb side) c);;
  update_if c (set_parent (Some enode)).

(** The other nodes of [CAvl_swap_for_remove]. *)
Definition swap_distant (node enode : Z) (node_parent enode_parent : option Z) : IO unit :=
  x ← get node;
  y ← get enode;
  (* swap parents *)
  update node (set_parent (parent y));;
  replace_child enode_parent enode (Some node);;
  update enode (set_parent node_parent);;
  replace_child node_parent node (Some enode);;
  (* swap left children, swap right children *)
  swap_children false node enode;;
  swap_children true node enode.

Definition swap_for_remove (node enode : Z) (node_parent enode_parent : option Z) : IO unit :=
  ok ← check_parent node_parent node;
  ASSERT ok;;
  ok ← check_parent enode_parent enode;
  ASSERT ok;;
  x ← get node;
  y ← get enode;
  (if bool_decide (enode_parent = Some node) then swap_connected node enode node_parent
   else swap_distant node enode node_parent enode_parent);;
  (* swap balance factors *)
  update node (set_balance (balance y));;
  update enode (set_balance (balance x)).

(** The transformations of [CAvl_rebalance] for a balance factor of 2 or -2: the
    node that is now at the top, and the change of [delta]. *)
Definition restore (node : Z) (bside : bool) : IO (Z * Z) :=
  let bsidef := if bside then 1 else -1 in
  x ← get node;
  child ← mlift (link bside x);
  y ← get child;
  if balance y * bsidef =? 1 then
    rotate node (negb bside) (parent x);;
    update node (set_balance 0);;
    update child (set_balance 0);;
    mret (child, -1)
  else if balance y * bsidef =? 0 then
    rotate node (negb bside) (parent x);;
    update node (set_balance (1 * bsidef));;
    update child (set_balance (-1 * bsidef));;
    mret (child, 0)
  else if balance y * bsidef =? -1 then
    gchild ← mlift (link (negb bside) y);
    rotate child bside (Some node);;
    x ← get node;
    rotate node (negb bside) (parent x);;
    z ← get gchild;
    update node (set_balance (- CAvl_MAX 0 (balance z * bsidef) * bsidef));;
    update child (set_balance (CAvl_MAX 0 (- balance z * bsidef) * bsidef));;
    update gchild (set_balance 0);;
    mret (gchild, -1)
  else ASSERT false;; mret (node, 0).

Fixpoint rebalance (fuel : nat) (node : Z) (side : bool) (deltac : Z) : IO unit :=
  match fuel with
  | O => mabort
  | S fuel =>
      ASSERT ((-1 <=? deltac) && (deltac <=? 1));;
      x ← get node;
      ASSERT ((-1 <=? balance x) && (balance x <=? 1));;
      (* if no subtree changed its height, no more rebalancing is needed *)
      if deltac =? 0 then mret tt
      else
        (* calculate how much our height changed *)
        let delta := CAvl_MAX deltac (CAvl_OPTNEG (balance x) side) - CAvl_MAX 0 (CAvl_OPTNEG (balance x) side) in
        ASSERT ((-1 <=? delta) && (delta <=? 1));;
        (* update our balance factor *)
        let b := balance x - CAvl_OPTNEG deltac side in
        update node (set_balance b);;
        (* perform transformations if the balance factor is wrong *)
        r ← (if b =? 2 then restore node true
             else if b =? -2 then restore node false
             else mret (node, 0));
        let '(node, d) := r in
        let delta := delta + d in
        ASSERT ((-1 <=? delta) && (delta <=? 1));;
        x ← get node;
        match parent x with
        | Some node_parent => y ← get node_parent; rebalance fuel node_parent (is_right node y) delta
        | None => mret tt
        end
  end.

(** ** Operations *)

Definition Init : BAVL.t := BAVL.mk None ∅.

Fixpoint insert_search (fuel : nat) (node c : Z) : IO (Z * option bool) :=
  match fuel with
  | O => mabort
  | S fuel =>
      comp ← compare_entries node c;
      if comp =? 0 then mret (c, None)
      else
        let side := comp =? 1 in
        x ← get c;
        match link side x with
        | None => mret (c, Some side)
        | Some c' => insert_search fuel node c'
        end
  end.

(** The result and [*out_ref]. *)
Definition Insert (node : Z) : IO (bool * option Z) :=
  o ← mget;
  match root o with
  | None =>
      (* insert to root *)
      mput (mk (Some node) (<[node := mk_node None None None 0]> (mem o)));;
      mret (true, None)
  | Some r =>
      found ← insert_search (path_fuel o) node r;
      match found with
      | (c, None) => mret (false, Some c)
      | (c, Some side) =>
          update c (set_link side (Some node));;
          mmodify (λ o, mk (root o) (<[node := mk_node (Some c) None None 0]> (mem o)));;
          o ← mget;
          rebalance (path_fuel o) c side 1;;
          mret (true, Some c)
      end
  end.

(** The end of [CAvl_Remove], with at most one child left. *)
Definition unlink (fuel : nat) (node : Z) : IO unit :=
  x ← get node;
  ASSERT (negb (bool_decide (is_Some (link0 x)) && bool_decide (is_Some (link1 x))));;
  let paren := parent x in
  let child := match link0 x with Some c => Some c | None => link1 x end in
  match paren with
  | Some p =>
      y ← get p;
      let side := is_right node y in
      replace_subtree_fix_assoc node child paren;;
      rebalance fuel p side (-1)
  | None => replace_subtree_fix_assoc node child paren
  end.

Definition Remove (node : Z) : IO unit :=
  o ← mget;
  ASSERT (bool_decide (is_Some (root o)));;
  x ← get node;
  (match link0 x, link1 x with
   | Some l, Some _ =>
       max ← subtree_max (path_fuel o) l;
       y ← get max;
       swap_for_remove node max (parent x) (parent y)
   | _, _ => mret tt
   end);;
  unlink (path_fuel o) node.

(** The loops of [CAvl_Lookup] and [CAvl_LookupExact], which differ at a leaf. *)
Fixpoint lookup_loop (fuel : nat) (exact : bool) (key : V) (c : Z) : IO (option Z) :=
  match fuel with
  | O => mabort
  | S fuel =>
      (* compare *)
      comp ← compare_key_entry key c;
      (* have we found a node that compares equal? *)
      if comp =? 0 then mret (Some c)
      else
        let side := comp =? 1 in
        x ← get c;
        match link side x with
        | None => (* have we reached a leaf? *) mret (if exact then None else Some c)
        | Some c' => lookup_loop fuel exact key c'
        end
  end.

Definition Lookup (key : V) : IO (option Z) :=
  o ← mget;
  match root o with None => mret None | Some r => lookup_loop (path_fuel o) false key r end.
Definition LookupExact (key : V) : IO (option Z) :=
  o ← mget;
  match root o with None => mret None | Some r => lookup_loop (path_fuel o) true key r end.

Definition GetFirst : IO (option Z) :=
  o ← mget;
  match root o with None => mret None | Some r => n ← subtree_min (path_fuel o) r; mret (Some n) end.
Definition GetLast : IO (option Z) :=
  o ← mget;
  match root o with None => mret None | Some r => n ← subtree_max (path_fuel o) r; mret (Some n) end.

(** The loops of [CAvl_GetNext] and [CAvl_GetPrev] are those of Bavl.v. *)
Definition GetNext (node : Z) : IO (option Z) :=
  o ← mget;
  ASSERT (bool_decide (is_Some (root o)));;
  x ← get node;
  match link1 x with
  | Some c => r ← descend (path_fuel o) false c; mret (Some r)
  | None => ascend (path_fuel o) true node
  end.
Definition GetPrev (node : Z) : IO (option Z) :=
  o ← mget;
  ASSERT (bool_decide (is_Some (root o)));;
  x ← get node;
  match link0 x with
  | Some c => r ← descend (path_fuel o) true c; mret (Some r)
  | None => ascend (path_fuel o) false node
  end.

Definition GetFirstGreater (key : V) : IO (option Z) :=
  c ← Lookup key;
  match c with
  | None => mret None
  | Some c =>
      comp ← compare_key_entry key c;
      c ← (if 0 <=? comp then GetNext c else mret (Some c));
      match c with
      | None => mret None
      | Some c => comp ← compare_key_entry key c; ASSERT (comp <? 0);; mret (Some c)
      end
  end.

Definition GetLastLesser (key : V) : IO (option Z) :=
  c ← Lookup key;
  match c with
  | None => mret None
  | Some c =>
      comp ← compare_key_entry key c;
      c ← (if comp <=? 0 then GetPrev c else mret (Some c));
      match c with
      | None => mret None
      | Some c => comp ← compare_key_entry key c; ASSERT (0 <? comp);; mret (Some c)
      end
  end.

Definition GetFirstGreaterEqual (key : V) : IO (option Z) :=
  c ← Lookup key;
  match c with
  | None => mret None
  | Some c =>
      comp ← compare_key_entry key c;
      c ← (if 0 <? comp then GetNext c else mret (Some c));
      match c with
      | None => mret None
      | Some c => comp ← compare_key_entry key c; ASSERT (comp <=? 0);; mret (Some c)
      end
  end.

Definition GetLastLesserEqual (key : V) : IO (option Z) :=
  c ← Lookup key;
  match c with
  | None => mret None
  | Some c =>
      comp ← compare_key_entry key c;
      c ← (if comp <? 0 then GetPrev c else mret (Some c));
      match c with
      | None => mret None
      | Some c => comp ← compare_key_entry key c; ASSERT (0 <=? comp);; mret (Some c)
      end
  end.

Definition IsEmpty (o : BAVL.t) : bool := negb (bool_decide (is_Some (root o))).

Definition Verify (o : BAVL.t) : bool :=
  match root o with
  | None => true
  | Some r => bool_decide (parent <$> mem o !! r = Some None) && bool_decide (is_Some (verify_recurser (path_fuel o) o r))
  end.

(** ** The routines are those of Bavl.v *)

Context `{Comparator V, !ComparatorOk V} (node_value : Z → V).
Context `{!EntryOrder node_value COMPARE_ENTRIES COMPARE_KEY_ENTRY}.

Local Abbreviation valid_get := (valid_get node_value).
Local Abbreviation valid_plug := (valid_plug node_value).
Local Abbreviation is_right_frame := (is_right_frame node_value).
Local Abbreviation par_in := (par_in node_value).
Local Abbreviation avl_nd := (avl_nd node_value).
Local Abbreviation avl_plug := (avl_plug node_value).

Lemma get_at p x o : mem o !! p = Some x → get p o = Some (x, o, []).
Proof. intros Hp. unfold get, mbind, M_bind, mget, mlift. by rewrite Hp. Qed.

Lemma get_bind {B} p x o (k : BAVLNode → IO B) : mem o !! p = Some x → (y ← get p; k y) o = k x o.
Proof. intros Hp. by apply bind_at, get_at. Qed.

Lemma ASSERT_bind {B} b o (k : unit → IO B) : b = true → (y ← ASSERT b; k y) o = k tt o.
Proof. intros ->. apply bind_at. unfold ASSERT. by rewrite orb_true_r. Qed.

(** Two programs that start alike and go on alike from where they have got to. *)
Lemma bind_alike {A B} (m m' : IO A) (k k' : A → IO B) o :
  m o = m' o → wp m' o (λ a o1 _, k a o1 = k' a o1) → (x ← m; k x) o = (x ← m'; k' x) o.
Proof.
  intros Hm Hk. unfold mbind, M_bind. rewrite Hm. unfold wp in Hk. destruct (m' o) as [[[a o1] es]|]; [|done]. by rewrite Hk.
Qed.

Lemma check_parent_ok o c T p :
  valid o (plug c T) → root_of T = Some p → check_parent (par_of None c) p o = Some (true, o, []).
Proof.
  intros Hv Hp. pose proof (root_inv T p Hp) as (l & b & r & ->). unfold check_parent.
  rewrite (get_bind _ _ _ _ (valid_get _ _ _ _ _ _ _ Hv)), parent_mkn, bool_decide_true by done.
  destruct c as [|[[[s q] b'] sib] c]; cbn [par_of]; [done|].
  destruct (is_right_frame _ _ _ _ _ _ _ _ Hv Hp) as (y & Hy & _ & ->).
  rewrite (get_bind _ _ _ _ Hy). unfold mret, M_ret. do 3 f_equal. destruct s; cbn.
  - rewrite (bool_decide_true (Some p = Some p)) by done. apply orb_true_r.
  - by rewrite bool_decide_true.
Qed.

Lemma checked {B} o c s A p b C (k : unit → IO B) :
  valid o (plug c (nd s A p b C)) → (ok ← check_parent (par_of None c) p; x ← ASSERT ok; k x) o = k tt o.
Proof.
  intros Hv. rewrite (bind_at _ _ _ _ _ (check_parent_ok _ _ _ _ Hv (root_of_nd _ _ _ _ _))).
  by apply ASSERT_bind.
Qed.

Lemma rotate_eq o c s A r b B dir :
  valid o (plug c (nd s A r b B)) → rotate r dir (par_of None c) o = BAVL.rotate r dir o.
Proof.
  intros Hv. pose proof (valid_get _ _ _ _ _ _ _ Hv) as Hr. unfold rotate, BAVL.rotate.
  rewrite (checked _ _ _ _ _ _ _ _ Hv), !(get_bind _ _ _ _ Hr), parent_mkn. done.
Qed.

Lemma parent_redirect p x y : parent (redirect p x y) = parent y.
Proof. unfold redirect. by destruct (is_right p y). Qed.

Lemma replace_subtree_eq o c s A node b B n :
  valid o (plug c (nd s A node b B)) →
  replace_subtree_fix_assoc node n (par_of None c) o = BAVL.replace_subtree node n o.
Proof.
  intros Hv. pose proof (valid_get _ _ _ _ _ _ _ Hv) as Hg. pose proof Hv as (_ & _ & Hc & _)%valid_plug.
  unfold replace_subtree_fix_assoc, BAVL.replace_subtree.
  rewrite (checked _ _ _ _ _ _ _ _ Hv), !(get_bind _ _ _ _ Hg), parent_mkn.
  apply bind_alike; [done|]. apply wp_replace_child.
  { intros q Hq. eapply repc_in; [exact Hc|]. by apply par_in. }
  assert (∃ x, mem (mk (match par_of None c with Some _ => root o | None => n end)
    (alter_if (redirect node n) (par_of None c) (mem o))) !! node = Some x ∧ parent x = par_of None c) as (x & Hx & Hp).
  { cbn [mem]. rewrite lookup_alter_if, Hg. cbn. eexists. split; [done|].
    case_bool_decide; unfold id; rewrite ?parent_redirect; apply parent_mkn. }
  by rewrite (get_bind _ _ _ _ Hx), Hp.
Qed.

Lemma swap_connected_eq o node enode x :
  mem o !! node = Some x → swap_connected node enode (parent x) o = swap_adjacent node enode o.
Proof. intros Hx. unfold swap_connected, swap_adjacent. by rewrite !(get_bind _ _ _ _ Hx). Qed.

Lemma swap_distant_eq o node enode x y :
  mem o !! node = Some x → mem o !! enode = Some y →
  swap_distant node enode (parent x) (parent y) o = BAVL.swap_distant node enode o.
Proof.
  intros Hx Hy. unfold swap_distant, BAVL.swap_distant. by rewrite !(get_bind _ _ _ _ Hx), !(get_bind _ _ _ _ Hy).
Qed.

(** The exchange in [CAvl_Remove]. *)
Lemma swap_for_remove_eq o c L node b R m c2 bm A :
  valid o (plug c (Node L node b R)) → L = plug c2 (nd true Leaf m bm A) →
  swap_for_remove node m (par_of None c) (par_of None (c2 ++ (false, node, b, R) :: c)) o = swap_nodes node m o.
Proof.
  intros Hv HL. change (Node L node b R) with (nd false L node b R) in *.
  assert (valid o (plug (c2 ++ (false, node, b, R) :: c) (nd true Leaf m bm A))) as Hv2.
  { rewrite plug_app, <- HL. done. }
  pose proof (valid_get _ _ _ _ _ _ _ Hv) as Hx. pose proof (valid_get _ _ _ _ _ _ _ Hv2) as Hy.
  assert (par_of None c ≠ Some m) as Hne.
  { pose proof Hv as (_ & _ & Hnd). rewrite plug_nodes, elements_nd_perm, HL, plug_nodes, elements_nd_perm in Hnd.
    intros Hq%par_in. cbn in Hnd. rewrite !NoDup_cons, !elem_of_app in Hnd. set_solver. }
  unfold swap_for_remove, swap_nodes.
  rewrite (checked _ _ _ _ _ _ _ _ Hv), (checked _ _ _ _ _ _ _ _ Hv2).
  rewrite !(get_bind _ _ _ _ Hx), !(get_bind _ _ _ _ Hy), !parent_mkn, !balance_mkn.
  rewrite (bool_decide_false (par_of None c = Some m)) by done.
  unfold mbind at 1, M_bind at 1. unfold mbind at 2, M_bind at 2.
  case_bool_decide as Hp.
  - pose proof (swap_connected_eq _ _ m _ Hx) as Hs. rewrite parent_mkn in Hs. by rewrite Hs.
  - pose proof (swap_distant_eq _ _ m _ _ Hx Hy) as Hs. rewrite !parent_mkn in Hs. by rewrite Hs.
Qed.

Lemma restore_eq o c bs X node b Y :
  valid o (plug c (nd bs X node b Y)) → avl X → avl Y → height X = height Y + 2 →
  restore node bs o = BAVL.restore node bs o.
Proof.
  intros Hv HX HY Hh. pose proof (height_nonneg Y).
  destruct (tree_inv bs X) as (X1 & child & bc & X2 & ->); [lia|].
  rewrite height_nd in Hh. apply avl_nd in HX as (Hbc & Hbr & HX1 & HX2).
  pose proof (valid_get _ _ _ _ _ _ _ Hv) as Hg. rewrite root_of_nd in Hg.
  pose proof (valid_get _ ((bs, node, b, Y) :: c) _ _ _ _ _ Hv) as Hgc.
  unfold restore, BAVL.restore. rewrite !(get_bind _ _ _ _ Hg), link_mkn.
  rewrite !(bind_at (mlift (Some child)) _ child o o) by done. rewrite !(get_bind _ _ _ _ Hgc), parent_mkn.
  assert (∀ (k k' : unit → IO (Z * Z)), k = k' →
    (x ← rotate node (negb bs) (par_of None c); k x) o = (x ← BAVL.rotate node (negb bs); k' x) o) as Hrot.
  { intros k k' ->. unfold mbind, M_bind. by rewrite (rotate_eq o c bs _ _ _ _ _ Hv). }
  destruct (_ =? 1) eqn:E1; [by apply Hrot|]. destruct (_ =? 0) eqn:E2; [by apply Hrot|].
  destruct (_ =? -1) eqn:E3; [|done]. clear Hrot. rewrite balance_mkn in *.
  pose proof (bal_sgn bs (height X1) (height X2)) as Hsg. rewrite <- Hbc in Hsg. fold (sgn bs) in *.
  pose proof (height_nonneg X1). bool_props.
  destruct (tree_inv bs X2) as (G1 & gchild & bg & G2 & ->); [lia|].
  rewrite root_of_nd, link_mkn_other, !(bind_at (mlift (Some gchild)) _ gchild o o) by done.
  apply bind_alike.
  { exact (rotate_eq o ((bs, node, b, Y) :: c) bs _ _ _ _ _ Hv). }
  eapply (rotate_ok node_value _ ((bs, node, b, Y) :: c)); [exact Hv|]. intros o1 Hv1. cbn [plug] in Hv1.
  rewrite (get_bind _ _ _ _ (valid_get _ _ _ _ _ _ _ Hv1)), parent_mkn.
  unfold mbind at 1, M_bind at 1. unfold mbind at 5, M_bind at 5. by rewrite (rotate_eq o1 c bs _ _ _ _ _ Hv1).
Qed.

Lemma rebalance_step_eq o c s T p b sib (deltac : Z) :
  valid o (plug c (nd s T p b sib)) → avl T → avl sib → b = bal s (height T) (height sib) →
  (if b =? 2 then restore p true else if b =? -2 then restore p false else mret (p, 0)) o =
  (if b =? 2 then BAVL.restore p true else if b =? -2 then BAVL.restore p false else mret (p, 0)) o.
Proof.
  intros Hv HT Hs Hb. destruct (b =? 2) eqn:E2; [|destruct (b =? -2) eqn:E3; [|done]]; bool_props; destruct s; cbn in Hb.
  - apply (restore_eq o c true T p b sib); try done; lia.
  - apply (restore_eq o c true sib p b T); try done; lia.
  - apply (restore_eq o c false sib p b T); try done; lia.
  - apply (restore_eq o c false T p b sib); try done; lia.
Qed.

Lemma rebalance_eq fuel o c s T p b sib (deltac : Z) :
  valid o (plug c (nd s T p b sib)) → avl T → avl sib →
  b = bal s (height T - deltac) (height sib) → -1 ≤ b ≤ 1 → -1 ≤ deltac ≤ 1 →
  avlc c (1 + Z.max (height T - deltac) (height sib)) →
  rebalance fuel p s deltac o = BAVL.rebalance fuel p s deltac o.
Proof.
  revert o c s T p b sib deltac. induction fuel as [|fuel IH]; intros o c s T p b sib deltac Hv HT Hs Hb Hbr Hd Hc; [done|].
  pose proof (valid_get _ _ _ _ _ _ _ Hv) as Hg. cbn [rebalance BAVL.rebalance].
  rewrite ASSERT_bind by (apply andb_true_iff; lia). rewrite !(get_bind _ _ _ _ Hg).
  rewrite (ASSERT_bind ((-1 <=? deltac) && _)) by (apply andb_true_iff; lia).
  rewrite balance_mkn, !(ASSERT_bind ((-1 <=? b) && _)) by (apply andb_true_iff; lia).
  destruct (deltac =? 0) eqn:E0; [done|]. bool_props.
  change CAvl_MAX with BAVL_MAX. change CAvl_OPTNEG with BAVL_OPTNEG.
  set (hs := height sib) in *. set (k := height T - deltac) in *.
  assert (BAVL_MAX deltac (BAVL_OPTNEG b s) - BAVL_MAX 0 (BAVL_OPTNEG b s) = Z.max (height T) hs - Z.max k hs) as ->.
  { unfold BAVL_MAX, BAVL_OPTNEG. rewrite Hb. destruct s; cbn; repeat case_match; bool_props; lia. }
  assert (b - BAVL_OPTNEG deltac s = bal s (height T) hs) as ->.
  { rewrite Hb. destruct s; cbn; lia. }
  rewrite !(ASSERT_bind ((-1 <=? Z.max (height T) hs - Z.max k hs) && _)) by (apply andb_true_iff; lia).
  apply bind_alike; [done|]. eapply (update_balance node_value); [exact Hv|]. intros o1 Hv1.
  apply bind_alike; [by eapply (rebalance_step_eq o1 c s T p _ sib deltac)|].
  eapply wp_mono.
  { eapply (rebalance_step node_value o1 c s T p _ sib deltac); try done; [change (-1 ≤ bal s k hs ≤ 1); by rewrite <- Hb|lia]. }
  cbn beta. intros [n d] o2 _ (T' & Hv2 & HT' & Hn & He & Hh & Hdd). cbn [fst snd] in *.
  rewrite !ASSERT_bind by (apply andb_true_iff; lia).
  pose proof (root_inv T' n Hn) as (l & b' & r & ->). pose proof (valid_get _ _ _ _ _ _ _ Hv2) as Hg2.
  rewrite !(get_bind _ _ _ _ Hg2), parent_mkn. destruct c as [|[[[s' p'] b''] sib'] c]; cbn [par_of]; [done|].
  destruct (is_right_frame _ _ _ _ _ _ _ _ Hv2 Hn) as (y & Hy & Hr & _). rewrite !(get_bind _ _ _ _ Hy), Hr.
  cbn in Hc. destruct Hc as (Hb' & Hbr' & Hs' & Hc').
  apply (IH o2 c s' (nd false l n b' r) p' b'' sib'); try done; try lia.
  - rewrite Hb'. f_equal. lia.
  - replace (height (nd false l n b' r) - _) with (1 + Z.max k hs) by lia. done.
Qed.

(** ** Comparisons and searches *)

Lemma compare_entries_at n m o : compare_entries n m o = Some (comparator (node_value n) (node_value m), o, []).
Proof.
  unfold compare_entries. rewrite cmp_entries_value.
  pose proof (cmp_range (node_value n) (node_value m)). by rewrite !ASSERT_bind by lia.
Qed.

Lemma compare_key_at k n o : compare_key_entry k n o = Some (comparator k (node_value n), o, []).
Proof.
  unfold compare_key_entry. rewrite cmp_key_value.
  pose proof (cmp_range k (node_value n)). by rewrite !ASSERT_bind by lia.
Qed.

Lemma compare_values_at v w o : compare_values v w o = Some (comparator v w, o, []).
Proof.
  unfold compare_values. rewrite ASSERT_bind; [done|]. by destruct (cmp_range v w) as [-> | [-> | ->]].
Qed.

Lemma insert_search_eq fuel node c o : insert_search fuel node c o = BAVL.insert_search node_value fuel node c o.
Proof.
  revert c. induction fuel as [|fuel IH]; intros c; [done|]. cbn [insert_search BAVL.insert_search]. unfold compare_nodes.
  rewrite (bind_at _ _ _ _ _ (compare_entries_at node c o)), (bind_at _ _ _ _ _ (compare_values_at _ _ o)).
  destruct (_ =? 0); [done|]. destruct (mem o !! c) as [x|] eqn:Hx.
  - rewrite !(get_bind _ _ _ _ Hx). by destruct (link _ x).
  - unfold mbind, M_bind, get, mbind, M_bind, mget, mlift. by rewrite Hx.
Qed.

(** The two lookups of the code share the search of [BAVL_Lookup]. *)
Lemma lookup_loop_eq fuel exact key c o :
  lookup_loop fuel exact key c o =
  (found ← BAVL.lookup_loop node_value fuel key c; mret (if exact && negb found.2 then None else Some found.1)) o.
Proof.
  revert c. induction fuel as [|fuel IH]; intros c; [done|]. cbn [lookup_loop BAVL.lookup_loop].
  rewrite (bind_at _ _ _ _ _ (compare_key_at key c o)).
  assert (∀ {B} (m : IO (Z * bool)) (k : Z * bool → IO B) (n : IO (Z * bool)), m o = n o → (x ← m; k x) o = (x ← n; k x) o) as Hb.
  { intros B m k n Hm. unfold mbind, M_bind. by rewrite Hm. }
  rewrite (Hb _ _ _ _ (bind_at _ _ _ _ _ (compare_values_at _ _ o))).
  destruct (_ =? 0); [by destruct exact|]. destruct (mem o !! c) as [x|] eqn:Hx.
  - rewrite (Hb _ _ _ _ (get_bind _ _ _ _ Hx)), (get_bind _ _ _ _ Hx). destruct (link _ x); [apply IH|].
    cbn. by destruct exact.
  - unfold mbind, M_bind, get, mbind, M_bind, mget, mlift. by rewrite Hx.
Qed.

Lemma Lookup_eq key o : Lookup key o = BAVL.Lookup node_value key o.
Proof.
  unfold Lookup, BAVL.Lookup. rewrite !(bind_at mget _ o o o) by done. destruct (root o) as [r|]; [|done].
  by rewrite lookup_loop_eq.
Qed.

Lemma LookupExact_eq key o : LookupExact key o = BAVL.LookupExact node_value key o.
Proof.
  unfold LookupExact, BAVL.LookupExact. rewrite !(bind_at mget _ o o o) by done. destruct (root o) as [r|]; [|done].
  rewrite lookup_loop_eq. unfold mbind, M_bind. destruct (BAVL.lookup_loop _ _ _ _ _) as [[[[n b] o'] es]|]; [|done].
  by destruct b.
Qed.

(** ** Insertion and removal *)

Lemma Insert_eq o T node :
  valid o T → avl T → sorted node_value T → node ∉ elements T → Insert node o = BAVL.Insert node_value node o.
Proof.
  intros Hv Ha Hs Hn. pose proof Hv as (Hroot & _). unfold Insert, BAVL.Insert.
  rewrite !(bind_at mget _ o o o) by done. rewrite Hroot.
  destruct T as [|l p b r] eqn:HT; cbn [root_of]; [done|]. rewrite <- HT in *.
  apply bind_alike; [apply insert_search_eq|]. eapply wp_mono.
  { apply (insert_search_ok node_value (path_fuel o) o [] T node p); try done; [by subst T|].
    destruct (path_enough o [] T Hv) as [_ ?]. pose proof (height_nonneg T). lia. }
  cbn beta. intros [q [s|]] ? _ [-> Hf]; cbn [fst snd] in *; [|done].
  destruct Hf as (c & b' & sib & Hplug & Hf). cbn [plug] in Hplug. rewrite Hplug in Hv, Ha, Hn.
  apply bind_alike; [done|]. apply wp_update_node; [by eexists; apply (valid_get _ _ _ _ _ _ _ Hv)|].
  pose proof (insert_leaf_ok node_value o c s q b' sib node Hv Hn) as Hv1.
  set (o1 := mk _ (<[_ := _]> _)) in Hv1. rewrite !(bind_at (mmodify _) _ tt _ o1) by done.
  rewrite !(bind_at mget _ o1 o1 o1) by done.
  apply avl_plug in Ha as [Ha Hc]. rewrite avl_nd, height_nd in *. destruct Ha as (Hb & Hbr & _ & Hsib).
  unfold mbind at 1, M_bind at 1. unfold mbind at 1, M_bind at 1.
  by rewrite (rebalance_eq _ o1 c s _ q b' sib 1) by (done || lia).
Qed.

Lemma unlink_eq fuel o c s A node b :
  valid o (plug c (nd s A node b Leaf)) → avl (plug c (nd s A node b Leaf)) →
  unlink fuel node o = BAVL.unlink fuel node o.
Proof.
  intros Hv Ha. apply avl_plug in Ha as [Ha Hc]. rewrite avl_nd, height_nd in *. destruct Ha as (Hb & Hbr & HA & _).
  pose proof (height_nonneg A). cbn [height] in *. pose proof (valid_get _ _ _ _ _ _ _ Hv) as Hg.
  unfold unlink, BAVL.unlink. rewrite !(get_bind _ _ _ _ Hg), parent_mkn.
  apply bind_alike; [done|]. apply wp_assert.
  { destruct s; cbn; [done|]. apply negb_true_iff, andb_false_iff. right. done. }
  replace (match link0 (mkn s (par_of None c) (root_of A) (root_of Leaf) b) with Some c0 => Some c0
    | None => link1 (mkn s (par_of None c) (root_of A) (root_of Leaf) b) end) with (root_of A)
    by (destruct s; cbn; [done|]; by destruct (root_of A)).
  pose proof (replace_subtree_eq o c s A node b Leaf (root_of A) Hv) as Hrs.
  destruct c as [|[[[s' p] b'] sib] c]; cbn [par_of] in *; [done|].
  destruct (is_right_frame _ _ _ _ node _ _ _ Hv (root_of_nd _ _ _ _ _)) as (y & Hy & Hr & _).
  rewrite !(get_bind _ _ _ _ Hy), Hr. apply bind_alike; [exact Hrs|].
  eapply (replace_subtree_ok node_value); [exact Hv|]. intros o' Hv'. cbn [plug] in Hv'.
  cbn in Hc. destruct Hc as (Hb' & Hbr' & Hsib & Hc). replace (Z.max (height A) 0) with (height A) in * by lia.
  eapply (rebalance_eq _ o' c s' A p b' sib (-1)); try done; try lia.
  - rewrite Hb'. f_equal. lia.
  - replace (height A - -1) with (1 + height A) by lia. done.
Qed.

Lemma root_plug_nd c s A p b B : is_Some (root_of (plug c (nd s A p b B))).
Proof.
  revert s A p b B. induction c as [|[[[s' p'] b'] sib] c IH]; intros s A p b B; cbn [plug]; [rewrite root_of_nd; by eexists|].
  apply IH.
Qed.

Lemma Remove_eq o T node : valid o T → avl T → node ∈ elements T → Remove node o = BAVL.Remove node o.
Proof.
  intros Hv Ha Hn. destruct (zip_side o T node false Hv Hn) as (c & L & b & R & ->).
  destruct (path_enough o c _ Hv) as [_ Hhei]. rewrite height_nd in Hhei.
  pose proof (height_nonneg L). pose proof (height_nonneg R). pose proof (valid_get _ _ _ _ _ _ _ Hv) as Hg.
  unfold Remove, BAVL.Remove. rewrite !(bind_at mget _ o o o) by done.
  rewrite ASSERT_bind.
  2: { apply bool_decide_eq_true. pose proof Hv as (-> & _). apply root_plug_nd. }
  rewrite !(get_bind _ _ _ _ Hg). cbn [link0 link1 mkn].
  destruct L as [|l1 lp lb l2] eqn:HL; cbn [root_of].
  { apply bind_alike; [done|]. apply wp_ret. by apply (unlink_eq _ o c true R node b). }
  destruct R as [|r1 rp rb r2] eqn:HR; cbn [root_of].
  { apply bind_alike; [done|]. apply wp_ret. by apply (unlink_eq _ o c false (Node l1 lp lb l2) node b). }
  rewrite <- HL, <- HR in *.
  assert (wp (subtree_max (path_fuel o) lp) o (λ m o' _, o' = o ∧
    ∃ c2 bm A, L = plug c2 (nd true Leaf m bm A) ∧ Forall (λ f, f.1.1.1 = true) c2)) as Hd.
  { apply (descend_ok node_value (path_fuel o) o ((false, node, b, R) :: c) true L lp); [done|by rewrite HL|]. lia. }
  apply bind_alike.
  - apply bind_alike; [done|]. eapply wp_mono; [exact Hd|]. cbn beta. intros m ? _ (-> & c2 & bm & A & HLp & _).
    assert (valid o (plug (c2 ++ (false, node, b, R) :: c) (nd true Leaf m bm A))) as Hv2.
    { rewrite plug_app, <- HLp. done. }
    rewrite (get_bind _ _ _ _ (valid_get _ _ _ _ _ _ _ Hv2)), parent_mkn. cbn [parent mkn].
    by eapply swap_for_remove_eq.
  - wp_step. eapply wp_mono; [exact Hd|]. cbn beta. intros m ? _ (-> & c2 & bm & A & HLp & _).
    eapply wp_mono; [by apply (swap_down_ok node_value o c L node b R m c2 bm A)|].
    cbn beta. intros _ o1 _ (Hv1 & _ & Ha1). eapply (unlink_eq _ o1 _ false A node bm); [exact Hv1|exact (Ha1 Ha)].
Qed.

(** ** Traversal *)

Lemma GetNext_eq o l node : represents node_value o l → node ∈ l → GetNext node o = BAVL.GetNext node o.
Proof.
  intros Hr Hn. pose proof (represents_IsEmpty node_value o l Hr) as He. rewrite bool_decide_false in He by (intros ->; set_solver).
  unfold BAVL.IsEmpty in He. apply negb_false_iff in He. unfold GetNext, BAVL.GetNext, GetNeighbour.
  by rewrite !(bind_at mget _ o o o), ASSERT_bind by done.
Qed.

Lemma GetPrev_eq o l node : represents node_value o l → node ∈ l → GetPrev node o = BAVL.GetPrev node o.
Proof.
  intros Hr Hn. pose proof (represents_IsEmpty node_value o l Hr) as He. rewrite bool_decide_false in He by (intros ->; set_solver).
  unfold BAVL.IsEmpty in He. apply negb_false_iff in He. unfold GetPrev, BAVL.GetPrev, GetNeighbour.
  by rewrite !(bind_at mget _ o o o), ASSERT_bind by done.
Qed.

Lemma neighbours_at o l n l1 l2 :
  represents node_value o l → l = l1 ++ n :: l2 →
  GetNext n o = Some (head l2, o, []) ∧ GetPrev n o = Some (last l1, o, []).
Proof.
  intros Hr He. rewrite (GetNext_eq o l), (GetPrev_eq o l) by (done || (rewrite He; set_solver)).
  by apply (represents_neighbours node_value o l).
Qed.

Lemma verify_recurser_eq fuel o n : verify_recurser fuel o n = assert_recurser node_value fuel o n.
Proof.
  revert n. induction fuel as [|fuel IH]; intros n; [done|]. cbn [verify_recurser assert_recurser].
  destruct (mem o !! n) as [x|]; [|done]. cbn [mbind option_bind].
  assert (∀ side want, match link side x with
    | None => Some 0
    | Some c => y ← mem o !! c; if bool_decide (parent y = Some n) && (COMPARE_ENTRIES c n =? want)
        then verify_recurser fuel o c else None end = match link side x with
    | None => Some 0
    | Some c => y ← mem o !! c; if bool_decide (parent y = Some n) && (comparator (node_value c) (node_value n) =? want)
        then assert_recurser node_value fuel o c else None end) as Hc.
  { intros side want. destruct (link side x) as [c|]; [|done]. rewrite cmp_entries_value. destruct (mem o !! c); [|done].
    cbn [mbind option_bind]. by rewrite IH. }
  rewrite (Hc false), (Hc true).
  destruct ((-1 <=? balance x) && (balance x <=? 1)); cbn [andb]; [done|].
  do 2 (match goal with |- None = mbind _ ?X => destruct X; cbn [mbind option_bind]; [|done] end). done.
Qed.

Lemma Verify_eq o : Verify o = BAVL.Verify node_value o.
Proof. unfold Verify, BAVL.Verify. destruct (root o) as [r|]; [|done]. by rewrite verify_recurser_eq, andb_comm. Qed.

(** ** The neighbours of a key *)

(** The first and the last entry of the list that compare with the key as asked. *)
Definition first_that (P : Z → bool) (key : V) (l : list Z) : option Z :=
  List.find (λ e, P (comparator key (node_value e))) l.
Definition last_that (P : Z → bool) (key : V) (l : list Z) : option Z := first_that P key (reverse l).

Lemma first_skip P key l1 l2 :
  Forall (λ e, P (comparator key (node_value e)) = false) l1 → first_that P key (l1 ++ l2) = first_that P key l2.
Proof. induction 1 as [|e l1 He _ IH]; [done|]. cbn. rewrite He. exact IH. Qed.

Lemma first_head P key l : Forall (λ e, P (comparator key (node_value e)) = true) l → first_that P key l = head l.
Proof. destruct 1 as [|e l He _]; [done|]. cbn. by rewrite He. Qed.

(** The list around a key: the lesser entries, the equal one, the greater ones. *)
Record around (key : V) (l l1 m l2 : list Z) : Prop := {
  ar_list : l = l1 ++ m ++ l2;
  ar_less : Forall (λ e, comparator key (node_value e) = 1) l1;
  ar_equal : Forall (λ e, comparator key (node_value e) = 0) m;
  ar_greater : Forall (λ e, comparator key (node_value e) = -1) l2
}.

Lemma first_around P key l l1 m l2 :
  around key l l1 m l2 → P 1 = false → P (-1) = true →
  first_that P key l = head ((if P 0 then m else []) ++ l2).
Proof.
  intros [-> Hl Hm Hr] H1 H2. rewrite first_skip by (eapply Forall_impl; [exact Hl|]; by intros e ->).
  destruct (P 0) eqn:H3; cbn [app].
  - apply first_head, Forall_app. split; (eapply Forall_impl; [eassumption|]); by intros e ->.
  - rewrite first_skip by (eapply Forall_impl; [exact Hm|]; by intros e ->).
    apply first_head. eapply Forall_impl; [exact Hr|]. by intros e ->.
Qed.

Lemma last_around P key l l1 m l2 :
  around key l l1 m l2 → P 1 = true → P (-1) = false →
  last_that P key l = last (l1 ++ (if P 0 then m else [])).
Proof.
  intros [-> Hl Hm Hr] H1 H2. unfold last_that. rewrite !reverse_app, <- !app_assoc.
  rewrite first_skip by (apply Forall_reverse; eapply Forall_impl; [exact Hr|]; by intros e ->).
  rewrite <- head_reverse. destruct (P 0) eqn:H3; rewrite ?app_nil_r, ?reverse_app.
  - apply first_head, Forall_app. split; apply Forall_reverse; (eapply Forall_impl; [eassumption|]); by intros e ->.
  - rewrite first_skip by (apply Forall_reverse; eapply Forall_impl; [exact Hm|]; by intros e ->).
    apply first_head, Forall_reverse. eapply Forall_impl; [exact Hl|]. by intros e ->.
Qed.

(** Where [CAvl_Lookup] ends: at the equal entry, or next to the key's place. *)
Definition next_to (n : Z) (l1 m l2 : list Z) : Prop :=
  m = [n] ∨ m = [] ∧ (last l1 = Some n ∨ head l2 = Some n).

Lemma Lookup_around o l key :
  represents node_value o l →
  (l = [] ∧ Lookup key o = Some (None, o, [])) ∨
  ∃ n l1 m l2, Lookup key o = Some (Some n, o, []) ∧ around key l l1 m l2 ∧ next_to n l1 m l2.
Proof.
  intros Hr. pose proof Hr as (T & Hv & _ & Hs & He).
  destruct (run_ret _ _ _ (Lookup_ok node_value o T key Hv Hs)) as (r & o' & Hrun & -> & Hn).
  rewrite Lookup_eq, Hrun. rewrite He in Hn. destruct r as [n|]; [|by left]. right.
  destruct Hn as [Hin [Hc|(l1 & l2 & Hl & Hnb & H1 & H2)]].
  - apply represents_sorted in Hr. apply list_elem_of_split in Hin as (l1 & l2 & ->).
    apply StronglySorted_app in Hr as (Hlr & _ & Hs2). apply StronglySorted_inv in Hs2 as [_ Hgt].
    exists n, l1, [n], l2. split_and!; [done| |by left]. split; [done| |by constructor|].
    + apply Forall_forall. intros e He'. rewrite (cmp_eq _ _ _ Hc). apply gt_lt. apply Hlr; set_solver.
    + rewrite Forall_forall in *. intros e He'. rewrite (cmp_eq _ _ _ Hc). by apply Hgt.
  - exists n, l1, [], l2. split_and!; [done| |by right]. split; [done|done|by constructor|done].
Qed.

Lemma head_cons_inv {A} (l : list A) n : head l = Some n → ∃ l', l = n :: l'.
Proof. destruct l as [|x l]; [done|]. intros [= ->]. by exists l. Qed.

(** The step from the entry that [CAvl_Lookup] found: [skip] tells when to go on
    to the next entry. *)
Lemma step_next o l key n l1 m l2 (skip : bool) :
  represents node_value o l → around key l l1 m l2 → next_to n l1 m l2 →
  let c := comparator key (node_value n) in
  (c = 1 → skip = true) → (c = -1 → skip = false) →
  (if skip then GetNext n else mret (Some n)) o =
    Some (head ((if skip && (c =? 0) then [] else m) ++ l2), o, []).
Proof.
  intros Hr [-> Hl Hm Hg] Hn c Hs1 Hs2. subst c. destruct Hn as [->|[-> [Hn|Hn]]].
  - apply Forall_cons in Hm as [Hm _]. cbn beta in Hm. rewrite Hm. destruct skip; cbn [andb Z.eqb app]; [|done].
    by destruct (neighbours_at o _ n l1 l2 Hr eq_refl).
  - apply last_Some in Hn as [l1' ->]. apply Forall_app in Hl as [_ [Hc _]%Forall_cons]. rewrite Hs1 by done.
    rewrite <- app_assoc in Hr. destruct (neighbours_at o _ n l1' l2 Hr eq_refl) as [-> _]. by destruct (_ && _).
  - apply head_cons_inv in Hn as [l2' ->]. apply Forall_cons in Hg as [Hc _]. cbn beta in Hc. rewrite Hs2 by done. by destruct (_ && _).
Qed.

Lemma step_prev o l key n l1 m l2 (skip : bool) :
  represents node_value o l → around key l l1 m l2 → next_to n l1 m l2 →
  let c := comparator key (node_value n) in
  (c = -1 → skip = true) → (c = 1 → skip = false) →
  (if skip then GetPrev n else mret (Some n)) o =
    Some (last (l1 ++ (if skip && (c =? 0) then [] else m)), o, []).
Proof.
  intros Hr [-> Hl Hm Hg] Hn c Hs1 Hs2. subst c. destruct Hn as [->|[-> [Hn|Hn]]].
  - apply Forall_cons in Hm as [Hm _]. cbn beta in Hm. rewrite Hm. destruct skip; cbn [andb Z.eqb].
    + rewrite app_nil_r. by destruct (neighbours_at o _ n l1 l2 Hr eq_refl).
    + by rewrite last_snoc.
  - apply last_Some in Hn as [l1' ->]. apply Forall_app in Hl as [_ [Hc _]%Forall_cons]. rewrite Hs2 by done. cbn [andb].
    by rewrite app_nil_r, last_snoc.
  - apply head_cons_inv in Hn as [l2' ->]. apply Forall_cons in Hg as [Hc _]. cbn beta in Hc. rewrite Hs1, Hc by done. cbn [andb Z.eqb app] in *.
    rewrite app_nil_r. by destruct (neighbours_at o _ n l1 l2' Hr eq_refl).
Qed.

(** The end of the four operations: the result is checked against the key. *)
Lemma checked_result o key (P : Z → bool) (r : option Z) :
  (∀ n, r = Some n → P (comparator key (node_value n)) = true) →
  match r with
  | None => mret None
  | Some c => comp ← compare_key_entry key c; ASSERT (P comp);; mret (Some c)
  end o = Some (r, o, []).
Proof.
  intros HP. destruct r as [n|]; [|done]. rewrite (bind_at _ _ _ _ _ (compare_key_at key n o)).
  by rewrite ASSERT_bind by (by apply HP).
Qed.

Lemma first_that_true P key l n : first_that P key l = Some n → P (comparator key (node_value n)) = true.
Proof. intros Hf. by apply find_some in Hf as [_ ?]. Qed.

Ltac at_key key Hr :=
  destruct (Lookup_around _ _ key Hr) as [[-> HL]|(n & l1 & m & l2 & HL & Ha & Hn)];
  rewrite (bind_at _ _ _ _ _ HL); [done|rewrite (bind_at _ _ _ _ _ (compare_key_at key _ _))].

Lemma GetFirstGreater_ok o l key :
  represents node_value o l → GetFirstGreater key o = Some (first_that (λ c, c <? 0) key l, o, []).
Proof.
  intros Hr. unfold GetFirstGreater. at_key key Hr.
  erewrite bind_at; [|eapply (step_next o l key n l1 m l2); try done; intros ->; done].
  pose proof (first_around (λ c, c <? 0) key _ _ _ _ Ha eq_refl eq_refl) as Hf. cbn [Z.ltb Z.compare app] in Hf.
  replace (head _) with (first_that (λ c, c <? 0) key l); [apply checked_result, first_that_true|]. rewrite Hf. f_equal.
  destruct (Z.eqb_spec (comparator key (node_value n)) 0) as [E|E]; [by rewrite E|]. rewrite andb_false_r.
  destruct Hn as [->|[-> _]]; [|done]. destruct Ha as [_ _ Hm _]. by apply Forall_cons in Hm as [Hm _].
Qed.

Lemma GetFirstGreaterEqual_ok o l key :
  represents node_value o l → GetFirstGreaterEqual key o = Some (first_that (λ c, c <=? 0) key l, o, []).
Proof.
  intros Hr. unfold GetFirstGreaterEqual. at_key key Hr.
  erewrite bind_at; [|eapply (step_next o l key n l1 m l2); try done; intros ->; done].
  pose proof (first_around (λ c, c <=? 0) key _ _ _ _ Ha eq_refl eq_refl) as Hf. cbn [Z.leb Z.compare] in Hf.
  replace (head _) with (first_that (λ c, c <=? 0) key l); [apply checked_result, first_that_true|]. rewrite Hf. f_equal.
  by destruct (Z.eqb_spec (comparator key (node_value n)) 0) as [->|E]; [|rewrite andb_false_r].
Qed.

Lemma GetLastLesser_ok o l key :
  represents node_value o l → GetLastLesser key o = Some (last_that (λ c, 0 <? c) key l, o, []).
Proof.
  intros Hr. unfold GetLastLesser. at_key key Hr.
  erewrite bind_at; [|eapply (step_prev o l key n l1 m l2); try done; intros ->; done].
  pose proof (last_around (λ c, 0 <? c) key _ _ _ _ Ha eq_refl eq_refl) as Hf. cbn [Z.ltb Z.compare] in Hf.
  replace (last _) with (last_that (λ c, 0 <? c) key l); [apply checked_result, first_that_true|]. rewrite Hf. do 2 f_equal.
  destruct (Z.eqb_spec (comparator key (node_value n)) 0) as [E|E]; [by rewrite E|]. rewrite andb_false_r.
  destruct Hn as [->|[-> _]]; [|done]. destruct Ha as [_ _ Hm _]. by apply Forall_cons in Hm as [Hm _].
Qed.

Lemma GetLastLesserEqual_ok o l key :
  represents node_value o l → GetLastLesserEqual key o = Some (last_that (λ c, 0 <=? c) key l, o, []).
Proof.
  intros Hr. unfold GetLastLesserEqual. at_key key Hr.
  erewrite bind_at; [|eapply (step_prev o l key n l1 m l2); try done; intros ->; done].
  pose proof (last_around (λ c, 0 <=? c) key _ _ _ _ Ha eq_refl eq_refl) as Hf. cbn [Z.leb Z.compare] in Hf.
  replace (last _) with (last_that (λ c, 0 <=? c) key l); [apply checked_result, first_that_true|]. rewrite Hf. do 2 f_equal.
  by destruct (Z.eqb_spec (comparator key (node_value n)) 0) as [->|E]; [|rewrite andb_false_r].
Qed.

(** ** The tree as an ordered list *)

Lemma Insert_represents o l node :
  represents node_value o l → node ∉ l → Insert node o = BAVL.Insert node_value node o.
Proof. intros (T & Hv & Ha & Hs & <-) Hn. by eapply Insert_eq. Qed.

Lemma Remove_represents o l node : represents node_value o l → node ∈ l → Remove node o = BAVL.Remove node o.
Proof. intros (T & Hv & Ha & _ & <-) Hn. by eapply Remove_eq. Qed.

Lemma Remove_list o l node :
  represents node_value o l → node ∈ l →
  ∃ o', Remove node o = Some (tt, o', []) ∧ represents node_value o' (List.filter (λ q, negb (q =? node)) l).
Proof. intros Hr Hn. rewrite (Remove_represents o l node Hr Hn). by apply represents_Remove. Qed.

Lemma ends_list o l :
  represents node_value o l → GetFirst o = Some (head l, o, []) ∧ GetLast o = Some (last l, o, []).
Proof. exact (represents_ends node_value o l). Qed.

(** C36: the generic AVL tree is an ordered list of its entries: with any total
    order behind its two comparison functions, insertion finds the equal entry or
    puts the new one in its place, removal takes exactly the entry out, the
    lookups find the entry equal to a key or the nearest one on the side asked
    for, and the ends and neighbours are those of the list.  The parents handed
    from routine to routine are always right, no assertion fails, no null or
    dangling link is followed and no loop runs on; the result always passes
    [CAvl_Verify]. *)
Theorem cavl_refines_list o l :
  represents node_value o l →
  (∀ node, node ∉ l → ∃ r o', Insert node o = Some (r, o', []) ∧
     match list_insert node_value node l with
     | inl e => r = (false, Some e) ∧ o' = o
     | inr l' => r.1 = true ∧ represents node_value o' l'
     end) ∧
  (∀ node, node ∈ l → ∃ o', Remove node o = Some (tt, o', []) ∧
     represents node_value o' (List.filter (λ q, negb (q =? node)) l)) ∧
  (∀ key, LookupExact key o = Some (first_that (λ c, c =? 0) key l, o, []) ∧
     GetFirstGreater key o = Some (first_that (λ c, c <? 0) key l, o, []) ∧
     GetFirstGreaterEqual key o = Some (first_that (λ c, c <=? 0) key l, o, []) ∧
     GetLastLesser key o = Some (last_that (λ c, 0 <? c) key l, o, []) ∧
     GetLastLesserEqual key o = Some (last_that (λ c, 0 <=? c) key l, o, [])) ∧
  GetFirst o = Some (head l, o, []) ∧ GetLast o = Some (last l, o, []) ∧
  (∀ n l1 l2, l = l1 ++ n :: l2 →
     GetNext n o = Some (head l2, o, []) ∧ GetPrev n o = Some (last l1, o, [])) ∧
  IsEmpty o = bool_decide (l = []) ∧ Verify o = true.
Proof.
  intros Hr. split_and!.
  - intros node Hn. rewrite (Insert_represents o l node Hr Hn).
    destruct (represents_Insert node_value o l node Hr Hn) as (r & o' & Hrun & Hi). exists r, o'. split; [done|].
    destruct (list_insert node_value node l); [done|]. by destruct Hi as (? & ? & _).
  - intros node Hn. by apply Remove_list.
  - intros key. split_and!; [|by apply GetFirstGreater_ok|by apply GetFirstGreaterEqual_ok|by apply GetLastLesser_ok|by apply GetLastLesserEqual_ok].
    rewrite LookupExact_eq. by apply represents_LookupExact.
  - by apply ends_list.
  - by apply ends_list.
  - intros n l1 l2 He. by apply (neighbours_at o l).
  - by apply (represents_IsEmpty node_value).
  - rewrite Verify_eq. destruct Hr as (T & ? & ? & ? & _). by eapply Verify_ok.
Qed.

End cavl.
End CAvl.

(** ** [SAvl]: structure/SAvl_impl.h, the tree with the entries' own links

    The entries and the references of the tree are the same addresses. *)
Module SAvl.
Section savl.
Context `{Build} {V : Type} (COMPARE_ENTRIES : Z → Z → Z) (COMPARE_KEY_ENTRY : V → Z → Z).
Abbreviation IO := (M BAVL.t False).

Definition Init : BAVL.t := CAvl.Init.
(** The result and [*out_existing], the reference [CAvl_Insert] returns. *)
Definition Insert (entry : Z) : IO (bool * option Z) := CAvl.Insert COMPARE_ENTRIES entry.
Definition Remove (entry : Z) : IO unit := CAvl.Remove entry.
Definition Lookup (key : V) : IO (option Z) := CAvl.Lookup COMPARE_KEY_ENTRY key.
Definition LookupExact (key : V) : IO (option Z) := CAvl.LookupExact COMPARE_KEY_ENTRY key.
Definition GetFirstGreater (key : V) : IO (option Z) := CAvl.GetFirstGreater COMPARE_KEY_ENTRY key.
Definition GetLastLesser (key : V) : IO (option Z) := CAvl.GetLastLesser COMPARE_KEY_ENTRY key.
Definition GetFirstGreaterEqual (key : V) : IO (option Z) := CAvl.GetFirstGreaterEqual COMPARE_KEY_ENTRY key.
Definition GetLastLesserEqual (key : V) : IO (option Z) := CAvl.GetLastLesserEqual COMPARE_KEY_ENTRY key.
Definition GetFirst : IO (option Z) := CAvl.GetFirst.
Definition GetLast : IO (option Z) := CAvl.GetLast.
Definition GetNext (entry : Z) : IO (option Z) := CAvl.GetNext entry.
Definition GetPrev (entry : Z) : IO (option Z) := CAvl.GetPrev entry.
Definition IsEmpty (o : BAVL.t) : bool := CAvl.IsEmpty o.
Definition Verify (o : BAVL.t) : bool := CAvl.Verify COMPARE_ENTRIES o.
End savl.
End SAvl.

(** ** Examples *)

Section cavl_examples.
Import BAVL.
#[local] Instance cavl_build : Build := false.
#[local] Instance cavl_Z_cmp : Comparator Z := B_COMPARE.

#[local] Instance cavl_Z_ok : ComparatorOk Z.
Proof.
  split; unfold comparator, cavl_Z_cmp; intros; repeat match goal with
  | |- context [B_COMPARE ?a ?b] => pose proof (B_COMPARE_spec a b); generalize dependent (B_COMPARE a b); intros
  | _ : context [B_COMPARE ?a ?b] |- _ => pose proof (B_COMPARE_spec a b); generalize dependent (B_COMPARE a b); intros
  end; lia.
Qed.

#[local] Instance cavl_order : EntryOrder id B_COMPARE B_COMPARE.
Proof. by split. Qed.

(** Entries inserted one by one. *)
Fixpoint cavl_insert_all (l : list Z) (o : t) : option t :=
  match l with
  | [] => Some o
  | n :: l => '(_, o, _) ← CAvl.Insert B_COMPARE n o; cavl_insert_all l o
  end.

Lemma cavl_example_represents l :
  NoDup l → ∃ o l', cavl_insert_all l CAvl.Init = Some o ∧ represents id o l' ∧ l' ≡ₚ l.
Proof.
  intros Hnd. rewrite <- (app_nil_r l) in Hnd.
  assert (∀ l o l0, represents id o l0 → NoDup (l ++ l0) →
    ∃ o' l', cavl_insert_all l o = Some o' ∧ represents id o' l' ∧ l' ≡ₚ l ++ l0) as Hall.
  { clear. induction l as [|n l IH]; intros o l0 Hr Hnd; [by exists o, l0|]. cbn in *. apply NoDup_cons in Hnd as [Hn Hnd].
    assert (n ∉ l0) as Hn0 by set_solver. rewrite (CAvl.Insert_represents B_COMPARE B_COMPARE id o l0 n Hr Hn0).
    destruct (represents_Insert id o l0 n Hr Hn0) as (r & o1 & Hrun & Hi). rewrite Hrun. cbn.
    pose proof (list_insert_perm id n l0) as Hli. destruct (list_insert id n l0) as [e|l1].
    - exfalso. destruct Hli as [He Hc]. unfold comparator, cavl_Z_cmp in Hc. pose proof (B_COMPARE_spec n e). cbn in Hc.
      assert (e = n) by lia. by subst.
    - destruct Hi as (_ & Hr1 & _). destruct (IH o1 l1 Hr1) as (o' & l' & Ho' & Hr' & Hp).
      + rewrite Hli, <- Permutation_middle. by constructor.
      + exists o', l'. split_and!; [done|done|]. by rewrite Hp, Hli, <- Permutation_middle. }
  destruct (Hall l CAvl.Init [] (represents_Init id) Hnd) as (o' & l' & Ho & Hr & Hp).
  exists o', l'. rewrite app_nil_r in Hp. done.
Qed.

Lemma cavl_refines_list_witness :
  ∃ o o' l, cavl_insert_all [4; 2; 6; 1; 3; 5; 7; 8; 9; 10] CAvl.Init = Some o ∧
    CAvl.GetFirstGreater B_COMPARE 4 o = Some (Some 5, o, []) ∧
    CAvl.Remove 4 o = Some (tt, o', []) ∧ represents id o' l ∧ CAvl.Verify B_COMPARE o' = true.
Proof.
  destruct (cavl_example_represents [4; 2; 6; 1; 3; 5; 7; 8; 9; 10]) as (o & l & Ho & Hl & Hp).
  { apply (bool_decide_unpack _). vm_compute. exact I. }
  destruct (CAvl.cavl_refines_list B_COMPARE B_COMPARE id o l Hl) as (_ & Hrem & _).
  destruct (Hrem 4) as (o' & Hrun & Hr'); [rewrite Hp; constructor|].
  exists o, o', (List.filter (λ q, negb (q =? 4)) l). split_and!; [exact Ho| |exact Hrun|exact Hr'|].
  - vm_compute in Ho. injection Ho as <-. vm_compute. reflexivity.
  - by destruct (CAvl.cavl_refines_list B_COMPARE B_COMPARE id o' _ Hr') as (_ & _ & _ & _ & _ & _ & _ & Hver).
Defined.
End cavl_examples.
