(* ===== verification/LinkedLists.v ===== *)
(** * LinkedLists: doubly linked lists

    Models structure/LinkedList1.h, the lists in which tun2socks keeps its TCP
    clients, the gateway its clients and connections, the UDP gateway client its
    connections, the fair queue its flows and the reactor its expired timers and
    limits.  The nodes live in one memory, which several lists may share; the
    operations follow and change the pointers as the code does.  [None] is an
    access through a null or dangling pointer. *)
From S2P Require Import Prelude.

Module LinkedList1.

Record LinkedList1Node := mk_node { p : option Z; n : option Z }.

(** A [LinkedList1], and the nodes in memory. *)
Record t := mk { first : option Z; last : option Z; mem : gmap Z LinkedList1Node }.

Abbreviation IO := (M t False).

Definition set_p (q : option Z) (x : LinkedList1Node) : LinkedList1Node := mk_node q (n x).
Definition set_n (q : option Z) (x : LinkedList1Node) : LinkedList1Node := mk_node (p x) q.

Definition set_first (q : option Z) : IO unit := mmodify (λ o, mk q (last o) (mem o)).
Definition set_last (q : option Z) : IO unit := mmodify (λ o, mk (first o) q (mem o)).
Definition get (a : Z) : IO LinkedList1Node := o ← mget; mlift (mem o !! a).
Definition update (a : Z) (f : LinkedList1Node → LinkedList1Node) : IO unit :=
  _ ← get a; mmodify (λ o, mk (first o) (last o) (alter f a (mem o))).
(** Both fields of an uninitialised node. *)
Definition init_node (a : Z) (x : LinkedList1Node) : IO unit := mmodify (λ o, mk (first o) (last o) (<[a := x]> (mem o))).

(** ** Operations *)

Definition Init (h : gmap Z LinkedList1Node) : t := mk None None h.

Definition IsEmpty (o : t) : bool := negb (bool_decide (is_Some (first o))).
Definition GetFirst (o : t) : option Z := first o.
Definition GetLast (o : t) : option Z := last o.

Definition Prepend (node : Z) : IO unit :=
  o ← mget;
  init_node node (mk_node None (first o));;
  (match first o with Some f => update f (set_p (Some node)) | None => set_last (Some node) end);;
  set_first (Some node).

Definition Append (node : Z) : IO unit :=
  o ← mget;
  init_node node (mk_node (last o) None);;
  (match last o with Some l => update l (set_n (Some node)) | None => set_first (Some node) end);;
  set_last (Some node).

Definition InsertBefore (node target : Z) : IO unit :=
  x ← get target;
  init_node node (mk_node (p x) (Some target));;
  (match p x with Some q => update q (set_n (Some node)) | None => set_first (Some node) end);;
  update target (set_p (Some node)).

Definition InsertAfter (node target : Z) : IO unit :=
  x ← get target;
  init_node node (mk_node (Some target) (n x));;
  (match n x with Some q => update q (set_p (Some node)) | None => set_last (Some node) end);;
  update target (set_n (Some node)).

Definition Remove (node : Z) : IO unit :=
  x ← get node;
  (match p x with Some q => update q (set_n (n x)) | None => set_first (n x) end);;
  (match n x with Some q => update q (set_p (p x)) | None => set_last (p x) end).

(** [ins_list], passed by value: its ends. *)
Definition InsertListAfter (ins_first ins_last target : option Z) : IO unit :=
  match ins_first with
  | None => mret tt
  | Some f =>
      l ← mlift ins_last;
      t_next ← (match target with Some a => x ← get a; mret (n x) | None => gets first end);
      update f (set_p target);;
      update l (set_n t_next);;
      (match target with Some a => update a (set_n (Some f)) | None => set_first (Some f) end);;
      (match t_next with Some a => update a (set_p (Some l)) | None => set_last (Some l) end)
  end.

Definition Node_Next (a : Z) : IO (option Z) := x ← get a; mret (n x).
Definition Node_Prev (a : Z) : IO (option Z) := x ← get a; mret (p x).

(** ** Chains of nodes *)

Definition first_or (l : list Z) (q : option Z) : option Z := match l with [] => q | a :: _ => Some a end.
Definition last_or (l : list Z) (q : option Z) : option Z := match list.last l with Some a => Some a | None => q end.

(** The nodes of [l] point at each other in both directions; [pre] is before the
    first and [nxt] after the last. *)
Fixpoint chain (h : gmap Z LinkedList1Node) (pre : option Z) (l : list Z) (nxt : option Z) : Prop :=
  match l with
  | [] => True
  | a :: l => h !! a = Some (mk_node pre (first_or l nxt)) ∧ chain h (Some a) l nxt
  end.

Lemma first_or_app l1 l2 q : first_or (l1 ++ l2) q = first_or l1 (first_or l2 q).
Proof. by destruct l1. Qed.

Lemma last_or_cons a l q : last_or (a :: l) q = last_or l (Some a).
Proof. unfold last_or. rewrite last_cons. by destruct (list.last l). Qed.

Lemma last_or_app l1 l2 q : last_or (l1 ++ l2) q = last_or l2 (last_or l1 q).
Proof. unfold last_or. rewrite last_app. by destruct (list.last l2). Qed.

Lemma chain_app h pre l1 l2 nxt :
  chain h pre (l1 ++ l2) nxt ↔ chain h pre l1 (first_or l2 nxt) ∧ chain h (last_or l1 pre) l2 nxt.
Proof.
  revert pre. induction l1 as [|a l1 IH]; intros pre; cbn; [naive_solver|].
  rewrite IH, first_or_app, last_or_cons. naive_solver.
Qed.

Lemma chain_frame h h' pre l nxt :
  chain h pre l nxt → (∀ a, a ∈ l → h' !! a = h !! a) → chain h' pre l nxt.
Proof.
  revert pre. induction l as [|a l IH]; intros pre; cbn; [done|]. intros [Ha Hl] Hf.
  split; [rewrite Hf by set_solver; done|]. apply IH; [done|]. set_solver.
Qed.

Lemma chain_in h pre l nxt a : chain h pre l nxt → a ∈ l → is_Some (h !! a).
Proof.
  revert pre. induction l as [|b l IH]; intros pre; cbn; [set_solver|].
  intros [Hb Hl] [->|Ha]%elem_of_cons; [eauto|]. by eapply IH.
Qed.

(** The node at an end of the chain gets another neighbour there. *)
Definition relink_n (l : list Z) (q : option Z) (h : gmap Z LinkedList1Node) : gmap Z LinkedList1Node :=
  match list.last l with Some a => alter (set_n q) a h | None => h end.
Definition relink_p (l : list Z) (q : option Z) (h : gmap Z LinkedList1Node) : gmap Z LinkedList1Node :=
  match head l with Some a => alter (set_p q) a h | None => h end.

Lemma relink_n_other l q h a : a ∉ l → relink_n l q h !! a = h !! a.
Proof.
  unfold relink_n. destruct (list.last l) as [b|] eqn:Hb; [|done]. intros Ha. apply lookup_alter_ne.
  intros ->. apply Ha. apply last_Some in Hb as [l' ->]. set_solver.
Qed.

Lemma relink_p_other l q h a : a ∉ l → relink_p l q h !! a = h !! a.
Proof. unfold relink_p. destruct l as [|b l]; cbn; [done|]. intros Ha. apply lookup_alter_ne. set_solver. Qed.

Lemma chain_relink_n h pre l nxt nxt' :
  NoDup l → chain h pre l nxt → chain (relink_n l nxt' h) pre l nxt'.
Proof.
  intros Hnd Hc. unfold relink_n. destruct (list.last l) as [a|] eqn:Ha; [|by apply last_None in Ha as ->].
  apply last_Some in Ha as [l' ->]. apply chain_app in Hc as [Hl [Ha _]]. apply NoDup_app in Hnd as (_ & Hd & _).
  apply chain_app. split.
  - eapply chain_frame; [exact Hl|]. intros b Hb. apply lookup_alter_ne. intros ->. apply (Hd _ Hb). set_solver.
  - cbn in *. split; [|done]. rewrite lookup_alter_eq, Ha. done.
Qed.

Lemma chain_relink_p h pre pre' l nxt :
  NoDup l → chain h pre l nxt → chain (relink_p l pre' h) pre' l nxt.
Proof.
  intros Hnd Hc. unfold relink_p. destruct l as [|a l]; cbn in *; [done|]. destruct Hc as [Ha Hl].
  apply NoDup_cons in Hnd as [Hn _]. split; [by rewrite lookup_alter_eq, Ha|].
  eapply chain_frame; [exact Hl|]. intros b Hb. apply lookup_alter_ne. by intros ->.
Qed.

(** ** Joining chains *)

(** [l1] and [l2] are made to meet. *)
Definition join (l1 l2 : list Z) (h : gmap Z LinkedList1Node) : gmap Z LinkedList1Node :=
  relink_p l2 (last_or l1 None) (relink_n l1 (first_or l2 None) h).

Lemma chain_join h l1 l2 nxt pre :
  NoDup (l1 ++ l2) → chain h None l1 nxt → chain h pre l2 None → chain (join l1 l2 h) None (l1 ++ l2) None.
Proof.
  intros Hnd H1 H2. apply NoDup_app in Hnd as (Hn1 & Hd & Hn2). unfold join. apply chain_app. split.
  - eapply chain_frame; [by eapply chain_relink_n|]. intros a Ha. apply relink_p_other. by apply Hd.
  - eapply chain_relink_p; [done|]. eapply chain_frame; [exact H2|]. intros a Ha. apply relink_n_other.
    intros Ha'. by apply (Hd a).
Qed.

Lemma join_other l1 l2 h a : a ∉ l1 ++ l2 → join l1 l2 h !! a = h !! a.
Proof. intros Ha. unfold join. by rewrite relink_p_other, relink_n_other by set_solver. Qed.

(** ** The list *)

Definition linked (o : t) (l : list Z) : Prop :=
  NoDup l ∧ chain (mem o) None l None ∧ first o = head l ∧ last o = list.last l.

(** An operation that leaves the list [l]; only nodes of [l] are written, so that
    other lists in the same memory are as they were. *)
Definition leaves (o : t) (r : option (unit * t * list False)) (l : list Z) : Prop :=
  ∃ o', r = Some (tt, o', []) ∧ linked o' l ∧ ∀ a, a ∉ l → mem o' !! a = mem o !! a.

Lemma update_at a f o :
  is_Some (mem o !! a) → update a f o = Some (tt, mk (first o) (last o) (alter f a (mem o)), []).
Proof. intros [x Hx]. unfold update, get, mbind, M_bind, mget, mlift. by rewrite Hx. Qed.

Lemma list_get_at a x o : mem o !! a = Some x → get a o = Some (x, o, []).
Proof. intros Hx. unfold get, mbind, M_bind, mget, mlift. by rewrite Hx. Qed.

Lemma chain_at h l1 a l2 :
  chain h None (l1 ++ a :: l2) None → h !! a = Some (mk_node (list.last l1) (head l2)).
Proof.
  intros [_ [Ha _]]%chain_app. rewrite Ha. unfold last_or, first_or. by destruct (list.last l1), l2.
Qed.

(** The neighbours of a gap between [l1] and [l2] are changed one after the
    other, in either order. *)
Lemma set_left l1 q o (k : unit → IO unit) :
  (∀ a, a ∈ l1 → is_Some (mem o !! a)) →
  (x ← match list.last l1 with Some a => update a (set_n q) | None => set_first q end; k x) o =
  k tt (mk (match l1 with [] => q | _ => first o end) (last o) (relink_n l1 q (mem o))).
Proof.
  intros Hin. unfold relink_n. destruct (list.last l1) as [a|] eqn:Ha.
  - apply last_Some in Ha as [l' ->]. erewrite bind_at; [|apply update_at, Hin; set_solver]. by destruct l'.
  - apply last_None in Ha as ->. by apply bind_at.
Qed.

Lemma set_right_at l2 q o :
  (∀ a, a ∈ l2 → is_Some (mem o !! a)) →
  (match head l2 with Some a => update a (set_p q) | None => set_last q end) o =
  Some (tt, mk (first o) (match l2 with [] => q | _ => last o end) (relink_p l2 q (mem o)), []).
Proof.
  intros Hin. unfold relink_p. destruct l2 as [|a l2]; cbn [head]; [done|]. apply update_at, Hin. set_solver.
Qed.

Lemma set_right l2 q o (k : unit → IO unit) :
  (∀ a, a ∈ l2 → is_Some (mem o !! a)) →
  (x ← match head l2 with Some a => update a (set_p q) | None => set_last q end; k x) o =
  k tt (mk (first o) (match l2 with [] => q | _ => last o end) (relink_p l2 q (mem o))).
Proof. intros Hin. by apply bind_at, set_right_at. Qed.

Lemma relink_comm l1 l2 q r h : relink_n l1 q (relink_p l2 r h) = relink_p l2 r (relink_n l1 q h).
Proof.
  unfold relink_n, relink_p. destruct (list.last l1) as [a|], (head l2) as [b|]; try done.
  apply map_eq. intros c. destruct (decide (c = a)) as [->|Ha], (decide (a = b)) as [<-|Hb];
    rewrite ?lookup_alter_eq, ?lookup_alter_ne, ?lookup_alter_eq by done; try done.
  - by destruct (h !! a).
  - destruct (decide (c = b)) as [->|Hc]; [by rewrite !lookup_alter_eq, lookup_alter_ne|].
    by rewrite !lookup_alter_ne.
Qed.

(** A new node between [l1] and [l2]. *)
Definition spliced (o : t) (l1 : list Z) (node : Z) (l2 : list Z) : t :=
  mk (head (l1 ++ node :: l2)) (list.last (l1 ++ node :: l2))
    (relink_p l2 (Some node) (relink_n l1 (Some node) (<[node := mk_node (list.last l1) (head l2)]> (mem o)))).

Lemma spliced_ok o l1 node l2 :
  linked o (l1 ++ l2) → node ∉ l1 ++ l2 → leaves o (Some (tt, spliced o l1 node l2, [])) (l1 ++ node :: l2).
Proof.
  intros (Hnd & Hc & _ & _) Hn. eexists. split; [done|]. apply chain_app in Hc as [H1 H2].
  pose proof Hnd as (Hn1 & Hd & Hn2)%NoDup_app. split.
  - split_and!; cbn; try done.
    + rewrite <- Permutation_middle. by constructor.
    + apply chain_app. split.
      * apply (chain_frame (relink_n l1 (Some node) (<[node := mk_node (list.last l1) (head l2)]> (mem o)))).
        { eapply chain_relink_n; [done|]. eapply chain_frame; [exact H1|]. intros a Ha. rewrite lookup_insert_ne by (intros ->; set_solver). done. }
        intros a Ha. apply relink_p_other. by apply Hd.
      * cbn. split.
        -- rewrite relink_p_other, relink_n_other, lookup_insert_eq by set_solver.
           unfold last_or, first_or. by destruct (list.last l1), l2.
        -- eapply chain_relink_p; [done|]. eapply chain_frame; [exact H2|]. intros a Ha.
           rewrite relink_n_other by (intros Ha'; by apply (Hd a)). rewrite lookup_insert_ne by (intros ->; set_solver). done.
  - cbn. intros a Ha. rewrite relink_p_other, relink_n_other, lookup_insert_ne by set_solver. done.
Qed.

Lemma leaves_spliced o l1 node l2 f la h :
  linked o (l1 ++ l2) → node ∉ l1 ++ l2 → f = head (l1 ++ node :: l2) → la = list.last (l1 ++ node :: l2) →
  h = relink_p l2 (Some node) (relink_n l1 (Some node) (<[node := mk_node (list.last l1) (head l2)]> (mem o))) →
  leaves o (Some (tt, mk f la h, [])) (l1 ++ node :: l2).
Proof. intros Hl Hn -> -> ->. by apply spliced_ok. Qed.

Lemma linked_in o l a x b : linked o l → b ∈ l → is_Some (<[a := x]> (mem o) !! b).
Proof.
  intros (_ & Hc & _) Hb. destruct (chain_in _ _ _ _ _ Hc Hb) as [y Hy].
  destruct (decide (a = b)) as [->|Hne]; [rewrite lookup_insert_eq|rewrite lookup_insert_ne by done]; eauto.
Qed.

Lemma Prepend_ok o l node : linked o l → node ∉ l → leaves o (Prepend node o) (node :: l).
Proof.
  intros Hl Hn. unfold Prepend.
  rewrite (bind_at mget _ o o o), (bind_at (init_node _ _) _ tt _ _ eq_refl) by done.
  pose proof Hl as (_ & _ & Hf & Hla). rewrite Hf.
  rewrite (set_right l (Some node)) by (intros a Ha; by eapply linked_in). cbn [mem first last].
  apply (leaves_spliced o [] node l); try done. destruct l as [|b l]; [done|]. by rewrite Hla.
Qed.

Lemma Append_ok o l node : linked o l → node ∉ l → leaves o (Append node o) (l ++ [node]).
Proof.
  intros Hl Hn. unfold Append.
  rewrite (bind_at mget _ o o o), (bind_at (init_node _ _) _ tt _ _ eq_refl) by done.
  pose proof Hl as (_ & _ & Hf & Hla). rewrite Hla.
  rewrite (set_left l (Some node)) by (intros a Ha; by eapply linked_in). cbn [mem first last].
  apply (leaves_spliced o l node []); rewrite ?app_nil_r; try done; [|by rewrite last_snoc].
  destruct l as [|b l]; [done|]. by rewrite Hf.
Qed.

Lemma InsertBefore_ok o l1 target l2 node :
  linked o (l1 ++ target :: l2) → node ∉ l1 ++ target :: l2 →
  leaves o (InsertBefore node target o) (l1 ++ node :: target :: l2).
Proof.
  intros Hl Hn. unfold InsertBefore.
  pose proof Hl as (_ & Hc & Hf & Hla). rewrite (bind_at _ _ _ _ _ (list_get_at _ _ _ (chain_at _ _ _ _ Hc))).
  rewrite (bind_at (init_node _ _) _ tt _ _ eq_refl). cbn [p].
  rewrite (set_left l1 (Some node)) by (intros a Ha; eapply linked_in; [done|set_solver]). cbn [mem first last].
  rewrite update_at.
  2: { cbn [mem]. rewrite relink_n_other; [eapply linked_in; [done|set_solver]|]. pose proof Hl as (Hnd & _).
       apply NoDup_app in Hnd as (_ & Hd & _). intros Ht. apply (Hd target Ht). set_solver. }
  apply (leaves_spliced o l1 node (target :: l2)); try done.
  - rewrite Hf. by destruct l1.
  - rewrite Hla, !last_app, !last_cons. by destruct (list.last l2).
Qed.

Lemma InsertAfter_ok o l1 target l2 node :
  linked o (l1 ++ target :: l2) → node ∉ l1 ++ target :: l2 →
  leaves o (InsertAfter node target o) (l1 ++ target :: node :: l2).
Proof.
  intros Hl Hn.
  unfold InsertAfter.
  pose proof Hl as (_ & Hc & Hf & Hla). rewrite (bind_at _ _ _ _ _ (list_get_at _ _ _ (chain_at _ _ _ _ Hc))).
  rewrite (bind_at (init_node _ _) _ tt _ _ eq_refl). cbn [n].
  rewrite (set_right l2 (Some node)) by (intros a Ha; eapply linked_in; [done|set_solver]). cbn [mem first last].
  rewrite update_at.
  2: { cbn [mem]. rewrite relink_p_other; [eapply linked_in; [done|set_solver]|]. pose proof Hl as (Hnd & _).
       apply NoDup_app in Hnd as (_ & _ & Hnd). by apply NoDup_cons in Hnd as [? _]. }
  replace (l1 ++ target :: node :: l2) with ((l1 ++ [target]) ++ node :: l2) by (by rewrite <- app_assoc).
  apply (leaves_spliced o (l1 ++ [target]) node l2); rewrite <- ?app_assoc; try done.
  - rewrite Hf. by destruct l1.
  - rewrite Hla, !last_app, !last_cons. destruct l2 as [|b l2]; [done|]. rewrite last_cons. by destruct (list.last l2).
  - rewrite <- relink_comm. unfold relink_n. by rewrite last_snoc.
Qed.

Lemma relink_n_in l q h a : is_Some (h !! a) → is_Some (relink_n l q h !! a).
Proof. unfold relink_n. destruct (list.last l); [|done]. rewrite <- !elem_of_dom. by rewrite dom_alter_L. Qed.
Lemma relink_p_in l q h a : is_Some (h !! a) → is_Some (relink_p l q h !! a).
Proof. unfold relink_p. destruct (head l); [|done]. rewrite <- !elem_of_dom. by rewrite dom_alter_L. Qed.

Lemma list_remove_ok o l1 node l2 :
  linked o (l1 ++ node :: l2) → leaves o (Remove node o) (l1 ++ l2).
Proof.
  intros (Hnd & Hc & Hf & Hla). unfold Remove.
  rewrite (bind_at _ _ _ _ _ (list_get_at _ _ _ (chain_at _ _ _ _ Hc))). cbn [p n].
  assert (∀ a, a ∈ l1 ++ node :: l2 → is_Some (mem o !! a)) as Hin by (intros a; by eapply chain_in).
  rewrite (set_left l1) by (intros a Ha; apply Hin; set_solver).
  rewrite set_right_at by (intros a Ha; cbn; apply relink_n_in, Hin; set_solver).
  pose proof Hc as [H1 [_ H2]]%chain_app. pose proof Hnd as (Hn1 & Hd & [Hnn Hn2]%NoDup_cons)%NoDup_app.
  assert (NoDup (l1 ++ l2)) as Hnd' by (apply NoDup_app; split_and!; [done|set_solver|done]).
  eexists. split; [done|]. split; [split_and!|]; cbn; [done| | | |].
  - replace (list.last l1) with (last_or l1 None) by (unfold last_or; by destruct (list.last l1)).
    replace (head l2) with (first_or l2 None) by (by destruct l2). by eapply chain_join.
  - rewrite Hf. by destruct l1.
  - rewrite Hla, !last_app, last_cons. destruct l2 as [|b l2]; [cbn|rewrite last_cons; by destruct (list.last l2)].
    by destruct (list.last l1).
  - intros a Ha. rewrite relink_p_other, relink_n_other by set_solver. done.
Qed.

Lemma InsertListAfter_ok o l1 ins l2 :
  linked o (l1 ++ l2) → chain (mem o) None ins None → NoDup (l1 ++ ins ++ l2) →
  leaves o (InsertListAfter (head ins) (list.last ins) (list.last l1) o) (l1 ++ ins ++ l2).
Proof.
  intros Hl Hi Hnd. pose proof Hl as (_ & Hc & Hf & Hla). unfold InsertListAfter.
  destruct (head ins) as [f|] eqn:Hh; [|destruct ins; [by exists o|done]].
  destruct (list.last ins) as [la|] eqn:Hlast; [|apply last_None in Hlast; by subst].
  rewrite (bind_at (mlift (Some la)) _ la o o) by done.
  assert ((match list.last l1 with Some a => x ← get a; mret (n x) | None => gets first end) o = Some (head l2, o, [])) as Htn.
  { destruct (list.last l1) as [a|] eqn:Ha.
    - apply last_Some in Ha as [l1' ->]. rewrite <- app_assoc in Hc.
      by rewrite (bind_at _ _ _ _ _ (list_get_at _ _ _ (chain_at _ _ _ _ Hc))).
    - apply last_None in Ha as ->. unfold gets. by rewrite Hf. }
  rewrite (bind_at _ _ _ _ _ Htn).
  assert (∀ a, a ∈ ins → is_Some (mem o !! a)) as Hin by (intros a; by eapply chain_in).
  assert (∀ a, a ∈ l1 ++ l2 → is_Some (mem o !! a)) as Hin' by (intros a; by eapply chain_in).
  assert (f ∈ ins) as Hfi by (destruct ins; [done|injection Hh as ->; set_solver]).
  assert (la ∈ ins) as Hli by (apply last_Some in Hlast as [? ->]; set_solver).
  erewrite bind_at; [|by apply update_at, Hin].
  replace (alter (set_p (list.last l1)) f (mem o)) with (relink_p ins (list.last l1) (mem o)) by (unfold relink_p; by rewrite Hh).
  erewrite bind_at; [|apply update_at; cbn; by apply relink_p_in, Hin]. cbn [first last mem].
  set (h1 := relink_p ins (list.last l1) (mem o)).
  replace (alter (set_n (head l2)) la h1) with (relink_n ins (head l2) h1) by (unfold relink_n; by rewrite Hlast).
  rewrite (set_left l1) by (intros a Ha; apply relink_n_in, relink_p_in, Hin'; set_solver). cbn [first last mem].
  rewrite set_right_at by (intros a Ha; apply relink_n_in, relink_n_in, relink_p_in, Hin'; set_solver). cbn [first last mem].
  pose proof Hnd as (Hn1 & Hd & (Hni & Hd2 & Hn2)%NoDup_app)%NoDup_app.
  apply chain_app in Hc as [H1 H2]. eexists. split; [done|]. split; [split_and!|]; cbn [first last mem]; [done| | | |].
  - apply chain_app. split; [|apply chain_app; split].
    + apply (chain_frame (relink_n l1 (Some f) (relink_n ins (head l2) h1))).
      * replace (first_or (ins ++ l2) None) with (Some f) by (by destruct ins; [|injection Hh as ->]).
        eapply chain_relink_n; [done|]. eapply chain_frame; [exact H1|]. intros a Ha. unfold h1.
        rewrite relink_n_other, relink_p_other by set_solver. done.
      * intros a Ha. apply relink_p_other. set_solver.
    + apply (chain_frame (relink_n ins (first_or l2 None) (relink_p ins (last_or l1 None) (mem o)))).
      * eapply chain_relink_n; [done|]. by eapply chain_relink_p.
      * intros a Ha. rewrite relink_p_other, relink_n_other by set_solver. unfold h1, last_or, first_or.
        by destruct (list.last l1), l2.
    + replace (last_or ins (last_or l1 None)) with (Some la) by (unfold last_or; by rewrite Hlast).
      eapply chain_relink_p; [done|]. eapply chain_frame; [exact H2|]. intros a Ha. unfold h1.
      rewrite !relink_n_other, relink_p_other by set_solver. done.
  - rewrite Hf. destruct l1; [|done]. cbn. by destruct ins; [|injection Hh as ->].
  - rewrite Hla, !last_app, Hlast. destruct l2 as [|b l2]; [done|]. rewrite last_cons. by destruct (list.last l2).
  - intros a Ha. unfold h1. rewrite relink_p_other, !relink_n_other, relink_p_other by set_solver. done.
Qed.

(** The doubly linked list of the program is the list of its nodes: the ends
    and neighbours are those of the list, nodes are put at the front, at the end,
    before and after a node, and taken out, and another list is put in after a node
    or at the front; every operation follows valid pointers only, keeps the links in
    both directions and the ends consistent, and writes no node of any other list. *)
Theorem linkedlist1_refines o l :
  linked o l →
  IsEmpty o = bool_decide (l = []) ∧ GetFirst o = head l ∧ GetLast o = list.last l ∧
  (∀ node, node ∉ l → leaves o (Prepend node o) (node :: l) ∧ leaves o (Append node o) (l ++ [node])) ∧
  (∀ l1 a l2, l = l1 ++ a :: l2 →
     Node_Next a o = Some (head l2, o, []) ∧ Node_Prev a o = Some (list.last l1, o, []) ∧
     leaves o (Remove a o) (l1 ++ l2) ∧
     (∀ node, node ∉ l → leaves o (InsertBefore node a o) (l1 ++ node :: a :: l2) ∧
        leaves o (InsertAfter node a o) (l1 ++ a :: node :: l2))) ∧
  (∀ l1 l2 ins, l = l1 ++ l2 → chain (mem o) None ins None → NoDup (l1 ++ ins ++ l2) →
     leaves o (InsertListAfter (head ins) (list.last ins) (list.last l1) o) (l1 ++ ins ++ l2)).
Proof.
  intros Hl. pose proof Hl as (_ & Hc & Hf & Hla). split_and!; try done.
  - unfold IsEmpty. rewrite Hf. by destruct l.
  - intros node Hn. split; [by apply Prepend_ok|by apply Append_ok].
  - intros l1 a l2 ->. split_and!.
    + unfold Node_Next. by rewrite (bind_at _ _ _ _ _ (list_get_at _ _ _ (chain_at _ _ _ _ Hc))).
    + unfold Node_Prev. by rewrite (bind_at _ _ _ _ _ (list_get_at _ _ _ (chain_at _ _ _ _ Hc))).
    + by apply list_remove_ok.
    + intros node Hn. split; [by apply InsertBefore_ok|by apply InsertAfter_ok].
  - intros l1 l2 ins -> Hi Hnd. by apply InsertListAfter_ok.
Qed.

Lemma linked_Init h : linked (Init h) [].
Proof. split_and!; try done. constructor. Qed.
End LinkedList1.

(** ** Examples *)

Section linkedlist_examples.
Import LinkedList1.

Lemma linkedlist1_refines_witness :
  ∃ o o', linked o [7; 8; 9] ∧ Remove 8 o = Some (tt, o', []) ∧ linked o' [7; 9].
Proof.
  destruct (linkedlist1_refines (Init ∅) [] (linked_Init ∅)) as (_ & _ & _ & HP & _).
  destruct (HP 8) as [_ (o1 & _ & H1 & _)]; [set_solver|].
  destruct (linkedlist1_refines o1 [8] H1) as (_ & _ & _ & HP1 & _).
  destruct (HP1 7) as [(o2 & _ & H2 & _) _]; [set_solver|].
  destruct (linkedlist1_refines o2 [7; 8] H2) as (_ & _ & _ & HP2 & _).
  destruct (HP2 9) as [_ (o3 & _ & H3 & _)]; [set_solver|].
  destruct (linkedlist1_refines o3 [7; 8; 9] H3) as (_ & _ & _ & _ & HA & _).
  destruct (HA [7] 8 [9] eq_refl) as (_ & _ & (o4 & Hr & H4 & _) & _).
  exists o3, o4. split_and!; [exact H3|exact Hr|exact H4].
Defined.
End linkedlist_examples.
