(* ===== verification/CHash.v ===== *)
(** * CHash: hash tables (structure/CHash_impl.h)

    A table is an array of buckets, each the head of a chain of entries that are
    linked through a member of the entry.  Entries with equal keys may be inserted
    with [CHash_InsertMulti]; they stand next to each other in their chain, which
    [CHash_GetNextEqual] relies on.  The number of buckets can be multiplied by a
    power of two: entries are moved to the new buckets, in reverse, and then the new
    chains are reversed again.

    The links are kept in a memory of entries; [None] is an access through a null
    link or outside the array, a failed assertion or a loop that does not end.  The
    table is shown to be a map from keys to the list of their entries. *)
From S2P Require Import Prelude Bytes.

Module CHash.

(** The table, and the links of the entries in memory. *)
Record t := mk { num_buckets : Z; buckets : list (option Z); next : gmap Z (option Z) }.

Abbreviation IO := (M t False).

Section chash.
Context `{Build} {K : Type}.
(** The parameters of the table; [CHEAP] is [CHASH_PARAM_ENTRYHASH_IS_CHEAP]. *)
Context (ENTRYHASH : Z → Z) (COMPARE_ENTRIES : Z → Z → bool).
Context (KEYHASH : K → Z) (COMPARE_KEY_ENTRY : K → Z → bool) (CHEAP : bool).

Definition get_next (e : Z) : IO (option Z) := o ← mget; mlift (next o !! e).
Definition set_next (e : Z) (q : option Z) : IO unit :=
  _ ← get_next e; mmodify (λ o, mk (num_buckets o) (buckets o) (<[e := q]> (next o))).
Definition get_bucket (i : Z) : IO (option Z) := o ← mget; mlift (buckets o !! Z.to_nat i).
Definition set_bucket (i : Z) (q : option Z) : IO unit :=
  _ ← get_bucket i; mmodify (λ o, mk (num_buckets o) (<[Z.to_nat i := q]> (buckets o)) (next o)).

(** A chain has at most as many entries as there are in memory. *)
Definition chain_fuel (o : t) : nat := S (size (next o)).

Definition index_of (hash : Z) : IO Z := o ← mget; mret (hash mod num_buckets o).

(** Make an entry the first of its chain. *)
Definition push (index entry : Z) : IO unit :=
  head ← get_bucket index;
  set_next entry head;;
  set_bucket index (Some entry).

(** Take an entry out of its chain, after [prev]. *)
Definition unlink (index : Z) (prev : option Z) (entry : Z) : IO unit :=
  nxt ← get_next entry;
  match prev with
  | None => set_bucket index nxt
  | Some prev => set_next prev nxt
  end.

(** ** Operations *)

(** [alloc_ok]: the allocation of the array succeeded. *)
Definition Init (h : gmap Z (option Z)) (n : Z) (alloc_ok : bool) : option t :=
  let n := if n =? 0 then 1 else n in
  if alloc_ok then Some (mk n (replicate (Z.to_nat n) None) h) else None.

(** The loop of [CHash_Insert]: the entry that compares equal. *)
Fixpoint insert_loop (fuel : nat) (entry : Z) (link : option Z) : IO (option Z) :=
  match link with
  | None => mret None
  | Some cur =>
      match fuel with
      | O => mabort
      | S fuel =>
          if COMPARE_ENTRIES cur entry then mret (Some cur)
          else link ← get_next cur; insert_loop fuel entry link
      end
  end.

(** The result and [*out_existing]. *)
Definition Insert (entry : Z) : IO (bool * option Z) :=
  o ← mget;
  index ← index_of (ENTRYHASH entry);
  link ← get_bucket index;
  existing ← insert_loop (chain_fuel o) entry link;
  match existing with
  | Some cur => mret (false, Some cur)
  | None =>
      push index entry;;
      mret (true, None)
  end.

(** The loop of [CHash_InsertMulti]: the variables [prev] and [link] after it. *)
Fixpoint multi_loop (fuel : nat) (entry : Z) (prev link : option Z) : IO (option Z * option Z) :=
  match link with
  | None => mret (prev, None)
  | Some cur =>
      match fuel with
      | O => mabort
      | S fuel =>
          if COMPARE_ENTRIES cur entry then mret (prev, link)
          else link ← get_next cur; multi_loop fuel entry (Some cur) link
      end
  end.

Definition InsertMulti (entry : Z) : IO unit :=
  o ← mget;
  index ← index_of (ENTRYHASH entry);
  link ← get_bucket index;
  '(prev, link) ← multi_loop (chain_fuel o) entry None link;
  match link, prev with
  | Some _, Some prev =>
      set_next entry link;;
      set_next prev (Some entry)
  | _, _ => push index entry
  end.

(** The loop of [CHash_Remove]: [prev] when [link] is the entry. *)
Fixpoint remove_loop (fuel : nat) (entry : Z) (prev link : option Z) : IO (option Z) :=
  if bool_decide (link = Some entry) then mret prev
  else
    match fuel with
    | O => mabort
    | S fuel =>
        cur ← mlift link;
        link ← get_next cur;
        ASSERT (bool_decide (is_Some link));;
        remove_loop fuel entry (Some cur) link
    end.

Definition Remove (entry : Z) : IO unit :=
  o ← mget;
  index ← index_of (ENTRYHASH entry);
  link ← get_bucket index;
  prev ← remove_loop (chain_fuel o) entry None link;
  unlink index prev entry.

Fixpoint lookup_loop (fuel : nat) (key : K) (hash : Z) (link : option Z) : IO (option Z) :=
  match link with
  | None => mret None
  | Some cur =>
      match fuel with
      | O => mabort
      | S fuel =>
          if (negb CHEAP || (ENTRYHASH cur =? hash)) && COMPARE_KEY_ENTRY key cur then mret (Some cur)
          else link ← get_next cur; lookup_loop fuel key hash link
      end
  end.

Definition Lookup (key : K) : IO (option Z) :=
  o ← mget;
  let hash := KEYHASH key in
  index ← index_of hash;
  link ← get_bucket index;
  lookup_loop (chain_fuel o) key hash link.

Definition GetNextEqual (entry : Z) : IO (option Z) :=
  nxt ← get_next entry;
  match nxt with
  | None => mret None
  | Some next_ref => if COMPARE_ENTRIES next_ref entry then mret (Some next_ref) else mret None
  end.

(** [while (exp-- > 0)]: the new number of buckets, or [None] where it would
    overflow. *)
Fixpoint double_loop (exp : nat) (new_num_buckets : Z) : option Z :=
  match exp with
  | O => Some new_num_buckets
  | S exp => if SIZE_MAX / 2 <? new_num_buckets then None else double_loop exp (u32 (new_num_buckets * 2))
  end.

(** The loop over the chain of bucket [i]. *)
Fixpoint move_loop (fuel : nat) (new_num_buckets i : Z) (prev link : option Z) : IO unit :=
  match link with
  | None => mret tt
  | Some cur =>
      match fuel with
      | O => mabort
      | S fuel =>
          link ← get_next cur;
          let new_index := ENTRYHASH cur mod new_num_buckets in
          if new_index =? i then move_loop fuel new_num_buckets i (Some cur) link
          else
            unlink i prev cur;;
            push new_index cur;;
            move_loop fuel new_num_buckets i prev link
      end
  end.

(** The loop over the old buckets, from [i] on with [k] of them left. *)
Fixpoint move_buckets (k : nat) (new_num_buckets i : Z) : IO unit :=
  match k with
  | O => mret tt
  | S k =>
      o ← mget;
      link ← get_bucket i;
      move_loop (chain_fuel o) new_num_buckets i None link;;
      move_buckets k new_num_buckets (i + 1)
  end.

(** The loop that reverses a chain: [new_bucket_link] after it. *)
Fixpoint reverse_loop (fuel : nat) (new_bucket_link link : option Z) : IO (option Z) :=
  match link with
  | None => mret new_bucket_link
  | Some cur =>
      match fuel with
      | O => mabort
      | S fuel =>
          link ← get_next cur;
          set_next cur new_bucket_link;;
          reverse_loop fuel (Some cur) link
      end
  end.

Fixpoint reverse_buckets (k : nat) (i : Z) : IO unit :=
  match k with
  | O => mret tt
  | S k =>
      o ← mget;
      link ← get_bucket i;
      new_bucket_link ← reverse_loop (chain_fuel o) None link;
      set_bucket i new_bucket_link;;
      reverse_buckets k (i + 1)
  end.

(** [realloc_ok]: the array could be made larger; its new part is set to null
    links. *)
Definition MultiplyBuckets (exp : Z) (realloc_ok : bool) : IO bool :=
  ASSERT (0 <? exp);;
  o ← mget;
  match double_loop (Z.to_nat exp) (num_buckets o) with
  | None => mret false
  | Some new_num_buckets =>
      if realloc_ok then
        let added := Z.to_nat (new_num_buckets - num_buckets o) in
        mput (mk (num_buckets o) (buckets o ++ replicate added None) (next o));;
        move_buckets (Z.to_nat (num_buckets o)) new_num_buckets 0;;
        reverse_buckets added (num_buckets o);;
        mmodify (λ o, mk new_num_buckets (buckets o) (next o));;
        mret true
      else mret false
  end.

(** [ASSERT_FORCE], which is always compiled in. *)
Definition ASSERT_FORCE (b : bool) : IO unit := if b then mret tt else mabort.

(** The entries before [same_first] do not compare equal to [cur]. *)
Fixpoint verify_before (fuel : nat) (same_first cur : Z) (ccur : option Z) : IO unit :=
  if bool_decide (ccur = Some same_first) then mret tt
  else
    match fuel with
    | O => mabort
    | S fuel =>
        c ← mlift ccur;
        ASSERT_FORCE (negb (COMPARE_ENTRIES c cur));;
        nxt ← get_next c;
        verify_before fuel same_first cur nxt
    end.

Fixpoint verify_chain (fuel : nat) (i same_first : Z) (cur : option Z) : IO unit :=
  match cur with
  | None => mret tt
  | Some cur =>
      match fuel with
      | O => mabort
      | S fuel =>
          o ← mget;
          index ← index_of (ENTRYHASH cur);
          ASSERT_FORCE (index =? i);;
          let same_first := if COMPARE_ENTRIES cur same_first then same_first else cur in
          ccur ← get_bucket i;
          verify_before (chain_fuel o) same_first cur ccur;;
          nxt ← get_next cur;
          verify_chain fuel i same_first nxt
      end
  end.

Fixpoint verify_buckets (k : nat) (i : Z) : IO unit :=
  match k with
  | O => mret tt
  | S k =>
      o ← mget;
      link ← get_bucket i;
      (match link with
       | None => mret tt
       | Some cur => verify_chain (chain_fuel o) i cur link
       end);;
      verify_buckets k (i + 1)
  end.

Definition Verify : IO unit :=
  o ← mget;
  ASSERT_FORCE (0 <? num_buckets o);;
  verify_buckets (Z.to_nat (num_buckets o)) 0.
End chash.

(** ** Lists *)

Lemma filter_all {A} (P : A → Prop) `{!∀ x, Decision (P x)} l : Forall P l → filter P l = l.
Proof. induction 1 as [|x l Hx _ IH]; [done|]. by rewrite filter_cons, decide_True, IH by done. Qed.

Lemma filter_none {A} (P : A → Prop) `{!∀ x, Decision (P x)} l : Forall (λ x, ¬ P x) l → filter P l = [].
Proof. induction 1 as [|x l Hx _ IH]; [done|]. by rewrite filter_cons, decide_False by done. Qed.

Lemma pivot_unique {A} (e : A) l1 l2 l3 l4 : l1 ++ e :: l2 = l3 ++ e :: l4 → e ∉ l1 → e ∉ l3 → l2 = l4.
Proof.
  revert l3. induction l1 as [|a l1 IH]; intros [|b l3] Heq H1 H3; simplify_eq/=; [done|set_solver..|].
  eapply IH; [eassumption|set_solver..].
Qed.

(** ** Chains *)

Fixpoint chain (m : gmap Z (option Z)) (q : option Z) (l : list Z) : Prop :=
  match l with
  | [] => q = None
  | a :: l => q = Some a ∧ ∃ q', m !! a = Some q' ∧ chain m q' l
  end.

Lemma hash_chain_frame m m' q l : (∀ a, a ∈ l → m' !! a = m !! a) → chain m q l → chain m' q l.
Proof.
  revert q. induction l as [|a l IH]; intros q Hm; [done|]. intros (-> & q' & Ha & Hl). split; [done|]. exists q'.
  split; [rewrite Hm by set_solver; done|]. apply IH; [set_solver|done].
Qed.

Lemma chain_known m q l a : chain m q l → a ∈ l → is_Some (m !! a).
Proof.
  revert q. induction l as [|b l IH]; intros q; [set_solver|]. intros (_ & q' & Hb & Hl). rewrite elem_of_cons. intros [->|Ha]; eauto.
Qed.


Lemma chain_length m q l : chain m q l → NoDup l → (length l ≤ size m)%nat.
Proof.
  intros Hc Hnd. rewrite <- (size_list_to_set (C := gset Z)) by done. rewrite <- size_dom. apply subseteq_size.
  intros a Ha%elem_of_list_to_set. apply elem_of_dom. by eapply chain_known.
Qed.

(** The first link of a chain. *)
Lemma chain_head m q l : chain m q l → q = head l.
Proof. by destruct l as [|a l]; [|intros [-> _]]. Qed.

(** The link of an entry inside a chain. *)
Lemma hash_chain_at m q l1 a l2 : chain m q (l1 ++ a :: l2) → m !! a = Some (head l2) ∧ chain m (head l2) l2.
Proof.
  revert q. induction l1 as [|b l1 IH]; intros q; cbn [app chain].
  - intros (_ & q' & Ha & Hl). by rewrite <- (chain_head _ _ _ Hl).
  - intros (_ & q' & _ & Hl). by apply (IH q').
Qed.

(** Replace what follows [a]. *)
Lemma chain_relink m q l1 a l2 l3 : chain m q (l1 ++ a :: l2) → chain (<[a := head l3]> m) (head l3) l3 → a ∉ l1 →
  chain (<[a := head l3]> m) q (l1 ++ a :: l3).
Proof.
  revert q. induction l1 as [|b l1 IH]; intros q; cbn [app chain].
  - intros (-> & _) Hl _. split; [done|]. exists (head l3). by rewrite lookup_insert_eq.
  - intros (-> & q' & Hb & Hl) H3 Hn. split; [done|]. exists q'. rewrite lookup_insert_ne by set_solver. split; [done|]. apply IH; set_solver.
Qed.

(** ** Tables and their chains *)

Definition linked (o : t) (ls : list (list Z)) : Prop := Forall2 (chain (next o)) (buckets o) ls ∧ NoDup (concat ls).

Lemma concat_insert {A} (ls : list (list A)) i l l' : ls !! i = Some l →
  concat (<[i := l']> ls) ≡ₚ l' ++ concat (delete i ls) ∧ concat ls ≡ₚ l ++ concat (delete i ls).
Proof.
  revert i. induction ls as [|x ls IH]; intros [|i] Hi; try done; cbn in *.
  - by injection Hi as ->.
  - destruct (IH i Hi) as [H1 H2]. rewrite H1, H2 at 1. split; apply Permutation_app_swap_app.
Qed.

Lemma concat_in {A} (ls : list (list A)) i l a : ls !! i = Some l → a ∈ l → a ∈ concat ls.
Proof. intros Hi Ha. destruct (concat_insert ls i l l Hi) as [_ ->]. set_solver. Qed.

Lemma NoDup_concat_lookup (ls : list (list Z)) i l : NoDup (concat ls) → ls !! i = Some l → NoDup l.
Proof. intros Hnd Hi. destruct (concat_insert ls i l l Hi) as [_ Hp]. rewrite Hp in Hnd. by apply NoDup_app in Hnd as [? _]. Qed.

(** Entries of two buckets are different. *)
Lemma buckets_apart (ls : list (list Z)) i j li lj a : NoDup (concat ls) → ls !! i = Some li → ls !! j = Some lj → i ≠ j → a ∈ li → a ∉ lj.
Proof.
  intros Hnd Hi Hj Hne Ha Hb. destruct (concat_insert ls i li li Hi) as [_ Hp]. rewrite Hp in Hnd.
  apply NoDup_app in Hnd as (_ & Hd & _). apply (Hd a Ha). destruct (decide (j < i)%nat).
  - eapply concat_in; [|exact Hb]. by rewrite list_lookup_delete_lt.
  - eapply (concat_in _ (j - 1)); [|exact Hb]. rewrite list_lookup_delete_ge by lia. by replace (S (j - 1)) with j by lia.
Qed.

Lemma linked_lookup o ls i l : linked o ls → ls !! i = Some l →
  ∃ q, buckets o !! i = Some q ∧ chain (next o) q l ∧ NoDup l ∧ (length l < chain_fuel o)%nat.
Proof.
  intros [Hc Hnd] Hi. destruct (Forall2_lookup_r _ _ _ _ _ Hc Hi) as (q & Hq & Hl). exists q.
  pose proof (NoDup_concat_lookup _ _ _ Hnd Hi) as Hn. split_and!; [done..|]. unfold chain_fuel. pose proof (chain_length _ _ _ Hl Hn). lia.
Qed.

(** Change one chain, and no link of an entry of another. *)
Lemma linked_update o o' ls i l q l' :
  linked o ls → ls !! i = Some l → buckets o' = <[i := q]> (buckets o) → chain (next o') q l' →
  (∀ a, a ∉ l → a ∉ l' → next o' !! a = next o !! a) → NoDup (l' ++ concat (delete i ls)) →
  linked o' (<[i := l']> ls).
Proof.
  intros Hk Hi Hb Hl' Hf Hnd. pose proof Hk as [Hc Hnd0]. destruct (concat_insert ls i l l' Hi) as [Hp Hp0].
  assert (NoDup (concat (<[i := l']> ls))) as Hnew by (by rewrite Hp). split; [|done].
  rewrite Hb. apply Forall2_same_length_lookup. split; [rewrite !length_insert; by eapply Forall2_length|].
  intros j q2 l2 Hq2 Hl2. destruct (decide (i = j)) as [<-|Hne].
  - apply lookup_lt_Some in Hi as Hlt. rewrite list_lookup_insert_eq in Hl2 by done. injection Hl2 as <-.
    rewrite list_lookup_insert_eq in Hq2; [by injection Hq2 as <-|]. by rewrite (Forall2_length _ _ _ Hc).
  - apply lookup_lt_Some in Hi as Hlt. assert ((<[i := l']> ls) !! i = Some l') as Hi' by (by rewrite list_lookup_insert_eq).
    pose proof Hl2 as Hl2'. rewrite list_lookup_insert_ne in Hl2 by done. rewrite list_lookup_insert_ne in Hq2 by done. eapply hash_chain_frame; [|eapply (Forall2_lookup_lr _ _ _ _ _ _ Hc); eauto].
    intros a Ha. apply Hf; intros Ha'; [eapply (buckets_apart ls i j); eauto|eapply (buckets_apart (<[i := l']> ls) i j); eauto].
Qed.

(** ** Pushing and unlinking *)

Lemma get_next_at o e q : next o !! e = Some q → get_next e o = Some (q, o, []).
Proof. intros He. unfold get_next. rewrite (bind_at mget _ o o o) by done. unfold mlift. by rewrite He. Qed.

Lemma get_bucket_at o i q : buckets o !! Z.to_nat i = Some q → get_bucket i o = Some (q, o, []).
Proof. intros He. unfold get_bucket. rewrite (bind_at mget _ o o o) by done. unfold mlift. by rewrite He. Qed.

Lemma set_next_at o e q q' : next o !! e = Some q → set_next e q' o = Some (tt, mk (num_buckets o) (buckets o) (<[e := q']> (next o)), []).
Proof. intros He. unfold set_next. by rewrite (bind_at _ _ _ _ _ (get_next_at _ _ _ He)). Qed.

Lemma set_bucket_at o i q q' : buckets o !! Z.to_nat i = Some q →
  set_bucket i q' o = Some (tt, mk (num_buckets o) (<[Z.to_nat i := q']> (buckets o)) (next o), []).
Proof. intros He. unfold set_bucket. by rewrite (bind_at _ _ _ _ _ (get_bucket_at _ _ _ He)). Qed.

(** What an operation leaves of the table besides the chains. *)
Definition kept (o o' : t) : Prop := num_buckets o' = num_buckets o ∧ dom (next o') = dom (next o).

#[local] Instance kept_refl : Reflexive kept.
Proof. by intros o. Qed.

#[local] Instance kept_trans : Transitive kept.
Proof. intros o1 o2 o3 [? ?] [? ?]. split; congruence. Qed.

Lemma kept_fuel o o' : kept o o' → chain_fuel o' = chain_fuel o.
Proof. intros [_ Hd]. unfold chain_fuel. f_equal. rewrite <- !size_dom. by rewrite Hd. Qed.

Lemma dom_insert_same (m : gmap Z (option Z)) a q : is_Some (m !! a) → dom (<[a := q]> m) = dom m.
Proof. intros Ha. rewrite dom_insert_L. assert (a ∈ dom m) by (by apply elem_of_dom). set_solver. Qed.

Lemma push_ok o ls i l e : linked o ls → ls !! Z.to_nat i = Some l → e ∉ concat ls → is_Some (next o !! e) →
  ∃ o', push i e o = Some (tt, o', []) ∧ linked o' (<[Z.to_nat i := e :: l]> ls) ∧ kept o o'.
Proof.
  intros Hk Hi He [q0 Hq0]. destruct (linked_lookup o ls _ l Hk Hi) as (q & Hq & Hl & _).
  destruct (concat_insert ls _ l l Hi) as [_ Hp].
  unfold push. rewrite (bind_at _ _ _ _ _ (get_bucket_at _ _ _ Hq)), (bind_at _ _ _ _ _ (set_next_at _ _ _ q Hq0)).
  rewrite (set_bucket_at _ i q) by done. eexists. split; [done|]. cbn. split; [|split; [done|by apply dom_insert_same]].
  eapply linked_update; [exact Hk|exact Hi|done| | |].
  - cbn. split; [done|]. exists q. rewrite lookup_insert_eq. split; [done|]. eapply hash_chain_frame; [|exact Hl].
    intros a Ha. rewrite lookup_insert_ne; [done|]. intros ->. by eapply He, concat_in.
  - intros a Ha Ha'. cbn. rewrite lookup_insert_ne; [done|set_solver].
  - rewrite <- app_comm_cons, <- Hp. constructor; [done|apply Hk].
Qed.

Lemma hash_unlink_ok o ls i pre e post : linked o ls → ls !! Z.to_nat i = Some (pre ++ e :: post) →
  ∃ o', unlink i (last pre) e o = Some (tt, o', []) ∧ linked o' (<[Z.to_nat i := pre ++ post]> ls) ∧ kept o o'.
Proof.
  intros Hk Hi. destruct (linked_lookup o ls _ _ Hk Hi) as (q & Hq & Hl & Hnd & _).
  destruct (concat_insert ls _ _ (pre ++ e :: post) Hi) as [_ Hp]. pose proof Hk as [_ Hall].
  assert (NoDup ((pre ++ post) ++ concat (delete (Z.to_nat i) ls))) as Hnew.
  { rewrite Hp, <- app_assoc, <- app_comm_cons in Hall. rewrite <- Permutation_middle in Hall. apply NoDup_cons in Hall as [_ Hall]. by rewrite <- app_assoc. }
  destruct (hash_chain_at _ _ _ _ _ Hl) as [He Hpost].
  unfold unlink. rewrite (bind_at _ _ _ _ _ (get_next_at _ _ _ He)).
  destruct pre as [|a pre _] using rev_ind; cbn [last]; [|rewrite last_snoc].
  - rewrite (set_bucket_at _ i q) by done. eexists. split; [done|]. split; [|by split].
    eapply linked_update; [exact Hk|exact Hi|done|exact Hpost|done|exact Hnew].
  - rewrite <- app_assoc in Hl, Hnd. cbn [app] in Hl, Hnd. apply hash_chain_at in Hl as Ha. destruct Ha as [Ha _].
    rewrite (set_next_at _ _ _ (head post) Ha). eexists. split; [done|]. split; [|split; [done|apply dom_insert_same; by rewrite Ha]].
    apply NoDup_app in Hnd as (_ & Hd & Hnd). apply NoDup_cons in Hnd as [Hna _].
    eapply linked_update; [exact Hk|exact Hi|cbn; by rewrite list_insert_id| | |exact Hnew]; cbn.
    + rewrite <- app_assoc. eapply chain_relink; [exact Hl| |intros Hin; by apply (Hd a Hin), list_elem_of_here].
      eapply hash_chain_frame; [|exact Hpost]. intros b Hb. rewrite lookup_insert_ne; [done|]. intros ->. apply Hna. set_solver.
    + intros b Hb _. rewrite lookup_insert_ne; [done|]. intros ->. apply Hb. set_solver.
Qed.

(** ** The table as a map from keys to entries *)

(** What the parameters promise: entries have keys, and comparing and hashing
    entries is comparing and hashing their keys. *)
Class HashOk {K : Type} (key : Z → K) (ENTRYHASH : Z → Z) (COMPARE_ENTRIES : Z → Z → bool)
    (KEYHASH : K → Z) (COMPARE_KEY_ENTRY : K → Z → bool) : Prop := {
  ho_entries a b : COMPARE_ENTRIES a b = true ↔ key a = key b;
  ho_key k a : COMPARE_KEY_ENTRY k a = true ↔ k = key a;
  ho_hash a : ENTRYHASH a = KEYHASH (key a)
}.

Section chash_spec.
Context `{Build} {K : Type} (key : Z → K).
Context (ENTRYHASH : Z → Z) (COMPARE_ENTRIES : Z → Z → bool).
Context (KEYHASH : K → Z) (COMPARE_KEY_ENTRY : K → Z → bool) (CHEAP : bool).
Context `{Hok : !HashOk key ENTRYHASH COMPARE_ENTRIES KEYHASH COMPARE_KEY_ENTRY}.

(** The entries of a chain with a key. *)
Definition entries_of (k : K) (l : list Z) : list Z := filter (λ e, COMPARE_KEY_ENTRY k e = true) l.

(** The entries equal to [a] come first in [l]. *)
Fixpoint lead (a : Z) (l : list Z) : Prop :=
  match l with
  | [] => True
  | b :: l' => if COMPARE_ENTRIES b a then lead a l' else Forall (λ c, COMPARE_ENTRIES c a = false) l
  end.

(** Equal entries are next to each other. *)
Fixpoint grouped (l : list Z) : Prop :=
  match l with
  | [] => True
  | a :: l => lead a l ∧ grouped l
  end.

Definition bucket_of (o : t) (hash : Z) : nat := Z.to_nat (hash mod num_buckets o).

Record table (o : t) (ls : list (list Z)) : Prop := {
  tb_linked : linked o ls;
  tb_num : 0 < num_buckets o;
  tb_len : zlen ls = num_buckets o;
  tb_place i l : ls !! i = Some l → Forall (λ e, bucket_of o (ENTRYHASH e) = i) l;
  tb_group : Forall grouped ls
}.

(** The entries of each key, in the order in which they are found. *)
Definition lists (o : t) (ls : list (list Z)) (k : K) : list Z := entries_of k (ls !!! bucket_of o (KEYHASH k)).

Definition represents (o : t) (f : K → list Z) : Prop := ∃ ls, table o ls ∧ ∀ k, f k = lists o ls k.

(** *** Groups *)

Lemma lead_other a l : Forall (λ c, COMPARE_ENTRIES c a = false) l → lead a l.
Proof. destruct l as [|b l]; [done|]. cbn [lead]. intros Hf. apply Forall_cons in Hf as Hb. destruct Hb as [-> _]. done. Qed.

Lemma lead_filter (P : Z → Prop) `{!∀ e, Decision (P e)} a l : lead a l → lead a (filter P l).
Proof.
  induction l as [|b l IH]; [done|]. cbn [lead]. destruct (COMPARE_ENTRIES b a) eqn:Hb.
  - intros Hl. rewrite filter_cons. case_decide; cbn [lead]; [rewrite Hb|]; by apply IH.
  - intros Hf. apply lead_other. apply Forall_forall. intros c [_ Hc]%list_elem_of_filter.
    rewrite Forall_forall in Hf. by apply Hf.
Qed.

Lemma grouped_filter (P : Z → Prop) `{!∀ e, Decision (P e)} l : grouped l → grouped (filter P l).
Proof.
  induction l as [|a l IH]; [done|]. intros [Hl Hg]. rewrite filter_cons. case_decide; [|by apply IH]. split; [by apply lead_filter|by apply IH].
Qed.

Lemma same_key a b : COMPARE_ENTRIES a b = COMPARE_KEY_ENTRY (key b) a.
Proof.
  apply eq_true_iff_eq. rewrite (ho_entries (KEYHASH := KEYHASH)), (ho_key (ENTRYHASH := ENTRYHASH)). split; congruence.
Qed.

Lemma other_key a b : COMPARE_ENTRIES a b = false ↔ key a ≠ key b.
Proof. rewrite <- (ho_entries (HashOk := Hok)). symmetry. apply not_true_iff_false. Qed.

Lemma lead_insert a e c pre post : lead a (pre ++ c :: post) → key e = key c → COMPARE_ENTRIES c a = false → lead a (pre ++ e :: c :: post).
Proof.
  intros Hl He Hc. assert (COMPARE_ENTRIES e a = false) as Hea by (apply other_key; apply other_key in Hc; congruence).
  induction pre as [|b pre IH]; cbn [app lead] in *.
  - rewrite Hea, Hc in *. by constructor.
  - destruct (COMPARE_ENTRIES b a); [by apply IH|]. apply Forall_cons in Hl as [Hb Hl]. constructor; [done|].
    apply Forall_app in Hl as [? Hl]. apply Forall_app. split; [done|]. by constructor.
Qed.

Lemma lead_key a b l : key a = key b → lead a l → lead b l.
Proof.
  intros Hab. assert (∀ x, COMPARE_ENTRIES x a = COMPARE_ENTRIES x b) as Hx by (intros x; by rewrite !same_key, Hab).
  induction l as [|x l IH]; [done|]. cbn [lead]. rewrite Hx. destruct (COMPARE_ENTRIES x b); [done|].
  intros Hf. eapply Forall_impl; [exact Hf|]. intros c. cbn. by rewrite Hx.
Qed.

Lemma grouped_insert e c pre post : grouped (pre ++ c :: post) → key e = key c → Forall (λ b, key b ≠ key c) pre →
  grouped (pre ++ e :: c :: post).
Proof.
  intros Hg He Hpre. induction Hpre as [|b pre Hb _ IH]; cbn [app grouped] in *.
  - split; [|done]. destruct Hg as [Hl _]. cbn [lead]. rewrite (proj2 (ho_entries (HashOk := Hok) c e)) by done.
    by apply (lead_key c).
  - destruct Hg as [Hl Hg]. split; [|by apply IH]. apply lead_insert; [done|done|]. apply other_key. congruence.
Qed.

(** *** Searching a chain *)

Lemma insert_loop_ok o e fuel link l : chain (next o) link l → (length l < fuel)%nat →
  insert_loop COMPARE_ENTRIES fuel e link o = Some (head (entries_of (key e) l), o, []).
Proof.
  revert fuel link. induction l as [|c l IH]; intros [|fuel] link Hc Hf; cbn [length] in Hf; try lia; cbn [chain] in Hc.
  { by subst. }
  destruct Hc as (-> & q & Hq & Hl). cbn [insert_loop]. unfold entries_of. rewrite filter_cons, same_key.
  destruct (COMPARE_KEY_ENTRY (key e) c) eqn:Hce; [by rewrite decide_True|]. rewrite decide_False by congruence.
  rewrite (bind_at _ _ _ _ _ (get_next_at _ _ _ Hq)). apply IH; [done|lia].
Qed.

Lemma hash_lookup_loop_ok o k fuel link l : chain (next o) link l → (length l < fuel)%nat →
  lookup_loop ENTRYHASH COMPARE_KEY_ENTRY CHEAP fuel k (KEYHASH k) link o = Some (head (entries_of k l), o, []).
Proof.
  revert fuel link. induction l as [|c l IH]; intros [|fuel] link Hc Hf; cbn [length] in Hf; try lia; cbn [chain] in Hc.
  { by subst. }
  destruct Hc as (-> & q & Hq & Hl). cbn [lookup_loop]. unfold entries_of. rewrite filter_cons.
  destruct (COMPARE_KEY_ENTRY k c) eqn:Hce.
  - apply (ho_key (HashOk := Hok)) in Hce as Hk. rewrite decide_True by done. rewrite (ho_hash (HashOk := Hok)), <- Hk, Z.eqb_refl.
    by rewrite orb_true_r.
  - rewrite andb_false_r, decide_False by congruence. rewrite (bind_at _ _ _ _ _ (get_next_at _ _ _ Hq)). apply IH; [done|lia].
Qed.

Lemma multi_loop_ok o e fuel prev link l : chain (next o) link l → (length l < fuel)%nat →
  ∃ pre post, l = pre ++ post ∧ Forall (λ b, key b ≠ key e) pre ∧ (∀ c, head post = Some c → key c = key e) ∧
    multi_loop COMPARE_ENTRIES fuel e prev link o = Some ((match last pre with Some a => Some a | None => prev end, head post), o, []).
Proof.
  revert fuel prev link. induction l as [|c l IH]; intros [|fuel] prev link Hc Hf; cbn [length] in Hf; try lia; cbn [chain] in Hc.
  { subst. exists [], []. by split_and!. }
  destruct Hc as (-> & q & Hq & Hl). cbn [multi_loop]. destruct (COMPARE_ENTRIES c e) eqn:Hce.
  - exists [], (c :: l). split_and!; try done. intros ? [= <-]. by apply (ho_entries (HashOk := Hok)).
  - rewrite (bind_at _ _ _ _ _ (get_next_at _ _ _ Hq)). destruct (IH fuel (Some c) q Hl ltac:(lia)) as (pre & post & -> & Hpre & Hpost & ->).
    exists (c :: pre), post. split_and!; try done; [constructor; [by apply other_key|done]|].
    destruct pre as [|x pre _] using rev_ind; [done|]. rewrite app_comm_cons, !last_snoc. done.
Qed.

Lemma remove_loop_ok o fuel prev link pre e post : chain (next o) link (pre ++ e :: post) → e ∉ pre → (length pre < fuel)%nat →
  remove_loop fuel e prev link o = Some (match last pre with Some a => Some a | None => prev end, o, []).
Proof.
  revert fuel prev link. induction pre as [|c pre IH]; intros [|fuel] prev link Hc Hn Hf; cbn [length] in Hf; try lia; cbn [app chain] in Hc;
    destruct Hc as (-> & q & Hq & Hl); cbn [remove_loop].
  { by rewrite bool_decide_true. }
  rewrite bool_decide_false by (intros [= ->]; set_solver). rewrite (bind_at (mlift (Some c)) _ c o o) by done.
  rewrite (bind_at _ _ _ _ _ (get_next_at _ _ _ Hq)). pose proof (chain_head _ _ _ Hl) as Hh.
  rewrite (bind_at _ _ tt o o). 2: { unfold ASSERT. rewrite bool_decide_true; [by rewrite orb_true_r|]. rewrite Hh. by destruct pre. }
  rewrite (IH fuel (Some c) q Hl ltac:(set_solver) ltac:(lia)). do 3 f_equal.
  destruct pre as [|x pre _] using rev_ind; [done|]. by rewrite app_comm_cons, !last_snoc.
Qed.

(** *** Changing one bucket *)

Lemma index_at o hash : index_of hash o = Some (hash mod num_buckets o, o, []).
Proof. done. Qed.

Lemma table_bucket o ls hash : table o ls →
  ∃ l, ls !! bucket_of o hash = Some l ∧ ls !!! bucket_of o hash = l ∧
    ∃ q, buckets o !! bucket_of o hash = Some q ∧ chain (next o) q l ∧ NoDup l ∧ (length l < chain_fuel o)%nat.
Proof.
  intros Ht. pose proof (tb_num _ _ Ht). pose proof (tb_len _ _ Ht). pose proof (Z.mod_pos_bound hash (num_buckets o)).
  destruct (lookup_lt_is_Some_2 ls (bucket_of o hash)) as [l Hl]; [unfold bucket_of; lia|].
  exists l. split; [done|]. split; [by apply list_lookup_total_correct|]. exact (linked_lookup o ls _ l (tb_linked _ _ Ht) Hl).
Qed.

Lemma table_update o o' ls i l l' : table o ls → ls !! i = Some l → linked o' (<[i := l']> ls) → kept o o' →
  Forall (λ e, bucket_of o (ENTRYHASH e) = i) l' → grouped l' →
  table o' (<[i := l']> ls) ∧
  (∀ k, lists o' (<[i := l']> ls) k = if decide (bucket_of o (KEYHASH k) = i) then entries_of k l' else lists o ls k).
Proof.
  intros Ht Hi Hk [Hn Hd] Hp Hg. apply lookup_lt_Some in Hi as Hlt.
  assert (∀ h, bucket_of o' h = bucket_of o h) as Hb by (intros h; unfold bucket_of; by rewrite Hn). split.
  - split; [done|rewrite Hn; apply Ht|rewrite length_insert, Hn; apply Ht| |apply Forall_insert; [apply Ht|done]].
    intros j l2 Hj. destruct (decide (i = j)) as [<-|].
    + rewrite list_lookup_insert_eq in Hj by done. injection Hj as <-. eapply Forall_impl; [exact Hp|]. intros e. by rewrite Hb.
    + rewrite list_lookup_insert_ne in Hj by done. eapply Forall_impl; [by apply (tb_place _ _ Ht)|]. intros e. by rewrite Hb.
  - intros k. unfold lists. rewrite Hb. case_decide as Hi'; [rewrite Hi'; by rewrite list_lookup_total_insert_eq|].
    by rewrite list_lookup_total_insert_ne.
Qed.

Lemma in_lists o ls e : table o ls → e ∈ concat ls → e ∈ lists o ls (key e).
Proof.
  intros Ht (l & Hl & He)%list_elem_of_In%in_concat. apply list_elem_of_In in Hl, He. apply list_elem_of_lookup in Hl as [i Hi].
  pose proof (tb_place _ _ Ht i l Hi) as Hp. rewrite Forall_forall in Hp. specialize (Hp e He).
  unfold lists. rewrite <- (ho_hash (HashOk := Hok)), Hp, (list_lookup_total_correct _ _ _ Hi).
  apply list_elem_of_filter. split; [by apply (ho_key (HashOk := Hok))|done].
Qed.

Lemma key_bucket o e : bucket_of o (KEYHASH (key e)) = bucket_of o (ENTRYHASH e).
Proof. by rewrite (ho_hash (HashOk := Hok)). Qed.

Lemma entries_other k l : Forall (λ b, key b ≠ k) l → entries_of k l = [].
Proof.
  unfold entries_of. induction 1 as [|b l Hb _ IH]; [done|]. rewrite filter_cons, decide_False; [done|].
  intros Hk%(ho_key (HashOk := Hok)). congruence.
Qed.

Lemma entries_mid e pre post : entries_of (key e) (pre ++ e :: post) = entries_of (key e) pre ++ e :: entries_of (key e) post.
Proof. unfold entries_of. rewrite filter_app, filter_cons, decide_True; [done|]. by apply (ho_key (HashOk := Hok)). Qed.

Lemma entries_skip k e pre post : k ≠ key e → entries_of k (pre ++ e :: post) = entries_of k (pre ++ post).
Proof.
  intros Hk. unfold entries_of. rewrite !filter_app, filter_cons, decide_False; [done|]. intros Hc. by apply (ho_key (HashOk := Hok)) in Hc.
Qed.

(** *** The operations *)

Abbreviation Insert := (Insert ENTRYHASH COMPARE_ENTRIES).
Abbreviation InsertMulti := (InsertMulti ENTRYHASH COMPARE_ENTRIES).
Abbreviation Remove := (Remove ENTRYHASH).
Abbreviation Lookup := (Lookup ENTRYHASH KEYHASH COMPARE_KEY_ENTRY CHEAP).
Abbreviation GetNextEqual := (GetNextEqual COMPARE_ENTRIES).
Abbreviation MultiplyBuckets := (MultiplyBuckets ENTRYHASH).

(** The entry is added, found before the ones with the same key. *)
Definition added (f f' : K → list Z) (e : Z) : Prop := f' (key e) = e :: f (key e) ∧ ∀ k, k ≠ key e → f' k = f k.

(** The entry is taken out. *)
Definition removed (f f' : K → list Z) (e : Z) : Prop :=
  (∃ l1 l2, f (key e) = l1 ++ e :: l2 ∧ f' (key e) = l1 ++ l2) ∧ ∀ k, k ≠ key e → f' k = f k.

(** The change of one bucket to [pre ++ e :: post] from [pre ++ post]. *)
Lemma add_entry o o' ls f pre e post :
  table o ls → (∀ k, f k = lists o ls k) → ls !! bucket_of o (ENTRYHASH e) = Some (pre ++ post) →
  linked o' (<[bucket_of o (ENTRYHASH e) := pre ++ e :: post]> ls) → kept o o' →
  Forall (λ b, key b ≠ key e) pre → grouped (pre ++ e :: post) →
  ∃ f', represents o' f' ∧ added f f' e.
Proof.
  intros Ht Hf Hi Hk Hkept Hpre Hg. pose proof (tb_place _ _ Ht _ _ Hi) as Hp. apply Forall_app in Hp as [Hp1 Hp2].
  destruct (table_update o o' ls _ _ (pre ++ e :: post) Ht Hi Hk Hkept) as [Ht' Hl]; [by apply Forall_app; split; [|constructor]|done|].
  eexists. split; [by exists (<[bucket_of o (ENTRYHASH e) := pre ++ e :: post]> ls)|]. split.
  - rewrite Hl, key_bucket, decide_True by done. rewrite entries_mid, (entries_other _ pre) by done. cbn [app]. f_equal.
    rewrite Hf. unfold lists. rewrite key_bucket, (list_lookup_total_correct _ _ _ Hi). unfold entries_of at 2. rewrite filter_app.
    fold (entries_of (key e) pre). by rewrite (entries_other _ pre).
  - intros k Hne. rewrite Hl, Hf. case_decide as Hb; [|done]. unfold lists. rewrite Hb, (list_lookup_total_correct _ _ _ Hi). by apply entries_skip.
Qed.

Lemma not_in_table o ls f e : table o ls → (∀ k, f k = lists o ls k) → e ∉ f (key e) → e ∉ concat ls.
Proof. intros Ht Hf He Hin. apply He. rewrite Hf. by apply in_lists. Qed.

Lemma push_entry o ls f e :
  table o ls → (∀ k, f k = lists o ls k) → e ∉ f (key e) → is_Some (next o !! e) →
  (f (key e) = [] ∨ ∃ c, head (ls !!! bucket_of o (ENTRYHASH e)) = Some c ∧ key c = key e) →
  ∃ o', push (ENTRYHASH e mod num_buckets o) e o = Some (tt, o', []) ∧ kept o o' ∧ ∃ f', represents o' f' ∧ added f f' e.
Proof.
  intros Ht Hf He Hn Hg. destruct (table_bucket o ls (ENTRYHASH e) Ht) as (l & Hi & Hl & _).
  destruct (push_ok o ls (ENTRYHASH e mod num_buckets o) l e (tb_linked _ _ Ht) Hi) as (o' & Hrun & Hk & Hkept);
    [by eapply not_in_table|done|]. exists o'. split; [done|]. split; [done|].
  eapply (add_entry o o' ls f [] e l); [done..| ]. pose proof (tb_group _ _ Ht) as Hgs. rewrite Forall_forall in Hgs.
  assert (grouped l) as Hgl by (eapply Hgs, list_elem_of_lookup_2; exact Hi). split; [|done].
  destruct Hg as [Hnil|(c & Hc & Hkey)].
  - apply lead_other. apply Forall_forall. intros b Hb. apply other_key. intros Hkb.
    assert (b ∈ f (key e)) as Hin; [|rewrite Hnil in Hin; set_solver]. rewrite Hf, <- Hkb. apply in_lists; [done|]. by eapply concat_in.
  - rewrite Hl in Hc. destruct l as [|c' l]; [done|]. injection Hc as ->. cbn [app lead].
    rewrite (proj2 (ho_entries (HashOk := Hok) c e)) by done. apply (lead_key c); [done|]. apply Hgl.
Qed.

Lemma hash_insert_ok o f e : represents o f → e ∉ f (key e) → is_Some (next o !! e) →
  ∃ r o', Insert e o = Some (r, o', []) ∧
    match f (key e) with
    | c :: _ => r = (false, Some c) ∧ o' = o
    | [] => r = (true, None) ∧ kept o o' ∧ ∃ f', represents o' f' ∧ added f f' e
    end.
Proof.
  intros (ls & Ht & Hf) He Hn. destruct (table_bucket o ls (ENTRYHASH e) Ht) as (l & Hi & Hl & q & Hq & Hc & Hnd & Hfuel).
  unfold CHash.Insert. rewrite (bind_at mget _ o o o), (bind_at _ _ _ _ _ (index_at o _)), (bind_at _ _ _ _ _ (get_bucket_at _ _ _ Hq)) by done.
  rewrite (bind_at _ _ _ _ _ (insert_loop_ok o e _ q l Hc Hfuel)).
  assert (entries_of (key e) l = f (key e)) as -> by (rewrite Hf; unfold lists; by rewrite key_bucket, Hl).
  destruct (f (key e)) as [|c fl] eqn:Hfe; cbn [head].
  - destruct (push_entry o ls f e) as (o' & Hrun & Hkept & Hrep); [done..|by rewrite Hfe|done|by left|].
    rewrite (bind_at _ _ _ _ _ Hrun). eexists _, o'. split; [done|]. by split_and!.
  - eexists _, o. split; [done|]. done.
Qed.

Lemma insert_between o ls i pre a c post e :
  linked o ls → ls !! i = Some (pre ++ a :: c :: post) → e ∉ concat ls → is_Some (next o !! e) →
  ∃ o', (set_next e (Some c);; set_next a (Some e)) o = Some (tt, o', []) ∧
    linked o' (<[i := pre ++ a :: e :: c :: post]> ls) ∧ kept o o'.
Proof.
  intros Hk Hi He [q0 Hq0]. destruct (linked_lookup o ls _ _ Hk Hi) as (q & Hq & Hl & Hnd & _).
  destruct (concat_insert ls _ _ (pre ++ a :: c :: post) Hi) as [_ Hp].
  assert (e ∉ pre ++ a :: c :: post) as Hel by (intros Hin; by eapply He, concat_in).
  apply hash_chain_at in Hl as Ha. destruct Ha as [Ha Hrest]. assert (a ≠ e) as Hae by set_solver.
  rewrite (bind_at _ _ _ _ _ (set_next_at _ _ _ (Some c) Hq0)).
  rewrite (set_next_at _ a (Some c)) by (cbn; by rewrite lookup_insert_ne). eexists. split; [done|]. cbn. split.
  - eapply linked_update; [exact Hk|exact Hi|cbn; by rewrite list_insert_id| | |]; cbn.
    + apply NoDup_app in Hnd as (_ & Hd & Hnd). apply NoDup_cons in Hnd as [Hna _].
      apply (chain_relink _ q pre a (c :: post) (e :: c :: post)); [|cbn [head]|intros Hin; by apply (Hd a Hin), list_elem_of_here].
      * eapply hash_chain_frame; [|exact Hl]. intros b Hb. rewrite lookup_insert_ne; [done|congruence].
      * split; [done|]. exists (Some c). rewrite lookup_insert_ne, lookup_insert_eq by done. split; [done|].
        eapply hash_chain_frame; [|exact Hrest]. intros b Hb. rewrite !lookup_insert_ne; [done|intros ->; set_solver|intros ->; by apply Hna].
    + intros b Hb Hb'. rewrite !lookup_insert_ne; [done|intros ->; apply Hb'; set_solver|intros ->; apply Hb; set_solver].
    + assert (pre ++ a :: e :: c :: post ≡ₚ e :: pre ++ a :: c :: post) as -> by (by rewrite (Permutation_middle _ (a :: c :: post) e), (Permutation_swap a e)).
      rewrite <- app_comm_cons, <- Hp. constructor; [done|apply Hk].
  - split; [done|]. cbn. rewrite dom_insert_same by (rewrite lookup_insert_ne by done; by rewrite Ha). by apply dom_insert_same.
Qed.

Lemma InsertMulti_ok o f e : represents o f → e ∉ f (key e) → is_Some (next o !! e) →
  ∃ o', InsertMulti e o = Some (tt, o', []) ∧ kept o o' ∧ ∃ f', represents o' f' ∧ added f f' e.
Proof.
  intros (ls & Ht & Hf) He Hn. destruct (table_bucket o ls (ENTRYHASH e) Ht) as (l & Hi & Hl & q & Hq & Hc & Hnd & Hfuel).
  unfold CHash.InsertMulti. rewrite (bind_at mget _ o o o), (bind_at _ _ _ _ _ (index_at o _)), (bind_at _ _ _ _ _ (get_bucket_at _ _ _ Hq)) by done.
  destruct (multi_loop_ok o e _ None q l Hc Hfuel) as (pre & post & -> & Hpre & Hpost & Hrun). rewrite (bind_at _ _ _ _ _ Hrun).
  destruct post as [|c post]; cbn [head].
  - destruct (push_entry o ls f e) as (o' & Hp & Hrep); [done..| |by exists o']. left. rewrite Hf. unfold lists.
    rewrite key_bucket, Hl, app_nil_r. by apply entries_other.
  - pose proof (Hpost c eq_refl) as Hkey. destruct pre as [|a pre _] using rev_ind; [|rewrite last_snoc].
    + destruct (push_entry o ls f e) as (o' & Hp & Hrep); [done..| |by exists o']. right. exists c. by rewrite Hl.
    + rewrite <- app_assoc in Hi. cbn [app] in Hi.
      destruct (insert_between o ls _ pre a c post e (tb_linked _ _ Ht) Hi) as (o' & Hr & Hk & Hkept); [by eapply not_in_table|done|].
      exists o'. split; [exact Hr|]. split; [done|]. pose proof (tb_group _ _ Ht) as Hgs. rewrite Forall_forall in Hgs.
      apply list_elem_of_lookup_2 in Hi as Hin. apply Hgs in Hin.
      assert (Forall (λ b, key b ≠ key c) (pre ++ [a])) as Hpre' by (by rewrite Hkey).
      eapply (add_entry o o' ls f (pre ++ [a]) e (c :: post)); rewrite <- ?app_assoc; cbn [app]; try done.
      apply (grouped_insert e c (pre ++ [a]) post) in Hpre'; rewrite <- ?app_assoc in *; cbn [app] in *; done.
Qed.

Lemma hash_find_ok o f k : represents o f → Lookup k o = Some (head (f k), o, []).
Proof.
  intros (ls & Ht & Hf). destruct (table_bucket o ls (KEYHASH k) Ht) as (l & Hi & Hl & q & Hq & Hc & Hnd & Hfuel).
  unfold CHash.Lookup. rewrite (bind_at mget _ o o o), (bind_at _ _ _ _ _ (index_at o _)), (bind_at _ _ _ _ _ (get_bucket_at _ _ _ Hq)) by done.
  rewrite (hash_lookup_loop_ok o k _ q l Hc Hfuel), Hf. unfold lists. by rewrite Hl.
Qed.

(** An entry of the table in its chain. *)
Lemma in_chain o ls f e : table o ls → (∀ k, f k = lists o ls k) → e ∈ f (key e) →
  ∃ pre post, ls !! bucket_of o (ENTRYHASH e) = Some (pre ++ e :: post) ∧ (e ∉ pre) ∧
    f (key e) = entries_of (key e) pre ++ e :: entries_of (key e) post.
Proof.
  intros Ht Hf He. destruct (table_bucket o ls (ENTRYHASH e) Ht) as (l & Hi & Hl & q & Hq & Hc & Hnd & Hfuel).
  rewrite Hf in He. unfold lists in He. rewrite key_bucket, Hl in He. apply list_elem_of_filter in He as [_ He].
  apply list_elem_of_split in He as (pre & post & ->). exists pre, post. split; [done|].
  apply NoDup_app in Hnd as (_ & Hd & _). split; [intros Hin; by apply (Hd e Hin), list_elem_of_here|].
  rewrite Hf. unfold lists. rewrite key_bucket, Hl. apply entries_mid.
Qed.

Lemma Remove_entry o f e : represents o f → e ∈ f (key e) →
  ∃ o', Remove e o = Some (tt, o', []) ∧ kept o o' ∧ ∃ f', represents o' f' ∧ removed f f' e.
Proof.
  intros (ls & Ht & Hf) He. destruct (in_chain o ls f e Ht Hf He) as (pre & post & Hi & Hn & Hfe).
  destruct (linked_lookup o ls _ _ (tb_linked _ _ Ht) Hi) as (q & Hq & Hc & Hnd & Hfuel).
  unfold CHash.Remove. rewrite (bind_at mget _ o o o), (bind_at _ _ _ _ _ (index_at o _)), (bind_at _ _ _ _ _ (get_bucket_at _ _ _ Hq)) by done.
  rewrite length_app in Hfuel. rewrite (bind_at _ _ _ _ _ (remove_loop_ok o (chain_fuel o) None q pre e post Hc Hn ltac:(lia))).
  destruct (hash_unlink_ok o ls (ENTRYHASH e mod num_buckets o) pre e post (tb_linked _ _ Ht) Hi) as (o' & Hrun & Hk & Hkept).
  exists o'. split; [by destruct (last pre)|]. split; [done|].
  pose proof (tb_place _ _ Ht _ _ Hi) as Hp. apply Forall_app in Hp as [Hp1 Hp2]. apply Forall_cons in Hp2 as [_ Hp2].
  pose proof (tb_group _ _ Ht) as Hgs. rewrite Forall_forall in Hgs. apply list_elem_of_lookup_2 in Hi as Hin. apply Hgs in Hin.
  destruct (table_update o o' ls _ _ (pre ++ post) Ht Hi Hk Hkept) as [Ht' Hl]; [by apply Forall_app| |].
  { assert (pre ++ post = filter (λ b, b ≠ e) (pre ++ e :: post)) as ->; [|by apply grouped_filter].
    rewrite filter_app, filter_cons, decide_False by (intros Hne; done).
    rewrite !filter_all; [done| |]; apply Forall_forall; intros b Hb ->.
    - apply NoDup_app in Hnd as (_ & _ & Hnd). by apply NoDup_cons in Hnd as [? _].
    - done. }
  eexists. split; [by exists (<[bucket_of o (ENTRYHASH e) := pre ++ post]> ls)|]. split.
  - exists (entries_of (key e) pre), (entries_of (key e) post). split; [done|]. rewrite Hl, key_bucket, decide_True by done. apply filter_app.
  - intros k Hne. rewrite Hl, Hf. case_decide as Hb; [|done]. unfold lists. rewrite Hb, (list_lookup_total_correct _ _ _ Hi). symmetry. by apply entries_skip.
Qed.

(** The entry after another one with the same key. *)
Lemma GetNextEqual_ok o f e l1 l2 : represents o f → f (key e) = l1 ++ e :: l2 → GetNextEqual e o = Some (head l2, o, []).
Proof.
  intros (ls & Ht & Hf) He. destruct (in_chain o ls f e Ht Hf) as (pre & post & Hi & Hn & Hfe); [rewrite He; set_solver|].
  destruct (linked_lookup o ls _ _ (tb_linked _ _ Ht) Hi) as (q & Hq & Hc & Hnd & _).
  assert (entries_of (key e) post = l2) as <-.
  { rewrite He in Hfe. assert (NoDup (l1 ++ e :: l2)) as Hnf.
    { rewrite Hfe, <- entries_mid. by apply NoDup_filter. }
    rewrite Hfe in Hnf. assert (e ∉ l1) as H1.
    { rewrite <- Hfe in Hnf. apply NoDup_app in Hnf as (_ & Hd & _). intros Hin. by apply (Hd e Hin), list_elem_of_here. }
    assert (e ∉ entries_of (key e) pre) as H2 by (intros [_ ?]%list_elem_of_filter; done).
    clear -Hfe H1 H2. revert Hfe H1 H2. generalize (entries_of (key e) pre) as l3. generalize (entries_of (key e) post) as l4.
    intros l4 l3 Heq H1 H2. symmetry. by eapply pivot_unique. }
  apply hash_chain_at in Hc as [Hnext _]. pose proof (tb_group _ _ Ht) as Hgs. rewrite Forall_forall in Hgs.
  apply list_elem_of_lookup_2, Hgs in Hi as Hg.
  assert (lead e post) as Hlead. { clear -Hg. induction pre as [|b pre IH]; cbn in Hg; [by destruct Hg|]. apply IH, Hg. }
  unfold CHash.GetNextEqual. rewrite (bind_at _ _ _ _ _ (get_next_at _ _ _ Hnext)). destruct post as [|c post]; [done|]. cbn [head].
  cbn [lead] in Hlead. destruct (COMPARE_ENTRIES c e) eqn:Hce.
  - unfold entries_of. rewrite filter_cons, decide_True; [done|]. by rewrite <- same_key.
  - rewrite entries_other; [done|]. eapply Forall_impl; [exact Hlead|]. intros b. apply other_key.
Qed.

(** *** More buckets *)

Lemma double_loop_ok exp n N : 0 < n → double_loop exp n = Some N → ∃ c, N = n * c ∧ 1 ≤ c.
Proof.
  revert n. induction exp as [|exp IH]; intros n Hn; cbn [double_loop]; [intros [= <-]; exists 1; lia|].
  destruct (Z.ltb_spec (SIZE_MAX / 2) n) as [|Hle]; [done|]. change (SIZE_MAX / 2) with 2147483647 in Hle.
  unfold u32. rewrite Z.mod_small by lia. intros (c & -> & Hc)%IH; [|lia]. exists (2 * c). lia.
Qed.

(** The index in a table of [N] buckets. *)
Definition idx (N : Z) (e : Z) : nat := Z.to_nat (ENTRYHASH e mod N).

Lemma move_loop_ok N i o ls fuel front rest :
  0 < N → zlen ls = N → 0 ≤ i → linked o ls → ls !! Z.to_nat i = Some (front ++ rest) → (length rest < fuel)%nat →
  ∃ o' ls', move_loop ENTRYHASH fuel N i (last front) (head rest) o = Some (tt, o', []) ∧ linked o' ls' ∧ kept o o' ∧
    length ls' = length ls ∧ ls' !! Z.to_nat i = Some (front ++ filter (λ e, idx N e = Z.to_nat i) rest) ∧
    ∀ j, j ≠ Z.to_nat i → ls' !! j = (λ l, reverse (filter (λ e, idx N e = j) rest) ++ l) <$> ls !! j.
Proof.
  intros HN. revert o ls fuel front. induction rest as [|c rest IH]; intros o ls [|fuel] front Hlen Hi Hk Hls Hf; cbn [length] in Hf; try lia.
  { exists o, ls. split_and!; [done..|]. intros j Hj. destruct (ls !! j); done. }
  destruct (linked_lookup o ls _ _ Hk Hls) as (q & Hq & Hc & Hnd & _). apply hash_chain_at in Hc as [Hnext _].
  cbn [head move_loop]. rewrite (bind_at _ _ _ _ _ (get_next_at _ _ _ Hnext)).
  pose proof (Z.mod_pos_bound (ENTRYHASH c) N HN) as Hb. destruct (Z.eqb_spec (ENTRYHASH c mod N) i) as [He|Hne].
  - destruct (IH o ls fuel (front ++ [c]) Hlen Hi Hk) as (o' & ls' & Hrun & Hk' & Hkept & Hl' & Hi' & Hj); [by rewrite <- app_assoc|lia|].
    rewrite last_snoc in Hrun. exists o', ls'. assert (idx N c = Z.to_nat i) as Hci by (unfold idx; by rewrite He).
    split_and!; [done..| |].
    + rewrite Hi', filter_cons, decide_True by done. by rewrite <- app_assoc.
    + intros j Hji. rewrite Hj by done. rewrite filter_cons, decide_False by congruence. done.
  - assert (idx N c ≠ Z.to_nat i) as Hci by (unfold idx; lia).
    destruct (hash_unlink_ok o ls i front c rest Hk Hls) as (o1 & Hrun1 & Hk1 & Hkept1). rewrite (bind_at _ _ _ _ _ Hrun1).
    set (ls1 := <[Z.to_nat i := front ++ rest]> ls) in *.
    destruct (lookup_lt_is_Some_2 ls (idx N c)) as [lj Hlj]; [unfold idx; lia|].
    assert (ls1 !! idx N c = Some lj) as Hlj1 by (unfold ls1; by rewrite list_lookup_insert_ne).
    destruct (push_ok o1 ls1 (ENTRYHASH c mod N) lj c Hk1 Hlj1) as (o2 & Hrun2 & Hk2 & Hkept2).
    { destruct (concat_insert ls _ _ (front ++ rest) Hls) as [Hp1 Hp]. unfold ls1. rewrite Hp1. destruct Hk as [_ Hnda]. rewrite Hp in Hnda.
      rewrite <- app_assoc in Hnda |- *. cbn [app] in Hnda. rewrite <- Permutation_middle in Hnda. by apply NoDup_cons in Hnda as [? _]. }
    { apply elem_of_dom. rewrite (proj2 Hkept1). apply elem_of_dom. by rewrite Hnext. }
    rewrite (bind_at _ _ _ _ _ Hrun2). fold (idx N c) in Hk2. set (ls2 := <[idx N c := c :: lj]> ls1) in *.
    apply lookup_lt_Some in Hls as Hlt. apply lookup_lt_Some in Hlj1 as Hlt1.
    assert (ls2 !! Z.to_nat i = Some (front ++ rest)) as Hls2.
    { unfold ls2. rewrite list_lookup_insert_ne by done. unfold ls1. by rewrite list_lookup_insert_eq. }
    destruct (IH o2 ls2 fuel front) as (o' & ls' & Hrun & Hk' & Hkept & Hl' & Hi' & Hj);
      [unfold ls2, ls1; by rewrite !length_insert|done..|lia|].
    exists o', ls'. split_and!; [done..|by etrans; [|etrans; [|exact Hkept]]| | |].
    + rewrite Hl'. unfold ls2, ls1. by rewrite !length_insert.
    + by rewrite Hi', filter_cons, decide_False.
    + intros j Hji. rewrite Hj by done. rewrite filter_cons. unfold ls2. destruct (decide (idx N c = j)) as [<-|Hcj].
      * rewrite list_lookup_insert_eq, Hlj by done. cbn [fmap option_fmap option_map]. by rewrite reverse_cons, <- app_assoc.
      * rewrite list_lookup_insert_ne by done. unfold ls1. by rewrite list_lookup_insert_ne by done.
Qed.

(** *** Reversing *)

Lemma reverse_loop_ok o fuel q acc link rest : chain (next o) q acc → chain (next o) link rest → NoDup (acc ++ rest) → (length rest < fuel)%nat →
  ∃ o' q', reverse_loop fuel q link o = Some (q', o', []) ∧ chain (next o') q' (reverse rest ++ acc) ∧ kept o o' ∧ buckets o' = buckets o ∧
    ∀ a, a ∉ rest → next o' !! a = next o !! a.
Proof.
  revert o fuel q acc link. induction rest as [|c rest IH]; intros o [|fuel] q acc link Hacc Hc Hnd Hf; cbn [length] in Hf; try lia; cbn [chain] in Hc.
  { subst. exists o, q. by split_and!. }
  destruct Hc as (-> & q' & Hq' & Hc). cbn [reverse_loop]. rewrite (bind_at _ _ _ _ _ (get_next_at _ _ _ Hq')), (bind_at _ _ _ _ _ (set_next_at _ _ _ q Hq')).
  rewrite <- Permutation_middle in Hnd. apply NoDup_cons in Hnd as [Hn Hnd]. rewrite elem_of_app in Hn.
  set (o1 := mk _ _ _). destruct (IH o1 fuel (Some c) (c :: acc) q') as (o' & q2 & Hrun & Hc' & Hkept & Hb & Hfr).
  - cbn. split; [done|]. exists q. rewrite lookup_insert_eq. split; [done|]. eapply hash_chain_frame; [|exact Hacc].
    intros a Ha. rewrite lookup_insert_ne; [done|]. intros ->. tauto.
  - eapply hash_chain_frame; [|exact Hc]. intros a Ha. cbn. rewrite lookup_insert_ne; [done|]. intros ->. tauto.
  - cbn [app]. constructor; [rewrite elem_of_app; tauto|done].
  - lia.
  - exists o', q2. split; [done|]. rewrite reverse_cons, <- app_assoc. split; [done|]. split; [|split; [done|]].
    + etrans; [|exact Hkept]. split; [done|]. cbn. apply dom_insert_same. by rewrite Hq'.
    + intros a Ha. rewrite Hfr by set_solver. cbn. rewrite lookup_insert_ne; [done|set_solver].
Qed.

Lemma reverse_buckets_ok k i o ls : 0 ≤ i → linked o ls → (Z.to_nat i + k ≤ length ls)%nat →
  ∃ o' ls', reverse_buckets k i o = Some (tt, o', []) ∧ linked o' ls' ∧ kept o o' ∧ length ls' = length ls ∧
    ∀ j, ls' !! j = (if decide (Z.to_nat i ≤ j < Z.to_nat i + k)%nat then reverse <$> ls !! j else ls !! j).
Proof.
  revert i o ls. induction k as [|k IH]; intros i o ls Hi Hk Hlen; cbn [reverse_buckets].
  { exists o, ls. split_and!; try done. intros j. rewrite decide_False by lia. done. }
  destruct (lookup_lt_is_Some_2 ls (Z.to_nat i)) as [l Hl]; [lia|].
  destruct (linked_lookup o ls _ l Hk Hl) as (q & Hq & Hc & Hnd & Hf). rewrite (bind_at mget _ o o o), (bind_at _ _ _ _ _ (get_bucket_at _ _ _ Hq)) by done.
  destruct (reverse_loop_ok o (chain_fuel o) None [] q l) as (o1 & q1 & Hrun & Hc1 & Hkept1 & Hb1 & Hfr); [done..|].
  rewrite (bind_at _ _ _ _ _ Hrun). rewrite app_nil_r in Hc1.
  rewrite (bind_at _ _ _ _ _ (set_bucket_at o1 i q q1 ltac:(by rewrite Hb1))). set (o2 := mk _ _ _).
  assert (linked o2 (<[Z.to_nat i := reverse l]> ls)) as Hk2.
  { eapply linked_update; [exact Hk|exact Hl|cbn; by rewrite Hb1|exact Hc1| |].
    - intros a Ha _. cbn. by apply Hfr.
    - destruct (concat_insert ls _ l l Hl) as [_ Hp]. rewrite reverse_Permutation, <- Hp. apply Hk. }
  destruct (IH (i + 1) o2 _ ltac:(lia) Hk2) as (o' & ls' & Hrun' & Hk' & Hkept' & Hl' & Hj); [rewrite length_insert; lia|].
  exists o', ls'. split; [done|]. split; [done|]. split; [etrans; [exact Hkept1|exact Hkept']|]. split; [by rewrite Hl', length_insert|].
  intros j. rewrite Hj. destruct (decide (j = Z.to_nat i)) as [->|Hne].
  - rewrite decide_False, decide_True by lia. rewrite list_lookup_insert_eq by lia. by rewrite Hl.
  - rewrite list_lookup_insert_ne by done. destruct (decide _), (decide _); try done; lia.
Qed.

(** *** The whole move *)

Section multiply.
Context (n N c : Z) (orig : list (list Z)).
Context (Hn : 0 < n) (HN : N = n * c) (Hc : 1 ≤ c) (Horig : zlen orig = n).
Context (Hplace : ∀ i l e, orig !! i = Some l → e ∈ l → Z.to_nat (ENTRYHASH e mod n) = i).

(** The entries for new bucket [j], which come from the old bucket [j mod n]. *)
Definition share (j : nat) : list Z := filter (λ e, idx N e = j) (orig !!! (j mod Z.to_nat n)%nat).

Lemma idx_mod e : (idx N e mod Z.to_nat n)%nat = Z.to_nat (ENTRYHASH e mod n).
Proof.
  unfold idx. pose proof (Z.mod_pos_bound (ENTRYHASH e) N ltac:(nia)). rewrite <- Z2Nat.inj_mod by lia. f_equal.
  apply Z.mod_mod_divide. exists c. lia.
Qed.

(** Nothing moves from old bucket [i] to a bucket [j] with another remainder. *)
Lemma no_share i l j : orig !! i = Some l → (j mod Z.to_nat n)%nat ≠ i → filter (λ e, idx N e = j) l = [].
Proof.
  intros Hi Hj. apply filter_none, Forall_forall. intros e He Hx. apply Hj. rewrite <- Hx, idx_mod. by eapply Hplace.
Qed.

(** The chains when the old buckets before [i] are done. *)
Definition stage (i : nat) (ls : list (list Z)) : Prop :=
  zlen ls = N ∧ ∀ j, (j < Z.to_nat N)%nat → ls !! j = Some
    (if decide (j < Z.to_nat n)%nat then if decide (j < i)%nat then share j else orig !!! j
     else if decide (j mod Z.to_nat n < i)%nat then reverse (share j) else []).

Lemma move_buckets_ok k i o ls : 0 ≤ i → (Z.to_nat i + k = Z.to_nat n)%nat → linked o ls → stage (Z.to_nat i) ls →
  ∃ o' ls', move_buckets ENTRYHASH k N i o = Some (tt, o', []) ∧ linked o' ls' ∧ kept o o' ∧ stage (Z.to_nat n) ls'.
Proof.
  revert i o ls. induction k as [|k IH]; intros i o ls Hi Hik Hk Hst; cbn [move_buckets].
  { exists o, ls. replace (Z.to_nat n) with (Z.to_nat i) by lia. by split_and!. }
  pose proof Hst as [Hlen Hat]. destruct (lookup_lt_is_Some_2 orig (Z.to_nat i)) as [l Hl]; [lia|].
  assert (ls !! Z.to_nat i = Some l) as Hli.
  { rewrite Hat by nia. rewrite decide_True, decide_False by lia. by rewrite (list_lookup_total_correct _ _ _ Hl). }
  destruct (linked_lookup o ls _ l Hk Hli) as (q & Hq & Hch & _ & Hf). rewrite (chain_head _ _ _ Hch) in Hq.
  rewrite (bind_at mget _ o o o), (bind_at _ _ _ _ _ (get_bucket_at _ _ _ Hq)) by done.
  destruct (move_loop_ok N i o ls (chain_fuel o) [] l) as (o1 & ls1 & Hrun & Hk1 & Hkept1 & Hl1 & Hi1 & Hj1); [nia|done..|].
  cbn [last] in Hrun. rewrite (bind_at _ _ _ _ _ Hrun).
  destruct (IH (i + 1) o1 ls1) as (o' & ls' & Hrun' & Hk' & Hkept' & Hst'); [lia..|done| |].
  - replace (Z.to_nat (i + 1)) with (S (Z.to_nat i)) by lia. split; [by rewrite Hl1|]. intros j Hj.
    destruct (decide (j = Z.to_nat i)) as [->|Hne].
    + rewrite Hi1. rewrite !decide_True by lia. cbn [app]. unfold share. rewrite Nat.mod_small by lia. by rewrite (list_lookup_total_correct _ _ _ Hl).
    + rewrite Hj1, Hat by done. cbn [fmap option_fmap option_map]. f_equal.
      destruct (decide (j < Z.to_nat n)%nat) as [Hjn|Hjn].
      * rewrite (no_share _ l j Hl) by (rewrite Nat.mod_small; lia). cbn [reverse rev_append app].
        destruct (decide (j < Z.to_nat i)%nat), (decide (j < S (Z.to_nat i))%nat); try done; lia.
      * destruct (decide (j mod Z.to_nat n = Z.to_nat i)%nat) as [Heq|Hneq].
        -- rewrite (decide_False (P := (j mod Z.to_nat n < Z.to_nat i)%nat)), decide_True by lia. rewrite app_nil_r. unfold share.
           by rewrite Heq, (list_lookup_total_correct _ _ _ Hl).
        -- rewrite (no_share _ l j Hl) by done. cbn [reverse rev_append app].
           destruct (decide (j mod Z.to_nat n < Z.to_nat i)%nat), (decide (j mod Z.to_nat n < S (Z.to_nat i))%nat); try done; lia.
  - exists o', ls'. split_and!; try done. by etrans.
Qed.

Lemma move_and_reverse o ls : linked o ls → stage 0 ls →
  ∃ o1 o2 ls', move_buckets ENTRYHASH (Z.to_nat n) N 0 o = Some (tt, o1, []) ∧
    reverse_buckets (Z.to_nat (N - n)) n o1 = Some (tt, o2, []) ∧ linked o2 ls' ∧ kept o o2 ∧ zlen ls' = N ∧
    ∀ j, (j < Z.to_nat N)%nat → ls' !! j = Some (share j).
Proof.
  intros Hk Hst. destruct (move_buckets_ok (Z.to_nat n) 0 o ls) as (o1 & ls1 & Hrun1 & Hk1 & Hkept1 & Hl1 & Hat1); [lia..|done|done|].
  destruct (reverse_buckets_ok (Z.to_nat (N - n)) n o1 ls1) as (o2 & ls2 & Hrun2 & Hk2 & Hkept2 & Hl2 & Hat2); [lia|done|nia|].
  exists o1, o2, ls2. split_and!; [done..|by etrans|lia|]. intros j Hj. rewrite Hat2, Hat1 by done.
  pose proof (Nat.mod_upper_bound j (Z.to_nat n)). destruct (decide (j < Z.to_nat n)%nat).
  - rewrite decide_False by lia. done.
  - rewrite decide_True by nia. rewrite decide_True by lia. cbn [fmap option_fmap option_map]. by rewrite reverse_involutive.
Qed.
End multiply.

Lemma MultiplyBuckets_ok o f exp ok : represents o f → 0 < exp →
  ∃ r o', MultiplyBuckets exp ok o = Some (r, o', []) ∧ represents o' f ∧ dom (next o') = dom (next o) ∧ (r = false → o' = o).
Proof.
  intros (ls & Ht & Hf) He. pose proof (tb_num _ _ Ht) as Hn. pose proof (tb_len _ _ Ht) as Hlen.
  unfold CHash.MultiplyBuckets. rewrite (bind_at _ _ tt o o) by (unfold ASSERT; by rewrite (proj2 (Z.ltb_lt _ _)), orb_true_r).
  rewrite (bind_at mget _ o o o) by done.
  destruct (double_loop (Z.to_nat exp) (num_buckets o)) as [N|] eqn:Hd; [|exists false, o; split_and!; try done; by exists ls].
  destruct ok; [|exists false, o; split_and!; try done; by exists ls].
  destruct (double_loop_ok _ _ _ Hn Hd) as (c & HN & Hc). set (n := num_buckets o) in *.
  set (o0 := mk n (buckets o ++ replicate (Z.to_nat (N - n)) None) (next o)). rewrite (bind_at (mput o0) _ tt o o0) by done.
  assert (Hplace : ∀ i l e, ls !! i = Some l → e ∈ l → Z.to_nat (ENTRYHASH e mod n) = i).
  { intros i l e Hi. pose proof (tb_place _ _ Ht i l Hi) as Hp. rewrite Forall_forall in Hp. apply Hp. }
  destruct (move_and_reverse n N c ls Hn HN Hc Hlen Hplace o0 (ls ++ replicate (Z.to_nat (N - n)) []))
    as (o1 & o2 & ls' & Hrun1 & Hrun2 & Hk & [_ Hdom] & Hl' & Hat).
  { destruct (tb_linked _ _ Ht) as [Hch Hnd]. split.
    - apply Forall2_app; [exact Hch|]. apply Forall2_replicate. done.
    - rewrite concat_app. assert (concat (replicate (Z.to_nat (N - n)) (@nil Z)) = []) as ->; [|by rewrite app_nil_r].
      generalize (Z.to_nat (N - n)). intros k. induction k; [done|by cbn]. }
  { split; [rewrite length_app, length_replicate; nia|]. intros j Hj. destruct (decide (j < Z.to_nat n)%nat) as [Hjn|Hjn].
    - rewrite decide_False by lia. destruct (lookup_lt_is_Some_2 ls j) as [l Hl]; [lia|].
      rewrite lookup_app_l by lia. by rewrite Hl, (list_lookup_total_correct _ _ _ Hl).
    - rewrite decide_False by lia. rewrite lookup_app_r by lia. apply lookup_replicate_2. nia. }
  rewrite (bind_at _ _ _ _ _ Hrun1), (bind_at _ _ _ _ _ Hrun2). set (o3 := mk N (buckets o2) (next o2)).
  rewrite (bind_at (mmodify _) _ tt o2 o3) by done. exists true, o3. split; [done|]. split; [|split; [exact Hdom|done]].
  assert (∀ j l, ls' !! j = Some l → l = share n N ls j) as Hsh.
  { intros j l Hj. apply lookup_lt_Some in Hj as Hlt. rewrite Hat in Hj by lia. by injection Hj. }
  exists ls'. split.
  - split; [exact Hk|cbn; nia|exact Hl'| |].
    + intros i l Hi. apply Hsh in Hi as ->. apply Forall_forall. intros e [Hx _]%list_elem_of_filter. exact Hx.
    + apply Forall_forall. intros l (j & Hj)%list_elem_of_lookup. apply Hsh in Hj as ->. apply grouped_filter.
      destruct (ls !! (j mod Z.to_nat n)%nat) as [l0|] eqn:Hl; [|by rewrite list_lookup_total_alt, Hl].
      rewrite (list_lookup_total_correct _ _ _ Hl). pose proof (tb_group _ _ Ht) as Hg. rewrite Forall_forall in Hg. eapply Hg, list_elem_of_lookup_2, Hl.
  - intros k. rewrite Hf. unfold lists. pose proof (Z.mod_pos_bound (KEYHASH k) N ltac:(nia)) as Hb.
    set (j := bucket_of o3 (KEYHASH k)). assert (j < Z.to_nat N)%nat as Hj by (unfold j, bucket_of; cbn; lia).
    rewrite (list_lookup_total_correct _ _ _ (Hat j Hj)). unfold share.
    assert ((j mod Z.to_nat n)%nat = bucket_of o (KEYHASH k)) as ->.
    { unfold j, bucket_of. cbn. fold n. rewrite <- Z2Nat.inj_mod by lia. f_equal. apply Z.mod_mod_divide. exists c. lia. }
    symmetry. apply list_filter_filter_l. intros e He'. apply (ho_key (HashOk := Hok)) in He' as ->. unfold idx. by rewrite (ho_hash (HashOk := Hok)).
Qed.

(** *** Verification *)

Lemma lead_between b mid c rest : lead b (mid ++ c :: rest) → key c = key b → Forall (λ x, key x = key b) mid.
Proof.
  intros Hl Hc. induction mid as [|x mid IH]; [done|]. cbn [app lead] in Hl. destruct (COMPARE_ENTRIES x b) eqn:Hx.
  - constructor; [by apply (ho_entries (HashOk := Hok))|by apply IH].
  - exfalso. apply Forall_cons in Hl as [_ Hl]. apply Forall_app in Hl as [_ Hl]. apply Forall_cons in Hl as [Hl _]. by apply other_key in Hl.
Qed.

Lemma grouped_between pre b mid c rest : grouped (pre ++ b :: mid ++ c :: rest) → key c = key b → Forall (λ x, key x = key b) mid.
Proof. induction pre as [|x pre IH]; cbn [app grouped]; intros [Hl Hg] Hc; [by eapply lead_between|by apply IH]. Qed.

Lemma verify_before_ok o cur sf fuel q pre post : chain (next o) q (pre ++ sf :: post) → sf ∉ pre → Forall (λ b, key b ≠ key cur) pre →
  (length pre < fuel)%nat → verify_before COMPARE_ENTRIES fuel sf cur q o = Some (tt, o, []).
Proof.
  revert fuel q. induction pre as [|b pre IH]; intros [|fuel] q Hc Hn Hpre Hf; cbn [length] in Hf; try lia; cbn [app chain] in Hc;
    destruct Hc as (-> & q' & Hq & Hl); cbn [verify_before].
  { by rewrite bool_decide_true. }
  apply Forall_cons in Hpre as [Hb Hpre]. rewrite bool_decide_false by (intros [= ->]; set_solver).
  rewrite (bind_at (mlift (Some b)) _ b o o) by done. apply other_key in Hb.
  rewrite (bind_at _ _ tt o o) by (by rewrite Hb). rewrite (bind_at _ _ _ _ _ (get_next_at _ _ _ Hq)). apply IH; [done|set_solver|done|lia].
Qed.

Lemma verify_chain_ok o i q l fuel pre run sf todo :
  buckets o !! Z.to_nat i = Some q → chain (next o) q l → NoDup l → grouped l → (length l < chain_fuel o)%nat →
  Forall (λ e, ENTRYHASH e mod num_buckets o = i) l →
  l = pre ++ run ++ todo → (match run with [] => pre = [] ∧ head todo = Some sf | c :: _ => c = sf end) →
  Forall (λ b, key b = key sf) run → Forall (λ b, key b ≠ key sf) pre → (length todo < fuel)%nat →
  verify_chain ENTRYHASH COMPARE_ENTRIES fuel i sf (head todo) o = Some (tt, o, []).
Proof.
  intros Hq Hc Hnd Hg Hf0 Hi. revert fuel pre run sf. induction todo as [|c todo IH]; intros [|fuel] pre run sf Hl Hsf Hrun Hpre Hf;
    cbn [length] in Hf; try lia; cbn [head verify_chain]; [done|].
  assert (c ∈ l) as Hcl by (rewrite Hl; set_solver). rewrite Forall_forall in Hi. rewrite (bind_at mget _ o o o), (bind_at _ _ _ _ _ (index_at o _)) by done.
  rewrite (bind_at _ _ tt o o) by (rewrite (Hi c Hcl); by rewrite Z.eqb_refl). rewrite (bind_at _ _ _ _ _ (get_bucket_at _ _ _ Hq)).
  assert (next o !! c = Some (head todo)) as Hnext. { rewrite Hl, app_assoc in Hc. by apply hash_chain_at in Hc as [? _]. }
  (* the run that [cur] belongs to *)
  assert (∃ pre' run', l = pre' ++ run' ++ todo ∧ (∃ r, run' = (if COMPARE_ENTRIES c sf then sf else c) :: r) ∧
    Forall (λ b, key b = key (if COMPARE_ENTRIES c sf then sf else c)) run' ∧
    Forall (λ b, key b ≠ key (if COMPARE_ENTRIES c sf then sf else c)) pre' ∧ key (if COMPARE_ENTRIES c sf then sf else c) = key c)
    as (pre' & run' & Hl' & [r Hr] & Hrun' & Hpre' & Hkc).
  { destruct (COMPARE_ENTRIES c sf) eqn:Hcs.
    - apply (ho_entries (HashOk := Hok)) in Hcs. exists pre, (run ++ [c]). split; [rewrite Hl; f_equal; by rewrite <- (app_assoc run)|]. split_and!.
      + destruct run as [|x run]; [|rewrite Hsf; by eexists]. destruct Hsf as [_ [= ->]]. by eexists.
      + apply Forall_app. split; [done|]. by constructor.
      + done.
      + done.
    - apply other_key in Hcs. exists (pre ++ run), [c]. split; [rewrite Hl; apply app_assoc|]. split; [by eexists|].
      split; [by constructor|]. split; [|done]. destruct run as [|x run].
      { destruct Hsf as [-> [= ->]]. done. }
      subst x. apply Forall_app. split; [|eapply Forall_impl; [exact Hrun|]; cbn; congruence].
      apply Forall_forall. intros b Hb Hkb. apply list_elem_of_split in Hb as (p1 & p2 & ->). rewrite Hl in Hg.
      replace ((p1 ++ b :: p2) ++ (sf :: run) ++ c :: todo) with (p1 ++ b :: (p2 ++ sf :: run) ++ c :: todo) in Hg
        by (by rewrite <- !app_assoc).
      apply grouped_between in Hg; [|done]. apply Forall_app in Hg as [_ Hg]. apply Forall_cons in Hg as [Hg _]. congruence. }
  set (sf' := if COMPARE_ENTRIES c sf then sf else c) in *. clearbody sf'.
  rewrite (bind_at _ _ tt o o).
  - rewrite (bind_at _ _ _ _ _ (get_next_at _ _ _ Hnext)). eapply (IH fuel pre' run' sf'); [done|by rewrite Hr|done|done|lia].
  - rewrite Hl', Hr in Hc, Hnd, Hf0. rewrite length_app in Hf0. cbn [app] in Hc, Hnd. eapply verify_before_ok; [exact Hc| |by rewrite <- Hkc|lia].
    apply NoDup_app in Hnd as (_ & Hd & _). intros Hin. by apply (Hd sf' Hin), list_elem_of_here.
Qed.

Lemma verify_buckets_ok o ls k i : table o ls → 0 ≤ i → i + Z.of_nat k = num_buckets o →
  verify_buckets ENTRYHASH COMPARE_ENTRIES k i o = Some (tt, o, []).
Proof.
  intros Ht. revert i. induction k as [|k IH]; intros i Hi Hik; cbn [verify_buckets]; [done|].
  pose proof (tb_len _ _ Ht). destruct (lookup_lt_is_Some_2 ls (Z.to_nat i)) as [l Hl]; [lia|].
  destruct (linked_lookup o ls _ l (tb_linked _ _ Ht) Hl) as (q & Hq & Hc & Hnd & Hf).
  rewrite (bind_at mget _ o o o), (bind_at _ _ _ _ _ (get_bucket_at _ _ _ Hq)) by done. rewrite (bind_at _ _ tt o o); [apply IH; lia|].
  pose proof (chain_head _ _ _ Hc) as Hh. destruct q as [c|]; [|done]. rewrite Hh.
  eapply (verify_chain_ok o i (Some c) l (chain_fuel o) [] [] c l); try done.
  - pose proof (tb_group _ _ Ht) as Hg. rewrite Forall_forall in Hg. by eapply Hg, list_elem_of_lookup_2.
  - eapply Forall_impl; [by apply (tb_place _ _ Ht)|]. cbn. unfold bucket_of. intros e He.
    pose proof (Z.mod_pos_bound (ENTRYHASH e) (num_buckets o) (tb_num _ _ Ht)). lia.
Qed.

Lemma hash_verify_ok o f : represents o f → CHash.Verify ENTRYHASH COMPARE_ENTRIES o = Some (tt, o, []).
Proof.
  intros (ls & Ht & _). pose proof (tb_num _ _ Ht). unfold CHash.Verify. rewrite (bind_at mget _ o o o) by done.
  rewrite (bind_at _ _ tt o o) by (by rewrite (proj2 (Z.ltb_lt _ _))). eapply verify_buckets_ok; [done|lia..].
Qed.

Lemma hash_init_ok h n o : 0 ≤ n → Init h n true = Some o → represents o (λ _, []) ∧ next o = h.
Proof.
  intros Hn. unfold Init. set (m := if n =? 0 then 1 else n). assert (0 < m) as Hm by (unfold m; destruct (Z.eqb_spec n 0); lia).
  intros [= <-]. split; [|done]. exists (replicate (Z.to_nat m) []).
  assert (∀ i l, replicate (Z.to_nat m) (@nil Z) !! i = Some l → l = []) as Hnil by (intros i l [-> _]%lookup_replicate; done). split.
  - split; cbn; [|done|rewrite length_replicate; lia| |].
    + split; cbn; [by apply Forall2_replicate|]. assert (concat (replicate (Z.to_nat m) (@nil Z)) = []) as ->; [|constructor].
      generalize (Z.to_nat m). intros k. induction k; [done|by cbn].
    + intros i l Hi. apply Hnil in Hi as ->. done.
    + apply Forall_forall. intros l (i & Hi)%list_elem_of_lookup. by apply Hnil in Hi as ->.
  - intros k. unfold lists. rewrite list_lookup_total_alt. destruct (_ !! _) as [l|] eqn:Hl; [apply Hnil in Hl as ->|]; done.
Qed.

(** A hash table of structure/CHash_impl.h is a map from keys to the lists of
    their entries: inserting adds an entry whose key is not there and otherwise
    returns the one that is, inserting with duplicates puts it in front of the equal
    ones, removing takes it out, looking up finds the first entry of a key, the next
    equal entry is the next one of the list, and multiplying the number of buckets,
    which moves and reverses the chains, changes none of the lists, nor anything when
    memory or the range of [size_t] does not allow it; the table passes its own
    verification.  No operation follows a null link or goes on for ever. *)
Theorem chash_is_map o f :
  represents o f →
  CHash.Verify ENTRYHASH COMPARE_ENTRIES o = Some (tt, o, []) ∧
  (∀ k, Lookup k o = Some (head (f k), o, [])) ∧
  (∀ e l1 l2, f (key e) = l1 ++ e :: l2 → GetNextEqual e o = Some (head l2, o, [])) ∧
  (∀ e, e ∉ f (key e) → is_Some (next o !! e) →
     ∃ r o', Insert e o = Some (r, o', []) ∧
       match f (key e) with
       | c :: _ => r = (false, Some c) ∧ o' = o
       | [] => r = (true, None) ∧ kept o o' ∧ ∃ f', represents o' f' ∧ added f f' e
       end) ∧
  (∀ e, e ∉ f (key e) → is_Some (next o !! e) →
     ∃ o', InsertMulti e o = Some (tt, o', []) ∧ kept o o' ∧ ∃ f', represents o' f' ∧ added f f' e) ∧
  (∀ e, e ∈ f (key e) → ∃ o', Remove e o = Some (tt, o', []) ∧ kept o o' ∧ ∃ f', represents o' f' ∧ removed f f' e) ∧
  (∀ exp ok, 0 < exp → ∃ r o', MultiplyBuckets exp ok o = Some (r, o', []) ∧ represents o' f ∧
     dom (next o') = dom (next o) ∧ (r = false → o' = o)).
Proof.
  intros Hr. split_and!; intros; [by eapply hash_verify_ok|by apply hash_find_ok|by eapply GetNextEqual_ok|by apply hash_insert_ok|by apply InsertMulti_ok|
    by apply Remove_entry|by apply MultiplyBuckets_ok].
Qed.
End chash_spec.
End CHash.

(** ** Examples *)

Section chash_examples.
Import CHash.
#[local] Instance chash_build : Build := false.

(** Entries whose key is their tens, which is also the hash. *)
Definition tens (e : Z) : Z := e / 10.
Definition same_tens (a b : Z) : bool := tens a =? tens b.
Definition has_tens (k a : Z) : bool := k =? tens a.

#[local] Instance tens_ok : HashOk tens tens same_tens id has_tens.
Proof.
  split; [intros a b; unfold same_tens; apply Z.eqb_eq|intros k a; unfold has_tens; apply Z.eqb_eq|done].
Qed.

Definition tens_mem : gmap Z (option Z) := list_to_map (map (λ e, (e, None)) [10; 11; 12; 21; 25; 39; 52]).

Definition tens_table : t := match Init tens_mem 2 true with Some o => o | None => mk 0 [] ∅ end.

Lemma chash_is_map_witness : ∃ r o',
  Insert tens same_tens 10 tens_table = Some (r, o', []) ∧ r = (true, None).
Proof.
  destruct (hash_init_ok tens same_tens id has_tens tens_mem 2 tens_table ltac:(lia) eq_refl) as [Hr _].
  destruct (chash_is_map tens tens same_tens id has_tens false tens_table _ Hr) as (_ & _ & _ & Hins & _).
  destruct (Hins 10 (not_elem_of_nil 10)) as (r & o' & Hrun & Hres & _); [vm_compute; by eexists|]. exists r, o'. split; [exact Hrun|exact Hres].
Defined.

(** Duplicates stay in order when the table grows from two buckets to eight. *)
Definition tens_run : option (list (option Z)) :=
  let insert e := InsertMulti tens same_tens e in
  let get := Lookup tens id has_tens true in
  r ← (insert 10;; insert 21;; insert 11;; insert 39;; insert 52;; insert 12;; insert 25;;
       Remove tens 11;; MultiplyBuckets tens 2 true;; Verify tens same_tens;;
       a ← get 1; b ← GetNextEqual same_tens 12; c ← get 2; d ← get 4; mret [a; b; c; d]) tens_table;
  Some r.1.1.

Lemma tens_run_ok : tens_run = Some [Some 12; Some 10; Some 25; None].
Proof. vm_compute. reflexivity. Qed.
End chash_examples.
