(* ===== verification/Pending.v ===== *)
(** * Pending: the job queue

    Models base/BPending.c with the intrusive list of structure/SLinkedList_impl.h
    it is built on, and the counter of misc/debugcounter.h.  Jobs are objects in
    memory with links to their neighbours; a job that is not in the list has its
    [next] point at itself.  The links of a new object are uninitialised: [None],
    which also stands for a null pointer, so that following one ends the
    program.  Running a job calls its handler, which is an event. *)
From S2P Require Import Prelude Bytes.

Definition INT32_MAX : Z := 2147483647.

(** ** Lists without an element *)

Definition drop_job (p : Z) (l : list Z) : list Z := filter (λ q, q ≠ p) l.

Lemma drop_absent l p : p ∉ l → drop_job p l = l.
Proof.
  unfold drop_job. induction l as [|q l IH]; [done|]. intros [Hne Hl]%not_elem_of_cons.
  rewrite filter_cons_True by done. by rewrite IH.
Qed.

Lemma drop_at l1 l2 p : NoDup (l1 ++ p :: l2) → drop_job p (l1 ++ p :: l2) = l1 ++ l2.
Proof.
  intros (_ & Hd & Hnd)%NoDup_app. apply NoDup_cons in Hnd as [Hn _].
  unfold drop_job. rewrite filter_app, filter_cons_False by tauto. fold (drop_job p l1) (drop_job p l2).
  rewrite !drop_absent; [done|done|].
  intros Hl. apply (Hd p Hl). set_solver.
Qed.

Lemma elem_of_drop p q l : q ∈ drop_job p l ↔ q ≠ p ∧ q ∈ l.
Proof. unfold drop_job. by rewrite list_elem_of_filter. Qed.

Lemma NoDup_drop p l : NoDup l → NoDup (drop_job p l).
Proof. apply NoDup_filter. Qed.

Lemma wp_assoc {S E A B C} (m : M S E A) (f : A → M S E B) (g : B → M S E C) s Q :
  wp ((m ≫= f) ≫= g) s Q → wp (m ≫= λ a, f a ≫= g) s Q.
Proof.
  unfold wp, mbind, M_bind. destruct (m s) as [[[a s1] e1]|]; [|done]. destruct (f a s1) as [[[b s2] e2]|]; [|done].
  destruct (g b s2) as [[[c s3] e3]|]; [|done]. by rewrite app_assoc.
Qed.

Module BPending.
Section pending.
Context `{Build}.

Record BSmallPending := mk_job { handler : Z; user : Z; prev : option Z; next : option Z; pending : bool }.

(** [BPendingGroup], and the job objects in memory. *)
Record t := mk { first : option Z; pending_ctr : Z; mem : gmap Z BSmallPending }.

Inductive event := JobHandler (handler user : Z).

Abbreviation IO := (M t event).

Definition set_prev (q : option Z) (x : BSmallPending) : BSmallPending := mk_job (handler x) (user x) q (next x) (pending x).
Definition set_next (q : option Z) (x : BSmallPending) : BSmallPending := mk_job (handler x) (user x) (prev x) q (pending x).
Definition set_pending (b : bool) (x : BSmallPending) : BSmallPending := mk_job (handler x) (user x) (prev x) (next x) b.

Definition set_first (q : option Z) : IO unit := mmodify (λ o, mk q (pending_ctr o) (mem o)).
Definition get (p : Z) : IO BSmallPending := o ← mget; mlift (mem o !! p).
Definition update (p : Z) (f : BSmallPending → BSmallPending) : IO unit :=
  _ ← get p; mmodify (λ o, mk (first o) (pending_ctr o) (alter f p (mem o))).

(** ** The counter *)

Definition set_ctr (c : Z) : IO unit := mmodify (λ o, mk (first o) c (mem o)).

Definition DebugCounter_Increment : IO unit :=
  if NDEBUG then mret tt
  else
    o ← mget;
    ASSERT (0 <=? pending_ctr o);;
    when (negb (pending_ctr o =? INT32_MAX)) (set_ctr (pending_ctr o + 1)).

Definition DebugCounter_Decrement : IO unit :=
  if NDEBUG then mret tt
  else
    o ← mget;
    ASSERT (0 <? pending_ctr o);;
    when (negb (pending_ctr o =? INT32_MAX)) (set_ctr (pending_ctr o - 1)).

Definition DebugCounter_Free : IO unit :=
  if NDEBUG then mret tt
  else o ← mget; ASSERT ((pending_ctr o =? 0) || (pending_ctr o =? INT32_MAX)).

(** ** The list *)

Definition MarkRemoved (p : Z) : IO unit := update p (set_next (Some p)).

Definition IsRemoved (p : Z) : IO bool := x ← get p; mret (bool_decide (next x = Some p)).

Definition List_Prepend (p : Z) : IO unit :=
  o ← mget;
  update p (set_next (first o));;
  (match first o with Some f => update f (set_prev (Some p)) | None => mret tt end);;
  set_first (Some p).

Definition List_Remove (p : Z) : IO unit :=
  o ← mget;
  x ← get p;
  if negb (bool_decide (first o = Some p)) then
    q ← mlift (prev x);
    update q (set_next (next x));;
    match next x with Some n => update n (set_prev (prev x)) | None => mret tt end
  else set_first (next x).

Definition List_RemoveFirst : IO unit :=
  o ← mget;
  p ← mlift (first o);
  x ← get p;
  set_first (next x).

(** ** Jobs *)

(** [p->pending = b;], not compiled in with [NDEBUG] *)
Definition mark_pending (p : Z) (b : bool) : IO unit :=
  if NDEBUG then mret tt else update p (set_pending b).

(** [ASSERT(o->pending == !BPending__ListIsRemoved(o))] *)
Definition assert_pending (p : Z) : IO unit :=
  x ← get p; r ← IsRemoved p; ASSERT (Bool.eqb (pending x) (negb r)).

(** [if (!BPending__ListIsRemoved(o)) BPending__List_Remove(&g->jobs, o);] *)
Definition remove_if_set (p : Z) : IO unit := r ← IsRemoved p; when (negb r) (List_Remove p).

Definition BPendingGroup_Init : t := mk None 0 ∅.

Definition BPendingGroup_Free : IO unit :=
  DebugCounter_Free;;
  o ← mget;
  ASSERT (bool_decide (first o = None)).

Definition BPendingGroup_HasJobs (o : t) : bool := negb (bool_decide (first o = None)).

Definition BPendingGroup_PeekJob (o : t) : option Z := first o.

Definition BPendingGroup_ExecuteJob : IO unit :=
  o ← mget;
  ASSERT (BPendingGroup_HasJobs o);;
  (* get a job *)
  p ← mlift (first o);
  r ← IsRemoved p;
  x ← get p;
  ASSERT (negb r);;
  ASSERT (pending x);;
  (* remove from jobs list *)
  List_RemoveFirst;;
  (* set not pending *)
  MarkRemoved p;;
  mark_pending p false;;
  (* execute job *)
  emit (JobHandler (handler x) (user x)).

(** [p] is the memory of a new object. *)
Definition BSmallPending_Init (p : Z) (h u : Z) : IO unit :=
  mmodify (λ o, mk (first o) (pending_ctr o) (<[p := mk_job h u None None false]> (mem o)));;
  (* set not pending *)
  MarkRemoved p;;
  mark_pending p false;;
  DebugCounter_Increment.

(** The object is gone afterwards. *)
Definition BSmallPending_Free (p : Z) : IO unit :=
  DebugCounter_Decrement;;
  assert_pending p;;
  (* remove from jobs list *)
  remove_if_set p;;
  mmodify (λ o, mk (first o) (pending_ctr o) (delete p (mem o))).

Definition BSmallPending_SetHandler (p : Z) (h u : Z) : IO unit :=
  update p (λ x, mk_job h u (prev x) (next x) (pending x)).

Definition BSmallPending_Set (p : Z) : IO unit :=
  assert_pending p;;
  (* remove from jobs list *)
  remove_if_set p;;
  (* insert to jobs list *)
  List_Prepend p;;
  (* set pending *)
  mark_pending p true.

Definition BSmallPending_Unset (p : Z) : IO unit :=
  assert_pending p;;
  r ← IsRemoved p;
  when (negb r) (
    (* remove from jobs list *)
    List_Remove p;;
    (* set not pending *)
    MarkRemoved p;;
    mark_pending p false).

Definition BSmallPending_IsSet (p : Z) : IO bool :=
  assert_pending p;;
  r ← IsRemoved p;
  mret (negb r).

(** ** The list in memory *)

(** From [hd] on, the links visit [l] and then reach [tl]; [pre] is the job
    before, if there is one. *)
Fixpoint seg (h : gmap Z BSmallPending) (pre : option Z) (l : list Z) (hd tl : option Z) : Prop :=
  match l with
  | [] => hd = tl
  | p :: l => hd = Some p ∧ ∃ x, h !! p = Some x ∧ (pre = None ∨ prev x = pre) ∧ seg h (Some p) l (next x) tl
  end.

(** The part of a job that is not its links. *)
Definition core (x : BSmallPending) : Z * Z * bool := (handler x, user x, pending x).

Lemma link_seg_app h pre l1 l2 hd tl :
  seg h pre (l1 ++ l2) hd tl ↔
  ∃ mid, seg h pre l1 hd mid ∧ seg h (match last l1 with Some q => Some q | None => pre end) l2 mid tl.
Proof.
  revert pre hd. induction l1 as [|p l1 IH]; intros pre hd; cbn [seg app].
  - cbn. split; [intros ?; by exists hd|]. by intros (mid & -> & ?).
  - setoid_rewrite IH.
    assert (∀ pre', (match last (p :: l1) with Some q => Some q | None => pre' end) =
      match last l1 with Some q => Some q | None => Some p end) as Hl by (intros; rewrite last_cons; by destruct (last l1)).
    rewrite Hl. naive_solver.
Qed.

Lemma seg_frame h h' pre l hd tl :
  seg h pre l hd tl → (∀ q, q ∈ l → h' !! q = h !! q) → seg h' pre l hd tl.
Proof.
  revert pre hd. induction l as [|p l IH]; intros pre hd; cbn; [done|].
  intros (-> & x & Hx & Hp & Hs) Hf. split; [done|]. exists x. rewrite Hf by set_solver. split_and!; try done.
  apply IH; [done|]. set_solver.
Qed.

(** Another job after the last one. *)
Lemma seg_relink h pre l q hd tl tl' :
  NoDup (l ++ [q]) → seg h pre (l ++ [q]) hd tl → seg (alter (set_next tl') q h) pre (l ++ [q]) hd tl'.
Proof.
  intros Hnd. rewrite !link_seg_app. intros (mid & Hl & (-> & x & Hx & Hp & Hs)).
  apply NoDup_app in Hnd as (_ & Hd & _). exists (Some q). split.
  - eapply seg_frame; [exact Hl|]. intros r Hr. apply lookup_alter_ne. intros ->. apply (Hd r Hr). set_solver.
  - cbn. split; [done|]. exists (set_next tl' x). rewrite lookup_alter_eq, Hx. by split_and!.
Qed.

(** Another job before the first one. *)
Lemma seg_reback h pre pre' l hd :
  NoDup l → seg h pre l hd None →
  seg (match hd with Some n => alter (set_prev pre') n h | None => h end) pre' l hd None.
Proof.
  destruct l as [|p l]; cbn; [by intros _ ->|].
  intros [Hn Hnd]%NoDup_cons (-> & x & Hx & _ & Hs). split; [done|].
  exists (set_prev pre' x). rewrite lookup_alter_eq, Hx. split_and!; [done|by right|].
  eapply seg_frame; [exact Hs|]. intros q Hq. apply lookup_alter_ne. by intros ->.
Qed.

Lemma seg_in h pre l hd tl p : seg h pre l hd tl → p ∈ l → is_Some (h !! p).
Proof.
  revert pre hd. induction l as [|q l IH]; intros pre hd; cbn; [set_solver|].
  intros (_ & x & Hx & _ & Hs) [->|Hp]%elem_of_cons; [eauto|]. by eapply IH.
Qed.

(** A job in the list does not look removed. *)
Lemma seg_next h pre l hd p x :
  NoDup l → seg h pre l hd None → p ∈ l → h !! p = Some x → next x ≠ Some p.
Proof.
  intros Hnd Hs Hp Hx. apply list_elem_of_split in Hp as (l1 & l2 & ->).
  apply link_seg_app in Hs as (mid & _ & Hs). cbn in Hs. destruct Hs as (-> & y & Hy & _ & Hs).
  rewrite Hx in Hy. injection Hy as <-. apply NoDup_app in Hnd as (_ & _ & Hnd).
  apply NoDup_cons in Hnd as [Hn _]. destruct l2 as [|q l2]; cbn in Hs; [by rewrite Hs|].
  destruct Hs as (-> & _). intros [= ->]. set_solver.
Qed.

Lemma seg_weaken h pre l hd tl : seg h pre l hd tl → seg h None l hd tl.
Proof. destruct l; cbn; [done|]. intros (-> & x & ? & _ & ?). split; [done|]. exists x. by split_and!; [|left|]. Qed.

Lemma seg_hd h pre l hd : seg h pre l hd None → hd = head l.
Proof. destruct l; cbn; [done|]. by intros (-> & _). Qed.

Definition linked (o : t) (l : list Z) : Prop := NoDup l ∧ seg (mem o) None l (first o) None.

Lemma linked_first o l : linked o l → first o = head l.
Proof. intros [_ Hs]. by eapply seg_hd. Qed.

Lemma linked_get o l p : linked o l → p ∈ l → ∃ x, mem o !! p = Some x ∧ next x ≠ Some p.
Proof.
  intros [Hnd Hs] Hp. destruct (seg_in _ _ _ _ _ _ Hs Hp) as [x Hx]. exists x. split; [done|].
  by eapply seg_next.
Qed.

Lemma core_alter f p (h : gmap Z BSmallPending) : (∀ x, core (f x) = core x) → core <$> alter f p h = core <$> h.
Proof.
  intros Hf. apply map_eq. intros q. rewrite !lookup_fmap. destruct (decide (q = p)) as [->|Hne].
  - rewrite lookup_alter_eq. destruct (h !! p); cbn; [by rewrite Hf|done].
  - by rewrite lookup_alter_ne.
Qed.

Lemma wp_job_link c p o (Q : Z → t → list event → Prop) : c = Some p → Q p o [] → wp (mlift c) o Q.
Proof. by intros ->. Qed.

Lemma wp_get_job p x o (Q : BSmallPending → t → list event → Prop) : mem o !! p = Some x → Q x o [] → wp (get p) o Q.
Proof. intros Hx HQ. unfold get. wp_step. wp_step. unfold wp, mlift. by rewrite Hx. Qed.

Lemma wp_update_job p f o (Q : unit → t → list event → Prop) :
  is_Some (mem o !! p) → Q tt (mk (first o) (pending_ctr o) (alter f p (mem o))) [] → wp (update p f) o Q.
Proof. intros [x Hx] HQ. unfold update. wp_step. eapply wp_get_job; [done|]. wp_step. done. Qed.

Lemma List_Remove_ok o l p :
  linked o l → p ∈ l →
  wp (List_Remove p) o (λ _ o' es, es = [] ∧ linked o' (drop_job p l) ∧ pending_ctr o' = pending_ctr o ∧
    core <$> mem o' = core <$> mem o ∧ ∀ q, q ∉ drop_job p l → mem o' !! q = mem o !! q).
Proof.
  intros [Hnd Hs] Hp. apply list_elem_of_split in Hp as (l1 & l2 & ->). rewrite drop_at by done.
  apply link_seg_app in Hs as (mid & Hs1 & Hs2). cbn in Hs2. destruct Hs2 as (-> & x & Hx & Hpre & Hs2).
  unfold List_Remove, set_first. wp_step. wp_step. wp_step. eapply wp_get_job; [done|].
  assert (NoDup (l1 ++ l2)) as Hnd'.
  { rewrite <- (drop_at l1 l2 p Hnd). by apply NoDup_drop. }
  destruct l1 as [|q l1 _] using rev_ind.
  - cbn in Hs1. rewrite Hs1, bool_decide_true by done. cbn [negb]. wp_step. split_and!; try done.
    split; [done|]. cbn. by eapply seg_weaken.
  - rewrite last_snoc in Hpre. destruct Hpre as [?|Hpre]; [done|].
    apply NoDup_app in Hnd as (Hnd1 & Hd & Hnd2). apply NoDup_cons in Hnd2 as [Hn2 Hnd2].
    assert (p ∉ l1 ++ [q]) as Hp1. { intros Hp1. apply (Hd p Hp1). set_solver. }
    assert (first o ≠ Some p) as Hf.
    { destruct l1 as [|r l1]; cbn in Hs1; destruct Hs1 as [-> _]; set_solver. }
    rewrite bool_decide_false by done. cbn [negb]. wp_step. eapply wp_job_link; [done|].
    destruct (seg_in _ _ _ _ _ q Hs1) as [y Hy]; [set_solver|].
    wp_step. apply wp_update_job; [eauto|]. cbn [app mem].
    set (h1 := alter (set_next (next x)) q (mem o)).
    assert (seg h1 None (l1 ++ [q]) (first o) (next x)) as Hs1' by (by eapply seg_relink).
    assert (seg h1 (Some p) l2 (next x) None) as Hs2'.
    { eapply seg_frame; [exact Hs2|]. intros r Hr. apply lookup_alter_ne. intros ->. apply (Hd r); set_solver. }
    pose proof (seg_reback h1 (Some p) (Some q) l2 (next x) Hnd2 Hs2') as Hs3.
    pose proof (seg_hd _ _ _ _ Hs2') as Hhd.
    assert (core <$> h1 = core <$> mem o) as Hc1 by (by apply core_alter).
    assert (∀ r, r ∉ (l1 ++ [q]) ++ l2 → h1 !! r = mem o !! r) as Hf1.
    { intros r Hr. apply lookup_alter_ne. intros ->. set_solver. }
    destruct (next x) as [n|] eqn:Hnx.
    + destruct l2 as [|n' l2]; [done|]. injection Hhd as <-.
      apply wp_update_job; cbn [mem]; [destruct (seg_in _ _ _ _ _ n Hs2') as [??]; [set_solver|]; eauto|].
      rewrite Hpre. split_and!; try done.
      * split; [done|]. cbn. apply link_seg_app. exists (Some n). rewrite last_snoc. split; [|done].
        eapply seg_frame; [exact Hs1'|]. intros r Hr. apply lookup_alter_ne. intros ->. apply (Hd r); set_solver.
      * cbn. by rewrite core_alter.
      * intros r Hr. cbn. rewrite lookup_alter_ne by (intros ->; set_solver). apply Hf1. done.
    + wp_step. destruct l2; [|done]. split_and!; try done. split; [done|]. cbn. by rewrite app_nil_r.
Qed.

Lemma List_Prepend_ok o l p :
  linked o l → p ∉ l → is_Some (mem o !! p) →
  wp (List_Prepend p) o (λ _ o' es, es = [] ∧ linked o' (p :: l) ∧ pending_ctr o' = pending_ctr o ∧
    core <$> mem o' = core <$> mem o ∧ ∀ q, q ∉ p :: l → mem o' !! q = mem o !! q).
Proof.
  intros [Hnd Hs] Hp [x Hx]. unfold List_Prepend, set_first. wp_step. wp_step. wp_step.
  apply wp_update_job; [eauto|]. cbn [app].
  set (h1 := alter (set_next (first o)) p (mem o)).
  assert (seg h1 None l (first o) None) as Hs1.
  { eapply seg_frame; [exact Hs|]. intros r Hr. apply lookup_alter_ne. by intros ->. }
  pose proof (seg_reback h1 None (Some p) l (first o) Hnd Hs1) as Hs2. pose proof (seg_hd _ _ _ _ Hs1) as Hhd.
  assert (h1 !! p = Some (set_next (first o) x)) as Hp1 by (unfold h1; by rewrite lookup_alter_eq, Hx).
  assert (core <$> h1 = core <$> mem o) as Hc1 by (by apply core_alter).
  assert (NoDup (p :: l)) as Hnd' by (by constructor).
  wp_step. destruct l as [|f l]; rewrite Hhd in *; cbn [head] in *.
  - wp_step. wp_step. split_and!; try done.
    + split; [done|]. cbn. split; [done|]. exists (set_next None x). by split_and!; [|left|].
    + intros q Hq. cbn. unfold h1. rewrite lookup_alter_ne; [done|set_solver].
  - destruct (seg_in _ _ _ _ _ f Hs1) as [y Hy]; [set_solver|]. apply wp_update_job; [cbn; eauto|]. wp_step.
    split_and!; try done.
    + split; [done|]. cbn [mem first]. split; [done|]. exists (set_next (Some f) x).
      rewrite lookup_alter_ne by set_solver. split_and!; [done|by left|exact Hs2].
    + cbn. by rewrite core_alter.
    + intros q Hq. cbn. unfold h1. rewrite !lookup_alter_ne; [done|set_solver..].
Qed.

(** ** The group as a stack of jobs *)

Definition code (x : BSmallPending) : Z * Z := (handler x, user x).

(** The group's list is [l] and the jobs in memory are [objs]; only the marks of
    [but] may disagree with the list. *)
Record holds_but (but : option Z) (o : t) (l : list Z) (objs : gmap Z (Z * Z)) : Prop := {
  hb_linked : linked o l;
  hb_code : code <$> mem o = objs;
  hb_out p x : Some p ≠ but → mem o !! p = Some x → p ∉ l → next x = Some p;
  hb_pend p x : NDEBUG = false → Some p ≠ but → mem o !! p = Some x → pending x = bool_decide (p ∈ l)
}.

Definition counted (o : t) (n : nat) : Prop :=
  NDEBUG = false → pending_ctr o = Z.of_nat n ∨ pending_ctr o = INT32_MAX.

Definition holds (o : t) (l : list Z) (objs : gmap Z (Z * Z)) : Prop :=
  holds_but None o l objs ∧ counted o (size objs).

Lemma hb_get but o l objs p : holds_but but o l objs → is_Some (objs !! p) → ∃ x, mem o !! p = Some x ∧ objs !! p = Some (code x).
Proof. intros Hh [c Hc]. rewrite <- (hb_code _ _ _ _ Hh), lookup_fmap in *. destruct (mem o !! p) as [x|]; [|done]. by exists x. Qed.

Lemma hb_weaken o l objs p : holds_but None o l objs → holds_but (Some p) o l objs.
Proof. intros Hh. split; [apply Hh..| |]; intros; by eapply Hh. Qed.

(** The links changed, and only the links of [but] disagree with the list. *)
Lemma hb_links but o l objs o' l' :
  holds_but but o l objs → linked o' l' → core <$> mem o' = core <$> mem o →
  (∀ q, Some q ≠ but → q ∈ l' ↔ q ∈ l) → (∀ q, Some q ≠ but → q ∉ l' → mem o' !! q = mem o !! q) →
  holds_but but o' l' objs.
Proof.
  intros Hh Hl Hc Hin Hout.
  assert (∀ q, core <$> mem o' !! q = core <$> mem o !! q) as Hcq.
  { intros q. by rewrite <- !lookup_fmap, Hc. }
  split; [done| | |].
  - rewrite <- (hb_code _ _ _ _ Hh). apply map_eq. intros q. specialize (Hcq q). rewrite !lookup_fmap.
    destruct (mem o' !! q), (mem o !! q); cbn in *; try done. unfold core, code in *. congruence.
  - intros q x Hq Hx Hn. apply (hb_out _ _ _ _ Hh); [done| |by rewrite <- Hin]. by rewrite <- Hout.
  - intros q x Hb Hq Hx. specialize (Hcq q). rewrite Hx in Hcq. destruct (mem o !! q) as [y|] eqn:Hy; [|done].
    assert (pending x = pending y) as -> by (unfold core in Hcq; cbn in Hcq; congruence).
    rewrite (hb_pend _ _ _ _ Hh q y Hb Hq Hy). apply bool_decide_ext. by rewrite Hin.
Qed.

Lemma is_removed_ok o l objs p :
  holds_but None o l objs → is_Some (objs !! p) →
  wp (IsRemoved p) o (λ r o' es, es = [] ∧ o' = o ∧ r = bool_decide (p ∉ l)).
Proof.
  intros Hh Hp. destruct (hb_get _ _ _ _ _ Hh Hp) as (x & Hx & _).
  unfold IsRemoved. wp_step. eapply wp_get_job; [done|]. wp_step. split_and!; try done.
  apply bool_decide_ext. split.
  - intros Hn Hl. destruct (linked_get o l p (hb_linked _ _ _ _ Hh) Hl) as (y & Hy & Hne). congruence.
  - intros Hl. by apply (hb_out _ _ _ _ Hh).
Qed.

Lemma assert_pending_ok o l objs p :
  holds_but None o l objs → is_Some (objs !! p) → wp (assert_pending p) o (λ _ o' es, es = [] ∧ o' = o).
Proof.
  intros Hh Hp. destruct (hb_get _ _ _ _ _ Hh Hp) as (x & Hx & _). unfold assert_pending.
  wp_step. eapply wp_get_job; [done|]. wp_step. eapply wp_mono; [by apply (is_removed_ok o l objs p)|].
  cbn beta. intros r ? ? (-> & -> & ->). unfold wp, ASSERT. destruct NDEBUG eqn:HB; [done|].
  rewrite (hb_pend _ _ _ _ Hh p x HB ltac:(done) Hx).
  destruct (decide (p ∈ l)) as [Hl|Hl].
  - rewrite bool_decide_true, (bool_decide_false (p ∉ l)) by tauto. done.
  - rewrite bool_decide_false, (bool_decide_true (p ∉ l)) by tauto. done.
Qed.

(** Takes the job out of the list if it is there. *)
Lemma remove_if_set_ok o l objs p :
  holds_but None o l objs → is_Some (objs !! p) →
  wp (remove_if_set p) o (λ _ o' es, es = [] ∧
    holds_but (Some p) o' (drop_job p l) objs ∧ pending_ctr o' = pending_ctr o).
Proof.
  intros Hh Hp. unfold remove_if_set. wp_step. eapply wp_mono; [by apply (is_removed_ok o l objs p)|].
  cbn beta. intros r ? ? (-> & -> & ->). wp_step.
  - apply negb_true_iff, bool_decide_eq_false_1 in H0. destruct (decide (p ∈ l)) as [Hl|]; [|tauto].
    eapply wp_mono; [apply (List_Remove_ok o l p (hb_linked _ _ _ _ Hh) Hl)|].
    cbn beta. intros _ o' es (-> & Hl' & Hctr & Hc & Hf). split_and!; try done.
    eapply hb_links; [by apply hb_weaken|done|done| |].
    + intros q Hq. rewrite elem_of_drop. split; [tauto|]. intros ?. split; [congruence|done].
    + intros q _ Hq. by apply Hf.
  - apply negb_false_iff, bool_decide_eq_true_1 in H0. rewrite drop_absent by done. split_and!; try done. by apply hb_weaken.
Qed.

Lemma seg_alter h pre l hd tl p f :
  (p ∈ l → ∀ x, next (f x) = next x ∧ prev (f x) = prev x) → seg h pre l hd tl → seg (alter f p h) pre l hd tl.
Proof.
  revert pre hd. induction l as [|q l IH]; intros pre hd Hf; cbn; [done|].
  intros (-> & x & Hx & Hp & Hs). split; [done|]. destruct (decide (q = p)) as [->|Hne].
  - exists (f x). rewrite lookup_alter_eq, Hx. destruct (Hf ltac:(set_solver) x) as [-> ->].
    split_and!; [done|done|]. apply IH; [set_solver|done].
  - exists x. rewrite lookup_alter_ne by done. split_and!; [done|done|]. apply IH; [set_solver|done].
Qed.

Lemma hb_alter o l objs p f :
  holds_but (Some p) o l objs → (∀ x, code (f x) = code x ∧ prev (f x) = prev x) →
  (p ∈ l → ∀ x, next (f x) = next x) →
  (∀ x, mem o !! p = Some x → (p ∉ l → next (f x) = Some p) ∧ (NDEBUG = false → pending (f x) = bool_decide (p ∈ l))) →
  holds_but None (mk (first o) (pending_ctr o) (alter f p (mem o))) l objs.
Proof.
  intros Hh Hf Hn Hm.
  split; cbn [mem first].
  - destruct (hb_linked _ _ _ _ Hh) as [Hnd Hs]. split; [done|]. apply seg_alter; [|done].
    intros Hp x. split; [by apply Hn|apply Hf].
  - rewrite <- (hb_code _ _ _ _ Hh). apply map_eq. intros q. rewrite !lookup_fmap. destruct (decide (q = p)) as [->|Hne].
    + rewrite lookup_alter_eq. destruct (mem o !! p) as [x|]; [|done]. cbn. by destruct (Hf x) as [-> _].
    + by rewrite lookup_alter_ne.
  - intros q x _ Hx Hq. destruct (decide (q = p)) as [->|Hne].
    + rewrite lookup_alter_eq in Hx. destruct (mem o !! p) as [y|] eqn:Hy; [|done]. cbn in Hx. simplify_eq. by apply Hm.
    + rewrite lookup_alter_ne in Hx by done. apply (hb_out _ _ _ _ Hh q x); [congruence|done|done].
  - intros q x HB _ Hx. destruct (decide (q = p)) as [->|Hne].
    + rewrite lookup_alter_eq in Hx. destruct (mem o !! p) as [y|] eqn:Hy; [|done]. cbn in Hx. simplify_eq. by apply Hm.
    + rewrite lookup_alter_ne in Hx by done. apply (hb_pend _ _ _ _ Hh q x); [done|congruence|done].
Qed.

(** [BPending__ListMarkRemoved(p); p->pending = 0;] *)
Lemma mark_removed_ok o l objs p :
  holds_but (Some p) o l objs → p ∉ l → is_Some (objs !! p) →
  wp (MarkRemoved p;; mark_pending p false) o (λ _ o' es, es = [] ∧ holds_but None o' l objs ∧ pending_ctr o' = pending_ctr o).
Proof.
  intros Hh Hn Hp. destruct (hb_get _ _ _ _ _ Hh Hp) as (x & Hx & _).
  wp_step. unfold MarkRemoved. apply wp_update_job; [eauto|]. unfold mark_pending. destruct NDEBUG eqn:HB.
  - wp_step. split_and!; [done| |done]. eapply hb_alter; [done|done|tauto|]. intros y _. split; [done|]. congruence.
  - apply wp_update_job; cbn [mem]; [rewrite lookup_alter_eq, Hx; eauto|]. cbn [first pending_ctr].
    split_and!; [done| |done]. rewrite alter_alter_eq.
    eapply hb_alter; [done|done|tauto|]. intros y _. split; [done|]. intros _. by rewrite bool_decide_false.
Qed.

Lemma mark_set_ok o l objs p :
  holds_but (Some p) o l objs → p ∈ l → is_Some (objs !! p) →
  wp (mark_pending p true) o (λ _ o' es, es = [] ∧ holds_but None o' l objs ∧ pending_ctr o' = pending_ctr o).
Proof.
  intros Hh Hn Hp. destruct (hb_get _ _ _ _ _ Hh Hp) as (x & Hx & _). unfold mark_pending. destruct NDEBUG eqn:HB.
  - wp_step. split_and!; [done| |done]. destruct Hh as [Hl Hc Ho Hq]. split; [done|done| |congruence].
    intros q y _ Hy Hql. apply Ho; [|done|done]. intros [= ->]. done.
  - apply wp_update_job; [eauto|]. split_and!; [done| |done].
    eapply hb_alter; [done|done|done|]. intros y _. split; [done|]. intros _. by rewrite bool_decide_true.
Qed.

Lemma counter_increment_ok o n (Q : unit → t → list event → Prop) :
  counted o n → (∀ c, counted (mk (first o) c (mem o)) (S n) → Q tt (mk (first o) c (mem o)) []) →
  wp DebugCounter_Increment o Q.
Proof.
  intros Hc HQ. unfold DebugCounter_Increment. destruct NDEBUG eqn:HB.
  { wp_step. destruct o as [f c m]. apply (HQ c). intros HB'. congruence. }
  wp_step. wp_step. unfold counted in *. specialize (Hc HB). unfold INT32_MAX in *. wp_step. wp_step; [lia|]. wp_step.
  - unfold set_ctr. wp_step. apply HQ. intros _. cbn. bool_props. lia.
  - cbn [app]. bool_props. destruct o as [f c m]. cbn in *. apply (HQ c). intros _. cbn. lia.
Qed.

Lemma decrement_ok o n (Q : unit → t → list event → Prop) :
  counted o (S n) → (∀ c, counted (mk (first o) c (mem o)) n → Q tt (mk (first o) c (mem o)) []) →
  wp DebugCounter_Decrement o Q.
Proof.
  intros Hc HQ. unfold DebugCounter_Decrement. destruct NDEBUG eqn:HB.
  { wp_step. destruct o as [f c m]. apply (HQ c). intros HB'. congruence. }
  wp_step. wp_step. unfold counted in *. specialize (Hc HB). unfold INT32_MAX in *. wp_step. wp_step; [lia|]. wp_step.
  - unfold set_ctr. wp_step. apply HQ. intros _. cbn. bool_props. lia.
  - cbn [app]. bool_props. destruct o as [f c m]. cbn in *. apply (HQ c). intros _. cbn. lia.
Qed.

Lemma hb_ctr but o l objs c : holds_but but o l objs → holds_but but (mk (first o) c (mem o)) l objs.
Proof. intros [Hl Hc Ho Hp]. by split. Qed.

Lemma hb_not_in but o l objs p : holds_but but o l objs → objs !! p = None → p ∉ l.
Proof.
  intros Hh Hp Hl. destruct (linked_get _ _ _ (hb_linked _ _ _ _ Hh) Hl) as (x & Hx & _).
  rewrite <- (hb_code _ _ _ _ Hh), lookup_fmap, Hx in Hp. done.
Qed.

Lemma Init_ok o l objs p h u :
  holds o l objs → objs !! p = None →
  wp (BSmallPending_Init p h u) o (λ _ o' es, es = [] ∧ holds o' l (<[p := (h, u)]> objs)).
Proof.
  intros [Hh Hc] Hp. pose proof (hb_not_in _ _ _ _ _ Hh Hp) as Hn. unfold BSmallPending_Init. wp_step. wp_step.
  set (o1 := mk (first o) _ _).
  assert (holds_but (Some p) o1 l (<[p := (h, u)]> objs)) as H1.
  { split; cbn.
    - destruct (hb_linked _ _ _ _ Hh) as [Hnd Hs]. split; [done|]. cbn. eapply seg_frame; [exact Hs|].
      intros q Hq. apply lookup_insert_ne. by intros ->.
    - rewrite fmap_insert, (hb_code _ _ _ _ Hh). done.
    - intros q x Hq Hx. rewrite lookup_insert_ne in Hx by congruence. by apply (hb_out _ _ _ _ Hh).
    - intros q x HB Hq Hx. rewrite lookup_insert_ne in Hx by congruence. by apply (hb_pend _ _ _ _ Hh). }
  assert (is_Some (<[p := (h, u)]> objs !! p)) as Hs by (rewrite lookup_insert_eq; eauto).
  apply wp_assoc. wp_step. eapply wp_mono; [by apply (mark_removed_ok o1 l (<[p := (h, u)]> objs) p)|].
  cbn beta. intros _ o2 ? (-> & H2 & Hctr). eapply (counter_increment_ok o2 (size objs)); [unfold counted in *; by rewrite Hctr|].
  intros c Hc'. split; [done|]. split; [by apply hb_ctr|].
  by rewrite map_size_insert_None.
Qed.

Lemma Free_ok o l objs p :
  holds o l objs → is_Some (objs !! p) →
  wp (BSmallPending_Free p) o (λ _ o' es, es = [] ∧ holds o' (drop_job p l) (delete p objs)).
Proof.
  intros [Hh Hc] Hp. unfold BSmallPending_Free. wp_step.
  assert (size objs = S (size (delete p objs))) as Hsz.
  { pose proof (map_size_ne_0_lookup_2 _ _ Hp). destruct Hp as [c Hcp]. rewrite map_size_delete, Hcp. lia. }
  rewrite Hsz in Hc. eapply decrement_ok; [done|]. intros c Hc'. wp_step.
  eapply wp_mono; [apply (assert_pending_ok _ l objs p); [by apply hb_ctr|done]|]. cbn beta. intros _ ? ? [-> ->].
  wp_step. eapply wp_mono; [apply (remove_if_set_ok _ l objs p); [by apply hb_ctr|done]|].
  cbn beta. intros _ o2 ? (-> & H2 & Hctr). wp_step. split; [done|]. cbn in Hctr. split.
  - destruct H2 as [[Hnd Hs] H2c H2o H2p]. split; cbn.
    + split; [done|]. cbn. eapply seg_frame; [exact Hs|]. intros q Hq. apply lookup_delete_ne.
      intros ->. by apply elem_of_drop in Hq as [? _].
    + by rewrite fmap_delete, H2c.
    + intros q x _ Hx. apply lookup_delete_Some in Hx as [Hne Hx]. apply H2o; [congruence|done].
    + intros q x HB _ Hx. apply lookup_delete_Some in Hx as [Hne Hx]. apply H2p; [done|congruence|done].
  - unfold counted in *. cbn in *. by rewrite Hctr.
Qed.

Lemma SetHandler_ok o l objs p h u :
  holds o l objs → is_Some (objs !! p) →
  wp (BSmallPending_SetHandler p h u) o (λ _ o' es, es = [] ∧ holds o' l (<[p := (h, u)]> objs)).
Proof.
  intros [Hh Hc] Hp. destruct (hb_get _ _ _ _ _ Hh Hp) as (x & Hx & _). unfold BSmallPending_SetHandler.
  apply wp_update_job; [eauto|]. split; [done|].
  destruct Hh as [[Hnd Hs] Hco Ho Hpe]. split; [split; cbn [mem first]|].
  - split; [done|]. by apply seg_alter.
  - subst objs. apply map_eq. intros q. rewrite lookup_fmap. destruct (decide (q = p)) as [->|Hne].
    + by rewrite lookup_alter_eq, lookup_insert_eq, Hx.
    + by rewrite lookup_alter_ne, lookup_insert_ne, lookup_fmap.
  - intros q y _ Hy Hq. apply lookup_alter_Some in Hy as [(-> & z & Hz & ->)|[_ Hy]]; [exact (Ho _ z ltac:(done) Hz Hq)|by apply Ho].
  - intros q y HB _ Hy. apply lookup_alter_Some in Hy as [(-> & z & Hz & ->)|[_ Hy]]; [exact (Hpe _ z HB ltac:(done) Hz)|by apply Hpe].
  - unfold counted in *. cbn. by rewrite map_size_insert_Some.
Qed.

Lemma Set_ok o l objs p :
  holds o l objs → is_Some (objs !! p) →
  wp (BSmallPending_Set p) o (λ _ o' es, es = [] ∧ holds o' (p :: drop_job p l) objs).
Proof.
  intros [Hh Hc] Hp. unfold BSmallPending_Set. wp_step.
  eapply wp_mono; [by apply (assert_pending_ok o l objs p)|]. cbn beta. intros _ ? ? [-> ->].
  wp_step. eapply wp_mono; [by apply (remove_if_set_ok o l objs p)|].
  cbn beta. intros _ o1 ? (-> & H1 & Hctr1). wp_step. destruct (hb_get _ _ _ _ _ H1 Hp) as (x & Hx & _).
  eapply wp_mono; [apply (List_Prepend_ok o1 (drop_job p l) p (hb_linked _ _ _ _ H1)); [|eauto]|].
  { rewrite elem_of_drop. tauto. }
  cbn beta. intros _ o2 ? (-> & Hl2 & Hctr2 & Hcore & Hout).
  eapply wp_mono; [apply (mark_set_ok o2 (p :: drop_job p l) objs p); [|set_solver|done]|].
  - eapply hb_links; [exact H1|done|done|set_solver|]. intros q _ Hq. by apply Hout.
  - cbn beta. intros _ o3 ? (-> & H3 & Hctr3). split; [done|]. split; [done|]. unfold counted in *. by rewrite Hctr3, Hctr2, Hctr1.
Qed.

Lemma Unset_ok o l objs p :
  holds o l objs → is_Some (objs !! p) →
  wp (BSmallPending_Unset p) o (λ _ o' es, es = [] ∧ holds o' (drop_job p l) objs).
Proof.
  intros [Hh Hc] Hp. unfold BSmallPending_Unset. wp_step.
  eapply wp_mono; [by apply (assert_pending_ok o l objs p)|]. cbn beta. intros _ ? ? [-> ->].
  wp_step. eapply wp_mono; [by apply (is_removed_ok o l objs p)|].
  cbn beta. intros r ? ? (-> & -> & ->). cbn [app]. wp_step.
  - apply negb_true_iff, bool_decide_eq_false_1 in H0. destruct (decide (p ∈ l)) as [Hl|]; [|tauto].
    wp_step. eapply wp_mono; [apply (List_Remove_ok o l p (hb_linked _ _ _ _ Hh) Hl)|].
    cbn beta. intros _ o1 ? (-> & Hl1 & Hctr & Hcore & Hout).
    eapply wp_mono; [apply (mark_removed_ok o1 (drop_job p l) objs p); [|rewrite elem_of_drop; tauto|done]|].
    + eapply hb_links; [by apply hb_weaken|done|done| |].
      * intros q Hq. rewrite elem_of_drop. split; [tauto|]. intros ?. split; [congruence|done].
      * intros q _ Hq. by apply Hout.
    + cbn beta. intros _ o2 ? (-> & H2 & Hctr2). split; [done|]. split; [done|]. unfold counted in *. by rewrite Hctr2, Hctr.
  - apply negb_false_iff, bool_decide_eq_true_1 in H0. by rewrite drop_absent.
Qed.

Lemma IsSet_ok o l objs p :
  holds o l objs → is_Some (objs !! p) → BSmallPending_IsSet p o = Some (bool_decide (p ∈ l), o, []).
Proof.
  intros [Hh Hc] Hp.
  assert (wp (BSmallPending_IsSet p) o (λ r o' es, r = bool_decide (p ∈ l) ∧ o' = o ∧ es = [])) as Hw.
  { unfold BSmallPending_IsSet. wp_step. eapply wp_mono; [by apply (assert_pending_ok o l objs p)|].
    cbn beta. intros _ ? ? [-> ->]. wp_step. eapply wp_mono; [by apply (is_removed_ok o l objs p)|].
    cbn beta. intros r ? ? (-> & -> & ->). wp_step. split_and!; try done.
    destruct (decide (p ∈ l)); [rewrite bool_decide_false, bool_decide_true by tauto; done|].
    rewrite bool_decide_true, bool_decide_false by tauto; done. }
  apply wp_run in Hw as (r & o' & es & -> & -> & -> & ->). done.
Qed.

Lemma ExecuteJob_ok o l objs p h u :
  holds o (p :: l) objs → objs !! p = Some (h, u) →
  wp BPendingGroup_ExecuteJob o (λ _ o' es, es = [JobHandler h u] ∧ holds o' l objs).
Proof.
  intros [Hh Hc] Hp. pose proof (linked_first _ _ (hb_linked _ _ _ _ Hh)) as Hf. cbn in Hf.
  destruct (hb_get _ _ _ _ p Hh ltac:(eauto)) as (x & Hx & Hcode). rewrite Hp in Hcode.
  unfold BPendingGroup_ExecuteJob, BPendingGroup_HasJobs. wp_step. wp_step. wp_step.
  rewrite Hf. wp_step; [by rewrite bool_decide_false|]. wp_step. eapply wp_job_link; [done|].
  wp_step. eapply wp_mono; [apply (is_removed_ok o (p :: l) objs p Hh); eauto|]. cbn beta. intros r ? ? (-> & -> & ->).
  wp_step. eapply wp_get_job; [done|]. wp_step. wp_step; [rewrite bool_decide_false; [done|set_solver]|].
  wp_step. eapply wp_mono with (Q := λ _ o' es, o' = o ∧ es = []).
  { unfold wp, ASSERT. destruct NDEBUG eqn:HB; [done|]. rewrite (hb_pend _ _ _ _ Hh p x HB ltac:(done) Hx).
    by rewrite bool_decide_true by set_solver. }
  cbn beta. intros _ ? ? [-> ->]. wp_step. unfold List_RemoveFirst. wp_step. wp_step. wp_step. eapply wp_job_link; [done|].
  wp_step. eapply wp_get_job; [done|]. unfold set_first. wp_step.
  destruct (hb_linked _ _ _ _ Hh) as [Hnd Hs]. cbn in Hs. destruct Hs as (_ & y & Hy & _ & Hs).
  rewrite Hx in Hy. injection Hy as <-. apply NoDup_cons in Hnd as [Hn Hnd].
  apply wp_assoc. wp_step. eapply wp_mono; [apply (mark_removed_ok _ l objs p); [|done|eauto]|].
  - eapply (hb_links (Some p) o (p :: l)); [by apply hb_weaken| |done| |].
    + split; [done|]. cbn. by eapply seg_weaken.
    + intros q Hq. rewrite elem_of_cons. split; [tauto|]. intros [->|]; [done|done].
    + done.
  - cbn beta. intros _ o2 ? (-> & H2 & Hctr). wp_step. split; [cbn; unfold code in Hcode; congruence|].
    split; [done|]. unfold counted in *. by rewrite Hctr.
Qed.

Lemma bpending_free o : holds o [] ∅ → ∃ o', BPendingGroup_Free o = Some (tt, o', []).
Proof.
  intros [Hh Hc]. pose proof (linked_first _ _ (hb_linked _ _ _ _ Hh)) as Hf. cbn in Hf.
  exists o. unfold BPendingGroup_Free, DebugCounter_Free, ASSERT, mbind, M_bind, mret, M_ret, mget.
  unfold counted in Hc. cbn in Hc. destruct o as [f c m]; cbn in *; subst f. destruct NDEBUG; cbn; [done|].
  by destruct (Hc eq_refl) as [-> | ->].
Qed.

(** C35: the job queue is a stack without duplicates of the jobs that are set:
    setting a job puts it on top, also if it was set before, unsetting and
    freeing take it out, and the job that runs is the top one, which is no longer
    set when its handler is called; the others keep their order.  The linked
    list, with the self-links that mark a job as not set, is followed without a
    null or dangling pointer, and no assertion fails. *)
Theorem bpending_stack o l objs p h u :
  holds o l objs →
  BPendingGroup_HasJobs o = bool_decide (l ≠ []) ∧ BPendingGroup_PeekJob o = head l ∧
  (objs !! p = None → ∃ o', BSmallPending_Init p h u o = Some (tt, o', []) ∧ holds o' l (<[p := (h, u)]> objs)) ∧
  (is_Some (objs !! p) →
     (∃ o', BSmallPending_Set p o = Some (tt, o', []) ∧ holds o' (p :: drop_job p l) objs) ∧
     (∃ o', BSmallPending_Unset p o = Some (tt, o', []) ∧ holds o' (drop_job p l) objs) ∧
     (∃ o', BSmallPending_Free p o = Some (tt, o', []) ∧ holds o' (drop_job p l) (delete p objs)) ∧
     (∃ o', BSmallPending_SetHandler p h u o = Some (tt, o', []) ∧ holds o' l (<[p := (h, u)]> objs)) ∧
     BSmallPending_IsSet p o = Some (bool_decide (p ∈ l), o, [])) ∧
  (∀ l', l = p :: l' → objs !! p = Some (h, u) → ∃ o',
     BPendingGroup_ExecuteJob o = Some (tt, o', [JobHandler h u]) ∧ holds o' l' objs ∧
     BSmallPending_IsSet p o' = Some (false, o', [])) ∧
  (l = [] → objs = ∅ → ∃ o', BPendingGroup_Free o = Some (tt, o', [])).
Proof.
  intros Hh. pose proof (linked_first _ _ (hb_linked _ _ _ _ (proj1 Hh))) as Hf.
  assert (∀ (m : IO unit) es0 (P : t → Prop), wp m o (λ _ o' es, es = es0 ∧ P o') → ∃ o', m o = Some (tt, o', es0) ∧ P o') as Hrun.
  { intros m es0 P Hw. apply wp_run in Hw as ([] & o' & es & Hm & -> & HP). eauto. }
  split_and!.
  - unfold BPendingGroup_HasJobs. rewrite Hf. by destruct l.
  - done.
  - intros Hp. by apply Hrun, Init_ok.
  - intros Hp. split_and!; [by apply Hrun, Set_ok|by apply Hrun, Unset_ok|by apply Hrun, Free_ok|by apply Hrun, SetHandler_ok|].
    by eapply IsSet_ok.
  - intros l' -> Hp. destruct (Hrun _ _ _ (ExecuteJob_ok o l' objs p h u Hh Hp)) as (o' & He & Ho'). exists o'.
    split_and!; [done|done|]. rewrite (IsSet_ok o' l' objs p); [|done|eauto].
    destruct (hb_linked _ _ _ _ (proj1 Hh)) as [[Hn _]%NoDup_cons _]. by rewrite bool_decide_false.
  - intros -> ->. by apply bpending_free.
Qed.

Lemma holds_Init : holds BPendingGroup_Init [] ∅.
Proof.
  split; [|by left]. split; cbn; try done.
  split; [constructor|done].
Qed.

End pending.
End BPending.

Section pending_examples.
#[local] Instance pending_debug : Build := false.

(** Two jobs are initialised and set; the one set last is on top. *)
Definition demo_jobs : option (unit * BPending.t * list BPending.event) :=
  (BPending.BSmallPending_Init 1 10 0;; BPending.BSmallPending_Init 2 20 0;;
   BPending.BSmallPending_Set 1;; BPending.BSmallPending_Set 2) BPending.BPendingGroup_Init.

Lemma bpending_stack_witness :
  ∃ o o', demo_jobs = Some (tt, o, []) ∧
    BPending.BPendingGroup_ExecuteJob o = Some (tt, o', [BPending.JobHandler 20 0]) ∧
    BPending.BPendingGroup_PeekJob o' = Some 1.
Proof.
  assert (∃ o, demo_jobs = Some (tt, o, []) ∧ BPending.holds o [2; 1] (<[2 := (20, 0)]> (<[1 := (10, 0)]> ∅))) as (o & Ho & Hh).
  { pose proof (BPending.Init_ok BPending.BPendingGroup_Init [] ∅ 1 10 0 BPending.holds_Init eq_refl) as H1.
    apply wp_run in H1 as ([] & o1 & ? & H1 & -> & Hh1).
    pose proof (BPending.Init_ok o1 [] _ 2 20 0 Hh1 eq_refl) as H2. apply wp_run in H2 as ([] & o2 & ? & H2 & -> & Hh2).
    pose proof (BPending.Set_ok o2 [] _ 1 Hh2 ltac:(by eexists)) as H3. apply wp_run in H3 as ([] & o3 & ? & H3 & -> & Hh3).
    pose proof (BPending.Set_ok o3 _ _ 2 Hh3 ltac:(by eexists)) as H4. apply wp_run in H4 as ([] & o4 & ? & H4 & -> & Hh4).
    exists o4. split; [|exact Hh4]. unfold demo_jobs, mbind, M_bind. by rewrite H1, H2, H3, H4. }
  destruct (BPending.bpending_stack o [2; 1] _ 2 20 0 Hh) as (_ & _ & _ & _ & He & _).
  destruct (He [1] eq_refl eq_refl) as (o' & Hrun & Hh' & _).
  exists o, o'. split_and!; [done|done|].
  by destruct (BPending.bpending_stack o' [1] _ 1 10 0 Hh') as (_ & Hp & _).
Defined.
End pending_examples.
