(* ===== verification/Reactor.v ===== *)
(** * Reactor: the event loop

    Models system/BReactor_badvpn.c as it is built for Linux (epoll), with
    [btime_add] of system/BTime.h.  The loop runs jobs first, then timers that
    have expired, then file descriptors that are ready, and waits when there is
    nothing to do.

    Timers, file descriptors and limits are objects in memory.  The tree of
    running timers (structure/CAvl_impl.h) is the list of its timers in order and
    the linked lists are lists.  The epoll instance is the set of descriptors
    registered with it; what the kernel answers, and the times read from the
    clock, are arguments.  Calling a handler is an event: the handler is the next
    actions of whoever is called. *)
From stdpp Require Import sorting.
From S2P Require Import Prelude Bytes Pending.

Definition INT64_MAX : Z := 9223372036854775807.
Definition INT64_MIN : Z := -9223372036854775808.

(** ** system/BTime.h, misc/overflow.h *)

Definition add_int64_overflows (a b : Z) : Z :=
  if xorb (a <? 0) (b <? 0) then 0
  else if a <? 0 then - (if a <? INT64_MIN - b then 1 else 0)
  else if INT64_MAX - b <? a then 1 else 0.

Definition btime_add (t1 t2 : Z) : Z :=
  let overflows := add_int64_overflows t1 t2 in
  if negb (overflows =? 0) then (if 0 <? overflows then INT64_MAX else INT64_MIN) else t1 + t2.

Module BReactor.
Section reactor.
Context `{Build}.

Inductive timer_state := TIMER_STATE_INACTIVE | TIMER_STATE_RUNNING | TIMER_STATE_EXPIRED.

#[global] Instance timer_state_eq_dec : EqDecision timer_state.
Proof. solve_decision. Defined.

(** [BSmallTimer], and the [user] and [msTime] of the [BTimer] around it when it
    is not small. *)
Record BSmallTimer := mk_timer {
  t_handler : Z; is_small : bool; t_user : Z; msTime : Z; absTime : Z; state : timer_state
}.

(** [epoll_returned_ptr] as an index into [epoll_results]. *)
Record BFileDescriptor := mk_fd {
  fd : Z; fd_handler : Z; fd_user : Z; active : bool; waitEvents : Z; epoll_returned_ptr : option nat
}.

Record BReactorLimit := mk_limit { limit : Z; count : Z }.

Definition BREACTOR_READ : Z := 1.
Definition BREACTOR_WRITE : Z := 2.
Definition BREACTOR_ERROR : Z := 4.
Definition BREACTOR_HUP : Z := 8.
Definition EPOLLIN : Z := 1.
Definition EPOLLOUT : Z := 4.
Definition EPOLLERR : Z := 8.
Definition EPOLLHUP : Z := 16.
Definition BSYSTEM_MAX_RESULTS : Z := 64.

Record t := mk {
  exiting : bool; exit_code : Z;
  pending_jobs : BPending.t;
  timers_tree : list Z;
  timers_expired_list : list Z;
  active_limits_list : list Z;
  efd : gmap Z Z;                       (** the epoll instance: registered events by descriptor *)
  epoll_results : list (option Z * Z);  (** [data.ptr] and [events] of the [epoll_results_num] results *)
  epoll_results_pos : nat;
  timers : gmap Z BSmallTimer;          (** objects in memory *)
  fds : gmap Z BFileDescriptor;
  limits : gmap Z BReactorLimit
}.

Inductive event :=
| JobHandler (handler user : Z)
| SmallTimerHandler (handler timer : Z)
| TimerHandler (handler user : Z)
| FdHandler (handler user events : Z)
| EpollWait (timeout : Z).

Abbreviation IO := (M t event).

Definition with_exit (b : bool) (c : Z) (o : t) : t :=
  mk b c (pending_jobs o) (timers_tree o) (timers_expired_list o) (active_limits_list o) (efd o)
     (epoll_results o) (epoll_results_pos o) (timers o) (fds o) (limits o).
Definition with_jobs (j : BPending.t) (o : t) : t :=
  mk (exiting o) (exit_code o) j (timers_tree o) (timers_expired_list o) (active_limits_list o) (efd o)
     (epoll_results o) (epoll_results_pos o) (timers o) (fds o) (limits o).
Definition with_timers (tr ex : list Z) (ts : gmap Z BSmallTimer) (o : t) : t :=
  mk (exiting o) (exit_code o) (pending_jobs o) tr ex (active_limits_list o) (efd o)
     (epoll_results o) (epoll_results_pos o) ts (fds o) (limits o).
Definition with_limits (al : list Z) (ls : gmap Z BReactorLimit) (o : t) : t :=
  mk (exiting o) (exit_code o) (pending_jobs o) (timers_tree o) (timers_expired_list o) al (efd o)
     (epoll_results o) (epoll_results_pos o) (timers o) (fds o) ls.
Definition with_fds (e : gmap Z Z) (rs : list (option Z * Z)) (pos : nat) (fs : gmap Z BFileDescriptor) (o : t) : t :=
  mk (exiting o) (exit_code o) (pending_jobs o) (timers_tree o) (timers_expired_list o) (active_limits_list o) e
     rs pos (timers o) fs (limits o).

Definition set_state (s : timer_state) (x : BSmallTimer) : BSmallTimer :=
  mk_timer (t_handler x) (is_small x) (t_user x) (msTime x) (absTime x) s.
Definition set_time (a : Z) (x : BSmallTimer) : BSmallTimer :=
  mk_timer (t_handler x) (is_small x) (t_user x) (msTime x) a (state x).
Definition set_returned (r : option nat) (x : BFileDescriptor) : BFileDescriptor :=
  mk_fd (fd x) (fd_handler x) (fd_user x) (active x) (waitEvents x) r.
Definition set_wait (w : Z) (x : BFileDescriptor) : BFileDescriptor :=
  mk_fd (fd x) (fd_handler x) (fd_user x) (active x) w (epoll_returned_ptr x).
Definition set_active (b : bool) (x : BFileDescriptor) : BFileDescriptor :=
  mk_fd (fd x) (fd_handler x) (fd_user x) b (waitEvents x) (epoll_returned_ptr x).

Definition get_timer (p : Z) : IO BSmallTimer := o ← mget; mlift (timers o !! p).
Definition get_fd (p : Z) : IO BFileDescriptor := o ← mget; mlift (fds o !! p).
Definition get_limit (p : Z) : IO BReactorLimit := o ← mget; mlift (limits o !! p).

(** [ASSERT_FORCE] of misc/debug.h, in every build. *)
Definition ASSERT_FORCE (b : bool) : IO unit := if b then mret tt else mabort.

(** A call into the job queue. *)
Definition lift_event (e : BPending.event) : event :=
  match e with BPending.JobHandler h u => JobHandler h u end.
Definition on_jobs {A} (m : M BPending.t BPending.event A) : IO A := λ o,
  match m (pending_jobs o) with
  | Some (a, j, es) => Some (a, with_jobs j o, map lift_event es)
  | None => None
  end.

(** ** Timers *)

(** [compare_timers], with the times in [ts]. *)
Definition compare_timers (ts : gmap Z BSmallTimer) (t1 t2 : Z) : option Z :=
  x ← ts !! t1;
  y ← ts !! t2;
  let cmp := B_COMPARE (absTime x) (absTime y) in
  Some (if negb (cmp =? 0) then cmp else B_COMPARE t1 t2).

(** [BReactor__TimersTree_Insert]: the timers in order, or [inl] when an equal
    one is there. *)
Fixpoint TimersTree_Insert (ts : gmap Z BSmallTimer) (p : Z) (l : list Z) : option (unit + list Z) :=
  match l with
  | [] => Some (inr [p])
  | q :: l' =>
      c ← compare_timers ts p q;
      if c =? 0 then Some (inl tt)
      else if c <? 0 then Some (inr (p :: l))
      else r ← TimersTree_Insert ts p l';
           Some (match r with inl u => inl u | inr l'' => inr (q :: l'') end)
  end.

(** Remove from the running timers tree, add to the expired timers list, set
    expired. *)
Definition expire (p : Z) : IO unit :=
  o ← mget;
  mput (with_timers (drop_job p (timers_tree o)) (timers_expired_list o ++ [p])
          (alter (set_state TIMER_STATE_EXPIRED) p (timers o)) o).

(** Every round takes a timer out of the tree. *)
Fixpoint move_expired_loop (fuel : nat) (now : Z) (moved : bool) : IO bool :=
  o ← mget;
  match head (timers_tree o) with
  | None => mret moved
  | Some timer =>
      match fuel with
      | O => mabort
      | S fuel =>
          x ← get_timer timer;
          ASSERT (bool_decide (state x = TIMER_STATE_RUNNING));;
          (* if it's in the future, stop *)
          if now <? absTime x then mret moved
          else expire timer;; move_expired_loop fuel now true
      end
  end.

Definition move_expired_timers (now : Z) : IO bool :=
  o ← mget; move_expired_loop (length (timers_tree o)) now false.

Fixpoint move_first_loop (fuel : nat) (first_time : Z) : IO unit :=
  o ← mget;
  match head (timers_tree o) with
  | None => mret tt
  | Some timer =>
      match fuel with
      | O => mabort
      | S fuel =>
          x ← get_timer timer;
          ASSERT (bool_decide (state x = TIMER_STATE_RUNNING));;
          ASSERT (first_time <=? absTime x);;
          (* if it's in the future, stop *)
          if first_time <? absTime x then mret tt
          else expire timer;; move_first_loop fuel first_time
      end
  end.

Definition move_first_timers : IO unit :=
  (* get the time of the first timer *)
  o ← mget;
  first_timer ← mlift (head (timers_tree o));
  x ← get_timer first_timer;
  ASSERT (bool_decide (state x = TIMER_STATE_RUNNING));;
  expire first_timer;;
  (* also move other timers with the same timeout *)
  move_first_loop (length (timers_tree o)) (absTime x).

(** [p] is the memory of a new object; its time is uninitialised. *)
Definition BSmallTimer_Init (p handler : Z) : IO unit :=
  o ← mget;
  mput (with_timers (timers_tree o) (timers_expired_list o)
          (<[p := mk_timer handler true 0 0 0 TIMER_STATE_INACTIVE]> (timers o)) o).

Definition BTimer_Init (p ms handler user : Z) : IO unit :=
  o ← mget;
  mput (with_timers (timers_tree o) (timers_expired_list o)
          (<[p := mk_timer handler false user ms 0 TIMER_STATE_INACTIVE]> (timers o)) o).

Definition BSmallTimer_IsRunning (p : Z) : IO bool :=
  x ← get_timer p;
  mret (negb (bool_decide (state x = TIMER_STATE_INACTIVE))).

Definition BReactor_RemoveSmallTimer (p : Z) : IO unit :=
  x ← get_timer p;
  o ← mget;
  match state x with
  | TIMER_STATE_INACTIVE => mret tt
  | TIMER_STATE_EXPIRED =>
      (* remove from expired list, set inactive *)
      mput (with_timers (timers_tree o) (drop_job p (timers_expired_list o))
              (alter (set_state TIMER_STATE_INACTIVE) p (timers o)) o)
  | TIMER_STATE_RUNNING =>
      (* remove from running tree, set inactive *)
      mput (with_timers (drop_job p (timers_tree o)) (timers_expired_list o)
              (alter (set_state TIMER_STATE_INACTIVE) p (timers o)) o)
  end.

Inductive set_mode := BTIMER_SET_ABSOLUTE | BTIMER_SET_RELATIVE (now : Z).

(** [now]: what [btime_gettime] returns. *)
Definition BReactor_SetSmallTimer (p : Z) (mode : set_mode) (time : Z) : IO unit :=
  (* unlink it if it's already in the list *)
  BReactor_RemoveSmallTimer p;;
  (* if mode is relative, add current time *)
  let time := match mode with BTIMER_SET_RELATIVE now => btime_add now time | BTIMER_SET_ABSOLUTE => time end in
  (* set time, set running *)
  o ← mget;
  let ts := alter (λ x, set_state TIMER_STATE_RUNNING (set_time time x)) p (timers o) in
  (* insert to running timers tree *)
  r ← mlift (TimersTree_Insert ts p (timers_tree o));
  match r with
  | inr tr => mput (with_timers tr (timers_expired_list o) ts o)
  | inl _ => ASSERT false;; mput (with_timers (timers_tree o) (timers_expired_list o) ts o)
  end.

Definition BReactor_SetTimer (p now : Z) : IO unit :=
  x ← get_timer p; BReactor_SetSmallTimer p (BTIMER_SET_RELATIVE now) (msTime x).
Definition BReactor_SetTimerAfter (p now after : Z) : IO unit :=
  BReactor_SetSmallTimer p (BTIMER_SET_RELATIVE now) after.
Definition BReactor_SetTimerAbsolute (p time : Z) : IO unit :=
  BReactor_SetSmallTimer p BTIMER_SET_ABSOLUTE time.
Definition BReactor_RemoveTimer (p : Z) : IO unit := BReactor_RemoveSmallTimer p.

(** ** File descriptors *)

(** [p] is the memory of a new object. *)
Definition BFileDescriptor_Init (p d handler user : Z) : IO unit :=
  o ← mget;
  mput (with_fds (efd o) (epoll_results o) (epoll_results_pos o)
          (<[p := mk_fd d handler user false 0 None]> (fds o)) o).

(** [epoll_ctl] with [EPOLL_CTL_MOD] or [EPOLL_CTL_DEL] fails for a descriptor
    that is not registered. *)
Definition epoll_registered (p : Z) (o : t) : bool := bool_decide (is_Some (efd o !! p)).

(** [ok]: whether [epoll_ctl] adds the descriptor. *)
Definition BReactor_AddFileDescriptor (p : Z) (ok : bool) : IO bool :=
  x ← get_fd p;
  ASSERT (negb (active x));;
  (* add epoll entry *)
  if negb ok then mret false
  else
    o ← mget;
    (* set epoll returned pointer *)
    mput (with_fds (<[p := 0]> (efd o)) (epoll_results o) (epoll_results_pos o)
            (<[p := set_wait 0 (set_active true (set_returned None x))]> (fds o)) o);;
    mret true.

Definition BReactor_RemoveFileDescriptor (p : Z) : IO unit :=
  x ← get_fd p;
  ASSERT (active x);;
  o ← mget;
  (* delete epoll entry *)
  ASSERT_FORCE (epoll_registered p o);;
  (* write through epoll returned pointer *)
  let rs := match epoll_returned_ptr x with
            | Some i => alter (λ r, (None, r.2)) i (epoll_results o)
            | None => epoll_results o
            end in
  mput (with_fds (delete p (efd o)) rs (epoll_results_pos o) (<[p := set_active false x]> (fds o)) o).

(** The epoll events for the events of the reactor. *)
Definition epoll_events (events : Z) : Z :=
  Z.lor (if negb (Z.land events BREACTOR_READ =? 0) then EPOLLIN else 0)
        (if negb (Z.land events BREACTOR_WRITE =? 0) then EPOLLOUT else 0).

Definition BReactor_SetFileDescriptorEvents (p events : Z) : IO unit :=
  x ← get_fd p;
  ASSERT (active x);;
  ASSERT (Z.land events (Z.lnot (Z.lor BREACTOR_READ BREACTOR_WRITE)) =? 0);;
  if waitEvents x =? events then mret tt
  else
    o ← mget;
    (* update epoll entry *)
    ASSERT_FORCE (epoll_registered p o);;
    (* update events *)
    mput (with_fds (<[p := epoll_events events]> (efd o)) (epoll_results o) (epoll_results_pos o)
            (<[p := set_wait events x]> (fds o)) o).

(** Write pointers to our entry pointers into file descriptors. *)
Fixpoint set_epoll_fd_pointers (i : nat) (rs : list (option Z * Z)) : IO unit :=
  match rs with
  | [] => mret tt
  | (ptr, _) :: rs =>
      p ← mlift ptr;
      bfd ← get_fd p;
      ASSERT (active bfd);;
      ASSERT (bool_decide (epoll_returned_ptr bfd = None));;
      o ← mget;
      mput (with_fds (efd o) (epoll_results o) (epoll_results_pos o) (<[p := set_returned (Some i) bfd]> (fds o)) o);;
      set_epoll_fd_pointers (S i) rs
  end.

(** ** Limits *)

Definition BReactorLimit_Init (p lim : Z) : IO unit :=
  ASSERT (0 <? lim);;
  o ← mget;
  mput (with_limits (active_limits_list o) (<[p := mk_limit lim 0]> (limits o)) o).

(** The object is gone afterwards. *)
Definition BReactorLimit_Free (p : Z) : IO unit :=
  x ← get_limit p;
  o ← mget;
  (* remove from active limits list *)
  mput (with_limits (if 0 <? count x then drop_job p (active_limits_list o) else active_limits_list o)
          (delete p (limits o)) o).

Definition BReactorLimit_Increment (p : Z) : IO bool :=
  x ← get_limit p;
  (* check count against limit *)
  if limit x <=? count x then mret false
  else
    o ← mget;
    (* increment count; if limit was zero, add to active limits list *)
    let c := count x + 1 in
    mput (with_limits (if c =? 1 then active_limits_list o ++ [p] else active_limits_list o)
            (<[p := mk_limit (limit x) c]> (limits o)) o);;
    mret true.

Definition BReactorLimit_SetLimit (p lim : Z) : IO unit :=
  x ← get_limit p;
  ASSERT (0 <? lim);;
  o ← mget;
  mput (with_limits (active_limits_list o) (<[p := mk_limit lim (count x)]> (limits o)) o).

(** Reset limit objects: every round takes one out of the list. *)
Fixpoint reset_limits (fuel : nat) : IO unit :=
  o ← mget;
  match head (active_limits_list o) with
  | None => mret tt
  | Some p =>
      match fuel with
      | O => mabort
      | S fuel =>
          x ← get_limit p;
          ASSERT (0 <? count x);;
          mput (with_limits (drop_job p (active_limits_list o)) (<[p := mk_limit (limit x) 0]> (limits o)) o);;
          reset_limits fuel
      end
  end.

(** ** Waiting *)

(** An answer of [epoll_wait]: interrupted by a signal, another error, or the
    descriptors that are ready with their events (none: timed out). *)
Inductive wait_answer :=
| WaitInterrupted
| WaitError
| WaitReturned (rs : list (Z * Z)).

Definition is_nil {A} (l : list A) : bool := match l with [] => true | _ => false end.

(** The loop of [wait_for_events].  An answer comes with the time read by
    [btime_gettime] if the loop goes on after it; with no answers left the
    program waits forever. *)
Fixpoint wait_loop (answers : list (wait_answer * Z)) (timeout_abs : option Z) (now : Z) : IO unit :=
  match answers with
  | [] => mabort
  | (answer, now') :: answers =>
      (* compute timeout *)
      let timeout_rel := match timeout_abs with Some ta => ta - now | None => 0 end in
      ASSERT_FORCE ((INT64_MIN <=? timeout_rel) && (timeout_rel <=? INT64_MAX));;
      let timeout_rel_trunc := if INT_MAX <? timeout_rel then INT_MAX else timeout_rel in
      let have_timeout := bool_decide (is_Some timeout_abs) in
      emit (EpollWait (if have_timeout then timeout_rel_trunc else -1));;
      let try_again : IO unit :=
        match timeout_abs with
        | Some ta =>
            (* check if we already reached the time we're waiting for *)
            if ta <=? now' then move_first_timers else wait_loop answers timeout_abs now'
        | None => wait_loop answers timeout_abs now
        end in
      match answer with
      | WaitInterrupted => try_again
      | WaitError => mabort
      | WaitReturned rs =>
          ASSERT_FORCE (negb (is_nil rs) || have_timeout);;
          ASSERT_FORCE (zlen rs <=? BSYSTEM_MAX_RESULTS);;
          if negb (is_nil rs) then
            o ← mget;
            let ers := map (λ r, (Some r.1, r.2)) rs in
            mput (with_fds (efd o) ers 0 (fds o) o);;
            set_epoll_fd_pointers 0 ers
          else if timeout_rel_trunc =? timeout_rel then move_first_timers
          else try_again
      end
  end.

(** [now]: the first time read, if there is a timer. *)
Definition wait_for_events (now : Z) (answers : list (wait_answer * Z)) : IO unit :=
  (* must have processed all pending events *)
  o ← mget;
  ASSERT (negb (BPending.BPendingGroup_HasJobs (pending_jobs o)));;
  ASSERT (is_nil (timers_expired_list o));;
  ASSERT (bool_decide (epoll_results_pos o = length (epoll_results o)));;
  (* clean up epoll results *)
  mput (with_fds (efd o) [] 0 (fds o) o);;
  (* compute timeout *)
  r ← (match head (timers_tree o) with
       | None => mret (Some None)
       | Some first_timer =>
           x ← get_timer first_timer;
           ASSERT (bool_decide (state x = TIMER_STATE_RUNNING));;
           (* if some timers have already timed out, return them immediately *)
           moved ← move_expired_timers now;
           mret (if moved : bool then None else Some (Some (absTime x)))
       end);
  match r with
  | None => mret tt
  | Some timeout_abs =>
      wait_loop answers timeout_abs now;;
      o ← mget;
      reset_limits (length (active_limits_list o))
  end.

(** ** The loop *)

Definition BReactor_Init (ok : bool) : option t :=
  if ok then Some (mk false 0 BPending.BPendingGroup_Init [] [] [] ∅ [] 0 ∅ ∅ ∅) else None.

(** The debug counters of descriptors and limits are the sizes of what they
    count. *)
Definition BReactor_Free : IO unit :=
  o ← mget;
  ASSERT (negb (BPending.BPendingGroup_HasJobs (pending_jobs o)));;
  ASSERT (is_nil (timers_tree o));;
  ASSERT (is_nil (timers_expired_list o));;
  ASSERT (is_nil (active_limits_list o));;
  ASSERT (bool_decide (size (efd o) = 0%nat));;
  ASSERT (bool_decide (size (limits o) = 0%nat));;
  (* free jobs *)
  on_jobs BPending.BPendingGroup_Free.

Definition BReactor_Quit (code : Z) : IO unit := mmodify (with_exit true code).

(** The events to report for a result of epoll. *)
Definition report_events (wait ev : Z) : Z :=
  Z.lor (Z.lor (Z.lor
    (if negb (Z.land wait BREACTOR_READ =? 0) && negb (Z.land ev EPOLLIN =? 0) then BREACTOR_READ else 0)
    (if negb (Z.land wait BREACTOR_WRITE =? 0) && negb (Z.land ev EPOLLOUT =? 0) then BREACTOR_WRITE else 0))
    (if negb (Z.land ev EPOLLERR =? 0) then BREACTOR_ERROR else 0))
    (if negb (Z.land ev EPOLLHUP =? 0) then BREACTOR_HUP else 0).

Definition dispatch_timer (timer : Z) : IO unit :=
  x ← get_timer timer;
  ASSERT (bool_decide (state x = TIMER_STATE_EXPIRED));;
  o ← mget;
  (* remove from expired list, set inactive *)
  mput (with_timers (timers_tree o) (drop_job timer (timers_expired_list o))
          (alter (set_state TIMER_STATE_INACTIVE) timer (timers o)) o);;
  (* call handler *)
  emit (if is_small x then SmallTimerHandler (t_handler x) timer else TimerHandler (t_handler x) (t_user x)).

Definition dispatch_fd (r : option Z * Z) : IO unit :=
  o ← mget;
  mput (with_fds (efd o) (epoll_results o) (S (epoll_results_pos o)) (fds o) o);;
  match r with
  | (None, _) => mret tt                     (* the BFileDescriptor was removed *)
  | (Some p, ev) =>
      bfd ← get_fd p;
      ASSERT (active bfd);;
      ASSERT (bool_decide (epoll_returned_ptr bfd = Some (epoll_results_pos o)));;
      (* zero pointer to the epoll entry *)
      o ← mget;
      mput (with_fds (efd o) (epoll_results o) (epoll_results_pos o) (<[p := set_returned None bfd]> (fds o)) o);;
      (* calculate events to report *)
      let events := report_events (waitEvents bfd) ev in
      if events =? 0 then mret tt
      else emit (FdHandler (fd_handler bfd) (fd_user bfd) events)
  end.

(** One round of [BReactor_Exec]; [false] when the loop has ended. *)
Definition BReactor_Exec_round (now : Z) (answers : list (wait_answer * Z)) : IO bool :=
  o ← mget;
  if exiting o then mret false
  else
    (if BPending.BPendingGroup_HasJobs (pending_jobs o) then on_jobs BPending.BPendingGroup_ExecuteJob
     else match timers_expired_list o with
          | timer :: _ => dispatch_timer timer
          | [] =>
              match epoll_results o !! epoll_results_pos o with
              | Some r => dispatch_fd r
              | None => wait_for_events now answers
              end
          end);;
    mret true.

(** One round of [BReactor_Synchronize]: [Some] of its result when it returns. *)
Definition BReactor_Synchronize_round (ref : Z) : IO (option bool) :=
  o ← mget;
  if exiting o then mret (Some false)
  else
    ASSERT (BPending.BPendingGroup_HasJobs (pending_jobs o));;
    if bool_decide (BPending.BPendingGroup_PeekJob (pending_jobs o) = Some ref) then mret (Some true)
    else on_jobs BPending.BPendingGroup_ExecuteJob;; mret None.

(** ** Invariants *)

(** The order of [compare_timers]. *)
Definition timer_lt (ts : gmap Z BSmallTimer) (p q : Z) : Prop :=
  ∃ x y, ts !! p = Some x ∧ ts !! q = Some y ∧ (absTime x < absTime y ∨ absTime x = absTime y ∧ p < q).

(** The lists hold the timers in their states, in order, and what has expired
    was due at time [clk]. *)
Record timers_ok (clk : Z) (o : t) : Prop := {
  tk_sorted : StronglySorted (timer_lt (timers o)) (timers_tree o);
  tk_running p : p ∈ timers_tree o ↔ ∃ x, timers o !! p = Some x ∧ state x = TIMER_STATE_RUNNING;
  tk_esorted : StronglySorted (timer_lt (timers o)) (timers_expired_list o);
  tk_expired p : p ∈ timers_expired_list o ↔ ∃ x, timers o !! p = Some x ∧ state x = TIMER_STATE_EXPIRED;
  tk_due p x : timers o !! p = Some x → state x = TIMER_STATE_EXPIRED → absTime x ≤ clk;
  tk_range p x : timers o !! p = Some x → state x = TIMER_STATE_RUNNING → INT64_MIN ≤ absTime x ≤ INT64_MAX
}.

(** The epoll instance watches the active descriptors; the results still to be
    processed and the descriptors they name point at each other. *)
Record fds_ok (o : t) : Prop := {
  fk_active p x : fds o !! p = Some x → active x = true → efd o !! p = Some (epoll_events (waitEvents x));
  fk_registered p : is_Some (efd o !! p) → ∃ x, fds o !! p = Some x ∧ active x = true;
  fk_returned p x i : fds o !! p = Some x → active x = true → epoll_returned_ptr x = Some i →
    (epoll_results_pos o ≤ i)%nat ∧ ∃ ev, epoll_results o !! i = Some (Some p, ev);
  fk_results i p ev : (epoll_results_pos o ≤ i)%nat → epoll_results o !! i = Some (Some p, ev) →
    ∃ x, fds o !! p = Some x ∧ active x = true ∧ epoll_returned_ptr x = Some i;
  fk_pos : (epoll_results_pos o ≤ length (epoll_results o))%nat
}.

Record limits_ok (o : t) : Prop := {
  lk_nodup : NoDup (active_limits_list o);
  lk_active p : p ∈ active_limits_list o ↔ ∃ x, limits o !! p = Some x ∧ 0 < count x;
  lk_count p x : limits o !! p = Some x → 0 ≤ count x
}.

Record inv (clk : Z) (o : t) : Prop := {
  iv_jobs : ∃ l objs, BPending.holds (pending_jobs o) l objs;
  iv_timers : timers_ok clk o;
  iv_fds : fds_ok o;
  iv_limits : limits_ok o
}.

(** ** Timers *)

#[local] Instance timer_lt_trans ts : Transitive (timer_lt ts).
Proof.
  intros p q r (x & y & Hx & Hy & Hlt) (y' & z & Hy' & Hz & Hlt'). rewrite Hy in Hy'. injection Hy' as <-.
  exists x, z. split_and!; try done. lia.
Qed.

Lemma timer_lt_irrefl ts p : ¬ timer_lt ts p p.
Proof. intros (x & y & Hx & Hy & Hlt). rewrite Hx in Hy. injection Hy as <-. lia. Qed.

Lemma sorted_NoDup ts l : StronglySorted (timer_lt ts) l → NoDup l.
Proof.
  induction 1 as [|p l Hs IH Hp]; constructor; [|done]. intros Hl. rewrite Forall_forall in Hp.
  by apply (timer_lt_irrefl ts p), Hp.
Qed.

Lemma sorted_drop {R : Z → Z → Prop} p l : StronglySorted R l → StronglySorted R (drop_job p l).
Proof.
  unfold drop_job. induction 1 as [|q l Hs IH Hq]; [constructor|]. rewrite filter_cons. case_decide; [|done].
  constructor; [done|]. rewrite Forall_forall in *. intros r Hr. apply Hq. by apply list_elem_of_filter in Hr as [_ ?].
Qed.

(** Times of the timers listed are all that matters. *)
Lemma sorted_times ts ts' l :
  (∀ p x, p ∈ l → ts !! p = Some x → ∃ x', ts' !! p = Some x' ∧ absTime x' = absTime x) →
  StronglySorted (timer_lt ts) l → StronglySorted (timer_lt ts') l.
Proof.
  intros Ht Hs. induction Hs as [|p l Hs IH Hp]; constructor.
  - apply IH. intros q x Hq. apply Ht. set_solver.
  - rewrite Forall_forall in *. intros q Hq. destruct (Hp q Hq) as (x & y & Hx & Hy & Hlt).
    destruct (Ht p x ltac:(set_solver) Hx) as (x' & Hx' & Ex). destruct (Ht q y ltac:(set_solver) Hy) as (y' & Hy' & Ey).
    exists x', y'. split_and!; try done. lia.
Qed.

Lemma compare_timers_ok ts p q x y :
  ts !! p = Some x → ts !! q = Some y → p ≠ q → ∃ c, compare_timers ts p q = Some c ∧
    ((c = -1 ∧ timer_lt ts p q) ∨ (c = 1 ∧ timer_lt ts q p)).
Proof.
  intros Hx Hy Hne. unfold compare_timers. rewrite Hx, Hy. cbn. eexists. split; [done|].
  pose proof (B_COMPARE_spec (absTime x) (absTime y)). pose proof (B_COMPARE_spec p q).
  destruct (Z.eqb_spec (B_COMPARE (absTime x) (absTime y)) 0); cbn [negb].
  - assert (absTime x = absTime y) by lia. destruct (Z.lt_trichotomy p q) as [Hl|[->|Hl]]; [|done|].
    + left. split; [lia|]. exists x, y. split_and!; try done. lia.
    + right. split; [lia|]. exists y, x. split_and!; try done. lia.
  - destruct (Z.lt_trichotomy (absTime x) (absTime y)) as [Hl|[He|Hl]]; [| lia |].
    + left. split; [lia|]. exists x, y. split_and!; try done. lia.
    + right. split; [lia|]. exists y, x. split_and!; try done. lia.
Qed.

Lemma TimersTree_Insert_ok ts p l :
  StronglySorted (timer_lt ts) l → p ∉ l → is_Some (ts !! p) → (∀ q, q ∈ l → is_Some (ts !! q)) →
  ∃ l', TimersTree_Insert ts p l = Some (inr l') ∧ StronglySorted (timer_lt ts) l' ∧ l' ≡ₚ p :: l.
Proof.
  intros Hs Hp [x Hx] Hl. induction Hs as [|q l Hs IH Hq]; cbn.
  { exists [p]. split_and!; try done. repeat constructor. }
  destruct (Hl q) as [y Hy]; [set_solver|].
  destruct (compare_timers_ok ts p q x y Hx Hy) as (c & -> & Hc); [set_solver|]. cbn [mbind option_bind].
  destruct Hc as [[-> Hlt]|[-> Hlt]]; cbn.
  - eexists. split_and!; [done| |done]. constructor; [by constructor|]. constructor; [done|].
    eapply Forall_impl; [exact Hq|]. intros r Hr. by transitivity q.
  - destruct IH as (l' & -> & Hs' & Hp'); [set_solver|intros; apply Hl; set_solver|]. cbn.
    eexists. split_and!; [done| |rewrite Hp'; apply Permutation_swap]. constructor; [done|]. rewrite Hp'. by constructor.
Qed.

Lemma wp_reactor_lift {A} (m : option A) a o (Q : A → t → list event → Prop) : m = Some a → Q a o [] → wp (mlift m) o Q.
Proof. by intros ->. Qed.

Lemma wp_get_timer p x o (Q : BSmallTimer → t → list event → Prop) : timers o !! p = Some x → Q x o [] → wp (get_timer p) o Q.
Proof. intros Hx HQ. unfold get_timer. wp_step. wp_step. unfold wp, mlift. by rewrite Hx. Qed.

Lemma alter_Some {A} (f : A → A) p x (m : gmap Z A) : m !! p = Some x → alter f p m = <[p := f x]> m.
Proof.
  intros Hx. apply map_eq. intros q. destruct (decide (q = p)) as [->|Hne].
  - by rewrite lookup_alter_eq, lookup_insert_eq, Hx.
  - by rewrite lookup_alter_ne, lookup_insert_ne.
Qed.

Lemma timers_inactive clk o p x :
  timers_ok clk o → timers o !! p = Some x → state x = TIMER_STATE_INACTIVE →
  (p ∉ timers_tree o) ∧ (p ∉ timers_expired_list o).
Proof.
  intros Hk Hx Hs. split; intros Hp.
  - apply (tk_running _ _ Hk) in Hp as (y & Hy & ?). congruence.
  - apply (tk_expired _ _ Hk) in Hp as (y & Hy & ?). congruence.
Qed.

(** A timer becomes inactive. *)
Lemma timers_ok_deactivate clk o p x x' :
  timers_ok clk o → timers o !! p = Some x → state x' = TIMER_STATE_INACTIVE →
  timers_ok clk (with_timers (drop_job p (timers_tree o)) (drop_job p (timers_expired_list o)) (<[p := x']> (timers o)) o).
Proof.
  intros Hk Hx Hs.
  assert (∀ q y l, q ∈ drop_job p l → timers o !! q = Some y → ∃ y', <[p := x']> (timers o) !! q = Some y' ∧ absTime y' = absTime y) as Ht.
  { intros q y l [Hne _]%elem_of_drop Hy. exists y. by rewrite lookup_insert_ne. }
  assert (∀ s q, s ≠ TIMER_STATE_INACTIVE → (∃ y, <[p := x']> (timers o) !! q = Some y ∧ state y = s) ↔
    q ≠ p ∧ ∃ y, timers o !! q = Some y ∧ state y = s) as Hlk.
  { intros s' q Hs'. split.
    - intros (y & Hy & Hsy). apply lookup_insert_Some in Hy as [[<- <-]|[Hne Hy]]; [congruence|]. eauto.
    - intros (Hne & y & Hy & Hsy). exists y. by rewrite lookup_insert_ne. }
  split; cbn.
  - eapply sorted_times; [intros q y; apply Ht|]. apply sorted_drop, (tk_sorted _ _ Hk).
  - intros q. rewrite elem_of_drop, (tk_running _ _ Hk), Hlk by done. done.
  - eapply sorted_times; [intros q y; apply Ht|]. apply sorted_drop, (tk_esorted _ _ Hk).
  - intros q. rewrite elem_of_drop, (tk_expired _ _ Hk), Hlk by done. done.
  - intros q y Hy Hsy. apply lookup_insert_Some in Hy as [[<- <-]|[Hne Hy]]; [congruence|]. by apply (tk_due _ _ Hk q).
  - intros q y Hy Hsy. apply lookup_insert_Some in Hy as [[<- <-]|[Hne Hy]]; [congruence|]. by apply (tk_range _ _ Hk q).
Qed.

(** An inactive timer starts. *)
Lemma timers_ok_start clk o p x x' tr :
  timers_ok clk o → timers o !! p = Some x → state x = TIMER_STATE_INACTIVE →
  state x' = TIMER_STATE_RUNNING → INT64_MIN ≤ absTime x' ≤ INT64_MAX →
  StronglySorted (timer_lt (<[p := x']> (timers o))) tr → tr ≡ₚ p :: timers_tree o →
  timers_ok clk (with_timers tr (timers_expired_list o) (<[p := x']> (timers o)) o).
Proof.
  intros Hk Hx Hi Hr Hrange Hs Hp. destruct (timers_inactive _ _ _ _ Hk Hx Hi) as [Hn1 Hn2]. split; cbn.
  - done.
  - intros q. rewrite Hp, elem_of_cons, (tk_running _ _ Hk). split.
    + intros [->|(y & Hy & Hsy)]; [exists x'; by rewrite lookup_insert_eq|]. exists y. rewrite lookup_insert_ne; [done|]. congruence.
    + intros (y & Hy & Hsy). apply lookup_insert_Some in Hy as [[<- <-]|[Hne Hy]]; [by left|]. right. eauto.
  - eapply sorted_times; [|apply (tk_esorted _ _ Hk)]. intros q y Hq Hy. exists y. rewrite lookup_insert_ne; [done|]. congruence.
  - intros q. rewrite (tk_expired _ _ Hk). split.
    + intros (y & Hy & Hsy). exists y. rewrite lookup_insert_ne; [done|]. congruence.
    + intros (y & Hy & Hsy). apply lookup_insert_Some in Hy as [[<- <-]|[Hne Hy]]; [congruence|]. eauto.
  - intros q y Hy Hsy. apply lookup_insert_Some in Hy as [[<- <-]|[Hne Hy]]; [congruence|]. by apply (tk_due _ _ Hk q).
  - intros q y Hy Hsy. apply lookup_insert_Some in Hy as [[<- <-]|[Hne Hy]]; [done|]. by apply (tk_range _ _ Hk q).
Qed.

(** A timer in memory that no list holds. *)
Lemma timers_ok_init clk o p x' :
  timers_ok clk o → (∀ x, timers o !! p = Some x → state x = TIMER_STATE_INACTIVE) → state x' = TIMER_STATE_INACTIVE →
  timers_ok clk (with_timers (timers_tree o) (timers_expired_list o) (<[p := x']> (timers o)) o).
Proof.
  intros Hk Hx Hs.
  assert (∀ s q, s ≠ TIMER_STATE_INACTIVE → (∃ y, <[p := x']> (timers o) !! q = Some y ∧ state y = s) ↔
    ∃ y, timers o !! q = Some y ∧ state y = s) as Hlk.
  { intros s' q Hs'. split; intros (y & Hy & Hsy).
    - apply lookup_insert_Some in Hy as [[<- <-]|[Hne Hy]]; [congruence|]. eauto.
    - exists y. rewrite lookup_insert_ne; [done|]. intros ->. specialize (Hx y Hy). congruence. }
  assert (∀ q y, timers o !! q = Some y → q ≠ p → <[p := x']> (timers o) !! q = Some y) as Hne.
  { intros. by rewrite lookup_insert_ne. }
  split; cbn.
  - eapply sorted_times; [|apply (tk_sorted _ _ Hk)]. intros q y Hq Hy. exists y. split; [|done]. apply Hne; [done|]. intros ->.
    apply (tk_running _ _ Hk) in Hq as (z & Hz & Hsz). specialize (Hx z Hz). congruence.
  - intros q. by rewrite (tk_running _ _ Hk), Hlk.
  - eapply sorted_times; [|apply (tk_esorted _ _ Hk)]. intros q y Hq Hy. exists y. split; [|done]. apply Hne; [done|]. intros ->.
    apply (tk_expired _ _ Hk) in Hq as (z & Hz & Hsz). specialize (Hx z Hz). congruence.
  - intros q. by rewrite (tk_expired _ _ Hk), Hlk.
  - intros q y Hy Hsy. apply lookup_insert_Some in Hy as [[<- <-]|[_ Hy]]; [congruence|]. by apply (tk_due _ _ Hk q).
  - intros q y Hy Hsy. apply lookup_insert_Some in Hy as [[<- <-]|[_ Hy]]; [congruence|]. by apply (tk_range _ _ Hk q).
Qed.

Lemma RemoveSmallTimer_ok clk o p x (Q : unit → t → list event → Prop) :
  timers_ok clk o → timers o !! p = Some x →
  Q tt (with_timers (drop_job p (timers_tree o)) (drop_job p (timers_expired_list o))
          (<[p := set_state TIMER_STATE_INACTIVE x]> (timers o)) o) [] →
  wp (BReactor_RemoveSmallTimer p) o Q.
Proof.
  intros Hk Hx HQ. unfold BReactor_RemoveSmallTimer. wp_step. eapply wp_get_timer; [done|]. wp_step. wp_step.
  cbn [app]. destruct (state x) eqn:Hs.
  - wp_step. destruct (timers_inactive _ _ _ _ Hk Hx Hs) as [Hn1 Hn2].
    rewrite !drop_absent, insert_id in HQ by (done || (rewrite Hx; f_equal; destruct x; cbn in *; by subst)). by destruct o.
  - wp_step. rewrite (alter_Some _ _ x) by done. rewrite (drop_absent (timers_expired_list o)) in HQ; [done|].
    rewrite (tk_expired _ _ Hk). intros (y & Hy & ?). congruence.
  - wp_step. rewrite (alter_Some _ _ x) by done. rewrite (drop_absent (timers_tree o)) in HQ; [done|].
    rewrite (tk_running _ _ Hk). intros (y & Hy & ?). congruence.
Qed.

Lemma btime_add_range a b : INT64_MIN ≤ a ≤ INT64_MAX → INT64_MIN ≤ b ≤ INT64_MAX →
  btime_add a b = Z.max INT64_MIN (Z.min INT64_MAX (a + b)).
Proof.
  unfold btime_add, add_int64_overflows, INT64_MIN, INT64_MAX. intros Ha Hb.
  destruct (Z.ltb_spec a 0), (Z.ltb_spec b 0); cbn [xorb].
  - destruct (Z.ltb_spec a (-9223372036854775808 - b)); simpl; lia.
  - cbn [Z.eqb negb]. lia.
  - cbn [Z.eqb negb]. lia.
  - destruct (Z.ltb_spec (9223372036854775807 - b) a); cbn [Z.eqb Pos.eqb negb Z.ltb Z.compare]; lia.
Qed.

(** The time a timer is set to. *)
Definition timer_time (mode : set_mode) (time : Z) : Z :=
  match mode with BTIMER_SET_ABSOLUTE => time | BTIMER_SET_RELATIVE now => Z.max INT64_MIN (Z.min INT64_MAX (now + time)) end.

Definition mode_ok (mode : set_mode) (time : Z) : Prop :=
  INT64_MIN ≤ time ≤ INT64_MAX ∧
  match mode with BTIMER_SET_ABSOLUTE => True | BTIMER_SET_RELATIVE now => INT64_MIN ≤ now ≤ INT64_MAX end.

Lemma SetSmallTimer_ok clk o p x mode time :
  timers_ok clk o → timers o !! p = Some x → mode_ok mode time →
  wp (BReactor_SetSmallTimer p mode time) o (λ _ o' es, es = [] ∧ timers_ok clk o' ∧ ∃ tr,
    o' = with_timers tr (drop_job p (timers_expired_list o))
           (<[p := set_state TIMER_STATE_RUNNING (set_time (timer_time mode time) x)]> (timers o)) o ∧
    tr ≡ₚ p :: drop_job p (timers_tree o)).
Proof.
  intros Hk Hx [Htime Hmode]. unfold BReactor_SetSmallTimer. wp_step. eapply RemoveSmallTimer_ok; [done|done|].
  set (o1 := with_timers _ _ _ o). assert (timers_ok clk o1) as Hk1 by (eapply timers_ok_deactivate; done).
  assert ((match mode with BTIMER_SET_RELATIVE now => btime_add now time | BTIMER_SET_ABSOLUTE => time end) = timer_time mode time) as ->.
  { destruct mode; cbn; [done|]. by rewrite btime_add_range. }
  assert (INT64_MIN ≤ timer_time mode time ≤ INT64_MAX) as Hr.
  { destruct mode; cbn; [done|]. unfold INT64_MIN, INT64_MAX. lia. }
  assert (timers o1 !! p = Some (set_state TIMER_STATE_INACTIVE x)) as Hx1 by apply lookup_insert_eq.
  wp_step. wp_step. rewrite (alter_Some _ p _ _ Hx1).
  set (x' := set_state TIMER_STATE_RUNNING (set_time (timer_time mode time) (set_state TIMER_STATE_INACTIVE x))).
  destruct (timers_inactive _ _ _ _ Hk1 Hx1 eq_refl) as [Hn1 Hn2].
  destruct (TimersTree_Insert_ok (<[p := x']> (timers o1)) p (timers_tree o1)) as (tr & Hins & Hs & Hp).
  - eapply sorted_times; [|apply (tk_sorted _ _ Hk1)]. intros q y Hq Hy. exists y. rewrite lookup_insert_ne; [done|]. congruence.
  - done.
  - rewrite lookup_insert_eq. eauto.
  - intros q Hq. rewrite lookup_insert_ne by congruence. apply (tk_running _ _ Hk1) in Hq as (y & Hy & _). eauto.
  - wp_step. eapply wp_reactor_lift; [done|]. cbn beta iota. wp_step. split; [done|]. split.
    + eapply timers_ok_start; try done.
    + exists tr. split; [|done]. unfold o1, x'. cbn. by rewrite insert_insert_eq.
Qed.

(** ** Moving timers to the expired list *)

Definition expire_all (l : list Z) (ts : gmap Z BSmallTimer) : gmap Z BSmallTimer :=
  foldl (λ ts p, alter (set_state TIMER_STATE_EXPIRED) p ts) ts l.

Lemma lookup_expire_all l ts p : expire_all l ts !! p =
  if decide (p ∈ l) then set_state TIMER_STATE_EXPIRED <$> ts !! p else ts !! p.
Proof.
  revert ts. induction l as [|q l IH]; intros ts; cbn.
  - rewrite decide_False by set_solver. done.
  - fold (expire_all l (alter (set_state TIMER_STATE_EXPIRED) q ts)). rewrite IH.
    destruct (decide (p = q)) as [->|Hne].
    + rewrite (decide_True (P := q ∈ q :: l)) by set_solver. rewrite lookup_alter_eq.
      case_decide; [|done]. by destruct (ts !! q).
    + rewrite lookup_alter_ne by done. destruct (decide (p ∈ l)).
      * by rewrite decide_True by set_solver.
      * by rewrite decide_False by set_solver.
Qed.

(** The timers [l1] that are due at [bound] moved from the tree to the list. *)
Definition moved_due (bound : Z) (o : t) (l1 : list Z) (o' : t) : Prop :=
  (∃ tr, o' = with_timers tr (timers_expired_list o ++ l1) (expire_all l1 (timers o)) o ∧ timers_tree o = l1 ++ tr ∧
     ∀ p x, head tr = Some p → timers o !! p = Some x → bound < absTime x) ∧
  Forall (λ p, ∃ x, timers o !! p = Some x ∧ absTime x ≤ bound) l1.

Definition expired_one (p : Z) (o : t) : t :=
  with_timers (drop_job p (timers_tree o)) (timers_expired_list o ++ [p])
    (alter (set_state TIMER_STATE_EXPIRED) p (timers o)) o.

Lemma moved_due_nil bound o :
  (∀ p x, head (timers_tree o) = Some p → timers o !! p = Some x → bound < absTime x) → moved_due bound o [] o.
Proof.
  intros Hh. split; [|constructor]. exists (timers_tree o). rewrite app_nil_r. split_and!; [by destruct o|done|done].
Qed.

Lemma drop_head p l : NoDup (p :: l) → drop_job p (p :: l) = l.
Proof. intros Hnd. exact (drop_at [] l p Hnd). Qed.

Lemma alter_time p q s (ts : gmap Z BSmallTimer) x :
  alter (set_state s) p ts !! q = Some x → ∃ y, ts !! q = Some y ∧ absTime y = absTime x.
Proof.
  intros Hx. apply lookup_alter_Some in Hx as [(-> & y & Hy & ->)|[_ Hx]]; eauto.
Qed.

Lemma moved_due_cons bound o p tr x l1 o' :
  timers_tree o = p :: tr → NoDup (p :: tr) → timers o !! p = Some x → absTime x ≤ bound →
  moved_due bound (expired_one p o) l1 o' → moved_due bound o (p :: l1) o'.
Proof.
  intros Ht Hnd Hx Hb [(tr' & -> & Htr & Hh) Hl]. unfold expired_one in *. cbn in *. rewrite Ht, drop_head in * by done.
  split.
  - exists tr'. rewrite <- app_assoc. cbn. split_and!; [done|by rewrite <- Htr|]. intros q y Hq Hy.
    assert (q ≠ p) as Hne.
    { intros ->. apply NoDup_cons in Hnd as [Hn _]. apply Hn. rewrite Htr. destruct tr'; [done|]. injection Hq as ->. set_solver. }
    apply (Hh q y Hq). by rewrite lookup_alter_ne.
  - constructor; [eauto|]. eapply Forall_impl; [exact Hl|]. intros q (y & Hy & Hyb). cbn in Hy.
    apply alter_time in Hy as (z & Hz & Hza). exists z. split; [done|lia].
Qed.

(** What the loops rely on. *)
Definition running (o : t) : Prop :=
  StronglySorted (timer_lt (timers o)) (timers_tree o) ∧
  ∀ p, p ∈ timers_tree o → ∃ x, timers o !! p = Some x ∧ state x = TIMER_STATE_RUNNING.

Lemma running_expired_one p tr o : timers_tree o = p :: tr → running o → running (expired_one p o).
Proof.
  intros Ht [Hs Hr]. unfold running, expired_one. rewrite Ht in *. pose proof (sorted_NoDup _ _ Hs) as Hnd.
  rewrite drop_head by done. cbn. apply NoDup_cons in Hnd as [Hn _]. apply StronglySorted_inv in Hs as [Hs _]. split.
  - eapply sorted_times; [|exact Hs]. intros q x Hq Hx. exists x. rewrite lookup_alter_ne; [done|]. congruence.
  - intros q Hq. destruct (Hr q) as (x & Hx & Hsx); [set_solver|]. exists x. rewrite lookup_alter_ne; [done|]. congruence.
Qed.

Lemma expired_one_tree p tr o : timers_tree o = p :: tr → running o → timers_tree (expired_one p o) = tr.
Proof. intros Ht [Hs _]. cbn. rewrite Ht in *. apply drop_head. by eapply sorted_NoDup. Qed.

Lemma move_expired_loop_ok fuel now moved o :
  running o → (length (timers_tree o) ≤ fuel)%nat →
  wp (move_expired_loop fuel now moved) o (λ r o' es, es = [] ∧ ∃ l1, moved_due now o l1 o' ∧ r = moved || negb (is_nil l1)).
Proof.
  revert moved o. induction fuel as [|fuel IH]; intros moved o Hr Hf; cbn [move_expired_loop]; wp_step; wp_step;
    destruct (timers_tree o) as [|p tr] eqn:Ht; cbn [head];
    try (wp_step; split; [done|]; exists []; split; [by apply moved_due_nil; rewrite Ht|by rewrite orb_false_r]).
  { cbn in Hf. lia. }
  destruct (proj2 Hr p) as (x & Hx & Hsx); [rewrite Ht; set_solver|].
  wp_step. eapply wp_get_timer; [done|]. wp_step. wp_step; [by apply bool_decide_eq_true_2|]. wp_step; bool_props.
  - wp_step. split; [done|]. exists []. split; [|by rewrite orb_false_r].
    apply moved_due_nil. rewrite Ht. cbn. intros q y [= <-] Hy. rewrite Hx in Hy. injection Hy as <-. lia.
  - wp_step. unfold expire. wp_step. wp_step. wp_step. fold (expired_one p o). cbn [app].
    eapply wp_mono; [apply (IH true (expired_one p o))|].
    + by eapply running_expired_one.
    + rewrite (expired_one_tree p tr) by done. cbn in Hf. lia.
    + cbn beta. intros r o' es (-> & l1 & Hm & ->). split; [done|]. exists (p :: l1). split; [|by rewrite orb_true_r].
      eapply moved_due_cons; try done. rewrite <- Ht. by eapply sorted_NoDup, Hr.
Qed.

Lemma move_first_loop_ok fuel first_time o :
  running o → (length (timers_tree o) ≤ fuel)%nat →
  (∀ p x, p ∈ timers_tree o → timers o !! p = Some x → first_time ≤ absTime x) →
  wp (move_first_loop fuel first_time) o (λ _ o' es, es = [] ∧ ∃ l1, moved_due first_time o l1 o').
Proof.
  revert o. induction fuel as [|fuel IH]; intros o Hr Hf Hge; cbn [move_first_loop]; wp_step; wp_step;
    destruct (timers_tree o) as [|p tr] eqn:Ht; cbn [head];
    try (wp_step; split; [done|]; exists []; by apply moved_due_nil; rewrite Ht).
  { cbn in Hf. lia. }
  destruct (proj2 Hr p) as (x & Hx & Hsx); [rewrite Ht; set_solver|].
  wp_step. eapply wp_get_timer; [done|]. wp_step. wp_step; [by apply bool_decide_eq_true_2|].
  wp_step. wp_step; [apply Z.leb_le, (Hge p); [set_solver|done]|]. wp_step; bool_props.
  - wp_step. split; [done|]. exists [].
    apply moved_due_nil. rewrite Ht. cbn. intros q y [= <-] Hy. rewrite Hx in Hy. injection Hy as <-. lia.
  - wp_step. unfold expire. wp_step. wp_step. wp_step. fold (expired_one p o). cbn [app].
    eapply wp_mono; [apply (IH (expired_one p o))|].
    + by eapply running_expired_one.
    + rewrite (expired_one_tree p tr) by done. cbn in Hf. lia.
    + intros q y. rewrite (expired_one_tree p tr) by done. intros Hq Hy. cbn in Hy.
      apply alter_time in Hy as (z & Hz & <-). apply (Hge q); [set_solver|done].
    + cbn beta. intros _ o' es (-> & l1 & Hm). split; [done|]. exists (p :: l1).
      eapply moved_due_cons; try done. rewrite <- Ht. by eapply sorted_NoDup, Hr.
Qed.

Lemma timers_running clk o : timers_ok clk o → running o.
Proof. intros Hk. split; [apply Hk|]. intros p Hp. by apply (tk_running _ _ Hk). Qed.

Lemma sorted_first o p tr x q y :
  running o → timers_tree o = p :: tr → timers o !! p = Some x → q ∈ timers_tree o → timers o !! q = Some y → absTime x ≤ absTime y.
Proof.
  intros [Hs _] Ht Hx Hq Hy. rewrite Ht in *. apply StronglySorted_inv in Hs as [_ Hs]. rewrite Forall_forall in Hs.
  apply elem_of_cons in Hq as [->|Hq]; [rewrite Hx in Hy; by injection Hy as <-|].
  destruct (Hs q Hq) as (x' & y' & Hx' & Hy' & Hlt). rewrite Hx in Hx'. rewrite Hy in Hy'. simplify_eq. lia.
Qed.

Lemma move_first_timers_ok o p tr x :
  running o → timers_tree o = p :: tr → timers o !! p = Some x →
  wp move_first_timers o (λ _ o' es, es = [] ∧ ∃ l1, moved_due (absTime x) o (p :: l1) o').
Proof.
  intros Hr Ht Hx. destruct (proj2 Hr p) as (x' & Hx' & Hsx); [rewrite Ht; set_solver|]. rewrite Hx in Hx'. injection Hx' as <-.
  unfold move_first_timers. wp_step. wp_step. wp_step. eapply wp_reactor_lift; [by rewrite Ht|].
  wp_step. eapply wp_get_timer; [done|]. wp_step. wp_step; [by apply bool_decide_eq_true_2|].
  wp_step. unfold expire. wp_step. wp_step. wp_step. fold (expired_one p o). cbn [app].
  eapply wp_mono; [apply (move_first_loop_ok _ _ (expired_one p o))|].
  - by eapply running_expired_one.
  - rewrite (expired_one_tree p tr), Ht by done. cbn. lia.
  - intros q y. rewrite (expired_one_tree p tr) by done. intros Hq Hy. cbn in Hy. apply alter_time in Hy as (z & Hz & <-).
    eapply (sorted_first o p tr x q z); try done. rewrite Ht. set_solver.
  - cbn beta. intros _ o' es (-> & l1 & Hm). split; [done|]. exists l1. eapply moved_due_cons; try done.
    rewrite <- Ht. by eapply sorted_NoDup, Hr.
Qed.

Lemma expire_all_time l ts p x : expire_all l ts !! p = Some x → ∃ y, ts !! p = Some y ∧ absTime y = absTime x ∧
  state x = if decide (p ∈ l) then TIMER_STATE_EXPIRED else state y.
Proof.
  rewrite lookup_expire_all. case_decide; [|intros Hx; by exists x].
  destruct (ts !! p) as [y|]; [|done]. intros [= <-]. by exists y.
Qed.

Lemma moved_due_ok clk bound o l1 o' :
  timers_ok clk o → timers_expired_list o = [] → bound ≤ clk → moved_due bound o l1 o' → timers_ok clk o'.
Proof.
  intros Hk He Hb [(tr & -> & Ht & _) Hl]. pose proof (tk_sorted _ _ Hk) as Hs. rewrite Ht in Hs.
  pose proof (sorted_NoDup _ _ Hs) as Hnd. apply NoDup_app in Hnd as (_ & Hd & _).
  assert (∀ p x, timers o !! p = Some x →
    ∃ x', expire_all l1 (timers o) !! p = Some x' ∧ absTime x' = absTime x) as Htime.
  { intros p x Hx. rewrite lookup_expire_all, Hx. case_decide; [by eexists|by exists x]. }
  split; cbn [timers timers_tree timers_expired_list with_timers].
  - eapply sorted_times; [|by eapply StronglySorted_app_1_r]. intros p x _. apply Htime.
  - intros p. split.
    + intros Hp. destruct (proj1 (tk_running _ _ Hk p)) as (x & Hx & Hsx); [rewrite Ht; set_solver|]. exists x.
      rewrite lookup_expire_all, decide_False; [done|]. intros Hl1. by apply (Hd p).
    + intros (x & Hx & Hsx). apply expire_all_time in Hx as (y & Hy & _ & Hsy). case_decide; [congruence|].
      assert (p ∈ timers_tree o) as Hp by (apply (tk_running _ _ Hk); exists y; split; [done|congruence]).
      rewrite Ht in Hp. set_solver.
  - rewrite He. cbn. eapply sorted_times; [|by eapply StronglySorted_app_1_l]. intros p x _. apply Htime.
  - intros p. rewrite He. cbn. split.
    + intros Hp. destruct (proj1 (tk_running _ _ Hk p)) as (x & Hx & Hsx); [rewrite Ht; set_solver|].
      exists (set_state TIMER_STATE_EXPIRED x). by rewrite lookup_expire_all, Hx, decide_True.
    + intros (x & Hx & Hsx). apply expire_all_time in Hx as (y & Hy & _ & Hsy). case_decide; [done|].
      assert (p ∈ timers_expired_list o) as Hp by (apply (tk_expired _ _ Hk); exists y; split; [done|congruence]).
      rewrite He in Hp. set_solver.
  - intros p x Hx Hsx. apply expire_all_time in Hx as (y & Hy & <- & Hsy). case_decide.
    + rewrite Forall_forall in Hl. destruct (Hl p) as (z & Hz & Hzb); [done|]. rewrite Hy in Hz. injection Hz as <-. lia.
    + apply (tk_due _ _ Hk p); [done|congruence].
  - intros p x Hx Hsx. apply expire_all_time in Hx as (y & Hy & <- & Hsy). case_decide; [congruence|].
    apply (tk_range _ _ Hk p); [done|congruence].
Qed.

Lemma timers_ok_clock clk clk' o : timers_ok clk o → clk ≤ clk' → timers_ok clk' o.
Proof. intros [] Hc. split; try done. intros p x Hx Hs. etransitivity; [by eapply tk_due0|done]. Qed.

(** ** File descriptors *)

Lemma wp_get_fd p x o (Q : BFileDescriptor → t → list event → Prop) : fds o !! p = Some x → Q x o [] → wp (get_fd p) o Q.
Proof. intros Hx HQ. unfold get_fd. wp_step. wp_step. unfold wp, mlift. by rewrite Hx. Qed.

Lemma wp_assert_force b o (Q : unit → t → list event → Prop) : b = true → Q tt o [] → wp (ASSERT_FORCE b) o Q.
Proof. by intros ->. Qed.

(** An inactive descriptor is in nobody's way. *)
Lemma fds_inactive o p x : fds_ok o → fds o !! p = Some x → active x = false →
  efd o !! p = None ∧ ∀ i ev, (epoll_results_pos o ≤ i)%nat → epoll_results o !! i ≠ Some (Some p, ev).
Proof.
  intros Hk Hx Ha. split.
  - apply eq_None_not_Some. intros (y & Hy & ?)%(fk_registered _ Hk). congruence.
  - intros i ev Hi Hr. destruct (fk_results _ Hk i p ev Hi Hr) as (y & Hy & ? & _). congruence.
Qed.

(** A descriptor that is not watched changes. *)
Lemma fds_ok_idle o p x' e' :
  fds_ok o → (∀ x, fds o !! p = Some x → active x = false) →
  (if active x' then e' = <[p := epoll_events (waitEvents x')]> (efd o) ∧ epoll_returned_ptr x' = None else e' = efd o) →
  fds_ok (with_fds e' (epoll_results o) (epoll_results_pos o) (<[p := x']> (fds o)) o).
Proof.
  intros Hk Hi He.
  assert (efd o !! p = None) as Hep.
  { apply eq_None_not_Some. intros (y & Hy & ?)%(fk_registered _ Hk). specialize (Hi y Hy). congruence. }
  split; cbn.
  - intros q y Hy Ha. apply lookup_insert_Some in Hy as [[<- <-]|[Hne Hy]].
    + rewrite Ha in He. destruct He as [-> _]. by rewrite lookup_insert_eq.
    + destruct (active x'); [destruct He as [-> _]; rewrite lookup_insert_ne by done|subst e']; by apply (fk_active _ Hk).
  - intros q Hq. destruct (decide (q = p)) as [->|Hne].
    + exists x'. rewrite lookup_insert_eq. split; [done|]. destruct (active x'); [done|]. subst e'. rewrite Hep in Hq. by destruct Hq.
    + rewrite lookup_insert_ne by done. apply (fk_registered _ Hk). destruct (active x'); [destruct He as [-> _]|by subst e'].
      by rewrite lookup_insert_ne in Hq by done.
  - intros q y i Hy Ha Hr. apply lookup_insert_Some in Hy as [[<- <-]|[Hne Hy]].
    + rewrite Ha in He. destruct He as [_ ?]. congruence.
    + by apply (fk_returned _ Hk q y).
  - intros i q ev Hpos Hr. destruct (fk_results _ Hk i q ev Hpos Hr) as (y & Hy & Ha & Hret).
    exists y. rewrite lookup_insert_ne; [done|]. intros <-. specialize (Hi y Hy). congruence.
  - apply (fk_pos _ Hk).
Qed.

Lemma AddFileDescriptor_ok o p x ok :
  fds_ok o → fds o !! p = Some x → active x = false →
  wp (BReactor_AddFileDescriptor p ok) o (λ r o' es, es = [] ∧ r = ok ∧ fds_ok o' ∧
    ∃ e fs, o' = with_fds e (epoll_results o) (epoll_results_pos o) fs o).
Proof.
  intros Hk Hx Ha. unfold BReactor_AddFileDescriptor. wp_step. eapply wp_get_fd; [done|]. wp_step. wp_step; [by rewrite Ha|].
  destruct ok; cbn [negb].
  - wp_step. wp_step. wp_step. wp_step. wp_step. split_and!; try done; [|by eexists _, _].
    apply (fds_ok_idle o p _ _ Hk); [naive_solver|]. done.
  - wp_step. split_and!; try done. exists (efd o), (fds o). by destruct o.
Qed.

Lemma SetFileDescriptorEvents_ok o p x ev :
  fds_ok o → fds o !! p = Some x → active x = true → Z.land ev (Z.lnot (Z.lor BREACTOR_READ BREACTOR_WRITE)) = 0 →
  wp (BReactor_SetFileDescriptorEvents p ev) o (λ _ o' es, es = [] ∧ fds_ok o' ∧
    o' = with_fds (<[p := epoll_events ev]> (efd o)) (epoll_results o) (epoll_results_pos o) (<[p := set_wait ev x]> (fds o)) o).
Proof.
  intros Hk Hx Ha Hev. pose proof (fk_active _ Hk p x Hx Ha) as He.
  unfold BReactor_SetFileDescriptorEvents. wp_step. eapply wp_get_fd; [done|]. wp_step. wp_step; [done|].
  wp_step. wp_step; [by apply Z.eqb_eq|]. cbn [app].
  assert (fds_ok (with_fds (<[p := epoll_events ev]> (efd o)) (epoll_results o) (epoll_results_pos o) (<[p := set_wait ev x]> (fds o)) o)) as Hk'.
  { split; cbn.
    - intros q y Hy Hay. apply lookup_insert_Some in Hy as [[<- <-]|[Hne Hy]]; [by rewrite lookup_insert_eq|].
      rewrite lookup_insert_ne by done. by apply (fk_active _ Hk).
    - intros q Hq. destruct (decide (q = p)) as [->|Hne]; [exists (set_wait ev x); by rewrite lookup_insert_eq|].
      rewrite lookup_insert_ne in Hq by done. rewrite lookup_insert_ne by done. by apply (fk_registered _ Hk).
    - intros q y i Hy Hay Hr. apply lookup_insert_Some in Hy as [[<- <-]|[Hne Hy]]; [by apply (fk_returned _ Hk p x)|].
      by apply (fk_returned _ Hk q y).
    - intros i q ev' Hpos Hr. destruct (fk_results _ Hk i q ev' Hpos Hr) as (y & Hy & Hay & Hret).
      destruct (decide (q = p)) as [->|Hne]; [|exists y; by rewrite lookup_insert_ne].
      exists (set_wait ev x). rewrite lookup_insert_eq. rewrite Hx in Hy. by injection Hy as <-.
    - apply (fk_pos _ Hk). }
  wp_step; bool_props.
  - wp_step. assert (with_fds (<[p := epoll_events ev]> (efd o)) (epoll_results o) (epoll_results_pos o) (<[p := set_wait ev x]> (fds o)) o = o) as Heq.
    { rewrite !insert_id; [by destruct o| |by rewrite He, H0]. rewrite Hx. f_equal. subst ev. by destruct x. }
    rewrite Heq in *. done.
  - wp_step. wp_step. wp_step. apply wp_assert_force; [unfold epoll_registered; rewrite He; by apply bool_decide_eq_true_2|].
    wp_step. done.
Qed.

Lemma RemoveFileDescriptor_ok o p x :
  fds_ok o → fds o !! p = Some x → active x = true →
  wp (BReactor_RemoveFileDescriptor p) o (λ _ o' es, es = [] ∧ fds_ok o' ∧ ∃ rs,
    o' = with_fds (delete p (efd o)) rs (epoll_results_pos o) (<[p := set_active false x]> (fds o)) o ∧
    length rs = length (epoll_results o)).
Proof.
  intros Hk Hx Ha. pose proof (fk_active _ Hk p x Hx Ha) as He.
  unfold BReactor_RemoveFileDescriptor. wp_step. eapply wp_get_fd; [done|]. wp_step. wp_step; [done|].
  wp_step. wp_step. wp_step. apply wp_assert_force; [unfold epoll_registered; rewrite He; by apply bool_decide_eq_true_2|].
  set (rs := match epoll_returned_ptr x with Some i => _ | None => _ end).
  assert (length rs = length (epoll_results o)) as Hlen.
  { unfold rs. destruct (epoll_returned_ptr x); [|done]. apply length_alter. }
  assert (∀ j q ev, (epoll_results_pos o ≤ j)%nat → rs !! j = Some (Some q, ev) → epoll_results o !! j = Some (Some q, ev) ∧ q ≠ p) as Hrs.
  { intros j q ev Hj Hr. unfold rs in Hr. destruct (epoll_returned_ptr x) as [i|] eqn:Hret.
    - destruct (decide (j = i)) as [->|Hne].
      + rewrite list_lookup_alter_eq in Hr. destruct (epoll_results o !! i); [done|done].
      + rewrite list_lookup_alter_ne in Hr by done. split; [done|]. intros ->.
        destruct (fk_results _ Hk j p ev Hj Hr) as (y & Hy & _ & Hry). rewrite Hx in Hy. injection Hy as <-. congruence.
    - split; [done|]. intros ->. destruct (fk_results _ Hk j p ev Hj Hr) as (y & Hy & _ & Hry). rewrite Hx in Hy. injection Hy as <-. congruence. }
  wp_step. split; [done|]. split; [|by exists rs]. split; cbn.
  - intros q y Hy Hay. apply lookup_insert_Some in Hy as [[<- <-]|[Hne Hy]]; [done|].
    rewrite lookup_delete_ne by done. by apply (fk_active _ Hk).
  - intros q Hq. apply lookup_delete_is_Some in Hq as [Hne Hq]. rewrite lookup_insert_ne by done. by apply (fk_registered _ Hk).
  - intros q y i Hy Hay Hr. apply lookup_insert_Some in Hy as [[<- <-]|[Hne Hy]]; [done|].
    destruct (fk_returned _ Hk q y i Hy Hay Hr) as (Hpos & ev & Hev). split; [done|]. exists ev.
    unfold rs. destruct (epoll_returned_ptr x) as [j|] eqn:Hret; [|done]. rewrite list_lookup_alter_ne; [done|].
    intros ->. destruct (fk_returned _ Hk p x i Hx Ha Hret) as (_ & ev' & Hev'). congruence.
  - intros i q ev Hpos Hr. destruct (Hrs i q ev Hpos Hr) as [Hr' Hne]. rewrite lookup_insert_ne by done. by apply (fk_results _ Hk i q ev).
  - rewrite Hlen. apply (fk_pos _ Hk).
Qed.

Lemma set_pointers_ok i rs o :
  NoDup rs.*1 → (∀ r, r ∈ rs → ∃ p x, r.1 = Some p ∧ fds o !! p = Some x ∧ active x = true ∧ epoll_returned_ptr x = None) →
  wp (set_epoll_fd_pointers i rs) o (λ _ o' es, es = [] ∧ ∃ fs,
    o' = with_fds (efd o) (epoll_results o) (epoll_results_pos o) fs o ∧
    (∀ j p ev, rs !! j = Some (Some p, ev) → fs !! p = set_returned (Some (i + j)%nat) <$> fds o !! p) ∧
    (∀ p, Some p ∉ rs.*1 → fs !! p = fds o !! p)).
Proof.
  revert i o. induction rs as [|[ptr ev] rs IH]; intros i o Hnd Hrs; cbn [set_epoll_fd_pointers].
  { wp_step. split; [done|]. exists (fds o). by split_and!; [destruct o| |]. }
  destruct (Hrs (ptr, ev)) as (p & x & Hptr & Hx & Ha & Hr); [set_solver|]. cbn in Hptr. subst ptr.
  cbn in Hnd. apply NoDup_cons in Hnd as [Hn Hnd].
  wp_step. eapply wp_reactor_lift; [done|]. wp_step. eapply wp_get_fd; [done|]. wp_step. wp_step; [done|].
  wp_step. wp_step; [by apply bool_decide_eq_true_2|]. wp_step. wp_step. wp_step. wp_step. cbn [app].
  eapply wp_mono; [apply IH|].
  - done.
  - intros r Hin. destruct (Hrs r) as (q & y & Hq & Hy & Hay & Hry); [set_solver|]. exists q, y. cbn.
    rewrite lookup_insert_ne; [done|]. intros ->. apply Hn. apply list_elem_of_fmap. by exists r.
  - cbn beta. intros _ o' es (-> & fs & -> & Hin & Hout). split; [done|]. exists fs. cbn in *. split_and!; [done| |].
    + intros [|j] q ev' Hj.
      * cbn in Hj. injection Hj as -> ->. rewrite Hout by done. rewrite lookup_insert_eq, Hx. cbn. by rewrite Nat.add_0_r.
      * cbn in Hj. rewrite (Hin j q ev' Hj). rewrite lookup_insert_ne; [by rewrite <- plus_n_Sm|]. intros ->.
        apply Hn, list_elem_of_fmap. exists (Some q, ev'). split; [done|]. by eapply list_elem_of_lookup_2.
    + intros q Hq. rewrite Hout by set_solver. rewrite lookup_insert_ne; [done|]. set_solver.
Qed.

(** Results of [epoll_wait]: distinct descriptors that are watched. *)
Definition results_ok (watched : gmap Z Z) (rs : list (Z * Z)) : Prop :=
  NoDup rs.*1 ∧ (∀ r, r ∈ rs → is_Some (watched !! r.1)) ∧ zlen rs ≤ BSYSTEM_MAX_RESULTS.

Lemma new_results_ok o rs :
  fds_ok o → epoll_results_pos o = length (epoll_results o) → results_ok (efd o) rs →
  wp (set_epoll_fd_pointers 0 (map (λ r, (Some r.1, r.2)) rs))
     (with_fds (efd o) (map (λ r, (Some r.1, r.2)) rs) 0 (fds o) o) (λ _ o' es, es = [] ∧ fds_ok o' ∧ ∃ fs,
    o' = with_fds (efd o) (map (λ r, (Some r.1, r.2)) rs) 0 fs o).
Proof.
  intros Hk Hpos (Hnd & Hreg & _). set (ers := map (λ r, (Some r.1, r.2)) rs).
  assert (∀ p x, fds o !! p = Some x → active x = true → epoll_returned_ptr x = None) as Hnone.
  { intros p x Hx Ha. destruct (epoll_returned_ptr x) as [i|] eqn:Hr; [|done]. exfalso.
    destruct (fk_returned _ Hk p x i Hx Ha Hr) as (Hi & ev & Hev). apply lookup_lt_Some in Hev. lia. }
  assert (ers.*1 = Some <$> rs.*1) as Hfst.
  { unfold ers. clear. induction rs as [|r rs IH]; [done|]. cbn. by rewrite IH. }
  eapply wp_mono; [apply set_pointers_ok|].
  - rewrite Hfst. apply NoDup_fmap; [apply _|done].
  - intros r Hr. unfold ers in Hr. apply list_elem_of_In, in_map_iff in Hr as ((p & ev) & <- & Hin%list_elem_of_In).
    destruct (fk_registered _ Hk p (Hreg _ Hin)) as (x & Hx & Ha). exists p, x. cbn. split_and!; try done. by eapply Hnone.
  - cbn beta. intros _ o' es (-> & fs & -> & Hin & Hout). split; [done|]. split; [|by exists fs].
    cbn [efd fds with_fds epoll_results epoll_results_pos] in *.
    assert (∀ p y, fs !! p = Some y → ∃ x, fds o !! p = Some x ∧ active y = active x ∧ waitEvents y = waitEvents x ∧
      (active x = true → ∀ i, epoll_returned_ptr y = Some i → ∃ ev, ers !! i = Some (Some p, ev))) as Hfs.
    { intros p y Hy. destruct (decide (Some p ∈ ers.*1)) as [Hp|Hp].
      - apply list_elem_of_fmap in Hp as ([q ev] & Hq & (j & Hj)%list_elem_of_lookup). cbn in Hq. subst q.
        rewrite (Hin j p ev Hj) in Hy. destruct (fds o !! p) as [x|]; [|done]. cbn in Hy. injection Hy as <-.
        exists x. split_and!; try done. cbn. intros _ i [= <-]. by exists ev.
      - rewrite Hout in Hy by done. exists y. split_and!; try done. intros Ha i Hr. rewrite (Hnone p y Hy Ha) in Hr. done. }
    split; cbn [efd fds with_fds epoll_results epoll_results_pos].
    + intros p y Hy Ha. destruct (Hfs p y Hy) as (x & Hx & Hax & -> & _). apply (fk_active _ Hk); [done|congruence].
    + intros p Hp. destruct (fk_registered _ Hk p Hp) as (x & Hx & Ha). destruct (decide (Some p ∈ ers.*1)) as [Hin'|Hn].
      * apply list_elem_of_fmap in Hin' as ([q ev] & Hq & (j & Hj)%list_elem_of_lookup). cbn in Hq. subst q.
        exists (set_returned (Some j) x). rewrite (Hin j p ev Hj), Hx. done.
      * exists x. by rewrite Hout.
    + intros p y i Hy Ha Hr. destruct (Hfs p y Hy) as (x & Hx & Hax & _ & Hret). split; [lia|]. apply Hret; [congruence|done].
    + intros i p ev _ Hr.
      assert (is_Some (efd o !! p)) as Hp.
      { apply list_elem_of_lookup_2 in Hr. unfold ers in Hr. apply list_elem_of_In, in_map_iff in Hr as ((q & ev') & Heq & Hin').
        injection Heq as -> ->. by apply (Hreg (p, ev)), list_elem_of_In. }
      destruct (fk_registered _ Hk p Hp) as (x & Hx & Ha). exists (set_returned (Some i) x).
      rewrite (Hin i p ev Hr), Hx. done.
    + lia.
Qed.

(** A result is processed. *)
Lemma dispatch_fd_ok o r :
  fds_ok o → epoll_results o !! epoll_results_pos o = Some r →
  wp (dispatch_fd r) o (λ _ o' es, fds_ok o' ∧
    (∃ fs, o' = with_fds (efd o) (epoll_results o) (S (epoll_results_pos o)) fs o) ∧
    match r with
    | (None, _) => es = []
    | (Some p, ev) => ∃ x, fds o !! p = Some x ∧ active x = true ∧
        es = let events := report_events (waitEvents x) ev in
             if events =? 0 then [] else [FdHandler (fd_handler x) (fd_user x) events]
    end).
Proof.
  intros Hk Hr. assert (epoll_results_pos o < length (epoll_results o))%nat as Hlt by (by eapply lookup_lt_Some).
  unfold dispatch_fd. wp_step. wp_step. wp_step. wp_step. cbn [app]. destruct r as [[p|] ev].
  - destruct (fk_results _ Hk _ p ev (le_n _) Hr) as (x & Hx & Ha & Hret).
    wp_step. eapply wp_get_fd; [done|]. wp_step. wp_step; [done|]. wp_step. wp_step; [by apply bool_decide_eq_true_2|].
    wp_step. wp_step. wp_step. wp_step. cbn [app].
    assert (fds_ok (with_fds (efd o) (epoll_results o) (S (epoll_results_pos o)) (<[p := set_returned None x]> (fds o)) o)) as Hk'.
    { split; cbn.
      - intros q y Hy Hay. apply lookup_insert_Some in Hy as [[<- <-]|[Hne Hy]]; [by apply (fk_active _ Hk p x)|by apply (fk_active _ Hk)].
      - intros q Hq. destruct (decide (q = p)) as [->|Hne]; [exists (set_returned None x); by rewrite lookup_insert_eq|].
        rewrite lookup_insert_ne by done. by apply (fk_registered _ Hk).
      - intros q y i Hy Hay Hry. apply lookup_insert_Some in Hy as [[<- <-]|[Hne Hy]]; [done|].
        destruct (fk_returned _ Hk q y i Hy Hay Hry) as (Hi & ev' & Hev). split; [|by exists ev'].
        assert (i ≠ epoll_results_pos o); [|lia]. intros ->. congruence.
      - intros i q ev' Hi Hri. destruct (fk_results _ Hk i q ev' ltac:(lia) Hri) as (y & Hy & Hay & Hry).
        exists y. rewrite lookup_insert_ne; [done|]. intros <-. rewrite Hx in Hy. injection Hy as <-. rewrite Hret in Hry. injection Hry. lia.
      - lia. }
    wp_step; [wp_step|wp_step]; (split_and!; [done|by eexists|]); exists x; cbn; rewrite H0; done.
  - wp_step. split_and!; [|by eexists|done]. split; cbn.
    + apply (fk_active _ Hk).
    + apply (fk_registered _ Hk).
    + intros q y i Hy Hay Hry. destruct (fk_returned _ Hk q y i Hy Hay Hry) as (Hi & ev' & Hev). split; [|by exists ev'].
      assert (i ≠ epoll_results_pos o); [|lia]. intros ->. congruence.
    + intros i q ev' Hi. apply (fk_results _ Hk i q ev'). lia.
    + lia.
Qed.

(** ** Limits *)

Lemma wp_get_limit p x o (Q : BReactorLimit → t → list event → Prop) : limits o !! p = Some x → Q x o [] → wp (get_limit p) o Q.
Proof. intros Hx HQ. unfold get_limit. wp_step. wp_step. unfold wp, mlift. by rewrite Hx. Qed.

(** A limit gets another count, and its place in the list. *)
Lemma limits_ok_set o p x' al :
  limits_ok o → 0 ≤ count x' → NoDup al → (∀ q, q ∈ al ↔ (q = p ∧ 0 < count x') ∨ (q ≠ p ∧ q ∈ active_limits_list o)) →
  limits_ok (with_limits al (<[p := x']> (limits o)) o).
Proof.
  intros Hk Hc Hnd Hal. split; cbn; [done| |].
  - intros q. rewrite Hal, (lk_active _ Hk). split.
    + intros [[-> Hp]|(Hne & y & Hy & Hp)]; [exists x'; by rewrite lookup_insert_eq|]. exists y. by rewrite lookup_insert_ne.
    + intros (y & Hy & Hp). apply lookup_insert_Some in Hy as [[<- <-]|[Hne Hy]]; [by left|]. right. eauto.
  - intros q y Hy. apply lookup_insert_Some in Hy as [[<- <-]|[Hne Hy]]; [done|]. by apply (lk_count _ Hk q).
Qed.

Lemma limits_absent o p : limits_ok o → (∀ x, limits o !! p = Some x → count x = 0) → p ∉ active_limits_list o.
Proof. intros Hk Hx Hp. apply (lk_active _ Hk) in Hp as (y & Hy & Hc). rewrite (Hx y Hy) in Hc. lia. Qed.

Lemma limits_keep o p (P : Prop) :
  p ∉ active_limits_list o → ¬ P → ∀ q, q ∈ active_limits_list o ↔ (q = p ∧ P) ∨ (q ≠ p ∧ q ∈ active_limits_list o).
Proof. intros Hp HP q. split; [|tauto]. intros Hq. right. split; [|done]. by intros ->. Qed.

Lemma Limit_Init_ok o p lim :
  limits_ok o → limits o !! p = None → 0 < lim →
  wp (BReactorLimit_Init p lim) o (λ _ o' es, es = [] ∧ limits_ok o' ∧ ∃ ls, o' = with_limits (active_limits_list o) ls o).
Proof.
  intros Hk Hp Hl. unfold BReactorLimit_Init. wp_step. wp_step; [by apply Z.ltb_lt|]. wp_step. wp_step. wp_step.
  split_and!; [done| |by eexists]. apply limits_ok_set; try done; [apply Hk|]. cbn. apply limits_keep; [|lia].
  apply limits_absent; [done|]. intros x. by rewrite Hp.
Qed.

Lemma Limit_Free_ok o p x :
  limits_ok o → limits o !! p = Some x →
  wp (BReactorLimit_Free p) o (λ _ o' es, es = [] ∧ limits_ok o' ∧ ∃ al ls, o' = with_limits al ls o).
Proof.
  intros Hk Hx. unfold BReactorLimit_Free. wp_step. eapply wp_get_limit; [done|]. wp_step. wp_step. wp_step.
  split_and!; [done| |by eexists _, _].
  assert ((if 0 <? count x then drop_job p (active_limits_list o) else active_limits_list o) = drop_job p (active_limits_list o)) as ->.
  { destruct (Z.ltb_spec 0 (count x)); [done|]. symmetry. apply drop_absent, limits_absent; [done|].
    intros y Hy. rewrite Hx in Hy. injection Hy as <-. pose proof (lk_count _ Hk p x Hx). lia. }
  split; cbn.
  - apply NoDup_drop, (lk_nodup _ Hk).
  - intros q. rewrite elem_of_drop, (lk_active _ Hk). setoid_rewrite lookup_delete_Some. naive_solver.
  - intros q y Hy. apply lookup_delete_Some in Hy as [_ Hy]. by apply (lk_count _ Hk q).
Qed.

Lemma Limit_Increment_ok o p x :
  limits_ok o → limits o !! p = Some x →
  wp (BReactorLimit_Increment p) o (λ r o' es, es = [] ∧ limits_ok o' ∧ (∃ al, o' =
    with_limits al (<[p := mk_limit (limit x) (if r then count x + 1 else count x)]> (limits o)) o) ∧ r = (count x <? limit x)).
Proof.
  intros Hk Hx. pose proof (lk_count _ Hk p x Hx). unfold BReactorLimit_Increment. wp_step. eapply wp_get_limit; [done|].
  wp_step; bool_props.
  - wp_step. split_and!; [done|done| |by symmetry; apply Z.ltb_ge]. exists (active_limits_list o).
    rewrite insert_id by (rewrite Hx; by destruct x). by destruct o.
  - wp_step. wp_step. wp_step. wp_step. wp_step. split_and!; [done| |by eexists|by symmetry; apply Z.ltb_lt].
    apply limits_ok_set; cbn; [done|lia| |].
    + destruct (Z.eqb_spec (count x + 1) 1); [|apply (lk_nodup _ Hk)]. apply NoDup_app. split_and!; [apply Hk| |apply NoDup_singleton].
      intros q Hq ->%list_elem_of_singleton. revert Hq. apply limits_absent; [done|]. intros y Hy. rewrite Hx in Hy. injection Hy as <-. lia.
    + destruct (Z.eqb_spec (count x + 1) 1).
      * intros q. rewrite elem_of_app, list_elem_of_singleton. split; [|naive_solver lia].
        intros [Hq | ->]; [|left; lia]. right. split; [|done]. intros ->. revert Hq. apply limits_absent; [done|].
        intros y Hy. rewrite Hx in Hy. injection Hy as <-. lia.
      * intros q. destruct (decide (q = p)) as [->|Hne]; [|tauto]. rewrite (lk_active _ Hk).
        split; [intros _; left; split; [done|lia]|]. intros _. exists x. split; [done|lia].
Qed.

Lemma Limit_SetLimit_ok o p x lim :
  limits_ok o → limits o !! p = Some x → 0 < lim →
  wp (BReactorLimit_SetLimit p lim) o (λ _ o' es, es = [] ∧ limits_ok o' ∧ ∃ ls, o' = with_limits (active_limits_list o) ls o).
Proof.
  intros Hk Hx Hl. pose proof (lk_count _ Hk p x Hx). unfold BReactorLimit_SetLimit. wp_step. eapply wp_get_limit; [done|].
  wp_step. wp_step; [by apply Z.ltb_lt|]. wp_step. wp_step. wp_step. split_and!; [done| |by eexists].
  apply limits_ok_set; [done|done|apply Hk|]. cbn. intros q. destruct (decide (q = p)) as [->|Hne]; [|tauto].
  rewrite (lk_active _ Hk). split; [|naive_solver]. intros (y & Hy & Hc). rewrite Hx in Hy. injection Hy as <-. naive_solver.
Qed.

Lemma reset_limits_ok fuel o :
  limits_ok o → (length (active_limits_list o) ≤ fuel)%nat →
  wp (reset_limits fuel) o (λ _ o' es, es = [] ∧ limits_ok o' ∧ (∃ ls, o' = with_limits [] ls o ∧
    ∀ p x, ls !! p = Some x → count x = 0)).
Proof.
  revert o. induction fuel as [|fuel IH]; intros o Hk Hf; cbn [reset_limits]; wp_step; wp_step;
    destruct (active_limits_list o) as [|p al] eqn:Hal; cbn [head];
    try (wp_step; split_and!; [done|done|]; exists (limits o); split; [by destruct o; cbn in *; subst|];
         intros p x Hx; pose proof (lk_count _ Hk p x Hx); destruct (decide (0 < count x)) as [Hc|]; [|lia];
         exfalso; assert (p ∈ active_limits_list o) as Hin by (apply (lk_active _ Hk); eauto); rewrite Hal in Hin; set_solver).
  { cbn in Hf. lia. }
  destruct (proj1 (lk_active _ Hk p)) as (x & Hx & Hc); [rewrite Hal; set_solver|].
  wp_step. eapply wp_get_limit; [done|]. wp_step. wp_step; [by apply Z.ltb_lt|]. wp_step. wp_step. cbn [app].
  pose proof (lk_nodup _ Hk) as Hnd. rewrite Hal in Hnd.
  eapply wp_mono; [apply IH|].
  - apply limits_ok_set; [done|done|by apply NoDup_drop|]. cbn [count]. intros q. rewrite elem_of_drop, Hal. naive_solver lia.
  - cbn [active_limits_list with_limits]. rewrite drop_head by done. cbn in Hf. lia.
  - cbn beta. intros _ o' es (-> & Hk' & ls & -> & Hz). split_and!; [done|done|]. by exists ls.
Qed.

(** ** Waiting *)

(** What the kernel promises: [epoll_wait], called at time [now] to wait for the
    time [ta], returns watched descriptors, or nothing once the time it was given
    (at most [INT_MAX]) has passed; the clock does not go back; some call ends
    the wait.  [clk'] is the time when the wait ends. *)
Fixpoint wait_law (watched : gmap Z Z) (ta : option Z) (now : Z) (answers : list (wait_answer * Z)) (clk' : Z) : Prop :=
  match answers with
  | [] => False
  | (answer, now') :: answers =>
      let again := match ta with
                   | Some time => now ≤ now' ∧ if time <=? now' then now' ≤ clk' else wait_law watched ta now' answers clk'
                   | None => wait_law watched None now answers clk'
                   end in
      match answer with
      | WaitInterrupted => again
      | WaitError => False
      | WaitReturned rs => results_ok watched rs ∧
          match rs, ta with
          | _ :: _, _ => now ≤ clk'
          | [], None => False
          | [], Some time => if time - now <=? INT_MAX then now + (time - now) ≤ clk' else again
          end
      end
  end.

(** The time the loop waits for is that of the first timer, in the future. *)
Definition waits_for (o : t) (ta : option Z) (now : Z) : Prop :=
  match ta with
  | None => True
  | Some time => now < time ∧ ∃ p tr x, timers_tree o = p :: tr ∧ timers o !! p = Some x ∧ absTime x = time
  end.

(** How a wait ends. *)
Definition wait_done (o : t) (ta : option Z) (clk' : Z) (o' : t) : Prop :=
  (∃ time l1, ta = Some time ∧ time ≤ clk' ∧ l1 ≠ [] ∧ moved_due time o l1 o') ∨
  (∃ rs fs, rs ≠ [] ∧ fds_ok o' ∧ o' = with_fds (efd o) (map (λ r, (Some r.1, r.2)) rs) 0 fs o).

(** The timeouts given to the kernel do not go beyond the first timer. *)
Definition timeout_ok (ta : option Z) (now : Z) (e : event) : Prop :=
  match ta with
  | None => e = EpollWait (-1)
  | Some time => ∃ d, e = EpollWait d ∧ 0 < d ≤ Z.min INT_MAX (time - now)
  end.

Lemma timeout_ok_later ta now now' e :
  timeout_ok ta now' e → (∀ time, ta = Some time → now ≤ now') → timeout_ok ta now e.
Proof. destruct ta as [time|]; cbn; [|done]. intros (d & -> & Hd) Hn. specialize (Hn time eq_refl). exists d. split; [done|lia]. Qed.

Lemma first_timers_done o ta now time clk' (Q : unit → t → list event → Prop) :
  running o → waits_for o ta now → ta = Some time → time ≤ clk' →
  (∀ o', wait_done o ta clk' o' → Q tt o' []) → wp move_first_timers o Q.
Proof.
  intros Hr Hw -> Hc HQ. destruct Hw as (_ & p & tr & x & Ht & Hx & Hxt).
  eapply wp_mono; [by apply (move_first_timers_ok o p tr x)|]. cbn beta. intros [] o' es (-> & l1 & Hm). apply HQ. left.
  exists time, (p :: l1). rewrite <- Hxt. split_and!; [done|lia|done|done].
Qed.

Lemma wait_loop_ok clk answers o ta now clk' :
  timers_ok clk o → fds_ok o → epoll_results_pos o = length (epoll_results o) → epoll_results_pos o = 0%nat →
  0 ≤ now → waits_for o ta now → wait_law (efd o) ta now answers clk' →
  wp (wait_loop answers ta now) o (λ _ o' es, wait_done o ta clk' o' ∧ Forall (timeout_ok ta now) es).
Proof.
  intros Hk Hfk Hpos Hp0. revert now. induction answers as [|[answer now'] answers IH]; intros now Hn Hw Hlaw; [done|].
  cbn [wait_loop wait_law] in *.
  assert (∀ e : event, e = EpollWait (if bool_decide (is_Some ta) then
      (if INT_MAX <? match ta with Some ta => ta - now | None => 0 end then INT_MAX else match ta with Some ta => ta - now | None => 0 end)
      else -1) → timeout_ok ta now e) as Hev.
  { intros e ->. destruct ta as [time|]; cbn; [|done]. destruct Hw as [Hlt _]. eexists. split; [done|].
    unfold INT_MAX. destruct (Z.ltb_spec 2147483647 (time - now)); lia. }
  wp_step. apply wp_assert_force.
  { destruct ta as [time|]; [|done]. destruct Hw as (Hlt & p & tr & x & Ht & Hx & <-).
    destruct (proj1 (tk_running _ _ Hk p)) as (y & Hy & Hs); [rewrite Ht; set_solver|]. rewrite Hx in Hy. injection Hy as <-.
    pose proof (tk_range _ _ Hk p x Hx Hs). unfold INT64_MIN, INT64_MAX in *. lia. }
  wp_step. wp_step. cbn [app]. specialize (Hev _ eq_refl). set (ev := EpollWait _) in *. clearbody ev.
  set (again := match ta with Some _ => _ ∧ _ | None => _ end) in Hlaw.
  assert (again → wp (match ta with
      | Some ta0 => if ta0 <=? now' then move_first_timers else wait_loop answers ta now'
      | None => wait_loop answers ta now
      end) o (λ _ o' es, wait_done o ta clk' o' ∧ Forall (timeout_ok ta now) (ev :: es))) as Hagain.
  { subst again. destruct ta as [time|] eqn:Hta.
    - intros [Hle Hrest]. revert Hrest. destruct (Z.leb_spec time now'); intros Hrest.
      + eapply (first_timers_done o (Some time) now time clk'); [by eapply timers_running|exact Hw|done|lia|]. intros o' Ho'. split; [done|]. by repeat constructor.
      + eapply wp_mono; [apply (IH now'); [lia| |done]|].
        * cbn in *. naive_solver.
        * cbn beta. intros _ o' es [Hd He]. split; [done|]. constructor; [done|]. eapply Forall_impl; [exact He|].
          intros e He'. eapply timeout_ok_later; [done|]. naive_solver lia.
    - intros Hrest. eapply wp_mono; [by apply (IH now)|]. cbn beta. intros _ o' es [Hd He]. split; [done|]. by constructor. }
  clearbody again. destruct answer as [| |rs]; [by apply Hagain|done|]. destruct Hlaw as [Hrs Hlaw].
  wp_step. apply wp_assert_force; [destruct rs; [by destruct ta|done]|]. wp_step. apply wp_assert_force; [by apply Z.leb_le, Hrs|].
  destruct rs as [|r rs].
  - cbn [is_nil negb]. destruct ta as [time|]; [|done]. unfold INT_MAX in *.
    revert Hlaw. destruct (Z.leb_spec (time - now) 2147483647); intros Hlaw.
    + rewrite (proj2 (Z.ltb_ge 2147483647 (time - now))) by lia. rewrite Z.eqb_refl.
      eapply (first_timers_done o (Some time) now time clk'); [by eapply timers_running|exact Hw|done|lia|]. intros o' Ho'. split; [done|]. by repeat constructor.
    + rewrite (proj2 (Z.ltb_lt 2147483647 (time - now))) by lia. rewrite (proj2 (Z.eqb_neq 2147483647 (time - now))) by lia.
      by apply Hagain.
  - cbn [is_nil negb]. wp_step. wp_step. wp_step. wp_step. eapply wp_mono; [by apply new_results_ok|].
    cbn beta. intros _ o' es (-> & Hk' & fs & ->). split; [|by repeat constructor]. right. exists (r :: rs), fs. by split_and!.
Qed.

Lemma timers_ok_ext clk o o' :
  timers_ok clk o → timers o' = timers o → timers_tree o' = timers_tree o → timers_expired_list o' = timers_expired_list o →
  timers_ok clk o'.
Proof. intros [] E1 E2 E3. split; rewrite ?E1, ?E2, ?E3; done. Qed.

Lemma fds_ok_ext o o' :
  fds_ok o → efd o' = efd o → fds o' = fds o → epoll_results o' = epoll_results o → epoll_results_pos o' = epoll_results_pos o →
  fds_ok o'.
Proof. intros [] E1 E2 E3 E4. split; rewrite ?E1, ?E2, ?E3, ?E4; done. Qed.

Lemma limits_ok_ext o o' :
  limits_ok o → limits o' = limits o → active_limits_list o' = active_limits_list o → limits_ok o'.
Proof. intros [] E1 E2. split; rewrite ?E1, ?E2; done. Qed.

Lemma fds_ok_clear o : fds_ok o → epoll_results_pos o = length (epoll_results o) → fds_ok (with_fds (efd o) [] 0 (fds o) o).
Proof.
  intros Hk Hpos. split; cbn; [apply Hk|apply Hk| |done|done].
  intros p x i Hx Ha Hr. destruct (fk_returned _ Hk p x i Hx Ha Hr) as (Hi & ev & Hev). apply lookup_lt_Some in Hev. lia.
Qed.

(** The promises for a wait that starts at time [now]. *)
Definition wait_start (o : t) (now : Z) (answers : list (wait_answer * Z)) (clk' : Z) : Prop :=
  0 ≤ now ∧
  match timers_tree o with
  | [] => wait_law (efd o) None now answers clk'
  | p :: _ => ∃ x, timers o !! p = Some x ∧
      if absTime x <=? now then now ≤ clk' else wait_law (efd o) (Some (absTime x)) now answers clk'
  end.

(** Nothing is left to dispatch. *)
Definition idle (o : t) : Prop :=
  BPending.BPendingGroup_HasJobs (pending_jobs o) = false ∧ timers_expired_list o = [] ∧
  epoll_results o !! epoll_results_pos o = None.

(** [es]: waits that end by the time of the first timer. *)
Definition waits (o : t) (now : Z) (es : list event) : Prop :=
  ∀ e, e ∈ es → ∃ d, e = EpollWait d ∧
    match timers_tree o with
    | [] => d = -1
    | p :: _ => ∃ x, timers o !! p = Some x ∧ 0 < d ≤ Z.min INT_MAX (absTime x - now)
    end.

(** The counters are reset unless a timer was due at once. *)
Definition limits_reset (o o' : t) (now : Z) : Prop :=
  (∀ p x, limits o' !! p = Some x → count x = 0) ∨
  (limits o' = limits o ∧ ∃ p tr x, timers_tree o = p :: tr ∧ timers o !! p = Some x ∧ absTime x ≤ now).

Lemma wp_reset_limits o (Q : unit → t → list event → Prop) :
  limits_ok o → (∀ ls, (∀ p x, ls !! p = Some x → count x = 0) → limits_ok (with_limits [] ls o) → Q tt (with_limits [] ls o) []) →
  wp (o ← mget; reset_limits (length (active_limits_list o))) o Q.
Proof.
  intros Hk HQ. wp_step. wp_step. cbn [app]. eapply wp_mono; [by apply reset_limits_ok|].
  cbn beta. intros [] o' es (-> & Hk' & ls & -> & Hz). by apply HQ.
Qed.

Lemma wait_for_events_ok clk o now answers clk' :
  inv clk o → idle o → clk ≤ clk' → wait_start o now answers clk' →
  wp (wait_for_events now answers) o (λ _ o' es, inv clk' o' ∧
    (timers_expired_list o' ≠ [] ∨ is_Some (epoll_results o' !! epoll_results_pos o')) ∧ waits o now es ∧ limits_reset o o' now).
Proof.
  intros [Hj Hk Hfk Hlk] (Hnj & Hex & Hnr) Hc [Hn Hlaw].
  assert (epoll_results_pos o = length (epoll_results o)) as Hpos.
  { apply lookup_ge_None in Hnr. pose proof (fk_pos _ Hfk). lia. }
  unfold wait_for_events. wp_step. wp_step. wp_step. wp_step; [by rewrite Hnj|]. wp_step. wp_step; [by rewrite Hex|].
  wp_step. wp_step; [by apply bool_decide_eq_true_2|]. wp_step. wp_step. cbn [app].
  set (o1 := with_fds (efd o) [] 0 (fds o) o).
  assert (fds_ok o1) as Hfk1 by (by apply fds_ok_clear).
  assert (timers_ok clk o1) as Hk1 by (by eapply timers_ok_ext).
  assert (limits_ok o1) as Hlk1 by (by eapply limits_ok_ext).
  (* the end of the wait *)
  assert (∀ ta, waits_for o1 ta now → wait_law (efd o1) ta now answers clk' →
    wp (wait_loop answers ta now;; o ← mget; reset_limits (length (active_limits_list o))) o1 (λ _ o' es, inv clk' o' ∧
      (timers_expired_list o' ≠ [] ∨ is_Some (epoll_results o' !! epoll_results_pos o')) ∧ Forall (timeout_ok ta now) es ∧
      ∀ p x, limits o' !! p = Some x → count x = 0)) as Hloop.
  { intros ta Hw Hl. wp_step. eapply wp_mono; [by apply (wait_loop_ok clk answers o1 ta now clk')|].
    cbn beta. intros _ o2 es [Hd He]. destruct Hd as [(time & l1 & -> & Ht & Hl1 & Hm)|(rs & fs & Hrs & Hk2 & Ho2)].
    - assert (timers_ok clk' o2) as Hk2.
      { eapply (moved_due_ok clk' time o1); [|done|exact Ht|exact Hm]. by eapply timers_ok_clock. }
      destruct Hm as [(tr & -> & _) _]. cbn [with_timers o1 with_fds timers_expired_list] in *.
      apply wp_reset_limits; [by eapply limits_ok_ext|]. intros ls Hz Hlk2. rewrite app_nil_r. split_and!; [|cbn; left; by rewrite Hex|done|done].
      split; [done|by eapply timers_ok_ext|by eapply fds_ok_ext|done].
    - apply wp_reset_limits; [by subst o2; eapply limits_ok_ext|]. intros ls Hz Hlk2. rewrite app_nil_r. split_and!; [| |done|done].
      + subst o2. split; [done|eapply timers_ok_clock; [|done]; by eapply timers_ok_ext|by eapply fds_ok_ext|done].
      + right. subst o2. cbn. destruct rs; [done|]. cbn. eauto. }
  cbn [timers_tree]. destruct (timers_tree o) as [|p tr] eqn:Ht; cbn [head].
  - wp_step. wp_step. cbn [app]. eapply wp_mono; [by apply Hloop|]. cbn beta. intros _ o' es (Hi & Hp & He & Hz). split_and!; try done.
    + intros e Hin. rewrite Forall_forall in He. specialize (He e Hin). cbn in He. subst e. eexists. split; [done|]. by rewrite Ht.
    + by left.
  - destruct Hlaw as (x & Hx & Hlaw). destruct (proj1 (tk_running _ _ Hk p)) as (y & Hy & Hs); [rewrite Ht; set_solver|].
    rewrite Hx in Hy. injection Hy as <-. wp_step. wp_step. eapply wp_get_timer; [done|]. wp_step. wp_step; [by apply bool_decide_eq_true_2|].
    wp_step. unfold move_expired_timers. wp_step. wp_step.
    eapply wp_mono; [apply (move_expired_loop_ok _ now false o1); [by eapply timers_running|done]|].
    cbn beta. intros moved o2 es (-> & l1 & Hm & ->). cbn [app orb]. wp_step. cbn [app]. destruct l1 as [|q l1]; cbn [is_nil negb].
    + destruct Hm as [(tr' & -> & Htr & Hh) _]. cbn in Htr, Hh. rewrite <- Htr in Hh. rewrite Ht in Hh. specialize (Hh p x eq_refl Hx).
      rewrite (proj2 (Z.leb_gt _ _)) in Hlaw by done.
      assert (with_timers tr' (timers_expired_list o1 ++ []) (expire_all [] (timers o1)) o1 = o1) as ->.
      { rewrite app_nil_r. cbn. rewrite <- Htr. done. }
      eapply wp_mono; [apply (Hloop (Some (absTime x))); [|done]|].
      * split; [done|]. exists p, tr, x. by split_and!.
      * cbn beta. intros _ o' es (Hi & Hp & He & Hz). split_and!; try done; [|by left].
        intros e Hin. rewrite Forall_forall in He. destruct (He e Hin) as (d & -> & Hd). exists d. split; [done|]. rewrite Ht. by exists x.
    + wp_step. destruct Hm as [Hm Hall].
      assert (absTime x ≤ now) as Hle.
      { destruct Hm as (tr' & _ & Htr & _). cbn in Htr. rewrite Ht in Htr. injection Htr as <- _.
        apply Forall_cons in Hall as [(z & Hz & Hzn) _]. cbn in Hz. rewrite Hx in Hz. by injection Hz as <-. }
      rewrite (proj2 (Z.leb_le _ _)) in Hlaw by done.
      assert (timers_ok clk' o2) as Hk2.
      { eapply (moved_due_ok clk' now o1); [|done|exact Hlaw|by split]. by eapply timers_ok_clock. }
      destruct Hm as (tr' & -> & Htr & _). split_and!.
      * split; [done|done|by eapply fds_ok_ext|by eapply limits_ok_ext].
      * left. cbn. by rewrite Hex.
      * intros e He. set_solver.
      * right. split; [done|]. exists p, tr, x. by split_and!.
Qed.

(** ** The loop *)

Lemma wp_on_jobs {A} (m : M BPending.t BPending.event A) o (Q : A → t → list event → Prop) :
  wp m (pending_jobs o) (λ a j es, Q a (with_jobs j o) (map lift_event es)) → wp (on_jobs m) o Q.
Proof. unfold wp, on_jobs. by destruct (m (pending_jobs o)) as [[[a j] es]|]. Qed.

Lemma jobs_object j l objs p : BPending.holds j l objs → p ∈ l → is_Some (objs !! p).
Proof.
  intros [Hh _] Hp. destruct (BPending.linked_get _ _ _ (BPending.hb_linked _ _ _ _ Hh) Hp) as (x & Hx & _).
  rewrite <- (BPending.hb_code _ _ _ _ Hh), lookup_fmap, Hx. eauto.
Qed.

Lemma jobs_first j l objs : BPending.holds j l objs → BPending.first j = head l.
Proof. intros [Hh _]. by eapply BPending.linked_first, (BPending.hb_linked _ _ _ _ Hh). Qed.

Lemma jobs_has j l objs : BPending.holds j l objs → BPending.BPendingGroup_HasJobs j = negb (is_nil l).
Proof. intros Hh. unfold BPending.BPendingGroup_HasJobs. rewrite (jobs_first _ _ _ Hh). by destruct l. Qed.

Lemma inv_jobs clk o j l objs : inv clk o → BPending.holds j l objs → inv clk (with_jobs j o).
Proof. intros [_ Hk Hf Hl] Hj. split; [by exists l, objs|by eapply timers_ok_ext|by eapply fds_ok_ext|by eapply limits_ok_ext]. Qed.

Lemma inv_timers clk o tr ex ts :
  inv clk o → timers_ok clk (with_timers tr ex ts o) → inv clk (with_timers tr ex ts o).
Proof. intros [Hj _ Hf Hl] Hk. split; [done|done|by eapply fds_ok_ext|by eapply limits_ok_ext]. Qed.

Lemma inv_fds clk o e rs pos fs : inv clk o → fds_ok (with_fds e rs pos fs o) → inv clk (with_fds e rs pos fs o).
Proof. intros [Hj Hk _ Hl] Hf. split; [done|by eapply timers_ok_ext|done|by eapply limits_ok_ext]. Qed.

Lemma inv_limits clk o al ls : inv clk o → limits_ok (with_limits al ls o) → inv clk (with_limits al ls o).
Proof. intros [Hj Hk Hf _] Hl. split; [done|by eapply timers_ok_ext|by eapply fds_ok_ext|done]. Qed.

Lemma inv_clock clk clk' o : inv clk o → clk ≤ clk' → inv clk' o.
Proof. intros [] Hc. split; try done. by eapply timers_ok_clock. Qed.

Lemma inv_exit clk o b c : inv clk o → inv clk (with_exit b c o).
Proof. intros [Hj Hk Hf Hl]. split; [done|by eapply timers_ok_ext|by eapply fds_ok_ext|by eapply limits_ok_ext]. Qed.

Definition timer_call (p : Z) (x : BSmallTimer) : event :=
  if is_small x then SmallTimerHandler (t_handler x) p else TimerHandler (t_handler x) (t_user x).

Lemma dispatch_timer_ok clk o p ex (Q : unit → t → list event → Prop) :
  timers_ok clk o → timers_expired_list o = p :: ex →
  (∀ x, timers o !! p = Some x → absTime x ≤ clk →
     let o' := with_timers (timers_tree o) ex (<[p := set_state TIMER_STATE_INACTIVE x]> (timers o)) o in
     timers_ok clk o' → Q tt o' [timer_call p x]) →
  wp (dispatch_timer p) o Q.
Proof.
  intros Hk Hex HQ. destruct (proj1 (tk_expired _ _ Hk p)) as (x & Hx & Hs); [rewrite Hex; set_solver|].
  pose proof (sorted_NoDup _ _ (tk_esorted _ _ Hk)) as Hnd. rewrite Hex in Hnd.
  assert (p ∉ timers_tree o) as Hn by (rewrite (tk_running _ _ Hk); intros (y & Hy & ?); congruence).
  unfold dispatch_timer. wp_step. eapply wp_get_timer; [done|]. wp_step. wp_step; [by apply bool_decide_eq_true_2|].
  wp_step. wp_step. wp_step. wp_step. wp_step. cbn [app]. rewrite Hex, drop_head by done. rewrite (alter_Some _ p x) by done.
  apply HQ; [done|by apply (tk_due _ _ Hk p)|].
  pose proof (timers_ok_deactivate clk o p x (set_state TIMER_STATE_INACTIVE x) Hk Hx eq_refl) as Hk'.
  rewrite Hex, drop_head, drop_absent in Hk' by done. done.
Qed.

(** No expired timer is due before [p]; of those due at the same time it is the first
    in memory. *)
Definition earliest_expired (o : t) (p : Z) (x : BSmallTimer) : Prop :=
  state x = TIMER_STATE_EXPIRED ∧
  ∀ q y, timers o !! q = Some y → state y = TIMER_STATE_EXPIRED → q ≠ p →
    absTime x < absTime y ∨ absTime x = absTime y ∧ p < q.

Lemma expired_head clk o p ex x :
  timers_ok clk o → timers_expired_list o = p :: ex → timers o !! p = Some x → earliest_expired o p x.
Proof.
  intros Hk Hex Hx. pose proof (tk_esorted _ _ Hk) as Hs. rewrite Hex in Hs. apply StronglySorted_inv in Hs as [_ Hs].
  split.
  - destruct (proj1 (tk_expired _ _ Hk p)) as (x' & Hx' & ?); [rewrite Hex; set_solver|]. congruence.
  - intros q y Hy Hsy Hne. assert (q ∈ timers_expired_list o) as Hq by (apply (tk_expired _ _ Hk); eauto).
    rewrite Hex in Hq. apply elem_of_cons in Hq as [->|Hq]; [done|]. rewrite Forall_forall in Hs.
    destruct (Hs q Hq) as (x' & y' & Hx' & Hy' & Hlt). by simplify_eq.
Qed.

(** What a round does. *)
Inductive round (clk now : Z) (o : t) : t → list event → Prop :=
| round_job p l objs h u j :
    BPending.holds (pending_jobs o) (p :: l) objs → objs !! p = Some (h, u) → BPending.holds j l objs →
    round clk now o (with_jobs j o) [JobHandler h u]
| round_timer p ex x :
    BPending.BPendingGroup_HasJobs (pending_jobs o) = false →
    timers_expired_list o = p :: ex → timers o !! p = Some x → absTime x ≤ clk → earliest_expired o p x →
    round clk now o (with_timers (timers_tree o) ex (<[p := set_state TIMER_STATE_INACTIVE x]> (timers o)) o) [timer_call p x]
| round_fd p ev x fs :
    BPending.BPendingGroup_HasJobs (pending_jobs o) = false → timers_expired_list o = [] →
    epoll_results o !! epoll_results_pos o = Some (Some p, ev) → fds o !! p = Some x → active x = true →
    round clk now o (with_fds (efd o) (epoll_results o) (S (epoll_results_pos o)) fs o)
      (let events := report_events (waitEvents x) ev in
       if events =? 0 then [] else [FdHandler (fd_handler x) (fd_user x) events])
| round_removed ev fs :
    BPending.BPendingGroup_HasJobs (pending_jobs o) = false → timers_expired_list o = [] →
    epoll_results o !! epoll_results_pos o = Some (None, ev) →
    round clk now o (with_fds (efd o) (epoll_results o) (S (epoll_results_pos o)) fs o) []
| round_wait o' es :
    idle o → waits o now es → limits_reset o o' now →
    timers_expired_list o' ≠ [] ∨ is_Some (epoll_results o' !! epoll_results_pos o') →
    round clk now o o' es.

Lemma round_ok clk clk' o now answers :
  inv clk o → exiting o = false → clk ≤ clk' → (idle o → wait_start o now answers clk') →
  wp (BReactor_Exec_round now answers) o (λ r o' es, r = true ∧ inv clk' o' ∧ round clk now o o' es).
Proof.
  intros Hi He Hc Hw. pose proof Hi as [(l & objs & Hj) Hk Hf Hl]. unfold BReactor_Exec_round. wp_step. wp_step. rewrite He.
  pose proof (jobs_has _ _ _ Hj) as Hhas. wp_step. rewrite Hhas. destruct l as [|p l]; cbn [is_nil negb] in *.
  - destruct (timers_expired_list o) as [|p ex] eqn:Hex.
    + destruct (epoll_results o !! epoll_results_pos o) as [r|] eqn:Hr.
      * eapply wp_mono; [by apply dispatch_fd_ok|]. cbn beta. intros [] o' es (Hf' & (fs & ->) & Hes).
        wp_step. cbn [app]. rewrite app_nil_r. split; [done|].
        assert (inv clk' (with_fds (efd o) (epoll_results o) (S (epoll_results_pos o)) fs o)) as Hi'.
        { eapply inv_clock; [|done]. by apply inv_fds. }
        destruct r as [[p|] ev].
        -- destruct Hes as (x & Hx & Ha & ->). split; [done|]. by eapply round_fd.
        -- subst es. split; [done|]. by eapply round_removed.
      * assert (idle o) as Hid by done. eapply wp_mono; [by apply (wait_for_events_ok clk o now answers clk'); auto|].
        cbn beta. intros [] o' es (Hi' & Hp & Hws & Hlr). wp_step. cbn [app]. rewrite app_nil_r. split_and!; [done|done|].
        by apply round_wait.
    + eapply dispatch_timer_ok; [done|done|]. intros x Hx Hdue o' Hk'. wp_step. cbn [app]. split; [done|]. split.
      * eapply inv_clock; [|done]. by apply inv_timers.
      * eapply round_timer; try done. by eapply expired_head.
  - destruct (jobs_object _ _ _ p Hj) as [[h u] Hp]; [set_solver|]. apply wp_on_jobs.
    eapply wp_mono; [by apply (BPending.ExecuteJob_ok _ l objs p h u)|]. cbn beta. intros [] j es (-> & Hj'). wp_step. cbn [app map lift_event].
    split; [done|]. split.
    + eapply inv_clock; [|done]. by eapply inv_jobs.
    + by eapply round_job.
Qed.

(** ** Everything that can happen *)

(** Calls into the reactor, rounds of its loops, and objects coming and going.
    A handler is the actions between the round that calls it and the next. *)
Inductive action :=
| JobInit (p handler user : Z) | JobFree (p : Z) | JobSet (p : Z) | JobUnset (p : Z) | JobSetHandler (p handler user : Z)
| TimerInit (p : Z) (small : bool) (ms handler user : Z) | TimerGone (p : Z)
| TimerSet (p : Z) (mode : set_mode) (time : Z) | TimerRemove (p : Z)
| FdInit (p d handler user : Z) | FdGone (p : Z) | FdAdd (p : Z) (ok : bool) | FdRemove (p : Z) | FdEvents (p events : Z)
| LimitInit (p lim : Z) | LimitFree (p : Z) | LimitIncrement (p : Z) | LimitSet (p lim : Z)
| Quit (code : Z)
| ExecRound (now : Z) (answers : list (wait_answer * Z))
| SynchronizeRound (ref : Z).

Definition run (a : action) : IO unit :=
  match a with
  | JobInit p h u => on_jobs (BPending.BSmallPending_Init p h u)
  | JobFree p => on_jobs (BPending.BSmallPending_Free p)
  | JobSet p => on_jobs (BPending.BSmallPending_Set p)
  | JobUnset p => on_jobs (BPending.BSmallPending_Unset p)
  | JobSetHandler p h u => on_jobs (BPending.BSmallPending_SetHandler p h u)
  | TimerInit p small ms h u => if small then BSmallTimer_Init p h else BTimer_Init p ms h u
  | TimerGone p => mmodify (λ o, with_timers (timers_tree o) (timers_expired_list o) (delete p (timers o)) o)
  | TimerSet p mode time => BReactor_SetSmallTimer p mode time
  | TimerRemove p => BReactor_RemoveSmallTimer p
  | FdInit p d h u => BFileDescriptor_Init p d h u
  | FdGone p => mmodify (λ o, with_fds (efd o) (epoll_results o) (epoll_results_pos o) (delete p (fds o)) o)
  | FdAdd p ok => _ ← BReactor_AddFileDescriptor p ok; mret tt
  | FdRemove p => BReactor_RemoveFileDescriptor p
  | FdEvents p ev => BReactor_SetFileDescriptorEvents p ev
  | LimitInit p lim => BReactorLimit_Init p lim
  | LimitFree p => BReactorLimit_Free p
  | LimitIncrement p => _ ← BReactorLimit_Increment p; mret tt
  | LimitSet p lim => BReactorLimit_SetLimit p lim
  | Quit code => BReactor_Quit code
  | ExecRound now answers => _ ← BReactor_Exec_round now answers; mret tt
  | SynchronizeRound ref => _ ← BReactor_Synchronize_round ref; mret tt
  end.

Definition job_exists (o : t) (p : Z) : Prop := is_Some (BPending.mem (pending_jobs o) !! p).
Definition timer_unused (o : t) (p : Z) : Prop := ∀ x, timers o !! p = Some x → state x = TIMER_STATE_INACTIVE.
Definition fd_unused (o : t) (p : Z) : Prop := ∀ x, fds o !! p = Some x → active x = false.

(** What the callers and the kernel promise; the time goes from [clk] to [clk']. *)
Definition allowed (clk : Z) (o : t) (a : action) (clk' : Z) : Prop :=
  clk ≤ clk' ∧
  match a with
  | JobInit p _ _ => ¬ job_exists o p
  | JobFree p | JobSet p | JobUnset p | JobSetHandler p _ _ => job_exists o p
  | TimerInit p _ _ _ _ | TimerGone p => timer_unused o p
  | TimerSet p mode time => is_Some (timers o !! p) ∧ mode_ok mode time
  | TimerRemove p => is_Some (timers o !! p)
  | FdInit p _ _ _ | FdGone p => fd_unused o p
  | FdAdd p _ => ∃ x, fds o !! p = Some x ∧ active x = false
  | FdRemove p => ∃ x, fds o !! p = Some x ∧ active x = true
  | FdEvents p ev => (∃ x, fds o !! p = Some x ∧ active x = true) ∧ Z.land ev (Z.lnot (Z.lor BREACTOR_READ BREACTOR_WRITE)) = 0
  | LimitInit p lim => limits o !! p = None ∧ 0 < lim
  | LimitFree p | LimitIncrement p => is_Some (limits o !! p)
  | LimitSet p lim => is_Some (limits o !! p) ∧ 0 < lim
  | Quit _ => True
  | ExecRound now answers => exiting o = false ∧ (idle o → wait_start o now answers clk')
  | SynchronizeRound _ => exiting o = true ∨ BPending.BPendingGroup_HasJobs (pending_jobs o) = true
  end.

Lemma timers_ok_gone clk o p :
  timers_ok clk o → timer_unused o p →
  timers_ok clk (with_timers (timers_tree o) (timers_expired_list o) (delete p (timers o)) o).
Proof.
  intros Hk Hu.
  assert (∀ s q, s ≠ TIMER_STATE_INACTIVE → (∃ y, delete p (timers o) !! q = Some y ∧ state y = s) ↔
    (∃ y, timers o !! q = Some y ∧ state y = s)) as Hlk.
  { intros s' q Hs'. split; intros (y & Hy & Hsy).
    - apply lookup_delete_Some in Hy as [_ Hy]. eauto.
    - exists y. rewrite lookup_delete_ne; [done|]. intros <-. specialize (Hu y Hy). congruence. }
  assert (∀ s l, s ≠ TIMER_STATE_INACTIVE → (∀ q, q ∈ l ↔ ∃ y, timers o !! q = Some y ∧ state y = s) →
    StronglySorted (timer_lt (timers o)) l → StronglySorted (timer_lt (delete p (timers o))) l) as Hsort.
  { intros s' l Hs' Hl. apply sorted_times. intros q y Hq Hy. exists y. split; [|done]. rewrite lookup_delete_ne; [done|].
    intros <-. apply Hl in Hq as (z & Hz & Hsz). specialize (Hu z Hz). congruence. }
  split; cbn.
  - apply (Hsort TIMER_STATE_RUNNING); [done|apply (tk_running _ _ Hk)|apply Hk].
  - intros q. by rewrite (tk_running _ _ Hk), Hlk.
  - apply (Hsort TIMER_STATE_EXPIRED); [done|apply (tk_expired _ _ Hk)|apply Hk].
  - intros q. by rewrite (tk_expired _ _ Hk), Hlk.
  - intros q y Hy. apply lookup_delete_Some in Hy as [_ Hy]. by apply (tk_due _ _ Hk q).
  - intros q y Hy. apply lookup_delete_Some in Hy as [_ Hy]. by apply (tk_range _ _ Hk q).
Qed.

Lemma fds_ok_gone o p :
  fds_ok o → fd_unused o p → fds_ok (with_fds (efd o) (epoll_results o) (epoll_results_pos o) (delete p (fds o)) o).
Proof.
  intros Hk Hu. assert (∀ q y, fds o !! q = Some y → active y = true → delete p (fds o) !! q = Some y) as Hq.
  { intros q y Hy Ha. rewrite lookup_delete_ne; [done|]. intros <-. specialize (Hu y Hy). congruence. }
  split; cbn.
  - intros q y Hy. apply lookup_delete_Some in Hy as [_ Hy]. by apply (fk_active _ Hk).
  - intros q (y & Hy & Ha)%(fk_registered _ Hk). eauto.
  - intros q y i Hy. apply lookup_delete_Some in Hy as [_ Hy]. by apply (fk_returned _ Hk).
  - intros i q ev Hi Hr. destruct (fk_results _ Hk i q ev Hi Hr) as (y & Hy & Ha & Hret). exists y. eauto.
  - apply (fk_pos _ Hk).
Qed.

Lemma jobs_wp_ok clk o (m : M BPending.t BPending.event unit) :
  inv clk o → (∀ l objs, BPending.holds (pending_jobs o) l objs →
    wp m (pending_jobs o) (λ _ j es, es = [] ∧ ∃ l' objs', BPending.holds j l' objs')) →
  wp (on_jobs m) o (λ _ o' es, inv clk o' ∧ es = []).
Proof.
  intros Hi Hm. pose proof (iv_jobs _ _ Hi) as (l & objs & Hj). apply wp_on_jobs. eapply wp_mono; [by apply (Hm l objs)|].
  cbn beta. intros _ j es (-> & l' & objs' & Hj'). split; [by eapply inv_jobs|done].
Qed.

Lemma job_known o l objs p : BPending.holds (pending_jobs o) l objs → is_Some (objs !! p) ↔ job_exists o p.
Proof. intros [Hh _]. unfold job_exists. rewrite <- (BPending.hb_code _ _ _ _ Hh), lookup_fmap, fmap_is_Some. done. Qed.

(** The action runs, keeps the invariant, and calls handlers only in a round. *)
Definition action_ok (clk : Z) (o : t) (a : action) (clk' : Z) : Prop :=
  wp (run a) o (λ _ o' es, inv clk' o' ∧
    match a with
    | ExecRound now _ => round clk now o o' es
    | SynchronizeRound ref => es = [] ∨ ∃ p l objs h u,
        BPending.holds (pending_jobs o) (p :: l) objs ∧ p ≠ ref ∧ objs !! p = Some (h, u) ∧ es = [JobHandler h u]
    | _ => es = []
    end).

Lemma job_action_ok clk o (m : M BPending.t BPending.event unit) clk' :
  inv clk o → clk ≤ clk' → (∀ l objs, BPending.holds (pending_jobs o) l objs →
    wp m (pending_jobs o) (λ _ j es, es = [] ∧ ∃ l' objs', BPending.holds j l' objs')) →
  wp (on_jobs m) o (λ _ o' es, inv clk' o' ∧ es = []).
Proof.
  intros Hi Hc Hm. eapply wp_mono; [by apply (jobs_wp_ok clk)|]. cbn beta. intros _ o' es [Hi' ->]. split; [|done]. by eapply inv_clock.
Qed.

Lemma jobs_action clk o a clk' :
  inv clk o → allowed clk o a clk' →
  match a with JobInit _ _ _ | JobFree _ | JobSet _ | JobUnset _ | JobSetHandler _ _ _ => action_ok clk o a clk' | _ => True end.
Proof.
  intros Hi [Hc Ha]. destruct a; try done; (eapply job_action_ok; [exact Hi|done|]); intros l objs Hj.
  all: rewrite <- (job_known o l objs) in Ha by done.
  - eapply wp_mono; [apply BPending.Init_ok; [done|by apply eq_None_not_Some]|]. cbn beta. intros _ j es (-> & ?). eauto.
  - eapply wp_mono; [by apply BPending.Free_ok|]. cbn beta. intros _ j es (-> & ?). eauto.
  - eapply wp_mono; [by apply BPending.Set_ok|]. cbn beta. intros _ j es (-> & ?). eauto.
  - eapply wp_mono; [by apply BPending.Unset_ok|]. cbn beta. intros _ j es (-> & ?). eauto.
  - eapply wp_mono; [by apply BPending.SetHandler_ok|]. cbn beta. intros _ j es (-> & ?). eauto.
Qed.

Lemma timers_action clk o a clk' :
  inv clk o → allowed clk o a clk' →
  match a with TimerInit _ _ _ _ _ | TimerGone _ | TimerSet _ _ _ | TimerRemove _ => action_ok clk o a clk' | _ => True end.
Proof.
  intros Hi [Hc Ha]. pose proof (iv_timers _ _ Hi) as Hk.
  assert (∀ o', inv clk o' → inv clk' o' ∧ @nil event = []) as Hclk by (intros o' Ho'; split; [by eapply inv_clock|done]).
  destruct a as [| | | | |p small ms h u|p|p mode time|p| | | | | | | | | | | |]; try done; unfold action_ok; cbn [run].
  - destruct small; [unfold BSmallTimer_Init|unfold BTimer_Init]; (wp_step; wp_step; wp_step; apply Hclk, inv_timers, timers_ok_init; done).
  - wp_step. apply Hclk, inv_timers, timers_ok_gone; done.
  - destruct Ha as [[x Hx] Hm]. eapply wp_mono; [by apply (SetSmallTimer_ok clk o p x)|].
    cbn beta. intros _ o' es (-> & Hk' & tr & -> & _). by apply Hclk, inv_timers.
  - destruct Ha as [x Hx]. eapply RemoveSmallTimer_ok; [done|done|]. apply Hclk, inv_timers; [done|].
    by eapply timers_ok_deactivate.
Qed.

Lemma fds_action clk o a clk' :
  inv clk o → allowed clk o a clk' →
  match a with FdInit _ _ _ _ | FdGone _ | FdAdd _ _ | FdRemove _ | FdEvents _ _ => action_ok clk o a clk' | _ => True end.
Proof.
  intros Hi [Hc Ha]. pose proof (iv_fds _ _ Hi) as Hk.
  assert (∀ o', inv clk o' → inv clk' o' ∧ @nil event = []) as Hclk by (intros o' Ho'; split; [by eapply inv_clock|done]).
  destruct a as [| | | | | | | | |p d h u|p|p ok|p|p ev| | | | | | |]; try done; unfold action_ok; cbn [run].
  - unfold BFileDescriptor_Init. wp_step. wp_step. wp_step. apply Hclk, inv_fds; [done|]. by apply fds_ok_idle.
  - wp_step. apply Hclk, inv_fds, fds_ok_gone; done.
  - destruct Ha as (x & Hx & Hax). wp_step. eapply wp_mono; [by apply (AddFileDescriptor_ok o p x)|].
    cbn beta. intros r o' es (-> & _ & Hk' & e & fs & ->). wp_step. by apply Hclk, inv_fds.
  - destruct Ha as (x & Hx & Hax). eapply wp_mono; [by apply (RemoveFileDescriptor_ok o p x)|].
    cbn beta. intros _ o' es (-> & Hk' & rs & -> & _). by apply Hclk, inv_fds.
  - destruct Ha as ((x & Hx & Hax) & Hev). eapply wp_mono; [by apply (SetFileDescriptorEvents_ok o p x)|].
    cbn beta. intros _ o' es (-> & Hk' & ->). by apply Hclk, inv_fds.
Qed.

Lemma limits_action clk o a clk' :
  inv clk o → allowed clk o a clk' →
  match a with LimitInit _ _ | LimitFree _ | LimitIncrement _ | LimitSet _ _ | Quit _ => action_ok clk o a clk' | _ => True end.
Proof.
  intros Hi [Hc Ha]. pose proof (iv_limits _ _ Hi) as Hk.
  assert (∀ o', inv clk o' → inv clk' o' ∧ @nil event = []) as Hclk by (intros o' Ho'; split; [by eapply inv_clock|done]).
  destruct a as [| | | | | | | | | | | | | |p lim|p|p|p lim|code| |]; try done; unfold action_ok; cbn [run].
  - destruct Ha as [Hp Hl]. eapply wp_mono; [by apply Limit_Init_ok|]. cbn beta. intros _ o' es (-> & Hk' & ls & ->). by apply Hclk, inv_limits.
  - destruct Ha as [x Hx]. eapply wp_mono; [by apply (Limit_Free_ok o p x)|]. cbn beta. intros _ o' es (-> & Hk' & al & ls & ->). by apply Hclk, inv_limits.
  - destruct Ha as [x Hx]. wp_step. eapply wp_mono; [by apply (Limit_Increment_ok o p x)|].
    cbn beta. intros r o' es (-> & Hk' & (al & ->) & _). wp_step. by apply Hclk, inv_limits.
  - destruct Ha as [[x Hx] Hl]. eapply wp_mono; [by apply (Limit_SetLimit_ok o p x)|]. cbn beta. intros _ o' es (-> & Hk' & ls & ->). by apply Hclk, inv_limits.
  - unfold BReactor_Quit. wp_step. by apply Hclk, inv_exit.
Qed.

Lemma rounds_action clk o a clk' :
  inv clk o → allowed clk o a clk' →
  match a with ExecRound _ _ | SynchronizeRound _ => action_ok clk o a clk' | _ => True end.
Proof.
  intros Hi [Hc Ha]. destruct a as [| | | | | | | | | | | | | | | | | | |now answers|ref]; try done; unfold action_ok; cbn [run].
  - destruct Ha as [He Hw]. wp_step. eapply wp_mono; [by apply (round_ok clk clk')|]. cbn beta. intros r o' es (_ & Hi' & Hr).
    wp_step. by rewrite app_nil_r.
  - wp_step. unfold BReactor_Synchronize_round. wp_step. wp_step. cbn [app]. destruct (exiting o) eqn:He.
    { wp_step. wp_step. split; [by eapply inv_clock|by left]. }
    destruct Ha as [?|Hhas]; [congruence|]. pose proof (iv_jobs _ _ Hi) as (l & objs & Hj). pose proof (jobs_has _ _ _ Hj) as Hl.
    rewrite Hhas in Hl. destruct l as [|p l]; [done|].
    wp_step. wp_step; [done|]. unfold BPending.BPendingGroup_PeekJob. rewrite (jobs_first _ _ _ Hj). cbn [head].
    wp_step.
    + wp_step. wp_step. split; [by eapply inv_clock|by left].
    + apply bool_decide_eq_false_1 in H0. destruct (jobs_object _ _ _ p Hj) as [[h u] Hp]; [set_solver|]. wp_step. apply wp_on_jobs.
      eapply wp_mono; [by apply (BPending.ExecuteJob_ok _ l objs p h u)|]. cbn beta. intros [] j es (-> & Hj'). wp_step. wp_step.
      cbn [app map lift_event]. split; [eapply inv_clock; [by eapply inv_jobs|done]|]. right.
      exists p, l, objs, h, u. split_and!; try done. congruence.
Qed.

Lemma reactor_run_ok clk o a clk' : inv clk o → allowed clk o a clk' → action_ok clk o a clk'.
Proof.
  intros Hi Ha. pose proof (jobs_action _ _ _ _ Hi Ha). pose proof (timers_action _ _ _ _ Hi Ha).
  pose proof (fds_action _ _ _ _ Hi Ha). pose proof (limits_action _ _ _ _ Hi Ha). pose proof (rounds_action _ _ _ _ Hi Ha).
  by destruct a.
Qed.

(** The states reached, and the time. *)
Inductive reach : Z → t → Prop :=
| reach_init clk o : BReactor_Init true = Some o → reach clk o
| reach_step clk o a clk' o' es : reach clk o → allowed clk o a clk' → run a o = Some (tt, o', es) → reach clk' o'.

Lemma init_inv clk o : BReactor_Init true = Some o → inv clk o.
Proof.
  intros [= <-]. split; cbn.
  - exists [], ∅. apply BPending.holds_Init.
  - split; cbn; try constructor; try (by intros ?%not_elem_of_nil); try (by intros (x & Hx & _)); done.
  - split; cbn; try done. intros p Hp. rewrite lookup_empty in Hp. by destruct Hp.
  - split; cbn; [constructor| |done]. intros p. split; [by intros ?%not_elem_of_nil|]. by intros (x & Hx & _).
Qed.

Lemma reactor_reach_inv clk o : reach clk o → inv clk o.
Proof.
  induction 1 as [clk o Hi|clk o a clk' o' es _ IH Ha Hrun]; [by apply init_inv|].
  by destruct (wp_elim _ _ _ _ _ _ (reactor_run_ok _ _ _ _ IH Ha) Hrun).
Qed.

Lemma free_ok clk o :
  inv clk o → BPending.mem (pending_jobs o) = ∅ → (∀ p, timer_unused o p) → (∀ p, fd_unused o p) → limits o = ∅ →
  ∃ o', BReactor_Free o = Some (tt, o', []).
Proof.
  intros [(l & objs & Hj) Hk Hf Hl] Hm Ht Hfu Hls.
  assert (efd o = ∅) as He.
  { apply map_empty. intros p. apply eq_None_not_Some. intros (x & Hx & Ha)%(fk_registered _ Hf). specialize (Hfu p x Hx). congruence. }
  assert (objs = ∅) as ->.
  { destruct Hj as [Hh _]. by rewrite <- (BPending.hb_code _ _ _ _ Hh), Hm, fmap_empty. }
  assert (l = []) as ->.
  { destruct l as [|p l]; [done|]. destruct (jobs_object _ _ _ p Hj) as [c Hc]; [set_solver|]. by rewrite lookup_empty in Hc. }
  assert (timers_tree o = []) as Htt.
  { apply elem_of_nil_inv. intros p (x & Hx & Hs)%(tk_running _ _ Hk). specialize (Ht p x Hx). congruence. }
  assert (timers_expired_list o = []) as Hte.
  { apply elem_of_nil_inv. intros p (x & Hx & Hs)%(tk_expired _ _ Hk). specialize (Ht p x Hx). congruence. }
  assert (active_limits_list o = []) as Hal.
  { apply elem_of_nil_inv. intros p (x & Hx & _)%(lk_active _ Hl). by rewrite Hls in Hx. }
  assert (wp BReactor_Free o (λ _ _ es, es = [])) as Hw.
  { unfold BReactor_Free. wp_step. wp_step. wp_step. wp_step; [by rewrite (jobs_has _ _ _ Hj)|].
    wp_step. wp_step; [by rewrite Htt|]. wp_step. wp_step; [by rewrite Hte|]. wp_step. wp_step; [by rewrite Hal|].
    wp_step. wp_step; [by rewrite He|]. wp_step. wp_step; [by rewrite Hls|].
    apply wp_on_jobs. destruct (BPending.bpending_free _ Hj) as (j & Hfree). unfold wp. rewrite Hfree. done. }
  apply wp_run in Hw as ([] & o' & es & Hrun & ->). eauto.
Qed.

(** ** The theorems *)

(** C15: whatever handlers do within the contracts of the reactor's functions,
    and whatever the kernel answers, no assertion of the event loop fails, no
    object that is gone is touched, and no loop runs on; every state has its
    timers in the list of their state, the running ones in order of time, watches
    exactly the active descriptors for their events, and keeps the counters that
    are not zero listed; and with nothing left in it the reactor can be freed. *)
Theorem reactor_safe clk o :
  reach clk o →
  (∀ a clk', allowed clk o a clk' → ∃ o' es, run a o = Some (tt, o', es) ∧ reach clk' o') ∧
  (StronglySorted (timer_lt (timers o)) (timers_tree o) ∧
   ∀ p x, timers o !! p = Some x →
     (p ∈ timers_tree o ↔ state x = TIMER_STATE_RUNNING) ∧ (p ∈ timers_expired_list o ↔ state x = TIMER_STATE_EXPIRED)) ∧
  (∀ p e, efd o !! p = Some e ↔ ∃ x, fds o !! p = Some x ∧ active x = true ∧ e = epoll_events (waitEvents x)) ∧
  (∀ p x, limits o !! p = Some x → 0 ≤ count x ∧ (p ∈ active_limits_list o ↔ 0 < count x)) ∧
  (BPending.mem (pending_jobs o) = ∅ → (∀ p, timer_unused o p) → (∀ p, fd_unused o p) → limits o = ∅ →
   ∃ o', BReactor_Free o = Some (tt, o', [])).
Proof.
  intros Hr. pose proof (reactor_reach_inv _ _ Hr) as Hi. pose proof Hi as [(l & objs & Hj) Hk Hf Hl]. split_and!.
  - intros a clk' Ha. pose proof (proj1 (wp_run _ _ _) (reactor_run_ok _ _ _ _ Hi Ha)) as ([] & o' & es & Hrun & _).
    exists o', es. split; [done|]. by eapply reach_step.
  - apply Hk.
  - intros p x Hx. rewrite (tk_running _ _ Hk), (tk_expired _ _ Hk). naive_solver.
  - intros p e. split.
    + intros He. destruct (fk_registered _ Hf p ltac:(eauto)) as (x & Hx & Ha). exists x. split_and!; try done.
      rewrite (fk_active _ Hf p x Hx Ha) in He. by injection He.
    + intros (x & Hx & Ha & ->). by apply (fk_active _ Hf).
  - intros p x Hx. split; [by apply (lk_count _ Hl p)|]. rewrite (lk_active _ Hl). naive_solver.
  - intros. by eapply free_ok.
Qed.

(** C16: a round of the event loop calls one handler, of the first object in
    the order the loop promises: the job on top of the stack while there is one;
    then the earliest of the timers that have expired (of those due at one time the
    first in memory), never before its time, and it is inactive when called; then the next ready descriptor, if it is still
    watched, with the events it waits for (errors always).  Only with none of them
    it waits, no longer than to the first timer, and the wait ends with something
    to dispatch; the limits' counters are then zero, unless a timer was due
    already. *)
Theorem reactor_round clk o now answers clk' :
  reach clk o → exiting o = false → clk ≤ clk' → (idle o → wait_start o now answers clk') →
  ∃ o' es, BReactor_Exec_round now answers o = Some (true, o', es) ∧ round clk now o o' es.
Proof.
  intros Hr He Hc Hw. pose proof (round_ok clk clk' o now answers (reactor_reach_inv _ _ Hr) He Hc Hw) as Hrd.
  apply wp_run in Hrd as (r & o' & es & Hrun & -> & _ & Hrd). by exists o', es.
Qed.

(** Setting a timer makes it run, whatever its state was, with its time in
    order among the running ones and no other timer affected; a relative time is
    added to the clock without wrapping around, kept at the ends of the 64-bit
    range.  Removing it puts it out of every list, also when it had expired and
    waits to be dispatched. *)
Theorem reactor_timers clk o p x mode time :
  reach clk o → timers o !! p = Some x → mode_ok mode time →
  (∃ o', BReactor_SetSmallTimer p mode time o = Some (tt, o', []) ∧
     timers o' = <[p := set_state TIMER_STATE_RUNNING (set_time (timer_time mode time) x)]> (timers o) ∧
     timers_tree o' ≡ₚ p :: drop_job p (timers_tree o) ∧ StronglySorted (timer_lt (timers o')) (timers_tree o') ∧
     timers_expired_list o' = drop_job p (timers_expired_list o) ∧
     BSmallTimer_IsRunning p o' = Some (true, o', [])) ∧
  (∃ o', BReactor_RemoveSmallTimer p o = Some (tt, o', []) ∧
     timers o' = <[p := set_state TIMER_STATE_INACTIVE x]> (timers o) ∧
     timers_tree o' = drop_job p (timers_tree o) ∧ timers_expired_list o' = drop_job p (timers_expired_list o) ∧
     BSmallTimer_IsRunning p o' = Some (false, o', [])).
Proof.
  intros Hr Hx Hm. pose proof (iv_timers _ _ (reactor_reach_inv _ _ Hr)) as Hk.
  assert (∀ o' y, timers o' !! p = Some y → BSmallTimer_IsRunning p o' =
    Some (negb (bool_decide (state y = TIMER_STATE_INACTIVE)), o', [])) as Hrun.
  { intros o' y Hy. unfold BSmallTimer_IsRunning, get_timer, mbind, M_bind, mget, mlift, mret, M_ret. by rewrite Hy. }
  split.
  - pose proof (SetSmallTimer_ok clk o p x mode time Hk Hx Hm) as Hw. apply wp_run in Hw as ([] & o' & es & Hs & -> & Hk' & tr & -> & Hp).
    eexists. split; [exact Hs|]. cbn. split_and!; [done|done|apply (tk_sorted _ _ Hk')|done|].
    erewrite Hrun; [|apply lookup_insert_eq]. done.
  - assert (wp (BReactor_RemoveSmallTimer p) o (λ _ o' es, es = [] ∧ o' =
      with_timers (drop_job p (timers_tree o)) (drop_job p (timers_expired_list o)) (<[p := set_state TIMER_STATE_INACTIVE x]> (timers o)) o)) as Hw.
    { by eapply RemoveSmallTimer_ok. }
    apply wp_run in Hw as ([] & o' & es & Hs & -> & ->). eexists. split; [exact Hs|]. cbn. split_and!; try done.
    erewrite Hrun; [|apply lookup_insert_eq]. done.
Qed.

End reactor.
End BReactor.

(** ** Examples *)

Section reactor_examples.
Import BReactor.
#[local] Instance reactor_debug : Build := false.

(** A timer set at time 5 to run after 10 ms, and a job. *)
Definition demo_setup : list action :=
  [TimerInit 1 true 0 77 0; TimerSet 1 (BTIMER_SET_RELATIVE 5) 10; JobInit 2 88 3; JobSet 2].

Fixpoint run_all (l : list action) (o : t) : option (t * list event) :=
  match l with
  | [] => Some (o, [])
  | a :: l => '(_, o, es) ← run a o; '(o, es') ← run_all l o; Some (o, es ++ es')
  end.

(** The job runs; the loop waits for 10 ms, is interrupted, waits again, and
    calls the timer. *)
Lemma reactor_demo :
  (o ← BReactor_Init true; snd <$> run_all (demo_setup ++
     [ExecRound 5 []; ExecRound 5 [(WaitInterrupted, 8); (WaitReturned [], 0)]; ExecRound 15 []]) o) =
  Some [JobHandler 88 3; EpollWait 10; EpollWait 7; SmallTimerHandler 77 1].
Proof. vm_compute. reflexivity. Qed.

Lemma demo_reach : ∃ o, reach 5 o ∧ exiting o = false ∧ BPending.BPendingGroup_HasJobs (pending_jobs o) = true ∧
  ∃ x, timers o !! 1 = Some x ∧ absTime x = 15.
Proof.
  assert (∃ o, BReactor_Init true = Some o) as [o0 E0] by (by eexists).
  pose proof (reach_init 5 o0 E0) as R0. injection E0 as E0.
  destruct (run (TimerInit 1 true 0 77 0) o0) as [[[[] o1] e1]|] eqn:E1; [|rewrite <- E0 in E1; vm_compute in E1; discriminate E1].
  assert (reach 5 o1) as R1.
  { refine (reach_step 5 o0 _ 5 o1 e1 R0 _ E1). split; [lia|]. rewrite <- E0. intros x Hx. vm_compute in Hx. discriminate Hx. }
  rewrite <- E0 in E1. vm_compute in E1. injection E1 as E1 _.
  destruct (run (TimerSet 1 (BTIMER_SET_RELATIVE 5) 10) o1) as [[[[] o2] e2]|] eqn:E2; [|rewrite <- E1 in E2; vm_compute in E2; discriminate E2].
  assert (reach 5 o2) as R2.
  { refine (reach_step 5 o1 _ 5 o2 e2 R1 _ E2). split; [lia|]. split; [rewrite <- E1; eexists; vm_compute; reflexivity|].
    split; unfold INT64_MIN, INT64_MAX; lia. }
  rewrite <- E1 in E2. vm_compute in E2. injection E2 as E2 _.
  destruct (run (JobInit 2 88 3) o2) as [[[[] o3] e3]|] eqn:E3; [|rewrite <- E2 in E3; vm_compute in E3; discriminate E3].
  assert (reach 5 o3) as R3.
  { refine (reach_step 5 o2 _ 5 o3 e3 R2 _ E3). split; [lia|]. rewrite <- E2. intros [x Hx]. vm_compute in Hx. discriminate Hx. }
  rewrite <- E2 in E3. vm_compute in E3. injection E3 as E3 _.
  destruct (run (JobSet 2) o3) as [[[[] o4] e4]|] eqn:E4; [|rewrite <- E3 in E4; vm_compute in E4; discriminate E4].
  assert (reach 5 o4) as R4.
  { refine (reach_step 5 o3 _ 5 o4 e4 R3 _ E4). split; [lia|]. rewrite <- E3. eexists. vm_compute. reflexivity. }
  rewrite <- E3 in E4. vm_compute in E4. injection E4 as E4 _.
  exists o4. split; [exact R4|]. rewrite <- E4. split; [reflexivity|]. split; [reflexivity|]. eexists. split; vm_compute; reflexivity.
Qed.

Lemma reactor_safe_witness :
  ∃ o o' es, run (Quit 1) o = Some (tt, o', es) ∧ reach 6 o' ∧ BPending.BPendingGroup_HasJobs (pending_jobs o) = true.
Proof.
  destruct demo_reach as (o & Hr & _ & Hj & _).
  destruct (reactor_safe 5 o Hr) as (Hs & _). destruct (Hs (Quit 1) 6) as (o' & es & Hrun & Hr'); [split; [lia|done]|].
  by exists o, o', es.
Defined.

Lemma reactor_round_witness :
  ∃ o o' es, BReactor_Exec_round 5 [] o = Some (true, o', es) ∧ round 5 5 o o' es.
Proof.
  destruct demo_reach as (o & Hr & He & Hj & _).
  destruct (reactor_round 5 o 5 [] 5 Hr He) as (o' & es & Hrun & Hrd); [lia|intros (Hn & _); congruence|].
  by exists o, o', es.
Defined.

Lemma reactor_timers_witness :
  ∃ o o' x, timers o !! 1 = Some x ∧ absTime x = 15 ∧
    BReactor_SetSmallTimer 1 (BTIMER_SET_RELATIVE 5) INT64_MAX o = Some (tt, o', []) ∧
    (absTime <$> timers o' !! 1) = Some INT64_MAX.
Proof.
  destruct demo_reach as (o & Hr & _ & _ & x & Hx & Ht).
  destruct (reactor_timers 5 o 1 x (BTIMER_SET_RELATIVE 5) INT64_MAX Hr Hx) as ((o' & Hs & Hts & _) & _).
  { split; unfold INT64_MIN, INT64_MAX; lia. }
  exists o, o', x. split_and!; [done|done|done|]. rewrite Hts, lookup_insert_eq. reflexivity.
Defined.
End reactor_examples.
