(* ===== verification/Text.v ===== *)
(** * Text: the C library's number formatting the sources use

    [sprintf] with [%u] ([PRIu8], [PRIu16]), [strtol] in base 10 and the
    character searches of system/BAddr.h, on [string]s without the final
    NUL. *)
From Stdlib Require Import Ascii String.
From S2P Require Import Prelude.

#[global] Open Scope Z_scope.

Definition digit_char (d : Z) : ascii := ascii_of_nat (Z.to_nat (48 + d)).
Definition char_code (c : ascii) : Z := Z.of_nat (nat_of_ascii c).
Definition is_digit (c : ascii) : bool := (48 <=? char_code c) && (char_code c <=? 57).

(** The digits of [n], most significant first, in front of [acc]. *)
Fixpoint dec_digits (fuel : nat) (n : Z) (acc : string) : string :=
  match fuel with
  | O => acc
  | S fuel =>
      let acc := String (digit_char (n mod 10)) acc in
      if n <? 10 then acc else dec_digits fuel (n / 10) acc
  end.

(** [sprintf(out, "%u", n)] for a 32-bit [n]: at most ten digits. *)
Definition print_uint (n : Z) : string := dec_digits 10 n "".

(** [strtol]'s digit loop: the value read and the rest. *)
Fixpoint read_digits (s : string) (v : Z) : Z * string :=
  match s with
  | String c s' =>
      if is_digit c then read_digits s' (v * 10 + (char_code c - 48)) else (v, s)
  | EmptyString => (v, s)
  end.

Definition is_space (c : ascii) : bool :=
  (char_code c =? 32) || ((9 <=? char_code c) && (char_code c <=? 13)).

Fixpoint skip_space (s : string) : string :=
  match s with
  | String c s' => if is_space c then skip_space s' else s
  | EmptyString => s
  end.

(** [strtol(s, &err, 10)]: optional white space and sign, then digits; with no
    digits, 0 and [err = s].  (The value cannot overflow: callers pass at most
    five characters.) *)
Definition strtol10 (s : string) : Z * string :=
  let t := skip_space s in
  let '(neg, t) :=
    match t with
    | String c t' =>
        if char_code c =? 45 then (true, t')
        else if char_code c =? 43 then (false, t') else (false, t)
    | EmptyString => (false, t)
    end in
  match t with
  | String c _ =>
      if is_digit c then
        let '(v, rest) := read_digits t 0 in ((if neg : bool then - v else v), rest)
      else (0, s)
  | EmptyString => (0, s)
  end.

(** [while (i < len && s[i] != c) i++;]: the text before the first [c] and the
    text after it, or [None] when there is no [c]. *)
Fixpoint split_at (c : ascii) (s : string) : option (string * string) :=
  match s with
  | EmptyString => None
  | String d s' =>
      if Ascii.eqb d c then Some (EmptyString, s')
      else match split_at c s' with
           | Some (before, after) => Some (String d before, after)
           | None => None
           end
  end.

Definition zstrlen (s : string) : Z := Z.of_nat (String.length s).

(** ** Lemmas *)

Lemma char_code_digit d : 0 ≤ d < 10 → char_code (digit_char d) = 48 + d.
Proof.
  intros. unfold char_code, digit_char. rewrite nat_ascii_embedding by lia. lia.
Qed.

Lemma is_digit_digit d : 0 ≤ d < 10 → is_digit (digit_char d) = true.
Proof. intros. unfold is_digit. rewrite char_code_digit by done. lia. Qed.

Lemma str_app_cons c s t : String.append (String c s) t = String c (String.append s t).
Proof. done. Qed.

Lemma str_app_nil_r s : String.append s "" = s.
Proof. induction s as [|c s IH]; [done|]. by rewrite str_app_cons, IH. Qed.

Lemma length_str_app s t :
  String.length (String.append s t) = (String.length s + String.length t)%nat.
Proof. induction s as [|c s IH]; [done|]. rewrite str_app_cons. cbn. by rewrite IH. Qed.

(** All characters of a string satisfy [P]. *)
Fixpoint str_all (P : ascii → Prop) (s : string) : Prop :=
  match s with
  | EmptyString => True
  | String c s => P c ∧ str_all P s
  end.

Lemma str_all_app (P : ascii → Prop) s t :
  str_all P s → str_all P t → str_all P (String.append s t).
Proof. induction s; cbn; naive_solver. Qed.

Lemma str_all_mono (P Q : ascii → Prop) s :
  (∀ c, P c → Q c) → str_all P s → str_all Q s.
Proof. induction s; cbn; naive_solver. Qed.

Lemma dec_digits_all fuel n acc :
  str_all (λ c, is_digit c = true) acc →
  str_all (λ c, is_digit c = true) (dec_digits fuel n acc).
Proof.
  revert n acc. induction fuel as [|fuel IH]; intros n acc Ha; cbn [dec_digits]; [done|].
  assert (Hs : str_all (λ c, is_digit c = true) (String (digit_char (n mod 10)) acc)).
  { split; [|done]. apply is_digit_digit. apply Z.mod_pos_bound. lia. }
  destruct (n <? 10); auto.
Qed.

Lemma print_uint_digits n : str_all (λ c, is_digit c = true) (print_uint n).
Proof. by apply dec_digits_all. Qed.

Lemma read_dec_digits fuel n acc :
  0 ≤ n < 10 ^ Z.of_nat (S fuel) →
  ∃ k, 0 ≤ k ∧ ∀ v, read_digits (dec_digits (S fuel) n acc) v = read_digits acc (v * 10 ^ k + n).
Proof.
  revert n acc. induction fuel as [|fuel IH]; intros n acc Hn.
  - cbn in Hn. exists 1. split; [lia|]. intros v. cbn [dec_digits].
    rewrite (proj2 (Z.ltb_lt n 10)) by lia. cbn [read_digits].
    rewrite is_digit_digit, char_code_digit by (apply Z.mod_pos_bound; lia).
    rewrite Z.mod_small by lia. f_equal. lia.
  - remember (S fuel) as f eqn:Hf. cbn [dec_digits].
    pose proof (Z.mod_pos_bound n 10 ltac:(lia)) as Hm.
    destruct (Z.ltb_spec n 10) as [H10|H10].
    + exists 1. split; [lia|]. intros v. cbn [read_digits].
      rewrite is_digit_digit, char_code_digit by lia. rewrite Z.mod_small by lia. f_equal. lia.
    + rewrite Nat2Z.inj_succ, Z.pow_succ_r in Hn by lia.
      destruct (IH (n / 10) (String (digit_char (n mod 10)) acc)) as (k & Hk & HH).
      { split; [apply Z.div_pos; lia|]. apply Z.div_lt_upper_bound; lia. }
      exists (k + 1). split; [lia|]. intros v. rewrite HH. cbn [read_digits].
      rewrite is_digit_digit, char_code_digit by lia.
      f_equal. rewrite Z.pow_add_r by lia. pose proof (Z.div_mod n 10). lia.
Qed.

Lemma read_print_uint n rest :
  0 ≤ n < 10 ^ 10 →
  (match rest with String c _ => is_digit c = false | EmptyString => True end) →
  read_digits (String.append (print_uint n) rest) 0 = (n, rest).
Proof.
  intros Hn Hr.
  assert (Happ : ∀ fuel m acc,
    String.append (dec_digits fuel m acc) rest = dec_digits fuel m (String.append acc rest)).
  { induction fuel; intros m acc; cbn [dec_digits]; [done|].
    destruct (m <? 10); [done|]. by rewrite IHfuel. }
  unfold print_uint. rewrite Happ.
  destruct (read_dec_digits 9 n (String.append "" rest)) as (k & _ & ->); [done|].
  change (String.append "" rest) with rest. replace (0 * 10 ^ k + n) with n by lia.
  destruct rest as [|c rest]; cbn [read_digits]; [done|]. by rewrite Hr.
Qed.

Lemma print_uint_inj n m :
  0 ≤ n < 10 ^ 10 → 0 ≤ m < 10 ^ 10 → print_uint n = print_uint m → n = m.
Proof.
  intros Hn Hm H.
  pose proof (read_print_uint n "" Hn I) as H1.
  pose proof (read_print_uint m "" Hm I) as H2.
  rewrite H in H1. congruence.
Qed.

Lemma length_dec_digits fuel n acc k :
  0 ≤ n < 10 ^ Z.of_nat (S k) →
  (String.length (dec_digits fuel n acc) ≤ S k + String.length acc)%nat.
Proof.
  revert n acc k. induction fuel as [|fuel IH]; intros n acc k Hn; cbn [dec_digits]; [lia|].
  destruct (Z.ltb_spec n 10); [cbn; lia|].
  destruct k as [|k]; [cbn in Hn; lia|].
  rewrite Nat2Z.inj_succ, Z.pow_succ_r in Hn by lia.
  etrans; [apply (IH _ _ k)|cbn; lia].
  split; [apply Z.div_pos; lia|]. apply Z.div_lt_upper_bound; lia.
Qed.

Lemma length_print_uint n k :
  0 ≤ n < 10 ^ Z.of_nat (S k) → (String.length (print_uint n) ≤ S k)%nat.
Proof. intros. etrans; [by apply (length_dec_digits 10 n "" k)|]. cbn. lia. Qed.

Lemma dec_digits_nonempty fuel n acc : ∃ c s, dec_digits (S fuel) n acc = String c s.
Proof.
  revert n acc. induction fuel as [|fuel IH]; intros n acc.
  - cbn. destruct (n <? 10); eauto.
  - remember (S fuel) as f. cbn [dec_digits]. destruct (n <? 10); eauto.
Qed.

Lemma is_digit_not_space c : is_digit c = true → is_space c = false.
Proof. unfold is_digit, is_space. lia. Qed.

(** [strtol] reads back what [%u] printed. *)
Lemma strtol10_print_uint n : 0 ≤ n < 10 ^ 10 → strtol10 (print_uint n) = (n, EmptyString).
Proof.
  intros Hn. unfold strtol10.
  pose proof (read_print_uint n "" Hn I) as Hr.
  pose proof (print_uint_digits n) as Hd.
  rewrite str_app_nil_r in Hr.
  destruct (dec_digits_nonempty 9 n "") as (c & s & Hcs).
  fold (print_uint n) in Hcs. rewrite Hcs in *. destruct Hd as [Hc _]. cbn [skip_space].
  rewrite is_digit_not_space by done.
  assert ((char_code c =? 45) = false) as -> by (unfold is_digit in Hc; lia).
  assert ((char_code c =? 43) = false) as -> by (unfold is_digit in Hc; lia).
  rewrite Hc. by rewrite Hr.
Qed.

Lemma split_at_app c s t :
  str_all (λ d, Ascii.eqb d c = false) s →
  split_at c (String.append s (String c t)) = Some (s, t).
Proof.
  induction s as [|d s IH]; intros H.
  - change (String.append "" (String c t)) with (String c t). cbn [split_at].
    by rewrite Ascii.eqb_refl.
  - destruct H as [Hd H]. rewrite str_app_cons. cbn [split_at]. by rewrite Hd, IH.
Qed.

Lemma substring_all n s : (String.length s ≤ n)%nat → String.substring 0 n s = s.
Proof.
  revert s. induction n as [|n IH]; intros [|c s] H; cbn in *; try done; [lia|].
  rewrite IH by lia. done.
Qed.
