(* ===== verification/NetProto.v ===== *)
(** * NetProto: packet headers and checksums

    Models misc/ipv4_proto.h, misc/ipv6_proto.h, misc/udp_proto.h,
    misc/dns_proto.h and the structures of misc/socks_proto.h.  A packed
    structure is a record of its raw fields, the integers the C code reads
    from it; [..._bytes] is its image in memory and [..._of] the structure a
    [memcpy] from memory gives.  Multi-byte fields of the network headers are
    therefore in network byte order and the code converts them with
    [hton16]/[ntoh16]. *)
From S2P Require Import Prelude Bytes Text.

(** The [n]-byte field at offset [off] of a structure's image. *)
Definition field (off n : nat) (bs : list Z) : Z := le_val (take n (drop off bs)).

(** ** misc/ipv4_proto.h *)

Definition IPV4_PROTOCOL_UDP : Z := 17.

Record ipv4_header := mk_ipv4_header {
  ip4_version4_ihl4 : Z;
  ip4_ds : Z;
  ip4_total_length : Z;
  ip4_identification : Z;
  ip4_flags3_fragmentoffset13 : Z;
  ip4_ttl : Z;
  ip4_protocol : Z;
  ip4_checksum : Z;
  ip4_source_address : Z;
  ip4_destination_address : Z
}.

Definition sizeof_ipv4_header : Z := 20.

Definition ipv4_header_bytes (h : ipv4_header) : list Z :=
  le_bytes 1 (ip4_version4_ihl4 h) ++ le_bytes 1 (ip4_ds h) ++
  le_bytes 2 (ip4_total_length h) ++
  le_bytes 2 (ip4_identification h) ++ le_bytes 2 (ip4_flags3_fragmentoffset13 h) ++
  le_bytes 1 (ip4_ttl h) ++ le_bytes 1 (ip4_protocol h) ++ le_bytes 2 (ip4_checksum h) ++
  le_bytes 4 (ip4_source_address h) ++ le_bytes 4 (ip4_destination_address h).

Definition ipv4_header_of (bs : list Z) : ipv4_header := {|
  ip4_version4_ihl4 := field 0 1 bs;
  ip4_ds := field 1 1 bs;
  ip4_total_length := field 2 2 bs;
  ip4_identification := field 4 2 bs;
  ip4_flags3_fragmentoffset13 := field 6 2 bs;
  ip4_ttl := field 8 1 bs;
  ip4_protocol := field 9 1 bs;
  ip4_checksum := field 10 2 bs;
  ip4_source_address := field 12 4 bs;
  ip4_destination_address := field 16 4 bs |}.

Definition set_ip4_checksum (c : Z) (h : ipv4_header) : ipv4_header := {|
  ip4_version4_ihl4 := ip4_version4_ihl4 h;
  ip4_ds := ip4_ds h;
  ip4_total_length := ip4_total_length h;
  ip4_identification := ip4_identification h;
  ip4_flags3_fragmentoffset13 := ip4_flags3_fragmentoffset13 h;
  ip4_ttl := ip4_ttl h;
  ip4_protocol := ip4_protocol h;
  ip4_checksum := c;
  ip4_source_address := ip4_source_address h;
  ip4_destination_address := ip4_destination_address h |}.

Definition IPV4_GET_VERSION (h : ipv4_header) : Z :=
  Z.shiftr (Z.land (ip4_version4_ihl4 h) 0xF0) 4.
Definition IPV4_GET_IHL (h : ipv4_header) : Z :=
  Z.shiftr (Z.land (ip4_version4_ihl4 h) 0x0F) 0.
Definition IPV4_MAKE_VERSION_IHL (size : Z) : Z := size / 4 + Z.shiftl 4 4.

(** [for (i = 0; i < n; i++) t += badvpn_read_be16(p + 2 * i);] on a
    [uint32_t t]. *)
Fixpoint sum_be16 (n : nat) (p : list Z) (t : Z) : Z :=
  match n with
  | O => t
  | S n => sum_be16 n (drop 2 p) (u32 (t + badvpn_read_be16 p))
  end.

(** [while (t >> 16) t = (t & 0xFFFF) + (t >> 16);] on a [uint32_t t]. *)
Fixpoint fold_carry (fuel : nat) (t : Z) : Z :=
  match fuel with
  | O => t
  | S fuel =>
      if Z.shiftr t 16 =? 0 then t
      else fold_carry fuel (u32 (Z.land t 0xFFFF + Z.shiftr t 16))
  end.

(** Three rounds always suffice for a 32-bit value ([fold_carry_done]). *)
Definition carry_fuel : nat := 4.

Definition ipv4_checksum (header : ipv4_header) (extra : list Z) (extra_len : Z) : Z :=
  let t := sum_be16 (Z.to_nat (sizeof_ipv4_header / 2)) (ipv4_header_bytes header) 0 in
  let t := sum_be16 (Z.to_nat (extra_len / 2)) extra t in
  let t := fold_carry carry_fuel t in
  hton16 (u16 (Z.lnot t)).

Definition ipv4_check (data : list Z) (data_len : Z) :
    result (ipv4_header * list Z * Z) :=
  (* check base header *)
  _ ← reject_if (data_len <? sizeof_ipv4_header);
  image ← rd sizeof_ipv4_header data;
  let out_header := ipv4_header_of image in
  (* check version *)
  _ ← reject_if (negb (IPV4_GET_VERSION out_header =? 4));
  (* check options *)
  let header_len := u16 (IPV4_GET_IHL out_header * 4) in
  _ ← reject_if (header_len <? sizeof_ipv4_header);
  _ ← reject_if (data_len <? header_len);
  (* check total length *)
  let total_length := ntoh16 (ip4_total_length out_header) in
  _ ← reject_if (total_length <? header_len);
  _ ← reject_if (data_len <? total_length);
  (* check checksum *)
  let checksum_in_packet := ip4_checksum out_header in
  extra ← rd (header_len - sizeof_ipv4_header) (zdrop sizeof_ipv4_header data);
  let checksum_computed :=
    ipv4_checksum (set_ip4_checksum (hton16 0) out_header) extra
                  (header_len - sizeof_ipv4_header) in
  _ ← reject_if (negb (checksum_in_packet =? checksum_computed));
  mret (out_header, zdrop header_len data, total_length - header_len).

(** ** misc/ipv6_proto.h *)

Definition IPV6_NEXT_UDP : Z := 17.

Record ipv6_header := mk_ipv6_header {
  ip6_version4_tc4 : Z;
  ip6_tc4_fl4 : Z;
  ip6_fl : Z;
  ip6_payload_length : Z;
  ip6_next_header : Z;
  ip6_hop_limit : Z;
  ip6_source_address : list Z;
  ip6_destination_address : list Z
}.

Definition sizeof_ipv6_header : Z := 40.

Definition ipv6_header_bytes (h : ipv6_header) : list Z :=
  le_bytes 1 (ip6_version4_tc4 h) ++ le_bytes 1 (ip6_tc4_fl4 h) ++
  le_bytes 2 (ip6_fl h) ++ le_bytes 2 (ip6_payload_length h) ++
  le_bytes 1 (ip6_next_header h) ++ le_bytes 1 (ip6_hop_limit h) ++
  ip6_source_address h ++ ip6_destination_address h.

Definition ipv6_header_of (bs : list Z) : ipv6_header := {|
  ip6_version4_tc4 := field 0 1 bs;
  ip6_tc4_fl4 := field 1 1 bs;
  ip6_fl := field 2 2 bs;
  ip6_payload_length := field 4 2 bs;
  ip6_next_header := field 6 1 bs;
  ip6_hop_limit := field 7 1 bs;
  ip6_source_address := take 16 (drop 8 bs);
  ip6_destination_address := take 16 (drop 24 bs) |}.

Definition ipv6_check (data : list Z) (data_len : Z) :
    result (ipv6_header * list Z * Z) :=
  (* check base header *)
  _ ← reject_if (data_len <? sizeof_ipv6_header);
  image ← rd sizeof_ipv6_header data;
  let out_header := ipv6_header_of image in
  (* check version *)
  _ ← reject_if (negb (Z.shiftr (ntoh8 (ip6_version4_tc4 out_header)) 4 =? 6));
  (* check payload length *)
  let payload_length := ntoh16 (ip6_payload_length out_header) in
  _ ← reject_if (data_len - sizeof_ipv6_header <? payload_length);
  mret (out_header, zdrop sizeof_ipv6_header data, payload_length).

(** ** misc/udp_proto.h *)

Record udp_header := mk_udp_header {
  udp_source_port : Z;
  udp_dest_port : Z;
  udp_length : Z;
  udp_hchecksum : Z
}.

Definition sizeof_udp_header : Z := 8.

Definition udp_header_bytes (h : udp_header) : list Z :=
  le_bytes 2 (udp_source_port h) ++ le_bytes 2 (udp_dest_port h) ++
  le_bytes 2 (udp_length h) ++ le_bytes 2 (udp_hchecksum h).

Definition udp_header_of (bs : list Z) : udp_header := {|
  udp_source_port := field 0 2 bs;
  udp_dest_port := field 2 2 bs;
  udp_length := field 4 2 bs;
  udp_hchecksum := field 6 2 bs |}.

Definition set_udp_hchecksum (c : Z) (h : udp_header) : udp_header := {|
  udp_source_port := udp_source_port h;
  udp_dest_port := udp_dest_port h;
  udp_length := udp_length h;
  udp_hchecksum := c |}.

Definition udp_checksum_summer (data : list Z) (len : Z) : Z :=
  sum_be16 (Z.to_nat (len / 2)) data 0.

(** The end of both checksum functions: payload, carries, complement. *)
Definition udp_checksum_finish (t : Z) (header : udp_header) (payload : list Z)
    (payload_len : Z) : Z :=
  let t := u32 (t + udp_checksum_summer (udp_header_bytes header) sizeof_udp_header) in
  let t :=
    if payload_len mod 2 =? 0 then
      u32 (t + udp_checksum_summer payload payload_len)
    else
      let t := u32 (t + udp_checksum_summer payload (payload_len - 1)) in
      let last := nth (Z.to_nat (payload_len - 1)) payload 0 in
      let x := hton16 (u16 (Z.shiftl last 8)) in
      u32 (t + udp_checksum_summer (le_bytes 2 x) 2) in
  let t := fold_carry carry_fuel t in
  let t := if t =? 0 then UINT16_MAX else t in
  hton16 (u16 (Z.lnot t)).

Definition udp_checksum (header : udp_header) (payload : list Z) (payload_len : Z)
    (source_addr dest_addr : Z) : Z :=
  let t := 0 in
  let t := u32 (t + udp_checksum_summer (le_bytes 4 source_addr) 4) in
  let t := u32 (t + udp_checksum_summer (le_bytes 4 dest_addr) 4) in
  let x := hton16 IPV4_PROTOCOL_UDP in
  let t := u32 (t + udp_checksum_summer (le_bytes 2 x) 2) in
  let x := hton16 (u16 (sizeof_udp_header + payload_len)) in
  let t := u32 (t + udp_checksum_summer (le_bytes 2 x) 2) in
  udp_checksum_finish t header payload payload_len.

Definition udp_ip6_checksum (header : udp_header) (payload : list Z) (payload_len : Z)
    (source_addr dest_addr : list Z) : Z :=
  let t := 0 in
  let t := u32 (t + udp_checksum_summer source_addr 16) in
  let t := u32 (t + udp_checksum_summer dest_addr 16) in
  let x := hton32 (sizeof_udp_header + payload_len) in
  let t := u32 (t + udp_checksum_summer (le_bytes 4 x) 4) in
  let x := hton32 IPV6_NEXT_UDP in
  let t := u32 (t + udp_checksum_summer (le_bytes 4 x) 4) in
  udp_checksum_finish t header payload payload_len.

Definition udp_check (data : list Z) (data_len : Z) : result (udp_header * list Z * Z) :=
  (* parse UDP header *)
  _ ← reject_if (data_len <? sizeof_udp_header);
  image ← rd sizeof_udp_header data;
  let out_header := udp_header_of image in
  let data := zdrop sizeof_udp_header data in
  let data_len := data_len - sizeof_udp_header in
  (* verify UDP payload *)
  let udp_len := ntoh16 (udp_length out_header) in
  _ ← reject_if (udp_len <? sizeof_udp_header);
  _ ← reject_if (sizeof_udp_header + data_len <? udp_len);
  (* ignore stray data *)
  mret (out_header, data, udp_len - sizeof_udp_header).

(** ** misc/dns_proto.h *)

Definition DNS_ID_STRLEN : nat := 6.

(** [sprintf(id_str, "%u", dnsh->id); id_str[DNS_ID_STRLEN - 1] = 0;] — the
    two bytes of the id are read whatever the length of the message. *)
Definition dns_get_header_id_str (data : list Z) : result string :=
  image ← rd 2 data;
  let id := field 0 2 image in
  mret (String.substring 0 (DNS_ID_STRLEN - 1) (print_uint id)).

(** ** misc/socks_proto.h: the header of a relayed datagram *)

Definition SOCKS_ATYP_IPV4 : Z := 1.

Record socks_udp_header := mk_socks_udp_header {
  sudp_rsv : Z;
  sudp_frag : Z;
  sudp_atyp : Z;
  sudp_addr : Z;
  sudp_port : Z
}.

Definition sizeof_socks_udp_header : Z := 10.

Definition socks_udp_header_bytes (h : socks_udp_header) : list Z :=
  le_bytes 2 (sudp_rsv h) ++ le_bytes 1 (sudp_frag h) ++ le_bytes 1 (sudp_atyp h) ++
  le_bytes 4 (sudp_addr h) ++ le_bytes 2 (sudp_port h).

(** ** One's complement sums *)

(** Reference: the sum of the first [n] big-endian 16-bit words of [p]. *)
Fixpoint words_sum (n : nat) (p : list Z) : Z :=
  match n with
  | O => 0
  | S n => badvpn_read_be16 p + words_sum n (drop 2 p)
  end.

Lemma be16_bound p : bytes p → 0 ≤ badvpn_read_be16 p < 65536.
Proof.
  intros Hp.
  assert (is_byte (nth 0 p 0) ∧ is_byte (nth 1 p 0)) as [H0 H1].
  { unfold is_byte. destruct Hp as [|b0 ? ? [|b1 ? ? ?]]; cbn; unfold is_byte in *; lia. }
  change (badvpn_read_be16 p) with (badvpn_read_be16 [nth 0 p 0; nth 1 p 0]).
  rewrite be16_eq by done. unfold is_byte in *. lia.
Qed.

Lemma words_sum_bound n p : bytes p → 0 ≤ words_sum n p ≤ 65535 * Z.of_nat n.
Proof.
  revert p. induction n as [|n IH]; intros p Hp; cbn [words_sum]; [lia|].
  pose proof (be16_bound p Hp). pose proof (IH (drop 2 p) (Forall_drop _ 2 _ Hp)). lia.
Qed.

(** The 32-bit accumulator does not wrap for the lengths that occur. *)
Lemma sum_be16_exact n p t :
  bytes p → 0 ≤ t → t + 65535 * Z.of_nat n < 2 ^ 32 →
  sum_be16 n p t = t + words_sum n p.
Proof.
  revert p t. induction n as [|n IH]; intros p t Hp Ht Hn; cbn [sum_be16 words_sum]; [lia|].
  pose proof (be16_bound p Hp).
  rewrite u32_small by lia. rewrite IH; [lia|by apply Forall_drop|lia|lia].
Qed.

Lemma words_sum_app_even n m p q :
  length p = (2 * n)%nat → words_sum (n + m) (p ++ q) = words_sum n p + words_sum m q.
Proof.
  revert p. induction n as [|n IH]; intros p Hp.
  - apply nil_length_inv in Hp as ->. done.
  - destruct p as [|b0 [|b1 p]]; [cbn in Hp; lia..|].
    cbn [Nat.add words_sum].
    change (drop 2 ((b0 :: b1 :: p) ++ q)) with (p ++ q).
    change (drop 2 (b0 :: b1 :: p)) with p.
    rewrite IH by (cbn in Hp; lia).
    change (badvpn_read_be16 ((b0 :: b1 :: p) ++ q)) with (badvpn_read_be16 (b0 :: b1 :: p)).
    lia.
Qed.

Lemma carry_step t :
  0 ≤ t → Z.land t 0xFFFF + Z.shiftr t 16 = t mod 65536 + t / 65536.
Proof.
  intros. change 0xFFFF with (Z.ones 16).
  rewrite Z.land_ones, Z.shiftr_div_pow2 by lia. done.
Qed.

Lemma fold_carry_inv fuel t :
  0 ≤ t < 2 ^ 32 →
  0 ≤ fold_carry fuel t ∧ fold_carry fuel t mod 65535 = t mod 65535 ∧
  (fold_carry fuel t = 0 ↔ t = 0).
Proof.
  revert t. induction fuel as [|fuel IH]; intros t Ht; cbn [fold_carry]; [lia|].
  destruct (Z.eqb_spec (Z.shiftr t 16) 0) as [|Hne]; [lia|].
  rewrite carry_step by lia.
  assert (0 ≤ t mod 65536 + t / 65536 < 2 ^ 32) by (Z.div_mod_to_equations; lia).
  rewrite u32_small by done.
  destruct (IH (t mod 65536 + t / 65536)) as (H1 & H2 & H3); [done|].
  split; [done|]. split.
  - rewrite H2. replace t with (t mod 65536 + t / 65536 + t / 65536 * 65535) at 3
      by (Z.div_mod_to_equations; lia).
    by rewrite Z.mod_add.
  - rewrite H3. rewrite Z.shiftr_div_pow2 in Hne by lia. Z.div_mod_to_equations. lia.
Qed.

Lemma fold_carry_small fuel t : 0 ≤ t < 65536 → fold_carry fuel t = t.
Proof.
  intros. destruct fuel; [done|]. cbn [fold_carry].
  by rewrite Z.shiftr_div_pow2, Z.div_small.
Qed.

Lemma fold_carry_step fuel t :
  0 ≤ t < 2 ^ 32 →
  fold_carry (S fuel) t = t ∧ t < 65536 ∨
  fold_carry (S fuel) t = fold_carry fuel (t mod 65536 + t / 65536).
Proof.
  intros Ht. cbn [fold_carry].
  destruct (Z.eqb_spec (Z.shiftr t 16) 0) as [He|Hne].
  - left. rewrite Z.shiftr_div_pow2 in He by lia. Z.div_mod_to_equations. lia.
  - right. rewrite carry_step by lia. rewrite u32_small; [done|].
    Z.div_mod_to_equations. lia.
Qed.

(** The carry loop ends: with [carry_fuel] rounds the loop condition is
    false, so more rounds change nothing. *)
Lemma fold_carry_done t : 0 ≤ t < 2 ^ 32 → 0 ≤ fold_carry carry_fuel t < 65536.
Proof.
  intros Ht. unfold carry_fuel.
  destruct (fold_carry_step 3 t Ht) as [[-> ?]| ->]; [lia|].
  set (t1 := t mod 65536 + t / 65536).
  assert (0 ≤ t1 < 131072) by (unfold t1; Z.div_mod_to_equations; lia). clearbody t1.
  destruct (fold_carry_step 2 t1) as [[-> ?]| ->]; [lia|lia|].
  set (t2 := t1 mod 65536 + t1 / 65536).
  assert (0 ≤ t2 ≤ 65536) by (unfold t2; Z.div_mod_to_equations; lia). clearbody t2.
  destruct (fold_carry_step 1 t2) as [[-> ?]| ->]; [lia|lia|].
  rewrite fold_carry_small; Z.div_mod_to_equations; lia.
Qed.

Lemma u16_lnot t : 0 ≤ t < 65536 → u16 (Z.lnot t) = 65535 - t.
Proof.
  intros. unfold u16, Z.lnot. change (2 ^ 16) with 65536. Z.div_mod_to_equations. lia.
Qed.

(** One's complement: the only [x] that brings a sum to zero is the
    complement of the folded sum. *)
Lemma oc_complement S r x :
  r mod 65535 = S mod 65535 →
  (S + x) mod 65535 = 0 ↔ x mod 65535 = (65535 - r) mod 65535.
Proof.
  intros Hm.
  assert (Hr : (S - r) mod 65535 = 0) by (rewrite Zminus_mod, Hm, Z.sub_diag; done).
  apply Z.mod_divide in Hr as [k Hk]; [|lia].
  split; intros Hx.
  - apply Z.mod_divide in Hx as [j Hj]; [|lia].
    replace x with (65535 - r + (j - k - 1) * 65535) by lia. by rewrite Z.mod_add.
  - assert (Hy : (x - (65535 - r)) mod 65535 = 0) by (rewrite Zminus_mod, Hx, Z.sub_diag; done).
    apply Z.mod_divide in Hy as [j Hj]; [|lia].
    replace (S + x) with ((j + k + 1) * 65535) by lia. apply Z.mod_mul. lia.
Qed.

(** *** The IPv4 header checksum *)

Definition ipv4_header_wf (h : ipv4_header) : Prop :=
  0 ≤ ip4_version4_ihl4 h < 256 ∧ 0 ≤ ip4_ds h < 256 ∧
  0 ≤ ip4_total_length h < 65536 ∧ 0 ≤ ip4_identification h < 65536 ∧
  0 ≤ ip4_flags3_fragmentoffset13 h < 65536 ∧ 0 ≤ ip4_ttl h < 256 ∧
  0 ≤ ip4_protocol h < 256 ∧ 0 ≤ ip4_checksum h < 65536 ∧
  0 ≤ ip4_source_address h < 2 ^ 32 ∧ 0 ≤ ip4_destination_address h < 2 ^ 32.

Lemma ipv4_header_bytes_bytes h : bytes (ipv4_header_bytes h).
Proof. unfold ipv4_header_bytes. repeat apply Forall_app_2; apply le_bytes_bytes. Qed.

Lemma length_ipv4_header_bytes h : length (ipv4_header_bytes h) = 20%nat.
Proof. reflexivity. Qed.

Lemma ipv4_checksum_bound h extra len : 0 ≤ ipv4_checksum h extra len < 65536.
Proof. apply hton16_bound. Qed.

(** The header's sum with a checksum field is its sum with a zero field plus
    the field's value. *)
Lemma ipv4_words_sum_checksum h c :
  0 ≤ c < 65536 →
  words_sum 10 (ipv4_header_bytes (set_ip4_checksum c h)) =
  words_sum 10 (ipv4_header_bytes (set_ip4_checksum 0 h)) + ntoh16 c.
Proof.
  intros Hc.
  assert (Heq : ∀ x, 0 ≤ x < 65536 →
    words_sum 10 (ipv4_header_bytes (set_ip4_checksum x h)) =
    words_sum 5 (take 10 (ipv4_header_bytes h)) +
      (ntoh16 x + words_sum 4 (drop 12 (ipv4_header_bytes h)))).
  { intros x Hx. rewrite <- (be16_le_bytes x [] Hx).
    change (ipv4_header_bytes (set_ip4_checksum x h)) with
      (take 10 (ipv4_header_bytes h) ++ (le_bytes 2 x ++ drop 12 (ipv4_header_bytes h))).
    change 10%nat with (5 + (1 + 4))%nat at 1.
    rewrite !words_sum_app_even by done.
    rewrite app_nil_r. cbn [words_sum]. lia. }
  rewrite !Heq by lia. change (ntoh16 0) with 0. lia.
Qed.

Lemma ipv4_checksum_eq h extra len :
  bytes extra → 0 ≤ len < 65536 →
  ipv4_checksum h extra len =
  hton16 (65535 - fold_carry carry_fuel
            (words_sum 10 (ipv4_header_bytes h) + words_sum (Z.to_nat (len / 2)) extra)).
Proof.
  intros He Hl. unfold ipv4_checksum.
  change (Z.to_nat (sizeof_ipv4_header / 2)) with 10%nat.
  pose proof (words_sum_bound 10 _ (ipv4_header_bytes_bytes h)) as Hb.
  pose proof (words_sum_bound (Z.to_nat (len / 2)) _ He) as Hb2.
  assert (Hn : Z.of_nat (Z.to_nat (len / 2)) ≤ 32768)
    by (rewrite Z2Nat.id; Z.div_mod_to_equations; lia).
  rewrite (sum_be16_exact 10) by (try apply ipv4_header_bytes_bytes; lia).
  rewrite sum_be16_exact by (try done; lia).
  rewrite u16_lnot; [done|]. apply fold_carry_done. lia.
Qed.

(** *** The UDP checksum *)

Lemma udp_header_bytes_bytes h : bytes (udp_header_bytes h).
Proof. unfold udp_header_bytes. repeat apply Forall_app_2; apply le_bytes_bytes. Qed.

Lemma udp_checksum_bound h p n s d : 0 ≤ udp_checksum h p n s d < 65536.
Proof. apply hton16_bound. Qed.

Lemma udp_ip6_checksum_bound h p n s d : 0 ≤ udp_ip6_checksum h p n s d < 65536.
Proof. apply hton16_bound. Qed.

Lemma udp_summer_exact p len :
  bytes p → 0 ≤ len < 65536 → udp_checksum_summer p len = words_sum (Z.to_nat (len / 2)) p.
Proof.
  intros Hp Hl. unfold udp_checksum_summer.
  assert (Z.of_nat (Z.to_nat (len / 2)) ≤ 32768)
    by (rewrite Z2Nat.id; Z.div_mod_to_equations; lia).
  rewrite sum_be16_exact; [lia|done|lia|lia].
Qed.

Lemma words_sum_take n p : words_sum n (take (2 * n) p) = words_sum n p.
Proof.
  revert p. induction n as [|n IH]; intros p; [done|].
  replace (2 * S n)%nat with (S (S (2 * n))) by lia.
  destruct p as [|b0 [|b1 p]]; [by rewrite take_nil|..].
  - done.
  - cbn [take words_sum]. f_equal.
    change (drop 2 (b0 :: b1 :: take (2 * n) p)) with (take (2 * n) p).
    change (drop 2 (b0 :: b1 :: p)) with p. by rewrite IH.
Qed.

(** Reference: the payload as big-endian words, an odd last byte padded with
    a zero byte. *)
Definition payload_sum (payload : list Z) (n : Z) : Z :=
  words_sum (Z.to_nat ((n + 1) / 2)) (ztake n payload).

Lemma payload_sum_bound p n :
  bytes p → 0 ≤ n < 65536 → 0 ≤ payload_sum p n ≤ 65535 * 32768.
Proof.
  intros Hp Hn. unfold payload_sum.
  pose proof (words_sum_bound (Z.to_nat ((n + 1) / 2)) _ (Forall_ztake _ n _ Hp)).
  assert (Z.of_nat (Z.to_nat ((n + 1) / 2)) ≤ 32768)
    by (rewrite Z2Nat.id; Z.div_mod_to_equations; lia).
  lia.
Qed.

Lemma payload_sum_even p n :
  0 ≤ n → n mod 2 = 0 → payload_sum p n = words_sum (Z.to_nat (n / 2)) p.
Proof.
  intros Hn H2. unfold payload_sum, ztake.
  replace ((n + 1) / 2) with (n / 2) by (Z.div_mod_to_equations; lia).
  rewrite <- (words_sum_take (Z.to_nat (n / 2)) p). do 2 f_equal.
  rewrite <- (Z2Nat.inj_mul 2) by (Z.div_mod_to_equations; lia).
  f_equal. Z.div_mod_to_equations. lia.
Qed.

Lemma payload_sum_odd p n :
  bytes p → 0 ≤ n ≤ zlen p → n mod 2 = 1 →
  payload_sum p n =
  words_sum (Z.to_nat ((n - 1) / 2)) p + 256 * nth (Z.to_nat (n - 1)) p 0.
Proof.
  intros Hp Hn H2. unfold payload_sum, ztake.
  assert (1 ≤ n) by (Z.div_mod_to_equations; lia).
  set (m := Z.to_nat ((n - 1) / 2)).
  assert (Hm : Z.to_nat (n - 1) = (2 * m)%nat).
  { unfold m. rewrite <- (Z2Nat.inj_mul 2) by (Z.div_mod_to_equations; lia).
    f_equal. Z.div_mod_to_equations. lia. }
  replace (Z.to_nat ((n + 1) / 2)) with (m + 1)%nat
    by (unfold m; rewrite <- Z2Nat.inj_add with (m := 1) by (Z.div_mod_to_equations; lia);
        f_equal; Z.div_mod_to_equations; lia).
  replace (Z.to_nat n) with (S (2 * m)) by lia. rewrite Hm.
  destruct (lookup_lt_is_Some_2 p (2 * m)) as [b Hb]; [lia|].
  rewrite (take_S_r p (2 * m) b) by done.
  rewrite words_sum_app_even by (rewrite length_take; lia).
  rewrite words_sum_take, (nth_lookup_Some _ _ _ _ Hb).
  cbn [words_sum]. change (badvpn_read_be16 [b]) with (badvpn_read_be16 [b; 0]).
  rewrite be16_eq; [lia|by eapply Forall_lookup_1|unfold is_byte; lia].
Qed.

(** The folded sum the checksum functions end with. *)
Lemma udp_finish_eq t h p n :
  bytes p → 0 ≤ n ≤ zlen p → n < 65536 → 0 ≤ t ≤ 65535 * 22 →
  let S := t + words_sum 4 (udp_header_bytes h) + payload_sum p n in
  let r := fold_carry carry_fuel S in
  0 ≤ S < 2 ^ 32 ∧
  udp_checksum_finish t h p n = hton16 (65535 - (if r =? 0 then 65535 else r)).
Proof.
  intros Hp Hn Hn2 Ht. cbv zeta.
  pose proof (words_sum_bound 4 _ (udp_header_bytes_bytes h)) as Hh.
  pose proof (payload_sum_bound p n Hp ltac:(lia)) as Hps.
  split; [lia|]. unfold udp_checksum_finish.
  rewrite (udp_summer_exact (udp_header_bytes h)) 
    by (apply udp_header_bytes_bytes || (unfold sizeof_udp_header; lia)).
  change (Z.to_nat (sizeof_udp_header / 2)) with 4%nat.
  rewrite (u32_small (t + _)) by lia. set (t1 := t + words_sum 4 _) in *.
  match goal with |- context [fold_carry _ (if ?b then ?x else ?y)] =>
    assert (Hsum : (if b then x else y) = t1 + payload_sum p n) end.
  { destruct (Z.eqb_spec (n mod 2) 0) as [He|Ho].
    - rewrite udp_summer_exact by (try done; lia).
      rewrite <- payload_sum_even by lia. apply u32_small. lia.
    - assert (Ho' : n mod 2 = 1 ∧ 1 ≤ n) by (Z.div_mod_to_equations; lia).
      destruct Ho' as [Ho' Hn1].
      pose proof (payload_sum_odd p n Hp Hn Ho') as Hodd.
      set (b := nth _ p 0) in *.
      assert (Hb : is_byte b).
      { unfold b. destruct (nth_lookup_or_length p (Z.to_nat (n - 1)) 0) as [Hl|Hl]; [|lia].
        by eapply Forall_lookup_1. }
      unfold is_byte in Hb.
      pose proof (words_sum_bound (Z.to_nat ((n - 1) / 2)) p Hp).
      rewrite (udp_summer_exact p) by (try done; lia).
      rewrite (u32_small (t1 + _)) by lia.
      assert (Hx : u16 (Z.shiftl b 8) = 256 * b)
        by (rewrite Z.shiftl_mul_pow2, u16_small by lia; lia).
      rewrite Hx, udp_summer_exact by (try apply le_bytes_bytes; lia).
      change (Z.to_nat (2 / 2)) with 1%nat. cbn [words_sum].
      rewrite <- (app_nil_r (le_bytes 2 _)), be16_le_bytes by apply hton16_bound.
      rewrite ntoh16_hton16 by lia. rewrite u32_small by lia. lia. }
  rewrite Hsum. pose proof (fold_carry_done (t1 + payload_sum p n) ltac:(lia)).
  destruct (Z.eqb_spec (fold_carry carry_fuel (t1 + payload_sum p n)) 0);
    rewrite u16_lnot by (unfold UINT16_MAX; lia); done.
Qed.

(** ** Structures and their images *)

Lemma ipv4_header_of_bytes h :
  ipv4_header_wf h → ipv4_header_of (ipv4_header_bytes h) = h.
Proof.
  destruct h. unfold ipv4_header_wf; cbn -[Z.pow]. intros (?&?&?&?&?&?&?&?&?&?).
  unfold ipv4_header_of, field. f_equal.
  all: match goal with
       | |- le_val (take ?n _) = ?x => change (le_val (le_bytes n x) = x)
       end; apply le_val_le_bytes; cbn; lia.
Qed.

Lemma udp_header_of_bytes h :
  0 ≤ udp_source_port h < 65536 → 0 ≤ udp_dest_port h < 65536 →
  0 ≤ udp_length h < 65536 → 0 ≤ udp_hchecksum h < 65536 →
  udp_header_of (udp_header_bytes h) = h.
Proof.
  destruct h. cbn -[Z.pow]. intros.
  unfold udp_header_of, field. f_equal.
  all: match goal with
       | |- le_val (take ?n _) = ?x => change (le_val (le_bytes n x) = x)
       end; apply le_val_le_bytes; cbn; lia.
Qed.

Lemma ipv6_header_of_bytes h :
  0 ≤ ip6_version4_tc4 h < 256 → 0 ≤ ip6_tc4_fl4 h < 256 → 0 ≤ ip6_fl h < 65536 →
  0 ≤ ip6_payload_length h < 65536 → 0 ≤ ip6_next_header h < 256 →
  0 ≤ ip6_hop_limit h < 256 → length (ip6_source_address h) = 16%nat →
  length (ip6_destination_address h) = 16%nat →
  ipv6_header_of (ipv6_header_bytes h) = h.
Proof.
  destruct h as [v tc fl pl nh hl src dst]. cbn -[Z.pow]. intros ? ? ? ? ? ? Hs Hd.
  unfold ipv6_header_of, field. f_equal.
  1-6: match goal with
       | |- le_val (take ?n _) = ?x => change (le_val (le_bytes n x) = x)
       end; apply le_val_le_bytes; cbn; lia.
  - change (take 16 (src ++ dst) = src). by rewrite <- Hs, take_app_length.
  - change (take 16 (drop 16 (src ++ dst)) = dst).
    rewrite <- Hs at 2. rewrite drop_app_length. apply take_ge. lia.
Qed.


(** ** Theorems: checksums *)

(** The value [ipv4_checksum] computes for a header with a zero checksum
    field is the RFC 1071 checksum: a 16-bit value makes the one's complement
    sum of the whole header (options included) zero if and only if it is that
    value, up to the two representations 0 and 0xFFFF of zero.  The 32-bit
    accumulator does not overflow and the carry loop ends. *)
Theorem ipv4_checksum_rfc1071 h extra len c :
  bytes extra → 0 ≤ len < 65536 → 0 ≤ c < 65536 →
  (words_sum 10 (ipv4_header_bytes (set_ip4_checksum c h)) +
   words_sum (Z.to_nat (len / 2)) extra) mod 65535 = 0 ↔
  ntoh16 c mod 65535 =
  ntoh16 (ipv4_checksum (set_ip4_checksum 0 h) extra len) mod 65535.
Proof.
  intros He Hl Hc. rewrite ipv4_checksum_eq by done.
  rewrite ipv4_words_sum_checksum by done.
  pose proof (words_sum_bound 10 _ (ipv4_header_bytes_bytes (set_ip4_checksum 0 h))).
  pose proof (words_sum_bound (Z.to_nat (len / 2)) _ He).
  assert (Z.of_nat (Z.to_nat (len / 2)) ≤ 32768)
    by (rewrite Z2Nat.id; Z.div_mod_to_equations; lia).
  set (S := words_sum 10 _ + words_sum _ extra) in *.
  pose proof (fold_carry_done S ltac:(lia)) as Hd.
  pose proof (fold_carry_inv carry_fuel S ltac:(lia)) as (_ & Hm & _).
  rewrite ntoh16_hton16 by lia.
  replace (words_sum 10 _ + ntoh16 c + words_sum _ extra) with (S + ntoh16 c) by (unfold S; lia).
  by apply oc_complement.
Qed.

(** References: the pseudo headers of RFC 768 and RFC 2460. *)
Definition pseudo4_sum (src dst n : Z) : Z :=
  words_sum 2 (le_bytes 4 src) + words_sum 2 (le_bytes 4 dst) +
  IPV4_PROTOCOL_UDP + (sizeof_udp_header + n).

Definition pseudo6_sum (src dst : list Z) (n : Z) : Z :=
  words_sum 8 src + words_sum 8 dst + (sizeof_udp_header + n) + IPV6_NEXT_UDP.

Lemma udp_words_sum_checksum h c :
  0 ≤ c < 65536 →
  words_sum 4 (udp_header_bytes (set_udp_hchecksum c h)) =
  words_sum 4 (udp_header_bytes (set_udp_hchecksum 0 h)) + ntoh16 c.
Proof.
  intros Hc.
  assert (Heq : ∀ x, 0 ≤ x < 65536 →
    words_sum 4 (udp_header_bytes (set_udp_hchecksum x h)) =
    words_sum 3 (take 6 (udp_header_bytes h)) + ntoh16 x).
  { intros x Hx. rewrite <- (be16_le_bytes x [] Hx), app_nil_r.
    change (udp_header_bytes (set_udp_hchecksum x h)) with
      (take 6 (udp_header_bytes h) ++ le_bytes 2 x).
    change 4%nat with (3 + 1)%nat.
    rewrite words_sum_app_even by done. cbn [words_sum]. lia. }
  rewrite !Heq by lia. change (ntoh16 0) with 0. lia.
Qed.

(** What both UDP checksum functions compute from the pseudo header's sum. *)
Lemma udp_finish_rfc t h p n c :
  bytes p → 0 ≤ n ≤ zlen p → n < 65536 → 0 ≤ t ≤ 65535 * 22 → 0 ≤ c < 65536 →
  (t + words_sum 4 (udp_header_bytes (set_udp_hchecksum c h)) + payload_sum p n) mod 65535 = 0 ↔
  ntoh16 c mod 65535 =
  ntoh16 (udp_checksum_finish t (set_udp_hchecksum 0 h) p n) mod 65535.
Proof.
  intros Hp Hn Hn2 Ht Hc.
  destruct (udp_finish_eq t (set_udp_hchecksum 0 h) p n Hp Hn Hn2 Ht) as [HS ->].
  rewrite udp_words_sum_checksum by done.
  set (S := t + words_sum 4 _ + payload_sum p n) in *.
  pose proof (fold_carry_done S HS) as Hd.
  pose proof (fold_carry_inv carry_fuel S HS) as (_ & Hm & _).
  replace (t + (words_sum 4 _ + ntoh16 c) + payload_sum p n) with (S + ntoh16 c) by (unfold S; lia).
  destruct (Z.eqb_spec (fold_carry carry_fuel S) 0) as [H0|H0].
  - rewrite ntoh16_hton16 by lia. apply oc_complement. by rewrite <- Hm, H0.
  - rewrite ntoh16_hton16 by lia. by apply oc_complement.
Qed.

Lemma udp_summer_word x : 0 ≤ x < 65536 → udp_checksum_summer (le_bytes 2 (hton16 x)) 2 = x.
Proof.
  intros. rewrite udp_summer_exact by (try apply le_bytes_bytes; lia).
  change (Z.to_nat (2 / 2)) with 1%nat. cbn [words_sum].
  rewrite <- (app_nil_r (le_bytes 2 _)), be16_le_bytes by apply hton16_bound.
  rewrite ntoh16_hton16 by done. lia.
Qed.

Lemma udp_summer_dword x :
  0 ≤ x < 65536 → udp_checksum_summer (le_bytes 4 (hton32 x)) 4 = x.
Proof.
  intros Hx. rewrite udp_summer_exact by (try apply le_bytes_bytes; lia).
  change (Z.to_nat (4 / 2)) with 2%nat.
  rewrite le_bytes_hton32. cbn [le_bytes rev app words_sum drop skipn].
  rewrite !be16_eq by apply is_byte_mod. Z.div_mod_to_equations. lia.
Qed.

Lemma udp_checksum_eq h p n s d :
  bytes p → 0 ≤ n ≤ 65527 →
  udp_checksum h p n s d = udp_checksum_finish (pseudo4_sum s d n) h p n ∧
  0 ≤ pseudo4_sum s d n ≤ 65535 * 22.
Proof.
  intros Hp Hn. unfold udp_checksum, pseudo4_sum, sizeof_udp_header, IPV4_PROTOCOL_UDP.
  pose proof (words_sum_bound 2 _ (le_bytes_bytes 4 s)).
  pose proof (words_sum_bound 2 _ (le_bytes_bytes 4 d)).
  rewrite !(udp_summer_exact (le_bytes 4 _)) by (try apply le_bytes_bytes; lia).
  change (Z.to_nat (4 / 2)) with 2%nat.
  rewrite (u16_small (8 + n)) by lia. rewrite !udp_summer_word by lia.
  u32_norm.
  split; [f_equal; lia|lia].
Qed.

Lemma udp_ip6_checksum_eq h p n s d :
  bytes p → bytes s → bytes d → 0 ≤ n ≤ 65527 →
  udp_ip6_checksum h p n s d = udp_checksum_finish (pseudo6_sum s d n) h p n ∧
  0 ≤ pseudo6_sum s d n ≤ 65535 * 22.
Proof.
  intros Hp Hs Hd Hn. unfold udp_ip6_checksum, pseudo6_sum, sizeof_udp_header, IPV6_NEXT_UDP.
  pose proof (words_sum_bound 8 _ Hs). pose proof (words_sum_bound 8 _ Hd).
  rewrite !udp_summer_dword by lia.
  rewrite !udp_summer_exact by (try done; lia).
  change (Z.to_nat (16 / 2)) with 8%nat.
  u32_norm.
  split; [f_equal; lia|lia].
Qed.

(** C33: [udp_checksum] and [udp_ip6_checksum] compute the RFC 768 checksum
    over the pseudo header, the UDP header and the zero-padded payload, for
    every payload up to the largest that fits a datagram: a checksum field
    makes that sum zero in one's complement if and only if it holds the
    computed value (up to the two representations of zero). *)
Theorem udp_checksum_rfc768 h p n c :
  bytes p → 0 ≤ n ≤ zlen p → n ≤ 65527 → 0 ≤ c < 65536 →
  (∀ s d,
    (pseudo4_sum s d n + words_sum 4 (udp_header_bytes (set_udp_hchecksum c h)) +
     payload_sum p n) mod 65535 = 0 ↔
    ntoh16 c mod 65535 = ntoh16 (udp_checksum (set_udp_hchecksum 0 h) p n s d) mod 65535) ∧
  (∀ s d, bytes s → bytes d →
    (pseudo6_sum s d n + words_sum 4 (udp_header_bytes (set_udp_hchecksum c h)) +
     payload_sum p n) mod 65535 = 0 ↔
    ntoh16 c mod 65535 = ntoh16 (udp_ip6_checksum (set_udp_hchecksum 0 h) p n s d) mod 65535).
Proof.
  intros Hp Hn Hn2 Hc. split.
  - intros s d.
    destruct (udp_checksum_eq (set_udp_hchecksum 0 h) p n s d Hp ltac:(lia)) as [-> ?].
    apply udp_finish_rfc; try done; lia.
  - intros s d Hs Hd.
    destruct (udp_ip6_checksum_eq (set_udp_hchecksum 0 h) p n s d Hp Hs Hd ltac:(lia)) as [-> ?].
    apply udp_finish_rfc; try done; lia.
Qed.

Lemma udp_finish_not_ffff t h p n :
  bytes p → 0 ≤ n ≤ zlen p → n < 65536 → 0 ≤ t ≤ 65535 * 22 →
  udp_checksum_finish t h p n ≠ UINT16_MAX.
Proof.
  intros Hp Hn Hn2 Ht.
  destruct (udp_finish_eq t h p n Hp Hn Hn2 Ht) as [HS ->].
  set (r := fold_carry carry_fuel _). pose proof (fold_carry_done _ HS) as Hd.
  change UINT16_MAX with (hton16 65535). intros Heq.
  apply hton16_inj in Heq; [|destruct (Z.eqb_spec r 0); unfold r in *; lia|lia].
  destruct (Z.eqb_spec r 0); unfold r in *; lia.
Qed.

(** The test [if (t == 0) t = UINT16_MAX] is made before the complement,
    so it has the opposite effect of RFC 768: a checksum that computes to zero
    is produced as 0 ("no checksum") and the value 0xFFFF, which RFC 768
    prescribes for it, is never produced.  Both happen: the computed field is
    never 0xFFFF, and there is a datagram for which it is 0. *)
Theorem udp_checksum_zero_not_replaced :
  (∀ h p n s d, bytes p → 0 ≤ n ≤ zlen p → n ≤ 65527 →
     udp_checksum h p n s d ≠ UINT16_MAX) ∧
  (∃ h p s d, zlen p = 2 ∧ bytes p ∧
     pseudo4_sum s d 2 + words_sum 4 (udp_header_bytes h) + payload_sum p 2 = UINT16_MAX ∧
     udp_checksum h p 2 s d = 0).
Proof.
  split.
  - intros h p n s d Hp Hn Hn2.
    destruct (udp_checksum_eq h p n s d Hp ltac:(lia)) as [-> ?].
    apply udp_finish_not_ffff; try done; lia.
  - exists (mk_udp_header 0 0 (hton16 10) 0), [255; 218], 0, 0.
    split; [done|]. split; [repeat constructor; lia|]. split; by vm_compute.
Qed.

(** ** Theorems: parsers *)

Lemma field_byte_bound off bs : bytes bs → 0 ≤ field off 1 bs < 256.
Proof.
  intros Hb. unfold field.
  assert (Hd : bytes (take 1 (drop off bs))) by auto using Forall_take, Forall_drop.
  pose proof (le_val_bound _ Hd).
  assert (zlen (take 1 (drop off bs)) ≤ 1) by (rewrite length_take; lia).
  assert (256 ^ zlen (take 1 (drop off bs)) ≤ 256 ^ 1) by (apply Z.pow_le_mono_r; lia). lia.
Qed.

Lemma ihl_bound h : 0 ≤ ip4_version4_ihl4 h → 0 ≤ IPV4_GET_IHL h ≤ 15.
Proof.
  intros. unfold IPV4_GET_IHL. rewrite Z.shiftr_0_r.
  pose proof (Z.land_ones (ip4_version4_ihl4 h) 4 ltac:(lia)) as Hl.
  change (Z.ones 4) with 15 in Hl. rewrite Hl. pose proof (Z.mod_pos_bound (ip4_version4_ihl4 h) (2 ^ 4)). lia.
Qed.

(** The payload a parser returns lies inside the packet it was given. *)
Definition inside (data payload : list Z) (data_len payload_len hdr_min hdr_max : Z) : Prop :=
  ∃ k, payload = zdrop k data ∧ hdr_min ≤ k ≤ hdr_max ∧ 0 ≤ payload_len ∧
       k + payload_len ≤ data_len.

Lemma ipv4_check_inside data data_len h p n :
  bytes data → data_len ≤ zlen data →
  ipv4_check data data_len = Ret (h, p, n) → inside data p data_len n 20 60.
Proof.
  intros Hb Hl H. unfold ipv4_check in H. parse_inv.
  pose proof (field_byte_bound 0 _ (Forall_ztake _ sizeof_ipv4_header _ Hb)) as Hv.
  set (h := ipv4_header_of _) in *.
  pose proof (ihl_bound h (proj1 Hv)). rewrite u16_small in * by lia.
  exists (IPV4_GET_IHL h * 4). unfold sizeof_ipv4_header in *. split; [done|].
  change (field 2 2 (ztake 20 data)) with (ip4_total_length h). lia.
Qed.

Lemma ipv4_check_no_fault data data_len :
  bytes data → data_len ≤ zlen data → ipv4_check data data_len ≠ Fault.
Proof.
  intros Hb Hl H. unfold ipv4_check in H. parse_inv.
  - rewrite rd_ok in H by lia. done.
  - pose proof (field_byte_bound 0 _ (Forall_ztake _ sizeof_ipv4_header _ Hb)) as Hv.
    set (h := ipv4_header_of _) in *.
    pose proof (ihl_bound h (proj1 Hv)). rewrite u16_small in * by lia.
    rewrite rd_ok in H; [done|]. unfold sizeof_ipv4_header in *. rewrite zlen_zdrop; lia.
Qed.

Lemma ipv6_check_inside data data_len h p n :
  ipv6_check data data_len = Ret (h, p, n) → inside data p data_len n 40 40.
Proof.
  intros H. unfold ipv6_check in H. parse_inv.
  exists 40. unfold sizeof_ipv6_header in *. split; [done|].
  pose proof (hton16_bound (field 4 2 (ztake 40 data))).
  cbn [ip6_payload_length ipv6_header_of] in *. unfold ntoh16 in *. lia.
Qed.

Lemma ipv6_check_no_fault data data_len :
  data_len ≤ zlen data → ipv6_check data data_len ≠ Fault.
Proof.
  intros Hl H. unfold ipv6_check in H. parse_inv. rewrite rd_ok in H by lia. done.
Qed.

Lemma udp_check_inside data data_len h p n :
  udp_check data data_len = Ret (h, p, n) → inside data p data_len n 8 8.
Proof.
  intros H. unfold udp_check in H. parse_inv.
  exists 8. unfold sizeof_udp_header in *. split; [done|].
  cbn [udp_length udp_header_of] in *. lia.
Qed.

Lemma udp_check_no_fault data data_len :
  data_len ≤ zlen data → udp_check data data_len ≠ Fault.
Proof.
  intros Hl H. unfold udp_check in H. parse_inv. rewrite rd_ok in H by lia. done.
Qed.

(** The three header parsers, given a packet of [data_len] bytes, read
    only those bytes; the payload they return begins after a header of 20 to
    60 (IPv4), 40 (IPv6) or 8 (UDP) bytes and lies inside the packet, so a
    parser can be applied to the payload another one returned. *)
Theorem parsers_stay_inside data data_len :
  bytes data → 0 ≤ data_len ≤ zlen data →
  ipv4_check data data_len ≠ Fault ∧ ipv6_check data data_len ≠ Fault ∧
  udp_check data data_len ≠ Fault ∧
  (∀ h p n, ipv4_check data data_len = Ret (h, p, n) →
     inside data p data_len n 20 60 ∧ n ≤ zlen p) ∧
  (∀ h p n, ipv6_check data data_len = Ret (h, p, n) →
     inside data p data_len n 40 40 ∧ n ≤ zlen p) ∧
  (∀ h p n, udp_check data data_len = Ret (h, p, n) →
     inside data p data_len n 8 8 ∧ n ≤ zlen p).
Proof.
  intros Hb Hl.
  assert (Hin : ∀ p n a b, 0 ≤ a → inside data p data_len n a b → n ≤ zlen p).
  { intros p n a b Ha (k & -> & Hk & Hn & Hs). rewrite zlen_zdrop; lia. }
  repeat split_and!.
  - apply ipv4_check_no_fault; [done|lia].
  - apply ipv6_check_no_fault; lia.
  - apply udp_check_no_fault; lia.
  - intros h p n H. apply ipv4_check_inside in H; [|done|lia].
    split; [done|]. by apply (Hin p n 20 60).
  - intros h p n H. apply ipv6_check_inside in H.
    split; [done|]. by apply (Hin p n 40 40).
  - intros h p n H. apply udp_check_inside in H.
    split; [done|]. by apply (Hin p n 8 8).
Qed.

(** ** Witnesses *)

(** A header with a zero checksum field: 192.168.0.1 to 192.168.0.199, UDP,
    115 bytes; its checksum is 0xb861. *)
Definition example_ipv4_header : ipv4_header :=
  ipv4_header_of [69; 0; 0; 115; 0; 0; 64; 0; 64; 17; 0; 0; 192; 168; 0; 1; 192; 168; 0; 199].

Lemma ipv4_checksum_rfc1071_witness :
  (words_sum 10 (ipv4_header_bytes (set_ip4_checksum (hton16 0xb861) example_ipv4_header)) +
   words_sum (Z.to_nat (0 / 2)) []) mod 65535 = 0.
Proof.
  apply (ipv4_checksum_rfc1071 example_ipv4_header [] 0 (hton16 0xb861));
    [constructor|lia|apply hton16_bound|]. by vm_compute.
Defined.

Definition example_udp_header : udp_header :=
  mk_udp_header (hton16 1025) (hton16 53) (hton16 11) 0.

Lemma udp_checksum_rfc768_witness :
  (pseudo4_sum 1 2 3 +
   words_sum 4 (udp_header_bytes (set_udp_hchecksum
     (udp_checksum example_udp_header [1; 2; 3] 3 1 2) example_udp_header)) +
   payload_sum [1; 2; 3] 3) mod 65535 = 0.
Proof.
  refine (proj2 (proj1 (udp_checksum_rfc768 example_udp_header [1; 2; 3] 3
    (udp_checksum example_udp_header [1; 2; 3] 3 1 2) _ _ _ _) 1 2) _).
  - repeat constructor; lia.
  - cbn. lia.
  - lia.
  - apply udp_checksum_bound.
  - by vm_compute.
Defined.

Lemma parsers_stay_inside_witness :
  ipv4_check [69; 0; 0; 20] 4 ≠ Fault ∧ udp_check [1; 2; 3; 4; 0; 9; 0; 0; 7; 8] 9 ≠ Fault.
Proof.
  split.
  - apply (parsers_stay_inside [69; 0; 0; 20] 4); [repeat constructor; lia|cbn; lia].
  - apply (parsers_stay_inside [1; 2; 3; 4; 0; 9; 0; 0; 7; 8] 9);
      [repeat constructor; lia|cbn; lia].
Defined.
