(* ===== verification/Addr.v ===== *)
(** * Addr: socket addresses

    Models system/BAddr.h: [BIPAddr] and [BAddr] with their constructors,
    comparison, printing and parsing.  The tagged unions are inductive types;
    IPv4 addresses and ports are the raw 32- and 16-bit integers in network
    byte order that the C structures hold.  [getaddrinfo] is a parameter. *)
From Stdlib Require Import Ascii String.
From S2P Require Import Prelude Bytes Text.

Inductive BIPAddr : Type :=
| BIPAddr_None
| BIPAddr_IPv4 (ip : Z)
| BIPAddr_IPv6 (ip : list Z).

Inductive BAddr : Type :=
| BAddr_None
| BAddr_IPv4 (ip port : Z)
| BAddr_IPv6 (ip : list Z) (port : Z)
| BAddr_Packet (phys_proto interface_index header_type packet_type : Z) (phys_addr : list Z).

#[global] Instance BIPAddr_eq_dec : EqDecision BIPAddr.
Proof. solve_decision. Defined.
#[global] Instance BAddr_eq_dec : EqDecision BAddr.
Proof. solve_decision. Defined.

Definition BADDR_TYPE_NONE : Z := 0.
Definition BADDR_TYPE_IPV4 : Z := 1.
Definition BADDR_TYPE_IPV6 : Z := 2.
Definition BADDR_TYPE_PACKET : Z := 5.

Definition BAddr_type (a : BAddr) : Z :=
  match a with
  | BAddr_None => BADDR_TYPE_NONE
  | BAddr_IPv4 _ _ => BADDR_TYPE_IPV4
  | BAddr_IPv6 _ _ => BADDR_TYPE_IPV6
  | BAddr_Packet _ _ _ _ _ => BADDR_TYPE_PACKET
  end.

Definition BAddr_MakeNone : BAddr := BAddr_None.
Definition BAddr_MakeIPv4 (ip port : Z) : BAddr := BAddr_IPv4 ip port.
Definition BAddr_MakeIPv6 (ip : list Z) (port : Z) : BAddr := BAddr_IPv6 (take 16 ip) port.
Definition BAddr_MakeFromIpaddrAndPort (ipaddr : BIPAddr) (port : Z) : BAddr :=
  match ipaddr with
  | BIPAddr_None => BAddr_MakeNone
  | BIPAddr_IPv4 ip => BAddr_MakeIPv4 ip port
  | BIPAddr_IPv6 ip => BAddr_MakeIPv6 ip port
  end.

Definition BAddr_IsInvalid (a : BAddr) : bool := BAddr_type a =? BADDR_TYPE_NONE.

(** [None]: the address is of another type (the assertion fails). *)
Definition BAddr_GetPort (a : BAddr) : option Z :=
  match a with
  | BAddr_IPv4 _ port => Some port
  | BAddr_IPv6 _ port => Some port
  | _ => None
  end.

Definition BAddr_GetIPAddr (a : BAddr) : BIPAddr :=
  match a with
  | BAddr_IPv4 ip _ => BIPAddr_IPv4 ip
  | BAddr_IPv6 ip _ => BIPAddr_IPv6 (take 16 ip)
  | _ => BIPAddr_None
  end.

Definition BAddr_SetPort (a : BAddr) (port : Z) : option BAddr :=
  match a with
  | BAddr_IPv4 ip _ => Some (BAddr_IPv4 ip port)
  | BAddr_IPv6 ip _ => Some (BAddr_IPv6 ip port)
  | _ => None
  end.

Definition BAddr_Compare (a1 a2 : BAddr) : bool :=
  if negb (BAddr_type a1 =? BAddr_type a2) then false
  else match a1, a2 with
  | BAddr_IPv4 ip1 port1, BAddr_IPv4 ip2 port2 => (ip1 =? ip2) && (port1 =? port2)
  | BAddr_IPv6 ip1 port1, BAddr_IPv6 ip2 port2 =>
      bool_decide (ip1 = ip2) && (port1 =? port2)
  | _, _ => false
  end.

(** [memcmp]: the sign of the first difference. *)
Fixpoint memcmp (p q : list Z) : Z :=
  match p, q with
  | x :: p, y :: q => if x =? y then memcmp p q else x - y
  | _, _ => 0
  end.

Definition BAddr_CompareOrder (a1 a2 : BAddr) : Z :=
  let cmp := B_COMPARE (BAddr_type a1) (BAddr_type a2) in
  if negb (cmp =? 0) then cmp
  else match a1, a2 with
  | BAddr_IPv4 ip1 port1, BAddr_IPv4 ip2 port2 =>
      let cmp := B_COMPARE (ntoh32 ip1) (ntoh32 ip2) in
      if negb (cmp =? 0) then cmp else B_COMPARE (ntoh16 port1) (ntoh16 port2)
  | BAddr_IPv6 ip1 port1, BAddr_IPv6 ip2 port2 =>
      let cmp := memcmp ip1 ip2 in
      if negb (cmp =? 0) then B_COMPARE cmp 0 else B_COMPARE (ntoh16 port1) (ntoh16 port2)
  | _, _ => 0
  end.

(** ** Printing *)

Definition colon : string := String ":" "".
Definition dot : string := String "." "".

Definition hex_digit (d : Z) : ascii :=
  if d <? 10 then digit_char d else ascii_of_nat (Z.to_nat (87 + d)).

(** [sprintf("%x")] of a 16-bit value. *)
Fixpoint hex_digits (fuel : nat) (n : Z) (acc : string) : string :=
  match fuel with
  | O => acc
  | S fuel =>
      let acc := String (hex_digit (n mod 16)) acc in
      if n <? 16 then acc else hex_digits fuel (n / 16) acc
  end.
Definition print_hex16 (n : Z) : string := hex_digits 4 n "".

Fixpoint join (sep : string) (l : list string) : string :=
  match l with
  | [] => EmptyString
  | [s] => s
  | s :: l => String.append s (String.append sep (join sep l))
  end.

Definition BIPAddr_Print (a : BIPAddr) : string :=
  match a with
  | BIPAddr_None => "(none)"
  | BIPAddr_IPv4 ip => join dot (map print_uint (le_bytes 4 ip))
  | BIPAddr_IPv6 ip =>
      join colon (map (λ i, print_hex16 (badvpn_read_be16 (drop (2 * i) ip))) (seq 0 8))
  end.

(** [None]: a data link layer address, which the modelled code never prints. *)
Definition BAddr_Print (a : BAddr) : option string :=
  match a with
  | BAddr_None => Some "(none)"%string
  | BAddr_IPv4 ip port =>
      Some (String.append (BIPAddr_Print (BIPAddr_IPv4 ip))
              (String.append colon (print_uint (ntoh16 port))))
  | BAddr_IPv6 ip port =>
      Some (String.append (BIPAddr_Print (BIPAddr_IPv6 (take 16 ip)))
              (String.append colon (print_uint (ntoh16 port))))
  | BAddr_Packet _ _ _ _ _ => None
  end.

(** ** Parsing *)

Inductive family : Type := AF_INET | AF_INET6.

(** The system's name resolution: [getaddrinfo] with the family of the hints
    and the flag AI_NUMERICHOST, returning the address it yields first. *)
Class Resolver := {
  getaddrinfo4 : bool → string → option Z;
  getaddrinfo6 : bool → string → option (list Z)
}.

(** What the sources rely on: a dotted decimal IPv4 address resolves to
    itself, with or without AI_NUMERICHOST. *)
Class ResolverOk `{Resolver} : Prop := {
  getaddrinfo4_numeric : ∀ num ip, 0 ≤ ip < 2 ^ 32 →
    getaddrinfo4 num (BIPAddr_Print (BIPAddr_IPv4 ip)) = Some ip
}.

Definition ends_with_bracket (s : string) : bool :=
  match String.get (String.length s - 1) s with
  | Some c => Ascii.eqb c "]"
  | None => false
  end.

Definition BADDR_MAX_ADDR_LEN : Z := 128.

Definition BIPAddr_Resolve `{Resolver} (str : string) (noresolve : bool) : option BIPAddr :=
  let len := zstrlen str in
  (* determine address type *)
  let is_ipv6 :=
    (1 <=? len) &&
    match str with String c _ => Ascii.eqb c "[" | EmptyString => false end &&
    ends_with_bracket str in
  let addr_str :=
    if is_ipv6 then String.substring 1 (Z.to_nat (len - 2)) str else str in
  let addr_len := if is_ipv6 then len - 2 else len in
  if BADDR_MAX_ADDR_LEN <? addr_len then None
  else if is_ipv6 then BIPAddr_IPv6 <$> getaddrinfo6 noresolve addr_str
  else BIPAddr_IPv4 <$> getaddrinfo4 noresolve addr_str.

(** [BAddr_Parse2] with [name == NULL], as every caller in the sources
    modelled here has it. *)
Definition BAddr_Parse2 `{Resolver} (str : string) (noresolve : bool) : option BAddr :=
  let len := zstrlen str in
  if (len <? 1) || (1000 <? len) then None
  else
    '(is_ipv6, addr_str, port_str) ←
      match str with
      | String c str' =>
          if Ascii.eqb c "[" then
            (* leading '[' indicates an IPv6 address: find ']', then ':' *)
            '(addr_str, rest) ← split_at "]" str';
            match rest with
            | String c2 port_str =>
                if Ascii.eqb c2 ":" then Some (true, addr_str, port_str) else None
            | EmptyString => None
            end
          else
            (* otherwise it's an IPv4 address: find ':' *)
            '(addr_str, port_str) ← split_at ":" str;
            Some (false, addr_str, port_str)
      | EmptyString => None
      end;
    if 128 <=? zstrlen addr_str then None
    else if 6 <=? zstrlen port_str then None
    else
      (* parse port *)
      let '(conv_res, err) := strtol10 port_str in
      if (zstrlen port_str =? 0) || negb (String.eqb err "") then None
      else if (conv_res <? 0) || (UINT16_MAX <? conv_res) then None
      else
        let port := hton16 (u16 conv_res) in
        if (is_ipv6 : bool) then
          ip ← getaddrinfo6 noresolve addr_str; Some (BAddr_IPv6 ip port)
        else
          ip ← getaddrinfo4 noresolve addr_str; Some (BAddr_IPv4 ip port).

Definition BAddr_Parse `{Resolver} (str : string) : option BAddr := BAddr_Parse2 str false.

(** ** Order of addresses *)

Definition addr_wf (a : BAddr) : Prop :=
  match a with
  | BAddr_None => True
  | BAddr_IPv4 ip port => 0 ≤ ip < 2 ^ 32 ∧ 0 ≤ port < 65536
  | BAddr_IPv6 ip port => length ip = 16%nat ∧ bytes ip ∧ 0 ≤ port < 65536
  | BAddr_Packet _ _ _ _ _ => False
  end.

(** The key an address is ordered by, compared lexicographically. *)
Definition addr_key (a : BAddr) : list Z :=
  BAddr_type a ::
  match a with
  | BAddr_IPv4 ip port => [ntoh32 ip; ntoh16 port]
  | BAddr_IPv6 ip port => ip ++ [ntoh16 port]
  | _ => []
  end.

Fixpoint lexcmp (p q : list Z) : Z :=
  match p, q with
  | x :: p, y :: q => if x =? y then lexcmp p q else B_COMPARE x y
  | _, _ => 0
  end.

Lemma lexcmp_antisym p q : lexcmp q p = - lexcmp p q.
Proof.
  revert q. induction p as [|x p IH]; intros [|y q]; cbn [lexcmp]; try done.
  rewrite (Z.eqb_sym y x). destruct (Z.eqb_spec x y) as [->|]; [apply IH|].
  pose proof (B_COMPARE_spec x y). pose proof (B_COMPARE_spec y x). lia.
Qed.

Lemma lexcmp_trans p q r : lexcmp p q < 0 → lexcmp q r < 0 → lexcmp p r < 0.
Proof.
  revert q r. induction p as [|x p IH]; intros [|y q] [|z r]; cbn [lexcmp]; try lia.
  pose proof (B_COMPARE_spec x y). pose proof (B_COMPARE_spec y z).
  pose proof (B_COMPARE_spec x z).
  destruct (Z.eqb_spec x y), (Z.eqb_spec y z), (Z.eqb_spec x z); try lia.
  apply IH.
Qed.

Lemma lexcmp_zero p q : length p = length q → lexcmp p q = 0 ↔ p = q.
Proof.
  revert q. induction p as [|x p IH]; intros [|y q] Hl; cbn [lexcmp]; try done.
  injection Hl as Hl. destruct (Z.eqb_spec x y) as [->|].
  - rewrite IH by done. naive_solver.
  - pose proof (B_COMPARE_spec x y). split; [lia|naive_solver].
Qed.

Lemma memcmp_lexcmp p q : B_COMPARE (memcmp p q) 0 = lexcmp p q.
Proof.
  revert q. induction p as [|x p IH]; intros [|y q]; cbn [memcmp lexcmp]; try done.
  destruct (Z.eqb_spec x y); [done|]. unfold B_COMPARE.
  destruct (Z.ltb_spec 0 (x - y)), (Z.ltb_spec (x - y) 0), (Z.ltb_spec y x), (Z.ltb_spec x y); lia.
Qed.

Lemma lexcmp_app p p' q q' :
  length p = length q →
  lexcmp (p ++ p') (q ++ q') = if lexcmp p q =? 0 then lexcmp p' q' else lexcmp p q.
Proof.
  revert q. induction p as [|x p IH]; intros [|y q] Hl; cbn [lexcmp app]; try done.
  injection Hl as Hl. destruct (Z.eqb_spec x y) as [->|]; [by apply IH|].
  pose proof (B_COMPARE_spec x y). destruct (Z.eqb_spec (B_COMPARE x y) 0); lia.
Qed.

Lemma CompareOrder_lexcmp a b :
  addr_wf a → addr_wf b → BAddr_CompareOrder a b = lexcmp (addr_key a) (addr_key b).
Proof.
  intros Ha Hb. unfold BAddr_CompareOrder, addr_key. cbn [lexcmp].
  pose proof (B_COMPARE_spec (BAddr_type a) (BAddr_type b)).
  destruct (Z.eqb_spec (BAddr_type a) (BAddr_type b)) as [He|Hne].
  2: { destruct (Z.eqb_spec (B_COMPARE (BAddr_type a) (BAddr_type b)) 0); [lia|done]. }
  destruct (Z.eqb_spec (B_COMPARE (BAddr_type a) (BAddr_type b)) 0); [|lia]. cbn [negb].
  destruct a as [|i1 p1|i1 p1|], b as [|i2 p2|i2 p2|]; try done; cbn [lexcmp].
  - pose proof (B_COMPARE_spec (ntoh32 i1) (ntoh32 i2)).
    pose proof (B_COMPARE_spec (ntoh16 p1) (ntoh16 p2)).
    destruct (Z.eqb_spec (ntoh32 i1) (ntoh32 i2)), (Z.eqb_spec (ntoh16 p1) (ntoh16 p2)),
      (Z.eqb_spec (B_COMPARE (ntoh32 i1) (ntoh32 i2)) 0); cbn [negb]; lia.
  - destruct Ha as (Hl1 & _), Hb as (Hl2 & _).
    rewrite lexcmp_app by congruence. cbn [lexcmp]. rewrite <- memcmp_lexcmp.
    pose proof (B_COMPARE_spec (memcmp i1 i2) 0).
    pose proof (B_COMPARE_spec (ntoh16 p1) (ntoh16 p2)).
    destruct (Z.eqb_spec (memcmp i1 i2) 0), (Z.eqb_spec (B_COMPARE (memcmp i1 i2) 0) 0),
      (Z.eqb_spec (ntoh16 p1) (ntoh16 p2)); cbn [negb]; lia.
Qed.

Lemma addr_key_inj a b : addr_wf a → addr_wf b → addr_key a = addr_key b → a = b.
Proof.
  destruct a as [|i1 p1|i1 p1|], b as [|i2 p2|i2 p2|]; try done.
  - intros [? ?] [? ?] Heq. injection Heq as Hi Hp. f_equal.
    + rewrite <- (ntoh32_hton32 i1), <- (ntoh32_hton32 i2) by done. unfold ntoh32 in *. congruence.
    + by apply hton16_inj.
  - intros (Hl1 & _ & ?) (Hl2 & _ & ?) Heq. injection Heq as Heq.
    apply app_inj_1 in Heq as [-> Heq]; [|congruence]. injection Heq as Heq.
    f_equal. by apply hton16_inj.
Qed.

Lemma CompareOrder_zero a b :
  addr_wf a → addr_wf b → BAddr_CompareOrder a b = 0 ↔ a = b.
Proof.
  intros Ha Hb. rewrite CompareOrder_lexcmp by done. destruct (decide (BAddr_type a = BAddr_type b)) as [Ht|Ht].
  - rewrite lexcmp_zero; [split; [by apply addr_key_inj|by intros ->]|].
    destruct a as [|i1 p1|i1 p1|], b as [|i2 p2|i2 p2|]; try done; try (by cbn in *).
    destruct Ha as (Hl1 & _), Hb as (Hl2 & _). cbn [addr_key length]. rewrite !length_app. congruence || (rewrite Hl1, Hl2; done).
  - split; [|by intros ->]. intros Hz. exfalso. unfold addr_key in Hz. cbn [lexcmp] in Hz.
    pose proof (B_COMPARE_spec (BAddr_type a) (BAddr_type b)).
    destruct (Z.eqb_spec (BAddr_type a) (BAddr_type b)); [done|]. lia.
Qed.

(** [BAddr_CompareOrder] is a strict total order on IP addresses: it
    returns 0 exactly for equal addresses, swapping the arguments negates the
    result, and it is transitive.  The search trees keyed by addresses rely on
    this. *)
Theorem BAddr_CompareOrder_total_order a b c :
  addr_wf a → addr_wf b → addr_wf c →
  (BAddr_CompareOrder a b = 0 ↔ a = b) ∧
  BAddr_CompareOrder b a = - BAddr_CompareOrder a b ∧
  (BAddr_CompareOrder a b < 0 → BAddr_CompareOrder b c < 0 → BAddr_CompareOrder a c < 0).
Proof.
  intros Ha Hb Hc. split; [by apply CompareOrder_zero|]. rewrite !CompareOrder_lexcmp by done.
  split; [apply lexcmp_antisym|apply lexcmp_trans].
Qed.

(** ** Printing and parsing *)

Lemma digit_not (c : ascii) (k : Z) :
  is_digit c = true → ∀ d, char_code d = k → k < 48 ∨ 57 < k → Ascii.eqb c d = false.
Proof.
  intros Hc d Hd Hk. apply Ascii.eqb_neq. intros ->. unfold is_digit in Hc. lia.
Qed.

Lemma ipv4_print_chars ip (c : ascii) :
  (char_code c < 48 ∨ 57 < char_code c) → Ascii.eqb "." c = false →
  str_all (λ d, Ascii.eqb d c = false) (BIPAddr_Print (BIPAddr_IPv4 ip)).
Proof.
  intros Hk Hdot. cbn [BIPAddr_Print le_bytes map join].
  assert (Hd : ∀ n, str_all (λ d, Ascii.eqb d c = false) (print_uint n)).
  { intros n. eapply str_all_mono; [|apply print_uint_digits].
    intros d Hd'. by eapply digit_not. }
  repeat apply str_all_app; auto; by split.
Qed.

Lemma zstrlen_app s t : zstrlen (String.append s t) = zstrlen s + zstrlen t.
Proof. unfold zstrlen. rewrite length_str_app. lia. Qed.

Lemma zstrlen_print_byte b : is_byte b → zstrlen (print_uint b) ≤ 3.
Proof.
  intros Hb. unfold zstrlen, is_byte in *.
  pose proof (length_print_uint b 2 ltac:(cbn; lia)). lia.
Qed.

Lemma ipv4_print_len ip : zstrlen (BIPAddr_Print (BIPAddr_IPv4 ip)) ≤ 15.
Proof.
  cbn [BIPAddr_Print le_bytes map join]. rewrite !zstrlen_app.
  change (zstrlen dot) with 1.
  pose proof (zstrlen_print_byte _ (is_byte_mod ip)).
  pose proof (zstrlen_print_byte _ (is_byte_mod (ip / 256))).
  pose proof (zstrlen_print_byte _ (is_byte_mod (ip / 256 / 256))).
  pose proof (zstrlen_print_byte _ (is_byte_mod (ip / 256 / 256 / 256))). lia.
Qed.

Lemma print_uint_cons n : ∃ c s, print_uint n = String c s ∧ is_digit c = true.
Proof.
  destruct (dec_digits_nonempty 9 n "") as (c & s & H).
  pose proof (print_uint_digits n) as Hd. unfold print_uint in *. rewrite H in *.
  destruct Hd. eauto.
Qed.

Lemma zstrlen_print_port port : 0 ≤ port < 65536 → 1 ≤ zstrlen (print_uint port) ≤ 5.
Proof.
  intros Hp. pose proof (length_print_uint port 4 ltac:(cbn; lia)).
  destruct (print_uint_cons port) as (c & s & Hs & _).
  unfold zstrlen. rewrite Hs in *. cbn in *. lia.
Qed.

Lemma print_parse_ipv4 `{Hr : Resolver} (Hok : ResolverOk) ip port noresolve :
  addr_wf (BAddr_IPv4 ip port) →
  ∃ s, BAddr_Print (BAddr_IPv4 ip port) = Some s ∧
       BAddr_Parse2 s noresolve = Some (BAddr_IPv4 ip port).
Proof.
  intros [Hip Hport]. eexists. split; [done|].
  pose proof (hton16_bound port) as Hb. fold (ntoh16 port) in Hb.
  set (ips := BIPAddr_Print (BIPAddr_IPv4 ip)). set (ps := print_uint (ntoh16 port)).
  pose proof (ipv4_print_len ip) as Hli. fold ips in Hli.
  pose proof (zstrlen_print_port _ Hb) as Hlp. fold ps in Hlp.
  assert (Hsplit : split_at ":" (String.append ips (String.append colon ps)) = Some (ips, ps)).
  { apply split_at_app. apply ipv4_print_chars; [right; reflexivity|done]. }
  assert (Hfirst : ∃ c s, ips = String c s ∧ Ascii.eqb c "[" = false).
  { unfold ips. cbn [BIPAddr_Print le_bytes map join].
    destruct (print_uint_cons (ip mod 256)) as (c & s & -> & Hc).
    rewrite str_app_cons. do 2 eexists. split; [done|]. eapply digit_not; [done..|]. right; reflexivity. }
  destruct Hfirst as (c & s & Hcs & Hc).
  unfold BAddr_Parse2. rewrite !zstrlen_app. change (zstrlen colon) with 1.
  pose proof (Nat2Z.is_nonneg (String.length ips)) as Hnn. fold (zstrlen ips) in Hnn.
  rewrite (proj2 (orb_false_iff _ _)) by lia.
  rewrite Hcs in *. rewrite str_app_cons in *. rewrite Hc, Hsplit. cbn [mbind option_bind].
  rewrite (proj2 (Z.leb_gt 128 _)), (proj2 (Z.leb_gt 6 _)) by lia.
  unfold ps in *. rewrite strtol10_print_uint by lia.
  rewrite (proj2 (Z.eqb_neq (zstrlen _) 0)) by lia. cbn [orb negb String.eqb].
  rewrite (proj2 (orb_false_iff _ _)) by (unfold UINT16_MAX; lia).
  rewrite <- Hcs. unfold ips. rewrite getaddrinfo4_numeric by done. cbn [mbind option_bind].
  rewrite u16_small by lia. change (hton16 (ntoh16 port)) with (ntoh16 (hton16 port)).
  by rewrite ntoh16_hton16.
Qed.

(** Parsing the printed form of an IPv4 address gives the address back,
    in the parser's resolving mode and in its numeric-only mode, given that
    the system resolves dotted decimal addresses to themselves. *)
Theorem BAddr_print_parse_ipv4 `{Hr : Resolver} (Hok : ResolverOk) ip port noresolve :
  addr_wf (BAddr_IPv4 ip port) →
  ∃ s, BAddr_Print (BAddr_IPv4 ip port) = Some s ∧
       BAddr_Parse2 s noresolve = Some (BAddr_IPv4 ip port).
Proof.
  intros. by apply print_parse_ipv4.
Qed.

(** A resolver that knows numeric IPv4 addresses only. *)
Definition numeric4 (s : string) : option Z :=
  '(a, r) ← split_at "." s;
  '(b, r) ← split_at "." r;
  '(c, d) ← split_at "." r;
  Some (le_val (map (λ x, fst (read_digits x 0)) [a; b; c; d])).

Definition numeric_resolver : Resolver := {|
  getaddrinfo4 := λ _ s, numeric4 s;
  getaddrinfo6 := λ _ _, None |}.

Lemma numeric_resolver_ok : @ResolverOk numeric_resolver.
Proof.
  constructor. intros num ip Hip. cbn [getaddrinfo4 numeric_resolver].
  assert (Hd : ∀ n t, split_at "." (String.append (print_uint n) (String.append dot t)) =
                      Some (print_uint n, t)).
  { intros n t. apply split_at_app. eapply str_all_mono; [|apply print_uint_digits].
    intros c Hc. eapply digit_not; [done..|]. left; reflexivity. }
  assert (Hv : ∀ n, fst (read_digits (print_uint (n mod 256)) 0) = n mod 256).
  { intros n. pose proof (Z.mod_pos_bound n 256).
    pose proof (read_print_uint (n mod 256) "" ltac:(lia) I) as Hrd.
    rewrite str_app_nil_r in Hrd. by rewrite Hrd. }
  unfold numeric4. cbn [BIPAddr_Print le_bytes map join].
  rewrite !Hd. cbn [mbind option_bind]. rewrite Hd. cbn [mbind option_bind].
  rewrite Hd. cbn [mbind option_bind map]. rewrite !Hv.
  f_equal. apply (le_val_le_bytes 4 ip). cbn. lia.
Qed.

Lemma BAddr_print_parse_ipv4_witness :
  ∃ s, BAddr_Print (BAddr_IPv4 16777226 13568) = Some s ∧
       @BAddr_Parse2 numeric_resolver s false = Some (BAddr_IPv4 16777226 13568).
Proof.
  apply (@BAddr_print_parse_ipv4 numeric_resolver numeric_resolver_ok).
  split; split; reflexivity || discriminate.
Defined.

Lemma BAddr_CompareOrder_total_order_witness :
  BAddr_CompareOrder (BAddr_IPv4 1 2) (BAddr_IPv4 1 2) = 0 ∧
  BAddr_CompareOrder (BAddr_IPv4 1 3) (BAddr_IPv4 1 2) =
    - BAddr_CompareOrder (BAddr_IPv4 1 2) (BAddr_IPv4 1 3).
Proof.
  destruct (BAddr_CompareOrder_total_order (BAddr_IPv4 1 2) (BAddr_IPv4 1 3) BAddr_None)
    as (_ & Hs & _); [cbn; lia..|].
  destruct (BAddr_CompareOrder_total_order (BAddr_IPv4 1 2) (BAddr_IPv4 1 2) BAddr_None)
    as ([_ He] & _); [cbn; lia..|].
  split; [by apply He|exact Hs].
Defined.
