(* ===== verification/CString.v ===== *)
(** * CString: strings in pieces (misc/cstring.h)

    A [b_cstring] is a length and a callback that returns a continuous region of
    the string starting at an offset; the region may be shorter than the rest of
    the string, or span past its end.  The operations walk over the regions of a
    range ([B_CSTRING_LOOP_RANGE]) and over its bytes ([B_CSTRING_LOOP_CHARS_RANGE]);
    they are shown to compute what they should from the bytes of the string, however
    it is cut into regions, with one exception: the loop over bytes counts in a
    [char].  [None]: a failed assertion, an access outside a region, or a loop that
    does not end. *)
From S2P Require Import Prelude Bytes Addr.

(** Whether [char] is signed, which the target decides. *)
Class CharSign := char_signed : bool.

(** Conversion to [char]. *)
Definition to_char `{CharSign} (x : Z) : Z :=
  if char_signed then (x + 128) mod 256 - 128 else x mod 256.

(** Conversion to [size_t] of 32 bits. *)
Definition to_size (x : Z) : Z := x mod 2 ^ 32.

Record b_cstring := mk_cstring { c_length : Z; c_func : Z → list Z }.

Section cstring.
Context `{Build}.

(** [b_cstring__buf_func] is the function of the string made from a buffer. *)
Definition b_cstring_make_buf (data : list Z) : b_cstring := mk_cstring (zlen data) (λ offset, zdrop offset data).

(** Its function is never called. *)
Definition b_cstring_make_empty : b_cstring := mk_cstring 0 (λ _, []).

Definition b_cstring_get (cstr : b_cstring) (offset maxlen : Z) : option (list Z) :=
  assert (offset <? c_length cstr);;
  assert (0 <? maxlen);;
  let data := c_func cstr offset in
  assert (0 <? zlen data);;
  Some (if maxlen <? zlen data then ztake maxlen data else data).

Definition b_cstring_at (cstr : b_cstring) (pos : Z) : option Z :=
  assert (pos <? c_length cstr);;
  let data := c_func cstr pos in
  assert (0 <? zlen data);;
  head data.

Definition b_cstring_assert_range (cstr : b_cstring) (offset length : Z) : option unit :=
  assert (offset <=? c_length cstr);;
  assert (length <=? c_length cstr - offset).

(** [B_CSTRING_LOOP_RANGE]: the body gets the position and the region, and returns
    from the function ([inl]) or goes on with its variables. *)
Fixpoint loop_range {A R} (fuel : nat) (cstr : b_cstring) (offset length rel_pos : Z)
    (body : Z → list Z → A → option (R + A)) (acc : A) : option (R + A) :=
  if rel_pos <? length then
    match fuel with
    | O => None
    | S fuel =>
        chunk ← b_cstring_get cstr (offset + rel_pos) (length - rel_pos);
        r ← body rel_pos chunk acc;
        match r with
        | inl x => Some (inl x)
        | inr acc => loop_range fuel cstr offset length (rel_pos + zlen chunk) body acc
        end
    end
  else Some (inr acc).

Definition B_CSTRING_LOOP_RANGE {A R} (cstr : b_cstring) (offset length : Z)
    (body : Z → list Z → A → option (R + A)) (acc : A) : option (R + A) :=
  loop_range (Z.to_nat length) cstr offset length 0 body acc.

(** A body run on the bytes of a region in turn. *)
Fixpoint each {A R} (step : Z → Z → A → R + A) (pos : Z) (l : list Z) (acc : A) : R + A :=
  match l with
  | [] => inr acc
  | x :: l => match step pos x acc with inl r => inl r | inr acc => each step (pos + 1) l acc end
  end.

(** [B_CSTRING_LOOP_CHARS_RANGE]: the position of the byte is a [char]. *)
Definition B_CSTRING_LOOP_CHARS_RANGE `{CharSign} {A R} (cstr : b_cstring) (offset length : Z)
    (body : Z → Z → A → R + A) (acc : A) : option (R + A) :=
  B_CSTRING_LOOP_RANGE cstr offset length
    (λ pos chunk acc, Some (each (λ p ch acc, body (to_char p) ch acc) pos chunk acc)) acc.

(** ** Operations *)

Definition b_cstring_copy_to_buf (cstr : b_cstring) (offset length : Z) (dest : list Z) : option (list Z) :=
  b_cstring_assert_range cstr offset length;;
  r ← B_CSTRING_LOOP_RANGE (R := Empty_set) cstr offset length
    (λ pos chunk dest, if pos + zlen chunk <=? zlen dest then Some (inr (zwrite pos chunk dest)) else None) dest;
  match r with inr dest => Some dest | inl f => Empty_set_rect _ f end.

(** [memcmp(p, q, n)], with [n] bytes in both. *)
Definition memcmp_n (p q : list Z) (n : Z) : option Z :=
  if (n <=? zlen p) && (n <=? zlen q) then Some (memcmp (ztake n p) (ztake n q)) else None.

Definition b_cstring_memcmp (cstr1 cstr2 : b_cstring) (offset1 offset2 length : Z) : option Z :=
  b_cstring_assert_range cstr1 offset1 length;;
  b_cstring_assert_range cstr2 offset2 length;;
  r ← B_CSTRING_LOOP_RANGE cstr1 offset1 length
    (λ pos1 chunk_data1 _,
       r ← B_CSTRING_LOOP_RANGE cstr2 (offset2 + pos1) (zlen chunk_data1)
         (λ pos2 chunk_data2 _,
            cmp ← memcmp_n (zdrop pos2 chunk_data1) chunk_data2 (zlen chunk_data2);
            Some (if cmp =? 0 then inr tt else inl cmp)) tt;
       Some (match r with inl cmp => inl cmp | inr _ => inr tt end)) tt;
  Some (match r with inl cmp => cmp | inr _ => 0 end).

Definition b_cstring_equals_buffer (cstr : b_cstring) (offset length : Z) (data : list Z) : option bool :=
  b_cstring_assert_range cstr offset length;;
  r ← B_CSTRING_LOOP_RANGE cstr offset length
    (λ pos chunk_data _,
       cmp ← memcmp_n chunk_data (zdrop pos data) (zlen chunk_data);
       Some (if cmp =? 0 then inr tt else inl false)) tt;
  Some (match r with inl b => b | inr _ => true end).

(** The result and [*out_pos]. *)
Definition b_cstring_memchr `{CharSign} (cstr : b_cstring) (offset length ch : Z) : option (option Z) :=
  b_cstring_assert_range cstr offset length;;
  r ← B_CSTRING_LOOP_CHARS_RANGE cstr offset length
    (λ cur_ch_pos cur_ch _, if cur_ch =? ch then inl (Some (to_size cur_ch_pos)) else inr tt) tt;
  Some (match r with inl p => p | inr _ => None end).

(** [alloc]: whether [BAlloc] finds memory of a size; the new buffer holds
    anything. *)
Definition b_cstring_strdup (alloc : Z → option (list Z)) (cstr : b_cstring) (offset length : Z) : option (option (list Z)) :=
  b_cstring_assert_range cstr offset length;;
  if length =? SIZE_MAX then Some None
  else
    match alloc (length + 1) with
    | None => Some None
    | Some buf => buf ← b_cstring_copy_to_buf cstr offset length buf; Some (Some (zwrite length [0] buf))
    end.

(** ** Strings and their bytes *)

(** The contract of a [b_cstring_func]: at every offset a non-empty region of the
    string [s], possibly spanning past its end. *)
Definition holds (cstr : b_cstring) (s : list Z) : Prop :=
  c_length cstr = zlen s ∧
  ∀ offset, 0 ≤ offset < zlen s → c_func cstr offset ≠ [] ∧
    ztake (zlen s - offset) (c_func cstr offset) `prefix_of` zdrop offset s.

Lemma make_buf_holds data : holds (b_cstring_make_buf data) data.
Proof.
  split; [done|]. intros offset Ho. cbn. split.
  - intros Hz. pose proof (zlen_zdrop offset data ltac:(lia)) as Hl. rewrite Hz in Hl. cbn in Hl. lia.
  - rewrite ztake_all by (rewrite zlen_zdrop; lia). done.
Qed.

Lemma make_empty_holds : holds b_cstring_make_empty [].
Proof. split; [done|]. cbn. lia. Qed.

(** The bytes of a range. *)
Definition range (s : list Z) (offset length : Z) : list Z := ztake length (zdrop offset s).

Definition in_range (s : list Z) (offset length : Z) : Prop := 0 ≤ offset ∧ 0 ≤ length ∧ offset + length ≤ zlen s.

Lemma zlen_range s offset length : in_range s offset length → zlen (range s offset length) = length.
Proof. intros (? & ? & ?). unfold range. rewrite zlen_ztake; [done|]. rewrite zlen_zdrop by lia. lia. Qed.

Lemma get_holds cstr s offset maxlen :
  holds cstr s → 0 ≤ offset → 0 < maxlen → offset + maxlen ≤ zlen s →
  ∃ n, b_cstring_get cstr offset maxlen = Some (range s offset n) ∧ 0 < n ≤ maxlen.
Proof.
  intros [Hl Hf] Ho Hm Hb. destruct (Hf offset) as [Hne Hp]; [lia|]. unfold b_cstring_get.
  rewrite Hl, !assert_true by (apply Z.ltb_lt; lia || (destruct (c_func cstr offset); [done|cbn; lia])).
  set (d := c_func cstr offset) in *. assert (0 < zlen d) as Hd by (destruct d; [done|cbn; lia]).
  exists (Z.min maxlen (zlen d)). split; [|lia]. cbn. f_equal. unfold range.
  destruct Hp as [k Hk]. rewrite Hk. unfold ztake in *.
  destruct (Z.ltb_spec maxlen (zlen d)).
  - rewrite take_app_le by (rewrite length_take; lia). rewrite take_take. f_equal. lia.
  - rewrite take_app_le by (rewrite length_take; lia). rewrite take_take, take_ge by lia. done.
Qed.

Lemma assert_range_holds cstr s offset length :
  holds cstr s → in_range s offset length → b_cstring_assert_range cstr offset length = Some tt.
Proof.
  intros [Hl _] (? & ? & ?). unfold b_cstring_assert_range. rewrite Hl, !assert_true by (apply Z.leb_le; lia). done.
Qed.

Lemma range_split s offset n m : 0 ≤ offset → 0 ≤ n → 0 ≤ m →
  range s offset (n + m) = range s offset n ++ range s (offset + n) m.
Proof.
  intros. unfold range, ztake, zdrop. rewrite !Z2Nat.inj_add by lia.
  rewrite <- drop_drop, <- take_take_drop. done.
Qed.

Lemma range_nil s offset : range s offset 0 = [].
Proof. done. Qed.

Lemma zdrop_range s offset n k : 0 ≤ offset → 0 ≤ k ≤ n → zdrop k (range s offset n) = range s (offset + k) (n - k).
Proof.
  intros. unfold range, ztake, zdrop. rewrite skipn_firstn_comm, drop_drop. f_equal; [lia|f_equal; lia].
Qed.

Lemma ztake_range s offset n k : 0 ≤ k ≤ n → ztake k (range s offset n) = range s offset k.
Proof. intros. unfold range, ztake. rewrite take_take. f_equal. lia. Qed.

(** The rule of the loop over regions: [P] holds at the start of each turn with the
    position, [Q] of what is returned from inside. *)
Lemma loop_range_rule {A R} cstr s offset length (body : Z → list Z → A → option (R + A)) (P : Z → A → Prop) (Q : R → Prop) :
  holds cstr s → in_range s offset length →
  (∀ pos n acc, 0 ≤ pos → 0 < n → pos + n ≤ length → P pos acc →
     ∃ r, body pos (range s (offset + pos) n) acc = Some r ∧ match r with inl x => Q x | inr acc => P (pos + n) acc end) →
  ∀ acc, P 0 acc →
  ∃ r, B_CSTRING_LOOP_RANGE cstr offset length body acc = Some r ∧ match r with inl x => Q x | inr acc => P length acc end.
Proof.
  intros Hc (Ho & Hn & Hb) Hbody.
  assert (∀ fuel pos acc, 0 ≤ pos ≤ length → length - pos ≤ Z.of_nat fuel → P pos acc →
    ∃ r, loop_range fuel cstr offset length pos body acc = Some r ∧ match r with inl x => Q x | inr acc => P length acc end) as Hloop.
  { induction fuel as [|fuel IH]; intros pos acc Hp Hf HP; cbn [loop_range]; destruct (Z.ltb_spec pos length); try lia;
      try (assert (pos = length) as <- by lia; by eexists).
    destruct (get_holds cstr s (offset + pos) (length - pos)) as (n & -> & Hn'); [done|lia..|].
    cbn [mbind option_bind]. destruct (Hbody pos n acc) as (r & -> & Hr); [lia..|done|]. cbn [mbind option_bind].
    destruct r as [x|acc']; [by eexists|]. rewrite zlen_range by (unfold in_range; lia). apply IH; [lia..|done]. }
  intros acc. unfold B_CSTRING_LOOP_RANGE. apply Hloop; lia.
Qed.

(** ** What the operations compute *)

(** Apply the rule to the loop of the goal, with invariant [P] and result [Q]. *)
Ltac loop_rule P Q :=
  match goal with
  | Hc : holds ?c ?s, Hr : in_range ?s ?o ?l |- context [B_CSTRING_LOOP_RANGE ?c ?o ?l ?b ?a] =>
      destruct (loop_range_rule c s o l b P Q Hc Hr) with (acc := a) as (r & -> & Hres)
  end.

Lemma at_range cstr s pos : holds cstr s → 0 ≤ pos < zlen s → b_cstring_at cstr pos = s !! Z.to_nat pos.
Proof.
  intros [Hl Hf] Hp. destruct (Hf pos Hp) as [Hne [k Hk]]. unfold b_cstring_at.
  rewrite Hl, !assert_true by (apply Z.ltb_lt; lia || (destruct (c_func cstr pos); [done|cbn; lia])). cbn.
  destruct (c_func cstr pos) as [|x d]; [done|]. cbn. unfold zdrop, ztake in Hk.
  rewrite <- (Nat.add_0_r (Z.to_nat pos)), <- lookup_drop, Hk.
  destruct (Z.to_nat (zlen s - pos)) eqn:He; [lia|]. done.
Qed.

Lemma copy_to_buf_range cstr s offset length dest :
  holds cstr s → in_range s offset length → length ≤ zlen dest →
  b_cstring_copy_to_buf cstr offset length dest = Some (range s offset length ++ zdrop length dest).
Proof.
  intros Hc Hr Hd. pose proof Hr as (Ho & Hn & Hb). unfold b_cstring_copy_to_buf.
  rewrite (assert_range_holds _ s) by done. cbn [mbind option_bind].
  loop_rule (λ pos d, d = range s offset pos ++ zdrop pos dest) (λ _ : Empty_set, False); [|by rewrite range_nil, zdrop_0|].
  - intros pos n acc Hp Hn' Hle ->. eexists (inr _). rewrite zlen_range by (unfold in_range; lia).
    rewrite zlen_app, zlen_range, zlen_zdrop by (unfold in_range; lia). rewrite (proj2 (Z.leb_le _ _)) by lia. split; [done|].
    rewrite zwrite_app by (apply zlen_range; unfold in_range; lia). rewrite zlen_range by (unfold in_range; lia).
    rewrite range_split, zdrop_zdrop by lia. by rewrite <- app_assoc.
  - destruct r as [[]|d]; by subst.
Qed.

Lemma strdup_range alloc cstr s offset length :
  holds cstr s → in_range s offset length → (∀ n buf, alloc n = Some buf → zlen buf = n) →
  b_cstring_strdup alloc cstr offset length =
  Some (if length =? SIZE_MAX then None
        else match alloc (length + 1) with None => None | Some _ => Some (range s offset length ++ [0]) end).
Proof.
  intros Hc Hr Ha. unfold b_cstring_strdup. rewrite (assert_range_holds _ s) by done. cbn [mbind option_bind].
  destruct (length =? SIZE_MAX); [done|]. destruct (alloc (length + 1)) as [buf|] eqn:Hal; [|done].
  apply Ha in Hal. pose proof Hr as (? & ? & ?). rewrite (copy_to_buf_range _ s) by (done || lia). cbn [mbind option_bind].
  rewrite zwrite_app by (by apply zlen_range). rewrite zdrop_past by (rewrite zlen_zdrop; cbn; lia). done.
Qed.

Lemma memcmp_app p1 p2 q1 q2 : length p1 = length q1 →
  memcmp (p1 ++ p2) (q1 ++ q2) = if memcmp p1 q1 =? 0 then memcmp p2 q2 else memcmp p1 q1.
Proof.
  revert q1. induction p1 as [|x p1 IH]; intros [|y q1] Hl; try done. cbn [memcmp app].
  injection Hl as Hl. destruct (Z.eqb_spec x y); [by apply IH|]. by destruct (Z.eqb_spec (x - y) 0); [lia|].
Qed.

Lemma memcmp_eq p q : length p = length q → memcmp p q = 0 ↔ p = q.
Proof.
  revert q. induction p as [|x p IH]; intros [|y q] Hl; try done. cbn [memcmp]. injection Hl as Hl.
  destruct (Z.eqb_spec x y) as [->|]; [rewrite (IH q Hl); naive_solver|]. split; [lia|congruence].
Qed.

Lemma memcmp_range s1 s2 o1 o2 n m :
  in_range s1 o1 (n + m) → in_range s2 o2 (n + m) → 0 ≤ n → 0 ≤ m →
  memcmp (range s1 o1 (n + m)) (range s2 o2 (n + m)) =
  if memcmp (range s1 o1 n) (range s2 o2 n) =? 0 then memcmp (range s1 (o1 + n) m) (range s2 (o2 + n) m)
  else memcmp (range s1 o1 n) (range s2 o2 n).
Proof.
  unfold in_range. intros. rewrite !range_split by lia. apply memcmp_app. apply Nat2Z.inj. by rewrite !zlen_range by (unfold in_range; lia).
Qed.

(** The inner loop of the comparison, for the region of the first string at [pos1]
    of [n1] bytes. *)
Lemma memcmp_inner cstr2 s1 s2 o1 o2 n1 :
  holds cstr2 s2 → in_range s1 o1 n1 → in_range s2 o2 n1 →
  ∃ r, B_CSTRING_LOOP_RANGE cstr2 o2 n1
    (λ pos2 chunk_data2 _,
       cmp ← memcmp_n (zdrop pos2 (range s1 o1 n1)) chunk_data2 (zlen chunk_data2);
       Some (if cmp =? 0 then inr tt else inl cmp)) tt = Some r ∧
    memcmp (range s1 o1 n1) (range s2 o2 n1) = match r with inl cmp => cmp | inr _ => 0 end ∧
    (∀ cmp, r = inl cmp → cmp ≠ 0).
Proof.
  intros Hc Hr1 Hr2. pose proof Hr1 as (? & ? & ?). pose proof Hr2 as (? & ? & ?).
  loop_rule (λ pos (_ : unit), memcmp (range s1 o1 pos) (range s2 o2 pos) = 0)
    (λ cmp, cmp ≠ 0 ∧ memcmp (range s1 o1 n1) (range s2 o2 n1) = cmp).
  - intros pos n [] Hp Hn Hle HP. unfold memcmp_n. rewrite zdrop_range, !zlen_range by (unfold in_range; lia).
    rewrite (proj2 (Z.leb_le n (n1 - pos))), (proj2 (Z.leb_le n n)) by lia. cbn [andb mbind option_bind].
    rewrite ztake_range, (ztake_range _ _ n) by lia. eexists. split; [done|].
    set (c := memcmp (range s1 (o1 + pos) n) (range s2 (o2 + pos) n)).
    assert (memcmp (range s1 o1 (pos + n)) (range s2 o2 (pos + n)) = c) as Hpn.
    { rewrite memcmp_range by (unfold in_range; lia). by rewrite HP. }
    destruct (Z.eqb_spec c 0) as [Hz|Hz]; [by rewrite Hpn|]. split; [done|].
    replace n1 with (pos + n + (n1 - (pos + n))) by lia. rewrite memcmp_range by (unfold in_range; lia).
    rewrite Hpn. by destruct (Z.eqb_spec c 0).
  - done.
  - exists r. split; [done|]. destruct r as [c|[]]; naive_solver.
Qed.

Lemma cstring_memcmp_range cstr1 cstr2 s1 s2 o1 o2 length :
  holds cstr1 s1 → holds cstr2 s2 → in_range s1 o1 length → in_range s2 o2 length →
  b_cstring_memcmp cstr1 cstr2 o1 o2 length = Some (memcmp (range s1 o1 length) (range s2 o2 length)).
Proof.
  intros Hc1 Hc2 Hr1 Hr2. unfold b_cstring_memcmp.
  rewrite (assert_range_holds cstr1 s1), (assert_range_holds cstr2 s2) by done. cbn [mbind option_bind].
  pose proof Hr1 as (? & ? & ?). pose proof Hr2 as (? & ? & ?).
  loop_rule (λ pos (_ : unit), memcmp (range s1 o1 pos) (range s2 o2 pos) = 0)
    (λ cmp, memcmp (range s1 o1 length) (range s2 o2 length) = cmp).
  - intros pos n [] Hp Hn Hle HP. rewrite zlen_range by (unfold in_range; lia).
    destruct (memcmp_inner cstr2 s1 s2 (o1 + pos) (o2 + pos) n) as (r & -> & Hr & Hne); [done|unfold in_range; lia..|].
    cbn [mbind option_bind]. eexists. split; [done|].
    assert (memcmp (range s1 o1 (pos + n)) (range s2 o2 (pos + n)) = match r with inl cmp => cmp | inr _ => 0 end) as Hpn.
    { rewrite memcmp_range by (unfold in_range; lia). by rewrite HP. }
    destruct r as [c|[]]; [|done]. replace length with (pos + n + (length - (pos + n))) by lia.
    rewrite memcmp_range by (unfold in_range; lia). rewrite Hpn. destruct (Z.eqb_spec c 0); [|done]. by destruct (Hne c).
  - done.
  - cbn [mbind option_bind]. destruct r as [c|[]]; by rewrite Hres.
Qed.

Lemma equals_buffer_range cstr s offset length data :
  holds cstr s → in_range s offset length → length ≤ zlen data →
  b_cstring_equals_buffer cstr offset length data = Some (bool_decide (range s offset length = ztake length data)).
Proof.
  intros Hc Hr Hd. unfold b_cstring_equals_buffer.
  rewrite (assert_range_holds _ s) by done. cbn [mbind option_bind]. pose proof Hr as (? & ? & ?).
  loop_rule (λ pos (_ : unit), range s offset pos = ztake pos data) (λ b, b = false ∧ range s offset length ≠ ztake length data).
  - intros pos n [] Hp Hn Hle HP. unfold memcmp_n. rewrite zlen_zdrop, !zlen_range by (unfold in_range; lia).
    rewrite (proj2 (Z.leb_le n (zlen data - pos))), (proj2 (Z.leb_le n n)) by lia. cbn [andb mbind option_bind].
    rewrite ztake_range by lia. eexists. split; [done|]. fold (range data pos n).
    assert (∀ k, ztake k data = range data 0 k) as Ht by done.
    pose proof (memcmp_eq (range s (offset + pos) n) (range data pos n)
      ltac:(apply Nat2Z.inj; by rewrite !zlen_range by (unfold in_range; lia))) as Heq.
    destruct (Z.eqb_spec (memcmp (range s (offset + pos) n) (range data pos n)) 0) as [Hz|Hz].
    + rewrite Ht, !range_split, HP by lia. by rewrite (proj1 Heq Hz).
    + split; [done|]. intros Hall. apply Hz, Heq.
      apply (f_equal (zdrop pos)) in Hall. apply (f_equal (ztake n)) in Hall.
      by rewrite Ht, !zdrop_range, !ztake_range in Hall by lia.
  - done.
  - cbn [mbind option_bind]. destruct r as [b|[]]; [destruct Hres as [-> Hres]; by rewrite bool_decide_false|by rewrite bool_decide_true].
Qed.

(** The index of the first byte [ch]. *)
Definition find_byte (ch : Z) (l : list Z) : option Z := Z.of_nat ∘ fst <$> list_find (λ x, x = ch) l.

Lemma find_byte_cons ch x l : find_byte ch (x :: l) = if decide (x = ch) then Some 0 else Z.succ <$> find_byte ch l.
Proof.
  unfold find_byte. cbn [list_find]. destruct (decide (x = ch)); [done|].
  destruct (list_find (λ x, x = ch) l) as [[i y]|]; cbn; [|done]. f_equal. lia.
Qed.

Lemma find_byte_app ch l1 l2 :
  find_byte ch (l1 ++ l2) = match find_byte ch l1 with Some i => Some i | None => Z.add (zlen l1) <$> find_byte ch l2 end.
Proof.
  induction l1 as [|x l1 IH]; cbn [app].
  { change (find_byte ch []) with (@None Z). by destruct (find_byte ch l2). }
  rewrite !find_byte_cons. destruct (decide (x = ch)); [done|]. rewrite IH.
  destruct (find_byte ch l1); [done|]. destruct (find_byte ch l2); cbn; [|done]. f_equal. lia.
Qed.

Lemma find_byte_spec ch l i : find_byte ch l = Some i ↔
  0 ≤ i ∧ l !! Z.to_nat i = Some ch ∧ ∀ j y, 0 ≤ j < i → l !! Z.to_nat j = Some y → y ≠ ch.
Proof.
  unfold find_byte. rewrite fmap_Some. split.
  - intros ([k y] & Hf & ->). apply list_find_Some in Hf as (Hk & -> & Hlt). cbn. rewrite Nat2Z.id. split_and!; [lia|done|].
    intros j y Hj Hy. by eapply (Hlt (Z.to_nat j)); [done|lia].
  - intros (Hi & Hch & Hlt). exists (Z.to_nat i, ch). split; [|cbn; lia]. apply list_find_Some. split_and!; [done..|].
    intros j y Hy Hj. apply (Hlt (Z.of_nat j)); [lia|by rewrite Nat2Z.id].
Qed.

Lemma find_byte_None ch l : find_byte ch l = None ↔ ch ∉ l.
Proof. unfold find_byte. rewrite fmap_None, list_find_None, Forall_forall. naive_solver. Qed.

Lemma each_find {B} (f : Z → B) ch pos l :
  each (λ p c (_ : unit), if c =? ch then inl (f p) else inr tt) pos l tt =
  match find_byte ch l with Some i => inl (f (pos + i)) | None => inr tt end.
Proof.
  revert pos. induction l as [|x l IH]; intros pos; cbn [each]; [done|]. rewrite find_byte_cons.
  destruct (Z.eqb_spec x ch), (decide (x = ch)); try done; [by rewrite Z.add_0_r|]. rewrite IH.
  destruct (find_byte ch l); cbn; [|done]. do 2 f_equal. lia.
Qed.

Lemma memchr_range `{CharSign} cstr s offset length ch :
  holds cstr s → in_range s offset length →
  b_cstring_memchr cstr offset length ch = Some (to_size ∘ to_char <$> find_byte ch (range s offset length)).
Proof.
  intros Hc Hr. unfold b_cstring_memchr, B_CSTRING_LOOP_CHARS_RANGE.
  rewrite (assert_range_holds _ s) by done. cbn [mbind option_bind]. pose proof Hr as (? & ? & ?).
  loop_rule (λ pos (_ : unit), find_byte ch (range s offset pos) = None)
    (λ out, is_Some (find_byte ch (range s offset length)) ∧ out = to_size ∘ to_char <$> find_byte ch (range s offset length)).
  - intros pos n [] Hp Hn Hle HP. eexists. split; [done|].
    rewrite (each_find (λ p, Some (to_size (to_char p)))).
    assert (find_byte ch (range s offset (pos + n)) = Z.add pos <$> find_byte ch (range s (offset + pos) n)) as Hf.
    { rewrite range_split, find_byte_app, HP, zlen_range by (unfold in_range; lia). done. }
    destruct (find_byte ch (range s (offset + pos) n)) as [i|]; [|done].
    replace length with (pos + n + (length - (pos + n))) by lia.
    rewrite range_split, find_byte_app, Hf by lia. by split.
  - done.
  - cbn [mbind option_bind]. destruct r as [out|[]]; [by destruct Hres as [_ ->]|by rewrite Hres].
Qed.

Lemma to_char_small `{CharSign} i : 0 ≤ i < 128 → to_size (to_char i) = i.
Proof.
  intros. unfold to_size, to_char. destruct char_signed.
  - rewrite (Z.mod_small (i + 128)), Z.mod_small by lia. lia.
  - rewrite (Z.mod_small i 256), Z.mod_small by lia. done.
Qed.

Lemma to_char_large `{CharSign} i : 256 ≤ i < 2 ^ 31 → to_size (to_char i) ≠ i.
Proof.
  intros Hi. unfold to_size, to_char. destruct char_signed; [|rewrite Z.mod_small; pose proof (Z.mod_pos_bound i 256); lia].
  pose proof (Z.mod_pos_bound (i + 128) 256 ltac:(lia)). set (x := (i + 128) mod 256) in *.
  destruct (decide (0 ≤ x - 128)); [rewrite Z.mod_small; lia|].
  replace (x - 128) with (x - 128 + 2 ^ 32 + (-1) * 2 ^ 32) by lia. rewrite Z_mod_plus_full, Z.mod_small; lia.
Qed.

(** The operations of misc/cstring.h compute, however the string is cut into
    regions, what they should from its bytes [s]: the byte at a position, the copy
    of a range, the comparison of two ranges and of a range with a buffer, the
    duplicate of a range with a null byte (or none when memory or [size_t] does not
    allow it), and whether a byte is in a range; no assertion fails and the loops
    end.  The position [b_cstring_memchr] gives is the index of the first matching
    byte for an index below 128, and never for one of 256 or more: it is counted in
    a [char]. *)
Theorem cstring_operations `{CharSign} cstr s offset length :
  holds cstr s → in_range s offset length →
  (∀ pos, 0 ≤ pos < zlen s → b_cstring_at cstr pos = s !! Z.to_nat pos) ∧
  (∀ dest, length ≤ zlen dest →
     b_cstring_copy_to_buf cstr offset length dest = Some (range s offset length ++ zdrop length dest)) ∧
  (∀ cstr2 s2 offset2, holds cstr2 s2 → in_range s2 offset2 length →
     b_cstring_memcmp cstr cstr2 offset offset2 length = Some (memcmp (range s offset length) (range s2 offset2 length))) ∧
  (∀ data, length ≤ zlen data →
     b_cstring_equals_buffer cstr offset length data = Some (bool_decide (range s offset length = ztake length data))) ∧
  (∀ alloc, (∀ n buf, alloc n = Some buf → zlen buf = n) →
     b_cstring_strdup alloc cstr offset length =
     Some (if length =? SIZE_MAX then None
           else match alloc (length + 1) with None => None | Some _ => Some (range s offset length ++ [0]) end)) ∧
  (∀ ch, ∃ out, b_cstring_memchr cstr offset length ch = Some out ∧
     (out = None ↔ ch ∉ range s offset length) ∧
     ∀ i, 0 ≤ i → range s offset length !! Z.to_nat i = Some ch →
       (∀ j y, 0 ≤ j < i → range s offset length !! Z.to_nat j = Some y → y ≠ ch) →
       (i < 128 → out = Some i) ∧ (256 ≤ i < 2 ^ 31 → out ≠ Some i)).
Proof.
  intros Hc Hr. split_and!; eauto using at_range, copy_to_buf_range, cstring_memcmp_range, equals_buffer_range, strdup_range.
  intros ch. eexists. split; [by apply memchr_range|]. split.
  - by rewrite fmap_None, find_byte_None.
  - intros i Hi Hat Hj. assert (find_byte ch (range s offset length) = Some i) as -> by by apply find_byte_spec.
    cbn. split; intros Hb; [by rewrite to_char_small by lia|]. intros [= Heq]. by apply (to_char_large i).
Qed.
End cstring.

(** A string of 300 bytes whose function returns at most 7 bytes at a time, as the
    last one is looked for. *)
Definition pieces (s : list Z) : b_cstring := mk_cstring (zlen s) (λ offset, ztake 7 (zdrop offset s)).

Section example.
#[local] Instance build : Build := false.
#[local] Instance sign : CharSign := false.

Definition haystack : list Z := replicate 299 65 ++ [66].

Lemma pieces_holds s : holds (pieces s) s.
Proof.
  split; [done|]. intros offset Ho. cbn. split.
  - intros Hz. apply (f_equal length) in Hz. unfold ztake, zdrop in Hz. rewrite length_take, length_drop in Hz. cbn in Hz. lia.
  - unfold ztake at 1. rewrite take_ge; [|unfold ztake, zdrop; rewrite length_take, length_drop; lia]. apply prefix_take.
Qed.

Lemma memchr_computed : b_cstring_memchr (pieces haystack) 0 300 66 = Some (Some 43).
Proof. vm_compute. reflexivity. Qed.

Lemma cstring_operations_witness :
  b_cstring_copy_to_buf (pieces haystack) 290 10 (replicate 10 0) = Some (replicate 9 65 ++ [66]) ∧
  b_cstring_equals_buffer (pieces haystack) 290 10 (replicate 10 65) = Some false.
Proof.
  destruct (cstring_operations (pieces haystack) haystack 290 10 (pieces_holds _) ltac:(vm_compute; naive_solver)) as (_ & Hcopy & _ & Heq & _).
  split; [rewrite Hcopy|rewrite Heq]; try (vm_compute; reflexivity); vm_compute; discriminate.
Defined.
End example.
