(* ===== verification/Numbers.v ===== *)
(** * Numbers: numbers in text (misc/parse_number.h)

    Unsigned numbers of 64 bits are read from decimal or hexadecimal text, given as
    a buffer or as a string in pieces ([b_cstring]), with an optional sign, and
    written in decimal.  Characters are their codes; comparisons of a [char] with a
    digit do not depend on its sign.  A parser returns [None] where the code returns
    0; in an [option] around that, [None] is a failed assertion or an access outside
    a buffer. *)
From Stdlib Require Import Ascii String.
From S2P Require Import Prelude Bytes Text Addr CString.

Definition UINTMAX_MAX : Z := UINT64_MAX.

(** The codes of the characters of a literal. *)
Definition text (s : string) : list Z := map char_code (list_ascii_of_string s).

Definition parse_number__uintmax_max_str : list Z := text "18446744073709551615".

(** ** Parsing *)

Definition decode_decimal_digit (x : Z) : Z := if (48 <=? x) && (x <=? 57) then x - 48 else -1.

Definition decode_hex_digit (x : Z) : Z :=
  if (48 <=? x) && (x <=? 57) then x - 48
  else if (65 <=? x) && (x <=? 70) then x - 55
  else if (97 <=? x) && (x <=? 102) then x - 87
  else -1.

Fixpoint no_overflow_loop (str : list Z) (n : Z) : option Z :=
  match str with
  | [] => Some n
  | c :: str => if (c <? 48) || (57 <? c) then None else no_overflow_loop str (u64 (10 * n + (c - 48)))
  end.

Definition parse__no_overflow (str : list Z) : option Z := no_overflow_loop str 0.

(** [while (str_len > 0 && *str == '0')] *)
Fixpoint skip_zeros (str : list Z) : list Z :=
  match str with
  | c :: str' => if c =? 48 then skip_zeros str' else str
  | [] => []
  end.

Definition parse_unsigned_integer_bin (str : list Z) : option Z :=
  if zlen str =? 0 then None
  else
    let str := skip_zeros str in
    let max_len := zlen parse_number__uintmax_max_str in
    if (max_len <? zlen str) || ((zlen str =? max_len) && (0 <? memcmp str parse_number__uintmax_max_str)) then None
    else parse__no_overflow str.

(** A null-terminated string of the memory that begins at it. *)
Definition terminated (mem : list Z) : option (list Z) := n ← find_byte 0 mem; Some (ztake n mem).

Definition parse_unsigned_integer (mem : list Z) : option (option Z) :=
  str ← terminated mem; Some (parse_unsigned_integer_bin str).

(** One turn of the loops that check each step for overflow. *)
Definition add_digit (base digit n : Z) : unit + Z :=
  if digit <? 0 then inl tt
  else if UINTMAX_MAX / base <? n then inl tt
  else
    let n := u64 (n * base) in
    if UINTMAX_MAX - n <? digit then inl tt else inr (u64 (n + digit)).

Definition parse_unsigned_integer_cstr `{Build} (cstr : b_cstring) (offset length : Z) : option (option Z) :=
  b_cstring_assert_range cstr offset length;;
  if length =? 0 then Some None
  else
    r ← B_CSTRING_LOOP_RANGE cstr offset length
      (λ _ chunk n, Some (each (λ _ c n, add_digit 10 (decode_decimal_digit c) n) 0 chunk n)) 0;
    Some (match r with inl _ => None | inr n => Some n end).

Fixpoint hex_loop (str : list Z) (n : Z) : option Z :=
  match str with
  | [] => Some n
  | c :: str => match add_digit 16 (decode_hex_digit c) n with inl _ => None | inr n => hex_loop str n end
  end.

Definition parse_unsigned_hex_integer_bin (str : list Z) : option Z :=
  if zlen str =? 0 then None else hex_loop str 0.

Definition parse_unsigned_hex_integer (mem : list Z) : option (option Z) :=
  str ← terminated mem; Some (parse_unsigned_hex_integer_bin str).

Definition is_sign (c : Z) : bool := (c =? 43) || (c =? 45).

(** [1 - 2 * (c == '-')] *)
Definition sign_of (c : Z) : Z := 1 - 2 * (if c =? 45 then 1 else 0).

(** The sign and the magnitude. *)
Definition parse_signmag_integer_bin (str : list Z) : option (Z * Z) :=
  let '(sign, str) := match str with c :: str' => if is_sign c then (sign_of c, str') else (1, str) | [] => (1, str) end in
  mag ← parse_unsigned_integer_bin str;
  Some (sign, mag).

Definition parse_signmag_integer (mem : list Z) : option (option (Z * Z)) :=
  str ← terminated mem; Some (parse_signmag_integer_bin str).

Definition parse_signmag_integer_cstr `{Build} (cstr : b_cstring) (offset length : Z) : option (option (Z * Z)) :=
  b_cstring_assert_range cstr offset length;;
  '(sign, offset, length) ←
    (if 0 <? length then
       c ← b_cstring_at cstr offset;
       Some (if is_sign c then (sign_of c, offset + 1, length - 1) else (1, offset, length))
     else Some (1, offset, length));
  mag ← parse_unsigned_integer_cstr cstr offset length;
  Some (mag ← mag; Some (sign, mag)).

(** ** Writing *)

(** The loops divide by ten until nothing is left, at most twenty times for a
    number of 64 bits. *)
Fixpoint size_loop (fuel : nat) (x size : Z) : option Z :=
  match fuel with
  | O => None
  | S fuel => if 0 <? x / 10 then size_loop fuel (x / 10) (size + 1) else Some (size + 1)
  end.

Definition compute_decimal_repr_size (x : Z) : option Z := size_loop 20 x 0.

(** [pos] is the distance of the pointer [out] from the start of the buffer. *)
Fixpoint repr_loop (fuel : nat) (x pos : Z) (buf : list Z) : option (list Z) :=
  match fuel with
  | O => None
  | S fuel =>
      let pos := pos - 1 in
      if (0 <=? pos) && (pos <? zlen buf) then
        let buf := zwrite pos [48 + x mod 10] buf in
        if 0 <? x / 10 then repr_loop fuel (x / 10) pos buf else Some buf
      else None
  end.

Definition generate_decimal_repr `{Build} (x : Z) (out : list Z) (repr_size : Z) : option (list Z) :=
  size ← compute_decimal_repr_size x;
  assert (repr_size =? size);;
  repr_loop 20 x repr_size out.

(** The size and the buffer. *)
Definition generate_decimal_repr_string `{Build} (x : Z) (out : list Z) : option (Z * list Z) :=
  repr_size ← compute_decimal_repr_size x;
  out ← generate_decimal_repr x out repr_size;
  if repr_size <? zlen out then Some (repr_size, zwrite repr_size [0] out) else None.

(** ** What a text stands for *)

Definition val (base : Z) (decode : Z → Z) (l : list Z) : Z := foldl (λ n c, base * n + decode c) 0 l.

Definition all_digits (decode : Z → Z) (l : list Z) : bool := forallb (λ c, 0 <=? decode c) l.

(** A non-empty sequence of digits whose value fits in 64 bits. *)
Definition number (base : Z) (decode : Z → Z) (l : list Z) : option Z :=
  if bool_decide (l ≠ []) && all_digits decode l && (val base decode l <=? UINTMAX_MAX) then Some (val base decode l) else None.

Definition decimal : list Z → option Z := number 10 decode_decimal_digit.
Definition hexadecimal : list Z → option Z := number 16 decode_hex_digit.

(** The same after an optional sign. *)
Definition signed_decimal (l : list Z) : option (Z * Z) :=
  match l with
  | c :: l' => if is_sign c then pair (sign_of c) <$> decimal l' else pair 1 <$> decimal l
  | [] => None
  end.

Section values.
Context (base : Z) (decode : Z → Z) (Hbase : 1 < base) (Hdigit : ∀ c, decode c < base).

Lemma val_from acc l : foldl (λ n c, base * n + decode c) acc l = acc * base ^ zlen l + val base decode l.
Proof using Type.
  unfold val. revert acc. induction l as [|c l IH]; intros acc; cbn [foldl length]; [rewrite Z.pow_0_r; lia|].
  rewrite IH, (IH (base * 0 + decode c)), Nat2Z.inj_succ, Z.pow_succ_r by lia. ring.
Qed.

Lemma val_cons c l : val base decode (c :: l) = decode c * base ^ zlen l + val base decode l.
Proof using Type. unfold val at 1. cbn [foldl]. rewrite val_from. ring. Qed.

Lemma val_snoc l c : val base decode (l ++ [c]) = base * val base decode l + decode c.
Proof using Type. unfold val. by rewrite foldl_app. Qed.

Lemma all_digits_cons c l : all_digits decode (c :: l) = (0 <=? decode c) && all_digits decode l.
Proof using Type. done. Qed.

Lemma val_bound l : all_digits decode l = true → 0 ≤ val base decode l < base ^ zlen l.
Proof using Hbase Hdigit.
  induction l as [|c l IH]; [cbn; lia|]. rewrite all_digits_cons, val_cons. intros [Hc Hl]%andb_prop.
  specialize (IH Hl). specialize (Hdigit c). apply Z.leb_le in Hc.
  cbn [length]. rewrite Nat2Z.inj_succ, Z.pow_succ_r by lia. nia.
Qed.

(** The checked step fails exactly when the digit is none or the number does not
    fit. *)
Lemma add_digit_ok digit n : digit < base → 0 ≤ n ≤ UINTMAX_MAX →
  add_digit base digit n = if (0 <=? digit) && (base * n + digit <=? UINTMAX_MAX) then inr (base * n + digit) else inl tt.
Proof using Hbase.
  intros Hd Hn. unfold add_digit. destruct (Z.ltb_spec digit 0); [by rewrite (proj2 (Z.leb_gt _ _)) by lia|].
  rewrite (proj2 (Z.leb_le 0 digit)) by lia. cbn [andb].
  pose proof (Z.mul_div_le UINTMAX_MAX base ltac:(lia)). pose proof (Z.mul_succ_div_gt UINTMAX_MAX base ltac:(lia)).
  assert (UINTMAX_MAX = 2 ^ 64 - 1) as Hmax by done.
  destruct (Z.ltb_spec (UINTMAX_MAX / base) n); [rewrite (proj2 (Z.leb_gt _ _)) by nia; done|].
  unfold u64. rewrite (Z.mod_small (n * base)) by nia.
  destruct (Z.ltb_spec (UINTMAX_MAX - n * base) digit); [by rewrite (proj2 (Z.leb_gt _ _)) by lia|].
  rewrite (proj2 (Z.leb_le _ _)) by lia. rewrite Z.mod_small by lia. f_equal. ring.
Qed.

(** A loop of checked steps, from [n]. *)
Lemma checked_loop pos l n : 0 ≤ n ≤ UINTMAX_MAX →
  each (λ _ c n, add_digit base (decode c) n) pos l n =
  if all_digits decode l && (n * base ^ zlen l + val base decode l <=? UINTMAX_MAX)
  then inr (n * base ^ zlen l + val base decode l) else inl tt.
Proof using Hbase Hdigit.
  revert pos n. induction l as [|c l IH]; intros pos n Hn.
  { cbn [each length all_digits forallb]. change (val base decode []) with 0. rewrite Z.pow_0_r, (proj2 (Z.leb_le _ _)) by lia. cbn. f_equal. lia. }
  cbn [each]. rewrite add_digit_ok by (done || apply Hdigit). rewrite all_digits_cons, val_cons.
  destruct (Z.leb_spec 0 (decode c)); cbn [andb]; [|done].
  replace (n * base ^ zlen (c :: l) + (decode c * base ^ zlen l + val base decode l))
    with ((base * n + decode c) * base ^ zlen l + val base decode l)
    by (cbn [length]; rewrite Nat2Z.inj_succ, Z.pow_succ_r by lia; ring).
  destruct (Z.leb_spec (base * n + decode c) UINTMAX_MAX); [apply IH; nia|].
  destruct (all_digits decode l) eqn:Hl; cbn [andb]; [|done]. rewrite (proj2 (Z.leb_gt _ _)); [done|].
  pose proof (val_bound l Hl). assert (0 < base ^ zlen l) by lia. nia.
Qed.
End values.

Lemma decimal_digit_bound c : decode_decimal_digit c < 10.
Proof. unfold decode_decimal_digit. destruct ((48 <=? c) && (c <=? 57)) eqn:E; lia. Qed.

Lemma hex_digit_bound c : decode_hex_digit c < 16.
Proof.
  unfold decode_hex_digit. destruct ((48 <=? c) && (c <=? 57)) eqn:E; [lia|].
  destruct ((65 <=? c) && (c <=? 70)) eqn:E1; [lia|]. destruct ((97 <=? c) && (c <=? 102)) eqn:E2; lia.
Qed.

#[local] Hint Resolve decimal_digit_bound hex_digit_bound : core.

Abbreviation dval := (val 10 decode_decimal_digit).
Abbreviation ddigits := (all_digits decode_decimal_digit).

Lemma is_decimal_digit c : (0 <=? decode_decimal_digit c) = negb ((c <? 48) || (57 <? c)).
Proof.
  unfold decode_decimal_digit.
  destruct (Z.leb_spec 48 c), (Z.leb_spec c 57), (Z.ltb_spec c 48), (Z.ltb_spec 57 c); cbn; try lia; apply Z.leb_le; lia.
Qed.

Lemma decimal_digit_value c : (0 <=? decode_decimal_digit c) = true → decode_decimal_digit c = c - 48 ∧ 48 ≤ c ≤ 57.
Proof. unfold decode_decimal_digit. destruct ((48 <=? c) && (c <=? 57)) eqn:E; [|done]. lia. Qed.

(** ** The decimal parser *)

Lemma no_overflow_loop_ok l n :
  no_overflow_loop l (u64 n) = if ddigits l then Some (u64 (n * 10 ^ zlen l + dval l)) else None.
Proof.
  revert n. induction l as [|c l IH]; intros n; [cbn -[u64]; do 2 f_equal; lia|].
  cbn [no_overflow_loop]. rewrite all_digits_cons, is_decimal_digit. destruct ((c <? 48) || (57 <? c)) eqn:Hc; [done|].
  assert ((0 <=? decode_decimal_digit c) = true) as Hd by (by rewrite is_decimal_digit, Hc).
  cbn [negb andb]. replace (u64 (10 * u64 n + (c - 48))) with (u64 (10 * n + (c - 48))).
  - rewrite IH. destruct (ddigits l); [|done]. do 2 f_equal. rewrite val_cons. apply decimal_digit_value in Hd as [-> _].
    cbn [length]. rewrite Nat2Z.inj_succ, Z.pow_succ_r by lia. ring.
  - unfold u64. rewrite <- Zplus_mod_idemp_l, <- (Zplus_mod_idemp_l (10 * (n mod 2 ^ 64))). by rewrite Zmult_mod_idemp_r.
Qed.

Lemma skip_zeros_val l : dval (skip_zeros l) = dval l ∧ ddigits (skip_zeros l) = ddigits l.
Proof.
  induction l as [|c l IH]; [done|]. cbn [skip_zeros]. destruct (Z.eqb_spec c 48) as [->|]; [|done].
  rewrite val_cons, all_digits_cons. destruct IH as [-> ->]. cbn. done.
Qed.

Lemma skip_zeros_large l : ddigits l = true → skip_zeros l ≠ [] → 10 ^ (zlen (skip_zeros l) - 1) ≤ dval (skip_zeros l).
Proof.
  induction l as [|c l IH]; [done|]. cbn [skip_zeros]. rewrite all_digits_cons. intros [Hc Hl]%andb_prop.
  destruct (Z.eqb_spec c 48) as [->|Hne]; [by apply IH|]. intros _. rewrite val_cons.
  pose proof (val_bound 10 decode_decimal_digit ltac:(lia) decimal_digit_bound l Hl).
  apply decimal_digit_value in Hc as [-> Hc]. cbn [length]. replace (Z.of_nat (S (length l)) - 1) with (zlen l) by lia. nia.
Qed.

(** Digit strings of the same length are ordered as their values. *)
Lemma memcmp_val p q : length p = length q → ddigits p = true → ddigits q = true → (0 < memcmp p q ↔ dval q < dval p).
Proof.
  revert q. induction p as [|x p IH]; intros [|y q] Hl Hp Hq; try done. injection Hl as Hl.
  rewrite all_digits_cons in Hp, Hq. apply andb_prop in Hp as [Hx Hp], Hq as [Hy Hq].
  pose proof (val_bound 10 decode_decimal_digit ltac:(lia) decimal_digit_bound p Hp) as Bp.
  pose proof (val_bound 10 decode_decimal_digit ltac:(lia) decimal_digit_bound q Hq) as Bq.
  rewrite !val_cons. apply decimal_digit_value in Hx as [-> Hx], Hy as [-> Hy]. cbn [memcmp]. rewrite Hl in *.
  destruct (Z.eqb_spec x y) as [->|Hne]; [rewrite (IH q) by done; lia|]. nia.
Qed.

Lemma parse_unsigned_integer_decimal l : parse_unsigned_integer_bin l = decimal l.
Proof.
  unfold parse_unsigned_integer_bin, decimal, number. destruct (Z.eqb_spec (zlen l) 0) as [Hz|Hz].
  { by destruct l. }
  rewrite bool_decide_true by (by intros ->). cbn [andb].
  destruct (skip_zeros_val l) as [<- Hd]. pose proof (skip_zeros_large l) as Hlarge. rewrite <- Hd in *. clear Hd Hz.
  set (s := skip_zeros l) in *. change (zlen parse_number__uintmax_max_str) with 20.
  unfold parse__no_overflow. change 0 with (u64 0) at 2. rewrite no_overflow_loop_ok.
  destruct (ddigits s) eqn:Hs; cbn [andb]; [|by destruct ((20 <? zlen s) || _)]. specialize (Hlarge eq_refl).
  pose proof (val_bound 10 decode_decimal_digit ltac:(lia) decimal_digit_bound s Hs) as Hb.
  assert (UINTMAX_MAX = 2 ^ 64 - 1) as Hmax by done.
  assert (0 < zlen s → 10 ^ (zlen s - 1) ≤ dval s) as Hlow by (intros; apply Hlarge; by intros ->).
  destruct (Z.ltb_spec 20 (zlen s)); cbn [orb].
  { rewrite (proj2 (Z.leb_gt _ _)); [done|]. pose proof (Z.pow_le_mono_r 10 20 (zlen s - 1)). lia. }
  destruct (Z.eqb_spec (zlen s) 20) as [H20|H20]; cbn [andb].
  - pose proof (memcmp_val s parse_number__uintmax_max_str ltac:(change (length parse_number__uintmax_max_str) with 20%nat; lia) Hs eq_refl) as Hcmp.
    change (dval parse_number__uintmax_max_str) with UINTMAX_MAX in Hcmp.
    destruct (Z.ltb_spec 0 (memcmp s parse_number__uintmax_max_str)), (Z.leb_spec (dval s) UINTMAX_MAX); try lia; [done|].
    unfold u64. rewrite Z.mod_small by lia. done.
  - pose proof (Z.pow_le_mono_r 10 (zlen s) 19). rewrite (proj2 (Z.leb_le _ _)) by lia.
    unfold u64. rewrite Z.mod_small by lia. done.
Qed.

Lemma each_pos {A R} (step : Z → A → R + A) pos pos' l acc :
  each (λ _ c a, step c a) pos l acc = each (λ _ c a, step c a) pos' l acc.
Proof. revert pos pos' acc. induction l as [|c l IH]; intros; cbn [each]; [done|]. destruct (step c acc); [done|]. apply IH. Qed.

Lemma val_app base decode l1 l2 : val base decode (l1 ++ l2) = val base decode l1 * base ^ zlen l2 + val base decode l2.
Proof. unfold val at 1. rewrite foldl_app. apply val_from. Qed.

Lemma all_digits_app decode l1 l2 : all_digits decode (l1 ++ l2) = all_digits decode l1 && all_digits decode l2.
Proof. apply forallb_app. Qed.

Section cstr.
Context `{Build}.

Lemma parse_unsigned_integer_cstr_decimal cstr s offset length :
  holds cstr s → in_range s offset length → parse_unsigned_integer_cstr cstr offset length = Some (decimal (range s offset length)).
Proof.
  intros Hc Hr. unfold parse_unsigned_integer_cstr. rewrite (assert_range_holds _ s) by done. cbn [mbind option_bind].
  pose proof Hr as (Ho & Hn & Hb). pose proof (zlen_range _ _ _ Hr) as Hlen.
  destruct (Z.eqb_spec length 0) as [->|Hz]; [done|].
  set (fits := λ k, ddigits (range s offset k) && (dval (range s offset k) <=? UINTMAX_MAX)).
  match goal with |- context [B_CSTRING_LOOP_RANGE ?c ?o ?l ?b ?a] =>
    destruct (loop_range_rule c s o l b (λ pos n, fits pos = true ∧ n = dval (range s offset pos)) (λ _, fits length = false) Hc Hr)
      with (acc := a) as (r & -> & Hres)
  end.
  - intros pos n m Hp Hn' Hle [Hf ->]. eexists. split; [done|]. apply andb_prop in Hf as [Hd Hmax].
    pose proof (val_bound 10 decode_decimal_digit ltac:(lia) decimal_digit_bound _ Hd). apply Z.leb_le in Hmax.
    rewrite checked_loop by (lia || auto). rewrite <- val_app, <- range_split by lia.
    destruct (_ && _) eqn:Hnow; [split; [|done]|].
    + apply andb_prop in Hnow as [Hd' Hm']. unfold fits. rewrite Hm', andb_true_r, range_split, all_digits_app, Hd, Hd' by lia. done.
    + apply not_true_iff_false. intros [Hda Hva]%andb_prop. apply not_true_iff_false in Hnow. apply Hnow.
      replace length with (pos + n + (length - (pos + n))) in Hda, Hva by lia. rewrite range_split in Hda, Hva by lia.
      rewrite all_digits_app in Hda. apply andb_prop in Hda as [Hda Hrest]. rewrite val_app in Hva.
      pose proof (val_bound 10 decode_decimal_digit ltac:(lia) decimal_digit_bound _ Hrest).
      pose proof (val_bound 10 decode_decimal_digit ltac:(lia) decimal_digit_bound _ Hda).
      apply Z.leb_le in Hva. rewrite andb_true_iff, Z.leb_le. split; [|nia].
      rewrite range_split, all_digits_app in Hda by lia. by apply andb_prop in Hda as [_ ?].
  - done.
  - cbn [mbind option_bind]. unfold decimal, number. rewrite bool_decide_true by (intros Hnil; rewrite Hnil in Hlen; cbn in Hlen; lia).
    change (Some (match r with inl _ => None | inr n => Some n end) = Some (if fits length then Some (dval (range s offset length)) else None)).
    destruct r as [[]|n]; [by rewrite Hres|]. by destruct Hres as [-> ->].
Qed.

Lemma hex_loop_each l n : hex_loop l n = match each (λ _ c n, add_digit 16 (decode_hex_digit c) n) 0 l n with inl _ => None | inr n => Some n end.
Proof.
  revert n. induction l as [|c l IH]; intros n; cbn [hex_loop each]; [done|].
  destruct (add_digit 16 (decode_hex_digit c) n) as [|n']; [done|]. rewrite IH.
  by rewrite (each_pos (λ c n, add_digit 16 (decode_hex_digit c) n) 0 (0 + 1)).
Qed.

Lemma parse_unsigned_hex_integer_hexadecimal l : parse_unsigned_hex_integer_bin l = hexadecimal l.
Proof.
  unfold parse_unsigned_hex_integer_bin, hexadecimal, number. destruct (Z.eqb_spec (zlen l) 0) as [Hz|Hz]; [by destruct l|].
  rewrite bool_decide_true by (by intros ->). rewrite hex_loop_each, checked_loop by (done || auto). cbn [andb].
  rewrite Z.mul_0_l, Z.add_0_l. by destruct (_ && _).
Qed.

Lemma parse_signmag_decimal l : parse_signmag_integer_bin l = signed_decimal l.
Proof.
  unfold parse_signmag_integer_bin, signed_decimal. destruct l as [|c l]; [done|].
  destruct (is_sign c); rewrite parse_unsigned_integer_decimal; [by destruct (decimal l)|by destruct (decimal (c :: l))].
Qed.

Lemma range_cons s offset length : 0 ≤ offset → 0 < length → offset + length ≤ zlen s →
  ∃ c, s !! Z.to_nat offset = Some c ∧ range s offset length = c :: range s (offset + 1) (length - 1).
Proof.
  intros. destruct (lookup_lt_is_Some_2 s (Z.to_nat offset)) as [c Hc]; [lia|]. exists c. split; [done|].
  replace length with (1 + (length - 1)) at 1 by lia. rewrite range_split by lia. unfold range at 1, ztake, zdrop.
  by rewrite (drop_S _ _ _ Hc).
Qed.

Lemma parse_signmag_cstr_decimal cstr s offset length :
  holds cstr s → in_range s offset length → parse_signmag_integer_cstr cstr offset length = Some (signed_decimal (range s offset length)).
Proof.
  intros Hc Hr. unfold parse_signmag_integer_cstr. rewrite (assert_range_holds _ s) by done. cbn [mbind option_bind].
  pose proof Hr as (Ho & Hn & Hb). destruct (Z.ltb_spec 0 length).
  - destruct (range_cons s offset length) as (c & Hat & Hcons); [lia..|].
    rewrite (at_range _ s), Hat by (done || lia). cbn [mbind option_bind]. rewrite Hcons. cbn [signed_decimal].
    destruct (is_sign c).
    + rewrite (parse_unsigned_integer_cstr_decimal _ s) by (done || unfold in_range; lia). cbn [mbind option_bind]. by destruct (decimal _).
    + rewrite <- Hcons, (parse_unsigned_integer_cstr_decimal _ s) by done. cbn [mbind option_bind]. by destruct (decimal _).
  - assert (length = 0) as -> by lia. cbn [mbind option_bind]. rewrite (parse_unsigned_integer_cstr_decimal _ s) by done. done.
Qed.
End cstr.

(** ** The decimal writer *)

(** [k] is the number of digits of [x]. *)
Definition digits_of (x k : Z) : Prop := 1 ≤ k ∧ 0 ≤ x < 10 ^ k ∧ (k = 1 ∨ 10 ^ (k - 1) ≤ x).

Lemma digits_of_div x k : digits_of x k → 0 < x / 10 → digits_of (x / 10) (k - 1).
Proof.
  intros (Hk & Hx & Hlow) Hd. destruct Hlow as [->|Hlow].
  { rewrite Z.pow_1_r in Hx. rewrite Z.div_small in Hd by lia. lia. }
  assert (k ≠ 1). { intros ->. rewrite Z.pow_1_r in Hx. rewrite Z.div_small in Hd by lia. lia. }
  replace k with (Z.succ (k - 1)) in Hx by lia. rewrite Z.pow_succ_r in Hx by lia.
  replace (k - 1) with (Z.succ (k - 1 - 1)) in Hlow by lia. rewrite Z.pow_succ_r in Hlow by lia.
  pose proof (Z.mul_div_le x 10). pose proof (Z.mul_succ_div_gt x 10). unfold digits_of. split_and!; lia.
Qed.

Lemma digits_of_last x k : digits_of x k → x / 10 ≤ 0 → k = 1.
Proof.
  intros (Hk & Hx & [Hlow|Hlow]) Hd; [done|]. destruct (decide (k = 1)); [done|]. exfalso.
  pose proof (Z.mul_succ_div_gt x 10). pose proof (Z.pow_le_mono_r 10 1 (k - 1)). lia.
Qed.

Lemma size_loop_ok fuel x size : 0 ≤ x < 10 ^ Z.of_nat fuel → (0 < fuel)%nat →
  ∃ k, size_loop fuel x size = Some (size + k) ∧ digits_of x k ∧ k ≤ Z.of_nat fuel.
Proof.
  revert x size. induction fuel as [|fuel IH]; intros x size Hx Hf; [lia|]. cbn [size_loop].
  rewrite Nat2Z.inj_succ, Z.pow_succ_r in Hx by lia.
  pose proof (Z.mul_div_le x 10). pose proof (Z.mul_succ_div_gt x 10).
  destruct (Z.ltb_spec 0 (x / 10)) as [Hd|Hd].
  - destruct (IH (x / 10) (size + 1)) as (k & -> & (Hk & Hb & Hl) & Hle); [lia|destruct fuel; [cbn in *; lia|lia]|].
    exists (k + 1). split; [f_equal; lia|]. split; [|lia]. unfold digits_of. replace (k + 1 - 1) with k by lia.
    rewrite Z.add_1_r, Z.pow_succ_r by lia. split_and!; [lia..|]. right.
    destruct Hl as [->|Hl]; [cbn; lia|]. replace k with (Z.succ (k - 1)) by lia. rewrite Z.pow_succ_r by lia. lia.
  - exists 1. unfold digits_of. split_and!; auto; lia.
Qed.

Lemma repr_loop_ok fuel x k buf : digits_of x k → k ≤ Z.of_nat fuel → k ≤ zlen buf →
  ∃ l, repr_loop fuel x k buf = Some (l ++ zdrop k buf) ∧ zlen l = k ∧ ddigits l = true ∧ dval l = x.
Proof.
  revert x k buf. induction fuel as [|fuel IH]; intros x k buf Hx Hf Hb; [destruct Hx; lia|].
  pose proof Hx as (Hk & Hr & _). cbn [repr_loop]. rewrite (proj2 (Z.leb_le 0 (k - 1))), (proj2 (Z.ltb_lt (k - 1) _)) by lia. cbn [andb].
  set (d := 48 + x mod 10). pose proof (Z.mod_pos_bound x 10). pose proof (Z.div_mod x 10).
  assert (decode_decimal_digit d = x mod 10) as Hdec.
  { unfold decode_decimal_digit. rewrite (proj2 (Z.leb_le _ _)), (proj2 (Z.leb_le _ _)) by lia. cbn. lia. }
  assert (zwrite (k - 1) [d] buf = ztake (k - 1) buf ++ d :: zdrop k buf) as Hw.
  { unfold zwrite. cbn. do 3 f_equal. lia. }
  destruct (Z.ltb_spec 0 (x / 10)) as [Hd|Hd].
  - destruct (IH (x / 10) (k - 1) (zwrite (k - 1) [d] buf)) as (l & -> & Hl & Hds & Hv);
      [by apply digits_of_div|lia|rewrite zlen_zwrite by (cbn; lia); lia|].
    exists (l ++ [d]). rewrite Hw, zdrop_app_exact by (rewrite zlen_ztake; lia). split_and!.
    + by rewrite <- app_assoc.
    + rewrite zlen_app. cbn. lia.
    + rewrite all_digits_app, Hds. cbn. by rewrite Hdec, (proj2 (Z.leb_le _ _)) by lia.
    + rewrite val_snoc, Hv, Hdec. lia.
  - assert (k = 1) as -> by (by eapply digits_of_last). exists [d]. rewrite Hw. split_and!; [done..| |].
    + cbn. by rewrite Hdec, (proj2 (Z.leb_le _ _)) by lia.
    + unfold val. cbn. rewrite Hdec. pose proof (Z.div_pos x 10). lia.
Qed.

Lemma generate_decimal_repr_string_ok `{Build} x out : 0 ≤ x ≤ UINTMAX_MAX → 20 < zlen out →
  ∃ l, generate_decimal_repr_string x out = Some (zlen l, l ++ 0 :: zdrop (zlen l + 1) out) ∧
    digits_of x (zlen l) ∧ ddigits l = true ∧ dval l = x ∧ zlen l ≤ 20.
Proof.
  intros Hx Ho. assert (UINTMAX_MAX = 2 ^ 64 - 1) as Hmax by done.
  destruct (size_loop_ok 20 x 0) as (k & Hs & Hk & Hle); [cbn -[Z.pow]; lia|lia|].
  destruct (repr_loop_ok 20 x k out) as (l & Hr & Hl & Hd & Hv); [done|lia|lia|]. exists l. subst k. pose proof Hk as (? & _).
  unfold generate_decimal_repr_string, generate_decimal_repr, compute_decimal_repr_size. rewrite Hs. cbn [mbind option_bind].
  rewrite Z.add_0_l, assert_true by apply Z.eqb_refl. cbn [mbind option_bind]. rewrite Hr. cbn [mbind option_bind].
  rewrite zlen_app, zlen_zdrop, (proj2 (Z.ltb_lt _ _)) by lia. split; [|split_and!; done || lia].
  do 2 f_equal. rewrite zwrite_app by done. cbn [length]. rewrite zdrop_zdrop by lia. done.
Qed.

Lemma terminated_app l rest : 0 ∉ l → terminated (l ++ 0 :: rest) = Some l.
Proof.
  intros Hl. unfold terminated. rewrite find_byte_app, (proj2 (find_byte_None 0 l)) by done. rewrite find_byte_cons.
  cbn [decide fmap option_fmap mbind option_bind]. rewrite decide_True by done. cbn [fmap option_fmap option_map mbind option_bind].
  by rewrite Z.add_0_r, ztake_app_exact by done.
Qed.

Lemma digits_not_zero l : ddigits l = true → 0 ∉ l.
Proof.
  intros Hd Hin. unfold all_digits in Hd. rewrite forallb_forall in Hd. by apply list_elem_of_In, Hd in Hin.
Qed.

(** ** The properties *)

(** C39: the parsers of misc/parse_number.h accept exactly the non-empty sequences of
    digits, after at most one sign where one is allowed, whose value is at most
    2^64-1, and return that value: the decimal one, which compares the text with
    the largest number to detect overflow, the one over a string in pieces, which
    checks each step, and the hexadecimal one.  Nothing wraps around. *)
Theorem numbers_parsed `{Build} l :
  parse_unsigned_integer_bin l = decimal l ∧
  parse_unsigned_hex_integer_bin l = hexadecimal l ∧
  parse_signmag_integer_bin l = signed_decimal l ∧
  ∀ cstr s offset length, holds cstr s → in_range s offset length → range s offset length = l →
    parse_unsigned_integer_cstr cstr offset length = Some (decimal l) ∧
    parse_signmag_integer_cstr cstr offset length = Some (signed_decimal l).
Proof.
  split_and!; [apply parse_unsigned_integer_decimal|apply parse_unsigned_hex_integer_hexadecimal|apply parse_signmag_decimal|].
  intros cstr s offset length Hc Hr <-. split; [by apply parse_unsigned_integer_cstr_decimal|by apply parse_signmag_cstr_decimal].
Qed.

(** A number of 64 bits written by [generate_decimal_repr_string] in a buffer of
    21 bytes or more is read back by [parse_unsigned_integer]; it takes at most 20
    digits, the first of them zero only for the number 0, and what lies after the
    terminator is unchanged. *)
Theorem decimal_roundtrip `{Build} x out : 0 ≤ x ≤ UINTMAX_MAX → 20 < zlen out →
  ∃ size out', generate_decimal_repr_string x out = Some (size, out') ∧
    parse_unsigned_integer out' = Some (Some x) ∧
    size ≤ 20 ∧ digits_of x size ∧ zlen out' = zlen out ∧ zdrop (size + 1) out' = zdrop (size + 1) out.
Proof.
  intros Hx Ho. destruct (generate_decimal_repr_string_ok x out Hx Ho) as (l & Hg & Hk & Hd & Hv & Hle).
  exists (zlen l). eexists. split; [exact Hg|]. split_and!; [|done|done| |].
  - unfold parse_unsigned_integer. rewrite terminated_app by (by apply digits_not_zero). cbn [mbind option_bind].
    rewrite parse_unsigned_integer_decimal. unfold decimal, number. rewrite Hd, Hv, bool_decide_true, (proj2 (Z.leb_le _ _)) by (lia || (intros ->; destruct Hk; cbn in *; lia)). done.
  - rewrite zlen_app. cbn [length]. rewrite Nat2Z.inj_succ, zlen_zdrop by lia. lia.
  - change (l ++ 0 :: zdrop (zlen l + 1) out) with (l ++ [0] ++ zdrop (zlen l + 1) out). rewrite app_assoc.
    rewrite zdrop_app_exact; [done|]. rewrite zlen_app. done.
Qed.

Section number_examples.
#[local] Instance number_build : Build := false.

Lemma largest_number :
  parse_unsigned_integer_bin (text "0018446744073709551615") = Some UINTMAX_MAX ∧
  parse_unsigned_integer_bin (text "18446744073709551616") = None ∧
  parse_unsigned_hex_integer_bin (text "ffffffffFFFFFFFF") = Some UINTMAX_MAX ∧
  parse_signmag_integer_bin (text "-17") = Some (-1, 17) ∧
  parse_signmag_integer_cstr (pieces (text "x=-123456789012;")) 2 13 = Some (Some (-1, 123456789012)).
Proof. vm_compute. done. Qed.

Lemma decimal_roundtrip_witness : ∃ size out',
  generate_decimal_repr_string 1234567890 (replicate 24 255) = Some (size, out') ∧ parse_unsigned_integer out' = Some (Some 1234567890).
Proof.
  destruct (decimal_roundtrip 1234567890 (replicate 24 255)) as (size & out' & Hg & Hp & _);
    [vm_compute; split; discriminate|vm_compute; reflexivity|]. exists size, out'. split; [exact Hg|exact Hp].
Defined.

Lemma numbers_parsed_witness :
  parse_unsigned_integer_cstr (pieces (text "port 65535")) 5 5 = Some (decimal (text "65535")).
Proof.
  apply (proj2 (proj2 (proj2 (numbers_parsed (text "65535")))) (pieces (text "port 65535")) (text "port 65535") 5 5);
    [apply pieces_holds|vm_compute; split_and!; discriminate|vm_compute; reflexivity].
Defined.
End number_examples.
