(* ===== verification/Ipaddr6.v ===== *)
(** * Ipaddr6: IPv6 addresses in text (misc/ipaddr6.h)

    The parser [ipaddr6_parse_ipv6_addr_bin] writes the blocks it reads to its
    output as it goes, remembers where a "::" stood, and moves what follows it to
    the end when it is done; an address may end in a dotted decimal IPv4
    address.  The printer abbreviates the longest run of zero blocks.  Text is a
    [string] without its terminator, an address is its 16 bytes. *)
From Stdlib Require Import Ascii String.
From S2P Require Import Prelude Bytes Text Addr CString Numbers.

(** ** The parser *)

(** The local variables of the first loop, and the output. *)
Record scan_t := mk_scan {
  bytes : list Z; num_blocks : Z; compress_pos : Z; block : Z; empty : bool
}.

(** Where the loop ends: with the name, or at a dot. *)
Inductive scan_end := AtEnd (st : scan_t) | AtDot (i : nat) (st : scan_t).

(** [out_addr->bytes[2 * n + 0] = b >> 8; out_addr->bytes[2 * n + 1] = b & 0xFF;] *)
Definition put_block (n b : Z) (out : list Z) : result (list Z) :=
  if (0 <=? n) && (2 * n + 1 <? zlen out)
  then Ret (zwrite (2 * n) [Z.shiftr b 8; Z.land b 255] out) else Fault.

(** [i + 1 < name_len && name[i + 1] == ':'], where [s] is the name after position
    [i]; a fault to read past the end of the name. *)
Definition next_is_colon (s : string) : result bool :=
  if (0 <? String.length s)%nat then
    match s with String c _ => Ret (Ascii.eqb c ":") | EmptyString => Fault end
  else Ret false.

(** The end of a block, at a colon. *)
Definition end_block (i : nat) (is_double : bool) (st : scan_t) : result scan_t :=
  st ← (if (0 <? i)%nat then
          reject_if (empty st || (num_blocks st =? 7));;
          out ← put_block (num_blocks st) (block st) (bytes st);
          Ret (mk_scan out (num_blocks st + 1) (compress_pos st) 0 true)
        else
          reject_if (negb is_double);;
          Ret st);
  if is_double then
    reject_if (negb (compress_pos st =? -1));;
    Ret (mk_scan (bytes st) (num_blocks st) (num_blocks st) (block st) (empty st))
  else Ret st.

Definition add_hex_digit (c : ascii) (st : scan_t) : result scan_t :=
  let digit := decode_hex_digit (char_code c) in
  reject_if (digit <? 0);;
  reject_if (UINT16_MAX / 16 <? block st);;
  reject_if (UINT16_MAX - block st * 16 <? digit);;
  Ret (mk_scan (bytes st) (num_blocks st) (compress_pos st) (block st * 16 + digit) false).

(** The loop over the blocks; [s] is the name from position [i] on. *)
Fixpoint scan (s : string) (i : nat) (st : scan_t) : result scan_end :=
  match s with
  | EmptyString => Ret (AtEnd st)
  | String c s' =>
      if Ascii.eqb c "." then Ret (AtDot i st)
      else if Ascii.eqb c ":" then
        is_double ← next_is_colon s';
        st ← end_block i is_double st;
        if is_double : bool then
          match s' with String _ s'' => scan s'' (i + 2) st | EmptyString => Fault end
        else scan s' (i + 1) st
      else
        st ← add_hex_digit c st;
        scan s' (i + 1) st
  end.

(** From ipv4_done on. *)
Definition ipv4_done (out : list Z) (n cp : Z) : result (list Z) :=
  cp ← (if cp =? -1 then reject_if (negb (n =? 8));; Ret 0 else Ret cp);
  let num_rear := n - cp in
  if (0 <=? cp) && (0 <=? num_rear) && (num_rear <=? 8) && (2 * cp + 2 * num_rear <=? zlen out) then
    (* memmove *)
    let out := zwrite (2 * (8 - num_rear)) (ztake (2 * num_rear) (zdrop (2 * cp) out)) out in
    if 0 <=? 8 - num_rear - cp then
      (* memset *)
      Ret (zwrite (2 * cp) (replicate (Z.to_nat (2 * (8 - num_rear - cp))) 0) out)
    else Fault
  else Fault.

(** [while (name[i - 1] != ':') i--;], a fault when it leaves the name. *)
Fixpoint rewind (name : string) (i : nat) : result nat :=
  match i with
  | O => Fault
  | S j =>
      match String.get j name with
      | Some c => if Ascii.eqb c ":" then Ret i else rewind name j
      | None => Fault
      end
  end.

Definition add_decimal_digit (c : ascii) (byte : Z) (empty : bool) : result Z :=
  reject_if (negb empty && (byte =? 0));;
  let digit := decode_decimal_digit (char_code c) in
  reject_if (digit <? 0);;
  reject_if (255 / 10 <? byte);;
  reject_if (255 - byte * 10 <? digit);;
  Ret (byte * 10 + digit).

(** [bytes[n] = b;] in the local [uint8_t bytes[4]], whose bytes are [None] before
    they are written; a write outside the array is a fault. *)
Definition put_byte (n b : Z) (bytes : list (option Z)) : result (list (option Z)) :=
  if (0 <=? n) && (n <? zlen bytes) then Ret (<[Z.to_nat n := Some b]> bytes) else Fault.

(** The second loop, with the assignment after it. *)
Fixpoint scan_ipv4 (s : string) (bytes : list (option Z)) (cur_byte byte : Z) (empty : bool) : result (list (option Z)) :=
  match s with
  | EmptyString =>
      reject_if (negb (cur_byte =? 3) || empty);;
      put_byte cur_byte byte bytes
  | String c s' =>
      if Ascii.eqb c "." then
        reject_if (empty || (cur_byte =? 3));;
        bytes ← put_byte cur_byte byte bytes;
        scan_ipv4 s' bytes (cur_byte + 1) 0 true
      else
        byte ← add_decimal_digit c byte empty;
        scan_ipv4 s' bytes cur_byte byte false
  end.

Fixpoint sdrop (n : nat) (s : string) : string :=
  match n, s with
  | S n, String _ s => sdrop n s
  | _, _ => s
  end.

Definition ipv4_ending (name : string) (i : nat) (st : scan_t) : result (list Z) :=
  reject_if (empty st || ((num_blocks st =? 0) && (compress_pos st =? -1)));;
  i ← rewind name i;
  local ← scan_ipv4 (sdrop i name) [None; None; None; None] 0 0 true;
  reject_if (8 - num_blocks st <? 2);;
  (* memcpy: a fault to read a byte of the array that was not written *)
  match mapM id local with
  | Some ip =>
      if (0 <=? num_blocks st) && (2 * num_blocks st + 4 <=? zlen (bytes st)) then
        ipv4_done (zwrite (2 * num_blocks st) ip (bytes st)) (num_blocks st + 2) (compress_pos st)
      else Fault
  | None => Fault
  end.

(** [out] is what the output holds before the call. *)
Definition ipaddr6_parse_ipv6_addr_bin (name : string) (out : list Z) : result (list Z) :=
  e ← scan name 0 (mk_scan out 0 (-1) 0 true);
  match e with
  | AtDot i st => ipv4_ending name i st
  | AtEnd st =>
      if negb (empty st) then
        out ← put_block (num_blocks st) (block st) (bytes st);
        ipv4_done out (num_blocks st + 1) (compress_pos st)
      else
        reject_if (negb (num_blocks st =? compress_pos st));;
        ipv4_done (bytes st) (num_blocks st) (compress_pos st)
  end.

Definition ipaddr6_parse_ipv6_addr (name : string) (out : list Z) : result (list Z) :=
  ipaddr6_parse_ipv6_addr_bin name out.

(** ** The printer *)

Definition addr_block (addr : list Z) (i : nat) : Z :=
  Z.lor (Z.shiftl (nth (2 * i) addr 0) 8) (nth (2 * i + 1) addr 0).

Record run_t := mk_run { largest_start : Z; largest_len : Z; current_start : Z; current_len : Z }.

(** One round of the loop that finds the largest run of zero blocks. *)
Definition run_step (addr : list Z) (r : run_t) (i : nat) : run_t :=
  if (nth (2 * i) addr 0 =? 0) && (nth (2 * i + 1) addr 0 =? 0) then
    let current_len := current_len r + 1 in
    if largest_len r <? current_len then mk_run (current_start r) current_len (current_start r) current_len
    else mk_run (largest_start r) (largest_len r) (current_start r) current_len
  else mk_run (largest_start r) (largest_len r) (Z.of_nat i + 1) 0.

Definition largest_run (addr : list Z) : run_t := foldl (run_step addr) (mk_run 0 0 0 0) (seq 0 8).

Fixpoint concat_map {A} (f : A → string) (l : list A) : string :=
  match l with
  | [] => EmptyString
  | x :: l => String.append (f x) (concat_map f l)
  end.

Definition ipaddr6_print_addr (addr : list Z) : string :=
  let r := largest_run addr in
  let start := Z.to_nat (largest_start r) in
  let stop := Z.to_nat (largest_start r + largest_len r) in
  if 1 <? largest_len r then
    String.append (concat_map (λ i, String.append (print_hex16 (addr_block addr i)) colon) (seq 0 start))
      (String.append (if largest_start r =? 0 then colon else EmptyString)
        (String.append (concat_map (λ i, String.append colon (print_hex16 (addr_block addr i))) (seq stop (8 - stop)))
          (if largest_start r + largest_len r =? 8 then colon else EmptyString)))
  else
    (* the separator is empty before the first block *)
    String.append (print_hex16 (addr_block addr 0))
      (concat_map (λ i, String.append colon (print_hex16 (addr_block addr i))) (seq 1 7)).

Example parse_mapped :
  ipaddr6_parse_ipv6_addr "::ffff:10.0.0.1" (replicate 16 7) =
  Ret [0;0;0;0;0;0;0;0;0;0;255;255;10;0;0;1].
Proof. reflexivity. Qed.
Example print_short : ipaddr6_print_addr [32;1;13;184;0;0;0;0;0;0;0;0;0;0;0;1] = "2001:db8::1"%string.
Proof. reflexivity. Qed.

(** ** Safety

    The state of the loop as the blocks read so far; [junk] is the part of the
    output not written yet. *)

Definition is_colon (s : string) : bool :=
  match s with String c _ => Ascii.eqb c ":" | EmptyString => false end.

Lemma next_is_colon_ok s : next_is_colon s = Ret (is_colon s).
Proof. by destruct s. Qed.

Definition block_bytes (b : Z) : list Z := [Z.shiftr b 8; Z.land b 255].
Definition flat (bl : list Z) : list Z := bl ≫= block_bytes.

Lemma zlen_flat bl : zlen (flat bl) = 2 * zlen bl.
Proof. induction bl as [|b bl IH]; [done|]. unfold flat in *. cbn in *. lia. Qed.

Lemma flat_app l1 l2 : flat (l1 ++ l2) = flat l1 ++ flat l2.
Proof. apply bind_app. Qed.

Definition is_block (b : Z) : Prop := 0 ≤ b < 65536.

Lemma block_bytes_range b : is_block b → Forall is_byte (block_bytes b).
Proof.
  intros Hb. unfold is_block in Hb. repeat constructor; unfold is_byte.
  - apply Z.shiftr_nonneg. lia.
  - rewrite Z.shiftr_div_pow2 by lia. apply Z.div_lt_upper_bound; lia.
  - apply Z.land_nonneg. lia.
  - change 255 with (Z.ones 8). rewrite Z.land_ones by lia. apply Z.mod_pos_bound. lia.
Qed.

Definition st_of (bl junk : list Z) (cp b : Z) (e : bool) : scan_t := mk_scan (flat bl ++ junk) (zlen bl) cp b e.

Record scan_ok (bl junk : list Z) (cp b : Z) : Prop := {
  so_size : 2 * zlen bl + zlen junk = 16;
  so_blocks : zlen bl ≤ 7;
  so_cp : -1 ≤ cp ≤ zlen bl;
  so_block : is_block b;
  so_range : Forall is_block bl;
  so_junk : Forall is_byte junk
}.

Lemma put_block_flat bl junk b :
  2 ≤ zlen junk → put_block (zlen bl) b (flat bl ++ junk) = Ret (flat (bl ++ [b]) ++ zdrop 2 junk).
Proof.
  intros Hj. unfold put_block. rewrite zlen_app, zlen_flat.
  rewrite (proj2 (Z.leb_le _ _)), (proj2 (Z.ltb_lt _ _)) by lia. f_equal. cbn [andb].
  rewrite flat_app, <- zlen_flat, zwrite_app by lia. cbn. by rewrite <- app_assoc.
Qed.

Lemma scan_ok_push bl junk cp b cp' :
  scan_ok bl junk cp b → zlen bl < 7 → -1 ≤ cp' ≤ zlen bl + 1 → scan_ok (bl ++ [b]) (zdrop 2 junk) cp' 0.
Proof.
  intros [] Hl Hc. split; rewrite ?zlen_app; cbn [length]; rewrite ?zlen_zdrop; try lia.
  - unfold is_block. lia.
  - apply Forall_app; auto.
  - by apply Forall_zdrop.
Qed.


(** [s] is the text of [name] from position [i] on. *)
Definition tail_at (name : string) (i : nat) (s : string) : Prop := ∀ k, String.get (i + k) name = String.get k s.
Definition colon_before (name : string) (i : nat) : Prop := ∃ j, (j < i)%nat ∧ String.get j name = Some ":"%char.

Lemma tail_at_cons name i c s : tail_at name i (String c s) → tail_at name (i + 1) s.
Proof. intros Hs k. rewrite <- Nat.add_assoc. apply (Hs (1 + k)%nat). Qed.

Lemma tail_at_head name i c s : tail_at name i (String c s) → String.get i name = Some c.
Proof. intros Hs. rewrite <- (Nat.add_0_r i). apply (Hs 0%nat). Qed.

Lemma get_before name i j c : String.get i name = Some c → (j < i)%nat → is_Some (String.get j name).
Proof.
  revert i j. induction name as [|d name IH]; intros i j Hi Hj; [by destruct i|].
  destruct i as [|i]; [lia|]. destruct j as [|j]; [done|]. cbn in *. eapply IH; [done|lia].
Qed.

Lemma rewind_ok name i :
  (∀ j, (j < i)%nat → is_Some (String.get j name)) → colon_before name i → ∃ k, rewind name i = Ret k.
Proof.
  induction i as [|i IH]; intros Hg (j & Hj & Hc); [lia|]. cbn.
  destruct (Hg i) as [c Hi]; [lia|]. rewrite Hi. destruct (Ascii.eqb_spec c ":"); [eauto|].
  apply IH; [intros; apply Hg; lia|]. exists j. split; [|done].
  destruct (decide (j = i)) as [->|]; [congruence|lia].
Qed.

(** What the loop promises: no write leaves the output, and a block only ended
    at a colon. *)
Definition scan_safe (name : string) (r : result scan_end) : Prop :=
  match r with
  | Fault => False
  | Rej => True
  | Ret (AtEnd st) => ∃ bl junk cp b e, st = st_of bl junk cp b e ∧ scan_ok bl junk cp b
  | Ret (AtDot i st) => ∃ bl junk cp b e, st = st_of bl junk cp b e ∧ scan_ok bl junk cp b ∧
      is_Some (String.get i name) ∧ (bl ≠ [] ∨ cp ≠ -1 → colon_before name i)
  end.

Lemma end_block_ok i d bl junk cp b e :
  scan_ok bl junk cp b →
  match end_block i d (st_of bl junk cp b e) with
  | Fault => False
  | Rej => True
  | Ret st => ∃ bl' junk' cp' b' e', st = st_of bl' junk' cp' b' e' ∧ scan_ok bl' junk' cp' b'
  end.
Proof.
  intros Hs. pose proof Hs as [Hz Hn Hc Hb Hr Hj]. unfold end_block. cbn [num_blocks empty block bytes compress_pos st_of].
  destruct (0 <? i)%nat; cbn.
  - destruct (e || (zlen bl =? 7)) eqn:He; cbn; [done|]. apply orb_false_iff in He as [_ H7].
    rewrite put_block_flat by lia. cbn.
    assert (zlen bl + 1 = zlen (bl ++ [b])) as Hlen by (rewrite zlen_app; done).
    destruct d; cbn.
    + destruct (negb (cp =? -1)); cbn; [done|]. eexists (bl ++ [b]), _, _, _, _. unfold st_of. rewrite <- Hlen.
      split; [done|]. apply (scan_ok_push _ _ cp); [done|lia..].
    + eexists (bl ++ [b]), _, _, _, _. unfold st_of. rewrite <- Hlen.
      split; [done|]. apply (scan_ok_push _ _ cp); [done|lia..].
  - destruct d; cbn; [|done]. destruct (negb (cp =? -1)); cbn; [done|].
    eexists bl, junk, _, b, e. split; [done|]. split; try done. lia.
Qed.

Lemma add_hex_digit_ok c bl junk cp b e :
  scan_ok bl junk cp b →
  match add_hex_digit c (st_of bl junk cp b e) with
  | Fault => False
  | Rej => True
  | Ret st => ∃ b', st = st_of bl junk cp b' false ∧ scan_ok bl junk cp b'
  end.
Proof.
  intros [Hz Hn Hc Hb Hr Hj]. unfold add_hex_digit. cbn [block st_of bytes num_blocks compress_pos].
  destruct (decode_hex_digit (char_code c) <? 0) eqn:H1; cbn [reject_if mbind result_bind]; [done|].
  destruct (UINT16_MAX / 16 <? b) eqn:H2; cbn [reject_if mbind result_bind]; [done|].
  destruct (UINT16_MAX - b * 16 <? decode_hex_digit (char_code c)) eqn:H3; cbn [reject_if mbind result_bind]; [done|].
  eexists. split; [done|]. split; try done. unfold is_block, UINT16_MAX in *. lia.
Qed.

Lemma scan_is_safe name s i bl junk cp b e :
  tail_at name i s → scan_ok bl junk cp b → (bl ≠ [] ∨ cp ≠ -1 → colon_before name i) →
  scan_safe name (scan s i (st_of bl junk cp b e)).
Proof.
  remember (String.length s) as n eqn:Hn. revert s Hn i bl junk cp b e.
  induction (lt_wf n) as [n _ IH]. intros s -> i bl junk cp b e Ht Hs Hcol. destruct s as [|c s]; cbn [scan].
  { cbn. eauto 10. }
  pose proof (tail_at_head _ _ _ _ Ht) as Hi.
  destruct (Ascii.eqb_spec c ".") as [->|_]; [cbn; eauto 15|].
  destruct (Ascii.eqb_spec c ":") as [->|_].
  - rewrite next_is_colon_ok. cbn [mbind result_bind]. pose proof (end_block_ok i (is_colon s) bl junk cp b e Hs) as He.
    destruct (end_block _ _ _) as [st| |]; cbn; [|done|done].
    destruct He as (bl' & junk' & cp' & b' & e' & -> & Hs').
    assert (∀ k, (i < k)%nat → colon_before name k) as Hk by (intros k ?; by exists i).
    destruct s as [|c2 s]; cbn [is_colon].
    + eapply IH; [|done|by eapply tail_at_cons|done|intros; apply Hk; lia]. cbn. lia.
    + destruct (Ascii.eqb c2 ":"); (eapply IH; [|done| |done|intros; apply Hk; lia]).
      * cbn. lia.
      * replace (i + 2)%nat with (i + 1 + 1)%nat by lia. by eapply tail_at_cons, tail_at_cons.
      * cbn. lia.
      * by eapply tail_at_cons.
  - pose proof (add_hex_digit_ok c bl junk cp b e Hs) as Ha.
    destruct (add_hex_digit _ _) as [st| |]; cbn; [|done|done]. destruct Ha as (b' & -> & Hs').
    eapply IH; [|done|by eapply tail_at_cons|done|]; [cbn; lia|].
    intros H. destruct (Hcol H) as (j & Hj & ?). exists j. split; [lia|done].
Qed.

Lemma Forall_zwrite (Q : Z → Prop) pos src buf : Forall Q src → Forall Q buf → Forall Q (zwrite pos src buf).
Proof.
  intros Hs Hb. unfold zwrite. repeat (apply Forall_app; split); [|done|]; [by apply Forall_ztake|by apply Forall_zdrop].
Qed.

Lemma ipv4_done_ok out n cp :
  zlen out = 16 → 0 ≤ n ≤ 8 → -1 ≤ cp ≤ n → Forall is_byte out →
  match ipv4_done out n cp with
  | Fault => False
  | Rej => True
  | Ret a => zlen a = 16 ∧ Forall is_byte a
  end.
Proof.
  intros Ho Hn Hc Hb. unfold ipv4_done.
  assert (∀ cp0, 0 ≤ cp0 ≤ n →
    let src := ztake (2 * (n - cp0)) (zdrop (2 * cp0) out) in
    let o1 := zwrite (2 * (8 - (n - cp0))) src out in
    let a := zwrite (2 * cp0) (replicate (Z.to_nat (2 * (8 - (n - cp0) - cp0))) 0) o1 in
    zlen a = 16 ∧ Forall is_byte a) as Hkey.
  { intros cp0 H0. cbn zeta. set (src := ztake _ _).
    assert (zlen src = 2 * (n - cp0)) as Hsrc by (unfold src; rewrite zlen_ztake; rewrite ?zlen_zdrop; lia).
    assert (zlen (zwrite (2 * (8 - (n - cp0))) src out) = 16) as H1 by (rewrite zlen_zwrite; lia).
    split; [rewrite zlen_zwrite; rewrite ?length_replicate; lia|].
    repeat apply Forall_zwrite; try done.
    - apply Forall_replicate. unfold is_byte. lia.
    - by apply Forall_ztake, Forall_zdrop. }
  destruct (Z.eqb_spec cp (-1)) as [->|Hne].
  - destruct (negb (n =? 8)) eqn:H8; cbn [reject_if mbind result_bind]; [done|].
    rewrite !(proj2 (Z.leb_le _ _)) by lia. cbn [andb]. apply Hkey. lia.
  - cbn [mbind result_bind]. rewrite !(proj2 (Z.leb_le _ _)) by lia. cbn [andb]. apply Hkey. lia.
Qed.

(** The local array with the bytes [ip] written. *)
Definition written (ip : list Z) : list (option Z) := map Some ip ++ replicate (4 - length ip) None.

Lemma put_byte_written ip b : zlen ip ≤ 3 → put_byte (zlen ip) b (written ip) = Ret (written (ip ++ [b])).
Proof.
  intros Hl. destruct ip as [|x [|y [|z [|w ip]]]]; [reflexivity..|cbn [length] in Hl; lia].
Qed.

Lemma written_all ip : zlen ip = 4 → mapM id (written ip) = Some ip.
Proof.
  intros Hl. destruct ip as [|x [|y [|z [|w [|v ip]]]]]; cbn [length] in Hl; try lia. reflexivity.
Qed.

Lemma scan_ipv4_ok s ip byte e :
  zlen ip ≤ 3 → is_byte byte → Forall is_byte ip →
  match scan_ipv4 s (written ip) (zlen ip) byte e with
  | Fault => False
  | Rej => True
  | Ret a => ∃ ip', a = written ip' ∧ zlen ip' = 4 ∧ Forall is_byte ip'
  end.
Proof.
  revert ip byte e. induction s as [|c s IH]; intros ip byte e Hl Hb Hf; cbn [scan_ipv4].
  - destruct (negb (zlen ip =? 3) || e) eqn:H3; cbn [reject_if mbind result_bind]; [done|].
    rewrite put_byte_written by done. exists (ip ++ [byte]).
    rewrite zlen_app. split_and!; [done|cbn [length]; lia|]. apply Forall_app; auto.
  - destruct (Ascii.eqb c ".").
    + destruct (e || (zlen ip =? 3)) eqn:H3; cbn [reject_if mbind result_bind]; [done|].
      rewrite put_byte_written by done. cbn [mbind result_bind].
      replace (zlen ip + 1) with (zlen (ip ++ [byte])) by (rewrite zlen_app; done).
      apply IH; [rewrite zlen_app; cbn [length]; lia|unfold is_byte; lia|]. apply Forall_app; auto.
    + unfold add_decimal_digit.
      destruct (negb e && (byte =? 0)); cbn [reject_if mbind result_bind]; [done|].
      destruct (decode_decimal_digit (char_code c) <? 0) eqn:H1; cbn [reject_if mbind result_bind]; [done|].
      destruct (255 / 10 <? byte) eqn:H2; cbn [reject_if mbind result_bind]; [done|].
      destruct (255 - byte * 10 <? decode_decimal_digit (char_code c)) eqn:H3; cbn [reject_if mbind result_bind]; [done|].
      apply IH; [done| |done]. unfold is_byte in *. lia.
Qed.

Lemma flat_range bl : Forall is_block bl → Forall is_byte (flat bl).
Proof.
  induction 1 as [|b bl Hb _ IH]; [constructor|]. unfold flat in *. cbn -[block_bytes].
  apply Forall_app. split; [by apply block_bytes_range|done].
Qed.

Lemma parse_is_safe name out :
  zlen out = 16 → Forall is_byte out →
  match ipaddr6_parse_ipv6_addr name out with
  | Fault => False
  | Rej => True
  | Ret a => zlen a = 16 ∧ Forall is_byte a
  end.
Proof.
  intros Ho Hb. unfold ipaddr6_parse_ipv6_addr, ipaddr6_parse_ipv6_addr_bin.
  assert (scan_ok [] out (-1) 0) as Hok by (split; cbn; try done; unfold is_block; lia).
  pose proof (scan_is_safe name name 0 [] out (-1) 0 true ltac:(done) Hok ltac:(naive_solver)) as Hs.
  change (st_of [] out (-1) 0 true) with (mk_scan out 0 (-1) 0 true) in Hs.
  destruct (scan name 0 _) as [[st|i st]| |]; cbn [scan_safe mbind result_bind] in *; [| |done|done].
  - destruct Hs as (bl & junk & cp & b & e & -> & [Hz Hn Hc Hbl Hr Hj]). cbn [empty st_of num_blocks block bytes compress_pos].
    destruct e; cbn [negb].
    + destruct (negb (zlen bl =? cp)); cbn [reject_if mbind result_bind]; [done|].
      apply ipv4_done_ok; rewrite ?zlen_app, ?zlen_flat; try lia. apply Forall_app; split; [by apply flat_range|done].
    + rewrite put_block_flat by lia. cbn [mbind result_bind].
      apply ipv4_done_ok; rewrite ?zlen_app, ?zlen_flat, ?zlen_app, ?zlen_zdrop; cbn [length]; try lia.
      apply Forall_app; split; [|by apply Forall_zdrop]. apply flat_range, Forall_app; auto.
  - destruct Hs as (bl & junk & cp & b & e & -> & [Hz Hn Hc Hbl Hr Hj] & [c Hi] & Hcol). unfold ipv4_ending.
    cbn [empty st_of num_blocks block bytes compress_pos].
    destruct (e || _) eqn:He; cbn [reject_if mbind result_bind]; [done|].
    apply orb_false_iff in He as [_ He].
    destruct (rewind_ok name i) as [k Hk].
    { intros j. by apply get_before with c. }
    { apply Hcol. destruct bl; [right|by left]. by intros ->. }
    rewrite Hk. cbn [mbind result_bind].
    pose proof (scan_ipv4_ok (sdrop k name) [] 0 true ltac:(done) ltac:(done) ltac:(done)) as H4.
    change (written []) with ([None; None; None; None] : list (option Z)) in H4. change (zlen (@nil Z)) with 0 in H4.
    destruct (scan_ipv4 _ _ _ _ _) as [local| |]; cbn [mbind result_bind]; [|done|done]. destruct H4 as (ip & -> & Hip & Hib).
    destruct (8 - zlen bl <? 2) eqn:H8; cbn [reject_if mbind result_bind]; [done|]. rewrite written_all by done.
    rewrite zlen_app, zlen_flat. rewrite !(proj2 (Z.leb_le _ _)) by lia. cbn [andb].
    rewrite <- zlen_flat, zwrite_app by lia.
    apply ipv4_done_ok; rewrite ?zlen_app, ?zlen_flat, ?zlen_zdrop; try lia.
    repeat (apply Forall_app; split); [by apply flat_range|done|by apply Forall_zdrop].
Qed.

(** ** Printing and parsing back *)

Lemma decode_hex_digit_hex d : 0 ≤ d < 16 → decode_hex_digit (char_code (hex_digit d)) = d.
Proof.
  intros Hd. assert (∃ n, (n < 16)%nat ∧ d = Z.of_nat n) as (n & Hn & ->) by (exists (Z.to_nat d); lia).
  do 16 (destruct n as [|n]; [done|]). lia.
Qed.

Lemma hex_digit_plain d : 0 ≤ d < 16 → Ascii.eqb (hex_digit d) "." = false ∧ Ascii.eqb (hex_digit d) ":" = false.
Proof.
  intros Hd. assert (∃ n, (n < 16)%nat ∧ d = Z.of_nat n) as (n & Hn & ->) by (exists (Z.to_nat d); lia).
  do 16 (destruct n as [|n]; [done|]). lia.
Qed.

Lemma scan_digit d s i bl junk cp v e :
  0 ≤ d < 16 → 0 ≤ v → v * 16 + d < 65536 →
  scan (String (hex_digit d) s) i (st_of bl junk cp v e) = scan s (i + 1) (st_of bl junk cp (v * 16 + d) false).
Proof.
  intros Hd Hv Hb. destruct (hex_digit_plain d Hd) as [H1 H2]. cbn [scan]. rewrite H1, H2.
  unfold add_hex_digit. rewrite decode_hex_digit_hex by done. cbn [block st_of].
  change (UINT16_MAX / 16) with 4095. unfold UINT16_MAX.
  by rewrite (proj2 (Z.ltb_ge d 0)), (proj2 (Z.ltb_ge 4095 v)), (proj2 (Z.ltb_ge (65535 - v * 16) d)) by lia.
Qed.

Lemma scan_hex_digits fuel n acc :
  0 ≤ n < 16 ^ Z.of_nat (S fuel) →
  ∃ k, 0 ≤ k ∧ ∀ v e i bl junk cp, 0 ≤ v → v * 16 ^ k + n < 65536 →
    ∃ i', (i < i')%nat ∧ scan (hex_digits (S fuel) n acc) i (st_of bl junk cp v e) =
      scan acc i' (st_of bl junk cp (v * 16 ^ k + n) false).
Proof.
  revert n acc. induction fuel as [|fuel IH]; intros n acc Hn.
  - cbn in Hn. exists 1. split; [lia|]. intros v e i bl junk cp Hv Hlt. exists (i + 1)%nat. split; [lia|].
    cbn [hex_digits]. rewrite (proj2 (Z.ltb_lt n 16)), Z.mod_small by lia. rewrite scan_digit by lia. do 2 f_equal; lia.
  - remember (S fuel) as f eqn:Hf. cbn [hex_digits]. pose proof (Z.mod_pos_bound n 16 ltac:(lia)) as Hm.
    destruct (Z.ltb_spec n 16) as [H16|H16].
    + exists 1. split; [lia|]. intros v e i bl junk cp Hv Hlt. exists (i + 1)%nat. split; [lia|].
      rewrite Z.mod_small by lia. rewrite scan_digit by lia. do 2 f_equal; lia.
    + rewrite Nat2Z.inj_succ, Z.pow_succ_r in Hn by lia.
      destruct (IH (n / 16) (String (hex_digit (n mod 16)) acc)) as (k & Hk & HH).
      { split; [apply Z.div_pos; lia|]. apply Z.div_lt_upper_bound; lia. }
      exists (k + 1). split; [lia|]. intros v e i bl junk cp Hv Hlt. rewrite Z.pow_add_r in * by lia.
      pose proof (Z.div_mod n 16 ltac:(lia)) as Hdm. pose proof (Z.pow_pos_nonneg 16 k ltac:(lia) Hk).
      destruct (HH v e i bl junk cp Hv) as (i' & Hi & ->); [nia|].
      exists (i' + 1)%nat. split; [lia|]. rewrite scan_digit by nia. do 2 f_equal; lia.
Qed.

Lemma hex_digits_app fuel n acc rest :
  String.append (hex_digits fuel n acc) rest = hex_digits fuel n (String.append acc rest).
Proof.
  revert n acc. induction fuel as [|fuel IH]; intros n acc; cbn [hex_digits]; [done|].
  destruct (n <? 16); [done|]. by rewrite IH.
Qed.

Lemma scan_hex16 b rest i bl junk cp :
  is_block b →
  ∃ i', (i < i')%nat ∧ scan (String.append (print_hex16 b) rest) i (st_of bl junk cp 0 true) =
    scan rest i' (st_of bl junk cp b false).
Proof.
  intros Hb. unfold print_hex16. rewrite hex_digits_app.
  destruct (scan_hex_digits 3 b (String.append "" rest) Hb) as (k & _ & Hk).
  destruct (Hk 0 true i bl junk cp) as (i' & Hi & ->); [done|unfold is_block in Hb; lia|].
  by exists i'.
Qed.

Lemma hex_digits_head fuel n acc : ∃ d s, 0 ≤ d < 16 ∧ hex_digits (S fuel) n acc = String (hex_digit d) s.
Proof.
  revert n acc. induction fuel as [|fuel IH]; intros n acc.
  - cbn [hex_digits]. exists (n mod 16), acc. split; [apply Z.mod_pos_bound; lia|by destruct (n <? 16)].
  - remember (S fuel) as f. cbn [hex_digits]. destruct (n <? 16); [|apply IH].
    exists (n mod 16), acc. split; [apply Z.mod_pos_bound; lia|done].
Qed.

Lemma is_colon_hex16 b rest : is_colon (String.append (print_hex16 b) rest) = false.
Proof.
  unfold print_hex16. rewrite hex_digits_app. destruct (hex_digits_head 3 b (String.append "" rest)) as (d & s & Hd & ->).
  cbn. by apply hex_digit_plain.
Qed.

(** A colon between two blocks, and "::" after a block. *)
Lemma scan_colon d s i bl junk cp b :
  (0 < i)%nat → zlen bl < 7 → 2 ≤ zlen junk → is_colon s = d → (d = true → cp = -1) →
  scan (String ":" s) i (st_of bl junk cp b false) =
    if d then match s with String _ s' => scan s' (i + 2) (st_of (bl ++ [b]) (zdrop 2 junk) (zlen bl + 1) 0 true) | _ => Fault end
    else scan s (i + 1) (st_of (bl ++ [b]) (zdrop 2 junk) cp 0 true).
Proof.
  intros Hi Hl Hj Hd Hcp. cbn [scan Ascii.eqb Bool.eqb]. rewrite next_is_colon_ok. cbn [mbind result_bind]. rewrite Hd. unfold end_block.
  rewrite (proj2 (Nat.ltb_lt 0 i)) by done. cbn [empty num_blocks block bytes compress_pos st_of orb].
  rewrite (proj2 (Z.eqb_neq _ _)) by lia. cbn [reject_if mbind result_bind]. rewrite put_block_flat by done.
  cbn [mbind result_bind compress_pos].
  assert (zlen bl + 1 = zlen (bl ++ [b])) as Hlen by (rewrite zlen_app; done).
  destruct d; cbn [mbind result_bind].
  - rewrite Hcp by done. cbn [Z.eqb negb reject_if mbind result_bind bytes num_blocks block empty compress_pos].
    unfold st_of. by rewrite Hlen.
  - unfold st_of. by rewrite Hlen.
Qed.

Lemma join_cons sep s t l : join sep (s :: t :: l) = String.append s (String.append sep (join sep (t :: l))).
Proof. done. Qed.

Lemma str_app_assoc s t u : String.append (String.append s t) u = String.append s (String.append t u).
Proof. induction s as [|c s IH]; [done|]. rewrite !str_app_cons. by rewrite IH. Qed.

Lemma scan_join l b tail i bl junk cp :
  Forall is_block (l ++ [b]) → zlen bl + zlen l ≤ 7 → 2 * zlen bl + zlen junk = 16 →
  ∃ i', (i < i')%nat ∧
    scan (String.append (join colon (map print_hex16 (l ++ [b]))) tail) i (st_of bl junk cp 0 true) =
    scan tail i' (st_of (bl ++ l) (zdrop (2 * zlen l) junk) cp b false).
Proof.
  revert i bl junk. induction l as [|b0 l IH]; intros i bl junk Hb Hl Hj.
  - rewrite app_nil_r. apply Forall_app in Hb as [_ Hb]. apply Forall_cons in Hb as [Hb _]. cbn [length].
    change (2 * Z.of_nat 0) with 0. rewrite zdrop_0. cbn [app map join]. by apply scan_hex16.
  - cbn [app] in Hb |- *. apply Forall_cons in Hb as [Hb0 Hb]. cbn [length] in *.
    assert (∃ b1 l1, l ++ [b] = b1 :: l1) as (b1 & l1 & Hl1) by (destruct l; cbn; eauto).
    cbn [map]. rewrite Hl1. cbn [map]. rewrite join_cons, !str_app_assoc.
    destruct (scan_hex16 b0 (String.append colon (String.append (join colon (print_hex16 b1 :: map print_hex16 l1)) tail))
      i bl junk cp Hb0) as (i1 & Hi1 & ->).
    rewrite (str_app_cons ":" "" _). change (String.append "" ?x) with x.
    rewrite (scan_colon false); [|lia|lia|lia| |done].
    + destruct (IH (i1 + 1)%nat (bl ++ [b0]) (zdrop 2 junk) Hb) as (i2 & Hi2 & Hr).
      { rewrite zlen_app. cbn [length]. lia. }
      { rewrite zlen_app, zlen_zdrop; cbn [length]; lia. }
      rewrite Hl1 in Hr. cbn [map] in Hr. exists i2. split; [lia|]. rewrite Hr. rewrite <- app_assoc. cbn [app].
      rewrite zdrop_zdrop by lia. do 3 f_equal. lia.
    + destruct l1 as [|b2 l1]; cbn [map join]; rewrite ?str_app_assoc; apply is_colon_hex16.
Qed.

Lemma ztake_app_more {A} n (l1 l2 : list A) : zlen l1 ≤ n → ztake n (l1 ++ l2) = l1 ++ ztake (n - zlen l1) l2.
Proof. intros Hn. unfold ztake. rewrite take_app, take_ge by lia. do 2 f_equal. lia. Qed.

Lemma ipv4_done_flat F R junk :
  zlen F + zlen R ≤ 8 → 2 * (zlen F + zlen R) + zlen junk = 16 →
  ipv4_done (flat (F ++ R) ++ junk) (zlen (F ++ R)) (zlen F) =
    Ret (flat F ++ replicate (Z.to_nat (2 * (8 - zlen R - zlen F))) 0 ++ flat R).
Proof.
  intros Hl Hj. unfold ipv4_done. rewrite zlen_app. rewrite (proj2 (Z.eqb_neq _ _)) by lia. cbn [mbind result_bind].
  replace (zlen F + zlen R - zlen F) with (zlen R) by lia.
  assert (zlen (flat (F ++ R) ++ junk) = 16) as Hz by (rewrite !zlen_app, zlen_flat, zlen_app; lia).
  rewrite Hz, !(proj2 (Z.leb_le _ _)) by lia. cbn [andb]. f_equal.
  assert (ztake (2 * zlen R) (zdrop (2 * zlen F) (flat (F ++ R) ++ junk)) = flat R) as ->.
  { rewrite flat_app, <- app_assoc, zdrop_app_exact by (rewrite zlen_flat; lia).
    rewrite ztake_app_exact; [done|rewrite zlen_flat; lia]. }
  assert (∃ mid, zwrite (2 * (8 - zlen R)) (flat R) (flat (F ++ R) ++ junk) = flat F ++ mid ++ flat R ∧
    zlen mid = 2 * (8 - zlen R - zlen F)) as (mid & -> & Hm).
  { exists (ztake (2 * (8 - zlen R - zlen F)) (flat R ++ junk)). split.
    - unfold zwrite. rewrite (zdrop_past _ (flat (F ++ R) ++ junk)) by (rewrite Hz, zlen_flat; lia). rewrite app_nil_r.
      pose proof (zlen_flat F). rewrite flat_app, <- app_assoc, (ztake_app_more _ (flat F)), <- app_assoc by lia.
      by replace (2 * (8 - zlen R) - zlen (flat F)) with (2 * (8 - zlen R - zlen F)) by lia.
    - rewrite zlen_ztake; rewrite ?zlen_app, ?zlen_flat; lia. }
  rewrite <- (zlen_flat F) at 1. rewrite zwrite_app by lia. do 2 f_equal.
  rewrite zdrop_app_exact; [done|]. rewrite length_replicate. lia.
Qed.

(** Parsing a text of two lists of blocks around "::", and of eight blocks. *)
Lemma parse_compressed F R out :
  Forall is_block F → Forall is_block R → zlen F + zlen R < 8 → zlen out = 16 →
  ipaddr6_parse_ipv6_addr
    (String.append (join colon (map print_hex16 F)) (String.append "::" (join colon (map print_hex16 R)))) out =
  Ret (flat F ++ replicate (Z.to_nat (2 * (8 - zlen R - zlen F))) 0 ++ flat R).
Proof.
  intros HF HR Hl Ho. unfold ipaddr6_parse_ipv6_addr, ipaddr6_parse_ipv6_addr_bin.
  change (mk_scan out 0 (-1) 0 true) with (st_of [] out (-1) 0 true).
  set (tail := join colon (map print_hex16 R)).
  assert (∃ i, scan (String.append (join colon (map print_hex16 F)) (String.append "::" tail)) 0 (st_of [] out (-1) 0 true) =
    scan tail i (st_of F (zdrop (2 * zlen F) out) (zlen F) 0 true)) as (i & ->).
  { destruct F as [|b F _] using rev_ind; [by exists 2%nat; rewrite zdrop_0|].
    rewrite zlen_app in *. cbn [length] in *.
    destruct (scan_join F b (String.append "::" tail) 0 [] out (-1) HF) as (i & Hi & ->); [cbn; lia|cbn; lia|].
    rewrite (str_app_cons ":" ":" tail). rewrite (str_app_cons ":" "" tail). change (String.append "" tail) with tail.
    exists (i + 2)%nat. rewrite (scan_colon true); [|lia| |rewrite zlen_zdrop; lia|done|done].
    - cbn [app]. rewrite zdrop_zdrop by lia. do 3 f_equal. lia.
    - cbn [app]. lia. }
  destruct R as [|b R _] using rev_ind.
  - cbn [tail map join scan mbind result_bind]. subst tail. cbn [map join scan mbind result_bind empty st_of negb num_blocks compress_pos bytes].
    rewrite Z.eqb_refl. cbn [negb reject_if mbind result_bind].
    pose proof (ipv4_done_flat F [] (zdrop (2 * zlen F) out)) as Hd. rewrite app_nil_r in Hd. apply Hd; [cbn; lia|].
    rewrite zlen_zdrop; cbn [length] in *; lia.
  - rewrite zlen_app in *. cbn [length] in *. subst tail.
    destruct (scan_join R b "" i F (zdrop (2 * zlen F) out) (zlen F) HR) as (i' & _ & Hs); [lia| |].
    { rewrite zlen_zdrop; lia. }
    rewrite str_app_nil_r in Hs. rewrite Hs. cbn [scan mbind result_bind empty st_of negb num_blocks block bytes compress_pos].
    rewrite put_block_flat by (rewrite !zdrop_zdrop, zlen_zdrop by lia; lia). cbn [mbind result_bind].
    rewrite <- app_assoc.
    replace (zlen (F ++ R) + 1) with (zlen (F ++ R ++ [b])) by (rewrite !zlen_app; cbn [length]; lia).
    rewrite ipv4_done_flat; rewrite ?zlen_app; cbn [length]; [done|lia|].
    rewrite !zdrop_zdrop, zlen_zdrop by lia. lia.
Qed.

Lemma parse_plain l b out :
  Forall is_block (l ++ [b]) → zlen l = 7 → zlen out = 16 →
  ipaddr6_parse_ipv6_addr (join colon (map print_hex16 (l ++ [b]))) out = Ret (flat (l ++ [b])).
Proof.
  intros Hb Hl Ho. unfold ipaddr6_parse_ipv6_addr, ipaddr6_parse_ipv6_addr_bin.
  change (mk_scan out 0 (-1) 0 true) with (st_of [] out (-1) 0 true).
  destruct (scan_join l b "" 0 [] out (-1) Hb) as (i & _ & Hs); [cbn; lia|done|].
  rewrite str_app_nil_r in Hs. rewrite Hs. cbn [scan mbind result_bind empty st_of negb num_blocks block bytes compress_pos app].
  rewrite put_block_flat by (rewrite zlen_zdrop; lia). cbn [mbind result_bind].
  replace (zlen l + 1) with (zlen (l ++ [b])) by (rewrite zlen_app; cbn [length]; lia).
  pose proof (ipv4_done_flat [] (l ++ [b]) (zdrop 2 (zdrop (2 * zlen l) out))) as Hd. cbn [app] in Hd.
  unfold ipv4_done in *. rewrite !zlen_app in *. cbn [length] in *. rewrite Hl in *. apply Hd; [lia|].
  rewrite !zdrop_zdrop, zlen_zdrop by lia. lia.
Qed.

(** *** What the printer writes *)

Definition addr_blocks (addr : list Z) : list Z := map (addr_block addr) (seq 0 8).

Lemma lor_bytes x y : is_byte x → is_byte y → Z.lor (Z.shiftl x 8) y = x * 256 + y.
Proof.
  intros Hx Hy. rewrite <- (be16_eq x y [] Hx Hy). unfold badvpn_read_be16. cbn [nth]. by rewrite Z.shiftl_0_r.
Qed.

Lemma block_bytes_pair x y : is_byte x → is_byte y → block_bytes (Z.lor (Z.shiftl x 8) y) = [x; y].
Proof.
  intros Hx Hy. rewrite lor_bytes by done. unfold block_bytes, is_byte in *. change 255 with (Z.ones 8).
  rewrite Z.land_ones, Z.shiftr_div_pow2 by lia. change (2 ^ 8) with 256. f_equal; [|f_equal]; Z.div_mod_to_equations; lia.
Qed.

Lemma nth_byte addr k : Forall is_byte addr → is_byte (nth k addr 0).
Proof. intros Ha. revert k. induction Ha as [|x l Hx _ IH]; intros [|k]; cbn; done || apply IH. Qed.

Lemma addr_block_range addr i : Forall is_byte addr → is_block (addr_block addr i).
Proof.
  intros Ha. pose proof (nth_byte addr (2 * i) Ha) as H1. pose proof (nth_byte addr (2 * i + 1) Ha) as H2.
  unfold addr_block. rewrite lor_bytes by done. unfold is_byte, is_block in *. lia.
Qed.

Lemma addr_blocks_range addr : Forall is_byte addr → Forall is_block (addr_blocks addr).
Proof. intros Ha. apply Forall_fmap, Forall_forall. intros i _. by apply addr_block_range. Qed.

Lemma flat_addr_blocks addr : zlen addr = 16 → Forall is_byte addr → flat (addr_blocks addr) = addr.
Proof.
  intros Hz Ha. do 16 (destruct addr as [|? addr]; [cbn in Hz; lia|]). destruct addr; [|cbn in Hz; lia].
  repeat (apply Forall_cons in Ha as [? Ha]). unfold flat, addr_blocks, addr_block. cbn [seq map nth Nat.mul Nat.add mbind list_bind].
  by rewrite !block_bytes_pair.
Qed.

(** The run found by the loop is made of zero blocks. *)
Record run_ok (addr : list Z) (i : nat) (r : run_t) : Prop := {
  ro_current : 0 ≤ current_start r ∧ 0 ≤ current_len r ∧ current_start r + current_len r = Z.of_nat i;
  ro_largest : 0 ≤ largest_start r ∧ 0 ≤ largest_len r ∧ largest_start r + largest_len r ≤ Z.of_nat i;
  ro_zero : ∀ k, current_start r ≤ Z.of_nat k < Z.of_nat i ∨
    largest_start r ≤ Z.of_nat k < largest_start r + largest_len r → addr_block addr k = 0
}.

Lemma run_step_ok addr i r : run_ok addr i r → run_ok addr (S i) (run_step addr r i).
Proof.
  intros [Hc Hl Hz]. unfold run_step. destruct (_ && _) eqn:He.
  - assert (addr_block addr i = 0) as Hi.
    { apply andb_true_iff in He as [H1%Z.eqb_eq H2%Z.eqb_eq]. unfold addr_block. by rewrite H1, H2. }
    destruct (Z.ltb_spec (largest_len r) (current_len r + 1)); split; cbn; try lia.
    all: intros k Hk; destruct (decide (k = i)) as [->|]; [done|]; apply Hz; lia.
  - split; cbn; try lia. intros k Hk. apply Hz. lia.
Qed.

Lemma largest_run_ok addr : run_ok addr 8 (largest_run addr).
Proof.
  unfold largest_run. assert (run_ok addr 0 (mk_run 0 0 0 0)) as H0 by (split; cbn; lia).
  cbn [foldl seq]. by do 8 apply run_step_ok.
Qed.

Lemma concat_map_join {A} (f : A → string) x l :
  String.append (f x) (concat_map (λ y, String.append colon (f y)) l) = join colon (map f (x :: l)).
Proof.
  revert x. induction l as [|y l IH]; intros x; [apply str_app_nil_r|].
  change (map f (x :: y :: l)) with (f x :: f y :: map f l). rewrite join_cons. f_equal. cbn [concat_map].
  rewrite str_app_assoc. f_equal. apply IH.
Qed.

Lemma concat_map_front {A} (f : A → string) x l :
  concat_map (λ y, String.append (f y) colon) (x :: l) = String.append (join colon (map f (x :: l))) colon.
Proof.
  revert x. induction l as [|y l IH]; intros x; [apply str_app_nil_r|].
  change (map f (x :: y :: l)) with (f x :: f y :: map f l). rewrite join_cons.
  change (concat_map ?g (x :: y :: l)) with (String.append (g x) (concat_map g (y :: l))). cbv beta. rewrite IH.
  by rewrite !str_app_assoc.
Qed.

Lemma append_double s : String.append "::" s = String.append colon (String.append colon s).
Proof. done. Qed.

Lemma str_app_nil_l s : String.append "" s = s.
Proof. done. Qed.

Lemma seq_cons_ex s n : (0 < n)%nat → ∃ l, seq s n = s :: l.
Proof. destruct n; [lia|]. cbn. eauto. Qed.

Lemma map_seq_zero (g : nat → Z) a n : (∀ k, (a ≤ k < a + n)%nat → g k = 0) → map g (seq a n) = replicate n 0.
Proof.
  revert a. induction n as [|n IH]; intros a Hg; [done|]. cbn [seq map replicate].
  rewrite Hg by lia. f_equal. apply IH. intros. apply Hg. lia.
Qed.

(** Either eight blocks, or the blocks around the longest run of zeros. *)
Lemma print_forms addr :
  ipaddr6_print_addr addr = join colon (map print_hex16 (addr_blocks addr)) ∨
  ∃ F R z, addr_blocks addr = F ++ replicate (S z) 0 ++ R ∧
    ipaddr6_print_addr addr =
      String.append (join colon (map print_hex16 F)) (String.append "::" (join colon (map print_hex16 R))).
Proof.
  unfold ipaddr6_print_addr. destruct (largest_run_ok addr) as [_ (Hs & Hn & Hle) Hz].
  set (r := largest_run addr) in *. clearbody r. destruct (Z.ltb_spec 1 (largest_len r)) as [Hlong|Hshort].
  - right. set (a := Z.to_nat (largest_start r)). set (n := Z.to_nat (largest_len r)).
    assert (Z.to_nat (largest_start r + largest_len r) = (a + n)%nat) as -> by lia.
    exists (map (addr_block addr) (seq 0 a)), (map (addr_block addr) (seq (a + n) (8 - (a + n)))), (n - 1)%nat. split.
    + unfold addr_blocks. replace 8%nat with (a + (n + (8 - (a + n))))%nat at 1 by lia.
      rewrite !seq_app, !map_app. cbn [Nat.add]. f_equal. f_equal.
      replace (S (n - 1)) with n by lia. apply map_seq_zero. intros k Hk. apply Hz. lia.
    + rewrite !map_map. set (f := λ x, print_hex16 (addr_block addr x)).
      change (λ i, String.append (print_hex16 (addr_block addr i)) colon) with (λ i, String.append (f i) colon).
      change (λ i, String.append colon (print_hex16 (addr_block addr i))) with (λ i, String.append colon (f i)).
      assert (String.append (concat_map (λ i, String.append colon (f i)) (seq (a + n) (8 - (a + n))))
        (if largest_start r + largest_len r =? 8 then colon else EmptyString) =
        String.append colon (join colon (map f (seq (a + n) (8 - (a + n)))))) as Hrear.
      { destruct (Z.eqb_spec (largest_start r + largest_len r) 8).
        - replace (8 - (a + n))%nat with 0%nat by lia. done.
        - destruct (seq_cons_ex (a + n) (8 - (a + n))) as [l ->]; [lia|]. rewrite str_app_nil_r.
          cbn [concat_map]. rewrite str_app_assoc. f_equal. apply concat_map_join. }
      rewrite Hrear. destruct (Z.eqb_spec (largest_start r) 0).
      * replace a with 0%nat by lia. cbn [seq map join concat_map]. rewrite append_double. reflexivity.
      * destruct (seq_cons_ex 0 a) as [l Hl]; [lia|]. rewrite Hl, concat_map_front.
        rewrite append_double, str_app_assoc, str_app_nil_l. reflexivity.
  - left. unfold addr_blocks. rewrite map_map. change (seq 0 8) with (0%nat :: seq 1 7).
    exact (concat_map_join (λ i, print_hex16 (addr_block addr i)) 0%nat (seq 1 7)).
Qed.

(** What the printer makes of an address is parsed back. *)
Lemma print_parse6 addr out : zlen out = 16 → zlen addr = 16 → Forall is_byte addr →
  ipaddr6_parse_ipv6_addr (ipaddr6_print_addr addr) out = Ret addr.
Proof.
  intros Ho Hz Ha.
  pose proof (flat_addr_blocks addr Hz Ha) as Hflat. pose proof (addr_blocks_range addr Ha) as Hr.
  assert (length (addr_blocks addr) = 8%nat) as Hlen by done.
  destruct (print_forms addr) as [-> | (F & R & z & Hfr & ->)].
  - destruct (addr_blocks addr) as [|b l _] using rev_ind; [done|]. rewrite length_app in Hlen. cbn in Hlen.
    rewrite parse_plain; [by rewrite Hflat|done|lia|done].
  - rewrite Hfr in *. rewrite !length_app, length_replicate in Hlen.
    apply Forall_app in Hr as [HF Hr]. apply Forall_app in Hr as [_ HR].
    rewrite parse_compressed; [|done|done|lia|done]. rewrite <- Hflat, !flat_app. do 3 f_equal.
    replace (Z.to_nat (2 * (8 - zlen R - zlen F))) with (2 * S z)%nat by lia.
    generalize (S z). intros n. induction n as [|n IH]; [done|]. replace (2 * S n)%nat with (S (S (2 * n))) by lia.
    cbn [replicate]. unfold flat in *. cbn -[replicate Nat.mul]. by rewrite IH.
Qed.

(** ** The theorem *)

(** The parser of IPv6 addresses reads no character outside its input and
    writes nothing outside the 16 bytes of its output, whatever the text, and
    every address is parsed back from the text the printer makes of it,
    abbreviated or not. *)
Theorem ipaddr6_roundtrip out :
  zlen out = 16 → Forall is_byte out →
  (∀ name, match ipaddr6_parse_ipv6_addr name out with
           | Fault => False
           | Rej => True
           | Ret a => zlen a = 16 ∧ Forall is_byte a
           end) ∧
  (∀ addr, zlen addr = 16 → Forall is_byte addr → ipaddr6_parse_ipv6_addr (ipaddr6_print_addr addr) out = Ret addr).
Proof. intros. split; intros; [by apply parse_is_safe|by apply print_parse6]. Qed.

Lemma ipaddr6_roundtrip_witness :
  ipaddr6_print_addr [32;1;13;184;0;0;0;0;0;0;0;0;0;0;0;1] = "2001:db8::1"%string ∧
  ipaddr6_parse_ipv6_addr "2001:db8::1" (replicate 16 0) = Ret [32;1;13;184;0;0;0;0;0;0;0;0;0;0;0;1].
Proof.
  split; [reflexivity|].
  refine (proj2 (ipaddr6_roundtrip (replicate 16 0) _ _) [32;1;13;184;0;0;0;0;0;0;0;0;0;0;0;1] _ _).
  all: try reflexivity; repeat constructor; unfold is_byte; lia.
Defined.
