(* ===== verification/Networks.v ===== *)
(** * Networks: IPv4 addresses in text, prefixes and masks (misc/ipaddr.h,
    misc/ipaddr6.h)

    An IPv4 address is a [uint32_t] in network byte order: its four bytes in memory,
    [le_bytes 4], are the bytes of the address in order.  An IPv6 address is its 16
    bytes.  The text that is parsed is the codes of its characters for IPv4, and a
    [string] for IPv6 (as in Ipaddr6.v).  A function returns [None] where the code
    returns 0; [option] around that is for assertions. *)
From Stdlib Require Import Ascii String.
From S2P Require Import Prelude Bytes Text Addr CString Numbers Ipaddr6.

(** ** IPv4 (misc/ipaddr.h) *)

Record ipv4_ifaddr := mk_ifaddr4 { addr4 : Z; prefix4 : Z }.

(** The loop over the four parts, with the bytes of [*out_addr]. *)
Fixpoint parse_ipv4_loop (fuel : nat) (i : Z) (name out : list Z) : option (list Z) :=
  match fuel with
  | O => None
  | S fuel =>
      let j := match find_byte 46 name with Some j => j | None => zlen name end in
      if ((j =? zlen name) && (i <? 3)) || ((j <? zlen name) && (i =? 3)) then None
      else if (j <? 1) || (3 <? j) then None
      else
        d ← parse_unsigned_integer_bin (ztake j name);
        if 255 <? d then None
        else
          let out := zwrite i [d] out in
          if i =? 3 then Some out else parse_ipv4_loop fuel (i + 1) (zdrop (j + 1) name) out
  end.

Definition ipaddr_parse_ipv4_addr_bin (name : list Z) (out_addr : Z) : option Z :=
  le_val <$> parse_ipv4_loop 4 0 name (le_bytes 4 out_addr).

Definition ipaddr_parse_ipv4_addr (mem : list Z) (out_addr : Z) : option (option Z) :=
  name ← terminated mem; Some (ipaddr_parse_ipv4_addr_bin name out_addr).

Definition ipaddr_parse_ipv4_prefix_bin (str : list Z) : option Z :=
  d ← parse_unsigned_integer_bin str; if 32 <? d then None else Some d.

Definition ipaddr_parse_ipv4_prefix (mem : list Z) : option (option Z) :=
  str ← terminated mem; Some (ipaddr_parse_ipv4_prefix_bin str).

(** [b_find_char_bin] of misc/find_char.h is [find_byte]. *)
Definition ipaddr_parse_ipv4_ifaddr_bin (str : list Z) (out : ipv4_ifaddr) : option ipv4_ifaddr :=
  slash_pos ← find_byte 47 str;
  a ← ipaddr_parse_ipv4_addr_bin (ztake slash_pos str) (addr4 out);
  p ← ipaddr_parse_ipv4_prefix_bin (zdrop (slash_pos + 1) str);
  Some (mk_ifaddr4 a p).

Definition ipaddr_parse_ipv4_ifaddr (mem : list Z) (out : ipv4_ifaddr) : option (option ipv4_ifaddr) :=
  str ← terminated mem; Some (ipaddr_parse_ipv4_ifaddr_bin str out).

(** [t |= 1 << (width - i - 1)]: for the top bit of 32 the shift is one of a signed
    [int] into its sign, which the target wraps. *)
Definition set_top (width t i : Z) : Z := Z.lor t (Z.shiftl 1 (width - i - 1)).

Definition ipaddr_ipv4_mask_from_prefix `{Build} (prefix : Z) : option Z :=
  assert (0 <=? prefix);;
  assert (prefix <=? 32);;
  Some (hton32 (foldl (set_top 32) 0 (Z.of_nat <$> seq 0 (Z.to_nat prefix)))).

(** The value of [i] after [for (i = 0; i <= width; i++)], left at the first mask
    equal to [m]. *)
Fixpoint prefix_loop (fuel : nat) (width m i t : Z) : Z :=
  match fuel with
  | O => i
  | S fuel => if m =? t then i else prefix_loop fuel width m (i + 1) (if i <? width then set_top width t i else t)
  end.

Definition ipaddr_ipv4_prefix_from_mask (mask : Z) : option Z :=
  let i := prefix_loop 33 32 (ntoh32 mask) 0 0 in
  if i <=? 32 then Some i else None.

Definition ipaddr_ipv4_ifaddr_from_addr_mask (addr mask : Z) : option ipv4_ifaddr :=
  mk_ifaddr4 addr <$> ipaddr_ipv4_prefix_from_mask mask.

Definition ipaddr_ipv4_addrs_in_network `{Build} (addr1 addr2 netprefix : Z) : option bool :=
  assert (0 <=? netprefix);;
  assert (netprefix <=? 32);;
  mask ← ipaddr_ipv4_mask_from_prefix netprefix;
  Some (Z.land addr1 mask =? Z.land addr2 mask).

Definition IPADDR_PRINT_MAX : Z := 19.

(** The text without its terminator. *)
Definition ipaddr_print_addr (addr : Z) : list Z := text (join dot (map print_uint (le_bytes 4 addr))).

Definition ipaddr_print_ifaddr `{Build} (ifaddr : ipv4_ifaddr) : option (list Z) :=
  assert (0 <=? prefix4 ifaddr);;
  assert (prefix4 ifaddr <=? 32);;
  Some (ipaddr_print_addr (addr4 ifaddr) ++ 47 :: text (print_uint (prefix4 ifaddr))).

(** ** IPv6 (misc/ipaddr6.h) *)

Record ipv6_ifaddr := mk_ifaddr6 { addr6 : list Z; prefix6 : Z }.

Definition ipaddr6_parse_ipv6_prefix_bin (str : string) : option Z :=
  d ← parse_unsigned_integer_bin (text str); if 128 <? d then None else Some d.

Definition ipaddr6_parse_ipv6_prefix (str : string) : option Z := ipaddr6_parse_ipv6_prefix_bin str.

(** [b_find_char_bin] with the text before the slash and the text after it. *)
Definition ipaddr6_parse_ipv6_ifaddr_bin (str : string) (out : ipv6_ifaddr) : result ipv6_ifaddr :=
  match split_at "/" str with
  | None => Rej
  | Some (before, after) =>
      a ← ipaddr6_parse_ipv6_addr_bin before (addr6 out);
      match ipaddr6_parse_ipv6_prefix_bin after with
      | None => Rej
      | Some p => Ret (mk_ifaddr6 a p)
      end
  end.

Definition ipaddr6_parse_ipv6_ifaddr (str : string) (out : ipv6_ifaddr) : result ipv6_ifaddr :=
  ipaddr6_parse_ipv6_ifaddr_bin str out.

(** A byte with its [rem] highest bits set. *)
Definition top_byte (rem : Z) : Z := foldl (set_top 8) 0 (Z.of_nat <$> seq 0 (Z.to_nat rem)).

Definition ipaddr6_ipv6_mask_from_prefix `{Build} (prefix : Z) (out_mask : list Z) : option (list Z) :=
  assert (0 <=? prefix);;
  assert (prefix <=? 128);;
  let quot := prefix / 8 in
  let rem := prefix mod 8 in
  let out_mask := zwrite 0 (replicate (Z.to_nat quot) 255) out_mask in
  let out_mask := zwrite quot (replicate (Z.to_nat (16 - quot)) 0) out_mask in
  Some (if 0 <? rem then zwrite quot [top_byte rem] out_mask else out_mask).

(** The bytes after the prefix are zero. *)
Definition rest_zero (l : list Z) : bool := forallb (λ b, b =? 0) l.

(** From the position [8 * i = prefix] on. *)
Fixpoint prefix6_loop (mask : list Z) (prefix : Z) : option Z :=
  match mask with
  | [] => Some prefix
  | b :: mask =>
      if b =? 255 then prefix6_loop mask (prefix + 8)
      else
        let j := prefix_loop 9 8 b 0 0 in
        if j <=? 8 then if rest_zero mask then Some (prefix + j) else None else None
  end.

Definition ipaddr6_ipv6_prefix_from_mask (mask : list Z) : option Z := prefix6_loop mask 0.

Definition ipaddr6_ipv6_ifaddr_from_addr_mask (addr mask : list Z) : option ipv6_ifaddr :=
  mk_ifaddr6 addr <$> ipaddr6_ipv6_prefix_from_mask mask.

Definition ipaddr6_ipv6_addrs_in_network `{Build} (addr1 addr2 : list Z) (netprefix : Z) : option bool :=
  assert (0 <=? netprefix);;
  assert (netprefix <=? 128);;
  let quot := netprefix / 8 in
  let rem := netprefix mod 8 in
  cmp ← memcmp_n addr1 addr2 quot;
  if negb (cmp =? 0) then Some false
  else if rem =? 0 then Some true
  else
    x ← addr1 !! Z.to_nat quot;
    y ← addr2 !! Z.to_nat quot;
    Some (Z.land x (top_byte rem) =? Z.land y (top_byte rem)).

Definition IPADDR6_PRINT_MAX : Z := 44.

Definition ipaddr6_print_ifaddr `{Build} (addr : ipv6_ifaddr) : option string :=
  assert (0 <=? prefix6 addr);;
  assert (prefix6 addr <=? 128);;
  Some (String.append (ipaddr6_print_addr (addr6 addr)) (String "/" (print_uint (prefix6 addr)))).

(** ** Bits of an address *)

(** Bit [k] of an address in network order, the first one being the highest of the
    first byte. *)
Definition bit (a : list Z) (k : Z) : bool := Z.testbit (nth (Z.to_nat (k / 8)) a 0) (7 - k mod 8).

(** The first [p] bits of the two addresses are the same. *)
Definition same_network (p : Z) (a b : list Z) : Prop := ∀ k, 0 ≤ k < p → bit a k = bit b k.

(** The mask of [p] bits. *)
Definition is_mask (p : Z) (m : list Z) : Prop := ∀ k, 0 ≤ k < 8 * zlen m → bit m k = (k <? p).

Lemma byte_bits x y : is_byte x → is_byte y → (∀ j, 0 ≤ j < 8 → Z.testbit x j = Z.testbit y j) → x = y.
Proof.
  intros Hx Hy Hj. apply Z.bits_inj'. intros j Hj0. destruct (decide (j < 8)); [apply Hj; lia|].
  rewrite !Z.bits_above_log2; try done; unfold is_byte in *; try lia.
  - destruct (decide (y = 0)) as [->|]; [cbn; lia|]. apply Z.log2_lt_pow2; [lia|]. pose proof (Z.pow_le_mono_r 2 8 j). lia.
  - destruct (decide (x = 0)) as [->|]; [cbn; lia|]. apply Z.log2_lt_pow2; [lia|]. pose proof (Z.pow_le_mono_r 2 8 j). lia.
Qed.

Lemma bit_byte a i j : 0 ≤ j < 8 → 0 ≤ i → bit a (8 * i + (7 - j)) = Z.testbit (nth (Z.to_nat i) a 0) j.
Proof.
  intros Hj Hi. unfold bit. replace ((8 * i + (7 - j)) / 8) with i by (apply Z.div_unique with (7 - j); lia).
  replace ((8 * i + (7 - j)) mod 8) with (7 - j) by (apply Z.mod_unique with i; lia). f_equal. lia.
Qed.

Lemma bit_split k : 0 ≤ k → k = 8 * (k / 8) + (7 - (7 - k mod 8)) ∧ 0 ≤ 7 - k mod 8 < 8 ∧ 0 ≤ k / 8.
Proof. intros. pose proof (Z.div_mod k 8). pose proof (Z.mod_pos_bound k 8). pose proof (Z.div_pos k 8). lia. Qed.

Lemma bits_equal a b : length a = length b → Forall is_byte a → Forall is_byte b → same_network (8 * zlen a) a b → a = b.
Proof.
  intros Hl Ha Hb Hs. apply (nth_ext _ _ 0 0); [done|]. intros i Hi. apply byte_bits.
  - rewrite Forall_forall in Ha. by apply Ha, list_elem_of_In, nth_In.
  - rewrite Forall_forall in Hb. apply Hb, list_elem_of_In, nth_In. lia.
  - intros j Hj. pose proof (bit_byte a (Z.of_nat i) j Hj ltac:(lia)) as Hx. pose proof (bit_byte b (Z.of_nat i) j Hj ltac:(lia)) as Hy.
    rewrite Nat2Z.id in Hx, Hy. rewrite <- Hx, <- Hy. apply Hs. lia.
Qed.

Lemma bit_land a m k : length a = length m → bit (zip_with Z.land a m) k = bit a k && bit m k.
Proof.
  intros Hl. unfold bit. rewrite <- Z.land_spec. f_equal. generalize (Z.to_nat (k / 8)) as i. revert m Hl.
  induction a as [|x a IH]; intros [|y m] Hl i; try done; [by destruct i|]. destruct i; [done|]. cbn. apply IH. by injection Hl.
Qed.

Lemma le_bytes_land n a b : le_bytes n (Z.land a b) = zip_with Z.land (le_bytes n a) (le_bytes n b).
Proof.
  revert a b. induction n as [|n IH]; intros a b; [done|]. cbn [le_bytes zip_with]. f_equal.
  - change 256 with (2 ^ 8). rewrite <- !Z.land_ones by lia. rewrite (Z.land_comm b), !Z.land_assoc.
    rewrite <- (Z.land_assoc a (Z.ones 8) (Z.ones 8)), Z.land_diag, <- !Z.land_assoc. f_equal. apply Z.land_comm.
  - change 256 with (2 ^ 8). rewrite <- !Z.shiftr_div_pow2 by lia. by rewrite Z.shiftr_land.
Qed.

Lemma land_byte x y : is_byte x → is_byte y → is_byte (Z.land x y).
Proof.
  unfold is_byte. intros Hx Hy. split; [apply Z.land_nonneg; lia|].
  destruct (decide (Z.land x y = 0)) as [->|]; [lia|]. apply (Z.log2_lt_pow2 _ 8).
  - assert (0 ≤ Z.land x y) by (apply Z.land_nonneg; lia). lia.
  - eapply Z.le_lt_trans; [apply Z.log2_land; lia|]. destruct (decide (x = 0)) as [->|]; [cbn; lia|].
    eapply Z.le_lt_trans; [apply Z.le_min_l|]. apply Z.log2_lt_pow2; lia.
Qed.

Lemma Forall_land a m : Forall is_byte a → Forall is_byte m → Forall is_byte (zip_with Z.land a m).
Proof.
  intros Ha. revert m. induction Ha as [|x a Hx Ha IH]; intros [|y m] Hm; try done; cbn; [by constructor..|].
  apply Forall_cons in Hm as [Hy Hm]. constructor; [by apply land_byte|by apply IH].
Qed.

(** Two addresses under a mask of [p] bits are the same when their first [p] bits
    are. *)
Lemma masked_same p a b m : length a = length m → length b = length m → Forall is_byte a → Forall is_byte b → Forall is_byte m →
  is_mask p m → p ≤ 8 * zlen m → zip_with Z.land a m = zip_with Z.land b m ↔ same_network p a b.
Proof.
  intros Ha Hb Fa Fb Fm Hm Hp. split.
  - intros Heq k Hk. pose proof (bit_land a m k Ha) as H1. rewrite Heq, (bit_land b m k Hb), (Hm k), (proj2 (Z.ltb_lt _ _)) in H1 by lia.
    by rewrite !andb_true_r in H1.
  - intros Hs. apply bits_equal; [rewrite !length_zip_with; lia|by apply Forall_land..|].
    intros k Hk. rewrite length_zip_with in Hk. rewrite !bit_land, (Hm k) by (done || lia).
    destruct (Z.ltb_spec k p); [by rewrite Hs by lia|by rewrite !andb_false_r].
Qed.

(** A property of all prefixes up to [n], decided by trying them. *)
Lemma all_prefixes (n : Z) (P : Z → bool) : forallb (λ p, P (Z.of_nat p)) (seq 0 (S (Z.to_nat n))) = true →
  ∀ p, 0 ≤ p ≤ n → P p = true.
Proof.
  intros Hall p Hp. rewrite forallb_forall in Hall. specialize (Hall (Z.to_nat p)). rewrite Z2Nat.id in Hall by lia.
  apply Hall, in_seq. lia.
Qed.

Definition is_maskb (p : Z) (m : list Z) : bool :=
  forallb (λ k, Bool.eqb (bit m (Z.of_nat k)) (Z.of_nat k <? p)) (seq 0 (8 * length m)).

Lemma is_maskb_ok p m : is_maskb p m = true → is_mask p m.
Proof.
  intros Hall k Hk. unfold is_maskb in Hall. rewrite forallb_forall in Hall. specialize (Hall (Z.to_nat k)).
  rewrite Z2Nat.id in Hall by lia. apply eqb_prop, Hall, in_seq. lia.
Qed.

Lemma is_mask_unique p m m' : length m = length m' → Forall is_byte m → Forall is_byte m' → is_mask p m → is_mask p m' → m = m'.
Proof. intros Hl Hm Hm' H1 H2. apply bits_equal; [done..|]. intros k Hk. rewrite H1, H2 by lia. done. Qed.

(** ** Masks *)

(** The value of [t] at turn [i]. *)
Definition tops (width : Z) (i : nat) : Z := foldl (set_top width) 0 (Z.of_nat <$> seq 0 i).

Definition mask4 (p : Z) : Z := hton32 (tops 32 (Z.to_nat p)).

Lemma mask_from_prefix4 `{Build} p : 0 ≤ p ≤ 32 → ipaddr_ipv4_mask_from_prefix p = Some (mask4 p).
Proof. intros. unfold ipaddr_ipv4_mask_from_prefix. by rewrite !assert_true by (apply Z.leb_le; lia). Qed.

Lemma mask4_bits p : 0 ≤ p ≤ 32 → is_mask p (le_bytes 4 (mask4 p)).
Proof.
  intros Hp. apply is_maskb_ok. revert p Hp. apply (all_prefixes 32 (λ p, is_maskb p (le_bytes 4 (mask4 p)))). by vm_compute.
Qed.

Lemma prefix_of_mask4 p : 0 ≤ p ≤ 32 → ipaddr_ipv4_prefix_from_mask (mask4 p) = Some p.
Proof.
  intros Hp. assert ((λ p, bool_decide (ipaddr_ipv4_prefix_from_mask (mask4 p) = Some p)) p = true) as Hb.
  { revert p Hp. apply all_prefixes. by vm_compute. }
  by apply bool_decide_eq_true in Hb.
Qed.

Lemma tops_S width i : tops width (S i) = set_top width (tops width i) (Z.of_nat i).
Proof. unfold tops. by rewrite seq_S, fmap_app, foldl_app. Qed.

Lemma prefix_loop_found width m fuel i : Z.of_nat (i + fuel) = width + 1 →
  let r := prefix_loop fuel width m (Z.of_nat i) (tops width i) in
  Z.of_nat i ≤ r ≤ width + 1 ∧ (r ≤ width → m = tops width (Z.to_nat r)).
Proof.
  revert i. induction fuel as [|fuel IH]; intros i Hi; cbn [prefix_loop]; [lia|].
  destruct (Z.eqb_spec m (tops width i)) as [->|Hne]; [rewrite Nat2Z.id; split; [lia|done]|].
  specialize (IH (S i) ltac:(lia)). rewrite Nat2Z.inj_succ, <- Z.add_1_r, tops_S in IH.
  destruct (Z.ltb_spec (Z.of_nat i) width); [destruct IH as [IH1 IH2]; split; [lia|exact IH2]|].
  replace fuel with 0%nat in * by lia. cbn. lia.
Qed.

Lemma prefix4_found mask p : 0 ≤ mask < 2 ^ 32 → ipaddr_ipv4_prefix_from_mask mask = Some p → 0 ≤ p ≤ 32 ∧ mask = mask4 p.
Proof.
  intros Hm. unfold ipaddr_ipv4_prefix_from_mask.
  pose proof (prefix_loop_found 32 (ntoh32 mask) 33 0 ltac:(lia)) as (Hb & Hr).
  change (Z.of_nat 0) with 0 in *. change (tops 32 0) with 0 in *. set (r := prefix_loop 33 32 (ntoh32 mask) 0 0) in *. clearbody r.
  destruct (Z.leb_spec r 32); [|done]. intros [= <-]. split; [lia|].
  unfold mask4. rewrite <- Hr by done. symmetry. by apply ntoh32_hton32.
Qed.

(** The bytes of the mask of [p] bits of an IPv6 address. *)
Definition mask6 (p : Z) : list Z :=
  replicate (Z.to_nat (p / 8)) 255 ++
  (if 0 <? p mod 8 then top_byte (p mod 8) :: replicate (Z.to_nat (15 - p / 8)) 0 else replicate (Z.to_nat (16 - p / 8)) 0).

Lemma mask_from_prefix6 `{Build} p out : 0 ≤ p ≤ 128 → zlen out = 16 → ipaddr6_ipv6_mask_from_prefix p out = Some (mask6 p).
Proof.
  intros Hp Ho. unfold ipaddr6_ipv6_mask_from_prefix. rewrite !assert_true by (apply Z.leb_le; lia). cbn [mbind option_bind].
  pose proof (Z.div_mod p 8). pose proof (Z.mod_pos_bound p 8). set (q := p / 8) in *. set (r := p mod 8) in *.
  assert (0 ≤ q ≤ 16) by lia. f_equal. unfold mask6. fold q r.
  assert (zwrite 0 (replicate (Z.to_nat q) 255) out = replicate (Z.to_nat q) 255 ++ zdrop q out) as ->.
  { unfold zwrite. rewrite length_replicate, Z2Nat.id by lia. done. }
  rewrite zwrite_app by (rewrite length_replicate; lia). rewrite length_replicate, Z2Nat.id, zdrop_zdrop, zdrop_past, app_nil_r by lia.
  destruct (Z.ltb_spec 0 r); [|done]. rewrite zwrite_app by (rewrite length_replicate; lia). f_equal. cbn [length app].
  f_equal. unfold zdrop. rewrite drop_replicate. f_equal. lia.
Qed.

Lemma mask6_bits p : 0 ≤ p ≤ 128 → is_mask p (mask6 p).
Proof. intros Hp. apply is_maskb_ok. revert p Hp. apply (all_prefixes 128 (λ p, is_maskb p (mask6 p))). by vm_compute. Qed.

Lemma prefix_of_mask6 p : 0 ≤ p ≤ 128 → ipaddr6_ipv6_prefix_from_mask (mask6 p) = Some p.
Proof.
  intros Hp. assert ((λ p, bool_decide (ipaddr6_ipv6_prefix_from_mask (mask6 p) = Some p)) p = true) as Hb.
  { revert p Hp. apply all_prefixes. by vm_compute. }
  by apply bool_decide_eq_true in Hb.
Qed.

Lemma rest_zero_ok l : rest_zero l = true → l = replicate (length l) 0.
Proof. induction l as [|b l IH]; [done|]. cbn. intros [Hb Hl]%andb_prop. rewrite <- IH by done. f_equal. lia. Qed.

Lemma prefix6_found mask n p :
  prefix6_loop mask (8 * Z.of_nat n) = Some p → (n + length mask = 16)%nat →
  0 ≤ p ≤ 128 ∧ replicate n 255 ++ mask = mask6 p.
Proof.
  revert n. induction mask as [|b mask IH]; intros n Hf Hl; cbn [prefix6_loop] in Hf.
  { injection Hf as <-. cbn in Hl. replace n with 16%nat by lia. done. }
  cbn [length] in Hl. destruct (Z.eqb_spec b 255) as [->|Hne].
  - replace (8 * Z.of_nat n + 8) with (8 * Z.of_nat (S n)) in Hf by lia. apply IH in Hf as [Hp Hm]; [|lia]. split; [done|].
    rewrite <- Hm. rewrite replicate_S_end, <- app_assoc. done.
  - pose proof (prefix_loop_found 8 b 9 0 ltac:(lia)) as (Hb & Hr). change (Z.of_nat 0) with 0 in *. change (tops 8 0) with 0 in *.
    set (j := prefix_loop 9 8 b 0 0) in *. clearbody j. destruct (Z.leb_spec j 8); [|done]. specialize (Hr ltac:(lia)).
    destruct (rest_zero mask) eqn:Hz; [|done]. injection Hf as <-. apply rest_zero_ok in Hz.
    assert (j ≠ 8). { intros Hj. apply Hne. rewrite Hr, Hj. reflexivity. }
    split; [lia|]. unfold mask6. rewrite (Z.mul_comm 8), Z.div_add_l, (Z.div_small j 8), Z.add_0_r, Nat2Z.id by lia.
    rewrite Z.add_comm, Z.mod_add, (Z.mod_small j 8) by lia. f_equal. rewrite Hz at 1.
    destruct (Z.ltb_spec 0 j); [change (top_byte j) with (tops 8 (Z.to_nat j)); rewrite <- Hr; do 2 f_equal; lia|].
    replace j with 0 in Hr by lia. rewrite Hr. replace (Z.to_nat (16 - Z.of_nat n)) with (S (length mask)) by lia. done.
Qed.

(** ** Networks *)

Lemma le_bytes_byte n x : Forall is_byte (le_bytes n x).
Proof. apply le_bytes_bytes. Qed.

Lemma land_bound a m : 0 ≤ a < 2 ^ 32 → 0 ≤ m → 0 ≤ Z.land a m < 2 ^ 32.
Proof.
  intros Ha Hm. split; [apply Z.land_nonneg; lia|]. destruct (decide (Z.land a m = 0)) as [->|]; [lia|].
  apply Z.log2_lt_pow2; [assert (0 ≤ Z.land a m) by (apply Z.land_nonneg; lia); lia|].
  eapply Z.le_lt_trans; [apply Z.log2_land; lia|]. eapply Z.le_lt_trans; [apply Z.le_min_l|].
  destruct (decide (a = 0)) as [->|]; [cbn; lia|]. apply Z.log2_lt_pow2; lia.
Qed.

Lemma in_network4 `{Build} a b p : 0 ≤ a < 2 ^ 32 → 0 ≤ b < 2 ^ 32 → 0 ≤ p ≤ 32 →
  ∃ r, ipaddr_ipv4_addrs_in_network a b p = Some r ∧ (r = true ↔ same_network p (le_bytes 4 a) (le_bytes 4 b)).
Proof.
  intros Ha Hb Hp. unfold ipaddr_ipv4_addrs_in_network. rewrite !assert_true by (apply Z.leb_le; lia). cbn [mbind option_bind].
  rewrite mask_from_prefix4 by done. cbn [mbind option_bind]. eexists. split; [done|].
  pose proof (hton32_bound (tops 32 (Z.to_nat p))) as Hm. fold (mask4 p) in Hm.
  rewrite <- (masked_same p _ _ (le_bytes 4 (mask4 p))); try done; try apply le_bytes_byte; [|by apply mask4_bits|rewrite length_le_bytes; lia].
  rewrite <- !le_bytes_land, Z.eqb_eq. split; [by intros ->|].
  intros Heq. eapply le_bytes_inj; [| |exact Heq]; change (256 ^ Z.of_nat 4) with (2 ^ 32); apply land_bound; lia.
Qed.

Lemma bit_take a q k : 0 ≤ k < 8 * q → bit (ztake q a) k = bit a k.
Proof.
  intros Hk. unfold bit, ztake. f_equal. pose proof (bit_split k ltac:(lia)).
  rewrite !nth_lookup, lookup_take_lt by lia. done.
Qed.

Lemma same_network_take q a b : length a = length b → 0 ≤ q ≤ zlen a → Forall is_byte a → Forall is_byte b →
  same_network (8 * q) a b ↔ ztake q a = ztake q b.
Proof.
  intros Hl Hq Ha Hb. split.
  - intros Hs. apply bits_equal; [unfold ztake; rewrite !length_take; lia|by apply Forall_take..|].
    intros k Hk. rewrite zlen_ztake in Hk by lia. rewrite !bit_take by lia. by apply Hs.
  - intros Heq k Hk. rewrite <- (bit_take a q), <- (bit_take b q) by lia. by rewrite Heq.
Qed.

Lemma top_byte_bits r : 0 ≤ r ≤ 8 → is_mask r [top_byte r].
Proof. intros Hr. apply is_maskb_ok. revert r Hr. apply (all_prefixes 8 (λ r, is_maskb r [top_byte r])). by vm_compute. Qed.

Lemma top_byte_byte r : 0 ≤ r ≤ 8 → is_byte (top_byte r).
Proof.
  intros Hr. assert ((λ r, (0 <=? top_byte r) && (top_byte r <? 256)) r = true) as Hb.
  { revert r Hr. apply all_prefixes. by vm_compute. }
  cbn beta in Hb. unfold is_byte. lia.
Qed.

Lemma bit_last a q x k : 0 ≤ q → a !! Z.to_nat q = Some x → 0 ≤ k < 8 → bit a (8 * q + k) = bit [x] k.
Proof.
  intros Hq Hx Hk. replace k with (7 - (7 - k)) at 1 by lia. rewrite bit_byte by lia.
  replace k with (8 * 0 + (7 - (7 - k))) at 2 by lia. rewrite bit_byte by lia. f_equal.
  by rewrite nth_lookup, Hx.
Qed.

Lemma same_network_last a b q r x y : 0 ≤ q → 0 ≤ r ≤ 8 → a !! Z.to_nat q = Some x → b !! Z.to_nat q = Some y → is_byte x → is_byte y →
  same_network (8 * q + r) a b ↔ same_network (8 * q) a b ∧ Z.land x (top_byte r) = Z.land y (top_byte r).
Proof.
  intros Hq Hr Hx Hy Bx By.
  assert (Z.land x (top_byte r) = Z.land y (top_byte r) ↔ same_network r [x] [y]) as ->.
  { assert (∀ z, is_byte z → Forall is_byte [z]) as F1 by (intros z Hz; apply Forall_cons; split; [exact Hz|apply Forall_nil_2]).
    rewrite <- (masked_same r [x] [y] [top_byte r] eq_refl eq_refl (F1 x Bx) (F1 y By) (F1 _ (top_byte_byte r Hr)) (top_byte_bits r Hr))
      by (cbn; lia).
    cbn. split; [by intros ->|by intros [= ->]]. }
  split.
  - intros Hs. split; intros k Hk; [apply Hs; lia|]. rewrite <- (bit_last a q x), <- (bit_last b q y) by (done || lia). apply Hs. lia.
  - intros [Hs Ht] k Hk. destruct (decide (k < 8 * q)); [apply Hs; lia|].
    replace k with (8 * q + (k - 8 * q)) by lia. rewrite (bit_last a q x), (bit_last b q y) by (done || lia). apply Ht. lia.
Qed.

Lemma in_network6 `{Build} a b p : length a = 16%nat → length b = 16%nat → Forall is_byte a → Forall is_byte b → 0 ≤ p ≤ 128 →
  ∃ r, ipaddr6_ipv6_addrs_in_network a b p = Some r ∧ (r = true ↔ same_network p a b).
Proof.
  intros La Lb Ha Hb Hp. unfold ipaddr6_ipv6_addrs_in_network. rewrite !assert_true by (apply Z.leb_le; lia). cbn [mbind option_bind].
  pose proof (Z.div_mod p 8 ltac:(lia)) as Hdm. pose proof (Z.mod_pos_bound p 8 ltac:(lia)) as Hr. set (q := p / 8) in *. set (r := p mod 8) in *.
  assert (0 ≤ q ≤ 16 ∧ 8 * q + r ≤ 128) as [Hq Hqr] by lia. rewrite Hdm. clearbody q r. clear Hdm.
  unfold memcmp_n. rewrite (proj2 (Z.leb_le q (zlen a))), (proj2 (Z.leb_le q (zlen b))) by lia. cbn [andb mbind option_bind].
  pose proof (memcmp_eq (ztake q a) (ztake q b) ltac:(unfold ztake; rewrite !length_take; lia)) as Heq.
  rewrite <- (same_network_take q a b) in Heq by (done || lia).
  destruct (Z.eqb_spec (memcmp (ztake q a) (ztake q b)) 0) as [Hc|Hc]; cbn [negb].
  - rewrite Heq in Hc. destruct (Z.eqb_spec r 0) as [->|Hr0]; [eexists; split; [done|]; by rewrite Z.add_0_r|].
    destruct (lookup_lt_is_Some_2 a (Z.to_nat q)) as [x Hx]; [lia|]. destruct (lookup_lt_is_Some_2 b (Z.to_nat q)) as [y Hy]; [lia|].
    rewrite Hx, Hy. cbn [mbind option_bind]. eexists. split; [done|].
    rewrite (same_network_last a b q r x y), Z.eqb_eq; [tauto|lia..|done|done| |];
      eapply Forall_lookup_1; [exact Ha|exact Hx|exact Hb|exact Hy].
  - eexists. split; [done|]. split; [done|]. intros Hs. destruct Hc. apply Heq. intros k Hk. apply Hs. lia.
Qed.

(** ** Addresses in text *)

(** A part of a dotted address. *)
Definition part (p : list Z) (d : Z) : Prop := 1 ≤ zlen p ≤ 3 ∧ decimal p = Some d ∧ d ≤ 255.

Fixpoint dotted (ps : list (list Z)) : list Z :=
  match ps with
  | [] => []
  | [p] => p
  | p :: ps => p ++ 46 :: dotted ps
  end.

Lemma decimal_digits p d : decimal p = Some d → ddigits p = true ∧ 0 ≤ d.
Proof.
  unfold decimal, number. destruct (bool_decide (p ≠ [])), (ddigits p) eqn:Hd; cbn; try done.
  destruct (_ <=? _); [|done]. intros [= <-]. split; [done|].
  apply (val_bound 10 decode_decimal_digit ltac:(lia) decimal_digit_bound p Hd).
Qed.

Lemma part_free p d c : part p d → (c < 48 ∨ 57 < c) → c ∉ p.
Proof.
  intros (_ & Hd & _) Hc Hin. apply decimal_digits in Hd as [Hd _]. unfold all_digits in Hd. rewrite forallb_forall in Hd.
  apply list_elem_of_In, Hd in Hin. apply decimal_digit_value in Hin as [_ ?]. lia.
Qed.

Lemma part_byte p d : part p d → is_byte d.
Proof. intros (_ & Hd & Hb). apply decimal_digits in Hd as [_ ?]. unfold is_byte. lia. Qed.

Lemma find_byte_at p c rest : c ∉ p → find_byte c (p ++ c :: rest) = Some (zlen p).
Proof.
  intros Hc. rewrite find_byte_app, (proj2 (find_byte_None c p)) by done. rewrite find_byte_cons, decide_True by done.
  cbn [fmap option_fmap option_map]. f_equal. lia.
Qed.

Lemma find_byte_split c l j : find_byte c l = Some j →
  l = ztake j l ++ (c :: zdrop (j + 1) l) ∧ (c ∉ ztake j l) ∧ 0 ≤ j < zlen l.
Proof.
  intros Hj. apply find_byte_spec in Hj as (Hj & Hc & Hlt). pose proof (lookup_lt_Some _ _ _ Hc).
  unfold ztake, zdrop. replace (Z.to_nat (j + 1)) with (S (Z.to_nat j)) by lia. split_and!; [| |lia..].
  - by rewrite take_drop_middle.
  - intros (k & Hk)%list_elem_of_lookup. apply lookup_take_Some in Hk as [Hk Hk'].
    eapply (Hlt (Z.of_nat k)); [lia|by rewrite Nat2Z.id|done].
Qed.

Lemma parse_ipv4_step fuel i p d rest out : part p d → i < 3 →
  parse_ipv4_loop (S fuel) i (p ++ 46 :: rest) out = parse_ipv4_loop fuel (i + 1) rest (zwrite i [d] out).
Proof.
  intros Hp Hi. cbn [parse_ipv4_loop]. rewrite find_byte_at by (eapply part_free; [done|lia]).
  pose proof Hp as (Hl & Hd & Hb). assert (zlen (p ++ 46 :: rest) = zlen p + 1 + zlen rest) as Hz by (rewrite zlen_app; cbn [length]; lia).
  rewrite Hz.
  rewrite (proj2 (Z.eqb_neq (zlen p) _)), (proj2 (Z.eqb_neq i 3)) by lia. rewrite andb_false_r. cbn [andb orb].
  rewrite (proj2 (Z.ltb_ge (zlen p) 1)), (proj2 (Z.ltb_ge 3 (zlen p))) by lia. cbn [orb].
  rewrite ztake_app_exact, parse_unsigned_integer_decimal, Hd by done. cbn [mbind option_bind].
  rewrite (proj2 (Z.ltb_ge 255 d)) by lia. do 2 f_equal.
  change (p ++ 46 :: rest) with (p ++ [46] ++ rest). rewrite app_assoc, zdrop_app_exact; [done|]. rewrite zlen_app. done.
Qed.

Lemma parse_ipv4_last fuel p d out : part p d → parse_ipv4_loop (S fuel) 3 p out = Some (zwrite 3 [d] out).
Proof.
  intros Hp. cbn [parse_ipv4_loop]. rewrite (proj2 (find_byte_None 46 p)) by (eapply part_free; [done|lia]).
  pose proof Hp as (Hl & Hd & Hb).
  rewrite (Z.ltb_irrefl (zlen p)), (Z.ltb_irrefl 3), andb_false_r. cbn [andb orb].
  rewrite (proj2 (Z.ltb_ge (zlen p) 1)), (proj2 (Z.ltb_ge 3 (zlen p))) by lia. cbn [orb].
  rewrite ztake_all, parse_unsigned_integer_decimal, Hd by lia. cbn [mbind option_bind].
  rewrite (proj2 (Z.ltb_ge 255 d)) by lia. reflexivity.
Qed.

(** One turn of the loop that does not fail. *)
Lemma parse_ipv4_inv fuel i name out out' : i ≤ 3 → parse_ipv4_loop (S fuel) i name out = Some out' →
  ∃ p d, part p d ∧
    ((i = 3 ∧ name = p ∧ out' = zwrite 3 [d] out) ∨
     (i < 3 ∧ ∃ rest, name = p ++ 46 :: rest ∧ parse_ipv4_loop fuel (i + 1) rest (zwrite i [d] out) = Some out')).
Proof.
  intros Hi. cbn [parse_ipv4_loop]. set (j := match find_byte 46 name with Some j => j | None => zlen name end).
  destruct ((j =? zlen name) && (i <? 3) || (j <? zlen name) && (i =? 3)) eqn:H1; [done|].
  destruct ((j <? 1) || (3 <? j)) eqn:H2; [done|].
  rewrite parse_unsigned_integer_decimal. destruct (decimal (ztake j name)) as [d|] eqn:Hd; [|done]. cbn [mbind option_bind].
  destruct (Z.ltb_spec 255 d) as [|Hb]; [done|]. destruct (find_byte 46 name) as [k|] eqn:Hf; cbn in j; subst j.
  - apply find_byte_split in Hf as (Hn & Hk & Hlt). assert (i < 3) by lia. rewrite (proj2 (Z.eqb_neq i 3)) by lia. intros Hrest.
    exists (ztake k name), d. split; [|right; split; [lia|]; eexists; split; [exact Hn|exact Hrest]].
    split; [rewrite zlen_ztake by lia; lia|done].
  - assert (i = 3) as -> by lia. rewrite Z.eqb_refl. intros [= <-]. rewrite ztake_all in Hd by lia.
    exists name, d. split; [split; [lia|done]|]. by left.
Qed.

Lemma zwrite_byte i (d : Z) (out : list Z) : 0 ≤ i < zlen out → ztake (i + 1) (zwrite i [d] out) = ztake i out ++ [d] ∧ zlen (zwrite i [d] out) = zlen out.
Proof.
  intros Hi. split; [|apply zlen_zwrite; cbn; lia]. unfold zwrite. rewrite app_assoc. apply ztake_app_exact.
  rewrite zlen_app, zlen_ztake by lia. done.
Qed.

Lemma parse_ipv4_loop_ok fuel i name out out' : 0 ≤ i → (0 < fuel)%nat → i + Z.of_nat fuel = 4 → zlen out = 4 →
  parse_ipv4_loop fuel i name out = Some out' ↔
  ∃ ps ds, Forall2 part ps ds ∧ length ds = fuel ∧ name = dotted ps ∧ out' = ztake i out ++ ds.
Proof.
  revert i name out. induction fuel as [|fuel IH]; intros i name out Hi Hf H4 Ho; [lia|]. split.
  - intros Hrun. apply parse_ipv4_inv in Hrun as (p & d & Hp & [(-> & -> & ->)|(Hi3 & rest & -> & Hrun)]); [| |lia].
    + exists [p], [d]. replace fuel with 0%nat by lia. split_and!; [constructor; [done|constructor]|done..|].
      unfold zwrite. rewrite zdrop_past by (cbn; lia). done.
    + destruct (zwrite_byte i d out ltac:(lia)) as [Ht Hz].
      apply IH in Hrun as (ps & ds & Hps & Hds & -> & ->); [|lia..]. exists (p :: ps), (d :: ds). rewrite Ht.
      split_and!; [by constructor|cbn; lia| |by rewrite <- app_assoc]. destruct ps; [|done]. apply Forall2_nil_inv_l in Hps as ->. cbn in Hds. lia.
  - intros (ps & ds & Hps & Hds & -> & ->). destruct Hps as [|p d ps ds Hp Hps]; [done|]. cbn in Hds.
    destruct (decide (i = 3)) as [->|].
    + replace fuel with 0%nat in * by lia. destruct ds; [|cbn in Hds; lia]. apply Forall2_nil_inv_r in Hps as ->. cbn [dotted].
      rewrite (parse_ipv4_last _ p d) by done. f_equal. unfold zwrite. rewrite zdrop_past by (cbn; lia). done.
    + destruct ps as [|p2 ps]; [apply Forall2_nil_inv_l in Hps as ->; cbn in Hds; lia|].
      change (dotted (p :: p2 :: ps)) with (p ++ 46 :: dotted (p2 :: ps)). rewrite (parse_ipv4_step _ i p d) by (done || lia).
      destruct (zwrite_byte i d out ltac:(lia)) as [Ht Hz]. apply IH; [lia..|]. exists (p2 :: ps), ds. rewrite Ht, <- app_assoc.
      split_and!; [done|lia|done..].
Qed.

Lemma ipaddr_parse_ipv4_spec name out a :
  ipaddr_parse_ipv4_addr_bin name out = Some a ↔
  ∃ ps ds, Forall2 part ps ds ∧ length ds = 4%nat ∧ name = dotted ps ∧ a = le_val ds.
Proof.
  unfold ipaddr_parse_ipv4_addr_bin. rewrite fmap_Some.
  setoid_rewrite (parse_ipv4_loop_ok 4 0 name (le_bytes 4 out)); [|lia..|by rewrite length_le_bytes].
  change (ztake 0 (le_bytes 4 out)) with (@nil Z). cbn [app]. naive_solver.
Qed.

Lemma text_app s t : text (String.append s t) = text s ++ text t.
Proof.
  unfold text. induction s as [|c s IH]; [done|]. rewrite str_app_cons. cbn [list_ascii_of_string map app]. by rewrite IH.
Qed.

Lemma zlen_text s : zlen (text s) = zstrlen s.
Proof. unfold text, zstrlen. rewrite length_map. f_equal. induction s; cbn; auto. Qed.

Lemma text_join l : text (join dot l) = dotted (map text l).
Proof.
  induction l as [|s [|t l] IH]; [done..|]. change (join dot (s :: t :: l)) with (String.append s (String.append dot (join dot (t :: l)))).
  rewrite !text_app, IH. done.
Qed.

Lemma part_print b : is_byte b → part (text (print_uint b)) b.
Proof.
  intros Hb. assert ((λ b, let p := text (print_uint b) in (1 <=? zlen p) && (zlen p <=? 3) && bool_decide (decimal p = Some b)) b = true) as H.
  { unfold is_byte in Hb. assert (0 ≤ b ≤ 255) as Hb' by lia. clear Hb. revert b Hb'. apply all_prefixes. by vm_compute. }
  cbv beta zeta in H. apply andb_prop in H as [H Hd]. apply bool_decide_eq_true in Hd. unfold part, is_byte in *. split_and!; [lia..|done|lia].
Qed.

Lemma Forall2_print bs : Forall is_byte bs → Forall2 part (map (λ b, text (print_uint b)) bs) bs.
Proof. induction 1 as [|b bs Hb _ IH]; cbn; constructor; [by apply part_print|done]. Qed.

Lemma print_addr_dotted a : ipaddr_print_addr a = dotted (map (λ b, text (print_uint b)) (le_bytes 4 a)).
Proof. unfold ipaddr_print_addr. by rewrite text_join, map_map. Qed.

Lemma parse_print4 a out : 0 ≤ a < 2 ^ 32 → ipaddr_parse_ipv4_addr_bin (ipaddr_print_addr a) out = Some a.
Proof.
  intros Ha. apply ipaddr_parse_ipv4_spec. exists (map (λ b, text (print_uint b)) (le_bytes 4 a)), (le_bytes 4 a).
  split_and!; [apply Forall2_print, le_bytes_byte|apply length_le_bytes|apply print_addr_dotted|].
  symmetry. by apply le_val_le_bytes.
Qed.

Lemma dotted_free c ps ds : Forall2 part ps ds → (c < 48 ∨ 57 < c) → c ≠ 46 → c ∉ dotted ps.
Proof.
  intros Hps Hc H46. induction Hps as [|p d ps ds Hp Hps IH]; [apply not_elem_of_nil|]. pose proof (part_free p d c Hp Hc).
  destruct ps as [|p2 ps]; [done|]. change (dotted (p :: p2 :: ps)) with (p ++ 46 :: dotted (p2 :: ps)).
  rewrite elem_of_app, elem_of_cons. naive_solver.
Qed.

Lemma dotted_length ps ds : Forall2 part ps ds → zlen (dotted ps) + 1 ≤ 4 * zlen ps ∨ ps = [].
Proof.
  induction 1 as [|p d ps ds (Hp & _) Hps IH]; [by right|]. left. destruct ps as [|p2 ps]; [cbn in *; lia|].
  change (dotted (p :: p2 :: ps)) with (p ++ 46 :: dotted (p2 :: ps)). rewrite zlen_app. destruct IH as [IH|]; [|done].
  change (zlen (46 :: dotted (p2 :: ps))) with (Z.of_nat (S (length (dotted (p2 :: ps))))).
  change (length (p :: p2 :: ps)) with (S (length (p2 :: ps))). lia.
Qed.

Lemma print_addr_facts a : (47 ∉ ipaddr_print_addr a) ∧ (0 ∉ ipaddr_print_addr a) ∧ zlen (ipaddr_print_addr a) ≤ 15.
Proof.
  rewrite print_addr_dotted. pose proof (Forall2_print (le_bytes 4 a) (le_bytes_byte 4 a)) as Hf.
  pose proof (dotted_length _ _ Hf) as [Hl|?]; [|done]. rewrite length_map, length_le_bytes in Hl.
  split_and!; [eapply dotted_free; [exact Hf|lia..]|eapply dotted_free; [exact Hf|lia..]|lia].
Qed.

(** A prefix in text. *)
Lemma prefix_text p : 0 ≤ p ≤ 128 → part (text (print_uint p)) p ∧ (p ≤ 32 → zlen (text (print_uint p)) ≤ 2).
Proof.
  intros Hp. split; [apply part_print; unfold is_byte; lia|]. intros H32.
  assert ((λ p, zlen (text (print_uint p)) <=? 2) p = true) as H.
  { assert (0 ≤ p ≤ 32) as Hp' by lia. clear Hp H32. revert p Hp'. apply all_prefixes. by vm_compute. }
  cbv beta in H. lia.
Qed.

Lemma ifaddr4_roundtrip `{Build} a p out rest : 0 ≤ a < 2 ^ 32 → 0 ≤ p ≤ 32 →
  ∃ str, ipaddr_print_ifaddr (mk_ifaddr4 a p) = Some str ∧ zlen str + 1 ≤ IPADDR_PRINT_MAX ∧
    ipaddr_parse_ipv4_ifaddr (str ++ 0 :: rest) out = Some (Some (mk_ifaddr4 a p)).
Proof.
  intros Ha Hp. destruct (prefix_text p ltac:(lia)) as [Hpt Hpl]. destruct (print_addr_facts a) as (H47 & H0 & Hl).
  unfold ipaddr_print_ifaddr. cbn [addr4 prefix4]. rewrite !assert_true by (apply Z.leb_le; lia). cbn [mbind option_bind].
  eexists. split; [done|]. split; [rewrite zlen_app; cbn [length]; unfold IPADDR_PRINT_MAX; lia|].
  unfold ipaddr_parse_ipv4_ifaddr. rewrite terminated_app.
  2: { rewrite elem_of_app, elem_of_cons. intros [?|[?|Hin]]; [done..|]. by eapply (part_free _ _ 0) in Hin; [|done|lia]. }
  cbn [mbind option_bind]. unfold ipaddr_parse_ipv4_ifaddr_bin. rewrite find_byte_at by done. cbn [mbind option_bind].
  rewrite ztake_app_exact, parse_print4 by done. cbn [mbind option_bind].
  rewrite (cons_middle 47), app_assoc, zdrop_app_exact by (rewrite zlen_app; done).
  unfold ipaddr_parse_ipv4_prefix_bin. rewrite parse_unsigned_integer_decimal, (proj1 (proj2 Hpt)). cbn [mbind option_bind].
  by rewrite (proj2 (Z.ltb_ge 32 p)) by lia.
Qed.

Abbreviation no_slash := (str_all (λ c, Ascii.eqb c "/" = false)).

Lemma hex_digit_no_slash d : 0 ≤ d < 16 → Ascii.eqb (hex_digit d) "/" = false.
Proof.
  intros Hd. assert ((λ d, negb (Ascii.eqb (hex_digit d) "/")) d = true) as H.
  { assert (0 ≤ d ≤ 15) as Hd' by lia. clear Hd. revert d Hd'. apply all_prefixes. by vm_compute. }
  cbv beta in H. by destruct (Ascii.eqb _ _).
Qed.

Lemma hex_digits_facts fuel n acc : no_slash acc →
  no_slash (hex_digits fuel n acc) ∧ zstrlen (hex_digits fuel n acc) ≤ Z.of_nat fuel + zstrlen acc.
Proof.
  revert n acc. induction fuel as [|fuel IH]; intros n acc Ha; cbn [hex_digits]; [split; [done|lia]|].
  pose proof (hex_digit_no_slash (n mod 16) ltac:(apply Z.mod_pos_bound; lia)) as Hd.
  assert (zstrlen (String (hex_digit (n mod 16)) acc) = zstrlen acc + 1) as Hl by (unfold zstrlen; cbn [String.length]; lia).
  destruct (n <? 16); [split; [by split|lia]|]. destruct (IH (n / 16) (String (hex_digit (n mod 16)) acc)) as [H1 H2]; [by split|].
  split; [done|lia].
Qed.

Lemma hex16_facts b : no_slash (print_hex16 b) ∧ zstrlen (print_hex16 b) ≤ 4.
Proof. destruct (hex_digits_facts 4 b "") as [? Hl]; [done|]. split; [done|]. exact Hl. Qed.

Lemma join_facts l : let s := join colon (map print_hex16 l) in no_slash s ∧ zstrlen s ≤ Z.max 0 (5 * zlen l - 1).
Proof.
  induction l as [|b [|c l] IH]; cbn zeta in *; [done| |].
  - destruct (hex16_facts b). split; [done|cbn -[print_hex16]; lia].
  - cbn [map] in *. rewrite join_cons, !zstrlen_app. destruct (hex16_facts b), IH as [? IH].
    split; [repeat apply str_all_app; done|]. change (zstrlen colon) with 1. cbn [length] in *. lia.
Qed.

Lemma print_addr6_facts addr : no_slash (ipaddr6_print_addr addr) ∧ zstrlen (ipaddr6_print_addr addr) ≤ 39.
Proof.
  destruct (print_forms addr) as [-> | (F & R & z & Hfr & ->)].
  - destruct (join_facts (addr_blocks addr)) as [? Hl]. split; [done|].
    replace (length (addr_blocks addr)) with 8%nat in Hl by done. lia.
  - destruct (join_facts F) as [? HF], (join_facts R) as [? HR]. apply (f_equal length) in Hfr.
    replace (length (addr_blocks addr)) with 8%nat in Hfr by done. rewrite !length_app, length_replicate in Hfr.
    rewrite !zstrlen_app. split; [repeat apply str_all_app; done|]. change (zstrlen "::") with 2. lia.
Qed.

Lemma parse_addr6_bin name out : ipaddr6_parse_ipv6_addr_bin name out = ipaddr6_parse_ipv6_addr name out.
Proof. reflexivity. Qed.

Lemma parse_prefix6 p : 0 ≤ p ≤ 128 → ipaddr6_parse_ipv6_prefix_bin (print_uint p) = Some p.
Proof.
  intros Hp. destruct (prefix_text p Hp) as [(_ & Hd & _) _]. unfold ipaddr6_parse_ipv6_prefix_bin.
  rewrite parse_unsigned_integer_decimal, Hd. cbn [mbind option_bind]. by rewrite (proj2 (Z.ltb_ge 128 p)) by lia.
Qed.

Lemma parse_ifaddr6 before after out a p : no_slash before →
  ipaddr6_parse_ipv6_addr before (addr6 out) = Ret a → ipaddr6_parse_ipv6_prefix_bin after = Some p →
  ipaddr6_parse_ipv6_ifaddr_bin (String.append before (String "/" after)) out = Ret (mk_ifaddr6 a p).
Proof.
  intros Hs Ha Hp. unfold ipaddr6_parse_ipv6_ifaddr_bin. rewrite split_at_app by exact Hs.
  rewrite parse_addr6_bin, Ha, Hp. reflexivity.
Qed.

Lemma slash_length s t : zstrlen (String.append s (String "/" t)) = zstrlen s + 1 + zstrlen t.
Proof. rewrite zstrlen_app. unfold zstrlen. cbn [String.length]. lia. Qed.

Lemma ifaddr6_roundtrip `{Build} a p out : zlen a = 16 → Forall is_byte a → 0 ≤ p ≤ 128 → zlen (addr6 out) = 16 →
  ∃ str, ipaddr6_print_ifaddr (mk_ifaddr6 a p) = Some str ∧ zstrlen str + 1 ≤ IPADDR6_PRINT_MAX ∧
    ipaddr6_parse_ipv6_ifaddr_bin str out = Ret (mk_ifaddr6 a p).
Proof.
  intros Hl Ha Hp Ho. destruct (print_addr6_facts a) as [Hs H39]. destruct (prefix_text p Hp) as [(Hp3 & Hd & _) _].
  rewrite zlen_text in Hp3. exists (String.append (ipaddr6_print_addr a) (String "/" (print_uint p))). split_and!.
  - unfold ipaddr6_print_ifaddr. cbn [addr6 prefix6]. rewrite !assert_true by (apply Z.leb_le; lia). reflexivity.
  - rewrite slash_length. unfold IPADDR6_PRINT_MAX. lia.
  - apply parse_ifaddr6; [exact Hs|by apply print_parse6|by apply parse_prefix6].
Qed.

(** ** The properties *)

(** C40: an interface address, of IPv4 or IPv6, with its prefix is parsed back from
    the text that is printed for it, and the text with its terminator fits in the
    [IPADDR_PRINT_MAX] and [IPADDR6_PRINT_MAX] bytes the callers provide.  The IPv4
    parser accepts exactly four decimal parts of one to three digits and at most
    255, separated by dots.  The IPv6 parser, which writes the blocks as it reads
    them and moves them at the end, reads and writes nothing outside its input, its
    16 bytes of output and the array of four bytes for an IPv4 ending, of which it
    copies no byte that it has not written, whatever the text. *)
Theorem interface_addresses_roundtrip `{Build} :
  (∀ name out a, ipaddr_parse_ipv4_addr_bin name out = Some a ↔
     ∃ ps ds, Forall2 part ps ds ∧ length ds = 4%nat ∧ name = dotted ps ∧ a = le_val ds) ∧
  (∀ a p out rest, 0 ≤ a < 2 ^ 32 → 0 ≤ p ≤ 32 →
     ∃ str, ipaddr_print_ifaddr (mk_ifaddr4 a p) = Some str ∧ zlen str + 1 ≤ IPADDR_PRINT_MAX ∧
       ipaddr_parse_ipv4_ifaddr (str ++ 0 :: rest) out = Some (Some (mk_ifaddr4 a p))) ∧
  (∀ name out, zlen out = 16 → Forall is_byte out →
     match ipaddr6_parse_ipv6_addr name out with
     | Fault => False
     | Rej => True
     | Ret a => zlen a = 16 ∧ Forall is_byte a
     end) ∧
  (∀ a p out, zlen a = 16 → Forall is_byte a → 0 ≤ p ≤ 128 → zlen (addr6 out) = 16 →
     ∃ str, ipaddr6_print_ifaddr (mk_ifaddr6 a p) = Some str ∧ zstrlen str + 1 ≤ IPADDR6_PRINT_MAX ∧
       ipaddr6_parse_ipv6_ifaddr_bin str out = Ret (mk_ifaddr6 a p)).
Proof.
  split_and!; [apply ipaddr_parse_ipv4_spec| | |]; intros; [by apply ifaddr4_roundtrip|by apply parse_is_safe|by apply ifaddr6_roundtrip].
Qed.

(** Masks and networks, for IPv4 and IPv6: the mask of a prefix has its first
    bits set and no other, the prefix of a mask is found again, no other value is
    taken for a mask, and two addresses are in the same network exactly when the
    first bits of the prefix's length are the same in both. *)
Theorem networks_by_prefix `{Build} p :
  (0 ≤ p ≤ 32 →
     (∃ mask, ipaddr_ipv4_mask_from_prefix p = Some mask ∧ is_mask p (le_bytes 4 mask) ∧
        (∀ m, 0 ≤ m < 2 ^ 32 → ipaddr_ipv4_prefix_from_mask m = Some p ↔ m = mask)) ∧
     ∀ a b, 0 ≤ a < 2 ^ 32 → 0 ≤ b < 2 ^ 32 →
       ∃ r, ipaddr_ipv4_addrs_in_network a b p = Some r ∧ (r = true ↔ same_network p (le_bytes 4 a) (le_bytes 4 b))) ∧
  (0 ≤ p ≤ 128 →
     (∃ mask, (∀ out, zlen out = 16 → ipaddr6_ipv6_mask_from_prefix p out = Some mask) ∧ is_mask p mask ∧
        (∀ m, zlen m = 16 → ipaddr6_ipv6_prefix_from_mask m = Some p ↔ m = mask)) ∧
     ∀ a b, length a = 16%nat → length b = 16%nat → Forall is_byte a → Forall is_byte b →
       ∃ r, ipaddr6_ipv6_addrs_in_network a b p = Some r ∧ (r = true ↔ same_network p a b)).
Proof.
  split; intros Hp; (split; [|intros; by (apply in_network4 || apply in_network6)]).
  - exists (mask4 p). split_and!; [by apply mask_from_prefix4|by apply mask4_bits|]. intros m Hm. split; [|intros ->; by apply prefix_of_mask4].
    intros Hf. by apply prefix4_found in Hf as [_ ?].
  - exists (mask6 p). split_and!; [intros; by apply mask_from_prefix6|by apply mask6_bits|]. intros m Hm. split; [|intros ->; by apply prefix_of_mask6].
    intros Hf. unfold ipaddr6_ipv6_prefix_from_mask in Hf. apply (prefix6_found m 0) in Hf as [_ ?]; [done|lia].
Qed.

Section network_examples.
#[local] Instance network_build : Build := false.

(** 192.168.1.77/20 as the bytes of a little-endian word. *)
Definition example_addr : Z := le_val [192; 168; 1; 77].

Lemma interface_addresses_roundtrip_witness : ∃ str,
  ipaddr_print_ifaddr (mk_ifaddr4 example_addr 20) = Some str ∧ str = text "192.168.1.77/20" ∧
  ipaddr_parse_ipv4_ifaddr (str ++ 0 :: [1; 2]) (mk_ifaddr4 0 0) = Some (Some (mk_ifaddr4 example_addr 20)).
Proof.
  destruct (proj1 (proj2 interface_addresses_roundtrip) example_addr 20 (mk_ifaddr4 0 0) [1; 2]) as (str & Hp & _ & Hr);
    [vm_compute; split; [discriminate|reflexivity]|lia|]. exists str. split; [exact Hp|]. split; [|exact Hr].
  vm_compute in Hp |- *. by injection Hp as <-.
Defined.

Lemma networks_by_prefix_witness :
  ∃ r, ipaddr_ipv4_addrs_in_network example_addr (le_val [192; 168; 15; 1]) 20 = Some r ∧
    (r = true ↔ same_network 20 (le_bytes 4 example_addr) (le_bytes 4 (le_val [192; 168; 15; 1]))).
Proof.
  apply (proj2 (proj1 (networks_by_prefix 20) ltac:(lia)) example_addr (le_val [192; 168; 15; 1])); vm_compute; split; discriminate || reflexivity.
Defined.

Lemma network_computed :
  ipaddr_ipv4_addrs_in_network example_addr (le_val [192; 168; 15; 1]) 20 = Some true ∧
  ipaddr_ipv4_addrs_in_network example_addr (le_val [192; 168; 16; 1]) 20 = Some false ∧
  ipaddr_ipv4_prefix_from_mask (le_val [255; 255; 240; 0]) = Some 20 ∧
  ipaddr_ipv4_prefix_from_mask (le_val [255; 0; 240; 0]) = None.
Proof. vm_compute. done. Qed.
End network_examples.
