(* ===== verification/PacketProto.v ===== *)
(** * PacketProto: packets over a byte stream

    Models protocol/packetproto.h, flow/PacketProtoEncoder.c and
    flow/PacketProtoDecoder.c.  Each packet is sent as a 16-bit little-endian
    length and that many bytes.  The decoder reassembles packets from a stream
    that arrives in pieces of any size, in one buffer that is never larger
    than one encoded packet. *)
From S2P Require Import Prelude Bytes.

(** ** protocol/packetproto.h *)

Definition sizeof_packetproto_header : Z := 2.
Definition PACKETPROTO_ENCLEN (len : Z) : Z := sizeof_packetproto_header + len.
Definition PACKETPROTO_MAXPAYLOAD : Z := UINT16_MAX.

(** ** flow/PacketProtoEncoder.c *)

Module Encoder.

(** [output_packet]: the memory the consumer offered for a packet, or NULL. *)
Record t := mk { output_packet : option (list Z) }.

Inductive event : Type :=
| InputRecv            (** PacketRecvInterface_Receiver_Recv(input, packet + 2) *)
| OutputDone (packet : list Z) (len : Z).
(** PacketRecvInterface_Done(output, len), the packet's memory *)

Definition PacketProtoEncoder_Init : t := mk None.

Definition output_handler_recv `{Build} (data : list Z) : M t event unit :=
  enc ← mget;
  ASSERT (bool_decide (output_packet enc = None));;
  (* schedule receive *)
  mput (mk (Some data));;
  emit InputRecv.

(** The input has written [in_len] bytes behind the header space. *)
Definition input_handler_done `{Build} (in_len : Z) : M t event unit :=
  enc ← mget;
  match output_packet enc with
  | None => mabort
  | Some data =>
      (* write length *)
      let pp := le_bytes 2 (htol16 (u16 in_len)) in
      let data := zwrite 0 pp data in
      (* finish output packet *)
      mput (mk None);;
      emit (OutputDone data (PACKETPROTO_ENCLEN in_len))
  end.

(** The whole exchange for one packet: the consumer offers memory [mem], the
    input writes [p] behind the header space, and the packet is done. *)
Definition encode_one `{Build} (mem p : list Z) : M t event unit :=
  output_handler_recv mem;;
  mmodify (λ enc, mk (zwrite sizeof_packetproto_header p <$> output_packet enc));;
  input_handler_done (zlen p).

End Encoder.

(** ** flow/PacketProtoDecoder.c *)

Module Decoder.

Record t := mk {
  output_mtu : Z;
  buf_size : Z;
  buf_start : Z;
  buf_used : Z;
  buf : list Z
}.

Inductive event : Type :=
| OutputSend (data : list Z)   (** PacketPassInterface_Sender_Send(output, ...) *)
| InputRecv (off len : Z)      (** StreamRecvInterface_Receiver_Recv(input, buf + off, len) *)
| HandlerError.                (** handler_error(user) *)

Definition set_buffer (start used : Z) (d : t) : t :=
  mk (output_mtu d) (buf_size d) start used (buf d).

Definition set_buf (b : list Z) (d : t) : t :=
  mk (output_mtu d) (buf_size d) (buf_start d) (buf_used d) b.

(** What the [do { ... } while (0)] block of [process_data] finds. *)
Inductive scan_result : Type :=
| ScanMore                      (** header or packet incomplete *)
| ScanError                     (** packet too large *)
| ScanPacket (data : list Z).   (** whole packet received *)

Definition scan (enc : t) : scan_result :=
  let data := zdrop (buf_start enc) (buf enc) in
  let left := buf_used enc in
  (* check if header was received *)
  if left <? sizeof_packetproto_header then ScanMore
  else
    let header_len := le_val (ztake sizeof_packetproto_header data) in
    let data := zdrop sizeof_packetproto_header data in
    let left := left - sizeof_packetproto_header in
    let data_len := ltoh16 header_len in
    (* check data length *)
    if output_mtu enc <? data_len then ScanError
    (* check if whole packet was received *)
    else if left <? data_len then ScanMore
    else ScanPacket (ztake data_len data).

Definition process_data : M t event unit :=
  enc ← mget;
  match scan enc with
  | ScanPacket data =>
      (* update buffer *)
      mput (set_buffer (buf_start enc + (sizeof_packetproto_header + zlen data))
                       (buf_used enc - (sizeof_packetproto_header + zlen data)) enc);;
      (* submit packet *)
      emit (OutputSend data)
  | r =>
      let was_error := match r with ScanError => true | _ => false end in
      (if was_error then
         (* reset buffer *)
         mput (set_buffer 0 0 enc)
       else
         (* if we reached the end of the buffer, wrap around *)
         when (buf_start enc + buf_used enc =? buf_size enc)
           (mput (set_buffer 0 (buf_used enc)
                   (set_buf (zwrite 0 (ztake (buf_used enc) (zdrop (buf_start enc) (buf enc)))
                              (buf enc)) enc))));;
      enc ← mget;
      (* receive data *)
      emit (InputRecv (buf_start enc + buf_used enc)
                      (buf_size enc - (buf_start enc + buf_used enc)));;
      (* if we had error, report it *)
      when was_error (emit HandlerError)
  end.

Definition input_handler_done `{Build} (data_len : Z) : M t event unit :=
  enc ← mget;
  ASSERT (0 <? data_len);;
  ASSERT (data_len <=? buf_size enc - (buf_start enc + buf_used enc));;
  (* update buffer *)
  mput (set_buffer (buf_start enc) (buf_used enc + data_len) enc);;
  (* process data *)
  process_data.

Definition output_handler_done : M t event unit := process_data.

(** [None]: the allocation failed.  [mem] is the fresh memory. *)
Definition PacketProtoDecoder_Init (mtu : Z) (mem : option (list Z)) : option (t * list event) :=
  let output_mtu := bmin_int mtu PACKETPROTO_MAXPAYLOAD in
  let buf_size := PACKETPROTO_ENCLEN output_mtu in
  match mem with
  | None => None
  | Some b => Some (mk output_mtu buf_size 0 0 b, [InputRecv 0 buf_size])
  end.

Definition PacketProtoDecoder_Reset : M t event unit :=
  enc ← mget;
  mput (set_buffer (buf_start enc + buf_used enc) 0 enc).

(** ** The decoder with its stream and its consumer

    The provider of the stream answers a receive of [len] bytes at [off] by
    writing a piece of at least 1 and at most [len] bytes there; the consumer
    answers each packet with done.  [drain] runs the consumer side until the
    decoder asks for more data or reports an error; [fuel] bounds the packets
    in the buffer. *)

Definition fill (off : Z) (piece : list Z) : M t event unit :=
  mmodify (λ enc, set_buf (zwrite off piece (buf enc)) enc).

Inductive step_out : Type := Out (packets : list (list Z)) (recv : option (Z * Z)) (err : bool).

Fixpoint drain (fuel : nat) (d : t) (es : list event) : option (t * step_out) :=
  match es with
  | [OutputSend p] =>
      match fuel with
      | O => None
      | S fuel =>
          '(_, d', es') ← output_handler_done d;
          '(d'', Out ps r e) ← drain fuel d' es';
          Some (d'', Out (p :: ps) r e)
      end
  | [InputRecv off len] => Some (d, Out [] (Some (off, len)) false)
  | [InputRecv off len; HandlerError] => Some (d, Out [] (Some (off, len)) true)
  | _ => None
  end.

(** One piece of the stream: write it, tell the decoder, let the consumer take
    the packets. *)
Definition receive_piece `{Build} (d : t) (off : Z) (piece : list Z) :
    option (t * step_out) :=
  '(_, d1, _) ← fill off piece d;
  '(_, d2, es) ← input_handler_done (zlen piece) d1;
  drain (S (Z.to_nat (buf_used d1 + zlen piece))) d2 es.

(** The stream delivered in pieces whose sizes are chosen by [sizes], each
    limited to what the decoder asked for, until the sizes or the stream are
    exhausted or the decoder reports an error. *)
Fixpoint run `{Build} (sizes : list nat) (d : t) (off len : Z) (stream : list Z) :
    option (t * list (list Z) * list Z * bool) :=
  match sizes, stream with
  | k :: sizes, _ :: _ =>
      let n := Z.min (Z.of_nat (S k)) len in
      '(d, Out ps r e) ← receive_piece d off (ztake n stream);
      match e, r with
      | false, Some (off, len) =>
          '(d, ps', stream, e) ← run sizes d off len (zdrop n stream);
          Some (d, ps ++ ps', stream, e)
      | _, _ => Some (d, ps, zdrop n stream, e)
      end
  | _, _ => Some (d, [], stream, false)
  end.

End Decoder.

(** ** Reference: frames *)

(** The encoding of one packet. *)
Definition frame (p : list Z) : list Z := le_bytes 2 (zlen p) ++ p.

(** What a decoder must conclude from the bytes [c] it holds. *)
Definition scan_bytes (mtu : Z) (c : list Z) : Decoder.scan_result :=
  if zlen c <? 2 then Decoder.ScanMore
  else
    let len := le_val (ztake 2 c) in
    if mtu <? len then Decoder.ScanError
    else if zlen c - 2 <? len then Decoder.ScanMore
    else Decoder.ScanPacket (ztake len (zdrop 2 c)).

Lemma zlen_frame p : zlen (frame p) = 2 + zlen p.
Proof. unfold frame. rewrite zlen_app, length_le_bytes. lia. Qed.

Lemma scan_bytes_frame mtu p rest :
  zlen p ≤ mtu → mtu ≤ 65535 →
  scan_bytes mtu (frame p ++ rest) = Decoder.ScanPacket p.
Proof.
  intros Hp Hm. unfold scan_bytes. rewrite zlen_app, zlen_frame.
  rewrite (proj2 (Z.ltb_ge _ _)) by lia.
  replace (ztake 2 (frame p ++ rest)) with (le_bytes 2 (zlen p))
    by (unfold frame; rewrite <- app_assoc; symmetry; by apply ztake_app_exact).
  rewrite le_val_le_bytes by (cbn; lia).
  rewrite (proj2 (Z.ltb_ge mtu _)) by lia.
  rewrite (proj2 (Z.ltb_ge (2 + _ + _ - 2) _)) by lia.
  f_equal. unfold frame. rewrite <- app_assoc.
  rewrite (zdrop_app_exact 2 (le_bytes 2 (zlen p))) by done.
  by apply ztake_app_exact.
Qed.

(** A proper prefix of a frame is incomplete. *)
Lemma scan_bytes_prefix mtu p c s rest :
  zlen p ≤ mtu → mtu ≤ 65535 → c ++ s = frame p ++ rest → zlen c < 2 + zlen p →
  scan_bytes mtu c = Decoder.ScanMore.
Proof.
  intros Hp Hm Heq Hl. unfold scan_bytes.
  destruct (Z.ltb_spec (zlen c) 2) as [|H2]; [done|].
  assert (Ht : ztake 2 c = le_bytes 2 (zlen p)).
  { assert (H : ztake 2 (c ++ s) = ztake 2 c) by (unfold ztake; apply take_app_le; lia).
    rewrite <- H, Heq. unfold frame. rewrite <- app_assoc. by apply ztake_app_exact. }
  rewrite Ht, le_val_le_bytes by (cbn; lia).
  rewrite (proj2 (Z.ltb_ge mtu _)) by lia. by rewrite (proj2 (Z.ltb_lt _ _)) by lia.
Qed.

(** Bytes that begin a sequence of frames are whole frames and an incomplete
    rest. *)
Lemma frames_prefix_split mtu ps c s :
  Forall (λ p, zlen p ≤ mtu) ps → 0 ≤ mtu ≤ 65535 → c ++ s = concat (map frame ps) →
  ∃ ps1 ps2 rest, ps = ps1 ++ ps2 ∧ c = concat (map frame ps1) ++ rest ∧
    rest ++ s = concat (map frame ps2) ∧ scan_bytes mtu rest = Decoder.ScanMore.
Proof.
  intros Hps Hm. revert c. induction Hps as [|p ps Hp Hps IH]; intros c Heq.
  - cbn in Heq. apply app_nil in Heq as [-> ->]. by exists [], [], [].
  - cbn [map concat] in Heq. destruct (Z_lt_le_dec (zlen c) (2 + zlen p)) as [Hlt|Hge].
    + exists [], (p :: ps), c. repeat split; try done.
      eapply scan_bytes_prefix; [done|lia|done|done].
    + assert (Hc : c = frame p ++ zdrop (2 + zlen p) c).
      { rewrite <- (ztake_zdrop (2 + zlen p) c) at 1. f_equal.
        assert (H : ztake (2 + zlen p) (c ++ s) = ztake (2 + zlen p) c)
          by (unfold ztake; apply take_app_le; lia).
        rewrite <- H, Heq. apply ztake_app_exact. by rewrite zlen_frame. }
      rewrite Hc, <- app_assoc in Heq. apply app_inv_head in Heq.
      destruct (IH _ Heq) as (ps1 & ps2 & rest & -> & Hc' & Hr & Hs).
      exists (p :: ps1), ps2, rest. repeat split; try done.
      cbn [map concat]. by rewrite <- app_assoc, <- Hc'.
Qed.

(** ** The decoder *)

Section decoder.
Import Decoder.

Definition contents (d : t) : list Z := ztake (buf_used d) (zdrop (buf_start d) (buf d)).

Record decoder_wf (d : t) : Prop := {
    wf_mtu : 0 ≤ output_mtu d ≤ 65535;
    wf_size : buf_size d = 2 + output_mtu d;
    wf_buf : zlen (buf d) = buf_size d;
    wf_start : 0 ≤ buf_start d;
    wf_used : 0 ≤ buf_used d;
    wf_end : buf_start d + buf_used d ≤ buf_size d
  }.

Lemma zlen_contents d : decoder_wf d → zlen (contents d) = buf_used d.
Proof.
    intros []. unfold contents. rewrite zlen_ztake; [done|]. rewrite zlen_zdrop; lia.
Qed.

Lemma scan_eq d : decoder_wf d → scan d = scan_bytes (output_mtu d) (contents d).
Proof.
    intros Hwf. unfold scan, scan_bytes. rewrite (zlen_contents d Hwf).
    unfold sizeof_packetproto_header, ltoh16, htol16.
    destruct (Z.ltb_spec (buf_used d) 2) as [|H2]; [done|].
    set (c := zdrop (buf_start d) (buf d)).
    assert (Ht : ztake 2 (contents d) = ztake 2 c).
    { unfold contents, ztake. rewrite take_take. f_equal. lia. }
    rewrite Ht. set (len := le_val (ztake 2 c)).
    destruct (Z.ltb_spec (output_mtu d) len); [done|].
    destruct (Z.ltb_spec (buf_used d - 2) len); [done|]. f_equal.
    unfold contents. fold c. unfold ztake, zdrop. rewrite skipn_firstn_comm, take_take.
    f_equal. lia.
Qed.

Lemma process_data_eq d :
    process_data d =
    match scan d with
    | ScanPacket data =>
        Some (tt, set_buffer (buf_start d + (2 + zlen data)) (buf_used d - (2 + zlen data)) d,
              [OutputSend data])
    | ScanError =>
        Some (tt, set_buffer 0 0 d, [InputRecv 0 (buf_size d - 0); HandlerError])
    | ScanMore =>
        let d' := if buf_start d + buf_used d =? buf_size d
                  then set_buffer 0 (buf_used d) (set_buf (zwrite 0 (contents d) (buf d)) d)
                  else d in
        Some (tt, d', [InputRecv (buf_start d' + buf_used d')
                                 (buf_size d' - (buf_start d' + buf_used d'))])
    end.
Proof.
    unfold process_data, mbind, M_bind, mget. destruct (scan d); [|done..].
    by destruct (buf_start d + buf_used d =? buf_size d).
Qed.

(** The three outcomes of [process_data]. *)
Lemma process_more d :
    decoder_wf d → scan_bytes (output_mtu d) (contents d) = ScanMore →
    ∃ d', process_data d =
      Some (tt, d', [InputRecv (buf_start d' + buf_used d')
                               (buf_size d' - (buf_start d' + buf_used d'))]) ∧
    decoder_wf d' ∧ contents d' = contents d ∧ output_mtu d' = output_mtu d ∧
    buf_start d' + buf_used d' < buf_size d'.
Proof.
    intros Hwf Hs. rewrite process_data_eq, scan_eq, Hs by done.
    assert (Hlt : buf_used d < buf_size d).
    { pose proof (zlen_contents d Hwf) as Hz. destruct Hwf as [Hm Hsz _ _ _ _].
      unfold scan_bytes in Hs. rewrite Hz in Hs.
      destruct (Z.ltb_spec (buf_used d) 2); [lia|].
      destruct (Z.ltb_spec (output_mtu d) (le_val (ztake 2 (contents d)))); [done|].
      destruct (Z.ltb_spec (buf_used d - 2) (le_val (ztake 2 (contents d)))); [lia|done]. }
    destruct (Z.eqb_spec (buf_start d + buf_used d) (buf_size d)) as [He|Hne].
    - eexists. split; [done|].
      pose proof (zlen_contents d Hwf) as Hz.
      destruct Hwf as [Hm Hsz Hb Hst Hus Hend]. repeat split; cbn; try lia.
      + rewrite zlen_zwrite; lia.
      + unfold contents at 1. cbn. unfold zwrite. rewrite zdrop_0.
        change (ztake 0 (buf d)) with (@nil Z). by apply (ztake_app_exact _ (contents d)).
    - eexists. split; [done|]. destruct Hwf. repeat split; cbn; lia.
Qed.

Lemma process_packet d p rest :
    decoder_wf d → contents d = frame p ++ rest → zlen p ≤ output_mtu d →
    ∃ d', process_data d = Some (tt, d', [OutputSend p]) ∧
    decoder_wf d' ∧ contents d' = rest ∧ output_mtu d' = output_mtu d.
Proof.
    intros Hwf Hc Hp. pose proof (wf_mtu d Hwf) as Hm.
    rewrite process_data_eq, scan_eq, Hc, scan_bytes_frame by (done || lia).
    eexists. split; [done|].
    pose proof (zlen_contents d Hwf) as Hz. rewrite Hc, zlen_app, zlen_frame in Hz.
    destruct Hwf as [_ Hsz Hb Hst Hus Hend]. unfold sizeof_packetproto_header.
    repeat split; cbn; try lia.
    assert (Hd : zdrop (2 + zlen p) (contents d) = rest)
      by (rewrite Hc; apply zdrop_app_exact; by rewrite zlen_frame).
    rewrite <- Hd. unfold contents, ztake, zdrop. cbn.
    rewrite skipn_firstn_comm, drop_drop. f_equal; [lia|]. f_equal. lia.
Qed.

Lemma process_error d :
    decoder_wf d → scan_bytes (output_mtu d) (contents d) = ScanError →
    ∃ d', process_data d = Some (tt, d', [InputRecv 0 (buf_size d); HandlerError]) ∧
    decoder_wf d' ∧ contents d' = [] ∧ output_mtu d' = output_mtu d.
Proof.
    intros Hwf Hs. rewrite process_data_eq, scan_eq, Hs by done.
    eexists. split; [by rewrite Z.sub_0_r|]. destruct Hwf. repeat split; cbn; lia.
Qed.

(** A piece of the stream, written where the decoder asked for it. *)
Lemma receive_contents d piece :
    decoder_wf d → 0 < zlen piece →
    zlen piece ≤ buf_size d - (buf_start d + buf_used d) →
    let d1 := set_buffer (buf_start d) (buf_used d + zlen piece)
                (set_buf (zwrite (buf_start d + buf_used d) piece (buf d)) d) in
    decoder_wf d1 ∧ contents d1 = contents d ++ piece ∧ output_mtu d1 = output_mtu d.
Proof.
    intros Hwf Hp Hl d1. pose proof (zlen_contents d Hwf) as Hz.
    destruct Hwf as [Hm Hsz Hb Hst Hus Hend]. subst d1. repeat split; cbn; try lia.
    - rewrite zlen_zwrite; lia.
    - unfold contents at 1. cbn. unfold zwrite.
      set (s := buf_start d) in *. set (u := buf_used d) in *.
      replace (ztake (s + u) (buf d)) with (ztake s (buf d) ++ contents d).
      2: { unfold contents, ztake, zdrop. fold s u.
           rewrite <- (take_drop (Z.to_nat s) (take (Z.to_nat (s + u)) (buf d))).
           rewrite take_take, skipn_firstn_comm. f_equal; [f_equal; lia|]. f_equal. lia. }
      rewrite <- !app_assoc. rewrite zdrop_app_exact by (rewrite zlen_ztake; lia).
      rewrite app_assoc. apply ztake_app_exact. rewrite zlen_app. lia.
Qed.
End decoder.

Section theorems.
Context `{Build}.
Import Decoder.

(** The decoder waits for data at the end of what it holds, with room left. *)
Definition waiting (d : t) (off len : Z) : Prop :=
    decoder_wf d ∧ off = buf_start d + buf_used d ∧ len = buf_size d - off ∧ 0 < len.

Lemma input_handler_done_eq d piece off :
    off = buf_start d + buf_used d → 0 < zlen piece →
    zlen piece ≤ buf_size d - off →
    ('(_, d1, _) ← fill off piece d; input_handler_done (zlen piece) d1) =
    process_data (set_buffer (buf_start d) (buf_used d + zlen piece)
                    (set_buf (zwrite off piece (buf d)) d)).
Proof.
    intros -> Hp Hl. unfold fill, mmodify. cbn [mbind option_bind].
    unfold input_handler_done, mbind, M_bind, mget, ASSERT, mput. cbn [set_buf buf_size buf_start buf_used].
    rewrite (proj2 (Z.ltb_lt 0 (zlen piece))), (proj2 (Z.leb_le (zlen piece) _)), !orb_true_r by lia.
    cbn. destruct (process_data _) as [[[? ?] ?]|]; done.
Qed.

Lemma drain_frames ps d rest fuel :
    decoder_wf d → Forall (λ p, zlen p ≤ output_mtu d) ps →
    contents d = concat (map frame ps) ++ rest →
    scan_bytes (output_mtu d) rest = ScanMore → (length ps ≤ fuel)%nat →
    ∃ d1 es d' off len, process_data d = Some (tt, d1, es) ∧
      drain fuel d1 es = Some (d', Out ps (Some (off, len)) false) ∧
      waiting d' off len ∧ contents d' = rest ∧ output_mtu d' = output_mtu d.
Proof.
    intros Hwf Hps. revert d Hwf Hps fuel. induction ps as [|p ps IH]; intros d Hwf Hps fuel Hc Hs Hf.
    - cbn in Hc. rewrite <- Hc in Hs.
      destruct (process_more d Hwf Hs) as (d' & Hd & Hwf' & Hc' & Hm & Hlt).
      eexists d', _, d', _, _. split; [exact Hd|]. split; [by destruct fuel|].
      split; [unfold waiting; split_and!; [done|lia..]|]. split; [congruence|done].
    - apply Forall_cons in Hps as [Hp Hps]. cbn [map concat] in Hc. rewrite <- app_assoc in Hc.
      destruct (process_packet d p _ Hwf Hc Hp) as (d1 & Hd & Hwf1 & Hc1 & Hm).
      destruct fuel as [|fuel]; [cbn in Hf; lia|].
      destruct (IH d1 Hwf1) with (fuel := fuel) as (d2 & es & d' & off & len & Hd2 & Hdr & Hw & Hc2 & Hm2);
        [by rewrite Hm|done|by rewrite Hm|cbn in Hf; lia|].
      exists d1, [OutputSend p], d', off, len. split; [done|]. split.
      + cbn [drain]. unfold output_handler_done. rewrite Hd2. cbn [mbind option_bind].
        rewrite Hdr. done.
      + repeat split; try done; try apply Hw. congruence.
Qed.

Lemma frames_count ps : (length ps ≤ length (concat (map frame ps)))%nat.
Proof.
    induction ps as [|p ps IH]; [done|]. cbn [map concat length]. rewrite length_app.
    pose proof (zlen_frame p). lia.
Qed.

(** One piece of a stream of frames. *)
Lemma receive_piece_frames d off len piece ps s :
    waiting d off len → 0 < zlen piece ≤ len →
    Forall (λ p, zlen p ≤ output_mtu d) ps →
    contents d ++ piece ++ s = concat (map frame ps) →
    ∃ d' ps1 ps2 off' len', receive_piece d off piece = Some (d', Out ps1 (Some (off', len')) false) ∧
      ps = ps1 ++ ps2 ∧ waiting d' off' len' ∧ output_mtu d' = output_mtu d ∧
      contents d' ++ s = concat (map frame ps2) ∧
      scan_bytes (output_mtu d) (contents d') = ScanMore.
Proof.
    intros (Hwf & Hoff & Hlen & Hpos) Hp Hps Heq.
    rewrite app_assoc in Heq.
    destruct (frames_prefix_split (output_mtu d) ps _ _ Hps ltac:(destruct Hwf; lia) Heq)
      as (ps1 & ps2 & rest & -> & Hc & Hr & Hs).
    destruct (receive_contents d piece Hwf ltac:(lia) ltac:(lia)) as (Hwf1 & Hc1 & Hm1).
    rewrite <- Hoff in *. set (d1 := set_buffer _ _ _) in *.
    apply Forall_app in Hps as [Hps1 Hps2].
    destruct (drain_frames ps1 d1 rest (S (Z.to_nat (buf_used d + zlen piece))))
      as (d2 & es & d' & off' & len' & Hpd & Hdr & Hw & Hc' & Hm'); try done.
    - congruence.
    - pose proof (zlen_contents d1 Hwf1) as Hz. cbn in Hz. pose proof (frames_count ps1).
      rewrite Hc1, Hc, length_app in Hz. lia.
    - exists d', ps1, ps2, off', len'. split.
      + unfold receive_piece.
        pose proof (input_handler_done_eq d piece off Hoff ltac:(lia) ltac:(lia)) as Hi.
        fold d1 in Hi. rewrite Hpd in Hi. unfold fill, mmodify in *.
        cbn [mbind option_bind] in *. rewrite Hi. cbn. exact Hdr.
      + rewrite Hc'. repeat split; try done; try apply Hw; try congruence.
Qed.

Lemma run_frames sizes d off len stream ps :
    waiting d off len → Forall (λ p, zlen p ≤ output_mtu d) ps →
    contents d ++ stream = concat (map frame ps) →
    scan_bytes (output_mtu d) (contents d) = ScanMore →
    ∃ d' ps1 ps2 stream', run sizes d off len stream = Some (d', ps1, stream', false) ∧
      ps = ps1 ++ ps2 ∧ contents d' ++ stream' = concat (map frame ps2) ∧
      scan_bytes (output_mtu d) (contents d') = ScanMore ∧
      ((length stream ≤ length sizes)%nat → stream' = []).
Proof.
    revert d off len stream ps. induction sizes as [|k sizes IH]; intros d off len stream ps Hw Hps Heq Hs.
    - exists d, [], ps, stream. repeat split; try done.
      intros Hl. apply nil_length_inv. cbn in Hl. lia.
    - destruct stream as [|b stream]; [by exists d, [], ps, []|].
      cbn [run]. set (n := Z.min (Z.of_nat (S k)) len). set (str := b :: stream) in *.
      assert (Hn : 0 < n ≤ len) by (destruct Hw as (? & ? & ? & ?); unfold n; lia).
      assert (Hz : 0 < zlen (ztake n str) ≤ len).
      { unfold ztake. rewrite length_take. unfold str. cbn [length]. lia. }
      destruct (receive_piece_frames d off len (ztake n str) ps (zdrop n str) Hw Hz Hps)
        as (d1 & ps1 & ps2 & off' & len' & Hrp & -> & Hw1 & Hm1 & Hc1 & Hs1).
      { by rewrite ztake_zdrop. }
      rewrite Hrp. cbn [mbind option_bind].
      apply Forall_app in Hps as [_ Hps2].
      destruct (IH d1 off' len' (zdrop n str) ps2) as (d' & ps1' & ps2' & stream' & Hrun & -> & Hc' & Hs' & He);
        [done|by rewrite Hm1|done|by rewrite Hm1|].
      rewrite Hrun. cbn. exists d', (ps1 ++ ps1'), ps2', stream'.
      rewrite <- app_assoc. repeat split; try done; [by rewrite <- Hm1|].
      intros Hl. apply He. unfold zdrop. rewrite length_drop. unfold str in *. cbn [length] in *. lia.
Qed.
(** Bytes with a complete first packet are that packet's frame and a rest. *)
Lemma scan_bytes_packet mtu c p :
    bytes c → scan_bytes mtu c = ScanPacket p →
    c = frame p ++ zdrop (2 + zlen p) c ∧ zlen p ≤ mtu.
Proof.
    intros Hb Hs. unfold scan_bytes in Hs.
    destruct (Z.ltb_spec (zlen c) 2) as [|H2]; [done|].
    destruct (Z.ltb_spec mtu (le_val (ztake 2 c))); [done|].
    destruct (Z.ltb_spec (zlen c - 2) (le_val (ztake 2 c))); [done|]. injection Hs as <-.
    pose proof (le_val_bound (ztake 2 c) (Forall_ztake _ _ _ Hb)) as Hv.
    set (n := le_val (ztake 2 c)) in *.
    assert (Hz : zlen (ztake n (zdrop 2 c)) = n) by (rewrite zlen_ztake; [done|rewrite zlen_zdrop; lia]).
    rewrite Hz. split; [|lia]. unfold frame. rewrite Hz.
    replace (le_bytes 2 n) with (ztake 2 c).
    2: { assert (Hl : length (ztake 2 c) = 2%nat) by (unfold ztake; rewrite length_take; lia).
         unfold n. rewrite <- Hl at 1. symmetry. apply le_bytes_le_val. by apply Forall_ztake. }
    rewrite <- app_assoc, <- zdrop_zdrop by lia. unfold n.
    rewrite !zdrop_zdrop by lia. rewrite <- (zdrop_zdrop (le_val _) 2) by lia.
    by rewrite !ztake_zdrop.
Qed.

(** The decoder on any bytes: the packets before the first bad header come
      out, and it waits for more or reports the error. *)
Lemma drain_any fuel d :
    decoder_wf d → bytes (contents d) → buf_used d < Z.of_nat fuel →
    ∃ d1 es d' ps rest off len (e : bool), process_data d = Some (tt, d1, es) ∧
      drain fuel d1 es = Some (d', Out ps (Some (off, len)) e) ∧
      waiting d' off len ∧ output_mtu d' = output_mtu d ∧
      Forall (λ p, zlen p ≤ output_mtu d) ps ∧
      contents d = concat (map frame ps) ++ rest ∧
      scan_bytes (output_mtu d) rest = (if e then ScanError else ScanMore) ∧
      contents d' = if e then [] else rest.
Proof.
    revert d. induction fuel as [|fuel IH]; intros d Hwf Hb Hf; [destruct Hwf; lia|].
    destruct (scan_bytes (output_mtu d) (contents d)) as [| |p] eqn:Hs.
    - destruct (process_more d Hwf Hs) as (d' & Hd & Hwf' & Hc' & Hm & Hlt).
      eexists d', _, d', [], (contents d), _, _, false. split; [exact Hd|]. split; [done|].
      split; [unfold waiting; split_and!; [done|lia..]|]. by rewrite Hm.
    - destruct (process_error d Hwf Hs) as (d' & Hd & Hwf' & Hc' & Hm).
      eexists d', _, d', [], (contents d), _, _, true. split; [exact Hd|]. split; [done|].
      assert (d' = set_buffer 0 0 d) as ->.
      { rewrite process_data_eq, scan_eq, Hs in Hd by done. congruence. }
      split; [unfold waiting; split_and!; [done|cbn..]; try lia; destruct Hwf; lia|]. by rewrite Hm.
    - destruct (scan_bytes_packet _ _ _ Hb Hs) as [Hc Hp].
      destruct (process_packet d p _ Hwf Hc Hp) as (d1 & Hd & Hwf1 & Hc1 & Hm).
      pose proof (zlen_contents d Hwf) as Hz. pose proof (zlen_contents d1 Hwf1) as Hz1.
      rewrite Hc, zlen_app, zlen_frame, <- Hc1, Hz1 in Hz.
      destruct (IH d1 Hwf1) as (d2 & es & d' & ps & rest & off & len & e & Hd2 & Hdr & Hw & Hm2 & Hps & Hc2 & He & Hcd);
        [rewrite Hc1; by apply Forall_zdrop|lia|]. rewrite Hm in *.
      exists d1, [OutputSend p], d', (p :: ps), rest, off, len, e. split_and!; try done.
      + cbn [drain]. unfold output_handler_done. rewrite Hd2. cbn [mbind option_bind]. by rewrite Hdr.
      + by constructor.
      + cbn [map concat]. rewrite <- app_assoc, <- Hc2, Hc1. exact Hc.
Qed.
End theorems.

(** A decoder with an empty buffer gets back the packets of a stream of frames. *)
Lemma run_whole_frames `{Build} sizes d off len ps :
  waiting d off len → Forall (λ p, zlen p ≤ Decoder.output_mtu d) ps → contents d = [] →
  (length (concat (map frame ps)) ≤ length sizes)%nat →
  ∃ d', Decoder.run sizes d off len (concat (map frame ps)) = Some (d', ps, [], false) ∧ contents d' = [].
Proof.
  intros Hw Hps Hd Hlen. pose proof (wf_mtu d (proj1 Hw)) as Hm.
  destruct (run_frames sizes d off len (concat (map frame ps)) ps Hw Hps)
    as (d' & ps1 & ps2 & stream' & Hrun & Heq & Hc & Hs & He); [by rewrite Hd|by rewrite Hd|].
  specialize (He Hlen) as ->. rewrite app_nil_r in Hc.
  assert (ps2 = []) as ->.
  { destruct ps2 as [|p ps2]; [done|]. exfalso.
    rewrite Hc in Hs. cbn [map concat] in Hs.
    rewrite Heq in Hps. apply Forall_app in Hps as [_ Hps]. apply Forall_cons in Hps as [Hp _].
    rewrite scan_bytes_frame in Hs; [done|exact Hp|lia]. }
  rewrite app_nil_r in Heq. subst ps1. by exists d'.
Qed.

(** C3: Whatever the sizes of the pieces in which a stream of encoded packets
    arrives, the decoder passes on exactly those packets, in order, without
    reporting an error, and has nothing left in its buffer; no assertion fails
    and the decoder never asks for zero bytes.  (One piece per byte of the
    stream is enough to deliver it whatever the sizes.) *)
Theorem decoder_reassembles `{Build} mtu mem d es ps sizes :
  0 ≤ mtu → Forall (λ p, zlen p ≤ Z.min mtu 65535) ps →
  zlen mem = 2 + Z.min mtu 65535 →
  Decoder.PacketProtoDecoder_Init mtu (Some mem) = Some (d, es) →
  (length (concat (map frame ps)) ≤ length sizes)%nat →
  ∃ d', Decoder.run sizes d 0 (2 + Z.min mtu 65535) (concat (map frame ps)) =
        Some (d', ps, [], false) ∧
        contents d' = [].
Proof.
  intros Hmtu Hps Hmem Hinit Hlen.
  assert (Hmin : bmin_int mtu PACKETPROTO_MAXPAYLOAD = Z.min mtu 65535).
  { unfold bmin_int, PACKETPROTO_MAXPAYLOAD, UINT16_MAX. destruct (Z.ltb_spec mtu 65535); lia. }
  unfold Decoder.PacketProtoDecoder_Init in Hinit. rewrite Hmin in Hinit.
  injection Hinit as <- <-.
  set (m := Z.min mtu 65535) in *. set (d := Decoder.mk _ _ _ _ _).
  assert (Hw : waiting d 0 (2 + m)).
  { unfold PACKETPROTO_ENCLEN, sizeof_packetproto_header in d.
    repeat split; cbn; lia. }
  by apply (run_whole_frames sizes d 0 (2 + m) ps Hw Hps).
Qed.

Lemma decoder_reassembles_witness :
  let H : Build := false in
  ∃ d', Decoder.run (replicate 10 1%nat)
          (Decoder.mk 3 5 0 0 (replicate 5 0)) 0 5
          (concat (map frame [[7; 8; 9]; []; [1]])) =
        Some (d', [[7; 8; 9]; []; [1]], [], false) ∧ contents d' = [].
Proof.
  intros H.
  apply (decoder_reassembles 3 (replicate 5 0) _ [Decoder.InputRecv 0 5] [[7; 8; 9]; []; [1]]
           (replicate 10 1%nat)); try (repeat constructor; cbn; lia).
Defined.

(** Whatever bytes a piece of the stream holds, the decoder that waits for
    it runs without a failed assertion, passes on exactly the packets that are
    framed in what it holds up to the first header announcing more than its
    MTU, and waits for data again with at least one free byte inside its
    buffer.  It reports an error just when it meets such a header, and then
    holds nothing. *)
Theorem decoder_any_input `{Build} d off len piece :
  waiting d off len → bytes (contents d) → bytes piece → 0 < zlen piece ≤ len →
  ∃ d' ps rest off' len' (e : bool),
    Decoder.receive_piece d off piece = Some (d', Decoder.Out ps (Some (off', len')) e) ∧
    waiting d' off' len' ∧ Decoder.output_mtu d' = Decoder.output_mtu d ∧
    Forall (λ p, zlen p ≤ Decoder.output_mtu d) ps ∧
    contents d ++ piece = concat (map frame ps) ++ rest ∧
    scan_bytes (Decoder.output_mtu d) rest = (if e then Decoder.ScanError else Decoder.ScanMore) ∧
    contents d' = if e then [] else rest.
Proof.
  intros (Hwf & Hoff & Hlen & Hpos) Hb Hbp Hp.
  destruct (receive_contents d piece Hwf ltac:(lia) ltac:(lia)) as (Hwf1 & Hc1 & Hm1).
  rewrite <- Hoff in *. set (d1 := Decoder.set_buffer _ _ _) in *.
  destruct (drain_any (S (Z.to_nat (Decoder.buf_used d + zlen piece))) d1)
    as (d2 & es & d' & ps & rest & off' & len' & e & Hpd & Hdr & Hw & Hm & Hps & Hc & He & Hcd).
  - done.
  - rewrite Hc1. by apply Forall_app.
  - cbn. destruct Hwf; lia.
  - rewrite Hm1 in *. exists d', ps, rest, off', len', e. rewrite <- Hc1. split_and!; try done.
    unfold Decoder.receive_piece.
    pose proof (input_handler_done_eq d piece off Hoff ltac:(lia) ltac:(lia)) as Hi.
    fold d1 in Hi. rewrite Hpd in Hi. unfold Decoder.fill, mmodify in *.
    cbn [mbind option_bind] in *. rewrite Hi. cbn. exact Hdr.
Qed.

Lemma decoder_any_input_witness :
  let H : Build := false in
  ∃ d' ps rest off' len' (e : bool),
    Decoder.receive_piece (Decoder.mk 3 5 0 0 (replicate 5 0)) 0 [1; 0; 7; 4; 0] =
      Some (d', Decoder.Out ps (Some (off', len')) e) ∧
    waiting d' off' len' ∧ Decoder.output_mtu d' = 3 ∧
    Forall (λ p, zlen p ≤ 3) ps ∧
    [1; 0; 7; 4; 0] = concat (map frame ps) ++ rest ∧
    scan_bytes 3 rest = (if e then Decoder.ScanError else Decoder.ScanMore) ∧
    contents d' = if e then [] else rest.
Proof.
  intros H.
  apply (decoder_any_input (Decoder.mk 3 5 0 0 (replicate 5 0)) 0 5 [1; 0; 7; 4; 0]).
  - repeat split; cbn; lia.
  - constructor.
  - repeat constructor; unfold is_byte; lia.
  - cbn; lia.
Defined.

(** The encoder turns a packet of at most 65535 bytes, written behind the
    header space of the memory it was offered, into the packet's frame: the
    done call reports two bytes more than the payload, those bytes are the
    length and the payload, the rest of the memory is untouched, and the
    encoder is idle again. *)
Theorem encoder_frames `{Build} mem p :
  zlen p ≤ PACKETPROTO_MAXPAYLOAD → PACKETPROTO_ENCLEN (zlen p) ≤ zlen mem →
  Encoder.encode_one mem p Encoder.PacketProtoEncoder_Init =
  Some (tt, Encoder.PacketProtoEncoder_Init,
        [Encoder.InputRecv;
         Encoder.OutputDone (frame p ++ zdrop (2 + zlen p) mem) (zlen (frame p))]).
Proof.
  unfold PACKETPROTO_ENCLEN, PACKETPROTO_MAXPAYLOAD, UINT16_MAX, sizeof_packetproto_header.
  intros Hp Hm. rewrite zlen_frame.
  unfold Encoder.encode_one, Encoder.output_handler_recv, Encoder.input_handler_done,
    PACKETPROTO_ENCLEN, sizeof_packetproto_header, htol16.
  unfold ASSERT, mbind, M_bind, mget, mput, mmodify, emit. cbn [Encoder.PacketProtoEncoder_Init Encoder.output_packet].
  rewrite bool_decide_true, orb_true_r by done. cbn [app fmap option_fmap option_map].
  do 5 f_equal. unfold zwrite at 1. rewrite u16_small by lia. unfold frame.
  rewrite <- app_assoc. change (ztake 0 _) with (@nil Z). cbn [app]. f_equal. f_equal.
  rewrite length_le_bytes. unfold zwrite.
  apply zdrop_app_exact. rewrite zlen_ztake; lia.
Qed.

Lemma encoder_frames_witness :
  let H : Build := false in
  Encoder.encode_one (replicate 5 0) [7; 8] Encoder.PacketProtoEncoder_Init =
  Some (tt, Encoder.PacketProtoEncoder_Init,
        [Encoder.InputRecv; Encoder.OutputDone (frame [7; 8] ++ [0]) 4]).
Proof. intros H. apply (encoder_frames (replicate 5 0) [7; 8]); done || (cbn; lia). Defined.
