(* ===== verification/ChunkBuffer.v ===== *)
(** * ChunkBuffer: the circular packet buffer

    Models structure/ChunkBuffer2.h.  The buffer is an array of 4-byte blocks;
    a packet is a block holding its length followed by the blocks of its data,
    never split.  The model keeps the array as the bytes of memory it is, so
    that headers and data share it, with pointers into it as byte offsets. *)
From S2P Require Import Prelude Bytes.

Module ChunkBuffer2.

(** [sizeof(struct ChunkBuffer2_block)] *)
Definition sizeof_block : Z := 4.

Record t := mk {
  buffer : list Z;
  size : Z;
  wrap : Z;
  start : Z;
  used : Z;
  mtu : Z;
  input_dest : option Z;
  input_avail : Z;
  output_dest : option Z;
  output_avail : Z
}.

Definition set_input (dest : option Z) (avail : Z) (b : t) : t :=
  mk (buffer b) (size b) (wrap b) (start b) (used b) (mtu b)
     dest avail (output_dest b) (output_avail b).
Definition set_output (dest : option Z) (avail : Z) (b : t) : t :=
  mk (buffer b) (size b) (wrap b) (start b) (used b) (mtu b)
     (input_dest b) (input_avail b) dest avail.
Definition set_range (w s u : Z) (b : t) : t :=
  mk (buffer b) (size b) w s u (mtu b)
     (input_dest b) (input_avail b) (output_dest b) (output_avail b).
Definition set_buffer (m : list Z) (b : t) : t :=
  mk m (size b) (wrap b) (start b) (used b) (mtu b)
     (input_dest b) (input_avail b) (output_dest b) (output_avail b).

(** [buf->buffer[i].len], read and written; [None] is an access outside the
    array. *)
Definition read_len (b : t) (i : Z) : option Z :=
  if (0 <=? i) && (sizeof_block * i + sizeof_block <=? zlen (buffer b))
  then Some (s32 (le_val (ztake sizeof_block (zdrop (sizeof_block * i) (buffer b)))))
  else None.

Definition write_len (i len : Z) (b : t) : option t :=
  if (0 <=? i) && (sizeof_block * i + sizeof_block <=? zlen (buffer b))
  then Some (set_buffer (zwrite (sizeof_block * i) (le_bytes 4 len) (buffer b)) b)
  else None.

Definition end_ (b : t) : Z :=
  if wrap b - start b <=? used b
  then used b - (wrap b - start b)
  else start b + used b.

Definition assert_buffer `{Build} (b : t) : option unit :=
  assert (0 <? size b);;
  assert (0 <? wrap b);;
  assert (wrap b <=? size b);;
  assert (0 <=? start b);;
  assert (start b <? wrap b);;
  assert (0 <=? used b);;
  assert (used b <=? wrap b);;
  assert ((wrap b =? size b) || (wrap b - start b <=? used b));;
  assert (0 <=? mtu b).

Definition free_blocks (b : t) : Z :=
  if wrap b - start b <=? used b then start b - end_ b else size b - end_ b.

Definition assert_io `{Build} (b : t) : option unit :=
  if NDEBUG then Some tt else
  (* check input *)
  let e := end_ b in
  (if size b - e - 1 <? mtu b then
     assert (bool_decide (input_dest b = None));;
     assert (input_avail b =? -1)
   else
     let free := free_blocks b in
     if 0 <? free then
       assert (bool_decide (input_dest b = Some (sizeof_block * (e + 1))));;
       assert (input_avail b =? (free - 1) * sizeof_block)
     else
       assert (bool_decide (input_dest b = None));;
       assert (input_avail b =? -1));;
  (* check output *)
  if 0 <? used b then
    datalen ← read_len b (start b);
    assert (0 <=? datalen);;
    let blocklen := bdivide_up datalen sizeof_block in
    assert (blocklen <=? used b - 1);;
    assert (blocklen <=? wrap b - start b - 1);;
    assert (bool_decide (output_dest b = Some (sizeof_block * (start b + 1))));;
    assert (output_avail b =? datalen)
  else
    assert (bool_decide (output_dest b = None));;
    assert (output_avail b =? -1).

Definition update_input (b : t) : t :=
  let e := end_ b in
  (* it will never be possible to write a MTU long packet here *)
  if size b - e - 1 <? mtu b then set_input None (-1) b
  else
    (* calculate number of free blocks *)
    let free := free_blocks b in
    if 0 <? free then
      (* got space at least for a header *)
      set_input (Some (sizeof_block * (e + 1))) (s32 ((free - 1) * sizeof_block)) b
    else
      (* no space *)
      set_input None (-1) b.

Definition update_output `{Build} (b : t) : option t :=
  if 0 <? used b then
    datalen ← read_len b (start b);
    assert (0 <=? datalen);;
    let blocklen := bdivide_up datalen sizeof_block in
    assert (blocklen <=? used b - 1);;
    assert (blocklen <=? wrap b - start b - 1);;
    Some (set_output (Some (sizeof_block * (start b + 1))) datalen b)
  else Some (set_output None (-1) b).

Definition calc_blocks (chunk_len num : Z) : Z :=
  let chunk_data_blocks := bdivide_up chunk_len sizeof_block in
  if INT_MAX - 1 <? chunk_data_blocks then -1
  else
    let chunk_blocks := 1 + chunk_data_blocks in
    if INT_MAX - 1 <? num then -1
    else
      let num_chunks := num + 1 in
      if Z.quot INT_MAX num_chunks <? chunk_blocks then -1
      else chunk_blocks * num_chunks.

(** [mem] is the memory of the array. *)
Definition Init `{Build} (mem : list Z) (blocks mtu : Z) : option t :=
  assert (0 <? blocks);;
  assert (0 <=? mtu);;
  let b := mk mem blocks blocks 0 0 (bdivide_up mtu sizeof_block) None (-1) None (-1) in
  assert_buffer b;;
  let b := update_input b in
  b ← update_output b;
  assert_io b;;
  Some b.

Definition SubmitPacket `{Build} (len : Z) (b : t) : option t :=
  assert (bool_decide (is_Some (input_dest b)));;
  assert (0 <=? len);;
  assert (len <=? input_avail b);;
  assert_buffer b;;
  assert_io b;;
  let e := end_ b in
  let blocklen := bdivide_up len sizeof_block in
  assert (blocklen <=? size b - e - 1);;
  assert ((used b <? wrap b - start b) || (blocklen <=? start b - e - 1));;
  b ← write_len e len b;
  let b := set_range (wrap b) (start b) (used b + (1 + blocklen)) b in
  let b := if (used b <=? wrap b - start b) && (size b - (e + 1 + blocklen) - 1 <? mtu b)
           then set_range (e + 1 + blocklen) (start b) (used b) b else b in
  assert_buffer b;;
  (* update input *)
  let b := update_input b in
  (* update output *)
  b ← (if used b =? 1 + blocklen then update_output b else Some b);
  assert_io b;;
  Some b.

Definition ConsumePacket `{Build} (b : t) : option t :=
  assert (bool_decide (is_Some (output_dest b)));;
  assert_buffer b;;
  assert_io b;;
  assert (1 <=? wrap b - start b);;
  assert (1 <=? used b);;
  len ← read_len b (start b);
  let blocklen := bdivide_up len sizeof_block in
  assert (blocklen <=? wrap b - start b - 1);;
  assert (blocklen <=? used b - 1);;
  let data_wrapped := wrap b - start b <=? used b in
  let b := set_range (wrap b) (start b + (1 + blocklen)) (used b - (1 + blocklen)) b in
  let b := if start b =? wrap b then set_range (size b) 0 (used b) b else b in
  assert_buffer b;;
  (* update input *)
  let b := if data_wrapped then update_input b else b in
  (* update output *)
  b ← update_output b;
  assert_io b;;
  Some b.

(** The producer writes a packet at [input_dest] and submits it. *)
Definition put `{Build} (p : list Z) (b : t) : option t :=
  d ← input_dest b;
  SubmitPacket (zlen p) (set_buffer (zwrite d p (buffer b)) b).

End ChunkBuffer2.

(** ** The packets a buffer holds *)

Section layout.
Import ChunkBuffer2.

(** The blocks a packet takes, its header included. *)
Definition nblocks (p : list Z) : Z := 1 + bdivide_up (zlen p) 4.

Fixpoint blocks (ps : list (list Z)) : Z :=
    match ps with [] => 0 | p :: ps => nblocks p + blocks ps end.

Definition packet_at (mem : list Z) (pos : Z) (p : list Z) : Prop :=
    ztake 4 (zdrop (4 * pos) mem) = le_bytes 4 (zlen p) ∧
    ztake (zlen p) (zdrop (4 * (pos + 1)) mem) = p.

(** Packets one after another from block [pos], each starting at or before
      [lim]. *)
Fixpoint seg (mem : list Z) (lim pos : Z) (ps : list (list Z)) : Prop :=
    match ps with
    | [] => True
    | p :: ps => (pos ≤ lim ∧ packet_at mem pos p) ∧ seg mem lim (pos + nblocks p) ps
    end.

(** The packets lie from [start] up to the end of the data, or up to [wrap]
      and then from block 0.  No packet starts where a packet of MTU size would
      not fit. *)
Record layout (b : t) (ps1 ps2 : list (list Z)) : Prop := {
    lay_mem : zlen (buffer b) = 4 * size b;
    lay_int : 4 * size b ≤ INT_MAX;
    lay_wrap : 0 < wrap b ≤ size b;
    lay_start : 0 ≤ start b < wrap b;
    lay_mtu : 0 ≤ mtu b;
    lay_used : used b = blocks ps1 + blocks ps2;
    lay_seg1 : seg (buffer b) (size b - mtu b - 1) (start b) ps1;
    lay_seg2 : seg (buffer b) (size b - mtu b - 1) 0 ps2;
    lay_shape :
      (ps2 = [] ∧ wrap b = size b ∧ start b + blocks ps1 ≤ size b - mtu b - 1) ∨
      (start b + blocks ps1 = wrap b ∧ blocks ps2 ≤ start b ∧ size b - mtu b ≤ wrap b)
  }.

(** The pointers handed to the producer and the consumer are up to date. *)
Record pointers (b : t) (ps : list (list Z)) : Prop := {
    ptr_input : update_input b = b;
    ptr_output : match ps with
                 | [] => output_dest b = None ∧ output_avail b = -1
                 | p :: _ => output_dest b = Some (4 * (start b + 1)) ∧ output_avail b = zlen p
                 end
  }.

Definition holds (b : t) (ps : list (list Z)) : Prop :=
    ∃ ps1 ps2, ps = ps1 ++ ps2 ∧ layout b ps1 ps2 ∧ pointers b ps.

Lemma nblocks_spec p : 1 ≤ nblocks p ∧ zlen p ≤ 4 * (nblocks p - 1) < zlen p + 4.
Proof. unfold nblocks. pose proof (bdivide_up_spec (zlen p) 4). lia. Qed.

Lemma blocks_nonneg ps : 0 ≤ blocks ps.
Proof. induction ps as [|p ps IH]; cbn [blocks]; [lia|]. pose proof (nblocks_spec p). lia. Qed.

Lemma blocks_app ps1 ps2 : blocks (ps1 ++ ps2) = blocks ps1 + blocks ps2.
Proof. induction ps1 as [|p ps1 IH]; cbn [blocks app]; lia. Qed.

Lemma seg_app mem lim pos ps1 ps2 :
    seg mem lim pos (ps1 ++ ps2) ↔ seg mem lim pos ps1 ∧ seg mem lim (pos + blocks ps1) ps2.
Proof.
    revert pos. induction ps1 as [|p ps1 IH]; intros pos; cbn [seg app blocks].
    - rewrite Z.add_0_r. tauto.
    - rewrite IH, Z.add_assoc. tauto.
Qed.

(** A write behind the packets, or before them, leaves them. *)
Lemma seg_zwrite mem lim pos ps off src :
    0 ≤ pos → 0 ≤ off → off + zlen src ≤ zlen mem →
    4 * (pos + blocks ps) ≤ off ∨ off + zlen src ≤ 4 * pos →
    seg mem lim pos ps → seg (zwrite off src mem) lim pos ps.
Proof.
    intros Hpos Ho Hm. revert pos Hpos. induction ps as [|p ps IH]; intros pos Hpos Hd; [done|].
    cbn [seg blocks] in *. pose proof (nblocks_spec p). pose proof (blocks_nonneg ps).
    intros [[Hl [H1 H2]] Hs]. split; [|apply IH; [lia| |done]; lia]. split; [done|].
    split.
    - rewrite <- H1. destruct Hd; [apply slice_zwrite_before|apply slice_zwrite_after]; lia.
    - rewrite <- H2 at 2. destruct Hd; [apply slice_zwrite_before|apply slice_zwrite_after]; lia.
Qed.

Lemma end_layout b ps1 ps2 :
    layout b ps1 ps2 →
    (ps2 = [] ∧ wrap b = size b ∧ used b < wrap b - start b ∧
       end_ b = start b + blocks ps1 ∧ end_ b ≤ size b - mtu b - 1 ∧
       free_blocks b = size b - end_ b) ∨
    (start b + blocks ps1 = wrap b ∧ wrap b - start b ≤ used b ∧
       end_ b = blocks ps2 ∧ end_ b ≤ start b ∧ size b - mtu b ≤ wrap b ∧
       free_blocks b = start b - end_ b).
Proof.
    intros [Hm Hi Hw Hst Hmt Hu Hs1 Hs2 Hsh]. unfold free_blocks.
    pose proof (blocks_nonneg ps2). pose proof (blocks_nonneg ps1).
    destruct Hsh as [(-> & He & Hle)|(He & Hle & Hw2)]; [left|right].
    - cbn [blocks] in *. unfold end_. rewrite (proj2 (Z.leb_gt _ _)) by lia. split; [done|lia].
    - unfold end_. rewrite (proj2 (Z.leb_le _ _)) by lia. lia.
Qed.

(** The first packet of the second segment also starts before the limit, and
      so does the end of the data while there is room. *)
Lemma start_lim b ps1 ps2 : layout b ps1 ps2 → start b ≤ size b - mtu b - 1.
Proof.
    intros [Hm Hi Hw Hst Hmt Hu Hs1 Hs2 Hsh]. pose proof (blocks_nonneg ps1).
    destruct Hsh as [(-> & He & Hle)|(He & Hle & Hw2)]; [lia|].
    destruct ps1 as [|p ps1]; cbn [blocks seg] in *; [lia|]. tauto.
Qed.

Lemma input_layout b ps1 ps2 :
    layout b ps1 ps2 →
    update_input b =
    if 0 <? free_blocks b
    then set_input (Some (4 * (end_ b + 1))) ((free_blocks b - 1) * 4) b
    else set_input None (-1) b.
Proof.
    intros Hl. pose proof (start_lim _ _ _ Hl) as Hlim.
    pose proof (end_layout _ _ _ Hl) as He. destruct Hl as [Hm Hi Hw Hst Hmt Hu _ _ _].
    pose proof (blocks_nonneg ps2). pose proof (blocks_nonneg ps1).
    unfold update_input, sizeof_block.
    rewrite (proj2 (Z.ltb_ge _ (mtu b))) by lia.
    destruct (Z.ltb_spec 0 (free_blocks b)); [|done].
    rewrite s32_small by lia. done.
Qed.

Lemma read_len_layout b p ps1 ps2 :
    layout b (p :: ps1) ps2 → read_len b (start b) = Some (zlen p).
Proof.
    intros Hl. pose proof (end_layout _ _ _ Hl) as He.
    destruct Hl as [Hm Hi Hw Hst Hmt Hu Hs1 _ _]. cbn [seg blocks] in *.
    pose proof (nblocks_spec p). pose proof (blocks_nonneg ps1).
    destruct Hs1 as [[_ [H1 _]] _]. unfold read_len, sizeof_block.
    rewrite (proj2 (Z.leb_le 0 _)), (proj2 (Z.leb_le _ (zlen _))) by lia. cbn [andb].
    rewrite H1. rewrite le_val_le_bytes, s32_small; [done|lia|].
    unfold INT_MAX in Hi. change (256 ^ Z.of_nat 4) with 4294967296. lia.
Qed.

Lemma layout_pieces b ps1 ps2 : layout b ps1 ps2 → ps1 = [] → ps2 = [] ∧ used b = 0.
Proof.
    intros [Hm Hi Hw Hst Hmt Hu Hs1 Hs2 Hsh] ->. cbn [blocks] in *.
    destruct Hsh as [(-> & He & Hle)|(He & Hle & Hw2)]; [done|lia].
Qed.

Lemma packet_fits b p ps1 ps2 :
    layout b (p :: ps1) ps2 → nblocks p ≤ used b ∧ start b + nblocks p ≤ wrap b.
Proof.
    intros [Hm Hi Hw Hst Hmt Hu Hs1 Hs2 Hsh]. cbn [blocks] in *.
    pose proof (nblocks_spec p). pose proof (blocks_nonneg ps1). pose proof (blocks_nonneg ps2). lia.
Qed.
End layout.

(** Passes the assertions of the code, whose conditions follow by arithmetic
    from the context. *)
Ltac pass_assert :=
  match goal with
  | |- context [assert ?c] =>
      rewrite (assert_true c)
        by first [ done | apply bool_decide_eq_true_2; done
                 | apply Z.leb_le; lia | apply Z.ltb_lt; lia | apply Z.eqb_eq; lia
                 | apply orb_true_iff; rewrite ?Z.leb_le, ?Z.ltb_lt, ?Z.eqb_eq; lia ]
  end; cbn [mbind option_bind].

Section asserts.
Context `{Build}.
Import ChunkBuffer2.

Lemma assert_buffer_layout b ps1 ps2 : layout b ps1 ps2 → assert_buffer b = Some tt.
Proof.
    intros Hl. pose proof (end_layout _ _ _ Hl) as He.
    destruct Hl as [Hm Hi Hw Hst Hmt Hu Hs1 Hs2 Hsh].
    pose proof (blocks_nonneg ps2). pose proof (blocks_nonneg ps1).
    unfold assert_buffer. by repeat pass_assert.
Qed.

Lemma update_output_layout b ps1 ps2 :
    layout b ps1 ps2 →
    update_output b = Some (match ps1 ++ ps2 with
                            | [] => set_output None (-1) b
                            | p :: _ => set_output (Some (4 * (start b + 1))) (zlen p) b
                            end).
Proof.
    intros Hl. unfold update_output. destruct ps1 as [|p ps1].
    - destruct (layout_pieces _ _ _ Hl eq_refl) as [-> ->]. done.
    - destruct (packet_fits _ _ _ _ Hl). pose proof (nblocks_spec p) as Hn.
      rewrite (proj2 (Z.ltb_lt 0 (used b))) by lia.
      rewrite (read_len_layout _ _ _ _ Hl). cbn [mbind option_bind].
      unfold nblocks, sizeof_block in *. repeat pass_assert. done.
Qed.

Lemma assert_io_layout b ps1 ps2 :
    layout b ps1 ps2 → pointers b (ps1 ++ ps2) → assert_io b = Some tt.
Proof.
    intros Hl [Hin Hout]. unfold assert_io. destruct NDEBUG; [done|].
    pose proof (start_lim _ _ _ Hl) as Hlim. pose proof (end_layout _ _ _ Hl) as He.
    rewrite (input_layout _ _ _ Hl) in Hin.
    assert (Hmt : end_ b ≤ size b - mtu b - 1) by lia.
    rewrite (proj2 (Z.ltb_ge _ (mtu b))) by lia.
    assert (Hi : ∀ o v, set_input o v b = b → input_dest b = o ∧ input_avail b = v)
      by (intros o v Heq; rewrite <- Heq; done).
    destruct (Z.ltb_spec 0 (free_blocks b)) as [Hf|Hf];
      apply Hi in Hin as [Hd Ha]; unfold sizeof_block; repeat pass_assert.
    1,2: destruct ps1 as [|p ps1];
      [destruct (layout_pieces _ _ _ Hl eq_refl) as [-> ->]; destruct Hout;
         cbn [Z.ltb Z.compare]; by repeat pass_assert|].
    1,2: destruct (packet_fits _ _ _ _ Hl); pose proof (nblocks_spec p) as Hn;
      rewrite (proj2 (Z.ltb_lt 0 (used b))) by lia;
      rewrite (read_len_layout _ _ _ _ Hl); cbn [mbind option_bind];
      destruct Hout; unfold nblocks in *; by repeat pass_assert.
Qed.
End asserts.

Section operations.
Context `{Build}.
Import ChunkBuffer2.

(** [update_input] depends on the range of the data only. *)
Definition input_fields (b : t) : option Z * Z :=
    if size b - end_ b - 1 <? mtu b then (None, -1)
    else if 0 <? free_blocks b
         then (Some (sizeof_block * (end_ b + 1)), s32 ((free_blocks b - 1) * sizeof_block))
         else (None, -1).

Lemma update_input_fields b :
    update_input b = set_input (input_fields b).1 (input_fields b).2 b.
Proof. unfold input_fields, update_input. repeat case_match; done. Qed.

Lemma update_input_idem b o v :
    update_input (set_output o v (update_input b)) = set_output o v (update_input b).
Proof.
    by rewrite update_input_fields, (update_input_fields b).
Qed.

Lemma update_input_iff b :
    update_input b = b ↔ (input_dest b, input_avail b) = input_fields b.
Proof.
    rewrite update_input_fields. destruct (input_fields b) as [o v]. split; intros Hb.
    - by rewrite <- Hb.
    - injection Hb as <- <-. by destruct b.
Qed.

Lemma start_update_input b : start (update_input b) = start b.
Proof. by rewrite update_input_fields. Qed.

Lemma pointers_update b ps : pointers (set_output None (-1) (update_input b)) [] ∧
    ∀ p, pointers (set_output (Some (4 * (start b + 1))) (zlen p) (update_input b)) (p :: ps).
Proof.
    split; [|intros p]; split; try done; try apply update_input_idem; cbn; by rewrite ?start_update_input.
Qed.

Lemma layout_input b ps1 ps2 : layout b ps1 ps2 → layout (update_input b) ps1 ps2.
Proof. intros []. unfold update_input. repeat case_match; split; cbn; done. Qed.

(** The last part of every operation. *)
Lemma finish_holds b ps1 ps2 :
    layout b ps1 ps2 →
    ∃ b', (b ← update_output (update_input b); assert_io b;; Some b) = Some b' ∧
      layout b' ps1 ps2 ∧ pointers b' (ps1 ++ ps2) ∧ input_dest b' = input_dest (update_input b) ∧
      input_avail b' = input_avail (update_input b).
Proof.
    intros Hl. rewrite (update_output_layout _ _ _ (layout_input _ _ _ Hl)). cbn [mbind option_bind].
    set (b' := match ps1 ++ ps2 with [] => _ | _ => _ end).
    destruct (pointers_update b (tail (ps1 ++ ps2))) as [Hp1 Hp2].
    pose proof (start_update_input b) as Hs.
    assert (Hl' : layout b' ps1 ps2).
    { pose proof (layout_input _ _ _ Hl) as []. unfold b'. destruct (ps1 ++ ps2); split; done. }
    assert (Hp : pointers b' (ps1 ++ ps2)).
    { unfold b'. rewrite Hs. destruct (ps1 ++ ps2) as [|p l]; [done|]. apply (Hp2 p). }
    exists b'. rewrite (assert_io_layout _ _ _ Hl' Hp). cbn. split_and!; try done;
      unfold b'; by destruct (ps1 ++ ps2).
Qed.

Lemma finish_size b b' :
    (b ← update_output (update_input b); assert_io b;; Some b) = Some b' →
    size b' = size b ∧ mtu b' = mtu b ∧ start b' = start b ∧ buffer b' = buffer b.
Proof.
    destruct (update_output (update_input b)) as [c|] eqn:E; [|done]. cbn [mbind option_bind].
    destruct (assert_io c); [|done]. intros [= <-]. rewrite (update_input_fields b) in E.
    unfold update_output in E. destruct (0 <? used _); [|by injection E as <-].
    destruct (read_len _ _); [|done]. cbn [mbind option_bind] in E.
    repeat match type of E with assert ?x ≫= _ = _ => destruct (assert x); [|done]; cbn [mbind option_bind] in E end.
    by injection E as <-.
Qed.

Lemma Init_holds mem n mtu :
    0 ≤ mtu → bdivide_up mtu 4 < n → 4 * n ≤ INT_MAX → zlen mem = 4 * n →
    ∃ b, Init mem n mtu = Some b ∧ holds b [] ∧ size b = n ∧
      ChunkBuffer2.mtu b = bdivide_up mtu 4 ∧ input_dest b = Some 4 ∧ input_avail b = (n - 1) * 4.
Proof.
    intros Hm Hn Hi Hmem. pose proof (bdivide_up_nonneg mtu 4 Hm ltac:(lia)) as Hb. unfold Init.
    repeat pass_assert. change sizeof_block with 4. set (b := mk _ _ _ _ _ _ _ _ _ _).
    assert (Hl : layout b [] []) by (split; cbn; try done; try lia; left; split; [done|lia]).
    rewrite (assert_buffer_layout _ _ _ Hl). cbn [mbind option_bind].
    destruct (finish_holds b [] [] Hl) as (b' & Hf & Hl' & Hp & Hd & Ha).
    rewrite Hf. exists b'. rewrite (input_layout _ _ _ Hl) in Hd, Ha.
    destruct (end_layout _ _ _ Hl) as [(_ & _ & _ & He & _ & Hfr)|(He & _)]; cbn in He; [|lia].
    rewrite Hfr, He in Hd, Ha. cbn [size b] in *.
    rewrite (proj2 (Z.ltb_lt 0 (n - (0 + 0)))) in Hd, Ha by lia.
    split; [done|]. split; [by exists [], []|].
    destruct (finish_size _ _ Hf) as (Hz1 & Hz2 & _).
    split_and!; try done. rewrite Ha. cbn. lia.
Qed.

(** Writes into the free part. *)
Lemma layout_zwrite b ps1 ps2 off src :
    layout b ps1 ps2 → 4 * end_ b ≤ off → off + zlen src ≤ 4 * (end_ b + free_blocks b) →
    layout (set_buffer (zwrite off src (buffer b)) b) ps1 ps2.
Proof.
    intros Hl Ho Hs. pose proof (end_layout _ _ _ Hl) as He.
    destruct Hl as [Hm Hi Hw Hst Hmt Hu Hs1 Hs2 Hsh].
    pose proof (blocks_nonneg ps2). pose proof (blocks_nonneg ps1).
    split; cbn [set_buffer buffer size wrap start used mtu]; try done.
    - rewrite zlen_zwrite; lia.
    - apply seg_zwrite; try lia. done.
    - destruct He as [(-> & _)|He]; [done|]. apply seg_zwrite; try lia. done.
Qed.

(** The range after a packet of [n] blocks was written at the end. *)
Lemma layout_append b ps1 ps2 p :
    layout b ps1 ps2 → nblocks p ≤ free_blocks b → packet_at (buffer b) (end_ b) p →
    let b1 := set_range (wrap b) (start b) (used b + nblocks p) b in
    let b2 := if (used b1 <=? wrap b1 - start b1) && (size b1 - (end_ b + nblocks p) - 1 <? mtu b1)
              then set_range (end_ b + nblocks p) (start b1) (used b1) b1 else b1 in
    ∃ ps1' ps2', ps1' ++ ps2' = ps1 ++ ps2 ++ [p] ∧ layout b2 ps1' ps2'.
Proof.
    intros Hl Hf Hp b1 b2. pose proof (end_layout _ _ _ Hl) as He.
    pose proof (start_lim _ _ _ Hl) as Hlim. pose proof (nblocks_spec p) as Hn.
    destruct Hl as [Hm Hi Hw Hst Hmt Hu Hs1 Hs2 Hsh]. subst b2 b1.
    pose proof (blocks_nonneg ps2). pose proof (blocks_nonneg ps1).
    cbn [set_range used wrap start size mtu].
    destruct He as [(-> & He1 & He2 & He3 & He4 & He5)|(He1 & He2 & He3 & He4 & He5 & He6)].
    - exists (ps1 ++ [p]), []. split; [by rewrite app_nil_r|]. cbn [blocks] in *.
      rewrite (proj2 (Z.leb_le (used b + nblocks p) _)) by lia. cbn [andb].
      destruct (Z.ltb_spec (size b - (end_ b + nblocks p) - 1) (mtu b));
        split; cbn [set_range buffer used wrap start size mtu]; rewrite ?blocks_app; cbn [blocks];
        try done; try lia; try (apply seg_app; split; [done|]; cbn [seg]; rewrite <- He3; split_and!; [lia|done|done]).
      left. split; [done|lia].
    - exists ps1, (ps2 ++ [p]). split; [done|].
      rewrite (proj2 (Z.leb_gt (used b + nblocks p) _)) by lia. cbn [andb].
      split; cbn [set_range buffer used wrap start size mtu]; rewrite ?blocks_app; cbn [blocks]; try done; try lia.
      apply seg_app. split; [done|]. cbn [seg]. rewrite Z.add_0_l, <- He3. split_and!; [lia|done|done].
Qed.
End operations.

Section queue.
Context `{Build}.
Import ChunkBuffer2.

Lemma holds_input b ps1 ps2 :
    layout b ps1 ps2 → pointers b (ps1 ++ ps2) →
    input_dest b = (if 0 <? free_blocks b then Some (4 * (end_ b + 1)) else None) ∧
    input_avail b = (if 0 <? free_blocks b then (free_blocks b - 1) * 4 else -1).
Proof.
    intros Hl [Hin _]. rewrite (input_layout _ _ _ Hl) in Hin.
    split; rewrite <- Hin at 1; by destruct (0 <? free_blocks b).
Qed.

(** The output pointers of a buffer that was not empty are still right when a
      packet is added. *)
Lemma update_output_keep b ps1 ps2 p :
    layout b ps1 ps2 → head (ps1 ++ ps2) = Some p →
    output_dest b = Some (4 * (start b + 1)) → output_avail b = zlen p →
    update_output b = Some b.
Proof.
    intros Hl Hh Hd Ha. rewrite (update_output_layout _ _ _ Hl).
    destruct (ps1 ++ ps2) as [|q l]; [done|]. injection Hh as ->.
    rewrite <- Hd, <- Ha. by destruct b.
Qed.

(** [SubmitPacket] behind its assertions and the write of the length. *)
Definition submit_tail (e n : Z) (b : t) : option t :=
    let b := set_range (wrap b) (start b) (used b + n) b in
    let b := if (used b <=? wrap b - start b) && (size b - (e + n) - 1 <? mtu b)
             then set_range (e + n) (start b) (used b) b else b in
    assert_buffer b;;
    let b := update_input b in
    b ← (if used b =? n then update_output b else Some b);
    assert_io b;;
    Some b.

Lemma submit_passes b ps1 ps2 len :
    layout b ps1 ps2 → pointers b (ps1 ++ ps2) → 0 ≤ len ≤ input_avail b →
    SubmitPacket len b =
    submit_tail (end_ b) (1 + bdivide_up len 4)
      (set_buffer (zwrite (4 * end_ b) (le_bytes 4 len) (buffer b)) b).
Proof.
    intros Hl Hp Hlen. destruct (holds_input _ _ _ Hl Hp) as [Hd Ha].
    destruct (Z.ltb_spec 0 (free_blocks b)) as [Hf|]; [|lia].
    pose proof (bdivide_up_spec len 4). pose proof (end_layout _ _ _ Hl) as He.
    unfold SubmitPacket. rewrite Hd, Ha. repeat pass_assert.
    rewrite (assert_buffer_layout _ _ _ Hl), (assert_io_layout _ _ _ Hl Hp).
    cbn [mbind option_bind]. destruct Hl as [Hm Hi Hw Hst Hmt Hu Hs1 Hs2 _].
    pose proof (blocks_nonneg ps2). pose proof (blocks_nonneg ps1).
    change sizeof_block with 4. repeat pass_assert.
    unfold write_len. change sizeof_block with 4.
    rewrite (proj2 (Z.leb_le 0 _)), (proj2 (Z.leb_le _ (zlen (buffer b)))) by lia.
    cbn [andb mbind option_bind]. unfold submit_tail.
    by rewrite <- (Z.add_assoc (end_ b) 1).
Qed.

Lemma submit_tail_holds b ps1 ps2 p :
    layout b ps1 ps2 → pointers b (ps1 ++ ps2) →
    nblocks p ≤ free_blocks b → packet_at (buffer b) (end_ b) p →
    ∃ b', submit_tail (end_ b) (nblocks p) b = Some b' ∧ holds b' ((ps1 ++ ps2) ++ [p]) ∧
      size b' = size b ∧ mtu b' = mtu b ∧
      (ps1 ++ ps2 ≠ [] → output_dest b' = output_dest b ∧ output_avail b' = output_avail b).
Proof.
    intros Hl Hp Hf Hpk. unfold submit_tail.
    destruct (layout_append b ps1 ps2 p Hl Hf Hpk) as (ps1' & ps2' & Heq & Hl2).
    set (b1 := set_range (wrap b) _ _ b) in *. set (b2 := if (_ && _)%bool then _ else _) in *.
    rewrite (assert_buffer_layout _ _ _ Hl2). cbn [mbind option_bind].
    assert (Hb2 : used b2 = used b + nblocks p ∧ start b2 = start b ∧ size b2 = size b ∧ mtu b2 = mtu b ∧
                  output_dest b2 = output_dest b ∧ output_avail b2 = output_avail b)
      by (unfold b2; by case_match).
    destruct Hb2 as (Hu2 & Hs2 & Hz2 & Hm2 & Hod & Hoa).
    destruct (finish_holds b2 ps1' ps2' Hl2) as (b' & Hfin & Hl' & Hp' & _).
    assert (Htail : (b ← (if used (update_input b2) =? nblocks p then update_output (update_input b2)
                          else Some (update_input b2)); assert_io b;; Some b) = Some b').
    { rewrite (update_input_fields b2) at 1. cbn [set_input used]. rewrite Hu2.
      destruct (Z.eqb_spec (used b + nblocks p) (nblocks p)) as [|Hne]; [done|].
      rewrite (update_output_keep _ ps1' ps2' (default [] (head (ps1 ++ ps2)))) in Hfin; [done|by apply layout_input|..];
        destruct Hp as [_ Ho]; destruct (ps1 ++ ps2) as [|q l] eqn:E;
        try (destruct Hl; apply app_nil in E as [-> ->]; cbn [blocks] in *; lia).
      - by rewrite Heq, app_assoc, E.
      - rewrite (update_input_fields b2). cbn [set_input output_dest start]. destruct Ho. congruence.
      - rewrite (update_input_fields b2). cbn [set_input output_avail]. destruct Ho. cbn. congruence. }
    rewrite Htail. exists b'. split; [done|]. split.
    - exists ps1', ps2'. rewrite Heq in *. by rewrite <- app_assoc.
    - destruct (finish_size _ _ Hfin) as (? & ? & Hst & _). split_and!; [congruence..|]. intros Hne.
      pose proof (ptr_output _ _ Hp') as Ho'. pose proof (ptr_output _ _ Hp) as Ho.
      rewrite Heq, app_assoc in Ho'. destruct (ps1 ++ ps2); [done|]. destruct Ho, Ho'.
      rewrite Hst in *. split; congruence.
Qed.

Lemma put_holds b ps p :
    holds b ps → zlen p ≤ input_avail b →
    ∃ b', put p b = Some b' ∧ holds b' (ps ++ [p]) ∧ size b' = size b ∧ mtu b' = mtu b ∧
      (ps ≠ [] → output_dest b' = output_dest b ∧ output_avail b' = output_avail b).
Proof.
    intros (ps1 & ps2 & -> & Hl & Hptr) Hlen.
    destruct (holds_input _ _ _ Hl Hptr) as [Hd Ha].
    destruct (Z.ltb_spec 0 (free_blocks b)) as [Hf|]; [|lia].
    pose proof (nblocks_spec p) as Hn. pose proof (end_layout _ _ _ Hl) as He.
    pose proof (blocks_nonneg ps1). pose proof (blocks_nonneg ps2).
    assert (Hmem : 0 ≤ end_ b ∧ 4 * (end_ b + free_blocks b) ≤ zlen (buffer b)) by (destruct Hl; lia).
    unfold put. rewrite Hd. cbn [mbind option_bind].
    pose proof (layout_zwrite b ps1 ps2 (4 * (end_ b + 1)) p Hl ltac:(lia) ltac:(lia)) as Hl0.
    set (b0 := set_buffer _ b) in *.
    assert (Hk : ∀ m, pointers (set_buffer m b) (ps1 ++ ps2)).
    { intros m. destruct Hptr as [Hi Ho]. split; [|done]. apply update_input_iff in Hi. by apply update_input_iff. }
    rewrite (submit_passes b0 ps1 ps2 (zlen p) Hl0 (Hk _)) by (cbn [b0 set_buffer input_avail]; lia).
    assert (Hz4 : zlen (le_bytes 4 (zlen p)) = 4) by (by rewrite length_le_bytes).
    assert (Hz0 : zlen (buffer b0) = zlen (buffer b)) by (cbn [b0 set_buffer buffer]; rewrite zlen_zwrite; lia).
    assert (He0 : end_ b0 = end_ b ∧ free_blocks b0 = free_blocks b) by done. destruct He0 as [He0 Hf0].
    pose proof (layout_zwrite b0 ps1 ps2 (4 * end_ b) (le_bytes 4 (zlen p)) Hl0 ltac:(lia) ltac:(lia)) as Hl1.
    rewrite He0. change (1 + bdivide_up (zlen p) 4) with (nblocks p).
    apply (submit_tail_holds (set_buffer _ b0) ps1 ps2 p Hl1); [apply Hk|change (nblocks p ≤ free_blocks b); lia|].
    cbn [set_buffer buffer]. change (end_ (set_buffer _ b0)) with (end_ b). split.
    - rewrite <- Hz4 at 1. apply slice_zwrite_same; lia.
    - rewrite slice_zwrite_after by lia. cbn [b0 set_buffer buffer]. apply slice_zwrite_same; lia.
Qed.

(** The range after the first packet was taken out. *)
Lemma layout_consume b p ps1 ps2 :
    layout b (p :: ps1) ps2 →
    let b1 := set_range (wrap b) (start b + nblocks p) (used b - nblocks p) b in
    let b2 := if start b1 =? wrap b1 then set_range (size b1) 0 (used b1) b1 else b1 in
    end_ b2 = end_ b ∧ (used b < wrap b - start b → free_blocks b2 = free_blocks b) ∧
    free_blocks b ≤ free_blocks b2 ∧
    ∃ ps1' ps2', ps1' ++ ps2' = ps1 ++ ps2 ∧ layout b2 ps1' ps2'.
Proof.
    intros Hl b1 b2. pose proof (end_layout _ _ _ Hl) as He. pose proof (start_lim _ _ _ Hl) as Hlim.
    pose proof (nblocks_spec p) as Hn. pose proof (blocks_nonneg ps1). pose proof (blocks_nonneg ps2).
    assert (Hex : ∃ ps1' ps2', ps1' ++ ps2' = ps1 ++ ps2 ∧ layout b2 ps1' ps2').
    { destruct Hl as [Hm Hi Hw Hst Hmt Hu Hs1 Hs2 Hsh]. subst b2 b1. cbn [set_range start wrap blocks seg] in *.
      destruct Hs1 as [[Hpl _] Hs1].
      destruct (Z.eqb_spec (start b + nblocks p) (wrap b)) as [Hq|Hq].
      - assert (ps1 = []) as ->.
        { destruct ps1 as [|q ps1]; [done|]. cbn [blocks] in *. pose proof (nblocks_spec q).
          pose proof (blocks_nonneg ps1). lia. }
        exists ps2, []. rewrite app_nil_r. split; [done|].
        split; cbn [set_range buffer used wrap start size mtu blocks] in *; try done; try lia.
        left. split; [done|lia].
      - exists ps1, ps2. split; [done|].
        split; cbn [set_range buffer used wrap start size mtu blocks] in *; try done; try lia.
        destruct Hsh as [(-> & ? & ?)|?]; [left; split; [done|lia]|right; lia]. }
    destruct Hex as (ps1' & ps2' & Heq & Hl2). pose proof (end_layout _ _ _ Hl2) as He2.
    assert (Hr : used b2 = used b - nblocks p ∧ size b2 = size b ∧
                 ((start b2 = start b + nblocks p ∧ wrap b2 = wrap b ∧ start b + nblocks p ≠ wrap b) ∨
                  (start b + nblocks p = wrap b ∧ start b2 = 0 ∧ wrap b2 = size b))).
    { subst b2 b1. cbn [set_range start wrap].
      destruct (Z.eqb_spec (start b + nblocks p) (wrap b)); cbn [set_range used start wrap size]; tauto. }
    assert (Hend : end_ b2 = end_ b ∧ (used b < wrap b - start b → free_blocks b2 = free_blocks b) ∧
                   free_blocks b ≤ free_blocks b2).
    { pose proof (lay_used _ _ _ Hl). pose proof (lay_used _ _ _ Hl2).
      pose proof (lay_wrap _ _ _ Hl). pose proof (lay_start _ _ _ Hl).
      cbn [blocks] in *. pose proof (blocks_nonneg ps1'). pose proof (blocks_nonneg ps2').
      destruct He as [(-> & He)|He], He2 as [(-> & He2)|He2]; cbn [blocks] in *; lia. }
    destruct Hend as (? & ? & ?). split_and!; [done..|]. by exists ps1', ps2'.
Qed.

Lemma consume_holds b p ps :
    holds b (p :: ps) →
    ∃ b', ConsumePacket b = Some b' ∧ holds b' ps ∧ size b' = size b ∧ mtu b' = mtu b ∧
      input_avail b ≤ input_avail b' ∧ (is_Some (input_dest b) → input_dest b' = input_dest b).
Proof.
    intros (ps1 & ps2 & Hps & Hl & Hp). destruct ps1 as [|q ps1].
    { destruct (layout_pieces _ _ _ Hl eq_refl) as [-> _]. done. }
    injection Hps as <- ->. destruct (packet_fits _ _ _ _ Hl) as [Hfit1 Hfit2].
    pose proof (nblocks_spec p) as Hn. destruct (holds_input _ _ _ Hl Hp) as [Hd Ha].
    unfold ConsumePacket. pose proof (ptr_output _ _ Hp) as Ho. cbn [app] in Ho. destruct Ho as [Hod Hoa].
    rewrite Hod. repeat pass_assert.
    rewrite (assert_buffer_layout _ _ _ Hl), (assert_io_layout _ _ _ Hl Hp). cbn [mbind option_bind].
    repeat pass_assert. rewrite (read_len_layout _ _ _ _ Hl). cbn [mbind option_bind].
    change sizeof_block with 4. change (1 + bdivide_up (zlen p) 4) with (nblocks p).
    assert (Hbl : bdivide_up (zlen p) 4 = nblocks p - 1) by (unfold nblocks; lia). rewrite Hbl.
    repeat pass_assert.
    destruct (layout_consume _ _ _ _ Hl) as (He & Hfr & Hle & ps1' & ps2' & Heq & Hl2).
    set (b1 := set_range (wrap b) _ _ b) in *. set (b2 := if _ =? _ then _ else b1) in *.
    rewrite (assert_buffer_layout _ _ _ Hl2). cbn [mbind option_bind].
    assert (Hb2 : size b2 = size b ∧ mtu b2 = mtu b ∧ input_dest b2 = input_dest b ∧ input_avail b2 = input_avail b)
      by (unfold b2; by destruct (start b1 =? wrap b1)).
    destruct Hb2 as (Hz2 & Hm2 & Hd2 & Ha2).
    replace (if wrap b - start b <=? used b then update_input b2 else b2) with (update_input b2).
    2: { destruct (Z.leb_spec (wrap b - start b) (used b)); [done|]. apply update_input_iff.
         rewrite Hd2, Ha2. pose proof (ptr_input _ _ Hp) as Hi. apply update_input_iff in Hi. rewrite Hi.
         unfold input_fields. by rewrite Hz2, Hm2, He, Hfr by lia. }
    destruct (finish_holds b2 ps1' ps2' Hl2) as (b' & Hfin & Hl' & Hp' & Hd' & Ha').
    destruct (finish_size _ _ Hfin) as (Hz' & Hm' & _). rewrite Hfin. exists b'. split; [done|].
    rewrite (input_layout _ _ _ Hl2) in Hd', Ha'.
    split; [exists ps1', ps2'; by rewrite Heq in *|]. split_and!; try congruence.
    - rewrite Ha, Ha'. destruct (Z.ltb_spec 0 (free_blocks b)), (Z.ltb_spec 0 (free_blocks b2));
        cbn [set_input input_avail]; lia.
    - rewrite Hd, Hd'. destruct (Z.ltb_spec 0 (free_blocks b)); [|by intros [? ?]]. intros _.
      rewrite (proj2 (Z.ltb_lt 0 (free_blocks b2))) by lia. cbn [set_input input_dest]. by rewrite He.
Qed.
End queue.

Section capacity.
Import ChunkBuffer2.

Lemma calc_blocks_spec len num :
    0 ≤ len → 0 < num →
    if calc_blocks len num <? 0 then INT_MAX < (1 + bdivide_up len 4) * (num + 1)
    else calc_blocks len num = (1 + bdivide_up len 4) * (num + 1) ∧
         0 < calc_blocks len num ≤ INT_MAX.
Proof.
    intros Hl Hn. pose proof (bdivide_up_nonneg len 4 Hl ltac:(lia)) as Hd.
    unfold calc_blocks, sizeof_block, INT_MAX. set (m := bdivide_up len 4) in *.
    destruct (Z.ltb_spec (2147483647 - 1) m); [cbn [Z.ltb Z.compare]; nia|].
    destruct (Z.ltb_spec (2147483647 - 1) num); [cbn [Z.ltb Z.compare]; nia|].
    rewrite Z.quot_div_nonneg by lia.
    destruct (Z.ltb_spec (2147483647 / (num + 1)) (1 + m)) as [Hq|Hq].
    - cbn [Z.ltb Z.compare]. Z.div_mod_to_equations. nia.
    - rewrite (proj2 (Z.ltb_ge _ 0)) by nia. Z.div_mod_to_equations. nia.
Qed.

Lemma blocks_bound m ps : 0 ≤ m → Forall (λ p, zlen p ≤ m) ps →
    blocks ps ≤ (1 + bdivide_up m 4) * zlen ps.
Proof.
    intros Hm. induction 1 as [|p ps Hp _ IH]; cbn [blocks length]; [lia|].
    pose proof (bdivide_up_le (zlen p) m 4 ltac:(lia) ltac:(lia)). unfold nblocks. lia.
Qed.

Lemma room b ps m num :
    holds b ps → 0 ≤ m → mtu b = bdivide_up m 4 → size b = (1 + bdivide_up m 4) * (num + 1) →
    Forall (λ p, zlen p ≤ m) ps → zlen ps < num → m ≤ input_avail b ∧ is_Some (input_dest b).
Proof.
    intros (ps1 & ps2 & -> & Hl & Hp) Hm Hmtu Hsz Hps Hn.
    destruct (holds_input _ _ _ Hl Hp) as [-> ->].
    pose proof (bdivide_up_spec m 4 Hm ltac:(lia)) as Hb. pose proof (blocks_bound m _ Hm Hps) as Hbl.
    rewrite blocks_app in Hbl. pose proof (blocks_nonneg ps1). pose proof (blocks_nonneg ps2).
    assert (Hf : bdivide_up m 4 + 1 ≤ free_blocks b).
    { pose proof (lay_used _ _ _ Hl). destruct (end_layout _ _ _ Hl) as [?|?]; nia. }
    rewrite (proj2 (Z.ltb_lt 0 (free_blocks b))) by nia. split; [lia|eauto].
Qed.
End capacity.

(** C10: The circular buffer is a queue.  A buffer that holds the packets [ps]
    offers exactly the first of them, whole, at [output_dest]; a packet that
    fits [input_avail], written at [input_dest] and submitted, is added at the
    end; consuming takes the first out, and leaves the destination of a receive
    that is in progress where it is.  None of the assertions of the operations
    fails, and no block outside the array is touched. *)
Theorem chunkbuffer_queue `{Build} b ps :
  holds b ps →
  (ps = [] ↔ ChunkBuffer2.output_avail b = -1) ∧
  (∀ p, zlen p ≤ ChunkBuffer2.input_avail b →
     ∃ b', ChunkBuffer2.put p b = Some b' ∧ holds b' (ps ++ [p])) ∧
  (∀ p ps', ps = p :: ps' →
     (∃ d, ChunkBuffer2.output_dest b = Some d ∧
        ztake (ChunkBuffer2.output_avail b) (zdrop d (ChunkBuffer2.buffer b)) = p) ∧
     ∃ b', ChunkBuffer2.ConsumePacket b = Some b' ∧ holds b' ps' ∧
        (is_Some (ChunkBuffer2.input_dest b) →
           ChunkBuffer2.input_dest b' = ChunkBuffer2.input_dest b)).
Proof.
  intros Hh. split; [|split].
  - destruct Hh as (ps1 & ps2 & Heq & Hl & [_ Hp]). destruct ps as [|p ps]; [tauto|].
    destruct Hp as [_ ->]. split; [done|lia].
  - intros p Hp. destruct (put_holds b ps p Hh Hp) as (b' & ? & ? & _). eauto.
  - intros p ps' ->. split.
    + destruct Hh as (ps1 & ps2 & Heq & Hl & [_ [Hd Ha]]). exists (4 * (ChunkBuffer2.start b + 1)).
      split; [done|]. rewrite Ha. destruct ps1 as [|q ps1].
      * destruct (layout_pieces _ _ _ Hl eq_refl) as [-> _]. done.
      * injection Heq as -> _. destruct Hl as [_ _ _ _ _ _ [[_ [_ Hq]] _] _ _]. exact Hq.
    + destruct (consume_holds b p ps' Hh) as (b' & ? & ? & _ & _ & _ & ?). eauto.
Qed.

(** [ChunkBuffer2_calc_blocks] returns -1 exactly when the size does not
    fit an [int], and a buffer made with the size it returns for packets of up
    to [m] bytes and [num] packets has room for another [m]-byte packet as long
    as it holds fewer than [num], however the packets lie in it. *)
Theorem calc_blocks_capacity `{Build} m num mem :
  0 ≤ m → 0 < num →
  (ChunkBuffer2.calc_blocks m num = -1 ↔ INT_MAX < (1 + bdivide_up m 4) * (num + 1)) ∧
  (let n := ChunkBuffer2.calc_blocks m num in
   n ≠ -1 → 4 * n ≤ INT_MAX → zlen mem = 4 * n →
   (∃ b, ChunkBuffer2.Init mem n m = Some b ∧ holds b []) ∧
   ∀ b ps, holds b ps → ChunkBuffer2.mtu b = bdivide_up m 4 → ChunkBuffer2.size b = n →
     Forall (λ p, zlen p ≤ m) ps → zlen ps < num → m ≤ ChunkBuffer2.input_avail b).
Proof.
  intros Hm Hn. pose proof (calc_blocks_spec m num Hm Hn) as Hc.
  pose proof (bdivide_up_nonneg m 4 Hm ltac:(lia)) as Hd.
  assert (Hneg : ChunkBuffer2.calc_blocks m num < 0 → ChunkBuffer2.calc_blocks m num = -1).
  { clear Hc. unfold ChunkBuffer2.calc_blocks. change ChunkBuffer2.sizeof_block with 4.
    assert (0 ≤ (1 + bdivide_up m 4) * (num + 1)) by nia.
    repeat (destruct (_ <? _); [done|]). lia. }
  destruct (Z.ltb_spec (ChunkBuffer2.calc_blocks m num) 0) as [Hlt|Hge];
    [specialize (Hneg Hlt)|clear Hneg]; (split; [split; lia|]).
  - intros n Hne. done.
  - intros n Hne Hmax Hmem. destruct Hc as [Hc _]. fold n in Hc. split.
    + destruct (Init_holds mem n m Hm) as (b & ? & ? & _); [nia|done..|]. eauto.
    + intros b ps Hh Hmt Hsz Hps Hk. apply (room b ps m num Hh Hm Hmt); [congruence|done..].
Qed.

(** A buffer for one packet of up to 5 bytes, holding a 5-byte packet. *)
Lemma chunkbuffer_example :
  let H : Build := false in
  ∃ b0 b1, ChunkBuffer2.Init (replicate 24 0) 6 5 = Some b0 ∧
    ChunkBuffer2.put [9; 8; 7; 6; 5] b0 = Some b1 ∧ holds b0 [] ∧ holds b1 [[9; 8; 7; 6; 5]].
Proof.
  intros H. destruct (Init_holds (replicate 24 0) 6 5) as (b0 & Hi & Hh & _ & _ & _ & Ha); [done..|].
  destruct (put_holds b0 [] [9; 8; 7; 6; 5] Hh) as (b1 & Hp & Hh1 & _); [by rewrite Ha|].
  by exists b0, b1.
Qed.

Lemma chunkbuffer_queue_witness :
  let H : Build := false in
  ∃ b, holds b [[9; 8; 7; 6; 5]] ∧
    ∃ b', ChunkBuffer2.ConsumePacket b = Some b' ∧ holds b' [].
Proof.
  intros H. destruct chunkbuffer_example as (b0 & b1 & _ & _ & _ & Hh). exists b1. split; [exact Hh|].
  destruct (chunkbuffer_queue b1 [[9; 8; 7; 6; 5]] Hh) as (_ & _ & Hc).
  destruct (Hc _ _ eq_refl) as [_ (b' & ? & ? & _)]. by exists b'.
Defined.

Lemma calc_blocks_capacity_witness :
  let H : Build := false in
  ChunkBuffer2.calc_blocks 5 1 = 6 ∧
  ∃ b, ChunkBuffer2.Init (replicate 24 0) 6 5 = Some b ∧ holds b [].
Proof.
  intros H. split; [reflexivity|].
  destruct (calc_blocks_capacity 5 1 (replicate 24 0)) as [_ Hc]; [lia|lia|].
  destruct Hc as [Hb _]; [done|done|done|]. exact Hb.
Defined.
