(* ===== verification/Flow.v ===== *)
(** * Flow: packet buffers and connectors

    Models flow/PacketBuffer.c (a queue between a packet source and a packet
    sink, on structure/ChunkBuffer2.h), flow/SinglePacketBuffer.c,
    flow/PacketStreamSender.c, flow/PacketPassConnector.c and
    flow/BufferWriter.c, with flow/PacketPassInterface.[ch], the interface they
    talk through.  A component runs with an environment that answers its calls;
    a step of the two together is one answer. *)
From stdpp Require Import relations.
From S2P Require Import Prelude Bytes ChunkBuffer.

(** ** flow/PacketPassInterface.[ch] *)

Module PacketPassInterface.

Inductive state_t := NONE | OPERATION_PENDING | BUSY | DONE_PENDING.

#[global] Instance state_t_eq_dec : EqDecision state_t.
Proof. solve_decision. Defined.

(** The pending jobs are booleans: a job is set at most once. *)
Record t := mk {
  mtu : Z;
  can_cancel : bool;           (** handler_requestcancel is not NULL *)
  have_user : bool;            (** handler_done is not NULL *)
  job_operation : bool;
  job_operation_data : list Z;
  job_requestcancel : bool;
  job_done : bool;
  state : state_t;
  cancel_requested : bool
}.

Inductive event := HandlerOperation (data : list Z) | HandlerRequestCancel | HandlerDone.

Definition with_jobs (op rc dn : bool) (st : state_t) (cr : bool) (i : t) : t :=
  mk (mtu i) (can_cancel i) (have_user i) op (job_operation_data i) rc dn st cr.

Definition Init (mtu : Z) : t := mk mtu false false false [] false false NONE false.

Definition EnableCancel `{Build} (i : t) : option t :=
  assert (negb (can_cancel i));;
  assert (negb (have_user i));;
  Some (mk (mtu i) true (have_user i) (job_operation i) (job_operation_data i)
           (job_requestcancel i) (job_done i) (state i) (cancel_requested i)).

Definition Done `{Build} (i : t) : option t :=
  assert (bool_decide (state i = BUSY));;
  Some (with_jobs (job_operation i) false true DONE_PENDING (cancel_requested i) i).

Definition Sender_Init `{Build} (i : t) : option t :=
  assert (negb (have_user i));;
  Some (mk (mtu i) (can_cancel i) true (job_operation i) (job_operation_data i)
           (job_requestcancel i) (job_done i) (state i) (cancel_requested i)).

Definition Sender_Send `{Build} (data : list Z) (i : t) : option t :=
  assert (zlen data <=? mtu i);;
  assert (bool_decide (state i = NONE));;
  assert (have_user i);;
  Some (mk (mtu i) (can_cancel i) (have_user i) true data
           (job_requestcancel i) (job_done i) OPERATION_PENDING false).

Definition Sender_RequestCancel `{Build} (i : t) : option t :=
  assert (bool_decide (state i ≠ NONE));;
  assert (can_cancel i);;
  (* ignore multiple cancel requests *)
  if cancel_requested i then Some i
  else match state i with
       | OPERATION_PENDING =>
           Some (with_jobs false (job_requestcancel i) true DONE_PENDING true i)
       | BUSY => Some (with_jobs (job_operation i) true (job_done i) (state i) true i)
       | _ => Some (with_jobs (job_operation i) (job_requestcancel i) (job_done i) (state i) true i)
       end.

(** The jobs, run by the reactor when they are set; running a job unsets it. *)
Definition job_operation_run `{Build} (i : t) : option (t * event) :=
  assert (bool_decide (state i = OPERATION_PENDING));;
  Some (with_jobs false (job_requestcancel i) (job_done i) BUSY (cancel_requested i) i,
        HandlerOperation (job_operation_data i)).

Definition job_requestcancel_run `{Build} (i : t) : option (t * event) :=
  assert (bool_decide (state i = BUSY));;
  assert (cancel_requested i);;
  assert (can_cancel i);;
  Some (with_jobs (job_operation i) false (job_done i) (state i) (cancel_requested i) i,
        HandlerRequestCancel).

Definition job_done_run `{Build} (i : t) : option (t * event) :=
  assert (bool_decide (state i = DONE_PENDING));;
  Some (with_jobs (job_operation i) (job_requestcancel i) false NONE (cancel_requested i) i,
        HandlerDone).

End PacketPassInterface.

(** ** flow/PacketBuffer.c *)

Module PacketBuffer.

Record t := mk { buf : ChunkBuffer2.t; input_mtu : Z }.

Inductive event :=
| InputRecv (dest : option Z)           (** PacketRecvInterface_Receiver_Recv *)
| OutputSend (dest : option Z) (len : Z). (** PacketPassInterface_Sender_Send *)

Definition on_buf (f : ChunkBuffer2.t → option ChunkBuffer2.t) : M t event unit :=
  o ← mget;
  b ← mlift (f (buf o));
  mput (mk b (input_mtu o)).

Definition input_handler_done `{Build} (in_len : Z) : M t event unit :=
  o ← mget;
  ASSERT (0 <=? in_len);;
  ASSERT (in_len <=? input_mtu o);;
  (* remember if buffer is empty *)
  let was_empty := ChunkBuffer2.output_avail (buf o) <? 0 in
  (* submit packet to buffer *)
  on_buf (ChunkBuffer2.SubmitPacket in_len);;
  o ← mget;
  (* if there is space, schedule receive *)
  when (input_mtu o <=? ChunkBuffer2.input_avail (buf o))
    (emit (InputRecv (ChunkBuffer2.input_dest (buf o))));;
  (* if buffer was empty, schedule send *)
  when was_empty
    (emit (OutputSend (ChunkBuffer2.output_dest (buf o)) (ChunkBuffer2.output_avail (buf o)))).

Definition output_handler_done `{Build} : M t event unit :=
  o ← mget;
  (* remember if buffer is full *)
  let was_full := ChunkBuffer2.input_avail (buf o) <? input_mtu o in
  (* remove packet from buffer *)
  on_buf ChunkBuffer2.ConsumePacket;;
  o ← mget;
  (* if buffer was full and there is space, schedule receive *)
  when (was_full && (input_mtu o <=? ChunkBuffer2.input_avail (buf o)))
    (emit (InputRecv (ChunkBuffer2.input_dest (buf o))));;
  (* if there is more data, schedule send *)
  when (0 <=? ChunkBuffer2.output_avail (buf o))
    (emit (OutputSend (ChunkBuffer2.output_dest (buf o)) (ChunkBuffer2.output_avail (buf o)))).

(** [alloc]: the answer of [BAllocArray]. *)
Definition PacketBuffer_Init `{Build} (input_mtu output_mtu num_packets : Z)
    (alloc : Z → option (list Z)) : option (option (t * list event)) :=
  assert (input_mtu <=? output_mtu);;
  assert (0 <? num_packets);;
  let num_blocks := ChunkBuffer2.calc_blocks input_mtu num_packets in
  if num_blocks <? 0 then Some None
  else match alloc (num_blocks * ChunkBuffer2.sizeof_block) with
       | None => Some None
       | Some mem =>
           b ← ChunkBuffer2.Init mem num_blocks input_mtu;
           Some (Some (mk b input_mtu, [InputRecv (ChunkBuffer2.input_dest b)]))
       end.

(** *** The buffer between its source and its sink

    [recv] and [send] are the operations in progress; [arrived] and [left] are
    the packets the source has delivered and the sink has finished with, as the
    sink sees them in memory at that moment. *)

Record sys := mksys {
  obj : t;
  recv : option Z;
  send : option (Z * Z);
  arrived : list (list Z);
  left_ : list (list Z)
}.

(** An operation may be started only when none is in progress. *)
Definition apply_event (s : sys) (e : event) : option sys :=
  match e with
  | InputRecv d =>
      d ← d; if bool_decide (recv s = None)
             then Some (mksys (obj s) (Some d) (send s) (arrived s) (left_ s)) else None
  | OutputSend d l =>
      d ← d; if bool_decide (send s = None)
             then Some (mksys (obj s) (recv s) (Some (d, l)) (arrived s) (left_ s)) else None
  end.

Fixpoint apply_events (s : sys) (es : list event) : option sys :=
  match es with [] => Some s | e :: es => s ← apply_event s e; apply_events s es end.

Definition start_sys (i : t * list event) : option sys :=
  apply_events (mksys i.1 None None [] []) i.2.

(** The source finishes the receive in progress with packet [p]. *)
Definition do_in `{Build} (p : list Z) (s : sys) : option sys :=
  d ← recv s;
  let b := buf (obj s) in
  let o := mk (ChunkBuffer2.set_buffer (zwrite d p (ChunkBuffer2.buffer b)) b) (input_mtu (obj s)) in
  '(_, o, es) ← input_handler_done (zlen p) o;
  apply_events (mksys o None (send s) (arrived s ++ [p]) (left_ s)) es.

(** The sink finishes the send in progress. *)
Definition do_out `{Build} (s : sys) : option sys :=
  '(d, l) ← send s;
  let p := ztake l (zdrop d (ChunkBuffer2.buffer (buf (obj s)))) in
  '(_, o, es) ← output_handler_done (obj s);
  apply_events (mksys o (recv s) None (arrived s) (left_ s ++ [p])) es.

Inductive step `{Build} (s : sys) : sys → Prop :=
| step_in p s' : zlen p ≤ input_mtu (obj s) → do_in p s = Some s' → step s s'
| step_out s' : do_out s = Some s' → step s s'.

End PacketBuffer.

(** ** flow/SinglePacketBuffer.c *)

Module SinglePacketBuffer.

(** The buffer's memory, shared by the receive and the send. *)
Record t := mk { buf : list Z }.

Inductive event := InputRecv | OutputSend (data : list Z).

Definition input_handler_done (in_len : Z) : M t event unit :=
  o ← mget;
  emit (OutputSend (ztake in_len (buf o))).

Definition output_handler_done : M t event unit := emit InputRecv.

Definition SinglePacketBuffer_Init `{Build} (input_mtu output_mtu : Z)
    (alloc : Z → option (list Z)) : option (option (t * list event)) :=
  assert (input_mtu <=? output_mtu);;
  Some ((λ mem, (mk mem, [InputRecv])) <$> alloc input_mtu).

(** One packet through the buffer: the source writes it, the sink finishes. *)
Definition pass (p : list Z) : M t event unit :=
  mmodify (λ o, mk (zwrite 0 p (buf o)));;
  input_handler_done (zlen p);;
  output_handler_done.

End SinglePacketBuffer.

(** ** flow/PacketStreamSender.c *)

Module PacketStreamSender.

(** [in_len] is -1 when there is no packet. *)
Record t := mk { in_len : Z; in_ : list Z; in_used : Z }.

Inductive event := OutputSend (data : list Z) | InputDone.

Definition PacketStreamSender_Init : t := mk (-1) [] 0.

Definition send_data `{Build} : M t event unit :=
  s ← mget;
  ASSERT (0 <=? in_len s);;
  if in_used s <? in_len s then
    (* send more data *)
    emit (OutputSend (ztake (in_len s - in_used s) (zdrop (in_used s) (in_ s))))
  else
    (* finish input packet *)
    mput (mk (-1) (in_ s) (in_used s));;
    emit InputDone.

Definition input_handler_send `{Build} (data : list Z) : M t event unit :=
  s ← mget;
  ASSERT (in_len s =? -1);;
  (* set input packet *)
  mput (mk (zlen data) data 0);;
  (* send *)
  send_data.

Definition output_handler_done `{Build} (data_len : Z) : M t event unit :=
  s ← mget;
  ASSERT (0 <=? in_len s);;
  ASSERT (0 <? data_len);;
  ASSERT (data_len <=? in_len s - in_used s);;
  (* update number of bytes sent *)
  mput (mk (in_len s) (in_ s) (in_used s + data_len));;
  (* send *)
  send_data.

(** The stream accepts at least one byte of what it is given, at most all of
    it, as [sizes] says.  The result is what went into the stream, and whether
    the packet was reported done. *)
Fixpoint drive `{Build} (sizes : list nat) (s : t) (es : list event) : option (t * list Z * bool) :=
  match es with
  | [OutputSend data] =>
      match sizes with
      | [] => Some (s, [], false)
      | k :: sizes =>
          let n := Z.min (Z.of_nat (S k)) (zlen data) in
          '(_, s', es') ← output_handler_done n s;
          '(s'', out, dn) ← drive sizes s' es';
          Some (s'', ztake n data ++ out, dn)
      end
  | [InputDone] => Some (s, [], true)
  | _ => None
  end.

Definition send_packet `{Build} (sizes : list nat) (p : list Z) (s : t) : option (t * list Z * bool) :=
  '(_, s', es) ← input_handler_send p s;
  drive sizes s' es.

End PacketStreamSender.

(** ** flow/PacketPassConnector.c *)

Module PacketPassConnector.

(** [in_]: the packet held, or [None] for [in_len == -1]. *)
Record t := mk { input_mtu : Z; in_ : option (list Z); output : bool }.

Inductive event := OutputInit | OutputSend (data : list Z) | InputDone.

Definition input_handler_send `{Build} (data : list Z) : M t event unit :=
  o ← mget;
  ASSERT (zlen data <=? input_mtu o);;
  ASSERT (bool_decide (in_ o = None));;
  (* remember input packet *)
  mput (mk (input_mtu o) (Some data) (output o));;
  (* schedule send *)
  when (output o) (emit (OutputSend data)).

Definition output_handler_done `{Build} : M t event unit :=
  o ← mget;
  ASSERT (bool_decide (is_Some (in_ o)));;
  ASSERT (output o);;
  (* have no input packet *)
  mput (mk (input_mtu o) None (output o));;
  (* allow input to send more packets *)
  emit InputDone.

Definition PacketPassConnector_Init (mtu : Z) : t := mk mtu None false.

Definition PacketPassConnector_ConnectOutput `{Build} (output_mtu : Z) : M t event unit :=
  o ← mget;
  ASSERT (negb (output o));;
  ASSERT (input_mtu o <=? output_mtu);;
  (* set and init output *)
  mput (mk (input_mtu o) (in_ o) true);;
  emit OutputInit;;
  (* if we have an input packet, schedule send *)
  match in_ o with
  | Some data => emit (OutputSend data)
  | None => mret tt
  end.

Definition PacketPassConnector_DisconnectOutput `{Build} : M t event unit :=
  o ← mget;
  ASSERT (output o);;
  (* set no output *)
  mput (mk (input_mtu o) (in_ o) false).

(** The connector with its source and outputs.  [busy]: a send to the current
    output is in progress; [given] and [finished]: packets the source sent, and
    packets an output reported done. *)
Record sys := mksys { obj : t; busy : option (list Z); given : list (list Z); finished : list (list Z) }.

Inductive action := ASend (p : list Z) | AConnect (mtu : Z) | ADisconnect | ADone.

Definition allowed (s : sys) (a : action) : bool :=
  match a with
  | ASend p => bool_decide (in_ (obj s) = None) && (zlen p <=? input_mtu (obj s))
  | AConnect m => negb (output (obj s)) && (input_mtu (obj s) <=? m)
  | ADisconnect => output (obj s)
  | ADone => bool_decide (is_Some (busy s))
  end.

Definition handler `{Build} (a : action) : M t event unit :=
  match a with
  | ASend p => input_handler_send p
  | AConnect m => PacketPassConnector_ConnectOutput m
  | ADisconnect => PacketPassConnector_DisconnectOutput
  | ADone => output_handler_done
  end.

Definition act `{Build} (s : sys) (a : action) : option sys :=
  '(_, o, es) ← handler a (obj s);
  (* a new output, or none, ends the operation of the old one; so does done *)
  let busy0 := match a with ASend _ => busy s | _ => None end in
  let sends := omap (λ e, match e with OutputSend d => Some d | _ => None end) es in
  busy1 ← match busy0, sends with
          | b, [] => Some b
          | None, [d] => Some (Some d)
          | _, _ => None
          end;
  Some (mksys o busy1
          (match a with ASend p => given s ++ [p] | _ => given s end)
          (match a, busy s with ADone, Some d => finished s ++ [d] | _, _ => finished s end)).

(** A sequence of actions, each allowed by the contract of the interfaces. *)
Fixpoint run_acts `{Build} (s : sys) (acts : list action) : option sys :=
  match acts with
  | [] => Some s
  | a :: acts => if allowed s a then s' ← act s a; run_acts s' acts else None
  end.

Definition start (mtu : Z) : sys := mksys (PacketPassConnector_Init mtu) None [] [].

End PacketPassConnector.

(** ** flow/BufferWriter.c *)

Module BufferWriter.

(** [out]: the memory the consumer waits on, when [out_have]. *)
Record t := mk { mtu : Z; out : option (list Z); d_writing : bool }.

Inductive event := OutputDone (packet : list Z).

Definition output_handler_recv `{Build} (data : list Z) : M t event unit :=
  o ← mget;
  ASSERT (bool_decide (out o = None));;
  mput (mk (mtu o) (Some data) (d_writing o)).

Definition BufferWriter_Init (mtu : Z) : t := mk mtu None false.

(** [None]: no output packet, the caller drops its packet. *)
Definition BufferWriter_StartPacket `{Build} : M t event (option (list Z)) :=
  o ← mget;
  ASSERT (negb (d_writing o));;
  match out o with
  | None => mret None
  | Some data => mput (mk (mtu o) (out o) true);; mret (Some data)
  end.

(** [data]: the memory as the caller has written it. *)
Definition BufferWriter_EndPacket `{Build} (data : list Z) (len : Z) : M t event unit :=
  o ← mget;
  ASSERT (0 <=? len);;
  ASSERT (len <=? mtu o);;
  ASSERT (bool_decide (is_Some (out o)));;
  ASSERT (d_writing o);;
  (* set no output packet, finish packet *)
  mput (mk (mtu o) None false);;
  emit (OutputDone (ztake len data)).

(** A packet written best-effort: false when there was nowhere to write it. *)
Definition write_packet `{Build} (p : list Z) : M t event bool :=
  b ← BufferWriter_StartPacket;
  match b with
  | None => mret false
  | Some mem => BufferWriter_EndPacket (zwrite 0 p mem) (zlen p);; mret true
  end.

End BufferWriter.

Section packet_buffer.
Context `{Build}.
Import PacketBuffer.

(** What a packet buffer for [num] packets promises while it holds [ps]. *)
Record buffering (num : Z) (s : sys) (ps : list (list Z)) : Prop := {
    bf_holds : holds (buf (obj s)) ps;
    bf_mtu : 0 ≤ input_mtu (obj s);
    bf_cmtu : ChunkBuffer2.mtu (buf (obj s)) = bdivide_up (input_mtu (obj s)) 4;
    bf_size : ChunkBuffer2.size (buf (obj s)) = (1 + bdivide_up (input_mtu (obj s)) 4) * (num + 1);
    bf_small : Forall (λ p, zlen p ≤ input_mtu (obj s)) ps;
    bf_order : arrived s = left_ s ++ ps;
    bf_recv : recv s = if input_mtu (obj s) <=? ChunkBuffer2.input_avail (buf (obj s))
                       then ChunkBuffer2.input_dest (buf (obj s)) else None;
    bf_send : match ps with
              | [] => send s = None
              | p :: _ => ∃ d, ChunkBuffer2.output_dest (buf (obj s)) = Some d ∧
                               ChunkBuffer2.output_avail (buf (obj s)) = zlen p ∧
                               send s = Some (d, zlen p)
              end
  }.

Lemma output_holds b ps :
    holds b ps →
    match ps with
    | [] => ChunkBuffer2.output_avail b = -1
    | p :: _ => ∃ d, ChunkBuffer2.output_dest b = Some d ∧ ChunkBuffer2.output_avail b = zlen p ∧
                  ztake (zlen p) (zdrop d (ChunkBuffer2.buffer b)) = p
    end.
Proof.
    intros (ps1 & ps2 & Heq & Hl & [_ Ho]). destruct ps as [|p ps]; [tauto|]. destruct Ho as [Hd Ha].
    exists (4 * (ChunkBuffer2.start b + 1)). split_and!; try done. destruct ps1 as [|q ps1].
    - destruct (layout_pieces _ _ _ Hl eq_refl) as [-> _]. done.
    - injection Heq as -> _. destruct Hl as [_ _ _ _ _ _ [[_ [_ Hq]] _] _ _]. exact Hq.
Qed.

Lemma input_some b ps :
    holds b ps → 0 ≤ ChunkBuffer2.input_avail b → is_Some (ChunkBuffer2.input_dest b).
Proof.
    intros (ps1 & ps2 & -> & Hl & Hp). destruct (holds_input _ _ _ Hl Hp) as [-> ->].
    destruct (0 <? _); [eauto|lia].
Qed.

Lemma input_done_eq o len b' :
    0 ≤ len ≤ input_mtu o → ChunkBuffer2.SubmitPacket len (buf o) = Some b' →
    input_handler_done len o =
    Some (tt, mk b' (input_mtu o),
          (if input_mtu o <=? ChunkBuffer2.input_avail b'
           then [InputRecv (ChunkBuffer2.input_dest b')] else []) ++
          (if ChunkBuffer2.output_avail (buf o) <? 0
           then [OutputSend (ChunkBuffer2.output_dest b') (ChunkBuffer2.output_avail b')] else [])).
Proof.
    intros Hlen Hs. unfold input_handler_done, on_buf, when, mlift, ASSERT, mbind, M_bind, mget, mput, emit, mret, M_ret.
    rewrite (proj2 (Z.leb_le 0 len)), (proj2 (Z.leb_le len (input_mtu o))), !orb_true_r, Hs by lia. cbn [buf input_mtu app].
    destruct (input_mtu o <=? ChunkBuffer2.input_avail b'), (ChunkBuffer2.output_avail (buf o) <? 0); done.
Qed.

Lemma output_done_eq o b' :
    ChunkBuffer2.ConsumePacket (buf o) = Some b' →
    output_handler_done o =
    Some (tt, mk b' (input_mtu o),
          (if (ChunkBuffer2.input_avail (buf o) <? input_mtu o) && (input_mtu o <=? ChunkBuffer2.input_avail b')
           then [InputRecv (ChunkBuffer2.input_dest b')] else []) ++
          (if 0 <=? ChunkBuffer2.output_avail b'
           then [OutputSend (ChunkBuffer2.output_dest b') (ChunkBuffer2.output_avail b')] else [])).
Proof.
    intros Hs. unfold output_handler_done, on_buf, when, mlift, mbind, M_bind, mget, mput, emit, mret, M_ret.
    rewrite Hs. cbn [buf input_mtu app].
    destruct ((_ <? input_mtu o) && _), (0 <=? _); done.
Qed.

Lemma start_ops s (r : bool) rd (sd : bool) d l :
    (r = true → recv s = None ∧ is_Some rd) → (sd = true → send s = None ∧ is_Some d) →
    apply_events s ((if r then [InputRecv rd] else []) ++ (if sd then [OutputSend d l] else [])) =
    Some (mksys (obj s) (if r then rd else recv s) (if sd then (λ d, (d, l)) <$> d else send s)
            (arrived s) (left_ s)).
Proof.
    intros Hr Hs. destruct r, sd; cbn [app apply_events apply_event mbind option_bind].
    - destruct (Hr eq_refl) as [Hn [e ->]], (Hs eq_refl) as [Hn' [f ->]].
      cbn [mbind option_bind]. rewrite Hn, bool_decide_true by done. cbn [mbind option_bind send].
      by rewrite Hn', bool_decide_true by done.
    - destruct (Hr eq_refl) as [Hn [e ->]]. cbn [mbind option_bind]. by rewrite Hn.
    - destruct (Hs eq_refl) as [Hn' [f ->]]. cbn [mbind option_bind]. by rewrite Hn'.
    - by destruct s.
Qed.

Lemma send_ok num s ps : buffering num s ps → bool_decide (is_Some (send s)) = negb (bool_decide (ps = [])).
Proof. intros [_ _ _ _ _ _ _ Hs]. destruct ps; [by rewrite Hs|]. destruct Hs as (? & _ & _ & ->). done. Qed.

Lemma do_in_buffering num s ps p :
    buffering num s ps → is_Some (recv s) → zlen p ≤ input_mtu (obj s) →
    ∃ s', do_in p s = Some s' ∧ buffering num s' (ps ++ [p]) ∧ left_ s' = left_ s ∧ input_mtu (obj s') = input_mtu (obj s).
Proof.
    intros [Hh Hm Hcm Hsz Hsm Hord Hrecv Hsend] [d Hd] Hp.
    rewrite Hd in Hrecv. destruct (Z.leb_spec (input_mtu (obj s)) (ChunkBuffer2.input_avail (buf (obj s)))) as [Hav|]; [|done].
    destruct (put_holds (buf (obj s)) ps p Hh ltac:(lia)) as (b' & Hput & Hh' & Hsz' & Hmt' & Hst').
    unfold ChunkBuffer2.put in Hput. rewrite <- Hrecv in Hput. cbn [mbind option_bind] in Hput.
    unfold do_in. rewrite Hd. cbn [mbind option_bind].
    rewrite (input_done_eq (mk _ _) (zlen p) b'); [|cbn [input_mtu]; lia|exact Hput].
    cbn [mbind option_bind buf input_mtu ChunkBuffer2.set_buffer ChunkBuffer2.output_avail].
    pose proof (output_holds _ _ Hh) as Ho. pose proof (output_holds _ _ Hh') as Ho'.
    set (m := input_mtu (obj s)) in *.
    rewrite start_ops; cbn [recv send obj arrived left_].
    - eexists. split; [done|]. split; [|by split].
      split; cbn [obj buf input_mtu recv send arrived left_]; fold m; try done; try congruence.
      + apply Forall_app. by split; [|constructor].
      + by rewrite Hord, <- app_assoc.
      + destruct ps as [|q ps]; cbn [app] in *.
        * rewrite Ho. destruct Ho' as (d' & -> & -> & _). eexists. by cbn.
        * destruct Ho as (e & He & Hae & _), Hsend as (e' & He' & _ & Hs). rewrite Hae.
          rewrite (proj2 (Z.ltb_ge (zlen q) 0)) by lia.
          destruct Hst' as [Hod Hoa]; [done|]. rewrite Hod, Hoa. eauto.
    - intros Hle%Z.leb_le. split; [done|]. eapply input_some; [done|lia].
    - intros Hlt%Z.ltb_lt. destruct ps as [|q ps]; [|destruct Ho as (? & _ & ? & _); lia].
      split; [done|]. destruct Ho' as (d' & -> & _). eauto.
Qed.

Lemma do_out_buffering num s ps :
    buffering num s ps → is_Some (send s) →
    ∃ s' p ps', do_out s = Some s' ∧ ps = p :: ps' ∧ buffering num s' ps' ∧ left_ s' = left_ s ++ [p] ∧
      input_mtu (obj s') = input_mtu (obj s) ∧ arrived s' = arrived s ∧ (is_Some (recv s) → recv s' = recv s).
Proof.
    intros [Hh Hm Hcm Hsz Hsm Hord Hrecv Hsend] [[d l] Hd].
    destruct ps as [|p ps]; [congruence|]. destruct Hsend as (d' & Hod & Hoa & Hs). rewrite Hs in Hd.
    injection Hd as -> <-.
    destruct (consume_holds _ _ _ Hh) as (b' & Hc & Hh' & Hsz' & Hmt' & Hav & Hin).
    pose proof (output_holds _ _ Hh) as (d' & Hd' & _ & Hpk). rewrite Hod in Hd'. injection Hd' as <-.
    unfold do_out. rewrite Hs. cbn [mbind option_bind]. rewrite (output_done_eq _ b' Hc). cbn [mbind option_bind].
    pose proof (output_holds _ _ Hh') as Ho'. rewrite Hpk. set (m := input_mtu (obj s)) in *.
    rewrite start_ops; cbn [recv send obj arrived left_].
    - eexists _, p, ps. split; [done|]. split; [done|]. split; [|split_and!; try done; cbn [recv]].
      2: { rewrite Hrecv. destruct (Z.leb_spec m (ChunkBuffer2.input_avail (buf (obj s)))); [|by intros [? ?]].
        by rewrite (proj2 (Z.ltb_ge (ChunkBuffer2.input_avail (buf (obj s))) m)) by lia. }
      apply Forall_cons in Hsm as [_ Hsm].
      split; cbn [obj buf input_mtu recv send arrived left_]; fold m; try done; try congruence.
      + by rewrite Hord, <- app_assoc.
      + rewrite Hrecv. destruct (Z.ltb_spec (ChunkBuffer2.input_avail (buf (obj s))) m).
        * rewrite (proj2 (Z.leb_gt m (ChunkBuffer2.input_avail (buf (obj s))))) by lia. by destruct (m <=? _).
        * rewrite (proj2 (Z.leb_le m (ChunkBuffer2.input_avail (buf (obj s))))) by lia.
          rewrite (proj2 (Z.leb_le m (ChunkBuffer2.input_avail b'))) by lia. cbn [andb]. symmetry. apply Hin. eapply input_some; [done|lia].
      + destruct ps as [|q ps]; [by rewrite Ho'|]. destruct Ho' as (e & -> & -> & _).
        rewrite (proj2 (Z.leb_le 0 _)) by lia. eauto.
    - intros [Hf%Z.ltb_lt Hle%Z.leb_le]%andb_true_iff. rewrite Hrecv, (proj2 (Z.leb_gt m _)) by lia.
      split; [done|]. eapply input_some; [done|lia].
    - intros Hle%Z.leb_le. split; [done|]. destruct ps as [|q ps]; [by rewrite Ho' in Hle|]. destruct Ho' as (e & -> & _). eauto.
Qed.

Lemma step_buffering num s s' :
    PacketBuffer.step s s' → (∃ ps, buffering num s ps) → ∃ ps, buffering num s' ps.
Proof.
    intros Hst [ps Hb]. destruct Hst as [p s' Hp Hdo|s' Hdo].
    - assert (is_Some (recv s)) by (unfold do_in in Hdo; destruct (recv s); [eauto|done]).
      destruct (do_in_buffering num s ps p) as (? & ? & ? & _); naive_solver.
    - assert (is_Some (send s)) by (unfold do_out in Hdo; destruct (send s) as [[]|]; [eauto|done]).
      destruct (do_out_buffering num s ps) as (? & ? & ? & ? & ? & ? & _); naive_solver.
Qed.
End packet_buffer.

Section packet_buffer_init.
Context `{Build}.
Import PacketBuffer.

Lemma init_buffering num mtu omtu alloc i :
    (∀ n mem, alloc n = Some mem → zlen mem = n ∧ n ≤ INT_MAX) →
    0 ≤ mtu → 0 < num →
    PacketBuffer_Init mtu omtu num alloc = Some (Some i) →
    ∃ s, start_sys i = Some s ∧ buffering num s [] ∧ input_mtu (obj s) = mtu.
Proof.
    intros Hal Hm Hn Hi. unfold PacketBuffer_Init in Hi.
    destruct (assert (mtu <=? omtu)); [|done]. destruct (assert (0 <? num)); [|done].
    cbn [mbind option_bind] in Hi. pose proof (calc_blocks_spec mtu num Hm Hn) as Hc.
    pose proof (bdivide_up_spec mtu 4 Hm ltac:(lia)) as Hb.
    set (n := ChunkBuffer2.calc_blocks mtu num) in *. destruct (n <? 0); [done|].
    destruct (alloc (n * ChunkBuffer2.sizeof_block)) as [mem|] eqn:Ha; [|done].
    apply Hal in Ha as [Hz Hmax]. unfold ChunkBuffer2.sizeof_block in *.
    destruct (Init_holds mem n mtu Hm ltac:(nia) ltac:(lia) ltac:(lia)) as (b & HI & Hh & Hsz & Hmt & Hd & Hav).
    rewrite HI in Hi. injection Hi as <-. unfold start_sys. cbn [fst snd apply_events apply_event mbind option_bind].
    rewrite Hd. cbn [mbind option_bind recv]. rewrite bool_decide_true by done. eexists. split; [done|].
    split; [|done]. split; cbn [obj buf input_mtu recv send arrived left_]; try done; try lia.
    rewrite Hav, Hd, (proj2 (Z.leb_le mtu _)) by nia. done.
Qed.
End packet_buffer_init.

(** A packet buffer initialised for [num] packets is a queue between its
    source and its sink, whatever the order of their answers: the packets the
    sink has been given are the first of those the source delivered, unchanged
    and in order; a receive is in progress whenever fewer than [num] packets
    are held, and a send exactly when one is held; no answer finds the buffer
    in a state where an assertion fails or an operation is started twice. *)
Theorem packetbuffer_fifo `{Build} num mtu omtu alloc i s0 s :
  (∀ n mem, alloc n = Some mem → zlen mem = n ∧ n ≤ INT_MAX) →
  0 ≤ mtu → 0 < num →
  PacketBuffer.PacketBuffer_Init mtu omtu num alloc = Some (Some i) →
  PacketBuffer.start_sys i = Some s0 → rtc PacketBuffer.step s0 s →
  ∃ ps, PacketBuffer.arrived s = PacketBuffer.left_ s ++ ps ∧
    (zlen ps < num → is_Some (PacketBuffer.recv s)) ∧
    (ps ≠ [] ↔ is_Some (PacketBuffer.send s)) ∧
    (∀ p, is_Some (PacketBuffer.recv s) → zlen p ≤ PacketBuffer.input_mtu (PacketBuffer.obj s) →
       is_Some (PacketBuffer.do_in p s)) ∧
    (is_Some (PacketBuffer.send s) → is_Some (PacketBuffer.do_out s)).
Proof.
  intros Hal Hm Hn Hi Hs0 Hr.
  destruct (init_buffering num mtu omtu alloc i Hal Hm Hn Hi) as (s0' & Hs0' & Hb0 & _).
  rewrite Hs0 in Hs0'. injection Hs0' as <-.
  assert (Hb : ∃ ps, buffering num s ps).
  { assert (H0 : ∃ ps, buffering num s0 ps) by eauto. clear -Hr H0.
    induction Hr as [|x y z Hst _ IH]; [done|]. by apply IH, (step_buffering num x y). }
  destruct Hb as [ps Hb]. exists ps. split; [apply Hb|]. split_and!.
  - intros Hlt. destruct Hb as [Hh Hmt Hcm Hsz Hsm _ -> _].
    destruct (room _ _ _ num Hh Hmt Hcm Hsz Hsm Hlt) as [Hav ?].
    by rewrite (proj2 (Z.leb_le _ _) Hav).
  - destruct Hb as [_ _ _ _ _ _ _ Hsd]. destruct ps.
    + rewrite Hsd. split; [done|by intros [? ?]].
    + destruct Hsd as (? & _ & _ & ->). split; eauto.
  - intros p Hrc Hp. destruct (do_in_buffering num s ps p Hb Hrc Hp) as (? & -> & _). eauto.
  - intros Hsd. destruct (do_out_buffering num s ps Hb Hsd) as (? & ? & ? & -> & _). eauto.
Qed.

Lemma packetbuffer_fifo_witness :
  let H : Build := false in
  ∃ i s0, PacketBuffer.PacketBuffer_Init 5 5 1 (λ n, if (0 <=? n) && (n <=? INT_MAX) then Some (replicate (Z.to_nat n) 0) else None) = Some (Some i) ∧
    PacketBuffer.start_sys i = Some s0 ∧ is_Some (PacketBuffer.do_in [1; 2; 3] s0).
Proof.
  intros H.
  set (alloc := λ n, if (0 <=? n) && (n <=? INT_MAX) then Some (replicate (Z.to_nat n) 0) else None).
  assert (Hal : ∀ n mem, alloc n = Some mem → zlen mem = n ∧ n ≤ INT_MAX).
  { intros n mem. unfold alloc. destruct (Z.leb_spec 0 n), (Z.leb_spec n INT_MAX); intros [= <-].
    rewrite length_replicate. lia. }
  set (b := ChunkBuffer2.mk (replicate 24 0) 6 6 0 0 2 (Some 4) 20 None (-1)).
  set (s0 := PacketBuffer.mksys (PacketBuffer.mk b 5) (Some 4) None [] []).
  exists (PacketBuffer.mk b 5, [PacketBuffer.InputRecv (Some 4)]), s0.
  split; [reflexivity|]. split; [reflexivity|].
  destruct (packetbuffer_fifo 1 5 5 alloc (PacketBuffer.mk b 5, [PacketBuffer.InputRecv (Some 4)]) s0 s0)
    as (ps & Hps & Hrecv & Hsend & Hin & _); [done..|].
  apply Hin; [eexists; reflexivity|done].
Defined.

(** ** The other flow components *)

Section stream_sender.
Context `{Build}.
Import PacketStreamSender.

Lemma send_data_eq s :
    0 ≤ in_len s →
    send_data s = if in_used s <? in_len s
                  then Some (tt, s, [OutputSend (ztake (in_len s - in_used s) (zdrop (in_used s) (in_ s)))])
                  else Some (tt, mk (-1) (in_ s) (in_used s), [InputDone]).
Proof.
    intros Hl. unfold send_data, ASSERT, mbind, M_bind, mget, mput, emit.
    rewrite (proj2 (Z.leb_le 0 _)), orb_true_r by lia. by destruct (in_used s <? in_len s).
Qed.

Lemma sender_done_eq p u n :
    0 < n ≤ zlen p - u →
    output_handler_done n (mk (zlen p) p u) = send_data (mk (zlen p) p (u + n)).
Proof.
    intros Hn. unfold output_handler_done, ASSERT, mget, mput, mbind, M_bind. cbn [in_len in_used in_].
    rewrite (proj2 (Z.leb_le 0 (zlen p))), (proj2 (Z.ltb_lt 0 n)), (proj2 (Z.leb_le n _)), !orb_true_r by lia.
    by destruct (send_data _) as [[[? ?] ?]|].
Qed.

Lemma drive_all sizes p u :
    0 ≤ u ≤ zlen p → zlen p - u ≤ zlen sizes →
    ∃ s' es s'', send_data (mk (zlen p) p u) = Some (tt, s', es) ∧
      drive sizes s' es = Some (s'', zdrop u p, true) ∧ in_len s'' = -1.
Proof.
    revert u. induction sizes as [|k sizes IH]; intros u Hu Hz; rewrite send_data_eq by (cbn; lia);
      cbn [in_len in_used in_]; (destruct (Z.ltb_spec u (zlen p)) as [Hlt|Hge];
      [|eexists _, _, (mk (-1) p u); split; [done|]; cbn [drive]; split; [|done];
        replace (zdrop u p) with (@nil Z); [done|]; symmetry; apply drop_ge; lia]).
    - cbn in Hz. lia.
    - rewrite ztake_all by (rewrite zlen_zdrop; lia). set (n := Z.min (Z.of_nat (S k)) (zlen p - u)).
      assert (Hn : 0 < n ≤ zlen p - u) by (unfold n; lia).
      destruct (IH (u + n)) as (s1 & es1 & s2 & Hs1 & Hd & Hi); [lia|cbn [length] in Hz; lia|].
      exists (mk (zlen p) p u), [OutputSend (zdrop u p)], s2. split; [done|]. split; [|done].
      cbn [drive]. rewrite zlen_zdrop by lia. fold n. rewrite sender_done_eq, Hs1 by done.
      cbn [mbind option_bind]. rewrite Hd. cbn [mbind option_bind]. do 3 f_equal.
      rewrite <- zdrop_zdrop by lia. apply ztake_zdrop.
Qed.
End stream_sender.

(** The stream sender writes every packet it is given into the stream,
    whole, whatever sizes the stream accepts at a time, then reports it done
    and is ready for the next; none of its assertions fails. *)
Theorem stream_sender_sends_all `{Build} sizes p s :
  PacketStreamSender.in_len s = -1 → zlen p ≤ zlen sizes →
  ∃ s', PacketStreamSender.send_packet sizes p s = Some (s', p, true) ∧
        PacketStreamSender.in_len s' = -1.
Proof.
  intros Hs Hz. destruct (drive_all sizes p 0) as (s1 & es & s2 & Hs1 & Hd & Hi); [lia|lia|].
  exists s2. split; [|done]. unfold PacketStreamSender.send_packet.
  assert (Hi1 : PacketStreamSender.input_handler_send p s = Some (tt, s1, es)).
  { unfold PacketStreamSender.input_handler_send, ASSERT, mget, mput, mbind, M_bind.
    by rewrite Hs, Z.eqb_refl, orb_true_r, Hs1. }
  rewrite Hi1. exact Hd.
Qed.

Lemma stream_sender_sends_all_witness :
  let H : Build := false in
  ∃ s', PacketStreamSender.send_packet [0; 5; 0]%nat [4; 5; 6] PacketStreamSender.PacketStreamSender_Init =
        Some (s', [4; 5; 6], true) ∧ PacketStreamSender.in_len s' = -1.
Proof. intros H. by apply stream_sender_sends_all. Defined.

Section connector.
Context `{Build}.
Import PacketPassConnector.

Record connected (s : sys) : Prop := {
    cn_busy : busy s = if output (obj s) then in_ (obj s) else None;
    cn_order : given s = finished s ++ match in_ (obj s) with Some p => [p] | None => [] end
  }.

Lemma act_connected s a :
    connected s → allowed s a = true → ∃ s', act s a = Some s' ∧ connected s'.
Proof.
    intros [Hb Ho] Ha. destruct s as [[m i o] b g f]. cbn [obj output in_ busy given finished] in *. subst b g.
    destruct a as [p|m'| |]; cbn [allowed obj in_ output input_mtu busy] in Ha.
    - apply andb_true_iff in Ha as [->%bool_decide_eq_true Hp].
      unfold act, handler, input_handler_send, ASSERT, when, mget, mput, emit, mret, M_ret, mbind, M_bind.
      cbn [obj input_mtu in_ output]. rewrite Hp, bool_decide_true, !orb_true_r by done.
      destruct o; (eexists; split; [done|]; split; [done|]; by rewrite app_nil_r).
    - apply andb_true_iff in Ha as [Hn Hm]. destruct o; [done|].
      unfold act, handler, PacketPassConnector_ConnectOutput, ASSERT, mget, mput, emit, mret, M_ret, mbind, M_bind.
      cbn [obj input_mtu in_ output negb]. rewrite Hm, !orb_true_r.
      destruct i; (eexists; split; [done|]; split; done).
    - subst o. unfold act, handler, PacketPassConnector_DisconnectOutput, ASSERT, mget, mput, mbind, M_bind.
      cbn [obj output]. rewrite orb_true_r. eexists. split; [done|]. by split.
    - apply bool_decide_eq_true in Ha as [p Hp]. destruct o; [|done]. subst i.
      unfold act, handler, output_handler_done, ASSERT, mget, mput, emit, mbind, M_bind.
      cbn [obj in_ output]. rewrite bool_decide_true, !orb_true_r by eauto.
      eexists. split; [done|]. split; [done|]. cbn. by rewrite app_nil_r.
Qed.
End connector.

(** A connector loses no packet and duplicates none while its output is
    connected, disconnected and replaced: in every state it reaches, the
    packets given to it are those its outputs reported done, in order, and at
    most the one it holds, which is being sent whenever an output is connected;
    and every action its users may take runs without a failed assertion. *)
Theorem connector_keeps_packets `{Build} mtu s acts :
  PacketPassConnector.run_acts (PacketPassConnector.start mtu) acts = Some s →
  PacketPassConnector.given s = PacketPassConnector.finished s ++
    match PacketPassConnector.in_ (PacketPassConnector.obj s) with Some p => [p] | None => [] end ∧
  (PacketPassConnector.output (PacketPassConnector.obj s) = true →
     PacketPassConnector.busy s = PacketPassConnector.in_ (PacketPassConnector.obj s)) ∧
  ∀ a, PacketPassConnector.allowed s a = true → is_Some (PacketPassConnector.act s a).
Proof.
  assert (H0 : connected (PacketPassConnector.start mtu)) by done.
  revert H0. generalize (PacketPassConnector.start mtu).
  induction acts as [|a acts IH]; intros s0 H0; cbn [PacketPassConnector.run_acts].
  - intros [= ->]. split_and!; [apply H0| |].
    + intros Ho. destruct H0 as [Hb _]. by rewrite Ho in Hb.
    + intros a Ha. destruct (act_connected s a H0 Ha) as (? & -> & _). eauto.
  - destruct (PacketPassConnector.allowed s0 a) eqn:Ha; [|done].
    destruct (act_connected s0 a H0 Ha) as (s1 & -> & H1). by apply (IH s1).
Qed.

Lemma connector_keeps_packets_witness :
  let H : Build := false in
  let s := PacketPassConnector.mksys (PacketPassConnector.mk 5 (Some [1; 2]) true) (Some [1; 2]) [[1; 2]] [] in
  PacketPassConnector.given s = [] ++ [[1; 2]] ∧
  is_Some (PacketPassConnector.act s PacketPassConnector.ADone).
Proof.
  intros H s.
  destruct (connector_keeps_packets 5 s
    [PacketPassConnector.AConnect 9; PacketPassConnector.ASend [1; 2];
     PacketPassConnector.ADisconnect; PacketPassConnector.AConnect 7]) as (Hg & _ & Ha).
  - reflexivity.
  - split; [exact Hg|]. by apply Ha.
Defined.

(** ** The packet passing protocol *)

Section interface.
Context `{Build}.
Import PacketPassInterface.

(** What may happen to an interface: calls of its user and its provider, and
      the jobs that are set. *)
Inductive ppi_step (i : t) : t → list event → Prop :=
  | ppi_send data i' : state i = NONE → zlen data ≤ mtu i →
      Sender_Send data i = Some i' → ppi_step i i' []
  | ppi_cancel i' : state i ≠ NONE → Sender_RequestCancel i = Some i' → ppi_step i i' []
  | ppi_done i' : state i = BUSY → Done i = Some i' → ppi_step i i' []
  | ppi_job_operation i' e : job_operation i = true →
      job_operation_run i = Some (i', e) → ppi_step i i' [e]
  | ppi_job_requestcancel i' e : job_requestcancel i = true →
      job_requestcancel_run i = Some (i', e) → ppi_step i i' [e]
  | ppi_job_done i' e : job_done i = true →
      job_done_run i = Some (i', e) → ppi_step i i' [e].

(** The jobs agree with the state. *)
Record ppi_inv (i : t) : Prop := {
    pi_user : have_user i = true;
    pi_cancel : can_cancel i = true;
    pi_op : job_operation i = bool_decide (state i = OPERATION_PENDING);
    pi_done : job_done i = bool_decide (state i = DONE_PENDING);
    pi_rc : job_requestcancel i = true → state i = BUSY ∧ cancel_requested i = true
  }.

Lemma ppi_inv_step i i' es : ppi_inv i → ppi_step i i' es → ppi_inv i'.
Proof.
    intros [Hu Hc Ho Hd Hr] Hs. destruct i as [m cc hu jo jd jr jdn st cr]; cbn in *. subst.
    destruct Hs; cbn in *; unfold Sender_Send, Sender_RequestCancel, Done, job_operation_run,
      job_requestcancel_run, job_done_run, assert in *; cbn in *;
      destruct st, cr, NDEBUG; try done; simplify_eq/=; repeat case_match; simplify_eq/=;
      split; cbn; try done; try naive_solver.
Qed.

Lemma ppi_jobs_run i :
    ppi_inv i →
    (job_operation i = true → is_Some (job_operation_run i)) ∧
    (job_requestcancel i = true → is_Some (job_requestcancel_run i)) ∧
    (job_done i = true → is_Some (job_done_run i)).
Proof.
    intros [Hu Hc Ho Hd Hr]. unfold job_operation_run, job_requestcancel_run, job_done_run, assert.
    split_and!; intros Hj.
    - rewrite Hj in Ho. rewrite <- Ho, orb_true_r. cbn. eauto.
    - destruct (Hr Hj) as [-> ->]. rewrite Hc, bool_decide_true, !orb_true_r by done. cbn. eauto.
    - rewrite Hj in Hd. rewrite <- Hd, orb_true_r. cbn. eauto.
Qed.
End interface.

(** The reachable states of an interface, with the events so far. *)
Inductive ppi_reach `{Build} (i0 : PacketPassInterface.t) :
    PacketPassInterface.t → list PacketPassInterface.event → Prop :=
| ppi_refl : ppi_reach i0 i0 []
| ppi_next i es i' es' : ppi_reach i0 i es → ppi_step i i' es' → ppi_reach i0 i' (es ++ es').

(** In every state of a packet passing interface with cancellation that its
    user and its provider can reach by calls the contract allows, the pending
    jobs agree with the state, so that running any of them passes its
    assertions, and the operation and done jobs are never both pending: an
    operation cancelled before it was started is not started later. *)
Theorem ppi_protocol `{Build} mtu i0 i1 i es :
  PacketPassInterface.EnableCancel (PacketPassInterface.Init mtu) = Some i0 →
  PacketPassInterface.Sender_Init i0 = Some i1 →
  ppi_reach i1 i es →
  ppi_inv i ∧
  (PacketPassInterface.job_operation i = true → is_Some (PacketPassInterface.job_operation_run i)) ∧
  (PacketPassInterface.job_requestcancel i = true → is_Some (PacketPassInterface.job_requestcancel_run i)) ∧
  (PacketPassInterface.job_done i = true → is_Some (PacketPassInterface.job_done_run i)) ∧
  (PacketPassInterface.job_operation i && PacketPassInterface.job_done i = false).
Proof.
  intros H0 H1 Hr. assert (Hi : ppi_inv i).
  { induction Hr as [|i es i' es' _ IH Hs]; [|by apply (ppi_inv_step i i' es')].
    unfold PacketPassInterface.EnableCancel, PacketPassInterface.Sender_Init, assert in *.
    cbn in H0. rewrite orb_true_r in H0. injection H0 as <-.
    cbn in H1. rewrite orb_true_r in H1. injection H1 as <-. by split. }
  destruct (ppi_jobs_run i Hi) as (? & ? & ?). split_and!; try done.
  destruct Hi as [_ _ -> -> _]. by destruct (PacketPassInterface.state i).
Qed.

Lemma ppi_protocol_witness :
  let H : Build := false in
  let i := PacketPassInterface.mk 3 true true true [7] false false PacketPassInterface.OPERATION_PENDING false in
  ppi_inv i ∧ is_Some (PacketPassInterface.job_operation_run i).
Proof.
  intros H i.
  destruct (ppi_protocol 3 (PacketPassInterface.mk 3 true false false [] false false PacketPassInterface.NONE false)
     (PacketPassInterface.mk 3 true true false [] false false PacketPassInterface.NONE false) i []) as (Hi & Ho & _).
  - reflexivity.
  - reflexivity.
  - eapply (ppi_next _ _ [] _ []); [apply ppi_refl|]. by apply (ppi_send _ [7]).
  - split; [exact Hi|]. by apply Ho.
Defined.
