(* ===== verification/Channel.v ===== *)
(** * Channel: the way of a packet to the stream

    flow/PacketRecvInterface.[ch], flow/PacketProtoFlow.c and
    flowextra/PacketPassInactivityMonitor.c.  A PacketProtoFlow is a
    BufferWriter, a PacketProtoEncoder and a PacketBuffer, each receiving from
    the one before it over a PacketRecvInterface; here the three models of
    PacketProto and Flow are composed, with the jobs of the interfaces between
    them run one at a time, in any order.

    Memory goes with the operation that lends it: the packet buffer lends the
    place of the next packet to the encoder, the encoder lends what lies behind
    the header to the writer, and done gives it back with what was written. *)
From S2P Require Import Prelude Bytes Reactor PacketProto ChunkBuffer Flow.

(** ** flow/PacketRecvInterface.[ch] *)

Module PacketRecvInterface.
Import PacketPassInterface (state_t(..)).

(** [job_done_data]: what the provider wrote, [job_done_len] bytes. *)
Record t := mk {
  mtu : Z;
  have_user : bool;            (** handler_done is not NULL *)
  job_operation : bool;
  job_operation_data : list Z;
  job_done : bool;
  job_done_data : list Z;
  state : state_t
}.

Definition Init `{Build} (mtu : Z) : option t :=
  assert (0 <=? mtu);;
  Some (mk mtu false false [] false [] NONE).

Definition Done `{Build} (data : list Z) (i : t) : option t :=
  assert (zlen data <=? mtu i);;
  assert (bool_decide (state i = BUSY));;
  Some (mk (mtu i) (have_user i) (job_operation i) (job_operation_data i) true data DONE_PENDING).

Definition Receiver_Init `{Build} (i : t) : option t :=
  assert (negb (have_user i));;
  Some (mk (mtu i) true (job_operation i) (job_operation_data i) (job_done i) (job_done_data i) (state i)).

Definition Receiver_Recv `{Build} (data : list Z) (i : t) : option t :=
  assert (bool_decide (state i = NONE));;
  assert (have_user i);;
  Some (mk (mtu i) (have_user i) true data (job_done i) (job_done_data i) OPERATION_PENDING).

(** The jobs: the interface, and the data its handler is called with. *)
Definition job_operation_run `{Build} (i : t) : option (t * list Z) :=
  assert (bool_decide (state i = OPERATION_PENDING));;
  Some (mk (mtu i) (have_user i) false (job_operation_data i) (job_done i) (job_done_data i) BUSY,
        job_operation_data i).

Definition job_done_run `{Build} (i : t) : option (t * list Z) :=
  assert (bool_decide (state i = DONE_PENDING));;
  Some (mk (mtu i) (have_user i) (job_operation i) (job_operation_data i) false (job_done_data i) NONE,
        job_done_data i).
End PacketRecvInterface.

(** ** flow/PacketProtoFlow.c *)

Module PacketProtoFlow.
Import PacketPassInterface (state_t(..)).
Section flow.
Context `{Build}.

(** [writer_if] is the output of the writer, [encoder_if] that of the encoder.
    [accepted]: the packets written so far. *)
Record t := mk {
  ainput : BufferWriter.t;
  writer_if : PacketRecvInterface.t;
  encoder : Encoder.t;
  encoder_if : PacketRecvInterface.t;
  buffer : PacketBuffer.sys;
  accepted : list (list Z)
}.

(** The buffer has started a receive, unless one was in progress: the memory it
    lends. *)
Definition lend (had : bool) (b : PacketBuffer.sys) (i : PacketRecvInterface.t) : option PacketRecvInterface.t :=
  match PacketBuffer.recv b with
  | Some d =>
      if had then Some i
      else PacketRecvInterface.Receiver_Recv
             (ztake (PacketBuffer.input_mtu (PacketBuffer.obj b))
                (zdrop d (ChunkBuffer2.buffer (PacketBuffer.buf (PacketBuffer.obj b))))) i
  | None => Some i
  end.

(** [None] inside: an allocation failed. *)
Definition PacketProtoFlow_Init (input_mtu output_mtu num_packets : Z) (alloc : Z → option (list Z)) : option (option t) :=
  assert (0 <=? input_mtu);;
  assert (input_mtu <=? PACKETPROTO_MAXPAYLOAD);;
  assert (0 <? num_packets);;
  assert (PACKETPROTO_ENCLEN input_mtu <=? output_mtu);;
  (* init async input *)
  let ainput := BufferWriter.BufferWriter_Init input_mtu in
  wi ← PacketRecvInterface.Init input_mtu;
  (* init encoder *)
  let encoder := Encoder.PacketProtoEncoder_Init in
  wi ← PacketRecvInterface.Receiver_Init wi;
  ei ← PacketRecvInterface.Init (PACKETPROTO_ENCLEN input_mtu);
  (* init buffer *)
  r ← PacketBuffer.PacketBuffer_Init (PACKETPROTO_ENCLEN input_mtu) output_mtu num_packets alloc;
  match r with
  | None => Some None
  | Some b =>
      ei ← PacketRecvInterface.Receiver_Init ei;
      b ← PacketBuffer.start_sys b;
      ei ← lend false b ei;
      Some (Some (mk ainput wi encoder ei b []))
  end.

Inductive action :=
| AWrite (p : list Z)               (** the user writes a packet *)
| AWriterRecv | AWriterDone         (** the jobs of the writer's output *)
| AEncoderRecv | AEncoderDone       (** the jobs of the encoder's output *)
| AOut.                             (** the output is done with a packet *)

(** The user takes the memory, if there is any, writes [p] and ends the packet.
    The memory lies in the packet of the encoder. *)
Definition write (p : list Z) (s : t) : option t :=
  '(ok, w, es) ← BufferWriter.write_packet p (ainput s);
  match es with
  | [] => Some (mk w (writer_if s) (encoder s) (encoder_if s) (buffer s) (accepted s))
  | [BufferWriter.OutputDone q] =>
      wi ← PacketRecvInterface.Done q (writer_if s);
      let e := Encoder.mk (zwrite sizeof_packetproto_header q <$> Encoder.output_packet (encoder s)) in
      Some (mk w wi e (encoder_if s) (buffer s) (accepted s ++ [p]))
  | _ => None
  end.

Definition act (s : t) (a : action) : option t :=
  match a with
  | AWrite p => write p s
  | AWriterRecv =>
      '(wi, data) ← PacketRecvInterface.job_operation_run (writer_if s);
      '(_, w, _) ← BufferWriter.output_handler_recv data (ainput s);
      Some (mk w wi (encoder s) (encoder_if s) (buffer s) (accepted s))
  | AWriterDone =>
      '(wi, data) ← PacketRecvInterface.job_done_run (writer_if s);
      '(_, e, es) ← Encoder.input_handler_done (zlen data) (encoder s);
      match es with
      | [Encoder.OutputDone packet len] =>
          ei ← PacketRecvInterface.Done (ztake len packet) (encoder_if s);
          Some (mk (ainput s) wi e ei (buffer s) (accepted s))
      | _ => None
      end
  | AEncoderRecv =>
      '(ei, data) ← PacketRecvInterface.job_operation_run (encoder_if s);
      '(_, e, es) ← Encoder.output_handler_recv data (encoder s);
      match es with
      | [Encoder.InputRecv] =>
          wi ← PacketRecvInterface.Receiver_Recv (zdrop sizeof_packetproto_header data) (writer_if s);
          Some (mk (ainput s) wi e ei (buffer s) (accepted s))
      | _ => None
      end
  | AEncoderDone =>
      '(ei, data) ← PacketRecvInterface.job_done_run (encoder_if s);
      b ← PacketBuffer.do_in data (buffer s);
      ei ← lend false b ei;
      Some (mk (ainput s) (writer_if s) (encoder s) ei b (accepted s))
  | AOut =>
      b ← PacketBuffer.do_out (buffer s);
      ei ← lend (bool_decide (is_Some (PacketBuffer.recv (buffer s)))) b (encoder_if s);
      Some (mk (ainput s) (writer_if s) (encoder s) ei b (accepted s))
  end.

(** Which actions can come: packets within the limit, jobs that are set, and
    the answer to a send in progress. *)
Definition allowed (s : t) (a : action) : bool :=
  match a with
  | AWrite p => zlen p <=? BufferWriter.mtu (ainput s)
  | AWriterRecv => PacketRecvInterface.job_operation (writer_if s)
  | AWriterDone => PacketRecvInterface.job_done (writer_if s)
  | AEncoderRecv => PacketRecvInterface.job_operation (encoder_if s)
  | AEncoderDone => PacketRecvInterface.job_done (encoder_if s)
  | AOut => bool_decide (is_Some (PacketBuffer.send (buffer s)))
  end.

Definition has_job (s : t) : bool :=
  PacketRecvInterface.job_operation (writer_if s) || PacketRecvInterface.job_done (writer_if s) ||
  PacketRecvInterface.job_operation (encoder_if s) || PacketRecvInterface.job_done (encoder_if s).

Fixpoint run_actions (s : t) (l : list action) : option t :=
  match l with
  | [] => Some s
  | a :: l => s' ← act s a; run_actions s' l
  end.

Inductive reach (s0 : t) : t → Prop :=
| reach_start : reach s0 s0
| reach_act s a s' : reach s0 s → allowed s a = true → act s a = Some s' → reach s0 s'.

(** ** The invariant *)

Definition idle_memory (s : t) : Prop := Encoder.output_packet (encoder s) = None ∧ BufferWriter.out (ainput s) = None.

Definition if_ok (i : PacketRecvInterface.t) : Prop :=
  PacketRecvInterface.have_user i = true ∧
  PacketRecvInterface.job_operation i = bool_decide (PacketRecvInterface.state i = OPERATION_PENDING) ∧
  PacketRecvInterface.job_done i = bool_decide (PacketRecvInterface.state i = DONE_PENDING).

(** Where the place for the next packet is, with the packet [fl] that was
    written but is not in the buffer yet. *)
Definition slot (mtu : Z) (s : t) (fl : list (list Z)) : Prop :=
  match PacketRecvInterface.state (encoder_if s) with
  | NONE =>
      PacketBuffer.recv (buffer s) = None ∧ PacketRecvInterface.state (writer_if s) = NONE ∧ idle_memory s ∧ fl = []
  | OPERATION_PENDING =>
      is_Some (PacketBuffer.recv (buffer s)) ∧ PacketRecvInterface.state (writer_if s) = NONE ∧ idle_memory s ∧ fl = [] ∧
      zlen (PacketRecvInterface.job_operation_data (encoder_if s)) = 2 + mtu
  | BUSY =>
      is_Some (PacketBuffer.recv (buffer s)) ∧
      match PacketRecvInterface.state (writer_if s) with
      | NONE => False
      | OPERATION_PENDING => fl = [] ∧ BufferWriter.out (ainput s) = None ∧
          ∃ mem, Encoder.output_packet (encoder s) = Some mem ∧ zlen mem = 2 + mtu
      | BUSY => fl = [] ∧ is_Some (BufferWriter.out (ainput s)) ∧
          ∃ mem, Encoder.output_packet (encoder s) = Some mem ∧ zlen mem = 2 + mtu
      | DONE_PENDING => BufferWriter.out (ainput s) = None ∧
          ∃ p mem, fl = [p] ∧ zlen p ≤ mtu ∧ PacketRecvInterface.job_done_data (writer_if s) = p ∧
            Encoder.output_packet (encoder s) = Some (zwrite 2 p mem) ∧ zlen mem = 2 + mtu
      end
  | DONE_PENDING =>
      is_Some (PacketBuffer.recv (buffer s)) ∧ PacketRecvInterface.state (writer_if s) = NONE ∧ idle_memory s ∧
      ∃ p, fl = [p] ∧ zlen p ≤ mtu ∧ PacketRecvInterface.job_done_data (encoder_if s) = frame p
  end.

Record inv (num mtu : Z) (s : t) (ps fl : list (list Z)) : Prop := {
  fi_mtu : 0 ≤ mtu ≤ PACKETPROTO_MAXPAYLOAD;
  fi_buffering : buffering num (buffer s) ps;
  fi_input_mtu : PacketBuffer.input_mtu (PacketBuffer.obj (buffer s)) = 2 + mtu;
  fi_writer : BufferWriter.mtu (ainput s) = mtu ∧ BufferWriter.d_writing (ainput s) = false;
  fi_writer_if : if_ok (writer_if s) ∧ PacketRecvInterface.mtu (writer_if s) = mtu;
  fi_encoder_if : if_ok (encoder_if s) ∧ PacketRecvInterface.mtu (encoder_if s) = 2 + mtu;
  fi_accepted : map frame (accepted s) = PacketBuffer.arrived (buffer s) ++ map frame fl;
  fi_small : Forall (λ p, zlen p ≤ mtu) (accepted s);
  fi_slot : slot mtu s fl
}.

(** The place the buffer lends is in its memory. *)
Lemma lent_length num b ps d :
  buffering num b ps → PacketBuffer.recv b = Some d →
  zlen (ztake (PacketBuffer.input_mtu (PacketBuffer.obj b))
          (zdrop d (ChunkBuffer2.buffer (PacketBuffer.buf (PacketBuffer.obj b))))) =
  PacketBuffer.input_mtu (PacketBuffer.obj b).
Proof.
  intros [(ps1 & ps2 & -> & Hl & Hp) Hm _ _ _ _ Hr _] Hd. rewrite Hd in Hr.
  destruct (Z.leb_spec (PacketBuffer.input_mtu (PacketBuffer.obj b))
    (ChunkBuffer2.input_avail (PacketBuffer.buf (PacketBuffer.obj b)))) as [Hav|]; [|done].
  destruct (holds_input _ _ _ Hl Hp) as [Hdst Hsz]. rewrite Hdst in Hr. rewrite Hsz in Hav.
  pose proof (blocks_nonneg ps1). pose proof (blocks_nonneg ps2).
  destruct (0 <? ChunkBuffer2.free_blocks (PacketBuffer.buf (PacketBuffer.obj b))); [|done]. injection Hr as ->.
  pose proof (lay_mem _ _ _ Hl). pose proof (lay_start _ _ _ Hl). pose proof (lay_wrap _ _ _ Hl). pose proof (lay_mtu _ _ _ Hl).
  apply zlen_ztake. destruct (end_layout _ _ _ Hl) as [?|?]; rewrite zlen_zdrop; lia.
Qed.

Lemma lend_starts num b ps i d :
  buffering num b ps → PacketBuffer.recv b = Some d → PacketRecvInterface.state i = NONE → if_ok i →
  ∃ i', lend false b i = Some i' ∧ if_ok i' ∧ PacketRecvInterface.mtu i' = PacketRecvInterface.mtu i ∧
    PacketRecvInterface.state i' = OPERATION_PENDING ∧
    zlen (PacketRecvInterface.job_operation_data i') = PacketBuffer.input_mtu (PacketBuffer.obj b).
Proof.
  intros Hb Hd Hs (Hu & Ho & Hdn). unfold lend. rewrite Hd. unfold PacketRecvInterface.Receiver_Recv.
  rewrite !assert_true by (try done; by rewrite bool_decide_true). cbn [mbind option_bind].
  eexists. split; [done|]. split_and!; cbn; try done; [by rewrite Hdn, Hs|]. by eapply lent_length.
Qed.

Lemma lend_none b i (had : bool) : PacketBuffer.recv b = None → lend had b i = Some i.
Proof. unfold lend. by intros ->. Qed.

(** ** The actions keep it *)

Lemma if_run_operation i :
  if_ok i → PacketRecvInterface.job_operation i = true →
  PacketRecvInterface.state i = OPERATION_PENDING ∧
  ∃ i', PacketRecvInterface.job_operation_run i = Some (i', PacketRecvInterface.job_operation_data i) ∧ if_ok i' ∧
    PacketRecvInterface.mtu i' = PacketRecvInterface.mtu i ∧ PacketRecvInterface.state i' = BUSY.
Proof.
  intros (Hu & Ho & Hd) Hj. rewrite Hj in Ho. symmetry in Ho. apply bool_decide_eq_true in Ho. split; [done|].
  unfold PacketRecvInterface.job_operation_run. rewrite assert_true by (by rewrite bool_decide_true). cbn [mbind option_bind].
  eexists. split; [done|]. split_and!; cbn; try done. by rewrite Hd, Ho.
Qed.

Lemma if_run_done i :
  if_ok i → PacketRecvInterface.job_done i = true →
  PacketRecvInterface.state i = DONE_PENDING ∧
  ∃ i', PacketRecvInterface.job_done_run i = Some (i', PacketRecvInterface.job_done_data i) ∧ if_ok i' ∧
    PacketRecvInterface.mtu i' = PacketRecvInterface.mtu i ∧ PacketRecvInterface.state i' = NONE.
Proof.
  intros (Hu & Ho & Hd) Hj. rewrite Hj in Hd. symmetry in Hd. apply bool_decide_eq_true in Hd. split; [done|].
  unfold PacketRecvInterface.job_done_run. rewrite assert_true by (by rewrite bool_decide_true). cbn [mbind option_bind].
  eexists. split; [done|]. split_and!; cbn; try done. by rewrite Ho, Hd.
Qed.

Lemma if_finish i data :
  if_ok i → PacketRecvInterface.state i = BUSY → zlen data ≤ PacketRecvInterface.mtu i →
  ∃ i', PacketRecvInterface.Done data i = Some i' ∧ if_ok i' ∧ PacketRecvInterface.mtu i' = PacketRecvInterface.mtu i ∧
    PacketRecvInterface.state i' = DONE_PENDING ∧ PacketRecvInterface.job_done_data i' = data.
Proof.
  intros (Hu & Ho & Hd) Hs Hl. unfold PacketRecvInterface.Done.
  rewrite !assert_true by (by rewrite ?bool_decide_true; try apply Z.leb_le). cbn [mbind option_bind].
  eexists. split; [done|]. split_and!; cbn; try done. by rewrite Ho, Hs.
Qed.

Lemma if_begin i data :
  if_ok i → PacketRecvInterface.state i = NONE →
  ∃ i', PacketRecvInterface.Receiver_Recv data i = Some i' ∧ if_ok i' ∧ PacketRecvInterface.mtu i' = PacketRecvInterface.mtu i ∧
    PacketRecvInterface.state i' = OPERATION_PENDING ∧ PacketRecvInterface.job_operation_data i' = data.
Proof.
  intros (Hu & Ho & Hd) Hs. unfold PacketRecvInterface.Receiver_Recv.
  rewrite !assert_true by (by rewrite ?bool_decide_true). cbn [mbind option_bind].
  eexists. split; [done|]. split_and!; cbn; try done. by rewrite Hd, Hs.
Qed.

Lemma write_none w p :
  BufferWriter.d_writing w = false → BufferWriter.out w = None →
  BufferWriter.write_packet p w = Some (false, w, []).
Proof.
  intros Hw Ho. unfold BufferWriter.write_packet, BufferWriter.BufferWriter_StartPacket, ASSERT, mbind, M_bind, mget, mret, M_ret.
  by rewrite Hw, orb_true_r, Ho.
Qed.

Lemma write_some w p mem :
  BufferWriter.d_writing w = false → BufferWriter.out w = Some mem → zlen p ≤ BufferWriter.mtu w →
  BufferWriter.write_packet p w = Some (true, BufferWriter.mk (BufferWriter.mtu w) None false, [BufferWriter.OutputDone p]).
Proof.
  intros Hw Ho Hp. unfold BufferWriter.write_packet, BufferWriter.BufferWriter_StartPacket, BufferWriter.BufferWriter_EndPacket,
    ASSERT, mbind, M_bind, mget, mput, emit, mret, M_ret.
  rewrite Hw, orb_true_r, Ho. cbn [BufferWriter.mtu BufferWriter.out BufferWriter.d_writing].
  rewrite (proj2 (Z.leb_le 0 (zlen p))), (proj2 (Z.leb_le (zlen p) (BufferWriter.mtu w))), !orb_true_r by lia.
  do 3 f_equal. cbn [app]. do 2 f_equal. unfold zwrite.
  change (ztake 0 mem) with (@nil Z). cbn [app]. by apply ztake_app_exact.
Qed.

Lemma encode_done e p mem :
  Encoder.output_packet e = Some (zwrite 2 p mem) → zlen p ≤ PACKETPROTO_MAXPAYLOAD → 2 + zlen p ≤ zlen mem →
  ∃ packet, Encoder.input_handler_done (zlen p) e =
      Some (tt, Encoder.mk None, [Encoder.OutputDone packet (PACKETPROTO_ENCLEN (zlen p))]) ∧
    ztake (PACKETPROTO_ENCLEN (zlen p)) packet = frame p.
Proof.
  unfold PACKETPROTO_ENCLEN, PACKETPROTO_MAXPAYLOAD, UINT16_MAX, sizeof_packetproto_header. intros He Hp Hm.
  unfold Encoder.input_handler_done, mbind, M_bind, mget, mput, emit. rewrite He. eexists. split; [done|].
  unfold htol16. rewrite u16_small by lia.
  replace (zwrite 0 (le_bytes 2 (zlen p)) (zwrite 2 p mem)) with (frame p ++ zdrop (2 + zlen p) mem).
  - apply ztake_app_exact. by rewrite zlen_frame.
  - unfold zwrite at 1. change (ztake 0 _) with (@nil Z). unfold frame. rewrite <- app_assoc. cbn [app]. f_equal.
    rewrite length_le_bytes. unfold zwrite. symmetry. apply zdrop_app_exact. rewrite zlen_ztake; lia.
Qed.

(** How far the place for the next packet is from the writer. *)
Definition rank (s : t) : nat :=
  match PacketRecvInterface.state (writer_if s), PacketRecvInterface.state (encoder_if s) with
  | DONE_PENDING, _ => 4
  | _, DONE_PENDING => 3
  | _, OPERATION_PENDING => 2
  | OPERATION_PENDING, _ => 1
  | _, _ => 0
  end.

Lemma act_write num mtu s ps fl p :
  inv num mtu s ps fl → zlen p ≤ mtu → ∃ s' fl', act s (AWrite p) = Some s' ∧ inv num mtu s' ps fl'.
Proof.
  intros Hi Hp. pose proof Hi as [Hm Hb Him [Hw Hd] [Hwi Hwm] [Hei Hem] Ha Hsm Hs]. cbn [act]. unfold write.
  destruct (BufferWriter.out (ainput s)) as [mem|] eqn:Ho.
  - assert (PacketRecvInterface.state (encoder_if s) = BUSY ∧ PacketRecvInterface.state (writer_if s) = BUSY) as [He Hwb].
    { unfold slot, idle_memory in Hs. rewrite Ho in Hs.
      destruct (PacketRecvInterface.state (encoder_if s)), (PacketRecvInterface.state (writer_if s)); naive_solver. }
    rewrite (write_some _ _ mem) by (done || lia). cbn [mbind option_bind].
    destruct (if_finish (writer_if s) p) as (wi & -> & Hok & Hm' & Hst & Hdata); [done|done|lia|]. cbn [mbind option_bind].
    unfold slot in Hs. rewrite He, Hwb in Hs. destruct Hs as (Hr & -> & _ & m & Hmem & Hz).
    eexists _, [p]. split; [done|]. split; cbn; try done; [by rewrite Hm', Hwm|by rewrite map_app, Ha, app_nil_r|by apply Forall_app; split; [|constructor]|].
    unfold slot. cbn. rewrite He, Hst. split; [done|]. split; [done|]. exists p, m. rewrite Hmem. done.
  - rewrite write_none by done. cbn [mbind option_bind]. eexists _, fl. split; [done|]. split; try done.
Qed.

Lemma act_writer_recv num mtu s ps fl :
  inv num mtu s ps fl → allowed s AWriterRecv = true → ∃ s' fl', act s AWriterRecv = Some s' ∧ inv num mtu s' ps fl' ∧ accepted s' = accepted s ∧ (rank s' < rank s)%nat.
Proof.
  intros Hi Hj. pose proof Hi as [Hm Hb Him [Hw Hd] [Hwi Hwm] [Hei Hem] Ha Hsm Hs]. cbn [act].
  destruct (if_run_operation _ Hwi Hj) as (Hst & wi & -> & Hok & Hm' & Hst'). cbn [mbind option_bind].
  unfold slot in Hs. rewrite Hst in Hs.
  assert (PacketRecvInterface.state (encoder_if s) = BUSY) as He by (destruct (PacketRecvInterface.state (encoder_if s)); naive_solver).
  rewrite He in Hs. destruct Hs as (Hr & -> & Ho & Hmem).
  unfold BufferWriter.output_handler_recv, ASSERT, mbind, M_bind, mget, mput. rewrite Ho, bool_decide_true, orb_true_r by done.
  cbn [option_bind]. eexists _, []. split; [done|]. split; [|split; [done|unfold rank; cbn; rewrite Hst, Hst', He; cbn; lia]].
  split; cbn; try done; [by rewrite Hm'|]. unfold slot. cbn. rewrite He, Hst'. split; [done|]. split_and!; eauto.
Qed.

Lemma act_writer_done num mtu s ps fl :
  inv num mtu s ps fl → allowed s AWriterDone = true → ∃ s' fl', act s AWriterDone = Some s' ∧ inv num mtu s' ps fl' ∧ accepted s' = accepted s ∧ (rank s' < rank s)%nat.
Proof.
  intros Hi Hj. pose proof Hi as [Hm Hb Him [Hw Hd] [Hwi Hwm] [Hei Hem] Ha Hsm Hs]. cbn [act].
  destruct (if_run_done _ Hwi Hj) as (Hst & wi & -> & Hok & Hm' & Hst'). cbn [mbind option_bind].
  unfold slot in Hs. rewrite Hst in Hs.
  assert (PacketRecvInterface.state (encoder_if s) = BUSY) as He by (destruct (PacketRecvInterface.state (encoder_if s)); naive_solver).
  rewrite He in Hs. destruct Hs as (Hr & Ho & p & mem & -> & Hp & -> & Hmem & Hz).
  destruct (encode_done (encoder s) p mem) as (packet & -> & Hpk); [done|lia|lia|]. cbn [mbind option_bind].
  destruct (if_finish (encoder_if s) (ztake (PACKETPROTO_ENCLEN (zlen p)) packet)) as (ei & -> & Hok2 & Hm2 & Hst2 & Hd2);
    [done|done|rewrite Hpk, zlen_frame; lia|]. cbn [mbind option_bind].
  eexists _, [p]. split; [done|]. split; [|split; [done|unfold rank; cbn; rewrite Hst, Hst', Hst2; cbn; lia]].
  split; cbn; try done; [by rewrite Hm'|by rewrite Hm2|]. unfold slot. cbn. rewrite Hst2. split_and!; [done|done|done|]. exists p. by rewrite Hd2.
Qed.

Lemma act_encoder_recv num mtu s ps fl :
  inv num mtu s ps fl → allowed s AEncoderRecv = true → ∃ s' fl', act s AEncoderRecv = Some s' ∧ inv num mtu s' ps fl' ∧ accepted s' = accepted s ∧ (rank s' < rank s)%nat.
Proof.
  intros Hi Hj. pose proof Hi as [Hm Hb Him [Hw Hd] [Hwi Hwm] [Hei Hem] Ha Hsm Hs]. cbn [act].
  destruct (if_run_operation _ Hei Hj) as (Hst & ei & -> & Hok & Hm' & Hst'). cbn [mbind option_bind].
  unfold slot in Hs. rewrite Hst in Hs. destruct Hs as (Hr & Hws & [He Ho] & -> & Hz).
  unfold Encoder.output_handler_recv, ASSERT, mbind, M_bind, mget, mput, emit. rewrite He, bool_decide_true, orb_true_r by done.
  cbn [option_bind app].
  destruct (if_begin (writer_if s) (zdrop sizeof_packetproto_header (PacketRecvInterface.job_operation_data (encoder_if s))))
    as (wi & -> & Hok2 & Hm2 & Hst2 & _); [done|done|]. cbn [option_bind].
  eexists _, []. split; [done|]. split; [|split; [done|unfold rank; cbn; rewrite Hst, Hst', Hst2, Hws; cbn; lia]].
  split; cbn; try done; [by rewrite Hm2|by rewrite Hm'|]. unfold slot. cbn. rewrite Hst', Hst2. split; [done|]. split_and!; [done|done|]. by eexists.
Qed.

Lemma act_encoder_done num mtu s ps fl :
  inv num mtu s ps fl → allowed s AEncoderDone = true → ∃ s' ps' fl', act s AEncoderDone = Some s' ∧ inv num mtu s' ps' fl' ∧
    accepted s' = accepted s ∧ (rank s' < rank s)%nat.
Proof.
  intros Hi Hj. pose proof Hi as [Hm Hb Him [Hw Hd] [Hwi Hwm] [Hei Hem] Ha Hsm Hs]. cbn [act].
  destruct (if_run_done _ Hei Hj) as (Hst & ei & -> & Hok & Hm' & Hst'). cbn [mbind option_bind].
  unfold slot in Hs. rewrite Hst in Hs. destruct Hs as (Hr & Hws & Hid & p & -> & Hp & ->).
  destruct (do_in_buffering num (buffer s) ps (frame p) Hb Hr) as (b & -> & Hb' & Hl & Himt);
    [rewrite Him, zlen_frame; lia|]. cbn [mbind option_bind].
  assert (map frame (accepted s) = PacketBuffer.arrived b ++ map frame []) as Ha'.
  { rewrite Ha, (bf_order _ _ _ Hb), (bf_order _ _ _ Hb'), Hl. cbn. by rewrite app_nil_r, <- app_assoc. }
  destruct (PacketBuffer.recv b) as [d|] eqn:Hrb.
  - destruct (lend_starts num b _ ei d Hb' Hrb Hst' Hok) as (ei' & -> & Hok' & Hm2 & Hst2 & Hz2). cbn [mbind option_bind].
    eexists _, _, []. split; [done|]. split; [|split; [done|unfold rank; cbn; rewrite Hst, Hst2, Hws; cbn; lia]].
    split; cbn; try done; [congruence|by rewrite Hm2, Hm'|]. unfold slot. cbn. rewrite Hst2, Hrb. split_and!; eauto. congruence.
  - rewrite lend_none by done. cbn [mbind option_bind].
    eexists _, _, []. split; [done|]. split; [|split; [done|unfold rank; cbn; rewrite Hst, Hst', Hws; cbn; lia]].
    split; cbn; try done; [congruence|by rewrite Hm'|]. unfold slot. cbn. rewrite Hst'. done.
Qed.

Lemma act_out num mtu s ps fl :
  inv num mtu s ps fl → allowed s AOut = true → ∃ s' ps', act s AOut = Some s' ∧ inv num mtu s' ps' fl.
Proof.
  intros Hi Hj. apply bool_decide_eq_true in Hj. pose proof Hi as [Hm Hb Him [Hw Hd] [Hwi Hwm] [Hei Hem] Ha Hsm Hs]. cbn [act].
  destruct (do_out_buffering num (buffer s) ps Hb Hj) as (b & p & ps' & -> & -> & Hb' & Hl & Himt & Harr & Hrc).
  cbn [mbind option_bind]. destruct (PacketBuffer.recv (buffer s)) as [d|] eqn:Hr.
  - rewrite bool_decide_true by done. unfold lend. rewrite Hrc by done. cbn [mbind option_bind].
    eexists _, _. split; [done|]. split; cbn; try done; [congruence|by rewrite Harr|].
    unfold slot in *. cbn. rewrite Hrc by done. rewrite Hr in Hs. exact Hs.
  - assert (PacketRecvInterface.state (encoder_if s) = NONE) as Hst.
    { unfold slot in Hs. rewrite Hr in Hs. destruct (PacketRecvInterface.state (encoder_if s)); [done|..];
        by destruct Hs as [[? ?] _]. }
    rewrite bool_decide_false by by intros [? ?]. unfold slot in Hs. rewrite Hst in Hs. destruct Hs as (_ & Hws & Hid & ->).
    destruct (PacketBuffer.recv b) as [d|] eqn:Hrb.
    + destruct (lend_starts num b _ (encoder_if s) d Hb' Hrb Hst Hei) as (ei' & -> & Hok' & Hm2 & Hst2 & Hz2). cbn [mbind option_bind].
      eexists _, _. split; [done|]. split; cbn; try done; [congruence|by rewrite Hm2|by rewrite Harr|].
      unfold slot. cbn. rewrite Hst2, Hrb. split_and!; eauto. congruence.
    + rewrite lend_none by done. cbn [mbind option_bind].
      eexists _, _. split; [done|]. split; cbn; try done; [congruence|by rewrite Harr|].
      unfold slot. cbn. rewrite Hst. done.
Qed.

Lemma flow_act_inv num mtu s ps fl a :
  inv num mtu s ps fl → allowed s a = true → ∃ s' ps' fl', act s a = Some s' ∧ inv num mtu s' ps' fl'.
Proof.
  intros Hi Ha. destruct a as [p| | | | |].
  - destruct (act_write num mtu s ps fl p Hi) as (s' & fl' & ? & ?); [|eauto].
    cbn in Ha. apply Z.leb_le in Ha. by rewrite (proj1 (fi_writer _ _ _ _ _ Hi)) in Ha.
  - destruct (act_writer_recv num mtu s ps fl Hi Ha) as (s' & fl' & ? & ? & _); eauto.
  - destruct (act_writer_done num mtu s ps fl Hi Ha) as (s' & fl' & ? & ? & _); eauto.
  - destruct (act_encoder_recv num mtu s ps fl Hi Ha) as (s' & fl' & ? & ? & _); eauto.
  - destruct (act_encoder_done num mtu s ps fl Hi Ha) as (s' & ps' & fl' & ? & ? & _); eauto.
  - destruct (act_out num mtu s ps fl Hi Ha) as (s' & ps' & ? & ?); eauto.
Qed.

(** Nothing has arrived when the buffer is new. *)
Lemma start_sys_empty i b : PacketBuffer.start_sys i = Some b → PacketBuffer.arrived b = [].
Proof.
  unfold PacketBuffer.start_sys. destruct i as [o es]. cbn [fst snd].
  assert (∀ s, PacketBuffer.arrived s = [] → PacketBuffer.apply_events s es = Some b → PacketBuffer.arrived b = []) as Hx; [|by apply Hx].
  induction es as [|e es IH]; intros s Hs He; cbn in He; [by injection He as <-|].
  destruct (PacketBuffer.apply_event s e) as [s1|] eqn:Ha; [|done]. cbn in He. apply (IH s1); [|done].
  destruct e as [[d|]|[d|] l]; cbn in Ha; try done; case_bool_decide; by simplify_eq/=.
Qed.
Lemma flow_init_inv num mtu omtu alloc s0 :
  (∀ n mem, alloc n = Some mem → zlen mem = n ∧ n ≤ INT_MAX) → 0 ≤ mtu ≤ PACKETPROTO_MAXPAYLOAD → 0 < num →
  PacketProtoFlow_Init mtu omtu num alloc = Some (Some s0) → inv num mtu s0 [] [] ∧ accepted s0 = [].
Proof.
  intros Hal Hm Hn Hi. unfold PacketProtoFlow_Init in Hi.
  do 4 apply assert_bind in Hi.
  unfold PacketRecvInterface.Init, PacketRecvInterface.Receiver_Init in Hi. unfold PACKETPROTO_ENCLEN, sizeof_packetproto_header in *.
  rewrite !(assert_true (0 <=? mtu)), !(assert_true (0 <=? 2 + mtu)) in Hi by (apply Z.leb_le; lia). cbn [mbind option_bind] in Hi.
  rewrite !(assert_true (negb (PacketRecvInterface.have_user _))) in Hi by done. cbn [mbind option_bind] in Hi.
  destruct (PacketBuffer.PacketBuffer_Init (2 + mtu) omtu num alloc) as [[i|]|] eqn:Hpb; [|done|done]. cbn [mbind option_bind] in Hi.
  destruct (init_buffering num (2 + mtu) omtu alloc i Hal ltac:(lia) Hn Hpb) as (b & Hb & Hbuf & Him). rewrite Hb in Hi.
  cbn [mbind option_bind] in Hi. rewrite ?(assert_true (negb (PacketRecvInterface.have_user _))) in Hi by done. cbn [mbind option_bind] in Hi.
  destruct (PacketBuffer.recv b) as [d|] eqn:Hr.
  - destruct (lend_starts num b [] (PacketRecvInterface.mk (2 + mtu) true false [] false [] NONE) d Hbuf Hr) as
      (ei & Hle & Hok & Hmt & Hst & Hz); [done|done|]. cbn in Hi. rewrite Hle in Hi. cbn in Hi. injection Hi as <-.
    split; [|done]. split; cbn; try done.
    + by rewrite (start_sys_empty i b Hb).
    + unfold slot. cbn. rewrite Hst, Hr. rewrite Him in Hz. split_and!; eauto; done.
  - exfalso. destruct Hbuf as [Hh Hmb Hcm Hsz Hsm _ Hrc _]. rewrite Hr in Hrc.
    destruct (room _ _ _ num Hh Hmb Hcm Hsz Hsm ltac:(cbn; lia)) as [Hav [? Hd]].
    rewrite (proj2 (Z.leb_le _ _) Hav), Hd in Hrc. done.
Qed.

(** ** The jobs run out *)

Definition next_job (s : t) : option action :=
  if PacketRecvInterface.job_done (writer_if s) then Some AWriterDone
  else if PacketRecvInterface.job_done (encoder_if s) then Some AEncoderDone
  else if PacketRecvInterface.job_operation (encoder_if s) then Some AEncoderRecv
  else if PacketRecvInterface.job_operation (writer_if s) then Some AWriterRecv
  else None.

(** Running the jobs until none is set. *)
Fixpoint run_jobs (fuel : nat) (s : t) : option t :=
  match next_job s with
  | None => Some s
  | Some a =>
      match fuel with
      | O => None
      | S fuel => s' ← act s a; run_jobs fuel s'
      end
  end.

Lemma job_step num mtu s ps fl a :
  inv num mtu s ps fl → next_job s = Some a →
  ∃ s' ps' fl', act s a = Some s' ∧ inv num mtu s' ps' fl' ∧ accepted s' = accepted s ∧ (rank s' < rank s)%nat.
Proof.
  intros Hi Hn. unfold next_job in Hn.
  destruct (PacketRecvInterface.job_done (writer_if s)) eqn:H1.
  { injection Hn as <-. destruct (act_writer_done num mtu s ps fl Hi H1) as (? & ? & ?). eauto. }
  destruct (PacketRecvInterface.job_done (encoder_if s)) eqn:H2.
  { injection Hn as <-. by apply (act_encoder_done num mtu s ps fl). }
  destruct (PacketRecvInterface.job_operation (encoder_if s)) eqn:H3.
  { injection Hn as <-. destruct (act_encoder_recv num mtu s ps fl Hi H3) as (? & ? & ?). eauto. }
  destruct (PacketRecvInterface.job_operation (writer_if s)) eqn:H4; [|done].
  injection Hn as <-. destruct (act_writer_recv num mtu s ps fl Hi H4) as (? & ? & ?). eauto.
Qed.

Lemma run_jobs_ok num mtu n s ps fl :
  inv num mtu s ps fl → (rank s ≤ n)%nat →
  ∃ s' ps' fl', run_jobs n s = Some s' ∧ inv num mtu s' ps' fl' ∧ accepted s' = accepted s ∧ next_job s' = None.
Proof.
  revert s ps fl. induction n as [|n IH]; intros s ps fl Hi Hr.
  - cbn [run_jobs]. destruct (next_job s) as [a|] eqn:Hn; [|by exists s, ps, fl].
    destruct (job_step num mtu s ps fl a Hi Hn) as (? & ? & ? & _ & _ & _ & ?). lia.
  - cbn [run_jobs]. destruct (next_job s) as [a|] eqn:Hn; [|by exists s, ps, fl].
    destruct (job_step num mtu s ps fl a Hi Hn) as (s1 & ps1 & fl1 & -> & Hi1 & Ha & Hlt). cbn [mbind option_bind].
    destruct (IH s1 ps1 fl1 Hi1 ltac:(lia)) as (s' & ps' & fl' & ? & ? & Ha' & ?). exists s', ps', fl'. split_and!; try done. congruence.
Qed.

Lemma rank_le s : (rank s ≤ 4)%nat.
Proof. unfold rank. destruct (PacketRecvInterface.state (writer_if s)), (PacketRecvInterface.state (encoder_if s)); lia. Qed.

(** Without jobs nothing is on its way, and the writer can take a packet unless
    the buffer is full. *)
Lemma settled num mtu s ps fl :
  inv num mtu s ps fl → next_job s = None →
  fl = [] ∧ (is_Some (BufferWriter.out (ainput s)) ↔ is_Some (PacketBuffer.recv (buffer s))).
Proof.
  intros [Hm Hb Him _ [(_ & Hwo & Hwd) _] [(_ & Heo & Hed) _] _ _ Hs] Hn. unfold next_job in Hn. rewrite Hwo, Hwd, Heo, Hed in Hn.
  unfold slot, idle_memory in Hs.
  destruct (PacketRecvInterface.state (writer_if s)), (PacketRecvInterface.state (encoder_if s)); try done.
  - destruct Hs as (-> & _ & [_ ->] & ->). split; [done|]. split; by intros [? ?].
  - by destruct Hs as [_ []].
  - by destruct Hs as (_ & ? & _).
  - destruct Hs as (? & -> & ? & _). done.
Qed.

Lemma slot_length mtu s fl : slot mtu s fl → (length fl ≤ 1)%nat.
Proof.
  unfold slot. destruct (PacketRecvInterface.state (encoder_if s)), (PacketRecvInterface.state (writer_if s)); intros Hs;
    destruct_and?; destruct_or?; repeat match goal with Hx : ∃ _, _ |- _ => destruct Hx end; destruct_and?; subst; cbn; try lia; done.
Qed.

Lemma flow_reach_inv num mtu s0 s ps fl : inv num mtu s0 ps fl → reach s0 s → ∃ ps fl, inv num mtu s ps fl.
Proof.
  intros Hi Hr. induction Hr as [|s a s' _ (ps1 & fl1 & IH) Ha Hact]; [eauto|].
  destruct (flow_act_inv num mtu s ps1 fl1 a IH Ha) as (s1 & ps2 & fl2 & Hact' & ?). rewrite Hact in Hact'. injection Hact' as <-. eauto.
Qed.
End flow.
End PacketProtoFlow.

(** ** From the writer to the other end of the stream *)

(** The packets given to a PacketStreamSender one after the other, with the
    sizes the stream takes at a time: the bytes in the stream. *)
Fixpoint send_all `{Build} (packets : list (list Z)) (sizes : list (list nat)) (s : PacketStreamSender.t) :
    option (PacketStreamSender.t * list Z) :=
  match packets, sizes with
  | p :: packets, sz :: sizes =>
      '(s, out, done) ← PacketStreamSender.send_packet sz p s;
      if (done : bool) then '(s, rest) ← send_all packets sizes s; Some (s, out ++ rest) else None
  | [], _ => Some (s, [])
  | _, [] => None
  end.

Lemma send_all_concat `{Build} packets sizes s :
  PacketStreamSender.in_len s = -1 → Forall2 (λ p sz, zlen p ≤ zlen sz) packets sizes →
  ∃ s', send_all packets sizes s = Some (s', concat packets).
Proof.
  intros Hs Hf. revert s Hs. induction Hf as [|p sz packets sizes Hp Hf IH]; intros s Hs; cbn [send_all concat]; [by exists s|].
  destruct (drive_all sz p 0) as (s1 & es & s2 & Hs1 & Hd & Hi); [lia|lia|].
  assert (PacketStreamSender.send_packet sz p s = Some (s2, p, true)) as ->.
  { unfold PacketStreamSender.send_packet, PacketStreamSender.input_handler_send, ASSERT, mget, mput, mbind, M_bind.
    rewrite Hs, Z.eqb_refl, orb_true_r, Hs1. cbn [option_bind app]. by rewrite Hd. }
  cbn [mbind option_bind]. destruct (IH s2 Hi) as [s' ->]. by exists s'.
Qed.

(** C17: where the memory an allocation gives has the size asked for and no more
    than INT_MAX bytes, a PacketProtoFlow for [num] packets sends the frames of the packets that
    were written, each once and in the order of writing, whatever the order in
    which its jobs run and the output answers: those that left, those in the
    buffer and at most one on its way to it are all that were ever accepted.
    Nothing it may be asked to do fails; after at most four jobs none is left,
    nothing is on its way, and the next packet is accepted whenever fewer than
    [num] are in the buffer. *)
Theorem packetprotoflow_frames `{Build} num mtu omtu alloc s0 s :
  (∀ n mem, alloc n = Some mem → zlen mem = n ∧ n ≤ INT_MAX) → 0 ≤ mtu ≤ PACKETPROTO_MAXPAYLOAD → 0 < num →
  PacketProtoFlow.PacketProtoFlow_Init mtu omtu num alloc = Some (Some s0) → PacketProtoFlow.reach s0 s →
  (∀ a, PacketProtoFlow.allowed s a = true → is_Some (PacketProtoFlow.act s a)) ∧
  (∃ ps fl, map frame (PacketProtoFlow.accepted s) = PacketBuffer.left_ (PacketProtoFlow.buffer s) ++ ps ++ map frame fl ∧
     (length fl ≤ 1)%nat ∧ (ps ≠ [] ↔ is_Some (PacketBuffer.send (PacketProtoFlow.buffer s)))) ∧
  ∃ s1 ps1, PacketProtoFlow.run_jobs 4 s = Some s1 ∧ PacketProtoFlow.next_job s1 = None ∧
    PacketProtoFlow.accepted s1 = PacketProtoFlow.accepted s ∧
    map frame (PacketProtoFlow.accepted s1) = PacketBuffer.left_ (PacketProtoFlow.buffer s1) ++ ps1 ∧
    (zlen ps1 < num → is_Some (BufferWriter.out (PacketProtoFlow.ainput s1))).
Proof.
  intros Hal Hm Hn Hi Hr. destruct (PacketProtoFlow.flow_init_inv num mtu omtu alloc s0 Hal Hm Hn Hi) as [Hi0 _].
  destruct (PacketProtoFlow.flow_reach_inv num mtu s0 s [] [] Hi0 Hr) as (ps & fl & Hinv). split_and!.
  - intros a Ha. destruct (PacketProtoFlow.flow_act_inv num mtu s ps fl a Hinv Ha) as (? & ? & ? & -> & _). eauto.
  - exists ps, fl. pose proof Hinv as [_ Hb _ _ _ _ Ha _ Hs]. split_and!.
    + by rewrite Ha, (bf_order _ _ _ Hb), <- app_assoc.
    + by eapply PacketProtoFlow.slot_length.
    + pose proof (bf_send _ _ _ Hb) as Hsd. destruct ps; [rewrite Hsd; split; [done|by intros [? ?]]|].
      destruct Hsd as (? & _ & _ & ->). split; eauto.
  - destruct (PacketProtoFlow.run_jobs_ok num mtu 4 s ps fl Hinv (PacketProtoFlow.rank_le s)) as (s1 & ps1 & fl1 & Hrun & Hi1 & Hacc & Hj).
    exists s1, ps1. destruct (PacketProtoFlow.settled num mtu s1 ps1 fl1 Hi1 Hj) as [-> Hout].
    pose proof Hi1 as [_ Hb _ _ _ _ Ha _ _]. split_and!; [done..| |].
    + by rewrite Ha, (bf_order _ _ _ Hb), app_nil_r.
    + intros Hlt. apply Hout. destruct Hb as [Hh Hmb Hcm Hsz Hsm _ -> _].
      destruct (room _ _ _ num Hh Hmb Hcm Hsz Hsm Hlt) as [Hav ?]. by rewrite (proj2 (Z.leb_le _ _) Hav).
Qed.

(** C18: what left a PacketProtoFlow, passed on by a PacketStreamSender in pieces
    of any size and received by a PacketProtoDecoder in pieces of any other size,
    comes out at the other end of the stream as the packets that were written,
    in order. *)
Theorem channel_delivers `{Build} num mtu omtu alloc s0 s sizes cuts mem d es :
  (∀ n mem, alloc n = Some mem → zlen mem = n ∧ n ≤ INT_MAX) → 0 ≤ mtu ≤ PACKETPROTO_MAXPAYLOAD → 0 < num →
  PacketProtoFlow.PacketProtoFlow_Init mtu omtu num alloc = Some (Some s0) → PacketProtoFlow.reach s0 s →
  zlen mem = 2 + mtu → Decoder.PacketProtoDecoder_Init mtu (Some mem) = Some (d, es) →
  Forall2 (λ p sz, zlen p ≤ zlen sz) (PacketBuffer.left_ (PacketProtoFlow.buffer s)) sizes →
  (length (concat (PacketBuffer.left_ (PacketProtoFlow.buffer s))) ≤ length cuts)%nat →
  ∃ snd stream d',
    send_all (PacketBuffer.left_ (PacketProtoFlow.buffer s)) sizes PacketStreamSender.PacketStreamSender_Init = Some (snd, stream) ∧
    Decoder.run cuts d 0 (2 + mtu) stream =
      Some (d', take (length (PacketBuffer.left_ (PacketProtoFlow.buffer s))) (PacketProtoFlow.accepted s), [], false).
Proof.
  intros Hal Hm Hn Hi Hr Hmem Hd Hsz Hcut. destruct (PacketProtoFlow.flow_init_inv num mtu omtu alloc s0 Hal Hm Hn Hi) as [Hi0 _].
  destruct (PacketProtoFlow.flow_reach_inv num mtu s0 s [] [] Hi0 Hr) as (ps & fl & [_ Hb _ _ _ _ Ha Hsm _]).
  set (out := PacketBuffer.left_ (PacketProtoFlow.buffer s)) in *.
  assert (out = map frame (take (length out) (PacketProtoFlow.accepted s))) as Hout.
  { rewrite <- firstn_map. rewrite (bf_order _ _ _ Hb) in Ha. fold out in Ha. by rewrite Ha, <- app_assoc, take_app_length. }
  destruct (send_all_concat out sizes PacketStreamSender.PacketStreamSender_Init eq_refl Hsz) as [snd Hsnd].
  unfold Decoder.PacketProtoDecoder_Init in Hd. unfold PACKETPROTO_MAXPAYLOAD, UINT16_MAX in *.
  assert (bmin_int mtu 65535 = mtu) as Hmin by (unfold bmin_int; destruct (Z.ltb_spec mtu 65535); lia).
  rewrite Hmin in Hd. injection Hd as <- <-.
  destruct (run_whole_frames cuts (Decoder.mk mtu (PACKETPROTO_ENCLEN mtu) 0 0 mem) 0 (2 + mtu)
    (take (length out) (PacketProtoFlow.accepted s))) as (d' & Hrun & _).
  - unfold PACKETPROTO_ENCLEN, sizeof_packetproto_header. repeat split; cbn; lia.
  - by apply Forall_take.
  - done.
  - by rewrite <- Hout.
  - exists snd, (concat out), d'. split; [done|]. rewrite <- Hout in Hrun. exact Hrun.
Qed.

Section flow_example.
#[local] Instance flow_build : Build := false.
Import PacketProtoFlow.

Definition flow_alloc (n : Z) : option (list Z) :=
  if (0 <=? n) && (n <=? INT_MAX) then Some (replicate (Z.to_nat n) 0) else None.

Lemma flow_alloc_ok n mem : flow_alloc n = Some mem → zlen mem = n ∧ n ≤ INT_MAX.
Proof.
  unfold flow_alloc. destruct (Z.leb_spec 0 n), (Z.leb_spec n INT_MAX); intros [= <-].
  rewrite length_replicate. lia.
Qed.

Fixpoint all_allowed (s : t) (l : list action) : bool :=
  match l with
  | [] => true
  | a :: l => allowed s a && match act s a with Some s' => all_allowed s' l | None => false end
  end.

Lemma flow_run_actions_reach s0 s l s' :
  reach s0 s → all_allowed s l = true → run_actions s l = Some s' → reach s0 s'.
Proof.
  revert s. induction l as [|a l IH]; intros s Hr Ha Hrun; [by simplify_eq/=|].
  cbn [all_allowed run_actions] in *. apply andb_true_iff in Ha as [Ha Hl].
  destruct (act s a) as [s1|] eqn:Hact; [|done]. eapply IH; [|exact Hl|exact Hrun]. by eapply reach_act.
Qed.

Definition flow_start : t :=
  match PacketProtoFlow_Init 3 5 1 flow_alloc with
  | Some (Some s) => s
  | _ => mk (BufferWriter.BufferWriter_Init 3) (PacketRecvInterface.mk 0 false false [] false [] PacketPassInterface.NONE)
           Encoder.PacketProtoEncoder_Init (PacketRecvInterface.mk 0 false false [] false [] PacketPassInterface.NONE)
           (PacketBuffer.mksys (PacketBuffer.mk (ChunkBuffer2.mk [] 0 0 0 0 0 None 0 None 0) 0) None None [] []) []
  end.

(** A packet is written and goes out, one that comes too early is dropped, the
    next is still in the buffer. *)
Definition flow_actions : list action :=
  [AEncoderRecv; AWriterRecv; AWrite [7; 8; 9]; AWrite [1]; AWriterDone; AEncoderDone; AOut; AEncoderRecv;
   AWriterRecv; AWrite [5]; AWriterDone; AEncoderDone].

Definition flow_end : t := match run_actions flow_start flow_actions with Some s => s | None => flow_start end.

Lemma flow_end_reach : reach flow_start flow_end.
Proof. apply (flow_run_actions_reach flow_start flow_start flow_actions); [constructor|vm_compute; reflexivity..]. Qed.

Lemma packetprotoflow_frames_witness :
  PacketProtoFlow_Init 3 5 1 flow_alloc = Some (Some flow_start) ∧ reach flow_start flow_end ∧
  accepted flow_end = [[7; 8; 9]; [5]] ∧
  ∃ s1 ps1, run_jobs 4 flow_end = Some s1 ∧ map frame (accepted s1) = PacketBuffer.left_ (buffer s1) ++ ps1.
Proof.
  assert (PacketProtoFlow_Init 3 5 1 flow_alloc = Some (Some flow_start)) as Hi by (vm_compute; reflexivity).
  split; [exact Hi|]. split; [exact flow_end_reach|]. split; [vm_compute; reflexivity|].
  destruct (packetprotoflow_frames 1 3 5 flow_alloc flow_start flow_end flow_alloc_ok) as (_ & _ & s1 & ps1 & ? & _ & _ & ? & _);
    [split; [lia|vm_compute; discriminate]|lia|exact Hi|exact flow_end_reach|]. exists s1, ps1. split; assumption.
Defined.

Lemma channel_delivers_witness :
  ∃ snd stream d',
    send_all (PacketBuffer.left_ (buffer flow_end)) [[0; 1; 0; 0; 0]%nat] PacketStreamSender.PacketStreamSender_Init = Some (snd, stream) ∧
    stream = [3; 0; 7; 8; 9] ∧
    Decoder.run (replicate 5 1%nat) (Decoder.mk 3 5 0 0 (replicate 5 0)) 0 5 stream = Some (d', [[7; 8; 9]], [], false).
Proof.
  assert (PacketProtoFlow_Init 3 5 1 flow_alloc = Some (Some flow_start)) as Hi by (vm_compute; reflexivity).
  destruct (channel_delivers 1 3 5 flow_alloc flow_start flow_end [[0; 1; 0; 0; 0]%nat] (replicate 5 1%nat) (replicate 5 0)
    (Decoder.mk 3 5 0 0 (replicate 5 0)) [Decoder.InputRecv 0 5] flow_alloc_ok) as (snd & stream & d' & Hs & Hd);
    [split; [lia|vm_compute; discriminate]|lia|exact Hi|exact flow_end_reach|reflexivity|reflexivity| | |].
  - assert (PacketBuffer.left_ (buffer flow_end) = [[3; 0; 7; 8; 9]]) as -> by (vm_compute; reflexivity). repeat constructor; cbn; lia.
  - vm_compute. lia.
  - exists snd, stream, d'. split; [exact Hs|]. split; [|exact Hd]. vm_compute in Hs. injection Hs as _ <-. reflexivity.
Defined.
End flow_example.

(** ** flowextra/PacketPassInactivityMonitor.c

    A layer that passes packets on and tells its user when none was sent for
    some time.  The timer is the time at which it expires, if it is running;
    [now] is the time when a handler runs. *)

Module PacketPassInactivityMonitor.

Record t := mk { interval : Z; have_handler : bool; timer : option Z }.

Inductive event := OutputSend (data : list Z) | OutputRequestCancel | InputDone | Handler.

Abbreviation IO := (M t event).

Definition SetTimer (now : Z) : IO unit := mmodify (λ o, mk (interval o) (have_handler o) (Some (btime_add now (interval o)))).
Definition RemoveTimer : IO unit := mmodify (λ o, mk (interval o) (have_handler o) None).

Definition input_handler_send (data : list Z) : IO unit :=
  (* schedule send *)
  emit (OutputSend data);;
  (* stop timer *)
  RemoveTimer.

Definition input_handler_requestcancel : IO unit := emit OutputRequestCancel.

Definition output_handler_done (now : Z) : IO unit :=
  (* output no longer busy, restart timer *)
  SetTimer now;;
  (* call done *)
  emit InputDone.

Definition timer_handler (now : Z) : IO unit :=
  (* restart timer *)
  SetTimer now;;
  (* call handler *)
  o ← mget;
  when (have_handler o) (emit Handler).

Definition PacketPassInactivityMonitor_Init (interval : Z) (have_handler : bool) (now : Z) : t :=
  mk interval have_handler (Some (btime_add now interval)).
Definition PacketPassInactivityMonitor_Free : IO unit := RemoveTimer.
Definition PacketPassInactivityMonitor_SetHandler (h : bool) : IO unit := mmodify (λ o, mk (interval o) h (timer o)).
Definition PacketPassInactivityMonitor_Force (now : Z) : IO unit :=
  mmodify (λ o, mk (interval o) (have_handler o) (Some (btime_add now 0))).

(** *** The monitor in its surroundings

    [sending]: a packet was given to the output and is not done; [since]: when
    the monitor was last started, done with a packet or called its handler;
    [passed] and [calls]: the packets given to the output, and when the handler
    was called. *)
Record sys := mksys { obj : t; now : Z; sending : bool; since : Z; passed : list (list Z); calls : list Z }.

Inductive action := ASend (p : list Z) | ACancel | ADone | ATimer | ATick (d : Z) | ASetHandler (h : bool) | AForce.

Definition allowed (s : sys) (a : action) : bool :=
  match a with
  | ASend _ => negb (sending s)
  | ACancel | ADone => sending s
  | ATimer => match timer (obj s) with Some e => e <=? now s | None => false end
  | ATick d => 0 <=? d
  | ASetHandler _ | AForce => true
  end.

(** What the calls do to the surroundings. *)
Definition apply_event (s : sys) (e : event) : sys :=
  match e with
  | OutputSend p => mksys (obj s) (now s) true (since s) (passed s ++ [p]) (calls s)
  | OutputRequestCancel => s
  | InputDone => mksys (obj s) (now s) false (now s) (passed s) (calls s)
  | Handler => mksys (obj s) (now s) (sending s) (since s) (passed s) (calls s ++ [now s])
  end.

Definition handle (m : IO unit) (s : sys) : option sys :=
  '(_, o, es) ← m (obj s);
  Some (foldl apply_event (mksys o (now s) (sending s) (since s) (passed s) (calls s)) es).

Definition act (s : sys) (a : action) : option sys :=
  match a with
  | ASend p => handle (input_handler_send p) s
  | ACancel => handle input_handler_requestcancel s
  | ADone => handle (output_handler_done (now s)) s
  | ATimer => handle (timer_handler (now s)) (mksys (obj s) (now s) (sending s) (now s) (passed s) (calls s))
  | ATick d => Some (mksys (obj s) (now s + d) (sending s) (since s) (passed s) (calls s))
  | ASetHandler h => handle (PacketPassInactivityMonitor_SetHandler h) s
  | AForce => handle (PacketPassInactivityMonitor_Force (now s)) s
  end.

Definition start (interval : Z) (h : bool) (t0 : Z) : sys :=
  mksys (PacketPassInactivityMonitor_Init interval h t0) t0 false t0 [] [].

(** The states without a forced expiry. *)
Inductive reach (s0 : sys) : sys → Prop :=
| reach_start : reach s0 s0
| reach_act s a s' : reach s0 s → a ≠ AForce → allowed s a = true → act s a = Some s' → reach s0 s'.

Lemma timer_handler_eq now o :
  timer_handler now o = Some (tt, mk (interval o) (have_handler o) (Some (btime_add now (interval o))),
                              if have_handler o then [Handler] else []).
Proof. destruct o as [i [] tm]; reflexivity. Qed.

Lemma act_some s a : is_Some (act s a).
Proof. destruct a; cbn; unfold handle; rewrite ?timer_handler_eq; by eexists. Qed.

Lemma reach_timer i h t0 s :
  reach (start i h t0) s →
  interval (obj s) = i ∧ timer (obj s) = (if sending s then None else Some (btime_add (since s) i)).
Proof.
  intros Hr. induction Hr as [|s a s' _ [Hi Ht] Hf Ha Hact]; [done|].
  destruct a as [p| | | |d|h'|]; cbn in Ha, Hact; unfold handle in Hact; rewrite ?timer_handler_eq in Hact; cbn in Hact.
  - injection Hact as <-. done.
  - injection Hact as <-. done.
  - injection Hact as <-. cbn. by rewrite Hi.
  - rewrite Ht in Ha. destruct (sending s) eqn:Hs; [done|].
    destruct (have_handler (obj s)); cbn in Hact; injection Hact as <-; cbn; by rewrite Hi, ?Hs.
  - injection Hact as <-. done.
  - injection Hact as <-. done.
  - done.
Qed.
End PacketPassInactivityMonitor.

(** Unless it is forced, the timer of an inactivity monitor is due exactly
    when no packet is being sent and the interval has passed since the monitor
    was started, its output was last done or it last called its handler: so the
    handler is never called while a packet is being sent, or early, and is due
    as soon as the interval is over. *)
Theorem monitor_detects_inactivity i h t0 s :
  PacketPassInactivityMonitor.reach (PacketPassInactivityMonitor.start i h t0) s →
  (∀ a, is_Some (PacketPassInactivityMonitor.act s a)) ∧
  (PacketPassInactivityMonitor.allowed s PacketPassInactivityMonitor.ATimer = true ↔
     PacketPassInactivityMonitor.sending s = false ∧
     btime_add (PacketPassInactivityMonitor.since s) i ≤ PacketPassInactivityMonitor.now s).
Proof.
  intros Hr. split; [apply PacketPassInactivityMonitor.act_some|].
  destruct (PacketPassInactivityMonitor.reach_timer i h t0 s Hr) as [_ Ht]. cbn. rewrite Ht.
  destruct (PacketPassInactivityMonitor.sending s); [|rewrite Z.leb_le]; naive_solver.
Qed.

Section monitor_example.
Import PacketPassInactivityMonitor.

Fixpoint monitor_acts (s : sys) (l : list action) : option sys :=
  match l with
  | [] => Some s
  | a :: l => if allowed s a then s' ← act s a; monitor_acts s' l else None
  end.

(** A forced expiry while a packet is being sent calls the handler in that
    state, and again every interval until the packet is done. *)
Example monitor_forced_while_sending :
  monitor_acts (start 10 true 0) [ASend [1]; AForce; ATimer; ATick 10; ATimer] =
  Some (mksys (mk 10 true (Some 20)) 10 true 10 [[1]] [0; 10]).
Proof. reflexivity. Qed.

Lemma monitor_acts_reach s0 s l s' :
  reach s0 s → Forall (λ a, a ≠ AForce) l → monitor_acts s l = Some s' → reach s0 s'.
Proof.
  intros Hr Hf. revert s Hr. induction Hf as [|a l Ha Hf IH]; intros s Hr Hrun; cbn in Hrun; [by injection Hrun as <-|].
  destruct (allowed s a) eqn:Hal; [|done]. destruct (act s a) as [s1|] eqn:Hact; [|done]. cbn in Hrun.
  eapply IH; [|exact Hrun]. by eapply reach_act.
Qed.

Lemma monitor_detects_inactivity_witness :
  ∃ s, monitor_acts (start 10 true 0) [ASend [1]; ATick 7; ADone; ATick 10] = Some s ∧ allowed s ATimer = true.
Proof.
  eexists. split; [reflexivity|]. apply (monitor_detects_inactivity 10 true 0); [|vm_compute; split; [reflexivity|discriminate]].
  apply (monitor_acts_reach _ (start 10 true 0) [ASend [1]; ATick 7; ADone; ATick 10]); [constructor| |reflexivity].
  repeat constructor; discriminate.
Defined.
End monitor_example.
