(* ===== verification/Connection.v ===== *)
(** * Connection: streams over sockets (system/BConnection_unix.c)

    A BConnector waits for a socket to be connected; a BConnection sends and
    receives on it through a StreamPassInterface and a StreamRecvInterface
    (flow/), which are modelled here too; a BListener accepts.  The results of
    system calls and of [BReactorLimit_Increment] are arguments of the handlers;
    the calls that change something outside the object are events. *)
From S2P Require Import Prelude Bytes Reactor Addr Flow.
Import PacketPassInterface (state_t(..)).
Import BReactor (BREACTOR_READ, BREACTOR_WRITE, BREACTOR_ERROR, BREACTOR_HUP).

(** ** flow/StreamPassInterface.[ch] *)

Module StreamPassInterface.

(** [job_operation_len] is the length of the data. *)
Record t := mk {
  have_user : bool;
  job_operation : bool;
  job_operation_data : list Z;
  job_done : bool;
  job_done_len : Z;
  state : state_t
}.

Definition Init : t := mk false false [] false 0 NONE.

Definition Done `{Build} (data_len : Z) (i : t) : option t :=
  assert (bool_decide (state i = BUSY));;
  assert (0 <? data_len);;
  assert (data_len <=? zlen (job_operation_data i));;
  Some (mk (have_user i) (job_operation i) (job_operation_data i) true data_len DONE_PENDING).

Definition Sender_Init `{Build} (i : t) : option t :=
  assert (negb (have_user i));;
  Some (mk true (job_operation i) (job_operation_data i) (job_done i) (job_done_len i) (state i)).

Definition Sender_Send `{Build} (data : list Z) (i : t) : option t :=
  assert (0 <? zlen data);;
  assert (bool_decide (state i = NONE));;
  assert (have_user i);;
  Some (mk (have_user i) true data (job_done i) (job_done_len i) OPERATION_PENDING).

Definition job_operation_run `{Build} (i : t) : option (t * list Z) :=
  assert (bool_decide (state i = OPERATION_PENDING));;
  Some (mk (have_user i) false (job_operation_data i) (job_done i) (job_done_len i) BUSY, job_operation_data i).

Definition job_done_run `{Build} (i : t) : option (t * Z) :=
  assert (bool_decide (state i = DONE_PENDING));;
  Some (mk (have_user i) (job_operation i) (job_operation_data i) false (job_done_len i) NONE, job_done_len i).
End StreamPassInterface.

(** ** flow/StreamRecvInterface.[ch] *)

Module StreamRecvInterface.

(** The memory to receive to is its length; [job_done_data] is what was written
    to it, [job_done_len] bytes. *)
Record t := mk {
  have_user : bool;
  job_operation : bool;
  job_operation_len : Z;
  job_done : bool;
  job_done_data : list Z;
  state : state_t
}.

Definition Init : t := mk false false 0 false [] NONE.

Definition Done `{Build} (data : list Z) (i : t) : option t :=
  assert (bool_decide (state i = BUSY));;
  assert (0 <? zlen data);;
  assert (zlen data <=? job_operation_len i);;
  Some (mk (have_user i) (job_operation i) (job_operation_len i) true data DONE_PENDING).

Definition Receiver_Init `{Build} (i : t) : option t :=
  assert (negb (have_user i));;
  Some (mk true (job_operation i) (job_operation_len i) (job_done i) (job_done_data i) (state i)).

Definition Receiver_Recv `{Build} (data_len : Z) (i : t) : option t :=
  assert (0 <? data_len);;
  assert (bool_decide (state i = NONE));;
  assert (have_user i);;
  Some (mk (have_user i) true data_len (job_done i) (job_done_data i) OPERATION_PENDING).

Definition job_operation_run `{Build} (i : t) : option (t * Z) :=
  assert (bool_decide (state i = OPERATION_PENDING));;
  Some (mk (have_user i) false (job_operation_len i) (job_done i) (job_done_data i) BUSY, job_operation_len i).

Definition job_done_run `{Build} (i : t) : option (t * list Z) :=
  assert (bool_decide (state i = DONE_PENDING));;
  Some (mk (have_user i) (job_operation i) (job_operation_len i) false (job_done_data i) NONE, job_done_data i).
End StreamRecvInterface.

(** ** Addresses of the system *)

Inductive sys_addr := sockaddr_in (port ip : Z) | sockaddr_in6 (port flowinfo : Z) (ip : list Z) (scope_id : Z)
  | sockaddr_other.

Definition BConnection_AddressSupported (addr : BAddr) : bool :=
  (BAddr_type addr =? BADDR_TYPE_IPV4) || (BAddr_type addr =? BADDR_TYPE_IPV6).

(** [None]: [ASSERT(0)]. *)
Definition addr_socket_to_sys (addr : BAddr) : option sys_addr :=
  match addr with
  | BAddr_IPv4 ip port => Some (sockaddr_in port ip)
  | BAddr_IPv6 ip port => Some (sockaddr_in6 port 0 (take 16 ip) 0)
  | _ => None
  end.

Definition addr_sys_to_socket (addr : sys_addr) : BAddr :=
  match addr with
  | sockaddr_in port ip => BAddr_MakeIPv4 ip port
  | sockaddr_in6 port _ ip _ => BAddr_MakeIPv6 ip port
  | sockaddr_other => BAddr_MakeNone
  end.

Lemma addr_sys_roundtrip addr :
  (∀ ip port, addr = BAddr_IPv6 ip port → length ip = 16%nat) → BConnection_AddressSupported addr = true →
  ∃ sys, addr_socket_to_sys addr = Some sys ∧ addr_sys_to_socket sys = addr.
Proof.
  intros Hl Hs. destruct addr as [|ip port|ip port|]; try done; [by eexists|]. eexists. split; [done|].
  cbn. unfold BAddr_MakeIPv6. specialize (Hl ip port eq_refl). by rewrite !take_ge by (rewrite ?take_ge; lia).
Qed.

(** What the objects do to their sockets and to the reactor. *)
Inductive fd_event :=
| OpenFd (fd : Z) | CloseFd (fd : Z)
| AddFileDescriptor | RemoveFileDescriptor | SetFileDescriptorEvents (ev : Z).

(** ** BListener *)

Module BListener.

Record t := mk { fd : Z; unix_socket_path : bool; default_job : bool }.

(** The results of the calls of [BListener_Init]. *)
Record init_answer := mk_init { socket_fd : Z; nonblocking_ok : bool; bind_ok : bool; listen_ok : bool; add_fd_ok : bool }.

Definition BListener_Init (addr : BAddr) (a : init_answer) : option t * list fd_event :=
  (* check address *)
  if negb (BConnection_AddressSupported addr) then (None, []) else
  (* init fd *)
  if socket_fd a <? 0 then (None, []) else
  let fail1 := (None, [OpenFd (socket_fd a); CloseFd (socket_fd a)]) in
  if negb (nonblocking_ok a) then fail1 else
  if negb (bind_ok a) then fail1 else
  if negb (listen_ok a) then fail1 else
  if negb (add_fd_ok a) then fail1 else
  (Some (mk (socket_fd a) false false),
   [OpenFd (socket_fd a); AddFileDescriptor; SetFileDescriptorEvents BREACTOR_READ]).

(** The handler of the user is called next. *)
Definition listener_fd_handler (o : t) : t := mk (fd o) (unix_socket_path o) true.

(** The job takes the connection when the user did not. *)
Definition listener_default_job_handler (newfd : Z) (o : t) : t * list fd_event :=
  (mk (fd o) (unix_socket_path o) false, if newfd <? 0 then [] else [OpenFd newfd; CloseFd newfd]).

Definition BListener_Free (o : t) : list fd_event := [RemoveFileDescriptor; CloseFd (fd o)].
End BListener.

(** ** BConnector *)

Inductive connect_answer := ConnectOk | ConnectInProgress | ConnectError.

Module BConnector.
Section connector.
Context `{Build}.

Record t := mk { fd : Z; connected : bool; have_bfd : bool; job : bool }.

Record init_answer := mk_init { socket_fd : Z; nonblocking_ok : bool; connect : connect_answer; add_fd_ok : bool }.

Definition BConnector_Init (addr : BAddr) (a : init_answer) : option t * list fd_event :=
  (* check address *)
  if negb (BConnection_AddressSupported addr) then (None, []) else
  (* init fd *)
  if socket_fd a <? 0 then (None, []) else
  let fail2 := (None, [OpenFd (socket_fd a); CloseFd (socket_fd a)]) in
  (* set fd non-blocking *)
  if negb (nonblocking_ok a) then fail2 else
  (* connect fd *)
  match connect a with
  | ConnectError => fail2
  | ConnectInProgress =>
      (* init BFileDescriptor *)
      if negb (add_fd_ok a) then fail2
      else (Some (mk (socket_fd a) false true false),
            [OpenFd (socket_fd a); AddFileDescriptor; SetFileDescriptorEvents BREACTOR_WRITE])
  | ConnectOk =>
      (* set connected, set job *)
      (Some (mk (socket_fd a) true false true), [OpenFd (socket_fd a)])
  end.

(** [result]: what [getsockopt(SO_ERROR)] gives, if it succeeds.  The result is
    the argument of the user's handler. *)
Definition connector_fd_handler (result : option Z) (o : t) : option (bool * t * list fd_event) :=
  assert (0 <=? fd o);;
  assert (negb (connected o));;
  assert (have_bfd o);;
  let ok := match result with Some r => r =? 0 | None => false end in
  Some (negb ok, mk (fd o) ok false (job o), [RemoveFileDescriptor]).

Definition connector_job_handler (o : t) : option (bool * t * list fd_event) :=
  assert (0 <=? fd o);;
  assert (connected o);;
  assert (negb (have_bfd o));;
  Some (false, mk (fd o) (connected o) (have_bfd o) false, []).

Definition BConnector_Free (o : t) : list fd_event :=
  (if have_bfd o then [RemoveFileDescriptor] else []) ++ (if fd o =? -1 then [] else [CloseFd (fd o)]).
End connector.
End BConnector.

(** ** BConnection *)

(** The results of [write] and [read]; [EAGAIN] and [EWOULDBLOCK] apart. *)
Inductive write_answer := WOk (n : Z) | WAgain | WError.
Inductive read_answer := ROk (data : list Z) | RAgain | RError.

(** What the calls of a handler return; [limit_ok]: [BReactorLimit_Increment]. *)
Record answer := mk_answer { limit_ok : bool; on_write : write_answer; on_read : read_answer }.

Inductive send_state_t := SEND_STATE_NOT_INITED | SEND_STATE_READY | SEND_STATE_BUSY.
Inductive recv_state_t := RECV_STATE_NOT_INITED | RECV_STATE_READY | RECV_STATE_BUSY
  | RECV_STATE_INITED_CLOSED | RECV_STATE_NOT_INITED_CLOSED.

#[global] Instance send_state_eq_dec : EqDecision send_state_t.
Proof. solve_decision. Defined.
#[global] Instance recv_state_eq_dec : EqDecision recv_state_t.
Proof. solve_decision. Defined.

Module BConnection.
Section connection.
Context `{Build}.

Record t := mk {
  fd : Z;
  close_fd : bool;
  is_hupd : bool;
  wait_events : Z;
  send_if : StreamPassInterface.t;
  send_job : bool;
  send_data : list Z;                (** send.busy_data, send.busy_data_len *)
  send_state : send_state_t;
  recv_if : StreamRecvInterface.t;
  recv_job : bool;
  recv_avail : Z;                    (** recv.busy_data_avail *)
  recv_state : recv_state_t;
  d_err : bool
}.

Inductive event :=
| Fd (e : fd_event)
| Written (data : list Z) | Read (data : list Z)
| HandlerError | HandlerRecvClosed.

Abbreviation IO := (M t event).

Definition with_wait (hup : bool) (w : Z) (o : t) : t :=
  mk (fd o) (close_fd o) hup w (send_if o) (send_job o) (send_data o) (send_state o)
     (recv_if o) (recv_job o) (recv_avail o) (recv_state o) (d_err o).
Definition with_send (i : StreamPassInterface.t) (j : bool) (d : list Z) (st : send_state_t) (o : t) : t :=
  mk (fd o) (close_fd o) (is_hupd o) (wait_events o) i j d st
     (recv_if o) (recv_job o) (recv_avail o) (recv_state o) (d_err o).
Definition with_recv (i : StreamRecvInterface.t) (j : bool) (n : Z) (st : recv_state_t) (o : t) : t :=
  mk (fd o) (close_fd o) (is_hupd o) (wait_events o) (send_if o) (send_job o) (send_data o) (send_state o)
     i j n st (d_err o).
Definition with_err (o : t) : t :=
  mk (fd o) (close_fd o) (is_hupd o) (wait_events o) (send_if o) (send_job o) (send_data o) (send_state o)
     (recv_if o) (recv_job o) (recv_avail o) (recv_state o) true.

Definition bit (ev mask : Z) : bool := negb (Z.land ev mask =? 0).

Definition AssertNoError : IO unit := o ← mget; ASSERT (negb (d_err o)).

Definition connection_report_error : IO unit :=
  AssertNoError;;
  (* report error *)
  mmodify with_err;;
  emit HandlerError.

(** [o->wait_events |= mask; BReactor_SetFileDescriptorEvents(...)] *)
Definition wait_for (mask : Z) : IO unit :=
  o ← mget;
  let w := Z.lor (wait_events o) mask in
  mput (with_wait (is_hupd o) w o);;
  emit (Fd (SetFileDescriptorEvents w)).

Definition connection_send (a : answer) : IO unit :=
  AssertNoError;;
  o ← mget;
  ASSERT (bool_decide (send_state o = SEND_STATE_BUSY));;
  (* limit *)
  if negb (is_hupd o) && negb (limit_ok a) then wait_for BREACTOR_WRITE else
  (* send *)
  match on_write a with
  | WAgain => if negb (is_hupd o) then wait_for BREACTOR_WRITE else connection_report_error
  | WError => connection_report_error
  | WOk bytes =>
      emit (Written (ztake bytes (send_data o)));;
      ASSERT (0 <? bytes);;
      ASSERT (bytes <=? zlen (send_data o));;
      (* done, with the state set ready before *)
      i ← mlift (StreamPassInterface.Done bytes (send_if o));
      mput (with_send i (send_job o) (send_data o) SEND_STATE_READY o)
  end.

Definition connection_recv (a : answer) : IO unit :=
  AssertNoError;;
  o ← mget;
  ASSERT (bool_decide (recv_state o = RECV_STATE_BUSY));;
  (* limit *)
  if negb (is_hupd o) && negb (limit_ok a) then wait_for BREACTOR_READ else
  (* recv *)
  match on_read a with
  | RAgain => if negb (is_hupd o) then wait_for BREACTOR_READ else connection_report_error
  | RError => connection_report_error
  | ROk data =>
      emit (Read data);;
      if zlen data =? 0 then
        (* set recv inited closed *)
        mput (with_recv (recv_if o) (recv_job o) (recv_avail o) RECV_STATE_INITED_CLOSED o);;
        (* report recv closed *)
        emit HandlerRecvClosed
      else
        ASSERT (zlen data <=? recv_avail o);;
        (* done, with the state set not busy before *)
        i ← mlift (StreamRecvInterface.Done data (recv_if o));
        mput (with_recv i (recv_job o) (recv_avail o) RECV_STATE_READY o)
  end.

Definition error_or_hup (events : Z) : bool := bit events (Z.lor BREACTOR_ERROR BREACTOR_HUP).

Definition connection_fd_handler (events : Z) (a : answer) : IO unit :=
  AssertNoError;;
  o ← mget;
  ASSERT (negb (is_hupd o));;
  (* clear handled events *)
  let w := Z.land (wait_events o) (Z.lnot events) in
  emit (Fd (SetFileDescriptorEvents w));;
  (* if we got a HUP event, stop monitoring the file descriptor *)
  when (bit events BREACTOR_HUP) (emit (Fd RemoveFileDescriptor));;
  mput (with_wait (bit events BREACTOR_HUP) w o);;
  let have_send := bit events BREACTOR_WRITE || (error_or_hup events && bool_decide (send_state o = SEND_STATE_BUSY)) in
  when have_send (ASSERT (bool_decide (send_state o = SEND_STATE_BUSY)));;
  let have_recv := bit events BREACTOR_READ || (error_or_hup events && bool_decide (recv_state o = RECV_STATE_BUSY)) in
  when have_recv (ASSERT (bool_decide (recv_state o = RECV_STATE_BUSY)));;
  if have_send then
    when have_recv (mmodify (λ o, with_recv (recv_if o) true (recv_avail o) (recv_state o) o));;
    connection_send a
  else if have_recv then connection_recv a
  else
    o ← mget;
    if negb (is_hupd o) then connection_report_error else mret tt.

Definition connection_send_job_handler (a : answer) : IO unit :=
  AssertNoError;;
  o ← mget;
  ASSERT (bool_decide (send_state o = SEND_STATE_BUSY));;
  connection_send a.

Definition connection_recv_job_handler (a : answer) : IO unit :=
  AssertNoError;;
  o ← mget;
  ASSERT (bool_decide (recv_state o = RECV_STATE_BUSY));;
  connection_recv a.

Definition connection_send_if_handler_send (data : list Z) (a : answer) : IO unit :=
  AssertNoError;;
  o ← mget;
  ASSERT (bool_decide (send_state o = SEND_STATE_READY));;
  ASSERT (0 <? zlen data);;
  (* remember data, set busy *)
  mput (with_send (send_if o) (send_job o) data SEND_STATE_BUSY o);;
  connection_send a.

Definition connection_recv_if_handler_recv (data_avail : Z) (a : answer) : IO unit :=
  AssertNoError;;
  o ← mget;
  ASSERT (bool_decide (recv_state o = RECV_STATE_READY));;
  ASSERT (0 <? data_avail);;
  (* remember data, set busy *)
  mput (with_recv (recv_if o) (recv_job o) data_avail RECV_STATE_BUSY o);;
  connection_recv a.

(** ** Creation and destruction *)

Inductive source := SListener (l : BListener.t) | SConnector (c : BConnector.t) | SPipe (pipefd : Z).

Record init_answer := mk_init { accept_fd : Z; nonblocking_ok : bool; add_fd_ok : bool }.

Definition fresh (fd : Z) (close_fd : bool) : t :=
  mk fd close_fd false 0 StreamPassInterface.Init false [] SEND_STATE_NOT_INITED
     StreamRecvInterface.Init false 0 RECV_STATE_NOT_INITED false.

(** From the file descriptor on; fail1 closes it. *)
Definition init_fd (fd : Z) (close_fd : bool) (a : init_answer) : option t * list fd_event :=
  if negb (add_fd_ok a) then (None, if close_fd then [CloseFd fd] else [])
  else (Some (fresh fd close_fd), [AddFileDescriptor]).

(** The connection, if there is one, and the source as it is left. *)
Definition BConnection_Init (src : source) (a : init_answer) : option (option t * source * list fd_event) :=
  match src with
  | SListener l =>
      assert (BListener.default_job l);;
      (* unset listener's default job *)
      let l := BListener.mk (BListener.fd l) (BListener.unix_socket_path l) false in
      (* accept *)
      if accept_fd a <? 0 then Some (None, SListener l, [])
      else if negb (nonblocking_ok a) then Some (None, SListener l, [OpenFd (accept_fd a); CloseFd (accept_fd a)])
      else let '(r, es) := init_fd (accept_fd a) true a in Some (r, SListener l, OpenFd (accept_fd a) :: es)
  | SConnector c =>
      assert (0 <=? BConnector.fd c);;
      assert (BConnector.connected c);;
      assert (negb (BConnector.have_bfd c));;
      assert (negb (BConnector.job c));;
      (* grab fd from connector *)
      let '(r, es) := init_fd (BConnector.fd c) true a in
      Some (r, SConnector (BConnector.mk (-1) (BConnector.connected c) (BConnector.have_bfd c) (BConnector.job c)), es)
  | SPipe pipefd =>
      assert (0 <=? pipefd);;
      if negb (nonblocking_ok a) then Some (None, src, [])
      else let '(r, es) := init_fd pipefd false a in Some (r, src, es)
  end.

Definition BConnection_Free : IO unit :=
  o ← mget;
  ASSERT (bool_decide (send_state o = SEND_STATE_NOT_INITED));;
  ASSERT (bool_decide (recv_state o = RECV_STATE_NOT_INITED) || bool_decide (recv_state o = RECV_STATE_NOT_INITED_CLOSED));;
  (* free BFileDescriptor *)
  when (negb (is_hupd o)) (emit (Fd RemoveFileDescriptor));;
  (* close fd *)
  when (close_fd o) (emit (Fd (CloseFd (fd o)))).

(** The user of the interface enters itself at once. *)
Definition BConnection_SendAsync_Init : IO unit :=
  AssertNoError;;
  o ← mget;
  ASSERT (bool_decide (send_state o = SEND_STATE_NOT_INITED));;
  i ← mlift (StreamPassInterface.Sender_Init StreamPassInterface.Init);
  mput (with_send i false (send_data o) SEND_STATE_READY o).

Definition BConnection_SendAsync_Free : IO unit :=
  o ← mget;
  ASSERT (bool_decide (send_state o = SEND_STATE_READY) || bool_decide (send_state o = SEND_STATE_BUSY));;
  (* update events *)
  (if negb (is_hupd o) then
     let w := Z.land (wait_events o) (Z.lnot BREACTOR_WRITE) in
     mput (with_wait (is_hupd o) w o);;
     emit (Fd (SetFileDescriptorEvents w))
   else mret tt);;
  (* free job, free interface, set not inited *)
  mmodify (λ o, with_send StreamPassInterface.Init false (send_data o) SEND_STATE_NOT_INITED o).

Definition BConnection_RecvAsync_Init : IO unit :=
  AssertNoError;;
  o ← mget;
  ASSERT (bool_decide (recv_state o = RECV_STATE_NOT_INITED));;
  i ← mlift (StreamRecvInterface.Receiver_Init StreamRecvInterface.Init);
  mput (with_recv i false (recv_avail o) RECV_STATE_READY o).

Definition BConnection_RecvAsync_Free : IO unit :=
  o ← mget;
  ASSERT (bool_decide (recv_state o = RECV_STATE_READY) || bool_decide (recv_state o = RECV_STATE_BUSY) ||
          bool_decide (recv_state o = RECV_STATE_INITED_CLOSED));;
  (* update events *)
  (if negb (is_hupd o) then
     let w := Z.land (wait_events o) (Z.lnot BREACTOR_READ) in
     mput (with_wait (is_hupd o) w o);;
     emit (Fd (SetFileDescriptorEvents w))
   else mret tt);;
  (* free job, free interface, set not inited *)
  mmodify (λ o, with_recv StreamRecvInterface.Init false (recv_avail o) RECV_STATE_NOT_INITED o).

(** ** The connection in its surroundings

    [kernel]: the events the reactor watches the descriptor for, if it is
    registered; [wrote] and [sent]: what was written to the socket and what of it
    the sender was told of; [readd] and [got]: what was read and what of it the
    receiver was told of; each since the interface was initialised.  [failed] and
    [closed]: the handler was called with an error, with the end of the stream. *)
Record sys := mksys {
  obj : t;
  alive : bool;
  kernel : option Z;
  wrote : list Z;
  sent : list Z;
  readd : list Z;
  got : list Z;
  failed : bool;
  closed : bool
}.

Definition with_obj (o : t) (s : sys) : sys :=
  mksys o (alive s) (kernel s) (wrote s) (sent s) (readd s) (got s) (failed s) (closed s).

(** A descriptor is added when it is not registered, and its events are set and
    it is removed when it is. *)
Definition apply_event (s : sys) (e : event) : option sys :=
  match e with
  | Fd AddFileDescriptor =>
      if kernel s is Some _ then None
      else Some (mksys (obj s) (alive s) (Some 0) (wrote s) (sent s) (readd s) (got s) (failed s) (closed s))
  | Fd RemoveFileDescriptor =>
      if kernel s is Some _ then Some (mksys (obj s) (alive s) None (wrote s) (sent s) (readd s) (got s) (failed s) (closed s)) else None
  | Fd (SetFileDescriptorEvents ev) =>
      if kernel s is Some _ then Some (mksys (obj s) (alive s) (Some ev) (wrote s) (sent s) (readd s) (got s) (failed s) (closed s)) else None
  | Fd _ => Some s
  | Written d => Some (mksys (obj s) (alive s) (kernel s) (wrote s ++ d) (sent s) (readd s) (got s) (failed s) (closed s))
  | Read d => Some (mksys (obj s) (alive s) (kernel s) (wrote s) (sent s) (readd s ++ d) (got s) (failed s) (closed s))
  | HandlerError => Some (mksys (obj s) (alive s) (kernel s) (wrote s) (sent s) (readd s) (got s) true (closed s))
  | HandlerRecvClosed => Some (mksys (obj s) (alive s) (kernel s) (wrote s) (sent s) (readd s) (got s) (failed s) true)
  end.

Fixpoint apply_events (s : sys) (es : list event) : option sys :=
  match es with [] => Some s | e :: es => s ← apply_event s e; apply_events s es end.

Definition handle (m : IO unit) (s : sys) : option sys :=
  '(_, o, es) ← m (obj s);
  apply_events (with_obj o s) es.

Inductive action :=
| ASendInit | ASendFree | ARecvInit | ARecvFree | AFree
| ASend (data : list Z) | ARecv (avail : Z)          (** the users of the interfaces *)
| ASendOperation (a : answer) | ASendDone            (** the jobs of the interfaces *)
| ARecvOperation (a : answer) | ARecvDone
| ASendJob (a : answer) | ARecvJob (a : answer)      (** the jobs of the connection *)
| AFd (events : Z) (a : answer).                     (** the reactor reports events *)

Definition act (s : sys) (x : action) : option sys :=
  let o := obj s in
  match x with
  | ASendInit =>
      handle BConnection_SendAsync_Init (mksys o (alive s) (kernel s) [] [] (readd s) (got s) (failed s) (closed s))
  | ASendFree => handle BConnection_SendAsync_Free s
  | ARecvInit =>
      handle BConnection_RecvAsync_Init (mksys o (alive s) (kernel s) (wrote s) (sent s) [] [] (failed s) (closed s))
  | ARecvFree => handle BConnection_RecvAsync_Free s
  | AFree => s ← handle BConnection_Free s;
      Some (mksys (obj s) false (kernel s) (wrote s) (sent s) (readd s) (got s) (failed s) (closed s))
  | ASend data =>
      i ← StreamPassInterface.Sender_Send data (send_if o);
      Some (with_obj (with_send i (send_job o) (send_data o) (send_state o) o) s)
  | ARecv avail =>
      i ← StreamRecvInterface.Receiver_Recv avail (recv_if o);
      Some (with_obj (with_recv i (recv_job o) (recv_avail o) (recv_state o) o) s)
  | ASendOperation a =>
      '(i, data) ← StreamPassInterface.job_operation_run (send_if o);
      handle (connection_send_if_handler_send data a) (with_obj (with_send i (send_job o) (send_data o) (send_state o) o) s)
  | ASendDone =>
      '(i, n) ← StreamPassInterface.job_done_run (send_if o);
      Some (mksys (with_send i (send_job o) (send_data o) (send_state o) o) (alive s) (kernel s) (wrote s)
              (sent s ++ ztake n (StreamPassInterface.job_operation_data (send_if o))) (readd s) (got s) (failed s) (closed s))
  | ARecvOperation a =>
      '(i, n) ← StreamRecvInterface.job_operation_run (recv_if o);
      handle (connection_recv_if_handler_recv n a) (with_obj (with_recv i (recv_job o) (recv_avail o) (recv_state o) o) s)
  | ARecvDone =>
      '(i, d) ← StreamRecvInterface.job_done_run (recv_if o);
      Some (mksys (with_recv i (recv_job o) (recv_avail o) (recv_state o) o) (alive s) (kernel s) (wrote s) (sent s)
              (readd s) (got s ++ d) (failed s) (closed s))
  | ASendJob a => handle (connection_send_job_handler a) (with_obj (with_send (send_if o) false (send_data o) (send_state o) o) s)
  | ARecvJob a => handle (connection_recv_job_handler a) (with_obj (with_recv (recv_if o) false (recv_avail o) (recv_state o) o) s)
  | AFd events a => handle (connection_fd_handler events a) s
  end.

(** What the system may answer: at least one byte of what it is given, at most
    all of it.  A call for which readiness is still awaited does not succeed. *)
Definition write_ok (hup : bool) (w : Z) (data : list Z) (a : answer) : bool :=
  match on_write a with
  | WOk n => (0 <? n) && (n <=? zlen data) && (hup || negb (bit w BREACTOR_WRITE))
  | _ => true
  end.
Definition read_ok (hup : bool) (w : Z) (avail : Z) (a : answer) : bool :=
  match on_read a with
  | ROk d => (zlen d <=? avail) && (hup || negb (bit w BREACTOR_READ))
  | _ => true
  end.

(** The calls the users may make, the jobs that are set, and the events the
    reactor reports: some, and of the two that are waited for only these.  Jobs
    run before events. *)
Definition allowed (s : sys) (x : action) : bool :=
  let o := obj s in
  alive s &&
  match x with
  | ASendInit => negb (failed s) && bool_decide (send_state o = SEND_STATE_NOT_INITED)
  | ASendFree => bool_decide (send_state o ≠ SEND_STATE_NOT_INITED)
  | ARecvInit => negb (failed s) && bool_decide (recv_state o = RECV_STATE_NOT_INITED)
  | ARecvFree => bool_decide (recv_state o ≠ RECV_STATE_NOT_INITED)
  | AFree => bool_decide (send_state o = SEND_STATE_NOT_INITED) && bool_decide (recv_state o = RECV_STATE_NOT_INITED)
  | ASend d => negb (failed s) && bool_decide (send_state o ≠ SEND_STATE_NOT_INITED) &&
      bool_decide (StreamPassInterface.state (send_if o) = NONE) && (0 <? zlen d)
  | ARecv n => negb (failed s) && bool_decide (recv_state o ≠ RECV_STATE_NOT_INITED) &&
      bool_decide (StreamRecvInterface.state (recv_if o) = NONE) && (0 <? n)
  | ASendOperation a => negb (failed s) && StreamPassInterface.job_operation (send_if o) &&
      write_ok (is_hupd o) (wait_events o) (StreamPassInterface.job_operation_data (send_if o)) a
  | ASendDone => negb (failed s) && StreamPassInterface.job_done (send_if o)
  | ARecvOperation a => negb (failed s) && StreamRecvInterface.job_operation (recv_if o) &&
      read_ok (is_hupd o) (wait_events o) (StreamRecvInterface.job_operation_len (recv_if o)) a
  | ARecvDone => negb (failed s) && StreamRecvInterface.job_done (recv_if o)
  | ASendJob a => negb (failed s) && send_job o && write_ok (is_hupd o) (wait_events o) (send_data o) a
  | ARecvJob a => negb (failed s) && recv_job o && read_ok (is_hupd o) (wait_events o) (recv_avail o) a
  | AFd ev a =>
      negb (failed s) && negb (recv_job o) && (0 <? ev) && (ev <? 16) &&
      match kernel s with
      | Some w => implb (bit ev BREACTOR_READ) (bit w BREACTOR_READ) && implb (bit ev BREACTOR_WRITE) (bit w BREACTOR_WRITE)
      | None => false
      end &&
      write_ok (bit ev BREACTOR_HUP) (Z.land (wait_events o) (Z.lnot ev)) (send_data o) a &&
      read_ok (bit ev BREACTOR_HUP) (Z.land (wait_events o) (Z.lnot ev)) (recv_avail o) a
  end.

(** A new connection: its descriptor has just been added. *)
Definition start (fd : Z) (close_fd : bool) : sys := mksys (fresh fd close_fd) true (Some 0) [] [] [] [] false false.

Inductive reach (s0 : sys) : sys → Prop :=
| reach_start : reach s0 s0
| reach_act s x s' : reach s0 s → allowed s x = true → act s x = Some s' → reach s0 s'.

(** ** Running handlers on the system *)

Definition hw (m : IO unit) (s : sys) (Q : sys → Prop) : Prop := ∃ s', handle m s = Some s' ∧ Q s'.

Lemma apply_event_obj o s e : apply_event (with_obj o s) e = with_obj o <$> apply_event s e.
Proof. destruct e as [[]| | | |]; cbn; try done; by destruct (kernel s). Qed.

Lemma apply_events_obj o s es : apply_events (with_obj o s) es = with_obj o <$> apply_events s es.
Proof.
  revert s. induction es as [|e es IH]; intros s; cbn [apply_events]; [done|]. rewrite apply_event_obj.
  destruct (apply_event s e) as [s1|]; cbn [fmap option_fmap option_map mbind option_bind]; [apply IH|done].
Qed.

Lemma apply_events_app s es1 es2 : apply_events s (es1 ++ es2) = (s1 ← apply_events s es1; apply_events s1 es2).
Proof.
  revert s. induction es1 as [|e es IH]; intros s; cbn [app apply_events]; [done|].
  destruct (apply_event s e) as [s1|]; cbn [mbind option_bind]; [apply IH|done].
Qed.

Lemma with_obj_twice o o' s : with_obj o (with_obj o' s) = with_obj o s.
Proof. done. Qed.

Lemma apply_events_keep s es s' : apply_events s es = Some s' → obj s' = obj s.
Proof.
  intros Ha. pose proof (apply_events_obj (obj s) s es) as Ho. replace (with_obj (obj s) s) with s in Ho by by destruct s.
  rewrite Ha in Ho. cbn in Ho. by injection Ho as ->.
Qed.

Lemma hw_bind m k s Q : hw m s (λ s1, hw k s1 Q) → hw (m;; k) s Q.
Proof.
  intros (s1 & Hm & s' & Hk & HQ). exists s'. split; [|done]. unfold handle in *. unfold mbind at 2, M_bind.
  destruct (m (obj s)) as [[[[] o] es]|]; [|done]. cbn [mbind option_bind] in Hm.
  assert (obj s1 = o) as Ho by (apply apply_events_keep in Hm; done). rewrite Ho in Hk.
  destruct (k o) as [[[[] o2] es2]|]; [|done]. cbn [mbind option_bind] in *.
  rewrite apply_events_app, <- (with_obj_twice o2 o), (apply_events_obj o2), Hm. done.
Qed.

Lemma hw_get (f : t → IO unit) s Q : hw (f (obj s)) s Q → hw (mget ≫= f) s Q.
Proof.
  intros (s' & Hf & HQ). exists s'. split; [|done]. unfold handle in *. unfold mbind at 2, M_bind, mget.
  by destruct (f (obj s) (obj s)) as [[[[] o] es]|].
Qed.

Lemma hw_lift {A} (x : option A) a (f : A → IO unit) s Q : x = Some a → hw (f a) s Q → hw (mlift x ≫= f) s Q.
Proof.
  intros -> (s' & Hf & HQ). exists s'. split; [|done]. unfold handle in *. unfold mbind at 2, M_bind, mlift.
  by destruct (f a (obj s)) as [[[[] o] es]|].
Qed.

Lemma hw_ret s (Q : sys → Prop) : Q s → hw (mret tt) s Q.
Proof. intros HQ. exists s. split; [by destruct s|done]. Qed.
Lemma hw_put o s (Q : sys → Prop) : Q (with_obj o s) → hw (mput o) s Q.
Proof. intros HQ. by exists (with_obj o s). Qed.
Lemma hw_modify f s (Q : sys → Prop) : Q (with_obj (f (obj s)) s) → hw (mmodify f) s Q.
Proof. intros HQ. by exists (with_obj (f (obj s)) s). Qed.
Lemma hw_emit e s s' (Q : sys → Prop) : apply_event s e = Some s' → Q s' → hw (emit e) s Q.
Proof.
  intros He HQ. exists s'. split; [|done]. unfold handle, emit. cbn [mbind option_bind apply_events].
  replace (with_obj (obj s) s) with s by by destruct s. by rewrite He.
Qed.
Lemma hw_assert b s (Q : sys → Prop) : b = true → Q s → hw (ASSERT b) s Q.
Proof. intros -> HQ. exists s. split; [|done]. unfold handle, ASSERT. rewrite orb_true_r. by destruct s. Qed.
Lemma hw_when (b : bool) m s Q : (b = true → hw m s Q) → (b = false → Q s) → hw (when b m) s Q.
Proof. destruct b; intros H1 H2; [by apply H1|by apply hw_ret, H2]. Qed.
Lemma hw_mono m s (Q Q' : sys → Prop) : hw m s Q → (∀ s', Q s' → Q' s') → hw m s Q'.
Proof. intros (s' & ? & ?) HQ. exists s'. auto. Qed.

(** ** The invariant *)

(** A job of an interface is set exactly in its state; [pending]: what was sent
    or received and not yet told. *)
Definition send_side (o : t) (wrote sent : list Z) : Prop :=
  let i := send_if o in
  match send_state o with
  | SEND_STATE_NOT_INITED => i = StreamPassInterface.Init
  | SEND_STATE_READY =>
      StreamPassInterface.have_user i = true ∧
      StreamPassInterface.job_operation i = bool_decide (StreamPassInterface.state i = OPERATION_PENDING) ∧
      StreamPassInterface.job_done i = bool_decide (StreamPassInterface.state i = DONE_PENDING) ∧
      match StreamPassInterface.state i with
      | NONE => wrote = sent
      | OPERATION_PENDING => 0 < zlen (StreamPassInterface.job_operation_data i) ∧ wrote = sent
      | BUSY => False
      | DONE_PENDING => wrote = sent ++ ztake (StreamPassInterface.job_done_len i) (StreamPassInterface.job_operation_data i)
      end
  | SEND_STATE_BUSY =>
      StreamPassInterface.have_user i = true ∧ StreamPassInterface.job_operation i = false ∧
      StreamPassInterface.job_done i = false ∧ StreamPassInterface.state i = BUSY ∧
      send_data o = StreamPassInterface.job_operation_data i ∧ 0 < zlen (send_data o) ∧ wrote = sent
  end.

Definition recv_side (o : t) (readd got : list Z) : Prop :=
  let i := recv_if o in
  match recv_state o with
  | RECV_STATE_NOT_INITED => i = StreamRecvInterface.Init
  | RECV_STATE_READY =>
      StreamRecvInterface.have_user i = true ∧
      StreamRecvInterface.job_operation i = bool_decide (StreamRecvInterface.state i = OPERATION_PENDING) ∧
      StreamRecvInterface.job_done i = bool_decide (StreamRecvInterface.state i = DONE_PENDING) ∧
      match StreamRecvInterface.state i with
      | NONE => readd = got
      | OPERATION_PENDING => 0 < StreamRecvInterface.job_operation_len i ∧ readd = got
      | BUSY => False
      | DONE_PENDING => readd = got ++ StreamRecvInterface.job_done_data i
      end
  | RECV_STATE_BUSY | RECV_STATE_INITED_CLOSED =>
      StreamRecvInterface.have_user i = true ∧ StreamRecvInterface.job_operation i = false ∧
      StreamRecvInterface.job_done i = false ∧ StreamRecvInterface.state i = BUSY ∧
      recv_avail o = StreamRecvInterface.job_operation_len i ∧ 0 < recv_avail o ∧ readd = got
  | RECV_STATE_NOT_INITED_CLOSED => False
  end.

(** With [sb] or [rb], the sending or the receiving is being attended to. *)
Record inv_but (sb rb : bool) (s : sys) : Prop := {
  i_alive : alive s = true;
  i_kernel : kernel s = if is_hupd (obj s) then None else Some (wait_events (obj s));
  i_wait : wait_events (obj s) = 0 ∨ wait_events (obj s) = 1 ∨ wait_events (obj s) = 2 ∨ wait_events (obj s) = 3;
  i_write : is_hupd (obj s) = false → bit (wait_events (obj s)) BREACTOR_WRITE = true → send_state (obj s) = SEND_STATE_BUSY;
  i_read : is_hupd (obj s) = false → bit (wait_events (obj s)) BREACTOR_READ = true → recv_state (obj s) = RECV_STATE_BUSY;
  i_send_job : send_job (obj s) = false;
  i_recv_job : recv_job (obj s) = true → recv_state (obj s) = RECV_STATE_BUSY;
  i_send : send_side (obj s) (wrote s) (sent s);
  i_recv : recv_side (obj s) (readd s) (got s);
  i_err : d_err (obj s) = failed s;
  i_sending : sb = false → failed s = false → send_state (obj s) = SEND_STATE_BUSY →
    is_hupd (obj s) = false ∧ bit (wait_events (obj s)) BREACTOR_WRITE = true;
  i_receiving : rb = false → failed s = false → recv_state (obj s) = RECV_STATE_BUSY →
    recv_job (obj s) = true ∨ is_hupd (obj s) = false ∧ bit (wait_events (obj s)) BREACTOR_READ = true
}.
Abbreviation inv := (inv_but false false).

(** ** The handlers keep it *)

Lemma no_error_ok s m Q sb rb : inv_but sb rb s → failed s = false → hw m s Q → hw (AssertNoError;; m) s Q.
Proof.
  intros Hi Hf Hm. apply hw_bind. unfold AssertNoError. apply hw_get, hw_assert; [by rewrite (i_err _ _ _ Hi), Hf|done].
Qed.

Lemma report_error_ok sb rb s : inv_but sb rb s → failed s = false → hw connection_report_error s inv.
Proof.
  intros Hi Hf. unfold connection_report_error. eapply no_error_ok; [done|done|]. apply hw_bind, hw_modify.
  eapply hw_emit; [done|]. destruct Hi. split; cbn; try done.
Qed.

Lemma wait_bits w : w = 0 ∨ w = 1 ∨ w = 2 ∨ w = 3 →
  (Z.lor w BREACTOR_WRITE = 0 ∨ Z.lor w BREACTOR_WRITE = 1 ∨ Z.lor w BREACTOR_WRITE = 2 ∨ Z.lor w BREACTOR_WRITE = 3) ∧
  (Z.lor w BREACTOR_READ = 0 ∨ Z.lor w BREACTOR_READ = 1 ∨ Z.lor w BREACTOR_READ = 2 ∨ Z.lor w BREACTOR_READ = 3) ∧
  bit (Z.lor w BREACTOR_WRITE) BREACTOR_WRITE = true ∧ bit (Z.lor w BREACTOR_WRITE) BREACTOR_READ = bit w BREACTOR_READ ∧
  bit (Z.lor w BREACTOR_READ) BREACTOR_READ = true ∧ bit (Z.lor w BREACTOR_READ) BREACTOR_WRITE = bit w BREACTOR_WRITE.
Proof. intros [->|[->|[->| ->]]]; vm_compute; intuition discriminate. Qed.

Lemma wait_write_ok rb s :
  inv_but true rb s → send_state (obj s) = SEND_STATE_BUSY → is_hupd (obj s) = false →
  hw (wait_for BREACTOR_WRITE) s (inv_but false rb).
Proof.
  intros Hi Hb Hh. pose proof Hi as []. unfold wait_for. apply hw_get, hw_bind, hw_put.
  destruct (wait_bits _ i_wait0) as (Hw & _ & Hw1 & Hw2 & _).
  eapply hw_emit; [cbn; by rewrite i_kernel0, Hh|]. split; cbn; rewrite ?Hh, ?Hw2; auto.
  intros Hrb Hf Hr. destruct (i_receiving0 Hrb Hf Hr) as [?|[? ?]]; [by left|by right].
Qed.

Lemma wait_read_ok sb s :
  inv_but sb true s → recv_state (obj s) = RECV_STATE_BUSY → is_hupd (obj s) = false →
  hw (wait_for BREACTOR_READ) s (inv_but sb false).
Proof.
  intros Hi Hb Hh. pose proof Hi as []. unfold wait_for. apply hw_get, hw_bind, hw_put.
  destruct (wait_bits _ i_wait0) as (_ & Hw & _ & _ & Hw1 & Hw2).
  eapply hw_emit; [cbn; by rewrite i_kernel0, Hh|]. split; cbn; rewrite ?Hh, ?Hw2; auto.
  intros Hsb Hf Hr. by destruct (i_sending0 Hsb Hf Hr) as [? ?].
Qed.

Lemma conn_send_ok s a :
  inv_but true false s → failed s = false → send_state (obj s) = SEND_STATE_BUSY →
  write_ok (is_hupd (obj s)) (wait_events (obj s)) (send_data (obj s)) a = true →
  hw (connection_send a) s inv.
Proof.
  intros Hi Hf Hb Ha. unfold connection_send. eapply no_error_ok; [done|done|]. apply hw_get, hw_bind, hw_assert; [by rewrite Hb|].
  destruct (negb (is_hupd (obj s)) && negb (limit_ok a)) eqn:Hl.
  { apply andb_true_iff in Hl as [Hh _]. apply negb_true_iff in Hh. by apply wait_write_ok. }
  unfold write_ok in Ha. destruct (on_write a) as [n| |].
  - apply andb_true_iff in Ha as [[Hn1%Z.ltb_lt Hn2%Z.leb_le]%andb_true_iff Hq]. pose proof Hi as []. unfold send_side in i_send0. rewrite Hb in i_send0.
    destruct i_send0 as (Hu & Hjo & Hjd & Hst & Hdata & Hz & Hws).
    apply hw_bind. eapply hw_emit; [done|]. apply hw_bind, hw_assert; [apply Z.ltb_lt; lia|].
    apply hw_bind, hw_assert; [apply Z.leb_le; lia|].
    eapply hw_lift; [unfold StreamPassInterface.Done; rewrite !assert_true; [done|..];
      [by rewrite bool_decide_true|apply Z.ltb_lt; lia|apply Z.leb_le; rewrite <- Hdata; lia]|].
    apply hw_put. split; cbn; try done.
    + intros Hh Hw. by rewrite Hh, Hw in Hq.
    + unfold send_side. cbn. rewrite Hjo, Hu, Hws, <- Hdata. done.
  - destruct (is_hupd (obj s)) eqn:Hh; cbn [negb]; [by eapply report_error_ok|by apply wait_write_ok].
  - by eapply report_error_ok.
Qed.

Lemma recv_ok s a :
  inv_but false true s → failed s = false → recv_state (obj s) = RECV_STATE_BUSY → recv_job (obj s) = false →
  read_ok (is_hupd (obj s)) (wait_events (obj s)) (recv_avail (obj s)) a = true →
  hw (connection_recv a) s inv.
Proof.
  intros Hi Hf Hb Hj Ha. unfold connection_recv. eapply no_error_ok; [done|done|]. apply hw_get, hw_bind, hw_assert; [by rewrite Hb|].
  destruct (negb (is_hupd (obj s)) && negb (limit_ok a)) eqn:Hl.
  { apply andb_true_iff in Hl as [Hh _]. apply negb_true_iff in Hh. by apply wait_read_ok. }
  unfold read_ok in Ha. destruct (on_read a) as [d| |].
  - apply andb_true_iff in Ha as [Hn%Z.leb_le Hq]. pose proof Hi as []. unfold recv_side in i_recv0. rewrite Hb in i_recv0.
    destruct i_recv0 as (Hu & Hjo & Hjd & Hst & Hav & Hz & Hws).
    apply hw_bind. eapply hw_emit; [done|]. destruct (Z.eqb_spec (zlen d) 0) as [Hd|Hd].
    + apply hw_bind, hw_put. eapply hw_emit; [done|]. destruct d; [|done]. split; cbn; rewrite ?Hj; try done.
      * intros Hh Hw. by rewrite Hh, Hw in Hq.
      * unfold recv_side. cbn. by rewrite app_nil_r.
    + apply hw_bind, hw_assert; [apply Z.leb_le; lia|].
      eapply hw_lift; [unfold StreamRecvInterface.Done; rewrite !assert_true; [done|..];
        [by rewrite bool_decide_true|apply Z.ltb_lt; lia|apply Z.leb_le; rewrite <- Hav; lia]|].
      apply hw_put. split; cbn; rewrite ?Hj; try done.
      * intros Hh Hw. by rewrite Hh, Hw in Hq.
      * unfold recv_side. cbn. rewrite Hjo, Hu, Hws. done.
  - destruct (is_hupd (obj s)) eqn:Hh; cbn [negb]; [by eapply report_error_ok|by apply wait_read_ok].
  - by eapply report_error_ok.
Qed.

Lemma clear_bits w ev : w = 0 ∨ w = 1 ∨ w = 2 ∨ w = 3 → 0 < ev < 16 →
  let w' := Z.land w (Z.lnot ev) in
  (w' = 0 ∨ w' = 1 ∨ w' = 2 ∨ w' = 3) ∧
  bit w' BREACTOR_WRITE = bit w BREACTOR_WRITE && negb (bit ev BREACTOR_WRITE) ∧
  bit w' BREACTOR_READ = bit w BREACTOR_READ && negb (bit ev BREACTOR_READ) ∧
  (bit ev BREACTOR_HUP = true → error_or_hup ev = true).
Proof.
  intros Hw Hev. assert (ev = 1 ∨ ev = 2 ∨ ev = 3 ∨ ev = 4 ∨ ev = 5 ∨ ev = 6 ∨ ev = 7 ∨ ev = 8 ∨ ev = 9 ∨ ev = 10 ∨ ev = 11 ∨
    ev = 12 ∨ ev = 13 ∨ ev = 14 ∨ ev = 15) as He by lia.
  destruct Hw as [->|[->|[->| ->]]]; repeat (destruct He as [->|He]; [vm_compute; intuition discriminate|]);
    subst ev; vm_compute; intuition discriminate.
Qed.

Lemma fd_handler_ok s ev a : inv s → allowed s (AFd ev a) = true → hw (connection_fd_handler ev a) s inv.
Proof.
  intros Hi Ha. unfold allowed in Ha. cbn zeta in Ha. apply andb_true_iff in Ha as [_ Ha].
  repeat (apply andb_true_iff in Ha as [Ha ?]). rename H0 into Hrd, H1 into Hwr, H2 into Hk, H3 into He2, H4 into He1, H5 into Hj, Ha into Hf.
  apply negb_true_iff in Hf, Hj. pose proof Hi as [Hal Hker Hwait Hwb Hrb Hsj Hrj Hs Hr Herr Hsend Hrecv].
  destruct (is_hupd (obj s)) eqn:Hh; [by rewrite Hker in Hk|]. rewrite Hker in Hk. apply andb_true_iff in Hk as [Hk1 Hk2].
  destruct (clear_bits _ ev Hwait) as (Hw' & Hbw & Hbr & Hhup); [by bool_props|].
  set (w' := Z.land (wait_events (obj s)) (Z.lnot ev)) in *.
  unfold connection_fd_handler. eapply no_error_ok; [done|done|]. apply hw_get, hw_bind, hw_assert; [by rewrite Hh|].
  apply hw_bind. eapply hw_emit; [cbn; rewrite Hker; reflexivity|]. fold w'.
  set (s1 := mksys (obj s) (alive s) (Some w') (wrote s) (sent s) (readd s) (got s) (failed s) (closed s)).
  set (s2 := mksys (with_wait (bit ev BREACTOR_HUP) w' (obj s)) (alive s) (if bit ev BREACTOR_HUP then None else Some w')
               (wrote s) (sent s) (readd s) (got s) (failed s) (closed s)).
  assert (∀ k, hw k s2 inv → hw (when (bit ev BREACTOR_HUP) (emit (Fd RemoveFileDescriptor));;
    mput (with_wait (bit ev BREACTOR_HUP) w' (obj s));; k) s1 inv) as Hstep.
  { intros k Hk. apply hw_bind. subst s2. apply hw_when; intros Hhb; rewrite Hhb in Hk.
    - eapply hw_emit; [reflexivity|]. apply hw_bind, hw_put. rewrite Hhb. exact Hk.
    - apply hw_bind, hw_put. rewrite Hhb. exact Hk. }
  apply Hstep. clear Hstep s1.
  assert (inv_but true true s2) as Hi2.
  { split; cbn; try done.
    - intros _. rewrite Hbw. intros [Hx _]%andb_true_iff. by apply Hwb.
    - intros _. rewrite Hbr. intros [Hx _]%andb_true_iff. by apply Hrb. }
  set (have_send := bit ev BREACTOR_WRITE || _). set (have_recv := bit ev BREACTOR_READ || _).
  assert (have_send = true → send_state (obj s) = SEND_STATE_BUSY) as Hhs.
  { intros [Hx|[_ Hx]%andb_true_iff]%orb_true_iff; [|by apply bool_decide_eq_true in Hx]. rewrite Hx in Hk2. by apply Hwb. }
  assert (have_recv = true → recv_state (obj s) = RECV_STATE_BUSY) as Hhr.
  { intros [Hx|[_ Hx]%andb_true_iff]%orb_true_iff; [|by apply bool_decide_eq_true in Hx]. rewrite Hx in Hk1. by apply Hrb. }
  assert (have_send = false → send_state (obj s) = SEND_STATE_BUSY → bit ev BREACTOR_HUP = false ∧ bit w' BREACTOR_WRITE = true) as Hns.
  { intros [Hx Hy]%orb_false_iff Hb. rewrite Hb, bool_decide_true, andb_true_r in Hy by done.
    split; [destruct (bit ev BREACTOR_HUP); [by rewrite Hhup in Hy|done]|]. rewrite Hbw, Hx, andb_true_r. by apply Hsend. }
  assert (have_recv = false → recv_state (obj s) = RECV_STATE_BUSY → bit ev BREACTOR_HUP = false ∧ bit w' BREACTOR_READ = true) as Hnr.
  { intros [Hx Hy]%orb_false_iff Hb. rewrite Hb, bool_decide_true, andb_true_r in Hy by done.
    split; [destruct (bit ev BREACTOR_HUP); [by rewrite Hhup in Hy|done]|]. rewrite Hbr, Hx, andb_true_r.
    destruct (Hrecv eq_refl Hf Hb) as [Hx'|[_ ?]]; [congruence|done]. }
  assert (∀ (b c : bool) k, (b = true → c = true) → hw k s2 inv → hw (when b (ASSERT c);; k) s2 inv) as Has.
  { intros b c k Hbc Hk. apply hw_bind, hw_when; intros Hb; [apply hw_assert; auto|done]. }
  apply Has; [intros Hx; by rewrite (Hhs Hx)|]. apply Has; [intros Hx; by rewrite (Hhr Hx)|].
  destruct have_send eqn:Hes.
  - set (s3 := with_obj (with_recv (recv_if (obj s2)) have_recv (recv_avail (obj s2)) (recv_state (obj s2)) (obj s2)) s2).
    assert (hw (connection_send a) s3 inv) as Hgo.
    { apply conn_send_ok; [|done|by apply Hhs|done]. destruct Hi2. split; cbn in *; try done. intros _ _ Hb.
      destruct have_recv eqn:Her; [by left|right]. by apply Hnr. }
    apply hw_bind, hw_when; intros Hx; [apply hw_modify; subst s3; rewrite Hx in Hgo; exact Hgo|].
    subst s3. rewrite Hx in Hgo. replace (with_obj _ s2) with s2 in Hgo; [exact Hgo|].
    subst s2. unfold with_obj, with_recv, with_wait. cbn. by rewrite Hj.
  - destruct have_recv eqn:Her.
    + apply recv_ok; [|done|by apply Hhr|done|done]. destruct Hi2. split; cbn in *; try done. intros _ _ Hb. by apply Hns.
    + apply hw_get. cbn [is_hupd with_wait obj s2]. destruct (bit ev BREACTOR_HUP) eqn:Hhb; cbn [negb].
      * apply hw_ret. destruct Hi2. split; cbn in *; try done; [intros _ _ Hb; by destruct (Hns eq_refl Hb)|].
        intros _ _ Hb. by destruct (Hnr eq_refl Hb).
      * by eapply report_error_ok.
Qed.

Lemma free_bits w : w = 0 ∨ w = 1 ∨ w = 2 ∨ w = 3 →
  let w1 := Z.land w (Z.lnot BREACTOR_WRITE) in let w2 := Z.land w (Z.lnot BREACTOR_READ) in
  (w1 = 0 ∨ w1 = 1 ∨ w1 = 2 ∨ w1 = 3) ∧ (w2 = 0 ∨ w2 = 1 ∨ w2 = 2 ∨ w2 = 3) ∧
  bit w1 BREACTOR_WRITE = false ∧ bit w1 BREACTOR_READ = bit w BREACTOR_READ ∧
  bit w2 BREACTOR_READ = false ∧ bit w2 BREACTOR_WRITE = bit w BREACTOR_WRITE.
Proof. intros [->|[->|[->| ->]]]; vm_compute; intuition discriminate. Qed.

Lemma send_init_ok s : inv s → allowed s ASendInit = true → ∃ s', act s ASendInit = Some s' ∧ inv s'.
Proof.
  intros Hi Ha. unfold allowed in Ha. apply andb_true_iff in Ha as [_ [Hf Hst]%andb_true_iff].
  apply negb_true_iff in Hf. apply bool_decide_eq_true in Hst. pose proof Hi as [].
  cbn [act]. set (s1 := mksys _ _ _ _ _ _ _ _ _).
  assert (hw BConnection_SendAsync_Init s1 inv) as (s' & Hs' & ?); [|by exists s'].
  unfold BConnection_SendAsync_Init. eapply no_error_ok; [|done|].
  { instantiate (2 := false). instantiate (1 := false). split; cbn; try done. unfold send_side in *. by rewrite Hst in *. }
  apply hw_get, hw_bind, hw_assert; [cbn; by rewrite Hst|].
  eapply hw_lift; [unfold StreamPassInterface.Sender_Init; by rewrite assert_true|]. apply hw_put.
  split; cbn; try done. intros Hh Hw. specialize (i_write0 Hh Hw). congruence.
Qed.

Lemma recv_init_ok s : inv s → allowed s ARecvInit = true → ∃ s', act s ARecvInit = Some s' ∧ inv s'.
Proof.
  intros Hi Ha. unfold allowed in Ha. apply andb_true_iff in Ha as [_ [Hf Hst]%andb_true_iff].
  apply negb_true_iff in Hf. apply bool_decide_eq_true in Hst. pose proof Hi as [].
  cbn [act]. set (s1 := mksys _ _ _ _ _ _ _ _ _).
  assert (hw BConnection_RecvAsync_Init s1 inv) as (s' & Hs' & ?); [|by exists s'].
  unfold BConnection_RecvAsync_Init. eapply no_error_ok; [|done|].
  { instantiate (2 := false). instantiate (1 := false). split; cbn; try done. unfold recv_side in *. by rewrite Hst in *. }
  apply hw_get, hw_bind, hw_assert; [cbn; by rewrite Hst|].
  eapply hw_lift; [unfold StreamRecvInterface.Receiver_Init; by rewrite assert_true|]. apply hw_put.
  split; cbn; try done. intros Hh Hw. specialize (i_read0 Hh Hw). congruence.
Qed.

Lemma send_free_ok s : inv s → allowed s ASendFree = true → ∃ s', act s ASendFree = Some s' ∧ inv s'.
Proof.
  intros Hi Ha. unfold allowed in Ha. apply andb_true_iff in Ha as [_ Hst%bool_decide_eq_true]. pose proof Hi as [].
  cbn [act]. enough (hw BConnection_SendAsync_Free s inv) as (s' & Hs' & ?) by by exists s'.
  unfold BConnection_SendAsync_Free. apply hw_get, hw_bind, hw_assert; [by destruct (send_state (obj s))|].
  destruct (free_bits _ i_wait0) as (Hw1 & _ & Hb1 & Hb2 & _). apply hw_bind. destruct (is_hupd (obj s)) eqn:Hh; cbn [negb].
  - apply hw_ret, hw_modify. split; cbn; rewrite ?Hh; try done.
  - apply hw_bind, hw_put. eapply hw_emit; [cbn; by rewrite i_kernel0|]. apply hw_modify.
    split; cbn; rewrite ?Hb1, ?Hb2, ?Hh; try done.
Qed.

Lemma recv_free_ok s : inv s → allowed s ARecvFree = true → ∃ s', act s ARecvFree = Some s' ∧ inv s'.
Proof.
  intros Hi Ha. unfold allowed in Ha. apply andb_true_iff in Ha as [_ Hst%bool_decide_eq_true]. pose proof Hi as [].
  cbn [act]. enough (hw BConnection_RecvAsync_Free s inv) as (s' & Hs' & ?) by by exists s'.
  unfold BConnection_RecvAsync_Free. apply hw_get, hw_bind, hw_assert.
  { unfold recv_side in i_recv0. by destruct (recv_state (obj s)). }
  destruct (free_bits _ i_wait0) as (_ & Hw2 & _ & _ & Hb1 & Hb2). apply hw_bind. destruct (is_hupd (obj s)) eqn:Hh; cbn [negb].
  - apply hw_ret, hw_modify. split; cbn; rewrite ?Hh; try done.
  - apply hw_bind, hw_put. eapply hw_emit; [cbn; by rewrite i_kernel0|]. apply hw_modify.
    split; cbn; rewrite ?Hb1, ?Hb2, ?Hh; try done.
Qed.

Lemma conn_free_ok s : inv s → allowed s AFree = true → ∃ s', act s AFree = Some s' ∧ alive s' = false ∧ kernel s' = None.
Proof.
  intros Hi Ha. unfold allowed in Ha. apply andb_true_iff in Ha as [_ [Hs%bool_decide_eq_true Hr%bool_decide_eq_true]%andb_true_iff].
  pose proof Hi as []. cbn [act].
  assert (hw BConnection_Free s (λ s', kernel s' = None)) as (s1 & -> & Hk); [|by eexists].
  unfold BConnection_Free. apply hw_get, hw_bind, hw_assert; [by rewrite Hs|]. apply hw_bind, hw_assert; [by rewrite Hr|].
  apply hw_bind. destruct (is_hupd (obj s)) eqn:Hh; cbn [negb when].
  - apply hw_ret, hw_when; intros _; [by eapply hw_emit|done].
  - eapply hw_emit; [cbn; by rewrite i_kernel0|]. apply hw_when; intros _; [by eapply hw_emit|done].
Qed.

Lemma user_send_ok s d : inv s → allowed s (ASend d) = true → ∃ s', act s (ASend d) = Some s' ∧ inv s'.
Proof.
  intros Hi Ha. unfold allowed in Ha.
  apply andb_true_iff in Ha as [_ [[[Hf Hin%bool_decide_eq_true]%andb_true_iff Hst%bool_decide_eq_true]%andb_true_iff Hd%Z.ltb_lt]%andb_true_iff].
  pose proof Hi as []. cbn [act]. unfold send_side in i_send0. destruct (send_state (obj s)) eqn:Hs; [done| |].
  - rewrite Hst in i_send0. destruct i_send0 as (Hu & Ho & Hdn & Hw).
    unfold StreamPassInterface.Sender_Send. rewrite !assert_true; [|by apply Z.ltb_lt|by rewrite bool_decide_true|done]. cbn [mbind option_bind].
    eexists. split; [done|]. split; cbn; rewrite ?Hs; try done; unfold send_side; cbn; rewrite ?Hs; cbn; by rewrite Hdn, Hu.
  - destruct i_send0 as (_ & _ & _ & Hb & _). congruence.
Qed.

Lemma user_recv_ok s n : inv s → allowed s (ARecv n) = true → ∃ s', act s (ARecv n) = Some s' ∧ inv s'.
Proof.
  intros Hi Ha. unfold allowed in Ha.
  apply andb_true_iff in Ha as [_ [[[Hf Hin%bool_decide_eq_true]%andb_true_iff Hst%bool_decide_eq_true]%andb_true_iff Hd%Z.ltb_lt]%andb_true_iff].
  pose proof Hi as []. cbn [act]. unfold recv_side in i_recv0. destruct (recv_state (obj s)) eqn:Hs; try done.
  - rewrite Hst in i_recv0. destruct i_recv0 as (Hu & Ho & Hdn & Hw).
    unfold StreamRecvInterface.Receiver_Recv. rewrite !assert_true; [|by apply Z.ltb_lt|by rewrite bool_decide_true|done]. cbn [mbind option_bind].
    eexists. split; [done|]. split; cbn; rewrite ?Hs; try done; unfold recv_side; cbn; rewrite ?Hs; cbn; by rewrite Hdn, Hu.
  - destruct i_recv0 as (_ & _ & _ & Hb & _). congruence.
  - destruct i_recv0 as (_ & _ & _ & Hb & _). congruence.
Qed.

(** The job of the operation is set: the state of the connection and its interface. *)
Lemma send_pending s :
  inv s → StreamPassInterface.job_operation (send_if (obj s)) = true →
  send_state (obj s) = SEND_STATE_READY ∧ StreamPassInterface.state (send_if (obj s)) = OPERATION_PENDING.
Proof.
  intros [] Hj. unfold send_side in i_send0. destruct (send_state (obj s)); [by rewrite i_send0 in Hj| |].
  - destruct i_send0 as (_ & Ho & _). rewrite Hj in Ho. symmetry in Ho. by apply bool_decide_eq_true in Ho.
  - destruct i_send0 as (_ & Ho & _). congruence.
Qed.

Lemma recv_pending s :
  inv s → StreamRecvInterface.job_operation (recv_if (obj s)) = true →
  recv_state (obj s) = RECV_STATE_READY ∧ StreamRecvInterface.state (recv_if (obj s)) = OPERATION_PENDING.
Proof.
  intros [] Hj. unfold recv_side in i_recv0.
  destruct (recv_state (obj s)); [by rewrite i_recv0 in Hj| |destruct i_recv0 as (_ & Ho & _); congruence..|done].
  destruct i_recv0 as (_ & Ho & _). rewrite Hj in Ho. symmetry in Ho. by apply bool_decide_eq_true in Ho.
Qed.

Lemma send_operation_ok s a :
  inv s → allowed s (ASendOperation a) = true →
  ∃ s', act s (ASendOperation a) = Some s' ∧ inv s'.
Proof.
  intros Hi Ha. unfold allowed in Ha.
  apply andb_true_iff in Ha as [_ [[Hf%negb_true_iff Hj]%andb_true_iff Hw]%andb_true_iff].
  destruct (send_pending s Hi Hj) as [Hs Hst]. pose proof Hi as []. cbn [act].
  unfold StreamPassInterface.job_operation_run. rewrite assert_true by by rewrite bool_decide_true. cbn [mbind option_bind].
  set (data := StreamPassInterface.job_operation_data (send_if (obj s))) in *. set (s1 := with_obj _ s).
  enough (hw (connection_send_if_handler_send data a) s1 inv) as (s' & Hs' & ?) by by exists s'.
  unfold send_side in i_send0. rewrite Hs, Hst in i_send0. destruct i_send0 as (Hu & Ho & Hd & Hz & Hws).
  unfold connection_send_if_handler_send. apply hw_bind. unfold AssertNoError.
  apply hw_get, hw_assert; [cbn; by rewrite i_err0, Hf|].
  apply hw_get, hw_bind, hw_assert; [cbn; by rewrite Hs|]. apply hw_bind, hw_assert; [by apply Z.ltb_lt|].
  apply hw_bind, hw_put. apply conn_send_ok; [|done|done|exact Hw].
  split; cbn; try done; unfold send_side; cbn; by rewrite Hd, Hst, Hu.
Qed.

Lemma recv_operation_ok s a :
  inv s → allowed s (ARecvOperation a) = true →
  ∃ s', act s (ARecvOperation a) = Some s' ∧ inv s'.
Proof.
  intros Hi Ha. unfold allowed in Ha.
  apply andb_true_iff in Ha as [_ [[Hf%negb_true_iff Hj]%andb_true_iff Hw]%andb_true_iff].
  destruct (recv_pending s Hi Hj) as [Hs Hst]. pose proof Hi as []. cbn [act].
  unfold StreamRecvInterface.job_operation_run. rewrite assert_true by by rewrite bool_decide_true. cbn [mbind option_bind].
  set (n := StreamRecvInterface.job_operation_len (recv_if (obj s))) in *. set (s1 := with_obj _ s).
  enough (hw (connection_recv_if_handler_recv n a) s1 inv) as (s' & Hs' & ?) by by exists s'.
  unfold recv_side in i_recv0. rewrite Hs, Hst in i_recv0. destruct i_recv0 as (Hu & Ho & Hd & Hz & Hws).
  assert (recv_job (obj s) = false) as Hrj by (destruct (recv_job (obj s)); [specialize (i_recv_job0 eq_refl); congruence|done]).
  unfold connection_recv_if_handler_recv. apply hw_bind. unfold AssertNoError.
  apply hw_get, hw_assert; [cbn; by rewrite i_err0, Hf|].
  apply hw_get, hw_bind, hw_assert; [cbn; by rewrite Hs|]. apply hw_bind, hw_assert; [by apply Z.ltb_lt|].
  apply hw_bind, hw_put. apply recv_ok; [|done|done|done|exact Hw].
  split; cbn; try done; unfold recv_side; cbn; by rewrite Hd, Hst, Hu.
Qed.

Lemma conn_send_done_ok s : inv s → allowed s ASendDone = true → ∃ s', act s ASendDone = Some s' ∧ inv s'.
Proof.
  intros Hi Ha. unfold allowed in Ha. apply andb_true_iff in Ha as [_ [Hf%negb_true_iff Hj]%andb_true_iff].
  pose proof Hi as []. cbn [act]. unfold send_side in i_send0.
  destruct (send_state (obj s)) eqn:Hs; [by rewrite i_send0 in Hj| |destruct i_send0 as (_ & _ & Hd & _); congruence].
  destruct i_send0 as (Hu & Ho & Hd & Hw). rewrite Hj in Hd. symmetry in Hd. apply bool_decide_eq_true in Hd. rewrite Hd in Hw.
  unfold StreamPassInterface.job_done_run. rewrite assert_true by by rewrite bool_decide_true. cbn [mbind option_bind].
  eexists. split; [done|]. split; cbn; rewrite ?Hs; try done; unfold send_side; cbn; rewrite ?Hs; cbn; by rewrite Ho, Hd, Hu.
Qed.

Lemma conn_recv_done_ok s : inv s → allowed s ARecvDone = true → ∃ s', act s ARecvDone = Some s' ∧ inv s'.
Proof.
  intros Hi Ha. unfold allowed in Ha. apply andb_true_iff in Ha as [_ [Hf%negb_true_iff Hj]%andb_true_iff].
  pose proof Hi as []. cbn [act]. unfold recv_side in i_recv0.
  destruct (recv_state (obj s)) eqn:Hs; [by rewrite i_recv0 in Hj| |destruct i_recv0 as (_ & _ & Hd & _); congruence..|done].
  destruct i_recv0 as (Hu & Ho & Hd & Hw). rewrite Hj in Hd. symmetry in Hd. apply bool_decide_eq_true in Hd. rewrite Hd in Hw.
  unfold StreamRecvInterface.job_done_run. rewrite assert_true by by rewrite bool_decide_true. cbn [mbind option_bind].
  eexists. split; [done|]. split; cbn; rewrite ?Hs; try done; unfold recv_side; cbn; rewrite ?Hs; cbn; by rewrite Ho, Hd, Hu.
Qed.

Lemma recv_job_ok s a : inv s → allowed s (ARecvJob a) = true → ∃ s', act s (ARecvJob a) = Some s' ∧ inv s'.
Proof.
  intros Hi Ha. unfold allowed in Ha.
  apply andb_true_iff in Ha as [_ [[Hf%negb_true_iff Hj]%andb_true_iff Hw]%andb_true_iff].
  pose proof Hi as []. cbn [act]. specialize (i_recv_job0 Hj). set (s1 := with_obj _ s).
  enough (hw (connection_recv_job_handler a) s1 inv) as (s' & Hs' & ?) by by exists s'.
  unfold connection_recv_job_handler. apply hw_bind. unfold AssertNoError. apply hw_get, hw_assert; [cbn; by rewrite i_err0, Hf|].
  apply hw_get, hw_bind, hw_assert; [cbn; by rewrite i_recv_job0|]. by apply recv_ok; try split.
Qed.

Lemma act_ok s x : inv s → allowed s x = true → ∃ s', act s x = Some s' ∧ (inv s' ∨ alive s' = false ∧ kernel s' = None).
Proof.
  intros Hi Ha.
  assert ((∃ s', act s x = Some s' ∧ inv s') → ∃ s', act s x = Some s' ∧ (inv s' ∨ alive s' = false ∧ kernel s' = None)) as Hl
    by (intros (s' & ? & ?); eauto).
  destruct x as [| | | | |d|n|a| |a| |a|a|ev a].
  - by apply Hl, send_init_ok.
  - by apply Hl, send_free_ok.
  - by apply Hl, recv_init_ok.
  - by apply Hl, recv_free_ok.
  - destruct (conn_free_ok s Hi Ha) as (s' & ? & ? & ?). eauto.
  - by apply Hl, user_send_ok.
  - by apply Hl, user_recv_ok.
  - by apply Hl, send_operation_ok.
  - by apply Hl, conn_send_done_ok.
  - by apply Hl, recv_operation_ok.
  - by apply Hl, conn_recv_done_ok.
  - unfold allowed in Ha. rewrite (i_send_job _ _ _ Hi) in Ha. by rewrite !andb_false_r in Ha.
  - by apply Hl, recv_job_ok.
  - apply Hl. destruct (fd_handler_ok s ev a Hi Ha) as (s' & ? & ?). by exists s'.
Qed.

Lemma conn_reach_inv fd0 cf s : reach (start fd0 cf) s → inv s ∨ alive s = false ∧ kernel s = None.
Proof.
  intros Hr. induction Hr as [|s x s' _ IH Ha Hact].
  - left. split; cbn; auto; try done.
  - destruct IH as [Hi|[Hd _]]; [|unfold allowed in Ha; by rewrite Hd in Ha].
    destruct (act_ok s x Hi Ha) as (s1 & Hact' & ?). rewrite Hact in Hact'. by injection Hact' as <-.
Qed.
End connection.
End BConnection.

(** ** The theorems *)

(** C21: in every state a connection can reach, none of the calls its users may
    make, its jobs and the events the reactor may report fails an assertion or
    uses the descriptor after it was removed, provided that a write or read for
    which the descriptor is still awaited does not succeed
    (connection_error_event shows what happens otherwise); unless an error was
    reported, a send in progress has the reactor watch for the descriptor to
    become writable, and a receive in progress is watched for or about to be tried
    again, so that neither is forgotten; and when the connection is freed its
    descriptor is not registered any more. *)
Theorem connection_safe `{Build} fd0 cf s :
  BConnection.reach (BConnection.start fd0 cf) s →
  (∀ x, BConnection.allowed s x = true → is_Some (BConnection.act s x)) ∧
  (BConnection.alive s = true → BConnection.failed s = false →
    (BConnection.send_state (BConnection.obj s) = SEND_STATE_BUSY →
       ∃ w, BConnection.kernel s = Some w ∧ BConnection.bit w BREACTOR_WRITE = true) ∧
    (BConnection.recv_state (BConnection.obj s) = RECV_STATE_BUSY →
       BConnection.recv_job (BConnection.obj s) = true ∨
       ∃ w, BConnection.kernel s = Some w ∧ BConnection.bit w BREACTOR_READ = true)) ∧
  (BConnection.alive s = false → BConnection.kernel s = None).
Proof.
  intros Hr. pose proof (BConnection.conn_reach_inv fd0 cf s Hr) as Hi. split_and!.
  - intros x Ha. destruct Hi as [Hi|[Hd _]]; [|unfold BConnection.allowed in Ha; by rewrite Hd in Ha].
    destruct (BConnection.act_ok s x Hi Ha) as (s' & -> & _). eauto.
  - intros Hal Hf. destruct Hi as [Hi|[Hd _]]; [|congruence]. destruct Hi. split; intros Hb.
    + destruct (i_sending eq_refl Hf Hb) as [Hh Hw]. rewrite Hh in i_kernel. eauto.
    + destruct (i_receiving eq_refl Hf Hb) as [?|[Hh Hw]]; [by left|right]. rewrite Hh in i_kernel. eauto.
  - intros Hd. destruct Hi as [Hi|[_ ?]]; [|done]. destruct Hi. congruence.
Qed.

(** C22: while the interfaces exist, what was written to the socket is exactly
    what the sender was told was sent, followed by the part it is about to be
    told of; and what was read from the socket is exactly what the receiver was
    given, followed by the part it is about to be given: no byte is lost,
    repeated or reordered by waiting, by limits or by the order of the jobs.  As in
    the property before, this is for runs in which a write or read for which the
    descriptor is still awaited does not succeed ([write_ok], [read_ok] in [allowed]);
    after an event that reports an error alone such a write can succeed, and then the
    byte is written twice (connection_error_event). *)
Theorem connection_streams `{Build} fd0 cf s :
  BConnection.reach (BConnection.start fd0 cf) s → BConnection.alive s = true →
  let o := BConnection.obj s in
  (BConnection.send_state o ≠ SEND_STATE_NOT_INITED →
     BConnection.wrote s = BConnection.sent s ++
       (if StreamPassInterface.job_done (BConnection.send_if o)
        then ztake (StreamPassInterface.job_done_len (BConnection.send_if o))
               (StreamPassInterface.job_operation_data (BConnection.send_if o)) else [])) ∧
  (BConnection.recv_state o ≠ RECV_STATE_NOT_INITED →
     BConnection.readd s = BConnection.got s ++
       (if StreamRecvInterface.job_done (BConnection.recv_if o)
        then StreamRecvInterface.job_done_data (BConnection.recv_if o) else [])).
Proof.
  intros Hr Hal o. destruct (BConnection.conn_reach_inv fd0 cf s Hr) as [Hi|[Hd _]]; [|congruence]. destruct Hi.
  unfold BConnection.send_side in i_send. unfold BConnection.recv_side in i_recv. fold o in i_send, i_recv. split; intros Hn.
  - destruct (BConnection.send_state o); [done| |destruct i_send as (_ & _ & -> & _ & _ & _ & ->); by rewrite app_nil_r].
    destruct i_send as (_ & _ & -> & Hw). destruct (StreamPassInterface.state (BConnection.send_if o)); cbn; rewrite ?app_nil_r; tauto.
  - destruct (BConnection.recv_state o); [done| |destruct i_recv as (_ & _ & -> & _ & _ & _ & ->); by rewrite app_nil_r..|done].
    destruct i_recv as (_ & _ & -> & Hw). destruct (StreamRecvInterface.state (BConnection.recv_if o)); cbn; rewrite ?app_nil_r; tauto.
Qed.

Section connection_example.
#[local] Instance connection_build : Build := false.
Import BConnection.

Fixpoint connection_acts (s : sys) (l : list action) : option sys :=
  match l with
  | [] => Some s
  | x :: l => if allowed s x then s' ← act s x; connection_acts s' l else None
  end.

Lemma connection_acts_reach s0 s l s' : reach s0 s → connection_acts s l = Some s' → reach s0 s'.
Proof.
  revert s. induction l as [|x l IH]; intros s Hr Hrun; cbn in Hrun; [by injection Hrun as <-|].
  destruct (allowed s x) eqn:Ha; [|done]. destruct (act s x) as [s1|] eqn:Hact; [|done]. cbn in Hrun.
  eapply IH; [|exact Hrun]. by eapply reach_act.
Qed.

Definition answers (w : write_answer) (r : read_answer) : answer := mk_answer true w r.

(** Three bytes are sent in two parts, the second after the socket was full;
    then the peer hangs up while a receive is in progress. *)
Definition connection_run : list action :=
  [ASendInit; ARecvInit; ASend [1;2;3]; ASendOperation (answers (WOk 2) RError); ASendDone;
   ARecv 8; ARecvOperation (answers WError RAgain);
   ASend [3]; ASendOperation (answers WAgain RError); AFd 3 (answers (WOk 1) (ROk [9;9]));
   ARecvJob (answers WError (ROk [9;9])); ARecvDone; ARecv 8; ARecvOperation (answers WError RAgain);
   AFd 8 (answers WError (ROk []))].

Definition connection_end : sys := match connection_acts (start 5 true) connection_run with Some s => s | None => start 5 true end.

Lemma connection_end_reach : reach (start 5 true) connection_end.
Proof. apply (connection_acts_reach _ (start 5 true) connection_run); [constructor|vm_compute; reflexivity]. Qed.

Lemma connection_safe_witness :
  reach (start 5 true) connection_end ∧ is_Some (act connection_end ASendFree) ∧ closed connection_end = true.
Proof.
  split; [exact connection_end_reach|]. split; [|vm_compute; reflexivity].
  destruct (connection_safe 5 true connection_end connection_end_reach) as [Hs _]. apply Hs. vm_compute. reflexivity.
Defined.

Lemma connection_streams_witness :
  wrote connection_end = [1;2;3] ∧ sent connection_end = [1;2] ∧ readd connection_end = [9;9] ∧
  wrote connection_end = sent connection_end ++ [3].
Proof.
  split_and!; [vm_compute; reflexivity..|].
  destruct (connection_streams 5 true connection_end connection_end_reach) as [Hs _]; [vm_compute; reflexivity|].
  rewrite Hs by (vm_compute; discriminate). vm_compute. reflexivity.
Defined.
End connection_example.

(** An error event without readiness does not clear the event that is waited
    for.  If the call it leads to succeeds all the same, the reactor goes on
    watching for the descriptor to become writable without a send in progress: with
    assertions the next event ends the program, without them the data of the send
    before is written again. *)
Lemma connection_error_event `{Build} :
  ∃ s1 s2, connection_acts (BConnection.start 5 true)
      [BConnection.ASendInit; BConnection.ASend [1]; BConnection.ASendOperation (answers WAgain RError)] = Some s1 ∧
    BConnection.act s1 (BConnection.AFd BREACTOR_ERROR (answers (WOk 1) RError)) = Some s2 ∧
    BConnection.kernel s2 = Some BREACTOR_WRITE ∧ BConnection.send_state (BConnection.obj s2) = SEND_STATE_READY ∧
    match BConnection.act s2 (BConnection.AFd BREACTOR_WRITE (answers (WOk 1) RError)) with
    | Some s3 => NDEBUG = true ∧ BConnection.wrote s3 = [1; 1]
    | None => NDEBUG = false
    end.
Proof.
  destruct H eqn:Hn; unfold NDEBUG; (eexists _, _; split; [vm_compute; reflexivity|]; split; [vm_compute; reflexivity|]);
    vm_compute; split_and!; reflexivity.
Qed.

(** ** Who closes the descriptor *)

Definition closes (fd : Z) (es : list fd_event) : nat :=
  length (List.filter (λ e, match e with CloseFd f => f =? fd | _ => false end) es).

(** A descriptor that was connected is closed once: by the connector, or, when a
    connection was made of it, by the connection or by its failed initialisation. *)
Lemma connector_closes_once `{Build} addr a c es :
  BConnector.BConnector_Init addr a = (Some c, es) →
  let fd := BConnector.fd c in
  closes fd es = 0%nat ∧ closes fd (BConnector.BConnector_Free c) = 1%nat ∧
  ∀ c1 b r src es', BConnector.fd c1 = fd →
    BConnection.BConnection_Init (BConnection.SConnector c1) b = Some (r, src, es') →
    ∃ c2, src = BConnection.SConnector c2 ∧ closes fd (BConnector.BConnector_Free c2) = 0%nat ∧
      match r with
      | None => closes fd es' = 1%nat
      | Some o => closes fd es' = 0%nat ∧ BConnection.close_fd o = true ∧ BConnection.fd o = fd
      end.
Proof.
  intros Hi fd. unfold BConnector.BConnector_Init in Hi. cbn zeta in Hi. destruct (negb (BConnection_AddressSupported addr)); [done|].
  destruct (Z.ltb_spec (BConnector.socket_fd a) 0) as [|Hfd]; [done|]. destruct (negb (BConnector.nonblocking_ok a)); [done|].
  assert (fd = BConnector.socket_fd a ∧ closes fd es = 0%nat ∧ closes fd (BConnector.BConnector_Free c) = 1%nat) as (Hf & He & Hc).
  { subst fd. destruct (BConnector.connect a); [|destruct (negb (BConnector.add_fd_ok a)); [done|]|done]; injection Hi as <- <-;
      (split; [done|]); unfold closes, BConnector.BConnector_Free; cbn; (destruct (Z.eqb_spec (BConnector.socket_fd a) (-1)); [lia|]);
      cbn; by rewrite Z.eqb_refl. }
  split_and!; [done..|]. intros c1 b r src es' Hc1 Hb. unfold BConnection.BConnection_Init in Hb.
  do 4 apply assert_bind in Hb. unfold BConnection.init_fd in Hb.
  destruct (negb (BConnection.add_fd_ok b)); cbn in Hb; injection Hb as <- <- <-; (eexists; split; [done|]);
    unfold closes, BConnector.BConnector_Free; cbn; rewrite Hc1; split_and!; try done; try by rewrite Z.eqb_refl.
  all: by destruct (BConnector.have_bfd c1).
Qed.
