(* ===== verification/Tap.v ===== *)
(** * Tap: reading the device (tuntap/BTap.c)

    A BTap reads packets from the file descriptor of the TUN device into the
    memory its receiver lends.  It is composed here with what tun2socks reads it
    through: the SinglePacketBuffer [device_read_buffer] and the
    PacketPassInterface [device_read_interface], whose handler accepts a packet at
    once. *)
From S2P Require Import Prelude Bytes Reactor Flow Channel Connection.
Import PacketPassInterface (state_t(..)).
Import BReactor (BREACTOR_READ, BREACTOR_WRITE, BREACTOR_ERROR, BREACTOR_HUP).

Module BTap.
Section tap.
Context `{Build}.

Record t := mk {
  fd : Z;
  close_fd : bool;
  frame_mtu : Z;
  poll_events : Z;
  output_packet : option (list Z);
  d_err : bool
}.

Inductive event :=
| Fd (e : fd_event)
| OutputDone (data : list Z)       (** PacketRecvInterface_Done *)
| HandlerError
| Written (data : list Z).         (** BTap_Send *)

Abbreviation IO := (M t event).

Definition with_packet (poll : Z) (p : option (list Z)) (o : t) : t := mk (fd o) (close_fd o) (frame_mtu o) poll p (d_err o).

Definition bit (ev mask : Z) : bool := negb (Z.land ev mask =? 0).

Definition AssertNoError : IO unit := o ← mget; ASSERT (negb (d_err o)).

Definition report_error : IO unit :=
  mmodify (λ o, mk (fd o) (close_fd o) (frame_mtu o) (poll_events o) (output_packet o) true);;
  emit HandlerError.

(** ASSERT_FORCE is there in every build. *)
Definition ASSERT_FORCE (b : bool) : IO unit := if b then mret tt else mabort.

Definition fd_handler (events : Z) (r : read_answer) : IO unit :=
  AssertNoError;;
  if bit events BREACTOR_READ then
    o ← mget;
    ASSERT (bool_decide (is_Some (output_packet o)));;
    (* try reading into the buffer *)
    match r with
    | RAgain => mret tt                (* retry later *)
    | RError => report_error           (* report fatal error *)
    | ROk data =>
        ASSERT_FORCE (zlen data <=? frame_mtu o);;
        (* set no output packet, update events *)
        let p := Z.land (poll_events o) (Z.lnot BREACTOR_READ) in
        mput (with_packet p None o);;
        emit (Fd (SetFileDescriptorEvents p));;
        (* inform receiver we finished the packet *)
        emit (OutputDone data)
    end
  else mret tt.

Definition output_handler_recv (data : list Z) (r : read_answer) : IO unit :=
  AssertNoError;;
  o ← mget;
  ASSERT (bool_decide (output_packet o = None));;
  (* attempt read *)
  match r with
  | RAgain =>
      (* remember packet, update events *)
      let p := Z.lor (poll_events o) BREACTOR_READ in
      mput (with_packet p (Some data) o);;
      emit (Fd (SetFileDescriptorEvents p))
  | RError => report_error
  | ROk d =>
      ASSERT_FORCE (zlen d <=? frame_mtu o);;
      emit (OutputDone d)
  end.

(** With the file descriptor of the VPN service; [None]: it could not be added
    to the reactor. *)
Definition BTap_InitWithFD (fd mtu : Z) (add_fd_ok : bool) : option t * list event :=
  if add_fd_ok then (Some (mk fd false mtu 0 None false), [Fd AddFileDescriptor]) else (None, []).

(** The end of [BTap_Init2], with an open descriptor. *)
Definition BTap_Init_fd (fd mtu : Z) (close_fd nonblocking_ok add_fd_ok : bool) : option t * list event :=
  if nonblocking_ok && add_fd_ok then (Some (mk fd close_fd mtu 0 None false), [Fd AddFileDescriptor])
  else (None, if close_fd then [Fd (CloseFd fd)] else []).

Definition BTap_Free : IO unit :=
  o ← mget;
  (* free BFileDescriptor *)
  emit (Fd RemoveFileDescriptor);;
  when (close_fd o) (emit (Fd (CloseFd (fd o)))).

(** [bytes]: what [write] returns; malformed packets are ignored. *)
Definition BTap_Send (data : list Z) (bytes : Z) : IO unit :=
  AssertNoError;;
  o ← mget;
  ASSERT (zlen data <=? frame_mtu o);;
  when (0 <=? bytes) (emit (Written (ztake bytes data))).

(** ** The way of a packet from the device to its handler

    [input] and [handled]: the packets read from the device and those the handler
    was called with. *)
Record sys := mksys {
  tap : t;
  output : PacketRecvInterface.t;          (** of the device *)
  buffer : SinglePacketBuffer.t;           (** device_read_buffer *)
  read_if : PacketPassInterface.t;         (** device_read_interface *)
  kernel : Z;
  input : list (list Z);
  handled : list (list Z);
  failed : bool
}.

Definition apply_event (s : sys) (e : event) : option sys :=
  match e with
  | Fd (SetFileDescriptorEvents ev) =>
      Some (mksys (tap s) (output s) (buffer s) (read_if s) ev (input s) (handled s) (failed s))
  | Fd _ => None
  | OutputDone d =>
      i ← PacketRecvInterface.Done d (output s);
      Some (mksys (tap s) i (buffer s) (read_if s) (kernel s) (input s ++ [d]) (handled s) (failed s))
  | HandlerError => Some (mksys (tap s) (output s) (buffer s) (read_if s) (kernel s) (input s) (handled s) true)
  | Written _ => Some s
  end.

Fixpoint apply_events (s : sys) (es : list event) : option sys :=
  match es with [] => Some s | e :: es => s ← apply_event s e; apply_events s es end.

Definition handle (m : IO unit) (s : sys) : option sys :=
  '(_, o, es) ← m (tap s);
  apply_events (mksys o (output s) (buffer s) (read_if s) (kernel s) (input s) (handled s) (failed s)) es.

Inductive action :=
| ARecv (r : read_answer)            (** job: the device is asked for a packet *)
| AFd (events : Z) (r : read_answer) (** the reactor reports events *)
| AReceived                          (** job: the buffer has a packet *)
| AHandle                            (** job: the handler is called, and accepts *)
| AHandled.                          (** job: the buffer may go on *)

Definition act (s : sys) (x : action) : option sys :=
  match x with
  | ARecv r =>
      '(i, mem) ← PacketRecvInterface.job_operation_run (output s);
      handle (output_handler_recv mem r) (mksys (tap s) i (buffer s) (read_if s) (kernel s) (input s) (handled s) (failed s))
  | AFd ev r => handle (fd_handler ev r) s
  | AReceived =>
      '(i, d) ← PacketRecvInterface.job_done_run (output s);
      '(_, b, es) ← SinglePacketBuffer.input_handler_done (zlen d) (SinglePacketBuffer.mk (zwrite 0 d (SinglePacketBuffer.buf (buffer s))));
      match es with
      | [SinglePacketBuffer.OutputSend p] =>
          j ← PacketPassInterface.Sender_Send p (read_if s);
          Some (mksys (tap s) i b j (kernel s) (input s) (handled s) (failed s))
      | _ => None
      end
  | AHandle =>
      '(j, e) ← PacketPassInterface.job_operation_run (read_if s);
      match e with
      | PacketPassInterface.HandlerOperation p =>
          j ← PacketPassInterface.Done j;
          Some (mksys (tap s) (output s) (buffer s) j (kernel s) (input s) (handled s ++ [p]) (failed s))
      | _ => None
      end
  | AHandled =>
      '(j, _) ← PacketPassInterface.job_done_run (read_if s);
      '(_, b, es) ← SinglePacketBuffer.output_handler_done (buffer s);
      match es with
      | [SinglePacketBuffer.InputRecv] =>
          i ← PacketRecvInterface.Receiver_Recv (SinglePacketBuffer.buf b) (output s);
          Some (mksys (tap s) i b j (kernel s) (input s) (handled s) (failed s))
      | _ => None
      end
  end.

Definition read_ok (mtu : Z) (r : read_answer) : bool := match r with ROk d => zlen d <=? mtu | _ => true end.

Definition allowed (s : sys) (x : action) : bool :=
  negb (failed s) &&
  match x with
  | ARecv r => PacketRecvInterface.job_operation (output s) && read_ok (frame_mtu (tap s)) r
  | AFd ev r => implb (bit ev BREACTOR_READ) (bit (kernel s) BREACTOR_READ) && read_ok (frame_mtu (tap s)) r
  | AReceived => PacketRecvInterface.job_done (output s)
  | AHandle => PacketPassInterface.job_operation (read_if s)
  | AHandled => PacketPassInterface.job_done (read_if s)
  end.

(** [run] of tun2socks.c: the device, the interface that reads it and the buffer
    between them. *)
Definition start (fd mtu : Z) (mem : list Z) : option sys :=
  match (BTap_InitWithFD fd mtu true).1 with
  | None => None
  | Some o =>
      i ← PacketRecvInterface.Init mtu;
      let j := PacketPassInterface.Init mtu in
      r ← SinglePacketBuffer.SinglePacketBuffer_Init mtu mtu (λ _, Some mem);
      match r with
      | Some (b, [SinglePacketBuffer.InputRecv]) =>
          i ← PacketRecvInterface.Receiver_Init i;
          j ← PacketPassInterface.Sender_Init j;
          i ← PacketRecvInterface.Receiver_Recv (SinglePacketBuffer.buf b) i;
          Some (mksys o i b j 0 [] [] false)
      | _ => None
      end
  end.

Inductive reach (s0 : sys) : sys → Prop :=
| reach_start : reach s0 s0
| reach_act s x s' : reach s0 s → allowed s x = true → act s x = Some s' → reach s0 s'.

(** ** Invariant: where the one packet is *)

Definition is_operation (st : state_t) : bool := match st with OPERATION_PENDING => true | _ => false end.
Definition is_done (st : state_t) : bool := match st with DONE_PENDING => true | _ => false end.

(** The receive interface and the pass interface in a given state, with at most
    the job of that state pending. *)
Definition recv_at (mtu : Z) (st : state_t) (m d : list Z) : PacketRecvInterface.t :=
  PacketRecvInterface.mk mtu true (is_operation st) m (is_done st) d st.

Definition pass_at (mtu : Z) (st : state_t) (p : list Z) : PacketPassInterface.t :=
  PacketPassInterface.mk mtu false true (is_operation st) p false (is_done st) st false.

Definition idle (fd0 mtu : Z) : t := mk fd0 false mtu 0 None false.

Inductive inv (fd0 mtu : Z) : sys → Prop :=
| inv_ask b m d p l : zlen b = mtu →
    inv fd0 mtu (mksys (idle fd0 mtu) (recv_at mtu OPERATION_PENDING m d) (SinglePacketBuffer.mk b)
      (pass_at mtu NONE p) 0 l l false)
| inv_wait b m d p l : zlen b = mtu →
    inv fd0 mtu (mksys (mk fd0 false mtu BREACTOR_READ (Some m) false) (recv_at mtu BUSY m d) (SinglePacketBuffer.mk b)
      (pass_at mtu NONE p) BREACTOR_READ l l false)
| inv_received b m d p l : zlen b = mtu → zlen d ≤ mtu →
    inv fd0 mtu (mksys (idle fd0 mtu) (recv_at mtu DONE_PENDING m d) (SinglePacketBuffer.mk b)
      (pass_at mtu NONE p) 0 (l ++ [d]) l false)
| inv_handle b m d p l : zlen b = mtu → zlen p ≤ mtu →
    inv fd0 mtu (mksys (idle fd0 mtu) (recv_at mtu NONE m d) (SinglePacketBuffer.mk b)
      (pass_at mtu OPERATION_PENDING p) 0 (l ++ [p]) l false)
| inv_handled b m d p l : zlen b = mtu →
    inv fd0 mtu (mksys (idle fd0 mtu) (recv_at mtu NONE m d) (SinglePacketBuffer.mk b)
      (pass_at mtu DONE_PENDING p) 0 l l false)
| inv_failed o i b j k l :
    inv fd0 mtu (mksys o i b j k l l true).

(** Every assertion on the way holds: a hypothesis says so of the length of a
    packet, the others compute. *)
Ltac tap_unfold :=
  unfold handle, output_handler_recv, fd_handler, AssertNoError, report_error, ASSERT_FORCE, ASSERT,
    PacketRecvInterface.Init, PacketRecvInterface.Done, PacketRecvInterface.Receiver_Init,
    PacketRecvInterface.Receiver_Recv, PacketRecvInterface.job_operation_run, PacketRecvInterface.job_done_run,
    PacketPassInterface.job_operation_run, PacketPassInterface.job_done_run, PacketPassInterface.Sender_Init,
    PacketPassInterface.Sender_Send, PacketPassInterface.Done, SinglePacketBuffer.SinglePacketBuffer_Init, assert,
    mbind, M_bind, mret, M_ret, mget, mput, mmodify, emit, bool_decide, decide, decide_rel.

Ltac tap_run :=
  repeat (progress (cbn; try tap_unfold; rewrite ?orb_true_r;
    repeat match goal with H : (_ <=? _) = true |- _ => rewrite H end)); cbn.

Lemma tap_start_inv fd0 mtu mem : zlen mem = mtu → ∃ s, start fd0 mtu mem = Some s ∧ inv fd0 mtu s.
Proof.
  intros Hm. pose proof (zlen_nonneg mem) as Hn. rewrite Hm in Hn. apply Z.leb_le in Hn. pose proof (Z.leb_refl mtu).
  tap_run. eexists; split; [reflexivity|]. by apply (inv_ask fd0 mtu mem mem [] [] []).
Qed.

(** The device is asked for a packet. *)
Lemma ask_inv fd0 mtu r s :
  inv fd0 mtu s → allowed s (ARecv r) = true → ∃ s', act s (ARecv r) = Some s' ∧ inv fd0 mtu s'.
Proof.
  intros Hi Ha. destruct Hi; cbn in Ha; try done; bool_props. destruct r as [d'| |]; cbn in *; tap_run.
  - eexists; split; [reflexivity|]. apply (inv_received fd0 mtu b m d' p l); [done|lia].
  - eexists; split; [reflexivity|]. by apply (inv_wait fd0 mtu b m d p l).
  - eexists; split; [reflexivity|]. constructor.
Qed.

#[local] Arguments bit : simpl never.
#[local] Arguments ztake : simpl never.
#[local] Arguments zwrite : simpl never.

(** Events other than READ change nothing; READ comes only while it is watched. *)
Lemma fd_inv fd0 mtu ev r s :
  inv fd0 mtu s → allowed s (AFd ev r) = true → ∃ s', act s (AFd ev r) = Some s' ∧ inv fd0 mtu s'.
Proof.
  intros Hi Ha. destruct (bit ev BREACTOR_READ) eqn:Hev.
  - destruct Hi; cbn in Ha; rewrite ?Hev in Ha; try done; bool_props.
    unfold act, handle, fd_handler. rewrite Hev. destruct r as [d'| |]; cbn in *; tap_run.
    + eexists; split; [reflexivity|]. apply (inv_received fd0 mtu b m d' p l); [done|lia].
    + eexists; split; [reflexivity|]. by apply (inv_wait fd0 mtu b m d p l).
    + eexists; split; [reflexivity|]. constructor.
  - exists s. split; [|done]. destruct Hi; cbn in Ha; try done; unfold act, handle, fd_handler; rewrite Hev; tap_run; reflexivity.
Qed.

(** The packet moves from the device to the handler, and the buffer asks for the
    next one. *)
Lemma job_inv fd0 mtu x s :
  inv fd0 mtu s → allowed s x = true → x ∈ [AReceived; AHandle; AHandled] → ∃ s', act s x = Some s' ∧ inv fd0 mtu s'.
Proof.
  intros Hi Ha Hx. rewrite !elem_of_cons, elem_of_nil in Hx.
  destruct Hx as [->|[->|[->|[]]]]; destruct Hi; cbn in Ha; try done.
  - assert (Hd : ztake (zlen d) (zwrite 0 d b) = d) by (apply (slice_zwrite_same 0 d b); lia).
    assert (Hle : (zlen d <=? mtu) = true) by lia.
    unfold act. tap_run. unfold SinglePacketBuffer.input_handler_done. tap_run. rewrite Hd. tap_run.
    eexists; split; [reflexivity|]. apply (inv_handle fd0 mtu (zwrite 0 d b) m d d l); [|done]. rewrite zlen_zwrite; lia.
  - tap_run. eexists; split; [reflexivity|]. by apply (inv_handled fd0 mtu b m d p (l ++ [p])).
  - tap_run. eexists; split; [reflexivity|]. by apply (inv_ask fd0 mtu b b d p l).
Qed.

Lemma tap_act_inv fd0 mtu x s : inv fd0 mtu s → allowed s x = true → ∃ s', act s x = Some s' ∧ inv fd0 mtu s'.
Proof.
  intros Hi Ha. destruct x as [r|ev r| | |]; [by apply ask_inv|by apply fd_inv|..]; apply job_inv; auto; set_solver.
Qed.

Lemma tap_reach_inv fd0 mtu s0 s : inv fd0 mtu s0 → reach s0 s → inv fd0 mtu s.
Proof.
  intros H0 Hr. induction Hr as [|s x s' Hr IH Ha Hact]; [done|].
  destruct (tap_act_inv fd0 mtu x s IH Ha) as (s1 & Hs1 & Hi). congruence.
Qed.

(** What keeps the packets moving: a job is pending, or the reactor watches the
    device for a read whose memory is known. *)
Definition live (s : sys) : bool :=
  PacketRecvInterface.job_operation (output s) || PacketRecvInterface.job_done (output s)
  || PacketPassInterface.job_operation (read_if s) || PacketPassInterface.job_done (read_if s)
  || bit (kernel s) BREACTOR_READ && bool_decide (is_Some (output_packet (tap s))).

(** A device whose [read] returns 0 (end of file) is asked again at once, and the
    handler is called with an empty packet each time round. *)
Lemma device_end_of_file fd0 mtu mem :
  zlen mem = mtu →
  ∃ s0 s1, start fd0 mtu mem = Some s0 ∧
    (s ← act s0 (ARecv (ROk [])); s ← act s AReceived; s ← act s AHandle; act s AHandled) = Some s1 ∧
    handled s1 = [[]] ∧ tap s1 = tap s0 ∧ allowed s1 (ARecv (ROk [])) = true.
Proof.
  intros Hm. pose proof (zlen_nonneg mem) as Hn. rewrite Hm in Hn. apply Z.leb_le in Hn. pose proof (Z.leb_refl mtu).
  unfold start. eexists _, _. split; [tap_run; reflexivity|]. split.
  - unfold act. change 0 with (Z.of_nat 0) in Hn. tap_run. unfold SinglePacketBuffer.input_handler_done. tap_run.
    change (ztake _ _) with (@nil Z). tap_run. reflexivity.
  - cbn. split_and!; [done..|]. by destruct mtu.
Qed.
End tap.
End BTap.

(** C23: reading the device, from the start with memory of [mtu] bytes and with
    the answers of [read] within the MTU, in every state and for every action
    the reactor may run next (jobs of the interfaces, events of the descriptor,
    spurious errors and hang-ups included): no assertion fails; the packets
    handled are exactly the packets read, whole and in order, less at most the
    one that is on its way; and unless the device has failed, a job is pending or
    the reactor watches the device, so that reading never stops. *)
Theorem device_packets_in_order `{Build} fd mtu mem :
  zlen mem = mtu →
  ∃ s0, BTap.start fd mtu mem = Some s0 ∧
    ∀ s, BTap.reach s0 s →
      (∀ x, BTap.allowed s x = true → is_Some (BTap.act s x)) ∧
      (BTap.input s = BTap.handled s ∨
       ∃ p, BTap.input s = BTap.handled s ++ [p] ∧ zlen p ≤ mtu) ∧
      (BTap.failed s = false → BTap.live s = true).
Proof.
  intros Hm. destruct (BTap.tap_start_inv fd mtu mem Hm) as (s0 & Hs & H0). exists s0. split; [done|].
  intros s Hr. pose proof (BTap.tap_reach_inv fd mtu s0 s H0 Hr) as Hi. split_and!.
  - intros x Ha. destruct (BTap.tap_act_inv fd mtu x s Hi Ha) as (s' & -> & _). eauto.
  - destruct Hi; cbn; eauto.
  - intros Hf. destruct Hi; try reflexivity. done.
Qed.

Section device_example.
#[local] Instance device_build : Build := false.
Import BTap.

Fixpoint device_acts (s : sys) (l : list action) : option sys :=
  match l with
  | [] => Some s
  | x :: l => if allowed s x then s' ← act s x; device_acts s' l else None
  end.

Lemma device_acts_reach s0 s l s' : reach s0 s → device_acts s l = Some s' → reach s0 s'.
Proof.
  revert s. induction l as [|x l IH]; intros s Hr Hrun; cbn in Hrun; [by injection Hrun as <-|].
  destruct (allowed s x) eqn:Ha; [|done]. destruct (act s x) as [s1|] eqn:Hact; [|done]. cbn in Hrun.
  eapply IH; [|exact Hrun]. by eapply reach_act.
Qed.

(** A packet is there at once, the next one after waiting and an error event; the
    third is on its way. *)
Definition device_run : list action :=
  [ARecv (ROk [1;2]); AReceived; AHandle; AHandled;
   ARecv RAgain; AFd 4 RError; AFd 1 RAgain; AFd 1 (ROk [3]); AReceived; AHandle; AHandled;
   ARecv (ROk [4;5;6]); AReceived].

Lemma device_packets_in_order_witness :
  ∃ s0 s, start 7 4 [0;0;0;0] = Some s0 ∧ device_acts s0 device_run = Some s ∧
    input s = [[1;2];[3];[4;5;6]] ∧ handled s = [[1;2];[3]] ∧ is_Some (act s AHandle) ∧ live s = true.
Proof.
  destruct (device_packets_in_order 7 4 [0;0;0;0] eq_refl) as (s0 & Hs & Hall).
  vm_compute in Hs. injection Hs as <-.
  eexists _, _. split; [vm_compute; reflexivity|]. split; [vm_compute; reflexivity|].
  split; [reflexivity|]. split; [reflexivity|].
  edestruct Hall as (Ha & _ & Hl); [eapply (device_acts_reach _ _ device_run); [constructor|vm_compute; reflexivity]|].
  split; [apply Ha; vm_compute; reflexivity|apply Hl; vm_compute; reflexivity].
Defined.
End device_example.

(** An error or a hang-up of the device without READ is only logged: the state
    and the watched events stay as they are, so epoll, which is level-triggered
    and reports both whether watched or not, reports the event again at once. *)
Lemma device_error_ignored `{Build} s ev r :
  BTap.failed s = false → BTap.d_err (BTap.tap s) = false → BTap.bit ev BREACTOR_READ = false →
  BTap.act s (BTap.AFd ev r) = Some s.
Proof.
  intros Hf Hd Hev. unfold BTap.act, BTap.handle, BTap.fd_handler, BTap.AssertNoError, ASSERT. rewrite Hev.
  unfold mbind, M_bind, option_bind, mget. rewrite Hd. cbn. rewrite orb_true_r. cbn. by destruct s.
Qed.

(** The two ways to get a device differ in who closes the descriptor. *)
Lemma tap_closes `{Build} fd mtu o es :
  (BTap.BTap_InitWithFD fd mtu true = (Some o, es) → ∃ es', BTap.BTap_Free o = Some (tt, o, es') ∧ BTap.Fd (CloseFd fd) ∉ es') ∧
  (∀ nb add, BTap.BTap_Init_fd fd mtu true nb add = (Some o, es) →
     ∃ es', BTap.BTap_Free o = Some (tt, o, es') ∧ BTap.Fd (CloseFd fd) ∈ es').
Proof.
  split.
  - intros [= <- <-]. eexists; split; [reflexivity|]. cbn. set_solver.
  - intros nb add. unfold BTap.BTap_Init_fd. destruct (nb && add); [|done]. intros [= <- <-].
    eexists; split; [reflexivity|]. cbn. set_solver.
Qed.
