(* ===== verification/Sockets.v ===== *)
(** * Sockets: devices opened by name and Unix sockets

    The rest of tuntap/BTap.c and system/BConnection_unix.c for Linux: [BTap_Init] and
    [BTap_Init2], which open a TUN or TAP device and ask for its MTU, and the listeners
    and connectors of Unix sockets.  The objects they give are those of Tap.v and
    Connection.v.  What they do outside the object is a list of events; names and paths
    are the bytes before the terminating zero. *)
From S2P Require Import Prelude Bytes Reactor Addr Flow Channel Connection Tap.
Import BReactor (BREACTOR_READ, BREACTOR_WRITE).

(** A descriptor is taken out of those that are open. *)
Fixpoint take_out (fd : Z) (open : list Z) : option (list Z) :=
  match open with
  | [] => None
  | x :: open => if x =? fd then Some open else l ← take_out fd open; Some (x :: l)
  end.

(** The descriptors that are open after some events; [None]: one was closed that was
    not open. *)
Fixpoint descriptors (es : list fd_event) (open : list Z) : option (list Z) :=
  match es with
  | [] => Some open
  | OpenFd fd :: es => descriptors es (fd :: open)
  | CloseFd fd :: es => open ← take_out fd open; descriptors es open
  | _ :: es => descriptors es open
  end.

(** ** Devices (tuntap/BTap.c) *)

Module TapOpen.

Inductive BTap_dev_type := BTAP_DEV_TUN | BTAP_DEV_TAP.

Inductive BTap_init := BTAP_INIT_STRING (name : option (list Z)) | BTAP_INIT_FD (fd mtu : Z).

Definition BTAP_ETHERNET_HEADER_LENGTH : Z := 14.
Definition IFNAMSIZ : Z := 16.

(** [IFF_TUN], [IFF_TAP] and [IFF_NO_PI] of the kernel. *)
Definition IFF_TUN : Z := 1.
Definition IFF_TAP : Z := 2.
Definition IFF_NO_PI : Z := 4096.

Definition ifr_flags (d : BTap_dev_type) : Z :=
  Z.lor IFF_NO_PI (match d with BTAP_DEV_TUN => IFF_TUN | BTAP_DEV_TAP => IFF_TAP end).

(** [snprintf(ifr.ifr_name, IFNAMSIZ, "%s", ...)] cuts the name. *)
Definition ifr_name (name : option (list Z)) : list Z :=
  match name with Some n => ztake (IFNAMSIZ - 1) n | None => [] end.

Inductive event :=
| TunSetIff (fd flags : Z) (name : list Z)
| GetIfMtu (sock : Z) (name : list Z)
| Tap (e : BTap.event).

Abbreviation Open fd := (Tap (BTap.Fd (OpenFd fd))).
Abbreviation Close fd := (Tap (BTap.Fd (CloseFd fd))).

(** The results of the system calls: [tunsetiff] is the name the kernel gives the
    device, [ifr_mtu] the MTU it reports. *)
Record answers := mk_answers {
  open_fd : Z; tunsetiff : option (list Z); sock_fd : Z; ifr_mtu : option Z; nonblocking_ok : bool; add_fd_ok : bool
}.

Definition frame_mtu_of (d : BTap_dev_type) (mtu : Z) : Z :=
  match d with BTAP_DEV_TUN => mtu | BTAP_DEV_TAP => mtu + BTAP_ETHERNET_HEADER_LENGTH end.

(** What comes after the [switch], with the events so far. *)
Definition init_fd (es : list event) (fd mtu : Z) (close : bool) (a : answers) : option BTap.t * list event :=
  let '(o, es') := BTap.BTap_Init_fd fd mtu close (nonblocking_ok a) (add_fd_ok a) in (o, es ++ map Tap es').

Definition BTap_Init2 `{Build} (d : BTap_dev_type) (i : BTap_init) (a : answers) : option (option BTap.t * list event) :=
  match i with
  | BTAP_INIT_FD fd mtu =>
      assert (0 <=? fd);;
      assert (0 <=? mtu);;
      assert (match d with BTAP_DEV_TAP => BTAP_ETHERNET_HEADER_LENGTH <=? mtu | BTAP_DEV_TUN => true end);;
      Some (init_fd [] fd mtu false a)
  | BTAP_INIT_STRING name =>
      let fd := open_fd a in
      let sock := sock_fd a in
      (* open device *)
      if fd <? 0 then Some (None, []) else
      (* configure device *)
      let es := [Open fd; TunSetIff fd (ifr_flags d) (ifr_name name)] in
      match tunsetiff a with
      | None => Some (None, es ++ [Close fd])
      | Some devname_real =>
          (* open dummy socket for ioctls *)
          if sock <? 0 then Some (None, es ++ [Close fd]) else
          let es := es ++ [Open sock; GetIfMtu sock devname_real; Close sock] in
          match ifr_mtu a with
          | None => Some (None, es ++ [Close fd])
          | Some mtu => Some (init_fd es fd (frame_mtu_of d mtu) true a)
          end
      end
  end.

Definition BTap_Init `{Build} (devname : option (list Z)) (tun : Z) (a : answers) : option (option BTap.t * list event) :=
  assert ((tun =? 0) || (tun =? 1));;
  BTap_Init2 (if negb (tun =? 0) then BTAP_DEV_TUN else BTAP_DEV_TAP) (BTAP_INIT_STRING devname) a.

(** What is done to descriptors. *)
Definition fd_events (es : list event) : list fd_event :=
  omap (λ e, match e with Tap (BTap.Fd e) => Some e | _ => None end) es.

(** [BTap_Init2] with the name of a device returns whatever the system answers, and
    leaves no descriptor behind: after a failure all that it opened are closed, after a
    success exactly the descriptor of the device is open, which [BTap_Free] closes; the
    frame is the MTU, with an Ethernet header for a TAP device, and the kernel gets at
    most 15 bytes of the name. *)
Theorem tap_open_balanced `{Build} d name a l :
  ∃ r es, BTap_Init2 d (BTAP_INIT_STRING name) a = Some (r, es) ∧
    (∀ fd flags n, TunSetIff fd flags n ∈ es → zlen n < IFNAMSIZ) ∧
    match r with
    | None => descriptors (fd_events es) l = Some l
    | Some o => BTap.fd o = open_fd a ∧ BTap.frame_mtu o = frame_mtu_of d (default 0 (ifr_mtu a)) ∧
        descriptors (fd_events es) l = Some (open_fd a :: l) ∧
        ∃ es', BTap.BTap_Free o = Some (tt, o, es') ∧ descriptors (fd_events (es ++ map Tap es')) l = Some l
    end.
Proof.
  assert (zlen (ifr_name name) < IFNAMSIZ) as Hn.
  { unfold ifr_name, IFNAMSIZ. destruct name as [n|]; [|cbn; lia]. unfold ztake. rewrite length_take. lia. }
  unfold BTap_Init2, init_fd, BTap.BTap_Init_fd. set (fd := open_fd a). set (sock := sock_fd a).
  destruct (fd <? 0); [eexists _, _; split_and!; [done|set_solver|done]|].
  destruct (tunsetiff a) as [real|]; [destruct (sock <? 0); [|destruct (ifr_mtu a) as [mtu|]; [destruct (nonblocking_ok a && add_fd_ok a)|]]|];
    eexists _, _; (split; [done|]); (split; [intros f fl n Hin; cbn in Hin; set_solver|]); cbn; rewrite ?Z.eqb_refl; cbn; rewrite ?Z.eqb_refl; try done.
  split_and!; [done|done|done|]. eexists. split; [reflexivity|]. cbn. by rewrite !Z.eqb_refl; cbn; rewrite ?Z.eqb_refl.
Qed.
End TapOpen.

(** A descriptor that is given is never closed. *)
Lemma tap_fd_kept `{Build} d fd mtu a r es l :
  TapOpen.BTap_Init2 d (TapOpen.BTAP_INIT_FD fd mtu) a = Some (r, es) →
  descriptors (TapOpen.fd_events es) l = Some l ∧
  ∀ o, r = Some o → ∃ es', BTap.BTap_Free o = Some (tt, o, es') ∧ descriptors (TapOpen.fd_events (map TapOpen.Tap es')) l = Some l.
Proof.
  unfold TapOpen.BTap_Init2, TapOpen.init_fd, BTap.BTap_Init_fd. intros Hr. do 3 apply assert_bind in Hr.
  destruct (TapOpen.nonblocking_ok a && TapOpen.add_fd_ok a); injection Hr as <- <-; (split; [done|]); [|done].
  intros o [= <-]. eexists. by split.
Qed.

(** ** Unix sockets (system/BConnection_unix.c) *)

Module UnixSockets.

Definition MAX_UNIX_SOCKET_PATH : Z := 200.

(** [offsetof(struct sockaddr_un, sun_path)]: after the two bytes of the family. *)
Definition sun_path_offset : Z := 2.

(** The bytes of [struct unix_addr]. *)
Definition unix_addr_size : Z := sun_path_offset + MAX_UNIX_SOCKET_PATH + 1.

Definition AF_UNIX : Z := 1.

(** The length of the address and its bytes [u.bytes]; the [None] inside is a return
    of 0, the one outside a write beyond [u]. *)
Definition build_unix_address (socket_path u : list Z) : option (option (Z * list Z)) :=
  if MAX_UNIX_SOCKET_PATH <? zlen socket_path then Some None else
  let bytes := le_bytes 2 AF_UNIX ++ socket_path ++ [0] in
  if zlen u <? zlen bytes then None
  else Some (Some (sun_path_offset + zlen socket_path + 1, zwrite 0 bytes u)).

Inductive event :=
| Fd (e : fd_event)
| DupPath | FreePath                 (** [b_strdup] and [free] of the path *)
| Unlink (path : list Z)             (** that finds the file *)
| BindPath (path : list Z).          (** [bind], which makes the file *)

Inductive unlink_answer := UnlinkOk | UnlinkNoEntry | UnlinkError.

Record listen_answers := mk_listen {
  strdup_ok : bool; socket_fd : Z; nonblocking_ok : bool; unlink : unlink_answer; bind_ok : bool; listen_ok : bool; add_fd_ok : bool
}.

(** [u]: the bytes of the address on the stack. *)
Definition BListener_InitUnix (socket_path u : list Z) (a : listen_answers) : option (option BListener.t * list event) :=
  (* copy socket path *)
  if negb (strdup_ok a) then Some (None, []) else
  (* build address *)
  addr ← build_unix_address socket_path u;
  match addr with
  | None => Some (None, [DupPath; FreePath])
  | Some _ =>
      let fd := socket_fd a in
      (* init fd *)
      if fd <? 0 then Some (None, [DupPath; FreePath]) else
      let es := [DupPath; Fd (OpenFd fd)] in
      let fail2 := [Fd (CloseFd fd); FreePath] in
      (* set non-blocking *)
      if negb (nonblocking_ok a) then Some (None, es ++ fail2) else
      (* unlink existing socket *)
      match unlink a with
      | UnlinkError => Some (None, es ++ fail2)
      | _ =>
          let es := es ++ match unlink a with UnlinkOk => [Unlink socket_path] | _ => [] end in
          (* bind *)
          if negb (bind_ok a) then Some (None, es ++ fail2) else
          let es := es ++ [BindPath socket_path] in
          let fail3 := Unlink socket_path :: fail2 in
          (* listen *)
          if negb (listen_ok a) then Some (None, es ++ fail3) else
          (* init BFileDescriptor *)
          if negb (add_fd_ok a) then Some (None, es ++ fail3) else
          Some (Some (BListener.mk fd true false),
                es ++ [Fd AddFileDescriptor; Fd (SetFileDescriptorEvents BREACTOR_READ)])
      end
  end.

(** [unix_socket_path o]: the pointer is not NULL; it points to [path]. *)
Definition BListener_Free (path : list Z) (o : BListener.t) : list event :=
  map Fd (BListener.BListener_Free o) ++ (if BListener.unix_socket_path o then [Unlink path; FreePath] else []).

Definition BConnector_InitUnix (socket_path u : list Z) (a : BConnector.init_answer) : option (option BConnector.t * list fd_event) :=
  addr ← build_unix_address socket_path u;
  match addr with
  | None => Some (None, [])
  | Some _ =>
      let fd := BConnector.socket_fd a in
      (* init fd *)
      if fd <? 0 then Some (None, []) else
      let fail2 := (None, [OpenFd fd; CloseFd fd]) in
      (* set fd non-blocking *)
      if negb (BConnector.nonblocking_ok a) then Some fail2 else
      (* connect fd *)
      match BConnector.connect a with
      | ConnectError => Some fail2
      | ConnectInProgress =>
          (* init BFileDescriptor *)
          if negb (BConnector.add_fd_ok a) then Some fail2
          else Some (Some (BConnector.mk fd false true false),
                     [OpenFd fd; AddFileDescriptor; SetFileDescriptorEvents BREACTOR_WRITE])
      | ConnectOk => Some (Some (BConnector.mk fd true false true), [OpenFd fd])
      end
  end.

(** What some events leave: the open descriptors, the copies of the path and whether
    the file of the socket is there; [None]: something was released that was not held. *)
Record world := mk_world { open : list Z; copies : nat; file : bool }.

Fixpoint leave (path : list Z) (es : list event) (w : world) : option world :=
  match es with
  | [] => Some w
  | Fd e :: es => l ← descriptors [e] (open w); leave path es (mk_world l (copies w) (file w))
  | DupPath :: es => leave path es (mk_world (open w) (S (copies w)) (file w))
  | FreePath :: es => match copies w with O => None | S n => leave path es (mk_world (open w) n (file w)) end
  | Unlink p :: es => if bool_decide (p = path) && file w then leave path es (mk_world (open w) (copies w) false) else None
  | BindPath p :: es => if bool_decide (p = path) && negb (file w) then leave path es (mk_world (open w) (copies w) true) else None
  end.

(** The kernel unlinks a file that is there, and binds a path where there is none. *)
Definition answers_file (a : listen_answers) (there : bool) : Prop :=
  (unlink a = UnlinkOk → there = true) ∧ (unlink a = UnlinkNoEntry → there = false).

(** The path is copied inside the address, with its end. *)
Lemma build_unix_address_fits path u :
  zlen u = unix_addr_size →
  (zlen path ≤ MAX_UNIX_SOCKET_PATH ∧
   ∃ u', build_unix_address path u = Some (Some (sun_path_offset + zlen path + 1, u')) ∧
     ztake (sun_path_offset + zlen path + 1) u' = le_bytes 2 AF_UNIX ++ path ++ [0] ∧ zlen u' = unix_addr_size) ∨
  (MAX_UNIX_SOCKET_PATH < zlen path ∧ build_unix_address path u = Some None).
Proof.
  intros Hu. unfold build_unix_address. destruct (Z.ltb_spec MAX_UNIX_SOCKET_PATH (zlen path)); [by right|left]. split; [done|].
  set (b := le_bytes 2 AF_UNIX ++ path ++ [0]).
  assert (zlen b = sun_path_offset + zlen path + 1) as Hb.
  { unfold b, sun_path_offset. rewrite !length_app, length_le_bytes. cbn [length]. lia. }
  unfold unix_addr_size in *. destruct (Z.ltb_spec (zlen u) (zlen b)); [lia|]. eexists. split_and!; [done| |].
  - rewrite <- Hb. apply (slice_zwrite_same 0 b u); lia.
  - rewrite zlen_zwrite by lia. done.
Qed.

(** Unix sockets.  For every path and every answer of the system, [BListener_InitUnix]
    stays inside the address it builds and returns; when it fails, no descriptor, no copy
    of the path and no file of its own is left; when it succeeds, the file is there, the
    descriptor is open, and [BListener_Free] takes away both and the copy.
    [BConnector_InitUnix] does what [BConnector_Init] does for an address that is
    supported, and fails for a path that is too long. *)
Theorem unix_sockets_balanced path u a there l n c addr :
  zlen u = unix_addr_size → answers_file a there → Connection.BConnection_AddressSupported addr = true →
  (∃ r es, BListener_InitUnix path u a = Some (r, es) ∧
    match r with
    | None => ∃ f, leave path es (mk_world l n there) = Some (mk_world l n f) ∧ (f = true → there = true)
    | Some o => leave path es (mk_world l n there) = Some (mk_world (BListener.fd o :: l) (S n) true) ∧
        leave path (BListener_Free path o) (mk_world (BListener.fd o :: l) (S n) true) = Some (mk_world l n false)
    end) ∧
  BConnector_InitUnix path u c =
    Some (if zlen path <=? MAX_UNIX_SOCKET_PATH then BConnector.BConnector_Init addr c else (None, [])).
Proof.
  intros Hu [Ha1 Ha2] Hs. unfold BListener_InitUnix, BConnector_InitUnix, BConnector.BConnector_Init. rewrite Hs. cbn [negb].
  destruct (build_unix_address_fits path u Hu) as [(Hp & u' & -> & _)|(Hp & ->)]; cbn [mbind option_bind].
  2: { rewrite (proj2 (Z.leb_gt _ _) Hp). split; [|done].
       destruct (strdup_ok a); cbn [negb]; eexists _, _; (split; [done|]); by exists there. }
  rewrite (proj2 (Z.leb_le _ _) Hp). split.
  2: { destruct (BConnector.socket_fd c <? 0), (BConnector.nonblocking_ok c), (BConnector.connect c), (BConnector.add_fd_ok c); done. }
  destruct (strdup_ok a); cbn [negb]; [|eexists _, _; split; [done|]; by exists there].
  destruct (socket_fd a <? 0); [eexists _, _; split; [done|]; by exists there|].
  assert (bool_decide (path = path) = true) as Heq by by apply bool_decide_true.
  destruct (unlink a) eqn:Hun; [rewrite (Ha1 eq_refl)|rewrite (Ha2 eq_refl)|];
    destruct (nonblocking_ok a), (bind_ok a), (listen_ok a), (add_fd_ok a); cbn [negb app];
    eexists _, _; (split; [reflexivity|]); cbn; rewrite ?Heq, ?Z.eqb_refl; cbn; rewrite ?Heq, ?Z.eqb_refl; cbn; by eauto.
Qed.
End UnixSockets.

(** A listener on the path [/s], where an old file is, and a connector to it. *)
Lemma unix_sockets_balanced_witness :
  let path := [47; 115] in
  let a := UnixSockets.mk_listen true 5 true UnixSockets.UnlinkOk true true true in
  let c := BConnector.mk_init 6 true ConnectOk true in
  (∃ r es, UnixSockets.BListener_InitUnix path (replicate 203 0) a = Some (r, es) ∧ is_Some r ∧
    match r with
    | None => True
    | Some o => UnixSockets.leave path es (UnixSockets.mk_world [] 0 true) = Some (UnixSockets.mk_world [5] 1 true) ∧
        UnixSockets.leave path (UnixSockets.BListener_Free path o) (UnixSockets.mk_world [5] 1 true) = Some (UnixSockets.mk_world [] 0 false)
    end) ∧
  UnixSockets.BConnector_InitUnix path (replicate 203 0) c = Some (Some (BConnector.mk 6 true false true), [OpenFd 6]).
Proof.
  cbv zeta. set (path := [47; 115]). set (a := UnixSockets.mk_listen true 5 true UnixSockets.UnlinkOk true true true).
  destruct (UnixSockets.unix_sockets_balanced path (replicate 203 0) a true [] 0 (BConnector.mk_init 6 true ConnectOk true)
    (BAddr_IPv4 16777343 80)) as [(r & es & Hr & Hl) Hc]; [reflexivity|by split|reflexivity|].
  split; [|exact Hc]. exists r, es. split; [exact Hr|]. vm_compute in Hr. injection Hr as <- <-. split; [by eexists|exact Hl].
Defined.
