(* ===== verification/SocksClient.v ===== *)
(** * SocksClient: the SOCKS5 client

    Models socksclient/BSocksClient.c with misc/socks_proto.h: the state machine
    that connects to the SOCKS server, negotiates authentication, requests the
    connection and becomes up.  The message buffer is the memory it is in the
    code, reallocated for each message; the calls into the connection are
    events.  The answers of the environment are arguments of the handlers:
    [alloc] is what [BRealloc] returns for a size, [con_ok] whether
    [BConnection_Init] succeeds.  [auth_info] is the array of methods as it was at
    [BSocksClient_Init], where the code keeps a pointer to it. *)
From S2P Require Import Prelude Bytes Addr.

Module BSocksClient.

(** ** misc/socks_proto.h *)

Definition SOCKS_VERSION : Z := 5.
Definition SOCKS_METHOD_NO_AUTHENTICATION_REQUIRED : Z := 0.
Definition SOCKS_METHOD_USERNAME_PASSWORD : Z := 2.
Definition SOCKS_CMD_CONNECT : Z := 1.
Definition SOCKS_ATYP_IPV4 : Z := 1.
Definition SOCKS_ATYP_IPV6 : Z := 4.
Definition SOCKS_REP_SUCCEEDED : Z := 0.
Definition sizeof_client_hello_header : Z := 2.
Definition sizeof_client_hello_method : Z := 1.
Definition sizeof_server_hello : Z := 2.
Definition sizeof_request_header : Z := 4.
Definition sizeof_reply_header : Z := 4.
Definition sizeof_addr_ipv4 : Z := 6.
Definition sizeof_addr_ipv6 : Z := 18.

(** ** Data *)

Inductive state_t :=
| CONNECTING | SENDING_HELLO | SENT_HELLO | SENDING_PASSWORD | SENT_PASSWORD
| SENDING_REQUEST | SENT_REQUEST | RECEIVED_REPLY_HEADER | UP.

#[global] Instance socks_state_eq_dec : EqDecision state_t.
Proof. solve_decision. Defined.

Record auth_info_t := mk_auth { auth_type : Z; username : list Z; password : list Z }.

Inductive client_event := EVENT_ERROR | EVENT_UP | EVENT_ERROR_CLOSED.

#[global] Instance client_event_eq_dec : EqDecision client_event.
Proof. solve_decision. Defined.

Inductive connection_event := CON_ERROR | CON_RECVCLOSED.

Record t := mk {
  auth_info : list auth_info_t;
  dest_addr : BAddr;
  state : state_t;
  buffer : option (list Z);
  recv_dest : Z;      (** offset in the buffer *)
  recv_len : Z;
  recv_total : Z
}.

Inductive event :=
| ConnectorInit | ConnectorFree
| ConInit | ConFree
| ControlInit | ControlFree
| UpInit | UpFree
| BufferFree
| Send (data : list Z)     (** PacketPassInterface_Sender_Send(send_if, ...) *)
| Recv (off len : Z)       (** StreamRecvInterface_Receiver_Recv(recv_if, buffer + off, len) *)
| Handler (e : client_event).

Definition with_state (s : state_t) (o : t) : t :=
  mk (auth_info o) (dest_addr o) s (buffer o) (recv_dest o) (recv_len o) (recv_total o).
Definition with_buffer (b : option (list Z)) (o : t) : t :=
  mk (auth_info o) (dest_addr o) (state o) b (recv_dest o) (recv_len o) (recv_total o).
Definition with_recv (d l n : Z) (o : t) : t :=
  mk (auth_info o) (dest_addr o) (state o) (buffer o) d l n.

Abbreviation IO := (M t event).

Definition set_state (s : state_t) : IO unit := mmodify (with_state s).

(** [memcpy(o->buffer + off, src, |src|)] and the copy out of the buffer;
    outside the buffer they fault. *)
Definition buffer_write (off : Z) (src : list Z) : IO unit :=
  o ← mget;
  match buffer o with
  | Some b => if off + zlen src <=? zlen b then mput (with_buffer (Some (zwrite off src b)) o) else mabort
  | None => mabort
  end.

Definition buffer_read (n : Z) : IO (list Z) :=
  o ← mget;
  match buffer o with
  | Some b => if n <=? zlen b then mret (ztake n b) else mabort
  | None => mabort
  end.

Definition byte_at (i : nat) (bs : list Z) : Z := nth i bs 0.

(** ** Operations *)

Definition report_error (e : client_event) : IO unit := emit (Handler e).

Definition init_control_io : IO unit := emit ControlInit.
Definition free_control_io : IO unit := emit ControlFree.
Definition init_up_io : IO unit := emit UpInit.
Definition free_up_io : IO unit := emit UpFree.

Definition reserve_buffer (alloc : Z → option (list Z)) (size : bsize_t) : IO bool :=
  if is_overflow size then mret false
  else match alloc (bvalue size) with
       | None => mret false
       | Some b => mmodify (with_buffer (Some b));; mret true
       end.

Definition do_receive `{Build} : IO unit :=
  o ← mget;
  ASSERT (recv_len o <? recv_total o);;
  emit (Recv (recv_dest o + recv_len o) (recv_total o - recv_len o)).

Definition start_receive `{Build} (dest total : Z) : IO unit :=
  ASSERT (0 <? total);;
  mmodify (with_recv dest 0 total);;
  do_receive.

(** [PacketPassInterface_Sender_Send(send_if, buffer, size)] *)
Definition send_buffer (size : Z) : IO unit :=
  data ← buffer_read size;
  emit (Send data).

Definition connector_handler `{Build} (is_error con_ok : bool) (alloc : Z → option (list Z)) : IO unit :=
  o ← mget;
  ASSERT (bool_decide (state o = CONNECTING));;
  (* check connection result *)
  if is_error then report_error EVENT_ERROR
  (* init connection *)
  else if negb con_ok then report_error EVENT_ERROR
  else
    emit ConInit;;
    (* init control I/O *)
    init_control_io;;
    let fail1 := free_control_io;; emit ConFree;; report_error EVENT_ERROR in
    let num_auth_info := zlen (auth_info o) in
    (* check number of methods *)
    if (num_auth_info =? 0) || (255 <? num_auth_info) then fail1
    else
      (* allocate buffer for sending hello *)
      let size := bsize_add (bsize_fromsize sizeof_client_hello_header)
                    (bsize_mul (bsize_fromsize num_auth_info)
                               (bsize_fromsize sizeof_client_hello_method)) in
      ok ← reserve_buffer alloc size;
      if negb ok then fail1
      else
        (* write hello header *)
        buffer_write 0 [hton8 SOCKS_VERSION; hton8 (u8 num_auth_info)];;
        (* write hello methods *)
        buffer_write sizeof_client_hello_header
          (map (λ ai, hton8 (u8 (auth_type ai))) (auth_info o));;
        (* send *)
        send_buffer (bvalue size);;
        set_state SENDING_HELLO.

Definition connection_handler `{Build} (e : connection_event) : IO unit :=
  o ← mget;
  ASSERT (bool_decide (state o ≠ CONNECTING));;
  match state o, e with
  | UP, CON_RECVCLOSED => report_error EVENT_ERROR_CLOSED
  | _, _ => report_error EVENT_ERROR
  end.

Definition auth_finished `{Build} (alloc : Z → option (list Z)) : IO unit :=
  o ← mget;
  (* allocate request buffer *)
  let size := bsize_fromsize sizeof_request_header in
  let size := match dest_addr o with
              | BAddr_IPv4 _ _ => bsize_add size (bsize_fromsize sizeof_addr_ipv4)
              | BAddr_IPv6 _ _ => bsize_add size (bsize_fromsize sizeof_addr_ipv6)
              | _ => size
              end in
  ok ← reserve_buffer alloc size;
  if negb ok then report_error EVENT_ERROR
  else
    (* write request *)
    atyp ← match dest_addr o with
           | BAddr_IPv4 ip port =>
               buffer_write sizeof_request_header (le_bytes 4 ip ++ le_bytes 2 port);;
               mret (hton8 SOCKS_ATYP_IPV4)
           | BAddr_IPv6 ip port =>
               buffer_write sizeof_request_header (ip ++ le_bytes 2 port);;
               mret (hton8 SOCKS_ATYP_IPV6)
           | _ => mabort
           end;
    buffer_write 0 [hton8 SOCKS_VERSION; hton8 SOCKS_CMD_CONNECT; hton8 0; atyp];;
    (* send request *)
    send_buffer (bvalue size);;
    set_state SENDING_REQUEST.

(** The loop over [auth_info]: the first entry of the server's method. *)
Definition find_auth (method : Z) (auths : list auth_info_t) : option auth_info_t :=
  List.find (λ ai, auth_type ai =? method) auths.

Definition received_hello `{Build} (alloc : Z → option (list Z)) : IO unit :=
  o ← mget;
  imsg ← buffer_read sizeof_server_hello;
  if negb (ntoh8 (byte_at 0 imsg) =? SOCKS_VERSION) then report_error EVENT_ERROR
  else match find_auth (ntoh8 (byte_at 1 imsg)) (auth_info o) with
  | None => report_error EVENT_ERROR
  | Some ai =>
      if auth_type ai =? SOCKS_METHOD_NO_AUTHENTICATION_REQUIRED then auth_finished alloc
      else if auth_type ai =? SOCKS_METHOD_USERNAME_PASSWORD then
        let username_len := zlen (username ai) in
        let password_len := zlen (password ai) in
        if (username_len =? 0) || (255 <? username_len) || (password_len =? 0) || (255 <? password_len)
        then report_error EVENT_ERROR
        else
          (* allocate password packet *)
          let size := bsize_fromsize (u32 (1 + 1 + username_len + 1 + password_len)) in
          ok ← reserve_buffer alloc size;
          if negb ok then report_error EVENT_ERROR
          else
            (* write password packet *)
            buffer_write 0 [1];;
            buffer_write 1 [u8 username_len];;
            buffer_write 2 (username ai);;
            buffer_write (2 + username_len) [u8 password_len];;
            buffer_write (2 + username_len + 1) (password ai);;
            (* start sending *)
            send_buffer (bvalue size);;
            set_state SENDING_PASSWORD
      else ASSERT false
  end.

Definition received_reply_header `{Build} : IO unit :=
  imsg ← buffer_read sizeof_reply_header;
  if negb (ntoh8 (byte_at 0 imsg) =? SOCKS_VERSION) then report_error EVENT_ERROR
  else if negb (ntoh8 (byte_at 1 imsg) =? SOCKS_REP_SUCCEEDED) then report_error EVENT_ERROR
  else
    let atyp := ntoh8 (byte_at 3 imsg) in
    (* receive the rest of the reply *)
    if atyp =? SOCKS_ATYP_IPV4 then
      start_receive sizeof_reply_header sizeof_addr_ipv4;; set_state RECEIVED_REPLY_HEADER
    else if atyp =? SOCKS_ATYP_IPV6 then
      start_receive sizeof_reply_header sizeof_addr_ipv6;; set_state RECEIVED_REPLY_HEADER
    else report_error EVENT_ERROR.

Definition received_password_reply `{Build} (alloc : Z → option (list Z)) : IO unit :=
  imsg ← buffer_read 2;
  if negb (byte_at 0 imsg =? 1) then report_error EVENT_ERROR
  else if negb (byte_at 1 imsg =? 0) then report_error EVENT_ERROR
  else auth_finished alloc.

Definition received_reply_rest : IO unit :=
  (* free buffer *)
  emit BufferFree;;
  mmodify (with_buffer None);;
  (* free control I/O *)
  free_control_io;;
  (* init up I/O *)
  init_up_io;;
  set_state UP;;
  (* call handler *)
  emit (Handler EVENT_UP).

Definition recv_handler_done `{Build} (data_len : Z) (alloc : Z → option (list Z)) : IO unit :=
  o ← mget;
  ASSERT (0 <=? data_len);;
  ASSERT (data_len <=? recv_total o - recv_len o);;
  mmodify (with_recv (recv_dest o) (recv_len o + data_len) (recv_total o));;
  if recv_len o + data_len <? recv_total o then do_receive
  else match state o with
  | SENT_HELLO => received_hello alloc
  | SENT_REQUEST => received_reply_header
  | SENT_PASSWORD => received_password_reply alloc
  | RECEIVED_REPLY_HEADER => received_reply_rest
  | _ => ASSERT false
  end.

Definition send_handler_done `{Build} (alloc : Z → option (list Z)) : IO unit :=
  o ← mget;
  ASSERT (bool_decide (is_Some (buffer o)));;
  let receive size total next :=
    ok ← reserve_buffer alloc size;
    if negb ok then report_error EVENT_ERROR
    else start_receive 0 total;; set_state next in
  match state o with
  | SENDING_HELLO =>
      let size := bsize_fromsize sizeof_server_hello in
      receive size (bvalue size) SENT_HELLO
  | SENDING_REQUEST =>
      let size := bsize_add (bsize_fromsize sizeof_reply_header)
                    (bsize_max (bsize_fromsize sizeof_addr_ipv4) (bsize_fromsize sizeof_addr_ipv6)) in
      receive size sizeof_reply_header SENT_REQUEST
  | SENDING_PASSWORD =>
      let size := bsize_fromsize 2 in
      receive size (bvalue size) SENT_PASSWORD
  | _ => ASSERT false
  end.

Definition BSocksClient_auth_none : auth_info_t :=
  mk_auth SOCKS_METHOD_NO_AUTHENTICATION_REQUIRED [] [].
Definition BSocksClient_auth_password (user pass : list Z) : auth_info_t :=
  mk_auth SOCKS_METHOD_USERNAME_PASSWORD user pass.

(** [None] inside: [BConnector_Init] failed. *)
Definition BSocksClient_Init `{Build} (server_addr : BAddr) (auths : list auth_info_t)
    (dest : BAddr) (connector_ok : bool) : option (option (t * list event)) :=
  assert (negb (BAddr_IsInvalid server_addr));;
  assert ((BAddr_type dest =? BADDR_TYPE_IPV4) || (BAddr_type dest =? BADDR_TYPE_IPV6));;
  assert (forallb (λ ai, (auth_type ai =? SOCKS_METHOD_NO_AUTHENTICATION_REQUIRED) ||
                         (auth_type ai =? SOCKS_METHOD_USERNAME_PASSWORD)) auths);;
  Some (if connector_ok then Some (mk auths dest CONNECTING None 0 0 0, [ConnectorInit]) else None).

Definition BSocksClient_Free : IO unit :=
  o ← mget;
  when (bool_decide (state o ≠ CONNECTING))
    ((if bool_decide (state o = UP) then free_up_io else free_control_io);;
     (* free connection *)
     emit ConFree);;
  (* free connector *)
  emit ConnectorFree;;
  (* free buffer *)
  when (bool_decide (is_Some (buffer o))) (emit BufferFree).

(** ** The client with its environment

    [op]: the operation in progress on the control I/O; [sent] and [rcvd]: all
    bytes given to and taken from the connection so far; [con], [control], [up]:
    the resources that are initialised; [failed]: an error was reported, after
    which the object may only be freed. *)

Inductive op_t := NoOp | OpSend | OpRecv (off len : Z).

#[global] Instance op_t_eq_dec : EqDecision op_t.
Proof. solve_decision. Defined.

Record sys := mksys {
  obj : t;
  op : op_t;
  sent : list Z;
  rcvd : list Z;
  connector : bool;
  con : bool;
  control : bool;
  up : bool;
  failed : bool;
  ups : nat        (** number of times UP was reported *)
}.

(** The effect of an event; [None] if it breaks the contract of what it calls:
    a resource initialised twice or freed when it is not there, an operation
    started while another is in progress or without control I/O. *)
Definition apply_event (s : sys) (e : event) : option sys :=
  let 'mksys o p st rc cn c ct u f n := s in
  match e with
  | ConnectorInit => if cn then None else Some (mksys o p st rc true c ct u f n)
  | ConnectorFree => if cn && negb c then Some (mksys o p st rc false c ct u f n) else None
  | ConInit => if c then None else Some (mksys o p st rc cn true ct u f n)
  | ConFree => if c && negb ct && negb u then Some (mksys o p st rc cn false ct u f n) else None
  | ControlInit => if c && negb ct && negb u then Some (mksys o NoOp st rc cn c true u f n) else None
  | ControlFree => if ct then Some (mksys o NoOp st rc cn c false u f n) else None
  | UpInit => if c && negb ct && negb u then Some (mksys o p st rc cn c ct true f n) else None
  | UpFree => if u then Some (mksys o p st rc cn c ct false f n) else None
  | BufferFree => Some s
  | Send data => if ct && bool_decide (p = NoOp) then Some (mksys o OpSend (st ++ data) rc cn c ct u f n) else None
  | Recv off len =>
      if ct && bool_decide (p = NoOp) && (0 <? len) then Some (mksys o (OpRecv off len) st rc cn c ct u f n) else None
  | Handler EVENT_UP => if f then None else Some (mksys o p st rc cn c ct u f (S n))
  | Handler _ => if f then None else Some (mksys o p st rc cn c ct u true n)
  end.

Fixpoint apply_events (s : sys) (es : list event) : option sys :=
  match es with [] => Some s | e :: es => s ← apply_event s e; apply_events s es end.

Definition set_obj (o : t) (s : sys) : sys :=
  mksys o (op s) (sent s) (rcvd s) (connector s) (con s) (control s) (up s) (failed s) (ups s).
Definition set_op (p : op_t) (s : sys) : sys :=
  mksys (obj s) p (sent s) (rcvd s) (connector s) (con s) (control s) (up s) (failed s) (ups s).
Definition set_rcvd (r : list Z) (s : sys) : sys :=
  mksys (obj s) (op s) (sent s) r (connector s) (con s) (control s) (up s) (failed s) (ups s).

Definition run_handler (m : IO unit) (s : sys) : option sys :=
  '(_, o, es) ← m (obj s);
  apply_events (set_obj o s) es.

(** The connection writes [bs] where the receive in progress points, and
    reports it. *)
Definition deliver `{Build} (bs : list Z) (alloc : Z → option (list Z)) (s : sys) : option sys :=
  match op s, buffer (obj s) with
  | OpRecv off len, Some b =>
      if off + zlen bs <=? zlen b then
        run_handler (recv_handler_done (zlen bs) alloc)
          (set_rcvd (rcvd s ++ bs) (set_op NoOp (set_obj (with_buffer (Some (zwrite off bs b)) (obj s)) s)))
      else None
  | _, _ => None
  end.

Inductive action :=
| AConnector (is_error con_ok : bool) (alloc : Z → option (list Z))
| ASent (alloc : Z → option (list Z))
| ARecv (bs : list Z) (alloc : Z → option (list Z))
| AConnection (e : connection_event).

(** Memory from the allocator has the size asked for. *)
Definition good_alloc (alloc : Z → option (list Z)) : Prop :=
  ∀ n b, alloc n = Some b → zlen b = n.

(** An allocator that does not run out of memory. *)
Definition total_alloc (alloc : Z → option (list Z)) : Prop := ∀ n, 0 ≤ n → is_Some (alloc n).

(** What the environment may do: nothing after an error; answer the operation
    in progress; report a connection event when there is a connection. *)
Definition allowed (s : sys) (a : action) : Prop :=
  failed s = false ∧
  match a with
  | AConnector _ _ alloc => con s = false ∧ good_alloc alloc
  | ASent alloc => op s = OpSend ∧ good_alloc alloc
  | ARecv bs alloc => good_alloc alloc ∧ bytes bs ∧
      match op s with OpRecv _ len => 0 < zlen bs ≤ len | _ => False end
  | AConnection _ => con s = true
  end.

Definition act `{Build} (a : action) (s : sys) : option sys :=
  match a with
  | AConnector er ok alloc => run_handler (connector_handler er ok alloc) s
  | ASent alloc => run_handler (send_handler_done alloc) (set_op NoOp s)
  | ARecv bs alloc => deliver bs alloc s
  | AConnection e => run_handler (connection_handler e) s
  end.

Definition start (i : t * list event) : option sys :=
  apply_events (mksys i.1 NoOp [] [] false false false false false 0) i.2.

Inductive reach `{Build} (s0 : sys) : sys → Prop :=
| reach_refl : reach s0 s0
| reach_act s a s' : reach s0 s → allowed s a → act a s = Some s' → reach s0 s'.

End BSocksClient.

(** ** The messages *)

Section messages.
Import BSocksClient.

Definition hello_msg (auths : list auth_info_t) : list Z :=
    [5; u8 (zlen auths)] ++ map (λ ai, u8 (auth_type ai)) auths.

Definition password_msg (ai : auth_info_t) : list Z :=
    [1; zlen (username ai)] ++ username ai ++ [zlen (password ai)] ++ password ai.

Definition request_msg (dest : BAddr) : list Z :=
    match dest with
    | BAddr_IPv4 ip port => [5; 1; 0; 1] ++ le_bytes 4 ip ++ le_bytes 2 port
    | BAddr_IPv6 ip port => [5; 1; 0; 4] ++ ip ++ le_bytes 2 port
    | _ => []
    end.

Definition good_password (ai : auth_info_t) : Prop :=
    0 < zlen (username ai) ≤ 255 ∧ 0 < zlen (password ai) ≤ 255.

(** What was sent after the hello and received when authentication has
      succeeded. *)
Inductive negotiated (auths : list auth_info_t) : list Z → list Z → Prop :=
  | neg_none ai : find_auth 0 auths = Some ai → negotiated auths [] [5; 0]
  | neg_password ai : find_auth 2 auths = Some ai → good_password ai →
      negotiated auths (password_msg ai) [5; 2; 1; 0].

(** The length of an address of a reply. *)
Inductive reply_addr : Z → Z → Prop :=
  | reply_ipv4 : reply_addr 1 6
  | reply_ipv6 : reply_addr 4 18.

(** The beginning of a reply that accepts the client and the request. *)
Definition accepting (auths : list auth_info_t) (rc : list Z) : Prop :=
    ∃ rest sa ra rsv atyp addr, negotiated auths sa ra ∧ reply_addr atyp (zlen addr) ∧
      rc ++ rest = ra ++ [5; 0; rsv; atyp] ++ addr.

(** A step of an environment that serves the client. *)
Definition serving (s : sys) (a : action) : Prop :=
    match a with
    | AConnector er ok alloc => er = false ∧ ok = true ∧ total_alloc alloc ∧ 0 < zlen (auth_info (obj s)) ≤ 255
    | ASent alloc => total_alloc alloc
    | ARecv bs alloc => total_alloc alloc ∧ accepting (auth_info (obj s)) (rcvd s ++ bs)
    | AConnection _ => False
    end.

(** [part] of [total] bytes has arrived at [dest] of the buffer. *)
Definition receiving (o : t) (dest total : Z) (part : list Z) : Prop :=
    recv_dest o = dest ∧ recv_total o = total ∧ recv_len o = zlen part ∧ zlen part < total ∧
    ∃ b, buffer o = Some b ∧ dest + total ≤ zlen b ∧ ztake (zlen part) (zdrop dest b) = part.

(** The bytes exchanged in each state. *)
Definition dialog (o : t) (sent rcvd : list Z) : Prop :=
    let hello := hello_msg (auth_info o) in
    match state o with
    | CONNECTING => sent = [] ∧ rcvd = []
    | SENDING_HELLO => sent = hello ∧ rcvd = []
    | SENT_HELLO => sent = hello ∧ receiving o 0 2 rcvd
    | SENDING_PASSWORD => ∃ ai, find_auth 2 (auth_info o) = Some ai ∧ good_password ai ∧
        sent = hello ++ password_msg ai ∧ rcvd = [5; 2]
    | SENT_PASSWORD => ∃ ai part, find_auth 2 (auth_info o) = Some ai ∧ good_password ai ∧
        sent = hello ++ password_msg ai ∧ rcvd = [5; 2] ++ part ∧ receiving o 0 2 part
    | SENDING_REQUEST => ∃ sa ra, negotiated (auth_info o) sa ra ∧
        sent = hello ++ sa ++ request_msg (dest_addr o) ∧ rcvd = ra
    | SENT_REQUEST => ∃ sa ra part, negotiated (auth_info o) sa ra ∧
        sent = hello ++ sa ++ request_msg (dest_addr o) ∧ rcvd = ra ++ part ∧
        receiving o 0 4 part ∧ (∃ b, buffer o = Some b ∧ zlen b = 22)
    | RECEIVED_REPLY_HEADER => ∃ sa ra rsv atyp n part, negotiated (auth_info o) sa ra ∧
        sent = hello ++ sa ++ request_msg (dest_addr o) ∧ reply_addr atyp n ∧
        rcvd = ra ++ [5; 0; rsv; atyp] ++ part ∧ receiving o 4 n part
    | UP => ∃ sa ra rsv atyp addr, negotiated (auth_info o) sa ra ∧
        sent = hello ++ sa ++ request_msg (dest_addr o) ∧ reply_addr atyp (zlen addr) ∧
        rcvd = ra ++ [5; 0; rsv; atyp] ++ addr
    end.

Definition op_of (o : t) : op_t :=
    match state o with
    | CONNECTING | UP => NoOp
    | SENDING_HELLO | SENDING_PASSWORD | SENDING_REQUEST => OpSend
    | _ => OpRecv (recv_dest o + recv_len o) (recv_total o - recv_len o)
    end.

Record client_wf (o : t) : Prop := {
    cw_auth : Forall (λ ai, auth_type ai = 0 ∨ auth_type ai = 2) (auth_info o);
    cw_dest : match dest_addr o with
              | BAddr_IPv4 _ _ => True
              | BAddr_IPv6 ip _ => length ip = 16%nat
              | _ => False
              end;
    cw_buffer : buffer o = None → state o = CONNECTING ∨ state o = UP
  }.

(** The resources that are there in a state. *)
Definition resources (s : sys) : Prop :=
    connector s = true ∧ con s = bool_decide (state (obj s) ≠ CONNECTING) ∧
    control s = bool_decide (state (obj s) ≠ CONNECTING ∧ state (obj s) ≠ UP) ∧
    up s = bool_decide (state (obj s) = UP).

Record client_inv (s : sys) : Prop := {
    ci_wf : client_wf (obj s);
    ci_res : resources s;
    ci_op : failed s = false → op s = op_of (obj s);
    ci_dialog : failed s = false → dialog (obj s) (sent s) (rcvd s);
    ci_ups : ups s = if bool_decide (state (obj s) = UP) then 1%nat else 0%nat
  }.
End messages.

(** ** Execution *)

Section exec.
Context `{Build}.
Import BSocksClient.

Lemma wp_reserve alloc size o (Q : bool → t → list event → Prop) :
    good_alloc alloc → is_overflow size = false → 0 ≤ bvalue size →
    ((¬ total_alloc alloc) → Q false o []) → (∀ b, zlen b = bvalue size → Q true (with_buffer (Some b) o) []) →
    wp (reserve_buffer alloc size) o Q.
Proof.
    intros Hal Hov Hpos Hf Ht. unfold reserve_buffer. rewrite Hov.
    destruct (alloc (bvalue size)) as [b|] eqn:Ha;
      [|apply wp_ret, Hf; intros Htot; destruct (Htot (bvalue size) Hpos); congruence].
    apply wp_bind, wp_modify, wp_ret. by apply Ht, Hal.
Qed.

Lemma wp_write off src o b (Q : unit → t → list event → Prop) :
    buffer o = Some b → off + zlen src ≤ zlen b →
    Q tt (with_buffer (Some (zwrite off src b)) o) [] → wp (buffer_write off src) o Q.
Proof.
    intros Hb Hl HQ. unfold buffer_write. apply wp_bind, wp_get. rewrite Hb, (proj2 (Z.leb_le _ _)) by lia.
    by apply wp_put.
Qed.

Lemma wp_read n o b (Q : list Z → t → list event → Prop) :
    buffer o = Some b → n ≤ zlen b → Q (ztake n b) o [] → wp (buffer_read n) o Q.
Proof.
    intros Hb Hl HQ. unfold buffer_read. apply wp_bind, wp_get. rewrite Hb, (proj2 (Z.leb_le _ _)) by lia.
    by apply wp_ret.
Qed.

Lemma wp_send_buffer n o b (Q : unit → t → list event → Prop) :
    buffer o = Some b → n ≤ zlen b → Q tt o [Send (ztake n b)] → wp (send_buffer n) o Q.
Proof. intros Hb Hl HQ. apply wp_bind. eapply wp_read; [done..|]. by apply wp_emit. Qed.

Lemma wp_start_receive dest total o (Q : unit → t → list event → Prop) :
    0 < total → Q tt (with_recv dest 0 total o) [Recv dest total] → wp (start_receive dest total) o Q.
Proof.
    intros Ht HQ. unfold start_receive, do_receive. apply wp_bind, wp_assert; [by apply Z.ltb_lt|].
    apply wp_bind, wp_modify, wp_bind, wp_get, wp_bind, wp_assert; [by apply Z.ltb_lt|].
    apply wp_emit. cbn [with_recv recv_dest recv_len recv_total app]. by rewrite Z.add_0_r, Z.sub_0_r.
Qed.

Lemma hello_size n :
    0 ≤ n ≤ 255 →
    let size := bsize_add (bsize_fromsize sizeof_client_hello_header)
                  (bsize_mul (bsize_fromsize n) (bsize_fromsize sizeof_client_hello_method)) in
    is_overflow size = false ∧ bvalue size = 2 + n.
Proof.
    intros Hn. unfold bsize_add, bsize_mul, bsize_fromsize, sizeof_client_hello_header,
      sizeof_client_hello_method, SIZE_MAX. cbn [is_overflow bvalue orb].
    rewrite Z.mul_1_r, !u32_small by lia. split; [|done].
    rewrite (proj2 (Z.ltb_ge _ n)) by lia. rewrite orb_false_r.
    destruct (Z.eqb_spec n 0); [done|]. cbn [negb andb]. apply Z.ltb_ge. Z.div_mod_to_equations. nia.
Qed.

(** Running a handler in the environment. *)
Lemma run_handler_wp m s (P : sys → Prop) :
    wp m (obj s) (λ _ o es, ∃ s', apply_events (set_obj o s) es = Some s' ∧ P s') →
    ∃ s', run_handler m s = Some s' ∧ P s'.
Proof.
    unfold wp, run_handler. destruct (m (obj s)) as [[[a o] es]|]; [|done]. by intros (s' & ? & ?); exists s'.
Qed.

(** The two writes of the request, and the send. *)
Lemma wp_write_request addr atyp o b (Q : unit → t → list event → Prop) :
    buffer o = Some b → zlen b = 4 + zlen addr →
    Q tt (with_state SENDING_REQUEST (with_buffer (Some ([5; 1; 0; atyp] ++ addr)) o)) [Send ([5; 1; 0; atyp] ++ addr)] →
    wp (atyp ← (buffer_write sizeof_request_header addr;; mret (hton8 atyp));
        buffer_write 0 [hton8 SOCKS_VERSION; hton8 SOCKS_CMD_CONNECT; hton8 0; atyp];;
        send_buffer (4 + zlen addr);; set_state SENDING_REQUEST) o Q.
Proof.
    intros Hb Hz HQ. unfold sizeof_request_header.
    assert (Heq : zwrite 0 [5; 1; 0; atyp] (zwrite 4 addr b) = [5; 1; 0; atyp] ++ addr).
    { rewrite <- (ztake_zdrop 4 b) at 1. rewrite zwrite_app by (rewrite zlen_ztake; lia).
      rewrite (zdrop_past (zlen addr)) by (rewrite zlen_zdrop; lia). rewrite app_nil_r.
      apply (zwrite_prefix [5; 1; 0; atyp]). rewrite zlen_ztake; cbn; lia. }
    apply wp_bind, wp_bind. eapply wp_write; [done|lia|]. apply wp_ret, wp_bind.
    eapply wp_write; [done|rewrite zlen_zwrite by lia; cbn [length]; lia|].
    unfold hton8, SOCKS_VERSION, SOCKS_CMD_CONNECT. rewrite Heq.
    apply wp_bind. eapply wp_send_buffer; [done|rewrite zlen_app; cbn [length]; lia|].
    rewrite ztake_all by (rewrite zlen_app; cbn [length]; lia). apply wp_modify. exact HQ.
Qed.

(** The outcomes of [auth_finished]: an error, or the request is sent. *)
Lemma wp_auth_finished alloc o :
    good_alloc alloc → client_wf o →
    wp (auth_finished alloc) o (λ _ o' es,
      (o' = o ∧ es = [Handler EVENT_ERROR] ∧ ¬ total_alloc alloc) ∨
      (∃ b, o' = with_state SENDING_REQUEST (with_buffer (Some b) o)) ∧ es = [Send (request_msg (dest_addr o))]).
Proof.
    intros Hal [_ Hd _]. unfold auth_finished. apply wp_bind, wp_get.
    destruct (dest_addr o) as [|ip port|ip port|] eqn:Hda; try done.
    - apply wp_bind, (wp_reserve alloc); [done|done|done || lia|intros Htot; apply wp_emit; by left|]. intros b Hb. cbn [negb].
      assert (Hz : zlen (le_bytes 4 ip ++ le_bytes 2 port) = 6) by (rewrite length_app, !length_le_bytes; done).
      change (bvalue _) with (4 + 6) in *. rewrite <- Hz in *.
      eapply (wp_write_request _ SOCKS_ATYP_IPV4); [done|done|]. right. split; [eauto|done].
    - apply wp_bind, (wp_reserve alloc); [done|done|done || lia|intros Htot; apply wp_emit; by left|]. intros b Hb. cbn [negb].
      assert (Hz : zlen (ip ++ le_bytes 2 port) = 18) by (rewrite length_app, !length_le_bytes, Hd; done).
      change (bvalue _) with (4 + 18) in *. rewrite <- Hz in *.
      eapply (wp_write_request _ SOCKS_ATYP_IPV6); [done|done|]. right. split; [eauto|done].
Qed.

(** The writes of the password message. *)
Lemma write_password ai b :
    zlen b = zlen (password_msg ai) → 
    zwrite (2 + zlen (username ai) + 1) (password ai)
      (zwrite (2 + zlen (username ai)) [zlen (password ai)]
        (zwrite 2 (username ai) (zwrite 1 [zlen (username ai)] (zwrite 0 [1] b)))) = password_msg ai.
Proof.
    unfold password_msg. rewrite !zlen_app. cbn [length]. intros Hz.
    change (zwrite 0 [1] b) with ([1] ++ zdrop 1 b).
    rewrite (zwrite_app 1) by done. rewrite (app_assoc [1]), (zwrite_app 2) by done.
    rewrite (app_assoc (_ ++ [_])), (zwrite_app (2 + zlen (username ai))) by (rewrite zlen_app; done).
    rewrite (app_assoc (_ ++ username ai)), (zwrite_app (2 + zlen (username ai) + 1)) by (rewrite !zlen_app; cbn [length]; lia).
    cbn [length]. rewrite !zdrop_zdrop by lia. rewrite (zdrop_past _ b) by lia.
    by rewrite app_nil_r, <- !app_assoc.
Qed.
End exec.

Section steps.
Context `{Build}.
Import BSocksClient.

Definition in_control (st : state_t) : Prop := st ≠ CONNECTING ∧ st ≠ UP.

(** Between the steps of a handler: no error yet, nothing in progress. *)
Record client_mid (s : sys) : Prop := {
    cm_wf : client_wf (obj s);
    cm_res : resources s;
    cm_failed : failed s = false;
    cm_op : op s = NoOp;
    cm_ups : ups s = if bool_decide (state (obj s) = UP) then 1%nat else 0%nat
  }.

Lemma mid_error s o' e :
    client_mid s → client_wf o' → state o' = state (obj s) → e ≠ EVENT_UP →
    ∃ s', apply_events (set_obj o' s) [Handler e] = Some s' ∧ client_inv s'.
Proof.
    destruct s as [o p st rc cn c ct u f n]. intros [Hw (Hr1 & Hr2 & Hr3 & Hr4) Hf Hp Hu] Hw' Hst He.
    cbn in *. subst. rewrite <- Hst in *.
    destruct e; try done; (eexists; split; [reflexivity|]; split; cbn; try done).
Qed.

Lemma mid_op s o' e p sn :
    client_mid s → client_wf o' → in_control (state (obj s)) → in_control (state o') →
    apply_event (set_obj o' s) e = Some (mksys o' p sn (rcvd s) (connector s) (con s) (control s) (up s) false (ups s)) →
    p = op_of o' → dialog o' sn (rcvd s) →
    ∃ s', apply_events (set_obj o' s) [e] = Some s' ∧ client_inv s' ∧ failed s' = false.
Proof.
    destruct s as [o p0 st rc cn c ct u f n]. intros [Hw (Hr1 & Hr2 & Hr3 & Hr4) Hf Hp Hu] Hw' [Hc1 Hc2] [Hc1' Hc2'] He Hpo Hd.
    cbn [apply_events]. rewrite He. cbn [mbind option_bind]. eexists. split; [done|]. split; [|done].
    cbn in *. subst.
    split; cbn; try done.
    - unfold resources. cbn. split_and!; [done|..].
      + by rewrite !bool_decide_true.
      + by rewrite !bool_decide_true.
      + by rewrite !bool_decide_false.
    - by rewrite !bool_decide_false.
Qed.

(** A handler that reports an error although the environment serves it does
      not exist. *)
Lemma mid_error_good s o' (good : Prop) :
    client_mid s → client_wf o' → state o' = state (obj s) → ¬ good →
    ∃ s', apply_events (set_obj o' s) [Handler EVENT_ERROR] = Some s' ∧ client_inv s' ∧ (good → failed s' = false).
Proof. intros Hm Hw Hst Hg. destruct (mid_error s o' EVENT_ERROR) as (s' & ? & ?); try done. exists s'. tauto. Qed.

Lemma control_live s : client_mid s → in_control (state (obj s)) → control s = true.
Proof. intros [_ (_ & _ & Hc & _) _ _ _] Hic. rewrite Hc. by apply bool_decide_true. Qed.

Lemma mid_send s o' data :
    client_mid s → client_wf o' → in_control (state (obj s)) → in_control (state o') →
    op_of o' = OpSend → dialog o' (sent s ++ data) (rcvd s) →
    ∃ s', apply_events (set_obj o' s) [Send data] = Some s' ∧ client_inv s' ∧ failed s' = false.
Proof.
    intros Hm Hw Hc Hc' Ho Hd. pose proof (control_live s Hm Hc) as Hct.
    apply (mid_op s o' _ OpSend (sent s ++ data)); try done.
    destruct Hm as [_ _ Hf Hp _]. destruct s. cbn in *. subst. done.
Qed.

Lemma mid_recv s o' :
    client_mid s → client_wf o' → in_control (state (obj s)) → in_control (state o') →
    op_of o' = OpRecv (recv_dest o' + recv_len o') (recv_total o' - recv_len o') →
    recv_len o' < recv_total o' → dialog o' (sent s) (rcvd s) →
    ∃ s', apply_events (set_obj o' s)
            [Recv (recv_dest o' + recv_len o') (recv_total o' - recv_len o')] = Some s' ∧ client_inv s' ∧ failed s' = false.
Proof.
    intros Hm Hw Hc Hc' Ho Hlt Hd. pose proof (control_live s Hm Hc) as Hct.
    eapply (mid_op s o' _ _ (sent s)); try done.
    destruct Hm as [_ _ Hf Hp _]. destruct s. cbn in *. subst. cbn.
    by rewrite (proj2 (Z.ltb_lt 0 _)) by lia.
Qed.

Lemma receiving_new o dest total b :
    buffer o = Some b → 0 < total → dest + total ≤ zlen b → receiving (with_recv dest 0 total o) dest total [].
Proof. intros Hb Ht Hz. unfold receiving. cbn. split_and!; try done. eauto. Qed.

(** *** The connector answers *)

Lemma act_connector s er ok alloc :
    client_inv s → allowed s (AConnector er ok alloc) →
    ∃ s', act (AConnector er ok alloc) s = Some s' ∧ client_inv s' ∧
      (serving s (AConnector er ok alloc) → failed s' = false).
Proof.
    intros [Hw Hr Ho Hd Hu] (Hf & Hcon & Hal). specialize (Ho Hf). specialize (Hd Hf).
    assert (Hst : state (obj s) = CONNECTING).
    { destruct Hr as (_ & Hr & _). rewrite Hcon in Hr. symmetry in Hr. apply bool_decide_eq_false in Hr.
      by destruct (decide (state (obj s) = CONNECTING)). }
    assert (Hm : client_mid s) by (split; try done; by rewrite Ho; unfold op_of; rewrite Hst).
    apply run_handler_wp. unfold connector_handler. apply wp_bind, wp_get, wp_bind, wp_assert; [by apply bool_decide_true|].
    cbn [app]. destruct er; [apply wp_emit, mid_error_good; try done; by intros [? _]|].
    destruct ok; cbn [negb]; [|apply wp_emit, mid_error_good; try done; by intros (_ & ? & _)].
    apply wp_bind, wp_emit, wp_bind, wp_emit.
    destruct s as [o p sn rc cn c ct u f n].
    unfold dialog in Hd. destruct Hr as (Hr1 & Hr2 & Hr3 & Hr4). cbn in *. rewrite Hst in *. subst. cbn in *.
    destruct Hd as [-> ->].
    assert (Hfail : (¬ serving (mksys o NoOp [] [] true false false false false 0) (AConnector false true alloc)) →
      wp (free_control_io;; emit ConFree;; report_error EVENT_ERROR) o
      (λ _ o' es, ∃ s', apply_events (mksys o' NoOp [] [] true false false false false 0)
                          (ConInit :: ControlInit :: es) = Some s' ∧ client_inv s' ∧
                        (serving (mksys o NoOp [] [] true false false false false 0) (AConnector false true alloc) →
                         failed s' = false))).
    { intros Hns. apply wp_bind, wp_emit, wp_bind, wp_emit, wp_emit. eexists. split; [reflexivity|].
      split; [|tauto]. split; cbn; rewrite ?Hst; try done. unfold resources. cbn. by rewrite Hst. }
    destruct ((zlen (auth_info o) =? 0) || (255 <? zlen (auth_info o))) eqn:Hn;
      [apply Hfail; intros (_ & _ & _ & ?); cbn [obj] in *; apply orb_true_iff in Hn; rewrite Z.eqb_eq, Z.ltb_lt in Hn; lia|].
    apply orb_false_iff in Hn as [Hn1%Z.eqb_neq Hn2%Z.ltb_ge].
    assert (Hsz : is_overflow (bsize_add (bsize_fromsize sizeof_client_hello_header)
       (bsize_mul (bsize_fromsize (zlen (auth_info o))) (bsize_fromsize sizeof_client_hello_method))) = false ∧
       bvalue (bsize_add (bsize_fromsize sizeof_client_hello_header)
       (bsize_mul (bsize_fromsize (zlen (auth_info o))) (bsize_fromsize sizeof_client_hello_method))) = 2 + zlen (auth_info o))
      by (apply hello_size; lia).
    destruct Hsz as [Hov Hval]. set (size := bsize_add _ _) in *.
    apply wp_bind, (wp_reserve alloc); [done|done|done || lia|intros Htot; apply Hfail; by intros (_ & _ & ? & _)|].
    intros b Hb. cbn [negb]. rewrite Hval in *.
    set (methods := map _ (auth_info o)).
    assert (Hml : zlen methods = zlen (auth_info o)) by (unfold methods; by rewrite length_map).
    assert (Heq : zwrite 2 methods (zwrite 0 [hton8 SOCKS_VERSION; hton8 (u8 (zlen (auth_info o)))] b) = hello_msg (auth_info o)).
    { rewrite <- (ztake_zdrop 2 b), zwrite_prefix by (rewrite zlen_ztake; cbn [length]; lia).
      rewrite (zwrite_app 2) by done. rewrite (zdrop_past (zlen methods)) by (rewrite zlen_zdrop; lia).
      by rewrite app_nil_r. }
    apply wp_bind. eapply wp_write; [done|cbn [length]; lia|]. apply wp_bind.
    eapply wp_write; [done|rewrite zlen_zwrite; unfold sizeof_client_hello_header; cbn [length]; lia|].
    unfold sizeof_client_hello_header. rewrite Heq.
    change (send_buffer _) with (send_buffer (bvalue size)). rewrite Hval.
    assert (Hhz : zlen (hello_msg (auth_info o)) = 2 + zlen (auth_info o))
      by (unfold hello_msg; rewrite zlen_app, length_map; cbn [length]; lia).
    apply wp_bind. eapply wp_send_buffer; [done|lia|].
    rewrite ztake_all by lia. apply wp_modify. cbn [app].
    eexists. split; [reflexivity|]. split; [|done]. split; cbn; try done. by destruct Hw.
Qed.

(** *** A message was sent *)

Lemma mid_set_op s : client_inv s → failed s = false → client_mid (set_op NoOp s).
Proof. intros [Hw Hr _ _ Hu] Hf. split; try done. Qed.

Lemma act_sent s alloc :
    client_inv s → allowed s (ASent alloc) → 
    ∃ s', act (ASent alloc) s = Some s' ∧ client_inv s' ∧ (serving s (ASent alloc) → failed s' = false).
Proof.
    intros Hi (Hf & Hop & Hal). pose proof (mid_set_op s Hi Hf) as Hm.
    destruct Hi as [Hw Hr Ho Hd Hu]. specialize (Ho Hf). specialize (Hd Hf). rewrite Hop in Ho.
    assert (Hb : is_Some (buffer (obj s))).
    { destruct (buffer (obj s)) eqn:E; [eauto|]. destruct (cw_buffer _ Hw E) as [Hs|Hs];
        unfold op_of in Ho; rewrite Hs in Ho; done. }
    apply run_handler_wp. unfold send_handler_done. apply wp_bind, wp_get, wp_bind, wp_assert; [by apply bool_decide_true|].
    unfold op_of in Ho. unfold dialog in Hd.
    assert (Hrec : ∀ size total next, is_overflow size = false → 0 < total ≤ bvalue size → in_control next →
      (∀ b, zlen b = bvalue size → dialog (with_state next (with_recv 0 0 total (with_buffer (Some b) (obj s)))) (sent s) (rcvd s)) →
      (∀ o, op_of (with_state next o) = OpRecv (recv_dest o + recv_len o) (recv_total o - recv_len o)) →
      in_control (state (obj s)) →
      wp (ok ← reserve_buffer alloc size;
          if negb ok then report_error EVENT_ERROR else start_receive 0 total;; set_state next) (obj s)
        (λ _ o es, ∃ s', apply_events (set_obj o (set_op NoOp s)) es = Some s' ∧ client_inv s' ∧
                     (serving s (ASent alloc) → failed s' = false))).
    { intros size total next Hov Ht Hc Hdl Hopn Hcs.
      apply wp_bind, (wp_reserve alloc); [done|done|done || lia|intros Htot; apply wp_emit; by apply (mid_error_good (set_op NoOp s))|].
      intros b Hbz. cbn [negb]. apply wp_bind, wp_start_receive; [lia|]. apply wp_modify.
      set (o' := with_state next _).
      replace ([] ++ [Recv 0 total] ++ []) with [Recv (recv_dest o' + recv_len o') (recv_total o' - recv_len o')]
        by (cbn; by rewrite Z.sub_0_r).
      destruct (mid_recv (set_op NoOp s) o') as (s' & ? & ? & ?); [done|..|by exists s']; try done.
      - destruct Hw. split; try done.
      - exact (Hopn (with_recv 0 0 total (with_buffer (Some b) (obj s)))).
      - cbn; lia.
      - by apply Hdl. }
    change (obj (set_op NoOp s)) with (obj s) in *. destruct (state (obj s)) eqn:Hst; try done; apply Hrec; try done; intros b Hbz; unfold dialog; cbn [with_state state].
    - destruct Hd as [-> ->]. split; [done|]. eapply receiving_new; [done|done|by rewrite Hbz].
    - destruct Hd as (ai & Hai & Hg & -> & ->). exists ai, []. split_and!; try done.
      eapply receiving_new; [done|done|by rewrite Hbz].
    - destruct Hd as (sa & ra & Hn & -> & ->). change (bvalue _) with 22 in Hbz. exists sa, ra, [].
      rewrite app_nil_r. split_and!; try done; [|by exists b].
      eapply receiving_new; [done|lia|]. lia.
Qed.

(** *** The connection reports an event *)

Lemma act_connection s e :
    client_inv s → allowed s (AConnection e) → 
    ∃ s', act (AConnection e) s = Some s' ∧ client_inv s' ∧ (serving s (AConnection e) → failed s' = false).
Proof.
    intros [Hw Hr Ho Hd Hu] (Hf & Hcon). specialize (Ho Hf). specialize (Hd Hf).
    assert (Hst : state (obj s) ≠ CONNECTING).
    { destruct Hr as (_ & Hr & _). rewrite Hcon in Hr. symmetry in Hr. by apply bool_decide_eq_true in Hr. }
    apply run_handler_wp. unfold connection_handler. apply wp_bind, wp_get, wp_bind, wp_assert; [by apply bool_decide_true|].
    assert (Hi : ∀ ev, ev ≠ EVENT_UP → 
      ∃ s', apply_events (set_obj (obj s) s) [Handler ev] = Some s' ∧ client_inv s' ∧ (serving s (AConnection e) → failed s' = false)).
    { intros ev Hev. destruct s as [o p sn rc cn c ct u f n]. cbn in *. subst f.
      destruct ev; try done; (eexists; split; [reflexivity|]; split; [|done]; split; cbn; try done). }
    destruct (state (obj s)), e; apply wp_emit; by apply Hi.
Qed.

(** *** Bytes arrive *)

(** The object when [bs] has arrived but the handler has not looked at it. *)
Definition arrived_obj (bs b : list Z) (o : t) : t :=
    with_recv (recv_dest o) (recv_len o + zlen bs) (recv_total o)
      (with_buffer (Some (zwrite (recv_dest o + recv_len o) bs b)) o).

Lemma receiving_more o dest total part bs b :
    receiving o dest total part → 0 ≤ dest → buffer o = Some b → zlen part + zlen bs ≤ total →
    let b' := zwrite (recv_dest o + recv_len o) bs b in
    zlen b' = zlen b ∧ ztake (zlen (part ++ bs)) (zdrop dest b') = part ++ bs ∧ dest + total ≤ zlen b.
Proof.
    intros (Hd & Ht & Hl & Hlt & b0 & Hb & Hz & Hp) Hd0 Hb0 Hle b'. rewrite Hb in Hb0. injection Hb0 as ->.
    unfold b'. rewrite Hd, Hl. split; [rewrite zlen_zwrite; lia|]. split; [|done].
    rewrite <- (ztake_zdrop (dest + zlen part) b), zwrite_app by (rewrite zlen_ztake; lia).
    replace (ztake (dest + zlen part) b) with (ztake dest b ++ part).
    2: { rewrite <- (ztake_zdrop dest (ztake (dest + zlen part) b)). rewrite <- Hp at 1. unfold ztake, zdrop.
         rewrite take_take, skipn_firstn_comm. f_equal; f_equal; lia. }
    rewrite <- app_assoc, zdrop_app_exact by (rewrite zlen_ztake; lia).
    rewrite app_assoc. by apply ztake_app_exact.
Qed.

(** A receive that is complete: the whole message is at [dest]. *)
Lemma whole_message o dest total part bs b :
    receiving o dest total part → 0 ≤ dest → buffer o = Some b → zlen part + zlen bs = total →
    ∃ b', buffer (arrived_obj bs b o) = Some b' ∧ zlen b' = zlen b ∧ dest + total ≤ zlen b' ∧
      ztake total (zdrop dest b') = part ++ bs.
Proof.
    intros Hr Hd Hb Hle. destruct (receiving_more _ _ _ _ bs b Hr Hd Hb ltac:(lia)) as (Hz & Ht & Hle').
    eexists. split; [done|]. split_and!; [done|lia|]. rewrite <- Ht. f_equal. rewrite zlen_app. lia.
Qed.

(** Part of a message: the receive goes on. *)
Lemma receiving_part o dest total part bs b :
    receiving o dest total part → 0 ≤ dest → buffer o = Some b → zlen part + zlen bs < total →
    receiving (arrived_obj bs b o) dest total (part ++ bs).
Proof.
    intros Hr Hd Hb Hlt. destruct (receiving_more _ _ _ _ bs b Hr Hd Hb ltac:(lia)) as (Hz & Ht & Hle).
    destruct Hr as (Hd' & Ht' & Hl & _). unfold receiving. cbn [arrived_obj with_recv with_buffer recv_dest recv_total recv_len buffer].
    rewrite zlen_app. split_and!; try done; try lia. eexists. split; [done|]. split; [lia|]. by rewrite <- zlen_app.
Qed.

(** In a state that receives, what is in progress. *)
Lemma receiving_state s :
    client_inv s → failed s = false → (∃ off len, op s = OpRecv off len) →
    in_control (state (obj s)) ∧
    (∃ dest total part, receiving (obj s) dest total part ∧ 0 ≤ dest) ∧
    op s = OpRecv (recv_dest (obj s) + recv_len (obj s)) (recv_total (obj s) - recv_len (obj s)) ∧
    op_of (obj s) = op s.
Proof.
    intros [_ _ Ho Hd _] Hf (off & len & Hop). specialize (Ho Hf). specialize (Hd Hf).
    rewrite Ho in *. unfold op_of, dialog in *. destruct (state (obj s)); try done.
    - destruct Hd as [_ Hr]. split; [done|]. split; [eexists 0, _, _; by split|done].
    - destruct Hd as (? & ? & _ & _ & _ & _ & Hr). split; [done|]. split; [eexists 0, _, _; by split|done].
    - destruct Hd as (? & ? & ? & _ & _ & _ & Hr & _). split; [done|]. split; [eexists 0, _, _; by split|done].
    - destruct Hd as (? & ? & ? & ? & ? & ? & _ & _ & _ & _ & Hr). split; [done|]. split; [eexists 4, _, _; by split|done].
Qed.

Lemma dialog_part o bs b sn rc :
    (∃ x y, op_of o = OpRecv x y) → dialog o sn rc → buffer o = Some b →
    recv_len o + zlen bs < recv_total o → dialog (arrived_obj bs b o) sn (rc ++ bs).
Proof.
    unfold op_of, dialog. intros (x & y & Hop) Hd Hb Hlt.
    cbn [arrived_obj with_recv with_buffer state auth_info dest_addr]. destruct (state o); try done.
    - destruct Hd as [-> Hr]. split; [done|]. pose proof Hr as (_ & ? & ? & _). apply receiving_part; try done; lia.
    - destruct Hd as (ai & part & ? & ? & -> & -> & Hr). exists ai, (part ++ bs). rewrite app_assoc. split_and!; try done.
      pose proof Hr as (_ & ? & ? & _). apply receiving_part; try done; lia.
    - destruct Hd as (sa & ra & part & ? & -> & -> & Hr & b0 & Hb0 & Hz). exists sa, ra, (part ++ bs).
      pose proof Hr as (_ & ? & ? & _). split_and!; try done; [by rewrite <- app_assoc|apply receiving_part; try done; lia|].
      destruct (receiving_more _ _ _ _ bs b Hr ltac:(lia) Hb ltac:(lia)) as (Hz' & _).
      eexists. split; [done|]. rewrite Hz'. congruence.
    - destruct Hd as (sa & ra & rsv & atyp & n & part & ? & -> & ? & -> & Hr). exists sa, ra, rsv, atyp, n, (part ++ bs).
      rewrite <- !app_assoc. pose proof Hr as (_ & ? & ? & _). split_and!; try done. apply receiving_part; try done; lia.
Qed.
End steps.

Section receive.
Context `{Build}.
Import BSocksClient.

Context (s : sys) (o : t) (alloc : Z → option (list Z)) (good : Prop).
Hypothesis (Hm : client_mid s) (Hw : client_wf o) (Hst : state o = state (obj s))
    (Hc : in_control (state o)) (Hal : good_alloc alloc)
    (Hgood : good → total_alloc alloc ∧ accepting (auth_info o) (rcvd s)).

Definition outcome : unit → t → list event → Prop :=
    λ _ o' es, ∃ s', apply_events (set_obj o' s) es = Some s' ∧ client_inv s' ∧ (good → failed s' = false).

Lemma outcome_error : ¬ good → wp (report_error EVENT_ERROR) o outcome.
Proof. intros Hg. apply wp_emit. by apply mid_error_good. Qed.

Lemma outcome_ok o' es :
    (∃ s', apply_events (set_obj o' s) es = Some s' ∧ client_inv s' ∧ failed s' = false) → outcome tt o' es.
Proof. intros (s' & ? & ? & ?). by exists s'. Qed.

Lemma wf_buffer st b : client_wf (with_state st (with_buffer (Some b) o)).
Proof. destruct Hw. by split. Qed.

Lemma outcome_auth_finished sa ra :
    negotiated (auth_info o) sa ra → sent s = hello_msg (auth_info o) ++ sa → rcvd s = ra →
    wp (auth_finished alloc) o outcome.
Proof.
    intros Hn Hs Hr. eapply wp_mono; [by apply wp_auth_finished|].
    intros [] o' es [(-> & -> & Htot)|[[b ->] ->]]; [apply mid_error_good; tauto|].
    apply outcome_ok, (mid_send s); try done; [apply wf_buffer|by rewrite <- Hst|].
    unfold dialog. cbn [with_state with_buffer state auth_info dest_addr].
    exists sa, ra. by rewrite Hs, <- app_assoc.
Qed.

Lemma two_bytes (l : list Z) : zlen l = 2 → ∃ x y, l = [x; y].
Proof. intros Hl. destruct l as [|x [|y [|z l]]]; cbn in Hl; try lia. eauto. Qed.

(** What an accepting server may have said so far. *)
Lemma accepting_inv : good →
    ∃ rest sa ra rsv atyp addr, negotiated (auth_info o) sa ra ∧ reply_addr atyp (zlen addr) ∧
      rcvd s ++ rest = ra ++ [5; 0; rsv; atyp] ++ addr.
Proof. intros Hg. apply Hgood in Hg as [_ Ha]. exact Ha. Qed.

Lemma outcome_hello b :
    buffer o = Some b → 2 ≤ zlen b → ztake 2 b = rcvd s → sent s = hello_msg (auth_info o) →
    wp (received_hello alloc) o outcome.
Proof.
    intros Hb Hz Ht Hs. unfold received_hello. apply wp_bind, wp_get, wp_bind. eapply wp_read; [done|done|].
    destruct (two_bytes (ztake 2 b)) as (x & y & Hxy); [by rewrite zlen_ztake by lia|]. rewrite Hxy in *.
    change (ztake sizeof_server_hello b) with (ztake 2 b). rewrite Hxy.
    assert (Hgd : good → x = 5 ∧ ∃ ai, find_auth y (auth_info o) = Some ai ∧ (y = 2 → good_password ai)).
    { intros Hg. destruct (accepting_inv Hg) as (rest & sa & ra & rsv & atyp & addr & Hn & _ & Hr).
      rewrite <- Ht in Hr. destruct Hn as [ai Hai|ai Hai Hgp]; injection Hr as -> -> _; (split; [done|]); by exists ai. }
    unfold byte_at, ntoh8, hton8. cbn [nth]. unfold SOCKS_VERSION.
    destruct (Z.eqb_spec x 5) as [->|]; cbn [negb]; [|apply outcome_error; tauto].
    destruct (find_auth y (auth_info o)) as [ai|] eqn:Hf; [|apply outcome_error; naive_solver].
    apply find_some in Hf as Hin. destruct Hin as [Hin Hty%Z.eqb_eq]. rewrite Hty.
    pose proof (cw_auth _ Hw) as Ha. rewrite List.Forall_forall in Ha. specialize (Ha _ Hin) as [Hy|Hy]; rewrite Hty in Hy; subst y.
    - rewrite Hy in *. cbn [Z.eqb SOCKS_METHOD_NO_AUTHENTICATION_REQUIRED].
      apply (outcome_auth_finished [] [5; 0]); [by econstructor|by rewrite app_nil_r|done].
    - rewrite Hy in *. cbn [Z.eqb SOCKS_METHOD_NO_AUTHENTICATION_REQUIRED SOCKS_METHOD_USERNAME_PASSWORD Pos.eqb].
      assert (Hgp : good → good_password ai) by (intros Hg; destruct (Hgd Hg) as (_ & ai' & [= <-] & ?); auto).
      destruct (_ || _ || _ || _)%bool eqn:Hlen.
      { apply outcome_error. intros [? ?]%Hgp. rewrite !orb_true_iff, !Z.eqb_eq, !Z.ltb_lt in Hlen. lia. }
      bool_props. assert (Hg : good_password ai) by (split; lia). clear Hgp Hgd.
      assert (Hzp : zlen (password_msg ai) = 3 + zlen (username ai) + zlen (password ai))
        by (unfold password_msg; rewrite !zlen_app; cbn [length]; lia).
      apply wp_bind, (wp_reserve alloc); [done|done|apply Z.mod_pos_bound; lia|intros Htot; apply outcome_error; tauto|]. intros b' Hb'. cbn [negb].
      cbn [bsize_fromsize bvalue] in *. rewrite u32_small in * by lia.
      pose proof (write_password ai b' ltac:(lia)) as Hwp.
      assert (Hu : ∀ n, 0 < n ≤ 255 → u8 n = n) by (intros; apply Z.mod_small; lia). destruct Hg as [Hg1 Hg2].
      rewrite !Hu by done.
      do 5 (apply wp_bind; eapply wp_write; [done|zw_len; cbn [length]; lia|]).
      rewrite Hwp. apply wp_bind. eapply wp_send_buffer; [done|lia|]. rewrite ztake_all by lia.
      apply wp_modify. rewrite !app_nil_l, app_nil_r.
      apply outcome_ok, (mid_send s); try done; [by destruct Hw|by rewrite <- Hst|].
      unfold dialog. cbn [with_state with_buffer state auth_info dest_addr]. exists ai. by rewrite Hs.
Qed.

Lemma outcome_password_reply b ai part :
    buffer o = Some b → 2 ≤ zlen b → ztake 2 b = part → rcvd s = [5; 2] ++ part →
    find_auth 2 (auth_info o) = Some ai → good_password ai →
    sent s = hello_msg (auth_info o) ++ password_msg ai →
    wp (received_password_reply alloc) o outcome.
Proof.
    intros Hb Hz Ht Hr Hai Hg Hs. unfold received_password_reply. apply wp_bind. eapply wp_read; [done|done|].
    destruct (two_bytes (ztake 2 b)) as (x & y & Hxy); [by rewrite zlen_ztake by lia|]. rewrite Hxy in *. subst part.
    assert (Hgd : good → x = 1 ∧ y = 0).
    { intros Hgo. destruct (accepting_inv Hgo) as (rest & sa & ra & rsv & atyp & addr & Hn & _ & Hrr).
      rewrite Hr in Hrr. destruct Hn as [? ?|? ? ?]; [done|]. by injection Hrr as -> -> _. }
    unfold byte_at. cbn [nth]. destruct (Z.eqb_spec x 1) as [->|]; cbn [negb]; [|apply outcome_error; tauto].
    destruct (Z.eqb_spec y 0) as [->|]; cbn [negb]; [|apply outcome_error; tauto].
    apply (outcome_auth_finished (password_msg ai) [5; 2; 1; 0]); [by econstructor|done|done].
Qed.

Lemma outcome_reply_header b sa ra part :
    buffer o = Some b → zlen b = 22 → ztake 4 b = part → rcvd s = ra ++ part →
    negotiated (auth_info o) sa ra → sent s = hello_msg (auth_info o) ++ sa ++ request_msg (dest_addr o) →
    wp received_reply_header o outcome.
Proof.
    intros Hb Hz Ht Hr Hn Hs. unfold received_reply_header. apply wp_bind.
    eapply wp_read; [done|unfold sizeof_reply_header; lia|]. change (ztake sizeof_reply_header b) with (ztake 4 b).
    assert (Hl : zlen (ztake 4 b) = 4) by (rewrite zlen_ztake; lia). rewrite Ht in *.
    destruct part as [|x0 [|x1 [|x2 [|x3 [|? ?]]]]]; cbn in Hl; try lia. clear Hl Ht.
    assert (Hgd : good → x0 = 5 ∧ x1 = 0 ∧ (x3 = 1 ∨ x3 = 4)).
    { intros Hgo. destruct (accepting_inv Hgo) as (rest & sa' & ra' & rsv & atyp & addr & Hn' & Ha & Hrr).
      rewrite Hr in Hrr. destruct Ha, Hn, Hn'; injection Hrr as; simplify_eq; auto. }
    unfold byte_at, ntoh8, hton8. cbn [nth]. unfold SOCKS_VERSION, SOCKS_REP_SUCCEEDED.
    destruct (Z.eqb_spec x0 5) as [->|]; cbn [negb]; [|apply outcome_error; tauto].
    destruct (Z.eqb_spec x1 0) as [->|]; cbn [negb]; [|apply outcome_error; tauto].
    assert (Hrest : ∀ n, reply_addr x3 n → 0 < n ≤ 18 →
      wp (start_receive sizeof_reply_header n;; set_state RECEIVED_REPLY_HEADER) o outcome).
    { intros n Hra Hn18. apply wp_bind, wp_start_receive; [lia|]. apply wp_modify.
      set (o' := with_state _ _).
      replace ([Recv sizeof_reply_header n] ++ []) with [Recv (recv_dest o' + recv_len o') (recv_total o' - recv_len o')]
        by (cbn; by rewrite Z.sub_0_r).
      apply outcome_ok, (mid_recv s o'); try done;
        [destruct Hw; split; try done; cbn; congruence|by rewrite <- Hst|cbn; lia|].
      unfold dialog, o'. cbn [with_state with_recv state auth_info dest_addr].
      exists sa, ra, x2, x3, n, []. split_and!; try done.
      apply (receiving_new _ _ _ b); [done|lia|]. unfold sizeof_reply_header. lia. }
    destruct (Z.eqb_spec x3 SOCKS_ATYP_IPV4) as [->|]; [apply Hrest; [constructor|done]|].
    destruct (Z.eqb_spec x3 SOCKS_ATYP_IPV6) as [->|]; [apply Hrest; [constructor|done]|].
    apply outcome_error. tauto.
Qed.

Lemma outcome_reply_rest sa ra rsv atyp addr :
    rcvd s = ra ++ [5; 0; rsv; atyp] ++ addr → reply_addr atyp (zlen addr) →
    negotiated (auth_info o) sa ra → sent s = hello_msg (auth_info o) ++ sa ++ request_msg (dest_addr o) →
    wp received_reply_rest o outcome.
Proof.
    intros Hr Ha Hn Hs. unfold received_reply_rest.
    apply wp_bind, wp_emit, wp_bind, wp_modify, wp_bind, wp_emit, wp_bind, wp_emit, wp_bind, wp_modify, wp_emit.
    cbn [app]. apply outcome_ok.
    pose proof Hm as [_ (Hr1 & Hr2 & Hr3 & Hr4) Hf Hp Hu]. destruct s as [so p sn rc cn c ct u f n].
    cbn [BSocksClient.obj BSocksClient.op BSocksClient.connector BSocksClient.con BSocksClient.control BSocksClient.up BSocksClient.failed BSocksClient.ups BSocksClient.sent BSocksClient.rcvd] in *.
    rewrite <- Hst in *. destruct Hc as [Hc1 Hc2].
    rewrite bool_decide_true in Hr2, Hr3 by done. rewrite bool_decide_false in Hr4, Hu by done. subst.
    eexists. split; [reflexivity|]. split; [|done]. destruct Hw. split; cbn; try done.
    - split; cbn; try done. by right.
    - intros _. exists sa, ra, rsv, atyp, addr. done.
Qed.
End receive.

Section receive_step.
Context `{Build}.
Import BSocksClient.

Lemma act_recv s bs alloc :
    client_inv s → allowed s (ARecv bs alloc) →
    ∃ s', act (ARecv bs alloc) s = Some s' ∧ client_inv s' ∧ (serving s (ARecv bs alloc) → failed s' = false).
Proof.
    intros Hi (Hf & Hal & Hbs & Hlen).
    destruct (op s) as [| |off len] eqn:Hop; try done.
    destruct (receiving_state s Hi Hf) as (Hc & (dest & total & part & Hr & Hd0) & Hop' & Hopo); [by rewrite Hop; eauto|].
    pose proof Hi as [Hw Hres _ Hdl Hu]. specialize (Hdl Hf). rewrite Hop in Hop'. injection Hop' as -> ->.
    pose proof Hr as (Hrd & Hrt & Hrl & Hlt & b & Hb & Hbz & _).
    destruct (receiving_more _ _ _ _ bs b Hr Hd0 Hb ltac:(lia)) as (Hz' & _ & _).
    cbn [act]. unfold deliver. rewrite Hop, Hb, (proj2 (Z.leb_le _ (zlen b))) by lia.
    set (s1 := set_rcvd _ _).
    assert (Hm1 : client_mid s1) by (split; try done; destruct Hw; by split).
    apply run_handler_wp. unfold recv_handler_done.
    apply wp_bind, wp_get, wp_bind, wp_assert; [apply Z.leb_le; lia|]. apply wp_bind, wp_assert; [apply Z.leb_le; cbn; lia|].
    apply wp_bind, wp_modify. change (with_recv _ _ _ (obj s1)) with (arrived_obj bs b (obj s)).
    assert (Hw1 : client_wf (arrived_obj bs b (obj s))) by (destruct Hw; by split).
    change (recv_len (obj s1)) with (recv_len (obj s)). change (recv_total (obj s1)) with (recv_total (obj s)).
    change (state (obj s1)) with (state (obj s)).
    destruct (Z.ltb_spec (recv_len (obj s) + zlen bs) (recv_total (obj s))) as [Hpart|Hwhole].
    - unfold do_receive. apply wp_bind, wp_get, wp_bind, wp_assert; [by apply Z.ltb_lt|]. apply wp_emit. rewrite !app_nil_l.
      apply outcome_ok, (mid_recv s1); try done; [rewrite Hop in Hopo; unfold op_of in *; cbn [arrived_obj with_recv with_buffer state]; by destruct (state (obj s))|].
      apply dialog_part; try done. rewrite Hopo, Hop. eauto.
    - assert (Heq : recv_len (obj s) + zlen bs = recv_total (obj s)) by lia.
      assert (Hgd : serving s (ARecv bs alloc) →
        total_alloc alloc ∧ accepting (auth_info (arrived_obj bs b (obj s))) (rcvd s1)) by done.
      assert (Hc1 : in_control (state (arrived_obj bs b (obj s)))) by done.
      assert (Hst1 : state (arrived_obj bs b (obj s)) = state (obj s1)) by done.
      unfold dialog in Hdl. clear part Hr Hrd Hrt Hrl Hlt dest total Hd0 Hbz.
      destruct (state (obj s)) eqn:Hst; try (by unfold op_of in Hopo; rewrite Hst, Hop in Hopo).
      + destruct Hdl as [Hs Hr]. pose proof Hr as (_ & ? & ? & _).
        destruct (whole_message _ _ _ _ bs b Hr ltac:(lia) Hb ltac:(lia)) as (b' & Hb' & Hzb & Hle & Ht).
        eapply (outcome_hello s1 _ _ _ Hm1 Hw1 Hst1 Hc1 Hal Hgd b'); done.
      + destruct Hdl as (ai & part & Hai & Hg & Hs & Hrc & Hr). pose proof Hr as (_ & ? & ? & _).
        destruct (whole_message _ _ _ _ bs b Hr ltac:(lia) Hb ltac:(lia)) as (b' & Hb' & Hzb & Hle & Ht).
        eapply (outcome_password_reply s1 _ _ _ Hm1 Hw1 Hst1 Hc1 Hal Hgd b' ai (part ++ bs)); try done.
        cbn [s1 set_rcvd rcvd]. by rewrite Hrc, <- app_assoc.
      + destruct Hdl as (sa & ra & part & Hn & Hs & Hrc & Hr & b0 & Hb0 & Hz0). pose proof Hr as (_ & ? & ? & _).
        destruct (whole_message _ _ _ _ bs b Hr ltac:(lia) Hb ltac:(lia)) as (b' & Hb' & Hzb & Hle & Ht).
        rewrite Hb in Hb0. injection Hb0 as <-.
        eapply (outcome_reply_header s1 _ _ _ Hm1 Hw1 Hst1 Hc1 Hgd b' sa ra (part ++ bs)); try done; [lia|].
        cbn [s1 set_rcvd rcvd]. by rewrite Hrc, <- app_assoc.
      + destruct Hdl as (sa & ra & rsv & atyp & n & part & Hn & Hs & Ha & Hrc & Hr). pose proof Hr as (_ & ? & ? & _).
        eapply (outcome_reply_rest s1 _ alloc _ Hm1 Hw1 Hst1 Hc1 Hgd sa ra rsv atyp (part ++ bs)); try done.
        * cbn [s1 set_rcvd rcvd]. by rewrite Hrc, <- !app_assoc.
        * rewrite zlen_app. replace (zlen part + zlen bs) with n by lia. done.
Qed.

Lemma act_inv s a :
    client_inv s → allowed s a →
    ∃ s', act a s = Some s' ∧ client_inv s' ∧ (serving s a → failed s' = false).
Proof.
    destruct a as [er ok alloc|alloc|bs alloc|e]; auto using act_connector, act_sent, act_recv, act_connection.
Qed.
End receive_step.

Section reachable.
Context `{Build}.
Import BSocksClient.

Definition good_client (auths : list auth_info_t) (dest : BAddr) : Prop :=
    Forall (λ ai, auth_type ai = 0 ∨ auth_type ai = 2) auths ∧ addr_wf dest ∧
    (BAddr_type dest = BADDR_TYPE_IPV4 ∨ BAddr_type dest = BADDR_TYPE_IPV6).

Lemma start_inv server auths dest i :
    BSocksClient_Init server auths dest true = Some (Some i) → good_client auths dest →
    ∃ s0, start i = Some s0 ∧ client_inv s0.
Proof.
    intros Hi (Ha & Hw & Ht). unfold BSocksClient_Init in Hi.
    repeat match type of Hi with assert ?x ≫= _ = _ => destruct (assert x); [|done]; cbn [mbind option_bind] in Hi end.
    injection Hi as <-. eexists. split; [reflexivity|]. split; cbn; try done.
    split; cbn; try done; [|by left].
    destruct dest as [|ip port|ip port|]; destruct Ht; try done. by destruct Hw.
Qed.

Lemma start_fresh server auths dest i s0 :
    BSocksClient_Init server auths dest true = Some (Some i) → start i = Some s0 →
    state (obj s0) = CONNECTING ∧ failed s0 = false ∧ auth_info (obj s0) = auths ∧ dest_addr (obj s0) = dest ∧ rcvd s0 = [].
Proof.
    intros Hi Hs0. unfold BSocksClient_Init in Hi.
    repeat match type of Hi with assert ?x ≫= _ = _ => destruct (assert x); [|done]; cbn [mbind option_bind] in Hi end.
    injection Hi as <-. by injection Hs0 as <-.
Qed.

Lemma reach_inv s0 s : client_inv s0 → reach s0 s → client_inv s.
Proof.
    intros H0. induction 1 as [|s a s' _ IH Hal Hact]; [done|].
    destruct (act_inv s a IH Hal) as (s1 & Hact' & Hi & _). congruence.
Qed.

(** Served by an environment that accepts the client. *)
Inductive served (s0 : sys) : sys → Prop :=
  | served_refl : served s0 s0
  | served_act s a s' : served s0 s → allowed s a → serving s a → act a s = Some s' → served s0 s'.

Lemma served_inv s0 s :
    client_inv s0 → failed s0 = false → served s0 s → client_inv s ∧ failed s = false.
Proof.
    intros H0 Hf. induction 1 as [|s a s' _ [IH IHf] Hal Hsv Hact]; [done|].
    destruct (act_inv s a IH Hal) as (s1 & Hact' & Hi & Hs). rewrite Hact in Hact'. injection Hact' as <-. auto.
Qed.

(** When the whole reply has been received the client is up. *)
Lemma complete_up o sn rc sa ra rsv atyp addr :
    dialog o sn rc → negotiated (auth_info o) sa ra → reply_addr atyp (zlen addr) →
    rc = ra ++ [5; 0; rsv; atyp] ++ addr → state o = UP.
Proof.
    intros Hd Hn Ha Hr. pose proof (f_equal (@length Z) Hr) as Hlen. rewrite !length_app in Hlen. cbn [length] in Hlen.
    assert (Hal : 6 ≤ zlen addr) by (destruct Ha; lia).
    unfold dialog in Hd. destruct (state o); try done; exfalso.
    - destruct Hd as [_ ->]. cbn in Hlen. lia.
    - destruct Hd as [_ ->]. cbn in Hlen. lia.
    - destruct Hd as [_ (_ & _ & _ & Hlt & _)]. lia.
    - destruct Hd as (ai & _ & _ & _ & ->). cbn in Hlen. lia.
    - destruct Hd as (ai & part & _ & _ & _ & -> & (_ & _ & _ & Hlt & _)). cbn in Hlen. lia.
    - destruct Hd as (sa' & ra' & Hn' & _ & ->). destruct Hn'; cbn in Hlen; lia.
    - destruct Hd as (sa' & ra' & part & Hn' & _ & -> & (_ & _ & _ & Hlt & _) & _).
      rewrite length_app in Hlen. destruct Hn, Hn'; try done; cbn in Hlen; lia.
    - destruct Hd as (sa' & ra' & rsv' & atyp' & n & part & Hn' & _ & Ha' & -> & (_ & _ & _ & Hlt & _)).
      assert (Heq : atyp' = atyp) by (destruct Hn, Hn'; by injection Hr).
      assert (Hn2 : n = zlen addr) by (destruct Ha; inversion Ha'; subst; done).
      rewrite !length_app in Hlen. destruct Hn, Hn'; try done; cbn [length] in Hlen; lia.
Qed.

Lemma free_inv s :
    client_inv s →
    ∃ s', run_handler BSocksClient_Free s = Some s' ∧
      connector s' = false ∧ con s' = false ∧ control s' = false ∧ up s' = false.
Proof.
    intros [_ (Hr1 & Hr2 & Hr3 & Hr4) _ _ _]. destruct s as [o p sn rc cn c ct u f n]. cbn in *. subst.
    unfold run_handler, BSocksClient_Free, when, free_up_io, free_control_io, emit, mget, mbind at 1, M_bind, mret, M_ret.
    cbn [obj]. destruct o as [au da st bf d l tt']. cbn [state buffer].
    destruct st, bf; cbn; repeat (rewrite bool_decide_true by done); repeat (rewrite bool_decide_false by naive_solver);
      (eexists; split; [reflexivity|]; done).
Qed.
End reachable.

(** ** A server that accepts the client

    It answers what the client asks for, and nothing else: it reports that a message was
    sent, and gives the client what it asked for of the reply [rest], in pieces whose
    sizes [cut] chooses. *)
Section serve.
Context `{Build}.
Import BSocksClient.

(** At least one byte of the reply and at most as many as the client asked for. *)
Definition piece (cut : list Z → Z → Z) (rest : list Z) (len : Z) : Z := Z.max 1 (Z.min len (cut rest len)).

(** The client with this server, until it is up; [None] when it asks for nothing and is
    not up, when a step fails, or after [fuel] steps. *)
Fixpoint serve (alloc : Z → option (list Z)) (cut : list Z → Z → Z) (fuel : nat) (rest : list Z) (s : sys) : option (sys * list Z) :=
    if bool_decide (state (obj s) = UP) then Some (s, rest) else
    match fuel with
    | O => None
    | S fuel =>
        match op s with
        | NoOp => if con s then None else s ← act (AConnector false true alloc) s; serve alloc cut fuel rest s
        | OpSend => s ← act (ASent alloc) s; serve alloc cut fuel rest s
        | OpRecv _ len =>
            let n := piece cut rest len in
            s ← act (ARecv (ztake n rest) alloc) s; serve alloc cut fuel (zdrop n rest) s
        end
    end.

(** What the client has still to send, with the connection first. *)
Definition sends_left (st : state_t) : nat :=
    match st with
    | CONNECTING => 4 | SENDING_HELLO => 3 | SENT_HELLO => 2 | SENDING_PASSWORD => 2
    | SENT_PASSWORD => 1 | SENDING_REQUEST => 1 | SENT_REQUEST | RECEIVED_REPLY_HEADER | UP => 0
    end.

Lemma apply_events_rcvd es s s' : apply_events s es = Some s' → rcvd s' = rcvd s.
Proof.
    revert s. induction es as [|e es IH]; intros s Ha; cbn in Ha; [by injection Ha as <-|].
    destruct (apply_event s e) as [s1|] eqn:He; [|done]. cbn in Ha. rewrite (IH s1 Ha).
    destruct s, e as [| | | | | | | | | | |[]]; cbn in He; repeat case_match; by simplify_eq.
Qed.

Lemma run_handler_rcvd m s s' : run_handler m s = Some s' → rcvd s' = rcvd s.
Proof.
    unfold run_handler. destruct (m (obj s)) as [[[[] o] es]|]; [|done]. cbn. intros Ha. by apply apply_events_rcvd in Ha.
Qed.

Definition no_send (e : event) : Prop := match e with Send _ => False | _ => True end.

Lemma apply_no_send es s s' : Forall no_send es → op s ≠ OpSend → apply_events s es = Some s' → op s' ≠ OpSend.
Proof.
    intros Hes. revert s. induction Hes as [|e es He _ IH]; intros s Hs Ha; cbn in Ha; [by injection Ha as <-|].
    destruct (apply_event s e) as [s1|] eqn:Hs1; [|done]. cbn in Ha. apply (IH s1); [|done].
    destruct s, e as [| | | | | | | | | | |[]]; cbn in Hs1, Hs; repeat case_match; by simplify_eq.
Qed.

(** What holds of every run of a handler that does not abort. *)
Definition partial {A} (m : IO A) (o : t) (Q : A → t → list event → Prop) : Prop := ∀ a o' es, m o = Some (a, o', es) → Q a o' es.

Lemma partial_bind {A B} (m : IO A) (k : A → IO B) o Q :
    partial m o (λ a o1 e1, partial (k a) o1 (λ b o2 e2, Q b o2 (e1 ++ e2))) → partial (m ≫= k) o Q.
Proof.
    intros Hm b o' es Hk. unfold mbind, M_bind in Hk. destruct (m o) as [[[a o1] e1]|] eqn:Hmo; [|done].
    destruct (k a o1) as [[[b' o2] e2]|] eqn:Hka; [|done]. injection Hk as <- <- <-. by eapply Hm.
Qed.

Lemma partial_same {A} (m : IO A) o a o' es Q : m o = Some (a, o', es) → Q a o' es → partial m o Q.
Proof. intros Hm HQ a' o1 es' Hm'. rewrite Hm in Hm'. by injection Hm' as <- <- <-. Qed.

Lemma partial_assert b o (Q : unit → t → list event → Prop) : Q tt o [] → partial (ASSERT b) o Q.
Proof. intros HQ a o' es Hm. unfold ASSERT in Hm. destruct (NDEBUG || b); [|done]. by injection Hm as <- <- <-. Qed.

Ltac partial_step :=
    lazymatch goal with
    | |- partial (mbind _ _) _ _ => apply partial_bind
    | |- partial (ASSERT _) _ _ => apply partial_assert
    | |- partial (if ?b then _ else _) _ _ => destruct b
    | |- partial (match ?x with _ => _ end) _ _ => destruct x
    | |- partial mabort _ _ => intros ? ? ? ?; done
    | |- partial _ _ _ => eapply partial_same; [reflexivity|]
    end; cbn beta iota.

Lemma send_done_no_send alloc o : partial (send_handler_done alloc) o (λ _ _ es, Forall no_send es).
Proof.
    unfold send_handler_done, reserve_buffer, start_receive, do_receive, report_error, set_state.
    repeat partial_step; repeat constructor.
Qed.

Lemma apply_failed es s s' : failed s = true ∨ Handler EVENT_ERROR ∈ es → apply_events s es = Some s' → failed s' = true.
Proof.
    revert s. induction es as [|e es IH]; intros s Hf Ha; cbn in Ha.
    - injection Ha as <-. destruct Hf as [?|Hf]; [done|]. by apply not_elem_of_nil in Hf.
    - destruct (apply_event s e) as [s1|] eqn:Hs1; [|done]. cbn in Ha. apply (IH s1); [|done].
      destruct Hf as [Hf|[<-|Hf]%elem_of_cons]; [|left|by right].
      + left. destruct s, e as [| | | | | | | | | | |[]]; cbn in Hs1, Hf; repeat case_match; by simplify_eq.
      + destruct s; cbn in Hs1. repeat case_match; by simplify_eq.
Qed.

Lemma connector_done alloc o :
    partial (connector_handler false true alloc) o (λ _ o' es, state o' = SENDING_HELLO ∨ Handler EVENT_ERROR ∈ es).
Proof.
    unfold connector_handler, reserve_buffer, buffer_write, send_buffer, buffer_read, report_error, set_state,
      init_control_io, free_control_io. cbn [negb].
    repeat partial_step; first [by left | right; set_solver].
Qed.

(** The dialogue alone tells that receiving leaves no more to be sent than before. *)
Lemma recv_sends_left o o' sn sn' rc bs :
    dialog o sn rc → dialog o' sn' (rc ++ bs) → auth_info o' = auth_info o → 0 < zlen bs → (∃ x y, op_of o = OpRecv x y) →
    (sends_left (state o') ≤ sends_left (state o))%nat.
Proof.
    intros Hd Hd' Ha Hbs (x & y & Ho). unfold op_of in Ho. unfold dialog in Hd, Hd'. rewrite Ha in Hd'.
    destruct (state o) eqn:Hs; try done; cbn [sends_left].
    - destruct (state o') eqn:Hs'; cbn [sends_left]; try lia.
      + destruct Hd' as [_ Hr]. apply (f_equal (@length Z)) in Hr. rewrite length_app in Hr. cbn in Hr. lia.
      + destruct Hd' as [_ Hr]. apply (f_equal (@length Z)) in Hr. rewrite length_app in Hr. cbn in Hr. lia.
    - destruct Hd as (ai & part & _ & _ & _ & -> & _).
      destruct (state o') eqn:Hs'; cbn [sends_left]; try lia.
      + by destruct Hd' as [_ Hr].
      + by destruct Hd' as [_ Hr].
      + destruct Hd' as [_ (_ & _ & _ & Hlt & _)]. rewrite length_app in Hlt. cbn in Hlt. lia.
      + destruct Hd' as (_ & _ & _ & _ & Hr). apply (f_equal (@length Z)) in Hr. rewrite !length_app in Hr. cbn in Hr. lia.
    - destruct Hd as (sa & ra & part & Hn & _ & -> & _). rewrite <- app_assoc in Hd'.
      destruct (state o') eqn:Hs'; cbn [sends_left]; try lia.
      + destruct Hn; by destruct Hd' as [_ Hr].
      + destruct Hn; by destruct Hd' as [_ Hr].
      + destruct Hd' as [_ (_ & _ & _ & Hlt & _)]. rewrite length_app in Hlt. destruct Hn; cbn in Hlt; lia.
      + destruct Hd' as (_ & _ & _ & _ & Hr). apply (f_equal (@length Z)) in Hr. rewrite !length_app in Hr. destruct Hn; cbn in Hr; lia.
      + destruct Hd' as (ai' & part' & _ & _ & _ & Hr & (_ & _ & _ & Hlt & _)). destruct Hn; [done|].
        apply (f_equal (@length Z)) in Hr. rewrite !length_app in Hr. cbn in Hr. lia.
      + destruct Hd' as (sa' & ra' & Hn' & _ & Hr). apply (f_equal (@length Z)) in Hr as Hl. rewrite !length_app in Hl.
        destruct Hn, Hn'; cbn in Hl; try lia; try done.
    - destruct Hd as (sa & ra & rsv & atyp & n & part & Hn & _ & _ & -> & _). rewrite <- !app_assoc in Hd'.
      destruct (state o') eqn:Hs'; cbn [sends_left]; try lia.
      + destruct Hn; by destruct Hd' as [_ Hr].
      + destruct Hn; by destruct Hd' as [_ Hr].
      + destruct Hd' as [_ (_ & _ & _ & Hlt & _)]. rewrite !length_app in Hlt. destruct Hn; cbn in Hlt; lia.
      + destruct Hd' as (_ & _ & _ & _ & Hr). apply (f_equal (@length Z)) in Hr. rewrite !length_app in Hr. destruct Hn; cbn in Hr; lia.
      + destruct Hd' as (ai' & part' & _ & _ & _ & Hr & (_ & _ & _ & Hlt & _)).
        apply (f_equal (@length Z)) in Hr. rewrite !length_app in Hr. destruct Hn; cbn in Hr; lia.
      + destruct Hd' as (sa' & ra' & Hn' & _ & Hr). apply (f_equal (@length Z)) in Hr as Hl. rewrite !length_app in Hl.
        destruct Hn, Hn'; cbn in Hl; try lia; try done.
Qed.

(** A message sent is one less to be sent. *)
Lemma sent_sends_left o o' sn sn' rc :
    dialog o sn rc → dialog o' sn' rc → auth_info o' = auth_info o → op_of o = OpSend → op_of o' ≠ OpSend →
    state o' ≠ CONNECTING → (sends_left (state o') < sends_left (state o))%nat.
Proof.
    intros Hd Hd' Ha Ho Ho' Hc. unfold op_of in Ho, Ho'. unfold dialog in Hd, Hd'. rewrite Ha in Hd'.
    destruct (state o) eqn:Hs; try done; cbn [sends_left].
    - destruct (state o'); try done; cbn [sends_left]; lia.
    - destruct Hd as (_ & _ & _ & _ & ->). destruct (state o'); try done; cbn [sends_left]; try lia.
      destruct Hd' as [_ (_ & _ & _ & Hlt & _)]. cbn in Hlt. lia.
    - destruct Hd as (sa & ra & Hn & _ & ->). destruct (state o'); try done; cbn [sends_left]; try lia.
      + destruct Hd' as [_ (_ & _ & _ & Hlt & _)]. destruct Hn; cbn in Hlt; lia.
      + destruct Hd' as (ai' & part' & _ & _ & _ & Hr & (_ & _ & _ & Hlt & _)). destruct Hn; [done|].
        injection Hr as <-. cbn in Hlt. lia.
Qed.

(** The handlers keep the methods and the destination, and do not go back to
    connecting. *)
Definition kept (o o' : t) : Prop :=
    auth_info o' = auth_info o ∧ dest_addr o' = dest_addr o ∧ (state o ≠ CONNECTING → state o' ≠ CONNECTING).

Lemma kept_connector er ok alloc o : partial (connector_handler er ok alloc) o (λ _ o' _, kept o o').
Proof.
    unfold connector_handler, reserve_buffer, buffer_write, send_buffer, buffer_read, report_error, set_state,
      init_control_io, free_control_io. by repeat partial_step.
Qed.

Lemma kept_sent alloc o : partial (send_handler_done alloc) o (λ _ o' _, kept o o').
Proof.
    unfold send_handler_done, reserve_buffer, start_receive, do_receive, report_error, set_state. by repeat partial_step.
Qed.

Lemma partial_mono {A} (m : IO A) o (Q Q' : A → t → list event → Prop) :
    partial m o Q → (∀ a o' es, Q a o' es → Q' a o' es) → partial m o Q'.
Proof. intros Hm HQ a o' es Hr. by apply HQ, Hm. Qed.

Lemma kept_auth alloc o : partial (auth_finished alloc) o (λ _ o' _, kept o o').
Proof.
    unfold auth_finished, reserve_buffer, buffer_write, send_buffer, buffer_read, report_error, set_state.
    by repeat partial_step.
Qed.

Lemma kept_recv n alloc o : partial (recv_handler_done n alloc) o (λ _ o' _, kept o o').
Proof.
    unfold recv_handler_done, received_hello, received_password_reply, received_reply_header,
      received_reply_rest, start_receive, do_receive, reserve_buffer, buffer_write, send_buffer, buffer_read, report_error,
      set_state, init_up_io, free_control_io.
    repeat first [eapply partial_mono; [apply kept_auth|done] | partial_step]; done.
Qed.
Lemma client_events_obj es s s' : apply_events s es = Some s' → obj s' = obj s.
Proof.
    revert s. induction es as [|e es IH]; intros s Ha; cbn in Ha; [by injection Ha as <-|].
    destruct (apply_event s e) as [s1|] eqn:He; [|done]. cbn in Ha. rewrite (IH s1 Ha).
    destruct s, e as [| | | | | | | | | | |[]]; cbn in He; repeat case_match; by simplify_eq.
Qed.

Lemma run_partial m s s' (Q : t → list event → Prop) :
    run_handler m s = Some s' → partial m (obj s) (λ _ o es, Q o es) →
    ∃ es, Q (obj s') es ∧ apply_events (set_obj (obj s') s) es = Some s'.
Proof.
    unfold run_handler. destruct (m (obj s)) as [[[[] o] es]|] eqn:Hm; [|done]. cbn. intros Ha Hp.
    pose proof (client_events_obj _ _ _ Ha) as Ho. cbn in Ho. exists es. rewrite Ho. split; [by eapply Hp|done].
Qed.
End serve.

(** A conversation with that server: [rest] of its reply is still to come. *)
Section talk.
Context `{Build}.
Import BSocksClient.
Context (auths : list auth_info_t) (dest : BAddr) (alloc : Z → option (list Z)) (cut : list Z → Z → Z).
Context (sa ra : list Z) (rsv atyp : Z) (addr : list Z).
Let rep : list Z := ra ++ [5; 0; rsv; atyp] ++ addr.
Hypothesis (Hal : good_alloc alloc) (Htot : total_alloc alloc) (Hlen : 0 < zlen auths ≤ 255)
    (Hn : negotiated auths sa ra) (Ha : reply_addr atyp (zlen addr)) (Hbytes : bytes rep).

Definition talking (rest : list Z) (s : sys) : Prop :=
    client_inv s ∧ failed s = false ∧ auth_info (obj s) = auths ∧ dest_addr (obj s) = dest ∧ rcvd s ++ rest = rep.

Lemma talking_connect s rest :
    talking rest s → state (obj s) = CONNECTING →
    ∃ s', act (AConnector false true alloc) s = Some s' ∧ talking rest s' ∧
      (sends_left (state (obj s')) < sends_left (state (obj s)))%nat.
Proof.
    intros (Hi & Hf & Hau & Hda & Hr) Hc. destruct (act_inv s (AConnector false true alloc)) as (s' & Hact & Hi' & Hsv); [done|..].
    { split; [done|]. split; [|done]. destruct Hi as [_ (_ & -> & _) _ _ _]. rewrite Hc. done. }
    exists s'. split; [done|]. cbn [act] in Hact.
    assert (Hf' : failed s' = false) by (apply Hsv; cbn [serving]; by rewrite Hau).
    destruct (run_partial _ _ _ _ Hact (kept_connector false true alloc _)) as (_ & (Hk1 & Hk2 & _) & _).
    destruct (run_partial _ _ _ _ Hact (connector_done alloc _)) as (es & Hd & Hes).
    split; [split_and!; try done; [congruence..|by rewrite (run_handler_rcvd _ _ _ Hact)]|].
    rewrite Hc. destruct Hd as [->|He]; [cbn; lia|].
    pose proof (apply_failed es _ s' (or_intror He) Hes). congruence.
Qed.

Lemma talking_sent s rest :
    talking rest s → op s = OpSend →
    ∃ s', act (ASent alloc) s = Some s' ∧ talking rest s' ∧ (sends_left (state (obj s')) < sends_left (state (obj s)))%nat.
Proof.
    intros (Hi & Hf & Hau & Hda & Hr) Ho. destruct (act_inv s (ASent alloc)) as (s' & Hact & Hi' & Hsv); [done|done|].
    exists s'. split; [done|]. cbn [act] in Hact. pose proof (Hsv Htot) as Hf'.
    destruct (run_partial _ _ _ _ Hact (kept_sent alloc _)) as (_ & (Hk1 & Hk2 & Hk3) & _). cbn [set_op obj] in Hk1, Hk2, Hk3.
    destruct (run_partial _ _ _ _ Hact (send_done_no_send alloc _)) as (es & Hns & Hes).
    assert (Ho' : op s' ≠ OpSend) by (eapply apply_no_send; [exact Hns| |exact Hes]; done).
    pose proof (run_handler_rcvd _ _ _ Hact) as Hrc. cbn [set_op rcvd] in Hrc.
    split; [split_and!; try done; [congruence..|by rewrite Hrc]|].
    pose proof (ci_op s Hi Hf) as Hop. pose proof (ci_op s' Hi' Hf') as Hop'. pose proof (ci_dialog s' Hi' Hf') as Hd'. rewrite Hrc in Hd'.
    eapply sent_sends_left; [exact (ci_dialog s Hi Hf)|exact Hd'|done|congruence|congruence|].
    apply Hk3. unfold op_of in Hop. intros Hc. rewrite Hc in Hop. congruence.
Qed.

Lemma talking_more s rest : talking rest s → state (obj s) ≠ UP → rest ≠ [].
Proof.
    intros (Hi & Hf & Hau & _ & Hr) Hup ->. apply Hup. rewrite app_nil_r in Hr.
    eapply complete_up; [exact (ci_dialog s Hi Hf)|by rewrite Hau|done|done].
Qed.

Lemma talking_recv s rest off len :
    talking rest s → op s = OpRecv off len → let n := piece cut rest len in
    ∃ s', act (ARecv (ztake n rest) alloc) s = Some s' ∧ talking (zdrop n rest) s' ∧
      (sends_left (state (obj s')) ≤ sends_left (state (obj s)))%nat ∧ (length (zdrop n rest) < length rest)%nat.
Proof.
    intros Ht Ho n. pose proof Ht as (Hi & Hf & Hau & Hda & Hr).
    destruct (receiving_state s Hi Hf ltac:(eauto)) as (Hc & (d & tot & part & (_ & Htt & Hl & Hlt & _) & _) & Hop & Hopo).
    assert (Hlen1 : 0 < len) by (rewrite Ho in Hop; injection Hop as _ ->; lia).
    assert (Hrest : rest ≠ []) by (apply (talking_more s); [done|]; intros Hu; rewrite Hu in Hc; by destruct Hc).
    assert (Hz : 1 ≤ zlen rest) by (destruct rest; [done|cbn [length]; lia]).
    assert (Hpc : 1 ≤ n ≤ len) by (unfold n, piece; lia).
    assert (Hzt : 0 < zlen (ztake n rest) ≤ len) by (unfold ztake; rewrite length_take; lia).
    assert (Hpre : (rcvd s ++ ztake n rest) ++ zdrop n rest = rep) by (by rewrite <- app_assoc, ztake_zdrop).
    destruct (act_inv s (ARecv (ztake n rest) alloc)) as (s' & Hact & Hi' & Hsv); [done|..].
    { split; [done|]. split; [done|]. rewrite Ho. split; [|done].
      rewrite <- Hpre, !Forall_app in Hbytes. apply Hbytes. }
    exists s'. split; [done|]. cbn [act] in Hact. unfold deliver in Hact. rewrite Ho in Hact.
    destruct (buffer (obj s)) as [b|]; [|done]. destruct (_ <=? _); [|done].
    assert (Hf' : failed s' = false).
    { apply Hsv. split; [done|]. rewrite Hau. exists (zdrop n rest), sa, ra, rsv, atyp, addr. done. }
    destruct (run_partial _ _ _ _ Hact (kept_recv (zlen (ztake n rest)) alloc _)) as (_ & (Hk1 & Hk2 & _) & _). cbn in Hk1, Hk2.
    pose proof (run_handler_rcvd _ _ _ Hact) as Hrc. cbn [set_rcvd rcvd] in Hrc.
    split; [split_and!; try done; [congruence..|by rewrite Hrc]|]. split.
    - eapply (recv_sends_left (obj s) (obj s') _ _ (rcvd s) (ztake n rest)); [exact (ci_dialog s Hi Hf)| |done|lia|rewrite Hopo; eauto].
      rewrite <- Hrc. exact (ci_dialog s' Hi' Hf').
    - unfold zdrop. rewrite length_drop. lia.
Qed.

(** Nothing of the reply is left when the client is up. *)
Lemma talking_up s rest :
    talking rest s → state (obj s) = UP → rest = [] ∧ rcvd s = rep ∧ sent s = hello_msg auths ++ sa ++ request_msg dest.
Proof.
    intros (Hi & Hf & Hau & Hda & Hr) Hup. pose proof (ci_dialog s Hi Hf) as Hd. unfold dialog in Hd. rewrite Hup, Hau, Hda in Hd.
    destruct Hd as (sa' & ra' & rsv' & atyp' & addr' & Hn' & Hs & Ha' & Hrc). rewrite Hrc in Hr.
    assert (sa' = sa ∧ ra' = ra) as [-> ->].
    { unfold rep in Hr. destruct Hn, Hn'; try done. by simplify_eq. }
    unfold rep in Hr. rewrite <- !app_assoc in Hr. apply app_inv_head in Hr. injection Hr as -> -> Hr.
    apply (f_equal (@length Z)) in Hr as Hl. rewrite length_app in Hl.
    assert (zlen addr' = zlen addr) by (destruct Ha; inversion Ha'; lia).
    assert (rest = []) as -> by (destruct rest; [done|cbn in Hl; lia]). rewrite app_nil_r in Hr. by subst addr'.
Qed.

(** The client goes on asking until it is up. *)
Lemma serve_up fuel s rest :
    talking rest s → (sends_left (state (obj s)) + length rest ≤ fuel)%nat →
    ∃ s', serve alloc cut fuel rest s = Some (s', []) ∧ talking [] s' ∧ state (obj s') = UP.
Proof.
    revert s rest. induction fuel as [|fuel IH]; intros s rest Ht Hfuel; cbn [serve].
    all: case_bool_decide as Hup; [destruct (talking_up s rest Ht Hup) as (-> & _); by exists s|].
    - pose proof (talking_more s rest Ht Hup). destruct rest; [done|cbn in Hfuel; lia].
    - pose proof Ht as (Hi & Hf & _). pose proof (ci_op s Hi Hf) as Hop. destruct (op s) as [| |off len] eqn:Ho.
      + assert (Hc : state (obj s) = CONNECTING) by (unfold op_of in Hop; by destruct (state (obj s))).
        destruct Hi as [_ (_ & -> & _) _ _ _]. rewrite bool_decide_false by naive_solver.
        destruct (talking_connect s rest Ht Hc) as (s1 & -> & Ht1 & Hlt). apply IH; [done|lia].
      + destruct (talking_sent s rest Ht Ho) as (s1 & -> & Ht1 & Hlt). apply IH; [done|lia].
      + destruct (talking_recv s rest off len Ht Ho) as (s1 & -> & Ht1 & Hle & Hlt). apply IH; [done|lia].
Qed.
End talk.

(** C2: The SOCKS client is safe.  Whatever the server, the network and the
    allocator answer, in every state the client can reach each event it may
    receive is handled without a failed assertion, without an access outside
    its message buffer, and without starting an operation while another is in
    progress or on a connection that is not there; it reports up at most once;
    and freeing it there releases the I/O, the connection and the connector
    exactly once each. *)
Theorem socks_safe `{Build} server auths dest i s0 s :
  BSocksClient.BSocksClient_Init server auths dest true = Some (Some i) →
  good_client auths dest → BSocksClient.start i = Some s0 → BSocksClient.reach s0 s →
  (∀ a, BSocksClient.allowed s a → is_Some (BSocksClient.act a s)) ∧
  (BSocksClient.ups s ≤ 1)%nat ∧
  (∃ s', BSocksClient.run_handler BSocksClient.BSocksClient_Free s = Some s' ∧
     BSocksClient.connector s' = false ∧ BSocksClient.con s' = false ∧
     BSocksClient.control s' = false ∧ BSocksClient.up s' = false).
Proof.
  intros Hi Hg Hs0 Hr. destruct (start_inv server auths dest i Hi Hg) as (s0' & Hs0' & Hinv).
  rewrite Hs0 in Hs0'. injection Hs0' as <-. pose proof (reach_inv s0 s Hinv Hr) as Hs. split_and!.
  - intros a Ha. destruct (act_inv s a Hs Ha) as (? & -> & _). eauto.
  - rewrite (ci_ups s Hs). case_bool_decide; lia.
  - by apply free_inv.
Qed.

(** C26: When the client is up, the dialogue was the one RFC 1928 and RFC 1929
    prescribe: it sent the hello offering its methods, the password message if
    the server chose that method, and the request for its destination, nothing
    else; and it received the server's choice of an offered method, the
    acceptance of the password, and a reply of success with an address of the
    length its type says.  The client has read no byte beyond the reply. *)
Theorem socks_up_dialog `{Build} server auths dest i s0 s :
  BSocksClient.BSocksClient_Init server auths dest true = Some (Some i) →
  good_client auths dest → BSocksClient.start i = Some s0 → BSocksClient.reach s0 s →
  BSocksClient.state (BSocksClient.obj s) = BSocksClient.UP → BSocksClient.failed s = false →
  let o := BSocksClient.obj s in
  ∃ sa ra rsv atyp addr, negotiated (BSocksClient.auth_info o) sa ra ∧
    BSocksClient.sent s = hello_msg (BSocksClient.auth_info o) ++ sa ++ request_msg (BSocksClient.dest_addr o) ∧
    reply_addr atyp (zlen addr) ∧ BSocksClient.rcvd s = ra ++ [5; 0; rsv; atyp] ++ addr.
Proof.
  intros Hi Hg Hs0 Hr Hup Hf o. destruct (start_inv server auths dest i Hi Hg) as (s0' & Hs0' & Hinv).
  rewrite Hs0 in Hs0'. injection Hs0' as <-. pose proof (reach_inv s0 s Hinv Hr) as Hs.
  pose proof (ci_dialog s Hs Hf) as Hd. unfold dialog in Hd. by rewrite Hup in Hd.
Qed.

(** As long as the connection works, memory lasts and what was received begins an
    accepting reply, no error is reported; and with the whole reply the client is up. *)
Lemma socks_served `{Build} server auths dest i s0 s :
  BSocksClient.BSocksClient_Init server auths dest true = Some (Some i) →
  good_client auths dest → BSocksClient.start i = Some s0 → served s0 s →
  BSocksClient.failed s = false ∧
  (∀ sa ra rsv atyp addr, negotiated (BSocksClient.auth_info (BSocksClient.obj s)) sa ra →
     reply_addr atyp (zlen addr) → BSocksClient.rcvd s = ra ++ [5; 0; rsv; atyp] ++ addr →
     BSocksClient.state (BSocksClient.obj s) = BSocksClient.UP).
Proof.
  intros Hi Hg Hs0 Hr. destruct (start_inv server auths dest i Hi Hg) as (s0' & Hs0' & Hinv).
  rewrite Hs0 in Hs0'. injection Hs0' as <-.
  destruct (start_fresh server auths dest i s0 Hi Hs0) as (_ & Hf0 & _).
  destruct (served_inv s0 s Hinv Hf0 Hr) as [Hs Hf]. split; [done|].
  intros sa ra rsv atyp addr Hn Ha Hrc. eapply complete_up; [exact (ci_dialog s Hs Hf)|done..].
Qed.

(** C27: A server that accepts the client always gets it up.  The client is put
    together with a server whose connector succeeds, whose allocator does not run
    out of memory, which takes what the client sends and gives it, each time the
    client asks for bytes and only then, the next piece of its reply: at least one
    byte and at most what was asked for, as [cut] chooses.  Whatever [cut] chooses,
    the client asks again until the reply is used up exactly; it is then up, having
    reported it once and no error, and having sent the hello, the authentication
    the reply chose and the request.  It takes at most four steps for the connection
    and the three messages, and one for each piece of the reply. *)
Theorem socks_completes `{Build} server auths dest i s0 alloc cut sa ra rsv atyp addr :
  BSocksClient.BSocksClient_Init server auths dest true = Some (Some i) →
  good_client auths dest → BSocksClient.start i = Some s0 →
  BSocksClient.good_alloc alloc → BSocksClient.total_alloc alloc → 0 < zlen auths ≤ 255 →
  negotiated auths sa ra → reply_addr atyp (zlen addr) →
  let rep := ra ++ [5; 0; rsv; atyp] ++ addr in bytes rep →
  ∃ s, serve alloc cut (4 + length rep) rep s0 = Some (s, []) ∧
    BSocksClient.state (BSocksClient.obj s) = BSocksClient.UP ∧ BSocksClient.failed s = false ∧ BSocksClient.ups s = 1%nat ∧
    BSocksClient.sent s = hello_msg auths ++ sa ++ request_msg dest ∧ BSocksClient.rcvd s = rep.
Proof.
  intros Hi Hg Hs0 Hal Htot Hlen Hn Ha rep Hb. destruct (start_inv server auths dest i Hi Hg) as (s0' & Hs0' & Hinv).
  rewrite Hs0 in Hs0'. injection Hs0' as <-. destruct (start_fresh server auths dest i s0 Hi Hs0) as (Hst & Hf & Hau & Hda & Hr).
  destruct (serve_up auths dest alloc cut sa ra rsv atyp addr Hal Htot Hlen Hn Ha Hb (4 + length rep) s0 rep)
    as (s & Hsv & Ht & Hup); [unfold talking; by rewrite Hr|rewrite Hst; cbn; lia|].
  destruct (talking_up auths dest sa ra rsv atyp addr Hlen Hn Ha Hb s [] Ht Hup) as (_ & Hrc & Hs).
  destruct Ht as (Hi' & Hf' & _). exists s. split_and!; try done. rewrite (ci_ups s Hi'). by rewrite bool_decide_true.
Qed.

(** A session without authentication, the reply arriving in pieces. *)
Section example.
Import BSocksClient.

Definition demo_alloc (n : Z) : option (list Z) :=
    if 0 <=? n then Some (replicate (Z.to_nat n) 0) else None.
Definition demo_init : t := mk [BSocksClient_auth_none] (BAddr_IPv4 16777343 20480) CONNECTING None 0 0 0.
Definition demo_start : sys := mksys demo_init NoOp [] [] true false false false false 0.
Definition demo_actions : list action :=
    [AConnector false true demo_alloc; ASent demo_alloc; ARecv [5] demo_alloc; ARecv [0] demo_alloc;
     ASent demo_alloc; ARecv [5; 0; 0; 1] demo_alloc; ARecv [127; 0; 0; 1] demo_alloc; ARecv [0; 80] demo_alloc].

Fixpoint run_acts `{Build} (s : sys) (acts : list action) : option sys :=
    match acts with [] => Some s | a :: acts => s' ← act a s; run_acts s' acts end.

(** Every action allowed and served when its turn comes. *)
Fixpoint served_acts `{Build} (s : sys) (acts : list action) : Prop :=
    match acts with
    | [] => True
    | a :: acts => allowed s a ∧ serving s a ∧
        match act a s with Some s' => served_acts s' acts | None => False end
    end.

Lemma run_served `{Build} s0 s acts s' :
    served s0 s → reach s0 s → served_acts s acts → run_acts s acts = Some s' → served s0 s' ∧ reach s0 s'.
Proof.
    revert s. induction acts as [|a acts IH]; intros s Hs Hr Ha Hrun; [by injection Hrun as <-|].
    cbn [run_acts served_acts] in *. destruct Ha as (Ha & Hsv & Hrest). destruct (act a s) as [s1|] eqn:Hact; [|done].
    cbn [mbind option_bind] in Hrun. apply (IH s1); try done; [by eapply served_act|by eapply reach_act].
Qed.

Lemma served_cons `{Build} s a s' acts :
    act a s = Some s' → allowed s a → serving s a → served_acts s' acts → served_acts s (a :: acts).
Proof. intros Ha Hal Hsv Hr. cbn [served_acts]. by rewrite Ha. Qed.
End example.

(** Takes one action of a concrete session. *)
Ltac serve_step :=
  match goal with
  | |- served_acts ?s (?a :: _) =>
      let r := eval vm_compute in (@BSocksClient.act false a s) in
      match r with Some ?x => apply (served_cons s a x); [reflexivity| | |] end
  | |- served_acts _ [] => exact I
  end.

Lemma demo_allocates : BSocksClient.good_alloc demo_alloc ∧ BSocksClient.total_alloc demo_alloc.
Proof.
  split.
  - intros n b. unfold demo_alloc. destruct (Z.leb_spec 0 n); intros [= <-]. rewrite length_replicate. lia.
  - intros n Hn. unfold demo_alloc. rewrite (proj2 (Z.leb_le 0 n) Hn). eauto.
Qed.

Lemma demo_served : let H : Build := false in served_acts demo_start demo_actions.
Proof.
  intros H. destruct demo_allocates as [Hg Ht].
  assert (Hn : negotiated [BSocksClient.BSocksClient_auth_none] [] [5; 0]) by by econstructor.
  assert (Hacc : ∀ rc rest, rc ++ rest = [5; 0; 5; 0; 0; 1; 127; 0; 0; 1; 0; 80] →
                 accepting [BSocksClient.BSocksClient_auth_none] rc).
  { intros rc rest Hr. exists rest, [], [5; 0], 0, 1, [127; 0; 0; 1; 0; 80]. split_and!; [done|constructor|done]. }
  unfold demo_actions. repeat serve_step.
  all: try (split; [reflexivity|]; split_and!; done).
  all: try (split; [reflexivity|]; split_and!; [done|repeat constructor; unfold is_byte; lia|done]).
  all: try (split; [done|]; eapply Hacc; reflexivity).
  all: exact Ht.
Qed.

Lemma demo_run :
  let H : Build := false in
  ∃ s, run_acts demo_start demo_actions = Some s ∧
    BSocksClient.state (BSocksClient.obj s) = BSocksClient.UP ∧ BSocksClient.failed s = false ∧
    served demo_start s ∧ BSocksClient.reach demo_start s.
Proof.
  intros H. destruct (run_acts demo_start demo_actions) as [s|] eqn:Hrun; [|vm_compute in Hrun; done].
  exists s. split; [done|].
  destruct (run_served demo_start demo_start demo_actions s) as [Hs Hr];
    [constructor|constructor|apply demo_served|done|].
  vm_compute in Hrun. injection Hrun as Hrun. subst s. done.
Qed.

Lemma demo_init_ok :
  let H : Build := false in
  BSocksClient.BSocksClient_Init (BAddr_IPv4 1 1) [BSocksClient.BSocksClient_auth_none] (BAddr_IPv4 16777343 20480) true =
    Some (Some (demo_init, [BSocksClient.ConnectorInit])) ∧
  good_client [BSocksClient.BSocksClient_auth_none] (BAddr_IPv4 16777343 20480) ∧
  BSocksClient.start (demo_init, [BSocksClient.ConnectorInit]) = Some demo_start.
Proof.
  intros H. split_and!; [reflexivity| |reflexivity].
  split; [constructor; [by left|constructor]|]. split; [cbn; lia|by left].
Qed.

Lemma socks_safe_witness :
  let H : Build := false in
  ∃ s', BSocksClient.run_handler BSocksClient.BSocksClient_Free demo_start = Some s' ∧ BSocksClient.connector s' = false.
Proof.
  intros H. destruct demo_init_ok as (Hi & Hg & Hs).
  destruct (socks_safe _ _ _ _ demo_start demo_start Hi Hg Hs) as (_ & _ & s' & ? & ? & _); [constructor|].
  by exists s'.
Defined.

Lemma socks_up_dialog_witness :
  let H : Build := false in
  ∃ s sa ra rsv atyp addr, run_acts demo_start demo_actions = Some s ∧
    BSocksClient.sent s = hello_msg (BSocksClient.auth_info (BSocksClient.obj s)) ++ sa ++
                            request_msg (BSocksClient.dest_addr (BSocksClient.obj s)) ∧
    BSocksClient.rcvd s = ra ++ [5; 0; rsv; atyp] ++ addr.
Proof.
  intros H. destruct demo_init_ok as (Hi & Hg & Hs). destruct demo_run as (s & Hrun & Hup & Hf & _ & Hr).
  destruct (socks_up_dialog _ _ _ _ demo_start s Hi Hg Hs Hr Hup Hf) as (sa & ra & rsv & atyp & addr & _ & ? & _ & ?).
  exists s, sa, ra, rsv, atyp, addr. split_and!; assumption.
Defined.

Lemma socks_completes_witness :
  let H : Build := false in
  ∃ s, serve demo_alloc (λ _ _, 1) 16 [5; 0; 5; 0; 0; 1; 127; 0; 0; 1; 0; 80] demo_start = Some (s, []) ∧
    BSocksClient.state (BSocksClient.obj s) = BSocksClient.UP ∧ BSocksClient.failed s = false.
Proof.
  intros H. destruct demo_init_ok as (Hi & Hg & Hs). destruct demo_allocates as [Hal Htot].
  destruct (socks_completes _ _ _ _ demo_start demo_alloc (λ _ _, 1) [] [5; 0] 0 1 [127; 0; 0; 1; 0; 80] Hi Hg Hs Hal Htot)
    as (s & Hsv & Hup & Hf & _); [cbn; lia|by econstructor|constructor| |].
  { repeat constructor; unfold is_byte; lia. }
  exists s. split_and!; [exact Hsv|exact Hup|exact Hf].
Defined.
