(* ===== verification/Options.v ===== *)
(** * Options: the command line and its processing (tun2socks/tun2socks.c)

    The structure [options], [init_arguments], [parse_arguments] and
    [process_arguments], with misc/loglevel.h, misc/read_file.h and the search
    for a log channel of base/BLog.h.  A [char *] that may be NULL is an
    [option string]; an [int] that is only tested is a [bool].

    The grammar of the command line is given by a list of settings, each with
    the words it is written with and its effect; parsing is shown to accept
    exactly the lines made of such settings. *)
From Stdlib Require Import Ascii String.
From S2P Require Import Prelude Bytes Text Addr Ipaddr6 SocksClient.

(** ** Numbers of the C library *)

(** Of the 32-bit ABI that Application.mk names; where [long] is wider [atoi] would
    truncate instead. *)
Definition LONG_MAX : Z := 2147483647.
Definition LONG_MIN : Z := -2147483648.

(** [strtol] of text of any length: [long] has 32 bits, values outside are
    replaced by its limits. *)
Definition strtol (s : string) : Z * string :=
  let '(v, rest) := strtol10 s in (Z.max LONG_MIN (Z.min LONG_MAX v), rest).

Definition atoi (s : string) : Z := (strtol s).1.

(** ** Log levels *)

Definition BLOG_ERROR : Z := 1.
Definition BLOG_WARNING : Z := 2.
Definition BLOG_NOTICE : Z := 3.
Definition BLOG_INFO : Z := 4.
Definition BLOG_DEBUG : Z := 5.

Definition parse_loglevel (str : string) : Z :=
  if String.eqb str "none" then 0
  else if String.eqb str "error" then BLOG_ERROR
  else if String.eqb str "warning" then BLOG_WARNING
  else if String.eqb str "notice" then BLOG_NOTICE
  else if String.eqb str "info" then BLOG_INFO
  else if String.eqb str "debug" then BLOG_DEBUG
  else
    let '(res, endptr) := strtol str in
    if negb (String.eqb str "") && String.eqb endptr "" && (0 <=? res) && (res <=? BLOG_DEBUG) then res else -1.

(** The names of the log channels, which the build generates. *)
Class Channels := blog_channel_list : list string.

Fixpoint channel_index (names : list string) (channel_name : string) (i : Z) : Z :=
  match names with
  | [] => -1
  | name :: names => if String.eqb name channel_name then i else channel_index names channel_name (i + 1)
  end.

Definition BLogGlobal_GetChannelByName `{Channels} (channel_name : string) : Z :=
  channel_index blog_channel_list channel_name 0.

(** tun2socks.h *)
Definition DEFAULT_UDPGW_MAX_CONNECTIONS : Z := 256.
Definition DEFAULT_UDPGW_CONNECTION_BUFFER_SIZE : Z := 8.

Definition LOGGER_STDOUT : Z := 1.
Definition LOGGER_SYSLOG : Z := 2.

Module Options.
Section options.
Context `{Channels}.

Record options_t := mk_options {
  help : bool;
  version : bool;
  logger : Z;
  logger_syslog_facility : option string;
  logger_syslog_ident : option string;
  loglevel : Z;
  loglevels : list Z;
  tundev : option string;
  netif_ipaddr : option string;
  netif_netmask : option string;
  netif_ip6addr : option string;
  socks_server_addr : option string;
  username : option string;
  password : option string;
  password_file : option string;
  append_source_to_username : bool;
  udpgw_remote_server_addr : option string;
  udpgw_max_connections : Z;
  udpgw_connection_buffer_size : Z;
  transparent_dns : bool;
  tun_fd : Z;
  tun_mtu : Z;
  set_signal : bool;
  dns_resolver_addr : option string;
  udp_relay_addr : option string
}.

Definition with_help (x : bool) (o : options_t) : options_t :=
  mk_options x (version o) (logger o) (logger_syslog_facility o) (logger_syslog_ident o) (loglevel o)
    (loglevels o) (tundev o) (netif_ipaddr o) (netif_netmask o) (netif_ip6addr o) (socks_server_addr o)
    (username o) (password o) (password_file o) (append_source_to_username o) (udpgw_remote_server_addr o)
    (udpgw_max_connections o) (udpgw_connection_buffer_size o) (transparent_dns o) (tun_fd o) (tun_mtu o)
    (set_signal o) (dns_resolver_addr o) (udp_relay_addr o).
Definition with_version (x : bool) (o : options_t) : options_t :=
  mk_options (help o) x (logger o) (logger_syslog_facility o) (logger_syslog_ident o) (loglevel o) (loglevels o)
    (tundev o) (netif_ipaddr o) (netif_netmask o) (netif_ip6addr o) (socks_server_addr o) (username o)
    (password o) (password_file o) (append_source_to_username o) (udpgw_remote_server_addr o)
    (udpgw_max_connections o) (udpgw_connection_buffer_size o) (transparent_dns o) (tun_fd o) (tun_mtu o)
    (set_signal o) (dns_resolver_addr o) (udp_relay_addr o).
Definition with_logger (x : Z) (o : options_t) : options_t :=
  mk_options (help o) (version o) x (logger_syslog_facility o) (logger_syslog_ident o) (loglevel o)
    (loglevels o) (tundev o) (netif_ipaddr o) (netif_netmask o) (netif_ip6addr o) (socks_server_addr o)
    (username o) (password o) (password_file o) (append_source_to_username o) (udpgw_remote_server_addr o)
    (udpgw_max_connections o) (udpgw_connection_buffer_size o) (transparent_dns o) (tun_fd o) (tun_mtu o)
    (set_signal o) (dns_resolver_addr o) (udp_relay_addr o).
Definition with_logger_syslog_facility (x : option string) (o : options_t) : options_t :=
  mk_options (help o) (version o) (logger o) x (logger_syslog_ident o) (loglevel o) (loglevels o) (tundev o)
    (netif_ipaddr o) (netif_netmask o) (netif_ip6addr o) (socks_server_addr o) (username o) (password o)
    (password_file o) (append_source_to_username o) (udpgw_remote_server_addr o) (udpgw_max_connections o)
    (udpgw_connection_buffer_size o) (transparent_dns o) (tun_fd o) (tun_mtu o) (set_signal o)
    (dns_resolver_addr o) (udp_relay_addr o).
Definition with_logger_syslog_ident (x : option string) (o : options_t) : options_t :=
  mk_options (help o) (version o) (logger o) (logger_syslog_facility o) x (loglevel o) (loglevels o) (tundev o)
    (netif_ipaddr o) (netif_netmask o) (netif_ip6addr o) (socks_server_addr o) (username o) (password o)
    (password_file o) (append_source_to_username o) (udpgw_remote_server_addr o) (udpgw_max_connections o)
    (udpgw_connection_buffer_size o) (transparent_dns o) (tun_fd o) (tun_mtu o) (set_signal o)
    (dns_resolver_addr o) (udp_relay_addr o).
Definition with_loglevel (x : Z) (o : options_t) : options_t :=
  mk_options (help o) (version o) (logger o) (logger_syslog_facility o) (logger_syslog_ident o) x (loglevels o)
    (tundev o) (netif_ipaddr o) (netif_netmask o) (netif_ip6addr o) (socks_server_addr o) (username o)
    (password o) (password_file o) (append_source_to_username o) (udpgw_remote_server_addr o)
    (udpgw_max_connections o) (udpgw_connection_buffer_size o) (transparent_dns o) (tun_fd o) (tun_mtu o)
    (set_signal o) (dns_resolver_addr o) (udp_relay_addr o).
Definition with_loglevels (x : list Z) (o : options_t) : options_t :=
  mk_options (help o) (version o) (logger o) (logger_syslog_facility o) (logger_syslog_ident o) (loglevel o) x
    (tundev o) (netif_ipaddr o) (netif_netmask o) (netif_ip6addr o) (socks_server_addr o) (username o)
    (password o) (password_file o) (append_source_to_username o) (udpgw_remote_server_addr o)
    (udpgw_max_connections o) (udpgw_connection_buffer_size o) (transparent_dns o) (tun_fd o) (tun_mtu o)
    (set_signal o) (dns_resolver_addr o) (udp_relay_addr o).
Definition with_tundev (x : option string) (o : options_t) : options_t :=
  mk_options (help o) (version o) (logger o) (logger_syslog_facility o) (logger_syslog_ident o) (loglevel o)
    (loglevels o) x (netif_ipaddr o) (netif_netmask o) (netif_ip6addr o) (socks_server_addr o) (username o)
    (password o) (password_file o) (append_source_to_username o) (udpgw_remote_server_addr o)
    (udpgw_max_connections o) (udpgw_connection_buffer_size o) (transparent_dns o) (tun_fd o) (tun_mtu o)
    (set_signal o) (dns_resolver_addr o) (udp_relay_addr o).
Definition with_netif_ipaddr (x : option string) (o : options_t) : options_t :=
  mk_options (help o) (version o) (logger o) (logger_syslog_facility o) (logger_syslog_ident o) (loglevel o)
    (loglevels o) (tundev o) x (netif_netmask o) (netif_ip6addr o) (socks_server_addr o) (username o)
    (password o) (password_file o) (append_source_to_username o) (udpgw_remote_server_addr o)
    (udpgw_max_connections o) (udpgw_connection_buffer_size o) (transparent_dns o) (tun_fd o) (tun_mtu o)
    (set_signal o) (dns_resolver_addr o) (udp_relay_addr o).
Definition with_netif_netmask (x : option string) (o : options_t) : options_t :=
  mk_options (help o) (version o) (logger o) (logger_syslog_facility o) (logger_syslog_ident o) (loglevel o)
    (loglevels o) (tundev o) (netif_ipaddr o) x (netif_ip6addr o) (socks_server_addr o) (username o)
    (password o) (password_file o) (append_source_to_username o) (udpgw_remote_server_addr o)
    (udpgw_max_connections o) (udpgw_connection_buffer_size o) (transparent_dns o) (tun_fd o) (tun_mtu o)
    (set_signal o) (dns_resolver_addr o) (udp_relay_addr o).
Definition with_netif_ip6addr (x : option string) (o : options_t) : options_t :=
  mk_options (help o) (version o) (logger o) (logger_syslog_facility o) (logger_syslog_ident o) (loglevel o)
    (loglevels o) (tundev o) (netif_ipaddr o) (netif_netmask o) x (socks_server_addr o) (username o)
    (password o) (password_file o) (append_source_to_username o) (udpgw_remote_server_addr o)
    (udpgw_max_connections o) (udpgw_connection_buffer_size o) (transparent_dns o) (tun_fd o) (tun_mtu o)
    (set_signal o) (dns_resolver_addr o) (udp_relay_addr o).
Definition with_socks_server_addr (x : option string) (o : options_t) : options_t :=
  mk_options (help o) (version o) (logger o) (logger_syslog_facility o) (logger_syslog_ident o) (loglevel o)
    (loglevels o) (tundev o) (netif_ipaddr o) (netif_netmask o) (netif_ip6addr o) x (username o) (password o)
    (password_file o) (append_source_to_username o) (udpgw_remote_server_addr o) (udpgw_max_connections o)
    (udpgw_connection_buffer_size o) (transparent_dns o) (tun_fd o) (tun_mtu o) (set_signal o)
    (dns_resolver_addr o) (udp_relay_addr o).
Definition with_username (x : option string) (o : options_t) : options_t :=
  mk_options (help o) (version o) (logger o) (logger_syslog_facility o) (logger_syslog_ident o) (loglevel o)
    (loglevels o) (tundev o) (netif_ipaddr o) (netif_netmask o) (netif_ip6addr o) (socks_server_addr o) x
    (password o) (password_file o) (append_source_to_username o) (udpgw_remote_server_addr o)
    (udpgw_max_connections o) (udpgw_connection_buffer_size o) (transparent_dns o) (tun_fd o) (tun_mtu o)
    (set_signal o) (dns_resolver_addr o) (udp_relay_addr o).
Definition with_password (x : option string) (o : options_t) : options_t :=
  mk_options (help o) (version o) (logger o) (logger_syslog_facility o) (logger_syslog_ident o) (loglevel o)
    (loglevels o) (tundev o) (netif_ipaddr o) (netif_netmask o) (netif_ip6addr o) (socks_server_addr o)
    (username o) x (password_file o) (append_source_to_username o) (udpgw_remote_server_addr o)
    (udpgw_max_connections o) (udpgw_connection_buffer_size o) (transparent_dns o) (tun_fd o) (tun_mtu o)
    (set_signal o) (dns_resolver_addr o) (udp_relay_addr o).
Definition with_password_file (x : option string) (o : options_t) : options_t :=
  mk_options (help o) (version o) (logger o) (logger_syslog_facility o) (logger_syslog_ident o) (loglevel o)
    (loglevels o) (tundev o) (netif_ipaddr o) (netif_netmask o) (netif_ip6addr o) (socks_server_addr o)
    (username o) (password o) x (append_source_to_username o) (udpgw_remote_server_addr o)
    (udpgw_max_connections o) (udpgw_connection_buffer_size o) (transparent_dns o) (tun_fd o) (tun_mtu o)
    (set_signal o) (dns_resolver_addr o) (udp_relay_addr o).
Definition with_append_source_to_username (x : bool) (o : options_t) : options_t :=
  mk_options (help o) (version o) (logger o) (logger_syslog_facility o) (logger_syslog_ident o) (loglevel o)
    (loglevels o) (tundev o) (netif_ipaddr o) (netif_netmask o) (netif_ip6addr o) (socks_server_addr o)
    (username o) (password o) (password_file o) x (udpgw_remote_server_addr o) (udpgw_max_connections o)
    (udpgw_connection_buffer_size o) (transparent_dns o) (tun_fd o) (tun_mtu o) (set_signal o)
    (dns_resolver_addr o) (udp_relay_addr o).
Definition with_udpgw_remote_server_addr (x : option string) (o : options_t) : options_t :=
  mk_options (help o) (version o) (logger o) (logger_syslog_facility o) (logger_syslog_ident o) (loglevel o)
    (loglevels o) (tundev o) (netif_ipaddr o) (netif_netmask o) (netif_ip6addr o) (socks_server_addr o)
    (username o) (password o) (password_file o) (append_source_to_username o) x (udpgw_max_connections o)
    (udpgw_connection_buffer_size o) (transparent_dns o) (tun_fd o) (tun_mtu o) (set_signal o)
    (dns_resolver_addr o) (udp_relay_addr o).
Definition with_udpgw_max_connections (x : Z) (o : options_t) : options_t :=
  mk_options (help o) (version o) (logger o) (logger_syslog_facility o) (logger_syslog_ident o) (loglevel o)
    (loglevels o) (tundev o) (netif_ipaddr o) (netif_netmask o) (netif_ip6addr o) (socks_server_addr o)
    (username o) (password o) (password_file o) (append_source_to_username o) (udpgw_remote_server_addr o) x
    (udpgw_connection_buffer_size o) (transparent_dns o) (tun_fd o) (tun_mtu o) (set_signal o)
    (dns_resolver_addr o) (udp_relay_addr o).
Definition with_udpgw_connection_buffer_size (x : Z) (o : options_t) : options_t :=
  mk_options (help o) (version o) (logger o) (logger_syslog_facility o) (logger_syslog_ident o) (loglevel o)
    (loglevels o) (tundev o) (netif_ipaddr o) (netif_netmask o) (netif_ip6addr o) (socks_server_addr o)
    (username o) (password o) (password_file o) (append_source_to_username o) (udpgw_remote_server_addr o)
    (udpgw_max_connections o) x (transparent_dns o) (tun_fd o) (tun_mtu o) (set_signal o) (dns_resolver_addr o)
    (udp_relay_addr o).
Definition with_transparent_dns (x : bool) (o : options_t) : options_t :=
  mk_options (help o) (version o) (logger o) (logger_syslog_facility o) (logger_syslog_ident o) (loglevel o)
    (loglevels o) (tundev o) (netif_ipaddr o) (netif_netmask o) (netif_ip6addr o) (socks_server_addr o)
    (username o) (password o) (password_file o) (append_source_to_username o) (udpgw_remote_server_addr o)
    (udpgw_max_connections o) (udpgw_connection_buffer_size o) x (tun_fd o) (tun_mtu o) (set_signal o)
    (dns_resolver_addr o) (udp_relay_addr o).
Definition with_tun_fd (x : Z) (o : options_t) : options_t :=
  mk_options (help o) (version o) (logger o) (logger_syslog_facility o) (logger_syslog_ident o) (loglevel o)
    (loglevels o) (tundev o) (netif_ipaddr o) (netif_netmask o) (netif_ip6addr o) (socks_server_addr o)
    (username o) (password o) (password_file o) (append_source_to_username o) (udpgw_remote_server_addr o)
    (udpgw_max_connections o) (udpgw_connection_buffer_size o) (transparent_dns o) x (tun_mtu o) (set_signal o)
    (dns_resolver_addr o) (udp_relay_addr o).
Definition with_tun_mtu (x : Z) (o : options_t) : options_t :=
  mk_options (help o) (version o) (logger o) (logger_syslog_facility o) (logger_syslog_ident o) (loglevel o)
    (loglevels o) (tundev o) (netif_ipaddr o) (netif_netmask o) (netif_ip6addr o) (socks_server_addr o)
    (username o) (password o) (password_file o) (append_source_to_username o) (udpgw_remote_server_addr o)
    (udpgw_max_connections o) (udpgw_connection_buffer_size o) (transparent_dns o) (tun_fd o) x (set_signal o)
    (dns_resolver_addr o) (udp_relay_addr o).
Definition with_set_signal (x : bool) (o : options_t) : options_t :=
  mk_options (help o) (version o) (logger o) (logger_syslog_facility o) (logger_syslog_ident o) (loglevel o)
    (loglevels o) (tundev o) (netif_ipaddr o) (netif_netmask o) (netif_ip6addr o) (socks_server_addr o)
    (username o) (password o) (password_file o) (append_source_to_username o) (udpgw_remote_server_addr o)
    (udpgw_max_connections o) (udpgw_connection_buffer_size o) (transparent_dns o) (tun_fd o) (tun_mtu o) x
    (dns_resolver_addr o) (udp_relay_addr o).
Definition with_dns_resolver_addr (x : option string) (o : options_t) : options_t :=
  mk_options (help o) (version o) (logger o) (logger_syslog_facility o) (logger_syslog_ident o) (loglevel o)
    (loglevels o) (tundev o) (netif_ipaddr o) (netif_netmask o) (netif_ip6addr o) (socks_server_addr o)
    (username o) (password o) (password_file o) (append_source_to_username o) (udpgw_remote_server_addr o)
    (udpgw_max_connections o) (udpgw_connection_buffer_size o) (transparent_dns o) (tun_fd o) (tun_mtu o)
    (set_signal o) x (udp_relay_addr o).
Definition with_udp_relay_addr (x : option string) (o : options_t) : options_t :=
  mk_options (help o) (version o) (logger o) (logger_syslog_facility o) (logger_syslog_ident o) (loglevel o)
    (loglevels o) (tundev o) (netif_ipaddr o) (netif_netmask o) (netif_ip6addr o) (socks_server_addr o)
    (username o) (password o) (password_file o) (append_source_to_username o) (udpgw_remote_server_addr o)
    (udpgw_max_connections o) (udpgw_connection_buffer_size o) (transparent_dns o) (tun_fd o) (tun_mtu o)
    (set_signal o) (dns_resolver_addr o) x.

(** [prev]: the fields the function does not set keep their values. *)
Definition init_arguments (program_name : string) (prev : options_t) : options_t :=
  mk_options false false LOGGER_STDOUT (Some "daemon"%string) (Some program_name) (-1)
    (replicate (length blog_channel_list) (-1)) None None None None None None None None false None
    DEFAULT_UDPGW_MAX_CONNECTIONS DEFAULT_UDPGW_CONNECTION_BUFFER_SIZE false
    0 (tun_mtu prev) true None (udp_relay_addr prev).

(** ** Parsing *)

(** The messages of [parse_arguments]. *)
Inductive parse_error :=
| no_arguments
| requires_an_argument (arg : string)
| requires_two_arguments (arg : string)
| wrong_argument (arg : string)
| wrong_channel_argument (arg : string)
| wrong_loglevel_argument (arg : string)
| unknown_option (arg : string)
| is_required (arg : string)
| password_not_given
| both_passwords_given.

(** [if (1 >= argc - i) ...; char *arg2 = argv[i + 1]; ...; i++;] *)
Definition with_argument {A} (arg : string) (rest : list string) (k : string → list string → parse_error + A) : parse_error + A :=
  match rest with
  | [] => inl (requires_an_argument arg)
  | arg2 :: rest => k arg2 rest
  end.

Fixpoint parse_loop (args : list string) (o : options_t) {struct args} : parse_error + options_t :=
  match args with
  | [] => inr o
  | arg :: rest =>
      if String.eqb arg "--help" then parse_loop rest (with_help true o)
      else if String.eqb arg "--version" then parse_loop rest (with_version true o)
      else if String.eqb arg "--logger" then
        with_argument arg rest (λ arg2 rest,
          if String.eqb arg2 "stdout" then parse_loop rest (with_logger LOGGER_STDOUT o)
          else if String.eqb arg2 "syslog" then parse_loop rest (with_logger LOGGER_SYSLOG o)
          else inl (wrong_argument arg))
      else if String.eqb arg "--syslog-facility" then
        with_argument arg rest (λ arg2 rest, parse_loop rest (with_logger_syslog_facility (Some arg2) o))
      else if String.eqb arg "--syslog-ident" then
        with_argument arg rest (λ arg2 rest, parse_loop rest (with_logger_syslog_ident (Some arg2) o))
      else if String.eqb arg "--loglevel" then
        with_argument arg rest (λ arg2 rest,
          if parse_loglevel arg2 <? 0 then inl (wrong_argument arg)
          else parse_loop rest (with_loglevel (parse_loglevel arg2) o))
      else if String.eqb arg "--channel-loglevel" then
        match rest with
        | arg2 :: arg3 :: rest =>
            let channel := BLogGlobal_GetChannelByName arg2 in
            if channel <? 0 then inl (wrong_channel_argument arg)
            else if parse_loglevel arg3 <? 0 then inl (wrong_loglevel_argument arg)
            else parse_loop rest (with_loglevels (<[Z.to_nat channel := parse_loglevel arg3]> (loglevels o)) o)
        | _ => inl (requires_two_arguments arg)
        end
      else if String.eqb arg "--tundev" then
        with_argument arg rest (λ arg2 rest, parse_loop rest (with_tundev (Some arg2) o))
      else if String.eqb arg "--netif-ipaddr" then
        with_argument arg rest (λ arg2 rest, parse_loop rest (with_netif_ipaddr (Some arg2) o))
      else if String.eqb arg "--netif-netmask" then
        with_argument arg rest (λ arg2 rest, parse_loop rest (with_netif_netmask (Some arg2) o))
      else if String.eqb arg "--netif-ip6addr" then
        with_argument arg rest (λ arg2 rest, parse_loop rest (with_netif_ip6addr (Some arg2) o))
      else if String.eqb arg "--socks-server-addr" then
        with_argument arg rest (λ arg2 rest, parse_loop rest (with_socks_server_addr (Some arg2) o))
      else if String.eqb arg "--username" then
        with_argument arg rest (λ arg2 rest, parse_loop rest (with_username (Some arg2) o))
      else if String.eqb arg "--password" then
        with_argument arg rest (λ arg2 rest, parse_loop rest (with_password (Some arg2) o))
      else if String.eqb arg "--password-file" then
        with_argument arg rest (λ arg2 rest, parse_loop rest (with_password_file (Some arg2) o))
      else if String.eqb arg "--append-source-to-username" then parse_loop rest (with_append_source_to_username true o)
      else if String.eqb arg "--udpgw-remote-server-addr" then
        with_argument arg rest (λ arg2 rest, parse_loop rest (with_udpgw_remote_server_addr (Some arg2) o))
      else if String.eqb arg "--udpgw-max-connections" then
        with_argument arg rest (λ arg2 rest,
          if atoi arg2 <=? 0 then inl (wrong_argument arg)
          else parse_loop rest (with_udpgw_max_connections (atoi arg2) o))
      else if String.eqb arg "--udpgw-connection-buffer-size" then
        with_argument arg rest (λ arg2 rest,
          if atoi arg2 <=? 0 then inl (wrong_argument arg)
          else parse_loop rest (with_udpgw_connection_buffer_size (atoi arg2) o))
      else if String.eqb arg "--transparent-dns" then parse_loop rest (with_transparent_dns true o)
      else inl (unknown_option arg)
  end.

Definition given (s : option string) : bool := match s with Some _ => true | None => false end.

(** The checks after the loop. *)
Definition check_options (o : options_t) : parse_error + options_t :=
  if help o || version o then inr o
  else if negb (given (netif_ipaddr o)) then inl (is_required "--netif-ipaddr")
  else if negb (given (netif_netmask o)) then inl (is_required "--netif-netmask")
  else if negb (given (socks_server_addr o)) then inl (is_required "--socks-server-addr")
  else if given (username o) && negb (given (password o)) && negb (given (password_file o)) then inl password_not_given
  else if given (username o) && given (password o) && given (password_file o) then inl both_passwords_given
  else inr o.

Definition parse_arguments (argv : list string) (prev : options_t) : parse_error + options_t :=
  match argv with
  | [] => inl no_arguments
  | program_name :: args =>
      match parse_loop args (init_arguments program_name prev) with
      | inl e => inl e
      | inr o => check_options o
      end
  end.

(** ** The grammar *)

Inductive flag := Help | Version | AppendSource | TransparentDns.
Inductive text_option :=
| SyslogFacility | SyslogIdent | Tundev | NetifIpaddr | NetifNetmask | NetifIp6addr | SocksServerAddr
| Username | Password | PasswordFile | UdpgwRemoteServerAddr.
Inductive number_option := UdpgwMaxConnections | UdpgwConnectionBufferSize.

Inductive setting :=
| Flag (f : flag)
| Logger (syslog : bool)
| Text (f : text_option) (v : string)
| Number (f : number_option) (v : string)
| Loglevel (v : string)
| ChannelLoglevel (c v : string).

Definition flag_name (f : flag) : string :=
  match f with
  | Help => "--help" | Version => "--version" | AppendSource => "--append-source-to-username"
  | TransparentDns => "--transparent-dns"
  end.
Definition text_name (f : text_option) : string :=
  match f with
  | SyslogFacility => "--syslog-facility" | SyslogIdent => "--syslog-ident" | Tundev => "--tundev"
  | NetifIpaddr => "--netif-ipaddr" | NetifNetmask => "--netif-netmask" | NetifIp6addr => "--netif-ip6addr"
  | SocksServerAddr => "--socks-server-addr" | Username => "--username" | Password => "--password"
  | PasswordFile => "--password-file" | UdpgwRemoteServerAddr => "--udpgw-remote-server-addr"
  end.
Definition number_name (f : number_option) : string :=
  match f with
  | UdpgwMaxConnections => "--udpgw-max-connections" | UdpgwConnectionBufferSize => "--udpgw-connection-buffer-size"
  end.

(** The words of a setting. *)
Definition render (s : setting) : list string :=
  match s with
  | Flag f => [flag_name f]
  | Logger syslog => ["--logger"; if syslog then "syslog" else "stdout"]%string
  | Text f v => [text_name f; v]
  | Number f v => [number_name f; v]
  | Loglevel v => ["--loglevel"%string; v]
  | ChannelLoglevel c v => ["--channel-loglevel"%string; c; v]
  end.

Definition valid (s : setting) : Prop :=
  match s with
  | Number _ v => 0 < atoi v
  | Loglevel v => 0 ≤ parse_loglevel v
  | ChannelLoglevel c v => c ∈ blog_channel_list ∧ 0 ≤ parse_loglevel v
  | _ => True
  end.

Definition set_flag (f : flag) : options_t → options_t :=
  match f with
  | Help => with_help true | Version => with_version true
  | AppendSource => with_append_source_to_username true | TransparentDns => with_transparent_dns true
  end.
Definition set_text (f : text_option) (v : option string) : options_t → options_t :=
  match f with
  | SyslogFacility => with_logger_syslog_facility v | SyslogIdent => with_logger_syslog_ident v
  | Tundev => with_tundev v | NetifIpaddr => with_netif_ipaddr v | NetifNetmask => with_netif_netmask v
  | NetifIp6addr => with_netif_ip6addr v | SocksServerAddr => with_socks_server_addr v
  | Username => with_username v | Password => with_password v | PasswordFile => with_password_file v
  | UdpgwRemoteServerAddr => with_udpgw_remote_server_addr v
  end.
Definition set_number (f : number_option) (n : Z) : options_t → options_t :=
  match f with
  | UdpgwMaxConnections => with_udpgw_max_connections n
  | UdpgwConnectionBufferSize => with_udpgw_connection_buffer_size n
  end.

(** The effect of a setting; a later one replaces an earlier one. *)
Definition apply (o : options_t) (s : setting) : options_t :=
  match s with
  | Flag f => set_flag f o
  | Logger syslog => with_logger (if syslog then LOGGER_SYSLOG else LOGGER_STDOUT) o
  | Text f v => set_text f (Some v) o
  | Number f v => set_number f (atoi v) o
  | Loglevel v => with_loglevel (parse_loglevel v) o
  | ChannelLoglevel c v =>
      with_loglevels (<[Z.to_nat (BLogGlobal_GetChannelByName c) := parse_loglevel v]> (loglevels o)) o
  end.

(** What a command line that is not a list of settings has after the last one,
    and the message it is answered with. *)
Inductive bad : list string → parse_error → Prop :=
| bad_unknown arg rest : (∀ s w, render s ≠ arg :: w) → bad (arg :: rest) (unknown_option arg)
| bad_missing arg : (∃ s w, render s = [arg; w]) → bad [arg] (requires_an_argument arg)
| bad_missing_two rest : (length rest < 2)%nat →
    bad ("--channel-loglevel"%string :: rest) (requires_two_arguments "--channel-loglevel")
| bad_logger v rest : v ≠ "stdout"%string → v ≠ "syslog"%string →
    bad ("--logger"%string :: v :: rest) (wrong_argument "--logger")
| bad_loglevel v rest : parse_loglevel v < 0 → bad ("--loglevel"%string :: v :: rest) (wrong_argument "--loglevel")
| bad_number f v rest : atoi v ≤ 0 → bad (number_name f :: v :: rest) (wrong_argument (number_name f))
| bad_channel c v rest : c ∉ blog_channel_list →
    bad ("--channel-loglevel"%string :: c :: v :: rest) (wrong_channel_argument "--channel-loglevel")
| bad_channel_loglevel c v rest : c ∈ blog_channel_list → parse_loglevel v < 0 →
    bad ("--channel-loglevel"%string :: c :: v :: rest) (wrong_loglevel_argument "--channel-loglevel").

Definition words (l : list setting) : list string := concat (map render l).

(** *** Parsing follows the grammar *)

Lemma channel_index_found names c i : 0 ≤ i → (0 ≤ channel_index names c i ↔ c ∈ names).
Proof.
  revert i. induction names as [|n names IH]; intros i Hi; cbn.
  - split; [lia|]. by intros ?%not_elem_of_nil.
  - destruct (String.eqb_spec n c) as [->|Hne]; [split; [|done]; by left|].
    rewrite IH, elem_of_cons by lia. naive_solver.
Qed.

Lemma channel_known c : 0 ≤ BLogGlobal_GetChannelByName c ↔ c ∈ blog_channel_list.
Proof. by apply channel_index_found. Qed.

Lemma parse_setting s rest o : valid s → parse_loop (render s ++ rest) o = parse_loop rest (apply o s).
Proof.
  intros Hs. destruct s as [[]|[]|[] v|[] v|v|c v]; cbn in Hs; try reflexivity.
  1,2: cbn; by rewrite (proj2 (Z.leb_gt _ _)).
  - cbn. by rewrite (proj2 (Z.ltb_ge _ _)).
  - destruct Hs as [Hc%channel_known Hv]. cbn. by rewrite !(proj2 (Z.ltb_ge _ _)).
Qed.

Lemma parse_bad rest e o : bad rest e → parse_loop rest o = inl e.
Proof.
  intros Hb. destruct Hb as [arg rest Hn|arg (s & w & Hs)|rest Hl|v rest H1 H2|v rest Hv|[] v rest Hv|c v rest Hc|c v rest Hc Hv].
  - cbn [parse_loop].
    repeat match goal with
    | |- context [String.eqb arg ?n] =>
        destruct (String.eqb_spec arg n) as [->|_];
        [exfalso; first [by apply (Hn (Logger true) ["syslog"%string]) | by apply (Hn (Loglevel "") [""%string])
          | by apply (Hn (ChannelLoglevel "" "") [""%string; ""%string])
          | by apply (Hn (Flag Help) []) | by apply (Hn (Flag Version) []) | by apply (Hn (Flag AppendSource) [])
          | by apply (Hn (Flag TransparentDns) [])
          | by apply (Hn (Number UdpgwMaxConnections "") [""%string])
          | by apply (Hn (Number UdpgwConnectionBufferSize "") [""%string])
          | by apply (Hn (Text SyslogFacility "") [""%string]) | by apply (Hn (Text SyslogIdent "") [""%string])
          | by apply (Hn (Text Tundev "") [""%string]) | by apply (Hn (Text NetifIpaddr "") [""%string])
          | by apply (Hn (Text NetifNetmask "") [""%string]) | by apply (Hn (Text NetifIp6addr "") [""%string])
          | by apply (Hn (Text SocksServerAddr "") [""%string]) | by apply (Hn (Text Username "") [""%string])
          | by apply (Hn (Text Password "") [""%string]) | by apply (Hn (Text PasswordFile "") [""%string])
          | by apply (Hn (Text UdpgwRemoteServerAddr "") [""%string])] |]
    end. done.
  - destruct s as [[]|[]|[] v|[] v|v|c v]; cbn in Hs; simplify_eq; reflexivity.
  - by destruct rest as [|? [|? ?]]; cbn in Hl; try lia.
  - cbn. by rewrite (proj2 (String.eqb_neq _ _) H1), (proj2 (String.eqb_neq _ _) H2).
  - cbn. by rewrite (proj2 (Z.ltb_lt _ _)).
  - cbn. by rewrite (proj2 (Z.leb_le _ _)).
  - cbn. by rewrite (proj2 (Z.leb_le _ _)).
  - cbn. rewrite <- channel_known in Hc. by rewrite (proj2 (Z.ltb_lt _ _)) by lia.
  - apply channel_known in Hc. cbn. rewrite (proj2 (Z.ltb_ge (BLogGlobal_GetChannelByName c) 0)) by done.
    by rewrite (proj2 (Z.ltb_lt _ _)).
Qed.

(** A command line starts with a setting or is wrong. *)
Definition decided (args : list string) : Prop :=
  (∃ s rest, valid s ∧ args = render s ++ rest) ∨ ∃ e, bad args e.

Lemma decided_text f rest : decided (text_name f :: rest).
Proof.
  destruct rest as [|v rest]; [|by left; exists (Text f v), rest].
  right. eexists. apply bad_missing. by exists (Text f ""), ""%string.
Qed.

Lemma decided_number f rest : decided (number_name f :: rest).
Proof.
  destruct rest as [|v rest].
  { right. eexists. apply bad_missing. by exists (Number f ""), ""%string. }
  destruct (Z_lt_dec 0 (atoi v)); [by left; exists (Number f v), rest|]. right. eexists. apply bad_number. lia.
Qed.

Lemma decided_flag f rest : decided (flag_name f :: rest).
Proof. left. by exists (Flag f), rest. Qed.

Lemma decided_logger rest : decided ("--logger"%string :: rest).
Proof.
  destruct rest as [|v rest].
  { right. eexists. apply bad_missing. by exists (Logger false), "stdout"%string. }
  destruct (decide (v = "stdout"%string)) as [->|]; [by left; exists (Logger false), rest|].
  destruct (decide (v = "syslog"%string)) as [->|]; [by left; exists (Logger true), rest|].
  right. eexists. by apply bad_logger.
Qed.

Lemma decided_loglevel rest : decided ("--loglevel"%string :: rest).
Proof.
  destruct rest as [|v rest].
  { right. eexists. apply bad_missing. by exists (Loglevel ""), ""%string. }
  destruct (Z_lt_dec (parse_loglevel v) 0); [right; eexists; by apply bad_loglevel|].
  left. exists (Loglevel v), rest. cbn. split; [lia|done].
Qed.

Lemma decided_channel rest : decided ("--channel-loglevel"%string :: rest).
Proof.
  destruct rest as [|c [|v rest]]; [right; eexists; apply bad_missing_two; cbn; lia..|].
  destruct (decide (c ∈ blog_channel_list)) as [Hc|]; [|right; eexists; by apply bad_channel].
  destruct (Z_lt_dec (parse_loglevel v) 0); [right; eexists; by apply bad_channel_loglevel|].
  left. exists (ChannelLoglevel c v), rest. cbn. split; [split; [done|lia]|done].
Qed.

Definition flags : list flag := [Help; Version; AppendSource; TransparentDns].
Definition text_options : list text_option :=
  [SyslogFacility; SyslogIdent; Tundev; NetifIpaddr; NetifNetmask; NetifIp6addr; SocksServerAddr; Username; Password;
   PasswordFile; UdpgwRemoteServerAddr].
Definition number_options : list number_option := [UdpgwMaxConnections; UdpgwConnectionBufferSize].

Lemma all_decided arg rest : decided (arg :: rest).
Proof.
  destruct (decide (arg ∈ flag_name <$> flags)) as [(f & -> & _)%list_elem_of_fmap|Hf]; [apply decided_flag|].
  destruct (decide (arg ∈ text_name <$> text_options)) as [(f & -> & _)%list_elem_of_fmap|Ht]; [apply decided_text|].
  destruct (decide (arg ∈ number_name <$> number_options)) as [(f & -> & _)%list_elem_of_fmap|Hn]; [apply decided_number|].
  destruct (decide (arg = "--logger"%string)) as [->|]; [apply decided_logger|].
  destruct (decide (arg = "--loglevel"%string)) as [->|]; [apply decided_loglevel|].
  destruct (decide (arg = "--channel-loglevel"%string)) as [->|]; [apply decided_channel|].
  right. eexists. apply bad_unknown. intros [f| |f v|f v| |] w Hw; cbn in Hw; injection Hw as <- _; try done.
  - apply Hf, list_elem_of_fmap. exists f. split; [done|]. destruct f; set_solver.
  - apply Ht, list_elem_of_fmap. exists f. split; [done|]. destruct f; set_solver.
  - apply Hn, list_elem_of_fmap. exists f. split; [done|]. destruct f; set_solver.
Qed.

Lemma parse_words l rest o : Forall valid l → parse_loop (words l ++ rest) o = parse_loop rest (foldl apply o l).
Proof.
  intros Hl. revert o. induction Hl as [|s l Hs _ IH]; intros o; [done|].
  unfold words in *. cbn [map concat foldl]. rewrite <- app_assoc, parse_setting by done. apply IH.
Qed.

Lemma words_split args :
  ∃ l rest, Forall valid l ∧ args = words l ++ rest ∧ (rest = [] ∨ ∃ e, bad rest e).
Proof.
  remember (length args) as n eqn:Hn. revert args Hn. induction (lt_wf n) as [n _ IH]. intros args ->.
  destruct args as [|arg args]; [exists [], []; auto|].
  destruct (all_decided arg args) as [(s & rest & Hs & Hargs)|He]; [|exists [], (arg :: args); auto].
  destruct (IH (length rest)) with rest as (l & rest' & Hl & -> & Hr); [|done|].
  { rewrite Hargs, length_app. destruct s; cbn; lia. }
  exists (s :: l), rest'. split_and!; [by constructor| |done]. rewrite Hargs. unfold words. cbn [map concat]. by rewrite app_assoc.
Qed.

(** What is required of the options together. *)
Definition complete (o : options_t) : Prop :=
  help o = true ∨ version o = true ∨
  given (netif_ipaddr o) = true ∧ given (netif_netmask o) = true ∧ given (socks_server_addr o) = true ∧
  (given (username o) = true → given (password o) = negb (given (password_file o))).

Lemma check_options_complete o o' : check_options o = inr o' ↔ o' = o ∧ complete o.
Proof.
  unfold check_options, complete. destruct (help o), (version o); cbn; try naive_solver.
  destruct (given (netif_ipaddr o)), (given (netif_netmask o)), (given (socks_server_addr o)), (given (username o)),
    (given (password o)), (given (password_file o)); cbn; naive_solver.
Qed.

(** C30: a command line is accepted exactly when it is a list of valid settings
    that together are complete, and then the options are the defaults with the
    settings applied in order; a line that is rejected is a list of settings
    followed by a word the message is about, or an incomplete list. *)
Theorem parse_arguments_grammar program_name args prev :
  let init := init_arguments program_name prev in
  (∀ o, parse_arguments (program_name :: args) prev = inr o ↔
     ∃ l, Forall valid l ∧ args = words l ∧ o = foldl apply init l ∧ complete o) ∧
  (∀ e, parse_arguments (program_name :: args) prev = inl e ↔
     (∃ l rest, Forall valid l ∧ args = words l ++ rest ∧ bad rest e) ∨
     (∃ l, Forall valid l ∧ args = words l ∧ ¬ complete (foldl apply init l) ∧
        check_options (foldl apply init l) = inl e)).
Proof.
  cbn zeta. set (init := init_arguments program_name prev).
  assert (∀ l, Forall valid l → parse_loop (words l) init = inr (foldl apply init l)) as Hwords.
  { intros l Hl. rewrite <- (app_nil_r (words l)). by rewrite parse_words. }
  assert (∀ l rest e, Forall valid l → bad rest e → parse_loop (words l ++ rest) init = inl e) as Hbad.
  { intros l rest e Hl Hb. rewrite parse_words by done. by apply parse_bad. }
  unfold parse_arguments. destruct (words_split args) as (l & rest & Hl & -> & Hr). split.
  - intros o. split.
    + fold init. destruct Hr as [->|[e He]]; [|by rewrite (Hbad l rest e)].
      rewrite app_nil_r, Hwords, check_options_complete by done. intros [-> Hc]. eauto 10.
    + fold init. intros (l' & Hl' & -> & -> & Hc). rewrite Hwords by done. by apply check_options_complete.
  - intros e. fold init. split.
    + destruct Hr as [->|[e' He]]; [|rewrite (Hbad l rest e') by done; intros [= <-]; left; eauto 10].
      rewrite app_nil_r, Hwords by done. intros He. right. exists l. split_and!; try done. intros Hc.
      assert (check_options (foldl apply init l) = inr (foldl apply init l)) by by apply check_options_complete. congruence.
    + intros [(l' & rest' & Hl' & -> & He)|(l' & Hl' & -> & _ & He)]; [by rewrite (Hbad l' rest' e)|].
      by rewrite Hwords.
Qed.

(** No setting gives the addresses of the DNS relay. *)
Lemma apply_dns_resolver l o : dns_resolver_addr (foldl apply o l) = dns_resolver_addr o.
Proof.
  revert o. induction l as [|s l IH]; intros o; [done|]. cbn [foldl]. rewrite IH.
  by destruct s as [[]| |[] v|[] v| |].
Qed.
End options.
End Options.

Section options_example.
Import Options.
#[local] Instance example_channels : Channels := ["tun2socks"; "lwip"]%string.

Definition no_options : options_t :=
  mk_options false false 0 None None 0 [] None None None None None None None None false None 0 0 false 0 0 false None None.

Definition example_line : list string :=
  ["tun2socks"; "--tundev"; "tun0"; "--netif-ipaddr"; "10.0.0.2"; "--netif-netmask"; "255.255.255.0";
   "--socks-server-addr"; "127.0.0.1:1080"; "--channel-loglevel"; "lwip"; "debug"; "--loglevel"; "3"]%string.

Example parse_example :
  match parse_arguments example_line no_options with
  | inr o => tundev o = Some "tun0"%string ∧ loglevels o = [-1; 5] ∧ loglevel o = 3
  | inl _ => False
  end.
Proof. vm_compute. done. Qed.
End options_example.

(** ** Files (misc/read_file.h)

    A stream gives the bytes of [data] and then ends, or fails when [broken].
    [fread] reads as much as it is asked for unless the stream ends or fails
    before. *)
Record file_t := mk_file { data : list Z; broken : bool }.

Section read_file.
(** Whether an allocation of this size succeeds. *)
Context (alloc : Z → bool).

(** The loop, with the stream at [rest]; [buf] is the filled part of the buffer. *)
Fixpoint read_loop (fuel : nat) (f : file_t) (rest buf : list Z) (buf_size : Z) : option (option (list Z)) :=
  match fuel with
  | O => None
  | S fuel =>
      let k (buf_size : Z) :=
        let bytes := ztake (buf_size - zlen buf) rest in
        if zlen bytes =? 0 then
          Some (if broken f then None else Some buf)
        else read_loop fuel f (zdrop (buf_size - zlen buf) rest) (buf ++ bytes) buf_size in
      if zlen buf =? buf_size then
        if SIZE_MAX / buf_size <? 2 then Some None
        else if alloc (2 * buf_size) then k (2 * buf_size) else Some None
      else k buf_size
  end.

(** [None] inside: the function failed. *)
Definition read_file (f : option file_t) : option (option (list Z)) :=
  match f with
  | None => Some None
  | Some f => if alloc 128 then read_loop (S (length (data f))) f (data f) [] 128 else Some None
  end.

Lemma read_loop_ok fuel f rest buf size :
  (length rest < fuel)%nat → data f = buf ++ rest → 0 < size → zlen buf ≤ size →
  ∃ r, read_loop fuel f rest buf size = Some r ∧
    match r with
    | Some d => d = data f ∧ broken f = false
    | None => broken f = true ∨ (∃ n, alloc n = false ∧ n ≤ 2 * zlen (data f)) ∨ 2 ^ 31 ≤ zlen (data f)
    end.
Proof.
  revert rest buf size. induction fuel as [|fuel IH]; intros rest buf size Hf Hd Hs Hl; [lia|]. cbn [read_loop].
  assert (∀ sz, zlen buf < sz → ∃ r,
    (if zlen (ztake (sz - zlen buf) rest) =? 0 then Some (if broken f then None else Some buf)
     else read_loop fuel f (zdrop (sz - zlen buf) rest) (buf ++ ztake (sz - zlen buf) rest) sz) = Some r ∧
    match r with
    | Some d => d = data f ∧ broken f = false
    | None => broken f = true ∨ (∃ n, alloc n = false ∧ n ≤ 2 * zlen (data f)) ∨ 2 ^ 31 ≤ zlen (data f)
    end) as Hk.
  { intros sz Hsz. destruct (Z.eqb_spec (zlen (ztake (sz - zlen buf) rest)) 0) as [H0|H0].
    - assert (rest = []) as ->. { destruct rest; [done|]. unfold ztake in H0. rewrite length_take in H0. cbn in H0. lia. }
      eexists. split; [done|]. rewrite app_nil_r in Hd. destruct (broken f); [by left|done].
    - apply IH.
      + unfold zdrop. rewrite length_drop. unfold ztake in H0. rewrite length_take in H0. lia.
      + by rewrite <- app_assoc, ztake_zdrop.
      + lia.
      + rewrite zlen_app. unfold ztake. rewrite length_take. lia. }
  assert (zlen (data f) = zlen buf + zlen rest) as Hz by by rewrite Hd, zlen_app.
  destruct (Z.eqb_spec (zlen buf) size) as [He|He]; [|apply Hk; lia].
  destruct (Z.ltb_spec (SIZE_MAX / size) 2) as [Hm|Hm].
  - eexists. split; [done|]. right; right. unfold SIZE_MAX in Hm.
    assert (4294967295 < size * 2); [|lia]. pose proof (Z.mul_succ_div_gt 4294967295 size ltac:(lia)). nia.
  - destruct (alloc (2 * size)) eqn:Ha; [apply Hk; lia|]. eexists. split; [done|]. right; left. exists (2 * size). split; [done|lia].
Qed.

(** The function returns the contents of the file, or fails because the file
    cannot be read or the memory for it is not there. *)
Lemma read_file_ok f :
  ∃ r, read_file f = Some r ∧
    match r with
    | Some d => ∃ x, f = Some x ∧ d = data x ∧ broken x = false
    | None => f = None ∨ ∃ x, f = Some x ∧
        (broken x = true ∨ (∃ n, alloc n = false ∧ n ≤ Z.max 128 (2 * zlen (data x))) ∨ 2 ^ 31 ≤ zlen (data x))
    end.
Proof.
  destruct f as [x|]; cbn [read_file]; [|by exists None; eauto].
  destruct (alloc 128) eqn:Ha; [|by exists None; split; [done|]; right; exists x; split; [done|]; right; left; exists 128; split; [done|lia]].
  destruct (read_loop_ok (S (length (data x))) x (data x) [] 128) as (r & Hr & Hp); [lia|done|lia|cbn; lia|].
  exists r. split; [done|]. destruct r; [naive_solver|]. right. exists x. split; [done|].
  destruct Hp as [?|[(n & ? & ?)|?]]; [by left| |by right; right]. right; left. exists n. split; [done|lia].
Qed.
End read_file.

(** ** Processing the options *)

Module Arguments.
Import Options.

(** The global variables that [process_arguments] sets. *)
Record t := mk {
  netif_ipaddr : BIPAddr;
  netif_netmask : BIPAddr;
  netif_ip6addr : list Z;
  socks_server_addr : BAddr;
  password_file_contents : option (list Z);
  socks_auth_info : list BSocksClient.auth_info_t;
  udpgw_remote_server_addr : BAddr;
  dns_resolver_addr : BAddr;
  udp_relay_addr : BAddr
}.

Definition set_netif (ip mask : BIPAddr) (ip6 : list Z) (g : t) : t :=
  mk ip mask ip6 (socks_server_addr g) (password_file_contents g) (socks_auth_info g)
    (udpgw_remote_server_addr g) (dns_resolver_addr g) (udp_relay_addr g).
Definition set_socks (server : BAddr) (auth : list BSocksClient.auth_info_t) (g : t) : t :=
  mk (netif_ipaddr g) (netif_netmask g) (netif_ip6addr g) server (password_file_contents g) auth
    (udpgw_remote_server_addr g) (dns_resolver_addr g) (udp_relay_addr g).
Definition set_password_file (c : option (list Z)) (g : t) : t :=
  mk (netif_ipaddr g) (netif_netmask g) (netif_ip6addr g) (socks_server_addr g) c (socks_auth_info g)
    (udpgw_remote_server_addr g) (dns_resolver_addr g) (udp_relay_addr g).
Definition set_addrs (udpgw dns relay : BAddr) (g : t) : t :=
  mk (netif_ipaddr g) (netif_netmask g) (netif_ip6addr g) (socks_server_addr g) (password_file_contents g)
    (socks_auth_info g) udpgw dns relay.

Definition string_bytes (s : string) : list Z := map char_code (list_ascii_of_string s).

Definition is_ipv4 (a : BIPAddr) : bool := match a with BIPAddr_IPv4 _ => true | _ => false end.

Section arguments.
Context `{Build} `{Resolver} (open_file : string → option file_t) (alloc : Z → bool).

Abbreviation IO := (M t Empty_set).

(** [if (!f(...)) return 0;] *)
Definition or_fail {A} (r : option A) (k : A → IO bool) : IO bool :=
  match r with Some a => k a | None => mret false end.

Definition process_netif (o : options_t) (k : IO bool) : IO bool :=
  (* resolve netif ipaddr *)
  ipaddr ← mlift (Options.netif_ipaddr o);
  or_fail (BIPAddr_Resolve ipaddr false) (λ ip,
    mmodify (λ g, set_netif ip (netif_netmask g) (netif_ip6addr g) g);;
    if negb (is_ipv4 ip) then mret false else
    (* resolve netif netmask *)
    netmask ← mlift (Options.netif_netmask o);
    or_fail (BIPAddr_Resolve netmask false) (λ mask,
      mmodify (λ g, set_netif (netif_ipaddr g) mask (netif_ip6addr g) g);;
      if negb (is_ipv4 mask) then mret false else
      (* parse IP6 address *)
      match Options.netif_ip6addr o with
      | None => k
      | Some name =>
          out ← gets netif_ip6addr;
          match ipaddr6_parse_ipv6_addr name out with
          | Fault => mabort
          | Rej => mret false
          | Ret a => mmodify (λ g, set_netif (netif_ipaddr g) (netif_netmask g) a g);; k
          end
      end)).

Definition process_auth (o : options_t) (k : IO bool) : IO bool :=
  (* add none socks authentication method *)
  mmodify (λ g, set_socks (socks_server_addr g) [BSocksClient.BSocksClient_auth_none] g);;
  (* add password socks authentication method *)
  match Options.username o with
  | None => k
  | Some username =>
      let add (pass : list Z) :=
        mmodify (λ g, set_socks (socks_server_addr g)
          (socks_auth_info g ++ [BSocksClient.BSocksClient_auth_password (string_bytes username) pass]) g);; k in
      match Options.password o with
      | Some password => add (string_bytes password)
      | None =>
          name ← mlift (Options.password_file o);
          contents ← mlift (read_file alloc (open_file name));
          or_fail contents (λ contents,
            mmodify (set_password_file (Some contents));;
            add contents)
      end
  end.

Definition process_dns (o : options_t) : IO bool :=
  if transparent_dns o then
    match Options.dns_resolver_addr o, Options.udp_relay_addr o with
    | Some dns, Some relay =>
        (* resolve DNS server address *)
        or_fail (BAddr_Parse2 dns false) (λ dns,
          mmodify (λ g, set_addrs (udpgw_remote_server_addr g) dns (udp_relay_addr g) g);;
          (* resolve UDP relay address *)
          or_fail (BAddr_Parse2 relay false) (λ relay,
            mmodify (λ g, set_addrs (udpgw_remote_server_addr g) (dns_resolver_addr g) relay g);;
            mret true))
    | _, _ => mret false
    end
  else mret true.

Definition process_arguments (o : options_t) : IO bool :=
  g ← mget;
  ASSERT (match password_file_contents g with None => true | Some _ => false end);;
  process_netif o
    ((* resolve SOCKS server address *)
     server ← mlift (Options.socks_server_addr o);
     or_fail (BAddr_Parse2 server false) (λ server,
       mmodify (λ g, set_socks server (socks_auth_info g) g);;
       process_auth o
         ((* resolve remote udpgw server address *)
          match Options.udpgw_remote_server_addr o with
          | None => process_dns o
          | Some udpgw =>
              or_fail (BAddr_Parse2 udpgw false) (λ udpgw,
                mmodify (λ g, set_addrs udpgw (dns_resolver_addr g) (udp_relay_addr g) g);;
                process_dns o)
          end))).

(** The variables hold what the options say, starting from [g0]. *)
Record resolved (o : options_t) (g0 g : t) : Prop := {
  r_ipaddr : ∃ s ip, Options.netif_ipaddr o = Some s ∧ BIPAddr_Resolve s false = Some (BIPAddr_IPv4 ip) ∧
    netif_ipaddr g = BIPAddr_IPv4 ip;
  r_netmask : ∃ s ip, Options.netif_netmask o = Some s ∧ BIPAddr_Resolve s false = Some (BIPAddr_IPv4 ip) ∧
    netif_netmask g = BIPAddr_IPv4 ip;
  r_ip6addr : ∀ s, Options.netif_ip6addr o = Some s →
    ipaddr6_parse_ipv6_addr s (netif_ip6addr g0) = Ret (netif_ip6addr g);
  r_server : ∃ s, Options.socks_server_addr o = Some s ∧ BAddr_Parse2 s false = Some (socks_server_addr g);
  r_no_username : Options.username o = None →
    socks_auth_info g = [BSocksClient.BSocksClient_auth_none] ∧ password_file_contents g = None;
  r_password : ∀ u p, Options.username o = Some u → Options.password o = Some p →
    socks_auth_info g = [BSocksClient.BSocksClient_auth_none;
                         BSocksClient.BSocksClient_auth_password (string_bytes u) (string_bytes p)] ∧
    password_file_contents g = None;
  r_password_file : ∀ u, Options.username o = Some u → Options.password o = None →
    ∃ name f, Options.password_file o = Some name ∧ open_file name = Some f ∧
      read_file alloc (Some f) = Some (Some (data f)) ∧ password_file_contents g = Some (data f) ∧
      socks_auth_info g = [BSocksClient.BSocksClient_auth_none;
                           BSocksClient.BSocksClient_auth_password (string_bytes u) (data f)];
  r_udpgw : ∀ s, Options.udpgw_remote_server_addr o = Some s →
    BAddr_Parse2 s false = Some (udpgw_remote_server_addr g);
  r_dns : transparent_dns o = true → ∃ d r,
    Options.dns_resolver_addr o = Some d ∧ Options.udp_relay_addr o = Some r ∧
    BAddr_Parse2 d false = Some (dns_resolver_addr g) ∧ BAddr_Parse2 r false = Some (udp_relay_addr g)
}.

Definition ip6_ok (g : t) : Prop := zlen (netif_ip6addr g) = 16 ∧ Forall is_byte (netif_ip6addr g).

(** [b]: whether processing goes on; if not, nothing can be resolved. *)
Definition outcome (o : options_t) (g0 : t) (b : bool) (g : t) (es : list Empty_set) : Prop :=
  es = [] ∧ ip6_ok g ∧ if b then resolved o g0 g else ∀ g1, ¬ resolved o g0 g1.

Lemma wp_or_fail {A} (r : option A) k o g0 g :
  ip6_ok g → (r = None → ∀ g1, ¬ resolved o g0 g1) → (∀ a, r = Some a → wp (k a) g (outcome o g0)) →
  wp (or_fail r k) g (outcome o g0).
Proof. intros H6 Hn Hs. destruct r as [a|]; cbn [or_fail]; [by apply Hs|]. apply wp_ret. split_and!; [done|done|by apply Hn]. Qed.

Lemma wp_skip {A B} (m : IO A) (a : A) g g' (k : A → IO B) Q :
  m g = Some (a, g', []) → wp (k a) g' Q → wp (m ≫= k) g Q.
Proof. intros Hm Hk. apply wp_bind. unfold wp at 1. rewrite Hm. exact Hk. Qed.

Lemma process_dns_ok o g0 g :
  ip6_ok g →
  (∀ dns relay, (transparent_dns o = true → ∃ d r, Options.dns_resolver_addr o = Some d ∧ Options.udp_relay_addr o = Some r ∧
       BAddr_Parse2 d false = Some dns ∧ BAddr_Parse2 r false = Some relay) →
     (transparent_dns o = false → dns = dns_resolver_addr g ∧ relay = udp_relay_addr g) →
     resolved o g0 (set_addrs (udpgw_remote_server_addr g) dns relay g)) →
  wp (process_dns o) g (outcome o g0).
Proof.
  intros H6 Hg. unfold process_dns. destruct (transparent_dns o) eqn:Ht.
  - destruct (Options.dns_resolver_addr o) as [d|] eqn:Hd, (Options.udp_relay_addr o) as [r|] eqn:Hr;
      [|apply wp_ret; split_and!; [done|done|]; intros g1 [_ _ _ _ _ _ _ _ Hx]; destruct (Hx Ht) as (? & ? & ? & ? & _); congruence..].
    apply wp_or_fail; [done| |].
    { intros Hn g1 [_ _ _ _ _ _ _ _ Hx]. destruct (Hx Ht) as (? & ? & ? & ? & ? & _). congruence. }
    intros dns Hdns. eapply wp_skip; [done|]. apply wp_or_fail; [done| |].
    { intros Hn g1 [_ _ _ _ _ _ _ _ Hx]. destruct (Hx Ht) as (? & ? & ? & ? & _ & ?). congruence. }
    intros relay Hrelay. eapply wp_skip; [done|]. apply wp_ret. split_and!; [done|done|].
    apply (Hg dns relay); [|done]. intros _. exists d, r. done.
  - apply wp_ret. split_and!; [done|done|]. specialize (Hg (dns_resolver_addr g) (udp_relay_addr g)). destruct g. by apply Hg.
Qed.

(** Read through [resolved] to refute it where processing stops. *)
Local Ltac refute := intros; intros []; destruct_and?; repeat match goal with
  | Hx : ∀ s, Options.netif_ip6addr _ = Some s → _, Hy : Options.netif_ip6addr _ = Some _ |- _ => specialize (Hx _ Hy)
  | Hx : ∀ s, Options.udpgw_remote_server_addr _ = Some s → _, Hy : Options.udpgw_remote_server_addr _ = Some _ |- _ =>
      specialize (Hx _ Hy)
  end; naive_solver congruence.

Lemma process_rest_ok o g0 g :
  ip6_ok g →
  (∀ udpgw dns relay,
     (∀ s, Options.udpgw_remote_server_addr o = Some s → BAddr_Parse2 s false = Some udpgw) →
     (transparent_dns o = true → ∃ d r, Options.dns_resolver_addr o = Some d ∧ Options.udp_relay_addr o = Some r ∧
        BAddr_Parse2 d false = Some dns ∧ BAddr_Parse2 r false = Some relay) →
     resolved o g0 (set_addrs udpgw dns relay g)) →
  wp (match Options.udpgw_remote_server_addr o with
      | None => process_dns o
      | Some udpgw =>
          or_fail (BAddr_Parse2 udpgw false) (λ udpgw,
            mmodify (λ g, set_addrs udpgw (dns_resolver_addr g) (udp_relay_addr g) g);;
            process_dns o)
      end) g (outcome o g0).
Proof.
  intros H6 Hg. destruct (Options.udpgw_remote_server_addr o) as [s|] eqn:Hs.
  - apply wp_or_fail; [done|refute|]. intros udpgw Hu. eapply wp_skip; [done|]. apply process_dns_ok; [done|]. cbn.
    intros dns relay Hd _. apply (Hg udpgw dns relay); [by intros ? [= <-]|done].
  - apply process_dns_ok; [done|]. intros dns relay Hd _. by apply Hg.
Qed.

Lemma process_auth_ok o g0 g k :
  ip6_ok g →
  (Options.username o ≠ None → Options.password o = None → Options.password_file o ≠ None) →
  password_file_contents g = None →
  (∀ auth c, let g' := set_password_file c (set_socks (socks_server_addr g) auth g) in
     (Options.username o = None → auth = [BSocksClient.BSocksClient_auth_none] ∧ c = None) →
     (∀ u p, Options.username o = Some u → Options.password o = Some p →
        auth = [BSocksClient.BSocksClient_auth_none;
                BSocksClient.BSocksClient_auth_password (string_bytes u) (string_bytes p)] ∧ c = None) →
     (∀ u, Options.username o = Some u → Options.password o = None →
        ∃ name f, Options.password_file o = Some name ∧ open_file name = Some f ∧
          read_file alloc (Some f) = Some (Some (data f)) ∧ c = Some (data f) ∧
          auth = [BSocksClient.BSocksClient_auth_none;
                  BSocksClient.BSocksClient_auth_password (string_bytes u) (data f)]) →
     wp k g' (outcome o g0)) →
  wp (process_auth o k) g (outcome o g0).
Proof.
  intros H6 Hp Hc Hk. unfold process_auth. eapply wp_skip; [done|].
  destruct (Options.username o) as [u|] eqn:Hu.
  - destruct (Options.password o) as [p|] eqn:Hpw.
    + eapply wp_skip; [done|]. specialize (Hk [BSocksClient.BSocksClient_auth_none;
        BSocksClient.BSocksClient_auth_password (string_bytes u) (string_bytes p)] None).
      destruct g; cbn in *; subst. apply Hk; [done|by intros ? ? [= <-] [= <-]|done].
    + destruct (Options.password_file o) as [name|] eqn:Hn; [|by destruct Hp].
      eapply wp_skip; [done|]. destruct (read_file_ok alloc (open_file name)) as (r & Hr & Hrd).
      eapply wp_skip; [by rewrite Hr|]. destruct r as [d|].
      * destruct Hrd as (f & Hf & -> & _). rewrite Hf in Hr. cbn [or_fail]. do 2 (eapply wp_skip; [done|]).
        specialize (Hk [BSocksClient.BSocksClient_auth_none;
          BSocksClient.BSocksClient_auth_password (string_bytes u) (data f)] (Some (data f))).
        destruct g; cbn in *; subst. apply Hk; [done|done|]. intros ? [= <-] _. eauto 10.
      * apply wp_ret. split_and!; [done|done|]. intros g1 [_ _ _ _ _ _ Hx _ _].
        destruct (Hx u Hu Hpw) as (name' & f & ? & Hof & Hrf & _). simplify_eq. by rewrite Hof, Hrf in Hr.
  - specialize (Hk [BSocksClient.BSocksClient_auth_none] None). destruct g; cbn in *; subst. by apply Hk.
Qed.

Lemma process_netif_ok o g k :
  Options.given (Options.netif_ipaddr o) = true → Options.given (Options.netif_netmask o) = true →
  ip6_ok g →
  (∀ s1 ip s2 mask ip6, zlen ip6 = 16 ∧ Forall is_byte ip6 → Options.netif_ipaddr o = Some s1 → BIPAddr_Resolve s1 false = Some (BIPAddr_IPv4 ip) →
     Options.netif_netmask o = Some s2 → BIPAddr_Resolve s2 false = Some (BIPAddr_IPv4 mask) →
     (∀ s, Options.netif_ip6addr o = Some s → ipaddr6_parse_ipv6_addr s (netif_ip6addr g) = Ret ip6) →
     wp k (set_netif (BIPAddr_IPv4 ip) (BIPAddr_IPv4 mask) ip6 g) (outcome o g)) →
  wp (process_netif o k) g (outcome o g).
Proof.
  intros H1 H2 H6 Hk. pose proof H6 as [Hl Hb]. unfold process_netif.
  destruct (Options.netif_ipaddr o) as [s1|] eqn:Hs1; [|done]. eapply wp_skip; [done|].
  apply wp_or_fail; [done|refute|]. intros a Ha. eapply wp_skip; [done|].
  destruct a as [|ip|ip]; cbn [is_ipv4 negb]; [apply wp_ret; split_and!; [done|done|refute]| |apply wp_ret; split_and!; [done|done|refute]].
  destruct (Options.netif_netmask o) as [s2|] eqn:Hs2; [|done]. eapply wp_skip; [done|].
  apply wp_or_fail; [done|refute|]. intros a Hm. eapply wp_skip; [done|].
  destruct a as [|mask|mask]; cbn [is_ipv4 negb]; [apply wp_ret; split_and!; [done|done|refute]| |apply wp_ret; split_and!; [done|done|refute]].
  destruct (Options.netif_ip6addr o) as [s6|] eqn:Hs6.
  - eapply wp_skip; [done|]. cbn [set_netif netif_ip6addr].
    pose proof (parse_is_safe s6 (netif_ip6addr g) Hl Hb) as Hsafe.
    destruct (ipaddr6_parse_ipv6_addr s6 (netif_ip6addr g)) as [a6| |] eqn:Hp; [|apply wp_ret; split_and!; [done|done|refute]|done].
    eapply wp_skip; [done|]. apply (Hk s1 ip s2 mask a6); try done. by intros ? [= <-].
  - by apply (Hk s1 ip s2 mask (netif_ip6addr g)).
Qed.

Lemma process_arguments_ok o g :
  Options.complete o → help o = false → version o = false →
  password_file_contents g = None → ip6_ok g →
  wp (process_arguments o) g (outcome o g).
Proof.
  intros Hc Hh Hv Hpf H6. destruct Hc as [?|[?|(H1 & H2 & H3 & H4)]]; [congruence..|]. unfold process_arguments.
  eapply wp_skip; [done|]. apply wp_bind, wp_assert; [by rewrite Hpf|]. cbn beta.
  eapply wp_mono; [|by intros; rewrite app_nil_l].
  apply process_netif_ok; try done. intros s1 ip s2 mask ip6 Hok6 Hs1 Hip Hs2 Hmask Hip6.
  destruct (Options.socks_server_addr o) as [s3|] eqn:Hs3; [|done]. eapply wp_skip; [done|].
  apply wp_or_fail; [done|refute|]. intros server Hserver. eapply wp_skip; [done|].
  apply process_auth_ok; [done| |done|].
  { intros Hu Hp Hf. rewrite Hp, Hf in H4. destruct (Options.username o); [by specialize (H4 eq_refl)|done]. }
  intros auth c g' Hau Hap Haf. apply process_rest_ok; [done|]. intros udpgw dns relay Hud Hdn.
  split; cbn; try done; eauto 10.
Qed.

(** C31: a command line that was accepted is processed without reading through
    a null pointer; processing succeeds exactly when every address given can be
    resolved and the password read, and then the global variables hold the
    results: IPv4 addresses for the interface, the method without
    authentication and, with a user name, the one with the password. A command
    line with --transparent-dns never gets that far, since no option gives the
    addresses it requires. *)
Theorem arguments_processed `{Channels} argv prev o g :
  parse_arguments argv prev = inr o → help o = false → version o = false →
  password_file_contents g = None → zlen (netif_ip6addr g) = 16 → Forall is_byte (netif_ip6addr g) →
  ∃ b g', process_arguments o g = Some (b, g', []) ∧
    (b = true → resolved o g g') ∧ (b = false → ∀ g1, ¬ resolved o g g1) ∧
    (transparent_dns o = true → b = false).
Proof.
  intros Hparse Hh Hv Hpf Hl Hb. destruct argv as [|name args]; [done|].
  assert (Options.complete o ∧ Options.dns_resolver_addr o = None) as [Hc Hd].
  { unfold parse_arguments in Hparse. destruct (words_split args) as (l & rest & Hl' & -> & Hr).
    rewrite parse_words in Hparse by done. destruct Hr as [->|[e He]]; [|by rewrite (parse_bad _ _ _ He) in Hparse].
    cbn [parse_loop] in Hparse. apply check_options_complete in Hparse as [-> Hc]. split; [done|].
    by rewrite apply_dns_resolver. }
  pose proof (process_arguments_ok o g Hc Hh Hv Hpf (conj Hl Hb)) as Hw.
  apply wp_run in Hw as (b & g' & es & Hrun & -> & _ & Hout). exists b, g'. split_and!; [done| | |].
  - by intros ->.
  - by intros ->.
  - intros Ht. destruct b; [|done]. destruct Hout as [_ _ _ _ _ _ _ _ Hx]. destruct (Hx Ht) as (? & ? & ? & _). congruence.
Qed.
End arguments.
End Arguments.

Section arguments_example.
Import Options Arguments.
#[local] Instance arguments_debug : Build := false.
#[local] Instance arguments_channels : Channels := ["tun2socks"; "lwip"]%string.
#[local] Existing Instance numeric_resolver.

Definition no_globals : Arguments.t :=
  Arguments.mk BIPAddr_None BIPAddr_None (replicate 16 0) BAddr_None None [] BAddr_None BAddr_None BAddr_None.

Definition example_options : options_t := match parse_arguments example_line no_options with inr o => o | inl _ => no_options end.

Lemma arguments_processed_witness :
  parse_arguments example_line no_options = inr example_options ∧
  ∃ g', process_arguments (λ _, None) (λ _, true) example_options no_globals = Some (true, g', []) ∧
    resolved (λ _, None) (λ _, true) example_options no_globals g' ∧
    Arguments.netif_ipaddr g' = BIPAddr_IPv4 33554442.
Proof.
  assert (parse_arguments example_line no_options = inr example_options) as Hp by (vm_compute; reflexivity).
  split; [exact Hp|].
  destruct (arguments_processed (λ _, None) (λ _, true) example_line no_options example_options no_globals Hp)
    as (b & g' & Hrun & Hok & _); [vm_compute; reflexivity..|repeat constructor; unfold is_byte; lia|].
  exists g'. pose proof Hrun as Hrun'. vm_compute in Hrun'. injection Hrun' as <- <-.
  split; [exact Hrun|split; [by apply Hok|reflexivity]].
Defined.
End arguments_example.
