(* ===== verification/UdpGw.v ===== *)
(** * UdpGw: the UDP gateway client

    Models udpgw_client/UdpGwClient.c and protocol/udpgw_proto.h: UDP packets
    are multiplexed over one stream to the gateway, each with the connection id
    (conid) of its pair of addresses.  Connections live in a heap; the list and
    the two trees hold pointers to them, as the intrusive nodes of the code do.
    A tree is the collection of its nodes, searched with the comparator of the
    code; its balancing is not part of the model.  [malloc] and the
    initialisation of the send flow are answered by arguments. *)
From S2P Require Import Prelude Bytes Addr PacketProto Flow.

(** ** protocol/udpgw_proto.h *)

Definition UDPGW_CLIENT_FLAG_KEEPALIVE : Z := Z.shiftl 1 0.
Definition UDPGW_CLIENT_FLAG_REBIND : Z := Z.shiftl 1 1.
Definition UDPGW_CLIENT_FLAG_DNS : Z := Z.shiftl 1 2.
Definition UDPGW_CLIENT_FLAG_IPV6 : Z := Z.shiftl 1 3.

Definition sizeof_udpgw_header : Z := 3.
Definition sizeof_udpgw_addr_ipv4 : Z := 6.
Definition sizeof_udpgw_addr_ipv6 : Z := 18.

Definition udpgw_compute_mtu (dgram_mtu : Z) : Z :=
  let bs := bsize_add (bsize_fromsize sizeof_udpgw_header)
              (bsize_add (bsize_max (bsize_fromsize sizeof_udpgw_addr_ipv4)
                                    (bsize_fromsize sizeof_udpgw_addr_ipv6))
                         (bsize_fromint dgram_mtu)) in
  match bsize_toint bs with Some s => s | None => -1 end.

Module UdpGwClient.

(** ** Data *)

Record conaddr_t := mk_conaddr { local_addr : BAddr; remote_addr : BAddr }.

#[global] Instance conaddr_eq_dec : EqDecision conaddr_t.
Proof. solve_decision. Defined.

Record connection := mk_con {
  conaddr : conaddr_t;
  first_flags : Z;
  first_data : list Z;            (** the data, where the code has the caller's pointer *)
  conid : Z;
  first_job : bool;               (** the job is set *)
  send_if : BufferWriter.t
}.

Record t := mk {
  udp_mtu : Z;
  max_connections : Z;
  udpgw_mtu : Z;
  pp_mtu : Z;
  heap : gmap Z connection;
  tree_by_conaddr : list Z;
  tree_by_conid : list Z;
  connections_list : list Z;
  num_connections : Z;
  next_conid : Z;
  keepalive_sending : bool;
  have_server : bool
}.

Inductive event :=
| HandlerServerError
| HandlerReceived (local remote : BAddr) (data : list Z)
| RecvDone                              (** PacketPassInterface_Done(&recv_if) *)
| KeepaliveSend (packet : list Z)
| ConnectionOutput (con : Z) (packet : list Z)
| ConnectionFreed (con : Z)
| ServerInit | ServerFree.

Abbreviation IO := (M t event).

Definition with_conns (h : gmap Z connection) (ta ti cl : list Z) (n : Z) (o : t) : t :=
  mk (udp_mtu o) (max_connections o) (udpgw_mtu o) (pp_mtu o) h ta ti cl n
     (next_conid o) (keepalive_sending o) (have_server o).
Definition with_next_conid (c : Z) (o : t) : t :=
  mk (udp_mtu o) (max_connections o) (udpgw_mtu o) (pp_mtu o) (heap o) (tree_by_conaddr o)
     (tree_by_conid o) (connections_list o) (num_connections o) c (keepalive_sending o) (have_server o).
Definition with_keepalive (b : bool) (o : t) : t :=
  mk (udp_mtu o) (max_connections o) (udpgw_mtu o) (pp_mtu o) (heap o) (tree_by_conaddr o)
     (tree_by_conid o) (connections_list o) (num_connections o) (next_conid o) b (have_server o).
Definition with_server (b : bool) (o : t) : t :=
  mk (udp_mtu o) (max_connections o) (udpgw_mtu o) (pp_mtu o) (heap o) (tree_by_conaddr o)
     (tree_by_conid o) (connections_list o) (num_connections o) (next_conid o) (keepalive_sending o) b.

(** ** Trees and lists of nodes *)

Definition uint16_comparator (v1 v2 : Z) : Z := B_COMPARE v1 v2.

Definition conaddr_comparator (v1 v2 : conaddr_t) : Z :=
  let r := BAddr_CompareOrder (remote_addr v1) (remote_addr v2) in
  if negb (r =? 0) then r else BAddr_CompareOrder (local_addr v1) (local_addr v2).

(** The node of a tree whose key compares equal. *)
Definition lookup_exact {K} (h : gmap Z connection) (key : connection → K) (cmp : K → K → Z)
    (tree : list Z) (k : K) : option Z :=
  List.find (λ p, match h !! p with Some c => cmp k (key c) =? 0 | None => false end) tree.

Definition find_connection_by_conaddr (o : t) (a : conaddr_t) : option Z :=
  lookup_exact (heap o) conaddr conaddr_comparator (tree_by_conaddr o) a.

Definition find_connection_by_conid (o : t) (c : Z) : option Z :=
  lookup_exact (heap o) conid uint16_comparator (tree_by_conid o) (u16 c).

(** [BAVL_Insert]: refuses a key that is there. *)
Definition tree_insert {K} (h : gmap Z connection) (key : connection → K) (cmp : K → K → Z)
    (tree : list Z) (p : Z) : list Z * bool :=
  match h !! p with
  | Some c => match lookup_exact h key cmp tree (key c) with
              | Some _ => (tree, false)
              | None => (p :: tree, true)
              end
  | None => (tree, false)
  end.

Definition remove_node (p : Z) (l : list Z) : list Z := List.filter (λ q, negb (q =? p)) l.

(** ** Operations *)

Definition get_con (p : Z) : IO connection :=
  o ← mget;
  mlift (heap o !! p).

Definition put_con (p : Z) (c : connection) : IO unit :=
  mmodify (λ o, with_conns (<[p := c]> (heap o)) (tree_by_conaddr o) (tree_by_conid o)
                  (connections_list o) (num_connections o) o).

Definition on_writer {A} (p : Z) (m : M BufferWriter.t BufferWriter.event A) : IO A :=
  c ← get_con p;
  match m (send_if c) with
  | None => mabort
  | Some (a, w, es) =>
      put_con p (mk_con (conaddr c) (first_flags c) (first_data c) (conid c) (first_job c) w);;
      foldr (λ e r, match e with BufferWriter.OutputDone d => emit (ConnectionOutput p d) end;; r)
        (mret a) es
  end.

Definition free_server : IO unit := emit ServerFree.

Definition decoder_handler_error `{Build} : IO unit :=
  o ← mget;
  ASSERT (have_server o);;
  emit HandlerServerError.

(** The header and the address of a packet from the gateway: flags, conid,
    remote address and the rest of the data. *)
Definition parse_packet (data : list Z) : option (Z * Z * BAddr * list Z) :=
  if zlen data <? sizeof_udpgw_header then None
  else
    let flags := ltoh8 (nth 0 data 0) in
    let conid := ltoh16 (le_val (ztake 2 (zdrop 1 data))) in
    let data := zdrop sizeof_udpgw_header data in
    if negb (Z.land flags UDPGW_CLIENT_FLAG_IPV6 =? 0) then
      if zlen data <? sizeof_udpgw_addr_ipv6 then None
      else
        let ip := ztake 16 data in
        let port := le_val (ztake 2 (zdrop 16 data)) in
        Some (flags, conid, BAddr_MakeIPv6 ip port, zdrop sizeof_udpgw_addr_ipv6 data)
    else
      if zlen data <? sizeof_udpgw_addr_ipv4 then None
      else
        let ip := le_val (ztake 4 data) in
        let port := le_val (ztake 2 (zdrop 4 data)) in
        Some (flags, conid, BAddr_MakeIPv4 ip port, zdrop sizeof_udpgw_addr_ipv4 data).

Definition move_to_end (p : Z) : IO unit :=
  mmodify (λ o, with_conns (heap o) (tree_by_conaddr o) (tree_by_conid o)
                  (remove_node p (connections_list o) ++ [p]) (num_connections o) o).

Definition recv_interface_handler_send `{Build} (data : list Z) : IO unit :=
  o ← mget;
  ASSERT (have_server o);;
  ASSERT (zlen data <=? udpgw_mtu o);;
  (* accept packet *)
  emit RecvDone;;
  (* check header, parse address *)
  match parse_packet data with
  | None => mret tt
  | Some (flags, conid, remote, data) =>
      (* check remaining data *)
      if udp_mtu o <? zlen data then mret tt
      else
        (* find connection *)
        match find_connection_by_conid o conid with
        | None => mret tt
        | Some p =>
            con ← get_con p;
            (* check remote address *)
            if negb (BAddr_CompareOrder (remote_addr (conaddr con)) remote =? 0) then mret tt
            else
              move_to_end p;;
              (* pass packet to user *)
              emit (HandlerReceived (local_addr (conaddr con)) (remote_addr (conaddr con)) data)
        end
  end.

Definition keepalive_packet : list Z :=
  le_bytes 2 sizeof_udpgw_header ++ [UDPGW_CLIENT_FLAG_KEEPALIVE; 0; 0].

Definition send_monitor_handler : IO unit :=
  o ← mget;
  if keepalive_sending o then mret tt
  else
    (* send keepalive *)
    emit (KeepaliveSend keepalive_packet);;
    mput (with_keepalive true o).

Definition keepalive_if_handler_done `{Build} : IO unit :=
  o ← mget;
  ASSERT (keepalive_sending o);;
  mput (with_keepalive false o).

(** The loop of [find_unused_conid]; [None] when [fuel] does not suffice. *)
Fixpoint find_unused_conid_loop (fuel : nat) (o : t) (next : Z) : option Z :=
  match fuel with
  | O => None
  | S fuel =>
      match find_connection_by_conid o next with
      | None => Some next
      | Some _ =>
          find_unused_conid_loop fuel o (if next =? max_connections o - 1 then 0 else next + 1)
      end
  end.

Definition find_unused_conid `{Build} : IO Z :=
  o ← mget;
  ASSERT (num_connections o <? max_connections o);;
  c ← mlift (find_unused_conid_loop (Z.to_nat (max_connections o)) o (next_conid o));
  mput (with_next_conid c o);;
  mret (u16 c).

(** [malloc]: the new structure; [flow_ok]: [PacketProtoFlow_Init] succeeds. *)
Definition connection_init `{Build} (malloc : option Z) (flow_ok : bool)
    (a : conaddr_t) (flags : Z) (data : list Z) : IO unit :=
  o ← mget;
  ASSERT (num_connections o <? max_connections o);;
  ASSERT (bool_decide (find_connection_by_conaddr o a = None));;
  ASSERT (zlen data <=? udp_mtu o);;
  match malloc with
  | None => mret tt
  | Some p =>
      (* allocate conid *)
      conid ← find_unused_conid;
      if negb flow_ok then mret tt
      else
        o ← mget;
        let con := mk_con a flags data conid true (BufferWriter.BufferWriter_Init (udpgw_mtu o)) in
        let h := <[p := con]> (heap o) in
        (* insert to connections tree by conaddr *)
        let '(ta, ok) := tree_insert h conaddr conaddr_comparator (tree_by_conaddr o) p in
        ASSERT ok;;
        (* insert to connections tree by conid *)
        let '(ti, ok) := tree_insert h UdpGwClient.conid uint16_comparator (tree_by_conid o) p in
        ASSERT ok;;
        (* insert to connections list, increment number of connections *)
        mput (with_conns h ta ti (connections_list o ++ [p]) (num_connections o + 1) o)
  end.

Definition connection_free (p : Z) : IO unit :=
  o ← mget;
  mput (with_conns (delete p (heap o)) (remove_node p (tree_by_conaddr o)) (remove_node p (tree_by_conid o))
          (remove_node p (connections_list o)) (num_connections o - 1) o);;
  emit (ConnectionFreed p).

(** [memcpy(out + pos, src, |src|)], which must fit the output memory. *)
Definition out_write (pos : Z) (src out : list Z) : option (list Z) :=
  if pos + zlen src <=? zlen out then Some (zwrite pos src out) else None.

Definition connection_send `{Build} (p : Z) (flags : Z) (data : list Z) : IO unit :=
  o ← mget;
  ASSERT (zlen data <=? udp_mtu o);;
  con ← get_con p;
  (* get buffer location *)
  out ← on_writer p BufferWriter.BufferWriter_StartPacket;
  match out with
  | None => mret tt      (* out of buffer *)
  | Some out =>
      let remote := remote_addr (conaddr con) in
      let flags := if BAddr_type remote =? BADDR_TYPE_IPV6
                   then Z.lor flags UDPGW_CLIENT_FLAG_IPV6 else flags in
      (* write header *)
      out ← mlift (out_write 0 ([ltoh8 flags] ++ le_bytes 2 (ltoh16 (conid con))) out);
      (* write address *)
      '(out, out_pos) ← mlift
        (match remote with
         | BAddr_IPv4 ip port =>
             out ← out_write sizeof_udpgw_header (le_bytes 4 ip ++ le_bytes 2 port) out;
             Some (out, sizeof_udpgw_header + sizeof_udpgw_addr_ipv4)
         | BAddr_IPv6 ip port =>
             out ← out_write sizeof_udpgw_header (ip ++ le_bytes 2 port) out;
             Some (out, sizeof_udpgw_header + sizeof_udpgw_addr_ipv6)
         | _ => Some (out, sizeof_udpgw_header)
         end);
      (* write packet to buffer *)
      out ← mlift (out_write out_pos data out);
      (* submit packet to buffer *)
      on_writer p (BufferWriter.BufferWriter_EndPacket out (out_pos + zlen data))
  end.

(** The job runs once: running it unsets it. *)
Definition connection_first_job_handler `{Build} (p : Z) : IO unit :=
  con ← get_con p;
  put_con p (mk_con (conaddr con) (first_flags con) (first_data con) (conid con) false (send_if con));;
  connection_send p (Z.lor UDPGW_CLIENT_FLAG_REBIND (first_flags con)) (first_data con).

Definition reuse_connection `{Build} (a : conaddr_t) : IO Z :=
  o ← mget;
  ASSERT (bool_decide (find_connection_by_conaddr o a = None));;
  ASSERT (0 <? num_connections o);;
  (* get least recently used connection *)
  p ← mlift (head (connections_list o));
  con ← get_con p;
  (* remove from connections tree by conaddr, set new conaddr *)
  let ta := remove_node p (tree_by_conaddr o) in
  let h := <[p := mk_con a (first_flags con) (first_data con) (conid con) (first_job con) (send_if con)]> (heap o) in
  (* insert to connections tree by conaddr *)
  let '(ta, ok) := tree_insert h conaddr conaddr_comparator ta p in
  ASSERT ok;;
  mput (with_conns h ta (tree_by_conid o) (connections_list o) (num_connections o) o);;
  mret p.

(** [None] inside: the send queue could not be initialised. *)
Definition UdpGwClient_Init `{Build} (udp_mtu max_conns send_buffer_size : Z) (queue_ok : bool) :
    option (option t) :=
  assert (0 <=? udp_mtu);;
  assert (0 <=? udpgw_compute_mtu udp_mtu);;
  assert (udpgw_compute_mtu udp_mtu <=? PACKETPROTO_MAXPAYLOAD);;
  assert (0 <? max_conns);;
  assert (0 <? send_buffer_size);;
  (* limit max connections to number of conid's *)
  let max_conns := if UINT16_MAX + 1 <? max_conns then UINT16_MAX + 1 else max_conns in
  let m := udpgw_compute_mtu udp_mtu in
  Some (if queue_ok
        then Some (mk udp_mtu max_conns m (m + sizeof_packetproto_header) ∅ [] [] [] 0 0 false false)
        else None).

(** The loop of [UdpGwClient_Free] over the list, which [connection_free]
    shortens. *)
Fixpoint free_connections (fuel : nat) : IO unit :=
  match fuel with
  | O => mret tt
  | S fuel =>
      o ← mget;
      match connections_list o with
      | [] => mret tt
      | p :: _ => connection_free p;; free_connections fuel
      end
  end.

Definition UdpGwClient_Free : IO unit :=
  o ← mget;
  free_connections (length (connections_list o));;
  when (have_server o) free_server.

Definition is_ip (a : BAddr) : bool :=
  (BAddr_type a =? BADDR_TYPE_IPV4) || (BAddr_type a =? BADDR_TYPE_IPV6).

Definition UdpGwClient_SubmitPacket `{Build} (malloc : option Z) (flow_ok : bool)
    (local remote : BAddr) (is_dns : bool) (data : list Z) : IO unit :=
  o ← mget;
  ASSERT (is_ip local);;
  ASSERT (is_ip remote);;
  ASSERT (zlen data <=? udp_mtu o);;
  let a := mk_conaddr local remote in
  (* lookup connection *)
  let con := find_connection_by_conaddr o a in
  let flags := if is_dns then Z.lor 0 UDPGW_CLIENT_FLAG_DNS else 0 in
  (* if no connection and can't create a new one, reuse the least recently used one *)
  '(con, flags) ←
    match con with
    | None => if num_connections o =? max_connections o
              then p ← reuse_connection a; mret (Some p, Z.lor flags UDPGW_CLIENT_FLAG_REBIND)
              else mret (None, flags)
    | Some p => mret (Some p, flags)
    end;
  match con with
  | None => connection_init malloc flow_ok a flags data
  | Some p =>
      (* move connection to the end of the list *)
      move_to_end p;;
      (* send packet to existing connection *)
      connection_send p flags data
  end.

Definition UdpGwClient_ConnectServer `{Build} (decoder_ok : bool) : IO bool :=
  o ← mget;
  ASSERT (negb (have_server o));;
  if negb decoder_ok then mret false
  else emit ServerInit;; mput (with_server true o);; mret true.

Definition UdpGwClient_DisconnectServer `{Build} : IO unit :=
  o ← mget;
  ASSERT (have_server o);;
  free_server;;
  mput (with_server false o).

(** The send flow of a connection offers memory for the next packet. *)
Definition connection_ready `{Build} (p : Z) (mem : list Z) : IO unit :=
  on_writer p (BufferWriter.output_handler_recv mem).

End UdpGwClient.

(** ** The invariant *)

Section invariant.
Import UdpGwClient.

Definition conaddr_wf (a : conaddr_t) : Prop :=
    addr_wf (local_addr a) ∧ addr_wf (remote_addr a) ∧
    is_ip (local_addr a) = true ∧ is_ip (remote_addr a) = true.

(** The writer of a connection is between packets, and the memory it was
      offered holds a packet of the gateway MTU. *)
Record con_wf (o : t) (c : connection) : Prop := {
    cw_conid : 0 ≤ conid c < max_connections o;
    cw_addr : conaddr_wf (conaddr c);
    cw_first : zlen (first_data c) ≤ udp_mtu o;
    cw_writer : BufferWriter.mtu (send_if c) = udpgw_mtu o ∧ BufferWriter.d_writing (send_if c) = false;
    cw_out : ∀ mem, BufferWriter.out (send_if c) = Some mem → zlen mem = udpgw_mtu o
  }.

Record gw_inv (o : t) : Prop := {
    gi_mtu : 0 ≤ udp_mtu o ∧ udpgw_mtu o = 21 + udp_mtu o ∧ udpgw_mtu o ≤ 65535;
    gi_max : 0 < max_connections o ≤ 65536;
    gi_next : 0 ≤ next_conid o < max_connections o;
    gi_num : num_connections o = zlen (connections_list o);
    gi_le : num_connections o ≤ max_connections o;
    gi_nodup : NoDup (connections_list o);
    gi_dom : ∀ p, p ∈ connections_list o ↔ is_Some (heap o !! p);
    gi_ta : tree_by_conaddr o ≡ₚ connections_list o;
    gi_ti : tree_by_conid o ≡ₚ connections_list o;
    gi_con : ∀ p c, heap o !! p = Some c → con_wf o c;
    gi_conid : ∀ p q c d, heap o !! p = Some c → heap o !! q = Some d → conid c = conid d → p = q;
    gi_addr : ∀ p q c d, heap o !! p = Some c → heap o !! q = Some d → conaddr c = conaddr d → p = q
  }.

Lemma comparator_zero a b :
    conaddr_wf a → conaddr_wf b → conaddr_comparator a b = 0 ↔ a = b.
Proof.
    intros (Hl1 & Hr1 & _) (Hl2 & Hr2 & _). unfold conaddr_comparator.
    pose proof (CompareOrder_zero _ _ Hr1 Hr2) as Hr. pose proof (CompareOrder_zero _ _ Hl1 Hl2) as Hl.
    destruct (Z.eqb_spec (BAddr_CompareOrder (remote_addr a) (remote_addr b)) 0) as [H0|H0]; cbn [negb].
    - rewrite Hl. destruct a, b. cbn in *. split; [intros ->; f_equal; tauto|by intros [= ->]].
    - split; [done|]. intros ->. tauto.
Qed.

Lemma compare_zero a b : B_COMPARE a b = 0 ↔ a = b.
Proof. pose proof (B_COMPARE_spec a b). lia. Qed.

(** A lookup in a tree finds the connection with the key. *)
Lemma lookup_exact_spec {K} (h : gmap Z connection) (key : connection → K) cmp tree k :
    (∀ p c, p ∈ tree → h !! p = Some c → cmp k (key c) = 0 ↔ k = key c) →
    (∀ p q c d, h !! p = Some c → h !! q = Some d → key c = key d → p = q) →
    (∀ p, p ∈ tree → is_Some (h !! p)) →
    ∀ p, lookup_exact h key cmp tree k = Some p ↔ p ∈ tree ∧ ∃ c, h !! p = Some c ∧ key c = k.
Proof.
    intros Hc Hinj Hdom p. unfold lookup_exact. split.
    - intros [Hin Hk]%find_some. apply list_elem_of_In in Hin. split; [done|].
      destruct (Hdom p Hin) as [c Hpc]. rewrite Hpc in Hk. exists c. split; [done|].
      apply Z.eqb_eq, (Hc p c Hin Hpc) in Hk. done.
    - intros (Hin & c & Hpc & Hk).
      destruct (find _ tree) as [q|] eqn:Hf.
      + apply find_some in Hf as [Hq Hcq]. apply list_elem_of_In in Hq. f_equal.
        destruct (Hdom q Hq) as [d Hqd]. rewrite Hqd in Hcq.
        apply Z.eqb_eq, (Hc q d Hq Hqd) in Hcq. apply (Hinj q p d c); congruence.
      + exfalso. pose proof (proj1 (list_elem_of_In _ _) Hin) as HIn. apply (find_none _ _ Hf) in HIn.
        rewrite Hpc in HIn. apply Z.eqb_neq in HIn. apply HIn, (Hc p c Hin Hpc). done.
Qed.

Lemma conid_lookup o c p :
    gw_inv o → 0 ≤ c < 65536 →
    find_connection_by_conid o c = Some p ↔ ∃ con, heap o !! p = Some con ∧ conid con = c.
Proof.
    intros Hi Hc. unfold find_connection_by_conid. rewrite u16_small by lia.
    rewrite (lookup_exact_spec (heap o) conid).
    - rewrite (gi_ti _ Hi), (gi_dom _ Hi). split; [tauto|]. intros (con & ? & ?). split; eauto.
    - intros. apply compare_zero.
    - apply (gi_conid _ Hi).
    - intros q. by rewrite (gi_ti _ Hi), (gi_dom _ Hi).
Qed.

Lemma conaddr_lookup o a p :
    gw_inv o → conaddr_wf a →
    find_connection_by_conaddr o a = Some p ↔ ∃ con, heap o !! p = Some con ∧ conaddr con = a.
Proof.
    intros Hi Ha. unfold find_connection_by_conaddr. rewrite (lookup_exact_spec (heap o) conaddr).
    - rewrite (gi_ta _ Hi), (gi_dom _ Hi). split; [tauto|]. intros (con & ? & ?). split; eauto.
    - intros q c _ Hq. apply comparator_zero; [done|]. apply (gi_con _ Hi q c Hq).
    - apply (gi_addr _ Hi).
    - intros q. by rewrite (gi_ta _ Hi), (gi_dom _ Hi).
Qed.

(** ** Connection ids *)

(** The conid the loop looks at after [i] steps. *)
Definition conid_after (max c i : Z) : Z := (c + i) mod max.

Lemma loop_all_used o fuel c :
    0 < max_connections o → 0 ≤ c < max_connections o →
    find_unused_conid_loop fuel o c = None →
    ∀ i, 0 ≤ i < Z.of_nat fuel → is_Some (find_connection_by_conid o (conid_after (max_connections o) c i)).
Proof.
    intros Hm. revert c. induction fuel as [|fuel IH]; intros c Hc Hl i Hi; [lia|].
    cbn [find_unused_conid_loop] in Hl. destruct (find_connection_by_conid o c) as [p|] eqn:Hf; [|done].
    destruct (decide (i = 0)) as [->|Hne].
    - unfold conid_after. rewrite Z.add_0_r, Z.mod_small by lia. eauto.
    - set (c' := if c =? max_connections o - 1 then 0 else c + 1) in *.
      assert (Hc' : 0 ≤ c' < max_connections o ∧ c' = (c + 1) mod max_connections o).
      { unfold c'. destruct (Z.eqb_spec c (max_connections o - 1)) as [->|].
        - replace (max_connections o - 1 + 1) with (max_connections o) by lia. rewrite Z.mod_same by lia. lia.
        - rewrite Z.mod_small by lia. lia. }
      destruct Hc' as [Hr Heq]. pose proof (IH c' Hr Hl (i - 1) ltac:(lia)) as Hs.
      unfold conid_after in *. rewrite Heq, Zplus_mod_idemp_l in Hs.
      by replace (c + 1 + (i - 1)) with (c + i) in Hs by lia.
Qed.

Lemma loop_some o fuel c x :
    0 < max_connections o → 0 ≤ c < max_connections o →
    find_unused_conid_loop fuel o c = Some x →
    0 ≤ x < max_connections o ∧ find_connection_by_conid o x = None.
Proof.
    intros Hm. revert c. induction fuel as [|fuel IH]; intros c Hc Hl; [done|].
    cbn [find_unused_conid_loop] in Hl. destruct (find_connection_by_conid o c) as [p|] eqn:Hf.
    - apply IH in Hl; [done|]. destruct (Z.eqb_spec c (max_connections o - 1)); lia.
    - by injection Hl as <-.
Qed.

(** The conids in use. *)
Definition conids (o : t) : list Z := omap (λ p, conid <$> heap o !! p) (connections_list o).

Lemma conid_found o :
    gw_inv o → num_connections o < max_connections o →
    ∃ x, find_unused_conid_loop (Z.to_nat (max_connections o)) o (next_conid o) = Some x ∧
      0 ≤ x < max_connections o ∧ (∀ p c, heap o !! p = Some c → conid c ≠ x).
Proof.
    intros Hi Hlt. pose proof (gi_max _ Hi) as Hmax. pose proof (gi_next _ Hi) as Hnext.
    destruct (find_unused_conid_loop _ o (next_conid o)) as [x|] eqn:Hl.
    - exists x. split; [done|]. destruct (loop_some o _ _ _ ltac:(lia) Hnext Hl) as [Hx Hn]. split; [done|].
      intros p c Hp Hc. assert (Hs : find_connection_by_conid o x = Some p) by (apply conid_lookup; [done|lia|eauto]).
      congruence.
    - exfalso. pose proof (loop_all_used o _ _ ltac:(lia) Hnext Hl) as Hall.
      assert (Hsub : seqZ 0 (max_connections o) ⊆ conids o).
      { intros x Hx%elem_of_seqZ.
        destruct (Hall ((x - next_conid o) mod max_connections o)) as [p Hp].
        { rewrite Z2Nat.id by lia. apply Z.mod_pos_bound. lia. }
        unfold conid_after in Hp. rewrite Zplus_mod_idemp_r in Hp.
        replace (next_conid o + (x - next_conid o)) with x in Hp by lia. rewrite Z.mod_small in Hp by lia.
        apply conid_lookup in Hp as (c & Hpc & Hcx); [|done|lia].
        apply list_elem_of_omap. exists p. split; [apply (gi_dom _ Hi); eauto|]. by rewrite Hpc, <- Hcx. }
      apply NoDup_submseteq, submseteq_length in Hsub; [|apply NoDup_seqZ].
      rewrite length_seqZ in Hsub.
      assert (Hle : (length (conids o) ≤ length (connections_list o))%nat) by apply length_omap_le.
      rewrite (gi_num _ Hi) in Hlt. lia.
Qed.
End invariant.

Section updates.
Import UdpGwClient.

Lemma elem_of_remove p q l : q ∈ remove_node p l ↔ q ≠ p ∧ q ∈ l.
Proof.
    unfold remove_node. rewrite !list_elem_of_In, filter_In, negb_true_iff, Z.eqb_neq. tauto.
Qed.

Lemma NoDup_remove p l : NoDup l → NoDup (remove_node p l).
Proof. rewrite !NoDup_ListNoDup. apply List.NoDup_filter. Qed.

Lemma remove_perm p l : NoDup l → p ∈ l → p :: remove_node p l ≡ₚ l.
Proof.
    intros Hn Hp. apply NoDup_Permutation; [|done|].
    - constructor; [|by apply NoDup_remove]. rewrite elem_of_remove. tauto.
    - intros q. rewrite elem_of_cons, elem_of_remove. destruct (decide (q = p)) as [->|]; tauto.
Qed.

Lemma remove_Permutation p l k : l ≡ₚ k → remove_node p l ≡ₚ remove_node p k.
Proof. intros Hp. unfold remove_node. induction Hp; cbn; repeat case_match; eauto using Permutation. Qed.

Lemma move_perm p l : NoDup l → p ∈ l → remove_node p l ++ [p] ≡ₚ l.
Proof. intros. rewrite <- Permutation_cons_append. by apply remove_perm. Qed.

(** A connection that keeps its conid and address. *)
Lemma gw_inv_update o p c c' :
    gw_inv o → heap o !! p = Some c → con_wf o c' → conid c' = conid c → conaddr c' = conaddr c →
    gw_inv (with_conns (<[p := c']> (heap o)) (tree_by_conaddr o) (tree_by_conid o)
              (connections_list o) (num_connections o) o).
Proof.
    intros Hi Hp Hw Hid Had. destruct Hi as [Hmtu Hmax Hnx Hn Hle Hnd Hdom Hta Hti Hcon Hci Hca].
    split; cbn [with_conns udp_mtu max_connections udpgw_mtu heap tree_by_conaddr tree_by_conid connections_list num_connections next_conid]; try done.
    - intros q. rewrite Hdom, lookup_insert_is_Some. destruct (decide (p = q)) as [->|]; [|naive_solver].
      rewrite Hp. split; eauto.
    - intros q d. rewrite lookup_insert_Some. intros [[_ <-]|[_ Hq]]; [by destruct Hw|by destruct (Hcon q d Hq)].
    - intros q r d e. rewrite !lookup_insert_Some.
      intros [[<- <-]|[? Hq]] [[<- <-]|[? Hr]] He; try done; [rewrite Hid in He|rewrite Hid in He|]; eauto.
    - intros q r d e. rewrite !lookup_insert_Some.
      intros [[<- <-]|[? Hq]] [[<- <-]|[? Hr]] He; try done; [rewrite Had in He|rewrite Had in He|]; eauto.
Qed.

Lemma gw_inv_move o p :
    gw_inv o → is_Some (heap o !! p) →
    gw_inv (with_conns (heap o) (tree_by_conaddr o) (tree_by_conid o)
              (remove_node p (connections_list o) ++ [p]) (num_connections o) o).
Proof.
    intros Hi Hp. destruct Hi as [Hmtu Hmax Hnx Hn Hle Hnd Hdom Hta Hti Hcon Hci Hca].
    apply Hdom in Hp. pose proof (move_perm p _ Hnd Hp) as Hperm.
    split; cbn [with_conns udp_mtu max_connections udpgw_mtu heap tree_by_conaddr tree_by_conid connections_list num_connections next_conid]; try done.
    - by rewrite Hperm.
    - by rewrite Hperm.
    - intros q. by rewrite Hperm.
    - by rewrite Hperm.
    - by rewrite Hperm.
    - intros q d Hq. by destruct (Hcon q d Hq).
Qed.

Lemma gw_inv_next o x : gw_inv o → 0 ≤ x < max_connections o → gw_inv (with_next_conid x o).
Proof. intros [] Hx. split; try done. intros p c Hp. by destruct (gi_con0 p c Hp). Qed.

Lemma gw_inv_flags o k s : gw_inv o → gw_inv (with_keepalive k o) ∧ gw_inv (with_server s o).
Proof. intros []. split; split; try done; intros p c Hp; by destruct (gi_con0 p c Hp). Qed.

(** A tree insert of a new key. *)
Lemma tree_insert_new {K} (h : gmap Z connection) (key : connection → K) cmp tree p c :
    h !! p = Some c → lookup_exact h key cmp tree (key c) = None →
    tree_insert h key cmp tree p = (p :: tree, true).
Proof. intros Hp Hl. unfold tree_insert. by rewrite Hp, Hl. Qed.

Lemma lookup_exact_none {K} (h : gmap Z connection) (key : connection → K) cmp tree k :
    (∀ p c, p ∈ tree → h !! p = Some c → cmp k (key c) ≠ 0) → lookup_exact h key cmp tree k = None.
Proof.
    intros Hn. unfold lookup_exact. destruct (find _ tree) as [q|] eqn:Hf; [|done].
    apply find_some in Hf as [Hq Hc]. apply list_elem_of_In in Hq.
    destruct (h !! q) as [c|] eqn:Hqc; [|done]. apply Z.eqb_eq in Hc. by apply (Hn q c) in Hc.
Qed.

(** The connection [p] is given the address [a], which no connection has. *)
Lemma gw_inv_reuse o p c a :
    gw_inv o → heap o !! p = Some c → conaddr_wf a →
    (∀ q d, heap o !! q = Some d → conaddr d ≠ a) →
    let c' := mk_con a (first_flags c) (first_data c) (conid c) (first_job c) (send_if c) in
    let h := <[p := c']> (heap o) in
    let ta := remove_node p (tree_by_conaddr o) in
    tree_insert h conaddr conaddr_comparator ta p = (p :: ta, true) ∧
    gw_inv (with_conns h (p :: ta) (tree_by_conid o) (connections_list o) (num_connections o) o).
Proof.
    intros Hi Hp Ha Hfresh c' h ta. split.
    { apply (tree_insert_new _ _ _ _ _ c'); [apply lookup_insert_eq|]. apply lookup_exact_none.
      intros q d Hq Hd. apply elem_of_remove in Hq as [Hne Hq]. unfold h in Hd.
      rewrite lookup_insert_ne in Hd by done. cbn [c' conaddr].
      rewrite comparator_zero; [|done|apply (gi_con _ Hi q d Hd)]. intros ->. by apply (Hfresh q d Hd). }
    destruct Hi as [Hmtu Hmax Hnx Hn Hle Hnd Hdom Hta Hti Hcon Hci Hca].
    split; cbn [with_conns udp_mtu max_connections udpgw_mtu heap tree_by_conaddr tree_by_conid connections_list num_connections next_conid]; try done.
    - intros q. unfold h. rewrite Hdom, lookup_insert_is_Some. destruct (decide (p = q)) as [->|]; [|naive_solver].
      rewrite Hp. split; eauto.
    - unfold ta. rewrite (remove_Permutation p _ _ Hta). apply remove_perm; [done|]. apply Hdom; eauto.
    - intros q d. unfold h. rewrite lookup_insert_Some. intros [[_ <-]|[_ Hq]]; [|by destruct (Hcon q d Hq)].
      destruct (Hcon p c Hp). by split.
    - intros q r d e. unfold h. rewrite !lookup_insert_Some.
      intros [[<- <-]|[? Hq]] [[<- <-]|[? Hr]] He; try done; eauto.
    - intros q r d e. unfold h. rewrite !lookup_insert_Some.
      intros [[<- <-]|[? Hq]] [[<- <-]|[? Hr]] He; try done; cbn [c' conaddr] in He; [|by apply Hfresh in Hq|eauto].
      symmetry in He. by apply Hfresh in Hr.
Qed.

(** A new connection. *)
Lemma gw_inv_new o p c :
    gw_inv o → heap o !! p = None → con_wf o c → num_connections o < max_connections o →
    (∀ q d, heap o !! q = Some d → conaddr d ≠ conaddr c) → (∀ q d, heap o !! q = Some d → conid d ≠ conid c) →
    let h := <[p := c]> (heap o) in
    tree_insert h conaddr conaddr_comparator (tree_by_conaddr o) p = (p :: tree_by_conaddr o, true) ∧
    tree_insert h conid uint16_comparator (tree_by_conid o) p = (p :: tree_by_conid o, true) ∧
    gw_inv (with_conns h (p :: tree_by_conaddr o) (p :: tree_by_conid o) (connections_list o ++ [p]) (num_connections o + 1) o).
Proof.
    intros Hi Hp Hw Hlt Ha Hc h. split; [|split].
    - apply (tree_insert_new _ _ _ _ _ c); [apply lookup_insert_eq|]. apply lookup_exact_none.
      intros q d Hq Hd. unfold h in Hd. rewrite lookup_insert_ne in Hd
        by (intros <-; rewrite (gi_ta _ Hi), (gi_dom _ Hi), Hp in Hq; by destruct Hq).
      rewrite comparator_zero; [|apply Hw|apply (gi_con _ Hi q d Hd)]. intros He. by apply (Ha q d Hd).
    - apply (tree_insert_new _ _ _ _ _ c); [apply lookup_insert_eq|]. apply lookup_exact_none.
      intros q d Hq Hd. unfold h in Hd. rewrite lookup_insert_ne in Hd
        by (intros <-; rewrite (gi_ti _ Hi), (gi_dom _ Hi), Hp in Hq; by destruct Hq).
      unfold uint16_comparator. rewrite compare_zero. intros He. by apply (Hc q d Hd).
    - destruct Hi as [Hmtu Hmax Hnx Hn Hle Hnd Hdom Hta Hti Hcon Hci Hca].
      assert (Hnp : p ∉ connections_list o) by (rewrite Hdom, Hp; by intros [? ?]).
      split; cbn [with_conns udp_mtu max_connections udpgw_mtu heap tree_by_conaddr tree_by_conid connections_list num_connections next_conid]; try done; try lia.
      + rewrite length_app. cbn [length]. lia.
      + apply NoDup_app. split; [done|]. split; [|apply NoDup_singleton].
        intros q Hq ->%list_elem_of_singleton. done.
      + intros q. unfold h. rewrite elem_of_app, list_elem_of_singleton, lookup_insert_is_Some, Hdom.
        destruct (decide (p = q)) as [->|]; naive_solver.
      + by rewrite Hta, Permutation_cons_append.
      + by rewrite Hti, Permutation_cons_append.
      + intros q d. unfold h. rewrite lookup_insert_Some. intros [[_ <-]|[_ Hq]]; [by destruct Hw|by destruct (Hcon q d Hq)].
      + intros q r d e. unfold h. rewrite !lookup_insert_Some.
        intros [[<- <-]|[? Hq]] [[<- <-]|[? Hr]] He; try done; eauto; [by destruct (Hc r e Hr)|by destruct (Hc q d Hq)].
      + intros q r d e. unfold h. rewrite !lookup_insert_Some.
        intros [[<- <-]|[? Hq]] [[<- <-]|[? Hr]] He; try done; eauto; [by destruct (Ha r e Hr)|by destruct (Ha q d Hq)].
Qed.

Lemma gw_inv_free o p :
    gw_inv o → is_Some (heap o !! p) →
    gw_inv (with_conns (delete p (heap o)) (remove_node p (tree_by_conaddr o)) (remove_node p (tree_by_conid o))
              (remove_node p (connections_list o)) (num_connections o - 1) o).
Proof.
    intros [Hmtu Hmax Hnx Hn Hle Hnd Hdom Hta Hti Hcon Hci Hca] Hp.
    pose proof (remove_perm p _ Hnd (proj2 (Hdom p) Hp)) as Hperm. apply Permutation_length in Hperm. cbn [length] in Hperm.
    split; cbn [with_conns udp_mtu max_connections udpgw_mtu heap tree_by_conaddr tree_by_conid connections_list num_connections next_conid]; try done; try lia.
    - by apply NoDup_remove.
    - intros q. rewrite elem_of_remove, Hdom, lookup_delete_is_Some. naive_solver.
    - by apply remove_Permutation.
    - by apply remove_Permutation.
    - intros q d [_ Hq]%lookup_delete_Some. by destruct (Hcon q d Hq).
    - intros q r d e [_ Hq]%lookup_delete_Some [_ Hr]%lookup_delete_Some. eauto.
    - intros q r d e [_ Hq]%lookup_delete_Some [_ Hr]%lookup_delete_Some. eauto.
Qed.
End updates.

(** ** Sending *)

Section sending.
Context `{Build}.
Import UdpGwClient.

Definition addr_bytes (a : BAddr) : list Z :=
    match a with
    | BAddr_IPv4 ip port => le_bytes 4 ip ++ le_bytes 2 port
    | BAddr_IPv6 ip port => ip ++ le_bytes 2 port
    | _ => []
    end.

(** The packet for the gateway. *)
Definition packet_msg (flags conid : Z) (remote : BAddr) (data : list Z) : list Z :=
    ((if BAddr_type remote =? BADDR_TYPE_IPV6 then Z.lor flags UDPGW_CLIENT_FLAG_IPV6 else flags)
       :: le_bytes 2 conid) ++ addr_bytes remote ++ data.

Definition with_writer (w : BufferWriter.t) (c : connection) : connection :=
    mk_con (conaddr c) (first_flags c) (first_data c) (conid c) (first_job c) w.

Definition set_con (p : Z) (c : connection) (o : t) : t :=
    with_conns (<[p := c]> (heap o)) (tree_by_conaddr o) (tree_by_conid o)
      (connections_list o) (num_connections o) o.

Lemma wp_on_writer {A} p (m : M BufferWriter.t BufferWriter.event A) o c a w es Q :
    heap o !! p = Some c → m (send_if c) = Some (a, w, es) →
    Q a (set_con p (with_writer w c) o) (map (λ e, match e with BufferWriter.OutputDone d => ConnectionOutput p d end) es) →
    wp (on_writer p m) o Q.
Proof.
    intros Hp Hm HQ. unfold on_writer, get_con. apply wp_bind, wp_bind, wp_get. unfold mlift, wp at 1. rewrite Hp.
    cbn beta iota. rewrite Hm. apply wp_bind, wp_modify.
    assert (Hf : ∀ l o (Q' : A → t → list event → Prop),
      Q' a o (map (λ e, match e with BufferWriter.OutputDone d => ConnectionOutput p d end) l) →
      wp (foldr (λ e (r : IO A), match e with BufferWriter.OutputDone d => emit (ConnectionOutput p d) end;; r) (mret a) l) o Q').
    { clear. induction l as [|[d] l IH]; intros o Q' HQ; [exact HQ|]. cbn [foldr]. apply wp_bind, wp_emit. by apply IH. }
    apply Hf. exact HQ.
Qed.

Lemma zlen_addr_bytes a : addr_wf a → is_ip a = true →
    zlen (addr_bytes a) = (if BAddr_type a =? BADDR_TYPE_IPV6 then 18 else 6).
Proof.
    destruct a as [|ip port|ip port|]; intros Hw Hip; try (vm_compute in Hip; done); cbn [addr_bytes BAddr_type]; try done.
    destruct Hw as [Hl _]. rewrite length_app, length_le_bytes, Hl. done.
Qed.

Lemma out_write_ok pos src out : pos + zlen src ≤ zlen out → out_write pos src out = Some (zwrite pos src out).
Proof. intros. unfold out_write. by rewrite (proj2 (Z.leb_le _ _)) by lia. Qed.

(** The three writes build the packet. *)
Lemma packet_written (h a d out : list Z) :
    zlen h = 3 → 3 + zlen a + zlen d ≤ zlen out →
    ztake (3 + zlen a + zlen d) (zwrite (3 + zlen a) d (zwrite 3 a (zwrite 0 h out))) = h ++ a ++ d.
Proof.
    intros Hh Hz. rewrite <- (ztake_zdrop 3 out), zwrite_prefix by (rewrite zlen_ztake; lia).
    rewrite (zwrite_app 3) by done. rewrite app_assoc, (zwrite_app (3 + zlen a)) by (rewrite zlen_app; lia).
    rewrite <- !app_assoc, (app_assoc a), (app_assoc h). apply ztake_app_exact. rewrite !zlen_app. lia.
Qed.

Lemma wp_connection_send o p c flags data :
    gw_inv o → heap o !! p = Some c → zlen data ≤ udp_mtu o →
    wp (connection_send p flags data) o (λ _ o' es,
      gw_inv o' ∧ (∃ w, o' = set_con p (with_writer w c) o) ∧
      es = if bool_decide (is_Some (BufferWriter.out (send_if c)))
           then [ConnectionOutput p (packet_msg flags (conid c) (remote_addr (conaddr c)) data)] else []).
Proof.
    intros Hi Hp Hd. destruct (gi_con _ Hi p c Hp) as [Hid Had Hfd [Hwm Hww] Hout].
    pose proof Had as (_ & Hrw & _ & Hrip). pose proof (zlen_addr_bytes _ Hrw Hrip) as Hza.
    pose proof (gi_mtu _ Hi) as (Hm1 & Hm2 & _).
    unfold connection_send. apply wp_bind, wp_get, wp_bind, wp_assert; [by apply Z.leb_le|].
    apply wp_bind. unfold get_con. apply wp_bind, wp_get. unfold mlift at 1, wp at 1. rewrite Hp.
    assert (Hinv : ∀ w, BufferWriter.mtu w = udpgw_mtu o → BufferWriter.d_writing w = false →
      BufferWriter.out w = None ∨ BufferWriter.out w = BufferWriter.out (send_if c) →
      gw_inv (set_con p (with_writer w c) o)).
    { intros w Hw1 Hw2 Hw3. apply (gw_inv_update o p c); try done.
      split; try done; cbn [with_writer send_if]. destruct Hw3 as [->| ->]; [done|exact Hout]. }
    apply wp_bind. destruct (send_if c) as [m out wr] eqn:Hsc. cbn in Hwm, Hww, Hout. subst m wr.
    destruct out as [mem|].
    - eapply (wp_on_writer p _ o c (Some mem)); [done| |].
      { rewrite Hsc. unfold BufferWriter.BufferWriter_StartPacket, ASSERT, mbind, M_bind, mget, mput, mret, M_ret.
        cbn. by rewrite orb_true_r. }
      cbn [map app]. specialize (Hout mem eq_refl).
      set (flags' := if BAddr_type _ =? _ then _ else _).
      set (hdr := [ltoh8 flags'] ++ le_bytes 2 (ltoh16 (conid c))).
      assert (Hzh : zlen hdr = 3) by (unfold hdr; rewrite length_app, length_le_bytes; done).
      assert (Hle : zlen (addr_bytes (remote_addr (conaddr c))) ≤ 18) by (rewrite Hza; case_match; lia).
      apply wp_bind. rewrite (out_write_ok 0 hdr) by lia. unfold mlift at 1, wp at 1.
      apply wp_bind.
      assert (Hadr : (match remote_addr (conaddr c) with
         | BAddr_IPv4 ip port =>
             out ← out_write sizeof_udpgw_header (le_bytes 4 ip ++ le_bytes 2 port) (zwrite 0 hdr mem);
             Some (out, sizeof_udpgw_header + sizeof_udpgw_addr_ipv4)
         | BAddr_IPv6 ip port =>
             out ← out_write sizeof_udpgw_header (ip ++ le_bytes 2 port) (zwrite 0 hdr mem);
             Some (out, sizeof_udpgw_header + sizeof_udpgw_addr_ipv6)
         | _ => Some (zwrite 0 hdr mem, sizeof_udpgw_header)
         end) = Some (zwrite 3 (addr_bytes (remote_addr (conaddr c))) (zwrite 0 hdr mem),
                      3 + zlen (addr_bytes (remote_addr (conaddr c))))).
      { rewrite Hza. unfold sizeof_udpgw_header, sizeof_udpgw_addr_ipv4, sizeof_udpgw_addr_ipv6.
        destruct (remote_addr (conaddr c)) as [|ip port|ip port|]; try done; cbn [addr_bytes] in *;
          (rewrite out_write_ok by (zw_len; lia)); done. }
      rewrite Hadr. unfold mlift at 1, wp at 1. set (ab := addr_bytes _) in *.
      apply wp_bind. rewrite out_write_ok by (zw_len; lia). unfold mlift at 1, wp at 1.
      eapply wp_on_writer; [apply lookup_insert_eq| |].
      { cbn [with_writer send_if]. unfold BufferWriter.BufferWriter_EndPacket, ASSERT, mbind, M_bind, mget, mput, emit.
        cbn [BufferWriter.mtu BufferWriter.out BufferWriter.d_writing].
        rewrite (proj2 (Z.leb_le 0 _)), (proj2 (Z.leb_le _ (udpgw_mtu o))), bool_decide_true, !orb_true_r by (lia || eauto).
        reflexivity. }
      cbn [map app]. rewrite packet_written by (done || lia).
      replace (set_con p _ (set_con p _ o)) with (set_con p (with_writer (BufferWriter.mk (udpgw_mtu o) None false) c) o).
      2: { unfold set_con. cbn. by rewrite insert_insert_eq. }
      split; [apply Hinv; cbn; auto|]. split; [eauto|]. rewrite bool_decide_true by (cbn; eauto). done.
    - eapply (wp_on_writer p _ o c None); [done| |].
      { rewrite Hsc. unfold BufferWriter.BufferWriter_StartPacket, ASSERT, mbind, M_bind, mget, mput, mret, M_ret.
        cbn. by rewrite orb_true_r. }
      apply wp_ret. cbn [map app]. split; [apply Hinv; cbn; auto|]. split; [eauto|].
      by rewrite bool_decide_false by (by intros [? ?]).
Qed.
End sending.

(** ** The table of connections

    What the client promises its user: a table from pairs of addresses to
    conids, least recently used first. *)

Section table.
Import UdpGwClient.

Definition entry (h : gmap Z connection) (p : Z) : option (conaddr_t * Z) :=
    (λ c, (conaddr c, conid c)) <$> h !! p.

Definition table (o : t) : list (conaddr_t * Z) := omap (entry (heap o)) (connections_list o).

Definition table_remove (a : conaddr_t) (tbl : list (conaddr_t * Z)) : list (conaddr_t * Z) :=
    List.filter (λ e, negb (bool_decide (e.1 = a))) tbl.

Definition table_find (a : conaddr_t) (tbl : list (conaddr_t * Z)) : option Z :=
    snd <$> List.find (λ e, bool_decide (e.1 = a)) tbl.

Lemma table_length o : gw_inv o → zlen (table o) = num_connections o.
Proof.
    intros Hi. rewrite (gi_num _ Hi). unfold table.
    assert (Hall : ∀ l, (∀ p, p ∈ l → is_Some (heap o !! p)) → length (omap (entry (heap o)) l) = length l).
    { induction l as [|p l IH]; intros Hl; [done|]. cbn. unfold entry.
      destruct (Hl p) as [c ->]; [left|]. cbn. f_equal. apply IH. intros q Hq. apply Hl. by right. }
    rewrite Hall; [done|]. intros p. apply (gi_dom _ Hi).
Qed.

Lemma elem_of_table o a i :
    gw_inv o → (a, i) ∈ table o ↔ ∃ p c, heap o !! p = Some c ∧ conaddr c = a ∧ conid c = i.
Proof.
    intros Hi. unfold table, entry. rewrite list_elem_of_omap. split.
    - intros (p & _ & (c & Hp & Heq)%fmap_Some). injection Heq as -> ->. eauto.
    - intros (p & c & Hp & <- & <-). exists p. split; [apply (gi_dom _ Hi); eauto|]. by rewrite Hp.
Qed.

Lemma table_find_None o a :
    gw_inv o → table_find a (table o) = None ↔ ∀ p c, heap o !! p = Some c → conaddr c ≠ a.
Proof.
    intros Hi. unfold table_find. rewrite fmap_None. split.
    - intros Hf p c Hp Ha.
      assert (Hin : (a, conid c) ∈ table o) by (apply elem_of_table; eauto).
      apply list_elem_of_In, (find_none _ _ Hf) in Hin. by apply bool_decide_eq_false in Hin.
    - intros Hn. destruct (find _ _) as [[a' i]|] eqn:Hf; [|done]. apply find_some in Hf as [Hin Ha].
      apply bool_decide_eq_true in Ha. cbn in Ha. subst a'.
      apply list_elem_of_In, elem_of_table in Hin as (p & c & Hp & Ha & _); [|done]. by destruct (Hn p c Hp).
Qed.

Lemma table_find_Some o a i :
    gw_inv o → table_find a (table o) = Some i ↔ ∃ p c, heap o !! p = Some c ∧ conaddr c = a ∧ conid c = i.
Proof.
    intros Hi. split.
    - unfold table_find. intros ([a' j] & [Hin Ha]%find_some & ->)%fmap_Some. apply bool_decide_eq_true in Ha.
      cbn in Ha |- *. subst a'. apply list_elem_of_In in Hin. by apply elem_of_table.
    - intros (p & c & Hp & Ha & Hc). destruct (table_find a (table o)) as [j|] eqn:Hf.
      + f_equal. unfold table_find in Hf. apply fmap_Some in Hf as ([a' j'] & Hf & ->).
        apply find_some in Hf as [Hin Ha']. apply bool_decide_eq_true in Ha'. cbn in Ha' |- *. subst a'.
        apply list_elem_of_In, elem_of_table in Hin as (q & d & Hq & Hda & Hdj); [|done].
        assert (q = p) as -> by (eapply (gi_addr _ Hi); [done|done|congruence]). congruence.
      + pose proof (proj1 (table_find_None o a Hi) Hf p c Hp). done.
Qed.

Lemma omap_remove o p c l :
    gw_inv o → heap o !! p = Some c → (∀ q, q ∈ l → is_Some (heap o !! q)) →
    omap (entry (heap o)) (remove_node p l) = table_remove (conaddr c) (omap (entry (heap o)) l).
Proof.
    intros Hi Hp. induction l as [|q l IH]; intros Hl; [done|].
    destruct (Hl q) as [d Hq]; [left|]. cbn [omap list_omap remove_node List.filter].
    change (List.filter (λ q0, negb (q0 =? p)) l) with (remove_node p l).
    specialize (IH (λ r Hr, Hl r (list_elem_of_further _ _ _ Hr))).
    assert (He : entry (heap o) q = Some (conaddr d, conid d)) by (unfold entry; by rewrite Hq).
    destruct (Z.eqb_spec q p) as [->|Hne]; cbn [negb omap list_omap]; rewrite He; cbn [table_remove List.filter fst].
    - rewrite Hp in Hq. injection Hq as <-. rewrite bool_decide_true by done. exact IH.
    - rewrite bool_decide_false; [cbn [negb]; f_equal; exact IH|]. intros Heq. apply Hne. by eapply (gi_addr _ Hi).
Qed.

Lemma omap_ext_entry (h h' : gmap Z connection) (l : list Z) :
    (∀ p, p ∈ l → entry h p = entry h' p) → omap (entry h) l = omap (entry h') l.
Proof.
    induction l as [|p l IH]; intros Hl; [done|]. cbn. rewrite Hl by left.
    by rewrite IH by (intros q Hq; apply Hl; by right).
Qed.

Lemma entry_set h p c w : h !! p = Some c → ∀ q, entry (<[p := with_writer w c]> h) q = entry h q.
Proof.
    intros Hp q. unfold entry. destruct (decide (p = q)) as [->|]; [|by rewrite lookup_insert_ne].
    by rewrite lookup_insert_eq, Hp.
Qed.

Lemma table_set_con o p c w : heap o !! p = Some c → table (set_con p (with_writer w c) o) = table o.
Proof. intros Hp. unfold table. cbn. apply omap_ext_entry. intros q _. by apply entry_set. Qed.

Lemma table_remove_id a tbl : (∀ e, e ∈ tbl → e.1 = a → False) → table_remove a tbl = tbl.
Proof.
    induction tbl as [|e tbl IH]; intros Hn; [done|]. cbn [table_remove List.filter].
    rewrite bool_decide_false by (intros He; apply (Hn e); [left|done]). cbn [negb]. f_equal.
    apply IH. intros e' He'. apply Hn. by right.
Qed.

(** An address is in the table once. *)
Lemma table_keys_nodup o a x y rest :
    gw_inv o → table o = (a, x) :: rest → (a, y) ∈ rest → False.
Proof.
    intros Hi. unfold table. pose proof (gi_nodup _ Hi) as Hnd.
    assert (Hdom : ∀ p, p ∈ connections_list o → is_Some (heap o !! p)) by (intros p; apply (gi_dom _ Hi)).
    destruct (connections_list o) as [|p l]; [done|]. destruct (Hdom p) as [c Hp]; [left|].
    cbn. unfold entry at 1. rewrite Hp. cbn. intros [= Ha _ <-] Hin.
    apply list_elem_of_omap in Hin as (q & Hq & He). unfold entry in He. apply fmap_Some in He as (d & Hqd & [= Hd _]).
    apply NoDup_cons in Hnd as [Hnp _]. apply Hnp.
    assert (q = p) as -> by (eapply (gi_addr _ Hi); [done|done|congruence]). done.
Qed.

Lemma table_move o p c :
    gw_inv o → heap o !! p = Some c →
    omap (entry (heap o)) (remove_node p (connections_list o) ++ [p]) =
    table_remove (conaddr c) (table o) ++ [(conaddr c, conid c)].
Proof.
    intros Hi Hp. rewrite omap_app. f_equal.
    - apply omap_remove; try done. intros q. apply (gi_dom _ Hi).
    - cbn. unfold entry. by rewrite Hp.
Qed.
End table.

Section submit.
Context `{Build}.
Import UdpGwClient.

Definition moved (p : Z) (o : t) : t :=
    with_conns (heap o) (tree_by_conaddr o) (tree_by_conid o)
      (remove_node p (connections_list o) ++ [p]) (num_connections o) o.

(** What submitting leaves as it was. *)
Definition gw_keeps (o o' : t) : Prop := gw_inv o' ∧ have_server o' = have_server o.

(** Using a connection: it goes to the end of the list and sends. *)
Lemma wp_use o p c flags data :
    gw_inv o → heap o !! p = Some c → zlen data ≤ udp_mtu o →
    wp (move_to_end p;; connection_send p flags data) o (λ _ o' es,
      gw_keeps o o' ∧ table o' = table_remove (conaddr c) (table o) ++ [(conaddr c, conid c)] ∧
      es = if bool_decide (is_Some (BufferWriter.out (send_if c)))
           then [ConnectionOutput p (packet_msg flags (conid c) (remote_addr (conaddr c)) data)] else []).
Proof.
    intros Hi Hp Hd. apply wp_bind, wp_modify. fold (moved p o).
    assert (Hm : gw_inv (moved p o)) by (apply gw_inv_move; eauto).
    eapply wp_mono; [apply (wp_connection_send (moved p o) p c); done|].
    intros [] o' es (Hi' & (w & ->) & ->). cbn [app]. split; [by split|]. split; [|done].
    rewrite table_set_con by done. exact (table_move o p c Hi Hp).
Qed.

Lemma wp_find_unused o :
    gw_inv o → num_connections o < max_connections o →
    wp find_unused_conid o (λ x o' es, es = [] ∧ o' = with_next_conid x o ∧ 0 ≤ x < max_connections o ∧
      ∀ p c, heap o !! p = Some c → conid c ≠ x).
Proof.
    intros Hi Hlt. destruct (conid_found o Hi Hlt) as (x & Hl & Hx & Hf). unfold find_unused_conid.
    apply wp_bind, wp_get, wp_bind, wp_assert; [by apply Z.ltb_lt|]. apply wp_bind.
    rewrite Hl. unfold mlift, wp at 1. apply wp_bind, wp_put, wp_ret.
    pose proof (gi_max _ Hi). rewrite u16_small by lia. done.
Qed.

Lemma wp_connection_init o malloc ok a flags data :
    gw_inv o → num_connections o < max_connections o → conaddr_wf a → zlen data ≤ udp_mtu o →
    table_find a (table o) = None → (∀ p, malloc = Some p → heap o !! p = None) →
    wp (connection_init malloc ok a flags data) o (λ _ o' es, gw_keeps o o' ∧ es = [] ∧
      if bool_decide (is_Some malloc) && ok
      then ∃ p x, malloc = Some p ∧ (∀ e, e ∈ table o → e.2 ≠ x) ∧ table o' = table o ++ [(a, x)] ∧
             heap o' !! p = Some (mk_con a flags data x true (BufferWriter.BufferWriter_Init (udpgw_mtu o)))
      else table o' = table o).
Proof.
    intros Hi Hlt Ha Hd Hnone Hfresh. pose proof (proj1 (table_find_None o a Hi) Hnone) as Hna.
    unfold connection_init. apply wp_bind, wp_get, wp_bind, wp_assert; [by apply Z.ltb_lt|].
    apply wp_bind, wp_assert.
    { apply bool_decide_eq_true. destruct (find_connection_by_conaddr o a) as [p|] eqn:Hf; [|done].
      apply conaddr_lookup in Hf as (c & Hp & Hc); [|done|done]. by apply Hna in Hp. }
    apply wp_bind, wp_assert; [by apply Z.leb_le|]. cbn [app].
    destruct malloc as [p|]; [|apply wp_ret; split; [by split|done]]. specialize (Hfresh p eq_refl).
    apply wp_bind. eapply wp_mono; [by apply wp_find_unused|]. intros x o1 es (-> & -> & Hx & Hxf).
    pose proof (gw_inv_next o x Hi Hx) as Hi1. destruct ok; cbn [negb]; [|apply wp_ret; rewrite bool_decide_true by eauto; split; [by split|done]].
    apply wp_bind, wp_get.
    set (con := mk_con a flags data x true (BufferWriter.BufferWriter_Init (udpgw_mtu (with_next_conid x o)))).
    assert (Hcw : con_wf (with_next_conid x o) con) by (split; done).
    destruct (gw_inv_new (with_next_conid x o) p con Hi1 Hfresh Hcw Hlt) as (Ht1 & Ht2 & Hinv); [done|done|].
    rewrite Ht1, Ht2. apply wp_bind, wp_assert; [done|]. apply wp_bind, wp_assert; [done|].
    apply wp_put. cbn [app]. split; [by split|]. split; [done|]. rewrite bool_decide_true by eauto. cbn [andb].
    exists p, x. split_and!; [done| | |cbn; by rewrite lookup_insert_eq].
    - intros [a' i] Hin. apply elem_of_table in Hin as (q & d & Hq & _ & <-); [|done]. by apply Hxf in Hq.
    - unfold table. cbn [with_conns with_next_conid heap connections_list]. rewrite omap_app. f_equal.
      + apply omap_ext_entry. intros q Hq. unfold entry. rewrite lookup_insert_ne; [done|].
        intros <-. apply (gi_dom _ Hi) in Hq as [? ?]. congruence.
      + cbn. unfold entry. by rewrite lookup_insert_eq.
Qed.

Lemma remove_head p l : NoDup (p :: l) → remove_node p (p :: l) = l.
Proof.
    intros [Hp _]%NoDup_cons. unfold remove_node. cbn. rewrite Z.eqb_refl. cbn [negb].
    induction l as [|q l IH]; [done|]. rewrite not_elem_of_cons in Hp. cbn.
    destruct (Z.eqb_spec q p); [naive_solver|]. cbn [negb]. f_equal. apply IH. tauto.
Qed.

Lemma wp_reuse o a :
    gw_inv o → conaddr_wf a → num_connections o = max_connections o → table_find a (table o) = None →
    wp (reuse_connection a) o (λ p o' es, gw_keeps o o' ∧ es = [] ∧ udp_mtu o' = udp_mtu o ∧
      ∃ old x rest c, table o = (old, x) :: rest ∧ table o' = (a, x) :: rest ∧
        connections_list o' = connections_list o ∧ head (connections_list o) = Some p ∧
        heap o' !! p = Some c ∧ conaddr c = a ∧ conid c = x).
Proof.
    intros Hi Ha Hfull Hnone. pose proof (proj1 (table_find_None o a Hi) Hnone) as Hna.
    pose proof (gi_max _ Hi). pose proof (gi_num _ Hi) as Hnum. pose proof (gi_nodup _ Hi) as Hnd.
    unfold reuse_connection. apply wp_bind, wp_get, wp_bind, wp_assert.
    { apply bool_decide_eq_true. destruct (find_connection_by_conaddr o a) as [p|] eqn:Hf; [|done].
      apply conaddr_lookup in Hf as (c & Hp & Hc); [|done|done]. by apply Hna in Hp. }
    apply wp_bind, wp_assert; [apply Z.ltb_lt; lia|]. apply wp_bind.
    destruct (connections_list o) as [|p l] eqn:Hl; [cbn in Hnum; lia|]. cbn [head]. unfold mlift at 1, wp at 1.
    assert (Hpc : is_Some (heap o !! p)) by (apply (gi_dom _ Hi); rewrite Hl; left). destruct Hpc as [c Hp].
    apply wp_bind. unfold get_con. apply wp_bind, wp_get. unfold mlift, wp at 1. rewrite Hp.
    destruct (gw_inv_reuse o p c a Hi Hp Ha Hna) as [Hti Hinv]. rewrite Hti. apply wp_bind, wp_assert; [done|].
    apply wp_bind, wp_put, wp_ret. cbn [app]. rewrite Hl in *. split; [by split|]. split; [done|]. split; [done|].
    exists (conaddr c), (conid c), (omap (entry (heap o)) l),
      (mk_con a (first_flags c) (first_data c) (conid c) (first_job c) (send_if c)).
    assert (Hpl : p ∉ l) by (by apply NoDup_cons in Hnd as [? _]).
    split_and!; try done.
    - unfold table. rewrite Hl. cbn. unfold entry at 1. by rewrite Hp.
    - unfold table. cbn [with_conns heap connections_list]. cbn. unfold entry at 1. rewrite lookup_insert_eq. cbn. f_equal.
      apply omap_ext_entry. intros q Hq. unfold entry. rewrite lookup_insert_ne; [done|]. by intros <-.
    - cbn. apply lookup_insert_eq.
Qed.
End submit.

(** ** Wire format *)

Section wire.
Import UdpGwClient.

Lemma flag_ipv6_set flags : (Z.land (Z.lor flags UDPGW_CLIENT_FLAG_IPV6) UDPGW_CLIENT_FLAG_IPV6 =? 0) = false.
Proof.
    apply Z.eqb_neq. intros Hz. apply (f_equal (λ x, Z.testbit x 3)) in Hz.
    rewrite Z.land_spec, Z.lor_spec, Z.bits_0 in Hz. change (Z.testbit UDPGW_CLIENT_FLAG_IPV6 3) with true in Hz.
    by rewrite orb_true_r in Hz.
Qed.

Lemma parse_packet_msg flags c remote data :
    0 ≤ c < 65536 → addr_wf remote → is_ip remote = true → Z.land flags UDPGW_CLIENT_FLAG_IPV6 = 0 →
    parse_packet (packet_msg flags c remote data) =
    Some (if BAddr_type remote =? BADDR_TYPE_IPV6 then Z.lor flags UDPGW_CLIENT_FLAG_IPV6 else flags, c, remote, data).
Proof.
    intros Hc Hw Hip Hfl. unfold parse_packet, packet_msg.
    set (f := if BAddr_type remote =? BADDR_TYPE_IPV6 then _ else _).
    rewrite !zlen_app. cbn [length]. rewrite length_le_bytes. unfold sizeof_udpgw_header.
    rewrite (proj2 (Z.ltb_ge _ 3)) by lia. cbn [app nth].
    change (f :: le_bytes 2 c ++ ?x) with ((f :: le_bytes 2 c) ++ x).
    replace (ztake 2 (zdrop 1 ((f :: le_bytes 2 c) ++ addr_bytes remote ++ data))) with (le_bytes 2 c)
      by (symmetry; apply (ztake_app_exact 2 (le_bytes 2 c)); by rewrite length_le_bytes).
    rewrite (zdrop_app_exact 3) by (cbn [length]; by rewrite length_le_bytes).
    unfold ltoh16, htol16, ltoh8, htol8. rewrite le_val_le_bytes by (cbn; lia).
    destruct remote as [|ip port|ip port|]; try (vm_compute in Hip; done); cbn [BAddr_type addr_bytes] in *.
    - change (BADDR_TYPE_IPV4 =? BADDR_TYPE_IPV6) with false in f. cbn iota in f. subst f. rewrite Hfl. cbn [Z.eqb negb].
      destruct Hw as [Hip4 Hport]. unfold sizeof_udpgw_addr_ipv4.
      rewrite (proj2 (Z.ltb_ge _ 6)) by (rewrite !length_app, !length_le_bytes; lia).
      rewrite <- app_assoc, (ztake_app_exact 4), (zdrop_app_exact 4) by (by rewrite length_le_bytes).
      rewrite (ztake_app_exact 2) by (by rewrite length_le_bytes). rewrite !le_val_le_bytes by (cbn; lia).
      rewrite app_assoc, (zdrop_app_exact 6) by (by rewrite length_app, !length_le_bytes). done.
    - change (BADDR_TYPE_IPV6 =? BADDR_TYPE_IPV6) with true in f. cbn iota in f. subst f. rewrite flag_ipv6_set. cbn [negb].
      destruct Hw as (Hl & Hb & Hport). unfold sizeof_udpgw_addr_ipv6.
      rewrite (proj2 (Z.ltb_ge _ 18)) by (rewrite !length_app, Hl, !length_le_bytes; lia).
      rewrite <- app_assoc, (ztake_app_exact 16), (zdrop_app_exact 16) by (by rewrite Hl).
      rewrite (ztake_app_exact 2) by (by rewrite length_le_bytes). rewrite !le_val_le_bytes by (cbn; lia).
      rewrite app_assoc, (zdrop_app_exact 18) by (by rewrite length_app, Hl, !length_le_bytes).
      unfold BAddr_MakeIPv6. by rewrite take_ge by lia.
Qed.

Lemma parse_packet_wf data f c remote rest :
    bytes data → parse_packet data = Some (f, c, remote, rest) → 0 ≤ c < 65536 ∧ addr_wf remote.
Proof.
    intros Hb. unfold parse_packet, sizeof_udpgw_header, sizeof_udpgw_addr_ipv4, sizeof_udpgw_addr_ipv6.
    destruct (Z.ltb_spec (zlen data) 3) as [|H3]; [done|]. set (d := zdrop 3 data).
    assert (Hd : bytes d) by (unfold d; auto with zlist).
    assert (Hv : ∀ n l, bytes l → n ≤ zlen l → 0 ≤ n → 0 ≤ le_val (ztake n l) < 256 ^ n).
    { intros n l Hl Hn Hn0. pose proof (le_val_bound (ztake n l) (Forall_ztake _ _ _ Hl)) as Hlv.
      by rewrite zlen_ztake in Hlv by lia. }
    assert (Hc : 0 ≤ le_val (ztake 2 (zdrop 1 data)) < 65536)
      by (apply (Hv 2); [auto with zlist|rewrite zlen_zdrop; lia|lia]).
    destruct (negb _).
    - destruct (Z.ltb_spec (zlen d) 18); [done|]. intros [= <- <- <- <-]. split; [done|].
      split; [unfold ztake; rewrite !length_take; lia|]. split; [apply Forall_take; auto with zlist|].
      apply (Hv 2); [auto with zlist|rewrite zlen_zdrop; lia|lia].
    - destruct (Z.ltb_spec (zlen d) 6); [done|]. intros [= <- <- <- <-]. split; [done|].
      split; [apply (Hv 4); [done|lia|lia]|apply (Hv 2); [auto with zlist|rewrite zlen_zdrop; lia|lia]].
Qed.
End wire.

Section handlers.
Context `{Build}.
Import UdpGwClient.

Lemma wp_submit o malloc ok local remote (is_dns : bool) data :
    let a := mk_conaddr local remote in
    let flags := if is_dns then UDPGW_CLIENT_FLAG_DNS else 0 in
    gw_inv o → conaddr_wf a → zlen data ≤ udp_mtu o → (∀ p, malloc = Some p → heap o !! p = None) →
    wp (UdpGwClient_SubmitPacket malloc ok local remote is_dns data) o (λ _ o' es, gw_keeps o o' ∧
      match table_find a (table o) with
      | Some x => table o' = table_remove a (table o) ++ [(a, x)] ∧
          (es = [] ∨ ∃ p, es = [ConnectionOutput p (packet_msg flags x remote data)])
      | None =>
          if zlen (table o) =? max_connections o then
            ∃ old x rest, table o = (old, x) :: rest ∧ table o' = rest ++ [(a, x)] ∧
              (es = [] ∨ ∃ p, es = [ConnectionOutput p (packet_msg (Z.lor flags UDPGW_CLIENT_FLAG_REBIND) x remote data)])
          else es = [] ∧
            if bool_decide (is_Some malloc) && ok
            then ∃ p x c, (∀ e, e ∈ table o → e.2 ≠ x) ∧ table o' = table o ++ [(a, x)] ∧ heap o' !! p = Some c ∧
                   first_job c = true ∧ first_flags c = flags ∧ first_data c = data ∧ conaddr c = a ∧ conid c = x
            else table o' = table o
      end).
Proof.
    intros a flags Hi Ha Hd Hfresh. pose proof Ha as (_ & _ & Hip1 & Hip2). cbn in Hip1, Hip2.
    unfold UdpGwClient_SubmitPacket. apply wp_bind, wp_get, wp_bind, wp_assert; [done|].
    apply wp_bind, wp_assert; [done|]. apply wp_bind, wp_assert; [by apply Z.leb_le|]. cbn [app]. fold a.
    rewrite Z.lor_0_l. fold flags. rewrite (table_length o Hi).
    destruct (find_connection_by_conaddr o a) as [p|] eqn:Hf.
    - apply conaddr_lookup in Hf as (c & Hp & Hca); [|done|done].
      assert (Ht : table_find a (table o) = Some (conid c)) by (apply table_find_Some; eauto). rewrite Ht.
      apply wp_bind, wp_ret. eapply wp_mono; [apply (wp_use o p c); done|].
      intros [] o' es (Hi' & Htab & ->). rewrite Hca in *. split; [done|]. split; [done|].
      cbn [app]. case_bool_decide; [right; eauto|by left].
    - assert (Ht : table_find a (table o) = None).
      { destruct (table_find a (table o)) as [x|] eqn:E; [|done]. apply table_find_Some in E as (p & c & Hp & Hca & _); [|done].
        assert (find_connection_by_conaddr o a = Some p) by (apply conaddr_lookup; eauto). congruence. }
      rewrite Ht. destruct (Z.eqb_spec (num_connections o) (max_connections o)) as [Hfull|Hnf].
      + apply wp_bind, wp_bind. eapply wp_mono; [by apply wp_reuse|].
        intros p o1 es ([Hi1 Hs1] & -> & Hu & old & x & rest & c & Htab & Htab1 & Hl1 & Hh & Hp & Hca & Hcx). apply wp_ret.
        eapply wp_mono; [apply (wp_use o1 p c); [done|done|by rewrite Hu]|].
        intros [] o' es ([Hi' Hs'] & Htab' & ->). split; [split; [done|congruence]|]. exists old, x, rest. split; [done|]. cbn [app].
        rewrite Hca, Hcx in *. split; [|case_bool_decide; [right; eauto|by left]].
        rewrite Htab', Htab1. f_equal. cbn [table_remove List.filter fst]. rewrite bool_decide_true by done. cbn [negb].
        apply table_remove_id. intros [a' y] Hin Heq. cbn [fst] in Heq. rewrite Heq in Hin.
        by apply (table_keys_nodup o1 a x y rest).
      + apply wp_bind, wp_ret. pose proof (gi_le _ Hi).
        eapply wp_mono; [apply (wp_connection_init o); try done; lia|].
        intros [] o' es (Hi' & -> & Hc). split; [done|]. split; [done|].
        destruct (bool_decide (is_Some malloc) && ok); [|done].
        destruct Hc as (p & x & -> & Hx & Htab & Hp). exists p, x. eexists. split_and!; done.
Qed.

(** A packet from the gateway. *)
Definition delivers (o : t) (data : list Z) : option (conaddr_t * list Z) :=
    '(_, c, remote, rest) ← parse_packet data;
    if udp_mtu o <? zlen rest then None
    else a ← List.find (λ e, bool_decide (e.2 = c)) (table o);
         if bool_decide (remote_addr a.1 = remote) then Some (a.1, rest) else None.

Lemma table_find_conid o c :
    gw_inv o →
    match List.find (λ e, bool_decide (e.2 = c)) (table o) with
    | Some (a, i) => i = c ∧ ∃ p con, heap o !! p = Some con ∧ conaddr con = a ∧ conid con = c
    | None => ∀ p con, heap o !! p = Some con → conid con ≠ c
    end.
Proof.
    intros Hi. destruct (List.find _ _) as [[a i]|] eqn:Hf.
    - apply find_some in Hf as [Hin Hc]. apply bool_decide_eq_true in Hc. cbn in Hc. subst i. split; [done|].
      apply list_elem_of_In, elem_of_table in Hin; [|done]. done.
    - intros p con Hp Hc. assert (Hin : (conaddr con, conid con) ∈ table o) by (apply elem_of_table; eauto).
      apply list_elem_of_In, (find_none _ _ Hf) in Hin. by apply bool_decide_eq_false in Hin.
Qed.

Lemma wp_receive o data :
    gw_inv o → have_server o = true → bytes data → zlen data ≤ udpgw_mtu o →
    wp (recv_interface_handler_send data) o (λ _ o' es, gw_inv o' ∧
      match delivers o data with
      | Some (a, rest) => ∃ x, table_find a (table o) = Some x ∧ table o' = table_remove a (table o) ++ [(a, x)] ∧
          es = [RecvDone; HandlerReceived (local_addr a) (remote_addr a) rest]
      | None => o' = o ∧ es = [RecvDone]
      end).
Proof.
    intros Hi Hs Hb Hz. unfold recv_interface_handler_send, delivers.
    apply wp_bind, wp_get, wp_bind, wp_assert; [done|]. apply wp_bind, wp_assert; [by apply Z.leb_le|].
    apply wp_bind, wp_emit. cbn [app].
    destruct (parse_packet data) as [[[[f c] remote] rest]|] eqn:Hp; [|apply wp_ret; done].
    destruct (parse_packet_wf _ _ _ _ _ Hb Hp) as [Hc Hr]. cbn [mbind option_bind].
    destruct (udp_mtu o <? zlen rest); [apply wp_ret; done|].
    pose proof (table_find_conid o c Hi) as Htf.
    destruct (find_connection_by_conid o c) as [p|] eqn:Hfc.
    - apply conid_lookup in Hfc as (con & Hpc & Hcc); [|done|done].
      destruct (List.find _ (table o)) as [[a i]|]; [|by apply Htf in Hpc]. destruct Htf as [-> (q & con' & Hq & Ha & Hc')].
      assert (q = p) as -> by (eapply (gi_conid _ Hi); [done|done|congruence]).
      rewrite Hpc in Hq. injection Hq as <-. cbn [mbind option_bind fst].
      apply wp_bind. unfold get_con. apply wp_bind, wp_get. unfold mlift, wp at 1. rewrite Hpc. rewrite Ha.
      destruct (gi_con _ Hi p con Hpc) as [_ (_ & Hrw & _) _ _ _]. rewrite Ha in Hrw.
      destruct (Z.eqb_spec (BAddr_CompareOrder (remote_addr a) remote) 0) as [H0|H0]; cbn [negb].
      + apply CompareOrder_zero in H0; [|done|done]. rewrite bool_decide_true by done.
        apply wp_bind, wp_modify. fold (moved p o). apply wp_emit. cbn [app].
        split; [apply gw_inv_move; eauto|]. exists (conid con). split; [apply table_find_Some; eauto|]. split; [|done].
        rewrite <- Ha. exact (table_move o p con Hi Hpc).
      + rewrite bool_decide_false; [apply wp_ret; done|]. intros He. by apply H0, CompareOrder_zero.
    - destruct (List.find _ (table o)) as [[a i]|]; [|apply wp_ret; done].
      destruct Htf as [-> (q & con' & Hq & Ha & Hc')].
      assert (find_connection_by_conid o c = Some q) by (apply conid_lookup; eauto). congruence.
Qed.

Lemma wp_first_job o p c :
    gw_inv o → heap o !! p = Some c →
    wp (connection_first_job_handler p) o (λ _ o' es, gw_inv o' ∧ table o' = table o ∧
      es = if bool_decide (is_Some (BufferWriter.out (send_if c)))
           then [ConnectionOutput p (packet_msg (Z.lor UDPGW_CLIENT_FLAG_REBIND (first_flags c)) (conid c)
                                       (remote_addr (conaddr c)) (first_data c))] else []).
Proof.
    intros Hi Hp. unfold connection_first_job_handler. apply wp_bind. unfold get_con. apply wp_bind, wp_get.
    unfold mlift, wp at 1. rewrite Hp. apply wp_bind. unfold put_con. apply wp_modify.
    set (c' := mk_con _ _ _ _ _ _).
    destruct (gi_con _ Hi p c Hp) as [Hcid Had Hfd Hwr Hout].
    assert (Hi1 : gw_inv (set_con p c' o)) by (apply (gw_inv_update o p c); try done; by split).
    fold (set_con p c' o).
    eapply wp_mono; [apply (wp_connection_send (set_con p c' o) p c'); [done|apply lookup_insert_eq|done]|].
    intros [] o' es (Hi' & (w & ->) & ->). cbn [app]. split; [done|]. split; [|done].
    rewrite table_set_con by apply lookup_insert_eq. unfold table. cbn [set_con with_conns heap connections_list].
    apply omap_ext_entry. intros q _. unfold entry. destruct (decide (p = q)) as [->|]; [|by rewrite lookup_insert_ne].
    by rewrite lookup_insert_eq, Hp.
Qed.

Lemma wp_ready o p c mem :
    gw_inv o → heap o !! p = Some c → BufferWriter.out (send_if c) = None → zlen mem = udpgw_mtu o →
    wp (connection_ready p mem) o (λ _ o' es, gw_inv o' ∧ table o' = table o ∧ es = []).
Proof.
    intros Hi Hp Hn Hz. destruct (gi_con _ Hi p c Hp) as [Hcid Had Hfd [Hwm Hww] Hout].
    eapply wp_on_writer; [done| |].
    { unfold BufferWriter.output_handler_recv, ASSERT, mbind, M_bind, mget, mput.
      rewrite Hn, bool_decide_true, orb_true_r by done. reflexivity. }
    split; [|split; [by apply table_set_con|done]]. apply (gw_inv_update o p c); try done.
    split; try done; cbn. by intros ? [= <-].
Qed.
End handlers.

(** ** Everything the environment may call *)

Section calls.
Context `{Build}.
Import UdpGwClient.

Inductive gw_call :=
  | CSubmit (malloc : option Z) (ok : bool) (local remote : BAddr) (is_dns : bool) (data : list Z)
  | CReceive (data : list Z)
  | CFirstJob (p : Z)
  | CReady (p : Z) (mem : list Z)
  | CMonitor | CKeepaliveDone | CDecoderError
  | CConnect (ok : bool) | CDisconnect.

(** The contract of each call: what its caller guarantees. *)
Definition gw_allowed (o : t) (c : gw_call) : Prop :=
    match c with
    | CSubmit malloc _ local remote _ data =>
        conaddr_wf (mk_conaddr local remote) ∧ zlen data ≤ udp_mtu o ∧ ∀ p, malloc = Some p → heap o !! p = None
    | CReceive data => have_server o = true ∧ bytes data ∧ zlen data ≤ udpgw_mtu o
    | CFirstJob p => ∃ con, heap o !! p = Some con ∧ first_job con = true
    | CReady p mem => zlen mem = udpgw_mtu o ∧ ∃ con, heap o !! p = Some con ∧ BufferWriter.out (send_if con) = None
    | CMonitor => True
    | CKeepaliveDone => keepalive_sending o = true
    | CDecoderError => have_server o = true
    | CConnect _ => have_server o = false
    | CDisconnect => have_server o = true
    end.

Definition gw_run (c : gw_call) : IO unit :=
    match c with
    | CSubmit malloc ok local remote is_dns data => UdpGwClient_SubmitPacket malloc ok local remote is_dns data
    | CReceive data => recv_interface_handler_send data
    | CFirstJob p => connection_first_job_handler p
    | CReady p mem => connection_ready p mem
    | CMonitor => send_monitor_handler
    | CKeepaliveDone => keepalive_if_handler_done
    | CDecoderError => decoder_handler_error
    | CConnect ok => UdpGwClient_ConnectServer ok;; mret tt
    | CDisconnect => UdpGwClient_DisconnectServer
    end.

Lemma gw_run_inv o c : gw_inv o → gw_allowed o c → wp (gw_run c) o (λ _ o' _, gw_inv o').
Proof.
    intros Hi Ha. destruct c as [malloc ok l r dns d|d|p|p mem| | | |ok|]; cbn [gw_allowed gw_run] in *.
    - destruct Ha as (Hw & Hd & Hm). eapply wp_mono; [by apply wp_submit|]. by intros [] ? ? [[? _] _].
    - destruct Ha as (Hs & Hb & Hz). eapply wp_mono; [by apply wp_receive|]. naive_solver.
    - destruct Ha as (con & Hp & _). eapply wp_mono; [by apply wp_first_job|]. naive_solver.
    - destruct Ha as (Hz & con & Hp & Hn). eapply wp_mono; [by eapply wp_ready|]. naive_solver.
    - unfold send_monitor_handler. apply wp_bind, wp_get. destruct (keepalive_sending o); [by apply wp_ret|].
      apply wp_bind, wp_emit, wp_put. by apply (gw_inv_flags o true true).
    - unfold keepalive_if_handler_done. apply wp_bind, wp_get, wp_bind, wp_assert; [done|]. apply wp_put.
      by apply (gw_inv_flags o false true).
    - unfold decoder_handler_error. apply wp_bind, wp_get, wp_bind, wp_assert; [done|]. by apply wp_emit.
    - unfold UdpGwClient_ConnectServer. apply wp_bind, wp_bind, wp_get, wp_bind, wp_assert; [by rewrite Ha|].
      destruct ok; [|by apply wp_ret]. apply wp_bind, wp_emit, wp_bind, wp_put, wp_ret, wp_ret.
      by apply (gw_inv_flags o true true).
    - unfold UdpGwClient_DisconnectServer. apply wp_bind, wp_get, wp_bind, wp_assert; [done|].
      apply wp_bind, wp_emit, wp_put. by apply (gw_inv_flags o true false).
Qed.

(** Freeing the client frees every connection, once. *)
Lemma wp_free_connections o fuel :
    gw_inv o → length (connections_list o) = fuel →
    wp (free_connections fuel) o (λ _ o' es, gw_inv o' ∧ connections_list o' = [] ∧ heap o' = ∅ ∧
      have_server o' = have_server o ∧ es = map ConnectionFreed (connections_list o)).
Proof.
    revert o. induction fuel as [|fuel IH]; intros o Hi Hl; cbn [free_connections].
    - apply nil_length_inv in Hl. apply wp_ret. split; [done|]. split; [done|]. rewrite Hl. split_and!; try done.
      apply map_empty. intros p. apply eq_None_not_Some. rewrite <- (gi_dom _ Hi), Hl. apply not_elem_of_nil.
    - apply wp_bind, wp_get. destruct (connections_list o) as [|p l] eqn:Hcl; [done|].
      assert (Hp : is_Some (heap o !! p)) by (apply (gi_dom _ Hi); rewrite Hcl; left).
      pose proof (gw_inv_free o p Hi Hp) as Hi'.
      assert (Hrm : remove_node p (connections_list o) = l).
      { rewrite Hcl. apply remove_head. rewrite <- Hcl. apply (gi_nodup _ Hi). }
      rewrite Hrm in Hi'. apply wp_bind, wp_bind, wp_get, wp_bind, wp_put, wp_emit. rewrite Hrm.
      eapply wp_mono; [apply IH; [done|cbn in Hl |- *; lia]|].
      intros [] o' es (? & ? & ? & ? & ->). cbn [app map connections_list with_conns]. split_and!; done.
Qed.

(** Unless it overflows, the MTU is that of the datagram with header and address. *)
Lemma udpgw_compute_mtu_eq m : 0 ≤ m → 0 ≤ udpgw_compute_mtu m → udpgw_compute_mtu m = 21 + m.
Proof.
    intros Hm. unfold udpgw_compute_mtu, bsize_toint, bsize_add, bsize_max, bsize_fromint, bsize_fromsize, sizeof_udpgw_header,
      sizeof_udpgw_addr_ipv4, sizeof_udpgw_addr_ipv6, SIZE_MAX, INT_MAX. cbn [is_overflow bvalue].
    destruct (_ || _)%bool eqn:Hov; [lia|]. intros _. cbn [orb] in Hov.
    change (u32 ((if 18 <? 6 then 1 else 0) * 6 + (if 6 <=? 18 then 1 else 0) * 18)) with 18 in *.
    bool_props. rewrite (u32_small m) in * by lia. rewrite (u32_small (18 + m)) in * by lia.
    rewrite u32_small by lia. lia.
Qed.

Lemma Init_inv udp_mtu max send_buffer_size o :
    0 ≤ udp_mtu → 0 < max → udpgw_compute_mtu udp_mtu ≤ PACKETPROTO_MAXPAYLOAD → 0 ≤ udpgw_compute_mtu udp_mtu →
    UdpGwClient_Init udp_mtu max send_buffer_size true = Some (Some o) →
    gw_inv o ∧ table o = [] ∧ max_connections o = Z.min max 65536 ∧ UdpGwClient.udp_mtu o = udp_mtu.
Proof.
    intros Hm Hmax Hle Hge Hi. unfold UdpGwClient_Init in Hi.
    repeat match type of Hi with assert ?x ≫= _ = _ => destruct (assert x); [|done]; cbn [mbind option_bind] in Hi end.
    pose proof (udpgw_compute_mtu_eq udp_mtu Hm Hge) as Hmtu.
    injection Hi as <-. unfold PACKETPROTO_MAXPAYLOAD, UINT16_MAX in *.
    assert (Hmin : (if 65535 + 1 <? max then 65535 + 1 else max) = Z.min max 65536)
      by (destruct (Z.ltb_spec (65535 + 1) max); lia).
    rewrite Hmin. split_and!; try done.
    split; cbn; try done; try lia; try (by intros ? ? ?%lookup_empty_Some).
    - apply NoDup_nil_2.
    - intros p. rewrite lookup_empty. split; [by intros ?%not_elem_of_nil|by intros [? ?]].
Qed.
End calls.

(** The states reached by calls within their contracts. *)
Inductive gw_reach `{Build} (o0 : UdpGwClient.t) : UdpGwClient.t → Prop :=
| gw_refl : gw_reach o0 o0
| gw_step o c o' es : gw_reach o0 o → gw_allowed o c → gw_run c o = Some (tt, o', es) → gw_reach o0 o'.


(** C9: Submitting a packet keeps the table of connections as promised: a known
    pair of addresses keeps its conid and becomes the most recently used; when
    the table is full, the least recently used conid is given to the new pair,
    and the packet says so with the rebind flag; otherwise, if memory lasts, a
    new entry with a conid no other entry has is added, whose first packet is
    sent by a job.  Packets sent carry the flags, the conid of the pair and the
    remote address, and the data unchanged. *)
Theorem udpgw_submit `{Build} o malloc ok local remote (is_dns : bool) data :
  let a := UdpGwClient.mk_conaddr local remote in
  let flags := if is_dns then UDPGW_CLIENT_FLAG_DNS else 0 in
  gw_inv o → conaddr_wf a → zlen data ≤ UdpGwClient.udp_mtu o →
  (∀ p, malloc = Some p → UdpGwClient.heap o !! p = None) →
  ∃ o' es, UdpGwClient.UdpGwClient_SubmitPacket malloc ok local remote is_dns data o = Some (tt, o', es) ∧
  match table_find a (table o) with
  | Some x => table o' = table_remove a (table o) ++ [(a, x)] ∧
      (es = [] ∨ ∃ p, es = [UdpGwClient.ConnectionOutput p (packet_msg flags x remote data)])
  | None =>
      if zlen (table o) =? UdpGwClient.max_connections o then
        ∃ old x rest, table o = (old, x) :: rest ∧ table o' = rest ++ [(a, x)] ∧
          (es = [] ∨ ∃ p, es = [UdpGwClient.ConnectionOutput p
                                  (packet_msg (Z.lor flags UDPGW_CLIENT_FLAG_REBIND) x remote data)])
      else es = [] ∧
        if bool_decide (is_Some malloc) && ok
        then ∃ p x c, (∀ e, e ∈ table o → e.2 ≠ x) ∧ table o' = table o ++ [(a, x)] ∧
               UdpGwClient.heap o' !! p = Some c ∧ UdpGwClient.first_job c = true ∧
               UdpGwClient.first_flags c = flags ∧ UdpGwClient.first_data c = data ∧
               UdpGwClient.conaddr c = a ∧ UdpGwClient.conid c = x
        else table o' = table o
  end.
Proof.
  intros a flags Hi Ha Hd Hm. pose proof (wp_submit o malloc ok local remote is_dns data Hi Ha Hd Hm) as Hw.
  apply wp_run in Hw as ([] & o' & es & Hrun & _ & Hres). by exists o', es.
Qed.

(** A packet from the gateway is passed to the user exactly when it parses,
    fits the MTU, and names the conid of a connection whose remote address is
    the one in the packet; it is then passed with that connection's local
    address, and the connection becomes the most recently used.  Any other
    packet changes nothing.  The receive is finished in either case. *)
Theorem udpgw_receive `{Build} o data :
  gw_inv o → UdpGwClient.have_server o = true → bytes data → zlen data ≤ UdpGwClient.udpgw_mtu o →
  ∃ o' es, UdpGwClient.recv_interface_handler_send data o = Some (tt, o', es) ∧
  match delivers o data with
  | Some (a, rest) => ∃ x, table_find a (table o) = Some x ∧ table o' = table_remove a (table o) ++ [(a, x)] ∧
      es = [UdpGwClient.RecvDone;
            UdpGwClient.HandlerReceived (UdpGwClient.local_addr a) (UdpGwClient.remote_addr a) rest]
  | None => o' = o ∧ es = [UdpGwClient.RecvDone]
  end.
Proof.
  intros Hi Hs Hb Hz. pose proof (wp_receive o data Hi Hs Hb Hz) as Hw.
  apply wp_run in Hw as ([] & o' & es & Hrun & _ & Hres). by exists o', es.
Qed.

(** The packet built for a connection, read back by the parser for packets
    from the gateway, gives the flags, the conid, the remote address and the
    data, for IPv4 and IPv6 destinations. *)
Theorem udpgw_wire_roundtrip flags c remote data :
  0 ≤ c < 65536 → addr_wf remote → UdpGwClient.is_ip remote = true →
  Z.land flags UDPGW_CLIENT_FLAG_IPV6 = 0 →
  UdpGwClient.parse_packet (packet_msg flags c remote data) =
  Some (if BAddr_type remote =? BADDR_TYPE_IPV6 then Z.lor flags UDPGW_CLIENT_FLAG_IPV6 else flags,
        c, remote, data).
Proof. apply parse_packet_msg. Qed.

(** C34: The search for an unused conid ends within as many steps as there are
    conids, whenever a connection may be added, and finds one in range that no
    connection has. *)
Theorem udpgw_conid_search `{Build} o :
  gw_inv o → UdpGwClient.num_connections o < UdpGwClient.max_connections o →
  ∃ x, UdpGwClient.find_unused_conid o = Some (x, UdpGwClient.with_next_conid x o, []) ∧
    0 ≤ x < UdpGwClient.max_connections o ∧
    ∀ p c, UdpGwClient.heap o !! p = Some c → UdpGwClient.conid c ≠ x.
Proof.
  intros Hi Hlt. pose proof (wp_find_unused o Hi Hlt) as Hw.
  apply wp_run in Hw as (x & o' & es & Hrun & -> & -> & Hx & Hf). by exists x.
Qed.

(** A client for one connection, and the client after its first packet. *)
Definition demo_gw : UdpGwClient.t := UdpGwClient.mk 100 1 121 123 ∅ [] [] [] 0 0 false false.
Definition demo_local : BAddr := BAddr_IPv4 167772161 1000.
Definition demo_remote : BAddr := BAddr_IPv4 134744072 13568.

Lemma demo_gw_init :
  let H : Build := false in
  UdpGwClient.UdpGwClient_Init 100 1 1 true = Some (Some demo_gw) ∧ gw_inv demo_gw ∧
  conaddr_wf (UdpGwClient.mk_conaddr demo_local demo_remote).
Proof.
  intros H. assert (Hi : UdpGwClient.UdpGwClient_Init 100 1 1 true = Some (Some demo_gw)) by reflexivity.
  split; [done|]. split; [|repeat split; cbn; lia].
  by destruct (Init_inv 100 1 1 demo_gw ltac:(lia) ltac:(lia) ltac:(done) ltac:(done) Hi) as (? & _).
Qed.

(** The client after a packet to [demo_remote] and the connection to the
    gateway. *)
Lemma demo_gw_connected :
  let H : Build := false in
  ∃ o, gw_inv o ∧ UdpGwClient.have_server o = true ∧ UdpGwClient.udpgw_mtu o = 121 ∧
    table o = [(UdpGwClient.mk_conaddr demo_local demo_remote, 0)].
Proof.
  intros H. destruct demo_gw_init as (_ & Hi & Ha).
  pose proof (wp_submit demo_gw (Some 7) true demo_local demo_remote false [1; 2] Hi Ha ltac:(done) ltac:(done)) as Hw.
  destruct (UdpGwClient.UdpGwClient_SubmitPacket (Some 7) true demo_local demo_remote false [1; 2] demo_gw)
    as [[[[] o1] es]|] eqn:Hrun; [|vm_compute in Hrun; done].
  unfold wp in Hw. rewrite Hrun in Hw. destruct Hw as [[Hi1 _] _].
  exists (UdpGwClient.with_server true o1). split; [by apply (gw_inv_flags o1 true true)|].
  vm_compute in Hrun. injection Hrun as Ho _. rewrite <- Ho. done.
Qed.


Lemma udpgw_submit_witness :
  let H : Build := false in
  ∃ o' es, UdpGwClient.UdpGwClient_SubmitPacket (Some 7) true demo_local demo_remote true [1; 2] demo_gw = Some (tt, o', es) ∧
    ∃ x, table o' = [(UdpGwClient.mk_conaddr demo_local demo_remote, x)].
Proof.
  intros H. destruct demo_gw_init as (_ & Hi & Ha).
  destruct (udpgw_submit demo_gw (Some 7) true demo_local demo_remote true [1; 2] Hi Ha) as (o' & es & Hrun & Hres); [done|done|].
  exists o', es. split; [done|]. destruct Hres as (_ & p & x & c & _ & Ht & _). by exists x.
Defined.

Lemma udpgw_receive_witness :
  let H : Build := false in
  ∃ o o', gw_inv o ∧
    UdpGwClient.recv_interface_handler_send (packet_msg 0 0 demo_remote [5; 6]) o =
      Some (tt, o', [UdpGwClient.RecvDone; UdpGwClient.HandlerReceived demo_local demo_remote [5; 6]]).
Proof.
  intros H. destruct demo_gw_connected as (o & Hi & Hs & Hm & Ht).
  destruct (udpgw_receive o (packet_msg 0 0 demo_remote [5; 6]) Hi Hs) as (o' & es & Hrun & Hres).
  - change (packet_msg 0 0 demo_remote [5; 6]) with [0; 0; 0; 8; 8; 8; 8; 0; 53; 5; 6].
    repeat (apply List.Forall_cons; [unfold is_byte; lia|]). constructor.
  - rewrite Hm. cbn; lia.
  - exists o, o'. split; [done|]. unfold delivers in Hres.
    rewrite parse_packet_msg in Hres by (done || (cbn; lia)). cbn [mbind option_bind] in Hres.
    assert (Hu : UdpGwClient.udp_mtu o = 100) by (pose proof (gi_mtu _ Hi); lia).
    rewrite Hu, Ht in Hres. destruct Hres as (x & _ & _ & ->). exact Hrun.
Defined.

Lemma udpgw_wire_roundtrip_witness :
  UdpGwClient.parse_packet (packet_msg 4 513 demo_remote [5; 6]) = Some (4, 513, demo_remote, [5; 6]).
Proof. apply (udpgw_wire_roundtrip 4 513 demo_remote [5; 6]); done || (cbn; lia). Defined.

Lemma udpgw_conid_search_witness :
  let H : Build := false in
  ∃ x, UdpGwClient.find_unused_conid demo_gw = Some (x, UdpGwClient.with_next_conid x demo_gw, []).
Proof.
  intros H. destruct demo_gw_init as (_ & Hi & _).
  destruct (udpgw_conid_search demo_gw Hi) as (x & Hx & _); [done|]. by exists x.
Defined.
