(* ===== verification/UdpGwServer.v ===== *)
(** * UdpGwServer: the UDP gateway (udpgw/udpgw.c)

    The program at the other end of the stream of UdpGw: it accepts clients,
    gives each of their connections (conids) a UDP socket, and relays packets both
    ways.  Clients and connections live in two heaps; lists and trees hold pointers
    to them.  What the code does with the fair queue of a client is kept in
    [queue]: the flow that is sending, the flows there are, and whether the queue is
    being freed.  [connection] holds in [udp] the members that share their memory
    with the node of the list of closing connections; there are none once the
    connection is closing.

    [first_data] of a connection points into the packet its client was given last,
    which the decoder keeps until the job of PacketPassInterface_Done runs: it is
    an offset into [packet]. *)
From S2P Require Import Prelude Bytes Addr Reactor PacketProto Flow UdpGw.
Import UdpGwClient (remove_node, out_write, is_ip, uint16_comparator).

Definition BIPAddr_Compare (addr1 addr2 : BIPAddr) : bool :=
  match addr1, addr2 with
  | BIPAddr_IPv4 ip1, BIPAddr_IPv4 ip2 => ip1 =? ip2
  | BIPAddr_IPv6 ip1, BIPAddr_IPv6 ip2 => bool_decide (ip1 = ip2)
  | _, _ => false
  end.

Module UdpGwServer.

Definition DNS_UPDATE_TIME : Z := 2000.
Definition CLIENT_DISCONNECT_TIMEOUT : Z := 20000.

(** The options and what is computed from them; -1 ports: no range was given. *)
Record config := mk_config {
  udp_mtu : Z;
  udpgw_mtu : Z;
  pp_mtu : Z;
  max_clients : Z;
  max_connections_for_client : Z;
  local_udp_num_ports : Z;
  local_udp_addr : BAddr;
  local_udp_ip6_num_ports : Z;
  local_udp_ip6_addr : BAddr;
  unique_local_ports : bool
}.

(** [main]: compute MTUs *)
Definition compute_mtus (udp_mtu : Z) : Z * Z :=
  let m := udpgw_compute_mtu udp_mtu in
  let m := if (m <? 0) || (PACKETPROTO_MAXPAYLOAD <? m) then PACKETPROTO_MAXPAYLOAD else m in
  (m, m + sizeof_packetproto_header).

(** PacketPassFairQueue, as far as its users see it. *)
Record queue := mk_queue { sending_flow : option Z; flows : list Z; freeing : bool }.

Record client := mk_client {
  addr : BAddr;
  disconnect_timer : option Z;
  packet : list Z;                  (** the packet the decoder has passed last *)
  send_queue : queue;
  connections_tree : list Z;
  connections_list : list Z;
  num_connections : Z;
  closing_connections_list : list Z
}.

Record udp_t := mk_udp { local_port_index : Z; udp_send_writer : BufferWriter.t }.

Record connection := mk_con {
  con_client : Z;
  conid : Z;
  con_addr : BAddr;
  orig_addr : BAddr;
  first_data : Z;
  first_data_len : Z;
  last_use_time : Z;
  closing : bool;
  first_job : bool;
  send_if : BufferWriter.t;
  busy_handler : bool;              (** the flow has a busy handler *)
  udp : option udp_t
}.

Record t := mk {
  clients : gmap Z client;
  conns : gmap Z connection;
  clients_list : list Z;
  num_clients : Z;
  dns_addr : BAddr;
  last_dns_update_time : Z
}.

Inductive event :=
| RecvDone (c : Z)                            (** PacketPassInterface_Done(&client->recv_if) *)
| ClientOutput (p : Z) (packet : list Z)      (** a packet for the client, from connection p *)
| UdpOutput (p : Z) (packet : list Z)         (** a packet for the remote address of p *)
| UdpRecvDone (p : Z)                         (** PacketPassInterface_Done(&con->udp_recv_if) *)
| DgramInit (p : Z) | DgramBind (p : Z) (a : BAddr) (ok : bool) | DgramSetSendAddrs (p : Z) (a : BAddr) | DgramFree (p : Z)
| ConnectionFreed (p : Z)
| ClientInit (c : Z) | ClientFreed (c : Z).

Abbreviation IO := (M t event).

Section server.
Context `{Build} (cfg : config).

Definition with_queue (q : queue) (cl : client) : client :=
  mk_client (addr cl) (disconnect_timer cl) (packet cl) q (connections_tree cl) (connections_list cl)
    (num_connections cl) (closing_connections_list cl).
Definition with_lists (tree l : list Z) (n : Z) (cls : list Z) (cl : client) : client :=
  mk_client (addr cl) (disconnect_timer cl) (packet cl) (send_queue cl) tree l n cls.
Definition with_packet (d : list Z) (cl : client) : client :=
  mk_client (addr cl) (disconnect_timer cl) d (send_queue cl) (connections_tree cl) (connections_list cl)
    (num_connections cl) (closing_connections_list cl).
Definition with_timer (tm : option Z) (cl : client) : client :=
  mk_client (addr cl) tm (packet cl) (send_queue cl) (connections_tree cl) (connections_list cl)
    (num_connections cl) (closing_connections_list cl).

Definition with_time (now : Z) (con : connection) : connection :=
  mk_con (con_client con) (conid con) (con_addr con) (orig_addr con) (first_data con) (first_data_len con) now
    (closing con) (first_job con) (send_if con) (busy_handler con) (udp con).
Definition with_job (b : bool) (con : connection) : connection :=
  mk_con (con_client con) (conid con) (con_addr con) (orig_addr con) (first_data con) (first_data_len con) (last_use_time con)
    (closing con) b (send_if con) (busy_handler con) (udp con).
Definition with_udp (u : option udp_t) (con : connection) : connection :=
  mk_con (con_client con) (conid con) (con_addr con) (orig_addr con) (first_data con) (first_data_len con) (last_use_time con)
    (closing con) (first_job con) (send_if con) (busy_handler con) u.
Definition with_send_if (w : BufferWriter.t) (con : connection) : connection :=
  mk_con (con_client con) (conid con) (con_addr con) (orig_addr con) (first_data con) (first_data_len con) (last_use_time con)
    (closing con) (first_job con) w (busy_handler con) (udp con).
(** Closing, with a busy handler and no first job. *)
Definition with_closing (con : connection) : connection :=
  mk_con (con_client con) (conid con) (con_addr con) (orig_addr con) (first_data con) (first_data_len con) (last_use_time con)
    true false (send_if con) true (udp con).

Definition set_clients (m : gmap Z client) (o : t) : t := mk m (conns o) (clients_list o) (num_clients o) (dns_addr o) (last_dns_update_time o).
Definition set_conns (m : gmap Z connection) (o : t) : t := mk (clients o) m (clients_list o) (num_clients o) (dns_addr o) (last_dns_update_time o).

Definition get_client (c : Z) : IO client := o ← mget; mlift (clients o !! c).
Definition put_client (c : Z) (cl : client) : IO unit := mmodify (λ o, set_clients (<[c := cl]> (clients o)) o).
Definition on_client (c : Z) (f : client → client) : IO unit := cl ← get_client c; put_client c (f cl).
Definition get_con (p : Z) : IO connection := o ← mget; mlift (conns o !! p).
Definition put_con (p : Z) (con : connection) : IO unit := mmodify (λ o, set_conns (<[p := con]> (conns o)) o).
Definition on_con (p : Z) (f : connection → connection) : IO unit := con ← get_con p; put_con p (f con).

(** ** The flows of a queue *)

Definition flow_init (c p : Z) : IO unit :=
  cl ← get_client c;
  let q := send_queue cl in
  ASSERT (negb (freeing q));;
  put_client c (with_queue (mk_queue (sending_flow q) (flows q ++ [p]) (freeing q)) cl).

Definition flow_free (c p : Z) : IO unit :=
  cl ← get_client c;
  let q := send_queue cl in
  ASSERT (freeing q || bool_decide (sending_flow q ≠ Some p));;
  put_client c (with_queue (mk_queue (if bool_decide (sending_flow q = Some p) then None else sending_flow q)
                              (remove_node p (flows q)) (freeing q)) cl).

Definition flow_assert_free (c p : Z) : IO unit :=
  cl ← get_client c;
  ASSERT (freeing (send_queue cl) || bool_decide (sending_flow (send_queue cl) ≠ Some p)).

Definition flow_is_busy (c p : Z) : IO bool :=
  cl ← get_client c;
  ASSERT (negb (freeing (send_queue cl)));;
  mret (bool_decide (sending_flow (send_queue cl) = Some p)).

(** [PacketPassFairQueueFlow_SetBusyHandler]: its assertions. *)
Definition flow_assert_busy (c p : Z) : IO unit :=
  cl ← get_client c;
  ASSERT (bool_decide (sending_flow (send_queue cl) = Some p));;
  ASSERT (negb (freeing (send_queue cl))).

(** ** Connections *)

Definition find_connection (c conid : Z) : IO (option Z) :=
  o ← mget;
  cl ← get_client c;
  match List.find (λ p, match conns o !! p with
                        | Some con => uint16_comparator conid (UdpGwServer.conid con) =? 0
                        | None => false end) (connections_tree cl) with
  | None => mret None
  | Some p =>
      con ← get_con p;
      ASSERT (UdpGwServer.conid con =? conid);;
      ASSERT (negb (closing con));;
      mret (Some p)
  end.

Definition connection_free_udp (p : Z) : IO unit :=
  con ← get_con p;
  _ ← mlift (udp con);
  put_con p (with_udp None con);;
  emit (DgramFree p).

(** Out of the list and the tree of open connections. *)
Definition remove_open (c p : Z) : IO unit :=
  on_client c (λ cl, with_lists (remove_node p (connections_tree cl)) (remove_node p (connections_list cl))
                       (num_connections cl - 1) (closing_connections_list cl) cl).

Definition connection_free (p : Z) : IO unit :=
  con ← get_con p;
  let c := con_client con in
  flow_assert_free c p;;
  (if closing con then
     (* remove from client's closing connections list *)
     on_client c (λ cl, with_lists (connections_tree cl) (connections_list cl) (num_connections cl)
                          (remove_node p (closing_connections_list cl)) cl)
   else
     remove_open c p;;
     (* free UDP *)
     connection_free_udp p);;
  (* free send queue flow *)
  flow_free c p;;
  (* free structure *)
  mmodify (λ o, set_conns (delete p (conns o)) o);;
  emit (ConnectionFreed p).

Definition connection_close (p : Z) : IO unit :=
  con ← get_con p;
  let c := con_client con in
  ASSERT (negb (closing con));;
  busy ← flow_is_busy c p;
  (* if possible, free connection immediately *)
  if negb busy then connection_free p
  else
    remove_open c p;;
    (* free UDP *)
    connection_free_udp p;;
    (* insert to client's closing connections list *)
    on_client c (λ cl, with_lists (connections_tree cl) (connections_list cl) (num_connections cl)
                         (closing_connections_list cl ++ [p]) cl);;
    (* set busy handler, unset first job, set closing *)
    flow_assert_busy c p;;
    on_con p with_closing.

Definition move_to_end (c p : Z) : IO unit :=
  on_client c (λ cl, with_lists (connections_tree cl) (remove_node p (connections_list cl) ++ [p]) (num_connections cl)
                       (closing_connections_list cl) cl).

Definition writer_events (mk_event : list Z → event) (es : list BufferWriter.event) : IO unit :=
  foldr (λ e r, match e with BufferWriter.OutputDone d => emit (mk_event d) end;; r) (mret tt) es.

Definition on_send_if {A} (p : Z) (m : M BufferWriter.t BufferWriter.event A) : IO A :=
  con ← get_con p;
  match m (send_if con) with
  | None => mabort
  | Some (a, w, es) => put_con p (with_send_if w con);; writer_events (ClientOutput p) es;; mret a
  end.

Definition on_udp_writer {A} (p : Z) (m : M BufferWriter.t BufferWriter.event A) : IO A :=
  con ← get_con p;
  u ← mlift (udp con);
  match m (udp_send_writer u) with
  | None => mabort
  | Some (a, w, es) => put_con p (with_udp (Some (mk_udp (local_port_index u) w)) con);; writer_events (UdpOutput p) es;; mret a
  end.

Definition connection_send_to_client (p flags : Z) (data : list Z) : IO unit :=
  con ← get_con p;
  ASSERT (zlen data <=? udp_mtu cfg);;
  let orig := orig_addr con in
  let addr_len := if BAddr_type orig =? BADDR_TYPE_IPV6 then sizeof_udpgw_addr_ipv6
                  else if BAddr_type orig =? BADDR_TYPE_IPV4 then sizeof_udpgw_addr_ipv4 else 0 in
  (* packet is too large, cannot send to client *)
  if udpgw_mtu cfg - (sizeof_udpgw_header + addr_len) <? zlen data then mret tt
  else
    (* get buffer location *)
    out ← on_send_if p BufferWriter.BufferWriter_StartPacket;
    match out with
    | None => mret tt      (* out of client buffer *)
    | Some out =>
        let flags := if BAddr_type orig =? BADDR_TYPE_IPV6 then Z.lor flags UDPGW_CLIENT_FLAG_IPV6 else flags in
        (* write header *)
        out ← mlift (out_write 0 ([ltoh8 flags] ++ le_bytes 2 (ltoh16 (conid con))) out);
        (* write address *)
        '(out, out_pos) ← mlift
          (match orig with
           | BAddr_IPv4 ip port =>
               out ← out_write sizeof_udpgw_header (le_bytes 4 ip ++ le_bytes 2 port) out;
               Some (out, sizeof_udpgw_header + sizeof_udpgw_addr_ipv4)
           | BAddr_IPv6 ip port =>
               out ← out_write sizeof_udpgw_header (ip ++ le_bytes 2 port) out;
               Some (out, sizeof_udpgw_header + sizeof_udpgw_addr_ipv6)
           | _ => Some (out, sizeof_udpgw_header)
           end);
        (* write message *)
        out ← mlift (out_write out_pos data out);
        (* submit written message *)
        ASSERT (out_pos + zlen data <=? udpgw_mtu cfg);;
        on_send_if p (BufferWriter.BufferWriter_EndPacket out (out_pos + zlen data))
    end.

Definition connection_send_to_udp (p : Z) (data : list Z) (now : Z) : IO bool :=
  con ← get_con p;
  ASSERT (negb (closing con));;
  ASSERT (zlen data <=? udp_mtu cfg);;
  (* set last use time, move connection to front *)
  put_con p (with_time now con);;
  move_to_end (con_client con) p;;
  (* get buffer location *)
  out ← on_udp_writer p BufferWriter.BufferWriter_StartPacket;
  match out with
  | None => mret false     (* out of UDP buffer *)
  | Some out =>
      (* write message *)
      out ← mlift (out_write 0 data out);
      (* submit written message *)
      on_udp_writer p (BufferWriter.BufferWriter_EndPacket out (zlen data));;
      mret true
  end.

(** [memcpy] from [first_data], which must lie in the packet. *)
Definition read_packet (off len : Z) (pk : list Z) : option (list Z) :=
  if off + len <=? zlen pk then Some (ztake len (zdrop off pk)) else None.

Definition connection_first_job_handler (p now : Z) : IO unit :=
  on_con p (with_job false);;
  con ← get_con p;
  ASSERT (negb (closing con));;
  cl ← get_client (con_client con);
  data ← mlift (read_packet (first_data con) (first_data_len con) (packet cl));
  _ ← connection_send_to_udp p data now;
  mret tt.

Definition connection_send_qflow_busy_handler (p : Z) : IO unit :=
  con ← get_con p;
  ASSERT (closing con);;
  flow_assert_free (con_client con) p;;
  connection_free p.

Definition connection_dgram_handler_event (p : Z) : IO unit :=
  con ← get_con p;
  ASSERT (negb (closing con));;
  connection_close p.

Definition connection_udp_recv_if_handler_send (p : Z) (data : list Z) (now : Z) : IO unit :=
  con ← get_con p;
  ASSERT (negb (closing con));;
  ASSERT (zlen data <=? udp_mtu cfg);;
  (* set last use time, move connection to front *)
  put_con p (with_time now con);;
  move_to_end (con_client con) p;;
  (* accept packet *)
  emit (UdpRecvDone p);;
  (* send packet to client *)
  connection_send_to_client p 0 data.

(** ** Local ports *)

Definition get_local_num_ports (addr_type : Z) : IO Z :=
  if addr_type =? BADDR_TYPE_IPV4 then mret (local_udp_num_ports cfg)
  else if addr_type =? BADDR_TYPE_IPV6 then mret (local_udp_ip6_num_ports cfg)
  else ASSERT false;; mret 0.

Definition get_local_addr (addr_type : Z) : IO BAddr :=
  n ← get_local_num_ports addr_type;
  ASSERT (0 <=? n);;
  if addr_type =? BADDR_TYPE_IPV4 then mret (local_udp_addr cfg)
  else if addr_type =? BADDR_TYPE_IPV6 then mret (local_udp_ip6_addr cfg)
  else ASSERT false;; mret BAddr_None.

(** Whether two connections must not share a local port. *)
Definition same_remote (a b : BAddr) : bool :=
  if unique_local_ports cfg then BIPAddr_Compare (BAddr_GetIPAddr a) (BAddr_GetIPAddr b)
  else BAddr_Compare a b.

Fixpoint mfold {A B} (f : A → B → IO A) (a : A) (l : list B) : IO A :=
  match l with [] => mret a | x :: l => a ← f a x; mfold f a l end.

(** [port_usage[i] = 1] *)
Definition use_port (i : Z) (usage : list bool) : option (list bool) :=
  if (0 <=? i) && (i <? zlen usage) then Some (<[Z.to_nat i := true]> usage) else None.

(** The body of the inner loop: connection [p] of client [c]. *)
Definition scan_connection (remote_addr : BAddr) (local_num_ports c : Z)
    (acc : list bool * option Z) (p : Z) : IO (list bool * option Z) :=
  let '(usage, least_con) := acc in
  con ← get_con p;
  ASSERT (con_client con =? c);;
  ASSERT (negb (closing con));;
  u ← mlift (udp con);
  if negb (BAddr_type (con_addr con) =? BAddr_type remote_addr) || (local_port_index u <? 0) then mret acc
  else
    ASSERT (local_port_index u <? local_num_ports);;
    if negb (same_remote (con_addr con) remote_addr) then mret acc
    else
      usage ← mlift (use_port (local_port_index u) usage);
      busy ← flow_is_busy c p;
      if (busy : bool) then mret (usage, least_con)
      else
        match least_con with
        | None => mret (usage, Some p)
        | Some q =>
            lc ← get_con q;
            mret (usage, if last_use_time con <? last_use_time lc then Some p else Some q)
        end.

Definition scan_client (remote_addr : BAddr) (local_num_ports : Z)
    (acc : list bool * option Z) (c : Z) : IO (list bool * option Z) :=
  cl ← get_client c;
  mfold (scan_connection remote_addr local_num_ports c) acc (connections_list cl).

(** [alloc_ok]: the array could be allocated. *)
Definition build_port_usage_array_and_find_least_used_connection (remote_addr : BAddr) (alloc_ok : bool) :
    IO (option (list bool * option Z)) :=
  ASSERT (is_ip remote_addr);;
  n ← get_local_num_ports (BAddr_type remote_addr);
  ASSERT (0 <=? n);;
  if negb alloc_ok then mret None
  else
    o ← mget;
    r ← mfold (scan_client remote_addr n) (replicate (Z.to_nat n) false, None) (clients_list o);
    mret (Some r).

(** The local address of port [i] of the range. *)
Definition bind_addr (local_addr : BAddr) (i : Z) : option BAddr :=
  port ← BAddr_GetPort local_addr;
  BAddr_SetPort local_addr (hton16 (u16 (ntoh16 port + u16 i))).

(** [bind]: which addresses the system lets the socket have. *)
Definition try_bind (bind : BAddr → bool) (p : Z) (local_addr : BAddr) (i : Z) : IO bool :=
  a ← mlift (bind_addr local_addr i);
  emit (DgramBind p a (bind a));;
  mret (bind a).

Fixpoint try_ports (bind : BAddr → bool) (p : Z) (local_addr : BAddr) (usage : list bool) (i : Z) : IO (option Z) :=
  match usage with
  | [] => mret None
  | true :: usage => try_ports bind p local_addr usage (i + 1)     (* skip inappropriate ports *)
  | false :: usage =>
      ok ← try_bind bind p local_addr i;
      if (ok : bool) then mret (Some i) else try_ports bind p local_addr usage (i + 1)
  end.

(** What the system answers while a connection is made. *)
Record init_answer := mk_init {
  malloc : option Z; ppflow_ok : bool; dgram_ok : bool; usage_ok : bool; reuse_ok : bool; bind : BAddr → bool;
  buffer_ok : bool; recv_buffer_ok : bool; now : Z
}.

(** The index of the port the socket of [p] is bound to; -1: none of the range. *)
Definition bind_local (p : Z) (addr : BAddr) (a : init_answer) : IO Z :=
  local_num_ports ← get_local_num_ports (BAddr_type addr);
  if negb (0 <=? local_num_ports) then mret (-1)
  else
    (* build port usage array, find least used connection *)
    r ← build_port_usage_array_and_find_least_used_connection addr (usage_ok a);
    match r with
    | None => mret (-1)
    | Some (usage, least_con) =>
        (* set SO_REUSEADDR *)
        if negb (reuse_ok a) then mret (-1 : Z)
        else
          (* get starting local address *)
          local_addr ← get_local_addr (BAddr_type addr);
          (* try different ports *)
          i ← try_ports (bind a) p local_addr usage 0;
          match i, least_con with
          | Some i, _ => mret i
          | None, None => mret (-1)
          | None, Some q =>
              (* try closing an unused connection with the same remote addr *)
              lc ← get_con q;
              ASSERT (BAddr_type (con_addr lc) =? BAddr_type addr);;
              u ← mlift (udp lc);
              ASSERT (0 <=? local_port_index u);;
              ASSERT (local_port_index u <? local_num_ports);;
              busy ← flow_is_busy (con_client lc) q;
              ASSERT (negb busy);;
              (* close the offending connection *)
              connection_close q;;
              (* try binding to its port *)
              ok ← try_bind (bind a) p local_addr (local_port_index u);
              mret (if (ok : bool) then local_port_index u else -1)
          end
    end.

(** [BAVL_Insert] refuses a key that is there. *)
Definition tree_insert (o : t) (conid p : Z) (tree : list Z) : list Z * bool :=
  if existsb (λ q, match conns o !! q with
                   | Some con => uint16_comparator conid (UdpGwServer.conid con) =? 0
                   | None => false end) tree
  then (tree, false) else (p :: tree, true).

Definition connection_init (c conid : Z) (addr orig_addr : BAddr) (data data_len : Z) (a : init_answer) : IO unit :=
  cl ← get_client c;
  ASSERT (num_connections cl <? max_connections_for_client cfg);;
  found ← find_connection c conid;
  ASSERT (bool_decide (found = None));;
  ASSERT (is_ip addr);;
  ASSERT (is_ip orig_addr);;
  ASSERT (0 <=? data_len);;
  ASSERT (data_len <=? udp_mtu cfg);;
  (* allocate structure *)
  match malloc a with
  | None => mret tt
  | Some p =>
      (* init send queue flow *)
      flow_init c p;;
      (* init send PacketProtoFlow, init UDP dgram *)
      if negb (ppflow_ok a) then flow_free c p
      else if negb (dgram_ok a) then flow_free c p
      else
        emit (DgramInit p);;
        local_port_index ← bind_local p addr a;
        (* set UDP dgram send address *)
        emit (DgramSetSendAddrs p addr);;
        (* init UDP buffer, init UDP recv buffer *)
        if negb (buffer_ok a) || negb (recv_buffer_ok a) then emit (DgramFree p);; flow_free c p
        else
          o ← mget;
          cl ← get_client c;
          (* insert to client's connections tree and list *)
          let '(tree, ok) := tree_insert o conid p (connections_tree cl) in
          ASSERT ok;;
          put_con p (mk_con c conid addr orig_addr data data_len (now a) false true
                       (BufferWriter.BufferWriter_Init (udpgw_mtu cfg)) false
                       (Some (mk_udp local_port_index (BufferWriter.BufferWriter_Init (udp_mtu cfg)))));;
          put_client c (with_lists tree (connections_list cl ++ [p]) (num_connections cl + 1) (closing_connections_list cl) cl)
  end.

(** ** Packets from a client *)

(** [res_init] and the first name server it gives, if there is one. *)
Definition maybe_update_dns (now : Z) (nameserver : option Z) : IO unit :=
  o ← mget;
  if now <? btime_add (last_dns_update_time o) DNS_UPDATE_TIME then mret tt
  else
    mput (mk (clients o) (conns o) (clients_list o) (num_clients o)
            (match nameserver with Some ip => BAddr_MakeIPv4 ip (hton16 53) | None => BAddr_MakeNone end) now).

(** The address behind the header, and its size. *)
Definition parse_address (flags : Z) (data : list Z) : option (BAddr * Z) :=
  if negb (Z.land flags UDPGW_CLIENT_FLAG_IPV6 =? 0) then
    if zlen data <? sizeof_udpgw_addr_ipv6 then None
    else Some (BAddr_MakeIPv6 (ztake 16 data) (le_val (ztake 2 (zdrop 16 data))), sizeof_udpgw_addr_ipv6)
  else
    if zlen data <? sizeof_udpgw_addr_ipv4 then None
    else Some (BAddr_MakeIPv4 (le_val (ztake 4 data)) (le_val (ztake 2 (zdrop 4 data))), sizeof_udpgw_addr_ipv4).

(** The connection the packet is for, after closing it if needed. *)
Definition reusable_connection (c conid flags : Z) (orig : BAddr) : IO (option Z) :=
  con ← find_connection c conid;
  match con with
  | None => mret None
  | Some p =>
      k ← get_con p;
      ASSERT (negb (closing k));;
      if negb (Z.land flags UDPGW_CLIENT_FLAG_REBIND =? 0) || negb (BAddr_Compare (orig_addr k) orig)
      then connection_close p;; mret None
      else mret (Some p)
  end.

(** Where the packets of a new connection are sent. *)
Definition remote_address (flags : Z) (orig : BAddr) (now : Z) (nameserver : option Z) : IO BAddr :=
  if negb (Z.land flags UDPGW_CLIENT_FLAG_DNS =? 0) then
    maybe_update_dns now nameserver;;
    o ← mget;
    mret (if BAddr_type (dns_addr o) =? BADDR_TYPE_NONE then orig else dns_addr o)
  else mret orig.

(** [nameserver]: what [res_init] finds, if it is asked. *)
Definition client_recv_if_handler_send (c : Z) (data : list Z) (a : init_answer) (nameserver : option Z) : IO unit :=
  on_client c (with_packet data);;
  ASSERT (zlen data <=? udpgw_mtu cfg);;
  (* accept packet *)
  emit (RecvDone c);;
  (* parse header *)
  if zlen data <? sizeof_udpgw_header then mret tt
  else
    let flags := ltoh8 (nth 0 data 0) in
    let conid := ltoh16 (le_val (ztake 2 (zdrop 1 data))) in
    (* reset disconnect timer *)
    on_client c (with_timer (Some (btime_add (now a) CLIENT_DISCONNECT_TIMEOUT)));;
    (* if this is keepalive, ignore any payload *)
    if negb (Z.land flags UDPGW_CLIENT_FLAG_KEEPALIVE =? 0) then mret tt
    else
      (* parse address *)
      match parse_address flags (zdrop sizeof_udpgw_header data) with
      | None => mret tt
      | Some (orig, addr_len) =>
          let off := sizeof_udpgw_header + addr_len in
          let data_len := zlen data - off in
          (* check payload length *)
          if udp_mtu cfg <? data_len then mret tt
          else
            (* find connection, close it if needed *)
            con ← reusable_connection c conid flags orig;
            match con with
            | Some p =>
                (* submit packet to existing connection *)
                _ ← connection_send_to_udp p (zdrop off data) (now a);
                mret tt
            | None =>
                (* check number of connections *)
                cl ← get_client c;
                (if num_connections cl =? max_connections_for_client cfg then
                   (* close least recently used connection *)
                   p ← mlift (head (connections_list cl));
                   connection_close p
                 else mret tt);;
                (* if this is DNS, replace actual address, but keep still remember the orig_addr *)
                addr ← remote_address flags orig (now a) nameserver;
                (* create new connection *)
                connection_init c conid addr orig off data_len a
            end
      end.

(** ** Clients *)

Fixpoint free_connections (fuel : nat) (c : Z) (which : client → list Z) : IO unit :=
  match fuel with
  | O => mret tt
  | S fuel =>
      cl ← get_client c;
      match which cl with
      | [] => mret tt
      | p :: _ => connection_free p;; free_connections fuel c which
      end
  end.

Definition client_free (c : Z) : IO unit :=
  (* allow freeing send queue flows *)
  on_client c (λ cl, with_queue (mk_queue (sending_flow (send_queue cl)) (flows (send_queue cl)) true) cl);;
  cl ← get_client c;
  (* free connections *)
  free_connections (length (connections_list cl)) c connections_list;;
  (* free closing connections *)
  free_connections (length (closing_connections_list cl)) c closing_connections_list;;
  (* remove from clients list *)
  mmodify (λ o, mk (clients o) (conns o) (remove_node c (clients_list o)) (num_clients o - 1) (dns_addr o) (last_dns_update_time o));;
  (* free send queue *)
  cl ← get_client c;
  ASSERT (bool_decide (flows (send_queue cl) = []));;
  ASSERT (bool_decide (sending_flow (send_queue cl) = None));;
  (* free structure *)
  mmodify (λ o, set_clients (delete c (clients o)) o);;
  emit (ClientFreed c).

Definition client_disconnect_timer_handler (c : Z) : IO unit :=
  on_client c (with_timer None);;
  client_free c.
Definition client_connection_handler (c : Z) : IO unit := client_free c.
Definition client_decoder_handler_error (c : Z) : IO unit := client_free c.

Record accept_answer := mk_accept {
  client_malloc : option Z; accepted : option BAddr; decoder_ok : bool; queue_ok : bool; accept_now : Z
}.

Definition listener_handler (a : accept_answer) : IO unit :=
  o ← mget;
  if num_clients o =? max_clients cfg then mret tt
  else
    match client_malloc a, accepted a with
    | None, _ => mret tt
    | Some _, None => mret tt            (* BConnection_Init failed *)
    | Some c, Some from =>
        emit (ClientInit c);;
        if negb (decoder_ok a) || negb (queue_ok a) then emit (ClientFreed c)
        else
          put_client c (mk_client from (Some (btime_add (accept_now a) CLIENT_DISCONNECT_TIMEOUT)) []
                          (mk_queue None [] false) [] [] 0 []);;
          mmodify (λ o, mk (clients o) (conns o) (clients_list o ++ [c]) (num_clients o + 1) (dns_addr o) (last_dns_update_time o))
    end.

(** [main], before and after the event loop. *)
Definition server_start (now : Z) (nameserver : option Z) : IO unit :=
  mput (mk ∅ ∅ [] 0 BAddr_None (- 2 ^ 63));;
  maybe_update_dns now nameserver.

Fixpoint free_clients (fuel : nat) : IO unit :=
  match fuel with
  | O => mret tt
  | S fuel =>
      o ← mget;
      match clients_list o with
      | [] => mret tt
      | c :: _ => client_free c;; free_clients fuel
      end
  end.

Definition server_stop : IO unit := o ← mget; free_clients (length (clients_list o)).

(** ** Everything the event loop may run *)

Inductive call :=
| Accept (a : accept_answer)
| DisconnectTimer (c : Z) | ConnectionEvent (c : Z) | DecoderError (c : Z)
| ClientPacket (c : Z) (data : list Z) (a : init_answer) (nameserver : option Z)
| FirstJob (p now : Z)
| Schedule (c p : Z)                      (** the queue of client c starts to send for flow p *)
| QueueDone (c : Z)                       (** and has sent *)
| DgramError (p : Z)
| UdpPacket (p : Z) (data : list Z) (now : Z)
| SendReady (p : Z) (mem : list Z)        (** memory for the next packet to the client *)
| UdpReady (p : Z) (mem : list Z).        (** memory for the next packet to the remote address *)

(** [PacketPassFairQueue]: the flow is not sending any more; its busy handler is called. *)
Definition queue_done (c : Z) : IO unit :=
  cl ← get_client c;
  let q := send_queue cl in
  p ← mlift (sending_flow q);
  put_client c (with_queue (mk_queue None (flows q) (freeing q)) cl);;
  con ← get_con p;
  if busy_handler con then connection_send_qflow_busy_handler p else mret tt.

Definition queue_schedule (c p : Z) : IO unit :=
  on_client c (λ cl, with_queue (mk_queue (Some p) (flows (send_queue cl)) (freeing (send_queue cl))) cl).

Definition run_call (x : call) : IO unit :=
  match x with
  | Accept a => listener_handler a
  | DisconnectTimer c => client_disconnect_timer_handler c
  | ConnectionEvent c => client_connection_handler c
  | DecoderError c => client_decoder_handler_error c
  | ClientPacket c data a ns => client_recv_if_handler_send c data a ns
  | FirstJob p now => connection_first_job_handler p now
  | Schedule c p => queue_schedule c p
  | QueueDone c => queue_done c
  | DgramError p => connection_dgram_handler_event p
  | UdpPacket p data now => connection_udp_recv_if_handler_send p data now
  | SendReady p mem => on_send_if p (BufferWriter.output_handler_recv mem)
  | UdpReady p mem => on_udp_writer p (BufferWriter.output_handler_recv mem)
  end.

(** The client and the connection a pointer refers to. *)
Definition client_at (o : t) (c : Z) : bool := bool_decide (is_Some (clients o !! c)).
Definition open_at (o : t) (p : Z) : bool := match conns o !! p with Some con => negb (closing con) | None => false end.

(** A packet comes only when the first jobs of the client have run: they are set
    after the job by which the decoder goes on, and so run before it. *)
Definition allowed (o : t) (x : call) : bool :=
  match x with
  | Accept a => match client_malloc a with Some c => negb (client_at o c) | None => true end
  | DisconnectTimer c | ConnectionEvent c | DecoderError c => client_at o c
  | ClientPacket c data a ns =>
      match ns with Some ip => (0 <=? ip) && (ip <? 2 ^ 32) | None => true end &&
      match clients o !! c with
      | Some cl =>
          (zlen data <=? udpgw_mtu cfg) && forallb (λ b, (0 <=? b) && (b <? 256)) data &&
          forallb (λ p, match conns o !! p with Some con => negb (first_job con) | None => false end) (connections_list cl) &&
          match malloc a with
          | Some p => negb (bool_decide (is_Some (conns o !! p)))
          | None => true
          end
      | None => false
      end
  | FirstJob p _ => match conns o !! p with Some con => first_job con | None => false end
  | Schedule c p =>
      match clients o !! c with
      | Some cl => bool_decide (sending_flow (send_queue cl) = None) && bool_decide (p ∈ connections_list cl)
      | None => false
      end
  | QueueDone c =>
      match clients o !! c with Some cl => bool_decide (is_Some (sending_flow (send_queue cl))) | None => false end
  | DgramError p => open_at o p
  | UdpPacket p data _ => open_at o p && (zlen data <=? udp_mtu cfg)
  | SendReady p mem =>
      match conns o !! p with
      | Some con => bool_decide (BufferWriter.out (send_if con) = None) && (zlen mem =? udpgw_mtu cfg)
      | None => false
      end
  | UdpReady p mem =>
      match conns o !! p with
      | Some con => match udp con with
                    | Some u => bool_decide (BufferWriter.out (udp_send_writer u) = None) && (zlen mem =? udp_mtu cfg)
                    | None => false end
      | None => false
      end
  end.

(** ** The invariant *)

Definition writer_ok (mtu : Z) (w : BufferWriter.t) : Prop :=
  BufferWriter.mtu w = mtu ∧ BufferWriter.d_writing w = false ∧
  ∀ mem, BufferWriter.out w = Some mem → zlen mem = mtu.

Definition num_ports (a : BAddr) : Z :=
  if BAddr_type a =? BADDR_TYPE_IPV4 then local_udp_num_ports cfg else local_udp_ip6_num_ports cfg.

Definition ip_wf (a : BAddr) : Prop := addr_wf a ∧ is_ip a = true.

(** A closing connection has no socket; its busy handler is set, its first job is
    not. *)
Record con_wf (con : connection) : Prop := {
  co_conid : 0 ≤ conid con < 65536;
  co_addr : ip_wf (con_addr con);
  co_orig : ip_wf (orig_addr con);
  co_first : 0 ≤ first_data con ∧ 0 ≤ first_data_len con ≤ udp_mtu cfg;
  co_send : writer_ok (udpgw_mtu cfg) (send_if con);
  co_closing : closing con = true → udp con = None ∧ first_job con = false ∧ busy_handler con = true;
  co_open : closing con = false → busy_handler con = false ∧
    ∃ u, udp con = Some u ∧ writer_ok (udp_mtu cfg) (udp_send_writer u) ∧
      -1 ≤ local_port_index u ∧ (0 ≤ local_port_index u → local_port_index u < num_ports (con_addr con))
}.

(** [extra]: flows of connections that are being made; [fz]: the queue is being
    freed.  At most one connection is closing: the one whose flow is sending. *)
Record client_wf (cs : gmap Z connection) (c : Z) (cl : client) (extra : list Z) (fz : bool) : Prop := {
  cw_num : num_connections cl = zlen (connections_list cl);
  cw_le : num_connections cl ≤ max_connections_for_client cfg;
  cw_nodup : NoDup (connections_list cl ++ closing_connections_list cl ++ extra);
  cw_tree : connections_tree cl ≡ₚ connections_list cl;
  cw_flows : flows (send_queue cl) ≡ₚ connections_list cl ++ closing_connections_list cl ++ extra;
  cw_freeing : freeing (send_queue cl) = fz;
  cw_closing : ∀ p, p ∈ closing_connections_list cl → sending_flow (send_queue cl) = Some p;
  cw_sending : ∀ p, sending_flow (send_queue cl) = Some p → p ∈ connections_list cl ++ closing_connections_list cl;
  cw_timer : fz = false → is_Some (disconnect_timer cl);
  cw_open : ∀ p, p ∈ connections_list cl ↔ ∃ con, cs !! p = Some con ∧ con_client con = c ∧ closing con = false;
  cw_shut : ∀ p, p ∈ closing_connections_list cl ↔ ∃ con, cs !! p = Some con ∧ con_client con = c ∧ closing con = true;
  cw_first : ∀ p con, cs !! p = Some con → con_client con = c → first_job con = true →
    first_data con + first_data_len con ≤ zlen (packet cl)
}.

(** Open connections: different conids at a client, different local ports to one
    remote address. *)
Definition conids_differ (cs : gmap Z connection) : Prop := ∀ p q a b,
  cs !! p = Some a → cs !! q = Some b → closing a = false → closing b = false →
  con_client a = con_client b → conid a = conid b → p = q.

Definition ports_differ (cs : gmap Z connection) : Prop := ∀ p q a b u v,
  cs !! p = Some a → cs !! q = Some b → udp a = Some u → udp b = Some v →
  same_remote (con_addr a) (con_addr b) = true → 0 ≤ local_port_index u →
  local_port_index u = local_port_index v → p = q.

Record inv (extra : Z → list Z) (fz : Z → bool) (o : t) : Prop := {
  i_num : num_clients o = zlen (clients_list o);
  i_le : num_clients o ≤ max_clients cfg;
  i_nodup : NoDup (clients_list o);
  i_dom : ∀ c, c ∈ clients_list o ↔ is_Some (clients o !! c);
  i_client : ∀ c cl, clients o !! c = Some cl → client_wf (conns o) c cl (extra c) (fz c);
  i_con : ∀ p con, conns o !! p = Some con → con_wf con ∧ is_Some (clients o !! con_client con);
  i_conid : conids_differ (conns o);
  i_port : ports_differ (conns o);
  i_dns : addr_wf (dns_addr o) ∧ (BAddr_type (dns_addr o) = BADDR_TYPE_NONE ∨ is_ip (dns_addr o) = true)
}.

Abbreviation inv0 := (inv (λ _, []) (λ _, false)).

(** ** Running the accesses *)

Lemma wp_get_client c cl o (Q : client → t → list event → Prop) :
  clients o !! c = Some cl → Q cl o [] → wp (get_client c) o Q.
Proof. intros Hc HQ. unfold get_client. apply wp_bind, wp_get. unfold mlift, wp. rewrite Hc. exact HQ. Qed.

Lemma wp_get_con p con o (Q : connection → t → list event → Prop) :
  conns o !! p = Some con → Q con o [] → wp (get_con p) o Q.
Proof. intros Hc HQ. unfold get_con. apply wp_bind, wp_get. unfold mlift, wp. rewrite Hc. exact HQ. Qed.

Lemma wp_on_client c cl f o (Q : unit → t → list event → Prop) :
  clients o !! c = Some cl → Q tt (set_clients (<[c := f cl]> (clients o)) o) [] → wp (on_client c f) o Q.
Proof. intros Hc HQ. apply wp_bind. eapply wp_get_client; [done|]. by apply wp_modify. Qed.

Lemma wp_on_con p con f o (Q : unit → t → list event → Prop) :
  conns o !! p = Some con → Q tt (set_conns (<[p := f con]> (conns o)) o) [] → wp (on_con p f) o Q.
Proof. intros Hc HQ. apply wp_bind. eapply wp_get_con; [done|]. by apply wp_modify. Qed.

Lemma server_wp_lift {A} (x : option A) a o (Q : A → t → list event → Prop) : x = Some a → Q a o [] → wp (mlift x) o Q.
Proof. intros ->. done. Qed.

Lemma wp_flow_is_busy c cl p o (Q : bool → t → list event → Prop) :
  clients o !! c = Some cl → freeing (send_queue cl) = false →
  Q (bool_decide (sending_flow (send_queue cl) = Some p)) o [] → wp (flow_is_busy c p) o Q.
Proof.
  intros Hc Hf HQ. apply wp_bind. eapply wp_get_client; [done|]. apply wp_bind, wp_assert; [by rewrite Hf|]. by apply wp_ret.
Qed.

(** ** Freeing and closing *)

(** The client of [p] without it. *)
Definition without (p : Z) (shut : bool) (cl : client) : client :=
  with_queue (mk_queue (if bool_decide (sending_flow (send_queue cl) = Some p) then None else sending_flow (send_queue cl))
                (remove_node p (flows (send_queue cl))) (freeing (send_queue cl)))
    (if shut then with_lists (connections_tree cl) (connections_list cl) (num_connections cl)
                    (remove_node p (closing_connections_list cl)) cl
     else with_lists (remove_node p (connections_tree cl)) (remove_node p (connections_list cl))
            (num_connections cl - 1) (closing_connections_list cl) cl).

Definition freed (p c : Z) (shut : bool) (cl : client) (o : t) : t :=
  mk (<[c := without p shut cl]> (clients o)) (delete p (conns o)) (clients_list o) (num_clients o) (dns_addr o) (last_dns_update_time o).

Lemma wp_connection_free p con cl o :
  conns o !! p = Some con → clients o !! con_client con = Some cl →
  freeing (send_queue cl) = true ∨ sending_flow (send_queue cl) ≠ Some p →
  (closing con = false → is_Some (udp con)) →
  wp (connection_free p) o (λ _ o' _, o' = freed p (con_client con) (closing con) cl o).
Proof.
  intros Hp Hc Hf Hu. set (c := con_client con) in *. unfold connection_free.
  assert (Hb : freeing (send_queue cl) || bool_decide (sending_flow (send_queue cl) ≠ Some p) = true)
    by (destruct Hf as [-> | Hf]; [done|rewrite bool_decide_true by done; apply orb_true_r]).
  apply wp_bind. eapply wp_get_con; [done|]. fold c. apply wp_bind, wp_bind. eapply wp_get_client; [done|].
  apply wp_assert; [done|].
  apply wp_bind. eapply (wp_mono _ _ (λ _ o1 _, clients o1 = <[c := (if closing con
      then with_lists (connections_tree cl) (connections_list cl) (num_connections cl) (remove_node p (closing_connections_list cl)) cl
      else with_lists (remove_node p (connections_tree cl)) (remove_node p (connections_list cl)) (num_connections cl - 1) (closing_connections_list cl) cl)]>
      (clients o) ∧ (delete p (conns o1)) = delete p (conns o) ∧ clients_list o1 = clients_list o ∧ num_clients o1 = num_clients o ∧ dns_addr o1 = dns_addr o ∧
      last_dns_update_time o1 = last_dns_update_time o)).
  { destruct (closing con).
    - eapply wp_on_client; [done|]. cbn. done.
    - apply wp_bind. eapply wp_on_client; [done|]. unfold connection_free_udp.
      apply wp_bind. eapply wp_get_con; [done|]. destruct (Hu eq_refl) as [u Hu']. apply wp_bind. eapply server_wp_lift; [done|].
      apply wp_bind. apply wp_modify, wp_emit. cbn. by rewrite delete_insert_eq. }
  intros [] o1 es (Hc1 & Hd & Hl & Hn & Hdn & Hlt). apply wp_bind, wp_bind.
  eapply wp_get_client; [rewrite Hc1; apply lookup_insert_eq|].
  apply wp_bind, wp_assert; [by destruct (closing con)|]. apply wp_modify, wp_bind, wp_modify, wp_emit.
  unfold freed, without, set_clients, set_conns. cbn. rewrite Hd, Hc1, Hl, Hn, Hdn, Hlt, insert_insert_eq. by destruct (closing con).
Qed.

(** Every connection of [cs'] is one of [cs] that has kept its addresses, its
    client and its port, if it still has them. *)
Definition tame (cs cs' : gmap Z connection) : Prop := ∀ q con', cs' !! q = Some con' → ∃ con, cs !! q = Some con ∧
  con_client con' = con_client con ∧ conid con' = conid con ∧ con_addr con' = con_addr con ∧
  (closing con' = false → closing con = false) ∧
  (∀ u', udp con' = Some u' → ∃ u, udp con = Some u ∧ local_port_index u' = local_port_index u).

Lemma tame_differ cs cs' : tame cs cs' → conids_differ cs → ports_differ cs → conids_differ cs' ∧ ports_differ cs'.
Proof.
  intros Ht Hc Hp. split.
  - intros p q a b Ha Hb Hca Hcb Hcl Hid. destruct (Ht p a Ha) as (a0 & Ha0 & E1 & E2 & _ & E3 & _).
    destruct (Ht q b Hb) as (b0 & Hb0 & F1 & F2 & _ & F3 & _). eapply (Hc p q a0 b0); eauto; congruence.
  - intros p q a b u v Ha Hb Hu Hv Hs H0 He. destruct (Ht p a Ha) as (a0 & Ha0 & _ & _ & E1 & _ & E2).
    destruct (Ht q b Hb) as (b0 & Hb0 & _ & _ & F1 & _ & F2). destruct (E2 u Hu) as (u0 & Hu0 & Eu), (F2 v Hv) as (v0 & Hv0 & Ev).
    eapply (Hp p q a0 b0 u0 v0); eauto; congruence.
Qed.

Lemma tame_delete cs p : tame cs (delete p cs).
Proof. intros q con' [_ Hq]%lookup_delete_Some. exists con'. split_and!; eauto. Qed.

Lemma tame_insert cs p con con' :
  cs !! p = Some con → con_client con' = con_client con → conid con' = conid con → con_addr con' = con_addr con →
  (closing con' = false → closing con = false) →
  (∀ u', udp con' = Some u' → ∃ u, udp con = Some u ∧ local_port_index u' = local_port_index u) →
  tame cs (<[p := con']> cs).
Proof.
  intros Hp E1 E2 E3 E4 E5 q k. rewrite lookup_insert_Some. intros [[<- <-]|[_ Hq]]; [by exists con|]. exists k. split_and!; eauto.
Qed.

(** A client does not see the connections of others. *)
Lemma client_wf_other cs cs' c cl e f :
  (∀ q con, con_client con = c → cs' !! q = Some con ↔ cs !! q = Some con) → client_wf cs c cl e f → client_wf cs' c cl e f.
Proof.
  intros Hq []. split; try done.
  - intros p. rewrite cw_open0. split; intros (con & Hp & Hc & Hcl); exists con; (split; [by apply Hq|done]).
  - intros p. rewrite cw_shut0. split; intros (con & Hp & Hc & Hcl); exists con; (split; [by apply Hq|done]).
  - intros p con Hp Hc. apply (cw_first0 p con); [by apply Hq|done].
Qed.

(** A step that changes client [c] and its connections. *)
Lemma inv_client e f e' f' o cs' c cl' :
  inv e f o → is_Some (clients o !! c) →
  (∀ c', c' ≠ c → e' c' = e c' ∧ f' c' = f c') →
  client_wf cs' c cl' (e' c) (f' c) →
  (∀ q con, con_client con ≠ c → cs' !! q = Some con ↔ conns o !! q = Some con) →
  (∀ q con, cs' !! q = Some con → con_client con = c → con_wf con) →
  conids_differ cs' → ports_differ cs' →
  inv e' f' (mk (<[c := cl']> (clients o)) cs' (clients_list o) (num_clients o) (dns_addr o) (last_dns_update_time o)).
Proof.
  intros [] Hc He Hw Hother Hcon Hid Hpt. split; cbn; try done.
  - intros c'. rewrite i_dom0, lookup_insert_is_Some. destruct (decide (c = c')) as [->|]; naive_solver.
  - intros c' k. rewrite lookup_insert_Some. intros [[<- <-]|[Hne Hk]]; [done|].
    destruct (He c') as [-> ->]; [done|]. eapply client_wf_other; [|by apply i_client0]. intros q con Hq. apply Hother. congruence.
  - intros q con Hq. rewrite lookup_insert_is_Some. destruct (decide (con_client con = c)) as [He'|Hne].
    + split; [by apply (Hcon q)|by left].
    + destruct (i_con0 q con) as [? ?]; [by apply Hother|]. split; [done|]. right. done.
Qed.

Lemma NoDup_without (p : Z) l1 l2 l3 : NoDup (l1 ++ l2 ++ l3) → NoDup (remove_node p l1 ++ remove_node p l2 ++ l3).
Proof.
  rewrite !NoDup_app. intros (H1 & H12 & H2 & H23 & H3). split_and!; try (by apply NoDup_remove); try done.
  - intros x [_ Hx]%elem_of_remove Hk. apply (H12 x Hx). apply elem_of_app in Hk as [[_ Hk]%elem_of_remove|Hk]; apply elem_of_app; auto.
  - intros x [_ Hx]%elem_of_remove. auto.
Qed.

Lemma remove_app (p : Z) l k : remove_node p (l ++ k) = remove_node p l ++ remove_node p k.
Proof. unfold remove_node. apply List.filter_app. Qed.

Lemma remove_id (p : Z) l : p ∉ l → remove_node p l = l.
Proof.
  unfold remove_node. induction l as [|x l IH]; [done|]. rewrite not_elem_of_cons. intros [Hx Hl]. cbn.
  rewrite (proj2 (Z.eqb_neq x p)) by done. cbn. by rewrite IH.
Qed.

Lemma zlen_remove (p : Z) l : NoDup l → p ∈ l → zlen (remove_node p l) = zlen l - 1.
Proof. intros Hn Hp. rewrite <- (Permutation_length (remove_perm p l Hn Hp)). cbn [length]. lia. Qed.

Lemma without_wf cs c cl e f p con :
  client_wf cs c cl e f → cs !! p = Some con → con_client con = c →
  client_wf (delete p cs) c (without p (closing con) cl) e f.
Proof.
  intros Hw Hp Hc. destruct Hw.
  assert (Hin : p ∈ if closing con then closing_connections_list cl else connections_list cl).
  { destruct (closing con) eqn:E; [apply cw_shut0|apply cw_open0]; eauto. }
  assert (Hnot : p ∉ (if closing con then connections_list cl else closing_connections_list cl) ++ e).
  { rewrite !NoDup_app in cw_nodup0. destruct cw_nodup0 as (N1 & N2 & N3 & N4 & N5). rewrite elem_of_app.
    destruct (closing con); intros [Hx|Hx].
    - apply (N2 p Hx). rewrite elem_of_app. auto.
    - by apply (N4 p).
    - apply (N2 p Hin). rewrite elem_of_app. auto.
    - apply (N2 p Hin). rewrite elem_of_app. auto. }
  assert (Hlists : ∀ shut, (shut = true → closing con = true) → (shut = false → closing con = false) →
    connections_list (without p shut cl) = remove_node p (connections_list cl) ∧
    closing_connections_list (without p shut cl) = remove_node p (closing_connections_list cl)).
  { intros [] H1 H2; cbn; rewrite ?H1, ?H2 in Hnot by done; apply not_elem_of_app in Hnot as [Hn _]; by rewrite (remove_id p _ Hn). }
  destruct (Hlists (closing con)) as [El Ec]; [done..|].
  assert (Ee : remove_node p e = e) by (apply remove_id; apply not_elem_of_app in Hnot; tauto).
  split; rewrite ?El, ?Ec.
  - destruct (closing con); cbn.
    + apply not_elem_of_app in Hnot as [Hn _]. by rewrite remove_id.
    + rewrite zlen_remove; [lia| |done]. by apply NoDup_app in cw_nodup0 as [? _].
  - destruct (closing con); cbn; lia.
  - by apply NoDup_without.
  - destruct (closing con); cbn; [|by apply remove_Permutation].
    apply not_elem_of_app in Hnot as [Hn _]. by rewrite remove_id.
  - rewrite <- Ee, <- !remove_app. destruct (closing con); cbn; by apply remove_Permutation.
  - by destruct (closing con).
  - intros q [Hne Hq]%elem_of_remove. destruct (closing con); cbn; rewrite (cw_closing0 q Hq), bool_decide_false by congruence; done.
  - intros q Hq. rewrite <- remove_app. apply elem_of_remove. destruct (closing con); cbn in Hq; case_bool_decide as Hs; try done;
      (split; [congruence|by apply cw_sending0]).
  - by destruct (closing con).
  - intros q. rewrite elem_of_remove, cw_open0. split.
    + intros [Hne (k & Hk & ?)]. exists k. rewrite lookup_delete_Some. done.
    + intros (k & [Hne Hk]%lookup_delete_Some & ?). split; [done|]. eauto.
  - intros q. rewrite elem_of_remove, cw_shut0. split.
    + intros [Hne (k & Hk & ?)]. exists k. rewrite lookup_delete_Some. done.
    + intros (k & [Hne Hk]%lookup_delete_Some & ?). split; [done|]. eauto.
  - intros q k [_ Hk]%lookup_delete_Some Hkc Hj. destruct (closing con); cbn; by apply (cw_first0 q k).
Qed.

Lemma inv_freed e f o p con cl :
  inv e f o → conns o !! p = Some con → clients o !! con_client con = Some cl →
  inv e f (freed p (con_client con) (closing con) cl o).
Proof.
  intros Hi Hp Hc. pose proof (i_client _ _ _ Hi _ cl Hc) as Hw.
  destruct (tame_differ _ _ (tame_delete (conns o) p) (i_conid _ _ _ Hi) (i_port _ _ _ Hi)) as [Hid Hpt].
  apply (inv_client e f e f o (delete p (conns o)) (con_client con)); try done; [by apply without_wf|..].
  - intros q k Hk. rewrite lookup_delete_Some. split; [tauto|]. intros Hq. split; [|done]. intros <-. congruence.
  - intros q k [_ Hq]%lookup_delete_Some _. by apply (i_con _ _ _ Hi q).
Qed.

Definition closed (p c : Z) (con : connection) (cl : client) (o : t) : t :=
  mk (<[c := with_lists (remove_node p (connections_tree cl)) (remove_node p (connections_list cl)) (num_connections cl - 1)
               (closing_connections_list cl ++ [p]) cl]> (clients o))
     (<[p := with_closing (with_udp None con)]> (conns o)) (clients_list o) (num_clients o) (dns_addr o) (last_dns_update_time o).

(** What closing an open connection does. *)
Definition after_close (p : Z) (con : connection) (cl : client) (o : t) : t :=
  if bool_decide (sending_flow (send_queue cl) = Some p) then closed p (con_client con) con cl o
  else freed p (con_client con) (closing con) cl o.

Lemma wp_connection_close e o p con cl :
  inv e (λ _, false) o → conns o !! p = Some con → closing con = false → clients o !! con_client con = Some cl →
  wp (connection_close p) o (λ _ o' _, o' = after_close p con cl o).
Proof.
  intros Hi Hp Hcl Hc. pose proof (i_client _ _ _ Hi _ cl Hc) as Hw. destruct (i_con _ _ _ Hi p con Hp) as [Hk _].
  destruct (co_open _ Hk Hcl) as (_ & u & Hu & _). unfold connection_close, after_close.
  apply wp_bind. eapply wp_get_con; [done|]. apply wp_bind, wp_assert; [by rewrite Hcl|].
  apply wp_bind. eapply wp_flow_is_busy; [done|apply (cw_freeing _ _ _ _ _ Hw)|]. cbn [app].
  case_bool_decide as Hs; cbn [negb].
  - apply wp_bind. eapply wp_on_client; [done|]. apply wp_bind. unfold connection_free_udp.
    apply wp_bind. eapply wp_get_con; [done|]. apply wp_bind. eapply server_wp_lift; [done|]. apply wp_bind, wp_modify, wp_emit.
    apply wp_bind. eapply wp_on_client; [apply lookup_insert_eq|]. apply wp_bind, wp_bind.
    eapply wp_get_client; [apply lookup_insert_eq|]. apply wp_bind, wp_assert; [by apply bool_decide_eq_true|].
    apply wp_assert; [cbn; by rewrite (cw_freeing _ _ _ _ _ Hw)|]. eapply wp_on_con; [apply lookup_insert_eq|].
    unfold closed, set_clients, set_conns. cbn. by rewrite !insert_insert_eq.
  - eapply wp_connection_free; [done|done|by right|eauto].
Qed.

Lemma inv_closed e f o p con cl :
  inv e f o → conns o !! p = Some con → closing con = false → clients o !! con_client con = Some cl →
  sending_flow (send_queue cl) = Some p →
  inv e f (closed p (con_client con) con cl o).
Proof.
  intros Hi Hp Hcl Hc Hs. set (con' := with_closing (with_udp None con)). destruct (i_con _ _ _ Hi p con Hp) as [Hk Hck].
  pose proof (tame_insert (conns o) p con con' Hp eq_refl eq_refl eq_refl) as Ht.
  destruct (tame_differ _ _ (Ht ltac:(done) ltac:(done)) (i_conid _ _ _ Hi) (i_port _ _ _ Hi)) as [Hid Hpt].
  pose proof (i_client _ _ _ Hi _ cl Hc) as [].
  assert (Hin : p ∈ connections_list cl) by (apply cw_open0; eauto).
  rewrite !NoDup_app in cw_nodup0. destruct cw_nodup0 as (N1 & N2 & N3 & N4 & N5).
  assert (Hnc : p ∉ closing_connections_list cl ++ e (con_client con)) by (by apply N2).
  assert (Hmem : ∀ q k, <[p:=con']> (conns o) !! q = Some k ↔ (q = p ∧ k = con') ∨ (q ≠ p ∧ conns o !! q = Some k))
    by (intros; rewrite lookup_insert_Some; naive_solver).
  apply (inv_client e f e f o (<[p := con']> (conns o)) (con_client con)); try done.
  2: { intros q k Hne. rewrite Hmem. split; [intros [[-> ->]|[_ ?]]; done|]. intros Hq. right. split; [|done]. intros ->. congruence. }
  2: { intros q k [[-> ->]|[_ Hq]]%Hmem _; [|by apply (i_con _ _ _ Hi q)]. destruct Hk. by split. }
  split; cbn; try done.
  - rewrite zlen_remove by done. lia.
  - lia.
  - rewrite !NoDup_app. split_and!; [by apply NoDup_remove| |done| |apply NoDup_singleton| |done].
    + intros x [Hx Hx1]%elem_of_remove. rewrite !elem_of_app, list_elem_of_singleton. intros [[Hk2|Hk2]|Hk2]; [|done|];
        apply (N2 x Hx1); rewrite elem_of_app; auto.
    + intros x Hx ->%list_elem_of_singleton. apply Hnc. rewrite elem_of_app. auto.
    + intros x. rewrite elem_of_app, list_elem_of_singleton. intros [Hx| ->]; [by apply N4|]. intros Hx. apply Hnc. rewrite elem_of_app. auto.
  - by apply remove_Permutation.
  - rewrite cw_flows0. rewrite <- (remove_perm p _ N1 Hin) at 1. cbn. rewrite <- !app_assoc. cbn.
    rewrite !(app_assoc (remove_node p _)). by rewrite <- Permutation_middle.
  - intros q. rewrite elem_of_app, list_elem_of_singleton. intros [Hq| ->]; [by apply cw_closing0|done].
  - intros q Hq. rewrite Hs in Hq. injection Hq as <-. rewrite !elem_of_app, list_elem_of_singleton. auto.
  - intros q. rewrite elem_of_remove, cw_open0. split.
    + intros (Hne & k & Hq & ? & ?). exists k. split; [apply Hmem; auto|done].
    + intros (k & [[-> ->]|[Hne Hq]]%Hmem & ? & ?); [done|]. split; [done|]. eauto.
  - intros q. rewrite elem_of_app, list_elem_of_singleton, cw_shut0. split.
    + intros [(k & Hq & ? & Hkc)| ->]; [|exists con'; rewrite Hmem; auto]. exists k. rewrite Hmem. split; [|done]. right. split; [|done]. intros ->. congruence.
    + intros (k & [[-> ->]|[Hne Hq]]%Hmem & ? & ?); [by right|left; eauto].
  - intros q k [[-> ->]|[Hne Hq]]%Hmem Hkc Hj; [done|]. by apply (cw_first0 q k).
Qed.

Lemma inv_after_close e f o p con cl :
  inv e f o → conns o !! p = Some con → closing con = false → clients o !! con_client con = Some cl →
  inv e f (after_close p con cl o).
Proof. intros. unfold after_close. case_bool_decide; [by apply inv_closed|by apply inv_freed]. Qed.

(** ** Small changes *)

Lemma inv_set_client e f e' f' o c cl cl' :
  inv e f o → clients o !! c = Some cl →
  (∀ c', c' ≠ c → e' c' = e c' ∧ f' c' = f c') →
  client_wf (conns o) c cl' (e' c) (f' c) → inv e' f' (set_clients (<[c := cl']> (clients o)) o).
Proof.
  intros Hi Hc He Hw. apply (inv_client e f e' f' o (conns o) c); try done; [..|apply (i_conid _ _ _ Hi)|apply (i_port _ _ _ Hi)].
  intros q k Hq _. by apply (i_con _ _ _ Hi q).
Qed.

(** A connection that keeps what others know of it. *)
Record keeps (con con' : connection) : Prop := {
  k_client : con_client con' = con_client con;
  k_conid : conid con' = conid con;
  k_addr : con_addr con' = con_addr con;
  k_orig : orig_addr con' = orig_addr con;
  k_closing : closing con' = closing con;
  k_port : local_port_index <$> udp con' = local_port_index <$> udp con;
  k_job : first_job con' = true → first_job con = true;
  k_first : first_data con' = first_data con ∧ first_data_len con' = first_data_len con
}.

Lemma inv_set_con e f o p con con' :
  inv e f o → conns o !! p = Some con → keeps con con' → con_wf con' → inv e f (set_conns (<[p := con']> (conns o)) o).
Proof.
  intros Hi Hp [] Hk. destruct (i_con _ _ _ Hi p con Hp) as [_ [cl Hc]].
  assert (Ht : tame (conns o) (<[p := con']> (conns o))).
  { apply (tame_insert _ _ con); try done; [congruence|]. intros u' Hu. rewrite Hu in k_port0. cbn in k_port0.
    destruct (udp con) as [u|]; [|done]. injection k_port0 as Heq. eauto. }
  destruct (tame_differ _ _ Ht (i_conid _ _ _ Hi) (i_port _ _ _ Hi)) as [Hid Hpt].
  assert (Hmem : ∀ q k, <[p:=con']> (conns o) !! q = Some k ↔ (q = p ∧ k = con') ∨ (q ≠ p ∧ conns o !! q = Some k))
    by (intros; rewrite lookup_insert_Some; naive_solver).
  unfold set_conns. rewrite <- (insert_id (clients o) _ _ Hc).
  apply (inv_client e f e f o (<[p := con']> (conns o)) (con_client con)); try done.
  - pose proof (i_client _ _ _ Hi _ cl Hc) as []. split; try done.
    + intros q. rewrite cw_open0. split.
      * intros (k & Hq & ? & ?). destruct (decide (q = p)) as [->|]; [exists con'|exists k]; rewrite Hmem; [|auto].
        split; [auto|]. assert (k = con) as -> by congruence. split; congruence.
      * intros (k & [[-> ->]|[Hne Hq]]%Hmem & ? & ?); [exists con; split; [done|split; congruence]|eauto].
    + intros q. rewrite cw_shut0. split.
      * intros (k & Hq & ? & ?). destruct (decide (q = p)) as [->|]; [exists con'|exists k]; rewrite Hmem; [|auto].
        split; [auto|]. assert (k = con) as -> by congruence. split; congruence.
      * intros (k & [[-> ->]|[Hne Hq]]%Hmem & ? & ?); [exists con; split; [done|split; congruence]|eauto].
    + intros q k [[-> ->]|[Hne Hq]]%Hmem Hkc Hj; [|by apply (cw_first0 q k)].
      destruct k_first0 as [-> ->]. apply (cw_first0 p con); auto.
  - intros q k Hne. rewrite Hmem. split; [intros [[-> ->]|[_ ?]]; [congruence|done]|]. intros Hq. right. split; [|done]. intros ->. congruence.
  - intros q k [[-> ->]|[_ Hq]]%Hmem _; [done|]. by apply (i_con _ _ _ Hi q).
Qed.

Lemma writer_run_start mtu w : writer_ok mtu w →
  BufferWriter.BufferWriter_StartPacket w = Some (BufferWriter.out w,
    BufferWriter.mk mtu (BufferWriter.out w) (bool_decide (is_Some (BufferWriter.out w))), []).
Proof.
  intros (Hm & Hd & _). destruct w as [m [mem|] d]; cbn in Hm, Hd; subst;
    unfold BufferWriter.BufferWriter_StartPacket, ASSERT, mbind, M_bind, mget, mput, mret, M_ret; cbn; by rewrite orb_true_r.
Qed.

Lemma writer_run_end mtu mem data n : 0 ≤ n ≤ mtu →
  BufferWriter.BufferWriter_EndPacket data n (BufferWriter.mk mtu (Some mem) true) =
    Some (tt, BufferWriter.mk mtu None false, [BufferWriter.OutputDone (ztake n data)]).
Proof.
  intros Hn. unfold BufferWriter.BufferWriter_EndPacket, ASSERT, mbind, M_bind, mget, mput, emit. cbn.
  rewrite (proj2 (Z.leb_le 0 n)), (proj2 (Z.leb_le n mtu)), !orb_true_r by lia. reflexivity.
Qed.

Lemma wp_writer_events (me : list Z → event) es o (Q : unit → t → list event → Prop) :
  Q tt o (map (λ e, match e with BufferWriter.OutputDone d => me d end) es) → wp (writer_events me es) o Q.
Proof.
  unfold writer_events. revert Q. induction es as [|[d] es IH]; intros Q HQ; [exact HQ|]. cbn [foldr]. apply wp_bind, wp_emit. by apply IH.
Qed.

Lemma wp_on_send_if {A} p con (m : M BufferWriter.t BufferWriter.event A) o a w es (Q : A → t → list event → Prop) :
  conns o !! p = Some con → m (send_if con) = Some (a, w, es) →
  Q a (set_conns (<[p := with_send_if w con]> (conns o)) o)
    (map (λ e, match e with BufferWriter.OutputDone d => ClientOutput p d end) es) →
  wp (on_send_if p m) o Q.
Proof.
  intros Hp Hm HQ. apply wp_bind. eapply wp_get_con; [done|]. rewrite Hm. apply wp_bind, wp_modify, wp_bind, wp_writer_events, wp_ret.
  cbn [app]. by rewrite app_nil_r.
Qed.

Lemma wp_on_udp_writer {A} p con u (m : M BufferWriter.t BufferWriter.event A) o a w es (Q : A → t → list event → Prop) :
  conns o !! p = Some con → udp con = Some u → m (udp_send_writer u) = Some (a, w, es) →
  Q a (set_conns (<[p := with_udp (Some (mk_udp (local_port_index u) w)) con]> (conns o)) o)
    (map (λ e, match e with BufferWriter.OutputDone d => UdpOutput p d end) es) →
  wp (on_udp_writer p m) o Q.
Proof.
  intros Hp Hu Hm HQ. apply wp_bind. eapply wp_get_con; [done|]. apply wp_bind. eapply server_wp_lift; [done|]. rewrite Hm.
  apply wp_bind, wp_modify, wp_bind, wp_writer_events, wp_ret. cbn [app]. by rewrite app_nil_r.
Qed.

Lemma with_send_if_wf w con : con_wf con → writer_ok (udpgw_mtu cfg) w → keeps con (with_send_if w con) ∧ con_wf (with_send_if w con).
Proof. intros [] Hw. split; by split. Qed.

Lemma with_udp_wf w u con :
  con_wf con → udp con = Some u → writer_ok (udp_mtu cfg) w →
  keeps con (with_udp (Some (mk_udp (local_port_index u) w)) con) ∧ con_wf (with_udp (Some (mk_udp (local_port_index u) w)) con).
Proof.
  intros [] Hu Hw. split; split; try done; cbn; [by rewrite Hu|..].
  - intros Hc. destruct (co_closing0 Hc) as [? _]. congruence.
  - intros Hc. destruct (co_open0 Hc) as (? & u0 & Hu0 & _ & Hr). split; [done|]. assert (u0 = u) as -> by congruence. by exists (mk_udp (local_port_index u) w).
Qed.

Lemma with_time_wf now con : con_wf con → keeps con (with_time now con) ∧ con_wf (with_time now con).
Proof. intros []. split; by split. Qed.

Lemma with_job_wf con : con_wf con → keeps con (with_job false con) ∧ con_wf (with_job false con).
Proof. intros []. split; split; try done. cbn. naive_solver. Qed.

(** A connection moves to the end of its list. *)
Lemma move_wf cs c cl e f p :
  client_wf cs c cl e f → p ∈ connections_list cl →
  client_wf cs c (with_lists (connections_tree cl) (remove_node p (connections_list cl) ++ [p]) (num_connections cl)
                   (closing_connections_list cl) cl) e f.
Proof.
  intros [] Hp. assert (N : NoDup (connections_list cl)) by (apply NoDup_app in cw_nodup0; tauto).
  pose proof (move_perm p _ N Hp) as Hm. split; cbn; try done; try (by rewrite Hm).
  - intros q Hq. rewrite elem_of_app, Hm, <- elem_of_app. auto.
  - intros q. by rewrite Hm, cw_open0.
Qed.

(** ** Relaying packets *)

Definition moved (p : Z) (cl : client) : client :=
  with_lists (connections_tree cl) (remove_node p (connections_list cl) ++ [p]) (num_connections cl) (closing_connections_list cl) cl.

(** Connection [p] was used: it is last in its list, and changed as [keeps] says. *)
Definition used (p : Z) (con con' : connection) (cl : client) (o o' : t) : Prop :=
  keeps con con' ∧ con_wf con' ∧
  o' = mk (<[con_client con := moved p cl]> (clients o)) (<[p := con']> (conns o)) (clients_list o) (num_clients o) (dns_addr o) (last_dns_update_time o).

Lemma inv_used e f o o' p con con' cl :
  inv e f o → conns o !! p = Some con → closing con = false → clients o !! con_client con = Some cl →
  used p con con' cl o o' → inv e f o'.
Proof.
  intros Hi Hp Hcl Hc (Hk & Hw & ->).
  pose proof (inv_set_con e f o p con con' Hi Hp Hk Hw) as Hi1.
  pose proof (inv_set_client e f e f (set_conns (<[p := con']> (conns o)) o) (con_client con) cl (moved p cl) Hi1 Hc) as Hm.
  unfold set_clients, set_conns in Hm. cbn in Hm. apply Hm; [done|]. apply move_wf; [by apply (i_client _ _ _ Hi1)|].
  apply (cw_open _ _ _ _ _ (i_client _ _ _ Hi _ cl Hc)). eauto.
Qed.

Lemma wp_send_to_udp e f o p con u cl data now :
  inv e f o → conns o !! p = Some con → closing con = false → udp con = Some u → clients o !! con_client con = Some cl →
  zlen data ≤ udp_mtu cfg →
  wp (connection_send_to_udp p data now) o (λ _ o' es,
    (∃ con', used p con con' cl o o' ∧ send_if con' = send_if con ∧ first_job con' = first_job con) ∧
    es = if bool_decide (is_Some (BufferWriter.out (udp_send_writer u))) then [UdpOutput p data] else []).
Proof.
  intros Hi Hp Hcl Hu Hc Hz. destruct (i_con _ _ _ Hi p con Hp) as [Hk _].
  destruct (co_open _ Hk Hcl) as (_ & u0 & Hu0 & Hwr & _). assert (u0 = u) as -> by congruence.
  set (con1 := with_time now con). assert (Hu1 : udp con1 = Some u) by done.
  unfold connection_send_to_udp. apply wp_bind. eapply wp_get_con; [done|].
  apply wp_bind, wp_assert; [by rewrite Hcl|]. apply wp_bind, wp_assert; [by apply Z.leb_le|].
  apply wp_bind, wp_modify, wp_bind. eapply wp_on_client; [done|]. fold con1. fold (moved p cl).
  assert (Hfin : ∀ w, writer_ok (udp_mtu cfg) w → ∃ con', with_udp (Some (mk_udp (local_port_index u) w)) con1 = con' ∧ keeps con con' ∧ con_wf con').
  { intros w Hw. destruct (with_time_wf now con Hk) as [K1 W1]. destruct (with_udp_wf w u con1 W1 Hu1 Hw) as [K2 W2].
    eexists; split; [reflexivity|]. split; [|done]. destruct K1, K2. split; naive_solver congruence. }
  destruct (Hwr) as (Hm & Hd & Hmem).
  apply wp_bind. eapply wp_on_udp_writer; [apply lookup_insert_eq|done|by apply writer_run_start|]. cbn [map app].
  destruct (BufferWriter.out (udp_send_writer u)) as [mem|] eqn:Hout.
  - rewrite !bool_decide_true by eauto. specialize (Hmem mem eq_refl).
    apply wp_bind. eapply server_wp_lift; [apply out_write_ok; lia|]. apply wp_bind.
    eapply wp_on_udp_writer; [apply lookup_insert_eq|reflexivity|apply writer_run_end; lia|]. apply wp_ret. cbn [map app].
    destruct (Hfin (BufferWriter.mk (udp_mtu cfg) None false)) as (con' & Hcon' & K & W); [by split_and!|].
    split.
    + exists con'. split; [|by rewrite <- Hcon']. split; [done|]. split; [done|]. rewrite <- Hcon'.
      unfold set_conns, set_clients. cbn. by rewrite !insert_insert_eq.
    + do 2 f_equal. apply (slice_zwrite_same 0); lia.
  - apply wp_ret. rewrite !bool_decide_false by (by intros [? ?]).
    destruct (Hfin (BufferWriter.mk (udp_mtu cfg) None false)) as (con' & Hcon' & K & W); [by split_and!|].
    split; [|done]. exists con'. split; [|by rewrite <- Hcon']. split; [done|]. split; [done|]. rewrite <- Hcon'.
    unfold set_conns, set_clients. cbn. by rewrite !insert_insert_eq.
Qed.

(** The packet for the client; none if it is too large. *)
Definition fits (orig : BAddr) (data : list Z) : bool :=
  zlen data <=? udpgw_mtu cfg - (3 + zlen (addr_bytes orig)).

Lemma addr_len_eq orig : ip_wf orig →
  (if BAddr_type orig =? BADDR_TYPE_IPV6 then sizeof_udpgw_addr_ipv6
   else if BAddr_type orig =? BADDR_TYPE_IPV4 then sizeof_udpgw_addr_ipv4 else 0) = zlen (addr_bytes orig).
Proof.
  intros [Hw Hip]. rewrite zlen_addr_bytes by done.
  destruct orig; try (vm_compute in Hip; done); reflexivity.
Qed.

Lemma write_addr orig (m : list Z) : ip_wf orig → 21 ≤ zlen m ∨ 3 + zlen (addr_bytes orig) ≤ zlen m →
  (match orig with
   | BAddr_IPv4 ip port =>
       out ← out_write sizeof_udpgw_header (le_bytes 4 ip ++ le_bytes 2 port) m;
       Some (out, sizeof_udpgw_header + sizeof_udpgw_addr_ipv4)
   | BAddr_IPv6 ip port =>
       out ← out_write sizeof_udpgw_header (ip ++ le_bytes 2 port) m;
       Some (out, sizeof_udpgw_header + sizeof_udpgw_addr_ipv6)
   | _ => Some (m, sizeof_udpgw_header)
   end) = Some (zwrite 3 (addr_bytes orig) m, 3 + zlen (addr_bytes orig)).
Proof.
  intros [Hw Hip] Hm. pose proof (zlen_addr_bytes orig Hw Hip) as Hza.
  unfold sizeof_udpgw_header, sizeof_udpgw_addr_ipv4, sizeof_udpgw_addr_ipv6.
  destruct orig as [|ip port|ip port|]; try (vm_compute in Hip; done); cbn [addr_bytes BAddr_type] in *;
    rewrite Hza in *; cbn in Hm; (rewrite out_write_ok by (rewrite Hza; cbn; lia)); done.
Qed.

Lemma wp_send_to_client o p con data :
  conns o !! p = Some con → con_wf con → zlen data ≤ udp_mtu cfg → 21 ≤ udpgw_mtu cfg →
  wp (connection_send_to_client p 0 data) o (λ _ o' es,
    (∃ con', keeps con con' ∧ con_wf con' ∧ o' = set_conns (<[p := con']> (conns o)) o ∧ first_job con' = first_job con) ∧
    es = if fits (orig_addr con) data && bool_decide (is_Some (BufferWriter.out (send_if con)))
         then [ClientOutput p (packet_msg 0 (conid con) (orig_addr con) data)] else []).
Proof.
  intros Hp Hk Hz Hm21. destruct (co_orig _ Hk) as [Hw Hip]. pose proof (co_send _ Hk) as Hs.
  unfold connection_send_to_client. apply wp_bind. eapply wp_get_con; [done|]. apply wp_bind, wp_assert; [by apply Z.leb_le|].
  rewrite addr_len_eq by done. unfold fits, sizeof_udpgw_header.
  destruct (Z.ltb_spec (udpgw_mtu cfg - (3 + zlen (addr_bytes (orig_addr con)))) (zlen data)) as [Hl|Hl].
  { apply wp_ret. rewrite (proj2 (Z.leb_gt _ _)) by lia. split; [|done]. exists con. split_and!; try done.
    unfold set_conns. rewrite insert_id by done. by destruct o. }
  rewrite (proj2 (Z.leb_le _ _)) by lia. cbn [andb].
  destruct Hs as (Hm & Hd & Hmem).
  assert (Hfin : keeps con (with_send_if (BufferWriter.mk (udpgw_mtu cfg) None false) con) ∧ con_wf (with_send_if (BufferWriter.mk (udpgw_mtu cfg) None false) con))
    by (apply with_send_if_wf; [done|by split_and!]).
  apply wp_bind. eapply wp_on_send_if; [done|by apply writer_run_start|]. cbn [map app].
  destruct (BufferWriter.out (send_if con)) as [mem|] eqn:Hout.
  - rewrite !bool_decide_true by eauto. specialize (Hmem mem eq_refl).
    set (flags' := if BAddr_type _ =? _ then _ else _). set (hdr := [ltoh8 flags'] ++ le_bytes 2 (ltoh16 (conid con))).
    assert (Hzh : zlen hdr = 3) by (unfold hdr; rewrite length_app, length_le_bytes; done).
    apply wp_bind. eapply server_wp_lift; [apply (out_write_ok 0 hdr); lia|].
    apply wp_bind. eapply server_wp_lift; [apply write_addr; [done|left; zw_len; lia]|].
    apply wp_bind. eapply server_wp_lift; [apply out_write_ok; zw_len; lia|]. apply wp_bind, wp_assert; [apply Z.leb_le; lia|].
    eapply wp_on_send_if; [apply lookup_insert_eq|apply writer_run_end; lia|]. cbn [map app].
    split; [|by rewrite packet_written by (done || lia)].
    eexists; split; [apply Hfin|]. split; [apply Hfin|]. split; [|done]. unfold set_conns. cbn. by rewrite insert_insert_eq.
  - apply wp_ret. rewrite !bool_decide_false by (by intros [? ?]). split; [|done].
    eexists; split; [apply Hfin|]. split; [apply Hfin|]. split; [|done]. done.
Qed.

(** ** Local ports *)

(** What two connections with a common port must differ in. *)
Definition remote_key (a : BAddr) : BIPAddr * Z :=
  (BAddr_GetIPAddr a, if unique_local_ports cfg then 0 else match BAddr_GetPort a with Some port => port | None => 0 end).

Lemma same_remote_key a b : ip_wf a → ip_wf b → same_remote a b = true ↔ remote_key a = remote_key b.
Proof.
  intros [Wa Ha] [Wb Hb]. unfold same_remote, remote_key.
  destruct a as [|ip1 p1|ip1 p1|]; try (vm_compute in Ha; done); destruct b as [|ip2 p2|ip2 p2|]; try (vm_compute in Hb; done);
    destruct (unique_local_ports cfg); cbn; try (split; [done|intros [= ]; congruence]).
  - rewrite Z.eqb_eq. split; [by intros ->|by intros [= ->]].
  - rewrite andb_true_iff, !Z.eqb_eq. split; [by intros [-> ->]|by intros [= -> ->]].
  - destruct Wa as [La _], Wb as [Lb _]. rewrite !take_ge by lia. rewrite bool_decide_eq_true. split; [by intros ->|by intros [= ->]].
  - destruct Wa as [La _], Wb as [Lb _]. rewrite !take_ge by lia. rewrite andb_true_iff, bool_decide_eq_true, Z.eqb_eq.
    split; [by intros [-> ->]|by intros [= -> ->]].
Qed.

Lemma remote_key_type a b : ip_wf a → ip_wf b → remote_key a = remote_key b → BAddr_type a = BAddr_type b.
Proof.
  intros [_ Ha] [_ Hb] [= He _].
  destruct a; try (vm_compute in Ha; done); destruct b; try (vm_compute in Hb; done); done.
Qed.

Lemma wp_mfold_from {A B} (f : A → B → IO A) (I : list B → A → Prop) o rest seen a :
  (∀ s x a, (∃ r, seen ++ rest = s ++ x :: r) → I s a → wp (f a x) o (λ a' o' es, o' = o ∧ es = [] ∧ I (s ++ [x]) a')) →
  I seen a → wp (mfold f a rest) o (λ a' o' es, o' = o ∧ es = [] ∧ I (seen ++ rest) a').
Proof.
  revert seen a. induction rest as [|x rest IH]; intros seen a Hstep Ha; cbn [mfold].
  - apply wp_ret. by rewrite app_nil_r.
  - apply wp_bind. eapply wp_mono; [apply (Hstep seen x a); eauto|]. intros a' ? ? (-> & -> & Ha').
    replace (seen ++ x :: rest) with ((seen ++ [x]) ++ rest) by (by rewrite <- app_assoc).
    eapply wp_mono; [apply IH|]; [|done|by intros ? ? ? (-> & -> & ?)].
    intros s y b (r & Hr) Hs. apply Hstep; [|done]. exists r. rewrite <- Hr, <- app_assoc. done.
Qed.

Lemma wp_mfold {A B} (f : A → B → IO A) (I : list B → A → Prop) l a o :
  (∀ s x a, (∃ r, l = s ++ x :: r) → I s a → wp (f a x) o (λ a' o' es, o' = o ∧ es = [] ∧ I (s ++ [x]) a')) →
  I [] a → wp (mfold f a l) o (λ a' o' es, o' = o ∧ es = [] ∧ I l a').
Proof. apply (wp_mfold_from f I o l []). Qed.

(** The ports of the connections [seen] to [remote] are marked, and the connection
    found may be closed. *)
Definition scanned (o : t) (remote : BAddr) (n : Z) (seen : Z → Prop) (acc : list bool * option Z) : Prop :=
  zlen acc.1 = n ∧
  (∀ r con u, seen r → conns o !! r = Some con → udp con = Some u → same_remote (con_addr con) remote = true →
     0 ≤ local_port_index u → acc.1 !! Z.to_nat (local_port_index u) = Some true) ∧
  (∀ q, acc.2 = Some q → ∃ con u cl, conns o !! q = Some con ∧ closing con = false ∧ udp con = Some u ∧
     same_remote (con_addr con) remote = true ∧ 0 ≤ local_port_index u < n ∧
     clients o !! con_client con = Some cl ∧ sending_flow (send_queue cl) ≠ Some q).

Lemma scanned_ext o remote n (s1 s2 : Z → Prop) acc : (∀ r, s2 r → s1 r) → scanned o remote n s1 acc → scanned o remote n s2 acc.
Proof. intros Hs (H1 & H2 & H3). split_and!; naive_solver. Qed.

Lemma use_port_ok i usage : 0 ≤ i < zlen usage → use_port i usage = Some (<[Z.to_nat i := true]> usage).
Proof. intros. unfold use_port. by rewrite (proj2 (Z.leb_le 0 i)), (proj2 (Z.ltb_lt i _)) by lia. Qed.

Lemma wp_scan_connection e o remote c cl (seen : Z → Prop) acc p :
  inv e (λ _, false) o → ip_wf remote → clients o !! c = Some cl → p ∈ connections_list cl →
  scanned o remote (num_ports remote) seen acc →
  wp (scan_connection remote (num_ports remote) c acc p) o (λ acc' o' es,
    o' = o ∧ es = [] ∧ scanned o remote (num_ports remote) (λ r, seen r ∨ r = p) acc').
Proof.
  intros Hi Hr Hc Hin Hs. pose proof (i_client _ _ _ Hi c cl Hc) as Hw.
  destruct (proj1 (cw_open _ _ _ _ _ Hw p) Hin) as (con & Hp & Hcc & Hcl).
  destruct (i_con _ _ _ Hi p con Hp) as [Hk _]. destruct (co_open _ Hk Hcl) as (_ & u & Hu & _ & Hlo & Hhi).
  destruct acc as [usage least]. destruct Hs as (Hz & Hm & Hl). cbn in Hz, Hm, Hl. pose proof (co_addr _ Hk) as Hka.
  assert (Hskip : same_remote (con_addr con) remote = false ∨ local_port_index u < 0 →
    scanned o remote (num_ports remote) (λ r, seen r ∨ r = p) (usage, least)).
  { intros Hno. split_and!; cbn; [done| |done]. intros r con' u' [Hsr| ->] Hr' Hu' Hsame H0; [by eapply Hm|].
    assert (con' = con) as -> by congruence. assert (u' = u) as -> by congruence. destruct Hno; [congruence|lia]. }
  unfold scan_connection. apply wp_bind. eapply wp_get_con; [done|]. apply wp_bind, wp_assert; [by apply Z.eqb_eq|].
  apply wp_bind, wp_assert; [by rewrite Hcl|]. apply wp_bind. eapply server_wp_lift; [done|]. cbn [app].
  destruct (Z.eqb_spec (BAddr_type (con_addr con)) (BAddr_type remote)) as [Ht|Ht]; cbn [negb orb].
  2: { apply wp_ret. split_and!; try done. apply Hskip. left. apply not_true_is_false. intros Hsame.
       apply Ht, remote_key_type; [done..|]. by apply same_remote_key. }
  destruct (Z.ltb_spec (local_port_index u) 0) as [Hneg|H0]; [apply wp_ret; split_and!; try done; by apply Hskip; right|].
  assert (Hnp : num_ports (con_addr con) = num_ports remote) by (unfold num_ports; by rewrite Ht).
  specialize (Hhi H0). rewrite Hnp in Hhi. apply wp_bind, wp_assert; [by apply Z.ltb_lt|].
  destruct (same_remote (con_addr con) remote) eqn:Hsame; cbn [negb]; [|apply wp_ret; (split_and!; [done..|]); apply Hskip; by left].
  apply wp_bind. eapply server_wp_lift; [apply use_port_ok; lia|].
  apply wp_bind. eapply wp_flow_is_busy; [done|apply (cw_freeing _ _ _ _ _ Hw)|].
  assert (Hmark : ∀ least', (∀ q, least' = Some q → (∃ con u cl, conns o !! q = Some con ∧ closing con = false ∧ udp con = Some u ∧
     same_remote (con_addr con) remote = true ∧ 0 ≤ local_port_index u < num_ports remote ∧
     clients o !! con_client con = Some cl ∧ sending_flow (send_queue cl) ≠ Some q)) →
     scanned o remote (num_ports remote) (λ r, seen r ∨ r = p) (<[Z.to_nat (local_port_index u) := true]> usage, least')).
  { intros least' Hl'. split_and!; cbn; [by rewrite length_insert| |done].
    intros r con' u' Hsr Hr' Hu' Hs' H0'. destruct (decide (Z.to_nat (local_port_index u') = Z.to_nat (local_port_index u))) as [->|Hne].
    - apply list_lookup_insert_eq. lia.
    - rewrite list_lookup_insert_ne by done. destruct Hsr as [Hsr| ->]; [by eapply Hm|]. congruence. }
  cbn [app]. case_bool_decide as Hb; [apply wp_ret; split_and!; try done; by apply Hmark|].
  assert (Hthis : ∃ con0 u cl, conns o !! p = Some con0 ∧ closing con0 = false ∧ udp con0 = Some u ∧
     same_remote (con_addr con0) remote = true ∧ 0 ≤ local_port_index u < num_ports remote ∧
     clients o !! con_client con0 = Some cl ∧ sending_flow (send_queue cl) ≠ Some p)
    by (exists con, u, cl; rewrite Hcc; by split_and!).
  destruct least as [q|].
  - destruct (Hl q eq_refl) as (lc & lu & lcl & Hq & Hrest). apply wp_bind. eapply wp_get_con; [done|]. apply wp_ret.
    split_and!; try done. apply Hmark. intros r. case_match; intros [= <-]; [done|]. exists lc, lu, lcl. split; [exact Hq|exact Hrest].
  - apply wp_ret. split_and!; try done. apply Hmark. by intros r [= <-].
Qed.

Lemma get_num_ports remote o (Q : Z → t → list event → Prop) :
  ip_wf remote → Q (num_ports remote) o [] → wp (get_local_num_ports (BAddr_type remote)) o Q.
Proof.
  intros [_ Hip] HQ. unfold get_local_num_ports, num_ports in *. destruct remote; try (vm_compute in Hip; done); exact HQ.
Qed.

(** The whole scan: every open connection was seen. *)
Lemma wp_build_port_usage e o remote ok :
  inv e (λ _, false) o → ip_wf remote → 0 ≤ num_ports remote →
  wp (build_port_usage_array_and_find_least_used_connection remote ok) o (λ r o' es, o' = o ∧ es = [] ∧
    ∀ acc, r = Some acc → scanned o remote (num_ports remote) (λ _, True) acc).
Proof.
  intros Hi Hr Hn. unfold build_port_usage_array_and_find_least_used_connection.
  apply wp_bind, wp_assert; [apply Hr|]. apply wp_bind, get_num_ports; [done|].
  apply wp_bind, wp_assert; [by apply Z.leb_le|]. destruct ok; cbn [negb]; [|by apply wp_ret].
  apply wp_bind, wp_get, wp_bind.
  set (I cs acc := scanned o remote (num_ports remote) (λ r, ∃ con, conns o !! r = Some con ∧ con_client con ∈ (cs : list Z) ∧ closing con = false) acc).
  eapply wp_mono; [apply (wp_mfold _ I)|].
  - intros s c acc [r Hl] Hs.
    destruct (proj1 (i_dom _ _ _ Hi c)) as [cl Hc]; [rewrite Hl; rewrite elem_of_app, elem_of_cons; auto|].
    unfold scan_client. apply wp_bind. eapply wp_get_client; [done|].
    set (J seen acc := scanned o remote (num_ports remote)
      (λ r, (∃ con, conns o !! r = Some con ∧ con_client con ∈ s ∧ closing con = false) ∨ r ∈ (seen : list Z)) acc).
    eapply wp_mono; [apply (wp_mfold _ J)|].
    + intros seen p acc' [r' Hl'] HJ. eapply wp_mono; [apply (wp_scan_connection e o remote c cl); try done|].
      { rewrite Hl', elem_of_app, elem_of_cons. auto. }
      intros acc2 o' es (-> & -> & HJ'). split_and!; try done. eapply scanned_ext; [|exact HJ'].
      intros r2. rewrite elem_of_app, list_elem_of_singleton. tauto.
    + eapply scanned_ext; [|exact Hs]. intros r2. rewrite elem_of_nil. tauto.
    + intros acc' o' es (-> & -> & HJ). split_and!; try done. eapply scanned_ext; [|exact HJ].
      intros r2 (con & Hr2 & Hcs & Hcl). apply elem_of_app in Hcs as [Hcs|Hcs%list_elem_of_singleton]; [left; eauto|right].
      apply (cw_open _ _ _ _ _ (i_client _ _ _ Hi c cl Hc)). eauto.
  - split_and!; cbn; [rewrite length_replicate; lia| |done]. intros ? ? ? (? & _ & Hx & _). by apply elem_of_nil in Hx.
  - intros acc o' es (-> & -> & HI). apply wp_ret. split_and!; try done. intros acc' [= <-].
    destruct HI as (H1 & H2 & H3). split_and!; try done. intros r con u _ Hr' Hu Hs H0. apply (H2 r con u); try done.
    exists con. split; [done|]. destruct (i_con _ _ _ Hi r con Hr') as [Hk Hcl]. split; [by apply (i_dom _ _ _ Hi)|].
    destruct (closing con) eqn:E; [|done]. destruct (co_closing _ Hk E) as [? _]. congruence.
Qed.

(** The options as [parse_arguments] and [process_arguments] leave them. *)
Record config_wf : Prop := {
  cf_mtu : 0 ≤ udp_mtu cfg < 2 ^ 31 ∧ compute_mtus (udp_mtu cfg) = (udpgw_mtu cfg, pp_mtu cfg);
  cf_clients : 0 < max_clients cfg;
  cf_connections : 0 < max_connections_for_client cfg;
  cf_local : 0 ≤ local_udp_num_ports cfg → BAddr_type (local_udp_addr cfg) = BADDR_TYPE_IPV4;
  cf_local6 : 0 ≤ local_udp_ip6_num_ports cfg → BAddr_type (local_udp_ip6_addr cfg) = BADDR_TYPE_IPV6
}.

Definition local_addr_of (a : BAddr) : BAddr :=
  if BAddr_type a =? BADDR_TYPE_IPV4 then local_udp_addr cfg else local_udp_ip6_addr cfg.

Lemma wp_get_local_addr remote o (Q : BAddr → t → list event → Prop) :
  ip_wf remote → 0 ≤ num_ports remote → Q (local_addr_of remote) o [] → wp (get_local_addr (BAddr_type remote)) o Q.
Proof.
  intros Hr Hn HQ. unfold get_local_addr. apply wp_bind, get_num_ports; [done|].
  apply wp_bind, wp_assert; [by apply Z.leb_le|]. destruct Hr as [_ Hip]. unfold local_addr_of in HQ.
  destruct remote; try (vm_compute in Hip; done); exact HQ.
Qed.

Lemma bind_addr_some remote i : config_wf → ip_wf remote → 0 ≤ num_ports remote → is_Some (bind_addr (local_addr_of remote) i).
Proof.
  intros Hcf [_ Hip] Hn. unfold bind_addr, local_addr_of, num_ports in *.
  destruct remote; try (vm_compute in Hip; done); cbn in *.
  - pose proof (cf_local Hcf Hn). destruct (local_udp_addr cfg); try (vm_compute in H0; done); cbn; eauto.
  - pose proof (cf_local6 Hcf Hn). destruct (local_udp_ip6_addr cfg); try (vm_compute in H0; done); cbn; eauto.
Qed.

Lemma wp_try_bind bnd p remote i o :
  config_wf → ip_wf remote → 0 ≤ num_ports remote →
  wp (try_bind bnd p (local_addr_of remote) i) o (λ _ o' _, o' = o).
Proof.
  intros Hcf Hr Hn. destruct (bind_addr_some remote i Hcf Hr Hn) as [a Ha]. unfold try_bind.
  apply wp_bind. eapply server_wp_lift; [done|]. apply wp_bind, wp_emit. by apply wp_ret.
Qed.

(** A port that is found was not marked. *)
Lemma wp_try_ports bnd p remote usage i o :
  config_wf → ip_wf remote → 0 ≤ num_ports remote → 0 ≤ i →
  wp (try_ports bnd p (local_addr_of remote) usage i) o (λ r o' _, o' = o ∧
    ∀ j, r = Some j → i ≤ j < i + zlen usage ∧ usage !! Z.to_nat (j - i) = Some false).
Proof.
  intros Hcf Hr Hn. revert i. induction usage as [|b usage IH]; intros i H0; cbn [try_ports]; [by apply wp_ret|].
  assert (Hnext : wp (try_ports bnd p (local_addr_of remote) usage (i + 1)) o (λ r o' _, o' = o ∧
    ∀ j, r = Some j → i ≤ j < i + zlen (b :: usage) ∧ (b :: usage) !! Z.to_nat (j - i) = Some false)).
  { eapply wp_mono; [apply IH; lia|]. intros r o' es [-> Hj]. split; [done|]. intros j ->. destruct (Hj j eq_refl) as [Hb Hl].
    cbn [length]. split; [lia|]. replace (Z.to_nat (j - i)) with (S (Z.to_nat (j - (i + 1)))) by lia. exact Hl. }
  destruct b; [exact Hnext|]. apply wp_bind. eapply wp_mono; [by apply wp_try_bind|]. intros ok o' es ->.
  destruct ok.
  - apply wp_ret. split; [done|]. intros j [= <-]. cbn [length]. split; [lia|]. by rewrite Z.sub_diag.
  - eapply wp_mono; [exact Hnext|]. naive_solver.
Qed.

(** Closing other connections: what is left keeps its client, which has at most as
    many as before. *)
Definition shrinks (o o' : t) : Prop :=
  tame (conns o) (conns o') ∧ clients_list o' = clients_list o ∧ dns_addr o' = dns_addr o ∧
  ∀ c cl, clients o !! c = Some cl → ∃ cl', clients o' !! c = Some cl' ∧
    num_connections cl' ≤ num_connections cl ∧ packet cl' = packet cl.

Lemma shrinks_refl o : shrinks o o.
Proof. split_and!; try done; [intros q con Hq; exists con; split_and!; eauto|]. intros c cl Hc. exists cl. by split_and!. Qed.

Lemma after_close_shrinks e f o p con cl :
  inv e f o → conns o !! p = Some con → closing con = false → clients o !! con_client con = Some cl →
  shrinks o (after_close p con cl o) ∧
  (∀ con' u, conns (after_close p con cl o) !! p = Some con' → udp con' = Some u → False) ∧
  (∃ cl', clients (after_close p con cl o) !! con_client con = Some cl' ∧ num_connections cl' = num_connections cl - 1).
Proof.
  intros Hi Hp Hcl Hc. unfold after_close. case_bool_decide as Hs.
  - split_and!.
    + split_and!; try done; [by apply (tame_insert _ _ con)|]. intros c' k Hk. cbn. destruct (decide (c' = con_client con)) as [->|Hne].
      * rewrite lookup_insert_eq. eexists; split; [done|]. cbn. assert (k = cl) as -> by congruence. split; [lia|done].
      * rewrite lookup_insert_ne by done. exists k. by split_and!.
    + cbn. rewrite lookup_insert_eq. intros con' u [= <-]. done.
    + cbn. rewrite lookup_insert_eq. eauto.
  - rewrite Hcl. split_and!.
    + split_and!; try done; [apply tame_delete|]. intros c' k Hk. cbn. destruct (decide (c' = con_client con)) as [->|Hne].
      * rewrite lookup_insert_eq. eexists; split; [done|]. cbn. assert (k = cl) as -> by congruence. split; [lia|done].
      * rewrite lookup_insert_ne by done. exists k. by split_and!.
    + cbn. by rewrite lookup_delete_eq.
    + cbn. rewrite lookup_insert_eq. eauto.
Qed.

(** The port of a new socket is not that of another connection to the same remote
    address. *)
Definition port_free (o : t) (addr : BAddr) (i : Z) : Prop := ∀ r con u,
  conns o !! r = Some con → udp con = Some u → same_remote (con_addr con) addr = true → 0 ≤ i → local_port_index u ≠ i.

Lemma wp_bind_local e o p addr a :
  config_wf → inv e (λ _, false) o → ip_wf addr →
  wp (bind_local p addr a) o (λ i o' _, inv e (λ _, false) o' ∧ shrinks o o' ∧
    -1 ≤ i ∧ (0 ≤ i → i < num_ports addr) ∧ port_free o' addr i).
Proof.
  intros Hcf Hi Hr. pose proof (shrinks_refl o) as Hsr.
  assert (Hm1 : inv e (λ _, false) o ∧ shrinks o o ∧ -1 ≤ -1 ∧ (0 ≤ -1 → -1 < num_ports addr) ∧ port_free o addr (-1))
    by (split_and!; try done; intros; [intros r con u ??? ?]; lia).
  unfold bind_local. apply wp_bind, get_num_ports; [done|].
  destruct (Z.leb_spec 0 (num_ports addr)) as [Hn|Hn]; cbn [negb]; [|by apply wp_ret].
  apply wp_bind. eapply wp_mono; [by apply (wp_build_port_usage e)|]. intros r o' es (-> & -> & Hacc).
  destruct r as [[usage least]|]; [|by apply wp_ret]. destruct (Hacc _ eq_refl) as (Hz & Hmark & Hleast). cbn in Hz, Hmark, Hleast.
  destruct (reuse_ok a); cbn [negb]; [|by apply wp_ret].
  apply wp_bind. eapply wp_get_local_addr; [done|done|]. apply wp_bind. eapply wp_mono; [by apply wp_try_ports|].
  intros i o' es [-> Hj]. destruct i as [i|].
  - apply wp_ret. destruct (Hj i eq_refl) as [Hb Hf]. rewrite Z.sub_0_r in Hf. split_and!; try done; try lia.
    intros r con u Hrc Hu Hs _ He. rewrite <- He in Hf. rewrite (Hmark r con u) in Hf; try done. lia.
  - destruct least as [q|]; [|by apply wp_ret].
    destruct (Hleast q eq_refl) as (lc & u & cl & Hq & Hcl & Hu & Hsame & Hlp & Hc & Hnb).
    apply wp_bind. eapply wp_get_con; [done|].
    destruct (i_con _ _ _ Hi q lc Hq) as [Hk _]. pose proof (proj1 (same_remote_key _ _ (co_addr _ Hk) Hr) Hsame) as Hkey.
    apply wp_bind, wp_assert; [apply Z.eqb_eq; by apply remote_key_type; [apply (co_addr _ Hk)|..]|].
    apply wp_bind. eapply server_wp_lift; [done|]. apply wp_bind, wp_assert; [apply Z.leb_le; lia|].
    apply wp_bind, wp_assert; [apply Z.ltb_lt; lia|].
    apply wp_bind. eapply wp_flow_is_busy; [done|apply (cw_freeing _ _ _ _ _ (i_client _ _ _ Hi _ cl Hc))|].
    rewrite bool_decide_false by done. apply wp_bind, wp_assert; [done|].
    apply wp_bind. eapply wp_mono; [by apply (wp_connection_close e)|]. intros [] o' es' ->.
    pose proof (inv_after_close _ _ _ _ _ _ Hi Hq Hcl Hc) as Hi'.
    destruct (after_close_shrinks _ _ _ _ _ _ Hi Hq Hcl Hc) as (Hsh & Hgone & _).
    apply wp_bind. eapply wp_mono; [by apply wp_try_bind|]. intros ok o' es'' ->. apply wp_ret.
    split; [done|]. split; [done|]. destruct ok; [|split_and!; try lia; intros r con v ??? ?; lia].
    split_and!; try lia. intros r con v Hrc Hv Hs _ He.
    destruct (proj1 Hsh r con Hrc) as (con0 & Hr0 & _ & _ & Hca & _ & Hudp). destruct (Hudp v Hv) as (v0 & Hv0 & Hpe).
    assert (r = q) as ->; [|by eapply (Hgone con v)].
    destruct (i_con _ _ _ Hi r con0 Hr0) as [Hk0 _].
    eapply (i_port _ _ _ Hi r q con0 lc v0 u); try done; [|lia..].
    apply same_remote_key; [apply (co_addr _ Hk0)|apply (co_addr _ Hk)|]. rewrite Hkey, <- Hca. apply same_remote_key; [rewrite Hca; apply (co_addr _ Hk0)|done|done].
Qed.

(** ** New connections *)

Lemma wp_find_connection e f o c cl cid :
  inv e f o → clients o !! c = Some cl →
  wp (find_connection c cid) o (λ r o' es, o' = o ∧ es = [] ∧
    match r with
    | Some p => ∃ con, conns o !! p = Some con ∧ con_client con = c ∧ closing con = false ∧ conid con = cid
    | None => ∀ p con, conns o !! p = Some con → con_client con = c → closing con = false → conid con ≠ cid
    end).
Proof.
  intros Hi Hc. pose proof (i_client _ _ _ Hi c cl Hc) as Hw. unfold find_connection. apply wp_bind, wp_get, wp_bind.
  eapply wp_get_client; [done|]. destruct (List.find _ _) as [p|] eqn:Hf.
  - apply find_some in Hf as [Hin Hk]. apply list_elem_of_In in Hin. rewrite (cw_tree _ _ _ _ _ Hw) in Hin.
    apply (cw_open _ _ _ _ _ Hw) in Hin as (con & Hp & Hcc & Hcl). rewrite Hp in Hk.
    apply Z.eqb_eq in Hk. unfold uint16_comparator in Hk. rewrite compare_zero in Hk.
    apply wp_bind. eapply wp_get_con; [done|]. apply wp_bind, wp_assert; [by apply Z.eqb_eq|].
    apply wp_bind, wp_assert; [by rewrite Hcl|]. apply wp_ret. split_and!; try done. by exists con.
  - apply wp_ret. split_and!; try done. intros p con Hp Hcc Hcl He.
    assert (Hin : p ∈ connections_tree cl) by (rewrite (cw_tree _ _ _ _ _ Hw); apply (cw_open _ _ _ _ _ Hw); eauto).
    apply list_elem_of_In, (find_none _ _ Hf) in Hin. rewrite Hp in Hin. apply Z.eqb_neq in Hin. apply Hin.
    unfold uint16_comparator. rewrite compare_zero. done.
Qed.

(** The flow of a connection that is being made. *)
Definition only (c p : Z) : Z → list Z := λ c', if bool_decide (c' = c) then [p] else [].

Lemma only_same c p : only c p c = [p].
Proof. unfold only. by rewrite bool_decide_true. Qed.

Lemma only_other c p c' : c' ≠ c → only c p c' = [].
Proof. intros. unfold only. by rewrite bool_decide_false. Qed.

Lemma fresh_not_in o c cl e f p : client_wf (conns o) c cl e f → conns o !! p = None →
  (p ∉ connections_list cl) ∧ (p ∉ closing_connections_list cl).
Proof.
  intros Hw Hp. split; intros Hin; [apply (cw_open _ _ _ _ _ Hw) in Hin|apply (cw_shut _ _ _ _ _ Hw) in Hin];
    destruct Hin as (? & ? & _); congruence.
Qed.

Lemma wp_flow_init o c cl p :
  inv0 o → clients o !! c = Some cl → conns o !! p = None →
  wp (flow_init c p) o (λ _ o' es, es = [] ∧ inv (only c p) (λ _, false) o' ∧ conns o' = conns o ∧ shrinks o o' ∧
    ∃ cl', clients o' !! c = Some cl' ∧ num_connections cl' = num_connections cl).
Proof.
  intros Hi Hc Hp. pose proof (i_client _ _ _ Hi c cl Hc) as Hw. destruct (fresh_not_in _ _ _ _ _ _ Hw Hp) as [N1 N2].
  unfold flow_init. apply wp_bind. eapply wp_get_client; [done|]. apply wp_bind, wp_assert; [by rewrite (cw_freeing _ _ _ _ _ Hw)|].
  apply wp_modify. split; [done|]. split_and!.
  - apply (inv_set_client (λ _, []) (λ _, false) _ _ o c cl); try done; [intros c' Hne; by rewrite only_other|].
    destruct Hw. rewrite only_same. split; try done; cbn.
    + rewrite app_nil_r in cw_nodup0. rewrite app_assoc. apply NoDup_app. split; [done|]. split; [|apply NoDup_singleton].
      intros x Hx ->%list_elem_of_singleton. apply elem_of_app in Hx. tauto.
    + rewrite cw_flows0, !app_nil_r, <- app_assoc. done.
  - done.
  - split_and!; try done; [apply (proj1 (shrinks_refl o))|]. intros c' k Hk. cbn. destruct (decide (c' = c)) as [->|Hne].
    + rewrite lookup_insert_eq. eexists; split; [done|]. cbn. assert (k = cl) as -> by congruence. done.
    + rewrite lookup_insert_ne by done. exists k. by split_and!.
  - cbn. rewrite lookup_insert_eq. eauto.
Qed.

Lemma wp_flow_free o c p :
  inv (only c p) (λ _, false) o → is_Some (clients o !! c) → conns o !! p = None →
  wp (flow_free c p) o (λ _ o' es, es = [] ∧ inv0 o').
Proof.
  intros Hi [cl Hc] Hp. pose proof (i_client _ _ _ Hi c cl Hc) as Hw. destruct (fresh_not_in _ _ _ _ _ _ Hw Hp) as [N1 N2].
  rewrite only_same in Hw.
  assert (Hs : sending_flow (send_queue cl) ≠ Some p).
  { intros Hs. apply (cw_sending _ _ _ _ _ Hw), elem_of_app in Hs. tauto. }
  unfold flow_free. apply wp_bind. eapply wp_get_client; [done|].
  apply wp_bind, wp_assert; [rewrite bool_decide_true by done; apply orb_true_r|]. apply wp_modify. split; [done|].
  apply (inv_set_client (only c p) (λ _, false) _ _ o c cl); try done; [intros c' Hne; by rewrite only_other|].
  destruct Hw. split; try done; cbn; rewrite ?bool_decide_false by done; try done.
  - rewrite app_nil_r. rewrite app_assoc in cw_nodup0. by apply NoDup_app in cw_nodup0 as [? _].
  - rewrite (remove_Permutation p _ _ cw_flows0), !remove_app, (remove_id p (connections_list cl)), (remove_id p (closing_connections_list cl)) by done.
    cbn. rewrite Z.eqb_refl. done.
Qed.

Lemma inv_new o c cl p con u :
  inv (only c p) (λ _, false) o → clients o !! c = Some cl → conns o !! p = None →
  con_wf con → con_client con = c → closing con = false → udp con = Some u →
  num_connections cl < max_connections_for_client cfg →
  (∀ q k, conns o !! q = Some k → con_client k = c → closing k = false → conid k ≠ conid con) →
  port_free o (con_addr con) (local_port_index u) →
  first_data con + first_data_len con ≤ zlen (packet cl) →
  inv0 (mk (<[c := with_lists (p :: connections_tree cl) (connections_list cl ++ [p]) (num_connections cl + 1)
                     (closing_connections_list cl) cl]> (clients o))
           (<[p := con]> (conns o)) (clients_list o) (num_clients o) (dns_addr o) (last_dns_update_time o)).
Proof.
  intros Hi Hc Hp Hk Hcc Hcl Hu Hlt Hid Hpf Hfirst. pose proof (i_client _ _ _ Hi c cl Hc) as Hw.
  destruct (fresh_not_in _ _ _ _ _ _ Hw Hp) as [N1 N2].
  rewrite only_same in Hw.
  assert (Hmem : ∀ q k, <[p:=con]> (conns o) !! q = Some k ↔ (q = p ∧ k = con) ∨ (q ≠ p ∧ conns o !! q = Some k))
    by (intros; rewrite lookup_insert_Some; naive_solver).
  apply (inv_client (only c p) (λ _, false) (λ _, []) (λ _, false) o (<[p := con]> (conns o)) c); try done.
  - intros c' Hne. by rewrite only_other.
  - destruct Hw. split; cbn; try done.
    + rewrite length_app. cbn. lia.
    + lia.
    + rewrite app_nil_r, <- app_assoc, (Permutation_app_comm [p]). exact cw_nodup0.
    + by rewrite cw_tree0, Permutation_cons_append.
    + rewrite app_nil_r, <- app_assoc, cw_flows0. apply Permutation_app_head. apply Permutation_app_comm.
    + intros q Hq. rewrite !elem_of_app. apply cw_sending0, elem_of_app in Hq. tauto.
    + intros q. rewrite elem_of_app, list_elem_of_singleton, cw_open0. split.
      * intros [(k & Hq & ? & ?)| ->]; [|exists con; rewrite Hmem; auto]. exists k. rewrite Hmem. split; [|done]. right. split; [congruence|done].
      * intros (k & [[-> ->]|[Hne Hq]]%Hmem & ? & ?); [by right|left; eauto].
    + intros q. rewrite cw_shut0. split.
      * intros (k & Hq & ? & ?). exists k. rewrite Hmem. split; [|done]. right. split; [congruence|done].
      * intros (k & [[-> ->]|[Hne Hq]]%Hmem & ? & ?); [congruence|eauto].
    + intros q k [[-> ->]|[Hne Hq]]%Hmem Hkc Hj; [done|]. by apply (cw_first0 q k).
  - intros q k Hne. rewrite Hmem. split; [intros [[-> ->]|[_ ?]]; [congruence|done]|]. intros Hq. right. split; [congruence|done].
  - intros q k [[-> ->]|[_ Hq]]%Hmem _; [done|]. by apply (i_con _ _ _ Hi q).
  - intros q r a b [[-> ->]|[? Hq]]%Hmem [[-> ->]|[? Hr]]%Hmem Ha Hb Hab Hi'; try done.
    + exfalso. by apply (Hid r b Hr); [congruence..|].
    + exfalso. by apply (Hid q a Hq); [congruence..|].
    + by apply (i_conid _ _ _ Hi q r a b).
  - intros q r a b v w [[-> ->]|[? Hq]]%Hmem [[-> ->]|[? Hr]]%Hmem Hv Hw' Hs Hpos He; try done.
    + exfalso. assert (v = u) as -> by congruence. destruct (i_con _ _ _ Hi r b Hr) as [Hb _].
      apply (Hpf r b w); try done. apply same_remote_key; [apply Hb|apply Hk|]. symmetry. by apply same_remote_key; [apply Hk|apply Hb|].
    + exfalso. assert (w = u) as -> by congruence. apply (Hpf q a v); try done. lia.
    + by apply (i_port _ _ _ Hi q r a b v w).
Qed.

Lemma tame_fresh cs cs' p : tame cs cs' → cs !! p = None → cs' !! p = None.
Proof. intros Ht Hp. destruct (cs' !! p) as [k|] eqn:E; [|done]. destruct (Ht p k E) as (? & ? & _). congruence. Qed.

Definition conid_free (o : t) (c cid : Z) : Prop := ∀ q k,
  conns o !! q = Some k → con_client k = c → closing k = false → conid k ≠ cid.

Lemma tame_conid_free o o' c cid : tame (conns o) (conns o') → conid_free o c cid → conid_free o' c cid.
Proof.
  intros Ht Hf q k Hq Hc Hcl He. destruct (Ht q k Hq) as (k0 & Hq0 & E1 & E2 & _ & E3 & _). apply (Hf q k0 Hq0); [congruence|auto|congruence].
Qed.

Lemma tree_insert_free e f o c cl p cid :
  inv e f o → clients o !! c = Some cl → conid_free o c cid →
  tree_insert o cid p (connections_tree cl) = (p :: connections_tree cl, true).
Proof.
  intros Hi Hc Hf. unfold tree_insert. destruct (existsb _ _) eqn:He; [|done]. exfalso.
  apply existsb_exists in He as (q & Hin & Hq). apply list_elem_of_In in Hin. pose proof (i_client _ _ _ Hi c cl Hc) as Hw.
  rewrite (cw_tree _ _ _ _ _ Hw) in Hin. apply (cw_open _ _ _ _ _ Hw) in Hin as (k & Hk & Hkc & Hkcl). rewrite Hk in Hq.
  apply Z.eqb_eq in Hq. unfold uint16_comparator in Hq. rewrite compare_zero in Hq. by apply (Hf q k).
Qed.

(** Everything a connection needs could be had. *)
Definition init_ok (a : init_answer) : bool :=
  bool_decide (is_Some (malloc a)) && ppflow_ok a && dgram_ok a && buffer_ok a && recv_buffer_ok a.

(** [p] is a new connection, the last of its client, about to send its first data. *)
Definition made (o : t) (c p cid : Z) (addr orig : BAddr) (off len : Z) (pk : list Z) : Prop :=
  ∃ con cl u, conns o !! p = Some con ∧ clients o !! c = Some cl ∧ con_client con = c ∧ conid con = cid ∧ closing con = false ∧
    con_addr con = addr ∧ orig_addr con = orig ∧ first_job con = true ∧ first_data con = off ∧ first_data_len con = len ∧
    udp con = Some u ∧ last (connections_list cl) = Some p ∧ packet cl = pk.

Lemma server_wp_connection_init o c cl cid addr orig off len a :
  config_wf → inv0 o → clients o !! c = Some cl → num_connections cl < max_connections_for_client cfg →
  conid_free o c cid → 0 ≤ cid < 65536 → ip_wf addr → ip_wf orig →
  0 ≤ off → 0 ≤ len ≤ udp_mtu cfg → off + len ≤ zlen (packet cl) →
  (∀ p, malloc a = Some p → conns o !! p = None) →
  wp (connection_init c cid addr orig off len a) o (λ _ o' _, inv0 o' ∧
    (init_ok a = true → ∃ p, malloc a = Some p ∧ made o' c p cid addr orig off len (packet cl))).
Proof.
  intros Hcf Hi Hc Hlt Hfree Hcid Haddr Horig Hoff Hlen Hpk Hfresh. unfold connection_init.
  apply wp_bind. eapply wp_get_client; [done|]. apply wp_bind, wp_assert; [by apply Z.ltb_lt|].
  apply wp_bind. eapply wp_mono; [by apply (wp_find_connection (λ _, []) (λ _, false) _ _ cl)|]. intros r ? ? (-> & -> & Hr).
  assert (r = None) as ->. { destruct r as [q|]; [|done]. destruct Hr as (k & ? & ? & ? & ?). by destruct (Hfree q k). }
  apply wp_bind, wp_assert; [done|]. apply wp_bind, wp_assert; [apply Haddr|]. apply wp_bind, wp_assert; [apply Horig|].
  apply wp_bind, wp_assert; [apply Z.leb_le; lia|]. apply wp_bind, wp_assert; [apply Z.leb_le; lia|].
  unfold init_ok. destruct (malloc a) as [p|] eqn:Hm; [|by apply wp_ret]. specialize (Hfresh p eq_refl).
  apply wp_bind. eapply wp_mono; [by apply (wp_flow_init _ _ cl)|]. intros [] o1 ? (-> & Hi1 & Hcs & Hsh1 & cl1 & Hc1 & Hn1).
  assert (Hp1 : conns o1 !! p = None) by congruence.
  destruct (ppflow_ok a); cbn [negb]; [|eapply wp_mono; [by apply wp_flow_free|naive_solver]].
  destruct (dgram_ok a); cbn [negb]; [|eapply wp_mono; [by apply wp_flow_free|naive_solver]].
  apply wp_bind, wp_emit, wp_bind. eapply wp_mono; [by apply (wp_bind_local (only c p))|].
  intros i o2 es (Hi2 & Hsh2 & Hlo & Hhi & Hpf). destruct Hsh2 as (Ht2 & _ & _ & Hcl2). destruct (Hcl2 c cl1 Hc1) as (cl2 & Hc2 & Hn2 & Hpk2).
  pose proof (tame_fresh _ _ p Ht2 Hp1) as Hp2. apply wp_bind, wp_emit.
  assert (Hpk1 : packet cl1 = packet cl). { destruct Hsh1 as (_ & _ & _ & Hx). destruct (Hx c cl Hc) as (k & Hk & _ & ?). congruence. }
  destruct (negb (buffer_ok a) || negb (recv_buffer_ok a)) eqn:Hbuf.
  { apply wp_bind, wp_emit. eapply wp_mono; [by apply wp_flow_free|]. intros [] o3 es3 [_ Hi3]. split; [done|].
    intros Hok. destruct (buffer_ok a), (recv_buffer_ok a); try done; by rewrite ?andb_false_r in Hok. }
  apply wp_bind, wp_get, wp_bind. eapply wp_get_client; [done|].
  assert (Hfree2 : conid_free o2 c cid) by (eapply tame_conid_free; [exact Ht2|unfold conid_free; by rewrite Hcs]).
  rewrite (tree_insert_free _ _ _ _ _ p _ Hi2 Hc2 Hfree2). apply wp_bind, wp_assert; [done|].
  apply wp_bind, wp_modify, wp_modify. set (con := mk_con _ _ _ _ _ _ _ _ _ _ _ _).
  split.
  - apply (inv_new o2 c cl2 p con (mk_udp i (BufferWriter.BufferWriter_Init (udp_mtu cfg)))); try done; [|lia|cbn; congruence || lia].
    split; cbn; try done; try lia.
    + intros _. split; [done|]. eexists; split; [done|]. cbn. split_and!; try done; lia.
  - intros _. exists p. split; [done|]. eexists con, _, _. cbn. rewrite !lookup_insert_eq. split_and!; try done; [apply last_snoc|cbn; congruence].
Qed.

(** ** Packets from clients *)

Lemma parse_address_spec flags data :
  match parse_address flags data with
  | Some (orig, n) => (n = 6 ∨ n = 18) ∧ n ≤ zlen data ∧ is_ip orig = true ∧ (bytes data → addr_wf orig)
  | None => True
  end.
Proof.
  assert (Hv : ∀ n l, bytes l → n ≤ zlen l → 0 ≤ n → 0 ≤ le_val (ztake n l) < 256 ^ n).
  { intros n l Hl Hn Hn0. pose proof (le_val_bound (ztake n l) (Forall_ztake _ _ _ Hl)) as Hlv. by rewrite zlen_ztake in Hlv by lia. }
  unfold parse_address, sizeof_udpgw_addr_ipv4, sizeof_udpgw_addr_ipv6.
  destruct (negb _).
  - destruct (Z.ltb_spec (zlen data) 18); [done|]. split_and!; [by right|done|done|]. intros Hb.
    split; [unfold ztake; rewrite !length_take; lia|]. split; [apply Forall_take; auto with zlist|].
    apply (Hv 2); [auto with zlist|rewrite zlen_zdrop; lia|lia].
  - destruct (Z.ltb_spec (zlen data) 6); [done|]. split_and!; [by left|done|done|]. intros Hb.
    split; [apply (Hv 4); [done|lia|lia]|apply (Hv 2); [auto with zlist|rewrite zlen_zdrop; lia|lia]].
Qed.

(** The server reads what the client of UdpGw reads. *)
Lemma parse_packet_split data f cid orig rest :
  UdpGwClient.parse_packet data = Some (f, cid, orig, rest) →
  3 ≤ zlen data ∧ f = ltoh8 (nth 0 data 0) ∧ cid = ltoh16 (le_val (ztake 2 (zdrop 1 data))) ∧
  ∃ n, parse_address f (zdrop 3 data) = Some (orig, n) ∧ rest = zdrop (3 + n) data ∧ 0 ≤ n.
Proof.
  unfold UdpGwClient.parse_packet, parse_address, sizeof_udpgw_header, sizeof_udpgw_addr_ipv4, sizeof_udpgw_addr_ipv6.
  destruct (Z.ltb_spec (zlen data) 3); [done|]. intros He. split; [lia|].
  destruct (negb _) eqn:Hn; [destruct (zlen (zdrop 3 data) <? 18) eqn:Hl|destruct (zlen (zdrop 3 data) <? 6) eqn:Hl]; try done;
    injection He as <- <- <- <-; (split; [done|]; split; [done|]); rewrite Hn, ?Hl; eexists; (split; [done|]); (split; [|lia]);
    unfold zdrop; rewrite drop_drop; f_equal; lia.
Qed.

(** A connection exists that a packet may use: it has this conid and original
    address, and the packet does not rebind it. *)
Lemma wp_reusable o c cl cid flags orig :
  inv0 o → clients o !! c = Some cl → ip_wf orig →
  wp (reusable_connection c cid flags orig) o (λ r o' es, inv0 o' ∧ shrinks o o' ∧
    match r with
    | Some p => o' = o ∧ es = [] ∧ Z.land flags UDPGW_CLIENT_FLAG_REBIND = 0 ∧ ∃ con, conns o !! p = Some con ∧ con_client con = c ∧ closing con = false ∧ conid con = cid ∧ orig_addr con = orig
    | None => conid_free o' c cid
    end).
Proof.
  intros Hi Hc Ho. unfold reusable_connection. apply wp_bind.
  eapply wp_mono; [by apply (wp_find_connection (λ _, []) (λ _, false) _ _ cl)|]. intros r ? ? (-> & -> & Hr).
  destruct r as [p|]; [|apply wp_ret; split_and!; [done|apply shrinks_refl|exact Hr]].
  destruct Hr as (con & Hp & Hcc & Hcl & Hid). apply wp_bind. eapply wp_get_con; [done|].
  apply wp_bind, wp_assert; [by rewrite Hcl|]. rewrite <- Hcc in Hc.
  assert (Hclose : wp (connection_close p;; mret None : IO (option Z)) o (λ r o' es, inv0 o' ∧ shrinks o o' ∧
    match r with
    | Some p => o' = o ∧ es = [] ∧ Z.land flags UDPGW_CLIENT_FLAG_REBIND = 0 ∧ ∃ con, conns o !! p = Some con ∧ con_client con = c ∧ closing con = false ∧ conid con = cid ∧ orig_addr con = orig
    | None => conid_free o' c cid
    end)).
  { apply wp_bind. eapply wp_mono; [by apply (wp_connection_close (λ _, []))|]. intros [] ? ? ->. apply wp_ret.
    destruct (after_close_shrinks _ _ _ _ _ _ Hi Hp Hcl Hc) as (Hsh & Hgone & _).
    pose proof (inv_after_close _ _ _ _ _ _ Hi Hp Hcl Hc) as Hi'. split_and!; try done.
    intros q k Hq Hkc Hkcl He. destruct (proj1 Hsh q k Hq) as (k0 & Hq0 & E1 & E2 & _ & E3 & _).
    assert (q = p) as -> by (eapply (i_conid _ _ _ Hi q p k0 con); try done; [auto|congruence..]).
    destruct (i_con _ _ _ Hi' p k Hq) as [Hkw _]. destruct (co_open _ Hkw Hkcl) as (_ & u & Hu & _). by eapply Hgone. }
  cbn [app]. destruct (Z.eqb_spec (Z.land flags UDPGW_CLIENT_FLAG_REBIND) 0) as [Hre|Hre]; cbn [negb orb]; [|exact Hclose].
  destruct (BAddr_Compare (orig_addr con) orig) eqn:Hcmp; cbn [negb]; [|exact Hclose].
  apply wp_ret. split_and!; try done; [apply shrinks_refl|]. exists con. split_and!; try done.
  destruct (i_con _ _ _ Hi p con Hp) as [Hk _]. destruct (co_orig _ Hk) as [_ Hip1], Ho as [_ Hip2].
  destruct (orig_addr con) as [|ip1 p1|ip1 p1|]; try (vm_compute in Hip1; done); destruct orig as [|ip2 p2|ip2 p2|]; try (vm_compute in Hip2; done);
    cbn in Hcmp; try done; bool_props; [|repeat case_bool_decide; try done]; f_equal; try done; lia.
Qed.

Lemma inv_dns e f o (dns : BAddr) tm :
  inv e f o → addr_wf dns → BAddr_type dns = BADDR_TYPE_NONE ∨ is_ip dns = true →
  inv e f (mk (clients o) (conns o) (clients_list o) (num_clients o) dns tm).
Proof. intros [] Hw Ht. by split. Qed.

Lemma wp_remote_address o flags orig nw ns :
  inv0 o → ip_wf orig → (∀ ip, ns = Some ip → 0 ≤ ip < 2 ^ 32) →
  wp (remote_address flags orig nw ns) o (λ a o' es, es = [] ∧ inv0 o' ∧ clients o' = clients o ∧ conns o' = conns o ∧ ip_wf a ∧
    (Z.land flags UDPGW_CLIENT_FLAG_DNS = 0 → a = orig)).
Proof.
  intros Hi Ho Hns. unfold remote_address. destruct (Z.eqb_spec (Z.land flags UDPGW_CLIENT_FLAG_DNS) 0) as [Hf|Hf]; cbn [negb]; [by apply wp_ret|].
  apply wp_bind. eapply (wp_mono _ _ (λ _ o1 es, es = [] ∧ inv0 o1 ∧ clients o1 = clients o ∧ conns o1 = conns o)).
  { unfold maybe_update_dns. apply wp_bind, wp_get. destruct (nw <? _); [by apply wp_ret|]. apply wp_put. split_and!; try done.
    apply inv_dns; [done|..]; destruct ns as [ip|]; cbn; auto. split; [auto|apply hton16_bound]. }
  intros [] o1 es (-> & Hi1 & Hcl & Hcs). apply wp_bind, wp_get, wp_ret. split_and!; try done.
  destruct (i_dns _ _ _ Hi1) as [Hw [Ht|Ht]]; destruct (Z.eqb_spec (BAddr_type (dns_addr o1)) BADDR_TYPE_NONE) as [He|He]; try done.
Qed.

Lemma with_packet_wf cs c cl e f d :
  client_wf cs c cl e f → (∀ p con, cs !! p = Some con → con_client con = c → first_job con = false) →
  client_wf cs c (with_packet d cl) e f.
Proof. intros [] Hj. split; try done. cbn. intros p con Hp Hc Hf. rewrite (Hj p con Hp Hc) in Hf. done. Qed.

Lemma with_timer_wf cs c cl e f tm : client_wf cs c cl e f → client_wf cs c (with_timer (Some tm) cl) e f.
Proof. intros []. by split. Qed.

Lemma no_first_jobs o c cl :
  inv0 o → clients o !! c = Some cl →
  forallb (λ p, match conns o !! p with Some con => negb (first_job con) | None => false end) (connections_list cl) = true →
  ∀ p con, conns o !! p = Some con → con_client con = c → first_job con = false.
Proof.
  intros Hi Hc Hall p con Hp Hcc. destruct (i_con _ _ _ Hi p con Hp) as [Hk _].
  destruct (closing con) eqn:Hcl; [by apply (co_closing _ Hk)|].
  assert (Hin : p ∈ connections_list cl) by (apply (cw_open _ _ _ _ _ (i_client _ _ _ Hi c cl Hc)); eauto).
  rewrite forallb_forall in Hall. apply list_elem_of_In, Hall in Hin. rewrite Hp in Hin. by destruct (first_job con).
Qed.

(** A packet of a client that is not a keepalive was taken: its connection is
    open, the last of its client, and either holds the data for its first job or, if it
    was there before, has sent it, unless its UDP writer had no room. *)
Definition taken (o o' : t) (c f cid : Z) (orig : BAddr) (rest : list Z) (es : list event) : Prop :=
  ∃ p con cl, conns o' !! p = Some con ∧ clients o' !! c = Some cl ∧ con_client con = c ∧ closing con = false ∧
    conid con = cid ∧ orig_addr con = orig ∧ last (connections_list cl) = Some p ∧
    (first_job con = true ∧ read_packet (first_data con) (first_data_len con) (packet cl) = Some rest ∧
       (Z.land f UDPGW_CLIENT_FLAG_DNS = 0 → con_addr con = orig)
     ∨ ∃ old u, conns o !! p = Some old ∧ keeps old con ∧ udp old = Some u ∧
         es = RecvDone c :: if bool_decide (is_Some (BufferWriter.out (udp_send_writer u))) then [UdpOutput p rest] else []).

(** A connection with the conid and address, as far as it can be had. *)
Lemma wp_client_data o c cl data flags cid orig n a ns :
  config_wf → inv0 o → clients o !! c = Some cl → packet cl = data → 3 ≤ zlen data → n = 6 ∨ n = 18 → n ≤ zlen data - 3 →
  ip_wf orig → 0 ≤ cid < 65536 → zlen data - (3 + n) ≤ udp_mtu cfg →
  (∀ ip, ns = Some ip → 0 ≤ ip < 2 ^ 32) → (∀ p, malloc a = Some p → conns o !! p = None) →
  wp (con ← reusable_connection c cid flags orig;
      match con with
      | Some p => _ ← connection_send_to_udp p (zdrop (3 + n) data) (now a); mret tt
      | None =>
          cl ← get_client c;
          (if num_connections cl =? max_connections_for_client cfg
           then p ← mlift (head (connections_list cl)); connection_close p else mret tt);;
          addr ← remote_address flags orig (now a) ns;
          connection_init c cid addr orig (3 + n) (zlen data - (3 + n)) a
      end) o (λ _ o' es, inv0 o' ∧ (init_ok a = true → taken o o' c flags cid orig (zdrop (3 + n) data) (RecvDone c :: es))).
Proof.
  intros Hcf Hi Hc Hpk H3 Hn Hnz Ho Hcid Hz Hns Hfresh.
  apply wp_bind. eapply wp_mono; [by apply (wp_reusable o c cl)|]. intros r o1 es1 (Hi1 & (Ht1 & _ & _ & Hcl1) & Hr).
  destruct r as [p|].
  - destruct Hr as (-> & -> & Hre & con & Hp & Hcc & Hcl & Hid & Horig). destruct (i_con _ _ _ Hi p con Hp) as [Hk _].
    destruct (co_open _ Hk Hcl) as (_ & u & Hu & _). rewrite <- Hcc in Hc.
    apply wp_bind. eapply wp_mono; [apply (wp_send_to_udp (λ _, []) (λ _, false) o p con u cl); try done|].
    { rewrite zlen_zdrop; lia. }
    intros b o' es ((con' & Hused & Hs & Hj) & ->). apply wp_ret. cbn [app]. rewrite app_nil_r.
    split; [by eapply (inv_used _ _ o o' p con con' cl)|]. intros _. pose proof Hused as (Hkeep & _ & Ho').
    exists p, con', (moved p cl). rewrite Ho'. cbn. rewrite <- Hcc, !lookup_insert_eq. destruct Hkeep.
    split_and!; try done; try congruence; [apply last_snoc|]. right. exists con, u. split_and!; try done.
  - destruct (Hcl1 c cl Hc) as (cl1 & Hc1 & Hnum1 & Hpk1).
    assert (Hfresh1 : ∀ p, malloc a = Some p → conns o1 !! p = None) by (intros p Hp; by eapply tame_fresh, Hfresh).
    apply wp_bind. eapply wp_get_client; [done|]. apply wp_bind.
    pose proof (i_client _ _ _ Hi1 c cl1 Hc1) as Hw1. pose proof (cw_le _ _ _ _ _ Hw1) as Hle1. pose proof (cf_connections Hcf) as Hmax.
    eapply (wp_mono _ _ (λ _ o2 _, inv0 o2 ∧ conid_free o2 c cid ∧ (∀ p, malloc a = Some p → conns o2 !! p = None) ∧
      ∃ cl2, clients o2 !! c = Some cl2 ∧ packet cl2 = data ∧ num_connections cl2 < max_connections_for_client cfg)).
    { destruct (Z.eqb_spec (num_connections cl1) (max_connections_for_client cfg)) as [Hfull|Hnf].
      - pose proof (cw_num _ _ _ _ _ Hw1) as Hnum. destruct (connections_list cl1) as [|q l] eqn:Hl; [cbn in Hnum; lia|].
        assert (Hin : q ∈ connections_list cl1) by (rewrite Hl; by left).
        apply (cw_open _ _ _ _ _ Hw1) in Hin as (k & Hq & Hkc & Hkcl). apply wp_bind. eapply server_wp_lift; [done|]. rewrite <- Hkc in Hc1.
        eapply wp_mono; [by apply (wp_connection_close (λ _, []))|]. intros [] ? ? ->.
        destruct (after_close_shrinks _ _ _ _ _ _ Hi1 Hq Hkcl Hc1) as ((Ht & _ & _ & Hpk2) & _ & cl2 & Hc2 & Hn2).
        destruct (Hpk2 _ _ Hc1) as (cl2' & Hc2' & _ & Hpk2'). assert (cl2' = cl2) as -> by congruence.
        split; [by eapply inv_after_close|]. split_and!; [by eapply tame_conid_free|intros p Hp; by eapply tame_fresh, Hfresh1|].
        exists cl2. rewrite <- Hkc. split_and!; [done|congruence|lia].
      - apply wp_ret. split_and!; try done. exists cl1. split_and!; [done|congruence|lia]. }
    intros [] o2 es2 (Hi2 & Hfree2 & Hfresh2 & cl2 & Hc2 & Hpk2 & Hlt2).
    apply wp_bind. eapply wp_mono; [by apply wp_remote_address|]. intros addr o3 es3 (-> & Hi3 & Hcs3 & Hco3 & Haddr & Hdns).
    eapply wp_mono; [apply (server_wp_connection_init o3 c cl2); try done; try lia; [congruence|unfold conid_free; by rewrite Hco3|rewrite Hpk2; lia|by rewrite Hco3]|].
    intros [] o' es (Hi' & Hok). split; [done|]. intros Ha. destruct (Hok Ha) as (p & _ & con & cl' & u & Hp & Hc' & E1 & E2 & E3 & E4 & E5 & E6 & E7 & E8 & E9 & E10 & E11).
    exists p, con, cl'. split_and!; try done. left. split_and!; [done| |by rewrite E4].
    rewrite E7, E8, E11, Hpk2. unfold read_packet. rewrite (proj2 (Z.leb_le _ _)) by lia. f_equal. unfold ztake, zdrop. apply take_ge. rewrite length_drop. lia.
Qed.

(** ** Clients *)

Definition lists (shut : bool) (cl : client) : list Z := if shut then closing_connections_list cl else connections_list cl.

Lemma without_lists p shut cl :
  lists shut (without p shut cl) = remove_node p (lists shut cl) ∧ lists (negb shut) (without p shut cl) = lists (negb shut) cl.
Proof. by destruct shut. Qed.

Lemma server_wp_free_connections fz c shut : fz c = true → ∀ n o cl,
  inv (λ _, []) fz o → clients o !! c = Some cl → length (lists shut cl) = n →
  wp (free_connections n c (lists shut)) o (λ _ o' _, inv (λ _, []) fz o' ∧ clients_list o' = clients_list o ∧ ∃ cl', clients o' !! c = Some cl' ∧
    lists shut cl' = [] ∧ lists (negb shut) cl' = lists (negb shut) cl).
Proof.
  intros Hfz n. induction n as [|n IH]; intros o cl Hi Hc Hl; cbn [free_connections].
  { apply wp_ret. split; [done|]. split; [done|]. exists cl. split_and!; try done. by apply nil_length_inv. }
  pose proof (i_client _ _ _ Hi c cl Hc) as Hw.
  apply wp_bind. eapply wp_get_client; [done|]. destruct (lists shut cl) as [|p l] eqn:Hls; [done|].
  assert (Hin : p ∈ lists shut cl) by (rewrite Hls; by left).
  assert (Hx : ∃ con, conns o !! p = Some con ∧ con_client con = c ∧ closing con = shut)
    by (destruct shut; [by apply (cw_shut _ _ _ _ _ Hw)|by apply (cw_open _ _ _ _ _ Hw)]).
  destruct Hx as (con & Hp & Hcc & Hcl). destruct (i_con _ _ _ Hi p con Hp) as [Hk _].
  apply wp_bind. eapply wp_mono; [apply (wp_connection_free p con cl); try done|].
  { by rewrite Hcc. }
  { left. by rewrite (cw_freeing _ _ _ _ _ Hw). }
  { intros Hop. destruct (co_open _ Hk Hop) as (_ & u & Hu & _). eauto. }
  intros [] o1 es ->.
  assert (Hi1 : inv (λ _, []) fz (freed p (con_client con) (closing con) cl o)) by (apply inv_freed; [done|done|by rewrite Hcc]).
  rewrite Hcc, Hcl in *. destruct (without_lists p shut cl) as [L1 L2].
  assert (Hn : NoDup (lists shut cl)).
  { pose proof (cw_nodup _ _ _ _ _ Hw) as Hnd. rewrite app_nil_r in Hnd. apply NoDup_app in Hnd as (N1 & _ & N2). by destruct shut. }
  eapply wp_mono; [apply (IH _ (without p shut cl) Hi1)|].
  - cbn. apply lookup_insert_eq.
  - rewrite L1. pose proof (zlen_remove p _ Hn Hin) as Hz. rewrite Hls in Hz |- *. cbn [length] in Hz, Hl. lia.
  - intros [] o2 es2 (Hi2 & Hcl2 & cl2 & Hc2 & H1 & H2). split; [done|]. split; [done|]. exists cl2. split_and!; try done. congruence.
Qed.

Lemma inv_remove_client o c cl :
  inv (λ _, []) (λ c', bool_decide (c' = c)) o → clients o !! c = Some cl → connections_list cl = [] → closing_connections_list cl = [] →
  inv0 (mk (delete c (clients o)) (conns o) (remove_node c (clients_list o)) (num_clients o - 1) (dns_addr o) (last_dns_update_time o)).
Proof.
  intros Hi Hc H1 H2. pose proof (i_client _ _ _ Hi c cl Hc) as Hw.
  assert (Hin : c ∈ clients_list o) by (apply (i_dom _ _ _ Hi); eauto).
  assert (Hnone : ∀ p con, conns o !! p = Some con → con_client con ≠ c).
  { intros p con Hp Hcc. destruct (closing con) eqn:Hcl.
    - assert (Hx : p ∈ closing_connections_list cl) by (apply (cw_shut _ _ _ _ _ Hw); eauto). rewrite H2 in Hx. by apply elem_of_nil in Hx.
    - assert (Hx : p ∈ connections_list cl) by (apply (cw_open _ _ _ _ _ Hw); eauto). rewrite H1 in Hx. by apply elem_of_nil in Hx. }
  destruct Hi. split; cbn; try done.
  - rewrite zlen_remove by done. lia.
  - lia.
  - by apply NoDup_remove.
  - intros c'. rewrite elem_of_remove, i_dom0, lookup_delete_is_Some. naive_solver.
  - intros c' k [Hne Hk]%lookup_delete_Some. specialize (i_client0 c' k Hk). by rewrite bool_decide_false in i_client0.
  - intros p con Hp. destruct (i_con0 p con Hp) as [? ?]. split; [done|]. apply lookup_delete_is_Some. split; [|done]. symmetry. by apply (Hnone p).
Qed.

(** [client_free], with the timer of the client running or not. *)
Lemma wp_client_free_timer o c cl tm :
  inv0 o → clients o !! c = Some cl →
  wp (client_free c) (set_clients (<[c := with_timer tm cl]> (clients o)) o)
    (λ _ o' _, inv0 o' ∧ clients_list o' = remove_node c (clients_list o)).
Proof.
  intros Hi Hc. pose proof (i_client _ _ _ Hi c cl Hc) as Hw. set (fz := λ c', bool_decide (c' = c)).
  assert (Hfz : fz c = true) by (by apply bool_decide_eq_true).
  unfold client_free. apply wp_bind. eapply wp_on_client; [apply lookup_insert_eq|].
  set (cl1 := with_queue _ (with_timer tm cl)). set (o1 := set_clients _ (set_clients _ _)).
  assert (Hi1 : inv (λ _, []) fz o1).
  { unfold o1, set_clients. cbn. rewrite insert_insert_eq.
    apply (inv_set_client (λ _, []) (λ _, false) (λ _, []) fz o c cl cl1); try done.
    - intros c' Hne. split; [done|]. unfold fz. by rewrite bool_decide_false.
    - rewrite Hfz. destruct Hw. by split. }
  assert (Hc1 : clients o1 !! c = Some cl1) by (cbn; apply lookup_insert_eq).
  apply wp_bind. eapply wp_get_client; [done|]. apply wp_bind.
  eapply wp_mono; [by apply (server_wp_free_connections fz c false Hfz _ o1 cl1)|]. intros [] o2 es2 (Hi2 & Hl2 & cl2 & Hc2 & He2 & Hr2).
  apply wp_bind. cbn in He2, Hr2.
  eapply wp_mono; [apply (server_wp_free_connections fz c true Hfz _ o2 cl2 Hi2 Hc2); cbn; by rewrite Hr2|].
  intros [] o3 es3 (Hi3 & Hl3 & cl3 & Hc3 & He3 & Hr3). cbn in He3, Hr3. rewrite He2 in Hr3.
  pose proof (i_client _ _ _ Hi3 c cl3 Hc3) as Hw3.
  apply wp_bind, wp_modify, wp_bind. eapply wp_get_client; [done|].
  apply wp_bind, wp_assert.
  { apply bool_decide_eq_true. pose proof (cw_flows _ _ _ _ _ Hw3) as Hf. rewrite He3, Hr3 in Hf. by apply Permutation_nil_r in Hf. }
  apply wp_bind, wp_assert.
  { apply bool_decide_eq_true. destruct (sending_flow (send_queue cl3)) as [q|] eqn:E; [|done].
    apply (cw_sending _ _ _ _ _ Hw3) in E. rewrite He3, Hr3 in E. by apply elem_of_nil in E. }
  apply wp_bind, wp_modify, wp_emit. split; [by apply (inv_remove_client o3 c cl3)|]. cbn. by rewrite Hl3, Hl2.
Qed.

Lemma wp_client_free o c :
  inv0 o → is_Some (clients o !! c) →
  wp (client_free c) o (λ _ o' _, inv0 o' ∧ clients_list o' = remove_node c (clients_list o)).
Proof.
  intros Hi [cl Hc]. pose proof (wp_client_free_timer o c cl (disconnect_timer cl) Hi Hc) as Hf.
  replace (set_clients _ o) with o in Hf; [exact Hf|]. unfold set_clients. rewrite insert_id by (rewrite Hc; by destruct cl). by destruct o.
Qed.

Lemma mtu_bounds : config_wf → 21 ≤ udpgw_mtu cfg.
Proof.
  intros Hcf. destruct (cf_mtu Hcf) as [Hm He]. revert He. unfold compute_mtus. set (m := udpgw_compute_mtu (udp_mtu cfg)).
  intros [= <- _].
  assert (Hc : m < 0 ∨ m = 21 + udp_mtu cfg).
  { destruct (Z.le_gt_cases 0 m); [right; apply udpgw_compute_mtu_eq; lia|by left]. }
  unfold PACKETPROTO_MAXPAYLOAD, UINT16_MAX. destruct (Z.ltb_spec m 0), (Z.ltb_spec 65535 m); cbn; lia.
Qed.

Lemma wp_listener o a :
  config_wf → inv0 o → (∀ c, client_malloc a = Some c → clients o !! c = None) →
  wp (listener_handler a) o (λ _ o' _, inv0 o').
Proof.
  intros Hcf Hi Hfresh. unfold listener_handler. apply wp_bind, wp_get.
  destruct (Z.eqb_spec (num_clients o) (max_clients cfg)) as [|Hnf]; [by apply wp_ret|].
  destruct (client_malloc a) as [c|]; [|by apply wp_ret]. destruct (accepted a) as [from|]; [|by apply wp_ret].
  specialize (Hfresh c eq_refl). apply wp_bind, wp_emit. destruct (negb _ || _); [by apply wp_emit|].
  apply wp_bind, wp_modify, wp_modify. destruct Hi.
  assert (Hnone : ∀ p con, conns o !! p = Some con → con_client con ≠ c).
  { intros p con Hp Hcc. destruct (i_con0 p con Hp) as [_ [k Hk]]. congruence. }
  assert (Hnl : c ∉ clients_list o) by (rewrite i_dom0, Hfresh; by intros [? ?]).
  split; cbn; try done.
  - rewrite length_app. cbn. lia.
  - lia.
  - apply NoDup_app. split; [done|]. split; [|apply NoDup_singleton]. intros x Hx ->%list_elem_of_singleton. done.
  - intros c'. rewrite elem_of_app, list_elem_of_singleton, i_dom0, lookup_insert_is_Some. destruct (decide (c = c')) as [->|]; naive_solver.
  - intros c' k. rewrite lookup_insert_Some. intros [[<- <-]|[Hne Hk]]; [|by apply i_client0].
    pose proof (cf_connections Hcf). split; cbn; try done; try lia; try (by constructor); try (intros p Hp; by apply elem_of_nil in Hp).
    + intros p. rewrite elem_of_nil. split; [done|]. intros (con & Hp & Hcc & _). by apply (Hnone p con).
    + intros p. rewrite elem_of_nil. split; [done|]. intros (con & Hp & Hcc & _). by apply (Hnone p con).
    + intros p con Hp Hcc. by destruct (Hnone p con).
  - intros p con Hp. destruct (i_con0 p con Hp) as [? ?]. split; [done|]. apply lookup_insert_is_Some. right. split; [|done]. symmetry. by apply (Hnone p).
Qed.

Lemma bytes_of (data : list Z) : forallb (λ b, (0 <=? b) && (b <? 256)) data = true → bytes data.
Proof. rewrite forallb_forall. intros Hb. apply Forall_forall. intros x Hx%list_elem_of_In%Hb. bool_props. by split. Qed.

(** A packet of a client, of any kind. *)
Lemma wp_client_packet o c data a ns :
  config_wf → inv0 o → allowed o (ClientPacket c data a ns) = true →
  wp (client_recv_if_handler_send c data a ns) o (λ _ o' es, inv0 o' ∧
    ∀ f cid orig rest, UdpGwClient.parse_packet data = Some (f, cid, orig, rest) →
      Z.land f UDPGW_CLIENT_FLAG_KEEPALIVE = 0 → zlen rest ≤ udp_mtu cfg → init_ok a = true →
      taken o o' c f cid orig rest es).
Proof.
  intros Hcf Hi Ha. unfold allowed in Ha. destruct (clients o !! c) as [cl|] eqn:Hc; [|by rewrite andb_false_r in Ha].
  apply andb_true_iff in Ha as [Hns0 Ha]. apply andb_true_iff in Ha as [Ha Hmal]. apply andb_true_iff in Ha as [Ha Hjobs].
  apply andb_true_iff in Ha as [Hlen Hbytes]. apply bytes_of in Hbytes.
  assert (Hns : ∀ ip, ns = Some ip → 0 ≤ ip < 2 ^ 32) by (intros ip ->; bool_props; lia).
  assert (Hfresh : ∀ p, malloc a = Some p → conns o !! p = None).
  { intros p Hp. rewrite Hp in Hmal. apply negb_true_iff, bool_decide_eq_false in Hmal. by apply eq_None_not_Some. }
  pose proof (no_first_jobs o c cl Hi Hc Hjobs) as Hnj. pose proof (i_client _ _ _ Hi c cl Hc) as Hw.
  unfold client_recv_if_handler_send. apply wp_bind. eapply wp_on_client; [done|].
  assert (Hi1 : inv0 (set_clients (<[c:=with_packet data cl]> (clients o)) o))
    by (apply (inv_set_client (λ _, []) (λ _, false) _ _ o c cl); try done; by apply with_packet_wf).
  apply wp_bind, wp_assert; [done|]. apply wp_bind, wp_emit. unfold sizeof_udpgw_header.
  destruct (Z.ltb_spec (zlen data) 3) as [Hs|Hs].
  { apply wp_ret. split; [done|]. intros f cid orig rest (? & _)%parse_packet_split. lia. }
  set (f := ltoh8 _). set (cid := ltoh16 _).
  apply wp_bind. eapply wp_on_client; [apply lookup_insert_eq|]. set (o1 := set_clients _ (set_clients _ _)).
  set (cl1 := with_timer _ _) in o1.
  assert (Hi2 : inv0 o1).
  { pose proof (i_client _ _ _ Hi1 c _ (lookup_insert_eq _ _ _)) as Hw1.
    apply (inv_set_client (λ _, []) (λ _, false) _ _ _ c (with_packet data cl)); try done; [apply lookup_insert_eq|by apply with_timer_wf]. }
  assert (Hc1 : clients o1 !! c = Some cl1) by (cbn; apply lookup_insert_eq).
  assert (Hcid : 0 ≤ cid < 65536).
  { pose proof (le_val_bound (ztake 2 (zdrop 1 data)) (Forall_ztake _ _ _ (Forall_zdrop _ _ _ Hbytes))) as Hv.
    rewrite zlen_ztake in Hv by (rewrite zlen_zdrop; lia). exact Hv. }
  destruct (Z.eqb_spec (Z.land f UDPGW_CLIENT_FLAG_KEEPALIVE) 0) as [Hka|Hka]; cbn [negb].
  2: { apply wp_ret. split; [done|]. intros f' cid' orig rest (_ & -> & _)%parse_packet_split Hk0. done. }
  pose proof (parse_address_spec f (zdrop 3 data)) as Hpa.
  destruct (parse_address f (zdrop 3 data)) as [[orig n]|] eqn:Hp.
  2: { apply wp_ret. split; [done|]. intros f' cid' orig rest (_ & -> & _ & n & Hn & _)%parse_packet_split. fold f in Hn. congruence. }
  destruct Hpa as (Hn & Hnz & Hip & Hwf). rewrite zlen_zdrop in Hnz by lia.
  destruct (Z.ltb_spec (udp_mtu cfg) (zlen data - (3 + n))) as [Hbig|Hfit].
  { apply wp_ret. split; [done|]. intros f' cid' orig' rest (_ & -> & _ & n' & Hn' & -> & _)%parse_packet_split _ Hz. fold f in Hn'.
    assert (n' = n) as -> by congruence. rewrite zlen_zdrop in Hz by lia. lia. }
  eapply wp_mono; [apply (wp_client_data o1 c cl1 data f cid orig n a ns); try done; (lia || (split; [apply Hwf; auto with zlist|done]))|].
  intros [] o' es [Hi' Htaken]. split; [done|].
  intros f' cid' orig' rest (_ & -> & -> & n' & Hn' & -> & _)%parse_packet_split _ _ Hok. fold f in Hn' |- *. fold cid.
  assert (n' = n ∧ orig' = orig) as [-> ->] by (split; congruence). exact (Htaken Hok).
Qed.

(** ** Every call keeps the invariant *)

Lemma open_con e f o p :
  inv e f o → open_at o p = true → ∃ con cl u, conns o !! p = Some con ∧ clients o !! con_client con = Some cl ∧ closing con = false ∧
    udp con = Some u ∧ con_wf con.
Proof.
  intros Hi Ho. unfold open_at in Ho. destruct (conns o !! p) as [con|] eqn:Hp; [|done]. apply negb_true_iff in Ho.
  destruct (i_con _ _ _ Hi p con Hp) as [Hk [cl Hc]]. destruct (co_open _ Hk Ho) as (_ & u & Hu & _). exists con, cl, u. by split_and!.
Qed.

Lemma server_wp_first_job o p nw :
  inv0 o → allowed o (FirstJob p nw) = true →
  wp (connection_first_job_handler p nw) o (λ _ o' es, inv0 o' ∧
    ∃ con cl u data, conns o !! p = Some con ∧ clients o !! con_client con = Some cl ∧ udp con = Some u ∧
      read_packet (first_data con) (first_data_len con) (packet cl) = Some data ∧
      es = if bool_decide (is_Some (BufferWriter.out (udp_send_writer u))) then [UdpOutput p data] else []).
Proof.
  intros Hi Ha. unfold allowed in Ha. destruct (conns o !! p) as [con|] eqn:Hp; [|done].
  destruct (i_con _ _ _ Hi p con Hp) as [Hk [cl Hc]].
  assert (Hcl : closing con = false). { destruct (closing con) eqn:E; [|done]. destruct (co_closing _ Hk E) as (_ & ? & _). congruence. }
  destruct (co_open _ Hk Hcl) as (_ & u & Hu & _). destruct (co_first _ Hk) as [Hf0 Hfl].
  pose proof (cw_first _ _ _ _ _ (i_client _ _ _ Hi _ cl Hc) p con Hp eq_refl Ha) as Hpk.
  destruct (with_job_wf con Hk) as [Kj Wj]. unfold connection_first_job_handler.
  apply wp_bind. eapply wp_on_con; [done|]. pose proof (inv_set_con _ _ o p con _ Hi Hp Kj Wj) as Hi1.
  apply wp_bind. eapply wp_get_con; [apply lookup_insert_eq|]. apply wp_bind, wp_assert; [cbn; by rewrite Hcl|].
  apply wp_bind. eapply wp_get_client; [done|].
  assert (Hrd : read_packet (first_data con) (first_data_len con) (packet cl) = Some (ztake (first_data_len con) (zdrop (first_data con) (packet cl))))
    by (unfold read_packet; by rewrite (proj2 (Z.leb_le _ _)) by lia).
  apply wp_bind. eapply server_wp_lift; [done|].
  apply wp_bind. eapply wp_mono; [apply (wp_send_to_udp _ _ _ p (with_job false con) u cl _ nw Hi1); try done; [apply lookup_insert_eq|]|].
  { rewrite zlen_ztake; [lia|]. rewrite zlen_zdrop by lia. lia. }
  intros b o' es ((con' & Hused & _) & ->). apply wp_ret. cbn [app]. rewrite app_nil_r.
  split; [by eapply (inv_used _ _ _ o' p (with_job false con) con' cl Hi1); [apply lookup_insert_eq|..]|]. exists con, cl, u. eexists. by split_and!.
Qed.

Lemma wp_udp_packet o p data nw con cl :
  config_wf → inv0 o → conns o !! p = Some con → clients o !! con_client con = Some cl → closing con = false → zlen data ≤ udp_mtu cfg →
  wp (connection_udp_recv_if_handler_send p data nw) o (λ _ o' es, inv0 o' ∧
    es = UdpRecvDone p :: if fits (orig_addr con) data && bool_decide (is_Some (BufferWriter.out (send_if con)))
                          then [ClientOutput p (packet_msg 0 (conid con) (orig_addr con) data)] else []).
Proof.
  intros Hcf Hi Hp Hc Hcl Hz. destruct (i_con _ _ _ Hi p con Hp) as [Hk _]. destruct (with_time_wf nw con Hk) as [Kt Wt].
  unfold connection_udp_recv_if_handler_send. apply wp_bind. eapply wp_get_con; [done|].
  apply wp_bind, wp_assert; [by rewrite Hcl|]. apply wp_bind, wp_assert; [by apply Z.leb_le|].
  apply wp_bind, wp_modify, wp_bind. eapply wp_on_client; [done|]. fold (moved p cl). set (o1 := set_clients _ _).
  assert (Hi1 : inv0 o1) by (by apply (inv_used _ _ o o1 p con (with_time nw con) cl)).
  apply wp_bind, wp_emit. eapply wp_mono; [apply (wp_send_to_client o1 p (with_time nw con)); [apply lookup_insert_eq|done|done|by apply mtu_bounds]|].
  intros [] o' es ((con' & K & W & -> & _) & ->). split; [|done]. eapply inv_set_con; [done|apply lookup_insert_eq|done|done].
Qed.

Lemma inv_queue o c cl s :
  inv0 o → clients o !! c = Some cl →
  (∀ p, p ∈ closing_connections_list cl → s = Some p) → (∀ p, s = Some p → p ∈ connections_list cl ++ closing_connections_list cl) →
  inv0 (set_clients (<[c := with_queue (mk_queue s (flows (send_queue cl)) (freeing (send_queue cl))) cl]> (clients o)) o).
Proof.
  intros Hi Hc H1 H2. apply (inv_set_client (λ _, []) (λ _, false) _ _ o c cl); try done.
  destruct (i_client _ _ _ Hi c cl Hc). by split.
Qed.

Lemma wp_queue_done o c :
  inv0 o → allowed o (QueueDone c) = true → wp (queue_done c) o (λ _ o' _, inv0 o').
Proof.
  intros Hi Ha. unfold allowed in Ha. destruct (clients o !! c) as [cl|] eqn:Hc; [|done]. apply bool_decide_eq_true in Ha as [p Hs].
  pose proof (i_client _ _ _ Hi c cl Hc) as Hw. unfold queue_done. apply wp_bind. eapply wp_get_client; [done|].
  apply wp_bind. eapply server_wp_lift; [done|]. apply wp_bind, wp_modify. set (cl1 := with_queue _ cl). set (o1 := set_clients _ o).
  apply (cw_sending _ _ _ _ _ Hw) in Hs as Hin. apply elem_of_app in Hin as [Hin|Hin].
  - assert (Hne : ∀ q, q ∈ closing_connections_list cl → False).
    { intros q Hq. pose proof (cw_closing _ _ _ _ _ Hw q Hq). assert (q = p) as -> by congruence.
      pose proof (cw_nodup _ _ _ _ _ Hw) as Hn. apply NoDup_app in Hn as (_ & Hn & _). apply (Hn p Hin). rewrite app_nil_r. done. }
    apply (cw_open _ _ _ _ _ Hw) in Hin as (con & Hp & _ & Hcl). destruct (i_con _ _ _ Hi p con Hp) as [Hk _].
    apply wp_bind. eapply wp_get_con; [done|]. destruct (co_open _ Hk Hcl) as [-> _]. apply wp_ret.
    apply inv_queue; try done. intros q Hq. by destruct (Hne q).
  - apply (cw_shut _ _ _ _ _ Hw) in Hin as (con & Hp & Hcc & Hcl). destruct (i_con _ _ _ Hi p con Hp) as [Hk _].
    apply wp_bind. eapply wp_get_con; [done|]. destruct (co_closing _ Hk Hcl) as (_ & _ & ->).
    assert (Hc1 : clients o1 !! con_client con = Some cl1) by (rewrite Hcc; apply lookup_insert_eq).
    unfold connection_send_qflow_busy_handler. apply wp_bind. eapply wp_get_con; [done|]. apply wp_bind, wp_assert; [done|].
    apply wp_bind, wp_bind. eapply wp_get_client; [done|]. apply wp_assert; [cbn; by rewrite orb_true_r|].
    eapply wp_mono; [apply (wp_connection_free p con cl1); try done; [by right|congruence]|]. intros [] o' es ->.
    rewrite <- Hcc in Hc. pose proof (inv_freed _ _ o p con cl Hi Hp Hc) as Hf. rewrite Hcl in *.
    assert (Hsame : without p true cl1 = without p true cl)
      by (unfold without; cbn; rewrite Hs; by repeat case_bool_decide).
    unfold freed in Hf |- *. cbn. rewrite Hsame, Hcc, insert_insert_eq. by rewrite Hcc in Hf.
Qed.

Lemma wp_run_call o x :
  config_wf → inv0 o → allowed o x = true → wp (run_call x) o (λ _ o' _, inv0 o').
Proof.
  intros Hcf Hi Ha. destruct x as [a|c|c|c|c data a ns|p nw|c p|c|p|p data nw|p mem|p mem]; cbn [run_call].
  - apply wp_listener; [done|done|]. intros c Hc. cbn in Ha. rewrite Hc in Ha. unfold client_at in Ha.
    apply negb_true_iff, bool_decide_eq_false in Ha. by apply eq_None_not_Some.
  - apply bool_decide_eq_true in Ha as [cl Hc]. apply wp_bind. eapply wp_on_client; [done|].
    eapply wp_mono; [by apply wp_client_free_timer|]. naive_solver.
  - apply bool_decide_eq_true in Ha. eapply wp_mono; [by apply wp_client_free|]. naive_solver.
  - apply bool_decide_eq_true in Ha. eapply wp_mono; [by apply wp_client_free|]. naive_solver.
  - eapply wp_mono; [by apply wp_client_packet|]. naive_solver.
  - eapply wp_mono; [by apply (server_wp_first_job o p nw)|]. naive_solver.
  - cbn in Ha. destruct (clients o !! c) as [cl|] eqn:Hc; [|done]. apply andb_true_iff in Ha as [Hs Hin].
    apply bool_decide_eq_true in Hs, Hin. eapply wp_on_client; [done|]. apply inv_queue; try done.
    + intros q Hq. pose proof (cw_closing _ _ _ _ _ (i_client _ _ _ Hi c cl Hc) q Hq). congruence.
    + intros q [= <-]. apply elem_of_app. by left.
  - by apply wp_queue_done.
  - destruct (open_con _ _ _ _ Hi Ha) as (con & cl & u & Hp & Hc & Hcl & _). apply wp_bind. eapply wp_get_con; [done|].
    apply wp_bind, wp_assert; [by rewrite Hcl|]. eapply wp_mono; [by apply (wp_connection_close (λ _, []))|]. intros [] ? ? ->. by eapply inv_after_close.
  - apply andb_true_iff in Ha as [Ha Hz]. destruct (open_con _ _ _ _ Hi Ha) as (con & cl & u & Hp & Hc & Hcl & _).
    eapply wp_mono; [apply (wp_udp_packet o p data nw con cl); try done; lia|]. naive_solver.
  - cbn in Ha. destruct (conns o !! p) as [con|] eqn:Hp; [|done]. apply andb_true_iff in Ha as [Hn Hz]. apply bool_decide_eq_true in Hn.
    destruct (i_con _ _ _ Hi p con Hp) as [Hk _]. destruct (co_send _ Hk) as (Hm & Hd & _).
    eapply wp_on_send_if; [done| |].
    { unfold BufferWriter.output_handler_recv, ASSERT, mbind, M_bind, mget, mput. rewrite Hn, bool_decide_true, orb_true_r by done. reflexivity. }
    destruct (with_send_if_wf (BufferWriter.mk (BufferWriter.mtu (send_if con)) (Some mem) (BufferWriter.d_writing (send_if con))) con Hk);
      [split_and!; try done; intros ? [= <-]; lia|]. by eapply inv_set_con.
  - cbn in Ha. destruct (conns o !! p) as [con|] eqn:Hp; [|done]. destruct (udp con) as [u|] eqn:Hu; [|done].
    apply andb_true_iff in Ha as [Hn Hz]. apply bool_decide_eq_true in Hn. destruct (i_con _ _ _ Hi p con Hp) as [Hk _].
    assert (Hcl : closing con = false). { destruct (closing con) eqn:E; [|done]. destruct (co_closing _ Hk E) as (? & _). congruence. }
    destruct (co_open _ Hk Hcl) as (_ & u0 & Hu0 & (Hm & Hd & _) & _). assert (u0 = u) as -> by congruence.
    eapply wp_on_udp_writer; [done|done| |].
    { unfold BufferWriter.output_handler_recv, ASSERT, mbind, M_bind, mget, mput. rewrite Hn, bool_decide_true, orb_true_r by done. reflexivity. }
    destruct (with_udp_wf (BufferWriter.mk (BufferWriter.mtu (udp_send_writer u)) (Some mem) (BufferWriter.d_writing (udp_send_writer u))) u con Hk Hu);
      [split_and!; try done; intros ? [= <-]; lia|]. by eapply inv_set_con.
Qed.

(** ** Runs *)

Inductive reach : t → Prop :=
| reach_start nw ns o0 o es :
    (∀ ip, ns = Some ip → 0 ≤ ip < 2 ^ 32) → server_start nw ns o0 = Some (tt, o, es) → reach o
| reach_call o x o' es : reach o → allowed o x = true → run_call x o = Some (tt, o', es) → reach o'.

Lemma empty_inv : config_wf → inv0 (mk ∅ ∅ [] 0 BAddr_None (- 2 ^ 63)).
Proof.
  intros Hcf. pose proof (cf_clients Hcf). split; cbn; try done; try lia; try (by constructor); try (by intros ? ? ?%lookup_empty_Some).
  intros c. rewrite elem_of_nil, lookup_empty. split; [done|by intros [? ?]].
Qed.

Lemma wp_maybe_update_dns o nw ns :
  inv0 o → (∀ ip, ns = Some ip → 0 ≤ ip < 2 ^ 32) →
  wp (maybe_update_dns nw ns) o (λ _ o' es, es = [] ∧ inv0 o').
Proof.
  intros Hi Hns. unfold maybe_update_dns. apply wp_bind, wp_get. destruct (nw <? _); [by apply wp_ret|]. apply wp_put. split; [done|].
  apply inv_dns; [done|..]; destruct ns as [ip|]; cbn; auto. split; [auto|apply hton16_bound].
Qed.

Lemma server_reach_inv o : config_wf → reach o → inv0 o.
Proof.
  intros Hcf Hr. induction Hr as [nw ns o0 o es Hns Hs|o x o' es _ IH Ha Hx].
  - assert (Hw : wp (server_start nw ns) o0 (λ _ o' _, inv0 o')).
    { unfold server_start. apply wp_bind, wp_put. eapply wp_mono; [by apply wp_maybe_update_dns; [apply empty_inv|]|]. naive_solver. }
    exact (wp_elim _ _ _ _ _ _ Hw Hs).
  - exact (wp_elim _ _ _ _ _ _ (wp_run_call o x Hcf IH Ha) Hx).
Qed.

Lemma wp_free_clients n o :
  inv0 o → length (clients_list o) = n → wp (free_clients n) o (λ _ o' _, inv0 o' ∧ clients_list o' = []).
Proof.
  revert o. induction n as [|n IH]; intros o Hi Hl; cbn [free_clients]; [apply wp_ret; split; [done|by apply nil_length_inv]|].
  apply wp_bind, wp_get. destruct (clients_list o) as [|c l] eqn:Hcl; [done|].
  assert (Hin : c ∈ clients_list o) by (rewrite Hcl; by left). pose proof (zlen_remove c _ (i_nodup _ _ _ Hi) Hin) as Hz.
  apply wp_bind. eapply wp_mono; [apply wp_client_free; [done|by apply (i_dom _ _ _ Hi)]|].
  intros [] o1 es [Hi1 Hl1]. apply IH; [done|]. rewrite Hl1. rewrite Hcl in Hz |- *. cbn [length] in Hz, Hl. lia.
Qed.

Lemma inv_empty o : inv0 o → clients_list o = [] → clients o = ∅ ∧ conns o = ∅.
Proof.
  intros Hi Hl.
  assert (Hc : clients o = ∅).
  { apply map_eq. intros c. rewrite lookup_empty. destruct (clients o !! c) as [cl|] eqn:E; [|done].
    assert (Hin : c ∈ clients_list o) by (apply (i_dom _ _ _ Hi); eauto). rewrite Hl in Hin. by apply elem_of_nil in Hin. }
  split; [done|]. apply map_eq. intros p. rewrite lookup_empty. destruct (conns o !! p) as [con|] eqn:E; [|done].
  destruct (i_con _ _ _ Hi p con E) as [_ [cl Hk]]. rewrite Hc in Hk. by rewrite lookup_empty in Hk.
Qed.

Lemma stop_frees o : inv0 o → ∃ o' es, server_stop o = Some (tt, o', es) ∧ clients o' = ∅ ∧ conns o' = ∅.
Proof.
  intros Hi.
  assert (Hw : wp server_stop o (λ _ o' _, clients o' = ∅ ∧ conns o' = ∅)).
  { unfold server_stop. apply wp_bind, wp_get. eapply wp_mono; [by apply wp_free_clients|]. intros [] o' es [Hi' Hl]. by apply inv_empty. }
  apply wp_run in Hw as ([] & o' & es & Hs & Hr). eauto.
Qed.

(** At most one connection of a client is closing. *)
Lemma closing_at_most_one e f o c cl : inv e f o → clients o !! c = Some cl → (length (closing_connections_list cl) ≤ 1)%nat.
Proof.
  intros Hi Hc. destruct (i_client _ _ _ Hi c cl Hc). rewrite !NoDup_app in cw_nodup0. destruct cw_nodup0 as (_ & _ & Hn & _).
  destruct (closing_connections_list cl) as [|p [|q l]] eqn:E; cbn; try lia. exfalso.
  assert (sending_flow (send_queue cl) = Some p) by (apply cw_closing0; by left).
  assert (sending_flow (send_queue cl) = Some q) by (apply cw_closing0; right; by left).
  apply NoDup_cons in Hn as [Hn _]. apply Hn. assert (p = q) as -> by congruence. by left.
Qed.
End server.
End UdpGwServer.

(** C19: the UDP gateway, with any clients, packets, sockets and answers of the
    system: in every state it can reach no call of the event loop fails an
    assertion, uses a connection or client that was freed or writes outside a
    buffer; the numbers of clients and of connections are those of the lists and
    within their limits, a client has at most one connection that is closing, and
    its disconnect timer runs; and stopping the gateway then frees every client and
    every connection: nothing is lost from the lists. *)
Theorem udpgw_server_safe `{Build} cfg o :
  UdpGwServer.config_wf cfg → UdpGwServer.reach cfg o →
  (∀ x, UdpGwServer.allowed cfg o x = true → is_Some (UdpGwServer.run_call cfg x o)) ∧
  UdpGwServer.num_clients o = zlen (UdpGwServer.clients_list o) ∧
  UdpGwServer.num_clients o ≤ UdpGwServer.max_clients cfg ∧
  (∀ c cl, UdpGwServer.clients o !! c = Some cl →
     UdpGwServer.num_connections cl = zlen (UdpGwServer.connections_list cl) ∧
     UdpGwServer.num_connections cl ≤ UdpGwServer.max_connections_for_client cfg ∧
     (length (UdpGwServer.closing_connections_list cl) ≤ 1)%nat ∧ is_Some (UdpGwServer.disconnect_timer cl)) ∧
  ∃ o' es, UdpGwServer.server_stop o = Some (tt, o', es) ∧ UdpGwServer.clients o' = ∅ ∧ UdpGwServer.conns o' = ∅.
Proof.
  intros Hcf Hr. pose proof (UdpGwServer.server_reach_inv cfg o Hcf Hr) as Hi. split_and!.
  - intros x Ha. pose proof (UdpGwServer.wp_run_call cfg o x Hcf Hi Ha) as Hw. apply wp_run in Hw as (? & ? & ? & -> & _). eauto.
  - apply (UdpGwServer.i_num _ _ _ _ Hi).
  - apply (UdpGwServer.i_le _ _ _ _ Hi).
  - intros c cl Hc. pose proof (UdpGwServer.i_client _ _ _ _ Hi c cl Hc) as Hw. split_and!.
    + apply (UdpGwServer.cw_num _ _ _ _ _ _ Hw).
    + apply (UdpGwServer.cw_le _ _ _ _ _ _ Hw).
    + exact (UdpGwServer.closing_at_most_one _ _ _ _ _ _ Hi Hc).
    + by apply (UdpGwServer.cw_timer _ _ _ _ _ _ Hw).
  - by apply (UdpGwServer.stop_frees cfg).
Qed.

(** Among the connections of the gateway that are not closing, no two of one
    client have the same conid, and no two, of any clients, that send to the same
    remote address (with --unique-local-ports: to the same IP address) are bound to
    the same port of the local range, so that an answer reaches the connection it is
    for; and a port lies in the range. *)
Theorem udpgw_server_ports `{Build} cfg o p q a b :
  UdpGwServer.config_wf cfg → UdpGwServer.reach cfg o → p ≠ q →
  UdpGwServer.conns o !! p = Some a → UdpGwServer.conns o !! q = Some b →
  UdpGwServer.closing a = false → UdpGwServer.closing b = false →
  ∃ u v, UdpGwServer.udp a = Some u ∧ UdpGwServer.udp b = Some v ∧
    (UdpGwServer.con_client a = UdpGwServer.con_client b → UdpGwServer.conid a ≠ UdpGwServer.conid b) ∧
    (UdpGwServer.same_remote cfg (UdpGwServer.con_addr a) (UdpGwServer.con_addr b) = true →
       0 ≤ UdpGwServer.local_port_index u → UdpGwServer.local_port_index u ≠ UdpGwServer.local_port_index v) ∧
    -1 ≤ UdpGwServer.local_port_index u ∧
    (0 ≤ UdpGwServer.local_port_index u → UdpGwServer.local_port_index u < UdpGwServer.num_ports cfg (UdpGwServer.con_addr a)).
Proof.
  intros Hcf Hr Hne Hp Hq Ha Hb. pose proof (UdpGwServer.server_reach_inv cfg o Hcf Hr) as Hi.
  destruct (UdpGwServer.i_con _ _ _ _ Hi p a Hp) as [Ka _]. destruct (UdpGwServer.i_con _ _ _ _ Hi q b Hq) as [Kb _].
  destruct (UdpGwServer.co_open _ _ Ka Ha) as (_ & u & Hu & _ & Hlo & Hhi). destruct (UdpGwServer.co_open _ _ Kb Hb) as (_ & v & Hv & _).
  exists u, v. split_and!; try done.
  - intros Hc He. apply Hne. by eapply (UdpGwServer.i_conid _ _ _ _ Hi p q a b).
  - intros Hs H0 He. apply Hne. by eapply (UdpGwServer.i_port _ _ _ _ Hi p q a b u v).
Qed.

(** ** From end to end *)

(** The client of UdpGw takes a packet with the conid and the remote address of one
    of its connections for an answer to it. *)
Lemma delivers_msg g a x reply :
  gw_inv g → conaddr_wf a → table_find a (table g) = Some x → zlen reply ≤ UdpGwClient.udp_mtu g →
  delivers g (packet_msg 0 x (UdpGwClient.remote_addr a) reply) = Some (a, reply) ∧ 0 ≤ x < 65536.
Proof.
  intros Hg Ha Ht Hz. apply table_find_Some in Ht as (p & con & Hp & Hca & Hx); [|done].
  pose proof (gi_con _ Hg p con Hp) as Hk. pose proof (cw_conid _ _ Hk) as Hcid. pose proof (gi_max _ Hg) as Hmax. rewrite Hx in Hcid.
  destruct Ha as (_ & Hrw & _ & Hrip). split; [|lia]. unfold delivers. rewrite parse_packet_msg by (done || lia). cbn [mbind option_bind].
  rewrite (proj2 (Z.ltb_ge _ _)) by lia. pose proof (table_find_conid g x Hg) as Hf.
  destruct (List.find _ (table g)) as [[b i]|]; [|by destruct (Hf p con Hp)].
  destruct Hf as [-> (q & con' & Hq & Hb & Hx')]. assert (q = p) as -> by (eapply (gi_conid _ Hg); [done|done|congruence]).
  assert (con' = con) as -> by congruence. rewrite Hca in Hb. subst b. cbn [mbind option_bind fst]. by rewrite bool_decide_true.
Qed.

Lemma packet_msg_bytes x remote reply : addr_wf remote → bytes reply → bytes (packet_msg 0 x remote reply).
Proof.
  intros Hw Hb. unfold packet_msg. apply Forall_app_2; [constructor; [case_match; by vm_compute|auto with zlist]|].
  apply Forall_app_2; [|done]. destruct remote; cbn [addr_bytes]; try (by constructor); [apply Forall_app_2; auto with zlist|].
  destruct Hw as (_ & Hip & _). apply Forall_app_2; auto with zlist.
Qed.

(** C20: the way of a datagram to the gateway and back, with both programs as they
    are.  A packet that the client (UdpGw) sends for its connection x with local and
    remote address [a] leads, if every allocation and system call that a new connection
    would need succeeds ([init_ok]), to an open connection of the gateway with that
    conid and the remote address.  If that connection was there before, the gateway
    sends the data to the remote address at once when the buffer of its UDP socket has
    room, and drops it when it has not; a new connection holds the data for its first
    job, which does the same.  And when a datagram comes in for a connection
    with this conid and address whose buffer to the client has room for it, the gateway
    sends a packet which the client passes to its user with the addresses and the data
    of the answer. *)
Theorem udpgw_roundtrip `{Build} cfg o c a x flags data ans ns :
  let remote := UdpGwClient.remote_addr a in
  let f := if BAddr_type remote =? BADDR_TYPE_IPV6 then Z.lor flags UDPGW_CLIENT_FLAG_IPV6 else flags in
  let m := packet_msg flags x remote data in
  UdpGwServer.config_wf cfg → UdpGwServer.reach cfg o → conaddr_wf a → 0 ≤ x < 65536 →
  Z.land flags UDPGW_CLIENT_FLAG_IPV6 = 0 → Z.land f UDPGW_CLIENT_FLAG_KEEPALIVE = 0 →
  zlen data ≤ UdpGwServer.udp_mtu cfg → UdpGwServer.init_ok ans = true →
  UdpGwServer.allowed cfg o (UdpGwServer.ClientPacket c m ans ns) = true →
  (∃ o1 es, UdpGwServer.run_call cfg (UdpGwServer.ClientPacket c m ans ns) o = Some (tt, o1, es) ∧
     UdpGwServer.taken o o1 c f x remote data es) ∧
  (∀ o2 p con cl u nw, UdpGwServer.reach cfg o2 → UdpGwServer.conns o2 !! p = Some con →
     UdpGwServer.clients o2 !! UdpGwServer.con_client con = Some cl → UdpGwServer.udp con = Some u →
     UdpGwServer.first_job con = true →
     UdpGwServer.read_packet (UdpGwServer.first_data con) (UdpGwServer.first_data_len con) (UdpGwServer.packet cl) = Some data →
     ∃ o3, UdpGwServer.run_call cfg (UdpGwServer.FirstJob p nw) o2 = Some (tt, o3,
       if bool_decide (is_Some (BufferWriter.out (UdpGwServer.udp_send_writer u))) then [UdpGwServer.UdpOutput p data] else [])) ∧
  (∀ o2 p con reply nw g, UdpGwServer.reach cfg o2 → UdpGwServer.conns o2 !! p = Some con → UdpGwServer.closing con = false →
     UdpGwServer.conid con = x → UdpGwServer.orig_addr con = remote →
     is_Some (BufferWriter.out (UdpGwServer.send_if con)) → bytes reply → zlen reply ≤ UdpGwServer.udp_mtu cfg →
     UdpGwServer.fits cfg remote reply = true →
     gw_inv g → UdpGwClient.have_server g = true → table_find a (table g) = Some x → zlen reply ≤ UdpGwClient.udp_mtu g →
     ∃ o3 m' g', UdpGwServer.run_call cfg (UdpGwServer.UdpPacket p reply nw) o2 =
         Some (tt, o3, [UdpGwServer.UdpRecvDone p; UdpGwServer.ClientOutput p m']) ∧
       UdpGwClient.recv_interface_handler_send m' g =
         Some (tt, g', [UdpGwClient.RecvDone; UdpGwClient.HandlerReceived (UdpGwClient.local_addr a) remote reply])).
Proof.
  intros remote f m Hcf Hr Ha Hx Hf6 Hfk Hz Hok Hal. pose proof Ha as (_ & Hrw & _ & Hrip). split_and!.
  - pose proof (UdpGwServer.wp_client_packet cfg o c m ans ns Hcf (UdpGwServer.server_reach_inv cfg o Hcf Hr) Hal) as Hw.
    apply wp_run in Hw as ([] & o1 & es & Hrun & _ & Ht). exists o1, es. split; [done|].
    apply Ht; try done. apply parse_packet_msg; done.
  - intros o2 p con cl u nw Hr2 Hp Hc Hu Hj Hrd.
    pose proof (UdpGwServer.server_wp_first_job cfg o2 p nw (UdpGwServer.server_reach_inv cfg o2 Hcf Hr2)) as Hw.
    assert (Hal2 : UdpGwServer.allowed cfg o2 (UdpGwServer.FirstJob p nw) = true) by (cbn; by rewrite Hp).
    specialize (Hw Hal2). apply wp_run in Hw as ([] & o3 & es & Hrun & _ & con' & cl' & u' & d & Hp' & Hc' & Hu' & Hd & ->).
    rewrite Hp in Hp'. injection Hp' as <-. rewrite Hc in Hc'. injection Hc' as <-. rewrite Hu in Hu'. injection Hu' as <-.
    rewrite Hrd in Hd. injection Hd as <-. eauto.
  - intros o2 p con reply nw g Hr2 Hp Hcl Hid Horig Hout Hb Hz2 Hfit Hg Hs Ht Hzg.
    pose proof (UdpGwServer.server_reach_inv cfg o2 Hcf Hr2) as Hi2. destruct (UdpGwServer.i_con _ _ _ _ Hi2 p con Hp) as [_ [cl Hc]].
    pose proof (UdpGwServer.wp_udp_packet cfg o2 p reply nw con cl Hcf Hi2 Hp Hc Hcl Hz2) as Hw.
    apply wp_run in Hw as ([] & o3 & es & Hrun & _ & ->). rewrite Horig, Hid, Hfit, bool_decide_true in Hrun by done. cbn [andb] in Hrun.
    destruct (delivers_msg g a x reply Hg Ha Ht Hzg) as [Hdel _]. pose proof (gi_mtu _ Hg) as (Hm1 & Hm2 & _).
    pose proof (wp_receive g (packet_msg 0 x remote reply) Hg Hs (packet_msg_bytes x remote reply Hrw Hb)) as Hw.
    assert (Hlen : zlen (packet_msg 0 x remote reply) ≤ UdpGwClient.udpgw_mtu g).
    { unfold packet_msg. rewrite !zlen_app, zlen_addr_bytes by done. cbn [length]. rewrite length_le_bytes. destruct (BAddr_type remote =? BADDR_TYPE_IPV6); lia. }
    specialize (Hw Hlen). fold remote in Hdel. rewrite Hdel in Hw. apply wp_run in Hw as ([] & g' & es & Hrun' & _ & y & _ & _ & ->). eauto 6.
Qed.

(** ** An example: two connections to one server *)

Section server_example.
#[local] Instance server_build : Build := false.
Import UdpGwServer.

Definition server_cfg : config :=
  mk_config 100 121 123 2 2 2 (BAddr_IPv4 16777343 (hton16 4000)) (-1) BAddr_None false.

Lemma server_cfg_wf : config_wf server_cfg.
Proof.
  split; [split; [cbn; lia|vm_compute; reflexivity]|cbn; lia|cbn; lia|reflexivity|intros Hn; cbn in Hn; lia].
Qed.

Fixpoint server_calls (o : t) (l : list call) : option t :=
  match l with
  | [] => Some o
  | x :: l => if allowed server_cfg o x then '(_, o', _) ← run_call server_cfg x o; server_calls o' l else None
  end.

Lemma server_calls_reach o l o' : reach server_cfg o → server_calls o l = Some o' → reach server_cfg o'.
Proof.
  revert o. induction l as [|x l IH]; intros o Hr Hrun; cbn in Hrun; [by injection Hrun as <-|].
  destruct (allowed server_cfg o x) eqn:Ha; [|done]. destruct (run_call server_cfg x o) as [[[[] o1] es]|] eqn:Hx; [|done]. cbn in Hrun.
  eapply IH; [|exact Hrun]. by eapply reach_call.
Qed.

Definition server_boot : t := mk ∅ ∅ [] 0 (BAddr_IPv4 134744072 (hton16 53)) 5.

Lemma server_boot_reach : reach server_cfg server_boot.
Proof. apply (reach_start server_cfg 5 (Some 134744072) server_boot server_boot []); [intros ip [= <-]; lia|vm_compute; reflexivity]. Qed.

Definition all_ok (p : Z) : init_answer := mk_init (Some p) true true true true (λ _, true) true true 7.

(** The client asks [demo_remote] over the conids 0 and 1. *)
Definition server_run : list call :=
  [Accept (mk_accept (Some 1) (Some demo_local) true true 6);
   ClientPacket 1 (packet_msg 0 0 demo_remote [1; 2]) (all_ok 10) None;
   UdpReady 10 (repeat 0 100); FirstJob 10 8; SendReady 10 (repeat 0 121);
   ClientPacket 1 (packet_msg 0 1 demo_remote [3]) (all_ok 11) None; FirstJob 11 8].

Definition server_end : t := match server_calls server_boot server_run with Some o => o | None => server_boot end.

Lemma server_end_reach : reach server_cfg server_end.
Proof. apply (server_calls_reach server_boot server_run); [apply server_boot_reach|vm_compute; reflexivity]. Qed.

Lemma udpgw_server_safe_witness :
  reach server_cfg server_end ∧ num_clients server_end = 1 ∧ is_Some (run_call server_cfg (DgramError 10) server_end) ∧
  ∃ o' es, server_stop server_end = Some (tt, o', es) ∧ conns o' = ∅.
Proof.
  destruct (udpgw_server_safe server_cfg server_end server_cfg_wf server_end_reach) as (Hs & _ & _ & _ & o' & es & Hst & _ & Hc).
  split; [exact server_end_reach|]. split; [vm_compute; reflexivity|]. split; [apply Hs; vm_compute; reflexivity|]. exists o', es. split; assumption.
Defined.

Lemma udpgw_server_ports_witness :
  ∃ a b u v, conns server_end !! 10 = Some a ∧ conns server_end !! 11 = Some b ∧ udp a = Some u ∧ udp b = Some v ∧
    same_remote server_cfg (con_addr a) (con_addr b) = true ∧ local_port_index u ≠ local_port_index v.
Proof.
  eexists _, _. destruct (udpgw_server_ports server_cfg server_end 10 11 _ _ server_cfg_wf server_end_reach ltac:(lia)
    ltac:(vm_compute; reflexivity) ltac:(vm_compute; reflexivity) ltac:(vm_compute; reflexivity) ltac:(vm_compute; reflexivity))
    as (u & v & Hu & Hv & _ & Hd & _).
  exists u, v. split; [vm_compute; reflexivity|]. split; [vm_compute; reflexivity|]. split; [exact Hu|]. split; [exact Hv|].
  split; [vm_compute; reflexivity|]. apply Hd; [vm_compute; reflexivity|]. vm_compute in Hu. injection Hu as <-. vm_compute. discriminate.
Defined.

(** The first connection answers; the client of UdpGw has it as its connection 0. *)
Lemma udpgw_roundtrip_witness :
  ∃ g o3 m' g', run_call server_cfg (UdpPacket 10 [5; 6] 9) server_end = Some (tt, o3, [UdpRecvDone 10; ClientOutput 10 m']) ∧
    UdpGwClient.recv_interface_handler_send m' g =
      Some (tt, g', [UdpGwClient.RecvDone; UdpGwClient.HandlerReceived demo_local demo_remote [5; 6]]).
Proof.
  destruct demo_gw_init as (_ & _ & Ha). destruct demo_gw_connected as (g & Hg & Hs & Hm & Ht).
  pose proof server_end_reach as Hr.
  destruct (udpgw_roundtrip server_cfg server_end 1 (UdpGwClient.mk_conaddr demo_local demo_remote) 0 UDPGW_CLIENT_FLAG_REBIND [7] (all_ok 12) None
    server_cfg_wf Hr Ha ltac:(lia) ltac:(vm_compute; reflexivity) ltac:(vm_compute; reflexivity) ltac:(cbn; lia) ltac:(vm_compute; reflexivity))
    as (_ & _ & Hreply).
  { vm_compute. reflexivity. }
  exists g. eapply (Hreply server_end 10 _ [5; 6] 9 g Hr).
  - vm_compute. reflexivity.
  - reflexivity.
  - reflexivity.
  - reflexivity.
  - vm_compute. eauto.
  - repeat (apply List.Forall_cons; [unfold is_byte; lia|]). constructor.
  - cbn. lia.
  - vm_compute. reflexivity.
  - exact Hg.
  - exact Hs.
  - rewrite Ht. vm_compute. reflexivity.
  - pose proof (gi_mtu _ Hg). cbn. lia.
Defined.
End server_example.
