(* ===== verification/UdpGwOptions.v ===== *)
(** * UdpGwOptions: the command line and the start of the udpgw server

    The structure [options], [parse_arguments], [process_arguments] and [main] of
    udpgw/udpgw.c.  The command line is a list of settings, as in Options.v; what
    [main] passes on to the server is shown to be what UdpGwServer.v requires, and
    [main] to free whatever it has set up, on every path.  [BReactor_Exec] with the
    freeing of the clients after it, which UdpGwServer.v models, is the one event
    [EventLoop]; [BTime_Init] and the first update of the DNS address have none.

    [listen_addrs] of the options is the array with the number of its entries; a
    [char *] that is not set at the start is an [option string]. *)
From Stdlib Require Import Ascii String.
From S2P Require Import Prelude Bytes Text Addr Options UdpGw UdpGwServer.

Definition MAX_LISTEN_ADDRS : Z := 16.
Definition DEFAULT_UDP_MTU : Z := 65520.
Definition DEFAULT_MAX_CLIENTS : Z := 3.
Definition DEFAULT_MAX_CONNECTIONS_FOR_CLIENT : Z := 256.
Definition CLIENT_DEFAULT_SOCKET_SEND_BUFFER : Z := 1048576.

Module ServerOptions.
Section options.
Context `{Channels}.

Record options_t := mk_options {
  help : bool;
  version : bool;
  logger : Z;
  logger_syslog_facility : string;
  logger_syslog_ident : string;
  loglevel : Z;
  loglevels : list Z;
  listen_addrs : list string;
  udp_mtu : Z;
  max_clients : Z;
  max_connections_for_client : Z;
  client_socket_sndbuf : Z;
  local_udp_num_ports : Z;
  local_udp_addr : option string;
  local_udp_ip6_num_ports : Z;
  local_udp_ip6_addr : option string;
  unique_local_ports : bool
}.

Definition with_help (x : bool) (o : options_t) : options_t :=
  mk_options x (version o) (logger o) (logger_syslog_facility o) (logger_syslog_ident o) (loglevel o) (loglevels o)
    (listen_addrs o) (udp_mtu o) (max_clients o) (max_connections_for_client o) (client_socket_sndbuf o)
    (local_udp_num_ports o) (local_udp_addr o) (local_udp_ip6_num_ports o) (local_udp_ip6_addr o)
    (unique_local_ports o).
Definition with_version (x : bool) (o : options_t) : options_t :=
  mk_options (help o) x (logger o) (logger_syslog_facility o) (logger_syslog_ident o) (loglevel o) (loglevels o)
    (listen_addrs o) (udp_mtu o) (max_clients o) (max_connections_for_client o) (client_socket_sndbuf o)
    (local_udp_num_ports o) (local_udp_addr o) (local_udp_ip6_num_ports o) (local_udp_ip6_addr o)
    (unique_local_ports o).
Definition with_logger (x : Z) (o : options_t) : options_t :=
  mk_options (help o) (version o) x (logger_syslog_facility o) (logger_syslog_ident o) (loglevel o) (loglevels o)
    (listen_addrs o) (udp_mtu o) (max_clients o) (max_connections_for_client o) (client_socket_sndbuf o)
    (local_udp_num_ports o) (local_udp_addr o) (local_udp_ip6_num_ports o) (local_udp_ip6_addr o)
    (unique_local_ports o).
Definition with_logger_syslog_facility (x : string) (o : options_t) : options_t :=
  mk_options (help o) (version o) (logger o) x (logger_syslog_ident o) (loglevel o) (loglevels o) (listen_addrs o)
    (udp_mtu o) (max_clients o) (max_connections_for_client o) (client_socket_sndbuf o) (local_udp_num_ports o)
    (local_udp_addr o) (local_udp_ip6_num_ports o) (local_udp_ip6_addr o) (unique_local_ports o).
Definition with_logger_syslog_ident (x : string) (o : options_t) : options_t :=
  mk_options (help o) (version o) (logger o) (logger_syslog_facility o) x (loglevel o) (loglevels o)
    (listen_addrs o) (udp_mtu o) (max_clients o) (max_connections_for_client o) (client_socket_sndbuf o)
    (local_udp_num_ports o) (local_udp_addr o) (local_udp_ip6_num_ports o) (local_udp_ip6_addr o)
    (unique_local_ports o).
Definition with_loglevel (x : Z) (o : options_t) : options_t :=
  mk_options (help o) (version o) (logger o) (logger_syslog_facility o) (logger_syslog_ident o) x (loglevels o)
    (listen_addrs o) (udp_mtu o) (max_clients o) (max_connections_for_client o) (client_socket_sndbuf o)
    (local_udp_num_ports o) (local_udp_addr o) (local_udp_ip6_num_ports o) (local_udp_ip6_addr o)
    (unique_local_ports o).
Definition with_loglevels (x : list Z) (o : options_t) : options_t :=
  mk_options (help o) (version o) (logger o) (logger_syslog_facility o) (logger_syslog_ident o) (loglevel o) x
    (listen_addrs o) (udp_mtu o) (max_clients o) (max_connections_for_client o) (client_socket_sndbuf o)
    (local_udp_num_ports o) (local_udp_addr o) (local_udp_ip6_num_ports o) (local_udp_ip6_addr o)
    (unique_local_ports o).
Definition with_listen_addrs (x : list string) (o : options_t) : options_t :=
  mk_options (help o) (version o) (logger o) (logger_syslog_facility o) (logger_syslog_ident o) (loglevel o)
    (loglevels o) x (udp_mtu o) (max_clients o) (max_connections_for_client o) (client_socket_sndbuf o)
    (local_udp_num_ports o) (local_udp_addr o) (local_udp_ip6_num_ports o) (local_udp_ip6_addr o)
    (unique_local_ports o).
Definition with_udp_mtu (x : Z) (o : options_t) : options_t :=
  mk_options (help o) (version o) (logger o) (logger_syslog_facility o) (logger_syslog_ident o) (loglevel o)
    (loglevels o) (listen_addrs o) x (max_clients o) (max_connections_for_client o) (client_socket_sndbuf o)
    (local_udp_num_ports o) (local_udp_addr o) (local_udp_ip6_num_ports o) (local_udp_ip6_addr o)
    (unique_local_ports o).
Definition with_max_clients (x : Z) (o : options_t) : options_t :=
  mk_options (help o) (version o) (logger o) (logger_syslog_facility o) (logger_syslog_ident o) (loglevel o)
    (loglevels o) (listen_addrs o) (udp_mtu o) x (max_connections_for_client o) (client_socket_sndbuf o)
    (local_udp_num_ports o) (local_udp_addr o) (local_udp_ip6_num_ports o) (local_udp_ip6_addr o)
    (unique_local_ports o).
Definition with_max_connections_for_client (x : Z) (o : options_t) : options_t :=
  mk_options (help o) (version o) (logger o) (logger_syslog_facility o) (logger_syslog_ident o) (loglevel o)
    (loglevels o) (listen_addrs o) (udp_mtu o) (max_clients o) x (client_socket_sndbuf o) (local_udp_num_ports o)
    (local_udp_addr o) (local_udp_ip6_num_ports o) (local_udp_ip6_addr o) (unique_local_ports o).
Definition with_client_socket_sndbuf (x : Z) (o : options_t) : options_t :=
  mk_options (help o) (version o) (logger o) (logger_syslog_facility o) (logger_syslog_ident o) (loglevel o)
    (loglevels o) (listen_addrs o) (udp_mtu o) (max_clients o) (max_connections_for_client o) x
    (local_udp_num_ports o) (local_udp_addr o) (local_udp_ip6_num_ports o) (local_udp_ip6_addr o)
    (unique_local_ports o).
Definition with_local_udp_num_ports (x : Z) (o : options_t) : options_t :=
  mk_options (help o) (version o) (logger o) (logger_syslog_facility o) (logger_syslog_ident o) (loglevel o)
    (loglevels o) (listen_addrs o) (udp_mtu o) (max_clients o) (max_connections_for_client o)
    (client_socket_sndbuf o) x (local_udp_addr o) (local_udp_ip6_num_ports o) (local_udp_ip6_addr o)
    (unique_local_ports o).
Definition with_local_udp_addr (x : option string) (o : options_t) : options_t :=
  mk_options (help o) (version o) (logger o) (logger_syslog_facility o) (logger_syslog_ident o) (loglevel o)
    (loglevels o) (listen_addrs o) (udp_mtu o) (max_clients o) (max_connections_for_client o)
    (client_socket_sndbuf o) (local_udp_num_ports o) x (local_udp_ip6_num_ports o) (local_udp_ip6_addr o)
    (unique_local_ports o).
Definition with_local_udp_ip6_num_ports (x : Z) (o : options_t) : options_t :=
  mk_options (help o) (version o) (logger o) (logger_syslog_facility o) (logger_syslog_ident o) (loglevel o)
    (loglevels o) (listen_addrs o) (udp_mtu o) (max_clients o) (max_connections_for_client o)
    (client_socket_sndbuf o) (local_udp_num_ports o) (local_udp_addr o) x (local_udp_ip6_addr o)
    (unique_local_ports o).
Definition with_local_udp_ip6_addr (x : option string) (o : options_t) : options_t :=
  mk_options (help o) (version o) (logger o) (logger_syslog_facility o) (logger_syslog_ident o) (loglevel o)
    (loglevels o) (listen_addrs o) (udp_mtu o) (max_clients o) (max_connections_for_client o)
    (client_socket_sndbuf o) (local_udp_num_ports o) (local_udp_addr o) (local_udp_ip6_num_ports o) x
    (unique_local_ports o).
Definition with_unique_local_ports (x : bool) (o : options_t) : options_t :=
  mk_options (help o) (version o) (logger o) (logger_syslog_facility o) (logger_syslog_ident o) (loglevel o)
    (loglevels o) (listen_addrs o) (udp_mtu o) (max_clients o) (max_connections_for_client o)
    (client_socket_sndbuf o) (local_udp_num_ports o) (local_udp_addr o) (local_udp_ip6_num_ports o)
    (local_udp_ip6_addr o) x.

(** The options before the loop; the two address strings are not set. *)
Definition init_options (program_name : string) : options_t :=
  mk_options false false LOGGER_STDOUT "daemon" program_name (-1) (replicate (length blog_channel_list) (-1)) []
    DEFAULT_UDP_MTU DEFAULT_MAX_CLIENTS DEFAULT_MAX_CONNECTIONS_FOR_CLIENT CLIENT_DEFAULT_SOCKET_SEND_BUFFER
    (-1) None (-1) None false.

Inductive parse_error :=
| no_arguments
| requires_an_argument (arg : string)
| requires_two_arguments (arg : string)
| wrong_argument (arg : string)
| wrong_channel_argument (arg : string)
| wrong_loglevel_argument (arg : string)
| too_many (arg : string)
| unknown_option (arg : string).

Definition with_argument {A} (arg : string) (rest : list string) (k : string → list string → parse_error + A) : parse_error + A :=
  match rest with
  | [] => inl (requires_an_argument arg)
  | arg2 :: rest => k arg2 rest
  end.

Fixpoint parse_loop (args : list string) (o : options_t) {struct args} : parse_error + options_t :=
  match args with
  | [] => inr o
  | arg :: rest =>
      if String.eqb arg "--help" then parse_loop rest (with_help true o)
      else if String.eqb arg "--version" then parse_loop rest (with_version true o)
      else if String.eqb arg "--logger" then
        with_argument arg rest (λ arg2 rest,
          if String.eqb arg2 "stdout" then parse_loop rest (with_logger LOGGER_STDOUT o)
          else if String.eqb arg2 "syslog" then parse_loop rest (with_logger LOGGER_SYSLOG o)
          else inl (wrong_argument arg))
      else if String.eqb arg "--syslog-facility" then
        with_argument arg rest (λ arg2 rest, parse_loop rest (with_logger_syslog_facility arg2 o))
      else if String.eqb arg "--syslog-ident" then
        with_argument arg rest (λ arg2 rest, parse_loop rest (with_logger_syslog_ident arg2 o))
      else if String.eqb arg "--loglevel" then
        with_argument arg rest (λ arg2 rest,
          if parse_loglevel arg2 <? 0 then inl (wrong_argument arg)
          else parse_loop rest (with_loglevel (parse_loglevel arg2) o))
      else if String.eqb arg "--channel-loglevel" then
        match rest with
        | arg2 :: arg3 :: rest =>
            let channel := BLogGlobal_GetChannelByName arg2 in
            if channel <? 0 then inl (wrong_channel_argument arg)
            else if parse_loglevel arg3 <? 0 then inl (wrong_loglevel_argument arg)
            else parse_loop rest (with_loglevels (<[Z.to_nat channel := parse_loglevel arg3]> (loglevels o)) o)
        | _ => inl (requires_two_arguments arg)
        end
      else if String.eqb arg "--listen-addr" then
        with_argument arg rest (λ arg2 rest,
          if zlen (listen_addrs o) =? MAX_LISTEN_ADDRS then inl (too_many arg)
          else parse_loop rest (with_listen_addrs (listen_addrs o ++ [arg2]) o))
      else if String.eqb arg "--udp-mtu" then
        with_argument arg rest (λ arg2 rest,
          if atoi arg2 <? 0 then inl (wrong_argument arg) else parse_loop rest (with_udp_mtu (atoi arg2) o))
      else if String.eqb arg "--max-clients" then
        with_argument arg rest (λ arg2 rest,
          if atoi arg2 <=? 0 then inl (wrong_argument arg) else parse_loop rest (with_max_clients (atoi arg2) o))
      else if String.eqb arg "--max-connections-for-client" then
        with_argument arg rest (λ arg2 rest,
          if atoi arg2 <=? 0 then inl (wrong_argument arg)
          else parse_loop rest (with_max_connections_for_client (atoi arg2) o))
      else if String.eqb arg "--client-socket-sndbuf" then
        with_argument arg rest (λ arg2 rest,
          if atoi arg2 <? 0 then inl (wrong_argument arg)
          else parse_loop rest (with_client_socket_sndbuf (atoi arg2) o))
      else if String.eqb arg "--local-udp-addrs" then
        match rest with
        | arg2 :: arg3 :: rest =>
            if atoi arg3 <? 0 then inl (wrong_argument arg)
            else parse_loop rest (with_local_udp_num_ports (atoi arg3) (with_local_udp_addr (Some arg2) o))
        | _ => inl (requires_two_arguments arg)
        end
      else if String.eqb arg "--local-udp-ip6-addrs" then
        match rest with
        | arg2 :: arg3 :: rest =>
            if atoi arg3 <? 0 then inl (wrong_argument arg)
            else parse_loop rest (with_local_udp_ip6_num_ports (atoi arg3) (with_local_udp_ip6_addr (Some arg2) o))
        | _ => inl (requires_two_arguments arg)
        end
      else if String.eqb arg "--unique-local-ports" then parse_loop rest (with_unique_local_ports true o)
      else inl (unknown_option arg)
  end.

Definition parse_arguments (argv : list string) : parse_error + options_t :=
  match argv with
  | [] => inl no_arguments
  | program_name :: args => parse_loop args (init_options program_name)
  end.

(** ** The grammar *)

Inductive number_option := UdpMtu | MaxClients | MaxConnectionsForClient | ClientSocketSndbuf.

Inductive setting :=
| Help | Version | UniqueLocalPorts
| Logger (syslog : bool)
| SyslogFacility (v : string) | SyslogIdent (v : string)
| Loglevel (v : string)
| ChannelLoglevel (c v : string)
| ListenAddr (v : string)
| Number (f : number_option) (v : string)
| LocalUdpAddrs (ip6 : bool) (addr ports : string).

Definition number_name (f : number_option) : string :=
  match f with
  | UdpMtu => "--udp-mtu" | MaxClients => "--max-clients" | MaxConnectionsForClient => "--max-connections-for-client"
  | ClientSocketSndbuf => "--client-socket-sndbuf"
  end.
Definition local_name (ip6 : bool) : string := if ip6 then "--local-udp-ip6-addrs" else "--local-udp-addrs".

(** The least number accepted. *)
Definition number_min (f : number_option) : Z :=
  match f with UdpMtu | ClientSocketSndbuf => 0 | MaxClients | MaxConnectionsForClient => 1 end.

Definition render (s : setting) : list string :=
  match s with
  | Help => ["--help"] | Version => ["--version"] | UniqueLocalPorts => ["--unique-local-ports"]
  | Logger syslog => ["--logger"; if syslog then "syslog" else "stdout"]
  | SyslogFacility v => ["--syslog-facility"; v] | SyslogIdent v => ["--syslog-ident"; v]
  | Loglevel v => ["--loglevel"; v]
  | ChannelLoglevel c v => ["--channel-loglevel"; c; v]
  | ListenAddr v => ["--listen-addr"; v]
  | Number f v => [number_name f; v]
  | LocalUdpAddrs ip6 addr ports => [local_name ip6; addr; ports]
  end%string.

Definition valid (s : setting) : Prop :=
  match s with
  | Number f v => number_min f ≤ atoi v
  | Loglevel v => 0 ≤ parse_loglevel v
  | ChannelLoglevel c v => c ∈ blog_channel_list ∧ 0 ≤ parse_loglevel v
  | LocalUdpAddrs _ _ ports => 0 ≤ atoi ports
  | _ => True
  end.

Definition set_number (f : number_option) : Z → options_t → options_t :=
  match f with
  | UdpMtu => with_udp_mtu | MaxClients => with_max_clients
  | MaxConnectionsForClient => with_max_connections_for_client | ClientSocketSndbuf => with_client_socket_sndbuf
  end.

Definition apply (o : options_t) (s : setting) : options_t :=
  match s with
  | Help => with_help true o | Version => with_version true o | UniqueLocalPorts => with_unique_local_ports true o
  | Logger syslog => with_logger (if syslog then LOGGER_SYSLOG else LOGGER_STDOUT) o
  | SyslogFacility v => with_logger_syslog_facility v o | SyslogIdent v => with_logger_syslog_ident v o
  | Loglevel v => with_loglevel (parse_loglevel v) o
  | ChannelLoglevel c v =>
      with_loglevels (<[Z.to_nat (BLogGlobal_GetChannelByName c) := parse_loglevel v]> (loglevels o)) o
  | ListenAddr v => with_listen_addrs (listen_addrs o ++ [v]) o
  | Number f v => set_number f (atoi v) o
  | LocalUdpAddrs false addr ports => with_local_udp_num_ports (atoi ports) (with_local_udp_addr (Some addr) o)
  | LocalUdpAddrs true addr ports => with_local_udp_ip6_num_ports (atoi ports) (with_local_udp_ip6_addr (Some addr) o)
  end.

Definition words (l : list setting) : list string := concat (map render l).

(** The addresses to listen on. *)
Definition listens (s : setting) : list string := match s with ListenAddr v => [v] | _ => [] end.

Definition one_word : list string := ["--help"; "--version"; "--unique-local-ports"]%string.
Definition two_words : list string :=
  ["--logger"; "--syslog-facility"; "--syslog-ident"; "--loglevel"; "--listen-addr"; "--udp-mtu"; "--max-clients";
   "--max-connections-for-client"; "--client-socket-sndbuf"]%string.
Definition three_words : list string := ["--channel-loglevel"; "--local-udp-addrs"; "--local-udp-ip6-addrs"]%string.

(** What is after the last setting of a line that is not a list of settings, with
    [n] addresses to listen on so far, and the message. *)
Inductive bad (n : Z) : list string → parse_error → Prop :=
| bad_unknown arg rest : arg ∉ one_word ++ two_words ++ three_words → bad n (arg :: rest) (unknown_option arg)
| bad_missing arg : arg ∈ two_words → bad n [arg] (requires_an_argument arg)
| bad_missing_two arg rest : arg ∈ three_words → (length rest < 2)%nat → bad n (arg :: rest) (requires_two_arguments arg)
| bad_logger v rest : v ≠ "stdout"%string → v ≠ "syslog"%string →
    bad n ("--logger"%string :: v :: rest) (wrong_argument "--logger")
| bad_loglevel v rest : parse_loglevel v < 0 → bad n ("--loglevel"%string :: v :: rest) (wrong_argument "--loglevel")
| bad_number f v rest : atoi v < number_min f → bad n (number_name f :: v :: rest) (wrong_argument (number_name f))
| bad_ports ip6 a v rest : atoi v < 0 → bad n (local_name ip6 :: a :: v :: rest) (wrong_argument (local_name ip6))
| bad_channel c v rest : c ∉ blog_channel_list →
    bad n ("--channel-loglevel"%string :: c :: v :: rest) (wrong_channel_argument "--channel-loglevel")
| bad_channel_loglevel c v rest : c ∈ blog_channel_list → parse_loglevel v < 0 →
    bad n ("--channel-loglevel"%string :: c :: v :: rest) (wrong_loglevel_argument "--channel-loglevel")
| bad_many v rest : n = MAX_LISTEN_ADDRS → bad n ("--listen-addr"%string :: v :: rest) (too_many "--listen-addr").

Lemma server_channel_known c : 0 ≤ BLogGlobal_GetChannelByName c ↔ c ∈ blog_channel_list.
Proof. by apply Options.channel_index_found. Qed.

Lemma server_parse_setting s rest o :
  valid s → zlen (listen_addrs o ++ listens s) ≤ MAX_LISTEN_ADDRS →
  parse_loop (render s ++ rest) o = parse_loop rest (apply o s).
Proof.
  intros Hs Hn. destruct s as [| | |[]| | |v|c v|v|[] v|[] a v]; cbn in Hs; try reflexivity.
  - cbn. by rewrite (proj2 (Z.ltb_ge _ _)).
  - destruct Hs as [Hc%server_channel_known Hv]. cbn. by rewrite !(proj2 (Z.ltb_ge _ _)).
  - cbn in *. rewrite length_app in Hn. cbn in Hn. by rewrite (proj2 (Z.eqb_neq _ _)) by lia.
  - cbn. by rewrite (proj2 (Z.ltb_ge _ _)).
  - cbn. by rewrite (proj2 (Z.leb_gt _ _)) by lia.
  - cbn. by rewrite (proj2 (Z.leb_gt _ _)) by lia.
  - cbn. by rewrite (proj2 (Z.ltb_ge _ _)).
  - cbn. by rewrite (proj2 (Z.ltb_ge _ _)).
  - cbn. by rewrite (proj2 (Z.ltb_ge _ _)).
Qed.

(** Membership of a literal in a list of words. *)
Ltac word := apply (bool_decide_unpack _); vm_compute; exact I.

Lemma server_parse_bad rest e o : bad (zlen (listen_addrs o)) rest e → parse_loop rest o = inl e.
Proof.
  intros Hb. destruct Hb as [arg rest Hn|arg Ha|arg rest Ha Hl|v rest H1 H2|v rest Hv|[] v rest Hv|[] a v rest Hv|c v rest Hc|c v rest Hc Hv|v rest Hn].
  - cbn [parse_loop]. repeat match goal with
    | |- context [String.eqb arg ?n] => destruct (String.eqb_spec arg n) as [->|_]; [exfalso; apply Hn; word|]
    end. done.
  - unfold two_words in Ha. repeat (apply elem_of_cons in Ha as [->|Ha]; [reflexivity|]). by apply elem_of_nil in Ha.
  - unfold three_words in Ha. destruct rest as [|? [|? ?]]; cbn in Hl; try lia;
      repeat (apply elem_of_cons in Ha as [->|Ha]; [reflexivity|]); by apply elem_of_nil in Ha.
  - cbn. by rewrite (proj2 (String.eqb_neq _ _) H1), (proj2 (String.eqb_neq _ _) H2).
  - cbn. by rewrite (proj2 (Z.ltb_lt _ _)).
  - cbn in *. by rewrite (proj2 (Z.ltb_lt _ _)).
  - cbn in *. by rewrite (proj2 (Z.leb_le _ _)) by lia.
  - cbn in *. by rewrite (proj2 (Z.leb_le _ _)) by lia.
  - cbn in *. by rewrite (proj2 (Z.ltb_lt _ _)).
  - cbn. by rewrite (proj2 (Z.ltb_lt _ _)).
  - cbn. by rewrite (proj2 (Z.ltb_lt _ _)).
  - cbn. rewrite <- server_channel_known in Hc. by rewrite (proj2 (Z.ltb_lt _ _)) by lia.
  - apply server_channel_known in Hc. cbn. rewrite (proj2 (Z.ltb_ge (BLogGlobal_GetChannelByName c) 0)) by done.
    by rewrite (proj2 (Z.ltb_lt _ _)).
  - cbn. by rewrite (proj2 (Z.eqb_eq _ _)).
Qed.

(** A line starts with a setting or is wrong. *)
Definition decided (n : Z) (args : list string) : Prop :=
  (∃ s rest, valid s ∧ n + zlen (listens s) ≤ MAX_LISTEN_ADDRS ∧ args = render s ++ rest) ∨ ∃ e, bad n args e.

Ltac setting s rest := left; exists s, rest; split_and!; [try done|cbn; try lia|done].

Lemma server_decided_number n f rest : n ≤ MAX_LISTEN_ADDRS → number_name f ∈ two_words → decided n (number_name f :: rest).
Proof.
  intros Hn Hf. destruct rest as [|v rest]; [right; eexists; by apply bad_missing|].
  destruct (Z_lt_dec (atoi v) (number_min f)); [right; eexists; by apply bad_number|]. setting (Number f v) rest. cbn. lia.
Qed.

Lemma decided_local n ip6 rest : n ≤ MAX_LISTEN_ADDRS → local_name ip6 ∈ three_words → decided n (local_name ip6 :: rest).
Proof.
  intros Hn Hf. destruct rest as [|a [|v rest]]; [right; eexists; by apply bad_missing_two; [|cbn; lia]..|].
  destruct (Z_lt_dec (atoi v) 0); [right; eexists; by apply bad_ports|]. setting (LocalUdpAddrs ip6 a v) rest. cbn. lia.
Qed.

Lemma decided_two n arg rest : n ≤ MAX_LISTEN_ADDRS → arg ∈ two_words → decided n (arg :: rest).
Proof.
  intros Hn Ha. destruct rest as [|v rest]; [right; eexists; by apply bad_missing|].
  unfold two_words in Ha. repeat (apply elem_of_cons in Ha as [->|Ha]); [..|by apply elem_of_nil in Ha].
  - destruct (decide (v = "stdout"%string)) as [->|]; [setting (Logger false) rest|].
    destruct (decide (v = "syslog"%string)) as [->|]; [setting (Logger true) rest|].
    right. eexists. by apply bad_logger.
  - setting (SyslogFacility v) rest.
  - setting (SyslogIdent v) rest.
  - destruct (Z_lt_dec (parse_loglevel v) 0); [right; eexists; by apply bad_loglevel|]. setting (Loglevel v) rest. cbn. lia.
  - destruct (decide (n = MAX_LISTEN_ADDRS)); [right; eexists; by apply bad_many|]. setting (ListenAddr v) rest.
  - apply (server_decided_number n UdpMtu); [done|word].
  - apply (server_decided_number n MaxClients); [done|word].
  - apply (server_decided_number n MaxConnectionsForClient); [done|word].
  - apply (server_decided_number n ClientSocketSndbuf); [done|word].
Qed.

Lemma decided_three n arg rest : n ≤ MAX_LISTEN_ADDRS → arg ∈ three_words → decided n (arg :: rest).
Proof.
  intros Hn Ha. unfold three_words in Ha. repeat (apply elem_of_cons in Ha as [->|Ha]); [..|by apply elem_of_nil in Ha].
  - destruct rest as [|c [|v rest]]; [right; eexists; apply bad_missing_two; [word|cbn; lia]..|].
    destruct (decide (c ∈ blog_channel_list)) as [Hc|]; [|right; eexists; by apply bad_channel].
    destruct (Z_lt_dec (parse_loglevel v) 0); [right; eexists; by apply bad_channel_loglevel|].
    setting (ChannelLoglevel c v) rest. cbn. split; [done|lia].
  - apply (decided_local n false); [done|word].
  - apply (decided_local n true); [done|word].
Qed.

Lemma server_all_decided n arg rest : n ≤ MAX_LISTEN_ADDRS → decided n (arg :: rest).
Proof.
  intros Hn. destruct (decide (arg ∈ one_word ++ two_words ++ three_words)) as [Ha|Ha]; [|right; eexists; by apply bad_unknown].
  rewrite !elem_of_app in Ha. destruct Ha as [Ha|[Ha|Ha]]; [|by apply decided_two|by apply decided_three].
  unfold one_word in Ha. repeat (apply elem_of_cons in Ha as [->|Ha]); [..|by apply elem_of_nil in Ha].
  - setting Help rest.
  - setting Version rest.
  - setting UniqueLocalPorts rest.
Qed.

Definition listens_of (l : list setting) : list string := concat (map listens l).

Lemma apply_listens o s : listen_addrs (apply o s) = listen_addrs o ++ listens s.
Proof. by destruct s as [| | |[]| | | | | |[] v|[] a v]; cbn; rewrite ?app_nil_r. Qed.

Lemma server_parse_words l rest o :
  Forall valid l → zlen (listen_addrs o ++ listens_of l) ≤ MAX_LISTEN_ADDRS →
  parse_loop (words l ++ rest) o = parse_loop rest (foldl apply o l).
Proof.
  intros Hl. revert o. induction Hl as [|s l Hs _ IH]; intros o Hn; [done|].
  unfold words, listens_of in *. cbn [map concat foldl] in *. rewrite app_assoc in Hn.
  rewrite <- app_assoc, server_parse_setting; [|done|rewrite length_app in Hn; lia]. apply IH. by rewrite apply_listens.
Qed.

Lemma foldl_listens l o : listen_addrs (foldl apply o l) = listen_addrs o ++ listens_of l.
Proof.
  revert o. induction l as [|s l IH]; intros o; cbn; [by rewrite app_nil_r|].
  rewrite IH, apply_listens. unfold listens_of. cbn. by rewrite app_assoc.
Qed.

Lemma server_words_split n args :
  n ≤ MAX_LISTEN_ADDRS →
  ∃ l rest, Forall valid l ∧ n + zlen (listens_of l) ≤ MAX_LISTEN_ADDRS ∧ args = words l ++ rest ∧
    (rest = [] ∨ ∃ e, bad (n + zlen (listens_of l)) rest e).
Proof.
  remember (length args) as k eqn:Hk. revert n args Hk. induction (lt_wf k) as [k _ IH]. intros n args -> Hn.
  destruct args as [|arg args]; [exists [], []; cbn; split_and!; auto; lia|].
  destruct (server_all_decided n arg args Hn) as [(s & rest & Hs & Hm & Hargs)|He].
  - destruct (IH (length rest)) with (n + zlen (listens s)) rest as (l & rest' & Hl & Hm' & -> & Hr); [|done|done|].
    { rewrite Hargs, length_app. destruct s; cbn; lia. }
    assert (n + zlen (listens s) + zlen (listens_of l) = n + zlen (listens_of (s :: l))) as Heq.
    { unfold listens_of. cbn. rewrite length_app. lia. }
    rewrite Heq in Hm', Hr. exists (s :: l), rest'. split_and!; [by constructor|done| |done].
    rewrite Hargs. unfold words. cbn [map concat]. by rewrite app_assoc.
  - exists [], (arg :: args). cbn. rewrite Z.add_0_r. auto.
Qed.

(** A command line of the server is accepted exactly when it is a list of
    valid settings with at most sixteen addresses to listen on, and then the
    options are the defaults with the settings applied in order; a line that is
    rejected is such a list followed by the word the message is about. *)
Theorem udpgw_arguments_grammar program_name args :
  (∀ o, parse_arguments (program_name :: args) = inr o ↔
     ∃ l, Forall valid l ∧ zlen (listens_of l) ≤ MAX_LISTEN_ADDRS ∧ args = words l ∧
       o = foldl apply (init_options program_name) l) ∧
  (∀ e, parse_arguments (program_name :: args) = inl e ↔
     ∃ l rest, Forall valid l ∧ zlen (listens_of l) ≤ MAX_LISTEN_ADDRS ∧ args = words l ++ rest ∧
       bad (zlen (listens_of l)) rest e).
Proof.
  set (init := init_options program_name).
  assert (∀ l rest, Forall valid l → zlen (listens_of l) ≤ MAX_LISTEN_ADDRS →
    parse_loop (words l ++ rest) init = parse_loop rest (foldl apply init l)) as Hwords by (intros; by apply server_parse_words).
  assert (∀ l rest e, Forall valid l → zlen (listens_of l) ≤ MAX_LISTEN_ADDRS → bad (zlen (listens_of l)) rest e →
    parse_loop (words l ++ rest) init = inl e) as Hbad.
  { intros l rest e Hl Hm Hb. rewrite Hwords by done. apply server_parse_bad. by rewrite foldl_listens. }
  destruct (server_words_split 0 args) as (l & rest & Hl & Hm & -> & Hr); [by vm_compute|]. rewrite Z.add_0_l in *.
  unfold parse_arguments. fold init. split.
  - intros o. split.
    + destruct Hr as [->|[e He]]; [|by rewrite (Hbad l rest e)]. rewrite Hwords by done. intros [= <-]. exists l.
      by rewrite app_nil_r.
    + intros (l' & Hl' & Hm' & -> & ->). rewrite <- (app_nil_r (words l')). by rewrite Hwords.
  - intros e. split.
    + destruct Hr as [->|[e' He]]; [by rewrite Hwords|]. rewrite (Hbad l rest e') by done. intros [= <-]. eauto 10.
    + intros (l' & rest' & Hl' & Hm' & -> & He). by apply Hbad.
Qed.

(** ** Processing *)

Context `{Resolver}.

(** The global variables the options are resolved into. *)
Record globals := mk_globals { listen : list BAddr; local4 : BAddr; local6 : BAddr }.

Inductive process_error :=
| listen_addr_failed | local_udp_addr_failed | local_udp_addr_not_ipv4
| local_udp_ip6_addr_failed | local_udp_ip6_addr_not_ipv6.

(** The first loop; the addresses parsed so far are in [listen_addrs]. *)
Fixpoint resolve_listen (addrs : list string) (done : list BAddr) : process_error + list BAddr :=
  match addrs with
  | [] => inr done
  | s :: addrs =>
      match BAddr_Parse s with
      | None => inl listen_addr_failed
      | Some a => resolve_listen addrs (done ++ [a])
      end
  end.

(** [if (num_ports >= 0) { ... }]; [None]: the string was not set. *)
Definition resolve_local (num_ports : Z) (addr : option string) (type : Z) (failed wrong : process_error) (prev : BAddr) :
    option (process_error + BAddr) :=
  if 0 <=? num_ports then
    s ← addr;
    Some (match BAddr_Parse s with
          | None => inl failed
          | Some a => if BAddr_type a =? type then inr a else inl wrong
          end)
  else Some (inr prev).

Definition process_arguments (o : options_t) (g : globals) : option (process_error + globals) :=
  (* resolve listen addresses *)
  match resolve_listen (listen_addrs o) [] with
  | inl e => Some (inl e)
  | inr ls =>
      (* resolve local UDP address *)
      r4 ← resolve_local (local_udp_num_ports o) (local_udp_addr o) BADDR_TYPE_IPV4
             local_udp_addr_failed local_udp_addr_not_ipv4 (local4 g);
      match r4 with
      | inl e => Some (inl e)
      | inr a4 =>
          (* resolve local UDP/IPv6 address *)
          r6 ← resolve_local (local_udp_ip6_num_ports o) (local_udp_ip6_addr o) BADDR_TYPE_IPV6
                 local_udp_ip6_addr_failed local_udp_ip6_addr_not_ipv6 (local6 g);
          Some (match r6 with inl e => inl e | inr a6 => inr (mk_globals ls a4 a6) end)
      end
  end.

(** What the rest of the server sees of the options. *)
Definition server_config (o : options_t) (g : globals) : UdpGwServer.config :=
  let '(udpgw_mtu, pp_mtu) := UdpGwServer.compute_mtus (udp_mtu o) in
  UdpGwServer.mk_config (udp_mtu o) udpgw_mtu pp_mtu (max_clients o) (max_connections_for_client o)
    (local_udp_num_ports o) (local4 g) (local_udp_ip6_num_ports o) (local6 g) (unique_local_ports o).

(** ** [main] *)

(** What [main] sets up and frees. *)
Inductive resource := TheLogger | TheReactor | TheSignal | Listener (i : nat).

Inductive event :=
| PrintHelp | PrintVersion
| Acquire (r : resource) | Release (r : resource)
| SetChannelLoglevel (channel level : Z)
| EventLoop (cfg : UdpGwServer.config) (addrs : list BAddr)   (** with the server, until its clients are freed *)
| DebugObjectGlobal_Finish.

(** The answers of the system. *)
Record answers := mk_answers {
  syslog_ok : bool; network_ok : bool; reactor_ok : bool; signal_ok : bool; listener_ok : nat → bool
}.

(** configure logger channels *)
Fixpoint set_loglevels (o : options_t) (levels : list Z) (i : Z) : list event :=
  match levels with
  | [] => []
  | l :: levels =>
      (if 0 <=? l then [SetChannelLoglevel i l]
       else if 0 <=? loglevel o then [SetChannelLoglevel i (loglevel o)] else []) ++ set_loglevels o levels (i + 1)
  end.

(** [while (num_listeners > 0) { num_listeners--; BListener_Free(...); }] *)
Fixpoint free_listeners (n : nat) : list event :=
  match n with O => [] | S n => Release (Listener n) :: free_listeners n end.

(** [while (num_listeners < num_listen_addrs) ...]: whether all were set up, how
    many, and what was done. *)
Fixpoint init_listeners (a : answers) (n : nat) (i : nat) : bool * nat * list event :=
  match n with
  | O => (true, i, [])
  | S n =>
      if listener_ok a i then
        let '(ok, k, es) := init_listeners a n (S i) in (ok, k, Acquire (Listener i) :: es)
      else (false, i, [])
  end.

Definition at_fail0 : list event := [DebugObjectGlobal_Finish].
Definition at_fail1 : list event := Release TheLogger :: at_fail0.
Definition at_fail2 : list event := Release TheReactor :: at_fail1.
Definition at_fail3 (num_listeners : nat) : list event := free_listeners num_listeners ++ Release TheSignal :: at_fail2.

(** From the reactor on. *)
Definition serve (a : answers) (o : options_t) (g : globals) : list event :=
  if negb (reactor_ok a) then at_fail1
  else
    Acquire TheReactor ::
    (if negb (signal_ok a) then at_fail2
     else
       Acquire TheSignal ::
       (let '(ok, n, es) := init_listeners a (length (listen g)) 0 in
        es ++ (if ok : bool then [EventLoop (server_config o g) (listen g)] else []) ++ at_fail3 n)).

(** From the logger on. *)
Definition start (a : answers) (o : options_t) (g : globals) : option (list event) :=
  es ← (if negb (network_ok a) then Some at_fail1
        else
          r ← process_arguments o g;
          Some (match r with inl _ => at_fail1 | inr g => serve a o g end));
  Some (Acquire TheLogger :: set_loglevels o (loglevels o) 0 ++ es).

(** The exit code and what was done.  [None]: a string that is not set is used, or
    an assertion fails. *)
Definition main `{Build} (argv : list string) (a : answers) (g : globals) : option (Z * list event) :=
  match argv with
  | [] => Some (1, [])
  | _ =>
      match parse_arguments argv with
      | inl _ => Some (1, PrintHelp :: at_fail0)
      | inr o =>
          if help o then Some (0, [PrintVersion; PrintHelp])
          else if version o then Some (0, [PrintVersion])
          else if logger o =? LOGGER_STDOUT then es ← start a o g; Some (1, es)
          else if logger o =? LOGGER_SYSLOG then
            if syslog_ok a then es ← start a o g; Some (1, es) else Some (1, at_fail0)
          else _ ← assert false; es ← start a o g; Some (1, es)
      end
  end.

(** ** What the options ensure *)

Record options_wf (o : options_t) : Prop := {
  ow_mtu : 0 ≤ udp_mtu o < 2 ^ 31;
  ow_clients : 0 < max_clients o;
  ow_connections : 0 < max_connections_for_client o;
  ow_listen : zlen (listen_addrs o) ≤ MAX_LISTEN_ADDRS;
  ow_local : 0 ≤ local_udp_num_ports o → is_Some (local_udp_addr o);
  ow_local6 : 0 ≤ local_udp_ip6_num_ports o → is_Some (local_udp_ip6_addr o);
  ow_logger : logger o = LOGGER_STDOUT ∨ logger o = LOGGER_SYSLOG
}.

Lemma atoi_max s : atoi s < 2 ^ 31.
Proof. unfold atoi, strtol. destruct (strtol10 s). cbn. unfold LONG_MIN, LONG_MAX. lia. Qed.

Lemma apply_wf o s : options_wf o → valid s → zlen (listen_addrs o ++ listens s) ≤ MAX_LISTEN_ADDRS → options_wf (apply o s).
Proof.
  intros [] Hs Hn. destruct s as [| | |[]| | |v|c v|v|[] v|[] a v]; cbn in *; rewrite ?app_nil_r in Hn;
    try (pose proof (atoi_max v)); split; cbn; eauto; try lia; by eexists || tauto.
Qed.

Lemma foldl_wf l o :
  options_wf o → Forall valid l → zlen (listen_addrs o ++ listens_of l) ≤ MAX_LISTEN_ADDRS → options_wf (foldl apply o l).
Proof.
  intros Ho Hl. revert o Ho. induction Hl as [|s l Hs _ IH]; intros o Ho Hn; [done|]. cbn.
  unfold listens_of in Hn. cbn in Hn. fold (listens_of l) in Hn. rewrite app_assoc in Hn. apply IH.
  - apply apply_wf; [done|done|]. rewrite length_app in Hn. lia.
  - by rewrite apply_listens.
Qed.

Lemma parsed_wf argv o : parse_arguments argv = inr o → options_wf o.
Proof.
  destruct argv as [|program_name args]; [done|]. intros Hp. unfold parse_arguments in Hp.
  destruct (server_words_split 0 args) as (l & rest & Hl & Hm & -> & Hr); [by vm_compute|]. rewrite Z.add_0_l in *.
  rewrite server_parse_words in Hp by done. destruct Hr as [->|[e He]].
  - injection Hp as <-. apply foldl_wf; [|done|done]. split; cbn; unfold DEFAULT_UDP_MTU, DEFAULT_MAX_CLIENTS, DEFAULT_MAX_CONNECTIONS_FOR_CLIENT, MAX_LISTEN_ADDRS; by lia || left.
  - rewrite (server_parse_bad rest e) in Hp; [done|]. by rewrite foldl_listens.
Qed.

Lemma resolve_listen_ok addrs acc :
  match resolve_listen addrs acc with
  | inr ls => ∃ rs, ls = acc ++ rs ∧ Forall2 (λ s a, BAddr_Parse s = Some a) addrs rs
  | inl e => e = listen_addr_failed ∧ ∃ s, s ∈ addrs ∧ BAddr_Parse s = None
  end.
Proof.
  revert acc. induction addrs as [|s addrs IH]; intros acc; cbn; [exists []; by rewrite app_nil_r|].
  destruct (BAddr_Parse s) as [a|] eqn:Ha; [|split; [done|]; exists s; set_solver].
  specialize (IH (acc ++ [a])). destruct (resolve_listen addrs (acc ++ [a])) as [e|ls].
  - destruct IH as [-> (s' & Hs' & Hn)]. split; [done|]. exists s'. set_solver.
  - destruct IH as (rs & -> & Hrs). exists (a :: rs). rewrite <- app_assoc. split; [done|]. by constructor.
Qed.

(** The local addresses that are used have the right type. *)
Definition local_wf (num_ports : Z) (type : Z) (a : BAddr) : Prop := 0 ≤ num_ports → BAddr_type a = type.

Lemma resolve_local_ok num_ports addr type failed wrong prev :
  (0 ≤ num_ports → is_Some addr) →
  ∃ r, resolve_local num_ports addr type failed wrong prev = Some r ∧
    match r with
    | inr a => local_wf num_ports type a
    | inl e => ∃ s, addr = Some s ∧ ((e = failed ∧ BAddr_Parse s = None) ∨
        (e = wrong ∧ ∃ a, BAddr_Parse s = Some a ∧ BAddr_type a ≠ type))
    end.
Proof.
  intros Ha. unfold resolve_local. destruct (Z.leb_spec 0 num_ports) as [Hn|Hn].
  - destruct (Ha Hn) as [s ->]. cbn. eexists. split; [done|]. destruct (BAddr_Parse s) as [a|] eqn:Hp; [|by exists s; auto].
    destruct (Z.eqb_spec (BAddr_type a) type); [by intros _|]. exists s. split; [done|]. right. split; [done|]. by exists a.
  - eexists. split; [done|]. intros ?. lia.
Qed.

(** What the server is given. *)
Definition configured (o : options_t) (g : globals) : Prop :=
  UdpGwServer.config_wf (server_config o g) ∧ Forall2 (λ s a, BAddr_Parse s = Some a) (listen_addrs o) (listen g).

(** Why processing failed. *)
Definition failure (o : options_t) : Prop :=
  (∃ s, s ∈ listen_addrs o ∧ BAddr_Parse s = None) ∨
  (∃ s, local_udp_addr o = Some s ∧ (BAddr_Parse s = None ∨ ∃ a, BAddr_Parse s = Some a ∧ BAddr_type a ≠ BADDR_TYPE_IPV4)) ∨
  (∃ s, local_udp_ip6_addr o = Some s ∧ (BAddr_Parse s = None ∨ ∃ a, BAddr_Parse s = Some a ∧ BAddr_type a ≠ BADDR_TYPE_IPV6)).

Lemma server_process_ok o g :
  options_wf o → ∃ r, process_arguments o g = Some r ∧ match r with inl _ => failure o | inr g' => configured o g' end.
Proof.
  intros Ho. unfold process_arguments. pose proof (resolve_listen_ok (listen_addrs o) []) as Hl.
  destruct (resolve_listen (listen_addrs o) []) as [e|ls].
  { eexists. split; [done|]. destruct Hl as [_ Hl]. by left. }
  destruct Hl as (rs & -> & Hrs). cbn [app].
  destruct (resolve_local_ok (local_udp_num_ports o) (local_udp_addr o) BADDR_TYPE_IPV4
    local_udp_addr_failed local_udp_addr_not_ipv4 (local4 g)) as (r4 & -> & H4); [apply Ho|]. cbn [mbind option_bind].
  destruct r4 as [e|a4].
  { eexists. split; [done|]. right. left. destruct H4 as (s & Hs & [[_ ?]|[_ ?]]); eauto. }
  destruct (resolve_local_ok (local_udp_ip6_num_ports o) (local_udp_ip6_addr o) BADDR_TYPE_IPV6
    local_udp_ip6_addr_failed local_udp_ip6_addr_not_ipv6 (local6 g)) as (r6 & -> & H6); [apply Ho|]. cbn [mbind option_bind].
  eexists. split; [done|]. destruct r6 as [e|a6].
  { right. right. destruct H6 as (s & Hs & [[_ ?]|[_ ?]]); eauto. }
  split; [|done]. unfold server_config. destruct (UdpGwServer.compute_mtus (udp_mtu o)) as [um pm] eqn:Hm.
  destruct Ho. by split.
Qed.

(** ** Resources *)

#[export] Instance resource_eq : EqDecision resource.
Proof. solve_decision. Defined.

(** Resources are held on a stack: what was set up last is freed first. *)
Fixpoint replay (es : list event) (held : list resource) : option (list resource) :=
  match es with
  | [] => Some held
  | Acquire r :: es => replay es (r :: held)
  | Release r :: es =>
      match held with
      | r' :: held => if bool_decide (r = r') then replay es held else None
      | [] => None
      end
  | _ :: es => replay es held
  end.

Lemma server_replay_app es1 es2 h : replay (es1 ++ es2) h = replay es1 h ≫= replay es2.
Proof.
  revert h. induction es1 as [|e es1 IH]; intros h; [done|]. destruct e; cbn; try apply IH.
  destruct h as [|r' h]; [done|]. case_bool_decide; [apply IH|done].
Qed.

Fixpoint listeners (n : nat) : list resource := match n with O => [] | S n => Listener n :: listeners n end.

Lemma replay_free n h : replay (free_listeners n) (listeners n ++ h) = Some h.
Proof. induction n as [|n IH]; [done|]. cbn. by rewrite bool_decide_true. Qed.

Lemma replay_init a n i h :
  let '(ok, k, es) := init_listeners a n i in replay es (listeners i ++ h) = Some (listeners k ++ h).
Proof.
  revert i. induction n as [|n IH]; intros i; cbn; [done|]. destruct (listener_ok a i); [|done].
  specialize (IH (S i)). destruct (init_listeners a n (S i)) as [[ok k] es]. exact IH.
Qed.

Lemma replay_loglevels o levels i h : replay (set_loglevels o levels i) h = Some h.
Proof.
  revert i. induction levels as [|l levels IH]; intros i; [done|]. cbn [set_loglevels].
  by destruct (0 <=? l), (0 <=? loglevel o); cbn.
Qed.

(** What [main] may do: it frees all it has set up, and the event loop runs with a
    well-formed configuration. *)
Definition orderly (o : options_t) (h : list resource) (es : list event) : Prop :=
  replay es h = Some [] ∧
  ∀ cfg addrs, EventLoop cfg addrs ∈ es → ∃ g, configured o g ∧ cfg = server_config o g ∧ addrs = listen g.

Lemma serve_ok a o g : configured o g → orderly o [TheLogger] (serve a o g).
Proof.
  intros Hg. unfold serve. destruct (reactor_ok a); cbn [negb]; [|split; [done|set_solver]].
  destruct (signal_ok a); cbn [negb]; [|split; [done|set_solver]].
  pose proof (replay_init a (length (listen g)) 0 [TheSignal; TheReactor; TheLogger]) as Hi.
  destruct (init_listeners a (length (listen g)) 0) as [[ok n] es] eqn:He. split.
  - cbn. rewrite !server_replay_app. cbn [listeners app] in Hi. rewrite Hi. cbn [mbind option_bind].
    destruct ok; cbn; unfold at_fail3; rewrite server_replay_app, replay_free; done.
  - intros cfg addrs Hin. exists g.
    assert (∀ n i ok k es, init_listeners a n i = (ok, k, es) → EventLoop cfg addrs ∉ es) as Hno.
    { clear. induction n as [|n IH]; intros i ok k es Hi; cbn in Hi; [simplify_eq; set_solver|].
      destruct (listener_ok a i); [|simplify_eq; set_solver]. destruct (init_listeners a n (S i)) as [[ok' k'] es'] eqn:E.
      specialize (IH _ _ _ _ E). simplify_eq. set_solver. }
    assert (∀ n, EventLoop cfg addrs ∉ free_listeners n) as Hnf.
    { clear. induction n as [|n IH]; cbn; set_solver. }
    specialize (Hno _ _ _ _ _ He). unfold at_fail3, at_fail2, at_fail1, at_fail0 in Hin.
    rewrite !elem_of_cons, !elem_of_app, !elem_of_cons in Hin.
    destruct ok; [|set_solver]. specialize (Hnf n). set_solver.
Qed.

Lemma server_start_ok a o g : options_wf o → ∃ es, start a o g = Some es ∧ orderly o [] es.
Proof.
  intros Ho. unfold start.
  assert (∀ es, orderly o [TheLogger] es → orderly o [] (Acquire TheLogger :: set_loglevels o (loglevels o) 0 ++ es)) as Hpre.
  { intros es [Hr He]. split; [cbn; rewrite server_replay_app, replay_loglevels; exact Hr|].
    intros cfg addrs Hin. apply He. apply elem_of_cons in Hin as [?|Hin]; [done|]. apply elem_of_app in Hin as [Hin|Hin]; [|done].
    exfalso. revert Hin. clear. generalize 0. induction (loglevels o) as [|l ls IH]; intros i; cbn; [set_solver|].
    rewrite elem_of_app. intros [Hin|Hin]; [|by eapply IH]. repeat case_match; set_solver. }
  assert (orderly o [TheLogger] at_fail1) as Hf1 by (split; [done|set_solver]).
  destruct (network_ok a); cbn [negb]; [|eexists; split; [done|by apply Hpre]].
  destruct (server_process_ok o g Ho) as (r & -> & Hr). cbn [mbind option_bind]. eexists. split; [done|]. apply Hpre.
  destruct r as [e|g']; [done|by apply serve_ok].
Qed.

(** C38: [main] of the server always ends with an exit code: it frees what it has
    set up in the reverse order on every path, whatever fails, and frees nothing
    it has not; it exits with 0 only for --help and --version; and when it enters
    its event loop, the addresses it listens on are the ones of the command line,
    at most sixteen, and the server's configuration is well-formed: the local
    addresses it binds to have the right type, the limits are positive and the
    MTUs are those of the datagrams. *)
Theorem udpgw_main `{Build} argv a g :
  ∃ code es, main argv a g = Some (code, es) ∧ replay es [] = Some [] ∧
    (code = 0 ↔ ∃ o, parse_arguments argv = inr o ∧ (help o = true ∨ version o = true)) ∧
    ∀ cfg addrs, EventLoop cfg addrs ∈ es → ∃ o, parse_arguments argv = inr o ∧
      UdpGwServer.config_wf cfg ∧ zlen addrs ≤ MAX_LISTEN_ADDRS ∧
      Forall2 (λ s b, BAddr_Parse s = Some b) (listen_addrs o) addrs.
Proof.
  unfold main. destruct argv as [|program_name args].
  { exists 1, []. split_and!; [done|done| |set_solver]. split; [done|]. by intros (o & Hp & _). }
  destruct (parse_arguments (program_name :: args)) as [e|o] eqn:Hp.
  { eexists _, _. split_and!; [done|done| |set_solver]. split; [done|]. by intros (o & ? & _). }
  pose proof (parsed_wf _ _ Hp) as Ho.
  assert (help o = false → version o = false → ∀ es, orderly o [] es → replay es [] = Some [] ∧
    ((1 = 0) ↔ ∃ o', inr o = (inr o' : parse_error + options_t) ∧ (help o' = true ∨ version o' = true)) ∧
    ∀ cfg addrs, EventLoop cfg addrs ∈ es → ∃ o', (inr o : parse_error + options_t) = inr o' ∧
      UdpGwServer.config_wf cfg ∧ zlen addrs ≤ MAX_LISTEN_ADDRS ∧
      Forall2 (λ s b, BAddr_Parse s = Some b) (listen_addrs o') addrs) as Hend.
  { intros Hh Hv es [Hr He]. split; [done|]. split; [split; [done|intros (o' & [= <-] & [?|?]); congruence]|].
    intros cfg addrs (g' & [Hc Hf] & -> & ->)%He. exists o. split_and!; try done.
    rewrite <- (Forall2_length _ _ _ Hf). apply Ho. }
  destruct (help o) eqn:Hh; [eexists _, _; split_and!; [done|done|split; [eauto|done]|set_solver]|].
  destruct (version o) eqn:Hv; [eexists _, _; split_and!; [done|done|split; [eauto|done]|set_solver]|].
  destruct (server_start_ok a o g Ho) as (es & Hst & Hes). rewrite Hst. cbn [mbind option_bind].
  destruct (ow_logger _ Ho) as [-> | ->]; cbn; [eexists _, _; split; [done|by apply Hend]|].
  destruct (syslog_ok a); eexists _, _; (split; [done|]); apply Hend; try done. split; [done|set_solver].
Qed.
End options.
End ServerOptions.

(** ** Examples *)

Section server_options_examples.
Import ServerOptions.
#[local] Instance server_options_build : Build := false.
#[local] Instance server_options_channels : Channels := ["udpgw"; "BConnection"]%string.
#[local] Instance server_options_resolver : Resolver := numeric_resolver.

(** The server listens, serves and stops; or it finds its second address taken. *)
Lemma udpgw_main_example :
  let argv := ["udpgw"; "--listen-addr"; "127.0.0.1:7300"; "--loglevel"; "3"; "--listen-addr"; "10.0.0.1:53";
               "--max-clients"; "7"]%string in
  let g := mk_globals [] BAddr_None BAddr_None in
  (∃ cfg addrs, main argv (mk_answers true true true true (λ _, true)) g =
     Some (1, [Acquire TheLogger; SetChannelLoglevel 0 3; SetChannelLoglevel 1 3; Acquire TheReactor; Acquire TheSignal;
       Acquire (Listener 0); Acquire (Listener 1); EventLoop cfg addrs; Release (Listener 1); Release (Listener 0);
       Release TheSignal; Release TheReactor; Release TheLogger; DebugObjectGlobal_Finish]) ∧
     UdpGwServer.max_clients cfg = 7 ∧ length addrs = 2%nat) ∧
  main argv (mk_answers true true true true (λ i, Nat.eqb i 0)) g =
    Some (1, [Acquire TheLogger; SetChannelLoglevel 0 3; SetChannelLoglevel 1 3; Acquire TheReactor; Acquire TheSignal;
      Acquire (Listener 0); Release (Listener 0); Release TheSignal; Release TheReactor; Release TheLogger;
      DebugObjectGlobal_Finish]).
Proof. split; [eexists _, _; split_and!|]; vm_compute; reflexivity. Qed.
End server_options_examples.
