(* ===== verification/SocksUdpGw.v ===== *)
(** * SocksUdpGw: the gateway client over SOCKS

    Models tun2socks/SocksUdpGwClient.c: it keeps a SOCKS connection to the UDP
    gateway, connects the gateway client to it when it is up, and reconnects
    after a while when it fails.  It uses the gateway client through an
    interface, the class [GwClient], that says what the gateway client promises;
    [UdpGwClient_GwClient] shows that it keeps the promise. *)
From stdpp Require Import relations.
From S2P Require Import Prelude Bytes Addr SocksClient PacketProto Flow UdpGw.

(** ** What the gateway client promises *)

(** [gw_ok]: the states its users see.  Connecting fails or succeeds as the
    allocator answers, and leaves it connected in the second case only;
    disconnecting leaves it unconnected; both, and submitting a packet, run
    without a failed assertion when they are called as their contract says. *)
Class GwClient `{Build} (G : Type) := {
  gw_ok : G → Prop;
  gw_server : G → bool;
  gw_mtu : G → Z;
  gw_fresh : G → option Z → Prop;
  gw_connect : bool → G → option (bool * G);
  gw_disconnect : G → option G;
  gw_submit : option Z → bool → BAddr → BAddr → bool → list Z → G → option (G * list UdpGwClient.event);
  gw_free : G → option (list UdpGwClient.event);
  gw_connect_spec g ok : gw_ok g → gw_server g = false →
    ∃ g', gw_connect ok g = Some (ok, g') ∧ gw_ok g' ∧ gw_server g' = ok;
  gw_disconnect_spec g : gw_ok g → gw_server g = true →
    ∃ g', gw_disconnect g = Some g' ∧ gw_ok g' ∧ gw_server g' = false;
  gw_submit_spec g malloc ok local remote is_dns data :
    gw_ok g → conaddr_wf (UdpGwClient.mk_conaddr local remote) → zlen data ≤ gw_mtu g → gw_fresh g malloc →
    ∃ g' es, gw_submit malloc ok local remote is_dns data g = Some (g', es) ∧ gw_ok g' ∧ gw_server g' = gw_server g;
  gw_free_spec g : gw_ok g → is_Some (gw_free g)
}.

(** ** The client *)

Module SocksUdpGwClient.
Section client.
Context `{Build} {G : Type} `{GwClient G}.

(** [have_socks]: there is a SOCKS client; [reconnect_timer]: the timer runs. *)
Record t := mk {
  udpgw_client : G;
  have_socks : bool;
  socks_up : bool;
  reconnect_timer : bool
}.

Inductive event :=
| SocksInit | SocksFree | TimerSet | TimerRemove
| HandlerReceived (local remote : BAddr) (data : list Z).

Abbreviation IO := (M t event).

Definition set_udpgw (g : G) (o : t) : t := mk g (have_socks o) (socks_up o) (reconnect_timer o).
Definition set_have_socks (b : bool) (o : t) : t := mk (udpgw_client o) b (socks_up o) (reconnect_timer o).
Definition set_socks_up (b : bool) (o : t) : t := mk (udpgw_client o) (have_socks o) b (reconnect_timer o).
Definition set_timer (b : bool) (o : t) : t := mk (udpgw_client o) (have_socks o) (socks_up o) b.

Definition SetTimer : IO unit := mmodify (set_timer true);; emit TimerSet.

Definition free_socks : IO unit :=
  o ← mget;
  ASSERT (have_socks o);;
  (* disconnect udpgw client from SOCKS *)
  when (socks_up o) (g ← mlift (gw_disconnect (udpgw_client o)); mmodify (set_udpgw g));;
  (* free SOCKS client *)
  emit SocksFree;;
  (* set have no SOCKS *)
  mmodify (set_have_socks false).

(** [socks_ok]: [BSocksClient_Init] succeeds. *)
Definition try_connect (socks_ok : bool) : IO unit :=
  o ← mget;
  ASSERT (negb (have_socks o));;
  ASSERT (negb (reconnect_timer o));;
  if socks_ok then
    emit SocksInit;;
    mmodify (set_have_socks true);;
    mmodify (set_socks_up false)
  else
    (* set reconnect timer *)
    SetTimer.

(** The reactor has stopped the timer when it calls the handler. *)
Definition reconnect_timer_handler (socks_ok : bool) : IO unit :=
  o ← mget;
  ASSERT (negb (have_socks o));;
  try_connect socks_ok.

Definition socks_client_handler (decoder_ok : bool) (e : BSocksClient.client_event) : IO unit :=
  o ← mget;
  ASSERT (have_socks o);;
  match e with
  | BSocksClient.EVENT_UP =>
      ASSERT (negb (socks_up o));;
      (* connect udpgw client to SOCKS *)
      '(ok, g) ← mlift (gw_connect decoder_ok (udpgw_client o));
      mmodify (set_udpgw g);;
      if (ok : bool) then mmodify (set_socks_up true)
      else free_socks;; SetTimer
  | _ =>
      free_socks;;
      SetTimer
  end.

Definition udpgw_handler_servererror : IO unit :=
  o ← mget;
  ASSERT (have_socks o);;
  ASSERT (socks_up o);;
  free_socks;;
  SetTimer.

Definition udpgw_handler_received (local remote : BAddr) (data : list Z) : IO unit :=
  emit (HandlerReceived local remote data).

(** [udpgw]: the answer of [UdpGwClient_Init]. *)
Definition SocksUdpGwClient_Init (udpgw : option G) (server remote : BAddr) (socks_ok : bool) :
    option (option (t * list event)) :=
  assert (negb (BAddr_IsInvalid server));;
  assert (UdpGwClient.is_ip remote);;
  match udpgw with
  | None => Some None
  | Some g =>
      '(_, o, es) ← try_connect socks_ok (mk g false false false);
      Some (Some (o, es))
  end.

Definition SocksUdpGwClient_Free : IO (list UdpGwClient.event) :=
  o ← mget;
  when (have_socks o) free_socks;;
  mmodify (set_timer false);;
  emit TimerRemove;;
  o ← mget;
  mlift (gw_free (udpgw_client o)).

Definition SocksUdpGwClient_SubmitPacket (malloc : option Z) (ok : bool)
    (local remote : BAddr) (is_dns : bool) (data : list Z) : IO (list UdpGwClient.event) :=
  o ← mget;
  '(g, es) ← mlift (gw_submit malloc ok local remote is_dns data (udpgw_client o));
  mmodify (set_udpgw g);;
  mret es.

End client.
Arguments t : clear implicits.
End SocksUdpGwClient.

(** ** Runs *)

Section runs.
Context `{Build} {G : Type} `{GwClient G}.
Import SocksUdpGwClient.

Inductive su_call :=
  | SUTimer (socks_ok : bool)
  | SUSocks (decoder_ok : bool) (e : BSocksClient.client_event)
  | SUServerError
  | SUSubmit (malloc : option Z) (ok : bool) (local remote : BAddr) (is_dns : bool) (data : list Z).

(** The timer expires only when it runs; the SOCKS client reports only while
      it is there, up only once; the gateway client reports an error only while
      it is connected. *)
Definition su_allowed (o : t G) (c : su_call) : Prop :=
    match c with
    | SUTimer _ => reconnect_timer o = true
    | SUSocks _ BSocksClient.EVENT_UP => have_socks o = true ∧ socks_up o = false
    | SUSocks _ _ => have_socks o = true
    | SUServerError => gw_server (udpgw_client o) = true
    | SUSubmit malloc _ local remote _ data =>
        conaddr_wf (UdpGwClient.mk_conaddr local remote) ∧ zlen data ≤ gw_mtu (udpgw_client o) ∧
        gw_fresh (udpgw_client o) malloc
    end.

Definition su_run (c : su_call) : M (t G) event unit :=
    match c with
    | SUTimer ok => mmodify (set_timer false);; reconnect_timer_handler ok
    | SUSocks ok e => socks_client_handler ok e
    | SUServerError => udpgw_handler_servererror
    | SUSubmit malloc ok local remote is_dns data =>
        SocksUdpGwClient_SubmitPacket malloc ok local remote is_dns data;; mret tt
    end.

(** Exactly one of the SOCKS client and the timer is there, and the gateway
      client is connected exactly while SOCKS is up. *)
Record su_inv (o : t G) : Prop := {
    su_gw : gw_ok (udpgw_client o);
    su_timer : reconnect_timer o = negb (have_socks o);
    su_server : gw_server (udpgw_client o) = have_socks o && socks_up o
  }.

Lemma wp_lift {S E A} (x : option A) (a : A) (s : S) (Q : A → S → list E → Prop) :
    x = Some a → Q a s [] → wp (mlift x) s Q.
Proof. intros ->. done. Qed.

(** Freeing SOCKS and setting the timer, from a state with SOCKS. *)
Lemma wp_give_up o :
    gw_ok (udpgw_client o) → have_socks o = true → gw_server (udpgw_client o) = socks_up o →
    wp (free_socks;; SetTimer) o (λ _ o' es, su_inv o' ∧ es = [SocksFree; TimerSet]).
Proof.
    intros Hg Hs Hsv. unfold free_socks, SetTimer.
    apply wp_bind, wp_bind, wp_get, wp_bind, wp_assert; [done|]. apply wp_bind.
    destruct (socks_up o) eqn:Hup.
    - destruct (gw_disconnect_spec _ Hg Hsv) as (g & Hd & Hg' & Hsv').
      apply wp_when; [intros _|done]. apply wp_bind. eapply wp_lift; [done|]. apply wp_modify.
      apply wp_bind, wp_emit, wp_modify, wp_bind, wp_modify, wp_emit. split; [by split|done].
    - apply wp_when; [done|intros _]. apply wp_bind, wp_emit, wp_modify, wp_bind, wp_modify, wp_emit.
      split; [by split|done].
Qed.

Lemma su_run_inv o c : su_inv o → su_allowed o c → wp (su_run c) o (λ _ o' _, su_inv o').
Proof.
    intros [Hg Ht Hsv] Ha. destruct c as [ok|ok e| |malloc ok local remote is_dns data]; cbn [su_allowed su_run] in *.
    - rewrite Ha in Ht. symmetry in Ht. apply negb_true_iff in Ht. rewrite Ht in Hsv.
      apply wp_bind, wp_modify. unfold reconnect_timer_handler, try_connect.
      apply wp_bind, wp_get, wp_bind, wp_assert; [cbn; by rewrite Ht|].
      apply wp_bind, wp_get, wp_bind, wp_assert; [cbn; by rewrite Ht|]. apply wp_bind, wp_assert; [done|].
      destruct ok.
      + apply wp_bind, wp_emit, wp_bind, wp_modify, wp_modify. by split.
      + apply wp_bind, wp_modify, wp_emit. split; cbn; [done|by rewrite Ht|by rewrite Ht].
    - assert (Hs : have_socks o = true) by (destruct e; tauto). rewrite Hs in *.
      unfold socks_client_handler. apply wp_bind, wp_get, wp_bind, wp_assert; [done|].
      destruct e; [by eapply wp_mono; [by apply wp_give_up|naive_solver]| |by eapply wp_mono; [by apply wp_give_up|naive_solver]].
      destruct Ha as [_ Hup]. rewrite Hup in *. apply wp_bind, wp_assert; [done|].
      destruct (gw_connect_spec _ ok Hg Hsv) as (g & Hc & Hg' & Hsv'). apply wp_bind. eapply wp_lift; [done|].
      apply wp_bind, wp_modify. destruct ok; [apply wp_modify; split; cbn; try done; by rewrite Hs|].
      eapply wp_mono; [apply wp_give_up; cbn; congruence|naive_solver].
    - rewrite Ha in Hsv. symmetry in Hsv. apply andb_true_iff in Hsv as [Hs Hup].
      unfold udpgw_handler_servererror. apply wp_bind, wp_get, wp_bind, wp_assert; [done|]. apply wp_bind, wp_assert; [done|].
      eapply wp_mono; [apply wp_give_up; congruence|naive_solver].
    - destruct Ha as (Hw & Hz & Hf). destruct (gw_submit_spec _ malloc ok local remote is_dns data Hg Hw Hz Hf) as (g & es & Hsub & Hg' & Hsv').
      unfold SocksUdpGwClient_SubmitPacket. apply wp_bind, wp_bind, wp_get, wp_bind. eapply wp_lift; [done|].
      apply wp_bind, wp_modify, wp_ret, wp_ret. split; cbn; congruence.
Qed.

Inductive su_reach (o0 : t G) : t G → Prop :=
  | su_refl : su_reach o0 o0
  | su_step o c o' es : su_reach o0 o → su_allowed o c → su_run c o = Some (tt, o', es) → su_reach o0 o'.

Lemma su_free_runs o : su_inv o → is_Some (SocksUdpGwClient_Free o).
Proof.
    intros [Hg Ht Hsv].
    assert (Hw : wp SocksUdpGwClient_Free o (λ _ _ _, True)).
    { unfold SocksUdpGwClient_Free. apply wp_bind, wp_get, wp_bind.
      assert (Htail : ∀ o1, gw_ok (udpgw_client o1) →
        wp (mmodify (set_timer false);; emit TimerRemove;; o ← mget; mlift (gw_free (udpgw_client o))) o1 (λ _ _ _, True)).
      { intros o1 Hg1. apply wp_bind, wp_modify, wp_bind, wp_emit, wp_bind, wp_get.
        destruct (gw_free_spec _ Hg1) as [es He]. by eapply wp_lift. }
      destruct (have_socks o) eqn:Hs; cbn [when]; [|apply wp_ret; by apply Htail].
      unfold free_socks. apply wp_bind, wp_get, wp_bind, wp_assert; [done|]. apply wp_bind. rewrite andb_true_l in Hsv.
      destruct (socks_up o) eqn:Hup; cbn [when].
      - destruct (gw_disconnect_spec _ Hg Hsv) as (g & Hd & Hg' & Hsv').
        apply wp_bind. eapply wp_lift; [done|]. apply wp_modify, wp_bind, wp_emit, wp_modify.
        eapply wp_mono; [by apply Htail|done].
      - apply wp_ret, wp_bind, wp_emit, wp_modify. eapply wp_mono; [by apply Htail|done]. }
    apply wp_run in Hw as (? & ? & ? & -> & _). eauto.
Qed.

Lemma su_init_inv g server remote ok o es :
    gw_ok g → gw_server g = false →
    SocksUdpGwClient_Init (Some g) server remote ok = Some (Some (o, es)) → su_inv o.
Proof.
    intros Hg Hs Hi. unfold SocksUdpGwClient_Init in Hi.
    repeat match type of Hi with assert ?x ≫= _ = _ => destruct (assert x); [|done]; cbn [mbind option_bind] in Hi end.
    assert (Hw : wp (try_connect ok) (mk g false false false) (λ _ o' _, su_inv o')).
    { unfold try_connect, SetTimer. apply wp_bind, wp_get, wp_bind, wp_assert; [done|]. apply wp_bind, wp_assert; [done|].
      destruct ok.
      - apply wp_bind, wp_emit, wp_bind, wp_modify, wp_modify. by split.
      - apply wp_bind, wp_modify, wp_emit. by split. }
    destruct (try_connect ok _) as [[[[] o1] es1]|] eqn:Hrun; [|done]. injection Hi as <- <-.
    exact (wp_elim _ _ _ _ _ _ Hw Hrun).
Qed.
End runs.

(** ** The gateway client keeps the promise *)

Section instance.
Context `{Build}.

Definition drop_events {A} (r : option (A * UdpGwClient.t * list UdpGwClient.event)) : option (A * UdpGwClient.t) :=
    (λ x, x.1) <$> r.

#[global] Program Instance UdpGwClient_GwClient : GwClient UdpGwClient.t := {|
    gw_ok := gw_inv;
    gw_server := UdpGwClient.have_server;
    gw_mtu := UdpGwClient.udp_mtu;
    gw_fresh g malloc := ∀ p, malloc = Some p → UdpGwClient.heap g !! p = None;
    gw_connect ok g := drop_events (UdpGwClient.UdpGwClient_ConnectServer ok g);
    gw_disconnect g := snd <$> drop_events (UdpGwClient.UdpGwClient_DisconnectServer g);
    gw_submit malloc ok local remote is_dns data g :=
      (λ x, (x.1.2, x.2)) <$> UdpGwClient.UdpGwClient_SubmitPacket malloc ok local remote is_dns data g;
    gw_free g := snd <$> UdpGwClient.UdpGwClient_Free g
  |}.
  Next Obligation.
    intros g ok Hi Hs. unfold UdpGwClient.UdpGwClient_ConnectServer, ASSERT, mbind, M_bind, mget, mput, emit, mret, M_ret.
    rewrite Hs, orb_true_r. destruct ok; (eexists; split; [reflexivity|]); split; try done.
    by apply (gw_inv_flags g true true).
Qed.
  Next Obligation.
    intros g Hi Hs. unfold UdpGwClient.UdpGwClient_DisconnectServer, UdpGwClient.free_server, ASSERT, mbind, M_bind, mget, mput, emit.
    rewrite Hs, orb_true_r. eexists. split; [reflexivity|]. split; [by apply (gw_inv_flags g true false)|done].
Qed.
  Next Obligation.
    intros g malloc ok local remote is_dns data Hi Hw Hz Hf.
    assert (Hs : wp (UdpGwClient.UdpGwClient_SubmitPacket malloc ok local remote is_dns data) g
                    (λ _ g' _, gw_inv g' ∧ UdpGwClient.have_server g' = UdpGwClient.have_server g)).
    { eapply wp_mono; [by apply wp_submit|]. by intros [] ? ? [? _]. }
    apply wp_run in Hs as ([] & g' & es & -> & Hi' & Hs). by exists g', es.
Qed.
  Next Obligation.
    intros g Hi. unfold UdpGwClient.UdpGwClient_Free.
    assert (Hf : wp (UdpGwClient.UdpGwClient_Free) g (λ _ _ _, True)).
    { apply wp_bind, wp_get, wp_bind. eapply wp_mono; [by apply wp_free_connections|].
      intros [] o' es _. by destruct (UdpGwClient.have_server g). }
    apply wp_run in Hf as ([] & g' & es & Hrun & _). unfold UdpGwClient.UdpGwClient_Free in Hrun. rewrite Hrun. eauto.
Qed.
End instance.

(** C32: The gateway client over SOCKS never stops trying: in every state it
    reaches, either there is a SOCKS client or the reconnect timer runs, and
    never both; the gateway client is connected exactly while the SOCKS client
    is up; every event its parts may report is handled without a failed
    assertion; and it can be freed.  This holds for any gateway client that
    keeps the promise of the interface. *)
Theorem socks_udpgw_reconnects `{Build} {G : Type} `{!GwClient G} g server remote ok o0 es o :
  gw_ok g → gw_server g = false →
  SocksUdpGwClient.SocksUdpGwClient_Init (Some g) server remote ok = Some (Some (o0, es)) →
  su_reach o0 o →
  SocksUdpGwClient.reconnect_timer o = negb (SocksUdpGwClient.have_socks o) ∧
  gw_server (SocksUdpGwClient.udpgw_client o) =
    SocksUdpGwClient.have_socks o && SocksUdpGwClient.socks_up o ∧
  (∀ c, su_allowed o c → is_Some (su_run c o)) ∧
  is_Some (SocksUdpGwClient.SocksUdpGwClient_Free o).
Proof.
  intros Hg Hs Hi Hr. assert (Hinv : su_inv o).
  { induction Hr as [|o c o' es' _ IH Ha Hrun]; [by eapply su_init_inv|].
    exact (wp_elim _ _ _ _ _ _ (su_run_inv o c IH Ha) Hrun). }
  split; [apply Hinv|]. split; [apply Hinv|]. split.
  - intros c Ha. pose proof (proj1 (wp_run _ _ _) (su_run_inv o c Hinv Ha)) as (? & ? & ? & -> & _). eauto.
  - by apply su_free_runs.
Qed.

Lemma socks_udpgw_reconnects_witness :
  let H : Build := false in
  ∃ o : SocksUdpGwClient.t UdpGwClient.t,
    su_run (SUSocks true BSocksClient.EVENT_UP)
      (SocksUdpGwClient.mk demo_gw true false false) = Some (tt, o, []) ∧
    SocksUdpGwClient.reconnect_timer o = negb (SocksUdpGwClient.have_socks o).
Proof.
  intros H. destruct demo_gw_init as (_ & Hi & _).
  assert (Hrun : su_run (SUSocks true BSocksClient.EVENT_UP) (SocksUdpGwClient.mk demo_gw true false false) =
    Some (tt, SocksUdpGwClient.mk (UdpGwClient.with_server true demo_gw) true true false, [])) by reflexivity.
  eexists. split; [exact Hrun|].
  eapply (socks_udpgw_reconnects demo_gw demo_remote demo_remote true _ [SocksUdpGwClient.SocksInit]);
    [exact Hi|reflexivity|reflexivity|].
  eapply su_step; [apply su_refl| |exact Hrun]. done.
Defined.
