(* ===== verification/TcpClient.v ===== *)
(** * TcpClient: relaying TCP connections over SOCKS

    Models the client functions of tun2socks/tun2socks.c
    ([listener_accept_func], [client_*]): one TCP connection accepted by lwIP is
    relayed over one SOCKS connection.  Data from the TCP side waits in [buf]
    until SOCKS has taken it; data from SOCKS is read into [socks_recv_buf] and
    queued into lwIP as its send buffer allows.  Either side may close first;
    the client is deallocated when both are closed.

    lwIP is used through the class [Lwip]; calls into SOCKS and the callbacks
    registered with lwIP are events.  A field of the client that is read or
    written after [client_dealloc] ends the program. *)
From S2P Require Import Prelude Bytes SocksClient.

(** ** lwIP *)

Inductive err_t := ERR_OK | ERR_MEM | ERR_ABRT | ERR_OTHER.

#[global] Instance err_t_eq_dec : EqDecision err_t.
Proof. solve_decision. Defined.

(** What lwIP's raw TCP API documents of the calls used: [tcp_sndbuf] bytes may
    be queued; [tcp_write] with TCP_WRITE_FLAG_COPY queues all of the data or
    fails and queues nothing; [tcp_output] sends from the queue.  [queued] is
    everything ever queued on the pcb. *)
Class Lwip (P : Type) := {
  TCP_WND : Z;
  tcp_sndbuf : P → Z;
  tcp_write : P → list Z → err_t * P;
  tcp_output : P → err_t * P;
  tcp_close : P → err_t;
  queued : P → list Z
}.

Class LwipOk (P : Type) `{Lwip P} : Prop := {
  TCP_WND_pos : 0 < TCP_WND;
  sndbuf_nonneg p : 0 ≤ tcp_sndbuf p;
  write_queued p d e p' : tcp_write p d = (e, p') →
    queued p' = if bool_decide (e = ERR_OK) then queued p ++ d else queued p;
  output_queued p e p' : tcp_output p = (e, p') → queued p' = queued p
}.

(** tun2socks.h *)
Definition CLIENT_SOCKS_RECV_BUF_SIZE : Z := 8192.

Module TcpClient.
Section client.
Context `{Build} {P : Type} `{Lwip P}.

Record t := mk {
  pcb : P;
  client_closed : bool;
  buf : list Z;
  buf_used : Z;
  socks_up : bool;
  socks_closed : bool;
  socks_recv_buf : list Z;
  socks_recv_buf_used : Z;
  socks_recv_buf_sent : Z;
  socks_recv_waiting : bool;
  socks_recv_tcp_pending : Z;
  freed : bool                      (** client_dealloc was called *)
}.

Inductive event :=
| TcpErr (set : bool) | TcpRecv (set : bool) | TcpSent (set : bool)  (** callbacks *)
| TcpClose (err : err_t)           (** with its result *)
| TcpAbort
| TcpRecved (n : Z)
| PbufFree
| SocksFree
| SocksSendInit | SocksRecvInit
| SocksSend (data : list Z)       (** StreamPassInterface_Sender_Send *)
| SocksRecv (len : Z)             (** StreamRecvInterface_Receiver_Recv *)
| SyncCommit                      (** SYNC_COMMIT: pending jobs run here *)
| Dealloc.

Abbreviation IO := (M t event).

(** Every access to the client. *)
Definition client : IO t := o ← mget; if freed o then mabort else mret o.
Definition modify (f : t → t) : IO unit := o ← client; mput (f o).

Definition set_pcb (p : P) (o : t) : t :=
  mk p (client_closed o) (buf o) (buf_used o) (socks_up o) (socks_closed o) (socks_recv_buf o)
     (socks_recv_buf_used o) (socks_recv_buf_sent o) (socks_recv_waiting o) (socks_recv_tcp_pending o) (freed o).
Definition set_client_closed (b : bool) (o : t) : t :=
  mk (pcb o) b (buf o) (buf_used o) (socks_up o) (socks_closed o) (socks_recv_buf o)
     (socks_recv_buf_used o) (socks_recv_buf_sent o) (socks_recv_waiting o) (socks_recv_tcp_pending o) (freed o).
Definition set_buf (b : list Z) (n : Z) (o : t) : t :=
  mk (pcb o) (client_closed o) b n (socks_up o) (socks_closed o) (socks_recv_buf o)
     (socks_recv_buf_used o) (socks_recv_buf_sent o) (socks_recv_waiting o) (socks_recv_tcp_pending o) (freed o).
Definition set_socks (up closed : bool) (o : t) : t :=
  mk (pcb o) (client_closed o) (buf o) (buf_used o) up closed (socks_recv_buf o)
     (socks_recv_buf_used o) (socks_recv_buf_sent o) (socks_recv_waiting o) (socks_recv_tcp_pending o) (freed o).
Definition set_recv (used sent : Z) (waiting : bool) (pending : Z) (o : t) : t :=
  mk (pcb o) (client_closed o) (buf o) (buf_used o) (socks_up o) (socks_closed o) (socks_recv_buf o)
     used sent waiting pending (freed o).
Definition set_freed (o : t) : t :=
  mk (pcb o) (client_closed o) (buf o) (buf_used o) (socks_up o) (socks_closed o) (socks_recv_buf o)
     (socks_recv_buf_used o) (socks_recv_buf_sent o) (socks_recv_waiting o) (socks_recv_tcp_pending o) true.

(** ** Freeing *)

Definition client_dealloc : IO unit :=
  o ← client;
  ASSERT (client_closed o);;
  ASSERT (socks_closed o);;
  (* decrement counter, remove client entry, kill dead var, free memory *)
  modify set_freed;;
  emit Dealloc.

Definition remove_callbacks : IO unit :=
  emit (TcpErr false);; emit (TcpRecv false);; emit (TcpSent false).

(** [client_free_socks] and [client_free_client] call each other through
    [client_handle_freed_client]; a call with both sides open ends in one of
    them with the other closed, which only deallocates.  So the call in each
    is to the version that finds the other side closed. *)

(** [client_handle_freed_client] with [free_socks] for [client_free_socks]. *)
Definition client_handle_freed_client_with (free_socks : IO unit) : IO unit :=
  o ← client;
  ASSERT (negb (client_closed o));;
  (* kill client dead var, set client closed *)
  modify (set_client_closed true);;
  (* if we have data to be sent to SOCKS and can send it, keep sending *)
  if (0 <? buf_used o) && negb (socks_closed o) then mret tt
  else if negb (socks_closed o) then free_socks
  else client_dealloc.

Definition client_free_client_with (free_socks : IO unit) : IO unit :=
  o ← client;
  ASSERT (negb (client_closed o));;
  remove_callbacks;;
  (* free pcb *)
  emit (TcpClose (tcp_close (pcb o)));;
  when (negb (bool_decide (tcp_close (pcb o) = ERR_OK))) (emit TcpAbort);;
  client_handle_freed_client_with free_socks.

Definition client_free_socks_with (free_client : IO unit) : IO unit :=
  o ← client;
  ASSERT (negb (socks_closed o));;
  (* stop receiving from client *)
  when (socks_up o && negb (client_closed o)) (emit (TcpRecv false));;
  (* free SOCKS *)
  emit SocksFree;;
  modify (set_socks (socks_up o) true);;
  (* if we have data to be sent to the client and we can send it, keep sending *)
  if socks_up o && ((0 <=? socks_recv_buf_used o) || (0 <? socks_recv_tcp_pending o)) && negb (client_closed o)
  then mret tt
  else if negb (client_closed o) then free_client
  else client_dealloc.

(** The mutual recursion, unfolded: a call that would go round a second time
    does not happen, since the first side is closed by then. *)
Definition client_free_socks : IO unit :=
  client_free_socks_with (client_free_client_with mabort).
Definition client_handle_freed_client : IO unit :=
  client_handle_freed_client_with (client_free_socks_with mabort).
Definition client_free_client : IO unit :=
  client_free_client_with (client_free_socks_with mabort).

Definition client_abort_client : IO unit :=
  o ← client;
  ASSERT (negb (client_closed o));;
  remove_callbacks;;
  (* free pcb *)
  emit TcpAbort;;
  client_handle_freed_client.

Definition client_murder : IO unit :=
  o ← client;
  when (negb (client_closed o))
    (remove_callbacks;; emit TcpAbort;; modify (set_client_closed true));;
  when (negb (socks_closed o))
    (emit SocksFree;; modify (set_socks (socks_up o) true));;
  client_dealloc.

(** ** From the client to SOCKS *)

Definition client_err_func : IO unit :=
  o ← client;
  ASSERT (negb (client_closed o));;
  client_handle_freed_client.

Definition client_send_to_socks : IO unit :=
  o ← client;
  ASSERT (negb (socks_closed o));;
  ASSERT (socks_up o);;
  ASSERT (0 <? buf_used o);;
  (* schedule sending *)
  emit (SocksSend (ztake (buf_used o) (buf o))).

(** What a callback returns to lwIP.  [R_SYNC]: jobs run synchronously before
    the return; if they free the pcb it is ERR_ABRT, otherwise the pbuf is freed
    and it is ERR_OK. *)
Inductive ret := R_OK | R_MEM | R_ABRT | R_SYNC.

(** [p]: the data of the pbuf; [None] is the end of the stream. *)
Definition client_recv_func (p : option (list Z)) : IO ret :=
  o ← client;
  ASSERT (negb (client_closed o));;
  match p with
  | None =>
      client_free_client;;
      mret R_ABRT
  | Some p =>
      ASSERT (0 <? zlen p);;
      (* check if we have enough buffer *)
      if TCP_WND - buf_used o <? zlen p then mret R_MEM
      else
        (* copy data to buffer *)
        modify (set_buf (zwrite (buf_used o) p (buf o)) (buf_used o + zlen p));;
        (* if there was nothing in the buffer before, and SOCKS is up, start send data *)
        if (buf_used o + zlen p =? zlen p) && socks_up o then
          ASSERT (negb (socks_closed o));;
          client_send_to_socks;;
          emit SyncCommit;;
          mret R_SYNC
        else
          emit PbufFree;;
          mret R_OK
  end.

Definition client_socks_send_handler_done (data_len : Z) : IO unit :=
  o ← client;
  ASSERT (negb (socks_closed o));;
  ASSERT (socks_up o);;
  ASSERT (0 <? buf_used o);;
  ASSERT (0 <? data_len);;
  ASSERT (data_len <=? buf_used o);;
  (* remove sent data from buffer *)
  let rest := ztake (buf_used o - data_len) (zdrop data_len (buf o)) in
  modify (set_buf (zwrite 0 rest (buf o)) (buf_used o - data_len));;
  (* confirm sent data *)
  when (negb (client_closed o)) (emit (TcpRecved data_len));;
  o ← client;
  if 0 <? buf_used o then
    (* send any further data *)
    emit (SocksSend (ztake (buf_used o) (buf o)))
  else when (client_closed o)
    (* client was closed and we've sent everything we had buffered *)
    client_free_socks.

(** ** From SOCKS to the client *)

Definition client_socks_recv_initiate : IO unit :=
  o ← client;
  ASSERT (negb (client_closed o));;
  ASSERT (negb (socks_closed o));;
  ASSERT (socks_up o);;
  ASSERT (socks_recv_buf_used o =? -1);;
  emit (SocksRecv CLIENT_SOCKS_RECV_BUF_SIZE).

Definition client_socks_handler (e : BSocksClient.client_event) : IO unit :=
  o ← client;
  ASSERT (negb (socks_closed o));;
  match e with
  | BSocksClient.EVENT_ERROR => client_free_socks
  | BSocksClient.EVENT_UP =>
      ASSERT (negb (socks_up o));;
      (* init sending, init receiving *)
      emit SocksSendInit;;
      emit SocksRecvInit;;
      modify (λ o, set_recv (-1) (socks_recv_buf_sent o) (socks_recv_waiting o) 0 o);;
      when (negb (client_closed o)) (emit (TcpSent true));;
      (* set up *)
      modify (set_socks true (socks_closed o));;
      (* start sending data if there is any *)
      when (0 <? buf_used o) client_send_to_socks;;
      (* start receiving data if client is still up *)
      o ← client;
      when (negb (client_closed o)) client_socks_recv_initiate
  | BSocksClient.EVENT_ERROR_CLOSED =>
      ASSERT (socks_up o);;
      client_free_socks
  end.

(** The loop of [client_socks_recv_send_out]: [Some true]: all is queued or
    lwIP takes no more; [Some false]: [tcp_write] failed.  Every round queues at
    least a byte, so the bytes left are fuel enough. *)
Fixpoint send_out_loop (fuel : nat) : IO bool :=
  match fuel with
  | O => mabort
  | S fuel =>
      o ← client;
      let to_write := bmin_int (socks_recv_buf_used o - socks_recv_buf_sent o) (tcp_sndbuf (pcb o)) in
      if to_write =? 0 then mret true
      else
        let '(err, p) := tcp_write (pcb o) (ztake to_write (zdrop (socks_recv_buf_sent o) (socks_recv_buf o))) in
        modify (set_pcb p);;
        if negb (bool_decide (err = ERR_OK)) then
          mret (bool_decide (err = ERR_MEM))
        else
          modify (set_recv (socks_recv_buf_used o) (socks_recv_buf_sent o + to_write)
                    (socks_recv_waiting o) (socks_recv_tcp_pending o + to_write));;
          if socks_recv_buf_sent o + to_write <? socks_recv_buf_used o then send_out_loop fuel
          else mret true
  end.

Definition client_socks_recv_send_out : IO Z :=
  o ← client;
  ASSERT (negb (client_closed o));;
  ASSERT (socks_up o);;
  ASSERT (0 <? socks_recv_buf_used o);;
  ASSERT (socks_recv_buf_sent o <? socks_recv_buf_used o);;
  ASSERT (negb (socks_recv_waiting o));;
  written ← send_out_loop (Z.to_nat (socks_recv_buf_used o - socks_recv_buf_sent o));
  if negb written then client_abort_client;; mret (-1)
  else
    (* start sending now *)
    o ← client;
    let '(err, p) := tcp_output (pcb o) in
    modify (set_pcb p);;
    if negb (bool_decide (err = ERR_OK)) then client_abort_client;; mret (-1)
    else
      (* more data to queue? *)
      if socks_recv_buf_sent o <? socks_recv_buf_used o then
        if socks_recv_tcp_pending o =? 0 then client_abort_client;; mret (-1)
        else
          (* set waiting, continue in client_sent_func *)
          modify (set_recv (socks_recv_buf_used o) (socks_recv_buf_sent o) true (socks_recv_tcp_pending o));;
          mret 0
      else
        (* everything was queued *)
        modify (set_recv (-1) (socks_recv_buf_sent o) (socks_recv_waiting o) (socks_recv_tcp_pending o));;
        mret 0.

Definition client_socks_recv_handler_done (data_len : Z) : IO unit :=
  o ← client;
  ASSERT (0 <? data_len);;
  ASSERT (data_len <=? CLIENT_SOCKS_RECV_BUF_SIZE);;
  ASSERT (negb (socks_closed o));;
  ASSERT (socks_up o);;
  ASSERT (socks_recv_buf_used o =? -1);;
  (* if client was closed, stop receiving *)
  if client_closed o then mret tt
  else
    (* set amount of data in buffer *)
    modify (set_recv data_len 0 false (socks_recv_tcp_pending o));;
    (* send to client *)
    r ← client_socks_recv_send_out;
    if r <? 0 then mret tt
    else
      (* continue receiving if needed *)
      o ← client;
      when (socks_recv_buf_used o =? -1) client_socks_recv_initiate.

Definition client_sent_func (len : Z) : IO ret :=
  o ← client;
  ASSERT (negb (client_closed o));;
  ASSERT (socks_up o);;
  ASSERT (0 <? len);;
  ASSERT (len <=? socks_recv_tcp_pending o);;
  (* decrement pending *)
  modify (set_recv (socks_recv_buf_used o) (socks_recv_buf_sent o) (socks_recv_waiting o)
            (socks_recv_tcp_pending o - len));;
  (* continue queuing *)
  if 0 <? socks_recv_buf_used o then
    ASSERT (socks_recv_waiting o);;
    ASSERT (socks_recv_buf_sent o <? socks_recv_buf_used o);;
    (* set not waiting *)
    modify (set_recv (socks_recv_buf_used o) (socks_recv_buf_sent o) false (socks_recv_tcp_pending o - len));;
    (* possibly send more data *)
    r ← client_socks_recv_send_out;
    if r <? 0 then mret R_ABRT
    else
      o ← client;
      (* we just queued some data, so it can't have been confirmed yet *)
      ASSERT (0 <? socks_recv_tcp_pending o);;
      (* continue receiving if needed *)
      if (socks_recv_buf_used o =? -1) && negb (socks_closed o) then
        client_socks_recv_initiate;;
        emit SyncCommit;;
        mret R_SYNC
      else mret R_OK
  else
    (* have we sent everything after SOCKS was closed? *)
    if socks_closed o && (socks_recv_tcp_pending o - len =? 0) then
      client_free_client;;
      mret R_ABRT
    else mret R_OK.

(** A client as [listener_accept_func] leaves it. *)
Definition accepted (p : P) (b rb : list Z) : t :=
  mk p false b 0 false false rb 0 0 false 0 false.

(** ** What surrounds a client

    The lwIP pcb with the callbacks registered on it, and the SOCKS client with
    the operations in progress on its two interfaces.  [tcp_in] is the data lwIP
    delivered and the client accepted, [socks_out] what SOCKS took of it;
    [socks_in] is the data SOCKS delivered while the TCP side was open.  [acked]
    counts the bytes lwIP reported as sent. *)
Record env := mkenv {
  pcb_alive : bool; err_cb : bool; recv_cb : bool; sent_cb : bool;
  socks_alive : bool; inited : bool;
  sending : bool; offered : list Z; receiving : bool;
  deallocs : Z;
  tcp_in : list Z; socks_out : list Z; socks_in : list Z; acked : Z;
  tcp_ended : bool;     (** the TCP side ended on its own or was aborted *)
  socks_ended : bool    (** SOCKS reported an error or the end of its stream *)
}.

Definition set_cb (alive err recv sent : bool) (v : env) : env :=
  mkenv alive err recv sent (socks_alive v) (inited v) (sending v) (offered v) (receiving v)
    (deallocs v) (tcp_in v) (socks_out v) (socks_in v) (acked v) (tcp_ended v) (socks_ended v).
Definition set_io (alive init snd : bool) (off : list Z) (rcv : bool) (v : env) : env :=
  mkenv (pcb_alive v) (err_cb v) (recv_cb v) (sent_cb v) alive init snd off rcv
    (deallocs v) (tcp_in v) (socks_out v) (socks_in v) (acked v) (tcp_ended v) (socks_ended v).
Definition set_log (ti so si : list Z) (ack : Z) (v : env) : env :=
  mkenv (pcb_alive v) (err_cb v) (recv_cb v) (sent_cb v) (socks_alive v) (inited v) (sending v) (offered v)
    (receiving v) (deallocs v) ti so si ack (tcp_ended v) (socks_ended v).
Definition set_ended (te se : bool) (v : env) : env :=
  mkenv (pcb_alive v) (err_cb v) (recv_cb v) (sent_cb v) (socks_alive v) (inited v) (sending v) (offered v)
    (receiving v) (deallocs v) (tcp_in v) (socks_out v) (socks_in v) (acked v) te se.
Definition count_dealloc (v : env) : env :=
  mkenv (pcb_alive v) (err_cb v) (recv_cb v) (sent_cb v) (socks_alive v) (inited v) (sending v) (offered v)
    (receiving v) (deallocs v + 1) (tcp_in v) (socks_out v) (socks_in v) (acked v) (tcp_ended v) (socks_ended v).

(** The contract of every call the client makes: no call on a pcb that is gone
    or on a freed SOCKS client; one send and one receive at a time; the client
    is deallocated once, when both are gone. *)
Definition apply_event (v : env) (e : event) : option env :=
  match e with
  | TcpErr b => if pcb_alive v then Some (set_cb true b (recv_cb v) (sent_cb v) v) else None
  | TcpRecv b => if pcb_alive v then Some (set_cb true (err_cb v) b (sent_cb v) v) else None
  | TcpSent b => if pcb_alive v then Some (set_cb true (err_cb v) (recv_cb v) b v) else None
  | TcpClose err =>
      if pcb_alive v then
        Some (set_cb (negb (bool_decide (err = ERR_OK))) (err_cb v) (recv_cb v) (sent_cb v) v)
      else None
  | TcpAbort =>
      if pcb_alive v && negb (err_cb v) && negb (recv_cb v) && negb (sent_cb v) then
        Some (set_ended true (socks_ended v) (set_cb false false false false v))
      else None
  | TcpRecved n => if pcb_alive v && (0 <? n) then Some v else None
  | PbufFree => Some v
  | SyncCommit => Some v
  | SocksFree => if socks_alive v then Some (set_io false false false [] false v) else None
  | SocksSendInit => if socks_alive v && negb (inited v) then Some v else None
  | SocksRecvInit =>
      if socks_alive v && negb (inited v) then
        Some (set_io true true (sending v) (offered v) (receiving v) v)
      else None
  | SocksSend d =>
      if inited v && negb (sending v) && (0 <? zlen d) then
        Some (set_io true true true d (receiving v) v)
      else None
  | SocksRecv n =>
      if inited v && negb (receiving v) && (0 <? n) then
        Some (set_io true true (sending v) (offered v) true v)
      else None
  | Dealloc =>
      if negb (pcb_alive v) && negb (socks_alive v) && (deallocs v =? 0)
      then Some (count_dealloc v) else None
  end.

(** What can happen next: lwIP calls back or works on the pcb, SOCKS reports,
    the program ends. *)
Inductive action :=
| ARecv (p : option (list Z)) | AErr | ASent (n : Z)
| ALwip (p : P)
| ASocks (e : BSocksClient.client_event)
| ASendDone (n : Z) | ARecvDone (d : list Z)
| AMurder.

Definition allowed (o : t) (v : env) (a : action) : Prop :=
  match a with
  | ARecv None => recv_cb v = true
  | ARecv (Some d) => recv_cb v = true ∧ 0 < zlen d
  | AErr => err_cb v = true
  | ASent n => sent_cb v = true ∧ 0 < n ∧ acked v + n ≤ zlen (queued (pcb o))
  | ALwip p => pcb_alive v = true ∧ queued p = queued (pcb o)
  | ASocks BSocksClient.EVENT_UP => socks_alive v = true ∧ inited v = false
  | ASocks BSocksClient.EVENT_ERROR => socks_alive v = true
  | ASocks BSocksClient.EVENT_ERROR_CLOSED => socks_alive v = true ∧ inited v = true
  | ASendDone n => sending v = true ∧ 0 < n ≤ zlen (offered v)
  | ARecvDone d => receiving v = true ∧ 0 < zlen d ≤ CLIENT_SOCKS_RECV_BUF_SIZE
  | AMurder => deallocs v = 0
  end.

(** SOCKS writes received data to the buffer it was given. *)
Definition fill_recv_buf (d : list Z) (o : t) : t :=
  mk (pcb o) (client_closed o) (buf o) (buf_used o) (socks_up o) (socks_closed o) (zwrite 0 d (socks_recv_buf o))
     (socks_recv_buf_used o) (socks_recv_buf_sent o) (socks_recv_waiting o) (socks_recv_tcp_pending o) (freed o).

Definition run {A} (m : IO A) (o : t) (v : env) : option (A * t * env) :=
  '(a, o', es) ← m o;
  v' ← replay apply_event v es;
  Some (a, o', v').

Definition act (o : t) (v : env) (a : action) : option (t * env) :=
  match a with
  | ARecv None =>
      '(_, o', v') ← run (client_recv_func None) o (set_ended true (socks_ended v) v);
      Some (o', v')
  | ARecv (Some d) =>
      '(r, o', v') ← run (client_recv_func (Some d)) o v;
      Some (o', match r with
                | R_MEM => v'        (* lwIP keeps the data and offers it again *)
                | _ => set_log (tcp_in v' ++ d) (socks_out v') (socks_in v') (acked v') v'
                end)
  | AErr =>
      '(_, o', v') ← run client_err_func o (set_ended true (socks_ended v) (set_cb false false false false v));
      Some (o', v')
  | ASent n =>
      '(_, o', v') ← run (client_sent_func n) o (set_log (tcp_in v) (socks_out v) (socks_in v) (acked v + n) v);
      Some (o', v')
  | ALwip p => Some (set_pcb p o, v)
  | ASocks e =>
      let ended := match e with BSocksClient.EVENT_UP => socks_ended v | _ => true end in
      '(_, o', v') ← run (client_socks_handler e) o (set_ended (tcp_ended v) ended v);
      Some (o', v')
  | ASendDone n =>
      '(_, o', v') ← run (client_socks_send_handler_done n) o
         (set_log (tcp_in v) (socks_out v ++ ztake n (offered v)) (socks_in v) (acked v)
            (set_io true true false [] (receiving v) v));
      Some (o', v')
  | ARecvDone d =>
      let si := if client_closed o then socks_in v else socks_in v ++ d in
      '(_, o', v') ← run (client_socks_recv_handler_done (zlen d)) (fill_recv_buf d o)
         (set_log (tcp_in v) (socks_out v) si (acked v)
            (set_io true true (sending v) (offered v) false v));
      Some (o', v')
  | AMurder =>
      '(_, o', v') ← run client_murder o (set_ended true true v);
      Some (o', v')
  end.

Definition env0 : env :=
  mkenv true true true false true false false [] false 0 [] [] [] 0 false false.

Inductive reach : t → env → Prop :=
| reach_accept p b rb :
    queued p = [] → zlen b = TCP_WND → zlen rb = CLIENT_SOCKS_RECV_BUF_SIZE →
    reach (accepted p b rb) env0
| reach_act o v a o' v' :
    reach o v → allowed o v a → act o v a = Some (o', v') → reach o' v'.

(** ** The invariant *)

Context `{LO : !LwipOk P}.

(** The bytes of [buf] that wait for SOCKS, and of [socks_recv_buf] that wait
    for lwIP. *)
Definition to_socks (o : t) : list Z := ztake (buf_used o) (buf o).
Definition to_tcp (o : t) : list Z :=
  if socks_up o && (0 <=? socks_recv_buf_used o) then
    ztake (socks_recv_buf_used o - socks_recv_buf_sent o) (zdrop (socks_recv_buf_sent o) (socks_recv_buf o))
  else [].

(** The lwIP side. *)
Definition pcb_ok (o : t) (v : env) : Prop :=
  pcb_alive v = negb (client_closed o) ∧
  err_cb v = negb (client_closed o) ∧
  recv_cb v = negb (client_closed o) && negb (socks_closed o) ∧
  sent_cb v = negb (client_closed o) && socks_up o.

(** The direction to SOCKS. *)
Definition out_ok (o : t) (v : env) : Prop :=
  zlen (buf o) = TCP_WND ∧ 0 ≤ buf_used o ≤ TCP_WND ∧
  socks_alive v = negb (socks_closed o) ∧
  inited v = negb (socks_closed o) && socks_up o ∧
  sending v = negb (socks_closed o) && socks_up o && (0 <? buf_used o) ∧
  (sending v = true → offered v `prefix_of` to_socks o) ∧
  (socks_closed o = false → tcp_in v = socks_out v ++ to_socks o) ∧
  socks_out v `prefix_of` tcp_in v.

(** The direction from SOCKS, up to the reception in progress. *)
Definition in_data (o : t) (v : env) : Prop :=
  zlen (socks_recv_buf o) = CLIENT_SOCKS_RECV_BUF_SIZE ∧
  (client_closed o = false → socks_in v = queued (pcb o) ++ to_tcp o) ∧
  queued (pcb o) `prefix_of` socks_in v ∧
  (socks_up o = false → queued (pcb o) = [] ∧ acked v = 0) ∧
  0 ≤ acked v ≤ zlen (queued (pcb o)) ∧
  (socks_up o = true → socks_recv_tcp_pending o = zlen (queued (pcb o)) - acked v).

Definition in_ok (o : t) (v : env) : Prop :=
  in_data o v ∧
  (receiving v = true → socks_up o = true ∧ socks_closed o = false ∧ socks_recv_buf_used o = -1) ∧
  (client_closed o = false → socks_up o = true →
     (socks_closed o = false → socks_recv_buf_used o = -1 → receiving v = true) ∧
     (socks_recv_buf_used o = -1 ∨
      0 ≤ socks_recv_buf_sent o < socks_recv_buf_used o ∧
      socks_recv_buf_used o ≤ CLIENT_SOCKS_RECV_BUF_SIZE ∧
      socks_recv_waiting o = true ∧ 0 < socks_recv_tcp_pending o)).

Definition live_ok (o : t) : Prop :=
  (client_closed o = true → socks_closed o = false ∧ 0 < buf_used o) ∧
  (socks_closed o = true → socks_up o = true ∧
     (0 ≤ socks_recv_buf_used o ∨ 0 < socks_recv_tcp_pending o)).

(** After both sides are gone. *)
Definition dead_ok (o : t) (v : env) : Prop :=
  client_closed o = true ∧ socks_closed o = true ∧
  pcb_alive v = false ∧ socks_alive v = false ∧
  err_cb v = false ∧ recv_cb v = false ∧ sent_cb v = false ∧
  inited v = false ∧ sending v = false ∧ receiving v = false ∧
  socks_out v `prefix_of` tcp_in v ∧ queued (pcb o) `prefix_of` socks_in v.

(** What an orderly end has delivered. *)
Definition ends_ok (o : t) (v : env) : Prop :=
  (socks_closed o = true → socks_ended v = false → socks_out v = tcp_in v) ∧
  (client_closed o = true → tcp_ended v = false →
     queued (pcb o) = socks_in v ∧ acked v = zlen (socks_in v)).

Definition Inv (o : t) (v : env) : Prop :=
  ends_ok o v ∧
  if freed o then deallocs v = 1 ∧ dead_ok o v
  else deallocs v = 0 ∧ pcb_ok o v ∧ out_ok o v ∧ in_ok o v ∧ live_ok o.

Local Ltac run_client :=
  repeat (first
    [ wpe_step
    | match goal with
      | |- wpe _ client _ _ _ => unfold client
      | |- wpe _ (modify _) _ _ _ => unfold modify, client
      | |- wpe _ remove_callbacks _ _ _ => unfold remove_callbacks
      | |- wpe _ client_dealloc _ _ _ => unfold client_dealloc
      | |- wpe _ (client_free_socks_with _) _ _ _ => unfold client_free_socks_with
      | |- wpe _ (client_free_client_with _) _ _ _ => unfold client_free_client_with
      | |- wpe _ (client_handle_freed_client_with _) _ _ _ => unfold client_handle_freed_client_with
      end ]; cbn in * ).


Local Ltac open_client o v :=
  destruct o as [op oc ob obu osu osc orb oru ors orw orp ofr],
           v as [va ve vr vs vsa vi vse vo vrc vd vti vso vsi vk vte vee].

Local Ltac client_defs :=
  unfold Inv, ends_ok, dead_ok, pcb_ok, out_ok, in_ok, in_data, live_ok, to_socks, to_tcp in *; cbn in *.

(** Closes the parts of the invariant that are about flags and counters. *)
Local Ltac client_auto :=
  intros; client_defs; destruct_and?; subst; bool_props; subst;
  repeat match goal with H : ?a = ?a → _ |- _ => specialize (H eq_refl) end;
  destruct_and?; subst; split_and?; intros; bool_props; subst;
  try match goal with |- ?b = false => destruct b; naive_solver end;
  rewrite ?ztake_nonpos, ?app_nil_r in * by lia;
  try first [done | lia | congruence | by apply prefix_app_r | tauto
    | match goal with Hx : _ = true → ?q |- ?q => apply Hx; cbn; apply Z.ltb_lt; lia end].

(** The TCP side is gone (the pcb and its callbacks), the client not yet told. *)
Definition pcb_gone (o : t) (v : env) : Prop :=
  freed o = false ∧ deallocs v = 0 ∧ client_closed o = false ∧
  pcb_alive v = false ∧ err_cb v = false ∧ recv_cb v = false ∧ sent_cb v = false ∧
  out_ok o v ∧ in_data o v ∧
  (receiving v = true → socks_up o = true ∧ socks_closed o = false ∧ socks_recv_buf_used o = -1) ∧
  (socks_closed o = true → socks_ended v = false → socks_out v = tcp_in v) ∧
  (tcp_ended v = false → queued (pcb o) = socks_in v ∧ acked v = zlen (socks_in v)).

(** In every state of the client, what is needed to give up its TCP side. *)
Definition closable (o : t) (v : env) : Prop :=
  freed o = false ∧ deallocs v = 0 ∧ client_closed o = false ∧
  pcb_alive v = true ∧ out_ok o v ∧ in_data o v ∧
  (receiving v = true → socks_up o = true ∧ socks_closed o = false ∧ socks_recv_buf_used o = -1) ∧
  (socks_closed o = true → socks_ended v = false → socks_out v = tcp_in v).

Definition delivered (o : t) (v : env) : Prop :=
  tcp_ended v = false → queued (pcb o) = socks_in v ∧ acked v = zlen (socks_in v).

Lemma handle_freed_client_ok f o v :
  pcb_gone o v → (socks_closed o = false → f = client_free_socks_with mabort) →
  wpe apply_event (client_handle_freed_client_with f) o v (λ _ o' v', Inv o' v').
Proof.
  intros (Hf & Hd & Hc & Hp & He & Hr & Hs & Ho & Hi & Hrcv & He1 & He2) Hcall.
  open_client o v; client_defs. destruct_and!; subst.
  destruct osc, osu; cbn in *; try rewrite Hcall by done; run_client; bool_props; try done.
  all: client_auto; naive_solver.
Qed.

Lemma free_client_ok f o v :
  closable o v → delivered o v → (socks_closed o = false → f = client_free_socks_with mabort) →
  wpe apply_event (client_free_client_with f) o v (λ _ o' v', Inv o' v').
Proof.
  unfold closable, delivered, client_free_client_with. intros Hc Hdl Hf.
  open_client o v; client_defs. destruct_and!; subst. cbn in *.
  destruct (bool_decide (tcp_close op = ERR_OK)) eqn:Hcl;
    (repeat (first [wpe_step | progress unfold client, remove_callbacks]; cbn in *;
       rewrite ?Hcl; cbn; try reflexivity)); try done.
  all: apply handle_freed_client_ok; [|done]; unfold pcb_gone; client_defs; client_auto.
Qed.

Lemma abort_client_ok o v :
  closable o v → wpe apply_event client_abort_client o v (λ _ o' v', Inv o' v').
Proof.
  unfold closable, client_abort_client, client_handle_freed_client. intros Hc.
  open_client o v; client_defs. destruct_and!; subst. cbn in *.
  repeat (first [wpe_step | progress unfold client, remove_callbacks]; cbn in *); try done.
  apply handle_freed_client_ok; [|done]. unfold pcb_gone. client_defs. client_auto.
Qed.

Lemma to_tcp_idle o : socks_up o = false ∨ socks_recv_buf_used o < 0 → to_tcp o = [].
Proof.
  unfold to_tcp. intros [->|Hu]; [done|].
  destruct (Z.leb_spec 0 (socks_recv_buf_used o)); [lia|]. by rewrite andb_false_r.
Qed.

Lemma in_ok_delivered o v :
  in_data o v → client_closed o = false →
  socks_up o = false ∨ socks_recv_buf_used o < 0 ∧ socks_recv_tcp_pending o ≤ 0 →
  queued (pcb o) = socks_in v ∧ acked v = zlen (socks_in v).
Proof.
  intros (Hl & Hin & Hp & Hn & Ha & Hpend) Hc Hd. rewrite Hin by done.
  rewrite to_tcp_idle, app_nil_r by naive_solver.
  destruct (socks_up o) eqn:Hup.
  - destruct Hd as [?|[_ Hd]]; [done|]. rewrite Hpend in Hd by done. split; [done|lia].
  - destruct Hn as [Hq Hk]; [done|]. rewrite Hq, Hk. done.
Qed.

Lemma free_socks_ok o v :
  freed o = false → deallocs v = 0 → socks_closed o = false →
  pcb_ok o v → out_ok o v → in_ok o v →
  (client_closed o = true → delivered o v) →
  (socks_ended v = false → socks_out v = tcp_in v) →
  wpe apply_event client_free_socks o v (λ _ o' v', Inv o' v').
Proof.
  intros Hf Hd Hc Hp Ho Hi Hcl He. unfold client_free_socks, client_free_socks_with, delivered in *.
  pose proof (in_ok_delivered o v (proj1 Hi)) as Hdel.
  open_client o v; client_defs. destruct_and!; subst. destruct osu, oc; cbn in *.
  all: (repeat (first [wpe_step | progress unfold client, modify, client_dealloc]; cbn in *)); try done.
  all: try (client_auto; fail).
  all: apply free_client_ok; [unfold closable; client_defs|unfold delivered; cbn|done].
  - clear Hdel. client_auto.
  - intros. apply Hdel; [done|]. bool_props. destruct_or?; bool_props; lia || done.
  - clear Hdel. client_auto.
  - intros. apply Hdel; [done|]. by left.
Qed.


(** [Inv] from its parts, for a client that is not freed. *)
Lemma Inv_live o v :
  freed o = false → deallocs v = 0 → pcb_ok o v → out_ok o v → in_ok o v → live_ok o → ends_ok o v →
  Inv o v.
Proof. intros Hf **. unfold Inv. rewrite Hf. done. Qed.

(** While a callback of the pcb is registered or an operation is in progress,
    the client is there. *)
Lemma Inv_callback o v :
  Inv o v → err_cb v = true ∨ recv_cb v = true ∨ sent_cb v = true ∨
            sending v = true ∨ receiving v = true ∨ socks_alive v = true ∨ deallocs v = 0 →
  freed o = false ∧ deallocs v = 0 ∧ pcb_ok o v ∧ out_ok o v ∧ in_ok o v ∧ live_ok o ∧ ends_ok o v.
Proof.
  intros [He HI] Hcb. destruct (freed o); [|naive_solver].
  exfalso. destruct HI as [Hd1 HI]. unfold dead_ok in HI. destruct_and!. rewrite Hd1 in Hcb.
  destruct_or!; congruence.
Qed.

Lemma pcb_ok_callbacks o v :
  pcb_ok o v →
  (recv_cb v = true → client_closed o = false ∧ socks_closed o = false) ∧
  (err_cb v = true → client_closed o = false) ∧
  (sent_cb v = true → client_closed o = false ∧ socks_up o = true).
Proof.
  intros (_ & -> & -> & ->). split_and!; intros; by bool_props.
Qed.

Lemma wpe_client o v Q : freed o = false → Q o o v → wpe apply_event client o v Q.
Proof. intros Hf HQ. unfold client. wpe_step. wpe_step. by rewrite Hf; wpe_step. Qed.

Lemma send_event v d :
  inited v = true → sending v = false → 0 < zlen d →
  apply_event v (SocksSend d) = Some (set_io true true true d (receiving v) v).
Proof. intros Hi Hs Hd. cbn. rewrite Hi, Hs. by destruct (Z.ltb_spec 0 (zlen d)); [|lia]. Qed.

Lemma recv_event v :
  inited v = true → receiving v = false →
  apply_event v (SocksRecv CLIENT_SOCKS_RECV_BUF_SIZE) = Some (set_io true true (sending v) (offered v) true v).
Proof. intros Hi Hr. cbn. by rewrite Hi, Hr. Qed.

Lemma recved_event v n : pcb_alive v = true → 0 < n → apply_event v (TcpRecved n) = Some v.
Proof. intros Hp Hn. cbn. by rewrite Hp, (proj2 (Z.ltb_lt 0 n)) by lia. Qed.

Local Ltac client_step :=
  first
    [ lazymatch goal with
      | |- wpe _ (emit (SocksSend _)) _ _ _ => eapply wpe_emit; [apply send_event|]
      | |- wpe _ (emit (TcpRecved _)) _ _ _ => eapply wpe_emit; [apply recved_event|]
      | |- wpe _ (emit (SocksRecv _)) _ _ _ => eapply wpe_emit; [apply recv_event|]
      end
    | wpe_step | progress unfold client, modify ].
Local Ltac client_steps := repeat (client_step; cbn in * ).
Local Ltac client_run := repeat (client_step; cbn beta).

Lemma recv_func_none_ok o v :
  Inv o v → recv_cb v = true →
  wpe apply_event (client_recv_func None) o (set_ended true (socks_ended v) v) (λ _ o' v', Inv o' v').
Proof.
  intros HI Hr. destruct (Inv_callback _ _ HI) as (Hf & Hd & Hp & Ho & Hi & Hl & He); [tauto|].
  destruct (proj1 (pcb_ok_callbacks _ _ Hp) Hr) as [Hc1 Hs1].
  assert (closable o (set_ended true (socks_ended v) v)) as Hc.
  { unfold closable. clear HI. open_client o v; client_defs. destruct_and!; subst. client_auto. }
  unfold client_recv_func. client_steps; [congruence|by rewrite Hc1|].
  eapply wpe_mono; [by apply free_client_ok|]. intros. by wpe_step.
Qed.

Lemma to_socks_append o d :
  zlen (buf o) = TCP_WND → 0 ≤ buf_used o → buf_used o + zlen d ≤ TCP_WND →
  ztake (buf_used o + zlen d) (zwrite (buf_used o) d (buf o)) = to_socks o ++ d.
Proof.
  intros. unfold zwrite, to_socks. rewrite app_assoc.
  apply ztake_app_exact. rewrite zlen_app, zlen_ztake; lia.
Qed.

Lemma recv_func_some_ok o v d :
  Inv o v → recv_cb v = true → 0 < zlen d →
  wpe apply_event (client_recv_func (Some d)) o v (λ r o' v',
    Inv o' (match r with R_MEM => v'
            | _ => set_log (tcp_in v' ++ d) (socks_out v') (socks_in v') (acked v') v' end)).
Proof.
  intros HI Hr Hd. destruct (Inv_callback _ _ HI) as (Hf & Hde & Hp & Ho & Hi & Hl & He); [tauto|].
  destruct (proj1 (pcb_ok_callbacks _ _ Hp) Hr) as [Hc1 Hs1].
  pose proof (to_socks_append o d) as Happ. clear HI Hr.
  unfold client_recv_func, client_send_to_socks.
  open_client o v; client_defs. destruct_and!; subst. cbn in *.
  client_steps; bool_props; try done; try lia.
  - rewrite zlen_ztake; zw_len; lia.
  - rewrite H21 in * by done. rewrite Happ, <- app_assoc, zlen_zwrite by lia. clear Happ.
    rewrite (proj2 (Z.ltb_lt 0 (obu + zlen d))) by lia. subst osu. client_auto.
  - rewrite H21 in * by done. rewrite Happ, <- app_assoc, zlen_zwrite by lia. clear Happ.
    assert (osu && (0 <? obu) = osu && (0 <? obu + zlen d)) as Hsend.
    { rewrite (proj2 (Z.ltb_lt 0 (obu + zlen d))) by lia.
      destruct osu; cbn; [|done]. apply Z.ltb_lt. destruct_or!; bool_props; lia || done. }
    split_and!; try done; try lia; intros; try by apply prefix_app_r.
    apply prefix_app_r. auto.
Qed.

(** The buffer after SOCKS took [n] bytes from its front. *)
Lemma to_socks_consume o n :
  0 ≤ buf_used o ≤ zlen (buf o) → 0 ≤ n ≤ buf_used o →
  ztake (buf_used o - n) (zwrite 0 (ztake (buf_used o - n) (zdrop n (buf o))) (buf o)) = zdrop n (to_socks o).
Proof.
  intros Hu Hn. unfold zwrite, to_socks. change (ztake 0 (buf o)) with (@nil Z). cbn [app].
  rewrite ztake_app_exact by (rewrite zlen_ztake; rewrite ?zlen_zdrop; lia).
  unfold ztake, zdrop. rewrite skipn_firstn_comm. f_equal. lia.
Qed.

Lemma ztake_prefix {A} n (l k : list A) : l `prefix_of` k → n ≤ zlen l → ztake n l = ztake n k.
Proof. intros [x ->] Hn. unfold ztake. rewrite take_app_le by lia. done. Qed.

Lemma prefix_zlen {A} (l k : list A) : l `prefix_of` k → zlen l ≤ zlen k.
Proof. intros Hp. apply prefix_length in Hp. lia. Qed.

(** No send in progress: the data SOCKS has taken and the data that waits for it. *)
Definition out_idle (o : t) (v : env) : Prop :=
  zlen (buf o) = TCP_WND ∧ 0 ≤ buf_used o ≤ TCP_WND ∧
  socks_closed o = false ∧ socks_up o = true ∧ socks_alive v = true ∧ inited v = true ∧
  sending v = false ∧ tcp_in v = socks_out v ++ to_socks o.

(** Sends the data that waits, or gives up SOCKS when it is all that was left. *)
Lemma send_more_ok o v :
  freed o = false → deallocs v = 0 → pcb_ok o v → out_idle o v → in_ok o v → ends_ok o v →
  wpe apply_event
    (o ← client; if 0 <? buf_used o then emit (SocksSend (ztake (buf_used o) (buf o)))
                 else when (client_closed o) client_free_socks) o v (λ _ o' v', Inv o' v').
Proof.
  intros Hf Hd Hp (Hb & Hu & Hsc & Hup & Hsa & Hin & Hs & Hdata) Hi He.
  client_run; rewrite ?Hf in *; try done; bool_props.
  - rewrite zlen_ztake; lia.
  - apply Inv_live; try done.
    + unfold out_ok, to_socks; cbn. rewrite Hsc, Hup, (proj2 (Z.ltb_lt _ _)) by lia.
      unfold to_socks in Hdata. rewrite Hdata. split_and!; try done; try lia. by apply prefix_app_r.
    + unfold live_ok. rewrite Hsc. done.
  - assert (buf_used o = 0) as Hz by lia. unfold to_socks in Hdata. rewrite Hz, app_nil_r in Hdata.
    apply free_socks_ok; try done.
    + unfold out_ok, to_socks. rewrite Hsc, Hup, Hz, Hsa, Hin, Hs, Hdata.
      change (ztake 0 (buf o)) with (@nil Z). rewrite app_nil_r.
      split_and!; try done; try lia.
    + intros Hc. exact (proj2 He Hc).
  - assert (buf_used o = 0) as Hz by lia. unfold to_socks in Hdata. rewrite Hz, app_nil_r in Hdata.
    apply Inv_live; try done.
    + unfold out_ok, to_socks. rewrite Hsc, Hup, Hz, Hsa, Hin, Hs, Hdata.
      change (ztake 0 (buf o)) with (@nil Z). rewrite app_nil_r.
      split_and!; try done; try lia.
    + unfold live_ok. rewrite Hsc. split; [|done]. intros. congruence.
Qed.

Definition after_send (n : Z) (v : env) : env :=
  set_log (tcp_in v) (socks_out v ++ ztake n (offered v)) (socks_in v) (acked v)
    (set_io true true false [] (receiving v) v).

Lemma send_done_ok o v n :
  Inv o v → sending v = true → 0 < n ≤ zlen (offered v) →
  wpe apply_event (client_socks_send_handler_done n) o (after_send n v) (λ _ o' v', Inv o' v').
Proof.
  intros HI Hs Hn. destruct (Inv_callback _ _ HI) as (Hf & Hde & Hp & Ho & Hi & Hl & He); [tauto|].
  clear HI. destruct Ho as (Hb & Hu & Hsa & Hin & Hsend & Hoff & Hdata & Hpre).
  specialize (Hoff Hs). rewrite Hs in Hsend. symmetry in Hsend. bool_props.
  assert (n ≤ buf_used o) as Hnu.
  { apply prefix_zlen in Hoff. unfold to_socks in Hoff. rewrite zlen_ztake in Hoff by lia. lia. }
  set (o1 := set_buf (zwrite 0 (ztake (buf_used o - n) (zdrop n (buf o))) (buf o)) (buf_used o - n) o).
  assert (out_idle o1 (after_send n v)) as Hidle.
  { unfold out_idle, after_send; cbn. split_and!; try done; try lia.
    - rewrite zlen_zwrite; [lia|lia|]. rewrite zlen_ztake; rewrite ?zlen_zdrop; lia.
    - rewrite Hdata, (ztake_prefix n _ _ Hoff) by (done || lia).
      unfold to_socks at 3; cbn. rewrite to_socks_consume by lia.
      by rewrite <- app_assoc, ztake_zdrop. }
  unfold client_socks_send_handler_done.
  repeat (first [apply (send_more_ok o1) | client_step]; cbn beta); rewrite ?Hf in *; try done;
    try (rewrite ?Z.ltb_lt, ?Z.leb_le, ?negb_true_iff; done || lia).
  { destruct Hp as (Hp & _). bool_props. cbn. rewrite Hp.
    by match goal with Hc : client_closed o = false |- _ => rewrite Hc end. }
  all: split; cbn; [congruence|exact (proj2 He)].
Qed.

Lemma err_func_ok o v :
  Inv o v → err_cb v = true →
  wpe apply_event client_err_func o
    (set_ended true (socks_ended v) (set_cb false false false false v)) (λ _ o' v', Inv o' v').
Proof.
  intros HI Hr. destruct (Inv_callback _ _ HI) as (Hf & Hd & Hp & Ho & Hi & Hl & He); [tauto|].
  pose proof (proj1 (proj2 (pcb_ok_callbacks _ _ Hp)) Hr) as Hc.
  unfold client_err_func, client_handle_freed_client.
  repeat (first [apply (handle_freed_client_ok _ o) | client_step]; cbn beta); rewrite ?Hf, ?Hc in *; try done.
  destruct Hi as (Hi & Hrc & _). unfold pcb_gone. split_and!; try done. exact (proj1 He).
Qed.

Lemma murder_tcp_ok o v :
  freed o = false → pcb_alive v = negb (client_closed o) →
  wpe apply_event
    (when (negb (client_closed o)) (remove_callbacks;; emit TcpAbort;; modify (set_client_closed true))) o v
    (λ _ o' v', o' = set_client_closed true o ∧
       v' = if client_closed o then v
            else set_ended true (socks_ended v) (set_cb false false false false v)).
Proof.
  intros Hf Hp. destruct (client_closed o) eqn:Hc; cbn.
  - wpe_step. split; [|done]. destruct o; cbn in *. by subst.
  - open_client o v; cbn in *; subst. unfold remove_callbacks. client_run; try done; reflexivity.
Qed.

Lemma murder_socks_ok o b v :
  freed o = false → socks_alive v = negb b → b = socks_closed o →
  wpe apply_event
    (when (negb b) (emit SocksFree;; modify (set_socks (socks_up o) true))) o v
    (λ _ o' v', o' = set_socks (socks_up o) true o ∧
       v' = if b then v else set_io false false false [] false v).
Proof.
  intros Hf Hp Hb. destruct b; cbn.
  - wpe_step. split; [|done]. destruct o; cbn in *. by subst.
  - open_client o v; cbn in *; subst. client_run; try done; reflexivity.
Qed.

Lemma murder_ok o v :
  Inv o v → deallocs v = 0 →
  wpe apply_event client_murder o (set_ended true true v) (λ _ o' v', Inv o' v').
Proof.
  intros HI Hr. destruct (Inv_callback _ _ HI) as (Hf & Hd & Hp & Ho & Hi & Hl & He); [tauto|].
  clear HI. unfold client_murder. wpe_step. apply wpe_client; [done|].
  wpe_step. eapply wpe_mono; [apply murder_tcp_ok; [done|exact (proj1 Hp)]|].
  intros _ ? ? [-> ->]. wpe_step. eapply wpe_mono.
  { apply (murder_socks_ok (set_client_closed true o)); [done| |done].
    destruct Ho as (_ & _ & Ho & _). by destruct (client_closed o). }
  intros _ ? ? [-> ->]. unfold client_dealloc.
  open_client o v; client_defs. destruct_and!; subst.
  destruct oc, osc; cbn in *; client_run; try done; client_defs.
  all: split; [done|]; split_and!; try done; destruct vrc; naive_solver.
Qed.

Lemma socks_down_ok o v :
  Inv o v → socks_alive v = true →
  wpe apply_event client_free_socks o (set_ended (tcp_ended v) true v) (λ _ o' v', Inv o' v').
Proof.
  intros HI Hr. destruct (Inv_callback _ _ HI) as (Hf & Hd & Hp & Ho & Hi & Hl & He); [tauto|].
  apply free_socks_ok; try done.
  - destruct Ho as (_ & _ & Ho & _). rewrite Hr in Ho. by destruct (socks_closed o).
  - exact (proj2 He).
Qed.

Lemma socks_handler_ok o v e :
  Inv o v → allowed o v (ASocks e) →
  wpe apply_event (client_socks_handler e) o
    (set_ended (tcp_ended v) (match e with BSocksClient.EVENT_UP => socks_ended v | _ => true end) v)
    (λ _ o' v', Inv o' v').
Proof.
  intros HI Ha. assert (socks_alive v = true) as Hsa by (destruct e; naive_solver).
  destruct (Inv_callback _ _ HI) as (Hf & Hd & Hp & Ho & Hi & Hl & He); [tauto|].
  assert (socks_closed o = false) as Hsc.
  { destruct Ho as (_ & _ & Ho & _). rewrite Hsa in Ho. by destruct (socks_closed o). }
  assert (inited v = socks_up o) as Hin.
  { destruct Ho as (_ & _ & _ & Ho & _). by rewrite Hsc in Ho. }
  unfold client_socks_handler. destruct e; cbn in Ha.
  - repeat (first [apply socks_down_ok | client_step]; cbn beta); rewrite ?Hf, ?Hsc in *; done.
  - destruct Ha as [_ Ha]. rewrite Ha in Hin. symmetry in Hin. clear HI.
    unfold client_send_to_socks, client_socks_recv_initiate.
    open_client o v; client_defs; destruct_and!; subst; cbn in *.
    assert (vrc = false) as -> by (destruct vrc; naive_solver).
    assert (queued op = [] ∧ vk = 0) as [Hq ->] by auto. rewrite Hq in *.
    destruct oc, (0 <? obu) eqn:Hobu; cbn in *; client_steps; bool_props; try done;
      try (rewrite ?zlen_ztake, ?Z.ltb_lt; lia).
    all: try (rewrite (proj2 (Z.ltb_lt 0 obu)) by lia); try (rewrite (proj2 (Z.ltb_ge 0 obu)) by lia).
    all: rewrite Hq; split_and!; intros; try done; try lia; auto.
  - destruct Ha as [_ Ha]. rewrite Ha in Hin.
    repeat (first [apply socks_down_ok | client_step]; cbn beta); rewrite ?Hf, ?Hsc in *; done.
Qed.

(** ** Queuing received data into lwIP *)

(** The client after [n] more bytes of [socks_recv_buf] were queued. *)
Definition queued_more (n : Z) (p : P) (o : t) : t :=
  set_recv (socks_recv_buf_used o) (socks_recv_buf_sent o + n) (socks_recv_waiting o)
    (socks_recv_tcp_pending o + n) (set_pcb p o).

Lemma send_out_loop_ok fuel o v :
  freed o = false → 0 ≤ socks_recv_buf_sent o < socks_recv_buf_used o →
  socks_recv_buf_used o ≤ zlen (socks_recv_buf o) →
  socks_recv_buf_used o - socks_recv_buf_sent o ≤ Z.of_nat fuel →
  wpe apply_event (send_out_loop fuel) o v (λ _ o' v', v' = v ∧
    ∃ p n, 0 ≤ n ≤ socks_recv_buf_used o - socks_recv_buf_sent o ∧ o' = queued_more n p o ∧
      queued p = queued (pcb o) ++ ztake n (zdrop (socks_recv_buf_sent o) (socks_recv_buf o))).
Proof.
  revert o. induction fuel as [|fuel IH]; intros o Hf Hs Hu Hfuel; [lia|]. cbn [send_out_loop].
  wpe_step. apply wpe_client; [done|].
  pose proof (sndbuf_nonneg (pcb o)) as Hsb. unfold bmin_int.
  remember (if socks_recv_buf_used o - socks_recv_buf_sent o <? tcp_sndbuf (pcb o) then _ else _) as w eqn:Hw.
  assert (0 ≤ w ≤ socks_recv_buf_used o - socks_recv_buf_sent o) as Hwb.
  { subst w. destruct (Z.ltb_spec (socks_recv_buf_used o - socks_recv_buf_sent o) (tcp_sndbuf (pcb o))); lia. }
  clear Hw. wpe_step; bool_props.
  { wpe_step. split; [done|]. exists (pcb o), 0. split_and!; [lia|lia| |by rewrite app_nil_r].
    destruct o; unfold queued_more, set_recv, set_pcb; cbn. f_equal; lia. }
  destruct (tcp_write (pcb o) _) as [err p] eqn:Hwr. apply write_queued in Hwr.
  wpe_step. unfold modify. wpe_step. apply wpe_client; [done|]. wpe_step.
  wpe_step; bool_props; [|].
  { wpe_step. split; [done|]. exists p, 0. rewrite H2 in Hwr. split_and!; [lia|lia| |by rewrite app_nil_r].
    destruct o; unfold queued_more, set_recv, set_pcb; cbn. f_equal; lia. }
  rewrite H2 in Hwr. wpe_step. wpe_step. apply wpe_client; [done|]. wpe_step.
  change (set_recv _ _ _ _ (set_pcb p o)) with (queued_more w p o).
  wpe_step; bool_props.
  - eapply wpe_mono; [apply IH; cbn; (done || lia)|]. cbn. intros b o' v' (-> & p' & n & Hn & -> & Hq).
    split; [done|]. exists p', (w + n). split_and!; [lia|lia| |].
    + destruct o; unfold queued_more, set_recv, set_pcb; cbn. f_equal; lia.
    + rewrite Hq, Hwr, <- app_assoc. f_equal. rewrite <- zdrop_zdrop by lia.
      rewrite <- (ztake_zdrop w (ztake (w + n) _)). f_equal.
      * unfold ztake. rewrite take_take. f_equal. lia.
      * unfold ztake, zdrop. rewrite skipn_firstn_comm. f_equal. lia.
  - wpe_step. split; [done|]. exists p, w. split_and!; try done; lia.
Qed.

(** Received data is being queued. *)
Definition sendable (o : t) (v : env) : Prop :=
  closable o v ∧ pcb_ok o v ∧ socks_up o = true ∧
  0 ≤ socks_recv_buf_sent o ≤ socks_recv_buf_used o ∧ 0 < socks_recv_buf_used o ∧
  socks_recv_buf_used o ≤ CLIENT_SOCKS_RECV_BUF_SIZE.

Lemma queued_more_sendable n p o v :
  sendable o v → 0 ≤ n ≤ socks_recv_buf_used o - socks_recv_buf_sent o →
  queued p = queued (pcb o) ++ ztake n (zdrop (socks_recv_buf_sent o) (socks_recv_buf o)) →
  sendable (queued_more n p o) v.
Proof.
  unfold sendable, closable. intros ((Hf & Hd & Hc & Ha & Ho & Hi & Hr & He) & Hp & Hup & Hs & Hu & Hm) Hn Hq.
  destruct Hi as (Hl & Hin & Hpre & Hnu & Hack & Hpend).
  assert (zlen (ztake n (zdrop (socks_recv_buf_sent o) (socks_recv_buf o))) = n) as Hlen.
  { rewrite zlen_ztake; rewrite ?zlen_zdrop; lia. }
  assert (socks_in v = queued p ++ to_tcp (queued_more n p o)) as Hin'.
  { rewrite Hin, Hq, <- app_assoc by done. f_equal. unfold to_tcp; cbn.
    rewrite Hup, (proj2 (Z.leb_le 0 (socks_recv_buf_used o))) by lia. cbn [andb].
    rewrite <- zdrop_zdrop by lia.
    rewrite <- (ztake_zdrop n (ztake (socks_recv_buf_used o - socks_recv_buf_sent o) _)). f_equal.
    - unfold ztake. rewrite take_take. f_equal. lia.
    - unfold ztake, zdrop. rewrite skipn_firstn_comm. f_equal. lia. }
  unfold in_data; cbn. split_and!; try done; try lia; try (rewrite Hq, zlen_app; lia).
  - rewrite Hin'. by apply prefix_app_r.
  - intros. congruence.
  - intros. rewrite Hq, zlen_app, Hlen, Hpend by done. lia.
Qed.

(** The state after [client_socks_recv_send_out] returned 0. *)
Definition sent_out (o o' : t) (v : env) : Prop :=
  closable o' v ∧ pcb_ok o' v ∧ socks_up o' = true ∧ socks_closed o' = socks_closed o ∧
  0 < socks_recv_tcp_pending o' ∧
  (socks_recv_buf_used o' = -1 ∨
   0 ≤ socks_recv_buf_sent o' < socks_recv_buf_used o' ∧
   socks_recv_buf_used o' ≤ CLIENT_SOCKS_RECV_BUF_SIZE ∧ socks_recv_waiting o' = true).

Lemma sendable_set_pcb p o v :
  sendable o v → queued p = queued (pcb o) → sendable (set_pcb p o) v.
Proof.
  unfold sendable, closable, in_data; cbn. intros Hs Hq. rewrite Hq. exact Hs.
Qed.

Lemma sendable_done w o v :
  sendable o v → socks_recv_buf_sent o = socks_recv_buf_used o →
  closable (set_recv (-1) (socks_recv_buf_sent o) w (socks_recv_tcp_pending o) o) v.
Proof.
  unfold sendable, closable. intros ((Hf & Hd & Hc & Ha & Ho & Hi & Hr & He) & Hp & Hup & Hs & Hu & Hm) Heq.
  split_and!; try done.
  - destruct Hi as (Hl & Hin & Hpre & Hnu & Hack & Hpend). unfold in_data; cbn.
    split_and!; try done; try lia. intros. rewrite Hin by done. f_equal. unfold to_tcp; cbn.
    rewrite Heq, Z.sub_diag, andb_false_r. by destruct (_ && _).
  - intros Hrc. destruct (Hr Hrc) as (? & ? & ?). done.
Qed.

Lemma abort_ret_ok o v (Q : Z → t → env → Prop) :
  sendable o v → (∀ o' v', Inv o' v' → Q (-1) o' v') →
  wpe apply_event (client_abort_client;; mret (-1)) o v Q.
Proof.
  intros [Hc _] HQ. wpe_step. eapply wpe_mono; [by apply abort_client_ok|].
  intros. wpe_step. by apply HQ.
Qed.

Lemma wpe_modify_client f o v (Q : unit → t → env → Prop) :
  freed o = false → Q tt (f o) v → wpe apply_event (modify f) o v Q.
Proof. intros Hf HQ. unfold modify. wpe_step. apply wpe_client; [done|]. by wpe_step. Qed.

Lemma send_out_ok o v :
  sendable o v → socks_recv_buf_sent o < socks_recv_buf_used o → socks_recv_waiting o = false →
  0 ≤ socks_recv_tcp_pending o →
  wpe apply_event client_socks_recv_send_out o v (λ r o' v',
    r < 0 ∧ Inv o' v' ∨ r = 0 ∧ v' = v ∧ sent_out o o' v).
Proof.
  intros Hse Hlt Hw Hpnd.
  pose proof Hse as ((Hf & Hd & Hc & Ha & Ho & Hi & Hr & He) & Hp & Hup & Hs & Hu & Hm).
  unfold client_socks_recv_send_out. wpe_step. apply wpe_client; [done|].
  do 5 (wpe_step; wpe_step; [rewrite ?Hc, ?Hup, ?Hw, ?Z.ltb_lt; (done || lia)|]).
  wpe_step. eapply wpe_mono.
  { apply send_out_loop_ok; [done|lia| |lia]. destruct Hi as (-> & _). lia. }
  intros written ? ? (-> & p & n & Hn & -> & Hq).
  pose proof (queued_more_sendable n p o v Hse Hn Hq) as Hse1.
  wpe_step. { apply abort_ret_ok; [done|]. intros. left. split; [lia|done]. }
  wpe_step. apply wpe_client; [done|]. destruct (tcp_output _) as [err p'] eqn:Hout.
  apply output_queued in Hout.
  pose proof (sendable_set_pcb p' _ v Hse1 Hout) as Hse2. cbn in Hout.
  wpe_step. apply wpe_modify_client; [done|].
  wpe_step. { apply abort_ret_ok; [done|]. intros. left. split; [lia|done]. }
  wpe_step; bool_props; cbn in *.
  - wpe_step. { apply abort_ret_ok; [done|]. intros. left. split; [lia|done]. }
    wpe_step. apply wpe_modify_client; [done|]. wpe_step. right. split_and!; try done.
    destruct Hse2 as (Hcl & Hpo & ? & ? & ? & ?). bool_props. cbn in *.
    split_and!; cbn; try done; lia.
  - wpe_step. apply wpe_modify_client; [done|]. wpe_step. right. split_and!; try done.
    unfold sent_out; cbn. split_and!; try done; try lia.
    apply (sendable_done _ _ _ Hse2). cbn. lia.
Qed.

(** Everything queued: the next receive is started. *)
Lemma recv_initiate_ok o o1 v (Q : unit → t → env → Prop) :
  sent_out o1 o v → socks_recv_buf_used o = -1 → socks_closed o = false → receiving v = false →
  (∀ v', Inv o v' → Q tt o v') →
  wpe apply_event client_socks_recv_initiate o v Q.
Proof.
  intros (Hcl & Hp & Hup & _ & Hpend & _) Hu Hsc Hr HQ.
  pose proof Hcl as (Hf & Hd & Hc & Ha & Ho & Hi & Hrv & He).
  assert (inited v = true) as Hin.
  { destruct Ho as (_ & _ & _ & Ho & _). by rewrite Hsc, Hup in Ho. }
  unfold client_socks_recv_initiate. wpe_step. apply wpe_client; [done|].
  do 4 (wpe_step; wpe_step; [rewrite ?Hc, ?Hup, ?Hsc, ?Hu; done|]).
  eapply wpe_emit; [by apply recv_event|]. apply HQ. apply Inv_live; try done.
  - clear Hcl. unfold out_ok in *; cbn. rewrite Hsc, Hup in *. naive_solver.
  - split_and!; cbn; try done. intros. split; [done|by left].
  - split; congruence.
  - split; cbn; [done|congruence].
Qed.

(** Received data waits: [client_sent_func] goes on. *)
Lemma sent_out_Inv o1 o v :
  sent_out o1 o v → receiving v = false → (socks_closed o = false → socks_recv_buf_used o ≠ -1) → Inv o v.
Proof.
  intros (Hcl & Hp & Hup & _ & Hpend & Hu) Hr Hn.
  pose proof Hcl as (Hf & Hd & Hc & Ha & Ho & Hi & Hrv & He).
  apply Inv_live; try done.
  - split_and!; try done. intros. split; [naive_solver|].
    destruct Hu as [Hu|(? & ? & ?)]; [by left|right]. done.
  - split; [congruence|]. intros. split; [done|by right].
  - split; [done|congruence].
Qed.

Definition after_recv (d : list Z) (o : t) (v : env) : env :=
  set_log (tcp_in v) (socks_out v) (if client_closed o then socks_in v else socks_in v ++ d) (acked v)
    (set_io true true (sending v) (offered v) false v).

Lemma recv_done_ok o v d :
  Inv o v → receiving v = true → 0 < zlen d ≤ CLIENT_SOCKS_RECV_BUF_SIZE →
  wpe apply_event (client_socks_recv_handler_done (zlen d)) (fill_recv_buf d o) (after_recv d o v)
    (λ _ o' v', Inv o' v').
Proof.
  intros HI Hrc Hd. destruct (Inv_callback _ _ HI) as (Hf & Hde & Hp & Ho & Hi & Hl & He); [tauto|].
  destruct Hi as (Hi & Hrv & Hop). destruct (Hrv Hrc) as (Hup & Hsc & Hu).
  pose proof Hi as (Hlen & Hin & Hpre & Hnu & Hack & Hpend).
  assert (zlen (zwrite 0 d (socks_recv_buf o)) = CLIENT_SOCKS_RECV_BUF_SIZE) as Hl2 by (rewrite zlen_zwrite; lia).
  assert (out_ok (fill_recv_buf d o) (after_recv d o v)) as Ho'.
  { clear HI. unfold out_ok in *; cbn. rewrite Hsc, Hup in *. naive_solver. }
  unfold client_socks_recv_handler_done. wpe_step. apply wpe_client; [done|].
  do 5 (wpe_step; wpe_step; [cbn; rewrite ?Hup, ?Hsc, ?Hu, ?Z.ltb_lt, ?Z.leb_le; (done || lia)|]).
  wpe_step.
  { cbn in *. wpe_step. apply Inv_live; try done.
    - unfold after_recv, in_ok, in_data. cbn. rewrite H1. split_and!; try done; lia.
    - split; cbn; [exact (proj1 He)|]. intros Hx. rewrite Hx. exact (proj2 He Hx). }
  cbn in *. wpe_step. apply wpe_modify_client; [done|]. wpe_step.
  assert (to_tcp o = []) as Ht by (apply to_tcp_idle; lia).
  eapply wpe_mono.
  - apply send_out_ok; cbn; try done; try lia; [|specialize (Hpend Hup); lia].
    unfold sendable, closable, after_recv. cbn. rewrite H1. split_and!; try done; try lia.
    + destruct Hp as (-> & _). by rewrite H1.
    + unfold in_data; cbn. rewrite Hin, Ht, app_nil_r in * by done. split_and!; try done; try lia.
      * intros _. unfold to_tcp; cbn. rewrite Hup, (proj2 (Z.leb_le 0 (zlen d))) by lia. cbn [andb].
        rewrite Z.sub_0_r, zdrop_0. unfold zwrite.
        change (ztake 0 (socks_recv_buf o)) with (@nil Z). cbn [app].
        by rewrite ztake_app_exact.
      * by apply prefix_app_r.
    + exact (proj1 He).
  - cbn. intros r o' v' [[Hr HI']|(-> & -> & Hso)].
    + wpe_step; bool_props; [|lia]. by wpe_step.
    + assert (socks_closed o' = false) as Hsc'.
      { destruct Hso as (_ & _ & _ & -> & _). done. }
      wpe_step; bool_props; [lia|]. wpe_step. apply wpe_client; [by destruct Hso as ((? & _) & _)|].
      wpe_step; bool_props.
      * by eapply recv_initiate_ok.
      * by eapply sent_out_Inv.
Qed.

Definition after_ack (n : Z) (v : env) : env :=
  set_log (tcp_in v) (socks_out v) (socks_in v) (acked v + n) v.

Lemma sent_func_ok o v n :
  Inv o v → sent_cb v = true → 0 < n → acked v + n ≤ zlen (queued (pcb o)) →
  wpe apply_event (client_sent_func n) o (after_ack n v) (λ _ o' v', Inv o' v').
Proof.
  intros HI Hcb Hn Ha. destruct (Inv_callback _ _ HI) as (Hf & Hde & Hp & Ho & Hi & Hl & He); [tauto|].
  destruct (proj2 (proj2 (pcb_ok_callbacks _ _ Hp)) Hcb) as [Hc Hup].
  destruct Hi as (Hi & Hrv & Hop). destruct (Hop Hc Hup) as [Hop1 Hop2].
  pose proof Hi as (Hlen & Hin & Hpre & Hnu & Hack & Hpend). specialize (Hpend Hup).
  unfold client_sent_func. wpe_step. apply wpe_client; [done|].
  do 4 (wpe_step; wpe_step; [rewrite ?Hc, ?Hup, ?Z.ltb_lt, ?Z.leb_le; (done || lia)|]).
  wpe_step. apply wpe_modify_client; [done|].
  assert (∀ w, in_data (set_recv (socks_recv_buf_used o) (socks_recv_buf_sent o) w (socks_recv_tcp_pending o - n) o)
     (after_ack n v)) as Hi'.
  { intros w. unfold in_data; cbn. split_and!; try done; try lia. intros. congruence. }
  wpe_step; bool_props.
  - destruct Hop2 as [?|(Hs & Hm & Hwt & Hpp)]; [lia|].
    assert (receiving v = false) as Hrf.
    { destruct (receiving v); [|done]. destruct Hrv as (_ & _ & ?); [done|lia]. }
    do 2 (wpe_step; wpe_step; [rewrite ?Hwt, ?Z.ltb_lt; (done || lia)|]).
    wpe_step. apply wpe_modify_client; [done|]. wpe_step.
    eapply wpe_mono; [apply send_out_ok; cbn; try done; try lia|].
    { unfold sendable, closable. cbn. split_and!; try done; try lia; try exact (Hi' _).
      - destruct Hp as (-> & _). by rewrite Hc.
      - exact (proj1 He). }
    cbn. intros r o' v' [[Hr HI']|(-> & -> & Hso)].
    + wpe_step; bool_props; [|lia]. by wpe_step.
    + wpe_step; bool_props; [lia|]. wpe_step. apply wpe_client; [by destruct Hso as ((? & _) & _)|].
      wpe_step. wpe_step. { destruct Hso as (_ & _ & _ & _ & ? & _). by apply Z.ltb_lt. }
      wpe_step; bool_props.
      * wpe_step. eapply recv_initiate_ok; try done. intros v' HI'.
        wpe_step. eapply wpe_emit; [done|]. by wpe_step.
      * wpe_step. eapply sent_out_Inv; try done. intros Hx. rewrite Hx in *. destruct_or!; bool_props; done.
  - assert (socks_recv_buf_used o = -1) as Hu by lia.
    wpe_step; bool_props.
    + wpe_step. eapply wpe_mono; [apply free_client_ok|].
      * unfold closable. cbn. split_and!; try done; try lia; try exact (Hi' _).
        -- destruct Hp as (-> & _). by rewrite Hc.
        -- exact (proj1 He).
      * intros _. apply (in_ok_delivered _ _ (Hi' _)); [done|]. right. cbn. lia.
      * cbn. congruence.
      * intros. by wpe_step.
    + wpe_step. apply Inv_live; try done.
      * split_and!; try exact (Hi' _); try done. intros. cbn. split; [done|by left].
      * split; cbn; [congruence|]. intros Hx. split; [done|]. destruct Hl as [_ Hl].
        destruct_or!; bool_props; try congruence; right; lia.
      * split; cbn; [exact (proj1 He)|congruence].
Qed.

(** ** Every action keeps the invariant *)

Lemma run_ok {A} (m : IO A) o v Q :
  wpe apply_event m o v Q → ∃ a o' v', run m o v = Some (a, o', v') ∧ Q a o' v'.
Proof.
  intros Hm. apply wpe_run in Hm as (a & o' & es & v' & Hm & Hr & HQ).
  exists a, o', v'. unfold run. rewrite Hm. cbn. rewrite Hr. done.
Qed.

Lemma run_Inv {A} (m : IO A) o v :
  wpe apply_event m o v (λ _ o' v', Inv o' v') →
  ∃ o' v', ('(_, o', v') ← run m o v; Some (o', v')) = Some (o', v') ∧ Inv o' v'.
Proof. intros Hm. destruct (run_ok _ _ _ _ Hm) as (a & o' & v' & Hr & HI). rewrite Hr. by exists o', v'. Qed.

Lemma tcp_act_inv o v a :
  Inv o v → allowed o v a → ∃ o' v', act o v a = Some (o', v') ∧ Inv o' v'.
Proof.
  intros HI Ha. destruct a as [[d|]| |n|p|e|n|d|]; cbn [act].
  - destruct Ha as [Hr Hd]. destruct (run_ok _ _ _ _ (recv_func_some_ok o v d HI Hr Hd)) as (r & o' & v' & Hm & HI').
    rewrite Hm. eauto.
  - by apply run_Inv, recv_func_none_ok.
  - by apply run_Inv, err_func_ok.
  - destruct Ha as (? & ? & ?). by apply run_Inv, sent_func_ok.
  - destruct Ha as [Ha Hq]. do 2 eexists; split; [done|].
    destruct HI as [He HI]. unfold Inv, ends_ok, dead_ok, in_ok, in_data in *. cbn. rewrite Hq. done.
  - by apply run_Inv, socks_handler_ok.
  - destruct Ha as (? & ?). by apply run_Inv, send_done_ok.
  - destruct Ha as (? & ?). by apply run_Inv, recv_done_ok.
  - by apply run_Inv, murder_ok.
Qed.

Lemma tcp_reach_inv o v : reach o v → Inv o v.
Proof.
  induction 1 as [p b rb Hq Hb Hrb|o v a o' v' _ IH Ha Hact].
  - pose proof TCP_WND_pos. apply Inv_live; try done.
    + unfold out_ok; cbn. split_and!; try done; try lia.
    + split_and!; cbn; try done. split_and!; cbn; rewrite ?Hq; try done.
  - destruct (tcp_act_inv o v a IH Ha) as (o1 & v1 & Hx & HI). by simplify_eq.
Qed.

(** C1: however lwIP, SOCKS and the end of the program interleave, the handlers
    of a client fail no assertion, never touch a freed client, pcb or SOCKS
    client, and never start a second send or receive; the client is deallocated
    exactly when both sides are closed, once, with nothing left that could call
    it. *)
Theorem tcp_client_safe o v :
  reach o v →
  (∀ a, allowed o v a → is_Some (act o v a)) ∧
  deallocs v = (if freed o then 1 else 0) ∧
  (freed o = true ↔ client_closed o = true ∧ socks_closed o = true) ∧
  (freed o = true →
     pcb_alive v = false ∧ socks_alive v = false ∧ err_cb v = false ∧ recv_cb v = false ∧
     sent_cb v = false ∧ sending v = false ∧ receiving v = false).
Proof.
  intros Hr. apply tcp_reach_inv in Hr as HI. split.
  { intros a Ha. destruct (tcp_act_inv o v a HI Ha) as (o' & v' & -> & _). done. }
  destruct HI as [_ HI]. destruct (freed o).
  - destruct HI as [Hd HI]. unfold dead_ok in HI. destruct_and!. done.
  - destruct HI as (Hd & _ & _ & _ & Hl & _). split_and!; try done.
    split; [done|]. intros [Hc Hs]. destruct (Hl Hc). congruence.
Qed.

(** C4: data from the TCP connection reaches SOCKS in order, unchanged and
    without gaps: what SOCKS has taken is a prefix of what the client accepted,
    the rest waits in [buf], and a client gives up a working SOCKS connection
    only when everything was taken. *)
Theorem tcp_to_socks_stream o v :
  reach o v →
  socks_out v `prefix_of` tcp_in v ∧
  (socks_closed o = false → tcp_in v = socks_out v ++ to_socks o ∧ zlen (to_socks o) ≤ TCP_WND) ∧
  (socks_closed o = true → socks_ended v = false → socks_out v = tcp_in v).
Proof.
  intros Hr. apply tcp_reach_inv in Hr as [[He _] HI]. destruct (freed o).
  - destruct HI as [_ (Hc & Hs & HI)]. destruct_and!. split_and!; try done. congruence.
  - destruct HI as (_ & _ & (Hb & Hu & _ & _ & _ & _ & Hd & Hp) & _). split_and!; try done.
    intros Hs. split; [by apply Hd|]. unfold to_socks. rewrite zlen_ztake; lia.
Qed.

(** C5: data from SOCKS reaches the TCP connection in order, unchanged and
    without gaps: what was queued into lwIP is a prefix of what SOCKS delivered,
    the rest waits in [socks_recv_buf], and a connection that neither ended on
    its own nor was aborted is closed only when lwIP has confirmed everything. *)
Theorem socks_to_tcp_stream o v :
  reach o v →
  queued (pcb o) `prefix_of` socks_in v ∧
  (client_closed o = false → socks_in v = queued (pcb o) ++ to_tcp o) ∧
  (client_closed o = true → tcp_ended v = false →
     queued (pcb o) = socks_in v ∧ acked v = zlen (socks_in v)).
Proof.
  intros Hr. apply tcp_reach_inv in Hr as [[_ He] HI]. destruct (freed o).
  - destruct HI as [_ (Hc & Hs & HI)]. destruct_and!. split_and!; try done. congruence.
  - destruct HI as (_ & _ & _ & ((_ & Hin & Hp & _) & _) & _). done.
Qed.
End client.
Arguments t : clear implicits.
End TcpClient.

(** ** An lwIP

    A pcb that takes 4 bytes at a time, to run the theorems on. *)
#[local] Instance lwip_example : Lwip (list Z) := {
  TCP_WND := 16;
  tcp_sndbuf _ := 4;
  tcp_write p d := (ERR_OK, p ++ d);
  tcp_output p := (ERR_OK, p);
  tcp_close _ := ERR_OK;
  queued p := p
}.

#[local] Instance lwip_example_ok : LwipOk (list Z).
Proof.
  split; [done|done| |]; cbn; [|naive_solver].
  intros p d e p' [= <- <-]. by rewrite bool_decide_true.
Qed.

#[local] Instance debug_build : Build := false.

Section example.
Import TcpClient.
Abbreviation act_list := (@action (list Z)).

Definition example_client : t (list Z) :=
  accepted [] (replicate 16 0) (replicate (Z.to_nat CLIENT_SOCKS_RECV_BUF_SIZE) 0).

(** Data arrives before SOCKS is up, is sent in two parts; SOCKS answers with
    six bytes and closes; lwIP confirms them. *)
Definition example_actions : list act_list :=
  [ARecv (Some [1;2;3]); ASocks BSocksClient.EVENT_UP; ASendDone 2; ASendDone 1;
   ARecvDone [9;8;7;6;5;4]; ASocks BSocksClient.EVENT_ERROR_CLOSED; ASent 6].

Fixpoint run_actions (o : t (list Z)) (v : env) (l : list act_list) : option (t (list Z) * env) :=
  match l with
  | [] => Some (o, v)
  | a :: l => '(o', v') ← act o v a; run_actions o' v' l
  end.

Definition allowedb (o : t (list Z)) (v : env) (a : act_list) : bool :=
  match a with
  | ARecv None => recv_cb v
  | ARecv (Some d) => recv_cb v && (0 <? zlen d)
  | ASent n => sent_cb v && (0 <? n) && (acked v + n <=? zlen (pcb o))
  | ASocks BSocksClient.EVENT_UP => socks_alive v && negb (inited v)
  | ASocks BSocksClient.EVENT_ERROR_CLOSED => socks_alive v && inited v
  | ASendDone n => sending v && (0 <? n) && (n <=? zlen (offered v))
  | ARecvDone d => receiving v && (0 <? zlen d) && (zlen d <=? CLIENT_SOCKS_RECV_BUF_SIZE)
  | _ => false
  end.

Fixpoint all_allowed (o : t (list Z)) (v : env) (l : list act_list) : bool :=
  match l with
  | [] => true
  | a :: l => allowedb o v a && match act o v a with Some (o', v') => all_allowed o' v' l | None => false end
  end.

Lemma run_actions_reach o v l o' v' :
  reach o v → all_allowed o v l = true → run_actions o v l = Some (o', v') → reach o' v'.
Proof.
  revert o v. induction l as [|a l IH]; intros o v Hr Ha Hrun; [by simplify_eq/=|].
  cbn [all_allowed run_actions] in *. apply andb_true_iff in Ha as [Ha Hl].
  destruct (act o v a) as [[o1 v1]|] eqn:Hact; [|done]. cbn in Hrun.
  eapply IH; [|exact Hl|exact Hrun]. eapply reach_act; [exact Hr| |exact Hact].
  destruct a as [[]| | | |[]| | |]; cbn in Ha |- *; bool_props; try done; split_and?; try done; lia.
Qed.

Lemma tcp_example_reach l o' v' :
  all_allowed example_client env0 l = true → run_actions example_client env0 l = Some (o', v') → reach o' v'.
Proof. intros Ha Hr. eapply run_actions_reach; [|exact Ha|exact Hr]. by apply reach_accept. Qed.

Lemma tcp_client_safe_witness :
  ∃ o v, run_actions example_client env0 example_actions = Some (o, v) ∧
    reach o v ∧ freed o = true ∧ deallocs v = 1.
Proof.
  destruct (run_actions example_client env0 example_actions) as [[o v]|] eqn:Hrun; [|by vm_compute in Hrun].
  exists o, v. assert (freed o = true) as Hf.
  { assert (option_map (λ '(o, _), freed o) (run_actions example_client env0 example_actions) = Some true) as Hx
      by (vm_compute; reflexivity).
    rewrite Hrun in Hx. by injection Hx. }
  assert (reach o v) as Hr by (apply (tcp_example_reach example_actions); [vm_compute; reflexivity|exact Hrun]).
  split_and!; [done|done|done|].
  destruct (tcp_client_safe o v Hr) as (_ & Hd & _). by rewrite Hf in Hd.
Defined.

Lemma tcp_to_socks_stream_witness :
  ∃ o v, run_actions example_client env0 (take 3 example_actions) = Some (o, v) ∧
    tcp_in v = socks_out v ++ to_socks o ∧ socks_out v = [1;2].
Proof.
  destruct (run_actions example_client env0 (take 3 example_actions)) as [[o v]|] eqn:Hrun; [|by vm_compute in Hrun].
  exists o, v.
  assert (option_map (λ '(o, v), (socks_closed o, socks_out v))
    (run_actions example_client env0 (take 3 example_actions)) = Some (false, [1;2])) as Hx
    by (vm_compute; reflexivity).
  rewrite Hrun in Hx. injection Hx as Hs Ho.
  assert (reach o v) as Hr by (apply (tcp_example_reach (take 3 example_actions)); [vm_compute; reflexivity|exact Hrun]).
  split_and!; [done| |done]. destruct (tcp_to_socks_stream o v Hr) as (_ & Hd & _). by apply Hd.
Defined.

Lemma socks_to_tcp_stream_witness :
  ∃ o v, run_actions example_client env0 example_actions = Some (o, v) ∧
    socks_in v = [9;8;7;6;5;4] ∧ pcb o = socks_in v ∧ acked v = 6.
Proof.
  destruct (run_actions example_client env0 example_actions) as [[o v]|] eqn:Hrun; [|by vm_compute in Hrun].
  exists o, v.
  assert (option_map (λ '(o, v), (client_closed o, tcp_ended v, socks_in v))
    (run_actions example_client env0 example_actions) = Some (true, false, [9;8;7;6;5;4])) as Hx
    by (vm_compute; reflexivity).
  rewrite Hrun in Hx. injection Hx as Hc Ht Hi.
  assert (reach o v) as Hr by (apply (tcp_example_reach example_actions); [vm_compute; reflexivity|exact Hrun]).
  destruct (socks_to_tcp_stream o v Hr) as (_ & _ & Hd). destruct (Hd Hc Ht) as [Hq Hk].
  split_and!; [done|done|exact Hq|]. by rewrite Hk, Hi.
Defined.
End example.
