(* ===== verification/StringMap.v ===== *)
(** * StringMap: maps from strings to strings

    Models stringmap/BStringMap.c.  The entries are kept in a search tree
    (structure/BAVL.h) ordered by [string_comparator]; here the tree is the list
    of its entries in that order, with the results BAVL documents for its
    operations.  Keys, values and entries are allocated one by one: [mem] counts
    the blocks that are live, and [malloc] fails where [ok] says so. *)
From Stdlib Require Import Ascii String.
From stdpp Require Import sorting.
From S2P Require Import Prelude Bytes Text.

(** [strcmp] of two C strings: the difference of the first bytes that differ,
    the terminating zero included. *)
Fixpoint strcmp (s1 s2 : string) : Z :=
  match s1, s2 with
  | EmptyString, EmptyString => 0
  | EmptyString, String c2 _ => 0 - char_code c2
  | String c1 _, EmptyString => char_code c1 - 0
  | String c1 s1, String c2 s2 =>
      if char_code c1 =? char_code c2 then strcmp s1 s2 else char_code c1 - char_code c2
  end.

(** A C string holds no zero byte. *)
Definition cstring (s : string) : Prop := str_all (λ c, 0 < char_code c) s.

(** ** The heap *)

Record mem := mk_mem { live : Z; mallocs : nat }.

Module BStringMap.
Section stringmap.
Context (ok : nat → bool).

Definition malloc (m : mem) : bool * mem :=
  (ok (mallocs m), mk_mem (if ok (mallocs m) then live m + 1 else live m) (S (mallocs m))).
Definition free (m : mem) : mem := mk_mem (live m - 1) (mallocs m).

Record entry := mk_entry { key : string; value : string }.

Definition string_comparator (str1 str2 : string) : Z :=
  let c := strcmp str1 str2 in B_COMPARE c 0.

(** The tree: its entries in order. *)
Definition t := list entry.

Definition BAVL_LookupExact (k : string) (o : t) : option entry :=
  List.find (λ e, string_comparator (key e) k =? 0) o.

(** The entry equal to [e] under the comparator, if there is one; otherwise the
    tree with [e] in its place. *)
Fixpoint BAVL_Insert (e : entry) (o : t) : entry + t :=
  match o with
  | [] => inr [e]
  | e' :: o' =>
      let c := string_comparator (key e) (key e') in
      if c =? 0 then inl e'
      else if c <? 0 then inr (e :: o)
      else match BAVL_Insert e o' with
           | inl x => inl x
           | inr o'' => inr (e' :: o'')
           end
  end.

Definition BAVL_Remove (e : entry) (o : t) : t :=
  List.filter (λ e', negb (string_comparator (key e') (key e) =? 0)) o.

Definition BAVL_GetFirst (o : t) : option entry := head o.

Fixpoint BAVL_GetNext (e : entry) (o : t) : option entry :=
  match o with
  | [] => None
  | e' :: o' => if string_comparator (key e') (key e) =? 0 then head o' else BAVL_GetNext e o'
  end.

(** ** stringmap/BStringMap.c *)

Definition free_entry (o : t) (e : entry) (m : mem) : t * mem :=
  (BAVL_Remove e o, free (free (free m))).

Definition Init : t := [].

Definition Get (o : t) (k : string) : option string :=
  match BAVL_LookupExact k o with
  | None => None
  | Some e => Some (value e)
  end.

(** The end of [BStringMap_Set], with the entry allocated. *)
Definition Set_insert (o : t) (e : entry) (m : mem) : option (t * mem) :=
  match BAVL_Insert e o with
  | inr o' => Some (o', m)
  | inl ex_e =>
      (* remove existing entry, insert new node *)
      let '(o, m) := free_entry o ex_e m in
      match BAVL_Insert e o with
      | inr o' => Some (o', m)
      | inl _ => None            (* ASSERT_EXECUTE *)
      end
  end.

(** [None]: an assertion fails. *)
Definition Set_ (o : t) (k v : string) (m : mem) : option (bool * t * mem) :=
  (* alloc entry *)
  let '(a, m) := malloc m in
  if negb a then Some (false, o, m)
  else
    (* alloc and set key *)
    let '(a, m) := malloc m in
    if negb a then Some (false, o, free m)
    else
      (* alloc and set value *)
      let '(a, m) := malloc m in
      if negb a then Some (false, o, free (free m))
      else '(o, m) ← Set_insert o (mk_entry k v) m; Some (true, o, m).

Definition Unset (o : t) (k : string) (m : mem) : t * mem :=
  match BAVL_LookupExact k o with
  | None => (o, m)
  | Some e => free_entry o e m
  end.

(** Every round removes an entry, so the number of entries is fuel enough. *)
Fixpoint Free_loop (fuel : nat) (o : t) (m : mem) : option (t * mem) :=
  match BAVL_GetFirst o with
  | None => Some (o, m)
  | Some e =>
      match fuel with
      | O => None
      | S fuel => let '(o, m) := free_entry o e m in Free_loop fuel o m
      end
  end.
Definition Free (o : t) (m : mem) : option (t * mem) := Free_loop (length o) o m.

Definition First (o : t) : option string := key <$> BAVL_GetFirst o.

Definition Next (o : t) (k : string) : option (option string) :=
  e ← BAVL_LookupExact k o;          (* ASSERT *)
  Some (key <$> BAVL_GetNext e o).

(** Copies the entries from [k] on; every round advances in [src]. *)
Fixpoint InitCopy_loop (fuel : nat) (o src : t) (k : option string) (m : mem) : option (bool * t * mem) :=
  match k with
  | None => Some (true, o, m)
  | Some k =>
      match fuel with
      | O => None
      | S fuel =>
          v ← Get src k;
          '(a, o, m) ← Set_ o k v m;
          if negb a then
            '(o, m) ← Free o m; Some (false, o, m)
          else
            k' ← Next src k;
            InitCopy_loop fuel o src k' m
      end
  end.
Definition InitCopy (src : t) (m : mem) : option (bool * t * mem) :=
  InitCopy_loop (length src) Init src (First src) m.

(** ** The order of keys *)

Lemma char_code_nonneg c : 0 ≤ char_code c.
Proof. unfold char_code. lia. Qed.

Lemma char_code_inj c d : char_code c = char_code d → c = d.
Proof.
  unfold char_code. intros Hc. rewrite <- (ascii_nat_embedding c), <- (ascii_nat_embedding d). f_equal. lia.
Qed.

Lemma cmp_strcmp s1 s2 :
  (string_comparator s1 s2 = 0 ↔ strcmp s1 s2 = 0) ∧ (string_comparator s1 s2 < 0 ↔ strcmp s1 s2 < 0).
Proof. unfold string_comparator. pose proof (B_COMPARE_spec (strcmp s1 s2) 0). lia. Qed.

Lemma cmp_eq s1 s2 : cstring s1 → cstring s2 → string_comparator s1 s2 = 0 ↔ s1 = s2.
Proof.
  rewrite (proj1 (cmp_strcmp _ _)). revert s2.
  induction s1 as [|c s1 IH]; intros [|d s2] H1 H2; cbn in *; try (split; [lia|done]); [done|].
  destruct H1 as [Hc H1], H2 as [Hd H2].
  destruct (Z.eqb_spec (char_code c) (char_code d)) as [Heq|Hne].
  - apply char_code_inj in Heq as ->. rewrite IH by done. naive_solver.
  - split; [lia|]. intros [= -> ->]. done.
Qed.

Lemma strcmp_antisym s1 s2 : strcmp s2 s1 = - strcmp s1 s2.
Proof.
  revert s2. induction s1 as [|c s1 IH]; intros [|d s2]; cbn; try lia.
  destruct (Z.eqb_spec (char_code d) (char_code c)), (Z.eqb_spec (char_code c) (char_code d)); try lia. apply IH.
Qed.

Lemma strcmp_trans s1 s2 s3 : strcmp s1 s2 < 0 → strcmp s2 s3 < 0 → strcmp s1 s3 < 0.
Proof.
  revert s2 s3. induction s1 as [|c s1 IH]; intros [|d s2] [|e s3]; cbn;
    try pose proof (char_code_nonneg c); try pose proof (char_code_nonneg d); try pose proof (char_code_nonneg e);
    repeat case_match; bool_props; try lia; apply IH.
Qed.

(** ** The tree *)

Definition key_lt (e1 e2 : entry) : Prop := string_comparator (key e1) (key e2) < 0.

#[local] Instance key_lt_trans : Transitive key_lt.
Proof.
  intros e1 e2 e3. unfold key_lt. rewrite !(proj2 (cmp_strcmp _ _)). apply strcmp_trans.
Qed.

Definition wf (o : t) : Prop := StronglySorted key_lt o ∧ Forall (λ e, cstring (key e)) o.

(** The finite map a tree stands for. *)
Definition pair_of (e : entry) : string * string := (key e, value e).
Definition to_map (o : t) : gmap string string := list_to_map (pair_of <$> o).

Lemma wf_nil : wf [].
Proof. split; constructor. Qed.

Lemma wf_cons e o : wf (e :: o) ↔ Forall (key_lt e) o ∧ cstring (key e) ∧ wf o.
Proof.
  unfold wf. split.
  - intros [Hs Hc]. apply StronglySorted_inv in Hs as [? ?]. inversion_clear Hc. done.
  - intros (Hlt & Hc & Hs & Hf). split; constructor; done.
Qed.

Lemma key_lt_ne e1 e2 : key_lt e1 e2 → cstring (key e1) → cstring (key e2) → key e1 ≠ key e2.
Proof. unfold key_lt. intros Hlt H1 H2 Heq. apply cmp_eq in Heq; [lia|done|done]. Qed.

Lemma wf_NoDup o : wf o → NoDup ((pair_of <$> o).*1).
Proof.
  induction o as [|e o IH]; [constructor|]. rewrite wf_cons. intros (Hlt & Hc & Hwf). cbn.
  constructor; [|by apply IH]. rewrite <- list_fmap_compose, list_elem_of_fmap. intros (e' & Heq & Hin).
  destruct Hwf as [_ Hf]. rewrite Forall_forall in Hlt, Hf. cbn in Heq.
  by apply (key_lt_ne e e'); [apply Hlt|done|apply Hf|].
Qed.

Lemma lookup_exact o k : wf o → cstring k →
  match BAVL_LookupExact k o with
  | Some e => e ∈ o ∧ key e = k
  | None => Forall (λ e, key e ≠ k) o
  end.
Proof.
  intros Hwf Hk. induction o as [|e o IH]; cbn; [constructor|]. apply wf_cons in Hwf as (_ & Hc & Hwf).
  specialize (IH Hwf). destruct (Z.eqb_spec (string_comparator (key e) k) 0) as [Heq|Hne].
  - apply cmp_eq in Heq; [|done|done]. split; [constructor|done].
  - change (List.find _ o) with (BAVL_LookupExact k o). destruct (BAVL_LookupExact k o).
    + destruct IH. split; [by constructor|done].
    + constructor; [|done]. intros Heq. by apply Hne, cmp_eq.
Qed.

Lemma to_map_Some o e : wf o → e ∈ o → to_map o !! key e = Some (value e).
Proof.
  intros Hwf He. apply elem_of_list_to_map_1; [by apply wf_NoDup|].
  apply list_elem_of_fmap. by exists e.
Qed.

Lemma to_map_None o k : Forall (λ e, key e ≠ k) o → to_map o !! k = None.
Proof.
  intros Hf. apply not_elem_of_list_to_map_1. rewrite <- list_fmap_compose, list_elem_of_fmap.
  intros (e & -> & He). rewrite Forall_forall in Hf. by apply (Hf e He).
Qed.

Lemma Get_map o k : wf o → cstring k → Get o k = to_map o !! k.
Proof.
  intros Hwf Hk. unfold Get. pose proof (lookup_exact o k Hwf Hk) as Hl.
  destruct (BAVL_LookupExact k o) as [e|].
  - destruct Hl as [He <-]. by rewrite to_map_Some.
  - by rewrite to_map_None.
Qed.

Lemma insert_spec e o : wf o → cstring (key e) →
  match BAVL_Insert e o with
  | inl e' => e' ∈ o ∧ key e' = key e
  | inr o' => wf o' ∧ Forall (λ e', key e' ≠ key e) o ∧ o' ≡ₚ e :: o
  end.
Proof.
  intros Hwf Hk. induction o as [|e' o IH]; cbn [BAVL_Insert].
  { split_and!; [|constructor|done]. rewrite wf_cons. split_and!; [constructor|done|apply wf_nil]. }
  apply wf_cons in Hwf as Hwf'. destruct Hwf' as (Hlt & Hc & Hwf').
  destruct (Z.eqb_spec (string_comparator (key e) (key e')) 0) as [Heq|Hne].
  { apply cmp_eq in Heq; [|done|done]. split; [constructor|done]. }
  destruct (Z.ltb_spec (string_comparator (key e) (key e')) 0) as [Hl|Hge].
  - assert (Forall (key_lt e) (e' :: o)) as Hall.
    { constructor; [done|]. eapply Forall_impl; [exact Hlt|]. intros x Hx. by transitivity e'. }
    split_and!; [by rewrite wf_cons| |done].
    apply Forall_forall. intros x Hx Heq. rewrite Forall_forall in Hall.
    apply (key_lt_ne e x); [by apply Hall|done| |done]. rewrite Heq. done.
  - specialize (IH Hwf'). destruct (BAVL_Insert e o) as [x|o''].
    + destruct IH. split; [by constructor|done].
    + destruct IH as (Hw & Hf & Hp). split_and!.
      * rewrite wf_cons. split_and!; [|done|done]. rewrite Hp. constructor; [|done].
        unfold key_lt. rewrite (proj2 (cmp_strcmp _ _)), strcmp_antisym.
        pose proof (cmp_strcmp (key e) (key e')). lia.
      * constructor; [|done]. intros Heq. by apply Hne, cmp_eq.
      * rewrite Hp. apply Permutation_swap.
Qed.

Lemma to_map_perm o o' : wf o → o ≡ₚ o' → to_map o = to_map o'.
Proof. intros Hwf Hp. apply list_to_map_proper; [by apply wf_NoDup|by rewrite Hp]. Qed.

Lemma remove_absent e o :
  Forall (λ e', cstring (key e')) o → cstring (key e) → Forall (λ e', key e' ≠ key e) o → BAVL_Remove e o = o.
Proof.
  unfold BAVL_Remove. induction o as [|e' o IH]; intros Hc Hk Hf; [done|].
  inversion_clear Hc. inversion_clear Hf. cbn [List.filter].
  destruct (Z.eqb_spec (string_comparator (key e') (key e)) 0) as [Heq|Hne].
  - by apply cmp_eq in Heq.
  - cbn. by rewrite IH.
Qed.

Lemma to_map_cons e o : to_map (e :: o) = <[key e := value e]> (to_map o).
Proof. done. Qed.

Lemma remove_spec e o : wf o → e ∈ o →
  wf (BAVL_Remove e o) ∧ to_map (BAVL_Remove e o) = delete (key e) (to_map o) ∧
  S (length (BAVL_Remove e o)) = length o ∧ Forall (λ e', key e' ≠ key e) (BAVL_Remove e o) ∧
  BAVL_Remove e o ⊆ o.
Proof.
  intros Hwf He. assert (cstring (key e)) as Hk.
  { destruct Hwf as [_ Hf]. rewrite Forall_forall in Hf. by apply Hf. }
  induction o as [|e' o IH]; [by apply not_elem_of_nil in He|].
  apply wf_cons in Hwf as (Hlt & Hc & Hwf). assert (Forall (λ x, cstring (key x)) o) as Hcs by apply Hwf.
  assert (Forall (λ x, key x ≠ key e') o) as Hne'.
  { rewrite Forall_forall in *. intros x Hx Heq. by apply (key_lt_ne e' x); auto. }
  destruct (decide (key e' = key e)) as [Heq|Hne].
  - assert (BAVL_Remove e (e' :: o) = o) as ->.
    { rewrite Heq in Hne'. unfold BAVL_Remove. cbn [List.filter].
      rewrite (proj2 (cmp_eq _ _ Hc Hk) Heq). cbn. by apply remove_absent. }
    rewrite Heq in Hne'. split_and!; try done; [|set_solver].
    rewrite to_map_cons, Heq, delete_insert_id; [done|]. by apply to_map_None.
  - assert (BAVL_Remove e (e' :: o) = e' :: BAVL_Remove e o) as ->.
    { unfold BAVL_Remove. cbn [List.filter].
      destruct (Z.eqb_spec (string_comparator (key e') (key e)) 0) as [Hx|_]; [by apply cmp_eq in Hx|done]. }
    destruct IH as (Hw & Hm & Hl & Hf & Hsub); [done| |].
    { apply elem_of_cons in He as [->|He]; done. }
    split_and!; [| |cbn; by rewrite Hl|by constructor|set_solver].
    + rewrite wf_cons. split_and!; [|done|done]. rewrite Forall_forall in *. auto.
    + rewrite !to_map_cons, Hm, delete_insert_ne; done.
Qed.

(** ** The operations *)

(** The blocks a map holds: three for every entry. *)
Definition blocks (o : t) : Z := 3 * zlen o.

Lemma Set_insert_spec o e m : wf o → cstring (key e) →
  ∃ o' m', Set_insert o e m = Some (o', m') ∧ wf o' ∧ to_map o' = <[key e := value e]> (to_map o) ∧
    live m' - blocks o' = live m - blocks o - 3 ∧ mallocs m' = mallocs m.
Proof.
  intros Hwf Hk. unfold Set_insert, blocks. pose proof (insert_spec e o Hwf Hk) as Hi.
  destruct (BAVL_Insert e o) as [ex|o'].
  - destruct Hi as [Hin Hkey]. destruct (remove_spec ex o Hwf Hin) as (Hw & Hm & Hl & Hf & _).
    cbn [free_entry]. pose proof (insert_spec e (BAVL_Remove ex o) Hw Hk) as Hi2.
    destruct (BAVL_Insert e (BAVL_Remove ex o)) as [x|o'].
    + destruct Hi2 as [Hx Hxk]. rewrite Forall_forall in Hf. exfalso. apply (Hf x Hx). congruence.
    + destruct Hi2 as (Hw' & _ & Hp). do 2 eexists. split; [done|]. split_and!; [done| | |done].
      * rewrite (to_map_perm _ _ Hw' Hp), to_map_cons, Hm, Hkey. by rewrite insert_delete_eq.
      * apply Permutation_length in Hp. cbn in *. lia.
  - destruct Hi as (Hw' & _ & Hp). do 2 eexists. split; [done|]. split_and!; [done| | |done].
    + by rewrite (to_map_perm _ _ Hw' Hp).
    + apply Permutation_length in Hp. cbn in *. lia.
Qed.

Lemma Set_spec o k v m : wf o → cstring k →
  ∃ a o' m', Set_ o k v m = Some (a, o', m') ∧ wf o' ∧
    to_map o' = (if a then <[k := v]> (to_map o) else to_map o) ∧
    live m' - blocks o' = live m - blocks o ∧
    (a = false → o' = o) ∧ ((∀ i, ok i = true) → a = true).
Proof.
  intros Hwf Hk. unfold Set_, malloc.
  destruct (ok (mallocs m)) eqn:H1; cbn; [|do 3 eexists; split_and!; try done; intros Hok; by rewrite Hok in H1].
  destruct (ok (S (mallocs m))) eqn:H2; cbn;
    [|do 3 eexists; split_and!; try done; cbn; [lia|intros Hok; by rewrite Hok in H2]].
  destruct (ok (S (S (mallocs m)))) eqn:H3; cbn;
    [|do 3 eexists; split_and!; try done; cbn; [lia|intros Hok; by rewrite Hok in H3]].
  destruct (Set_insert_spec o (mk_entry k v) (mk_mem (live m + 1 + 1 + 1) (S (S (S (mallocs m)))))
    Hwf Hk) as (o' & m' & -> & Hw & Hm & Hb & _).
  cbn in *. do 3 eexists; split_and!; try done. lia.
Qed.

Lemma Unset_spec o k m : wf o → cstring k →
  ∃ o' m', Unset o k m = (o', m') ∧ wf o' ∧ to_map o' = delete k (to_map o) ∧
    live m' - blocks o' = live m - blocks o.
Proof.
  intros Hwf Hk. unfold Unset, blocks. pose proof (lookup_exact o k Hwf Hk) as Hl.
  destruct (BAVL_LookupExact k o) as [e|].
  - destruct Hl as [He <-]. destruct (remove_spec e o Hwf He) as (Hw & Hm & Hlen & _).
    do 2 eexists. split_and!; try done. cbn. lia.
  - do 2 eexists. split_and!; try done. rewrite delete_id; [done|]. by apply to_map_None.
Qed.

Lemma Free_loop_spec fuel o m : wf o → (length o ≤ fuel)%nat →
  ∃ m', Free_loop fuel o m = Some ([], m') ∧ live m' = live m - blocks o.
Proof.
  revert o m. induction fuel as [|fuel IH]; intros [|e o] m Hwf Hf; cbn in Hf; try lia;
    try (exists m; split; [done|unfold blocks; cbn; lia]).
  cbn [Free_loop BAVL_GetFirst head free_entry].
  destruct (remove_spec e (e :: o) Hwf ltac:(constructor)) as (Hw & _ & Hl & _).
  destruct (IH (BAVL_Remove e (e :: o)) (free (free (free m))) Hw) as (m' & -> & Hm); [cbn [length] in Hl; lia|].
  exists m'. split; [done|]. rewrite Hm. unfold blocks in *. cbn [live free length] in *. lia.
Qed.

Lemma Free_spec o m : wf o → ∃ m', Free o m = Some ([], m') ∧ live m' = live m - blocks o.
Proof. intros Hwf. by apply Free_loop_spec. Qed.

(** ** Iteration *)

Lemma entry_unique o e e' : wf o → e ∈ o → e' ∈ o → key e = key e' → e = e'.
Proof.
  intros Hwf He He' Hk. pose proof (to_map_Some _ _ Hwf He) as H1.
  rewrite Hk, (to_map_Some _ _ Hwf He') in H1. destruct e, e'. cbn in *. congruence.
Qed.

Lemma get_next_spec l1 e l2 : wf (l1 ++ e :: l2) → BAVL_GetNext e (l1 ++ e :: l2) = head l2.
Proof.
  induction l1 as [|x l1 IH]; cbn [app BAVL_GetNext]; rewrite wf_cons; intros (Hlt & Hc & Hwf).
  - by rewrite (proj2 (cmp_eq _ _ Hc Hc) eq_refl).
  - destruct (Z.eqb_spec (string_comparator (key x) (key e)) 0) as [Heq|_]; [|by apply IH].
    rewrite Forall_app, Forall_cons in Hlt. unfold key_lt in Hlt. lia.
Qed.

Lemma lookup_elem o e : wf o → e ∈ o → BAVL_LookupExact (key e) o = Some e.
Proof.
  intros Hwf He. assert (cstring (key e)) as Hk.
  { destruct Hwf as [_ Hf]. rewrite Forall_forall in Hf. by apply Hf. }
  pose proof (lookup_exact o (key e) Hwf Hk) as Hl. destruct (BAVL_LookupExact (key e) o) as [e'|].
  - destruct Hl as [He' Hkey]. f_equal. by apply (entry_unique o).
  - rewrite Forall_forall in Hl. by destruct (Hl e He).
Qed.

Lemma InitCopy_loop_spec l2 l1 o m fuel : wf (l1 ++ l2) → wf o → to_map o = to_map l1 → (length l2 ≤ fuel)%nat →
  ∃ a o' m', InitCopy_loop fuel o (l1 ++ l2) (key <$> head l2) m = Some (a, o', m') ∧ wf o' ∧
    live m' - blocks o' = live m - blocks o ∧
    (if a then to_map o' = to_map (l1 ++ l2) else o' = []) ∧ ((∀ i, ok i = true) → a = true).
Proof.
  revert l1 o m fuel. induction l2 as [|e l2 IH]; intros l1 o m fuel Hwf Hwo Hmap Hf; cbn in Hf.
  { exists true, o, m. rewrite app_nil_r. by destruct fuel. }
  destruct fuel as [|fuel]; [lia|]. cbn [InitCopy_loop fmap option_fmap option_map head].
  assert (e ∈ l1 ++ e :: l2) as Hin by set_solver.
  assert (cstring (key e)) as Hk.
  { destruct Hwf as [_ Hcs]. rewrite Forall_forall in Hcs. by apply Hcs. }
  rewrite Get_map, (to_map_Some _ e) by done. cbn [mbind option_bind].
  destruct (Set_spec o (key e) (value e) m Hwo Hk) as (a & o1 & m1 & -> & Hw1 & Hm1 & Hb1 & Ho1 & Hok).
  cbn [mbind option_bind]. destruct a; cbn [negb].
  - unfold Next. rewrite lookup_elem by done. cbn [mbind option_bind].
    rewrite get_next_spec by done.
    replace (l1 ++ e :: l2) with ((l1 ++ [e]) ++ l2) in * by by rewrite <- app_assoc.
    destruct (IH (l1 ++ [e]) o1 m1 fuel) as (a & o' & m' & -> & Hw' & Hb' & Hm' & Hok'); try done; [|lia|].
    { assert (wf (l1 ++ [e])) as Hwl.
      { destruct Hwf as [Hs Hc]. split; [by eapply StronglySorted_app_1_l|]. by apply Forall_app in Hc as [? _]. }
      rewrite Hm1, Hmap, (to_map_perm (l1 ++ [e]) (e :: l1)); [done|done|by rewrite Permutation_app_comm]. }
    exists a, o', m'. split_and!; try done. lia.
  - rewrite (Ho1 eq_refl) in *. destruct (Free_spec o m1 Hwo) as (m2 & -> & Hm2).
    exists false, [], m2. split_and!; try done; [apply wf_nil|unfold blocks in *; cbn; lia].
Qed.

(** A [BStringMap] is a finite map from strings to strings: lookup,
    assignment and removal do what they do on the map, a failed allocation
    leaves it as it was, and every block allocated belongs to an entry, so
    nothing leaks. *)
Theorem stringmap_is_map o k v m :
  wf o → cstring k →
  (∀ k', cstring k' → Get o k' = to_map o !! k') ∧
  (∃ a o' m', Set_ o k v m = Some (a, o', m') ∧ wf o' ∧
     to_map o' = (if a then <[k := v]> (to_map o) else to_map o) ∧
     live m' - blocks o' = live m - blocks o ∧ ((∀ i, ok i = true) → a = true)) ∧
  (∃ o' m', Unset o k m = (o', m') ∧ wf o' ∧ to_map o' = delete k (to_map o) ∧
     live m' - blocks o' = live m - blocks o) ∧
  (∃ m', Free o m = Some ([], m') ∧ live m' = live m - blocks o).
Proof.
  intros Hwf Hk. split_and!.
  - intros. by apply Get_map.
  - destruct (Set_spec o k v m Hwf Hk) as (a & o' & m' & ? & ? & ? & ? & _ & ?). by exists a, o', m'.
  - by apply Unset_spec.
  - by apply Free_spec.
Qed.

(** [BStringMap_InitCopy] ends, and with an equal map, or, where an
    allocation fails, with an empty one and every block it took given back. *)
Theorem stringmap_copy src m :
  wf src →
  ∃ a o m', InitCopy src m = Some (a, o, m') ∧ wf o ∧
    (if a then to_map o = to_map src ∧ live m' = live m + blocks o
     else o = [] ∧ live m' = live m) ∧
    ((∀ i, ok i = true) → a = true).
Proof.
  intros Hwf. unfold InitCopy, First, BAVL_GetFirst.
  destruct (InitCopy_loop_spec src [] Init m (length src) Hwf wf_nil eq_refl ltac:(lia))
    as (a & o & m' & Hr & Hw & Hb & Hm & Hok).
  exists a, o, m'. split_and!; try done. unfold blocks in Hb; cbn in Hb.
  destruct a; [split; [done|unfold blocks; lia]|]. subst o. split; [done|cbn in Hb; lia].
Qed.

End stringmap.
End BStringMap.

Definition example_map : BStringMap.t :=
  [BStringMap.mk_entry "17" "10.0.0.2:999"; BStringMap.mk_entry "9" "10.0.0.2:1000"].

Lemma example_map_wf : BStringMap.wf example_map.
Proof.
  unfold example_map. rewrite !BStringMap.wf_cons. split_and!; try apply BStringMap.wf_nil; repeat constructor.
Qed.

Lemma stringmap_is_map_witness :
  BStringMap.Get example_map "9" = Some "10.0.0.2:1000"%string ∧
  ∃ a o' m', BStringMap.Set_ (λ _, true) example_map "17" "10.0.0.3:1" (mk_mem 6 0) = Some (a, o', m') ∧
    BStringMap.Get o' "17" = Some "10.0.0.3:1"%string ∧ live m' = BStringMap.blocks o'.
Proof.
  destruct (BStringMap.stringmap_is_map (λ _, true) example_map "17" "10.0.0.3:1" (mk_mem 6 0) example_map_wf)
    as (HG & HS & _); [repeat constructor|].
  split; [reflexivity|]. destruct HS as (a & o' & m' & HS & Hw & Hm & Hb & Ha).
  exists a, o', m'. split; [done|]. split.
  - rewrite BStringMap.Get_map by (first [done | repeat constructor]).
    rewrite Hm, Ha by done. by rewrite lookup_insert_eq.
  - change (BStringMap.blocks example_map) with 6 in Hb. cbn in Hb. lia.
Defined.

Lemma stringmap_copy_witness :
  ∃ a o m', BStringMap.InitCopy (λ i, bool_decide (i < 4)%nat) example_map (mk_mem 6 0) = Some (a, o, m') ∧
    a = false ∧ o = [] ∧ live m' = 6.
Proof.
  destruct (BStringMap.stringmap_copy (λ i, bool_decide (i < 4)%nat) example_map (mk_mem 6 0) example_map_wf)
    as (a & o & m' & Hr & _ & Hc & _).
  exists a, o, m'. split; [done|]. vm_compute in Hr. injection Hr as <- <- <-. done.
Defined.
