(* ===== verification/Trees.v ===== *)
(** * Trees: the tables of the clients over the AVL tree

    [UdpGwClient] keeps its connections in two [BAVL] trees and [BStringMap] its
    entries in one; UdpGw.v and StringMap.v use the list of a tree's nodes.  Here
    the lists are shown to be what the pointer structure of Bavl.v holds: the
    comparators of the clients are total orders on the keys they are given, and
    every search, insertion and removal of the trees has the result the clients'
    models compute. *)
From Stdlib Require Import Ascii String.
From stdpp Require Import sorting.
From S2P Require Import Prelude Bytes Bavl Text Addr UdpGw StringMap.

(** ** Comparators on valid keys *)

(** A comparator that orders the keys satisfying [P]. *)
Class KeyOrder {K : Type} (P : K → Prop) (cmp : K → K → Z) : Prop := {
  ko_range a b : cmp a b = -1 ∨ cmp a b = 0 ∨ cmp a b = 1;
  ko_flip a b : P a → P b → cmp b a = - cmp a b;
  ko_trans a b c : P a → P b → P c → cmp a b < 0 → cmp b c < 0 → cmp a c < 0;
  ko_zero a b : P a → P b → cmp a b = 0 → a = b
}.

Section key_order.
Context {K : Type} (P : K → Prop) (cmp : K → K → Z).

#[local] Instance key_comparator : Comparator (sig P) := λ a b, cmp (`a) (`b).

#[local] Instance key_comparator_ok `{!KeyOrder P cmp} : ComparatorOk (sig P).
Proof.
  split; unfold comparator, key_comparator.
  - intros v w. apply ko_range.
  - intros v w. apply ko_flip; apply proj2_sig.
  - intros u v w Huv Hvw. pose proof (ko_range (`u) (`w)). assert (cmp (`u) (`w) < 0); [|lia].
    apply (ko_trans (`u) (`v) (`w)); try apply proj2_sig; lia.
  - intros u v w Huv. apply ko_zero in Huv as ->; [done|apply proj2_sig..].
Qed.
End key_order.

Lemma B_COMPARE_range a b : B_COMPARE a b = -1 ∨ B_COMPARE a b = 0 ∨ B_COMPARE a b = 1.
Proof. pose proof (B_COMPARE_spec a b). lia. Qed.

#[export] Instance uint16_order : KeyOrder (λ c, 0 ≤ c < 65536) UdpGwClient.uint16_comparator.
Proof.
  unfold UdpGwClient.uint16_comparator. split.
  - intros. apply B_COMPARE_range.
  - intros a b _ _. pose proof (B_COMPARE_spec a b). pose proof (B_COMPARE_spec b a). lia.
  - intros a b c _ _ _. pose proof (B_COMPARE_spec a b). pose proof (B_COMPARE_spec b c). pose proof (B_COMPARE_spec a c). lia.
  - intros a b _ _. pose proof (B_COMPARE_spec a b). lia.
Qed.

Lemma lexcmp_range p q : lexcmp p q = -1 ∨ lexcmp p q = 0 ∨ lexcmp p q = 1.
Proof.
  revert q. induction p as [|x p IH]; intros [|y q]; cbn; auto. destruct (x =? y); [apply IH|apply B_COMPARE_range].
Qed.

Lemma CompareOrder_range a b :
  BAddr_CompareOrder a b = -1 ∨ BAddr_CompareOrder a b = 0 ∨ BAddr_CompareOrder a b = 1.
Proof. unfold BAddr_CompareOrder. repeat (case_match; auto); apply B_COMPARE_range. Qed.

#[export] Instance conaddr_order : KeyOrder conaddr_wf UdpGwClient.conaddr_comparator.
Proof.
  unfold UdpGwClient.conaddr_comparator. split.
  - intros a b. case_match; apply CompareOrder_range.
  - intros a b (? & ? & _) (? & ? & _). rewrite !CompareOrder_lexcmp by done.
    rewrite (lexcmp_antisym (addr_key (UdpGwClient.remote_addr a)) (addr_key (UdpGwClient.remote_addr b))).
    rewrite (lexcmp_antisym (addr_key (UdpGwClient.local_addr a)) (addr_key (UdpGwClient.local_addr b))).
    repeat case_match; bool_props; lia.
  - intros a b c (Hla & Hra & _) (Hlb & Hrb & _) (Hlc & Hrc & _).
    pose proof (CompareOrder_zero _ _ Hra Hrb) as Hab. pose proof (CompareOrder_zero _ _ Hrb Hrc) as Hbc.
    pose proof (CompareOrder_zero _ _ Hra Hrc) as Hac.
    rewrite !CompareOrder_lexcmp in * by done.
    pose proof (lexcmp_trans (addr_key (UdpGwClient.remote_addr a)) (addr_key (UdpGwClient.remote_addr b)) (addr_key (UdpGwClient.remote_addr c))) as Hr.
    pose proof (lexcmp_trans (addr_key (UdpGwClient.local_addr a)) (addr_key (UdpGwClient.local_addr b)) (addr_key (UdpGwClient.local_addr c))) as Hl.
    destruct (decide (UdpGwClient.remote_addr a = UdpGwClient.remote_addr b)) as [E1|E1].
    + rewrite E1 in *. repeat case_match; bool_props; try lia; tauto.
    + destruct (decide (UdpGwClient.remote_addr b = UdpGwClient.remote_addr c)) as [E2|E2].
      * rewrite E2 in *. repeat case_match; bool_props; try lia; tauto.
      * repeat case_match; bool_props; try lia; try tauto.
  - intros a b Ha Hb Hz. by apply comparator_zero.
Qed.

#[export] Instance string_order : KeyOrder cstring BStringMap.string_comparator.
Proof.
  split.
  - intros. apply B_COMPARE_range.
  - intros a b _ _. unfold BStringMap.string_comparator. rewrite (BStringMap.strcmp_antisym a b).
    pose proof (B_COMPARE_spec (strcmp a b) 0). pose proof (B_COMPARE_spec (- strcmp a b) 0). lia.
  - intros a b c _ _ _. rewrite !(proj2 (BStringMap.cmp_strcmp _ _)). apply BStringMap.strcmp_trans.
  - intros a b Ha Hb. by apply BStringMap.cmp_eq.
Qed.

(** ** A tree and its list *)

Lemma find_unique {A} (f : A → bool) l l' :
  l ≡ₚ l' → (∀ p q, p ∈ l → q ∈ l → f p = true → f q = true → p = q) → List.find f l = List.find f l'.
Proof.
  intros Hp Hu. destruct (List.find f l) as [p|] eqn:Hf.
  - apply find_some in Hf as [Hin Hfp]. destruct (List.find f l') as [q|] eqn:Hf'.
    + apply find_some in Hf' as [Hin' Hfq]. f_equal. apply Hu; try done; [by apply list_elem_of_In|].
      rewrite Hp. by apply list_elem_of_In.
    + apply list_elem_of_In in Hin. rewrite Hp in Hin. apply list_elem_of_In, (find_none _ _ Hf') in Hin. congruence.
  - destruct (List.find f l') as [q|] eqn:Hf'; [|done]. apply find_some in Hf' as [Hin' Hfq]. exfalso.
    apply list_elem_of_In in Hin'. rewrite <- Hp in Hin'. apply list_elem_of_In in Hin'.
    pose proof (find_none _ _ Hf q Hin'). congruence.
Qed.

Lemma find_ext_in {A} (f g : A → bool) l : (∀ x, x ∈ l → f x = g x) → List.find f l = List.find g l.
Proof.
  induction l as [|x l IH]; intros Hfg; cbn; [done|]. rewrite (Hfg x) by set_solver. rewrite IH; [done|]. set_solver.
Qed.

Lemma find_fmap {A B} (f : B → bool) (g : A → B) l : List.find f (g <$> l) = g <$> List.find (λ x, f (g x)) l.
Proof. induction l as [|x l IH]; cbn; [done|]. by destruct (f (g x)). Qed.

Lemma StronglySorted_ext_in {A} (R S : A → A → Prop) l :
  (∀ x y, x ∈ l → y ∈ l → R x y → S x y) → StronglySorted R l → StronglySorted S l.
Proof.
  intros HRS Hs. induction Hs as [|x l Hs IH Hx]; constructor.
  - apply IH. set_solver.
  - rewrite Forall_forall in *. intros y Hy. apply HRS; [set_solver..|]. by apply Hx.
Qed.

Section table.
Context `{Build} {K : Type} (P : K → Prop) (cmp : K → K → Z) `{!KeyOrder P cmp}.
#[local] Instance table_comparator : Comparator (sig P) := key_comparator P cmp.
#[local] Instance table_comparator_ok : ComparatorOk (sig P) := key_comparator_ok P cmp.

(** [tr] holds the nodes of the list, whose keys [nv] reads. *)
Definition holds (nv : Z → sig P) (tr : BAVL.t) (tree : list Z) : Prop :=
  ∃ l, BAVL.represents nv tr l ∧ l ≡ₚ tree.

Lemma holds_equal nv tr tree p q :
  holds nv tr tree → p ∈ tree → q ∈ tree → cmp (proj1_sig (nv p)) (proj1_sig (nv q)) = 0 → p = q.
Proof.
  intros (l & Hr & Hp) Hpt Hqt Hc. apply BAVL.represents_sorted in Hr. rewrite <- Hp in Hpt, Hqt.
  apply list_elem_of_split in Hpt as (l1 & l2 & ->).
  apply StronglySorted_app in Hr as (Hl & _ & Hs). apply StronglySorted_inv in Hs as [_ Hs]. rewrite Forall_forall in Hs.
  apply elem_of_app in Hqt as [Hq|[->|Hq]%elem_of_cons]; [|done|].
  - specialize (Hl q p Hq ltac:(set_solver)). unfold BAVL.node_lt, comparator, table_comparator, key_comparator in Hl.
    pose proof (ko_flip (P := P) (cmp := cmp) _ _ (proj2_sig (nv p)) (proj2_sig (nv q))). lia.
  - specialize (Hs q Hq). unfold BAVL.node_lt, comparator, table_comparator, key_comparator in Hs. lia.
Qed.

(** Only the keys of the nodes matter. *)
Lemma holds_ext nv nv' tr tree :
  (∀ p, p ∈ tree → proj1_sig (nv p) = proj1_sig (nv' p)) → holds nv tr tree → holds nv' tr tree.
Proof.
  intros He (l & (T & Hv & Ha & Hs & <-) & Hp). exists (BAVL.elements T). split; [|done].
  exists T. split_and!; try done. unfold BAVL.sorted in *. eapply StronglySorted_ext_in; [|exact Hs].
  intros x y Hx Hy. unfold BAVL.node_lt, comparator, table_comparator, key_comparator. rewrite Hp in Hx, Hy. by rewrite !He.
Qed.

Lemma holds_lookup nv tr tree k (Hk : P k) (f : Z → bool) :
  holds nv tr tree → (∀ p, p ∈ tree → f p = (cmp k (proj1_sig (nv p)) =? 0)) →
  BAVL.LookupExact nv (k ↾ Hk) tr = Some (List.find f tree, tr, []).
Proof.
  intros Hh Hf. pose proof Hh as (l & Hr & Hp). rewrite (BAVL.represents_LookupExact nv tr l (k ↾ Hk) Hr).
  unfold BAVL.list_lookup_exact. do 3 f_equal. rewrite <- (find_unique _ l tree Hp).
  - apply find_ext_in. intros p Hpl. rewrite Hp in Hpl. by rewrite Hf.
  - intros p q Hpl Hql. rewrite Hp in Hpl, Hql. rewrite !Hf by done. intros Hcp%Z.eqb_eq Hcq%Z.eqb_eq.
    apply (holds_equal nv tr tree); try done. apply ko_zero in Hcp; [|done|apply proj2_sig]. by rewrite <- Hcp.
Qed.

Lemma holds_remove nv tr tree p :
  holds nv tr tree → p ∈ tree →
  ∃ tr', BAVL.Remove p tr = Some (tt, tr', []) ∧ holds nv tr' (List.filter (λ q, negb (q =? p)) tree).
Proof.
  intros (l & Hr & Hp) Hin. destruct (BAVL.represents_Remove nv tr l p Hr) as (tr' & Hrun & Hr').
  { by rewrite Hp. }
  exists tr'. split; [done|]. eexists. split; [exact Hr'|]. by apply remove_Permutation.
Qed.

Lemma list_insert_cases nv (l : list Z) p :
  match BAVL.list_insert nv p l with
  | inl e => e ∈ l ∧ cmp (proj1_sig (nv p)) (proj1_sig (nv e)) = 0
  | inr l' => l' ≡ₚ p :: l
  end.
Proof.
  induction l as [|e l IH]; cbn; [done|]. change (comparator (nv p) (nv e)) with (cmp (proj1_sig (nv p)) (proj1_sig (nv e))).
  destruct (Z.eqb_spec (cmp (proj1_sig (nv p)) (proj1_sig (nv e))) 0); [set_solver|]. destruct (_ <? 0); [done|].
  destruct (BAVL.list_insert nv p l) as [x|l''].
  - destruct IH. split; [set_solver|done].
  - rewrite IH. apply Permutation_swap.
Qed.

Lemma holds_insert nv tr tree p :
  holds nv tr tree → p ∉ tree →
  ∃ r tr', BAVL.Insert nv p tr = Some (r, tr', []) ∧
    match List.find (λ q, cmp (proj1_sig (nv p)) (proj1_sig (nv q)) =? 0) tree with
    | Some e => r = (false, Some e) ∧ tr' = tr
    | None => r.1 = true ∧ holds nv tr' (p :: tree)
    end.
Proof.
  intros Hh Hn. pose proof Hh as (l & Hr & Hp).
  destruct (BAVL.represents_Insert nv tr l p Hr) as (r & tr' & Hrun & Hi); [by rewrite Hp|].
  exists r, tr'. split; [done|]. pose proof (list_insert_cases nv l p) as Hc.
  destruct (BAVL.list_insert nv p l) as [e|l'].
  - destruct Hc as [He Hc]. rewrite Hp in He. destruct (List.find _ tree) as [q|] eqn:Hf.
    + apply find_some in Hf as [Hq Hcq%Z.eqb_eq]. apply list_elem_of_In in Hq.
      rewrite (holds_equal nv tr tree e q) in Hi; try done.
      apply ko_zero in Hc; [|apply proj2_sig..]. by rewrite <- Hc.
    + exfalso. apply list_elem_of_In in He. apply (find_none _ _ Hf) in He. lia.
  - destruct Hi as (Hr1 & Hrep & _). assert (holds nv tr' (p :: tree)) as Hh'.
    { exists l'. split; [done|]. by rewrite Hc, Hp. }
    destruct (List.find _ tree) as [q|] eqn:Hf; [|done]. exfalso.
    apply find_some in Hf as [Hq Hcq%Z.eqb_eq]. apply list_elem_of_In in Hq.
    assert (p = q) as ->; [|done]. apply (holds_equal nv tr' (p :: tree)); [done|set_solver..|done].
Qed.
End table.

(** ** The connection tables of [UdpGwClient] *)

Section udpgw_trees.
Import UdpGwClient.
Context `{Build}.

#[local] Instance conaddr_cmp : Comparator {a | conaddr_wf a} := key_comparator conaddr_wf conaddr_comparator.
#[local] Instance conid_cmp : Comparator {c : Z | 0 ≤ c < 65536} := key_comparator _ uint16_comparator.

Definition holds_conaddr := holds conaddr_wf conaddr_comparator.
Definition holds_conid := holds (λ c : Z, 0 ≤ c < 65536) uint16_comparator.

(** [tree_insert] is the insertion of the pointer structure. *)
Lemma tree_insert_bavl {K} (P : K → Prop) cmp `{!KeyOrder P cmp} (key : connection → K)
    (nv : Z → sig P) h tr tree p :
  holds P cmp nv tr tree → p ∉ tree →
  (∀ q, q ∈ p :: tree → ∃ c, h !! q = Some c ∧ proj1_sig (nv q) = key c) →
  ∃ r tr', BAVL.Insert (H0 := key_comparator P cmp) nv p tr = Some (r, tr', []) ∧
    r.1 = (tree_insert h key cmp tree p).2 ∧ holds P cmp nv tr' (tree_insert h key cmp tree p).1.
Proof.
  intros Hh Hn Hk. destruct (holds_insert P cmp nv tr tree p Hh Hn) as (r & tr' & Hrun & Hi).
  exists r, tr'. split; [exact Hrun|]. destruct (Hk p) as (c & Hc & Hkc); [set_solver|].
  unfold tree_insert. rewrite Hc. unfold lookup_exact. rewrite <- Hkc.
  rewrite (find_ext_in _ (λ q, cmp (proj1_sig (nv p)) (proj1_sig (nv q)) =? 0)).
  - destruct (List.find _ tree); [by destruct Hi as [-> ->]|done].
  - intros q Hq. destruct (Hk q) as (d & Hd & Hkd); [set_solver|]. by rewrite Hd, Hkd.
Qed.

(** [va] and [vi] read the addresses and ids of the connections. *)
Definition reads (o : t) (va : Z → {a | conaddr_wf a}) (vi : Z → {c : Z | 0 ≤ c < 65536}) : Prop :=
  ∀ p c, heap o !! p = Some c → proj1_sig (va p) = conaddr c ∧ proj1_sig (vi p) = conid c.

(** Insertion after the connection [p] got its keys. *)
Lemma tree_insert_changed {K} (P : K → Prop) cmp `{!KeyOrder P cmp} (key : connection → K)
    (nv nv' : Z → sig P) (o : t) tr tree p c :
  (∀ q d, heap o !! q = Some d → proj1_sig (nv q) = key d) →
  (∀ q d, <[p := c]> (heap o) !! q = Some d → proj1_sig (nv' q) = key d) →
  holds P cmp nv tr tree → p ∉ tree → (∀ q, q ∈ tree → is_Some (heap o !! q)) →
  ∃ r tr', BAVL.Insert (H0 := key_comparator P cmp) nv' p tr = Some (r, tr', []) ∧
    r.1 = (tree_insert (<[p := c]> (heap o)) key cmp tree p).2 ∧
    holds P cmp nv' tr' (tree_insert (<[p := c]> (heap o)) key cmp tree p).1.
Proof.
  intros Hrd Hrd' Hh Hn Hin. assert (∀ q, q ∈ tree → ∃ d, heap o !! q = Some d ∧ <[p := c]> (heap o) !! q = Some d) as Hk.
  { intros q Hq. destruct (Hin q Hq) as [d Hd]. exists d. rewrite lookup_insert_ne by (intros ->; done). done. }
  apply tree_insert_bavl; [done| |done|].
  - eapply holds_ext; [|exact Hh]. intros q Hq. destruct (Hk q Hq) as (d & Hd & Hd').
    by rewrite (Hrd q d Hd), (Hrd' q d Hd').
  - intros q [->|Hq]%elem_of_cons.
    + exists c. rewrite lookup_insert_eq. split; [done|]. apply Hrd', lookup_insert_eq.
    + destruct (Hk q Hq) as (d & _ & Hd'). exists d. split; [done|]. by apply Hrd'.
Qed.

(** C14: the two trees of the gateway client do what its model of them says:
    with their comparators, which are total orders on the keys, the lookups by
    address and by id, the removal of a connection, the insertion of a new one
    and the move of a connection to another address run on the AVL trees without
    failing, and leave trees of exactly the connections the model lists. *)
Theorem udpgw_trees_bavl o va vi ta ti :
  gw_inv o → reads o va vi → holds_conaddr va ta (tree_by_conaddr o) → holds_conid vi ti (tree_by_conid o) →
  (∀ a (Ha : conaddr_wf a), BAVL.LookupExact va (a ↾ Ha) ta = Some (find_connection_by_conaddr o a, ta, [])) ∧
  (∀ c (Hc : 0 ≤ c < 65536), BAVL.LookupExact vi (c ↾ Hc) ti = Some (find_connection_by_conid o c, ti, [])) ∧
  (∀ p, p ∈ connections_list o → ∃ ta' ti',
     BAVL.Remove p ta = Some (tt, ta', []) ∧ holds_conaddr va ta' (remove_node p (tree_by_conaddr o)) ∧
     BAVL.Remove p ti = Some (tt, ti', []) ∧ holds_conid vi ti' (remove_node p (tree_by_conid o))) ∧
  (∀ p c va' vi', let o' := with_conns (<[p := c]> (heap o)) (tree_by_conaddr o) (tree_by_conid o)
                              (connections_list o) (num_connections o) o in
     reads o' va' vi' →
     (p ∉ connections_list o → ∃ ra ri ta' ti',
        BAVL.Insert va' p ta = Some (ra, ta', []) ∧ BAVL.Insert vi' p ti = Some (ri, ti', []) ∧
        (ra.1 = (tree_insert (heap o') conaddr conaddr_comparator (tree_by_conaddr o) p).2 ∧
         holds_conaddr va' ta' (tree_insert (heap o') conaddr conaddr_comparator (tree_by_conaddr o) p).1) ∧
        (ri.1 = (tree_insert (heap o') conid uint16_comparator (tree_by_conid o) p).2 ∧
         holds_conid vi' ti' (tree_insert (heap o') conid uint16_comparator (tree_by_conid o) p).1)) ∧
     (p ∈ connections_list o → ∃ ra ta1 ta2,
        BAVL.Remove p ta = Some (tt, ta1, []) ∧ BAVL.Insert va' p ta1 = Some (ra, ta2, []) ∧
        ra.1 = (tree_insert (heap o') conaddr conaddr_comparator (remove_node p (tree_by_conaddr o)) p).2 ∧
        holds_conaddr va' ta2 (tree_insert (heap o') conaddr conaddr_comparator (remove_node p (tree_by_conaddr o)) p).1)).
Proof.
  intros Hi Hrd Hta Hti.
  assert (∀ q, q ∈ connections_list o → ∃ d, heap o !! q = Some d) as Hin.
  { intros q Hq. by apply (gi_dom _ Hi). }
  split_and!.
  - intros a Ha. unfold find_connection_by_conaddr, lookup_exact. apply (holds_lookup _ conaddr_comparator va); [done|].
    intros p Hp. rewrite (gi_ta _ Hi) in Hp. destruct (Hin p Hp) as (d & Hd). rewrite Hd.
    by destruct (Hrd _ _ Hd) as [-> _].
  - intros c Hc. unfold find_connection_by_conid, lookup_exact. rewrite u16_small by done.
    apply (holds_lookup _ uint16_comparator vi); [done|].
    intros p Hp. rewrite (gi_ti _ Hi) in Hp. destruct (Hin p Hp) as (d & Hd). rewrite Hd.
    by destruct (Hrd _ _ Hd) as [_ ->].
  - intros p Hp. destruct (holds_remove _ _ va ta _ p Hta) as (ta' & Hra & Hha); [by rewrite (gi_ta _ Hi)|].
    destruct (holds_remove _ _ vi ti _ p Hti) as (ti' & Hri & Hhi); [by rewrite (gi_ti _ Hi)|].
    by exists ta', ti'.
  - intros p c va' vi' o' Hrd'.
    assert (∀ q d, heap o !! q = Some d → proj1_sig (va q) = conaddr d) as Hra by (intros; by apply Hrd).
    assert (∀ q d, heap o' !! q = Some d → proj1_sig (va' q) = conaddr d) as Hra' by (intros; by apply Hrd').
    split; intros Hp.
    + destruct (tree_insert_changed conaddr_wf conaddr_comparator conaddr va va' o ta (tree_by_conaddr o) p c)
        as (ra & ta' & HIa & Ha); try done; [by rewrite (gi_ta _ Hi)|intros q; rewrite (gi_ta _ Hi); apply Hin|].
      destruct (tree_insert_changed _ uint16_comparator conid vi vi' o ti (tree_by_conid o) p c)
        as (ri & ti' & HIi & Hi'); try done; [intros; by apply Hrd|intros; by apply Hrd'
          |by rewrite (gi_ti _ Hi)|intros q; rewrite (gi_ti _ Hi); apply Hin|].
      by exists ra, ri, ta', ti'.
    + destruct (holds_remove _ _ va ta _ p Hta) as (ta1 & Hrm & Hh1); [by rewrite (gi_ta _ Hi)|].
      destruct (tree_insert_changed conaddr_wf conaddr_comparator conaddr va va' o ta1
        (remove_node p (tree_by_conaddr o)) p c) as (ra & ta2 & HIa & Ha); try done.
      * by intros [? _]%elem_of_remove.
      * intros q [_ Hq]%elem_of_remove. rewrite (gi_ta _ Hi) in Hq. by apply Hin.
      * by exists ra, ta1, ta2.
Qed.
End udpgw_trees.

(** ** The tree of [BStringMap] *)

Section stringmap_tree.
Import BStringMap.
Context `{Build}.

#[local] Instance string_cmp : Comparator {s | cstring s} := key_comparator cstring string_comparator.
#[local] Instance string_cmp_ok : ComparatorOk {s | cstring s} := key_comparator_ok cstring string_comparator.

(** The entries in memory, and their keys. *)
Context (entries : Z → entry) (nv : Z → {s | cstring s}) (Hnv : ∀ p, proj1_sig (nv p) = key (entries p)).

Lemma nv_compare p q : comparator (nv p) (nv q) = string_comparator (key (entries p)) (key (entries q)).
Proof. unfold comparator, string_cmp, key_comparator. by rewrite !Hnv. Qed.

(** The tree [tr] of nodes in memory stands for the map [es]. *)
Definition holds_entries (tr : BAVL.t) (es : BStringMap.t) : Prop :=
  ∃ l, BAVL.represents nv tr l ∧ entries <$> l = es.

Lemma list_insert_entries p l :
  match BAVL.list_insert nv p l with
  | inl e => BAVL_Insert (entries p) (entries <$> l) = inl (entries e)
  | inr l' => BAVL_Insert (entries p) (entries <$> l) = inr (entries <$> l')
  end.
Proof.
  induction l as [|e l IH]; cbn; [done|]. rewrite nv_compare.
  destruct (string_comparator (key (entries p)) (key (entries e)) =? 0); [done|].
  destruct (_ <? 0); [done|]. by destruct (BAVL.list_insert nv p l); rewrite IH.
Qed.

Lemma filter_entries p l :
  BAVL.represents nv l.1 l.2 → p ∈ l.2 →
  entries <$> List.filter (λ q, negb (q =? p)) l.2 = BAVL_Remove (entries p) (entries <$> l.2).
Proof.
  destruct l as [tr l]; cbn. intros Hr Hp.
  assert (∀ q, q ∈ l → (string_comparator (key (entries q)) (key (entries p)) =? 0) = (q =? p)) as Hq.
  { intros q Hq. rewrite <- nv_compare. destruct (Z.eqb_spec q p) as [->|Hne].
    - apply Z.eqb_eq. rewrite nv_compare. by apply cmp_eq; rewrite <- ?Hnv; try apply proj2_sig.
    - apply Z.eqb_neq. intros Hc. apply Hne. apply (holds_equal cstring string_comparator nv tr l); try done. by exists l. }
  clear Hr Hp. unfold BAVL_Remove. induction l as [|q l IH]; cbn; [done|]. rewrite Hq by set_solver.
  destruct (q =? p); cbn; [|f_equal]; apply IH; set_solver.
Qed.

(** The tree of a string map does what its model says: the entries of the
    nodes, in the order of the AVL tree, form a well-formed map, and searching,
    inserting, removing and walking in the pointer structure gives the results
    of the same operations on the list of entries. *)
Theorem stringmap_tree_bavl tr l :
  BAVL.represents nv tr l →
  wf (entries <$> l) ∧
  (∀ k (Hk : cstring k), ∃ r, BAVL.LookupExact nv (k ↾ Hk) tr = Some (r, tr, []) ∧
     entries <$> r = BAVL_LookupExact k (entries <$> l)) ∧
  (∀ p, p ∉ l → ∃ r tr', BAVL.Insert nv p tr = Some (r, tr', []) ∧
     match BAVL_Insert (entries p) (entries <$> l) with
     | inl e => r.1 = false ∧ entries <$> r.2 = Some e ∧ tr' = tr
     | inr o' => r.1 = true ∧ holds_entries tr' o'
     end) ∧
  (∀ p, p ∈ l → ∃ tr', BAVL.Remove p tr = Some (tt, tr', []) ∧
     holds_entries tr' (BAVL_Remove (entries p) (entries <$> l))) ∧
  (∃ r, BAVL.GetFirst tr = Some (r, tr, []) ∧ entries <$> r = BAVL_GetFirst (entries <$> l)) ∧
  (∀ p, p ∈ l → ∃ r, BAVL.GetNext p tr = Some (r, tr, []) ∧ entries <$> r = BAVL_GetNext (entries p) (entries <$> l)).
Proof.
  intros Hr. assert (wf (entries <$> l)) as Hwf.
  { split.
    - pose proof (BAVL.represents_sorted nv tr l Hr) as Hs. clear Hr. induction Hs as [|p l Hs IH Hp]; [constructor|].
      constructor; [done|]. apply Forall_fmap. eapply Forall_impl; [exact Hp|]. intros q.
      unfold BAVL.node_lt, key_lt. rewrite nv_compare. cbn. lia.
    - apply Forall_fmap, Forall_forall. intros p _. cbn. rewrite <- Hnv. apply proj2_sig. }
  split_and!; [done| | | | |].
  - intros k Hk. exists (BAVL.list_lookup_exact nv (k ↾ Hk) l).
    split; [exact (BAVL.represents_LookupExact nv tr l (k ↾ Hk) Hr)|]. unfold BAVL.list_lookup_exact, BAVL_LookupExact.
    rewrite find_fmap. f_equal. apply find_ext_in. intros p _.
    unfold comparator, string_cmp, key_comparator. rewrite Hnv. cbn.
    rewrite (ko_flip (P := cstring) (cmp := string_comparator) k (key (entries p)) Hk); [lia|rewrite <- Hnv; apply proj2_sig].
  - intros p Hp. destruct (BAVL.represents_Insert nv tr l p Hr Hp) as (r & tr' & Hrun & Hi).
    exists r, tr'. split; [done|]. pose proof (list_insert_entries p l) as He.
    destruct (BAVL.list_insert nv p l); rewrite He; [by destruct Hi as [-> ->]|]. destruct Hi as (? & ? & _). unfold holds_entries. eauto.
  - intros p Hp. destruct (BAVL.represents_Remove nv tr l p Hr Hp) as (tr' & Hrun & Hr'). eexists.
    split; [done|]. eexists. split; [done|]. by apply (filter_entries p (tr, l)).
  - exists (head l). split; [by destruct (BAVL.represents_ends nv tr l Hr)|]. unfold BAVL_GetFirst. by destruct l.
  - intros p Hp. apply list_elem_of_split in Hp as (l1 & l2 & Hl). exists (head l2).
    split; [by destruct (BAVL.represents_neighbours nv tr l p l1 l2 Hr Hl)|]. rewrite Hl, fmap_app, fmap_cons in *.
    rewrite get_next_spec by done. by destruct l2.
Qed.
End stringmap_tree.

(** ** Examples *)

Section trees_examples.
#[local] Instance trees_debug : Build := false.

(** A tree of one node. *)
Definition single_tree (p : Z) : BAVL.t := BAVL.mk (Some p) {[p := BAVL.mk_node None None None 0]}.

Lemma single_represents {K} (P : K → Prop) cmp (nv : Z → sig P) p :
  BAVL.represents (H0 := key_comparator P cmp) nv (single_tree p) [p].
Proof.
  exists (BAVL.Node BAVL.Leaf p 0 BAVL.Leaf). split_and!; [|cbn; lia|repeat constructor|done].
  split_and!; [done| |apply NoDup_singleton]. cbn. rewrite lookup_singleton_eq. done.
Qed.

Definition demo_conaddr : {a | conaddr_wf a}.
Proof. exists (UdpGwClient.mk_conaddr demo_local demo_remote). by destruct demo_gw_init as (_ & _ & ?). Defined.

Lemma udpgw_trees_bavl_witness :
  ∃ o, gw_inv o ∧ UdpGwClient.connections_list o = [7] ∧
    BAVL.LookupExact (H0 := key_comparator _ UdpGwClient.conaddr_comparator) (λ _, demo_conaddr)
      demo_conaddr (single_tree 7) = Some (UdpGwClient.find_connection_by_conaddr o (proj1_sig demo_conaddr), single_tree 7, []) ∧
    UdpGwClient.find_connection_by_conaddr o (proj1_sig demo_conaddr) = Some 7.
Proof.
  destruct demo_gw_init as (_ & Hi & Ha).
  pose proof (wp_submit demo_gw (Some 7) true demo_local demo_remote false [1; 2] Hi Ha ltac:(done) ltac:(done)) as Hw.
  destruct (UdpGwClient.UdpGwClient_SubmitPacket (Some 7) true demo_local demo_remote false [1; 2] demo_gw)
    as [[[[] o1] es]|] eqn:Hrun; [|vm_compute in Hrun; done].
  unfold wp in Hw. rewrite Hrun in Hw. destruct Hw as [[Hi1 _] _].
  vm_compute in Hrun. injection Hrun as Ho _.
  assert (0 ≤ 0 < 65536) as H0 by lia.
  destruct (udpgw_trees_bavl o1 (λ _, demo_conaddr) (λ _, 0 ↾ H0) (single_tree 7) (single_tree 7)) as (HL & _).
  - done.
  - intros p c. rewrite <- Ho. cbn [UdpGwClient.heap].
    destruct (decide (p = 7)) as [->|Hne]; [intros [= <-]; done|]. intros Hp. exfalso.
    pose proof (proj2 (gi_dom _ Hi1 p)) as Hd. rewrite <- Ho in Hd. cbn in Hd. specialize (Hd (mk_is_Some _ _ Hp)). set_solver.
  - exists [7]. split; [apply single_represents|]. by rewrite <- Ho.
  - exists [7]. split; [apply single_represents|]. by rewrite <- Ho.
  - exists o1. split_and!; [done|by rewrite <- Ho|exact (HL _ (proj2_sig demo_conaddr))|by rewrite <- Ho].
Defined.

Definition demo_entry (p : Z) : BStringMap.entry :=
  BStringMap.mk_entry (if p =? 1 then "17" else "9") "10.0.0.2:999".
Definition demo_key (p : Z) : {s | cstring s}.
Proof. exists (BStringMap.key (demo_entry p)). unfold demo_entry. by destruct (p =? 1); repeat constructor. Defined.

Lemma stringmap_tree_bavl_witness :
  ∃ tr l, BAVL.Insert (H0 := key_comparator _ BStringMap.string_comparator) demo_key 2 (single_tree 1) = Some ((true, Some 1), tr, []) ∧
    BAVL.represents (H0 := key_comparator _ BStringMap.string_comparator) demo_key tr l ∧
    demo_entry <$> l = [demo_entry 1; demo_entry 2].
Proof.
  destruct (stringmap_tree_bavl demo_entry demo_key (λ _, eq_refl) (single_tree 1) [1] (single_represents _ _ _ 1))
    as (_ & _ & HI & _).
  destruct (HI 2) as (r & tr & Hrun & Hr); [set_solver|].
  pose proof Hrun as Hrun'. vm_compute in Hrun'. injection Hrun' as Hr1 _.
  exists tr. change (BStringMap.BAVL_Insert (demo_entry 2) (demo_entry <$> [1])) with
    (@inr BStringMap.entry BStringMap.t [demo_entry 1; demo_entry 2]) in Hr.
  destruct Hr as (_ & l & Hl & Hll). exists l. rewrite Hr1. split_and!; [exact Hrun|exact Hl|exact Hll].
Defined.
End trees_examples.
