(* ===== verification/Device.v ===== *)
(** * Device: packets from and to the TUN device

    Models the packet functions of tun2socks/tun2socks.c: UDP packets read from
    the device are parsed and given to the DNS relay or to udpgw, everything
    else goes to lwIP; datagrams from udpgw and replies of the DNS relay are
    wrapped in IP and UDP headers and written to the device, as are the packets
    lwIP sends.  A pending DNS request is remembered by the id of its message in
    a [BStringMap].

    The system calls and lwIP's allocator are parameters of the configuration;
    calls into other components are events. *)
From Stdlib Require Import Ascii String.
From S2P Require Import Prelude Bytes Text NetProto Addr StringMap.

(** tun2socks.h *)
Definition UDP_MAX_DATAGRAM_BYTES : Z := 65535.
Definition UDP_DNS_PORT : Z := 53.

Module Device.

(** The options and addresses that [process_arguments] and [run] set up, and
    the results of the calls into the system. *)
Record config := mk_config {
  udpgw_remote_server_addr : bool;     (** the option was given *)
  opt_dns_resolver_addr : bool;        (** the option was given *)
  transparent_dns : bool;
  netif_ip6addr : bool;                (** the option was given *)
  dns_resolver_addr : BAddr;
  udp_mtu : Z;
  BTap_GetMTU : Z;
  send : list Z → Z;                   (** send(2) on the relay's socket *)
  pbuf_alloc : Z → bool;               (** lwIP finds the memory *)
  netif_input : list Z → bool;         (** netif.input returns ERR_OK *)
  malloc_ok : nat → bool
}.

Record t := mk {
  quitting : bool;
  device_write_buf : list Z;
  map : BStringMap.t;                  (** of [udp_pcb] *)
  heap : mem
}.

Inductive event :=
| ReadDone                             (** PacketPassInterface_Done(&device_read_interface) *)
| TapSend (data : list Z)              (** BTap_Send *)
| RelaySend (data : list Z)            (** send on the socket to the UDP relay *)
| GwSubmit (local_addr remote_addr : BAddr) (is_dns : bool) (data : list Z)
| LwipInput (data : list Z)            (** netif.input *)
| PbufFree.

Section device.
Context `{Build} `{Resolver} (cfg : config).

Abbreviation IO := (M t event).

Definition set_buf (b : list Z) (o : t) : t := mk (quitting o) b (map o) (heap o).
Definition set_map (m : BStringMap.t) (h : mem) (o : t) : t := mk (quitting o) (device_write_buf o) m h.

(** The result of a parser: [None] is its failure; a read outside the buffer
    ends the program. *)
Definition parse {A} (r : result A) : IO (option A) :=
  match r with
  | Ret a => mret (Some a)
  | Rej => mret None
  | Fault => mabort
  end.

(** Runs [f] on a result, or returns [d]. *)
Definition or_else {A B} (d : B) (m : IO (option A)) (f : A → IO B) : IO B :=
  r ← m; match r with Some a => f a | None => mret d end.

(** Reads the [n] bytes at [data], where the list ends with the memory of the
    buffer; a read past it ends the program. *)
Definition read_bytes (n : Z) (data : list Z) : IO (list Z) :=
  if n <=? zlen data then mret (ztake n data) else mabort.

(** [addr.ipv4.ip] of the union, whatever the type of the address: the global
    is zero until set, and an IPv6 address starts where an IPv4 address is. *)
Definition union_ipv4_ip (a : BAddr) : IO Z :=
  match a with
  | BAddr_None => mret 0
  | BAddr_IPv4 ip _ => mret ip
  | BAddr_IPv6 ip _ => mret (le_val (take 4 ip))
  | BAddr_Packet _ _ _ _ _ => mabort
  end.

(** ** To the device *)

Definition baddr_from_lwip (is_ipv6 : bool) (ip4 : Z) (ip6 : list Z) (port_hostorder : Z) : BAddr :=
  if is_ipv6 then BAddr_MakeIPv6 ip6 (hton16 port_hostorder) else BAddr_MakeIPv4 ip4 (hton16 port_hostorder).

Definition build_ipv4 (local_ip local_port remote_ip remote_port : Z) (data : list Z) (data_len : Z) :
    ipv4_header * udp_header :=
  let iph := mk_ipv4_header
    (IPV4_MAKE_VERSION_IHL sizeof_ipv4_header) (hton8 0)
    (hton16 (u16 (sizeof_ipv4_header + sizeof_udp_header + data_len))) (hton16 0) (hton16 0)
    (hton8 64) (hton8 IPV4_PROTOCOL_UDP) (hton16 0) remote_ip local_ip in
  let iph := set_ip4_checksum (ipv4_checksum iph [] 0) iph in
  let udph := mk_udp_header remote_port local_port
    (hton16 (u16 (sizeof_udp_header + data_len))) (hton16 0) in
  let udph := set_udp_hchecksum
    (udp_checksum udph data data_len (ip4_source_address iph) (ip4_destination_address iph)) udph in
  (iph, udph).

Definition build_ipv6 (local_ip : list Z) (local_port : Z) (remote_ip : list Z) (remote_port : Z)
    (data : list Z) (data_len : Z) : ipv6_header * udp_header :=
  let iph := mk_ipv6_header (hton8 (Z.shiftl 6 4)) (hton8 0) (hton16 0)
    (hton16 (u16 (sizeof_udp_header + data_len))) (hton8 IPV6_NEXT_UDP) (hton8 64)
    (take 16 remote_ip) (take 16 local_ip) in
  let udph := mk_udp_header remote_port local_port
    (hton16 (u16 (sizeof_udp_header + data_len))) (hton16 0) in
  let udph := set_udp_hchecksum
    (udp_ip6_checksum udph data data_len (ip6_source_address iph) (ip6_destination_address iph)) udph in
  (iph, udph).

(** [memcpy]s of the headers and the data to [device_write_buf], then the
    submission.  A write past the end of the buffer ends the program. *)
Definition write_packet (iph udph data : list Z) (data_len : Z) : IO unit :=
  o ← mget;
  let packet_length := zlen iph + zlen udph + data_len in
  if (packet_length <=? zlen (device_write_buf o)) && (data_len <=? zlen data) then
    let b := zwrite 0 iph (device_write_buf o) in
    let b := zwrite (zlen iph) udph b in
    let b := zwrite (zlen iph + zlen udph) (ztake data_len data) b in
    mput (set_buf b o);;
    emit (TapSend (ztake packet_length b))
  else mabort.

Definition udp_send_packet_to_device (local_addr remote_addr : BAddr) (data : list Z) (data_len : Z) : IO unit :=
  ASSERT (udpgw_remote_server_addr cfg);;
  ASSERT ((BAddr_type local_addr =? BADDR_TYPE_IPV4) || (BAddr_type local_addr =? BADDR_TYPE_IPV6));;
  ASSERT (BAddr_type local_addr =? BAddr_type remote_addr);;
  ASSERT (0 <=? data_len);;
  match local_addr, remote_addr with
  | BAddr_IPv4 local_ip local_port, BAddr_IPv4 remote_ip remote_port =>
      if (UINT16_MAX - (sizeof_ipv4_header + sizeof_udp_header) <? data_len) ||
         (BTap_GetMTU cfg - (sizeof_ipv4_header + sizeof_udp_header) <? data_len)
      then mret tt
      else
        let '(iph, udph) := build_ipv4 local_ip local_port remote_ip remote_port data data_len in
        write_packet (ipv4_header_bytes iph) (udp_header_bytes udph) data data_len
  | BAddr_IPv6 local_ip local_port, BAddr_IPv6 remote_ip remote_port =>
      if negb (netif_ip6addr cfg) then mret tt
      else if (UINT16_MAX - sizeof_udp_header <? data_len) ||
         (BTap_GetMTU cfg - (sizeof_ipv6_header + sizeof_udp_header) <? data_len)
      then mret tt
      else
        let '(iph, udph) := build_ipv6 local_ip local_port remote_ip remote_port data data_len in
        write_packet (ipv6_header_bytes iph) (udp_header_bytes udph) data data_len
  | BAddr_None, _ | BAddr_Packet _ _ _ _ _, _ => emit (TapSend [])
  | _, _ => mabort    (* two types: excluded by the assertion; without it the union is misread *)
  end.

(** The loop of [common_netif_output]: copies the chunks of a chain. *)
Fixpoint copy_chunks (len : Z) (chunks : list (list Z)) : IO (option Z) :=
  match chunks with
  | [] => mret (Some len)
  | p :: rest =>
      if BTap_GetMTU cfg - len <? zlen p then mret None
      else
        o ← mget;
        if len + zlen p <=? zlen (device_write_buf o) then
          mput (set_buf (zwrite len p (device_write_buf o)) o);;
          copy_chunks (len + zlen p) rest
        else mabort
  end.

(** [chunks]: the payloads of the pbuf chain, at least one. *)
Definition common_netif_output (chunks : list (list Z)) : IO unit :=
  o ← mget;
  if quitting o then mret tt
  else match chunks with
  | [] => mabort
  | [p] =>
      if BTap_GetMTU cfg <? zlen p then mret tt
      else emit (TapSend p)
  | _ =>
      or_else tt (copy_chunks 0 chunks) (λ len,
        o ← mget;
        emit (TapSend (ztake len (device_write_buf o))))
  end.

(** ** From the device *)

(** The addresses, whether it is a DNS request, and the payload of a UDP
    packet; [None]: [goto fail]. *)
Definition classify_ipv4 (data : list Z) (data_len : Z) : IO (option (BAddr * BAddr * bool * list Z * Z)) :=
  (* ignore non-UDP packets *)
  other ← (if data_len <? sizeof_ipv4_header then mret true
           else proto ← mlift (data !! 9%nat); mret (negb (proto =? IPV4_PROTOCOL_UDP)));
  if other : bool then
    (* the debug message reads the protocol, however short the packet is *)
    mlift (data !! 9%nat);; mret None
  else
      (* parse IPv4 header *)
      or_else None (parse (ipv4_check data data_len)) (λ '(ipv4_header, data, data_len),
      (* parse UDP *)
      or_else None (parse (udp_check data data_len)) (λ '(udp_header, data, data_len),
      (* verify UDP checksum *)
      let checksum_in_packet := udp_hchecksum udp_header in
      let udp_header := set_udp_hchecksum 0 udp_header in
      payload ← read_bytes data_len data;
      let checksum_computed := udp_checksum udp_header payload data_len
        (ip4_source_address ipv4_header) (ip4_destination_address ipv4_header) in
      if negb (checksum_in_packet =? checksum_computed) then mret None
      else
        (* construct addresses *)
        let local_addr := BAddr_MakeIPv4 (ip4_source_address ipv4_header) (udp_source_port udp_header) in
        let remote_addr := BAddr_MakeIPv4 (ip4_destination_address ipv4_header) (udp_dest_port udp_header) in
        dns_ip ← union_ipv4_ip (dns_resolver_addr cfg);
        let is_dns := transparent_dns cfg && (ip4_destination_address ipv4_header =? dns_ip) &&
                      (udp_dest_port udp_header =? hton16 UDP_DNS_PORT) in
        mret (Some (local_addr, remote_addr, is_dns, data, data_len)))).

Definition classify_ipv6 (data : list Z) (data_len : Z) : IO (option (BAddr * BAddr * bool * list Z * Z)) :=
  (* ignore if IPv6 support is disabled *)
  if negb (netif_ip6addr cfg) then mret None
  else if data_len <? sizeof_ipv6_header then mret None
  else
    next ← mlift (data !! 6%nat);
    (* ignore non-UDP packets *)
    if negb (next =? IPV6_NEXT_UDP) then mret None
    else
      or_else None (parse (ipv6_check data data_len)) (λ '(ipv6_header, data, data_len),
      or_else None (parse (udp_check data data_len)) (λ '(udp_header, data, data_len),
      let checksum_in_packet := udp_hchecksum udp_header in
      let udp_header := set_udp_hchecksum 0 udp_header in
      payload ← read_bytes data_len data;
      let checksum_computed := udp_ip6_checksum udp_header payload data_len
        (ip6_source_address ipv6_header) (ip6_destination_address ipv6_header) in
      if negb (checksum_in_packet =? checksum_computed) then mret None
      else
        let local_addr := BAddr_MakeIPv6 (ip6_source_address ipv6_header) (udp_source_port udp_header) in
        let remote_addr := BAddr_MakeIPv6 (ip6_destination_address ipv6_header) (udp_dest_port udp_header) in
        mret (Some (local_addr, remote_addr, false, data, data_len)))).

(** The [switch] on the version. *)
Definition classify (data : list Z) (data_len : Z) : IO (option (BAddr * BAddr * bool * list Z * Z)) :=
  ip_version ← (if 0 <? data_len then b ← mlift (data !! 0%nat); mret (Z.shiftr b 4) else mret 0);
  if ip_version =? 4 then classify_ipv4 data data_len
  else if ip_version =? 6 then classify_ipv6 data data_len
  else mret None.

Definition udp_send (data : list Z) : IO Z :=
  emit (RelaySend data);;
  let sent_bytes := send cfg data in
  mret (if sent_bytes <? 0 then 0 else sent_bytes).

(** The DNS branch of [process_device_udp_packet].  As in the code, the number
    of bytes sent is compared with the length of the payload, not of the
    request. *)
Definition relay_dns (local_addr remote_addr : BAddr) (data : list Z) (data_len : Z) : IO bool :=
  local_addr_str ← mlift (BAddr_Print local_addr);
  (* wrap the payload in a UDP SOCKS header *)
  ip ← union_ipv4_ip remote_addr;
  port ← mlift (BAddr_GetPort remote_addr);
  let header := mk_socks_udp_header 0 0 SOCKS_ATYP_IPV4 ip port in
  payload ← read_bytes data_len data;
  let socks_udp_request := socks_udp_header_bytes header ++ payload in
  sent_bytes ← udp_send socks_udp_request;
  if sent_bytes <? data_len then mret false
  else
    id ← parse (dns_get_header_id_str data);
    dns_id_str ← mlift id;
    o ← mget;
    r ← mlift (BStringMap.Set_ (malloc_ok cfg) (map o) dns_id_str local_addr_str (heap o));
    let '(ok, m, h) := r in
    mput (set_map m h o);;
    mret ok.

Definition process_device_udp_packet (data : list Z) (data_len : Z) : IO bool :=
  ASSERT (0 <=? data_len);;
  (* do nothing if we don't have udpgw or dns resolver *)
  if negb (udpgw_remote_server_addr cfg) && negb (opt_dns_resolver_addr cfg) then mret false
  else
    or_else false (classify data data_len) (λ '(local_addr, remote_addr, is_dns, data, data_len),
    (* check payload length *)
    if udp_mtu cfg <? data_len then mret false
    else if transparent_dns cfg && is_dns then relay_dns local_addr remote_addr data data_len
    else
      (* submit packet to udpgw *)
      when (udpgw_remote_server_addr cfg)
        (payload ← read_bytes data_len data; emit (GwSubmit local_addr remote_addr is_dns payload));;
      mret true).

Definition device_read_handler_send (data : list Z) (data_len : Z) : IO unit :=
  o ← mget;
  ASSERT (negb (quitting o));;
  ASSERT (0 <=? data_len);;
  (* accept packet *)
  emit ReadDone;;
  (* process UDP directly *)
  processed ← process_device_udp_packet data data_len;
  if processed : bool then mret tt
  else if UINT16_MAX <? data_len then mret tt
  else if negb (pbuf_alloc cfg data_len) then mret tt
  else
    (* write packet to pbuf, pass pbuf to input *)
    packet ← read_bytes data_len data;
    emit (LwipInput packet);;
    when (negb (netif_input cfg packet)) (emit PbufFree).

(** What [netif_input_func] does with a pbuf: [p] is its first chunk. *)
Inductive input := Ip4Input | Ip6Input | Dropped.

Definition netif_input_func (p : list Z) : input :=
  let ip_version := match p with [] => 0 | b :: _ => Z.shiftr b 4 end in
  if ip_version =? 4 then Ip4Input
  else if (ip_version =? 6) && netif_ip6addr cfg then Ip6Input
  else Dropped.

(** ** Replies of the DNS relay *)

(** [datagram_len]: the result of [recv]; [buffer]: [udp_pcb->buffer] after it. *)
Definition udp_fd_handler (datagram_len : Z) (buffer : list Z) : IO unit :=
  if datagram_len <=? 0 then mret tt
  else if datagram_len <=? sizeof_socks_udp_header then mret tt
  else
    let udp_data_len := datagram_len - sizeof_socks_udp_header in
    let udp_data := zdrop sizeof_socks_udp_header buffer in
    id ← parse (dns_get_header_id_str udp_data);
    dns_id_str ← mlift id;
    o ← mget;
    match BStringMap.Get (map o) dns_id_str with
    | None => mret tt
    | Some local_addr_str =>
        let '(m, h) := BStringMap.Unset (map o) dns_id_str (heap o) in
        match BAddr_Parse local_addr_str with
        | None => mput (set_map m h o)
        | Some local_addr =>
            (* remove entry from map *)
            mput (set_map m h o);;
            (* send data to device *)
            udp_send_packet_to_device local_addr (dns_resolver_addr cfg) udp_data udp_data_len
        end
    end.

Definition udp_free (o : t) : option t :=
  '(m, h) ← BStringMap.Free (map o) (heap o); Some (set_map m h o).

(** ** Headers that are built are parsed back *)

Lemma sum_be16_take k p t m : (2 * k ≤ m)%nat → sum_be16 k (take m p) t = sum_be16 k p t.
Proof.
  revert p t m. induction k as [|k IH]; intros p t m Hm; [done|]. cbn [sum_be16].
  destruct m as [|[|m]]; [lia|lia|].
  assert (badvpn_read_be16 (take (S (S m)) p) = badvpn_read_be16 p) as -> by (by destruct p as [|? [|]]).
  assert (drop 2 (take (S (S m)) p) = take m (drop 2 p)) as ->
    by (rewrite skipn_firstn_comm; f_equal; lia).
  apply IH. lia.
Qed.

Lemma summer_ztake p n k : 0 ≤ k ≤ n → udp_checksum_summer (ztake n p) k = udp_checksum_summer p k.
Proof.
  intros Hk. unfold udp_checksum_summer, ztake. apply sum_be16_take.
  assert (2 * (k / 2) ≤ k) by (apply Z.mul_div_le; lia). lia.
Qed.

Lemma finish_ztake t h p n : 0 ≤ n → udp_checksum_finish t h (ztake n p) n = udp_checksum_finish t h p n.
Proof.
  intros Hn. unfold udp_checksum_finish. destruct (Z.eqb_spec (n mod 2) 0).
  - by rewrite summer_ztake by lia.
  - assert (1 ≤ n) by (destruct (Z.eq_dec n 0) as [->|]; [done|lia]).
    rewrite summer_ztake by lia. replace (nth (Z.to_nat (n - 1)) (ztake n p) 0) with (nth (Z.to_nat (n - 1)) p 0); [done|].
    unfold ztake. rewrite !nth_lookup, lookup_take_lt by lia. done.
Qed.

Lemma udp_checksum_ztake h p n s d : 0 ≤ n → udp_checksum h (ztake n p) n s d = udp_checksum h p n s d.
Proof. intros. by apply finish_ztake. Qed.

Lemma udp_ip6_checksum_ztake h p n s d :
  0 ≤ n → udp_ip6_checksum h (ztake n p) n s d = udp_ip6_checksum h p n s d.
Proof. intros. by apply finish_ztake. Qed.

(** A UDP header in front of its payload. *)
Lemma udp_check_built h rest n :
  0 ≤ udp_source_port h < 65536 → 0 ≤ udp_dest_port h < 65536 → 0 ≤ udp_hchecksum h < 65536 →
  udp_length h = hton16 (u16 (sizeof_udp_header + n)) → 0 ≤ n → sizeof_udp_header + n < 65536 →
  udp_check (udp_header_bytes h ++ rest) (sizeof_udp_header + n) = Ret (h, rest, n).
Proof.
  unfold sizeof_udp_header. intros Hs Hd Hc Hl Hn Hm. unfold udp_check, sizeof_udp_header.
  assert (zlen (udp_header_bytes h) = 8) as Hz by done.
  rewrite (proj2 (Z.ltb_ge _ _)) by lia. cbn [reject_if mbind result_bind].
  rewrite rd_ok by (rewrite zlen_app; lia). cbn [mbind result_bind].
  rewrite ztake_app_exact, zdrop_app_exact by done.
  rewrite udp_header_of_bytes; [|done..|rewrite Hl; apply hton16_bound|done].
  rewrite Hl, ntoh16_hton16, u16_small by (rewrite ?u16_small; lia).
  rewrite (proj2 (Z.ltb_ge (8 + n) 8)) by lia. cbn [reject_if mbind result_bind].
  rewrite (proj2 (Z.ltb_ge (8 + (8 + n - 8)) _)) by lia. cbn [reject_if mbind result_bind].
  unfold mret, result_ret. do 2 f_equal. lia.
Qed.

Lemma ipv4_check_built h rest n :
  ipv4_header_wf h → ip4_version4_ihl4 h = 69 → ip4_total_length h = hton16 (u16 (28 + n)) →
  ip4_checksum h = ipv4_checksum (set_ip4_checksum (hton16 0) h) [] 0 →
  0 ≤ n → 28 + n < 65536 → zlen rest = 8 + n →
  ipv4_check (ipv4_header_bytes h ++ rest) (28 + n) = Ret (h, rest, 8 + n).
Proof.
  intros Hwf Hv Ht Hc Hn Hm Hr. unfold ipv4_check.
  assert (zlen (ipv4_header_bytes h) = 20) as Hz by done.
  change sizeof_ipv4_header with 20.
  rewrite (proj2 (Z.ltb_ge (28 + n) 20)) by lia. cbn [reject_if mbind result_bind].
  rewrite rd_ok by (rewrite zlen_app; lia). cbn [mbind result_bind].
  rewrite ztake_app_exact by done. rewrite ipv4_header_of_bytes by done.
  assert (IPV4_GET_VERSION h = 4) as -> by (unfold IPV4_GET_VERSION; by rewrite Hv).
  assert (IPV4_GET_IHL h = 5) as -> by (unfold IPV4_GET_IHL; by rewrite Hv).
  assert (u16 (5 * 4) = 20) as -> by done.
  rewrite Z.eqb_refl, Z.ltb_irrefl. cbn [negb reject_if mbind result_bind].
  rewrite (proj2 (Z.ltb_ge (28 + n) 20)) by lia. cbn [reject_if mbind result_bind].
  rewrite Ht, ntoh16_hton16, u16_small by (rewrite ?u16_small; lia).
  rewrite (proj2 (Z.ltb_ge (28 + n) 20)), Z.ltb_irrefl by lia. cbn [reject_if mbind result_bind].
  change (20 - 20) with 0. rewrite rd_ok by lia. cbn [mbind result_bind].
  assert (∀ l : list Z, ztake 0 l = []) as -> by done.
  rewrite <- Hc, Z.eqb_refl. cbn [negb reject_if mbind result_bind].
  rewrite zdrop_app_exact by done. unfold mret, result_ret. do 2 f_equal. lia.
Qed.

Lemma build_ipv4_fields lip lport rip rport data n :
  0 ≤ lip < 2 ^ 32 → 0 ≤ rip < 2 ^ 32 →
  let h := fst (build_ipv4 lip lport rip rport data n) in
  ipv4_header_wf h ∧ ip4_version4_ihl4 h = 69 ∧ ip4_total_length h = hton16 (u16 (28 + n)) ∧
  ip4_checksum h = ipv4_checksum (set_ip4_checksum (hton16 0) h) [] 0 ∧
  ip4_protocol h = IPV4_PROTOCOL_UDP ∧ ip4_source_address h = rip ∧ ip4_destination_address h = lip.
Proof.
  intros Hli Hri h. split; [|done].
  unfold ipv4_header_wf. change (ip4_checksum h) with (ipv4_checksum (set_ip4_checksum (hton16 0) h) [] 0).
  pose proof (ipv4_checksum_bound (set_ip4_checksum (hton16 0) h) [] 0).
  pose proof (hton16_bound (u16 (28 + n))).
  split_and!; try done; try lia.
  all: try (change (ip4_total_length h) with (hton16 (u16 (28 + n))); lia).
  all: try (change (ip4_source_address h) with rip; lia).
  all: change (ip4_destination_address h) with lip; lia.
Qed.

Lemma ipv6_check_built h rest n :
  ip6_version4_tc4 h = 96 → ip6_tc4_fl4 h = 0 → ip6_fl h = 0 →
  ip6_payload_length h = hton16 (u16 n) → ip6_next_header h = 17 → ip6_hop_limit h = 64 →
  length (ip6_source_address h) = 16%nat → length (ip6_destination_address h) = 16%nat →
  0 ≤ n < 65536 → zlen rest = n →
  ipv6_check (ipv6_header_bytes h ++ rest) (40 + n) = Ret (h, rest, n).
Proof.
  intros Hv Htc Hfl Hp Hnh Hhl Hs Hd Hn Hr. unfold ipv6_check.
  assert (zlen (ipv6_header_bytes h) = 40) as Hz.
  { unfold ipv6_header_bytes. rewrite !length_app, !length_le_bytes, Hs, Hd. done. }
  change sizeof_ipv6_header with 40.
  rewrite (proj2 (Z.ltb_ge (40 + n) 40)) by lia. cbn [reject_if mbind result_bind].
  rewrite rd_ok by (rewrite zlen_app; lia). cbn [mbind result_bind].
  rewrite ztake_app_exact by done.
  pose proof (hton16_bound (u16 n)) as Hb. rewrite <- Hp in Hb.
  rewrite ipv6_header_of_bytes by (done || lia).
  assert (Z.shiftr (ntoh8 (ip6_version4_tc4 h)) 4 = 6) as -> by by rewrite Hv.
  rewrite Z.eqb_refl. cbn [negb reject_if mbind result_bind].
  rewrite Hp, ntoh16_hton16, u16_small by (rewrite ?u16_small; lia).
  rewrite (proj2 (Z.ltb_ge (40 + n - 40) n)) by lia. cbn [reject_if mbind result_bind].
  by rewrite zdrop_app_exact.
Qed.

(** The UDP header both builders make. *)
Definition built_udp (lport rport n : Z) (c : Z) : udp_header :=
  mk_udp_header rport lport (hton16 (u16 (sizeof_udp_header + n))) c.

Definition checksum4 (lip lport rip rport : Z) (data : list Z) (n : Z) : Z :=
  udp_checksum (built_udp lport rport n 0) data n rip lip.
Definition checksum6 (lip : list Z) (lport : Z) (rip : list Z) (rport : Z) (data : list Z) (n : Z) : Z :=
  udp_ip6_checksum (built_udp lport rport n 0) data n (take 16 rip) (take 16 lip).

Lemma build_ipv4_udp lip lport rip rport data n :
  snd (build_ipv4 lip lport rip rport data n) = built_udp lport rport n (checksum4 lip lport rip rport data n).
Proof. done. Qed.

Lemma build_ipv6_udp lip lport rip rport data n :
  snd (build_ipv6 lip lport rip rport data n) = built_udp lport rport n (checksum6 lip lport rip rport data n).
Proof. done. Qed.

(** ** Writing a packet *)

Lemma write_layers (i u d buf : list Z) :
  zlen i + zlen u + zlen d ≤ zlen buf →
  ∃ rest, zwrite (zlen i + zlen u) d (zwrite (zlen i) u (zwrite 0 i buf)) = i ++ u ++ d ++ rest ∧
    zlen (i ++ u ++ d ++ rest) = zlen buf.
Proof.
  intros Hl. assert (zlen (zwrite (zlen i + zlen u) d (zwrite (zlen i) u (zwrite 0 i buf))) = zlen buf) as Hlen
    by (zw_len; lia).
  assert (zwrite 0 i buf = i ++ zdrop (zlen i) buf) as Hfirst by done.
  rewrite Hfirst, zwrite_app, app_assoc, zwrite_app in * by (rewrite ?zlen_app; lia).
  rewrite <- app_assoc in *. eexists. split; [done|]. exact Hlen.
Qed.

Lemma write_packet_ok i u data n o :
  zlen i + zlen u + n ≤ zlen (device_write_buf o) → 0 ≤ n ≤ zlen data →
  wp (write_packet i u data n) o (λ _ o' es,
    es = [TapSend (i ++ u ++ ztake n data)] ∧
    o' = set_buf (device_write_buf o') o ∧ zlen (device_write_buf o') = zlen (device_write_buf o)).
Proof.
  intros Hl Hn. unfold write_packet. wp_step. wp_step.
  rewrite (proj2 (Z.leb_le _ _)), (proj2 (Z.leb_le _ _)) by lia. cbn [andb].
  wp_step. wp_step. wp_step.
  assert (zlen (ztake n data) = n) as Hz by (rewrite zlen_ztake; lia).
  destruct (write_layers i u (ztake n data) (device_write_buf o)) as (rest & Hw & Hlw); [lia|].
  rewrite Hw in *. cbn [device_write_buf set_buf]. split_and!; [|done|done].
  cbn [app]. do 2 f_equal. rewrite !app_assoc. apply ztake_app_exact. rewrite !zlen_app. lia.
Qed.

(** The packet written for a datagram. *)
Definition packet (local_addr remote_addr : BAddr) (data : list Z) (n : Z) : list Z :=
  match local_addr, remote_addr with
  | BAddr_IPv4 lip lport, BAddr_IPv4 rip rport =>
      let '(iph, udph) := build_ipv4 lip lport rip rport data n in
      ipv4_header_bytes iph ++ udp_header_bytes udph ++ ztake n data
  | BAddr_IPv6 lip lport, BAddr_IPv6 rip rport =>
      let '(iph, udph) := build_ipv6 lip lport rip rport data n in
      ipv6_header_bytes iph ++ udp_header_bytes udph ++ ztake n data
  | _, _ => []
  end.

Definition headers_len (a : BAddr) : Z :=
  match a with BAddr_IPv6 _ _ => sizeof_ipv6_header + sizeof_udp_header | _ => sizeof_ipv4_header + sizeof_udp_header end.

(** Whether a datagram of [n] bytes is delivered or dropped. *)
Definition deliverable (a : BAddr) (n : Z) : bool :=
  match a with
  | BAddr_IPv4 _ _ => (n <=? UINT16_MAX - 28) && (n <=? BTap_GetMTU cfg - 28)
  | BAddr_IPv6 _ _ => netif_ip6addr cfg && (n <=? UINT16_MAX - 8) && (n <=? BTap_GetMTU cfg - 48)
  | _ => false
  end.

Definition ip_addr (a : BAddr) : Prop :=
  match a with BAddr_IPv4 _ _ | BAddr_IPv6 _ _ => addr_wf a | _ => False end.

Lemma set_buf_same o : set_buf (device_write_buf o) o = o.
Proof. by destruct o. Qed.

Lemma zlen_ipv6_header_bytes h :
  length (ip6_source_address h) = 16%nat → length (ip6_destination_address h) = 16%nat →
  zlen (ipv6_header_bytes h) = 40.
Proof. intros Hs Hd. unfold ipv6_header_bytes. rewrite !length_app, !length_le_bytes, Hs, Hd. done. Qed.

Lemma to_device_ok local remote data n o :
  NDEBUG = true ∨ udpgw_remote_server_addr cfg = true →
  ip_addr local → ip_addr remote → BAddr_type local = BAddr_type remote →
  0 ≤ n ≤ zlen data → zlen (device_write_buf o) = BTap_GetMTU cfg →
  wp (udp_send_packet_to_device local remote data n) o (λ _ o' es,
    es = (if deliverable local n then [TapSend (packet local remote data n)] else []) ∧
    o' = set_buf (device_write_buf o') o ∧ zlen (device_write_buf o') = BTap_GetMTU cfg).
Proof.
  intros Hgw Hl Hr Ht Hn Hb. unfold udp_send_packet_to_device.
  wp_step. unfold ASSERT at 1, wp at 1.
  replace (NDEBUG || udpgw_remote_server_addr cfg) with true by by destruct Hgw as [->| ->]; rewrite ?orb_true_r.
  destruct local as [|lip lport|lip lport|], remote as [|rip rport|rip rport|]; cbn in Hl, Hr, Ht; try done;
    unfold deliverable, packet; unfold sizeof_ipv4_header, sizeof_ipv6_header, sizeof_udp_header.
  - repeat (wp_step; try (apply Z.leb_le; lia); try done); bool_props; cbn [app].
    + rewrite set_buf_same. split_and!; try done.
      destruct (Z.leb_spec n (UINT16_MAX - 28)), (Z.leb_spec n (BTap_GetMTU cfg - 28)); try done.
      destruct_or!; bool_props; lia.
    + rewrite !(proj2 (Z.leb_le _ _)) by lia. cbn [andb].
      destruct (build_ipv4 lip lport rip rport data n) as [iph udph].
      eapply wp_mono; [apply write_packet_ok|].
      * change (zlen (ipv4_header_bytes iph)) with 20. change (zlen (udp_header_bytes udph)) with 8. lia.
      * done.
      * cbn. intros _ o' es (-> & Ho & Hlen). rewrite Hlen. done.
  - repeat (wp_step; try (apply Z.leb_le; lia); try done); bool_props; cbn [app].
    + rewrite set_buf_same. match goal with Hx : netif_ip6addr cfg = false |- _ => rewrite Hx end. done.
    + match goal with Hx : netif_ip6addr cfg = true |- _ => rewrite Hx end.
      rewrite set_buf_same. split_and!; try done. cbn [andb].
      destruct (Z.leb_spec n (UINT16_MAX - 8)), (Z.leb_spec n (BTap_GetMTU cfg - 48)); try done.
      destruct_or!; bool_props; lia.
    + match goal with Hx : netif_ip6addr cfg = true |- _ => rewrite Hx end.
      rewrite !(proj2 (Z.leb_le _ _)) by lia. cbn [andb].
      assert (zlen (ipv6_header_bytes (fst (build_ipv6 lip lport rip rport data n))) = 40) as H40.
      { apply zlen_ipv6_header_bytes; cbn [fst build_ipv6 ip6_source_address ip6_destination_address];
          rewrite length_take; lia. }
      destruct (build_ipv6 lip lport rip rport data n) as [iph udph]. cbn [fst] in H40.
      eapply wp_mono; [apply write_packet_ok|].
      * rewrite H40. change (zlen (udp_header_bytes udph)) with 8. lia.
      * done.
      * cbn. intros _ o' es (-> & Ho & Hlen). rewrite Hlen. done.
Qed.

(** ** Reading it back *)

Lemma wp_parse {A} (r : result A) o (Q : option A → t → list event → Prop) :
  r ≠ Fault → Q (match r with Ret a => Some a | _ => None end) o [] → wp (parse r) o Q.
Proof. destruct r; [done|done|]. intros Hx. by destruct Hx. Qed.

Lemma wp_lift_option {A} (x : option A) a o (Q : A → t → list event → Prop) :
  x = Some a → Q a o [] → wp (mlift x) o Q.
Proof. intros ->. done. Qed.

Lemma wp_read_bytes n data o (Q : list Z → t → list event → Prop) :
  n ≤ zlen data → Q (ztake n data) o [] → wp (read_bytes n data) o Q.
Proof. intros Hn HQ. unfold read_bytes. by rewrite (proj2 (Z.leb_le _ _)). Qed.

Lemma wp_union a o (Q : Z → t → list event → Prop) :
  addr_wf a → (∀ x, Q x o []) → wp (union_ipv4_ip a) o Q.
Proof. destruct a; intros Hwf HQ; [apply HQ..|done]. Qed.

Lemma ipv4_image_bytes h rest :
  (ipv4_header_bytes h ++ rest) !! 0%nat = Some (ip4_version4_ihl4 h mod 256) ∧
  (ipv4_header_bytes h ++ rest) !! 9%nat = Some (ip4_protocol h mod 256).
Proof. done. Qed.

Lemma ipv6_image_bytes h rest :
  (ipv6_header_bytes h ++ rest) !! 0%nat = Some (ip6_version4_tc4 h mod 256) ∧
  (ipv6_header_bytes h ++ rest) !! 6%nat = Some (ip6_next_header h mod 256).
Proof. done. Qed.

Lemma classify_ipv4_built iph udph payload n o :
  ipv4_header_wf iph → ip4_version4_ihl4 iph = 69 → ip4_total_length iph = hton16 (u16 (28 + n)) →
  ip4_checksum iph = ipv4_checksum (set_ip4_checksum (hton16 0) iph) [] 0 →
  ip4_protocol iph = IPV4_PROTOCOL_UDP →
  0 ≤ udp_source_port udph < 65536 → 0 ≤ udp_dest_port udph < 65536 →
  udp_length udph = hton16 (u16 (sizeof_udp_header + n)) →
  udp_hchecksum udph = udp_checksum (set_udp_hchecksum 0 udph) payload n
    (ip4_source_address iph) (ip4_destination_address iph) →
  0 ≤ n → 28 + n < 65536 → zlen payload = n → addr_wf (dns_resolver_addr cfg) →
  wp (classify (ipv4_header_bytes iph ++ udp_header_bytes udph ++ payload) (28 + n)) o (λ r o' es, o' = o ∧ es = [] ∧
    ∃ d, r = Some (BAddr_IPv4 (ip4_source_address iph) (udp_source_port udph),
                   BAddr_IPv4 (ip4_destination_address iph) (udp_dest_port udph), d, payload, n)).
Proof.
  intros Hwf Hv Ht Hc Hp Hs Hd Hl Hu Hn Hm Hz Hdns. unfold classify.
  destruct (ipv4_image_bytes iph (udp_header_bytes udph ++ payload)) as [Hb0 Hb9].
  rewrite Hv in Hb0. rewrite Hp in Hb9.
  pose proof (udp_checksum_bound (set_udp_hchecksum 0 udph) payload n
    (ip4_source_address iph) (ip4_destination_address iph)) as Hcb. rewrite <- Hu in Hcb.
  rewrite (proj2 (Z.ltb_lt 0 (28 + n))) by lia.
  do 2 wp_step. eapply wp_lift_option; [exact Hb0|]. wp_step.
  change (Z.shiftr (69 mod 256) 4 =? 4) with true. cbn iota.
  unfold classify_ipv4. change sizeof_ipv4_header with 20.
  rewrite (proj2 (Z.ltb_ge (28 + n) 20)) by lia.
  do 2 wp_step. eapply wp_lift_option; [exact Hb9|]. wp_step. change (negb (IPV4_PROTOCOL_UDP mod 256 =? IPV4_PROTOCOL_UDP)) with false.
  cbn iota. unfold or_else at 1. wp_step.
  rewrite ipv4_check_built; try done; [|rewrite zlen_app; change (zlen (udp_header_bytes udph)) with 8; lia].
  apply wp_parse; [done|]. cbn iota. unfold or_else. wp_step.
  rewrite udp_check_built; try done; try (unfold sizeof_udp_header; lia).
  apply wp_parse; [done|]. cbn iota.
  wp_step. apply wp_read_bytes; [lia|]. rewrite ztake_all by lia. rewrite <- Hu, Z.eqb_refl. cbn [negb].
  wp_step. apply wp_union; [done|]. intros x. wp_step. split_and!; try done.
  cbn [udp_source_port udp_dest_port set_udp_hchecksum]. eauto.
Qed.

Lemma classify_ipv6_built iph udph payload n o :
  netif_ip6addr cfg = true →
  ip6_version4_tc4 iph = 96 → ip6_tc4_fl4 iph = 0 → ip6_fl iph = 0 →
  ip6_payload_length iph = hton16 (u16 (8 + n)) → ip6_next_header iph = 17 → ip6_hop_limit iph = 64 →
  length (ip6_source_address iph) = 16%nat → length (ip6_destination_address iph) = 16%nat →
  0 ≤ udp_source_port udph < 65536 → 0 ≤ udp_dest_port udph < 65536 →
  udp_length udph = hton16 (u16 (sizeof_udp_header + n)) →
  udp_hchecksum udph = udp_ip6_checksum (set_udp_hchecksum 0 udph) payload n
    (ip6_source_address iph) (ip6_destination_address iph) →
  0 ≤ n → 8 + n < 65536 → zlen payload = n →
  wp (classify (ipv6_header_bytes iph ++ udp_header_bytes udph ++ payload) (48 + n)) o (λ r o' es, o' = o ∧ es = [] ∧
    ∃ d, r = Some (BAddr_MakeIPv6 (ip6_source_address iph) (udp_source_port udph),
                   BAddr_MakeIPv6 (ip6_destination_address iph) (udp_dest_port udph), d, payload, n)).
Proof.
  intros Hen Hv Htc Hfl Hpl Hnh Hhl Hsa Hda Hs Hd Hl Hu Hn Hm Hz. unfold classify.
  destruct (ipv6_image_bytes iph (udp_header_bytes udph ++ payload)) as [Hb0 Hb6].
  rewrite Hv in Hb0. rewrite Hnh in Hb6.
  pose proof (udp_ip6_checksum_bound (set_udp_hchecksum 0 udph) payload n
    (ip6_source_address iph) (ip6_destination_address iph)) as Hcb. rewrite <- Hu in Hcb.
  rewrite (proj2 (Z.ltb_lt 0 (48 + n))) by lia.
  do 2 wp_step. eapply wp_lift_option; [exact Hb0|]. wp_step.
  change (Z.shiftr (96 mod 256) 4 =? 4) with false. change (Z.shiftr (96 mod 256) 4 =? 6) with true. cbn iota.
  unfold classify_ipv6. change sizeof_ipv6_header with 40. rewrite Hen. cbn [negb].
  rewrite (proj2 (Z.ltb_ge (48 + n) 40)) by lia.
  wp_step. eapply wp_lift_option; [exact Hb6|]. change (negb (17 mod 256 =? IPV6_NEXT_UDP)) with false.
  cbn iota. unfold or_else at 1. wp_step.
  replace (48 + n) with (40 + (8 + n)) by lia.
  rewrite ipv6_check_built; try done; try lia; [|rewrite zlen_app; change (zlen (udp_header_bytes udph)) with 8; lia].
  apply wp_parse; [done|]. cbn iota. unfold or_else. wp_step.
  change (8 + n) with (sizeof_udp_header + n). rewrite udp_check_built; try done; try (unfold sizeof_udp_header; lia).
  apply wp_parse; [done|]. cbn iota. wp_step. apply wp_read_bytes; [lia|]. rewrite ztake_all by lia.
  rewrite <- Hu, Z.eqb_refl. cbn [negb].
  wp_step. split_and!; try done. cbn [udp_source_port udp_dest_port set_udp_hchecksum]. eauto.
Qed.

Lemma build_ipv6_fields lip lport rip rport data n :
  length lip = 16%nat → length rip = 16%nat →
  let h := fst (build_ipv6 lip lport rip rport data n) in
  ip6_source_address h = rip ∧ ip6_destination_address h = lip ∧
  ip6_version4_tc4 h = 96 ∧ ip6_tc4_fl4 h = 0 ∧ ip6_fl h = 0 ∧
  ip6_payload_length h = hton16 (u16 (8 + n)) ∧ ip6_next_header h = 17 ∧ ip6_hop_limit h = 64.
Proof.
  intros Hl Hr h. split_and!; try done.
  - change (ip6_source_address h) with (take 16 rip). apply take_ge. lia.
  - change (ip6_destination_address h) with (take 16 lip). apply take_ge. lia.
Qed.

Lemma classify_packet local remote data n o :
  ip_addr local → ip_addr remote → BAddr_type local = BAddr_type remote →
  0 ≤ n ≤ zlen data → deliverable local n = true → addr_wf (dns_resolver_addr cfg) →
  zlen (packet local remote data n) = headers_len local + n ∧
  wp (classify (packet local remote data n) (headers_len local + n)) o (λ r o' es, o' = o ∧ es = [] ∧
    ∃ d, r = Some (remote, local, d, ztake n data, n)).
Proof.
  intros Hl Hr Ht Hn Hdel Hdns. assert (zlen (ztake n data) = n) as Hz by (rewrite zlen_ztake; lia).
  destruct local as [|lip lport|lip lport|], remote as [|rip rport|rip rport|]; cbn in Hl, Hr, Ht; try done;
    cbn [deliverable] in Hdel; bool_props; unfold UINT16_MAX in *; cbn [headers_len].
  - destruct (build_ipv4_fields lip lport rip rport data n) as (Hwf & Hv & Htl & Hc & Hp & Hs & Hd); [lia|lia|].
    pose proof (build_ipv4_udp lip lport rip rport data n) as Hu. unfold packet.
    destruct (build_ipv4 lip lport rip rport data n) as [iph udph]. cbn [fst snd] in *.
    split. { rewrite !zlen_app. change (zlen (ipv4_header_bytes iph)) with 20. change (zlen (udp_header_bytes udph)) with 8.
      unfold sizeof_ipv4_header, sizeof_udp_header. lia. }
    change (sizeof_ipv4_header + sizeof_udp_header) with 28.
    eapply wp_mono; [apply classify_ipv4_built; try done; try lia|].
    + subst udph. cbn [udp_source_port built_udp]. lia.
    + subst udph. cbn [udp_dest_port built_udp]. lia.
    + by subst udph.
    + subst udph. rewrite udp_checksum_ztake by lia. rewrite Hs, Hd. done.
    + subst udph. rewrite Hs, Hd. cbn [udp_source_port udp_dest_port built_udp]. done.
  - destruct Hl as (Hll & _ & Hlp), Hr as (Hrl & _ & Hrp).
    pose proof (build_ipv6_fields lip lport rip rport data n Hll Hrl) as (Hs & Hd & Hv & Htc & Hfl & Hpl & Hnh & Hhl).
    pose proof (build_ipv6_udp lip lport rip rport data n) as Hu. unfold packet.
    destruct (build_ipv6 lip lport rip rport data n) as [iph udph]. cbn [fst snd] in *.
    assert (zlen (ipv6_header_bytes iph) = 40) as H40 by (apply zlen_ipv6_header_bytes; by rewrite ?Hs, ?Hd).
    split. { rewrite !zlen_app, H40. change (zlen (udp_header_bytes udph)) with 8.
      unfold sizeof_ipv6_header, sizeof_udp_header. lia. }
    change (sizeof_ipv6_header + sizeof_udp_header) with 48.
    eapply wp_mono; [apply classify_ipv6_built; try done; try lia|].
    + by rewrite Hs.
    + by rewrite Hd.
    + subst udph. cbn [udp_source_port built_udp]. lia.
    + subst udph. cbn [udp_dest_port built_udp]. lia.
    + by subst udph.
    + subst udph. rewrite udp_ip6_checksum_ztake by lia. rewrite Hs, Hd. unfold checksum6.
      rewrite !take_ge by lia. done.
    + subst udph. rewrite Hs, Hd. unfold BAddr_MakeIPv6. rewrite !take_ge by lia.
      cbn [udp_source_port udp_dest_port built_udp]. done.
Qed.

(** ** The key of a DNS request *)

Definition dns_key (data : list Z) : string := print_uint (field 0 2 (ztake 2 data)).

Lemma dns_id_bound data : bytes data → 0 ≤ field 0 2 (ztake 2 data) < 65536.
Proof.
  intros Hb. unfold field. change (drop 0 (ztake 2 data)) with (ztake 2 data).
  assert (bytes (take 2 (ztake 2 data))) as Hb2 by auto using Forall_take, Forall_ztake.
  pose proof (le_val_bound _ Hb2).
  assert (256 ^ zlen (take 2 (ztake 2 data)) ≤ 256 ^ 2) by (apply Z.pow_le_mono_r; [lia|rewrite length_take; lia]).
  lia.
Qed.

Lemma dns_key_cstring data : cstring (dns_key data).
Proof.
  eapply str_all_mono; [|apply print_uint_digits]. intros c Hc. unfold is_digit in Hc. bool_props. lia.
Qed.

Lemma dns_id_ok data :
  bytes data → 2 ≤ zlen data → dns_get_header_id_str data = Ret (dns_key data).
Proof.
  intros Hb Hl. unfold dns_get_header_id_str. rewrite rd_ok by lia. cbn [mbind result_bind].
  unfold mret, result_ret, dns_key. f_equal. apply substring_all.
  pose proof (dns_id_bound data Hb). change (DNS_ID_STRLEN - 1)%nat with 5%nat.
  apply (length_print_uint _ 4). change (10 ^ Z.of_nat 5) with 100000. lia.
Qed.

(** ** Packets from the device *)

(** What [classify] returns lies inside the packet. *)
Definition classified (data : list Z) (data_len : Z) (r : option (BAddr * BAddr * bool * list Z * Z)) : Prop :=
  match r with
  | None => True
  | Some (local, remote, is_dns, p, n) =>
      (∃ k, p = zdrop k data ∧ 28 ≤ k ≤ 68 ∧ 0 ≤ n ∧ k + n ≤ data_len) ∧
      (is_dns = true → ∃ lip lport rip rport, local = BAddr_IPv4 lip lport ∧ remote = BAddr_IPv4 rip rport)
  end.

Lemma inside_trans data p q len n m a b c d :
  inside data p len n a b → 0 ≤ a → 0 ≤ c → inside p q n m c d →
  ∃ k, q = zdrop k data ∧ a + c ≤ k ≤ b + d ∧ 0 ≤ m ∧ k + m ≤ len.
Proof.
  intros (k & -> & Hk & Hn & Hs) Ha Hc (k' & -> & Hk' & Hm & Hs').
  exists (k + k'). rewrite zdrop_zdrop by lia. split_and!; try done; lia.
Qed.

Lemma inside_len data p len n a b : inside data p len n a b → 0 ≤ a → len ≤ zlen data → n ≤ zlen p.
Proof. intros (k & -> & Hk & Hn & Hs) Ha Hl. rewrite zlen_zdrop; lia. Qed.

Lemma packet_byte (data : list Z) data_len i :
  data_len ≤ zlen data → Z.of_nat i < data_len → ∃ b, data !! i = Some b.
Proof. intros Hl Hi. apply lookup_lt_is_Some_2. lia. Qed.

Lemma classify_ipv4_ok data data_len o :
  bytes data → 0 ≤ data_len ≤ zlen data → 10 ≤ zlen data → addr_wf (dns_resolver_addr cfg) →
  wp (classify_ipv4 data data_len) o (λ r o' es, o' = o ∧ es = [] ∧ classified data data_len r).
Proof.
  intros Hb Hl H10 Hdns. unfold classify_ipv4, or_else.
  destruct (packet_byte data (zlen data) 9) as [b9 Hb9]; [lia|lia|].
  wp_step. eapply (wp_mono _ _ (λ r o' es, o' = o ∧ es = [])).
  { wp_step; [by wp_step|]. wp_step. eapply wp_lift_option; [exact Hb9|]. by wp_step. }
  intros other ? ? [-> ->]. destruct other; [wp_step; eapply wp_lift_option; [exact Hb9|]; by wp_step|].
  wp_step. apply wp_parse; [apply ipv4_check_no_fault; [done|lia]|].
  destruct (ipv4_check data data_len) as [[[h p] n]| |] eqn:Hip; [|by wp_step|by wp_step].
  apply ipv4_check_inside in Hip; [|done|lia].
  wp_step. apply wp_parse.
  { apply udp_check_no_fault. eapply inside_len; [exact Hip|lia|lia]. }
  destruct (udp_check p n) as [[[u q] m]| |] eqn:Hu; [|by wp_step|by wp_step].
  apply udp_check_inside in Hu.
  wp_step. apply wp_read_bytes; [eapply (inside_len p); [exact Hu|lia|]; eapply inside_len; [exact Hip|lia|lia]|].
  wp_step; [by wp_step|].
  wp_step. apply wp_union; [done|]. intros x. wp_step. split_and!; try done.
  destruct (inside_trans data p q data_len n m 20 60 8 8 Hip ltac:(lia) ltac:(lia) Hu) as (k & ? & ? & ? & ?).
  split; [exists k; split_and!; done || lia|]. intros _. unfold BAddr_MakeIPv4. eauto 10.
Qed.

Lemma classify_ipv6_ok data data_len o :
  bytes data → 0 ≤ data_len ≤ zlen data →
  wp (classify_ipv6 data data_len) o (λ r o' es, o' = o ∧ es = [] ∧ classified data data_len r).
Proof.
  intros Hb Hl. unfold classify_ipv6, or_else.
  wp_step; [by wp_step|]. wp_step; bool_props; [by wp_step|]. unfold sizeof_ipv6_header in *.
  destruct (packet_byte data data_len 6) as [b6 Hb6]; [lia|lia|].
  wp_step. eapply wp_lift_option; [exact Hb6|]. wp_step; [by wp_step|].
  wp_step. apply wp_parse; [apply ipv6_check_no_fault; lia|].
  destruct (ipv6_check data data_len) as [[[h p] n]| |] eqn:Hip; [|by wp_step|by wp_step].
  apply ipv6_check_inside in Hip.
  wp_step. apply wp_parse.
  { apply udp_check_no_fault. eapply inside_len; [exact Hip|lia|lia]. }
  destruct (udp_check p n) as [[[u q] m]| |] eqn:Hu; [|by wp_step|by wp_step].
  apply udp_check_inside in Hu.
  wp_step. apply wp_read_bytes; [eapply (inside_len p); [exact Hu|lia|]; eapply inside_len; [exact Hip|lia|lia]|].
  wp_step; [by wp_step|]. wp_step. split_and!; try done.
  destruct (inside_trans data p q data_len n m 40 40 8 8 Hip ltac:(lia) ltac:(lia) Hu) as (k & ? & ? & ? & ?).
  split; [exists k; split_and!; done || lia|done].
Qed.

Lemma classify_ok data data_len o :
  bytes data → 0 ≤ data_len ≤ zlen data → 10 ≤ zlen data → addr_wf (dns_resolver_addr cfg) →
  wp (classify data data_len) o (λ r o' es, o' = o ∧ es = [] ∧ classified data data_len r).
Proof.
  intros Hb Hl H10 Hdns. unfold classify.
  wp_step. eapply (wp_mono _ _ (λ _ o' es, o' = o ∧ es = [])).
  { wp_step; bool_props; [|by wp_step]. destruct (packet_byte data data_len 0) as [b Hb0]; [lia|lia|].
    wp_step. eapply wp_lift_option; [exact Hb0|]. by wp_step. }
  intros v ? ? [-> ->]. wp_step; [by apply classify_ipv4_ok|].
  wp_step; [by apply classify_ipv6_ok|]. by wp_step.
Qed.

(** The map of pending requests. *)
Definition map_ok (o o' : t) : Prop :=
  BStringMap.wf (map o') ∧ quitting o' = quitting o ∧ device_write_buf o' = device_write_buf o ∧
  live (heap o') - BStringMap.blocks (map o') = live (heap o) - BStringMap.blocks (map o).

Lemma map_ok_refl o : BStringMap.wf (map o) → map_ok o o.
Proof. done. Qed.

(** The request to the relay: the payload behind a SOCKS UDP header with the
    address the device wanted to reach. *)
Definition socks_request (ip port : Z) (payload : list Z) : list Z :=
  socks_udp_header_bytes (mk_socks_udp_header 0 0 SOCKS_ATYP_IPV4 ip port) ++ payload.

Lemma relay_dns_ok lip lport rip rport p n o str :
  BAddr_Print (BAddr_IPv4 lip lport) = Some str →
  bytes p → 2 ≤ zlen p → n ≤ zlen p → BStringMap.wf (map o) →
  wp (relay_dns (BAddr_IPv4 lip lport) (BAddr_IPv4 rip rport) p n) o (λ r o' es,
    es = [RelaySend (socks_request rip rport (ztake n p))] ∧ map_ok o o' ∧
    (r = true → BStringMap.to_map (map o') = <[dns_key p := str]> (BStringMap.to_map (map o))) ∧
    (r = false → BStringMap.to_map (map o') = BStringMap.to_map (map o)) ∧
    (r = true → n ≤ Z.max 0 (send cfg (socks_request rip rport (ztake n p)))) ∧
    (n ≤ Z.max 0 (send cfg (socks_request rip rport (ztake n p))) → (∀ i, malloc_ok cfg i = true) → r = true)).
Proof.
  intros Hstr Hb Hl Hn Hwf. unfold relay_dns, udp_send.
  wp_step. eapply wp_lift_option; [exact Hstr|]. cbn [union_ipv4_ip BAddr_GetPort].
  wp_step. wp_step. wp_step. eapply wp_lift_option; [reflexivity|].
  wp_step. apply wp_read_bytes; [done|]. wp_step. wp_step. wp_step. wp_step. fold (socks_request rip rport (ztake n p)).
  set (sent := send cfg _). assert (Hmax : (if sent <? 0 then 0 else sent) = Z.max 0 sent) by (case_match; bool_props; lia).
  rewrite Hmax. wp_step; bool_props.
  { wp_step. split_and!; try done; lia. }
  wp_step. rewrite dns_id_ok by done. apply wp_parse; [done|]. wp_step. eapply wp_lift_option; [reflexivity|].
  wp_step. wp_step.
  destruct (BStringMap.Set_spec (malloc_ok cfg) (map o) (dns_key p) str (heap o) Hwf (dns_key_cstring p))
    as (a & m' & h' & Hset & Hw & Hm & Hbl & _ & Hall).
  wp_step. eapply wp_lift_option; [exact Hset|]. cbn beta iota. wp_step. wp_step. wp_step.
  split_and!; try done; by intros ->.
Qed.

(** The packet for lwIP, if it takes it. *)
Definition to_lwip (data : list Z) (data_len : Z) : list event :=
  if (UINT16_MAX <? data_len) || negb (pbuf_alloc cfg data_len) then []
  else LwipInput (ztake data_len data) :: if netif_input cfg (ztake data_len data) then [] else [PbufFree].

Abbreviation classification := (option (BAddr * BAddr * bool * list Z * Z)).

(** Not for the UDP path: there is none, it is no UDP packet, or it is too long. *)
Definition not_taken (c : classification) : Prop :=
  udpgw_remote_server_addr cfg || opt_dns_resolver_addr cfg = false ∨ c = None ∨
  ∃ l r d p n, c = Some (l, r, d, p, n) ∧ udp_mtu cfg < n.

(** A payload for the UDP path. *)
Definition taken (c : classification) (l r : BAddr) (d : bool) (p : list Z) (n : Z) : Prop :=
  udpgw_remote_server_addr cfg || opt_dns_resolver_addr cfg = true ∧ c = Some (l, r, d, p, n) ∧ n ≤ udp_mtu cfg.

(** What becomes of a packet [classify] returned [c] for. *)
Inductive fate (data : list Z) (data_len : Z) (c : classification) (o : t) : t → list event → Prop :=
| fate_lwip : not_taken c → fate data data_len c o o (to_lwip data data_len)
| fate_udpgw l r d p n :
    taken c l r d p n → transparent_dns cfg && d = false →
    fate data data_len c o o (if udpgw_remote_server_addr cfg then [GwSubmit l r d (ztake n p)] else [])
| fate_relayed l rip rport p n str o' :
    taken c l (BAddr_IPv4 rip rport) true p n → transparent_dns cfg = true → BAddr_Print l = Some str →
    n ≤ Z.max 0 (send cfg (socks_request rip rport (ztake n p))) →
    BStringMap.to_map (map o') = <[dns_key p := str]> (BStringMap.to_map (map o)) →
    fate data data_len c o o' [RelaySend (socks_request rip rport (ztake n p))]
| fate_not_relayed l rip rport p n o' :
    taken c l (BAddr_IPv4 rip rport) true p n → transparent_dns cfg = true →
    ¬ (n ≤ Z.max 0 (send cfg (socks_request rip rport (ztake n p))) ∧ ∀ i, malloc_ok cfg i = true) →
    BStringMap.to_map (map o') = BStringMap.to_map (map o) →
    fate data data_len c o o' (RelaySend (socks_request rip rport (ztake n p)) :: to_lwip data data_len).

(** The memory at [data] reaches as far as the two reads that are not bounded by
    the length of the packet: the protocol for the debug message, and the id of a
    DNS request. *)
Definition room (data : list Z) (data_len : Z) (o : t) : Prop :=
  10 ≤ zlen data ∧
  (70 ≤ zlen data ∨ ∀ l r p n, classify data data_len o = Some (Some (l, r, true, p, n), o, []) → 2 ≤ n).

Lemma wp_exact {A} (m : IO A) o a o' es (Q : A → t → list event → Prop) : m o = Some (a, o', es) → Q a o' es → wp m o Q.
Proof. unfold wp. by intros ->. Qed.

Lemma process_ok data data_len c o :
  bytes data → 0 ≤ data_len ≤ zlen data → room data data_len o → BStringMap.wf (map o) →
  classify data data_len o = Some (c, o, []) → classified data data_len c →
  wp (process_device_udp_packet data data_len) o (λ r o' es,
    map_ok o o' ∧ fate data data_len c o o' (es ++ if r : bool then [] else to_lwip data data_len)).
Proof.
  intros Hb Hl Hroom Hwf Hc Hcl. unfold process_device_udp_packet, or_else.
  wp_step. wp_step; [apply Z.leb_le; lia|]. rewrite <- negb_orb.
  destruct (udpgw_remote_server_addr cfg || opt_dns_resolver_addr cfg) eqn:Huse; cbn [negb].
  2: { wp_step. split; [done|]. apply fate_lwip. by left. }
  wp_step. eapply wp_exact; [exact Hc|]. cbn [app].
  destruct c as [[[[[local remote] d] p] n]|]; [|wp_step; split; [done|]; apply fate_lwip; right; by left].
  destruct Hcl as [(k & Hp & Hk & Hn & Hs) Hd].
  assert (Hnp : n ≤ zlen p) by (subst p; rewrite zlen_zdrop; lia).
  wp_step; bool_props; [wp_step; split; [done|]; apply fate_lwip; right; right; by do 5 eexists|].
  assert (Ht : taken (Some (local, remote, d, p, n)) local remote d p n) by (split_and!; [by apply orb_true_iff|done..]).
  wp_step; bool_props.
  - destruct Hd as (lip & lport & rip & rport & -> & ->); [done|]. subst d.
    assert (∃ str, BAddr_Print (BAddr_IPv4 lip lport) = Some str) as [str Hstr] by eauto.
    eapply wp_mono; [apply (relay_dns_ok lip lport rip rport p n o str); try done|].
    + subst p. by apply Forall_zdrop.
    + destruct Hroom as [_ [H70|Hid]]; [subst p; rewrite zlen_zdrop; lia|]. specialize (Hid _ _ _ _ Hc). lia.
    + cbn beta. intros r o' es (-> & Hm & Hset & Hsame & Hsent & Hr). split; [done|]. destruct r.
      * rewrite app_nil_r. eapply fate_relayed; eauto.
      * eapply fate_not_relayed; eauto. intros [Hr1 Hr2]. by specialize (Hr Hr1 Hr2).
  - assert (Hnd : transparent_dns cfg && d = false) by (apply andb_false_iff; naive_solver).
    pose proof (fate_udpgw data data_len _ o local remote d p n Ht Hnd) as Hf. wp_step. wp_step.
    + wp_step. apply wp_read_bytes; [done|]. wp_step. wp_step. split; [done|].
      match goal with Hx : udpgw_remote_server_addr cfg = true |- _ => rewrite Hx in Hf end. exact Hf.
    + wp_step. split; [done|].
      match goal with Hx : udpgw_remote_server_addr cfg = false |- _ => rewrite Hx in Hf end. exact Hf.
Qed.

Lemma read_handler_ok data data_len c o :
  quitting o = false →
  bytes data → 0 ≤ data_len ≤ zlen data → room data data_len o → BStringMap.wf (map o) →
  classify data data_len o = Some (c, o, []) → classified data data_len c →
  wp (device_read_handler_send data data_len) o (λ _ o' es,
    map_ok o o' ∧ ∃ es', es = ReadDone :: es' ∧ fate data data_len c o o' es').
Proof.
  intros Hq Hb Hl Hroom Hwf Hc Hcl. unfold device_read_handler_send.
  wp_step. wp_step. wp_step. wp_step; [by rewrite Hq|]. wp_step. wp_step; [apply Z.leb_le; lia|].
  wp_step. wp_step. wp_step. eapply wp_mono; [by apply (process_ok data data_len c)|].
  intros r o' es [Hm Hf]. cbn [app].
  assert (Hdone : ∀ es', fate data data_len c o o' es' → map_ok o o' ∧ ∃ es1, ReadDone :: es' = ReadDone :: es1 ∧ fate data data_len c o o' es1)
    by eauto.
  destruct r; [wp_step; by apply Hdone|]. unfold to_lwip in Hf.
  destruct (UINT16_MAX <? data_len); [wp_step; by apply Hdone|].
  destruct (pbuf_alloc cfg data_len); cbn [orb negb] in *; [|wp_step; by apply Hdone].
  wp_step. apply wp_read_bytes; [lia|]. wp_step. wp_step. unfold when. destruct (netif_input _ _); wp_step; by apply Hdone.
Qed.

(** ** Replies of the relay *)

Lemma fd_handler_idle n buffer o :
  n ≤ sizeof_socks_udp_header → udp_fd_handler n buffer o = Some (tt, o, []).
Proof.
  intros Hn. unfold udp_fd_handler. destruct (n <=? 0); [done|].
  by rewrite (proj2 (Z.leb_le _ _)).
Qed.

(** A reply of [n] bytes in the buffer. *)
Definition reply_ok (n : Z) (buffer : list Z) : Prop :=
  sizeof_socks_udp_header < n ≤ zlen buffer ∧ bytes buffer ∧ sizeof_socks_udp_header + 2 ≤ zlen buffer.

Definition reply_key (buffer : list Z) : string := dns_key (zdrop sizeof_socks_udp_header buffer).

Lemma reply_id n buffer :
  reply_ok n buffer →
  dns_get_header_id_str (zdrop sizeof_socks_udp_header buffer) = Ret (reply_key buffer) ∧
  (n <=? 0) = false ∧ (n <=? sizeof_socks_udp_header) = false.
Proof.
  unfold reply_ok, sizeof_socks_udp_header. intros (Hn & Hb & Hl).
  split_and!; [|apply Z.leb_gt; lia..]. apply dns_id_ok; [by apply Forall_zdrop|]. rewrite zlen_zdrop; lia.
Qed.

(** A reply to a request that is not pending has no effect. *)
Lemma fd_handler_unknown n buffer o :
  reply_ok n buffer → BStringMap.wf (map o) → BStringMap.to_map (map o) !! reply_key buffer = None →
  wp (udp_fd_handler n buffer) o (λ _ o' es, o' = o ∧ es = []).
Proof.
  intros Hr Hwf Hk. destruct (reply_id n buffer Hr) as (Hid & Hn1 & Hn2).
  unfold udp_fd_handler. rewrite Hn1, Hn2, Hid. wp_step. apply wp_parse; [done|].
  wp_step. eapply wp_lift_option; [reflexivity|]. wp_step. wp_step.
  rewrite BStringMap.Get_map, Hk by (done || apply dns_key_cstring). by wp_step.
Qed.

Lemma fd_handler_known n buffer o ip port str :
  ResolverOk →
  NDEBUG = true ∨ udpgw_remote_server_addr cfg = true →
  reply_ok n buffer → BStringMap.wf (map o) →
  addr_wf (BAddr_IPv4 ip port) → BAddr_Print (BAddr_IPv4 ip port) = Some str →
  BStringMap.to_map (map o) !! reply_key buffer = Some str →
  ip_addr (dns_resolver_addr cfg) → BAddr_type (dns_resolver_addr cfg) = BADDR_TYPE_IPV4 →
  zlen (device_write_buf o) = BTap_GetMTU cfg →
  let d := zdrop sizeof_socks_udp_header buffer in
  let m := n - sizeof_socks_udp_header in
  wp (udp_fd_handler n buffer) o (λ _ o' es,
    es = (if deliverable (BAddr_IPv4 ip port) m
          then [TapSend (packet (BAddr_IPv4 ip port) (dns_resolver_addr cfg) d m)] else []) ∧
    BStringMap.wf (map o') ∧ BStringMap.to_map (map o') = delete (reply_key buffer) (BStringMap.to_map (map o)) ∧
    live (heap o') - BStringMap.blocks (map o') = live (heap o) - BStringMap.blocks (map o) ∧
    quitting o' = quitting o ∧ zlen (device_write_buf o') = BTap_GetMTU cfg).
Proof.
  intros Hok Hgw Hr Hwf Haddr Hstr Hk Hdns Hty Hb d m.
  destruct (reply_id n buffer Hr) as (Hid & Hn1 & Hn2).
  destruct (print_parse_ipv4 Hok ip port false Haddr) as (s & Hs & Hp). rewrite Hstr in Hs. injection Hs as <-.
  unfold udp_fd_handler. rewrite Hn1, Hn2, Hid. wp_step. apply wp_parse; [done|].
  wp_step. eapply wp_lift_option; [reflexivity|]. wp_step. wp_step.
  rewrite BStringMap.Get_map, Hk by (done || apply dns_key_cstring).
  destruct (BStringMap.Unset_spec (map o) (reply_key buffer) (heap o) Hwf (dns_key_cstring _))
    as (m' & h' & -> & Hw & Hm & Hbl).
  unfold BAddr_Parse. rewrite Hp. wp_step. wp_step. cbn [app].
  destruct Hr as (Hn & Hbb & Hlb). unfold sizeof_socks_udp_header in *.
  eapply wp_mono; [apply (to_device_ok (BAddr_IPv4 ip port)); try done|].
  - rewrite zlen_zdrop; lia.
  - cbn beta. intros _ o' es (-> & Ho & Hlen). rewrite Ho. split_and!; done.
Qed.

(** ** Packets from lwIP *)

Lemma copy_chunks_ok chunks len o :
  zlen (device_write_buf o) = BTap_GetMTU cfg → 0 ≤ len ≤ BTap_GetMTU cfg →
  let total := len + zlen (concat chunks) in
  wp (copy_chunks len chunks) o (λ r o' es,
    es = [] ∧ o' = set_buf (device_write_buf o') o ∧ zlen (device_write_buf o') = BTap_GetMTU cfg ∧
    if total <=? BTap_GetMTU cfg
    then r = Some total ∧ ztake total (device_write_buf o') = ztake len (device_write_buf o) ++ concat chunks
    else r = None).
Proof.
  revert len o. induction chunks as [|p chunks IH]; intros len o Hb Hl total; subst total; cbn [copy_chunks concat].
  { wp_step. rewrite set_buf_same, Z.add_0_r, (proj2 (Z.leb_le _ _)), app_nil_r by (cbn; lia). done. }
  rewrite zlen_app, Z.add_assoc. wp_step; bool_props.
  { wp_step. rewrite set_buf_same. split_and!; try done. by rewrite (proj2 (Z.leb_gt _ _)) by lia. }
  wp_step. wp_step. rewrite (proj2 (Z.leb_le _ _)) by lia. wp_step. wp_step. cbn [app].
  assert (zlen (zwrite len p (device_write_buf o)) = BTap_GetMTU cfg) as Hz by (rewrite zlen_zwrite; lia).
  eapply wp_mono; [apply IH; [done|lia]|]. cbn beta. intros r o' es (-> & Ho & Hlen & Hr).
  cbn [set_buf device_write_buf] in *. split_and!; try done.
  destruct (_ <=? _); [|done]. destruct Hr as [-> Hr]. split; [done|]. rewrite Hr, app_assoc. f_equal.
  unfold zwrite. rewrite app_assoc. apply ztake_app_exact. rewrite zlen_app, zlen_ztake; lia.
Qed.

Lemma netif_output_ok chunks o :
  chunks ≠ [] → zlen (device_write_buf o) = BTap_GetMTU cfg → 0 ≤ BTap_GetMTU cfg →
  wp (common_netif_output chunks) o (λ _ o' es,
    o' = set_buf (device_write_buf o') o ∧ zlen (device_write_buf o') = BTap_GetMTU cfg ∧
    es = if negb (quitting o) && (zlen (concat chunks) <=? BTap_GetMTU cfg) then [TapSend (concat chunks)] else []).
Proof.
  intros Hne Hb Hm. unfold common_netif_output, or_else. wp_step. wp_step.
  destruct (quitting o); cbn [negb andb]; [wp_step; by rewrite set_buf_same|].
  destruct chunks as [|p [|q chunks]]; [done| |].
  - wp_step; bool_props; wp_step; rewrite set_buf_same; cbn [concat]; rewrite !app_nil_r; split_and!; try done.
    + destruct (Z.leb_spec (zlen p) (BTap_GetMTU cfg)); [lia|done].
    + destruct (Z.leb_spec (zlen p) (BTap_GetMTU cfg)); [done|lia].
  - wp_step. eapply wp_mono; [apply copy_chunks_ok; [done|lia]|].
    cbn beta. intros r o' es (-> & Ho & Hlen & Hr). rewrite Z.add_0_l in Hr.
    destruct (_ <=? _).
    + destruct Hr as [-> Hr]. wp_step. wp_step. wp_step. cbn [app]. rewrite Hr. done.
    + subst r. wp_step. done.
Qed.

(** ** Theorems *)

(** C7: a datagram for the device is written as one packet inside
    [device_write_buf] and no longer than the MTU, or dropped when it cannot
    be; and the packet is one the program's own parser accepts, giving back the
    addresses (exchanged) and exactly the data, for IPv4 and IPv6. *)
Theorem delivered_packet_parses local remote data n o :
  NDEBUG = true ∨ udpgw_remote_server_addr cfg = true →
  ip_addr local → ip_addr remote → BAddr_type local = BAddr_type remote →
  0 ≤ n ≤ zlen data → zlen (device_write_buf o) = BTap_GetMTU cfg → addr_wf (dns_resolver_addr cfg) →
  ∃ o' es, udp_send_packet_to_device local remote data n o = Some (tt, o', es) ∧
    map o' = map o ∧
    if deliverable local n then
      ∃ pkt d, es = [TapSend pkt] ∧ zlen pkt = headers_len local + n ∧ zlen pkt ≤ BTap_GetMTU cfg ∧
        classify pkt (zlen pkt) o = Some (Some (remote, local, d, ztake n data, n), o, [])
    else es = [].
Proof.
  intros Hgw Hl Hr Ht Hn Hb Hdns.
  pose proof (to_device_ok local remote data n o Hgw Hl Hr Ht Hn Hb) as Hw.
  apply wp_run in Hw as ([] & o' & es & Hrun & -> & Ho & _).
  exists o'. eexists. split; [exact Hrun|]. split; [by rewrite Ho|].
  destruct (deliverable local n) eqn:Hdel; [|done].
  destruct (classify_packet local remote data n o Hl Hr Ht Hn Hdel Hdns) as [Hlen Hc].
  apply wp_run in Hc as (r & o1 & es & Hc & -> & -> & d & ->).
  exists (packet local remote data n), d. rewrite Hlen. split_and!; try done.
  unfold deliverable, headers_len, sizeof_ipv4_header, sizeof_ipv6_header, sizeof_udp_header in *.
  destruct local; bool_props; lia || done.
Qed.

(** C28: whatever bytes the device delivers, handling them reads nothing outside
    the memory of the device's buffer and fails no assertion.  The list [data] is
    that memory from the packet on; of what follows the packet only two reads can
    touch something ([room]): the protocol of an IPv4 packet shorter than its
    header, for a debug message, and the id of a DNS request shorter than two bytes,
    so the memory may even end with the packet when it is neither.  The packet is
    accepted first.  Then its fate is determined by what it is: lwIP gets the whole
    packet, once, if it has at most 65535 bytes and there is memory, exactly when
    the packet is not taken by the UDP path or could not be relayed; udpgw gets
    the addresses and exactly the payload, once, and the DNS relay gets the payload
    behind a SOCKS header, once, never both.  A relayed request is entered in the
    table of pending ones, which otherwise stays as it was, and stays intact. *)
Theorem device_read_safe data data_len o :
  quitting o = false →
  bytes data → 0 ≤ data_len ≤ zlen data → room data data_len o → addr_wf (dns_resolver_addr cfg) →
  BStringMap.wf (map o) →
  ∃ c o' es, classify data data_len o = Some (c, o, []) ∧ classified data data_len c ∧
    device_read_handler_send data data_len o = Some (tt, o', ReadDone :: es) ∧
    map_ok o o' ∧ fate data data_len c o o' es.
Proof.
  intros Hq Hb Hl Hroom Hdns Hwf.
  destruct (proj1 (wp_run _ _ _) (classify_ok data data_len o Hb Hl (proj1 Hroom) Hdns)) as (c & ? & ? & Hc & -> & -> & Hcl).
  destruct (proj1 (wp_run _ _ _) (read_handler_ok data data_len c o Hq Hb Hl Hroom Hwf Hc Hcl)) as ([] & o' & ? & Hrun & Hm & es & -> & Hf).
  by exists c, o', es.
Qed.


(** The relay of DNS replies contradicts the assertion of the function it
    calls: in a build with assertions and without a udpgw server, which is how
    the program is started for DNS relaying only, the reply to a pending request
    ends the program. *)
Theorem dns_reply_needs_udpgw n buffer o ip port str :
  NDEBUG = false → udpgw_remote_server_addr cfg = false →
  ResolverOk → reply_ok n buffer → BStringMap.wf (map o) →
  addr_wf (BAddr_IPv4 ip port) → BAddr_Print (BAddr_IPv4 ip port) = Some str →
  BStringMap.to_map (map o) !! reply_key buffer = Some str →
  udp_fd_handler n buffer o = None.
Proof.
  intros Hnd Hgw Hok Hr Hwf Haddr Hstr Hk. destruct (reply_id n buffer Hr) as (Hid & Hn1 & Hn2).
  destruct (print_parse_ipv4 Hok ip port false Haddr) as (s & Hs & Hp). rewrite Hstr in Hs. injection Hs as <-.
  unfold udp_fd_handler. rewrite Hn1, Hn2, Hid. unfold mbind, M_bind, parse, mlift, mret, M_ret, mget, mput.
  rewrite BStringMap.Get_map, Hk by (done || apply dns_key_cstring).
  destruct (BStringMap.Unset (map o) (reply_key buffer) (heap o)) as [m' h'].
  unfold BAddr_Parse. rewrite Hp. unfold udp_send_packet_to_device, ASSERT, mbind, M_bind.
  by rewrite Hnd, Hgw.
Qed.

(** A packet lwIP sends reaches the device whole, however many chunks its
    pbuf chain has, if it fits the MTU; otherwise it is dropped.  Nothing is
    written outside [device_write_buf], and nothing is sent while quitting. *)
Theorem netif_output_whole chunks o :
  chunks ≠ [] → zlen (device_write_buf o) = BTap_GetMTU cfg → 0 ≤ BTap_GetMTU cfg →
  ∃ o', common_netif_output chunks o =
      Some (tt, o', if negb (quitting o) && (zlen (concat chunks) <=? BTap_GetMTU cfg)
                    then [TapSend (concat chunks)] else []) ∧
    o' = set_buf (device_write_buf o') o ∧ zlen (device_write_buf o') = BTap_GetMTU cfg.
Proof.
  intros Hne Hb Hm. pose proof (netif_output_ok chunks o Hne Hb Hm) as Hw.
  apply wp_run in Hw as ([] & o' & es & Hrun & Ho & Hl & ->). by exists o'.
Qed.

End device.
End Device.

(** ** Examples: a device with the address 10.0.0.2 and the resolver 10.0.0.1 *)

Definition example_dns : BAddr := BAddr_IPv4 16777226 13568.
Definition example_host : BAddr := BAddr_IPv4 33554442 59139.

Definition example_cfg (udpgw : bool) : Device.config :=
  Device.mk_config udpgw true true true example_dns 1472 1500 (λ d, zlen d) (λ _, true) (λ _, true) (λ _, true).

Definition example_state : Device.t :=
  Device.mk false (replicate 1500 0) BStringMap.Init (mk_mem 0 0).

(** A DNS query with id 0x1234, and the packet it comes in. *)
Definition example_query : list Z := [0x12; 0x34; 1; 0; 0; 1; 0; 0; 0; 0; 0; 0].
Definition example_packet : list Z := Device.packet example_dns example_host example_query 12.
(** The relay's reply: ten bytes of header, then the message. *)
Definition example_reply : list Z := [0; 0; 0; 1; 10; 0; 0; 1; 0; 53; 0x12; 0x34; 0x81; 0x80].

Lemma bytes_dec (l : list Z) : forallb (λ b, (0 <=? b) && (b <? 256)) l = true → bytes l.
Proof.
  intros Hb. apply Forall_forall. intros x Hx. rewrite forallb_forall in Hb.
  specialize (Hb x (proj1 (list_elem_of_In _ _) Hx)). unfold is_byte. bool_props. lia.
Qed.

Lemma example_addrs :
  Device.ip_addr example_host ∧ Device.ip_addr example_dns ∧ BAddr_type example_host = BAddr_type example_dns.
Proof. cbn. split_and!; lia || done. Qed.

Lemma delivered_packet_parses_witness :
  ∃ o' pkt d, @Device.udp_send_packet_to_device true (example_cfg false) example_host example_dns [1;2;3] 3 example_state
      = Some (tt, o', [Device.TapSend pkt]) ∧ zlen pkt = 31 ∧
    Device.classify (example_cfg false) pkt 31 example_state
      = Some (Some (example_dns, example_host, d, [1;2;3], 3), example_state, []).
Proof.
  destruct example_addrs as (Hh & Hd & Ht).
  destruct (@Device.delivered_packet_parses true (example_cfg false) example_host example_dns [1;2;3] 3 example_state)
    as (o' & es & Hrun & _ & Hp);
    [by left|exact Hh|exact Hd|exact Ht|cbn; lia|reflexivity|cbn; lia|].
  cbn [Device.deliverable example_host] in Hp. change (_ && _) with true in Hp. cbn iota in Hp.
  destruct Hp as (pkt & d & -> & Hlen & _ & Hc). exists o', pkt, d. rewrite Hlen in Hc. by split_and!.
Defined.

(** The memory ends with the packet, a DNS request. *)
Lemma device_read_safe_witness :
  ∃ o' es, @Device.device_read_handler_send true (example_cfg false) example_packet 40 example_state
      = Some (tt, o', Device.ReadDone :: es) ∧ Device.map_ok example_state o'.
Proof.
  destruct (@Device.device_read_safe true (example_cfg false) example_packet 40 example_state)
    as (c & o' & es & _ & _ & Hrun & Hm & _).
  - reflexivity.
  - apply bytes_dec. vm_compute. reflexivity.
  - vm_compute. split; discriminate.
  - split; [vm_compute; discriminate|]. right. intros l r p n Hc. vm_compute in Hc. injection Hc as <- <- <- <-. lia.
  - cbn. lia.
  - apply BStringMap.wf_nil.
  - exists o', es. split; [exact Hrun|exact Hm].
Defined.


Lemma dns_reply_needs_udpgw_witness :
  ∃ o1, BStringMap.to_map (Device.map o1) !! Device.reply_key example_reply = Some "10.0.0.2:999"%string ∧
    @Device.udp_fd_handler false numeric_resolver (example_cfg false) 14 example_reply o1 = None.
Proof.
  exists (Device.mk false (replicate 1500 0) [BStringMap.mk_entry "13330" "10.0.0.2:999"] (mk_mem 3 3)).
  assert (BStringMap.to_map [BStringMap.mk_entry "13330" "10.0.0.2:999"] !! Device.reply_key example_reply
    = Some "10.0.0.2:999"%string) as Hk by (by vm_compute).
  split; [exact Hk|].
  apply (@Device.dns_reply_needs_udpgw false numeric_resolver (example_cfg false) 14 example_reply _
    33554442 59139 "10.0.0.2:999").
  - reflexivity.
  - reflexivity.
  - apply numeric_resolver_ok.
  - split_and!; [by vm_compute..|apply bytes_dec; by vm_compute|by vm_compute].
  - cbn [Device.map]. rewrite BStringMap.wf_cons. split_and!; [constructor|repeat constructor|apply BStringMap.wf_nil].
  - cbn. lia.
  - vm_compute. reflexivity.
  - exact Hk.
Defined.

Lemma netif_output_whole_witness :
  ∃ o', Device.common_netif_output (example_cfg false) [[1;2];[3]] example_state
    = Some (tt, o', [Device.TapSend [1;2;3]]).
Proof.
  destruct (Device.netif_output_whole (example_cfg false) [[1;2];[3]] example_state) as (o' & Hrun & _);
    [discriminate|reflexivity|cbn; lia|]. exists o'. exact Hrun.
Defined.

(** The two reads that the length of the packet does not bound, where the memory ends
    with the packet: an IPv4 packet of one byte, and a DNS request of no bytes. *)
Lemma short_packet_overread :
  @Device.device_read_handler_send true (example_cfg false) [69] 1 example_state = None ∧
  (let pkt := Device.packet example_dns example_host [] 0 in
   @Device.device_read_handler_send true (example_cfg false) pkt 28 example_state = None).
Proof. split; vm_compute; reflexivity. Qed.
