(* ===== verification/FairQueue.v ===== *)
(** * FairQueue: sharing one packet output among flows

    Models flow/PacketPassFairQueue.c, through which udpgw's connections share
    the connection to the server.  Every flow has a virtual time that grows with
    what it sends; the queued flow with the least time sends next.

    Flows are named by their addresses.  The tree of queued flows
    (structure/SAvl.h) is the list of its entries in order; it is ordered when
    entries are inserted and not when times change. *)
From stdpp Require Import sorting.
From S2P Require Import Prelude Bytes.

Module PacketPassFairQueue.

Definition FAIRQUEUE_MAX_TIME : Z := UINT64_MAX.

Record flow := mk_flow {
  time : Z;
  is_queued : bool;
  queued_data : list Z;
  handler_busy : bool
}.

Record t := mk {
  mtu : Z;                          (** of the output *)
  use_cancel : bool;
  packet_weight : Z;
  sending_flow : option Z;
  sending_len : Z;
  previous_flow : option Z;
  queued_tree : list Z;
  flows_list : list Z;
  flows : gmap Z flow;              (** the flow objects *)
  freeing : bool;
  schedule_job : bool               (** BPending_IsSet *)
}.

Inductive event :=
| OutputInit                        (** PacketPassInterface_Sender_Init *)
| OutputSend (data : list Z)        (** PacketPassInterface_Sender_Send *)
| OutputCancel                      (** PacketPassInterface_Sender_RequestCancel *)
| InputInit (flow : Z) | InputFree (flow : Z)
| InputDone (flow : Z)              (** PacketPassInterface_Done *)
| HandlerBusy (flow : Z).

Definition set_sending (f : option Z) (len : Z) (o : t) : t :=
  mk (mtu o) (use_cancel o) (packet_weight o) f len (previous_flow o) (queued_tree o) (flows_list o) (flows o)
     (freeing o) (schedule_job o).
Definition set_previous (f : option Z) (o : t) : t :=
  mk (mtu o) (use_cancel o) (packet_weight o) (sending_flow o) (sending_len o) f (queued_tree o) (flows_list o) (flows o)
     (freeing o) (schedule_job o).
Definition set_tree (l : list Z) (o : t) : t :=
  mk (mtu o) (use_cancel o) (packet_weight o) (sending_flow o) (sending_len o) (previous_flow o) l (flows_list o) (flows o)
     (freeing o) (schedule_job o).
Definition set_flows (l : list Z) (m : gmap Z flow) (o : t) : t :=
  mk (mtu o) (use_cancel o) (packet_weight o) (sending_flow o) (sending_len o) (previous_flow o) (queued_tree o) l m
     (freeing o) (schedule_job o).
Definition set_freeing (o : t) : t :=
  mk (mtu o) (use_cancel o) (packet_weight o) (sending_flow o) (sending_len o) (previous_flow o) (queued_tree o)
     (flows_list o) (flows o) true (schedule_job o).
Definition set_job (b : bool) (o : t) : t :=
  mk (mtu o) (use_cancel o) (packet_weight o) (sending_flow o) (sending_len o) (previous_flow o) (queued_tree o)
     (flows_list o) (flows o) (freeing o) b.

Definition set_time (x : Z) (f : flow) : flow := mk_flow x (is_queued f) (queued_data f) (handler_busy f).
Definition set_queued (b : bool) (f : flow) : flow := mk_flow (time f) b (queued_data f) (handler_busy f).
Definition set_data (d : list Z) (f : flow) : flow := mk_flow (time f) (is_queued f) d (handler_busy f).
Definition set_busy (b : bool) (f : flow) : flow := mk_flow (time f) (is_queued f) (queued_data f) b.

Section fairqueue.
Context `{Build}.

Abbreviation IO := (M t event).

(** Access to a flow: one that was freed ends the program. *)
Definition get (f : Z) : IO flow := o ← mget; mlift (flows o !! f).
Definition update (f : Z) (g : flow → flow) : IO unit :=
  x ← get f; mmodify (λ o, set_flows (flows_list o) (<[f := g x]> (flows o)) o).

(** ** The tree *)

Definition compare_flows (times : Z → Z) (f1 f2 : Z) : Z :=
  let cmp := B_COMPARE (times f1) (times f2) in
  if negb (cmp =? 0) then cmp else B_COMPARE f1 f2.

Definition time_of (o : t) (f : Z) : Z :=
  match flows o !! f with Some x => time x | None => 0 end.

Fixpoint tree_insert (times : Z → Z) (f : Z) (l : list Z) : option (list Z) :=
  match l with
  | [] => Some [f]
  | x :: l' =>
      let c := compare_flows times f x in
      if c =? 0 then None
      else if c <? 0 then Some (f :: l)
      else cons x <$> tree_insert times f l'
  end.

Definition Tree_GetFirst (o : t) : option Z := head (queued_tree o).
Definition Tree_IsEmpty (o : t) : bool := match queued_tree o with [] => true | _ => false end.
Definition Tree_Remove (f : Z) : IO unit :=
  mmodify (λ o, set_tree (List.filter (λ x, negb (x =? f)) (queued_tree o)) o).

(** ** Times *)

Definition get_current_time : IO Z :=
  o ← mget;
  match sending_flow o with
  | Some s => x ← get s; mret (time x)
  | None =>
      first ← (match Tree_GetFirst o with
               | Some f => x ← get f; ASSERT (is_queued x);; mret (Some (time x))
               | None => mret None
               end);
      prev ← (match previous_flow o with
              | Some f => x ← get f; mret (Some (time x))
              | None => mret None
              end);
      mret (match first, prev with
            | None, None => 0
            | Some x, None => x
            | None, Some y => y
            | Some x, Some y => if y <? x then y else x
            end)
  end.

(** The loop that subtracts time from all flows; [f] is the flow that just
    finished, whose time may underflow. *)
Fixpoint subtract_loop (f subtract : Z) (l : list Z) : IO unit :=
  match l with
  | [] => mret tt
  | someflow :: l =>
      x ← get someflow;
      (if (time x <? subtract) && negb (someflow =? f) then
         ASSERT (negb (is_queued x));;
         update someflow (set_time 0)
       else
         update someflow (λ x, set_time (u64 (time x - subtract)) x));;
      subtract_loop f subtract l
  end.

Definition increment_sent_flow (f amount : Z) : IO unit :=
  ASSERT (amount <=? FAIRQUEUE_MAX_TIME);;
  x ← get f;
  ASSERT (negb (is_queued x));;
  o ← mget;
  ASSERT (negb (bool_decide (is_Some (sending_flow o))));;
  (* does time overflow? *)
  when (u64 (FAIRQUEUE_MAX_TIME - time x) <? amount)
    (subtract ← (match Tree_GetFirst o with
                 | None => mret (time x)
                 | Some first => y ← get first; ASSERT (is_queued y);; mret (time y)
                 end);
     subtract_loop f subtract (flows_list o));;
  (* add time to flow *)
  update f (λ x, set_time (u64 (time x + amount)) x).

(** ** Scheduling *)

Definition schedule : IO unit :=
  o ← mget;
  ASSERT (negb (bool_decide (is_Some (sending_flow o))));;
  ASSERT (negb (bool_decide (is_Some (previous_flow o))));;
  ASSERT (negb (freeing o));;
  ASSERT (negb (Tree_IsEmpty o));;
  (* get first queued flow *)
  qflow ← mlift (Tree_GetFirst o);
  x ← get qflow;
  ASSERT (is_queued x);;
  (* remove flow from queue *)
  Tree_Remove qflow;;
  update qflow (set_queued false);;
  (* schedule send *)
  emit (OutputSend (queued_data x));;
  mmodify (set_sending (Some qflow) (zlen (queued_data x))).

Definition schedule_job_handler : IO unit :=
  o ← mget;
  ASSERT (negb (bool_decide (is_Some (sending_flow o))));;
  ASSERT (negb (freeing o));;
  (* remove previous flow *)
  mmodify (set_previous None);;
  when (negb (Tree_IsEmpty o)) schedule.

Definition input_handler_send (f : Z) (data : list Z) : IO unit :=
  o ← mget;
  x ← get f;
  ASSERT (negb (bool_decide (sending_flow o = Some f)));;
  ASSERT (negb (is_queued x));;
  ASSERT (negb (freeing o));;
  (if bool_decide (previous_flow o = Some f) then
     (* remove from previous flow *)
     mmodify (set_previous None)
   else
     (* raise time *)
     now ← get_current_time;
     update f (set_time (bmax_uint64 (time x) now)));;
  (* queue flow *)
  update f (set_data data);;
  o ← mget;
  (match tree_insert (time_of o) f (queued_tree o) with
   | Some l => mmodify (set_tree l)
   | None => ASSERT false          (* ASSERT_EXECUTE *)
   end);;
  update f (set_queued true);;
  when (negb (bool_decide (is_Some (sending_flow o))) && negb (schedule_job o)) schedule.

Definition output_handler_done : IO unit :=
  o ← mget;
  ASSERT (bool_decide (is_Some (sending_flow o)));;
  ASSERT (negb (bool_decide (is_Some (previous_flow o))));;
  ASSERT (negb (schedule_job o));;
  ASSERT (negb (freeing o));;
  f ← mlift (sending_flow o);
  x ← get f;
  ASSERT (negb (is_queued x));;
  (* sending finished *)
  mmodify (set_sending None (sending_len o));;
  (* remember this flow *)
  mmodify (set_previous (Some f));;
  (* update flow time by packet size *)
  increment_sent_flow f (u64 (packet_weight o + sending_len o));;
  (* schedule schedule *)
  mmodify (set_job true);;
  (* finish flow packet *)
  emit (InputDone f);;
  (* call busy handler if set: it is one-shot *)
  x ← get f;
  when (handler_busy x) (update f (set_busy false);; emit (HandlerBusy f)).

(** ** Initialization and freeing *)

(** [None]: the output's MTU is too large. *)
Definition Init (out_mtu : Z) (cancel : bool) (weight : Z) : option (t * list event) :=
  if (out_mtu <=? FAIRQUEUE_MAX_TIME) && (weight <=? FAIRQUEUE_MAX_TIME - out_mtu) then
    Some (mk out_mtu cancel weight None 0 None [] [] ∅ false false, [OutputInit])
  else None.

Definition Free : IO unit :=
  o ← mget;
  ASSERT (bool_decide (flows_list o = []));;
  ASSERT (Tree_IsEmpty o);;
  ASSERT (negb (bool_decide (is_Some (previous_flow o))));;
  ASSERT (negb (bool_decide (is_Some (sending_flow o))));;
  (* free schedule job *)
  mmodify (set_job false).

Definition PrepareFree : IO unit := mmodify set_freeing.

Definition GetMTU : IO Z := gets mtu.

Definition Flow_Init (f : Z) : IO unit :=
  o ← mget;
  ASSERT (negb (freeing o));;
  emit (InputInit f);;
  mmodify (λ o, set_flows (flows_list o ++ [f]) (<[f := mk_flow 0 false [] false]> (flows o)) o).

Definition Flow_Free (f : Z) : IO unit :=
  o ← mget;
  x ← get f;
  ASSERT (freeing o || negb (bool_decide (sending_flow o = Some f)));;
  (* remove from current flow *)
  when (bool_decide (sending_flow o = Some f)) (mmodify (set_sending None (sending_len o)));;
  (* remove from previous flow *)
  when (bool_decide (previous_flow o = Some f)) (mmodify (set_previous None));;
  (* remove from queue *)
  when (is_queued x) (Tree_Remove f);;
  (* remove from flows list *)
  mmodify (λ o, set_flows (List.filter (λ y, negb (y =? f)) (flows_list o)) (delete f (flows o)) o);;
  (* free input *)
  emit (InputFree f).

Definition Flow_IsBusy (f : Z) : IO bool :=
  o ← mget;
  ASSERT (negb (freeing o));;
  mret (bool_decide (sending_flow o = Some f)).

Definition Flow_RequestCancel (f : Z) : IO unit :=
  o ← mget;
  ASSERT (bool_decide (sending_flow o = Some f));;
  ASSERT (use_cancel o);;
  ASSERT (negb (freeing o));;
  ASSERT (negb (schedule_job o));;
  emit OutputCancel.

Definition Flow_SetBusyHandler (f : Z) (handler : bool) : IO unit :=
  o ← mget;
  ASSERT (bool_decide (sending_flow o = Some f));;
  ASSERT (negb (freeing o));;
  update f (set_busy handler).

(** ** The order of flows *)

Definition flow_lt (times : Z → Z) (f1 f2 : Z) : Prop := compare_flows times f1 f2 < 0.

Lemma flow_lt_iff times f1 f2 :
  flow_lt times f1 f2 ↔ times f1 < times f2 ∨ times f1 = times f2 ∧ f1 < f2.
Proof.
  unfold flow_lt, compare_flows. pose proof (B_COMPARE_spec (times f1) (times f2)).
  pose proof (B_COMPARE_spec f1 f2). destruct (Z.eqb_spec (B_COMPARE (times f1) (times f2)) 0); cbn; lia.
Qed.

Lemma compare_flows_zero times f1 f2 : compare_flows times f1 f2 = 0 ↔ f1 = f2.
Proof.
  unfold compare_flows. pose proof (B_COMPARE_spec (times f1) (times f2)).
  pose proof (B_COMPARE_spec f1 f2).
  destruct (Z.eqb_spec (B_COMPARE (times f1) (times f2)) 0); cbn; split; intros; subst; lia.
Qed.

Lemma compare_flows_pos times f1 f2 : 0 < compare_flows times f1 f2 → flow_lt times f2 f1.
Proof.
  rewrite flow_lt_iff. unfold compare_flows. pose proof (B_COMPARE_spec (times f1) (times f2)).
  pose proof (B_COMPARE_spec f1 f2). destruct (Z.eqb_spec (B_COMPARE (times f1) (times f2)) 0); cbn; lia.
Qed.

Lemma tree_insert_spec times f l :
  StronglySorted (flow_lt times) l → f ∉ l →
  ∃ l', tree_insert times f l = Some l' ∧ StronglySorted (flow_lt times) l' ∧ l' ≡ₚ f :: l.
Proof.
  induction l as [|x l IH]; intros Hs Hf; cbn [tree_insert].
  { exists [f]. split_and!; [done|repeat constructor|done]. }
  apply StronglySorted_inv in Hs as [Hs Hx].
  destruct (Z.eqb_spec (compare_flows times f x) 0) as [He|Hne].
  { apply compare_flows_zero in He as ->. set_solver. }
  destruct (Z.ltb_spec (compare_flows times f x) 0) as [Hlt|Hge].
  - exists (f :: x :: l). split_and!; [done| |done].
    constructor; [by constructor|]. constructor; [done|].
    eapply Forall_impl; [exact Hx|]. intros y Hy. fold (flow_lt times f x) in Hlt.
    rewrite !flow_lt_iff in *. lia.
  - destruct IH as (l' & -> & Hs' & Hp); [done|set_solver|].
    exists (x :: l'). split_and!; [done| |by rewrite Hp; apply Permutation_swap].
    constructor; [done|]. rewrite Hp. constructor; [|done]. apply compare_flows_pos. lia.
Qed.

(** The order depends on the differences of times only. *)
Lemma sorted_shift times times' l c :
  StronglySorted (flow_lt times) l → (∀ f, f ∈ l → times' f = times f - c) → StronglySorted (flow_lt times') l.
Proof.
  induction 1 as [|x l Hs IH Hx]; intros Ht; constructor.
  - apply IH. set_solver.
  - rewrite Forall_forall in *. intros y Hy. specialize (Hx y Hy).
    rewrite flow_lt_iff in *. rewrite !Ht by set_solver. lia.
Qed.

(** ** Subtracting time *)

(** What the loop does to one flow. *)
Definition subtracted (f subtract g : Z) (x : flow) : flow :=
  if (time x <? subtract) && negb (g =? f) then set_time 0 x else set_time (u64 (time x - subtract)) x.

Lemma wp_get_flow f x o (Q : flow → t → list event → Prop) :
  flows o !! f = Some x → Q x o [] → wp (get f) o Q.
Proof. intros Hf HQ. unfold get. wp_step. wp_step. unfold wp, mlift. by rewrite Hf. Qed.

Lemma wp_update f g x o (Q : unit → t → list event → Prop) :
  flows o !! f = Some x → Q tt (set_flows (flows_list o) (<[f := g x]> (flows o)) o) [] → wp (update f g) o Q.
Proof. intros Hf HQ. unfold update. wp_step. eapply wp_get_flow; [exact Hf|]. wp_step. done. Qed.

Lemma set_flows_flows l m o : flows (set_flows l m o) = m.
Proof. done. Qed.

Lemma subtract_loop_ok f subtract l o :
  NoDup l → (∀ g, g ∈ l → is_Some (flows o !! g)) →
  (∀ g x, g ∈ l → flows o !! g = Some x → is_queued x = true → subtract ≤ time x) →
  wp (subtract_loop f subtract l) o (λ _ o' es, es = [] ∧ ∃ m,
    o' = set_flows (flows_list o) m o ∧
    ∀ g, m !! g = if bool_decide (g ∈ l) then subtracted f subtract g <$> flows o !! g else flows o !! g).
Proof.
  revert o. induction l as [|y l IH]; intros o Hnd Hin Hq; cbn [subtract_loop].
  { wp_step. split; [done|]. exists (flows o). split; [by destruct o|]. done. }
  apply NoDup_cons in Hnd as [Hy Hnd]. destruct (Hin y) as [x Hx]; [set_solver|].
  wp_step. eapply wp_get_flow; [exact Hx|]. wp_step.
  apply (wp_mono _ _ (λ _ o' es, es = [] ∧
    o' = set_flows (flows_list o) (<[y := subtracted f subtract y x]> (flows o)) o)).
  { unfold subtracted. wp_step; match goal with Hc : _ = ?b |- _ => rewrite Hc end.
    - wp_step. wp_step; [|by eapply wp_update].
      bool_props. destruct (is_queued x) eqn:Hqx; [|done]. specialize (Hq y x ltac:(set_solver) Hx Hqx). lia.
    - by eapply wp_update. }
  intros _ ? ? [-> ->]. cbn [app]. eapply wp_mono; [apply IH|]; rewrite ?set_flows_flows.
  - done.
  - intros g Hg. rewrite lookup_insert_ne by set_solver. apply Hin. set_solver.
  - intros g z Hg Hz Hqz. rewrite lookup_insert_ne in Hz by set_solver. apply (Hq g); [set_solver|done|done].
  - cbn beta. intros _ o' es (-> & m & -> & Hm). split; [done|]. exists m. split; [done|].
    intros g. rewrite Hm. destruct (decide (g = y)) as [->|Hne].
    + rewrite bool_decide_false, bool_decide_true, lookup_insert_eq, Hx by set_solver. done.
    + rewrite lookup_insert_ne by done.
      destruct (decide (g ∈ l)).
      * by rewrite !bool_decide_true by set_solver.
      * by rewrite !bool_decide_false by set_solver.
Qed.

(** ** The invariant of the data *)

Definition tree_ok (o : t) : Prop :=
  (∀ f, f ∈ queued_tree o ↔ ∃ x, flows o !! f = Some x ∧ is_queued x = true) ∧
  StronglySorted (flow_lt (time_of o)) (queued_tree o) ∧
  NoDup (flows_list o) ∧ (∀ f, f ∈ flows_list o ↔ is_Some (flows o !! f)) ∧
  (∀ f x, flows o !! f = Some x → 0 ≤ time x ≤ FAIRQUEUE_MAX_TIME) ∧
  0 < packet_weight o ∧ 0 ≤ mtu o ∧ packet_weight o + mtu o ≤ FAIRQUEUE_MAX_TIME.

(** The first flow of the tree has the least time of all that are queued. *)
Lemma first_least o f q :
  tree_ok o → Tree_GetFirst o = Some f → q ∈ queued_tree o → time_of o f ≤ time_of o q.
Proof.
  intros (_ & Hs & _) Hf Hq. unfold Tree_GetFirst in Hf. destruct (queued_tree o) as [|y l]; [done|].
  injection Hf as ->. apply StronglySorted_inv in Hs as [_ Hs]. rewrite Forall_forall in Hs.
  apply elem_of_cons in Hq as [->|Hq]; [done|]. apply Hs in Hq. rewrite flow_lt_iff in Hq. lia.
Qed.

Lemma first_in o f : Tree_GetFirst o = Some f → f ∈ queued_tree o.
Proof. unfold Tree_GetFirst. destruct (queued_tree o); [done|]. intros [= ->]. constructor. Qed.

Lemma time_of_Some o f x : flows o !! f = Some x → time_of o f = time x.
Proof. unfold time_of. by intros ->. Qed.

(** Flow [f] sent [amount]; [s] was subtracted from all times. *)
Definition incremented (o o' : t) (f amount s : Z) : Prop :=
  ∃ m, o' = set_flows (flows_list o) m o ∧
    (∀ x, flows o !! f = Some x →
       m !! f = Some (set_time (time x + amount - s) x) ∧ 0 ≤ time x + amount - s ≤ FAIRQUEUE_MAX_TIME) ∧
    (∀ g, g ≠ f → m !! g = (λ x, set_time (Z.max 0 (time x - s)) x) <$> flows o !! g) ∧
    (∀ g x, g ≠ f → flows o !! g = Some x → is_queued x = true → s ≤ time x) ∧
    0 ≤ s.

Lemma u64_small x : 0 ≤ x ≤ UINT64_MAX → u64 x = x.
Proof. unfold UINT64_MAX. intros. unfold u64. apply Z.mod_small. lia. Qed.

Lemma u64_sub_add a b c : u64 (u64 (a - b) + c) = u64 (a + c - b).
Proof. unfold u64. rewrite Zplus_mod_idemp_l. f_equal. lia. Qed.

Lemma increment_ok o f x amount :
  tree_ok o → flows o !! f = Some x → is_queued x = false → sending_flow o = None →
  0 ≤ amount ≤ FAIRQUEUE_MAX_TIME → (∀ q, q ∈ queued_tree o → time x ≤ time_of o q) →
  wp (increment_sent_flow f amount) o (λ _ o' es, es = [] ∧ ∃ s, incremented o o' f amount s).
Proof.
  intros Hok Hf Hq Hs Ha Hmin. pose proof Hok as (Htr & _ & Hnd & Hfl & Htm & _).
  pose proof (Htm f x Hf) as Hx. unfold increment_sent_flow.
  wp_step. wp_step; [apply Z.leb_le; lia|]. wp_step. eapply wp_get_flow; [exact Hf|].
  wp_step. wp_step; [by rewrite Hq|]. wp_step. wp_step. wp_step. wp_step; [by rewrite Hs|].
  wp_step. rewrite u64_small by (unfold FAIRQUEUE_MAX_TIME in *; lia).
  wp_step; bool_props.
  - wp_step. apply (wp_mono _ _ (λ s o' es, es = [] ∧ o' = o ∧ time x ≤ s ≤ FAIRQUEUE_MAX_TIME ∧
       ∀ g y, flows o !! g = Some y → is_queued y = true → s ≤ time y)).
    { destruct (Tree_GetFirst o) as [g|] eqn:Hg.
      - pose proof (first_in o g Hg) as Hin. destruct (proj1 (Htr g) Hin) as (y & Hy & Hyq).
        wp_step. eapply wp_get_flow; [exact Hy|]. wp_step. wp_step; [done|]. wp_step.
        rewrite <- (time_of_Some o g y Hy). split_and!; try done; [by apply Hmin| |].
        + rewrite (time_of_Some o g y Hy). pose proof (Htm g y Hy). lia.
        + intros k z Hz Hzq. rewrite <- (time_of_Some o k z Hz). apply first_least; [done|done|].
          apply Htr. eauto.
      - wp_step. split_and!; try done; try lia. intros k z Hz Hzq. exfalso.
        assert (k ∈ queued_tree o) as Hk by (apply Htr; eauto).
        unfold Tree_GetFirst in Hg. destruct (queued_tree o); [set_solver|done]. }
    intros s ? ? (-> & -> & Hsx & Hsq). cbn [app]. eapply wp_mono.
    { apply subtract_loop_ok; [done|intros g Hg; by apply Hfl|naive_solver]. }
    cbn beta. intros _ o' es (-> & m & -> & Hm).
    assert (∀ g, m !! g = subtracted f s g <$> flows o !! g) as Hm'.
    { intros g. rewrite Hm. destruct (decide (g ∈ flows_list o)) as [?|Hng]; [by rewrite bool_decide_true|].
      rewrite bool_decide_false by done. destruct (flows o !! g) eqn:Hg; [|done].
      exfalso. apply Hng, Hfl. by rewrite Hg. }
    clear Hm. assert (m !! f = Some (set_time (u64 (time x - s)) x)) as Hmf.
    { rewrite Hm', Hf. cbn. unfold subtracted. by rewrite Z.eqb_refl, andb_false_r. }
    eapply wp_update; [exact Hmf|]. cbn [app]. split; [done|]. exists s. eexists. split; [done|].
    split_and!; [| | |lia].
    + intros x' Hx'. rewrite Hf in Hx'. injection Hx' as <-. rewrite ?set_flows_flows, lookup_insert_eq.
      split; [|lia]. unfold set_time. cbn [time is_queued queued_data handler_busy]. do 2 f_equal.
      rewrite u64_sub_add. apply u64_small.
      unfold FAIRQUEUE_MAX_TIME in *. lia.
    + intros g Hne. rewrite ?set_flows_flows, lookup_insert_ne, Hm' by done.
      destruct (flows o !! g) as [y|] eqn:Hg; [|done]. cbn. f_equal. unfold subtracted.
      rewrite (proj2 (Z.eqb_neq g f)) by done. cbn [negb]. rewrite andb_true_r.
      pose proof (Htm g y Hg) as Hy.
      destruct (Z.ltb_spec (time y) s); f_equal; [lia|]. rewrite u64_small; [lia|].
      unfold FAIRQUEUE_MAX_TIME in *. lia.
    + intros g y Hne Hy Hyq. by apply (Hsq g y).
  - eapply wp_update; [exact Hf|]. cbn [app]. split; [done|]. exists 0. eexists. split; [done|].
    split_and!; [| | |lia].
    + intros x' Hx'. rewrite Hf in Hx'. injection Hx' as <-. rewrite ?set_flows_flows, lookup_insert_eq.
      split; [|lia]. do 2 f_equal. rewrite u64_small; [lia|]. unfold FAIRQUEUE_MAX_TIME in *. lia.
    + intros g Hne. rewrite ?set_flows_flows, lookup_insert_ne by done.
      destruct (flows o !! g) as [y|] eqn:Hg; [|done]. cbn. f_equal. destruct y as [ty qy dy by_].
      unfold set_time; cbn. f_equal. pose proof (Htm g _ Hg) as Hy. cbn in Hy. lia.
    + intros g y Hne Hy Hyq. pose proof (Htm g y Hy). lia.
Qed.

(** ** The queue and what surrounds it

    [out] is the packet the output is working on, [inprog] the packets flows
    have submitted and not had back; the packet the output has just [finished]
    must be the one that the flow reported as done has submitted. *)
Record env := mkenv {
  out : option (list Z);
  finished : option (list Z);
  inprog : gmap Z (list Z);
  log : list (Z * list Z)
}.

Definition apply_event (v : env) (e : event) : option env :=
  match e with
  | OutputInit => Some v
  | OutputSend d =>
      match out v with None => Some (mkenv (Some d) (finished v) (inprog v) (log v)) | Some _ => None end
  | OutputCancel => match out v with Some _ => Some v | None => None end
  | InputInit f => match inprog v !! f with None => Some v | Some _ => None end
  | InputFree f => Some (mkenv (out v) (finished v) (delete f (inprog v)) (log v))
  | InputDone f =>
      match inprog v !! f, finished v with
      | Some d, Some d' =>
          if bool_decide (d = d') then Some (mkenv (out v) None (delete f (inprog v)) (log v ++ [(f, d)])) else None
      | _, _ => None
      end
  | HandlerBusy _ => Some v
  end.

Inductive action :=
| AInput (f : Z) (d : list Z)       (** a flow submits a packet *)
| AOutputDone                       (** the output finishes the packet *)
| AJob                              (** the schedule job runs *)
| AFlowInit (f : Z) | AFlowFree (f : Z)
| ASetBusyHandler (f : Z) (handler : bool)
| ARequestCancel (f : Z)
| APrepareFree.

(** What the interface's documentation allows: a flow has one packet in
    progress; a flow that is sending is not freed unless the queue is; after
    [PrepareFree] flows are only freed. *)
Definition allowed (o : t) (v : env) (a : action) : Prop :=
  match a with
  | AInput f d => freeing o = false ∧ is_Some (flows o !! f) ∧ inprog v !! f = None ∧ zlen d ≤ mtu o
  | AOutputDone => freeing o = false ∧ is_Some (out v)
  | AJob => freeing o = false ∧ schedule_job o = true
  | AFlowInit f => freeing o = false ∧ flows o !! f = None ∧ inprog v !! f = None
  | AFlowFree f => is_Some (flows o !! f) ∧ (freeing o = true ∨ sending_flow o ≠ Some f)
  | ASetBusyHandler f _ => freeing o = false ∧ sending_flow o = Some f
  | ARequestCancel f => freeing o = false ∧ sending_flow o = Some f ∧ use_cancel o = true
  | APrepareFree => True
  end.

Definition run {A} (m : IO A) (o : t) (v : env) : option (t * env) :=
  '(_, o', es) ← m o; v' ← replay apply_event v es; Some (o', v').

Definition act (o : t) (v : env) (a : action) : option (t * env) :=
  match a with
  | AInput f d => run (input_handler_send f d) o (mkenv (out v) (finished v) (<[f := d]> (inprog v)) (log v))
  | AOutputDone => run output_handler_done o (mkenv None (out v) (inprog v) (log v))
  | AJob => run schedule_job_handler (set_job false o) v
  | AFlowInit f => run (Flow_Init f) o v
  | AFlowFree f => run (Flow_Free f) o v
  | ASetBusyHandler f h => run (Flow_SetBusyHandler f h) o v
  | ARequestCancel f => run (Flow_RequestCancel f) o v
  | APrepareFree => run PrepareFree o v
  end.

Inductive reach : t → env → Prop :=
| reach_init m c w o es :
    0 ≤ m → 0 < w → Init m c w = Some (o, es) → reach o (mkenv None None ∅ [])
| reach_act o v a o' v' : reach o v → allowed o v a → act o v a = Some (o', v') → reach o' v'.

(** ** The invariant *)

(** Every queued flow's packet is the one it submitted. *)
Definition data_ok (o : t) (v : env) : Prop :=
  ∀ f x, flows o !! f = Some x → is_queued x = true →
    inprog v !! f = Some (queued_data x) ∧ zlen (queued_data x) ≤ mtu o.

Definition run_ok (o : t) (v : env) : Prop :=
  finished v = None ∧
  (∀ f d, inprog v !! f = Some d → sending_flow o = Some f ∨ f ∈ queued_tree o) ∧
  match sending_flow o with
  | Some f => ∃ x d, flows o !! f = Some x ∧ is_queued x = false ∧ out v = Some d ∧ inprog v !! f = Some d ∧
      sending_len o = zlen d ∧ zlen d ≤ mtu o ∧ previous_flow o = None ∧ schedule_job o = false ∧
      ∀ q, q ∈ queued_tree o → time x ≤ time_of o q
  | None => out v = None ∧ (schedule_job o = false → queued_tree o = [] ∧ previous_flow o = None) ∧
      ∀ f, previous_flow o = Some f → ∃ x, flows o !! f = Some x ∧ is_queued x = false
  end.

Definition Inv (o : t) (v : env) : Prop :=
  tree_ok o ∧ data_ok o v ∧ (freeing o = false → run_ok o v).

(** ** Fairness *)

(** Flows whose time counts: those with a packet in the queue, and the one that
    has just sent, until the schedule job runs. *)
Definition backlogged (o : t) (g : Z) : Prop :=
  sending_flow o = Some g ∨ previous_flow o = Some g ∨ g ∈ queued_tree o.

Definition backlogged_only (o : t) (f : Z) : Prop := ∀ g, backlogged o g → g = f ∨ g ∈ queued_tree o.

(** What flow [f] has had sent, in units of time. *)
Definition served (weight f : Z) (l : list (Z * list Z)) : Z :=
  foldr (λ '(g, d) n, if g =? f then weight + zlen d + n else n) 0 l.

Definition lead (o : t) (f g : Z) : Z := time_of o f - time_of o g.

(** No flow gets ahead of a backlogged one by more than one packet, and what
    one is served more than the other counts fully in their times. *)
Definition fair (o : t) (v : env) (o' : t) (v' : env) : Prop :=
  packet_weight o' = packet_weight o ∧ mtu o' = mtu o ∧
  ∀ f g, is_Some (flows o !! f) → is_Some (flows o' !! f) → is_Some (flows o !! g) → is_Some (flows o' !! g) →
    backlogged o g →
    lead o' f g ≤ Z.max (lead o f g) (packet_weight o + mtu o) ∧
    lead o f g - (served (packet_weight o) f (log v) - served (packet_weight o) g (log v)) ≤
    lead o' f g - (served (packet_weight o) f (log v') - served (packet_weight o) g (log v')).

Definition same_times (o : t) (v : env) (o' : t) (v' : env) : Prop :=
  packet_weight o' = packet_weight o ∧ mtu o' = mtu o ∧ log v' = log v ∧ ∀ g, time_of o' g = time_of o g.

Lemma same_times_fair o v o' v' : same_times o v o' v' → fair o v o' v'.
Proof. intros (Hw & Hm & Hl & Ht). split_and!; try done. intros f g _ _ _ _ _. unfold lead. rewrite !Ht, Hl. lia. Qed.

Lemma served_app w f l1 l2 : served w f (l1 ++ l2) = served w f l1 + served w f l2.
Proof. induction l1 as [|[g d] l1 IH]; cbn; [done|]. fold (served w f (l1 ++ l2)). rewrite IH. case_match; fold (served w f l1); lia. Qed.

(** ** Lemmas on the tree *)

Lemma sorted_filter {A} (R : A → A → Prop) p l : StronglySorted R l → StronglySorted R (List.filter p l).
Proof.
  induction 1 as [|x l Hs IH Hx]; cbn; [constructor|]. destruct (p x); [|done].
  constructor; [done|]. rewrite Forall_forall in *. intros y Hy. apply Hx.
  rewrite list_elem_of_In, filter_In in Hy. apply list_elem_of_In. by destruct Hy.
Qed.

Lemma elem_filter_ne (f g : Z) l : g ∈ List.filter (λ y, negb (y =? f)) l ↔ g ∈ l ∧ g ≠ f.
Proof.
  rewrite !list_elem_of_In, filter_In. rewrite negb_true_iff, Z.eqb_neq. done.
Qed.

Lemma tree_not_queued o f x :
  tree_ok o → flows o !! f = Some x → is_queued x = false → f ∉ queued_tree o.
Proof. intros (Htr & _) Hf Hq Hin. apply Htr in Hin as (y & Hy & Hyq). congruence. Qed.

(** An update of one flow that keeps its time and its place in the queue. *)
Lemma tree_ok_update o f x g :
  tree_ok o → flows o !! f = Some x → time (g x) = time x → is_queued (g x) = is_queued x →
  tree_ok (set_flows (flows_list o) (<[f := g x]> (flows o)) o).
Proof.
  intros (Htr & Hs & Hnd & Hfl & Htm & Hc) Hf Ht Hq. unfold tree_ok; cbn.
  assert (∀ k, time_of (set_flows (flows_list o) (<[f := g x]> (flows o)) o) k = time_of o k) as Hto.
  { intros k. unfold time_of; cbn. destruct (decide (k = f)) as [->|Hne].
    - by rewrite lookup_insert_eq, Hf.
    - by rewrite lookup_insert_ne. }
  split_and!; try done; try lia.
  - intros k. rewrite Htr. destruct (decide (k = f)) as [->|Hne].
    + rewrite lookup_insert_eq, Hf. split; intros (y & [= <-] & Hy); eexists; (split; [done|congruence]).
    + by rewrite lookup_insert_ne.
  - eapply (sorted_shift _ _ _ 0); [exact Hs|]. intros k _. rewrite Hto. lia.
  - intros k. rewrite Hfl. destruct (decide (k = f)) as [->|Hne].
    + rewrite lookup_insert_eq, Hf. by split.
    + by rewrite lookup_insert_ne.
  - intros k y Hy. destruct (decide (k = f)) as [->|Hne].
    + rewrite lookup_insert_eq in Hy. injection Hy as <-. rewrite Ht. by apply (Htm f).
    + rewrite lookup_insert_ne in Hy by done. by apply (Htm k).
Qed.

(** ** The handlers keep the invariant *)

Lemma wpe_get_flow f x o v (Q : flow → t → env → Prop) :
  flows o !! f = Some x → Q x o v → wpe apply_event (get f) o v Q.
Proof. intros. apply wpe_pure. by eapply wp_get_flow. Qed.

Lemma wpe_update f g x o v (Q : unit → t → env → Prop) :
  flows o !! f = Some x → Q tt (set_flows (flows_list o) (<[f := g x]> (flows o)) o) v →
  wpe apply_event (update f g) o v Q.
Proof. intros. apply wpe_pure. by eapply wp_update. Qed.

Lemma wpe_lift {A} (m : option A) a o v (Q : A → t → env → Prop) :
  m = Some a → Q a o v → wpe apply_event (mlift m) o v Q.
Proof. intros -> HQ. apply wpe_pure. by unfold wp, mlift. Qed.

(** Removing a flow from the tree. *)
Lemma tree_ok_remove o f x :
  tree_ok o → flows o !! f = Some x →
  tree_ok (set_flows (flows_list o) (<[f := set_queued false x]> (flows o))
    (set_tree (List.filter (λ y, negb (y =? f)) (queued_tree o)) o)).
Proof.
  intros (Htr & Hs & Hnd & Hfl & Htm & Hc) Hf. unfold tree_ok; cbn.
  split_and!; try done; try lia.
  - intros k. rewrite elem_filter_ne, Htr. destruct (decide (k = f)) as [->|Hne].
    + rewrite lookup_insert_eq. split; [naive_solver|]. intros (y & [= <-] & Hy). done.
    + rewrite lookup_insert_ne by done. naive_solver.
  - eapply (sorted_shift (time_of o) _ _ 0); [by apply sorted_filter|].
    intros k Hk. apply elem_filter_ne in Hk as [_ Hk]. unfold time_of; cbn. rewrite lookup_insert_ne by done. lia.
  - intros k. rewrite Hfl. destruct (decide (k = f)) as [->|Hne].
    + rewrite lookup_insert_eq, Hf. by split.
    + by rewrite lookup_insert_ne.
  - intros k y Hy. destruct (decide (k = f)) as [->|Hne].
    + rewrite lookup_insert_eq in Hy. injection Hy as <-. exact (Htm f x Hf).
    + rewrite lookup_insert_ne in Hy by done. by apply (Htm k).
Qed.

Lemma schedule_ok o v :
  tree_ok o → data_ok o v → freeing o = false → sending_flow o = None → previous_flow o = None →
  schedule_job o = false → queued_tree o ≠ [] → out v = None → finished v = None →
  (∀ f d, inprog v !! f = Some d → f ∈ queued_tree o) →
  wpe apply_event schedule o v (λ _ o' v', Inv o' v' ∧ same_times o v o' v').
Proof.
  intros Hok Hda Hfr Hse Hpr Hjob Hne Hout Hfin Hin. unfold schedule.
  assert (∃ f, Tree_GetFirst o = Some f) as [f Hf].
  { unfold Tree_GetFirst. destruct (queued_tree o); [done|]. eauto. }
  pose proof (first_in o f Hf) as Hft. destruct (proj1 (proj1 Hok f) Hft) as (x & Hx & Hxq).
  destruct (Hda f x Hx Hxq) as [Hxd Hxl].
  wpe_step. wpe_step. do 4 (wpe_step; wpe_step; [rewrite ?Hse, ?Hpr, ?Hfr; unfold Tree_IsEmpty; by destruct (queued_tree o)|]).
  wpe_step. eapply wpe_lift; [exact Hf|]. wpe_step. eapply wpe_get_flow; [exact Hx|].
  wpe_step. wpe_step; [done|]. unfold Tree_Remove. wpe_step. wpe_step.
  wpe_step. eapply wpe_update; [exact Hx|]. wpe_step.
  eapply wpe_emit; [cbn; by rewrite Hout|]. wpe_step.
  pose proof (tree_ok_remove o f x Hok Hx) as Hok'. split.
  2: { split_and!; try done. intros g. unfold time_of; cbn. destruct (decide (g = f)) as [->|Hg].
       - by rewrite lookup_insert_eq, Hx.
       - by rewrite lookup_insert_ne. }
  split; [exact Hok'|]. split.
  - intros k y Hy Hyq. cbn in Hy |- *. destruct (decide (k = f)) as [->|Hkf].
    + rewrite lookup_insert_eq in Hy. injection Hy as <-. done.
    + rewrite lookup_insert_ne in Hy by done. by apply Hda.
  - intros _. unfold run_ok. cbn. split_and!; [done| |].
    + intros k d Hk. destruct (decide (k = f)) as [->|Hkf]; [by left|]. right.
      apply elem_filter_ne. split; [by eapply Hin|done].
    + eexists _, _. rewrite lookup_insert_eq. split_and!; try done.
      intros q Hq. apply elem_filter_ne in Hq as [Hq Hqf].
      pose proof (first_least o f q Hok Hf Hq) as Hle. rewrite (time_of_Some o f x Hx) in Hle.
      unfold time_of in *; cbn. by rewrite lookup_insert_ne.
Qed.

Lemma job_ok o v :
  Inv o v → freeing o = false → schedule_job o = true →
  wpe apply_event schedule_job_handler (set_job false o) v (λ _ o' v', Inv o' v' ∧ same_times o v o' v').
Proof.
  intros (Hok & Hda & Hrun) Hfr Hjob. destruct (Hrun Hfr) as (Hfin & Hin & Hst).
  destruct (sending_flow o) as [s|] eqn:Hse.
  { destruct Hst as (x & d & _ & _ & _ & _ & _ & _ & _ & Hj & _). congruence. }
  destruct Hst as (Hout & _ & Hprev).
  unfold schedule_job_handler. wpe_step. wpe_step.
  do 2 (wpe_step; wpe_step; [cbn; by rewrite ?Hse, ?Hfr|]). wpe_step. wpe_step.
  assert (∀ f d, inprog v !! f = Some d → f ∈ queued_tree o) as Hin'.
  { intros f d Hd. destruct (Hin f d Hd); [done|done]. }
  wpe_step.
  - eapply wpe_mono; [apply schedule_ok; cbn; try done|cbn beta; intros _ o' v' [HI Ht]; split; [done|exact Ht]].
    unfold Tree_IsEmpty in *. cbn in *. by destruct (queued_tree o).
  - assert (queued_tree o = []) as Hte.
    { unfold Tree_IsEmpty in *. cbn in *. by destruct (queued_tree o). }
    split; [|done].
    split; [exact Hok|]. split; [exact Hda|]. intros _. unfold run_ok. cbn. rewrite Hse.
    split_and!; done.
Qed.

(** Queueing a flow whose time is set. *)
Lemma tree_ok_insert o f x l d :
  tree_ok o → flows o !! f = Some x → is_queued x = false →
  tree_insert (time_of o) f (queued_tree o) = Some l →
  tree_ok (set_flows (flows_list o) (<[f := set_queued true (set_data d x)]> (flows o)) (set_tree l o)) ∧
  l ≡ₚ f :: queued_tree o.
Proof.
  intros Hok Hf Hq Hl. pose proof Hok as (Htr & Hs & Hnd & Hfl & Htm & Hc).
  destruct (tree_insert_spec (time_of o) f (queued_tree o) Hs (tree_not_queued o f x Hok Hf Hq)) as (l' & Hl' & Hs' & Hp).
  rewrite Hl in Hl'. injection Hl' as <-. split; [|done]. unfold tree_ok; cbn. split_and!; try done; try lia.
  - intros k. rewrite Hp, elem_of_cons, Htr. destruct (decide (k = f)) as [->|Hne].
    + rewrite lookup_insert_eq. split; [eauto|by left].
    + rewrite lookup_insert_ne by done. naive_solver.
  - eapply (sorted_shift (time_of o) _ _ 0); [done|]. intros k _. unfold time_of; cbn.
    destruct (decide (k = f)) as [->|Hne]; [rewrite lookup_insert_eq, Hf; cbn; lia|].
    rewrite lookup_insert_ne by done. lia.
  - intros k. rewrite Hfl. destruct (decide (k = f)) as [->|Hne].
    + rewrite lookup_insert_eq, Hf. by split.
    + by rewrite lookup_insert_ne.
  - intros k y Hy. destruct (decide (k = f)) as [->|Hne].
    + rewrite lookup_insert_eq in Hy. injection Hy as <-. exact (Htm f x Hf).
    + rewrite lookup_insert_ne in Hy by done. by apply (Htm k).
Qed.

(** A flow that is not queued may have its time changed. *)
Lemma tree_ok_time o f x y :
  tree_ok o → flows o !! f = Some x → is_queued x = false → 0 ≤ y ≤ FAIRQUEUE_MAX_TIME →
  tree_ok (set_flows (flows_list o) (<[f := set_time y x]> (flows o)) o).
Proof.
  intros Hok Hf Hq Hy. pose proof (tree_not_queued o f x Hok Hf Hq) as Hnt.
  destruct Hok as (Htr & Hs & Hnd & Hfl & Htm & Hc). unfold tree_ok; cbn. split_and!; try done; try lia.
  - intros k. rewrite Htr. destruct (decide (k = f)) as [->|Hne].
    + rewrite lookup_insert_eq, Hf. split; intros (z & [= <-] & Hz); eexists; (split; [done|exact Hz]).
    + by rewrite lookup_insert_ne.
  - eapply (sorted_shift (time_of o) _ _ 0); [done|]. intros k Hk. unfold time_of; cbn.
    rewrite lookup_insert_ne by (intros ->; done). lia.
  - intros k. rewrite Hfl. destruct (decide (k = f)) as [->|Hne].
    + rewrite lookup_insert_eq, Hf. by split.
    + by rewrite lookup_insert_ne.
  - intros k z Hz. destruct (decide (k = f)) as [->|Hne].
    + rewrite lookup_insert_eq in Hz. injection Hz as <-. done.
    + rewrite lookup_insert_ne in Hz by done. by apply (Htm k).
Qed.

(** The current time is that of the sending flow, or at most that of any
    queued flow. *)
Lemma current_time_ok o v :
  Inv o v → freeing o = false →
  wp get_current_time o (λ now o' es, es = [] ∧ o' = o ∧ 0 ≤ now ≤ FAIRQUEUE_MAX_TIME ∧
    (∀ s x, sending_flow o = Some s → flows o !! s = Some x → now = time x) ∧
    ∀ g, backlogged o g → now ≤ time_of o g).
Proof.
  intros (Hok & _ & Hrun) Hfr. destruct (Hrun Hfr) as (_ & _ & Hst).
  pose proof Hok as (Htr & _ & _ & _ & Htm & _).
  unfold get_current_time, backlogged. wp_step. wp_step. destruct (sending_flow o) as [s|] eqn:Hse.
  { destruct Hst as (x & d & Hx & _ & Hst). wp_step. eapply wp_get_flow; [exact Hx|]. wp_step.
    split_and!; try done; try (by apply (Htm s)). { intros ? ? [= <-] ?. congruence. }
    destruct Hst as (_ & _ & _ & _ & Hp & _ & Hmin). intros g [[= <-]|[?|Hg]]; [|congruence|by apply Hmin].
    rewrite (time_of_Some o s x Hx). done. }
  destruct Hst as (_ & _ & Hprev).
  wp_step. apply (wp_mono _ _ (λ r o' es, es = [] ∧ o' = o ∧ (∀ y, r = Some y → 0 ≤ y ≤ FAIRQUEUE_MAX_TIME) ∧
    ∀ g, g ∈ queued_tree o → ∃ y, r = Some y ∧ y ≤ time_of o g)).
  { destruct (Tree_GetFirst o) as [f|] eqn:Hf.
    2: { wp_step. split_and!; try done. intros g Hg. unfold Tree_GetFirst in Hf.
         destruct (queued_tree o); [set_solver|done]. }
    pose proof (first_in o f Hf) as Hin. apply Htr in Hin as (x & Hx & Hxq). wp_step. eapply wp_get_flow; [exact Hx|].
    wp_step. wp_step; [done|]. wp_step. split_and!; try done. { intros ? [= <-]. by apply (Htm f). }
    intros g Hg. eexists. split; [done|]. rewrite <- (time_of_Some o f x Hx). by apply first_least. }
  intros r ? ? (-> & -> & Hr & Hrq). wp_step.
  apply (wp_mono _ _ (λ r o' es, es = [] ∧ o' = o ∧ (∀ y, r = Some y → 0 ≤ y ≤ FAIRQUEUE_MAX_TIME) ∧
    ∀ g, previous_flow o = Some g → ∃ y, r = Some y ∧ y ≤ time_of o g)).
  { destruct (previous_flow o) as [f|]; [|by wp_step]. destruct (Hprev f eq_refl) as (x & Hx & _).
    wp_step. eapply wp_get_flow; [exact Hx|]. wp_step. split_and!; try done. { intros ? [= <-]. by apply (Htm f). }
    intros ? [= <-]. eexists. split; [done|]. by rewrite (time_of_Some o f x Hx). }
  intros r' ? ? (-> & -> & Hr' & Hrp). wp_step. split_and!; try done.
  3: { intros g [?|[Hg|Hg]]; [done| |]; [destruct (Hrp g Hg) as (y & -> & Hy)|destruct (Hrq g Hg) as (y & -> & Hy)];
       repeat case_match; bool_props; simplify_eq; lia. }
  all: destruct r as [a|], r' as [b|]; try (specialize (Hr a eq_refl)); try (specialize (Hr' b eq_refl));
    repeat case_match; unfold FAIRQUEUE_MAX_TIME, UINT64_MAX in *; lia.
Qed.

(** The first part of [input_handler_send]: the flow is ready to be queued. *)
Definition raised (o : t) (f : Z) (x' : flow) : Prop :=
  time_of o f ≤ time x' ∧ (∀ g, g ≠ f → backlogged o g → time x' ≤ Z.max (time_of o f) (time_of o g)) ∧
  (backlogged o f → time x' = time_of o f).

Definition ready (o o' : t) (f : Z) : Prop :=
  tree_ok o' ∧ (∃ x x', flows o !! f = Some x ∧ flows o' !! f = Some x' ∧ is_queued x' = false ∧
     (∀ s y, sending_flow o = Some s → flows o !! s = Some y → time y ≤ time x') ∧ raised o f x') ∧
  (∀ g, g ≠ f → flows o' !! g = flows o !! g) ∧
  queued_tree o' = queued_tree o ∧ sending_flow o' = sending_flow o ∧ sending_len o' = sending_len o ∧
  freeing o' = freeing o ∧ schedule_job o' = schedule_job o ∧ mtu o' = mtu o ∧
  packet_weight o' = packet_weight o ∧
  (previous_flow o' = previous_flow o ∧ previous_flow o ≠ Some f ∨ previous_flow o' = None).

Lemma input_ready o v f x (Q : unit → t → list event → Prop) :
  Inv o v → freeing o = false → flows o !! f = Some x → is_queued x = false → sending_flow o ≠ Some f →
  (∀ o', ready o o' f → Q tt o' []) →
  wp (if bool_decide (previous_flow o = Some f) then mmodify (set_previous None)
      else now ← get_current_time; update f (set_time (bmax_uint64 (time x) now))) o Q.
Proof.
  intros HI Hfr Hf Hq Hsf HQ. pose proof HI as (Hok & Hda & Hrun). destruct (Hrun Hfr) as (_ & _ & Hst).
  pose proof (proj1 (proj2 (proj2 (proj2 (proj2 Hok)))) f x Hf) as Hxt.
  wp_step.
  - apply bool_decide_eq_true in H0. wp_step. apply HQ. split; [exact Hok|]. split.
    { exists x, x. split_and!; try done.
      2: { unfold raised. rewrite (time_of_Some o f x Hf). split_and!; [done| |done]. intros. lia. }
      intros s y Hs Hy. rewrite Hs in Hst.
      destruct Hst as (? & ? & _ & _ & _ & _ & _ & _ & Hp & _). congruence. }
    split_and!; try done. by right.
  - apply bool_decide_eq_false in H0. wp_step. eapply wp_mono; [by apply (current_time_ok o v)|].
    cbn beta. intros now ? ? (-> & -> & Hnow & Hs & Hbl). eapply wp_update; [exact Hf|]. apply HQ.
    assert (0 ≤ bmax_uint64 (time x) now ≤ FAIRQUEUE_MAX_TIME) as Hb.
    { unfold bmax_uint64. destruct (now <? time x); lia. }
    split; [by apply tree_ok_time|]. split.
    { exists x. eexists. cbn. rewrite lookup_insert_eq. split_and!; try done.
      - intros s y Hs1 Hy. rewrite <- (Hs s y Hs1 Hy). cbn. unfold bmax_uint64. destruct (Z.ltb_spec now (time x)); lia.
      - unfold raised. rewrite (time_of_Some o f x Hf). cbn. unfold bmax_uint64.
        split; [destruct (Z.ltb_spec now (time x)); lia|]. split.
        + intros g _ Hg. specialize (Hbl g Hg). destruct (Z.ltb_spec now (time x)); lia.
        + intros [?|[?|Hb']]; [done|done|]. by apply (tree_not_queued o f x Hok Hf Hq) in Hb'. }
    split_and!; try done. { intros g Hg. cbn. by rewrite lookup_insert_ne. } by left.
Qed.

(** The state with the flow queued. *)
Definition queued_state (o o' : t) (f : Z) (d : list Z) : Prop :=
  tree_ok o' ∧ (∀ g, g ≠ f → flows o' !! g = flows o !! g) ∧
  (∃ x, flows o' !! f = Some x ∧ is_queued x = true ∧ queued_data x = d ∧
     (∀ s y, sending_flow o = Some s → flows o !! s = Some y → time y ≤ time x) ∧ raised o f x) ∧
  (∀ g, g ∈ queued_tree o' ↔ g = f ∨ g ∈ queued_tree o) ∧
  sending_flow o' = sending_flow o ∧ sending_len o' = sending_len o ∧
  freeing o' = freeing o ∧ schedule_job o' = schedule_job o ∧ mtu o' = mtu o ∧
  packet_weight o' = packet_weight o ∧
  (previous_flow o' = previous_flow o ∧ previous_flow o ≠ Some f ∨ previous_flow o' = None).

Lemma queue_flow_ok o o1 v f d (Q : unit → t → env → Prop) :
  ready o o1 f →
  (∀ o3, queued_state o o3 f d →
     wpe apply_event (when (negb (bool_decide (is_Some (sending_flow o3))) && negb (schedule_job o3)) schedule) o3 v Q) →
  wpe apply_event
    (update f (set_data d);;
     o ← mget;
     (match tree_insert (time_of o) f (queued_tree o) with
      | Some l => mmodify (set_tree l)
      | None => ASSERT false
      end);;
     update f (set_queued true);;
     when (negb (bool_decide (is_Some (sending_flow o))) && negb (schedule_job o)) schedule) o1 v Q.
Proof.
  intros (Hok1 & (x0 & x1 & Hx0 & Hx1 & Hx1q & Hle & Hra) & Hfl1 & Ht1 & Hs1 & Hsl1 & Hfr1 & Hj1 & Hm1 & Hw1 & Hp1) HQ.
  wpe_step. eapply wpe_update; [exact Hx1|].
  pose proof (tree_ok_update o1 f x1 (set_data d) Hok1 Hx1 eq_refl eq_refl) as Hok2.
  set (o2 := set_flows _ _ o1) in *. wpe_step. wpe_step.
  assert (flows o2 !! f = Some (set_data d x1)) as Hx2 by (subst o2; cbn; by rewrite lookup_insert_eq).
  destruct (tree_insert_spec (time_of o2) f (queued_tree o2) (proj1 (proj2 Hok2))
    (tree_not_queued o2 f _ Hok2 Hx2 Hx1q)) as (l & Hl & _).
  destruct (tree_ok_insert o2 f _ l d Hok2 Hx2 Hx1q Hl) as [Hok3 Hp].
  rewrite Hl. wpe_step. wpe_step. wpe_step. eapply wpe_update; [exact Hx2|].
  apply (HQ (set_flows (flows_list o2) (<[f := set_queued true (set_data d x1)]> (flows o2)) (set_tree l o2))).
  split; [exact Hok3|]. split_and!; try done.
  - intros g Hg. subst o2. cbn. rewrite !lookup_insert_ne by done. by apply Hfl1.
  - eexists. cbn. rewrite lookup_insert_eq. split_and!; try done.
  - intros g. cbn. rewrite Hp, elem_of_cons. subst o2. cbn. by rewrite Ht1.
Qed.

Lemma queued_run_ok o o3 v f d :
  Inv o v → freeing o = false → inprog v !! f = None → zlen d ≤ mtu o → sending_flow o ≠ Some f →
  queued_state o o3 f d →
  wpe apply_event (when (negb (bool_decide (is_Some (sending_flow o3))) && negb (schedule_job o3)) schedule) o3
    (mkenv (out v) (finished v) (<[f := d]> (inprog v)) (log v)) (λ _ o' v', Inv o' v' ∧ same_times o3 v o' v').
Proof.
  intros (_ & Hda & Hrun) Hfr Hnp Hd Hsf (Hok3 & Hfl & (x & Hx & Hxq & Hxd & Hle & _) & Htr & Hs & Hsl & Hfr3 & Hj & Hm & _ & Hp).
  destruct (Hrun Hfr) as (Hfin & Hin & Hst).
  set (v1 := mkenv _ _ _ _).
  assert (data_ok o3 v1) as Hda3.
  { intros g y Hy Hyq. rewrite Hm. destruct (decide (g = f)) as [->|Hg].
    - rewrite Hx in Hy. injection Hy as <-. cbn. rewrite lookup_insert_eq, Hxd. done.
    - rewrite Hfl in Hy by done. cbn. rewrite lookup_insert_ne by done. by apply Hda. }
  assert (∀ g e, inprog v1 !! g = Some e → sending_flow o = Some g ∨ g ∈ queued_tree o3) as Hin3.
  { intros g e Hg. cbn in Hg. rewrite Htr. destruct (decide (g = f)) as [->|Hgf]; [auto|].
    rewrite lookup_insert_ne in Hg by done. destruct (Hin g e Hg); auto. }
  rewrite Hs, Hj. destruct (sending_flow o) as [s|] eqn:Hse.
  - wpe_step; [done|]. split; [|done].
    split; [done|]. split; [done|]. intros _. split; [done|]. rewrite Hs. split; [done|].
    destruct Hst as (y & e & Hy & Hyq & Hout & Hi & Hlen & Hmt & Hpr & Hjb & Hmin).
    exists y, e. rewrite Hfl, Hj, Hm, Hsl by congruence. cbn. rewrite lookup_insert_ne by congruence.
    split_and!; try done; [destruct Hp as [[-> _]| ->]; done|].
    intros q Hq. apply Htr in Hq as [->|Hq].
    + rewrite (time_of_Some o3 f x Hx). by apply (Hle s y).
    + specialize (Hmin q Hq). unfold time_of in *. destruct (decide (q = f)) as [->|Hqf].
      * rewrite Hx. by apply (Hle s y).
      * by rewrite Hfl.
  - destruct Hst as (Hout & Hidle & Hprev). change (negb (bool_decide (is_Some (@None Z)))) with true. cbn [andb].
    assert (∀ g e, inprog v1 !! g = Some e → g ∈ queued_tree o3) as Hin4.
    { intros g e Hg. by destruct (Hin3 g e Hg). }
    wpe_step; bool_props.
    + destruct Hidle as [Htr0 Hpr0]; [done|].
      eapply wpe_mono; [apply (schedule_ok o3 v1); try done; try congruence|by cbn beta].
      * destruct Hp as [[-> _]| ->]; done.
      * intros Hemp. assert (f ∈ queued_tree o3) as Hff by (apply Htr; by left). rewrite Hemp in Hff. set_solver.
    + split; [|done]. split; [done|]. split; [done|]. intros _. split; [done|]. rewrite Hs, Hj. split; [auto|].
      split_and!; try done.
      * congruence.
      * intros g Hg. destruct Hp as [[Hpg Hpf]|Hpn]; [|congruence]. rewrite Hfl by congruence. apply Hprev. congruence.
Qed.

Lemma queued_fair o o3 o' v v' f d :
  queued_state o o3 f d → same_times o3 v o' v' → fair o v o' v'.
Proof.
  intros (Hok3 & Hfl & (x & Hx & Hxq & _ & _ & Hra) & _ & _ & _ & _ & _ & Hm & Hw & _) (Hw' & Hm' & Hl & Ht).
  split; [congruence|]. split; [congruence|]. intros k g _ _ _ _ Hg. unfold lead. rewrite !Ht, Hl.
  assert (∀ j, j ≠ f → time_of o3 j = time_of o j) as Hne by (intros j Hj; unfold time_of; by rewrite Hfl).
  destruct Hra as (Hge & Hle & Hbf). rewrite <- (time_of_Some o3 f x Hx) in Hge, Hle, Hbf.
  pose proof Hok3 as (_ & _ & _ & _ & _ & Hc). rewrite <- Hw, <- Hm.
  destruct (decide (k = f)) as [->|Hk], (decide (g = f)) as [->|Hgf].
  - rewrite Hbf by done. lia.
  - specialize (Hle g Hgf Hg). rewrite (Hne g) by done. lia.
  - rewrite (Hne k), Hbf by done. lia.
  - rewrite !Hne by done. lia.
Qed.

Lemma input_ok o v f d :
  Inv o v → freeing o = false → is_Some (flows o !! f) → inprog v !! f = None → zlen d ≤ mtu o →
  wpe apply_event (input_handler_send f d) o (mkenv (out v) (finished v) (<[f := d]> (inprog v)) (log v))
    (λ _ o' v', Inv o' v' ∧ fair o v o' v').
Proof.
  intros HI Hfr [x Hx] Hnp Hd. pose proof HI as (Hok & Hda & Hrun). destruct (Hrun Hfr) as (Hfin & Hin & Hst).
  assert (is_queued x = false) as Hxq.
  { destruct (is_queued x) eqn:Hxq; [|done]. destruct (Hda f x Hx Hxq). congruence. }
  assert (sending_flow o ≠ Some f) as Hsf.
  { intros Hs. rewrite Hs in Hst. destruct Hst as (? & ? & _ & _ & _ & Hi & _). congruence. }
  unfold input_handler_send. wpe_step. wpe_step. wpe_step. eapply wpe_get_flow; [exact Hx|].
  do 3 (wpe_step; wpe_step; [rewrite ?Hxq, ?Hfr, ?bool_decide_false; done|]).
  wpe_step. apply wpe_pure. eapply (input_ready o v); try done.
  intros o1 Hready. split; [done|]. apply (queue_flow_ok o o1); [done|].
  intros o3 Hq. eapply wpe_mono; [by apply (queued_run_ok o o3)|].
  cbn beta. intros _ o' v' [HI' Ht]. split; [done|]. by eapply queued_fair.
Qed.

Lemma incremented_tree_ok o o' f x amount s :
  tree_ok o → flows o !! f = Some x → is_queued x = false → incremented o o' f amount s → tree_ok o'.
Proof.
  intros Hok Hf Hq (m & -> & Hmf & Hmg & Hmq & Hs). pose proof (tree_not_queued o f x Hok Hf Hq) as Hnt.
  destruct Hok as (Htr & Hsort & Hnd & Hfl & Htm & Hc). destruct (Hmf x Hf) as [Hmf' Hb].
  unfold tree_ok; cbn. split_and!; try done; try lia.
  - intros k. rewrite Htr. destruct (decide (k = f)) as [->|Hne].
    + rewrite Hmf', Hf. split; intros (z & [= <-] & Hz); eexists; (split; [done|exact Hz]).
    + rewrite Hmg by done. split.
      * intros (z & -> & Hz). eexists. split; [done|]. done.
      * intros (z & Hz & Hzq). apply fmap_Some in Hz as (y & -> & ->). eauto.
  - eapply (sorted_shift (time_of o) _ _ s); [done|]. intros k Hk.
    assert (k ≠ f) as Hkf by (intros ->; done). apply Htr in Hk as (y & Hy & Hyq).
    unfold time_of; cbn. rewrite Hmg, Hy by done. cbn. specialize (Hmq k y Hkf Hy Hyq). lia.
  - intros k. rewrite Hfl. destruct (decide (k = f)) as [->|Hne].
    + rewrite Hmf', Hf. by split.
    + rewrite Hmg by done. by rewrite fmap_is_Some.
  - intros k y Hy. destruct (decide (k = f)) as [->|Hne].
    + rewrite Hmf' in Hy. injection Hy as <-. cbn. lia.
    + rewrite Hmg in Hy by done. apply fmap_Some in Hy as (z & Hz & ->). cbn. specialize (Htm k z Hz). lia.
Qed.

Lemma incremented_fair o o1 o' f x amount s :
  flows o1 = flows o → flows o !! f = Some x → backlogged_only o f → 0 ≤ amount ≤ packet_weight o + mtu o →
  0 ≤ packet_weight o + mtu o → (∀ q, q ∈ queued_tree o → time x ≤ time_of o q) → tree_ok o → is_queued x = false →
  incremented o1 o' f amount s →
  (∀ k y, flows o !! k = Some y → time_of o' k = if decide (k = f) then time x + amount - s else Z.max 0 (time y - s)) ∧
  ∀ k g, is_Some (flows o !! k) → backlogged o g →
    lead o' k g ≤ Z.max (lead o k g) (packet_weight o + mtu o) ∧
    lead o k g + ((if f =? k then amount else 0) - (if f =? g then amount else 0)) ≤ lead o' k g.
Proof.
  intros Hfl Hf Hbl Ha Hw Hmin Hok Hq (m & -> & Hmf & Hmg & Hmq & Hs). rewrite Hfl in *.
  destruct (Hmf x Hf) as [Hmf' Hb].
  match goal with |- ?A ∧ _ => assert A as Htm end.
  { intros k y Hk. unfold time_of; cbn. destruct (decide (k = f)) as [->|Hne].
    - by rewrite Hmf'.
    - by rewrite Hmg, Hk by done. }
  split; [exact Htm|]. intros k g [y Hy] Hg. unfold lead. rewrite (Htm k y Hy), (time_of_Some o k y Hy).
  destruct (Hbl g Hg) as [->|Hgq].
  - rewrite (Htm f x Hf), (time_of_Some o f x Hf). destruct (decide (f = f)) as [_|?]; [|done].
    destruct (decide (k = f)) as [->|Hkf]; [simplify_eq|]; repeat case_match; lia.
  - pose proof (tree_not_queued o f x Hok Hf Hq) as Hnt. specialize (Hmin g Hgq).
    apply (proj1 Hok) in Hgq as (z & Hz & Hzq).
    assert (g ≠ f) as Hgf by congruence. specialize (Hmq g z Hgf Hz Hzq).
    rewrite (Htm g z Hz), (time_of_Some o g z Hz) in *. destruct (decide (g = f)) as [?|_]; [done|].
    destruct (decide (k = f)) as [->|Hkf]; [simplify_eq|]; repeat case_match; lia.
Qed.

Lemma output_done_ok o v d :
  Inv o v → freeing o = false → out v = Some d →
  wpe apply_event output_handler_done o (mkenv None (out v) (inprog v) (log v)) (λ _ o' v', Inv o' v' ∧ fair o v o' v').
Proof.
  intros (Hok & Hda & Hrun) Hfr Hout. destruct (Hrun Hfr) as (Hfin & Hin & Hst).
  destruct (sending_flow o) as [f|] eqn:Hse; [|destruct Hst; congruence].
  destruct Hst as (x & d' & Hx & Hxq & Hd' & Hi & Hlen & Hmt & Hpr & Hjb & Hmin).
  rewrite Hout in Hd'. injection Hd' as <-.
  pose proof Hok as (_ & _ & _ & _ & _ & Hw & Hm & Hwm).
  unfold output_handler_done. wpe_step. wpe_step.
  do 4 (wpe_step; wpe_step; [by rewrite ?Hse, ?Hpr, ?Hjb, ?Hfr|]).
  wpe_step. eapply wpe_lift; [exact Hse|]. wpe_step. eapply wpe_get_flow; [exact Hx|].
  wpe_step. wpe_step; [by rewrite Hxq|]. do 4 wpe_step.
  assert (u64 (packet_weight o + sending_len o) = packet_weight o + zlen d) as ->.
  { rewrite Hlen. apply u64_small. unfold FAIRQUEUE_MAX_TIME in *. lia. }
  set (o1 := set_previous _ _). wpe_step. apply wpe_pure. eapply wp_mono.
  { apply (increment_ok o1 f x); try done. unfold FAIRQUEUE_MAX_TIME in *. lia. }
  cbn beta. intros _ o2 es (-> & s & Hinc). split; [done|].
  pose proof (incremented_tree_ok o1 o2 f x _ s Hok Hx Hxq Hinc) as Hok2.
  destruct (incremented_fair o o1 o2 f x (packet_weight o + zlen d) s eq_refl Hx) as [_ Hfair]; try done; try lia.
  { intros g [Hg|[Hg|Hg]]; [left; congruence|congruence|by right]. }
  destruct Hinc as (m & -> & Hmf & Hmg & _ & _). destruct (Hmf x Hx) as [Hmf' _].
  wpe_step. wpe_step. wpe_step. eapply wpe_emit.
  { cbn. rewrite Hi, Hout, bool_decide_true by done. reflexivity. }
  wpe_step. eapply wpe_get_flow; [exact Hmf'|].
  assert (∀ y, time y = time (set_time (time x + (packet_weight o + zlen d) - s) x) → is_queued y = false →
    Inv (set_job true (set_flows (flows_list o1) (<[f := y]> m) o1))
      (mkenv None None (delete f (inprog v)) (log v ++ [(f, d)])) ∧
    fair o v (set_job true (set_flows (flows_list o1) (<[f := y]> m) o1))
      (mkenv None None (delete f (inprog v)) (log v ++ [(f, d)]))) as Hend.
  { intros y Hyt Hyq. split.
    2: { split_and!; try done. intros k g Hk _ _ _ Hg. specialize (Hfair k g Hk Hg).
         assert (∀ j, time_of (set_job true (set_flows (flows_list o1) (<[f := y]> m) o1)) j
           = time_of (set_flows (flows_list o1) m o1) j) as Htj.
         2: { unfold lead in *. rewrite !Htj. cbn [log]. rewrite !served_app. cbn [served foldr]. rewrite !Z.add_0_r. destruct (f =? k), (f =? g); lia. }
         intros j. unfold time_of; cbn. destruct (decide (j = f)) as [->|Hj].
         - rewrite lookup_insert_eq, Hmf'. done.
         - by rewrite lookup_insert_ne. }
    split; [|split].
    - exact (tree_ok_update (set_flows (flows_list o1) m o1) f _ (λ _, y) Hok2 Hmf' Hyt (eq_trans Hyq (eq_sym Hxq))).
    - intros g z Hz Hzq. cbn in Hz |- *. destruct (decide (g = f)) as [->|Hg].
      + rewrite lookup_insert_eq in Hz. injection Hz as <-. congruence.
      + rewrite lookup_insert_ne, Hmg in Hz by done. apply fmap_Some in Hz as (z' & Hz' & ->). cbn in *.
        rewrite lookup_delete_ne by done. by apply Hda.
    - intros _. unfold run_ok; cbn. split_and!; try done.
      + intros g e Hg. apply lookup_delete_Some in Hg as [Hgf Hg]. destruct (Hin g e Hg); [congruence|by right].
      + intros g [= <-]. eexists. rewrite lookup_insert_eq. done. }
  wpe_step.
  - wpe_step. eapply wpe_update; [exact Hmf'|]. wpe_step. by apply Hend.
  - pose proof (Hend _ eq_refl Hxq) as HI. rewrite insert_id in HI by done. exact HI.
Qed.

Lemma flow_init_ok o v f :
  Inv o v → freeing o = false → flows o !! f = None → inprog v !! f = None →
  wpe apply_event (Flow_Init f) o v (λ _ o' v', Inv o' v' ∧ same_times o v o' v').
Proof.
  intros (Hok & Hda & Hrun) Hfr Hf Hi. destruct (Hrun Hfr) as (Hfin & Hin & Hst).
  pose proof Hok as (Htr & Hs & Hnd & Hfl & Htm & Hc).
  assert (f ∉ queued_tree o) as Hnt by (intros Hx; apply Htr in Hx as (? & ? & _); congruence).
  unfold Flow_Init. wpe_step. wpe_step. wpe_step. wpe_step; [by rewrite Hfr|]. wpe_step.
  eapply wpe_emit; [cbn; by rewrite Hi|]. wpe_step.
  assert (∀ g, g ≠ f → flows (set_flows (flows_list o ++ [f]) (<[f:=mk_flow 0 false [] false]> (flows o)) o) !! g
     = flows o !! g) as Hne by (intros g Hg; cbn; by rewrite lookup_insert_ne).
  split.
  2: { split_and!; try done. intros g. unfold time_of. destruct (decide (g = f)) as [->|Hg].
       - cbn. by rewrite lookup_insert_eq, Hf.
       - by rewrite Hne. }
  split; [|split].
  - unfold tree_ok; cbn. split_and!; try done; try lia.
    + intros g. rewrite Htr. destruct (decide (g = f)) as [->|Hg]; [|by rewrite lookup_insert_ne].
      rewrite lookup_insert_eq, Hf. naive_solver.
    + eapply (sorted_shift (time_of o) _ _ 0); [done|]. intros g Hg. unfold time_of; cbn.
      rewrite lookup_insert_ne by (intros ->; done). lia.
    + apply NoDup_app. split_and!; [done| |by apply NoDup_singleton].
      intros g Hg Hgf. apply list_elem_of_singleton in Hgf as ->. apply Hfl in Hg. rewrite Hf in Hg. by destruct Hg.
    + intros g. rewrite elem_of_app, Hfl, list_elem_of_singleton. destruct (decide (g = f)) as [->|Hg].
      * rewrite lookup_insert_eq. naive_solver.
      * rewrite lookup_insert_ne by done. naive_solver.
    + intros g y Hy. destruct (decide (g = f)) as [->|Hg].
      * rewrite lookup_insert_eq in Hy. injection Hy as <-. cbn. done.
      * rewrite lookup_insert_ne in Hy by done. by apply (Htm g).
  - intros g y Hy Hyq. destruct (decide (g = f)) as [->|Hg].
    + cbn in Hy. rewrite lookup_insert_eq in Hy. injection Hy as <-. done.
    + rewrite Hne in Hy by done. by apply Hda.
  - intros _. split; [done|]. split; [done|]. cbn. destruct (sending_flow o) as [s|].
    + destruct Hst as (x & d & Hx & Hxq & Ho & Hi' & ? & ? & ? & ? & Hmin). exists x, d.
      rewrite lookup_insert_ne by congruence. split_and!; try done. intros q Hq. specialize (Hmin q Hq).
      unfold time_of in *; cbn. by rewrite lookup_insert_ne by (intros ->; done).
    + destruct Hst as (Ho & Hidle & Hprev). split_and!; try done. intros g Hg.
      destruct (Hprev g Hg) as (x & Hx & Hxq). exists x. by rewrite lookup_insert_ne by congruence.
Qed.

Lemma filter_ne_id (f : Z) l : f ∉ l → List.filter (λ y, negb (y =? f)) l = l.
Proof.
  induction l as [|x l IH]; intros Hf; cbn; [done|].
  rewrite (proj2 (Z.eqb_neq x f)) by (intros ->; set_solver). cbn. rewrite IH; [done|set_solver].
Qed.

Lemma NoDup_filter_ne (f : Z) l : NoDup l → NoDup (List.filter (λ y, negb (y =? f)) l).
Proof.
  induction 1 as [|x l Hx Hl IH]; cbn; [constructor|]. destruct (negb (x =? f)); [|done].
  constructor; [|done]. rewrite elem_filter_ne. tauto.
Qed.

Definition without (f : Z) (o : t) : t :=
  set_flows (List.filter (λ y, negb (y =? f)) (flows_list o)) (delete f (flows o))
    (set_tree (List.filter (λ y, negb (y =? f)) (queued_tree o)) o).

Lemma tree_ok_without o f : tree_ok o → tree_ok (without f o).
Proof.
  intros (Htr & Hs & Hnd & Hfl & Htm & Hc). unfold tree_ok, without; cbn. split_and!; try done; try lia.
  - intros g. rewrite elem_filter_ne, Htr. destruct (decide (g = f)) as [->|Hg].
    + rewrite lookup_delete_eq. naive_solver.
    + rewrite lookup_delete_ne by done. naive_solver.
  - eapply (sorted_shift (time_of o) _ _ 0); [by apply sorted_filter|]. intros g Hg.
    apply elem_filter_ne in Hg as [_ Hg]. unfold time_of; cbn. rewrite lookup_delete_ne by done. lia.
  - by apply NoDup_filter_ne.
  - intros g. rewrite elem_filter_ne, Hfl. destruct (decide (g = f)) as [->|Hg].
    + rewrite lookup_delete_eq. split; [tauto|]. by intros [? ?].
    + rewrite lookup_delete_ne by done. tauto.
  - intros g y Hy. apply lookup_delete_Some in Hy as [_ Hy]. by apply (Htm g).
Qed.

Lemma without_Inv o v f se pr :
  Inv o v → freeing o = true ∨ sending_flow o ≠ Some f →
  (freeing o = false → se = sending_flow o ∧ (pr = previous_flow o ∧ pr ≠ Some f ∨ pr = None)) →
  Inv (set_previous pr (set_sending se (sending_len o) (without f o)))
      (mkenv (out v) (finished v) (delete f (inprog v)) (log v)).
Proof.
  intros (Hok & Hda & Hrun) Hal Hsp. split; [exact (tree_ok_without o f Hok)|]. split.
  - intros g y Hy Hyq. cbn in Hy |- *. apply lookup_delete_Some in Hy as [Hg Hy].
    rewrite lookup_delete_ne by done. by apply Hda.
  - intros Hfr. destruct (Hsp Hfr) as [-> Hpr]. destruct (Hrun Hfr) as (Hfin & Hin & Hst).
    destruct Hal as [?|Hsf]; [cbn in Hfr; congruence|].
    split; [done|]. split.
    + intros g d Hg. cbn in Hg |- *. apply lookup_delete_Some in Hg as [Hgf Hg].
      destruct (Hin g d Hg); [by left|right]. by apply elem_filter_ne.
    + cbn. destruct (sending_flow o) as [s|].
      * destruct Hst as (y & d & Hy & Hyq & Ho & Hi & ? & ? & Hp & ? & Hmin). exists y, d.
        rewrite !lookup_delete_ne by congruence. split_and!; try done; [destruct Hpr as [[-> _]| ->]; done|].
        intros q Hq. apply elem_filter_ne in Hq as [Hq Hqf]. specialize (Hmin q Hq).
        unfold time_of in *; cbn. by rewrite lookup_delete_ne.
      * destruct Hst as (Ho & Hidle & Hprev). split_and!; try done.
        -- intros Hj. destruct (Hidle Hj) as [-> Hp]. split; [done|]. destruct Hpr as [[-> _]| ->]; done.
        -- intros g Hg. destruct Hpr as [[-> Hne]|Hp]; [|congruence]. destruct (Hprev g Hg) as (y & Hy & Hyq).
           exists y. by rewrite lookup_delete_ne by congruence.
Qed.

Lemma flow_free_ok o v f :
  Inv o v → is_Some (flows o !! f) → freeing o = true ∨ sending_flow o ≠ Some f →
  wpe apply_event (Flow_Free f) o v (λ _ o' v', Inv o' v' ∧ fair o v o' v').
Proof.
  intros HI [x Hx] Hal. pose proof HI as (Hok & _ & _).
  assert (is_queued x = false → List.filter (λ y, negb (y =? f)) (queued_tree o) = queued_tree o) as Hnq.
  { intros Hq. apply filter_ne_id. by eapply tree_not_queued. }
  unfold Flow_Free, Tree_Remove. wpe_step. wpe_step. wpe_step. eapply wpe_get_flow; [exact Hx|].
  wpe_step. wpe_step.
  { destruct Hal as [->|Hal]; [done|]. rewrite bool_decide_false by done. by rewrite orb_true_r. }
  pose proof (without_Inv o v f (if bool_decide (sending_flow o = Some f) then None else sending_flow o)
    (if bool_decide (previous_flow o = Some f) then None else previous_flow o) HI Hal) as Hend.
  assert (freeing o = false → bool_decide (sending_flow o = Some f) = false) as Hsf.
  { intros Hfr. apply bool_decide_false. destruct Hal; congruence. }
  match type of Hend with ?A → _ => assert A as Hpre end; [|specialize (Hend Hpre); clear Hpre].
  { intros Hfr. rewrite Hsf by done. split; [done|].
    destruct (bool_decide (previous_flow o = Some f)) eqn:Hb; [by right|].
    apply bool_decide_eq_false in Hb. by left. }
  assert (fair o v (set_previous (if bool_decide (previous_flow o = Some f) then None else previous_flow o)
    (set_sending (if bool_decide (sending_flow o = Some f) then None else sending_flow o) (sending_len o)
       (without f o))) (mkenv (out v) (finished v) (delete f (inprog v)) (log v))) as Hfair.
  { split_and!; try done. intros k g _ Hk _ Hg _. unfold lead, time_of, without; cbn in *.
    destruct Hk as [y Hk], Hg as [z Hg]. rewrite Hk, Hg.
    apply lookup_delete_Some in Hk as [_ Hk], Hg as [_ Hg]. rewrite Hk, Hg. unfold served. lia. }
  apply (conj Hend) in Hfair. clear Hend. rename Hfair into Hend.
  clear HI Hok Hal Hsf. unfold without in Hend. destruct o; cbn in *.
  repeat (first [wpe_step | case_bool_decide]; cbn in * ); try done; try (rewrite Hnq in Hend by done; exact Hend); exact Hend.
Qed.

Lemma set_busy_ok o v f h :
  Inv o v → freeing o = false → sending_flow o = Some f →
  wpe apply_event (Flow_SetBusyHandler f h) o v (λ _ o' v', Inv o' v' ∧ same_times o v o' v').
Proof.
  intros (Hok & Hda & Hrun) Hfr Hse. destruct (Hrun Hfr) as (Hfin & Hin & Hst). rewrite Hse in Hst.
  destruct Hst as (x & d & Hx & Hxq & Ho & Hi & Hl & Hm & Hp & Hj & Hmin).
  unfold Flow_SetBusyHandler. wpe_step. wpe_step.
  do 2 (wpe_step; wpe_step; [by rewrite ?Hfr, ?bool_decide_true|]).
  eapply wpe_update; [exact Hx|].
  assert (∀ q, time_of (set_flows (flows_list o) (<[f := set_busy h x]> (flows o)) o) q = time_of o q) as Htq.
  { intros q. unfold time_of; cbn. destruct (decide (q = f)) as [->|Hqf]; [by rewrite lookup_insert_eq, Hx|].
    by rewrite lookup_insert_ne. }
  split; [|done]. split; [by apply tree_ok_update|]. split.
  - intros g y Hy Hyq. cbn in Hy |- *. destruct (decide (g = f)) as [->|Hg].
    + rewrite lookup_insert_eq in Hy. injection Hy as <-. cbn in Hyq. congruence.
    + rewrite lookup_insert_ne in Hy by done. by apply Hda.
  - intros _. split; [done|]. split; [done|]. cbn [sending_flow set_flows]. rewrite Hse. exists (set_busy h x), d.
    cbn [flows set_flows]. rewrite lookup_insert_eq. split_and!; try done. intros q Hq. rewrite Htq. by apply Hmin.
Qed.

Lemma cancel_ok o v f :
  Inv o v → freeing o = false → sending_flow o = Some f → use_cancel o = true →
  wpe apply_event (Flow_RequestCancel f) o v (λ _ o' v', Inv o' v' ∧ same_times o v o' v').
Proof.
  intros HI Hfr Hse Huc. pose proof HI as (_ & _ & Hrun). destruct (Hrun Hfr) as (_ & _ & Hst). rewrite Hse in Hst.
  destruct Hst as (x & d & _ & _ & Ho & _ & _ & _ & _ & Hj & _).
  unfold Flow_RequestCancel. wpe_step. wpe_step.
  do 4 (wpe_step; wpe_step; [by rewrite ?Hfr, ?Hj, ?bool_decide_true|]).
  eapply wpe_emit; [cbn; by rewrite Ho|]. done.
Qed.

Lemma prepare_free_ok o v :
  Inv o v → wpe apply_event PrepareFree o v (λ _ o' v', Inv o' v' ∧ same_times o v o' v').
Proof. intros (Hok & Hda & _). unfold PrepareFree. wpe_step. split; [|done]. by split. Qed.

Lemma run_fair {A} (m : IO A) o v o0 v0 :
  wpe apply_event m o v (λ _ o' v', Inv o' v' ∧ fair o0 v0 o' v') →
  ∃ o' v', run m o v = Some (o', v') ∧ Inv o' v' ∧ fair o0 v0 o' v'.
Proof.
  intros Hm. apply wpe_run in Hm as (a & o' & es & v' & Hm & Hr & HQ).
  exists o', v'. unfold run. rewrite Hm. cbn. rewrite Hr. done.
Qed.

Lemma run_same {A} (m : IO A) o v o0 v0 :
  wpe apply_event m o v (λ _ o' v', Inv o' v' ∧ same_times o0 v0 o' v') →
  ∃ o' v', run m o v = Some (o', v') ∧ Inv o' v' ∧ fair o0 v0 o' v'.
Proof.
  intros Hm. apply run_fair. eapply wpe_mono; [exact Hm|]. cbn beta. intros _ o' v' [? ?].
  split; [done|]. by apply same_times_fair.
Qed.

Lemma fq_act_inv o v a :
  Inv o v → allowed o v a → ∃ o' v', act o v a = Some (o', v') ∧ Inv o' v' ∧ fair o v o' v'.
Proof.
  intros HI. destruct a as [f d| | |f|f|f h|f|]; cbn [allowed act].
  - intros (? & ? & ? & ?). by apply run_fair, input_ok.
  - intros (? & [d Hd]). by eapply run_fair, output_done_ok.
  - intros (? & ?). by apply run_same, job_ok.
  - intros (? & ? & ?). by apply run_same, flow_init_ok.
  - intros (? & ?). by apply run_fair, flow_free_ok.
  - intros (? & ?). by apply run_same, set_busy_ok.
  - intros (? & ? & ?). by apply run_same, cancel_ok.
  - intros _. by apply run_same, prepare_free_ok.
Qed.

Lemma fq_reach_inv o v : reach o v → Inv o v.
Proof.
  induction 1 as [m c w o es Hm Hw Hi|o v a o' v' _ IH Ha Hact].
  - unfold Init in Hi. destruct (_ && _) eqn:Hb; [|done]. injection Hi as <- <-. bool_props.
    split; [|split].
    + unfold tree_ok; cbn. split_and!; try done; try lia.
      * intros f. split; [set_solver|]. by intros (? & ? & _).
      * constructor.
      * constructor.
      * intros f. split; [set_solver|]. by intros [? ?].
    + by intros f x Hx.
    + intros _. split; [done|]. split; [by intros|]. cbn. split_and!; done.
  - destruct (fq_act_inv o v a IH Ha) as (o1 & v1 & Hx & HI & _). by simplify_eq.
Qed.

(** ** Runs *)

(** A run all of whose states but the last satisfy [P]. *)
Inductive run_while (P : t → Prop) : t → env → t → env → Prop :=
| run_end o v : run_while P o v o v
| run_step o v a o1 v1 o' v' :
    P o → allowed o v a → act o v a = Some (o1, v1) → run_while P o1 v1 o' v' → run_while P o v o' v'.

#[export] Instance allowed_dec o v a : Decision (allowed o v a).
Proof. destruct a; cbn; apply _. Defined.

Fixpoint do_actions (P : t → bool) (o : t) (v : env) (l : list action) : option (t * env) :=
  match l with
  | [] => Some (o, v)
  | a :: l =>
      if P o && bool_decide (allowed o v a) then '(o1, v1) ← act o v a; do_actions P o1 v1 l else None
  end.

Lemma do_actions_run (P : t → bool) o v l o' v' :
  do_actions P o v l = Some (o', v') → run_while (λ o, P o = true) o v o' v'.
Proof.
  revert o v. induction l as [|a l IH]; intros o v; cbn [do_actions]; [intros [= <- <-]; constructor|].
  destruct (P o) eqn:HP; [|done]. cbn [andb]. case_bool_decide as Ha; [|done].
  destruct (act o v a) as [[o1 v1]|] eqn:Hact; [|done]. cbn. intros Hl. econstructor; eauto.
Qed.

Lemma run_while_reach P o v o' v' : run_while P o v o' v' → reach o v → reach o' v'.
Proof. induction 1; [done|]. intros Hr. apply IHrun_while. by eapply reach_act. Qed.

Lemma run_while_mono (P Q : t → Prop) o v o' v' :
  (∀ o, P o → Q o) → run_while P o v o' v' → run_while Q o v o' v'.
Proof. intros HPQ. induction 1; econstructor; eauto. Qed.

(** ** The theorems *)

(** C25: whatever flows, the output and the schedule job do within the
    interfaces' rules, the fair queue fails no assertion, touches no freed flow
    and never gives the output a second packet; a packet a flow has submitted is
    either with the output or queued, unchanged; and nothing waits while the
    output is idle, except for the schedule job. *)
Theorem fairqueue_safe o v :
  reach o v →
  (∀ a, allowed o v a → is_Some (act o v a)) ∧
  (freeing o = false →
    (∀ f d, inprog v !! f = Some d →
       sending_flow o = Some f ∧ out v = Some d ∨
       f ∈ queued_tree o ∧ queued_data <$> flows o !! f = Some d) ∧
    (is_Some (out v) ↔ is_Some (sending_flow o)) ∧
    (out v = None → schedule_job o = false → inprog v = ∅)).
Proof.
  intros Hr. pose proof (fq_reach_inv o v Hr) as HI. split.
  { intros a Ha. destruct (fq_act_inv o v a HI Ha) as (? & ? & -> & _). eauto. }
  intros Hfr. destruct HI as (Hok & Hda & Hrun). destruct (Hrun Hfr) as (_ & Hin & Hst).
  assert (∀ f d, inprog v !! f = Some d → f ∈ queued_tree o → queued_data <$> flows o !! f = Some d) as Hq.
  { intros f d Hd Hf. apply (proj1 Hok) in Hf as (x & Hx & Hxq). destruct (Hda f x Hx Hxq). rewrite Hx. cbn. congruence. }
  destruct (sending_flow o) as [s|] eqn:Hse.
  - destruct Hst as (x & d & _ & _ & Ho & Hi & _). rewrite Ho. split_and!; [|by split; eauto|done].
    intros f e He. destruct (Hin f e He) as [[= <-]|Hf]; [left|right]; [|by eauto]. split; congruence.
  - destruct Hst as (Ho & Hidle & _). rewrite Ho. split_and!; [|by split; intros [? ?]|].
    + intros f e He. right. destruct (Hin f e He); eauto with congruence.
    + intros _ Hj. destruct (Hidle Hj) as [Ht _]. apply map_eq. intros f.
      destruct (inprog v !! f) as [e|] eqn:He; [|by rewrite lookup_empty].
      destruct (Hin f e He) as [?|Hf]; [done|]. rewrite Ht in Hf. by apply elem_of_nil in Hf.
Qed.

(** C24: while flow [g] is backlogged, another flow [f] is served more than [g] by
    at most one packet of the largest size, less what [f] was ahead of [g] (in
    virtual time) to begin with; the output's packet is always of a flow with the
    least time. *)
Theorem fairqueue_fair f g o v o' v' :
  reach o v → run_while (λ o, is_Some (flows o !! f) ∧ is_Some (flows o !! g) ∧ backlogged o g) o v o' v' →
  is_Some (flows o' !! f) → is_Some (flows o' !! g) →
  (served (packet_weight o) f (log v') - served (packet_weight o) f (log v)) -
  (served (packet_weight o) g (log v') - served (packet_weight o) g (log v)) ≤
    Z.max 0 (packet_weight o + mtu o - (time_of o f - time_of o g)) ∧
  (freeing o' = false → ∀ s q, sending_flow o' = Some s → q ∈ queued_tree o' → time_of o' s ≤ time_of o' q).
Proof.
  intros Hr Hrun Hf Hg. split.
  - apply (proj1 (A := _) (B := lead o' f g ≤ Z.max (lead o f g) (packet_weight o + mtu o))). revert Hr Hf Hg.
    induction Hrun as [o v|o v a o1 v1 o' v' (HPf & HPg & HPb) Ha Hact Hrun IH]; intros Hr Hf Hg.
    { unfold lead. lia. }
    destruct (fq_act_inv o v a (fq_reach_inv o v Hr) Ha) as (o2 & v2 & Hact' & _ & Hw & Hm & Hfair).
    rewrite Hact in Hact'. injection Hact' as <- <-.
    assert (is_Some (flows o1 !! f) ∧ is_Some (flows o1 !! g)) as [Hf1 Hg1] by (inversion Hrun; subst; naive_solver).
    destruct (Hfair f g HPf Hf1 HPg Hg1 HPb) as [Hle Hge].
    destruct (IH ltac:(by eapply reach_act) Hf Hg) as [IHs IHl]. rewrite Hw, Hm in *. unfold lead in *. lia.
  - intros Hfr s q Hs Hq. destruct (fq_reach_inv o' v' (run_while_reach _ _ _ _ _ Hrun Hr)) as (_ & _ & Hok).
    destruct (Hok Hfr) as (_ & _ & Hst). rewrite Hs in Hst.
    destruct Hst as (x & d & Hx & _ & _ & _ & _ & _ & _ & _ & Hmin). rewrite (time_of_Some o' s x Hx). by apply Hmin.
Qed.

(** When the output finishes, the flow's 64-bit time is advanced by the
    packet as exact integers would: at an overflow the same amount is subtracted
    from every flow, no queued flow's time goes below zero, and the finished
    flow's transient wrap below zero cancels. *)
Theorem fairqueue_time_overflow o v f d x :
  reach o v → freeing o = false → sending_flow o = Some f → out v = Some d → flows o !! f = Some x →
  ∃ o' s,
    increment_sent_flow f (u64 (packet_weight o + sending_len o))
      (set_previous (Some f) (set_sending None (sending_len o) o)) = Some (tt, o', []) ∧
    0 ≤ s ∧ time_of o' f = time x + (packet_weight o + zlen d) - s ∧
    (∀ g y, flows o !! g = Some y → g ≠ f → time_of o' g = Z.max 0 (time y - s)) ∧
    (∀ g y, g ∈ queued_tree o → flows o !! g = Some y → time_of o' g = time y - s) ∧
    (∀ g, 0 ≤ time_of o' g ≤ FAIRQUEUE_MAX_TIME) ∧ tree_ok o'.
Proof.
  intros Hr Hfr Hse Hout Hx. destruct (fq_reach_inv o v Hr) as (Hok & Hda & Hrun).
  destruct (Hrun Hfr) as (_ & _ & Hst). rewrite Hse in Hst.
  destruct Hst as (x' & d' & Hx' & Hxq & Hd' & _ & Hlen & Hmt & _ & _ & Hmin). simplify_eq.
  pose proof Hok as (Htr & _ & _ & _ & Htm & Hw & Hm & Hwm).
  assert (u64 (packet_weight o + sending_len o) = packet_weight o + zlen d) as ->.
  { rewrite Hlen. apply u64_small. unfold FAIRQUEUE_MAX_TIME in *. lia. }
  set (o1 := set_previous _ _).
  assert (wp (increment_sent_flow f (packet_weight o + zlen d)) o1 (λ _ o' es, es = [] ∧ ∃ s,
    incremented o1 o' f (packet_weight o + zlen d) s)) as Hi.
  { apply (increment_ok o1 f x); try done. unfold FAIRQUEUE_MAX_TIME in *. lia. }
  apply wp_run in Hi as ([] & o2 & es & Hi & -> & s & Hinc).
  pose proof (incremented_tree_ok o1 o2 f x _ s Hok Hx Hxq Hinc) as Hok2.
  exists o2, s. destruct Hinc as (m & -> & Hmf & Hmg & Hmq & Hs). destruct (Hmf x Hx) as [Hmf' _].
  assert (∀ g y, flows o !! g = Some y → g ≠ f →
    time_of (set_flows (flows_list o1) m o1) g = Z.max 0 (time y - s)) as Hother.
  { intros g y Hy Hg. apply (time_of_Some _ g (set_time (Z.max 0 (time y - s)) y)). cbn. rewrite (Hmg g Hg). change (flows o1) with (flows o). by rewrite Hy. }
  split_and!; [exact Hi|done|unfold time_of; cbn [flows set_flows]; by rewrite Hmf'|exact Hother| | |exact Hok2].
  - intros g y Hg Hy. apply Htr in Hg as (y' & Hy' & Hyq). assert (y' = y) as -> by congruence.
    assert (g ≠ f) as Hgf by congruence. rewrite (Hother g y Hy Hgf). specialize (Hmq g y Hgf Hy Hyq). lia.
  - intros g. unfold time_of. destruct (flows _ !! g) as [z|] eqn:Hz; [|unfold FAIRQUEUE_MAX_TIME, UINT64_MAX; lia].
    destruct Hok2 as (_ & _ & _ & _ & Htm2 & _). by apply (Htm2 g).
Qed.

(** ** Examples *)

Definition example_queue (mtu : Z) : t := mk mtu false 1 None 0 None [] [] ∅ false false.
Definition env0 : env := mkenv None None ∅ [].

Lemma fq_example_reach m l o v :
  0 ≤ m → Init m false 1 = Some (example_queue m, [OutputInit]) →
  do_actions (λ _, true) (example_queue m) env0 l = Some (o, v) → reach o v.
Proof.
  intros Hm Hi Hl. eapply run_while_reach; [by eapply do_actions_run|]. by eapply (reach_init m false 1).
Qed.

Definition backloggedb (g : Z) (o : t) : bool := bool_decide (backlogged o g).

(** Flow 1 has the output for itself and sends four packets; when the output is
    idle again, flow 2 starts. *)
Definition alone : list action :=
  [AFlowInit 1; AFlowInit 2] ++
  concat (replicate 4 [AInput 1 (replicate 10 7); AOutputDone; AJob]) ++
  [AInput 2 (replicate 10 8); AInput 1 (replicate 10 7)].

Definition starve : list action := concat (replicate 4 [AOutputDone; AInput 2 (replicate 10 8); AJob]).

End fairqueue.

(** Flows' times are kept when the queue goes idle, when the current time
    starts again from zero: a flow that had the output for itself and comes back
    waits, with its packet queued, while a flow that started later sends as much
    as it had sent before. *)
Theorem fairqueue_idle_debt `{HB : Build} :
  ∃ o v o' v',
    reach o v ∧ backlogged o 1 ∧ run_while (λ o, backlogged o 1) o v o' v' ∧
    served 1 1 (log v') = served 1 1 (log v) ∧
    served 1 2 (log v') - served 1 2 (log v) = 4 * (packet_weight o + mtu o).
Proof.
  assert ((do_actions (λ _, true) (example_queue 10) env0 alone ≫= λ '(o, v),
    '(o', v') ← do_actions (backloggedb 1) o v starve;
    Some (bool_decide (backlogged o 1), served 1 1 (log v') - served 1 1 (log v),
      served 1 2 (log v') - served 1 2 (log v), packet_weight o + mtu o)) = Some (true, 0, 44, 11)) as Hx
    by (destruct HB; vm_compute; reflexivity).
  destruct (do_actions (λ _, true) (example_queue 10) env0 alone) as [[o v]|] eqn:Hrun; [|done].
  cbn [mbind option_bind] in Hx.
  destruct (do_actions (backloggedb 1) o v starve) as [[o' v']|] eqn:Hst; [|done].
  cbn [mbind option_bind] in Hx. injection Hx as Hb H1 H2 H3. exists o, v, o', v'. split_and!; try lia.
  - by apply (fq_example_reach 10 alone).
  - by apply bool_decide_eq_true in Hb.
  - eapply run_while_mono; [|by eapply do_actions_run]. intros o0 Hb0. by apply bool_decide_eq_true in Hb0.
Qed.

End PacketPassFairQueue.

(** ** Witnesses *)

Section witnesses.
Import PacketPassFairQueue.
#[local] Instance fairqueue_debug : Build := false.

(** Two flows that start together and always have a packet to send. *)
Definition share_start : list action :=
  [AFlowInit 1; AFlowInit 2; AInput 1 (replicate 10 7); AInput 2 (replicate 4 8)].
Definition share_more : list action :=
  [AOutputDone; AInput 1 (replicate 10 7); AJob; AOutputDone; AInput 2 (replicate 4 8); AJob;
   AOutputDone; AInput 2 (replicate 4 8); AJob].

Definition share (f g : Z) (o : t) : bool :=
  bool_decide (is_Some (flows o !! f) ∧ is_Some (flows o !! g) ∧ backlogged o g).

Lemma fairqueue_safe_witness :
  ∃ o v, do_actions (λ _, true) (example_queue 10) env0 share_start = Some (o, v) ∧
    allowed o v AOutputDone ∧ is_Some (act o v AOutputDone).
Proof.
  destruct (do_actions (λ _, true) (example_queue 10) env0 share_start) as [[o v]|] eqn:Hrun; [|by vm_compute in Hrun].
  exists o, v. assert (allowed o v AOutputDone) as Ha.
  { assert (((λ '(o, v), bool_decide (allowed o v AOutputDone)) <$>
      do_actions (λ _, true) (example_queue 10) env0 share_start) = Some true) as Hx by (vm_compute; reflexivity).
    rewrite Hrun in Hx. injection Hx as Hx. by apply bool_decide_eq_true in Hx. }
  split_and!; [done|done|].
  apply (fairqueue_safe o v); [|exact Ha]. by apply (fq_example_reach 10 share_start).
Defined.

Lemma fairqueue_fair_witness :
  ∃ o v o' v', do_actions (λ _, true) (example_queue 10) env0 share_start = Some (o, v) ∧
    do_actions (share 2 1) o v share_more = Some (o', v') ∧
    (served 1 2 (log v') - served 1 2 (log v)) - (served 1 1 (log v') - served 1 1 (log v)) ≤ 11.
Proof.
  assert ((do_actions (λ _, true) (example_queue 10) env0 share_start ≫= λ '(o, v),
    '(o', v') ← do_actions (share 2 1) o v share_more;
    Some (share 2 1 o', packet_weight o, mtu o, time_of o 2, time_of o 1)) = Some (true, 1, 10, 0, 0)) as Hx
    by (vm_compute; reflexivity).
  destruct (do_actions (λ _, true) (example_queue 10) env0 share_start) as [[o v]|] eqn:Hrun; [|done].
  cbn [mbind option_bind] in Hx.
  destruct (do_actions (share 2 1) o v share_more) as [[o' v']|] eqn:Hst; [|done].
  cbn [mbind option_bind] in Hx. injection Hx as Hb Hw Hm H2 H1. apply bool_decide_eq_true in Hb as (? & ? & _).
  exists o, v, o', v'. split_and!; [done|done|].
  destruct (fairqueue_fair 2 1 o v o' v') as [Hs _]; try done.
  - by apply (fq_example_reach 10 share_start).
  - eapply run_while_mono; [|by eapply do_actions_run]. intros o0 Hb0. by apply bool_decide_eq_true in Hb0.
  - rewrite Hw, Hm, H1, H2 in Hs. lia.
Defined.

Lemma fairqueue_time_overflow_witness :
  ∃ o v x o' s, do_actions (λ _, true) (example_queue 10) env0 share_start = Some (o, v) ∧
    flows o !! 1 = Some x ∧
    increment_sent_flow 1 (u64 (packet_weight o + sending_len o))
      (set_previous (Some 1) (set_sending None (sending_len o) o)) = Some (tt, o', []) ∧
    time_of o' 1 = time x + 11 - s.
Proof.
  assert (((λ '(o, v), (freeing o, sending_flow o, out v, bool_decide (is_Some (flows o !! 1)), packet_weight o)) <$>
    do_actions (λ _, true) (example_queue 10) env0 share_start)
    = Some (false, Some 1, Some (replicate 10 7), true, 1)) as Hx by (vm_compute; reflexivity).
  destruct (do_actions (λ _, true) (example_queue 10) env0 share_start) as [[o v]|] eqn:Hrun; [|done].
  injection Hx as Hfr Hse Hout Hex Hw. apply bool_decide_eq_true in Hex as [x Hex].
  destruct (fairqueue_time_overflow o v 1 (replicate 10 7) x) as (o' & s & Hi & _ & Ht & _); try done.
  - by apply (fq_example_reach 10 share_start).
  - exists o, v, x, o', s. split_and!; [done|done|exact Hi|]. rewrite Hw in Ht. exact Ht.
Defined.
End witnesses.
