(* ===== verification/QueueTrees.v ===== *)
(** * QueueTrees: the running timers and the queued flows over the AVL tree

    The reactor keeps its running timers in a [CAvl] tree and the fair queue its
    queued flows in a [SAvl] tree; Reactor.v and FairQueue.v use the ordered list
    of the entries.  Here the lists are shown to be what the pointer structure of
    CAvl.v holds: both comparators order by time and then by address, and every
    call the two components make has the result their models compute. *)
From stdpp Require Import sorting.
From S2P Require Import Prelude Bytes Bavl CAvl Pending Reactor FairQueue.

(** ** Times, then addresses *)

Definition time_address (a b : Z * Z) : Z :=
  let cmp := B_COMPARE a.1 b.1 in if negb (cmp =? 0) then cmp else B_COMPARE a.2 b.2.

#[export] Instance time_address_cmp : Comparator (Z * Z) := time_address.

Lemma time_address_spec a b :
  (time_address a b = -1 ∧ (a.1 < b.1 ∨ a.1 = b.1 ∧ a.2 < b.2)) ∨
  (time_address a b = 0 ∧ a.1 = b.1 ∧ a.2 = b.2) ∨
  (time_address a b = 1 ∧ (b.1 < a.1 ∨ a.1 = b.1 ∧ b.2 < a.2)).
Proof.
  unfold time_address. pose proof (B_COMPARE_spec a.1 b.1). pose proof (B_COMPARE_spec a.2 b.2).
  destruct (Z.eqb_spec (B_COMPARE a.1 b.1) 0); cbn [negb]; lia.
Qed.

#[export] Instance time_address_ok : ComparatorOk (Z * Z).
Proof.
  split; unfold comparator, time_address_cmp; intros; repeat match goal with
  | |- context [time_address ?a ?b] => pose proof (time_address_spec a b); generalize dependent (time_address a b); intros
  | _ : context [time_address ?a ?b] |- _ => pose proof (time_address_spec a b); generalize dependent (time_address a b); intros
  end; lia.
Qed.

Section keyed.
Context `{Build}.
(** The times of the entries; an entry's address is its name. *)
Implicit Types times : Z → Z.

Definition keyed times (p : Z) : Z * Z := (times p, p).
Definition compare_keyed times (p q : Z) : Z := time_address (keyed times p) (keyed times q).
Definition compare_key times (k : Z * Z) (q : Z) : Z := time_address k (keyed times q).

#[export] Instance keyed_order times : EntryOrder (keyed times) (compare_keyed times) (compare_key times).
Proof. by split. Qed.

Lemma keyed_lt times p q :
  BAVL.node_lt (keyed times) p q ↔ times p < times q ∨ times p = times q ∧ p < q.
Proof.
  unfold BAVL.node_lt, comparator, time_address_cmp. pose proof (time_address_spec (keyed times p) (keyed times q)) as Hs.
  cbn in Hs. lia.
Qed.

(** The pointers do not change when the times do, as long as the list stays in
    order. *)
Lemma represents_times times times' tr l :
  BAVL.represents (keyed times) tr l → StronglySorted (BAVL.node_lt (keyed times')) l →
  BAVL.represents (keyed times') tr l.
Proof. intros (T & Hv & Ha & _ & <-) Hs. by exists T. Qed.

Lemma sorted_same_times times times' (l : list Z) :
  (∀ p, p ∈ l → times' p = times p) → StronglySorted (BAVL.node_lt (keyed times)) l →
  StronglySorted (BAVL.node_lt (keyed times')) l.
Proof.
  intros Ht Hs. induction Hs as [|p l Hs IH Hp]; constructor.
  - apply IH. set_solver.
  - rewrite Forall_forall in *. intros q Hq. specialize (Hp q Hq). rewrite keyed_lt in *. rewrite !Ht by set_solver. done.
Qed.

(** An insertion that finds no equal entry. *)
Lemma Insert_keyed times tr l p :
  BAVL.represents (keyed times) tr l → p ∉ l →
  ∃ ref tr' l', CAvl.Insert (compare_keyed times) p tr = Some ((true, ref), tr', []) ∧
    BAVL.list_insert (keyed times) p l = inr l' ∧ BAVL.represents (keyed times) tr' l'.
Proof.
  intros Hr Hp. rewrite (CAvl.Insert_represents (compare_keyed times) (compare_key times) (keyed times) tr l p Hr Hp).
  destruct (BAVL.represents_Insert (keyed times) tr l p Hr Hp) as ([b ref] & tr' & Hrun & Hi).
  pose proof (list_insert_perm (keyed times) p l) as Hli.
  destruct (BAVL.list_insert (keyed times) p l) as [e|l'].
  - exfalso. destruct Hli as [He Hc]. unfold comparator, time_address_cmp in Hc.
    pose proof (time_address_spec (keyed times p) (keyed times e)) as Hs. cbn in Hs. assert (p = e) as -> by lia. done.
  - destruct Hi as (Hb & Hr' & _). cbn in Hb. subst b. by exists ref, tr', l'.
Qed.

(** A set of entries has one order. *)
Lemma keyed_unique times (l l' : list Z) :
  StronglySorted (BAVL.node_lt (keyed times)) l → StronglySorted (BAVL.node_lt (keyed times)) l' → l ≡ₚ l' → l = l'.
Proof.
  apply StronglySorted_unique_strong. intros p q _ _. rewrite !keyed_lt. lia.
Qed.
End keyed.

(** ** The running timers of the reactor *)

Section timers.
Import BReactor.
Context `{Build}.

(** The time a timer in memory is set to. *)
Definition timer_abs (ts : gmap Z BSmallTimer) (p : Z) : Z := match ts !! p with Some x => absTime x | None => 0 end.

(** [tr] is the reactor's [timers_tree]. *)
Definition timers_in (o : BReactor.t) (tr : BAVL.t) : Prop :=
  BAVL.represents (keyed (timer_abs (timers o))) tr (timers_tree o).

(** The comparator of the tree is [compare_timers]. *)
Lemma compare_timers_keyed ts p q :
  is_Some (ts !! p) → is_Some (ts !! q) → compare_timers ts p q = Some (compare_keyed (timer_abs ts) p q).
Proof.
  intros [x Hx] [y Hy]. unfold compare_timers, compare_keyed, time_address, keyed, timer_abs. by rewrite Hx, Hy.
Qed.

Lemma drop_job_filter p l : List.filter (λ q, negb (q =? p)) l = drop_job p l.
Proof.
  unfold drop_job. induction l as [|q l IH]; [done|]. rewrite filter_cons. cbn. rewrite IH.
  destruct (Z.eqb_spec q p); case_decide; cbn; done || congruence.
Qed.

Lemma timer_lt_keyed ts l :
  StronglySorted (timer_lt ts) l → StronglySorted (BAVL.node_lt (keyed (timer_abs ts))) l.
Proof.
  induction 1 as [|p l Hs IH Hp]; constructor; [done|]. eapply Forall_impl; [exact Hp|].
  intros q (x & y & Hx & Hy & Hlt). apply keyed_lt. unfold timer_abs. by rewrite Hx, Hy.
Qed.

Lemma timer_abs_state ts p s q : timer_abs (alter (set_state s) p ts) q = timer_abs ts q.
Proof.
  unfold timer_abs. destruct (decide (q = p)) as [->|Hne]; [|by rewrite lookup_alter_ne].
  rewrite lookup_alter_eq. by destruct (ts !! p).
Qed.

(** A running timer leaves the tree; its state changes, its time does not. *)
Lemma timers_remove clk o tr p s :
  timers_ok clk o → timers_in o tr → p ∈ timers_tree o →
  ∃ tr', CAvl.Remove p tr = Some (tt, tr', []) ∧
    BAVL.represents (keyed (timer_abs (alter (set_state s) p (timers o)))) tr' (drop_job p (timers_tree o)).
Proof.
  intros Hk Hr Hp.
  destruct (CAvl.Remove_list (compare_keyed (timer_abs (timers o))) (compare_key (timer_abs (timers o))) _ tr _ p Hr Hp)
    as (tr' & Hrun & Hr').
  exists tr'. split; [exact Hrun|]. rewrite drop_job_filter in Hr'. eapply represents_times; [exact Hr'|].
  eapply sorted_same_times; [|eapply BAVL.represents_sorted, Hr'].
  intros q _. apply timer_abs_state.
Qed.

(** The calls to the tree of [BReactor_SetSmallTimer]. *)
Definition tree_set (x : BSmallTimer) (p : Z) (ts : gmap Z BSmallTimer) : M BAVL.t False bool :=
  when (bool_decide (state x = TIMER_STATE_RUNNING)) (CAvl.Remove p);;
  r ← CAvl.Insert (compare_keyed (timer_abs ts)) p;
  mret r.1.

Lemma tree_set_ok clk o tr p x o' :
  timers_ok clk o → timers_in o tr → timers o !! p = Some x → timers_ok clk o' →
  (∀ q, q ≠ p → timers o' !! q = timers o !! q) → timers_tree o' ≡ₚ p :: drop_job p (timers_tree o) →
  ∃ tr', tree_set x p (timers o') tr = Some (true, tr', []) ∧ timers_in o' tr'.
Proof.
  intros Hk Hr Hx Hk' Ht Hp.
  assert (∃ tr1, when (bool_decide (state x = TIMER_STATE_RUNNING)) (CAvl.Remove p) tr = Some (tt, tr1, []) ∧
    BAVL.represents (keyed (timer_abs (timers o))) tr1 (drop_job p (timers_tree o))) as (tr1 & Hrem & Hr1).
  { case_bool_decide as Hs; cbn.
    - destruct (CAvl.Remove_list (compare_keyed (timer_abs (timers o))) (compare_key (timer_abs (timers o))) _ tr _ p Hr)
        as (tr' & Hrun & Hr'); [by apply (tk_running _ _ Hk); exists x|].
      exists tr'. by rewrite <- drop_job_filter.
    - exists tr. split; [done|]. rewrite drop_absent; [done|]. rewrite (tk_running _ _ Hk). intros (y & Hy & ?). congruence. }
  assert (BAVL.represents (keyed (timer_abs (timers o'))) tr1 (drop_job p (timers_tree o))) as Hr2.
  { eapply represents_times; [exact Hr1|]. eapply sorted_same_times; [|eapply BAVL.represents_sorted, Hr1].
    intros q [Hne _]%elem_of_drop. unfold timer_abs. by rewrite Ht. }
  destruct (Insert_keyed _ tr1 _ p Hr2) as (ref & tr2 & l' & Hins & Hli & Hr3).
  { rewrite elem_of_drop. tauto. }
  exists tr2. split.
  - unfold tree_set, mbind, M_bind. rewrite Hrem, Hins. done.
  - unfold timers_in. replace (timers_tree o') with l'; [done|]. apply (keyed_unique (timer_abs (timers o'))).
    + by eapply BAVL.represents_sorted.
    + apply timer_lt_keyed, (tk_sorted _ _ Hk').
    + pose proof (list_insert_perm (keyed (timer_abs (timers o'))) p (drop_job p (timers_tree o))) as Hpm.
      rewrite Hli in Hpm. etrans; [exact Hpm|by symmetry].
Qed.

(** C37: the tree of running timers does what the reactor's list of them says:
    the comparator of the tree is [compare_timers], the first timer of the tree is
    the one the loop takes, and the calls that [BReactor_RemoveSmallTimer], the
    expiry of a timer and [BReactor_SetSmallTimer] make to the AVL tree never
    fail and leave the tree of exactly the timers that are then running. *)
Theorem timers_tree_cavl clk o tr :
  timers_ok clk o → timers_in o tr →
  (∀ p q, p ∈ timers_tree o → q ∈ timers_tree o →
     compare_timers (timers o) p q = Some (compare_keyed (timer_abs (timers o)) p q)) ∧
  CAvl.GetFirst tr = Some (head (timers_tree o), tr, []) ∧
  (∀ p, p ∈ timers_tree o → ∃ o' tr',
     expire p o = Some (tt, o', []) ∧ CAvl.Remove p tr = Some (tt, tr', []) ∧ timers_in o' tr') ∧
  (∀ p x, timers o !! p = Some x → ∃ o' tr',
     BReactor_RemoveSmallTimer p o = Some (tt, o', []) ∧
     when (bool_decide (state x = TIMER_STATE_RUNNING)) (CAvl.Remove p) tr = Some (tt, tr', []) ∧ timers_in o' tr') ∧
  (∀ p x mode time, timers o !! p = Some x → mode_ok mode time → ∃ o' tr',
     BReactor_SetSmallTimer p mode time o = Some (tt, o', []) ∧
     tree_set x p (timers o') tr = Some (true, tr', []) ∧ timers_in o' tr').
Proof.
  intros Hk Hr. split_and!.
  - intros p q Hp Hq. apply compare_timers_keyed.
    + apply (tk_running _ _ Hk) in Hp as (x & Hx & _). eauto.
    + apply (tk_running _ _ Hk) in Hq as (x & Hx & _). eauto.
  - by eapply CAvl.ends_list.
  - intros p Hp. destruct (timers_remove clk o tr p TIMER_STATE_EXPIRED Hk Hr Hp) as (tr' & Hrun & Hr').
    by eexists _, tr'.
  - intros p x Hx. unfold BReactor_RemoveSmallTimer, mbind, M_bind, get_timer, mbind, M_bind, mget, mlift. rewrite Hx.
    destruct (state x) eqn:Hs; cbn.
    + by exists o, tr.
    + destruct (timers_remove clk o tr p TIMER_STATE_INACTIVE Hk Hr) as (tr' & Hrun & Hr').
      { apply (tk_running _ _ Hk). by exists x. }
      eexists _, tr'. split_and!; [done| |exact Hr']. unfold when. by rewrite bool_decide_true.
    + eexists _, tr. split_and!; [done|done|]. eapply represents_times; [exact Hr|].
      eapply sorted_same_times; [|eapply BAVL.represents_sorted, Hr]. intros q _. apply timer_abs_state.
  - intros p x mode time Hx Hm. pose proof (SetSmallTimer_ok clk o p x mode time Hk Hx Hm) as Hw.
    apply wp_run in Hw as ([] & o' & es & Hrun & -> & Hk' & l' & -> & Hp).
    destruct (tree_set_ok clk o tr p x _ Hk Hr Hx Hk') as (tr' & Hts & Hr'); [|exact Hp|].
    { intros q Hq. cbn. by rewrite lookup_insert_ne. }
    by eexists _, tr'.
Qed.
End timers.

(** ** The queued flows of the fair queue *)

Section flows.
Import PacketPassFairQueue.
Context `{Build}.

(** [tr] is the queue's [queued_tree]. *)
Definition queued_in (o : PacketPassFairQueue.t) (tr : BAVL.t) : Prop :=
  BAVL.represents (keyed (time_of o)) tr (queued_tree o).

Lemma flow_lt_keyed times l : StronglySorted (flow_lt times) l → StronglySorted (BAVL.node_lt (keyed times)) l.
Proof.
  induction 1 as [|p l Hs IH Hp]; constructor; [done|]. eapply Forall_impl; [exact Hp|].
  intros q Hq. rewrite flow_lt_iff in Hq. by apply keyed_lt.
Qed.

Lemma queued_in_times o o' tr :
  queued_in o tr → tree_ok o' → queued_tree o' = queued_tree o → queued_in o' tr.
Proof.
  intros Hr Hk' He. unfold queued_in. rewrite He. eapply represents_times; [exact Hr|]. apply flow_lt_keyed.
  rewrite <- He. apply Hk'.
Qed.

(** The tree of queued flows does what the fair queue's list of them says:
    the comparator is [compare_flows]; the first flow and the test for emptiness,
    the removal of a flow and the insertion of one run on the AVL tree without
    failing and leave the tree of exactly the flows the queue lists; and when the
    times of flows change while they are in the tree (a flow that is not queued
    gets more time, or all times are lowered against overflow), the tree needs no
    change: it is still the ordered tree of the queued flows. *)
Theorem queued_tree_savl o tr :
  tree_ok o → queued_in o tr →
  (∀ p q, compare_flows (time_of o) p q = compare_keyed (time_of o) p q) ∧
  SAvl.GetFirst tr = Some (Tree_GetFirst o, tr, []) ∧ SAvl.IsEmpty tr = Tree_IsEmpty o ∧
  (∀ f, f ∈ queued_tree o → ∃ o' tr',
     Tree_Remove f o = Some (tt, o', []) ∧ SAvl.Remove f tr = Some (tt, tr', []) ∧ queued_in o' tr') ∧
  (∀ f, f ∉ queued_tree o → ∃ l ref tr', tree_insert (time_of o) f (queued_tree o) = Some l ∧
     SAvl.Insert (compare_keyed (time_of o)) f tr = Some ((true, ref), tr', []) ∧ queued_in (set_tree l o) tr') ∧
  (∀ o', tree_ok o' → queued_tree o' = queued_tree o → queued_in o' tr) ∧
  (∀ f x amount, flows o !! f = Some x → is_queued x = false → sending_flow o = None →
     0 ≤ amount ≤ FAIRQUEUE_MAX_TIME → (∀ q, q ∈ queued_tree o → time x ≤ time_of o q) →
     ∃ o', increment_sent_flow f amount o = Some (tt, o', []) ∧ queued_in o' tr).
Proof.
  intros Hk Hr. split_and!.
  - done.
  - unfold SAvl.GetFirst. destruct (CAvl.ends_list (keyed (time_of o)) tr _ Hr) as [-> _]. done.
  - unfold SAvl.IsEmpty, Tree_IsEmpty. rewrite (BAVL.represents_IsEmpty _ tr _ Hr : CAvl.IsEmpty tr = _).
    by destruct (queued_tree o).
  - intros f Hf.
    destruct (CAvl.Remove_list (compare_keyed (time_of o)) (compare_key (time_of o)) _ tr _ f Hr Hf) as (tr' & Hrun & Hr').
    by eexists _, tr'.
  - intros f Hf. destruct (tree_insert_spec (time_of o) f (queued_tree o)) as (l & Hl & Hs & Hp); [apply Hk|done|].
    destruct (Insert_keyed (time_of o) tr _ f Hr Hf) as (ref & tr' & l' & Hins & Hli & Hr').
    exists l, ref, tr'. split_and!; [done|done|]. unfold queued_in. replace (queued_tree (set_tree l o)) with l'; [done|].
    apply (keyed_unique (time_of o)); [by eapply BAVL.represents_sorted|by apply flow_lt_keyed|].
    pose proof (list_insert_perm (keyed (time_of o)) f (queued_tree o)) as Hpm. rewrite Hli in Hpm. etrans; [exact Hpm|by symmetry].
  - intros o' Hk' He. by apply (queued_in_times o).
  - intros f x amount Hx Hq Hs Ha Hmin. pose proof (increment_ok o f x amount Hk Hx Hq Hs Ha Hmin) as Hw.
    apply wp_run in Hw as ([] & o' & es & Hrun & -> & s & Hi). exists o'. split; [done|].
    apply (queued_in_times o); [done|by eapply incremented_tree_ok|]. by destruct Hi as (m & -> & _).
Qed.
End flows.

(** ** Examples *)

Section queue_tree_examples.
#[local] Instance queue_tree_build : Build := false.

(** A tree of one entry. *)
Definition lone_tree (p : Z) : BAVL.t := BAVL.mk (Some p) {[ p := BAVL.mk_node None None None 0 ]}.

Lemma lone_represents times p : BAVL.represents (keyed times) (lone_tree p) [p].
Proof.
  exists (BAVL.Node BAVL.Leaf p 0 BAVL.Leaf). split_and!; [|cbn; lia|repeat constructor|done].
  split_and!; [done| |apply NoDup_singleton]. cbn. rewrite lookup_singleton_eq. done.
Qed.

(** A reactor with a timer running to time 15 and an inactive one. *)
Definition demo_timers : gmap Z BReactor.BSmallTimer :=
  {[ 1 := BReactor.mk_timer 77 true 0 0 15 BReactor.TIMER_STATE_RUNNING;
     2 := BReactor.mk_timer 88 true 0 0 0 BReactor.TIMER_STATE_INACTIVE ]}.
Definition demo_reactor : BReactor.t :=
  BReactor.mk false 0 BPending.BPendingGroup_Init [1] [] [] ∅ [] 0 demo_timers ∅ ∅.

Lemma demo_timers_lookup p x : demo_timers !! p = Some x →
  p = 1 ∧ x = BReactor.mk_timer 77 true 0 0 15 BReactor.TIMER_STATE_RUNNING ∨
  p = 2 ∧ x = BReactor.mk_timer 88 true 0 0 0 BReactor.TIMER_STATE_INACTIVE.
Proof.
  unfold demo_timers. intros [[<- <-]|[_ [<- <-]%lookup_singleton_Some]]%lookup_insert_Some; tauto.
Qed.

Lemma demo_timers_ok : BReactor.timers_ok 5 demo_reactor.
Proof.
  split; cbn; try (by repeat constructor).
  - intros p. rewrite elem_of_cons. split.
    + intros [->|Hp]; [|by apply elem_of_nil in Hp]. eexists. split; reflexivity.
    + intros (x & [[-> ->]|[-> ->]]%demo_timers_lookup & Hs); [by left|discriminate Hs].
  - intros p. split; [by intros Hp%elem_of_nil|].
    intros (x & [[-> ->]|[-> ->]]%demo_timers_lookup & Hs); discriminate Hs.
  - intros p x [[-> ->]|[-> ->]]%demo_timers_lookup Hs; discriminate Hs.
  - intros p x [[-> ->]|[-> ->]]%demo_timers_lookup Hs; [|discriminate Hs]. unfold INT64_MIN, INT64_MAX. cbn. lia.
Qed.

Lemma timers_tree_cavl_witness :
  ∃ o' tr', BReactor.BReactor_SetSmallTimer 2 BReactor.BTIMER_SET_ABSOLUTE 10 demo_reactor = Some (tt, o', []) ∧
    BReactor.timers_tree o' = [2; 1] ∧ timers_in o' tr' ∧ CAvl.GetFirst tr' = Some (Some 2, tr', []).
Proof.
  destruct (timers_tree_cavl 5 demo_reactor (lone_tree 1) demo_timers_ok (lone_represents _ 1)) as (_ & _ & _ & _ & HS).
  destruct (HS 2 (BReactor.mk_timer 88 true 0 0 0 BReactor.TIMER_STATE_INACTIVE) BReactor.BTIMER_SET_ABSOLUTE 10)
    as (o' & tr' & Hrun & Hts & Hin).
  { reflexivity. }
  { split; [unfold INT64_MIN, INT64_MAX; lia|exact I]. }
  exists o', tr'. split; [exact Hrun|]. pose proof Hrun as Hrun'. vm_compute in Hrun'. injection Hrun' as Ho.
  split; [by rewrite <- Ho|]. split; [exact Hin|].
  destruct (timers_tree_cavl 5 o' tr') as (_ & Hf & _); [|exact Hin|rewrite Hf, <- Ho; reflexivity].
  pose proof (BReactor.SetSmallTimer_ok 5 demo_reactor 2 _ BReactor.BTIMER_SET_ABSOLUTE 10 demo_timers_ok (eq_refl _)) as Hw.
  eapply wp_elim in Hw as (_ & Hk & _); [exact Hk| |exact Hrun]. split; [unfold INT64_MIN, INT64_MAX; lia|exact I].
Defined.

(** A fair queue with one flow queued and one that has just finished. *)
Definition demo_flows : gmap Z PacketPassFairQueue.flow :=
  {[ 1 := PacketPassFairQueue.mk_flow 7 true [1; 2] false; 2 := PacketPassFairQueue.mk_flow 3 false [] false ]}.
Definition demo_fairqueue : PacketPassFairQueue.t :=
  PacketPassFairQueue.mk 10 false 1 None 0 None [1] [1; 2] demo_flows false false.

Lemma demo_flows_lookup f x : demo_flows !! f = Some x →
  f = 1 ∧ x = PacketPassFairQueue.mk_flow 7 true [1; 2] false ∨ f = 2 ∧ x = PacketPassFairQueue.mk_flow 3 false [] false.
Proof. unfold demo_flows. intros [[<- <-]|[_ [<- <-]%lookup_singleton_Some]]%lookup_insert_Some; tauto. Qed.

Lemma demo_tree_ok : PacketPassFairQueue.tree_ok demo_fairqueue.
Proof.
  unfold PacketPassFairQueue.tree_ok, PacketPassFairQueue.FAIRQUEUE_MAX_TIME, UINT64_MAX. cbn. split_and!; try lia.
  - intros f. rewrite list_elem_of_singleton. split.
    + intros ->. eexists. split; reflexivity.
    + intros (x & [[-> ->]|[-> ->]]%demo_flows_lookup & Hq); [done|discriminate Hq].
  - repeat constructor.
  - apply (bool_decide_unpack _). reflexivity.
  - intros f. rewrite elem_of_cons, list_elem_of_singleton. split.
    + intros [->| ->]; by eexists.
    + intros [x [[-> _]|[-> _]]%demo_flows_lookup]; tauto.
  - intros f x [[-> ->]|[-> ->]]%demo_flows_lookup; cbn; lia.
Qed.

Lemma queued_tree_savl_witness :
  ∃ l ref tr', PacketPassFairQueue.tree_insert (PacketPassFairQueue.time_of demo_fairqueue) 2 [1] = Some l ∧ l = [2; 1] ∧
    SAvl.Insert (compare_keyed (PacketPassFairQueue.time_of demo_fairqueue)) 2 (lone_tree 1) = Some ((true, ref), tr', []) ∧
    SAvl.GetFirst (lone_tree 1) = Some (Some 1, lone_tree 1, []).
Proof.
  destruct (queued_tree_savl demo_fairqueue (lone_tree 1) demo_tree_ok (lone_represents _ 1)) as (_ & HF & _ & _ & HI & _).
  destruct (HI 2) as (l & ref & tr' & Hl & Hins & _); [cbn; rewrite list_elem_of_singleton; lia|].
  exists l, ref, tr'. split; [exact Hl|]. split; [|split; [exact Hins|exact HF]].
  vm_compute in Hl. injection Hl as <-. reflexivity.
Defined.
End queue_tree_examples.
