(* ===== verification/Program.v ===== *)
(** * Program: start, event loop and end of tun2socks

    The life of the program (tun2socks/tun2socks.c): [run] acquires its
    objects one after the other, enters the event loop and releases them in
    reverse order, leaving through the labels fail1 to fail5 when something
    cannot be acquired; the handlers of the loop initialise lwIP, accept TCP
    connections, run the timer and end the program.  [udp_init] and [udp_free]
    are included, as are system/BSignal.c, system/BNetwork.c and system/BTime.h as far as
    they keep a state, and the two functions Java calls.

    The objects of other components are resources that are acquired and
    released; acquiring one twice or releasing one that is not held ends the
    program.  The clients are those of TcpClient, with their own state: the list
    [tcp_clients], the counter and the clients themselves are composed here. *)
From Stdlib Require Import Ascii String.
From S2P Require Import Prelude Bytes Platform Text NetProto Addr PacketProto SocksClient Options UdpGw TcpClient StringMap Device.

Inductive resource :=
| Reactor | Signal | Device | ReadInterface | ReadBuffer | UdpGwObject
| LwipInitJob | WriteBuf
| TcpTimer                          (** the timer is running *)
| UdpBuffer | UdpSocket | UdpFd | UdpMap
| Netif | NewPcb | ListenerPcb | ListenerIp6Pcb.

Definition resource_id (r : resource) : nat :=
  match r with
  | Reactor => 0 | Signal => 1 | Device => 2 | ReadInterface => 3 | ReadBuffer => 4 | UdpGwObject => 5
  | LwipInitJob => 6 | WriteBuf => 7 | TcpTimer => 8 | UdpBuffer => 9 | UdpSocket => 10 | UdpFd => 11 | UdpMap => 12
  | Netif => 13 | NewPcb => 14 | ListenerPcb => 15 | ListenerIp6Pcb => 16
  end.
Definition resource_eqb (r1 r2 : resource) : bool := Nat.eqb (resource_id r1) (resource_id r2).

(** The results of the system calls and allocations of [run]. *)
Record answers := mk_answers {
  network_ok : bool; reactor_ok : bool; signal_ok : bool; device_ok : bool;
  ifr_mtu : Z;                      (** the MTU of a device opened by name *)
  read_buffer_ok : bool; udpgw_ok : bool; write_buf_ok : bool;
  udp_buffer_ok : bool; udp_socket : Z; bind_ok : bool; connect_ok : bool; add_fd_ok : bool;
  clock_now : option (Z * Z); wall_now : Z * Z;   (** of [clock_gettime] and [gettimeofday] *)
  bound_pcbs : list Z; active_pcbs : list Z; tw_pcbs : list Z
}.

(** The results of the calls into lwIP for one listener. *)
Record listen_answers := mk_listen { new_ok : bool; bind_netif_ok : bool; listen_ok : bool }.

Module Program.
Section program.
Context `{Build} {P : Type} `{Lwip P} `{Resolver}.
Context (open_file : string → option file_t) (alloc : Z → bool) (options : Options.options_t).

Record t := mk {
  globals : Arguments.t;
  quitting : bool;
  exiting : bool;                   (** of the reactor *)
  have_netif : bool;
  listener : bool;                  (** whether the pointer is not NULL *)
  listener_ip6 : bool;
  job_set : bool;                   (** of lwip_init_job *)
  udp_mtu : Z;
  sockfd : Z;                       (** udp_pcb.sockfd *)
  tcp_clients : list Z;
  num_clients : Z;
  heap : gmap Z (TcpClient.t P * TcpClient.env);
  live : resource → bool;
  g_terminate : bool;
  bnetwork_initialized : bool;
  bsignal_initialized : bool;
  bsignal_finished : bool;
  btime_global : btime_global_t
}.

Inductive event :=
| SetChannelLoglevel (channel level : Z)
| TcpAbort (pcb : Z).

Abbreviation IO := (M t event).

Definition with_globals (g : Arguments.t) (s : t) : t :=
  mk g (quitting s) (exiting s) (have_netif s) (listener s) (listener_ip6 s) (job_set s) (udp_mtu s) (sockfd s)
    (tcp_clients s) (num_clients s) (heap s) (live s) (g_terminate s) (bnetwork_initialized s)
    (bsignal_initialized s) (bsignal_finished s) (btime_global s).
Definition with_quitting (q e : bool) (s : t) : t :=
  mk (globals s) q e (have_netif s) (listener s) (listener_ip6 s) (job_set s) (udp_mtu s) (sockfd s)
    (tcp_clients s) (num_clients s) (heap s) (live s) (g_terminate s) (bnetwork_initialized s)
    (bsignal_initialized s) (bsignal_finished s) (btime_global s).
Definition with_lwip (netif l4 l6 : bool) (s : t) : t :=
  mk (globals s) (quitting s) (exiting s) netif l4 l6 (job_set s) (udp_mtu s) (sockfd s)
    (tcp_clients s) (num_clients s) (heap s) (live s) (g_terminate s) (bnetwork_initialized s)
    (bsignal_initialized s) (bsignal_finished s) (btime_global s).
Definition with_job (b : bool) (s : t) : t :=
  mk (globals s) (quitting s) (exiting s) (have_netif s) (listener s) (listener_ip6 s) b (udp_mtu s) (sockfd s)
    (tcp_clients s) (num_clients s) (heap s) (live s) (g_terminate s) (bnetwork_initialized s)
    (bsignal_initialized s) (bsignal_finished s) (btime_global s).
Definition with_udp (mtu fd : Z) (s : t) : t :=
  mk (globals s) (quitting s) (exiting s) (have_netif s) (listener s) (listener_ip6 s) (job_set s) mtu fd
    (tcp_clients s) (num_clients s) (heap s) (live s) (g_terminate s) (bnetwork_initialized s)
    (bsignal_initialized s) (bsignal_finished s) (btime_global s).
Definition with_clients (l : list Z) (n : Z) (h : gmap Z (TcpClient.t P * TcpClient.env)) (s : t) : t :=
  mk (globals s) (quitting s) (exiting s) (have_netif s) (listener s) (listener_ip6 s) (job_set s) (udp_mtu s) (sockfd s)
    l n h (live s) (g_terminate s) (bnetwork_initialized s) (bsignal_initialized s) (bsignal_finished s) (btime_global s).
Definition with_live (l : resource → bool) (s : t) : t :=
  mk (globals s) (quitting s) (exiting s) (have_netif s) (listener s) (listener_ip6 s) (job_set s) (udp_mtu s) (sockfd s)
    (tcp_clients s) (num_clients s) (heap s) l (g_terminate s) (bnetwork_initialized s)
    (bsignal_initialized s) (bsignal_finished s) (btime_global s).
Definition with_terminate (b : bool) (s : t) : t :=
  mk (globals s) (quitting s) (exiting s) (have_netif s) (listener s) (listener_ip6 s) (job_set s) (udp_mtu s) (sockfd s)
    (tcp_clients s) (num_clients s) (heap s) (live s) b (bnetwork_initialized s)
    (bsignal_initialized s) (bsignal_finished s) (btime_global s).
Definition with_system (net init fin : bool) (s : t) : t :=
  mk (globals s) (quitting s) (exiting s) (have_netif s) (listener s) (listener_ip6 s) (job_set s) (udp_mtu s) (sockfd s)
    (tcp_clients s) (num_clients s) (heap s) (live s) (g_terminate s) net init fin (btime_global s).
Definition with_btime (g : btime_global_t) (s : t) : t :=
  mk (globals s) (quitting s) (exiting s) (have_netif s) (listener s) (listener_ip6 s) (job_set s) (udp_mtu s) (sockfd s)
    (tcp_clients s) (num_clients s) (heap s) (live s) (g_terminate s) (bnetwork_initialized s)
    (bsignal_initialized s) (bsignal_finished s) g.

Definition set_live (r : resource) (b : bool) (s : t) : t :=
  with_live (λ r', if resource_eqb r' r then b else live s r') s.

Definition acquire (r : resource) : IO unit :=
  s ← mget; if live s r then mabort else mput (set_live r true s).
Definition release (r : resource) : IO unit :=
  s ← mget; if live s r then mput (set_live r false s) else mabort.

(** ** What the program uses of the system *)

Definition BNetwork_GlobalInit (ok : bool) : IO bool :=
  s ← mget;
  ASSERT (negb (bnetwork_initialized s));;
  if ok then
    mmodify (with_system true (bsignal_initialized s) (bsignal_finished s));;
    mret true
  else mret false.

Definition BSignal_Init (ok : bool) : IO bool :=
  s ← mget;
  ASSERT (negb (bsignal_initialized s));;
  if ok then
    acquire Signal;;
    mmodify (λ s, with_system (bnetwork_initialized s) true false s);;
    mret true
  else mret false.

(** [BUnixSignal_Free] does nothing on a structure that was never initialised,
    whose bytes are zero, and frees the array of one that was freed before a
    second time. *)
Definition BSignal_Finish : IO unit :=
  s ← mget;
  ASSERT (bsignal_initialized s);;
  ASSERT (negb (bsignal_finished s));;
  (if live s Signal then release Signal
   else if bsignal_initialized s then mabort else mret tt);;
  mmodify (λ s, with_system (bnetwork_initialized s) (bsignal_initialized s) true s).

(** The objects that have jobs, timers or descriptors in the reactor. *)
Definition in_reactor : list resource :=
  [Signal; Device; ReadInterface; ReadBuffer; UdpGwObject; LwipInitJob; TcpTimer; UdpFd].

(** The timers and descriptors still registered go with the reactor. *)
Definition BReactor_Free : IO unit :=
  s ← mget;
  ASSERT (forallb (λ r, negb (live s r)) in_reactor);;
  release Reactor;;
  mmodify (set_live UdpFd false);;
  mmodify (set_live TcpTimer false).

Definition BReactor_Quit : IO unit := mmodify (λ s, with_quitting (quitting s) true s).

(** [BReactor_RemoveTimer]: also allowed when the timer is not running. *)
Definition BReactor_RemoveTimer : IO unit := s ← mget; when (live s TcpTimer) (release TcpTimer).

Definition terminate : IO unit :=
  s ← mget;
  ASSERT (negb (quitting s));;
  (* set quitting *)
  mmodify (with_quitting true (exiting s));;
  (* exit event loop *)
  BReactor_Quit.

(** ** The socket of the DNS relay *)

Definition udp_init (e : answers) : IO Z :=
  (* init receive buffer *)
  if negb (udp_buffer_ok e) then mret 0 else
  acquire UdpBuffer;;
  if udp_socket e <? 0 then mret 0 else
  acquire UdpSocket;;
  (* bind to local host *)
  if negb (bind_ok e) then release UdpSocket;; mret 0 else
  (* connect to the server *)
  if negb (connect_ok e) then release UdpSocket;; mret 0 else
  (* monitor socket for read *)
  if negb (add_fd_ok e) then release UdpSocket;; mret 0 else
  acquire UdpFd;;
  mmodify (λ s, with_udp (udp_mtu s) (udp_socket e) s);;
  acquire UdpMap;;
  mret (udp_socket e).

(** Called only when [udp_init] succeeded, so that the buffer is not NULL. *)
Definition udp_free : IO unit :=
  release UdpBuffer;;
  s ← mget;
  when (negb (sockfd s =? 0)) (release UdpSocket);;
  release UdpMap.

(** ** Handlers *)

Definition is_ipv4 (a : BIPAddr) : bool := Arguments.is_ipv4 a.

(** One listener: [set] stores the pointer. *)
Definition init_listener (a : listen_answers) (r : resource) (set : t → t) (ok fail : IO unit) : IO unit :=
  if negb (new_ok a) then fail else
  acquire NewPcb;;
  (* bind listener *)
  if negb (bind_netif_ok a) then release NewPcb;; fail else
  (* listen listener: the pcb becomes the listener *)
  if negb (listen_ok a) then release NewPcb;; fail else
  release NewPcb;;
  acquire r;;
  mmodify set;;
  ok.

Definition lwip_init_job_handler (netif_ok : bool) (l4 l6 : listen_answers) : IO unit :=
  s ← mget;
  ASSERT (negb (quitting s));;
  ASSERT (is_ipv4 (Arguments.netif_ipaddr (globals s)));;
  ASSERT (is_ipv4 (Arguments.netif_netmask (globals s)));;
  ASSERT (negb (have_netif s));;
  ASSERT (negb (listener s));;
  ASSERT (negb (listener_ip6 s));;
  let fail := s ← mget; when (negb (quitting s)) terminate in
  (* init netif *)
  if negb netif_ok then fail else
  acquire Netif;;
  mmodify (λ s, with_lwip true (listener s) (listener_ip6 s) s);;
  (* init listener *)
  init_listener l4 ListenerPcb (λ s, with_lwip (have_netif s) true (listener_ip6 s) s)
    (if Options.given (Options.netif_ip6addr options) then
       init_listener l6 ListenerIp6Pcb (λ s, with_lwip (have_netif s) (listener s) true s) (mret tt) fail
     else mret tt)
    fail.

Definition tcp_timer_handler : IO unit :=
  s ← mget;
  ASSERT (negb (quitting s));;
  if g_terminate s then terminate
  else
    (* schedule next timer *)
    acquire TcpTimer.

Definition device_error_handler : IO unit :=
  s ← mget;
  ASSERT (negb (quitting s));;
  terminate.

Definition signal_handler : IO unit :=
  s ← mget;
  ASSERT (negb (quitting s));;
  terminate.

(** A new connection: the pcb with its addresses, the memory for the client
    and what it holds, and the results of the calls that may fail. *)
Record accept_t := mk_accept {
  a_ipv6 : bool; a_pcb : P; a_local_ip4 : Z; a_local_ip6 : list Z; a_local_port : Z;
  a_remote_ip4 : Z; a_remote_ip6 : list Z; a_remote_port : Z;
  a_client : option Z;              (** malloc *)
  a_concat_ok : bool; a_connector_ok : bool; a_buf : list Z; a_recv_buf : list Z
}.

(** The user name with the source address appended. *)
Definition append_source (a : accept_t) (username remote_str : string) : IO bool :=
  if negb (a_concat_ok a) then mret false else
  s ← mget;
  let g := globals s in
  ai ← mlift (Arguments.socks_auth_info g !! 1%nat);
  let name := String.append username (String.append "@" remote_str) in
  mput (with_globals (Arguments.set_socks (Arguments.socks_server_addr g)
    (<[1%nat := BSocksClient.mk_auth (BSocksClient.auth_type ai) (Arguments.string_bytes name) (BSocksClient.password ai)]>
       (Arguments.socks_auth_info g)) g) s);;
  mret true.

(** The last part of [listener_accept_func]: SOCKS is initialised and the client
    entered in the list. *)
Definition init_client (a : accept_t) (client : Z) (addr : BAddr) : IO TcpClient.ret :=
  s ← mget;
  (* init SOCKS *)
  socks ← mlift (BSocksClient.BSocksClient_Init (Arguments.socks_server_addr (globals s))
                   (Arguments.socks_auth_info (globals s)) addr (a_connector_ok a));
  match socks with
  | None => mret TcpClient.R_MEM
  | Some _ =>
      (* add to linked list, increment counter *)
      ASSERT (0 <=? num_clients s);;
      mput (with_clients (tcp_clients s ++ [client]) (num_clients s + 1)
              (<[client := (TcpClient.accepted (a_pcb a) (a_buf a) (a_recv_buf a), TcpClient.env0)]> (heap s)) s);;
      mret TcpClient.R_SYNC
  end.

Definition listener_accept_func (a : accept_t) : IO TcpClient.ret :=
  s ← mget;
  (* tcp_accepted reads the listener *)
  if negb (if a_ipv6 a then listener_ip6 s else listener s) then mabort else
  (* allocate client structure *)
  match a_client a with
  | None => mret TcpClient.R_MEM
  | Some client =>
      (* read addresses *)
      let local_addr := Device.baddr_from_lwip (a_ipv6 a) (a_local_ip4 a) (a_local_ip6 a) (a_local_port a) in
      let remote_addr := Device.baddr_from_lwip (a_ipv6 a) (a_remote_ip4 a) (a_remote_ip6 a) (a_remote_port a) in
      remote_str ← mlift (BAddr_Print remote_addr);
      (* add source address to username if requested *)
      ok ← match Options.username options with
           | Some username =>
               if Options.append_source_to_username options then append_source a username remote_str else mret true
           | None => mret true
           end;
      if negb ok then mret TcpClient.R_MEM else
      init_client a client local_addr
  end.

(** A client does something; when it is deallocated, [client_dealloc] takes it
    off the list and counts down. *)
Definition on_client (p : Z) (a : @TcpClient.action P) : IO unit :=
  s ← mget;
  '(c, v) ← mlift (heap s !! p);
  '(c', v') ← mlift (TcpClient.act c v a);
  if TcpClient.freed c' then
    ASSERT (0 <? num_clients s);;
    mput (with_clients (List.filter (λ q, negb (q =? p)) (tcp_clients s)) (num_clients s - 1) (delete p (heap s)) s)
  else mput (with_clients (tcp_clients s) (num_clients s) (<[p := (c', v')]> (heap s)) s).

(** ** The event loop *)

Inductive loop_event :=
| EvLwipInit (netif_ok : bool) (l4 l6 : listen_answers)
| EvTimer | EvDeviceError | EvSignal
| EvAccept (a : accept_t)
| EvClient (p : Z) (a : @TcpClient.action P)
| EvTerminate.                      (** Java calls terminateTun2Socks *)

Definition Java_terminateTun2Socks : IO unit := mmodify (with_terminate true).

(** The reactor has taken the job or the timer off before it calls the handler. *)
Definition dispatch (ev : loop_event) : IO unit :=
  match ev with
  | EvLwipInit netif_ok l4 l6 => mmodify (with_job false);; lwip_init_job_handler netif_ok l4 l6
  | EvTimer => release TcpTimer;; tcp_timer_handler
  | EvDeviceError => device_error_handler
  | EvSignal => signal_handler
  | EvAccept a => listener_accept_func a;; mret tt
  | EvClient p a => on_client p a
  | EvTerminate => Java_terminateTun2Socks
  end.

(** [true]: the loop was left; [false]: it waits for more. *)
Fixpoint BReactor_Exec (evs : list loop_event) : IO bool :=
  s ← mget;
  if exiting s then mret true
  else match evs with
       | [] => mret false
       | ev :: evs => dispatch ev;; BReactor_Exec evs
       end.

(** ** Start and end *)

Inductive label := fail1 | fail2 | fail3 | fail4 | fail4a | fail5.

(** How [run] ended: at a label, at fail5 because of [udp_init], after the loop;
    or it did not end yet. *)
Inductive run_end := Failed (l : label) | UdpFailed | Exited | Running.

Definition goto_fail1 : IO unit :=
  (* BFree(password_file_contents) *)
  mmodify (λ s, with_globals (Arguments.set_password_file None (globals s)) s).
Definition goto_fail2 : IO unit := BReactor_Free;; goto_fail1.
Definition goto_fail3 : IO unit := BSignal_Finish;; goto_fail2.
Definition goto_fail4 : IO unit := release ReadInterface;; release Device;; goto_fail3.
Definition goto_fail4a : IO unit := release ReadBuffer;; goto_fail4.
Definition goto_fail5 : IO unit :=
  release LwipInitJob;;
  mmodify (with_job false);;
  when (Options.given (Options.udpgw_remote_server_addr options)) (release UdpGwObject);;
  goto_fail4a.

(** [process_arguments] on the global variables. *)
Definition process_arguments : IO bool := λ s,
  match Arguments.process_arguments open_file alloc options (globals s) with
  | Some (b, g, _) => Some (b, with_globals g s, [])
  | None => None
  end.

(** The loop that configures the log channels. *)
Fixpoint set_loglevels (i : Z) (levels : list Z) : IO unit :=
  match levels with
  | [] => mret tt
  | l :: levels =>
      (if 0 <=? l then emit (SetChannelLoglevel i l)
       else when (0 <=? Options.loglevel options) (emit (SetChannelLoglevel i (Options.loglevel options))));;
      set_loglevels (i + 1) levels
  end.

Definition BTap_GetMTU (e : answers) : Z :=
  if Options.tun_fd options =? 0 then ifr_mtu e else Options.tun_mtu options.

(** The size of the largest UDP payload. *)
Definition compute_udp_mtu (mtu : Z) : Z :=
  let udp_mtu := mtu - (sizeof_ipv4_header + sizeof_udp_header) in
  let udp_mtu :=
    if Options.given (Options.netif_ip6addr options) then
      let udp_ip6_mtu := mtu - (sizeof_ipv6_header + sizeof_udp_header) in
      if udp_mtu <? udp_ip6_mtu then udp_ip6_mtu else udp_mtu
    else udp_mtu in
  if udp_mtu <? 0 then 0 else udp_mtu.

Definition is_ip_addr (a : BAddr) : bool := (BAddr_type a =? BADDR_TYPE_IPV4) || (BAddr_type a =? BADDR_TYPE_IPV6).

Definition SocksUdpGwClient_Init (e : answers) : IO bool :=
  s ← mget;
  ASSERT (negb (BAddr_IsInvalid (Arguments.socks_server_addr (globals s))));;
  ASSERT (is_ip_addr (Arguments.udpgw_remote_server_addr (globals s)));;
  gw ← mlift (UdpGwClient.UdpGwClient_Init (udp_mtu s) DEFAULT_UDPGW_MAX_CONNECTIONS
                (Options.udpgw_connection_buffer_size options) (udpgw_ok e));
  match gw with
  | None => mret false
  | Some _ => acquire UdpGwObject;; mret true
  end.

Definition init_udpgw (e : answers) : IO bool :=
  if Options.given (Options.udpgw_remote_server_addr options) then
    s ← mget;
    (* make sure our UDP payloads aren't too large for udpgw *)
    let udpgw_mtu := udpgw_compute_mtu (udp_mtu s) in
    if (udpgw_mtu <? 0) || (PACKETPROTO_MAXPAYLOAD <? udpgw_mtu) then mret false
    else SocksUdpGwClient_Init e
  else mret true.

Definition init_signal (e : answers) : IO bool :=
  if Options.set_signal options then BSignal_Init (signal_ok e) else mret true.

(** The part of [run] from the lwIP job to the event loop; [None]: the loop is
    entered. *)
Definition start_lwip (e : answers) : IO (option run_end) :=
  (* init lwip init job *)
  acquire LwipInitJob;;
  mmodify (with_job true);;
  (* init device write buffer *)
  if negb (write_buf_ok e) then goto_fail5;; mret (Some (Failed fail5)) else
  acquire WriteBuf;;
  (* init TCP timer *)
  acquire TcpTimer;;
  (* set no netif, no listener, init clients list and number of clients *)
  mmodify (with_lwip false false false);;
  mmodify (with_clients [] 0 ∅);;
  fd ← udp_init e;
  if fd =? 0 then goto_fail5;; mret (Some UdpFailed) else
  mret None.

(** The part from the device on. *)
Definition start_device (e : answers) : IO (option run_end) :=
  (* init TUN device *)
  if negb (device_ok e) then goto_fail3;; mret (Some (Failed fail3)) else
  acquire Device;;
  (* init device reading *)
  acquire ReadInterface;;
  if negb (read_buffer_ok e) then goto_fail4;; mret (Some (Failed fail4)) else
  acquire ReadBuffer;;
  (* compute maximum UDP payload size, init udpgw client *)
  mmodify (λ s, with_udp (compute_udp_mtu (BTap_GetMTU e)) (sockfd s) s);;
  ok ← init_udpgw e;
  if negb ok then goto_fail4a;; mret (Some (Failed fail4a)) else
  start_lwip e.

(** [BTime_Init()] *)
Definition init_time (e : answers) : IO unit :=
  s ← mget; g ← mlift (BTime_Init (clock_now e) (wall_now e) (btime_global s)); mmodify (with_btime g).

(** [run] up to the event loop. *)
Definition start (e : answers) : IO (option run_end) :=
  (* configure logger channels *)
  set_loglevels 0 (Options.loglevels options);;
  (* clear password contents pointer *)
  mmodify (λ s, with_globals (Arguments.set_password_file None (globals s)) s);;
  (* initialize network *)
  ok ← BNetwork_GlobalInit (network_ok e);
  if negb ok then goto_fail1;; mret (Some (Failed fail1)) else
  (* process arguments *)
  ok ← process_arguments;
  if negb ok then goto_fail1;; mret (Some (Failed fail1)) else
  (* init time *)
  init_time e;;
  (* init reactor *)
  if negb (reactor_ok e) then goto_fail1;; mret (Some (Failed fail1)) else
  acquire Reactor;;
  mmodify (λ s, with_quitting (quitting s) false s);;
  (* set not quitting *)
  mmodify (λ s, with_quitting false (exiting s) s);;
  (* setup signal handler *)
  ok ← init_signal e;
  if negb ok then goto_fail2;; mret (Some (Failed fail2)) else
  start_device e.

(** [while (node = LinkedList1_GetFirst(&tcp_clients)) client_murder(...)] *)
Fixpoint free_clients (fuel : nat) : IO unit :=
  match fuel with
  | O => mabort
  | S fuel =>
      s ← mget;
      match tcp_clients s with
      | [] => mret tt
      | p :: _ => on_client p TcpClient.AMurder;; free_clients fuel
      end
  end.

Fixpoint tcp_remove (pcbs : list Z) : IO unit :=
  match pcbs with
  | [] => mret tt
  | pcb :: pcbs => emit (TcpAbort pcb);; tcp_remove pcbs
  end.

(** [run] after the event loop. *)
Definition finish (e : answers) : IO unit :=
  (* free clients *)
  s ← mget;
  free_clients (S (length (tcp_clients s)));;
  (* free listener *)
  s ← mget;
  when (listener_ip6 s) (release ListenerIp6Pcb);;
  when (listener s) (release ListenerPcb);;
  (* free netif *)
  when (have_netif s) (release Netif);;
  tcp_remove (bound_pcbs e);; tcp_remove (active_pcbs e);; tcp_remove (tw_pcbs e);;
  udp_free;;
  BReactor_RemoveTimer;;
  release WriteBuf;;
  goto_fail5.

Definition run (e : answers) (evs : list loop_event) : IO run_end :=
  r ← start e;
  match r with
  | Some r => mret r
  | None =>
      (* enter event loop *)
      left ← BReactor_Exec evs;
      if (left : bool) then finish e;; mret Exited else mret Running
  end.

(** ** Resources held *)

Definition mem (r : resource) (L : list resource) : bool := existsb (resource_eqb r) L.

(** The program holds exactly the resources of [L]. *)
Definition holds (s : t) (L : list resource) : Prop := ∀ r, live s r = mem r L.

Lemma resource_eqb_spec r1 r2 : resource_eqb r1 r2 = true ↔ r1 = r2.
Proof. by destruct r1, r2. Qed.

Lemma holds_acquire s L r : holds s L → holds (set_live r true s) (r :: L).
Proof. intros Hs r'. cbn. rewrite Hs. unfold mem. cbn. by destruct (resource_eqb r' r). Qed.

Definition without (r : resource) (L : list resource) : list resource :=
  List.filter (λ r', negb (resource_eqb r' r)) L.

Lemma mem_without r r' L : mem r' (without r L) = if resource_eqb r' r then false else mem r' L.
Proof.
  unfold mem, without. induction L as [|x L IH]; cbn; [by destruct (resource_eqb r' r)|].
  destruct (resource_eqb x r) eqn:Hx; cbn; rewrite IH; [|by destruct x, r, r'].
  apply resource_eqb_spec in Hx as ->. destruct (resource_eqb r' r); done.
Qed.

Lemma mem_without_ne r r' L b : resource_eqb r' r = false → mem r' L = b → mem r' (without r L) = b.
Proof. intros He Hb. by rewrite mem_without, He. Qed.

Local Ltac held := repeat (apply mem_without_ne; [reflexivity|]); assumption.

Lemma holds_release s L r : holds s L → holds (set_live r false s) (without r L).
Proof. intros Hs r'. cbn. by rewrite mem_without, Hs. Qed.

Lemma wp_acquire s L r (Q : unit → t → list event → Prop) :
  holds s L → mem r L = false → (holds (set_live r true s) (r :: L) → Q tt (set_live r true s) []) → wp (acquire r) s Q.
Proof. intros Hs Hr HQ. unfold acquire. do 2 wp_step. rewrite Hs, Hr. apply wp_put. by apply HQ, holds_acquire. Qed.

Lemma wp_release s L r (Q : unit → t → list event → Prop) :
  holds s L → mem r L = true → (holds (set_live r false s) (without r L) → Q tt (set_live r false s) []) → wp (release r) s Q.
Proof. intros Hs Hr HQ. unfold release. do 2 wp_step. rewrite Hs, Hr. apply wp_put. by apply HQ, holds_release. Qed.

(** The other parts of the state, where only resources were released. *)
Definition kept (s s' : t) : Prop :=
  tcp_clients s' = tcp_clients s ∧ heap s' = heap s ∧ num_clients s' = num_clients s ∧
  bsignal_initialized s' = bsignal_initialized s ∧ g_terminate s' = g_terminate s ∧
  Arguments.netif_ip6addr (globals s') = Arguments.netif_ip6addr (globals s).

(** A build without assertions, or one whose [b] holds. *)
Lemma wp_assert_or b s (Q : unit → t → list event → Prop) :
  NDEBUG = true ∨ b = true → Q tt s [] → wp (ASSERT b) s Q.
Proof. intros [Hn|Hb] HQ; [|by apply wp_assert]. unfold wp, ASSERT. by rewrite Hn. Qed.

(** The signal handler was set up, or not asked for. *)
Definition signal_state (s : t) (L : list resource) : Prop :=
  mem Signal L = Options.set_signal options ∧
  if Options.set_signal options then bsignal_initialized s = true ∧ bsignal_finished s = false
  else NDEBUG = true ∧ bsignal_initialized s = false.

(** Nothing is left in the reactor, or nobody looks. *)
Definition reactor_clean (L : list resource) : Prop := NDEBUG = true ∨ forallb (λ r, negb (mem r L)) in_reactor = true.

(** Where the labels end. *)
Definition left_with (L : list resource) (s : t) (_ : unit) (s' : t) (es : list event) : Prop :=
  es = [] ∧ holds s' L ∧ kept s s' ∧ Arguments.password_file_contents (globals s') = None.

Definition freed_reactor (L : list resource) : list resource := without TcpTimer (without UdpFd (without Reactor L)).

Lemma fail1_ok s L : holds s L → wp goto_fail1 s (left_with L s).
Proof. intros Hs. apply wp_modify. split_and!; done. Qed.

Lemma fail2_ok s L :
  holds s L → mem Reactor L = true → reactor_clean L → wp goto_fail2 s (left_with (freed_reactor L) s).
Proof.
  intros Hs Hr Hc. unfold goto_fail2, BReactor_Free. do 4 wp_step. apply wp_assert_or.
  { destruct Hc as [?|Hc]; [by left|]. right. unfold in_reactor in *. cbn [forallb] in *. rewrite !Hs. exact Hc. }
  cbn beta. wp_step. apply wp_release with L; [done|done|]. intros Hs1. cbn beta. do 2 wp_step. apply wp_modify.
  eapply wp_mono; [apply fail1_ok; by apply holds_release, holds_release|]. done.
Qed.

Lemma holds_without s L r : holds s L → mem r L = false → holds s (without r L).
Proof.
  intros Hs Hr r'. rewrite mem_without, Hs. destruct (resource_eqb r' r) eqn:He; [|done].
  apply resource_eqb_spec in He as ->. done.
Qed.

Lemma fail3_ok s L :
  holds s L → mem Reactor L = true → signal_state s L → reactor_clean (without Signal L) →
  wp goto_fail3 s (left_with (freed_reactor (without Signal L)) s).
Proof.
  intros Hs Hr [Hsig Hst] Hc. unfold goto_fail3, BSignal_Finish. do 3 wp_step.
  assert (mem Reactor (without Signal L) = true) as Hr' by held.
  destruct (Options.set_signal options) eqn:Ho.
  - destruct Hst as [Hi Hf]. rewrite Hi, Hf. wp_step. apply wp_assert_or; [by right|]. cbn beta. wp_step.
    apply wp_assert_or; [by right|]. cbn beta. wp_step. rewrite Hs, Hsig. apply wp_release with L; [done..|].
    intros Hs'. cbn beta. wp_step.
    eapply wp_mono; [apply (fail2_ok _ (without Signal L)); [exact Hs'|done|done]|].
    intros [] s' es (-> & ? & Hk & ?). cbn. split_and!; done.
  - destruct Hst as [Hn Hi]. wp_step. apply wp_assert_or; [by left|]. cbn beta. wp_step.
    apply wp_assert_or; [by left|]. cbn beta. wp_step. rewrite Hs, Hsig, Hi. do 2 wp_step.
    eapply wp_mono; [apply (fail2_ok _ (without Signal L)); [|done|done]|].
    { intros r. cbn. by apply holds_without. }
    intros [] s' es (-> & ? & Hk & ?). cbn. split_and!; done.
Qed.

Lemma left_with_step L s s0 s' es : kept s s0 → left_with L s0 tt s' es → left_with L s tt s' ([] ++ es).
Proof. unfold left_with, kept. intros. destruct_and!. split_and!; try done; congruence. Qed.

Lemma fail4_ok s L :
  holds s L → mem ReadInterface L = true → mem Device L = true → mem Reactor L = true → signal_state s L →
  reactor_clean (without Signal (without Device (without ReadInterface L))) →
  wp goto_fail4 s (left_with (freed_reactor (without Signal (without Device (without ReadInterface L)))) s).
Proof.
  intros Hs Hi Hd Hr [Hsig Hst] Hc. unfold goto_fail4. wp_step. apply wp_release with L; [done|done|].
  intros Hs1. cbn beta. wp_step. apply wp_release with (without ReadInterface L); [done|held|].
  intros Hs2. cbn beta. eapply wp_mono.
  - apply fail3_ok; [exact Hs2|held| |done]. split; [held|done].
  - intros [] s' es Hx. eapply (left_with_step _ s s); [done|]. eapply left_with_step; [|exact Hx]. done.
Qed.

Lemma fail4a_ok s L :
  holds s L → mem ReadBuffer L = true → mem ReadInterface L = true → mem Device L = true → mem Reactor L = true →
  signal_state s L →
  reactor_clean (without Signal (without Device (without ReadInterface (without ReadBuffer L)))) →
  wp goto_fail4a s
    (left_with (freed_reactor (without Signal (without Device (without ReadInterface (without ReadBuffer L))))) s).
Proof.
  intros Hs Hb Hi Hd Hr [Hsig Hst] Hc. unfold goto_fail4a. wp_step. apply wp_release with L; [done|done|].
  intros Hs1. cbn beta. eapply wp_mono.
  - apply fail4_ok; [exact Hs1|held..| |done]. split; [held|done].
  - intros [] s' es Hx. eapply left_with_step; [|exact Hx]. done.
Qed.

(** What is released from fail5 on. *)
Definition before_free (L : list resource) : list resource :=
  without Signal (without Device (without ReadInterface (without ReadBuffer (without UdpGwObject
    (without LwipInitJob L))))).
Definition after_fail5 (L : list resource) : list resource := freed_reactor (before_free L).

Lemma fail5_ok s L :
  holds s L → mem LwipInitJob L = true → mem UdpGwObject L = Options.given (Options.udpgw_remote_server_addr options) →
  mem ReadBuffer L = true → mem ReadInterface L = true → mem Device L = true → mem Reactor L = true →
  signal_state s L → reactor_clean (before_free L) →
  wp goto_fail5 s (left_with (after_fail5 L) s).
Proof.
  intros Hs Hj Hg Hb Hi Hd Hr [Hsig Hst] Hc. unfold goto_fail5. wp_step. apply wp_release with L; [done|done|].
  intros Hs1. cbn beta. do 3 wp_step. unfold after_fail5, before_free in *.
  set (s1 := with_job false (set_live LwipInitJob false s)) in *.
  assert (holds s1 (without LwipInitJob L)) as Hs2 by exact Hs1.
  apply wp_when; intros Hgv.
  - apply wp_release with (without LwipInitJob L); [done|apply mem_without_ne; [reflexivity|congruence]|]. intros Hs3. cbn beta.
    eapply wp_mono; [apply fail4a_ok; [exact Hs3|held..| |exact Hc]|].
    { split; [held|done]. }
    intros [] s' es Hx. eapply (left_with_step _ s s); [done|]. eapply left_with_step; [|exact Hx]. done.
  - cbn beta. eapply wp_mono; [apply (fail4a_ok _ (without UdpGwObject (without LwipInitJob L))); [|held..| |exact Hc]|].
    { apply holds_without; [done|]. apply mem_without_ne; [reflexivity|congruence]. }
    { split; [held|done]. }
    intros [] s' es Hx. eapply left_with_step; [|exact Hx]. done.
Qed.

(** ** The invariant of the event loop *)

Context `{LO : !LwipOk P}.

(** What the handlers rely on in the processed arguments. *)
Record args_ok (g : Arguments.t) : Prop := {
  ao_ipaddr : is_ipv4 (Arguments.netif_ipaddr g) = true;
  ao_netmask : is_ipv4 (Arguments.netif_netmask g) = true;
  ao_server : BAddr_IsInvalid (Arguments.socks_server_addr g) = false;
  ao_auth : forallb (λ ai, (BSocksClient.auth_type ai =? BSocksClient.SOCKS_METHOD_NO_AUTHENTICATION_REQUIRED) ||
                           (BSocksClient.auth_type ai =? BSocksClient.SOCKS_METHOD_USERNAME_PASSWORD))
              (Arguments.socks_auth_info g) = true;
  ao_second : Options.username options ≠ None → is_Some (Arguments.socks_auth_info g !! 1%nat);
  ao_udpgw : Options.udpgw_remote_server_addr options ≠ None →
    is_ip_addr (Arguments.udpgw_remote_server_addr g) = true;
  ao_ip6_len : zlen (Arguments.netif_ip6addr g) = 16;
  ao_ip6_bytes : Forall is_byte (Arguments.netif_ip6addr g)
}.

(** The list, the counter and the clients agree, and every client is in a state
    that its handlers can reach. *)
Record clients_ok (l : list Z) (n : Z) (h : gmap Z (TcpClient.t P * TcpClient.env)) : Prop := {
  co_nodup : NoDup l;
  co_dom : ∀ p, p ∈ l ↔ is_Some (h !! p);
  co_count : n = zlen l;
  co_reach : ∀ p c v, h !! p = Some (c, v) → TcpClient.reach c v ∧ TcpClient.freed c = false
}.

Definition opt_list (b : bool) (r : resource) : list resource := if b then [r] else [].

(** What the program holds in the loop, with [tm] saying whether the timer runs. *)
Definition loop_resources (tm : bool) (s : t) : list resource :=
  opt_list (have_netif s) Netif ++ opt_list (listener s) ListenerPcb ++ opt_list (listener_ip6 s) ListenerIp6Pcb ++
  opt_list tm TcpTimer ++
  [UdpMap; UdpFd; UdpSocket; UdpBuffer; WriteBuf; LwipInitJob] ++
  opt_list (Options.given (Options.udpgw_remote_server_addr options)) UdpGwObject ++
  [ReadBuffer; ReadInterface; Device] ++ opt_list (Options.set_signal options) Signal ++ [Reactor].

Record inv (s : t) : Prop := {
  iv_args : args_ok (globals s);
  iv_quit : exiting s = quitting s;
  iv_holds : ∃ tm, (quitting s = false → tm = true) ∧ holds s (loop_resources tm s);
  iv_sock : sockfd s ≠ 0;
  iv_job : job_set s = true → have_netif s = false ∧ listener s = false ∧ listener_ip6 s = false;
  iv_signal : if Options.set_signal options then bsignal_initialized s = true ∧ bsignal_finished s = false
              else bsignal_initialized s = false;
  iv_clients : clients_ok (tcp_clients s) (num_clients s) (heap s)
}.

(** When the reactor and lwIP call a handler. *)
Definition allowed (s : t) (ev : loop_event) : Prop :=
  match ev with
  | EvLwipInit _ _ _ => job_set s = true
  | EvTimer => job_set s = false     (* jobs run before timers *)
  | EvSignal => Options.set_signal options = true
  | EvAccept a => (if a_ipv6 a then listener_ip6 s else listener s) = true ∧
      (∀ p, a_client a = Some p → heap s !! p = None) ∧
      queued (a_pcb a) = [] ∧ zlen (a_buf a) = TCP_WND ∧ zlen (a_recv_buf a) = CLIENT_SOCKS_RECV_BUF_SIZE
  | EvClient p a => ∃ c v, heap s !! p = Some (c, v) ∧ TcpClient.allowed c v a
  | _ => True
  end.

(** Each event of the list is allowed when it comes, until the loop is left. *)
Fixpoint schedule_ok (evs : list loop_event) (s : t) : Prop :=
  if exiting s then True
  else match evs with
       | [] => True
       | ev :: evs => allowed s ev ∧ ∀ s' es, dispatch ev s = Some (tt, s', es) → schedule_ok evs s'
       end.

Lemma loop_mem tm s r :
  mem r (loop_resources tm s) =
  match r with
  | Netif => have_netif s | ListenerPcb => listener s | ListenerIp6Pcb => listener_ip6 s | TcpTimer => tm
  | NewPcb => false
  | UdpGwObject => Options.given (Options.udpgw_remote_server_addr options)
  | Signal => Options.set_signal options
  | _ => true
  end.
Proof.
  unfold loop_resources, mem, opt_list.
  destruct (have_netif s), (listener s), (listener_ip6 s), tm, (Options.given _), (Options.set_signal _), r; reflexivity.
Qed.

Lemma holds_loop tm s : holds s (loop_resources tm s) ↔ ∀ r, live s r = mem r (loop_resources tm s).
Proof. done. Qed.

(** Resources pointwise, which is how the handlers change them. *)
Lemma wp_acquire_live s r (Q : unit → t → list event → Prop) :
  live s r = false → Q tt (set_live r true s) [] → wp (acquire r) s Q.
Proof. intros Hr HQ. unfold acquire. do 2 wp_step. rewrite Hr. by apply wp_put. Qed.

Lemma wp_release_live s r (Q : unit → t → list event → Prop) :
  live s r = true → Q tt (set_live r false s) [] → wp (release r) s Q.
Proof. intros Hr HQ. unfold release. do 2 wp_step. rewrite Hr. by apply wp_put. Qed.

Lemma terminate_ok s : inv s → quitting s = false → wp terminate s (λ _ s' es, s' = with_quitting true true s).
Proof.
  intros Hi Hq. unfold terminate. do 3 wp_step. apply wp_assert; [by rewrite Hq|]. cbn beta. do 2 wp_step. apply wp_modify. done.
Qed.

Lemma inv_quit s tm : inv s → holds s (loop_resources tm s) → inv (with_quitting true true s).
Proof. intros [] Hh. split; try done. exists tm. done. Qed.

Lemma inv_terminated s : inv s → inv (with_quitting true true s).
Proof. intros Hi. destruct (iv_holds _ Hi) as (tm & _ & Hh). by eapply inv_quit. Qed.

Lemma fail_ok s : inv s → quitting s = false →
  wp (s ← mget; when (negb (quitting s)) terminate) s (λ _ s' es, inv s').
Proof.
  intros Hi Hq. do 2 wp_step. rewrite Hq. eapply wp_mono; [by apply terminate_ok|].
  intros [] s' es ->. by apply inv_terminated.
Qed.

(** ** The handlers keep the invariant *)

(** What an event does to the request to terminate. *)
Definition after (ev : loop_event) (s s' : t) : Prop :=
  inv s' ∧ (g_terminate s = true → g_terminate s' = true) ∧
  (ev = EvTerminate → g_terminate s' = true) ∧
  (ev = EvTimer → g_terminate s = true → exiting s' = true).

Lemma inv_live s l : inv s → (∀ r, l r = live s r) → inv (with_live l s).
Proof.
  intros [Ha Hq (tm & Htm & Hh) Hs Hj Hsg Hc] Hl. split; try done. exists tm. split; [done|].
  intros r. cbn. rewrite Hl. apply Hh.
Qed.

Lemma init_listener_ok a r set s ok fail (Q : unit → t → list event → Prop) :
  live s NewPcb = false → live s r = false → resource_eqb r NewPcb = false →
  (∀ l, (∀ r', l r' = live s r') → wp fail (with_live l s) Q) →
  (∀ l, (∀ r', l r' = if resource_eqb r' r then true else live s r') → wp ok (set (with_live l s)) Q) →
  wp (init_listener a r set ok fail) s Q.
Proof.
  intros Hn Hr Hne Hfail Hok. unfold init_listener.
  assert (∀ r', (if resource_eqb r' NewPcb then false else if resource_eqb r' NewPcb then true else live s r') = live s r')
    as Hback by (intros r'; destruct r'; cbn; congruence).
  assert (∀ P' : IO unit, wp P' (with_live (λ r', if resource_eqb r' NewPcb then false else
       if resource_eqb r' NewPcb then true else live s r') s) Q → wp (release NewPcb;; P') (set_live NewPcb true s) Q) as Hrel.
  { intros P' HP. wp_step. apply wp_release_live; [done|]. exact HP. }
  destruct (new_ok a); cbn [negb]; [|destruct s; by apply Hfail].
  wp_step. apply wp_acquire_live; [done|]. cbn beta.
  destruct (bind_netif_ok a); cbn [negb]; [|by apply Hrel, Hfail].
  destruct (listen_ok a); cbn [negb]; [|by apply Hrel, Hfail].
  apply Hrel. wp_step. apply wp_acquire_live; [by cbn; rewrite Hback|]. cbn beta. wp_step. apply wp_modify. cbn beta.
  apply Hok. intros r'. cbn. by rewrite Hback.
Qed.

Lemma lwip_init_ok netif_ok l4 l6 s :
  inv s → quitting s = false → job_set s = true → wp (dispatch (EvLwipInit netif_ok l4 l6)) s (λ _ s' es, inv s' ∧ g_terminate s' = g_terminate s).
Proof.
  intros Hi Hq Hj. destruct Hi as [Ha Hx (tm & Htm & Hh) Hs Hjob Hsg Hc]. destruct (Hjob Hj) as (Hn & H4 & H6).
  cbn [dispatch]. do 2 wp_step. set (s0 := with_job false s).
  assert (inv s0) as Hi0. { split; try done. exists tm. split; [done|]. intros r. exact (Hh r). }
  unfold lwip_init_job_handler. do 2 wp_step.
  do 6 (wp_step; apply wp_assert; [cbn; rewrite ?Hq, ?Hn, ?H4, ?H6; first [done|apply Ha]|]; cbn beta).
  assert (∀ r, live s r = mem r (loop_resources tm s)) as Hlive by exact Hh.
  assert (∀ s1, inv s1 → quitting s1 = false → g_terminate s1 = g_terminate s →
    wp (s ← mget; when (negb (quitting s)) terminate) s1 (λ _ s' es, inv s' ∧ g_terminate s' = g_terminate s)) as Hfail.
  { intros s1 Hi1 Hq1 Hg1. do 2 wp_step. rewrite Hq1. eapply wp_mono; [by apply terminate_ok|].
    intros [] s' es ->. split; [by apply inv_terminated|done]. }
  destruct netif_ok; cbn [negb]; [|by apply Hfail].
  wp_step. apply wp_acquire_live; [cbn; by rewrite Hlive, loop_mem|]. cbn beta. do 2 wp_step.
  apply init_listener_ok; [cbn; by rewrite Hlive, loop_mem..|done| |].
  - intros l Hl. apply Hfail; [|done..]. split; try done. exists tm. split; [done|]. intros r.
    rewrite loop_mem. cbn. rewrite Hl. cbn. rewrite Hlive, loop_mem. destruct r; cbn; congruence.
  - intros l Hl. destruct (Options.given (Options.netif_ip6addr options)).
    + apply init_listener_ok; [cbn; rewrite Hl; cbn; by rewrite Hlive, loop_mem..|done| |].
      * intros l' Hl'. apply Hfail; [|done..]. split; try done. exists tm. split; [done|]. intros r.
        rewrite loop_mem. cbn. rewrite Hl'. cbn. rewrite Hl. cbn. rewrite Hlive, loop_mem. destruct r; cbn; congruence.
      * intros l' Hl'. apply wp_ret. split; [|done]. split; try done. exists tm. split; [done|]. intros r.
        rewrite loop_mem. cbn. rewrite Hl'. cbn. rewrite Hl. cbn. rewrite Hlive, loop_mem. destruct r; cbn; congruence.
    + apply wp_ret. split; [|done]. split; try done. exists tm. split; [done|]. intros r.
      rewrite loop_mem. cbn. rewrite Hl. cbn. rewrite Hlive, loop_mem. destruct r; cbn; congruence.
Qed.

Lemma timer_ok s :
  inv s → quitting s = false → wp (dispatch EvTimer) s (λ _ s' es, after EvTimer s s').
Proof.
  intros Hi Hq. pose proof Hi as [Ha Hx (tm & Htm & Hh) Hs Hjob Hsg Hc]. rewrite (Htm Hq) in *.
  assert (∀ r, live s r = mem r (loop_resources true s)) as Hlive by exact Hh.
  cbn [dispatch]. wp_step. apply wp_release_live; [by rewrite Hlive, loop_mem|]. cbn beta.
  unfold tcp_timer_handler. do 3 wp_step. apply wp_assert; [cbn; by rewrite Hq|]. cbn beta. cbn [g_terminate set_live with_live].
  destruct (g_terminate s) eqn:Hg.
  - unfold terminate. do 3 wp_step. apply wp_assert; [cbn; by rewrite Hq|]. cbn beta. do 2 wp_step. apply wp_modify.
    split_and!; try done. split; try done. exists false. split; [done|]. intros r. rewrite loop_mem. cbn.
    rewrite Hlive, loop_mem. by destruct r.
  - apply wp_acquire_live; [done|]. split_and!; try done; [|congruence]. split; try done. exists true. split; [done|].
    intros r. rewrite loop_mem. cbn. rewrite Hlive, loop_mem. by destruct r.
Qed.

Lemma wp_lift_some {A B} (x : option A) (a : A) (k : A → IO B) s Q :
  x = Some a → wp (k a) s Q → wp (mlift x ≫= k) s Q.
Proof. intros -> Hk. wp_step. exact Hk. Qed.

Lemma baddr_from_lwip_prints b ip4 ip6 port : is_Some (BAddr_Print (Device.baddr_from_lwip b ip4 ip6 port)).
Proof. destruct b; done. Qed.

Lemma socks_init_ok g dest ok :
  args_ok g → is_ip_addr dest = true →
  ∃ r, BSocksClient.BSocksClient_Init (Arguments.socks_server_addr g) (Arguments.socks_auth_info g) dest ok = Some r.
Proof.
  intros [_ _ Hs Ha _ _ _ _] Hd. unfold BSocksClient.BSocksClient_Init.
  unfold is_ip_addr in Hd. rewrite (assert_true _ (f_equal negb Hs)). cbn [mbind option_bind].
  rewrite (assert_true _ Hd). cbn [mbind option_bind]. rewrite (assert_true _ Ha). cbn [mbind option_bind]. eauto.
Qed.

Lemma append_source_ok a u str s :
  inv s → quitting s = false → Options.username options = Some u →
  wp (append_source a u str) s (λ _ s' es, inv s' ∧ ∃ g, s' = with_globals g s).
Proof.
  intros Hi Hq Hu. unfold append_source. destruct (a_concat_ok a); cbn [negb];
    [|apply wp_ret; split; [done|]; exists (globals s); by destruct s].
  do 2 wp_step. pose proof Hi as [Ha Hx Hh Hs Hj Hsg Hc]. destruct (ao_second _ Ha) as [ai Hai]; [congruence|].
  apply wp_lift_some with ai; [done|]. do 3 wp_step. split; [|by eexists].
  split; try done. destruct Ha as [? ? ? Haa ? ? ? ?]. split; try done; cbn.
  - rewrite forallb_forall in *. intros x Hin. apply list_elem_of_In in Hin.
    apply list_elem_of_lookup in Hin as [i Hi']. destruct (decide (i = 1%nat)) as [->|Hne].
    + rewrite list_lookup_insert_eq in Hi' by (by apply lookup_lt_is_Some). simplify_eq. cbn.
      apply (Haa ai). apply list_elem_of_In. by apply list_elem_of_lookup_2 with 1%nat.
    + rewrite list_lookup_insert_ne in Hi' by done. apply Haa, list_elem_of_In. by apply list_elem_of_lookup_2 with i.
  - intros _. rewrite list_lookup_insert_eq by (by apply lookup_lt_is_Some). done.
Qed.

Lemma add_client_ok s p c :
  inv s → heap s !! p = None → TcpClient.reach c TcpClient.env0 → TcpClient.freed c = false →
  inv (with_clients (tcp_clients s ++ [p]) (num_clients s + 1) (<[p := (c, TcpClient.env0)]> (heap s)) s).
Proof.
  intros [Ha Hx Hh Hs Hj Hsg [Hnd Hdom Hn Hr]] Hp Hc Hf. split; try done. cbn. split.
  - apply NoDup_app. split_and!; [done| |apply NoDup_singleton]. intros q Hq ->%list_elem_of_singleton.
    apply Hdom in Hq as [? ?]. congruence.
  - intros q. rewrite elem_of_app, list_elem_of_singleton, Hdom, lookup_insert_is_Some'. split; intros [?|?]; auto.
  - rewrite zlen_app. cbn [length]. lia.
  - intros q c' v'. destruct (decide (q = p)) as [->|Hne]; [rewrite lookup_insert_eq; by intros [= <- <-]|].
    rewrite lookup_insert_ne by done. apply Hr.
Qed.

Lemma accept_ok a s :
  inv s → quitting s = false → allowed s (EvAccept a) →
  wp (listener_accept_func a) s (λ _ s' es, inv s' ∧ g_terminate s' = g_terminate s).
Proof.
  intros Hi Hq (Hl & Hp & Hqd & Hb & Hrb). unfold listener_accept_func. do 2 wp_step. rewrite Hl. cbn [negb].
  destruct (a_client a) as [p|] eqn:Hcl; [|by apply wp_ret].
  destruct (baddr_from_lwip_prints (a_ipv6 a) (a_remote_ip4 a) (a_remote_ip6 a) (a_remote_port a)) as [str Hstr].
  apply wp_lift_some with str; [done|].
  assert (∀ s1, inv s1 → (∃ g, s1 = with_globals g s) →
    wp (init_client a p (Device.baddr_from_lwip (a_ipv6 a) (a_local_ip4 a) (a_local_ip6 a) (a_local_port a))) s1
      (λ _ s' es, inv s' ∧ g_terminate s' = g_terminate s)) as Hrest.
  { intros s1 Hi1 [g Hg]. unfold init_client. do 2 wp_step.
    destruct (socks_init_ok (globals s1) (Device.baddr_from_lwip (a_ipv6 a) (a_local_ip4 a) (a_local_ip6 a)
      (a_local_port a)) (a_connector_ok a)) as [r Hr]; [apply Hi1|by destruct (a_ipv6 a)|].
    apply wp_lift_some with r; [done|]. destruct r; [|by apply wp_ret; subst].
    wp_step. apply wp_assert.
    { destruct (iv_clients _ Hi1) as [_ _ Hn _]. rewrite Hn. apply Z.leb_le. lia. }
    cbn beta. do 3 wp_step. split; [|by subst]. apply add_client_ok; [done|subst; by apply Hp| |done].
    by apply TcpClient.reach_accept. }
  destruct (Options.username options) as [u|] eqn:Hu; [|by wp_step; wp_step; apply Hrest; [|exists (globals s); destruct s]].
  destruct (Options.append_source_to_username options);
    [|by wp_step; wp_step; apply Hrest; [|exists (globals s); destruct s]].
  wp_step. eapply wp_mono; [by apply append_source_ok|]. intros b s1 es (Hi1 & Hg). cbn beta.
  destruct b; cbn [negb]; [by apply Hrest|]. apply wp_ret. destruct Hg as [g ->]. done.
Qed.

Lemma remove_client_ok s p :
  inv s → p ∈ tcp_clients s →
  inv (with_clients (List.filter (λ q, negb (q =? p)) (tcp_clients s)) (num_clients s - 1) (delete p (heap s)) s).
Proof.
  intros [Ha Hx Hh Hs Hj Hsg [Hnd Hdom Hn Hr]] Hp. split; try done. cbn.
  assert (∀ q, q ∈ List.filter (λ q, negb (q =? p)) (tcp_clients s) ↔ q ≠ p ∧ q ∈ tcp_clients s) as Hin.
  { intros q. rewrite !list_elem_of_In, filter_In. rewrite negb_true_iff, Z.eqb_neq. split; intros [? ?]; done. }
  split.
  - apply NoDup_ListNoDup, List.NoDup_filter, NoDup_ListNoDup, Hnd.
  - intros q. rewrite Hin, Hdom, lookup_delete_is_Some. split; intros [? ?]; auto.
  - rewrite Hn. clear -Hnd Hp. revert Hp. induction Hnd as [|q l Hq _ IH]; intros Hp; [by apply not_elem_of_nil in Hp|].
    cbn. destruct (Z.eqb_spec q p) as [->|Hne]; cbn.
    + replace (List.filter (λ q, negb (q =? p)) l) with l; [lia|]. symmetry. clear -Hq. induction l as [|x l IH]; [done|].
      apply not_elem_of_cons in Hq as [H1 H2]. cbn. rewrite (proj2 (Z.eqb_neq x p)) by done. cbn. by rewrite IH.
    + apply elem_of_cons in Hp as [->|Hp]; [done|]. specialize (IH Hp). lia.
  - intros q c v. rewrite lookup_delete_Some. intros [_ ?]. by apply (Hr q).
Qed.

Lemma client_ok p a c v s :
  inv s → heap s !! p = Some (c, v) → TcpClient.allowed c v a →
  wp (on_client p a) s (λ _ s' es, inv s' ∧ g_terminate s' = g_terminate s ∧ quitting s' = quitting s ∧
    ∀ c' v', TcpClient.act c v a = Some (c', v') → TcpClient.freed c' = true →
      tcp_clients s' = List.filter (λ q, negb (q =? p)) (tcp_clients s)).
Proof.
  intros Hi Hp Ha. unfold on_client. do 2 wp_step. apply wp_lift_some with (c, v); [done|].
  destruct (iv_clients _ Hi) as [Hnd Hdom Hn Hr]. destruct (Hr p c v Hp) as [Hreach Hf].
  destruct (TcpClient.tcp_act_inv c v a (TcpClient.tcp_reach_inv c v Hreach) Ha) as (c' & v' & Hact & _).
  apply wp_lift_some with (c', v'); [done|].
  assert (p ∈ tcp_clients s) as Hin by (apply Hdom; eauto).
  destruct (TcpClient.freed c') eqn:Hf'.
  - wp_step. apply wp_assert.
    { rewrite Hn. destruct (tcp_clients s); [by apply not_elem_of_nil in Hin|]. by apply Z.ltb_lt. }
    cbn beta. apply wp_put. split_and!; [by apply remove_client_ok|done|done|done].
  - apply wp_put. split_and!; [|done|done|intros ? ? Hact' Hfr; rewrite Hact in Hact'; injection Hact' as <- <-; congruence].
    destruct Hi as [Hargs Hx Hh Hs Hj Hsg _]. split; try done. cbn. split; [done| |done|].
    + intros q. rewrite Hdom, lookup_insert_is_Some'. split; [by right|]. intros [<-|?]; eauto.
    + intros q c0 v0. destruct (decide (q = p)) as [->|Hne]; [rewrite lookup_insert_eq|rewrite lookup_insert_ne by done; apply Hr].
      intros [= <- <-]. split; [|done]. by eapply TcpClient.reach_act.
Qed.

Lemma dispatch_ok ev s :
  inv s → quitting s = false → allowed s ev → wp (dispatch ev) s (λ _ s' es, after ev s s').
Proof.
  intros Hi Hq Ha. destruct ev as [n l4 l6| | | |a|p a|].
  - eapply wp_mono; [by apply lwip_init_ok|]. intros _ s' es [? Hg]. split_and!; [done|by rewrite Hg|done..].
  - by apply timer_ok.
  - cbn [dispatch]. unfold device_error_handler. do 3 wp_step. apply wp_assert; [by rewrite Hq|]. cbn beta.
    eapply wp_mono; [by apply terminate_ok|]. intros _ s' es ->. split_and!; [by apply inv_terminated|done..].
  - cbn [dispatch]. unfold signal_handler. do 3 wp_step. apply wp_assert; [by rewrite Hq|]. cbn beta.
    eapply wp_mono; [by apply terminate_ok|]. intros _ s' es ->. split_and!; [by apply inv_terminated|done..].
  - cbn [dispatch]. wp_step. eapply wp_mono; [by apply accept_ok|]. intros r s' es [? Hg]. cbn beta. apply wp_ret.
    split_and!; [done| |done|done]. by rewrite Hg.
  - destruct Ha as (c & v & Hp & Ha). eapply wp_mono; [by eapply client_ok|]. intros _ s' es (? & Hg & _).
    split_and!; [done| |done|done]. by rewrite Hg.
  - cbn [dispatch]. apply wp_modify. split_and!; try done. destruct Hi as [Hargs Hx (tm & Htm & Hh) Hs Hj Hsg Hc].
    split; try done. exists tm. split; [done|]. exact Hh.
Qed.

(** Whether a request to terminate is followed by a timer. *)
Fixpoint stops (g : bool) (evs : list loop_event) : bool :=
  match evs with
  | [] => false
  | EvTerminate :: evs => stops true evs
  | EvTimer :: evs => g || stops g evs
  | _ :: evs => stops g evs
  end.

Lemma stops_mono g g' evs : (g = true → g' = true) → stops g evs = true → stops g' evs = true.
Proof.
  revert g g'. induction evs as [|ev evs IH]; intros g g' Hg; [done|]. destruct ev; cbn; try (by apply IH).
  rewrite !orb_true_iff. intros [?|?]; [left; auto|right; by eapply IH].
Qed.

Lemma exec_ok evs s :
  inv s → schedule_ok evs s →
  wp (BReactor_Exec evs) s (λ b s' es, inv s' ∧ b = exiting s' ∧ (exiting s = true → b = true) ∧
    (stops (g_terminate s) evs = true → b = true)).
Proof.
  revert s. induction evs as [|ev evs IH]; intros s Hi Hsch; cbn [BReactor_Exec]; do 2 wp_step;
    cbn [schedule_ok] in Hsch; destruct (exiting s) eqn:He; try by apply wp_ret.
  assert (quitting s = false) as Hq by (rewrite <- He; symmetry; apply Hi).
  destruct Hsch as [Ha Hsch]. wp_step. pose proof (dispatch_ok ev s Hi Hq Ha) as Hd.
  apply wp_run in Hd as ([] & s1 & es & Hrun & Hi1 & Hg & Ht & Htm). unfold wp at 1. rewrite Hrun.
  eapply wp_mono; [apply IH; [done|by eapply Hsch]|]. intros b s' es' (? & -> & Hx & Hst). split_and!; [done..|].
  intros Hs. destruct ev; cbn in Hs; try (apply Hst; eapply stops_mono; [|exact Hs]; auto; fail).
  apply orb_true_iff in Hs as [Hs|Hs]; [by apply Hx, Htm|]. apply Hst. by eapply stops_mono; [|exact Hs].
Qed.

(** ** After the loop *)

Lemma murder_frees c v c' v' :
  TcpClient.act c v TcpClient.AMurder = Some (c', v') → TcpClient.freed c' = true.
Proof.
  cbn [TcpClient.act]. unfold TcpClient.run. intros Ha.
  destruct (TcpClient.client_murder c) as [[[[] o'] es]|] eqn:Hm; [|done]. cbn in Ha.
  destruct (replay _ _ es); [|done]. cbn in Ha. injection Ha as <- _. clear -Hm.
  unfold TcpClient.client_murder, TcpClient.remove_callbacks, TcpClient.client_dealloc, TcpClient.modify,
    TcpClient.client, when, emit, ASSERT, mget, mput, mbind, M_bind, mret, M_ret, mabort in Hm.
  destruct c as [p [] b bu su [] rb ru rs rw rp []]; cbn in Hm; try done; rewrite !orb_true_r in Hm; cbn in Hm;
    by injection Hm as <- _.
Qed.

Lemma free_clients_ok n s :
  inv s → (length (tcp_clients s) < n)%nat → wp (free_clients n) s (λ _ s' es, inv s' ∧ tcp_clients s' = []).
Proof.
  revert s. induction n as [|n IH]; intros s Hi Hn; [lia|]. cbn [free_clients]. do 2 wp_step.
  destruct (tcp_clients s) as [|p l] eqn:Hl; [by apply wp_ret|].
  destruct (iv_clients _ Hi) as [Hnd Hdom _ Hr].
  destruct (proj1 (Hdom p)) as [[c v] Hp]; [rewrite Hl; by left|]. destruct (Hr p c v Hp) as [Hreach Hf].
  pose proof (TcpClient.tcp_reach_inv c v Hreach) as HI.
  assert (TcpClient.deallocs v = 0) as Hd by (destruct HI as [_ HI]; rewrite Hf in HI; by destruct HI).
  destruct (TcpClient.tcp_act_inv c v TcpClient.AMurder HI Hd) as (c' & v' & Hact & _).
  wp_step. eapply wp_mono; [by apply (client_ok p _ c v)|]. intros _ s1 es (Hi1 & _ & _ & Hc). cbn beta.
  specialize (Hc c' v' Hact (murder_frees _ _ _ _ Hact)). rewrite Hl in Hc. cbn in Hc. rewrite Z.eqb_refl in Hc. cbn in Hc.
  apply IH; [done|]. rewrite Hc. cbn in Hn. pose proof (filter_length_le (λ q, negb (q =? p)) l). lia.
Qed.

Lemma tcp_remove_ok l s : wp (tcp_remove l) s (λ _ s' es, s' = s).
Proof.
  induction l as [|p l IH]; cbn [tcp_remove]; [by apply wp_ret|]. do 2 wp_step.
  eapply wp_mono; [exact IH|]. done.
Qed.

Lemma wp_when_release b r s (Q : unit → t → list event → Prop) :
  live s r = b → (∀ l, (∀ r', l r' = if resource_eqb r' r then false else live s r') → Q tt (with_live l s) []) →
  wp (when b (release r)) s Q.
Proof.
  intros Hr HQ. destruct b; cbn [when].
  - apply wp_release_live; [done|]. by apply HQ.
  - apply wp_ret. specialize (HQ (live s)). replace (with_live (live s) s) with s in HQ by by destruct s.
    apply HQ. intros r'. destruct (resource_eqb r' r) eqn:He; [|done]. apply resource_eqb_spec in He as ->. done.
Qed.

(** How the program is left: only [L] is held, and nothing else remains. *)
Record ended (L : list resource) (s : t) : Prop := {
  e_holds : holds s L;
  e_clients : tcp_clients s = [] ∧ heap s = ∅ ∧ num_clients s = 0;
  e_password : Arguments.password_file_contents (globals s) = None;
  e_ip6 : Arguments.ip6_ok (globals s);
  e_signal : Options.set_signal options = false → bsignal_initialized s = false
}.

Lemma ended_left L L' s s' es :
  left_with L s tt s' es → (∀ r, mem r L = mem r L') → tcp_clients s = [] ∧ heap s = ∅ ∧ num_clients s = 0 →
  Arguments.ip6_ok (globals s) → (Options.set_signal options = false → bsignal_initialized s = false) → ended L' s'.
Proof.
  intros (-> & Hh & (Hc & Hhp & Hn & Hb & _ & H6) & Hp) HL (? & ? & ?) Hok Hs.
  unfold Arguments.ip6_ok in Hok. rewrite <- H6 in Hok.
  split; [intros r; by rewrite Hh|split_and!; congruence|done|done|]. rewrite Hb. done.
Qed.

Lemma inv_no_clients s : inv s → tcp_clients s = [] → tcp_clients s = [] ∧ heap s = ∅ ∧ num_clients s = 0.
Proof.
  intros Hi Hl. destruct (iv_clients _ Hi) as [_ Hdom Hn _]. rewrite Hl in *. split_and!; [done| |by rewrite Hn].
  apply map_empty. intros p. destruct (heap s !! p) eqn:Hp; [|done].
  assert (p ∈ []) as Hx by (apply Hdom; eauto). by apply not_elem_of_nil in Hx.
Qed.

(** The resources when the labels are reached. *)
Definition base_resources : list resource :=
  opt_list (Options.given (Options.udpgw_remote_server_addr options)) UdpGwObject ++
  [ReadBuffer; ReadInterface; Device] ++ opt_list (Options.set_signal options) Signal ++ [Reactor].

Lemma base_mem r :
  mem r base_resources =
  match r with
  | ReadBuffer | ReadInterface | Device | Reactor => true
  | UdpGwObject => Options.given (Options.udpgw_remote_server_addr options)
  | Signal => Options.set_signal options
  | _ => false
  end.
Proof.
  unfold base_resources, mem, opt_list. by destruct (Options.given _), (Options.set_signal _), r.
Qed.

Lemma mem_cons r x L : mem r (x :: L) = resource_eqb r x || mem r L.
Proof. done. Qed.

Lemma mem_app r L1 L2 : mem r (L1 ++ L2) = mem r L1 || mem r L2.
Proof. apply existsb_app. Qed.

(** Leaving at fail5, with [X] acquired that nobody releases. *)
Lemma leave_fail5 X s :
  holds s (X ++ LwipInitJob :: base_resources) →
  (if Options.set_signal options then bsignal_initialized s = true ∧ bsignal_finished s = false
   else NDEBUG = true ∧ bsignal_initialized s = false) →
  forallb (λ r, mem r [UdpFd; UdpMap; UdpSocket; UdpBuffer; WriteBuf; TcpTimer]) X = true → reactor_clean X →
  tcp_clients s = [] ∧ heap s = ∅ ∧ num_clients s = 0 → Arguments.ip6_ok (globals s) →
  wp goto_fail5 s (λ _ s' es, ended (without TcpTimer (without UdpFd X)) s').
Proof.
  intros Hh Hsg HX Hc Hcl H6.
  assert (∀ r, mem r X = true → mem r [UdpFd; UdpMap; UdpSocket; UdpBuffer; WriteBuf; TcpTimer] = true) as HX'.
  { intros r Hr. unfold mem in Hr. apply existsb_exists in Hr as (r' & Hin & He). apply resource_eqb_spec in He as <-.
    rewrite forallb_forall in HX. by apply HX. }
  assert (∀ r, mem r [UdpFd; UdpMap; UdpSocket; UdpBuffer; WriteBuf; TcpTimer] = false → mem r X = false) as HXf.
  { intros r Hr. destruct (mem r X) eqn:Hx; [|done]. by rewrite HX' in Hr. }
  set (L := X ++ LwipInitJob :: base_resources) in *.
  assert (∀ r, mem r L = mem r X || (resource_eqb r LwipInitJob || mem r base_resources)) as HL
    by (intros r; unfold L; by rewrite mem_app).
  assert (∀ r, mem r [UdpFd; UdpMap; UdpSocket; UdpBuffer; WriteBuf; TcpTimer] = false →
    mem r L = resource_eqb r LwipInitJob || mem r base_resources) as HLf by (intros r Hr; by rewrite HL, HXf).
  assert (∀ r, mem r in_reactor = true → mem r (before_free L) = mem r X) as Hbefore.
  { intros r Hr. unfold before_free. rewrite !mem_without, HL, base_mem.
    destruct r; cbn in Hr |- *; try done; try (symmetry; by apply HXf); by rewrite orb_false_r. }
  assert (∀ r, mem r (after_fail5 L) = mem r (without TcpTimer (without UdpFd X))) as Hafter.
  { intros r. unfold after_fail5, freed_reactor, before_free. rewrite !mem_without, HL, base_mem.
    destruct r; cbn; try done; try (symmetry; by apply HXf); by rewrite orb_false_r. }
  eapply wp_mono; [apply (fail5_ok _ L); [done|rewrite HLf, base_mem by done; reflexivity..| |]|].
  - split; [by rewrite HLf, base_mem|done].
  - destruct Hc as [?|Hc]; [by left|]. right. rewrite <- Hc. unfold in_reactor. cbn [forallb]. by rewrite !Hbefore by done.
  - intros [] s' es Hl. eapply ended_left; [exact Hl|exact Hafter|done|done|].
    intros Hs. rewrite Hs in Hsg. by destruct Hsg.
Qed.

Lemma udp_free_ok s (Q : unit → t → list event → Prop) :
  live s UdpBuffer = true → live s UdpSocket = true → live s UdpMap = true → sockfd s ≠ 0 →
  (∀ l, (∀ r, l r = match r with UdpBuffer | UdpSocket | UdpMap => false | _ => live s r end) → Q tt (with_live l s) []) →
  wp udp_free s Q.
Proof.
  intros Hb Hs Hm Hf HQ. unfold udp_free. wp_step. apply wp_release_live; [done|]. cbn beta. do 3 wp_step.
  change (sockfd (set_live UdpBuffer false s)) with (sockfd s). rewrite (proj2 (Z.eqb_neq _ _)) by done. cbn [negb when].
  apply wp_release_live; [done|]. cbn beta. apply wp_release_live; [done|]. apply HQ. by intros [].
Qed.

Lemma finish_ok e s :
  NDEBUG = true → inv s → wp (finish e) s (λ _ s' es, ended [] s').
Proof.
  intros Hn Hi. unfold finish. do 3 wp_step. eapply wp_mono; [apply free_clients_ok; [done|lia]|].
  intros _ s1 es1 (Hi1 & Hcl). clear s Hi. cbn beta. do 3 wp_step.
  pose proof Hi1 as [Hargs Hq (tm & _ & Hh) Hsock Hjob Hsg Hcs].
  assert (∀ r, live s1 r = mem r (loop_resources tm s1)) as Hlive by exact Hh.
  apply wp_when_release; [by rewrite Hlive, loop_mem|]. intros l1 Hl1. cbn beta. wp_step.
  apply wp_when_release; [cbn; by rewrite Hl1, Hlive, loop_mem|]. intros l2 Hl2. cbn in Hl2. cbn beta. wp_step.
  apply wp_when_release; [cbn; by rewrite Hl2, Hl1, Hlive, loop_mem|]. intros l3 Hl3. cbn in Hl3. cbn beta.
  do 3 (wp_step; eapply wp_mono; [apply tcp_remove_ok|]; intros _ ? ? ->; cbn beta).
  wp_step. apply udp_free_ok; [cbn; by rewrite Hl3, Hl2, Hl1, Hlive, loop_mem..|done|]. intros l4 Hl4. cbn in Hl4. cbn beta.
  unfold BReactor_RemoveTimer. do 3 wp_step. apply wp_when_release; [done|]. intros l5 Hl5. cbn in Hl5. cbn beta.
  wp_step. apply wp_release_live; [cbn; by rewrite Hl5, Hl4, Hl3, Hl2, Hl1, Hlive, loop_mem|]. cbn beta.
  eapply wp_mono; [apply (leave_fail5 [UdpFd])|done].
  - intros r. cbn -[mem base_resources]. rewrite Hl5, Hl4. cbn -[mem base_resources].
    rewrite Hl3, Hl2, Hl1, Hlive, loop_mem, !mem_cons, base_mem. by destruct r.
  - by destruct (Options.set_signal options).
  - done.
  - by left.
  - exact (inv_no_clients _ Hi1 Hcl).
  - exact (conj (ao_ip6_len _ Hargs) (ao_ip6_bytes _ Hargs)).
Qed.

(** ** Before the loop *)

Lemma parse2_ip str b a : BAddr_Parse2 str b = Some a → is_ip_addr a = true.
Proof.
  unfold BAddr_Parse2. destruct (_ || _); [done|].
  match goal with |- context [mbind _ ?m] => destruct m as [[[is6 addr_str] port_str]|] end; [cbn|done].
  destruct (128 <=? _); [done|]. destruct (6 <=? _); [done|]. destruct (strtol10 port_str) as [v err].
  destruct (_ || _); [done|]. destruct (_ || _); [done|].
  destruct is6; cbn; [destruct (getaddrinfo6 _ _)|destruct (getaddrinfo4 _ _)]; cbn; intros [= <-]; done.
Qed.

Lemma resolved_args g0 g :
  Arguments.resolved open_file alloc options g0 g → Arguments.ip6_ok g →
  (Options.username options ≠ None → Options.password options ≠ None ∨ Options.password_file options ≠ None) → args_ok g.
Proof.
  intros [Hip Hmask _ Hserver Hno Hpw Hpf Hgw _] [Hl Hb] Hu.
  assert (Arguments.socks_auth_info g = [BSocksClient.BSocksClient_auth_none] ∧ Options.username options = None ∨
    ∃ u p, Arguments.socks_auth_info g = [BSocksClient.BSocksClient_auth_none; BSocksClient.BSocksClient_auth_password u p])
    as Hauth.
  { destruct (Options.username options) as [u|]; [right|left; by destruct (Hno eq_refl)].
    destruct (Options.password options) as [p|]; [by destruct (Hpw u p eq_refl eq_refl) as [-> _]; eauto|].
    destruct (Hpf u eq_refl eq_refl) as (? & ? & _ & _ & _ & _ & ->). eauto. }
  split; try done.
  - destruct Hip as (? & ? & _ & _ & ->). done.
  - destruct Hmask as (? & ? & _ & _ & ->). done.
  - destruct Hserver as (? & _ & Hs%parse2_ip). by destruct (Arguments.socks_server_addr g).
  - by destruct Hauth as [[-> _]|(? & ? & ->)].
  - destruct Hauth as [[_ ?]|(? & ? & ->)]; [done|]. by eexists.
  - intros Hne. destruct (Options.udpgw_remote_server_addr options) as [u|]; [|done]. eapply parse2_ip, Hgw. done.
Qed.

(** What [run] needs to start: nothing held, no clients. *)
Record startable (s : t) : Prop := {
  st_holds : holds s [];
  st_clients : tcp_clients s = [] ∧ heap s = ∅ ∧ num_clients s = 0;
  st_signal : bsignal_initialized s = false;
  st_ip6 : Arguments.ip6_ok (globals s)
}.

(** The options as [parse_arguments] or Java leaves them. *)
Record options_ok : Prop := {
  oo_complete : Options.complete options;
  oo_help : Options.help options = false;
  oo_version : Options.version options = false;
  oo_buffer : 0 < Options.udpgw_connection_buffer_size options
}.

(** The socket of the DNS relay can be set up, and is not descriptor 0. *)
Definition udp_works (e : answers) : bool :=
  udp_buffer_ok e && (0 <? udp_socket e) && bind_ok e && connect_ok e && add_fd_ok e.

(** What [udp_init] leaves behind when it returns 0. *)
Definition udp_left (e : answers) : list resource :=
  if negb (udp_buffer_ok e) then []
  else if (udp_socket e <? 0) || negb (bind_ok e && connect_ok e && add_fd_ok e) then [UdpBuffer]
  else [UdpMap; UdpFd; UdpSocket; UdpBuffer].

(** What is never released then: memory, and the socket with its map when the
    kernel gave it descriptor 0. *)
Definition udp_leak (e : answers) : list resource := without UdpFd (udp_left e) ++ [WriteBuf].

(** A build without assertions, or the first run of one whose signals are
    handled and whose relay works. *)
Definition build_ok (e : answers) (s : t) : Prop :=
  NDEBUG = true ∨
  Options.set_signal options = true ∧ bnetwork_initialized s = false ∧
    time_initialized (btime_global s) = false ∧ udp_works e = true.

(** The state between the steps of [run], before the loop. *)
Record starting (L : list resource) (s : t) : Prop := {
  sg_holds : holds s L;
  sg_clients : tcp_clients s = [] ∧ heap s = ∅ ∧ num_clients s = 0;
  sg_args : args_ok (globals s);
  sg_quit : exiting s = false ∧ quitting s = false;
  sg_signal : if Options.set_signal options then bsignal_initialized s = true ∧ bsignal_finished s = false
              else NDEBUG = true ∧ bsignal_initialized s = false
}.

Lemma starting_ip6 L s : starting L s → Arguments.ip6_ok (globals s).
Proof. intros Hs. exact (conj (ao_ip6_len _ (sg_args _ _ Hs)) (ao_ip6_bytes _ (sg_args _ _ Hs))). Qed.

(** Acquiring one more resource. *)
Lemma wp_start_acquire r L s (Q : unit → t → list event → Prop) :
  starting L s → mem r L = false → (starting (r :: L) (set_live r true s) → Q tt (set_live r true s) []) → wp (acquire r) s Q.
Proof. intros [] Hr HQ. eapply wp_acquire; [done|done|]. intros Hh. apply HQ. by split. Qed.

(** How the part of [run] before the loop ends. *)
Definition started (e : answers) (r : option run_end) (s : t) : Prop :=
  match r with
  | None => inv s ∧ udp_works e = true
  | Some (Failed _) => ended [] s
  | Some UdpFailed => udp_works e = false ∧ ended (udp_leak e) s
  | Some _ => False
  end.

Lemma udp_init_ok e L s (Q : Z → t → list event → Prop) :
  holds s L → forallb (λ r, negb (mem r L)) [UdpBuffer; UdpSocket; UdpFd; UdpMap] = true →
  (udp_works e = false → ∀ l fd, (∀ r, l r = mem r (udp_left e ++ L)) → Q 0 (with_live l (with_udp (udp_mtu s) fd s)) []) →
  (udp_works e = true → ∀ l, (∀ r, l r = mem r ([UdpMap; UdpFd; UdpSocket; UdpBuffer] ++ L)) →
     Q (udp_socket e) (with_live l (with_udp (udp_mtu s) (udp_socket e) s)) []) →
  wp (udp_init e) s Q.
Proof.
  intros Hh HL Hbad Hgood. unfold udp_init, udp_works, udp_left in *. cbn [forallb] in HL.
  repeat (apply andb_true_iff in HL as [?%negb_true_iff HL]).
  assert (∀ r, live s r = mem r L) as Hlive by exact Hh.
  assert (∀ l, with_live l s = with_live l (with_udp (udp_mtu s) (sockfd s) s)) as Hsame by by destruct s.
  destruct (udp_buffer_ok e); cbn [negb andb] in *.
  2: { apply wp_ret. replace s with (with_live (live s) (with_udp (udp_mtu s) (sockfd s) s)) by by destruct s.
       by apply Hbad. }
  wp_step. apply wp_acquire_live; [by rewrite Hlive|]. cbn beta.
  destruct (Z.ltb_spec (udp_socket e) 0) as [Hneg|Hpos].
  { apply wp_ret. unfold set_live. rewrite Hsame. apply Hbad; [by rewrite (proj2 (Z.ltb_ge 0 _)) by lia|].
    intros r. cbn [orb app]. rewrite mem_cons, <- Hlive. by destruct (resource_eqb r UdpBuffer). }
  wp_step. apply wp_acquire_live; [cbn; by rewrite Hlive|]. cbn beta. cbn [orb] in Hbad.
  assert (wp (release UdpSocket;; mret 0) (set_live UdpSocket true (set_live UdpBuffer true s)) Q ∨ 
    bind_ok e && connect_ok e && add_fd_ok e = true) as Hrel.
  { destruct (bind_ok e && connect_ok e && add_fd_ok e) eqn:Hb; [by right|left]. wp_step. apply wp_release_live; [done|].
    cbn beta. apply wp_ret. unfold set_live. cbn [with_live live]. rewrite Hsame. apply Hbad.
    - rewrite <- !andb_assoc in *. rewrite Hb. apply andb_false_r.
    - intros r. cbn [negb app]. rewrite mem_cons, <- Hlive. destruct r; try reflexivity. cbn. by rewrite Hlive. }
  destruct (bind_ok e), (connect_ok e), (add_fd_ok e); cbn [negb andb] in *; try (by destruct Hrel).
  wp_step. apply wp_acquire_live; [cbn; by rewrite Hlive|]. cbn beta. do 3 wp_step.
  apply wp_acquire_live; [cbn; by rewrite Hlive|]. cbn beta. apply wp_ret. rewrite !andb_true_r in *.
  destruct (Z.eq_dec (udp_socket e) 0) as [Hz|Hz].
  - rewrite Hz in *. apply Hbad; [done|]. intros r. cbn -[mem]. rewrite !mem_cons, <- Hlive. by destruct r.
  - apply Hgood; [apply Z.ltb_lt; lia|]. intros r. cbn -[mem]. rewrite !mem_cons, <- Hlive. by destruct r.
Qed.

Lemma start_lwip_ok e s :
  starting base_resources s → NDEBUG = true ∨ udp_works e = true →
  wp (start_lwip e) s (λ r s' es, started e r s').
Proof.
  intros Hs Hb. unfold start_lwip.
  wp_step. eapply wp_start_acquire; [done|by rewrite base_mem|]. intros Hs1. cbn beta. do 2 wp_step.
  assert (starting (LwipInitJob :: base_resources) (with_job true (set_live LwipInitJob true s))) as Hs2.
  { by destruct Hs1. }
  clear Hs1. revert Hs2. generalize (set_live LwipInitJob true s). clear Hs. intros s0 Hs.
  assert (job_set (with_job true s0) = true) as Hjob by done. revert Hs Hjob. generalize (with_job true s0). clear s0.
  intros s0 Hs Hjob.
  destruct (write_buf_ok e); cbn [negb].
  2: { wp_step. eapply wp_mono; [apply (leave_fail5 []); [apply Hs|apply Hs|done| |apply Hs|by eapply starting_ip6]|].
       - right. done.
       - intros [] s' es He. by apply wp_ret. }
  wp_step. eapply wp_start_acquire; [done|by rewrite mem_cons, base_mem|]. intros Hs1. cbn beta.
  wp_step. eapply wp_start_acquire; [done|by rewrite !mem_cons, base_mem|]. intros Hs2. cbn beta.
  do 5 wp_step. destruct Hs2 as [Hh _ Hargs [Hex Hq] Hsg].
  eapply udp_init_ok; [exact Hh|cbn -[mem]; by rewrite !mem_cons, !base_mem| |].
  - intros Hw l fd Hl. cbn beta. cbn [Z.eqb]. wp_step.
    destruct Hb as [Hn|?]; [|congruence].
    eapply wp_mono; [apply (leave_fail5 (udp_left e ++ [TcpTimer; WriteBuf]))|].
    + intros r. cbn -[mem base_resources]. rewrite Hl, !mem_app, !mem_cons, ?mem_app. cbn [mem existsb].
      destruct (mem r (udp_left e)), (resource_eqb r TcpTimer), (resource_eqb r WriteBuf); done.
    + done.
    + unfold udp_left. destruct (negb _); [done|]. by destruct (_ || _).
    + by left.
    + done.
    + exact (conj (ao_ip6_len _ Hargs) (ao_ip6_bytes _ Hargs)).
    + intros [] s' es He. apply wp_ret. split; [done|]. destruct He as [He ? ? ? ?]. split; try done.
      revert He. unfold udp_leak, udp_left. destruct (negb _); [done|]. by destruct (_ || _).
  - intros Hw l Hl. cbn beta.
    assert (udp_socket e ≠ 0) as Hne.
    { unfold udp_works in Hw. repeat (apply andb_true_iff in Hw as [Hw ?]). intros Hz. rewrite Hz in *. done. }
    rewrite (proj2 (Z.eqb_neq _ _)) by done. apply wp_ret. split; [|done].
    split; try done.
    + cbn in *. congruence.
    + exists true. split; [done|]. intros r. rewrite loop_mem. cbn -[mem base_resources].
      rewrite Hl, ?mem_app, !mem_cons, base_mem. cbn. by destruct r; rewrite ?orb_false_r, ?orb_true_r.
    + cbn. destruct (Options.set_signal options); [done|]. by destruct Hsg.
    + split; [constructor|cbn; intros p; rewrite lookup_empty; split; [by intros ?%not_elem_of_nil|by intros [? ?]]|done|].
      cbn. intros p c v. by rewrite lookup_empty.
Qed.

Lemma init_udpgw_ok e L s :
  starting L s → options_ok → 0 ≤ udp_mtu s → mem UdpGwObject L = false →
  wp (init_udpgw e) s (λ b s' es,
    s' = s ∧ b = false ∨
    b = true ∧ starting (opt_list (Options.given (Options.udpgw_remote_server_addr options)) UdpGwObject ++ L) s').
Proof.
  intros Hs Ho Hmtu HL. unfold init_udpgw.
  destruct (Options.udpgw_remote_server_addr options) as [u|] eqn:Hu; cbn [Options.given opt_list app].
  2: { apply wp_ret. by right. }
  do 2 wp_step. destruct (_ || _) eqn:Hm; [apply wp_ret; by left|]. apply orb_false_iff in Hm as [Hlo%Z.ltb_ge Hhi%Z.ltb_ge].
  unfold SocksUdpGwClient_Init. do 2 wp_step. wp_step. apply wp_assert; [by rewrite (ao_server _ (sg_args _ _ Hs))|]. cbn beta.
  wp_step. apply wp_assert; [apply (ao_udpgw _ (sg_args _ _ Hs)); congruence|]. cbn beta.
  assert (∃ r, UdpGwClient.UdpGwClient_Init (udp_mtu s) DEFAULT_UDPGW_MAX_CONNECTIONS
    (Options.udpgw_connection_buffer_size options) (udpgw_ok e) = Some r) as [r Hr].
  { unfold UdpGwClient.UdpGwClient_Init. pose proof (oo_buffer Ho).
    rewrite !(assert_true (_ <=? _)) by (apply Z.leb_le; done). cbn [mbind option_bind].
    rewrite !(assert_true (_ <? _)) by (apply Z.ltb_lt; done). cbn [mbind option_bind]. eauto. }
  apply wp_lift_some with r; [done|]. destruct r; [|apply wp_ret; by left].
  wp_step. eapply wp_start_acquire; [done|done|]. intros Hs1. cbn beta. apply wp_ret. right. done.
Qed.

Lemma compute_udp_mtu_nonneg mtu : 0 ≤ compute_udp_mtu mtu.
Proof. unfold compute_udp_mtu. cbv zeta. match goal with |- context [?x <? 0] => destruct (Z.ltb_spec x 0) end; lia. Qed.

Definition signal_reactor : list resource := opt_list (Options.set_signal options) Signal ++ [Reactor].

Lemma signal_reactor_mem r :
  mem r signal_reactor = match r with Reactor => true | Signal => Options.set_signal options | _ => false end.
Proof. unfold signal_reactor, opt_list. by destruct (Options.set_signal options), r. Qed.

(** Leaving through a label that releases everything. *)
Lemma leave_all (goto : IO unit) L L' l e s :
  starting L s → wp goto s (left_with L' s) → (∀ r, mem r L' = false) →
  wp (goto;; mret (Some (Failed l))) s (λ r s' es, started e r s').
Proof.
  intros Hs Hw HL. wp_step. eapply wp_mono; [exact Hw|]. intros [] s' es Hl. apply wp_ret. cbn.
  eapply ended_left; [exact Hl|intros r; by rewrite HL|apply Hs|by eapply starting_ip6|].
  intros Hsig. pose proof (sg_signal _ _ Hs) as Hx. rewrite Hsig in Hx. by destruct Hx.
Qed.

Lemma starting_signal L s : starting L s → mem Signal L = Options.set_signal options → signal_state s L.
Proof. intros Hs Hm. split; [done|]. apply Hs. Qed.


Lemma start_device_ok e s :
  starting signal_reactor s → options_ok → NDEBUG = true ∨ udp_works e = true →
  wp (start_device e) s (λ r s' es, started e r s').
Proof.
  intros Hs Ho Hb. unfold start_device. destruct (device_ok e); cbn [negb].
  2: { eapply leave_all; [done|eapply fail3_ok; [apply Hs|by rewrite signal_reactor_mem| |]|].
       - apply starting_signal; [done|by rewrite signal_reactor_mem].
       - right. unfold in_reactor. cbn [forallb]. by rewrite !mem_without, !signal_reactor_mem.
       - intros r. unfold freed_reactor. rewrite !mem_without, signal_reactor_mem. by destruct r. }
  wp_step. eapply wp_start_acquire; [done|by rewrite signal_reactor_mem|]. intros Hs1. cbn beta.
  wp_step. eapply wp_start_acquire; [done|by rewrite mem_cons, signal_reactor_mem|]. intros Hs2. cbn beta.
  destruct (read_buffer_ok e); cbn [negb].
  2: { eapply leave_all; [done|eapply fail4_ok; [apply Hs2|done|done|by rewrite !mem_cons, signal_reactor_mem| |]|].
       - apply starting_signal; [done|by rewrite !mem_cons, signal_reactor_mem].
       - right. unfold in_reactor. cbn [forallb]. by rewrite !mem_without, !mem_cons, !signal_reactor_mem.
       - intros r. unfold freed_reactor. rewrite !mem_without, !mem_cons, signal_reactor_mem. by destruct r. }
  wp_step. eapply wp_start_acquire; [done|by rewrite !mem_cons, signal_reactor_mem|]. intros Hs3. cbn beta.
  do 3 wp_step.
  assert (starting (ReadBuffer :: ReadInterface :: Device :: signal_reactor)
    (with_udp (compute_udp_mtu (BTap_GetMTU e)) (sockfd (set_live ReadBuffer true (set_live ReadInterface true
      (set_live Device true s)))) (set_live ReadBuffer true (set_live ReadInterface true (set_live Device true s))))) as Hs4.
  { by destruct Hs3. }
  eapply wp_mono; [eapply init_udpgw_ok; [exact Hs4|done|apply compute_udp_mtu_nonneg|by rewrite !mem_cons, signal_reactor_mem]|].
  cbn beta. intros b s5 es [[-> ->]|(-> & Hs5)]; cbn [negb].
  - eapply leave_all; [exact Hs4|eapply fail4a_ok; [apply Hs4|done|done|done|by rewrite !mem_cons, signal_reactor_mem| |]|].
    + apply starting_signal; [done|by rewrite !mem_cons, signal_reactor_mem].
    + right. unfold in_reactor. cbn [forallb]. by rewrite !mem_without, !mem_cons, !signal_reactor_mem.
    + intros r. unfold freed_reactor. rewrite !mem_without, !mem_cons, signal_reactor_mem. by destruct r.
  - by apply start_lwip_ok.
Qed.

Lemma set_loglevels_ok i levels s : wp (set_loglevels i levels) s (λ _ s' es, s' = s).
Proof.
  revert i. induction levels as [|l levels IH]; intros i; cbn [set_loglevels]; [by apply wp_ret|]. wp_step.
  assert (∀ m : IO unit, wp m s (λ _ s' _, s' = s) →
    wp m s (λ _ s' e1, wp (set_loglevels (i + 1) levels) s' (λ _ s2 e2, s2 = s))) as Hm.
  { intros m Hm. eapply wp_mono; [exact Hm|]. intros _ ? ? ->. eapply wp_mono; [apply IH|]. done. }
  destruct (0 <=? l); [by apply Hm, wp_emit|]. apply Hm, wp_when; intros; [by apply wp_emit|done].
Qed.

Lemma process_arguments_args_ok s :
  options_ok → Arguments.password_file_contents (globals s) = None → Arguments.ip6_ok (globals s) →
  wp process_arguments s (λ b s' es, ∃ g, s' = with_globals g s ∧ Arguments.ip6_ok g ∧ (b = true → args_ok g)).
Proof.
  intros Ho Hp H6. pose proof (Arguments.process_arguments_ok open_file alloc options (globals s)
    (oo_complete Ho) (oo_help Ho) (oo_version Ho) Hp H6) as Hw.
  apply wp_run in Hw as (b & g & es & Hrun & _ & Hg & Hout). unfold process_arguments, wp. rewrite Hrun.
  exists g. split_and!; [done|done|]. intros ->. eapply resolved_args; [exact Hout|done|].
  destruct (oo_complete Ho) as [Hx|[Hx|(_ & _ & _ & Hx)]]; [rewrite (oo_help Ho) in Hx; done|rewrite (oo_version Ho) in Hx; done|].
  intros Hu. destruct (Options.username options); [|done]. specialize (Hx eq_refl).
  destruct (Options.password options), (Options.password_file options); try done; auto.
Qed.

Lemma ended_fail1 s (Q : option run_end → t → list event → Prop) :
  holds s [] → tcp_clients s = [] ∧ heap s = ∅ ∧ num_clients s = 0 → bsignal_initialized s = false →
  Arguments.ip6_ok (globals s) → (∀ s', ended [] s' → Q (Some (Failed fail1)) s' []) →
  wp (goto_fail1;; mret (Some (Failed fail1))) s Q.
Proof.
  intros Hh Hc Hs H6 HQ. wp_step. eapply wp_mono; [by apply fail1_ok|]. intros [] s' es Hl. apply wp_ret.
  assert (es = []) as -> by apply Hl. apply HQ. by eapply ended_left.
Qed.

Lemma init_signal_ok e s :
  startable (set_live Reactor false s) → holds s [Reactor] → args_ok (globals s) → exiting s = false ∧ quitting s = false →
  (Options.set_signal options = false → NDEBUG = true) →
  wp (init_signal e) s (λ b s' es, if b then starting signal_reactor s' else s' = s).
Proof.
  intros [_ Hc Hs H6] Hh Ha Hq Hn. unfold init_signal. cbn in Hc, Hs.
  assert (Options.set_signal options = false → starting signal_reactor s) as Hskip.
  { intros Ho. unfold signal_reactor. split; rewrite ?Ho; try done. by split; [apply Hn|]. }
  destruct (Options.set_signal options) eqn:Ho; [|apply wp_ret; by apply Hskip].
  unfold BSignal_Init. do 3 wp_step. apply wp_assert; [by rewrite Hs|]. cbn beta.
  destruct (signal_ok e); [|by apply wp_ret].
  wp_step. eapply wp_acquire; [exact Hh|done|]. intros Hh1. cbn beta. do 3 wp_step.
  unfold signal_reactor. split; rewrite ?Ho; try done.
Qed.

Lemma init_time_ok e s (Q : unit → t → list event → Prop) :
  NDEBUG = true ∨ time_initialized (btime_global s) = false → (∀ g, Q tt (with_btime g s) []) → wp (init_time e) s Q.
Proof.
  intros Hb HQ. unfold init_time. do 3 wp_step. unfold BTime_Init, wp, mlift. destruct Hb as [Hn|Hi].
  - unfold assert. rewrite Hn. apply HQ.
  - rewrite Hi, assert_true by done. apply HQ.
Qed.

Lemma start_ok e s :
  startable s → options_ok → build_ok e s → wp (start e) s (λ r s' es, started e r s').
Proof.
  intros [Hh Hc Hs H6] Ho Hb. unfold start. wp_step. eapply wp_mono; [apply set_loglevels_ok|]. intros _ ? es0 ->. cbn beta.
  do 3 wp_step. unfold BNetwork_GlobalInit. do 3 wp_step. apply wp_assert_or.
  { destruct Hb as [?|(_ & Hb & _)]; [by left|right; cbn; by rewrite Hb]. }
  cbn beta. destruct (network_ok e); [|apply wp_ret; cbn [negb]; by apply ended_fail1].
  do 3 wp_step. cbn [negb]. wp_step. eapply wp_mono; [by apply process_arguments_args_ok|].
  intros b s1 es1 (g & -> & Hg6 & Hargs). cbn beta. destruct b; cbn [negb]; [|by apply ended_fail1].
  specialize (Hargs eq_refl). wp_step. apply init_time_ok. { destruct Hb as [?|(_ & _ & ? & _)]; auto. } intros tg. cbn beta.
  destruct (reactor_ok e); cbn [negb]; [|by apply ended_fail1].
  wp_step. eapply (wp_acquire _ []); [exact Hh|done|]. intros Hh1. cbn beta. do 5 wp_step.
  eapply wp_mono; [apply init_signal_ok|].
  - split; try done. intros r. cbn. rewrite Hh. by destruct (resource_eqb r Reactor).
  - exact Hh1.
  - done.
  - done.
  - intros Hns. destruct Hb as [?|[? _]]; [done|congruence].
  - cbn beta. intros b s2 es2 Hs2. destruct b; cbn [negb].
    + eapply start_device_ok; [done|done|]. destruct Hb as [?|(_ & _ & _ & ?)]; auto.
    + subst. wp_step. eapply wp_mono; [apply (fail2_ok _ [Reactor]); [exact Hh1|done|by right]|].
      intros [] s' es Hl. apply wp_ret. cbn. by eapply ended_left.
Qed.

(** ** Builds with assertions

    [wlp]: if the code returns, then [Q].  It is used to show that a build with
    assertions does not return. *)

Definition wlp {A} (m : IO A) (s : t) (Q : A → t → Prop) : Prop := ∀ a s' es, m s = Some (a, s', es) → Q a s'.

Lemma wlp_bind {A B} (m : IO A) (k : A → IO B) s Q : wlp m s (λ a s1, wlp (k a) s1 Q) → wlp (m ≫= k) s Q.
Proof.
  intros Hm b s' es Hk. unfold mbind, M_bind in Hk. destruct (m s) as [[[a s1] e1]|] eqn:Hms; [|done].
  destruct (k a s1) as [[[b' s2] e2]|] eqn:Hka; [|done]. injection Hk as <- <- _. by eapply Hm.
Qed.

Lemma wlp_mono {A} (m : IO A) s (Q Q' : A → t → Prop) : wlp m s Q → (∀ a s', Q a s' → Q' a s') → wlp m s Q'.
Proof. intros Hm HQ a s' es Hr. by eapply HQ, Hm. Qed.

Lemma wlp_ret {A} (a : A) s (Q : A → t → Prop) : Q a s → wlp (mret a) s Q.
Proof. by intros HQ ? ? ? [= <- <- _]. Qed.

Lemma wlp_get s (Q : t → t → Prop) : Q s s → wlp mget s Q.
Proof. by intros HQ ? ? ? [= <- <- _]. Qed.

Lemma wlp_put s s' (Q : unit → t → Prop) : Q tt s' → wlp (mput s') s Q.
Proof. by intros HQ ? ? ? [= <- <- _]. Qed.

Lemma wlp_modify f s (Q : unit → t → Prop) : Q tt (f s) → wlp (mmodify f) s Q.
Proof. by intros HQ ? ? ? [= <- <- _]. Qed.

Lemma wlp_emit e s (Q : unit → t → Prop) : Q tt s → wlp (emit e) s Q.
Proof. by intros HQ ? ? ? [= <- <- _]. Qed.

Lemma wlp_abort {A} s (Q : A → t → Prop) : wlp mabort s Q.
Proof. done. Qed.

Lemma wlp_lift {A} (o : option A) s (Q : A → t → Prop) : (∀ a, o = Some a → Q a s) → wlp (mlift o) s Q.
Proof. intros HQ ? ? ? Hr. destruct o; [|done]. injection Hr as <- <- _. by apply HQ. Qed.

Lemma wlp_assert b s (Q : unit → t → Prop) : (NDEBUG = false → b = true → Q tt s) → (NDEBUG = true → Q tt s) → wlp (ASSERT b) s Q.
Proof.
  intros H1' H2' ? ? ? Hr. unfold ASSERT in Hr. destruct NDEBUG; cbn in Hr; [injection Hr as <- <- _; auto|].
  destruct b; [|done]. injection Hr as <- <- _. auto.
Qed.

Lemma wlp_assert_skip b s (Q : unit → t → Prop) : Q tt s → wlp (ASSERT b) s Q.
Proof. intros HQ. by apply wlp_assert. Qed.

Lemma wlp_acquire r s (Q : unit → t → Prop) : Q tt (set_live r true s) → wlp (acquire r) s Q.
Proof. intros HQ. apply wlp_bind, wlp_get. destruct (live s r); [apply wlp_abort|by apply wlp_put]. Qed.

Lemma wlp_release r s (Q : unit → t → Prop) : Q tt (set_live r false s) → wlp (release r) s Q.
Proof. intros HQ. apply wlp_bind, wlp_get. destruct (live s r); [by apply wlp_put|apply wlp_abort]. Qed.

(** What the handlers leave alone: the signal handler and the descriptor of the
    DNS relay. *)
Definition calm (s s' : t) : Prop :=
  bsignal_initialized s' = bsignal_initialized s ∧ live s' UdpFd = live s UdpFd.

Local Ltac wlp_step :=
  lazymatch goal with
  | |- wlp (mbind _ _) _ _ => apply wlp_bind
  | |- wlp (mret _) _ _ => apply wlp_ret
  | |- wlp mget _ _ => apply wlp_get
  | |- wlp (mput _) _ _ => apply wlp_put
  | |- wlp (mmodify _) _ _ => apply wlp_modify
  | |- wlp (emit _) _ _ => apply wlp_emit
  | |- wlp mabort _ _ => apply wlp_abort
  | |- wlp (mlift _) _ _ => apply wlp_lift; intros ? ?
  | |- wlp (ASSERT _) _ _ => apply wlp_assert_skip
  | |- wlp (acquire _) _ _ => apply wlp_acquire
  | |- wlp (release _) _ _ => apply wlp_release
  | |- wlp (when ?b _) _ _ => destruct b; cbn [when]
  | |- wlp (if ?b then _ else _) _ _ => destruct b
  | |- wlp (match ?x with _ => _ end) _ _ => destruct x
  end; cbn beta iota.

Lemma calm_terminate s : wlp terminate s (λ _ s', calm s s').
Proof. unfold terminate, BReactor_Quit. by repeat wlp_step. Qed.

Lemma calm_init_listener a r set s ok fail :
  resource_eqb r UdpFd = false → (∀ s0, calm s0 (set s0)) → (∀ s0, wlp ok s0 (λ _ s', calm s0 s')) →
  (∀ s0, wlp fail s0 (λ _ s', calm s0 s')) → wlp (init_listener a r set ok fail) s (λ _ s', calm s s').
Proof.
  intros Hr Hset Hok Hfail. unfold init_listener.
  assert (∀ (m : IO unit) s0, calm s s0 → (∀ s1, wlp m s1 (λ _ s', calm s1 s')) → wlp m s0 (λ _ s', calm s s')) as Htr.
  { intros m s0 Hc Hm. eapply wlp_mono; [apply Hm|]. unfold calm in *. intros ? s' ?. destruct_and!. split; congruence. }
  repeat wlp_step; apply Htr; try done. unfold calm in *.
  match goal with |- _ (set ?s0) = _ ∧ _ => destruct (Hset s0) as [-> ->] end.
  split; [done|]. cbn [set_live with_live live]. assert (resource_eqb UdpFd r = false) as -> by by destruct r. done.
Qed.

Lemma calm_trans s s1 s2 : calm s s1 → calm s1 s2 → calm s s2.
Proof. unfold calm. intros. destruct_and!. split; congruence. Qed.

Lemma calm_accept a s : wlp (listener_accept_func a) s (λ _ s', calm s s').
Proof.
  unfold listener_accept_func, append_source, init_client. by repeat wlp_step.
Qed.

Lemma calm_client p a s : wlp (on_client p a) s (λ _ s', calm s s').
Proof. unfold on_client. by repeat wlp_step. Qed.

Lemma calm_lwip_init n l4 l6 s : wlp (lwip_init_job_handler n l4 l6) s (λ _ s', calm s s').
Proof.
  assert (∀ s0, wlp (s ← mget; when (negb (quitting s)) terminate) s0 (λ _ s', calm s0 s')) as Hfail.
  { intros s0. do 2 wlp_step. wlp_step; [apply calm_terminate|by wlp_step]. }
  unfold lwip_init_job_handler. do 14 wlp_step. wlp_step; [apply Hfail|]. do 4 wlp_step.
  eapply wlp_mono; [apply calm_init_listener; [done|done| |apply Hfail]|].
  - intros s0. wlp_step; [|by wlp_step]. apply calm_init_listener; [done|done|by intros; wlp_step|apply Hfail].
  - intros ? s'. by apply calm_trans.
Qed.

Lemma calm_dispatch ev s : wlp (dispatch ev) s (λ _ s', calm s s').
Proof.
  destruct ev as [n l4 l6| | | |a|p a|]; cbn [dispatch].
  - do 2 wlp_step. eapply wlp_mono; [apply calm_lwip_init|]. done.
  - do 2 wlp_step. unfold tcp_timer_handler. do 4 wlp_step. wlp_step; [|by wlp_step].
    eapply wlp_mono; [apply calm_terminate|]. done.
  - unfold device_error_handler. do 4 wlp_step. apply calm_terminate.
  - unfold signal_handler. do 4 wlp_step. apply calm_terminate.
  - wlp_step. eapply wlp_mono; [apply calm_accept|]. intros ? s' ?. by wlp_step.
  - apply calm_client.
  - unfold Java_terminateTun2Socks. by wlp_step.
Qed.

Lemma calm_exec evs s : wlp (BReactor_Exec evs) s (λ _ s', calm s s').
Proof.
  revert s. induction evs as [|ev evs IH]; intros s; cbn [BReactor_Exec]; do 2 wlp_step; wlp_step; try by wlp_step.
  wlp_step. eapply wlp_mono; [apply calm_dispatch|]. intros ? s1 H1'. eapply wlp_mono; [apply IH|].
  intros ? s'. by apply calm_trans.
Qed.

Lemma calm_free_clients n s : wlp (free_clients n) s (λ _ s', calm s s').
Proof.
  revert s. induction n as [|n IH]; intros s; cbn [free_clients]; [by wlp_step|]. do 2 wlp_step.
  destruct (tcp_clients s); [by wlp_step|]. wlp_step. eapply wlp_mono; [apply calm_client|].
  intros ? s1 H1'. eapply wlp_mono; [apply IH|]. intros ? s'. by apply calm_trans.
Qed.

(** With assertions, the labels cannot be passed while the relay's descriptor
    or the timer is in the reactor, or without a signal handler. *)
Definition stuck (s : t) : Prop :=
  live s UdpFd = true ∨ live s TcpTimer = true ∨ bsignal_initialized s = false.

Lemma stuck_fail3 s : NDEBUG = false → stuck s → wlp goto_fail3 s (λ _ _, False).
Proof.
  intros Hn Hs. unfold goto_fail3, BSignal_Finish. do 4 wlp_step. apply wlp_assert; [intros _ Hi|congruence].
  destruct Hs as [Hs|[Hs|Hs]]; [| |congruence].
  all: do 2 wlp_step; wlp_step; wlp_step; [|wlp_step; [wlp_step|]].
  all: repeat wlp_step.
  all: unfold goto_fail2, BReactor_Free; do 3 wlp_step; wlp_step; apply wlp_assert; [|congruence]; intros _ Hf.
  all: unfold in_reactor in Hf; cbn in Hf; rewrite Hs in Hf; cbn in Hf; rewrite ?andb_false_r in Hf; done.
Qed.

Lemma stuck_fail4 s : NDEBUG = false → stuck s → wlp goto_fail4 s (λ _ _, False).
Proof. intros Hn Hs. unfold goto_fail4. do 4 wlp_step. by apply stuck_fail3. Qed.

Lemma stuck_fail4a s : NDEBUG = false → stuck s → wlp goto_fail4a s (λ _ _, False).
Proof. intros Hn Hs. unfold goto_fail4a. do 2 wlp_step. by apply stuck_fail4. Qed.

Lemma stuck_fail5 s : NDEBUG = false → stuck s → wlp goto_fail5 s (λ _ _, False).
Proof. intros Hn Hs. unfold goto_fail5. do 5 wlp_step. wlp_step; wlp_step; by apply stuck_fail4a. Qed.

Lemma wlp_udp_init e s :
  wlp (udp_init e) s (λ fd s', live s' TcpTimer = live s TcpTimer ∧
    bsignal_initialized s' = bsignal_initialized s ∧ (fd ≠ 0 → live s' UdpFd = true)).
Proof. unfold udp_init. by repeat wlp_step. Qed.

(** How a build with assertions gets to the loop, if it does. *)
Definition debug_started (r : option run_end) (s : t) : Prop :=
  match r with
  | None => live s UdpFd = true
  | Some (Failed l) => Options.set_signal options = false → l = fail1
  | Some _ => False
  end.

Lemma debug_leave (goto : IO unit) l s :
  (stuck s → wlp goto s (λ _ _, False)) → (Options.set_signal options = false → bsignal_initialized s = false) →
  wlp (goto;; mret (Some (Failed l))) s debug_started.
Proof.
  intros Hg Hs. wlp_step. destruct (Options.set_signal options) eqn:Ho.
  - intros ? s' ? ?. wlp_step. cbn. congruence.
  - eapply wlp_mono; [apply Hg; right; right; by apply Hs|]. done.
Qed.

Lemma debug_start_lwip e s :
  NDEBUG = false → (Options.set_signal options = false → bsignal_initialized s = false) →
  wlp (start_lwip e) s debug_started.
Proof.
  intros Hn Hs. unfold start_lwip. do 4 wlp_step. wlp_step; [by apply debug_leave; [apply stuck_fail5|]|].
  do 9 wlp_step. eapply wlp_mono; [apply wlp_udp_init|]. cbn beta. intros fd s1 (Ht & Hb & Hf).
  destruct (Z.eqb_spec fd 0) as [->|Hne]; [|wlp_step; by apply Hf].
  wlp_step. eapply wlp_mono; [apply stuck_fail5; [done|]|done]. right; left. by rewrite Ht.
Qed.

Lemma debug_start_device e s :
  NDEBUG = false → (Options.set_signal options = false → bsignal_initialized s = false) →
  wlp (start_device e) s debug_started.
Proof.
  intros Hn Hs. unfold start_device. wlp_step; [by apply debug_leave; [apply stuck_fail3|]|].
  do 4 wlp_step. wlp_step; [by apply debug_leave; [apply stuck_fail4|]|]. do 5 wlp_step.
  assert (∀ s0, wlp (init_udpgw e) s0 (λ _ s', bsignal_initialized s' = bsignal_initialized s0)) as Hgw.
  { intros s0. unfold init_udpgw, SocksUdpGwClient_Init. by repeat wlp_step. }
  eapply wlp_mono; [apply Hgw|]. cbn. intros b s1 Hb. rewrite <- Hb in Hs.
  destruct b; cbn [negb]; [by apply debug_start_lwip|by apply debug_leave; [apply stuck_fail4a|]].
Qed.

Lemma debug_start e s :
  NDEBUG = false → bsignal_initialized s = false → wlp (start e) s debug_started.
Proof.
  intros Hn Hs. unfold start, BNetwork_GlobalInit.
  assert (∀ (goto : IO unit) s0, wlp (goto;; mret (Some (Failed fail1))) s0 debug_started) as H1'.
  { intros goto s0. wlp_step. intros ? ? ? ?. by wlp_step. }
  assert (∀ i l s0, wlp (set_loglevels i l) s0 (λ _ s', s' = s0)) as Hlog.
  { intros i l s0 a s' es Hr. by eapply (wp_elim _ _ _ _ _ _ (set_loglevels_ok i l s0)). }
  wlp_step. eapply wlp_mono; [apply Hlog|]. intros ? s0 ->. cbn beta. do 7 wlp_step.
  wlp_step; [|wlp_step; apply H1']. do 3 wlp_step. cbn [negb]. wlp_step.
  intros b s1 es Hr. unfold process_arguments in Hr.
  destruct (Arguments.process_arguments _ _ _ _) as [[[b' g] es']|]; [|done]. injection Hr as <- <- _.
  wlp_step; [apply H1'|]. wlp_step. unfold init_time. do 5 wlp_step. wlp_step; [apply H1'|]. do 7 wlp_step. unfold init_signal.
  destruct (Options.set_signal options) eqn:Ho; [|wlp_step; cbn [negb]; by apply debug_start_device].
  intros b s2 es2 Hr. destruct b; cbn [negb]; [by apply debug_start_device; [|congruence]|].
  wlp_step. intros ? ? ? ?. wlp_step. cbn. congruence.
Qed.

Lemma debug_finish e s : NDEBUG = false → live s UdpFd = true → wlp (finish e) s (λ _ _, False).
Proof.
  intros Hn Hs. unfold finish. do 3 wlp_step. eapply wlp_mono; [apply calm_free_clients|]. intros ? s1 [_ Hf].
  rewrite Hs in Hf. cbn beta.
  assert (∀ l s0, wlp (tcp_remove l) s0 (λ _ s', s' = s0)) as Hrm.
  { intros l0 s0 a0 s0' es0 Hr. by eapply (wp_elim _ _ _ _ _ _ (tcp_remove_ok l0 s0)). }
  assert (∀ r b s0 (Q : unit → t → Prop), resource_eqb UdpFd r = false → live s0 UdpFd = true →
    (∀ s', live s' UdpFd = true → Q tt s') → wlp (when b (release r)) s0 Q) as Hrel.
  { intros r b s0 Q Hr Hl HQ. destruct b; cbn [when]; wlp_step; apply HQ; [|done].
    cbn [set_live with_live live]. by rewrite Hr. }
  do 2 wlp_step. do 3 (wlp_step; apply Hrel; [done|done|]; clear Hf; intros ? Hf).
  do 3 (wlp_step; eapply wlp_mono; [apply Hrm|]; intros ? ? ->; cbn beta).
  wlp_step. unfold udp_free. do 5 wlp_step. apply Hrel; [done|done|]. clear Hf. intros ? Hf. wlp_step.
  unfold BReactor_RemoveTimer. do 3 wlp_step. apply Hrel; [done|done|]. clear Hf. intros ? Hf. do 2 wlp_step.
  apply stuck_fail5; [done|]. by left.
Qed.

Lemma run_needs_network e evs s :
  NDEBUG = false → bnetwork_initialized s = true → wlp (run e evs) s (λ _ _, False).
Proof.
  intros Hn Hb. unfold run, start, BNetwork_GlobalInit. do 2 wlp_step. intros ? s1 es1 Hl.
  pose proof (wp_elim _ _ _ _ _ _ (set_loglevels_ok _ _ _) Hl) as Heq. cbn beta in Heq. subst s1.
  do 6 wlp_step. cbn. rewrite Hb. intros ? ? ? Hr. unfold ASSERT in Hr. by rewrite Hn in Hr.
Qed.

(** ** When the loop is left *)

(** The three calls of lwIP for a listener succeed. *)
Definition listens (a : listen_answers) : bool := new_ok a && bind_netif_ok a && listen_ok a.

(** Whether an event ends the loop, where [g] says that Java has asked for it and [ip6]
    that there is a second listener. *)
Definition quits_on (ip6 g : bool) (ev : loop_event) : bool :=
  match ev with
  | EvLwipInit netif_ok l4 l6 => negb (netif_ok && listens l4 && (negb ip6 || listens l6))
  | EvTimer => g
  | EvDeviceError | EvSignal => true
  | _ => false
  end.

(** The request after an event. *)
Definition asked (g : bool) (ev : loop_event) : bool := match ev with EvTerminate => true | _ => g end.

(** The loop ends at one of the events. *)
Fixpoint ends (ip6 g : bool) (evs : list loop_event) : bool :=
  match evs with
  | [] => false
  | ev :: evs => quits_on ip6 g ev || ends ip6 (asked g ev) evs
  end.

(** The flags that decide about the loop. *)
Definition flags (q g : bool) (s : t) : Prop := exiting s = q ∧ quitting s = q ∧ g_terminate s = g.

Lemma flags_terminate g s : g_terminate s = g → wlp terminate s (λ _ s', flags true g s').
Proof. intros Hg. unfold terminate, BReactor_Quit. by repeat wlp_step. Qed.

Lemma flags_init_listener a r set s ok fail q g :
  (∀ s0, flags false g s0 → flags false g (set s0)) → flags false g s →
  (∀ s0, flags false g s0 → wlp ok s0 (λ _ s', flags q g s')) →
  (∀ s0, flags false g s0 → wlp fail s0 (λ _ s', flags true g s')) →
  wlp (init_listener a r set ok fail) s (λ _ s', flags (negb (listens a) || q) g s').
Proof.
  intros Hset Hs Hok Hfail. unfold init_listener, listens.
  destruct (new_ok a); cbn [negb andb orb]; [|by apply Hfail].
  do 2 wlp_step. destruct (bind_netif_ok a); cbn [negb andb orb]; [|do 2 wlp_step; by apply Hfail].
  destruct (listen_ok a); cbn [negb andb orb]; [|do 2 wlp_step; by apply Hfail].
  do 6 wlp_step. apply Hok, Hset. exact Hs.
Qed.

Lemma flags_lwip_init n l4 l6 s g :
  flags false g s → wlp (lwip_init_job_handler n l4 l6) s
    (λ _ s', flags (quits_on (Options.given (Options.netif_ip6addr options)) g (EvLwipInit n l4 l6)) g s').
Proof.
  intros Hs. assert (∀ s0, flags false g s0 →
    wlp (s ← mget; when (negb (quitting s)) terminate) s0 (λ _ s', flags true g s')) as Hfail.
  { intros s0 (_ & Hq & Hg). do 2 wlp_step. rewrite Hq. cbn [negb when]. by apply flags_terminate. }
  unfold lwip_init_job_handler. do 14 wlp_step. destruct n; cbn [negb quits_on andb]; [|by apply Hfail].
  do 4 wlp_step. rewrite negb_andb. apply flags_init_listener; [done|exact Hs| |exact Hfail].
  intros s0 Hs0. destruct (Options.given (Options.netif_ip6addr options)); cbn [negb orb]; [|by wlp_step].
  rewrite <- (orb_false_r (negb (listens l6))). apply flags_init_listener; [done|done|by intros; wlp_step|exact Hfail].
Qed.

Lemma flags_dispatch ev s g :
  flags false g s →
  wlp (dispatch ev) s (λ _ s', flags (quits_on (Options.given (Options.netif_ip6addr options)) g ev) (asked g ev) s').
Proof.
  intros Hs. pose proof Hs as (_ & _ & Hg). destruct ev as [n l4 l6| | | |a|p a|]; cbn [dispatch].
  - do 2 wlp_step. by apply flags_lwip_init.
  - do 2 wlp_step. unfold tcp_timer_handler. do 4 wlp_step. cbn [set_live with_live g_terminate]. rewrite Hg.
    destruct g; [by apply flags_terminate|by wlp_step].
  - unfold device_error_handler. do 4 wlp_step. by apply flags_terminate.
  - unfold signal_handler. do 4 wlp_step. by apply flags_terminate.
  - wlp_step. eapply (wlp_mono _ _ (λ _ s', flags false g s')); [|intros ? s' ?; by wlp_step].
    unfold listener_accept_func, append_source, init_client. by repeat wlp_step.
  - unfold on_client. by repeat wlp_step.
  - unfold Java_terminateTun2Socks. wlp_step. by destruct Hs as (? & ? & _).
Qed.

(** The loop is left exactly by the events that end it. *)
Lemma flags_exec evs s g :
  flags false g s → wlp (BReactor_Exec evs) s (λ b _, b = ends (Options.given (Options.netif_ip6addr options)) g evs).
Proof.
  revert s g. induction evs as [|ev evs IH]; intros s g Hs; cbn [BReactor_Exec]; do 2 wlp_step;
    rewrite (proj1 Hs); [by wlp_step|].
  wlp_step. eapply wlp_mono; [by apply flags_dispatch|]. cbn beta. intros [] s1 Hs1. cbn [ends].
  destruct (quits_on _ g ev); cbn [orb]; [|by apply IH].
  destruct evs; cbn [BReactor_Exec]; do 2 wlp_step; rewrite (proj1 Hs1); by wlp_step.
Qed.

(** Something the program needs to start was not to be had: an answer of the system,
    or the arguments. *)
Definition blocked (e : answers) : Prop :=
  network_ok e && reactor_ok e && device_ok e && read_buffer_ok e && write_buf_ok e = false ∨
  (Options.set_signal options = true ∧ signal_ok e = false) ∨
  Options.given (Options.udpgw_remote_server_addr options) = true ∨
  ∃ g g' es, Arguments.process_arguments open_file alloc options g = Some (false, g', es).

(** How the part before the loop ends, and with which flags. *)
Definition start_flags (e : answers) (g : bool) (r : option run_end) (s' : t) : Prop :=
  match r with
  | None => flags false g s'
  | Some (Failed _) => blocked e
  | Some UdpFailed => True
  | Some _ => False
  end.

Lemma start_flags_fail e g l (goto : IO unit) s : blocked e → wlp (goto;; mret (Some (Failed l))) s (start_flags e g).
Proof. intros Hb. wlp_step. intros ? ? ? ?. by wlp_step. Qed.

Lemma flags_start_lwip e s g : flags false g s → wlp (start_lwip e) s (start_flags e g).
Proof.
  intros Hs. unfold start_lwip. do 4 wlp_step. destruct (write_buf_ok e) eqn:He; cbn [negb].
  2: { apply start_flags_fail. left. by rewrite He, andb_false_r. }
  do 9 wlp_step. eapply (wlp_mono _ _ (λ _ s', flags false g s')).
  { unfold udp_init. by repeat wlp_step. }
  intros fd s1 Hs1. wlp_step; [|by wlp_step]. wlp_step. intros ? ? ? ?. by wlp_step.
Qed.

Lemma flags_start_device e s g : flags false g s → wlp (start_device e) s (start_flags e g).
Proof.
  intros Hs. unfold start_device. destruct (device_ok e) eqn:He; cbn [negb].
  2: { apply start_flags_fail. left. by rewrite He, !andb_false_r. }
  do 4 wlp_step. destruct (read_buffer_ok e) eqn:Hr; cbn [negb].
  2: { apply start_flags_fail. left. by rewrite Hr, andb_false_r. }
  do 5 wlp_step. eapply (wlp_mono _ _ (λ b s', flags false g s' ∧ (b = false → Options.given (Options.udpgw_remote_server_addr options) = true))).
  { unfold init_udpgw, SocksUdpGwClient_Init. destruct (Options.given _); by repeat wlp_step. }
  intros b s1 [Hs1 Hb]. destruct b; cbn [negb]; [by apply flags_start_lwip|]. apply start_flags_fail. right; right; left. auto.
Qed.

Lemma flags_start e s : wlp (start e) s (start_flags e (g_terminate s)).
Proof.
  unfold start, BNetwork_GlobalInit.
  assert (∀ i l s0, wlp (set_loglevels i l) s0 (λ _ s', s' = s0)) as Hlog.
  { intros i l s0 a s' es Hr. by eapply (wp_elim _ _ _ _ _ _ (set_loglevels_ok i l s0)). }
  wlp_step. eapply wlp_mono; [apply Hlog|]. intros ? s0 ->. cbn beta. do 7 wlp_step.
  destruct (network_ok e) eqn:Hn; [|wlp_step; cbn [negb]; apply start_flags_fail; left; by rewrite Hn].
  do 3 wlp_step. cbn [negb]. wlp_step. intros b s1 es Hr. unfold process_arguments in Hr.
  destruct (Arguments.process_arguments _ _ _ _) as [[[b' g] es']|] eqn:Hp; [|done]. injection Hr as <- <- _.
  destruct b'; cbn [negb]; [|apply start_flags_fail; right; right; right; eauto].
  wlp_step. unfold init_time. do 5 wlp_step.
  destruct (reactor_ok e) eqn:Hre; cbn [negb]; [|apply start_flags_fail; left; by rewrite Hre, andb_false_r].
  do 7 wlp_step. eapply (wlp_mono _ _ (λ b s', flags false (g_terminate s) s' ∧ (b = false → Options.set_signal options = true ∧ signal_ok e = false))).
  { unfold init_signal, BSignal_Init. destruct (Options.set_signal options), (signal_ok e); by repeat wlp_step. }
  intros b s2 [Hs2 Hb]. destruct b; cbn [negb]; [by apply flags_start_device|]. apply start_flags_fail. right; left. auto.
Qed.

(** How [run] ends, from the answers and the events. *)
Definition run_ends (e : answers) (g : bool) (evs : list loop_event) (r : run_end) : Prop :=
  match r with
  | Failed _ => blocked e
  | UdpFailed => True
  | Exited => ends (Options.given (Options.netif_ip6addr options)) g evs = true
  | Running => ends (Options.given (Options.netif_ip6addr options)) g evs = false
  end.

Lemma flags_run e evs s : wlp (run e evs) s (λ r _, run_ends e (g_terminate s) evs r).
Proof.
  unfold run. wlp_step. eapply wlp_mono; [apply flags_start|]. intros [r|] s1 Hr; cbn in Hr.
  - wlp_step. by destruct r.
  - wlp_step. eapply wlp_mono; [by apply flags_exec|]. cbn beta. intros b s2 Hb.
    destruct b; [|by wlp_step]. wlp_step. intros ? ? ? ?. by wlp_step.
Qed.

(** What [run] leaves behind. *)
Definition run_result (e : answers) (r : run_end) (s' : t) (_ : list event) : Prop :=
  match r with
  | Running => inv s' ∧ quitting s' = false
  | UdpFailed => udp_works e = false ∧ ended (udp_leak e) s'
  | _ => ended [] s'
  end.

Lemma run_leaves e evs s :
  NDEBUG = true → options_ok → startable s →
  (∀ s1 es1, start e s = Some (None, s1, es1) → schedule_ok evs s1) → wp (run e evs) s (run_result e).
Proof.
  intros Hn Ho Hs Hsch. pose proof (start_ok e s Hs Ho (or_introl Hn)) as Hst.
  apply wp_run in Hst as (r & s1 & es1 & Hrun & Hr). unfold run. wp_step. unfold wp at 1. rewrite Hrun.
  destruct r as [r|]; [apply wp_ret; by destruct r|]. destruct Hr as [Hi _]. wp_step.
  eapply wp_mono; [apply (exec_ok evs s1 Hi (Hsch s1 es1 Hrun))|]. intros left s2 es2 (Hi2 & -> & _). cbn beta.
  rewrite (iv_quit _ Hi2). destruct (quitting s2) eqn:Hq; [|by apply wp_ret].
  wp_step. eapply wp_mono; [by apply finish_ok|]. intros [] s3 es3 He. by apply wp_ret.
Qed.

Lemma ended_startable s : ended [] s → Options.set_signal options = false → startable s.
Proof. intros [] Hsig. split; auto. Qed.

(** ** The theorems *)

(** C11: in every state the event loop can reach, without assertions or in a first
    run with assertions whose signals are handled and whose relay has its socket (so
    not as Java calls it), the handler that is called next fails no assertion; the list of
    clients, their number and the clients themselves agree, and each client is in
    a state its own handlers can reach, so that what holds of one client holds of
    all of them; the loop is left exactly when the program quits, and a request
    to terminate followed by a timer ends it. *)
Theorem program_loop_safe e evs s s1 es1 :
  options_ok → startable s → build_ok e s → start e s = Some (None, s1, es1) → schedule_ok evs s1 →
  ∃ left s2 es2, BReactor_Exec evs s1 = Some (left, s2, es2) ∧
    clients_ok (tcp_clients s2) (num_clients s2) (heap s2) ∧
    left = quitting s2 ∧ (stops (g_terminate s1) evs = true → left = true).
Proof.
  intros Ho Hs Hb Hst Hsch. pose proof (wp_elim _ _ _ _ _ _ (start_ok e s Hs Ho Hb) Hst) as [Hi _].
  pose proof (exec_ok evs s1 Hi Hsch) as Hx. apply wp_run in Hx as (left & s2 & es2 & Hrun & Hi2 & Hl & _ & Hstop).
  exists left, s2, es2. split_and!; [done|apply Hi2| |done]. rewrite Hl. apply Hi2.
Qed.

(** C12: without assertions, [run] always returns or is still in its loop,
    whatever fails on the way, and it never frees anything twice.  It returns before
    the loop only when an answer of the system or an argument kept it from starting,
    and after the loop exactly when one of the events ended it.  When it
    returns, everything it acquired is released and no client is left, with one
    exception: when the socket of the DNS relay cannot be set up, the buffer for
    writing to the device and what [udp_init] had acquired remain.  If the signal
    handler was not asked for, the way Java calls it, it can then run again; with the
    handler this is not claimed, since nothing resets the flag of [BSignal_Init]. *)
Theorem run_releases e evs s :
  NDEBUG = true → options_ok → startable s →
  (∀ s1 es1, start e s = Some (None, s1, es1) → schedule_ok evs s1) →
  ∃ r s' es, run e evs s = Some (r, s', es) ∧ run_ends e (g_terminate s) evs r ∧
    match r with
    | Running => inv s' ∧ quitting s' = false
    | UdpFailed => udp_works e = false ∧ ended (udp_leak e) s'
    | _ => ended [] s' ∧ (Options.set_signal options = false → startable s')
    end.
Proof.
  intros Hn Ho Hs Hsch. pose proof (run_leaves e evs s Hn Ho Hs Hsch) as Hw.
  apply wp_run in Hw as (r & s' & es & Hrun & Hr). exists r, s', es. split; [done|]. split; [by eapply (flags_run e evs s)|].
  assert (ended [] s' → ended [] s' ∧ (Options.set_signal options = false → startable s')) as Hend.
  { intros He. split; [done|]. by apply ended_startable. }
  destruct r; auto.
Qed.

(** With assertions the program never gets to its end: once it has entered
    the loop, [run] does not return, because the descriptor of the DNS relay is
    still registered when the reactor is freed; and without a signal handler, as
    Java calls it, it only returns from failures before the reactor exists,
    because [BSignal_Finish] is called for signals that were never initialised. *)
Theorem assertions_fail_at_exit e evs s r s' es :
  NDEBUG = false → bsignal_initialized s = false → run e evs s = Some (r, s', es) →
  r = Running ∨ ∃ l, r = Failed l ∧ (Options.set_signal options = false → l = fail1).
Proof.
  intros Hn Hs. revert r s' es.
  enough (wlp (run e evs) s (λ r _, r = Running ∨ ∃ l, r = Failed l ∧ (Options.set_signal options = false → l = fail1)))
    as Hw by (intros; by eapply Hw). unfold run. wlp_step.
  eapply wlp_mono; [by apply debug_start|]. intros [r|] s1 Hr; cbn in Hr.
  - wlp_step. destruct r; try done. right. eauto.
  - wlp_step. eapply wlp_mono; [apply calm_exec|]. intros left s2 [_ Hf]. rewrite Hr in Hf.
    destruct left; [|wlp_step; by left]. wlp_step. eapply wlp_mono; [by apply debug_finish|]. done.
Qed.
End program.

(** ** Java

    [runTun2Socks] sets the options itself and calls [run]; it is called again,
    in the same process, whenever the VPN is started again. *)
Section java.
Context `{Build} {P : Type} `{Lwip P} `{Resolver} `{Channels}.
Context (open_file : string → option file_t) (alloc : Z → bool).

Record java_call := mk_java_call {
  vpnInterfaceFileDescriptor : Z;
  vpnInterfaceMTU : Z;
  vpnIpAddress : string;
  vpnNetMask : string;
  socksServerAddress : string;
  udpRelayAddress : string;
  dnsResolverAddress : string;
  transparentDNS : Z
}.

(** [prev]: the options of the previous call, as they are in memory. *)
Definition java_options (c : java_call) (prev : Options.options_t) : Options.options_t :=
  let o := Options.init_arguments "uProxy tun2socks" prev in
  Options.mk_options (Options.help o) (Options.version o) (Options.logger o) (Options.logger_syslog_facility o)
    (Options.logger_syslog_ident o) 4 (Options.loglevels o) (Options.tundev o)
    (Some (vpnIpAddress c)) (Some (vpnNetMask c)) (Options.netif_ip6addr o) (Some (socksServerAddress c))
    (Options.username o) (Options.password o) (Options.password_file o) (Options.append_source_to_username o)
    (Options.udpgw_remote_server_addr o) (Options.udpgw_max_connections o) (Options.udpgw_connection_buffer_size o)
    (negb (transparentDNS c =? 0)) (vpnInterfaceFileDescriptor c) (vpnInterfaceMTU c) false
    (Some (dnsResolverAddress c)) (Some (udpRelayAddress c)).

Definition Java_runTun2Socks (c : java_call) (prev : Options.options_t) (e : answers) (evs : list (@loop_event P))
    : M (@t P) event run_end :=
  mmodify (with_terminate false);;
  run open_file alloc (java_options c prev) e evs.

Lemma java_options_ok c prev : options_ok (java_options c prev).
Proof. split; [|done..]. right; right. by split_and!. Qed.

(** One call after the other, as long as they return. *)
Fixpoint java_session (prev : Options.options_t) (calls : list (java_call * answers * list (@loop_event P)))
    : M (@t P) event (list run_end) :=
  match calls with
  | [] => mret []
  | (c, e, evs) :: calls =>
      r ← Java_runTun2Socks c prev e evs;
      match r with
      | Running => mret [Running]
      | _ => rs ← java_session (java_options c prev) calls; mret (r :: rs)
      end
  end.

(** In every call the DNS relay gets its socket and the events of the loop come
    as the reactor and lwIP send them. *)
Fixpoint session_ok (prev : Options.options_t) (calls : list (java_call * answers * list (@loop_event P))) (s : t) : Prop :=
  match calls with
  | [] => True
  | (c, e, evs) :: calls =>
      udp_works e = true ∧
      (∀ s1 es1, start open_file alloc (java_options c prev) e (with_terminate false s) = Some (None, s1, es1) →
         schedule_ok (java_options c prev) evs s1) ∧
      ∀ r s' es, Java_runTun2Socks c prev e evs s = Some (r, s', es) → session_ok (java_options c prev) calls s'
  end.

Context `{LO : !LwipOk P}.

(** What the calls of a session return: a call ends before the loop only when one of
    the answers it needs, or its arguments, failed; otherwise it returns if one of its
    own events ends the loop, where no request to terminate has been made yet when it
    begins, and is still running if none does. *)
Fixpoint session_result (prev : Options.options_t) (calls : list (java_call * answers * list (@loop_event P)))
    (rs : list run_end) : Prop :=
  match calls, rs with
  | [], [] => True
  | (c, e, evs) :: calls, r :: rs =>
      let o := java_options c prev in
      match r with
      | Failed _ =>
          (network_ok e && reactor_ok e && device_ok e && read_buffer_ok e && write_buf_ok e = false ∨
           ∃ g g' es, Arguments.process_arguments open_file alloc o g = Some (false, g', es)) ∧ session_result o calls rs
      | UdpFailed => False
      | Exited => ends false false evs = true ∧ session_result o calls rs
      | Running => ends false false evs = false ∧ rs = []
      end
  | _, _ => False
  end.

(** What the last call of a session leaves. *)
Definition session_left (rs : list run_end) (s' : @t P) : Prop :=
  match last rs with Some Running => quitting s' = false | _ => startable s' end.

Lemma session_left_cons r rs s' : r ≠ Running → session_left rs s' → session_left (r :: rs) s'.
Proof. unfold session_left. rewrite last_cons. by destruct (last rs), r. Qed.

Lemma java_run_ok c prev e evs s :
  NDEBUG = true → startable s → udp_works e = true →
  (∀ s1 es1, start open_file alloc (java_options c prev) e (with_terminate false s) = Some (None, s1, es1) →
     schedule_ok (java_options c prev) evs s1) →
  ∃ r s' es, Java_runTun2Socks c prev e evs s = Some (r, s', es) ∧
    run_ends open_file alloc (java_options c prev) e false evs r ∧
    match r with
    | Running => inv (java_options c prev) s' ∧ quitting s' = false
    | UdpFailed => False
    | _ => startable s'
    end.
Proof.
  intros Hn Hs Hu Hsch. assert (startable (with_terminate false s)) as Hs0 by by destruct Hs.
  pose proof (run_leaves open_file alloc (java_options c prev) e evs _ Hn (java_options_ok c prev) Hs0 Hsch) as Hw.
  apply wp_run in Hw as (r & s' & es & Hrun & Hr). exists r, s', es. split.
  { unfold Java_runTun2Socks, mbind, M_bind, mmodify. cbv beta iota. by rewrite Hrun. }
  split; [exact (flags_run open_file alloc (java_options c prev) e evs _ r s' es Hrun)|].
  destruct r; cbn in Hr; try done; try by eapply (ended_startable (java_options c prev)). destruct Hr. congruence.
Qed.

(** C29: without assertions, Java can start and stop the program any number of
    times in one process, as long as the DNS relay gets its socket: every call
    returns or is still in its event loop, and a request to terminate ends the call it
    was made in and not the next.  A call ends before the loop only when an answer of
    the system or its arguments kept it from starting; else it returns exactly when one
    of its own events ended the loop: a request to terminate followed by a timer, an
    error of the device, a signal, or lwIP failing to start.  After a call that returned nothing is held and
    no client is left, so that the next call can start as the first did. *)
Theorem java_session_restarts calls prev s :
  NDEBUG = true → startable s → session_ok prev calls s →
  ∃ rs s' es, java_session prev calls s = Some (rs, s', es) ∧ session_result prev calls rs ∧ session_left rs s'.
Proof.
  intros Hn Hs Hok. revert prev s Hs Hok. induction calls as [|[[c e] evs] calls IH]; intros prev s Hs Hok; cbn [java_session].
  { by exists [], s, []. }
  destruct Hok as (Hu & Hsch & Hok). destruct (java_run_ok c prev e evs s Hn Hs Hu Hsch) as (r & s1 & es1 & Hrun & Hr & He).
  assert (startable s1 → ∃ rs s' es, java_session (java_options c prev) calls s1 = Some (rs, s', es) ∧
    session_result (java_options c prev) calls rs ∧ session_left rs s') as Hgo by (intros; apply IH; [done|by eapply Hok]).
  unfold mbind, M_bind. rewrite Hrun. destruct r as [l| | |]; cbn in Hr.
  - destruct (Hgo He) as (rs & s' & es & Hj & Hrs & Hl). rewrite Hj. eexists (Failed l :: rs), s', _.
    split; [reflexivity|]. split; [|by apply session_left_cons]. cbn. split; [|done].
    destruct Hr as [?|[[? _]|[?|?]]]; auto; done.
  - done.
  - destruct (Hgo He) as (rs & s' & es & Hj & Hrs & Hl). rewrite Hj. eexists (Exited :: rs), s', _.
    split; [reflexivity|]. split; [done|by apply session_left_cons].
  - eexists [Running], s1, _. split; [reflexivity|]. split; [done|]. by destruct He.
Qed.

(** With assertions a second call in the same process fails as soon as the
    first got past the network: [BNetwork_GlobalInit] insists on being called once. *)
Lemma java_second_run_asserts c prev e evs s :
  NDEBUG = false → bnetwork_initialized s = true → Java_runTun2Socks c prev e evs s = None.
Proof.
  intros Hn Hb. assert (run open_file alloc (java_options c prev) e evs (with_terminate false s) = None) as Hr.
  { destruct (run open_file alloc (java_options c prev) e evs (with_terminate false s)) as [[[r s'] es]|] eqn:Hr; [|done].
    by destruct (run_needs_network open_file alloc (java_options c prev) e evs (with_terminate false s) Hn Hb r s' es Hr). }
  unfold Java_runTun2Socks. unfold mbind, M_bind, mmodify. cbv beta iota. by rewrite Hr.
Qed.
End java.
End Program.

(** ** Runs

    Two small programs to apply the theorems to: one started from the command
    line and one by Java. *)
Section program_example.
Import Program.
#[local] Existing Instance numeric_resolver.
#[local] Instance program_channels : Channels := ["tun2socks"; "lwip"]%string.

#[local] Instance program_lwip : Lwip (list Z) := {
  TCP_WND := 16;
  tcp_sndbuf _ := 4;
  tcp_write p d := (ERR_OK, p ++ d);
  tcp_output p := (ERR_OK, p);
  tcp_close _ := ERR_OK;
  queued p := p
}.

#[local] Instance program_lwip_ok : LwipOk (list Z).
Proof.
  split; [done|done| |]; cbn; [|naive_solver].
  intros p d e p' [= <- <-]. by rewrite bool_decide_true.
Qed.

Definition no_file : string → option file_t := λ _, None.
Definition enough : Z → bool := λ _, true.
Definition all_works : answers := mk_answers true true true true 1500 true true true true 7 true true true (Some (1, 0)) (0, 0) [] [5] [].
Definition no_socket : answers := mk_answers true true true true 1500 true true true true (-1) true true true (Some (1, 0)) (0, 0) [] [] [].
Definition listening : listen_answers := mk_listen true true true.

Definition in_memory : @t (list Z) :=
  mk no_globals false false false false false false 0 0 [] 0 ∅ (λ _, false) false false false false (mk_btime false 0 false).

Definition a_connection : @accept_t (list Z) :=
  mk_accept false (nil (A:=Z)) 16777226 [] 20480 33554442 [] 4660 (Some 1) true true (replicate 16 0)
    (replicate (Z.to_nat CLIENT_SOCKS_RECV_BUF_SIZE) 0).

(** lwIP starts, a connection is accepted and sends data, and the program is
    told to stop. *)
Definition some_events : list (@loop_event (list Z)) :=
  [EvLwipInit true listening listening; EvAccept a_connection; EvClient 1 (TcpClient.ARecv (Some [1;2;3]));
   EvTimer; EvTerminate; EvTimer].

Definition java_start : java_call :=
  mk_java_call 42 1500 "10.0.0.2" "255.255.255.0" "127.0.0.1:1080" "127.0.0.1:7300" "8.8.8.8:53" 0.

Lemma in_memory_startable : startable in_memory.
Proof. split; [|done..|]; [intros []; done|]. split; [done|]. repeat constructor; unfold is_byte; lia. Qed.

(** A schedule whose events are all allowed, checked by running it. *)
Local Ltac run_schedule :=
  repeat first
    [ exact I
    | split; [first [reflexivity | exact I | (split_and!; [reflexivity|by intros p [= <-]|reflexivity..]) |
        (eexists _, _; split; [reflexivity|by cbn])]|]
    | let Hd := fresh in intros ? ? Hd; vm_compute in Hd; injection Hd as <- <-; cbn [schedule_ok] ].

Section released.
#[local] Instance release_build : Build := true.

Lemma run_releases_witness :
  startable in_memory ∧
  (∃ s' es, run no_file enough example_options all_works some_events in_memory = Some (Exited, s', es) ∧
     ended example_options [] s' ∧ es = [SetChannelLoglevel 0 3; SetChannelLoglevel 1 5; TcpAbort 5]) ∧
  ∃ s' es, run no_file enough example_options no_socket some_events in_memory = Some (UdpFailed, s', es) ∧
    ended example_options [UdpBuffer; WriteBuf] s'.
Proof.
  assert (options_ok example_options) as Ho by (split; [right; right; by split_and!|vm_compute; done..]).
  split; [exact in_memory_startable|split].
  - destruct (run_releases no_file enough example_options all_works some_events in_memory eq_refl Ho in_memory_startable)
      as (r & s' & es & Hrun & Hr).
    { intros s1 es1 Hs. vm_compute in Hs. injection Hs as <- <-. run_schedule. }
    pose proof Hrun as Hrun'. vm_compute in Hrun'. injection Hrun' as <- <- <-.
    eexists _, _. split; [exact Hrun|split; [apply Hr|reflexivity]].
  - destruct (run_releases no_file enough example_options no_socket some_events in_memory eq_refl Ho in_memory_startable)
      as (r & s' & es & Hrun & Hr).
    { intros s1 es1 Hs. vm_compute in Hs. discriminate. }
    pose proof Hrun as Hrun'. vm_compute in Hrun'. injection Hrun' as <- <- <-.
    eexists _, _. split; [exact Hrun|apply Hr].
Defined.

Lemma java_session_restarts_witness :
  startable in_memory ∧
  ∃ s' es, java_session no_file enough no_options
      [(java_start, all_works, some_events); (java_start, all_works, [EvLwipInit true listening listening; EvTimer])] in_memory =
      Some ([Exited; Running], s', es) ∧ quitting s' = false.
Proof.
  split; [exact in_memory_startable|].
  destruct (java_session_restarts no_file enough
    [(java_start, all_works, some_events); (java_start, all_works, [EvLwipInit true listening listening; EvTimer])]
    no_options in_memory eq_refl in_memory_startable) as (rs & s' & es & Hrun & _ & Hend).
  { split_and!; [reflexivity| |].
    { intros s1 es1 Hs. vm_compute in Hs. injection Hs as <- <-. run_schedule. }
    intros r s' es Hr. vm_compute in Hr. injection Hr as <- <- <-. split_and!; [reflexivity| |done].
    intros s1 es1 Hs. vm_compute in Hs. injection Hs as <- <-. run_schedule. }
  pose proof Hrun as Hrun'. vm_compute in Hrun'. injection Hrun' as <- <- <-.
  eexists _, _. split; [exact Hrun|exact Hend].
Defined.
End released.

Section debugged.
#[local] Instance assertions_build : Build := false.

Lemma program_loop_safe_witness :
  startable in_memory ∧ ∃ s1 es1, start no_file enough example_options all_works in_memory = Some (None, s1, es1) ∧
    schedule_ok example_options some_events s1 ∧
    ∃ s2 es2, BReactor_Exec example_options some_events s1 = Some (true, s2, es2) ∧ tcp_clients s2 = [1] ∧
      clients_ok (tcp_clients s2) (num_clients s2) (heap s2).
Proof.
  assert (options_ok example_options) as Ho by (split; [right; right; by split_and!|vm_compute; done..]).
  split; [exact in_memory_startable|]. eexists _, _. split; [vm_compute; reflexivity|]. split; [run_schedule|].
  edestruct (program_loop_safe no_file enough example_options all_works some_events in_memory) as (b & s2 & es2 & Hrun & Hc & _);
    [exact Ho|exact in_memory_startable|right; vm_compute; done|vm_compute; reflexivity|run_schedule|].
  pose proof Hrun as Hrun'. vm_compute in Hrun'. injection Hrun' as <- <- <-.
  eexists _, _. split; [exact Hrun|split; [reflexivity|exact Hc]].
Defined.

Lemma assertions_fail_at_exit_witness :
  (∃ s' es, run no_file enough example_options all_works [EvLwipInit true listening listening; EvTimer] in_memory =
     Some (Running, s', es)) ∧
  run no_file enough example_options all_works some_events in_memory = None ∧
  run no_file enough (java_options java_start no_options) no_socket [] in_memory = None.
Proof.
  split_and!; [|vm_compute; reflexivity..].
  destruct (run no_file enough example_options all_works [EvLwipInit true listening listening; EvTimer] in_memory)
    as [[[r s'] es]|] eqn:Hrun; [|vm_compute in Hrun; discriminate].
  exists s', es. destruct (assertions_fail_at_exit no_file enough example_options all_works
    [EvLwipInit true listening listening; EvTimer] in_memory r s' es eq_refl eq_refl Hrun) as [->|(l & -> & _)]; [done|].
  vm_compute in Hrun. discriminate.
Defined.
End debugged.
End program_example.
